(* ===== verification/_CoqProject ===== *)
-Q . S2P
Prelude.v
Dirent.v
Tmpfs.v
TmpfsInv.v
TmpfsData.v
TmpfsDir.v
Vfs.v
VfsProofs.v
VfsDir.v
VfsInv.v
Pipe.v
PipeProofs.v
Mmap.v
MmapProofs.v
Sched.v
SchedInv.v
SchedSafe.v
SchedLocks.v
SchedThms.v
SchedFutex.v
Rtc.v
Clock.v
Virtq.v
VirtqInv.v
VirtqRun.v
VirtqThms.v
VirtqOwn.v
Net.v
NetProofs.v
Socket.v
SocketProofs.v
Rng.v
Syscall.v
Descriptors.v
SyscallInv.v
SyscallFds.v
SyscallData.v
Elf.v
Boot.v
Acpi.v
Pci.v
PciProofs.v
Transport.v
TransportProofs.v
TransportMmio.v
TransportPci.v
Discovery.v
Ena.v
EnaProofs.v
EnaInit.v
Channel.v
ChannelVirtq.v
InboxVirtq.v
Vsock.v
VsockProofs.v
VsockStream.v
VsockSafe.v
VsockUp.v
Blk.v
BlkProofs.v
Console.v
ConsoleProofs.v
Input.v
P9.v
Edid.v
Gpu.v
GpuProofs.v
Sound.v
SoundProofs.v
SoundCtl.v
DevicesUp.v
