(* ===== verification/Prelude.v ===== *)
(** * Verification of the Tyn unikernel

    Tyn is a kernel in Rust that boots on a virtual machine, loads one program (the Erlang
    machine BEAM) into its own address space and serves its Linux system calls.  This
    library models the kernel ([src/src/]) and the patched virtio drivers it is built with
    ([src/virtio-drivers-patched/src/]) as functions of Rocq, translated from the source,
    and proves what makes them correct.

    ** The program and its parts

    [main] ([main.rs]) finds the processors ([acpi.rs]) and a network card, over the PCI bus
    ([transport/pci/bus.rs]) and a virtio transport ([transport/]) or the card of AWS
    ([net/ena/]); it puts the archive of files in place ([vfs.rs]), loads the program
    ([elf.rs]), builds its stack, and enters it.  From then on everything is a system call
    ([syscall.rs]), which goes to the component that owns the descriptor or the resource: the
    two file systems ([tmpfs.rs], [vfs.rs]), pipes ([pipe.rs]), sockets ([net/socket.rs]) over
    the crate smoltcp, mappings, clocks, random numbers ([rng.rs]), or the scheduler
    ([sched.rs]), which runs the program's threads on all processors and implements futexes.
    Packets go through virtqueues ([queue.rs]) or the rings of ENA.  The crate of virtio
    drivers has eight more drivers over the same queues and transports (disk, console,
    entropy, shared directory, input, sockets, graphics, sound).

    ** Conventions

    Integers are [Z]; an operation of a Rust type of [n] bits is wrapped with [u8] .. [u64],
    as the release build does.  Code that can panic returns an [outcome]: [Ret], [Panic], or
    [OutOfFuel] for a loop that has not ended.  [Result] is Rust's, with the operator [?] as
    [do?].  Memory is a function from addresses to bytes; a pointer of the program is an
    address.  A static of the source is a field of its component's record [state].  Where
    threads or processors interleave, a step is what runs under one lock or one atomic
    instruction, and theorems quantify over all sequences of steps.  What is not the code's
    (a device, the firmware, smoltcp, ChaCha20, the allocator of DMA memory) is a class or
    an argument, with what the code relies on of it as the laws of a second class ([Hal] and
    [DmaOk], [Mmio] and [PciDevice], [Smoltcp] and [SmoltcpOk], [Device] and [BlockDevice],
    ...); each theorem that has such a hypothesis comes with a witness at a concrete
    instance.

    ** Files

    - Shared: this file (machine integers, [outcome], memory, lists, tactics), [Dirent]
      (records of [getdents64]).
    - Writable file system ([tmpfs.rs]): [Tmpfs] is the code; [TmpfsInv] the invariants of
      accounting, descriptors and tree ([tmpfs_tree_wf]); [TmpfsData] exact writes
      ([write_exact]) and round trips; [TmpfsDir] listings.
    - Read-only file system ([vfs.rs]): [Vfs]; [VfsProofs] (the archive format as an encoder,
      lookups as its decoder: [open_read_member]), [VfsDir], [VfsInv].
    - Pipes ([pipe.rs]): [Pipe], [PipeProofs] ([pipe_fifo]: refinement of a bounded queue).
    - Mappings (the [brk] and [mmap] handlers of [syscall.rs]): [Mmap], [MmapProofs]
      ([mappings_disjoint]).
    - Scheduler ([sched.rs]): [Sched] is a machine that interleaves the processors; [SchedInv]
      and [SchedSafe] its invariant, [SchedLocks], [SchedThms] and [SchedFutex] the theorems:
      a thread is in one place ([one_place_per_thread]), no stack runs twice
      ([stacks_never_mixed]), locks exclude and do not deadlock ([locks_exclude],
      [no_deadlock]), wakes miss nobody and idle processors are woken
      ([wake_misses_nobody], [idle_cpu_is_woken]).
    - Time ([rtc.rs], the clock part of [syscall.rs]): [Rtc], [Clock]
      ([clock_never_goes_back]).
    - Virtqueues ([queue.rs], [queue/owning.rs], [hal.rs]): [Virtq]; [VirtqInv], [VirtqRun]
      the invariant; [VirtqThms], [VirtqOwn] the theorems ([virtq_refines]: a table of
      outstanding requests, against any device; [virtq_device_reads]).
    - Network ([device/net/], [net/device.rs], [drivers/virtio/hal.rs]): [Net], [NetProofs]
      ([net_never_stuck], [net_receives]).
    - Sockets ([net/socket.rs], [net/mod.rs]): [Socket], [SocketProofs]
      ([sockets_never_mixed], [accept_takes_first]).
    - Random numbers ([rng.rs]): [Rng].
    - System calls ([syscall.rs]): [Syscall] composes the components; [Descriptors] their
      descriptors; [SyscallInv] ([syscalls_safe]), [SyscallFds] ([descriptor_table],
      [one_owner]), [SyscallData] ([epoll_reports], gathered writes, [sendfile]).
    - Boot ([elf.rs], [main.rs], [acpi.rs]): [Elf] ([elf_loads]), [Boot] ([boot_hands_over]),
      [Acpi].
    - Buses and transports ([transport/]): [Pci], [PciProofs] ([capabilities_walk]);
      [Transport], with the trait as a class; [TransportProofs], [TransportMmio],
      [TransportPci]: the PCI transport and both versions of the memory-mapped one keep the
      contract [TransportOk], and against it the handshake and the queues are right
      ([net_device_ready], [pci_new_exact]); [Discovery] (the search of [main.rs]).
    - ENA ([net/ena/]): [Ena], [EnaProofs] ([ena_refines_queues]), [EnaInit]
      ([ena_comes_up]).
    - The interface between queues and drivers: [Channel] states, on the level of bytes, what
      a queue promises to a driver (a request and its answer, a stock of receive buffers);
      [ChannelVirtq] and [InboxVirtq] show that the virtqueues of [Virtq] keep it.  The
      drivers below are proved against the interface, and their witnesses run them on
      virtqueues.
    - Virtio sockets ([device/socket/]): [Vsock], [VsockUp]; [VsockProofs], [VsockStream]
      ([vsock_stream]: two connected managers are two streams with credit), [VsockSafe]
      ([vsock_isolated]; [repeated_request_closes]).
    - Other virtio drivers ([device/]): [Blk], [BlkProofs] ([blk_refines_disk]); [Console],
      [ConsoleProofs] ([console_stream]); [Input] ([input_in_order]); [P9] (entropy and shared
      directories); [Edid] ([edid_roundtrip]), [Gpu], [GpuProofs] ([framebuffer_shown], and
      what failures leave: [refused_scanout_frees_backing]); [Sound], [SoundProofs]
      ([pcm_xfer_plays]), [SoundCtl]; [DevicesUp] brings all of them up over any transport
      ([devices_come_up]).

    ** What the theorems assume

    A theorem that says that nothing panics says it under the conditions in its statement,
    which its comment names; where the code breaks one of them, the failing case is part of
    the statement, or a theorem of its own.  [sockets_never_mixed] gives the one kind of
    section that panics, [console_stream] the two calls that do, [syscalls_safe] the
    arguments it leaves out, [repeated_request_closes] both answers to a request the source
    means to ignore.  The drivers are brought up ([devices_come_up], [net_device_ready]) on
    devices with large enough queues and configurations; a device that refuses the features
    is put into operation all the same, and the theorems give its status.  [vsock_isolated]
    needs receive buffers of at least a byte, [framebuffer_shown] pictures of less than 2^32
    bytes, [input_in_order] a device that names buffers by their index, [mappings_disjoint]
    fixed mappings below the bump pointer, and [boot_hands_over] a well-formed archive.

    ** Bounds and fuel

    Loops over data in memory recurse on the data, or on fuel that the theorems show to be
    enough: one unit per header for the scans of an archive ([S (length data)]), one per
    entry for the tables of ACPI and the capabilities of PCI (a list of capabilities that
    runs in a circle is the one case in which the source does not end either).  Loops that
    wait for a device, another thread or the clock take what they see at each look as a
    list; the theorems say how many looks are enough, or hold for every list, and a call
    that has seen the whole list without its answer is [OutOfFuel], which no theorem on
    success allows.  Reads of a device's configuration that must be consistent need one
    round against a device whose configuration does not change ([read_consistent]).  Sizes
    fixed by the source (256 open files, 16 pipes of 4096 bytes, 16 processors, queues of 2
    to 64 entries, pages of 4096 bytes) are kept as they are; the size of a virtqueue is any
    power of two it can have.

    ** Not modelled

    Model-specific registers, interrupt descriptor tables, the local APIC, the start of the
    other processors and assembly stubs ([smp.rs], [apic.rs], [interrupts.rs], [percpu.rs],
    [boot.rs], [multiboot.S]): what the scheduler relies on of them, timer ticks and wake-up
    interrupts, are steps of [Sched].  The serial port and the log ([serial.rs], and every
    [serial_println!], [info!] and [debug!]).  The heap ([memory/], the crate
    linked_list_allocator).  What [main] does between the search for a module and the copy of
    the executable (heap, interrupts, calibration, processors, generator), whose steps belong
    to the components.  The earlier single-processor threads ([thread.rs]), which nothing
    uses any more.  The transports of other machines ([transport/some.rs],
    [transport/x86_64.rs]), test doubles, tests and examples.  The native functions and Erlang
    modules that run on the Erlang machine, above the kernel.  Processor memory ordering:
    atomic operations and critical sections are single steps. *)

From Stdlib Require Export ZArith Lia String Ascii.
From stdpp Require Export base list gmap numbers option sorting.
Open Scope Z_scope.

Declare Scope kernel_scope.
Delimit Scope kernel_scope with kernel.

(** ** Machine integers

    The kernel is built with [cargo build --release] and no overflow checks,
    so an operator of Rust wraps at the width of its type. *)

Definition u8 (z : Z) : Z := z mod 2 ^ 8.
Definition u16 (z : Z) : Z := z mod 2 ^ 16.
Definition u32 (z : Z) : Z := z mod 2 ^ 32.
Definition u64 (z : Z) : Z := z mod 2 ^ 64.
Definition i32 (z : Z) : Z := (z + 2 ^ 31) mod 2 ^ 32 - 2 ^ 31.
Definition i64 (z : Z) : Z := (z + 2 ^ 63) mod 2 ^ 64 - 2 ^ 63.

Definition U64_MAX : Z := 2 ^ 64 - 1.
Definition I64_MAX : Z := 2 ^ 63 - 1.

(** [saturating_sub], [saturating_add] and [saturating_mul] of [u64]/[usize]. *)
Definition sat_sub (a b : Z) : Z := Z.max 0 (a - b).
Definition sat_add (a b : Z) : Z := Z.min U64_MAX (a + b).
Definition sat_mul (a b : Z) : Z := Z.min U64_MAX (a * b).

(** [(x + a - 1) & !(a - 1)] is written out at its uses; this is [x & !m] for
    a 64-bit [x] and a low mask [m]. *)
Definition and_not (x m : Z) : Z := Z.land x (Z.lxor U64_MAX m).

(** ** Outcomes

    [Panic] is a Rust panic (a slice out of range, a capacity overflow),
    [OutOfFuel] the exhaustion of the fuel a [while] loop is modelled with. *)

Inductive outcome (A : Type) : Type :=
| Ret (a : A)
| Panic
| OutOfFuel.
Arguments Ret {A} a.
Arguments Panic {A}.
Arguments OutOfFuel {A}.

Definition obind {A B} (o : outcome A) (f : A -> outcome B) : outcome B :=
  match o with Ret a => f a | Panic => Panic | OutOfFuel => OutOfFuel end.

Notation "'do!' x <- e ; k" := (obind e (fun x => k))
  (at level 10, x pattern, e at level 100, k at level 200) : kernel_scope.
Open Scope kernel_scope.

(** [assert!]. *)
Definition assert (c : bool) : outcome unit := if c then Ret tt else Panic.

(** ** Byte strings *)

Abbreviation bytes := (list Z).

Definition zlen {A} (l : list A) : Z := Z.of_nat (length l).

Fixpoint b (s : string) : bytes :=
  match s with
  | EmptyString => []
  | String c s' => Z.of_N (N_of_ascii c) :: b s'
  end.

Definition SLASH : Z := 47.

Fixpoint bytes_eqb (l k : bytes) : bool :=
  match l, k with
  | [], [] => true
  | x :: l', y :: k' => (x =? y) && bytes_eqb l' k'
  | _, _ => false
  end.

(** [l.starts_with(p)] of a slice. *)
Fixpoint starts_with (l p : bytes) : bool :=
  match p, l with
  | [], _ => true
  | y :: p', x :: l' => (x =? y) && starts_with l' p'
  | _ :: _, [] => false
  end.

(** [l[from..to]] of a slice: a range that is reversed or ends past the slice
    panics. *)
Definition slice (l : bytes) (from to : Z) : outcome bytes :=
  if (from <=? to) && (to <=? zlen l)
  then Ret (take (Z.to_nat (to - from)) (drop (Z.to_nat from) l))
  else Panic.

(** [iter().position(f)]: the index of the first element that satisfies [f]. *)
Fixpoint position {A} (f : A -> bool) (l : list A) : option nat :=
  match l with
  | [] => None
  | x :: l' => if f x then Some 0%nat else S <$> position f l'
  end.

(** [iter().rposition(f)]. *)
Fixpoint rposition {A} (f : A -> bool) (l : list A) : option nat :=
  match l with
  | [] => None
  | x :: l' => match rposition f l' with
               | Some i => Some (S i)
               | None => if f x then Some 0%nat else None
               end
  end.

(** [Vec::swap_remove]: the last element takes the removed one's place. *)
Definition swap_remove {A} (l : list A) (i : nat) : list A :=
  match last l with
  | Some x => take (length l - 1) (<[i := x]> l)
  | None => l
  end.

(** ** Identity-mapped memory

    User pointers are dereferenced directly by the kernel: memory is a total
    map from addresses to bytes. *)

Abbreviation mem := (Z -> Z).

Fixpoint mem_read (m : mem) (p : Z) (n : nat) : bytes :=
  match n with
  | O => []
  | S n' => m p :: mem_read m (p + 1) n'
  end.

(** [copy_nonoverlapping(l, p, l.len())]. *)
Definition mem_write (m : mem) (p : Z) (l : bytes) : mem :=
  fun a => if p <=? a
           then match l !! Z.to_nat (a - p) with Some x => x | None => m a end
           else m a.

(** [write_bytes(p, 0, n)]. *)
Definition mem_zero (m : mem) (p n : Z) : mem :=
  fun a => if (p <=? a) && (a <? p + n) then 0 else m a.

Fixpoint le_bytes (n : nat) (v : Z) : bytes :=
  match n with
  | O => []
  | S n' => v mod 256 :: le_bytes n' (v / 256)
  end.

Fixpoint le_val (l : bytes) : Z :=
  match l with [] => 0 | x :: l' => x + 256 * le_val l' end.

Definition store8 (m : mem) (p v : Z) : mem := mem_write m p [u8 v].
Definition store16 (m : mem) (p v : Z) : mem := mem_write m p (le_bytes 2 v).
Definition store32 (m : mem) (p v : Z) : mem := mem_write m p (le_bytes 4 v).
Definition store64 (m : mem) (p v : Z) : mem := mem_write m p (le_bytes 8 v).
Definition load16 (m : mem) (p : Z) : Z := u16 (le_val (mem_read m p 2)).
Definition load32 (m : mem) (p : Z) : Z := u32 (le_val (mem_read m p 4)).
Definition load64 (m : mem) (p : Z) : Z := u64 (le_val (mem_read m p 8)).

(** ** Hint databases and tactics *)

Create HintDb kernel.
Create Rewrite HintDb kernel.

(** Case analysis on the innermost [if]/[match] of the goal or hypotheses. *)
Ltac break_match :=
  match goal with
  | |- context [match ?x with _ => _ end] => destruct x eqn:?
  | H : context [match ?x with _ => _ end] |- _ => destruct x eqn:?
  end.

(** Turn boolean tests on integers into propositions. *)
Ltac bool_to_prop :=
  repeat match goal with
  | H : _ && _ = true |- _ => apply andb_true_iff in H; destruct H
  | H : _ || _ = false |- _ => apply orb_false_iff in H; destruct H
  | H : (_ =? _) = true |- _ => apply Z.eqb_eq in H
  | H : (_ =? _) = false |- _ => apply Z.eqb_neq in H
  | H : (_ <? _) = true |- _ => apply Z.ltb_lt in H
  | H : (_ <? _) = false |- _ => apply Z.ltb_ge in H
  | H : (_ <=? _) = true |- _ => apply Z.leb_le in H
  | H : (_ <=? _) = false |- _ => apply Z.leb_gt in H
  | H : negb _ = true |- _ => apply negb_true_iff in H
  | H : negb _ = false |- _ => apply negb_false_iff in H
  end.

(** ** Generic lemmas *)

Lemma u64_small z : 0 <= z < 2 ^ 64 -> u64 z = z.
Proof. intros; apply Z.mod_small; lia. Qed.

Lemma u64_range z : 0 <= u64 z < 2 ^ 64.
Proof. apply Z.mod_pos_bound; lia. Qed.

Lemma u16_small z : 0 <= z < 2 ^ 16 -> u16 z = z.
Proof. apply Z.mod_small. Qed.

Lemma u32_small z : 0 <= z < 2 ^ 32 -> u32 z = z.
Proof. intros; apply Z.mod_small; lia. Qed.

Lemma i32_small z : - 2 ^ 31 <= z < 2 ^ 31 -> i32 z = z.
Proof. intros; unfold i32; rewrite Z.mod_small; lia. Qed.

Lemma i64_small z : - 2 ^ 63 <= z < 2 ^ 63 -> i64 z = z.
Proof. intros; unfold i64; rewrite Z.mod_small; lia. Qed.

Lemma i64_range z : - 2 ^ 63 <= i64 z < 2 ^ 63.
Proof.
  unfold i64. pose proof (Z.mod_pos_bound (z + 2 ^ 63) (2 ^ 64)). lia.
Qed.

(** [x & !(2^k - 1)] clears the low [k] bits of a 64-bit word. *)
Lemma and_not_ones x k :
  0 <= x < 2 ^ 64 -> 0 <= k <= 64 -> and_not x (Z.ones k) = x - x mod 2 ^ k.
Proof.
  intros Hx Hk. unfold and_not.
  assert (Z.land x (Z.lxor U64_MAX (Z.ones k)) = Z.ldiff x (Z.ones k)) as ->.
  { apply Z.bits_inj'; intros n Hn. rewrite Z.ldiff_spec, Z.land_spec, Z.lxor_spec.
    change U64_MAX with (Z.ones 64).
    destruct (Z.lt_ge_cases n 64) as [Hlt|Hge].
    - rewrite (Z.ones_spec_low 64) by lia. done.
    - destruct (Z.eq_dec x 0) as [->|Hx0]; [by rewrite Z.bits_0|].
      rewrite (Z.bits_above_log2 x); [done|lia|].
      apply Z.lt_le_trans with 64; [apply Z.log2_lt_pow2; lia|lia]. }
  rewrite Z.ldiff_ones_r, Z.shiftl_mul_pow2, Z.shiftr_div_pow2 by lia.
  pose proof (Z.div_mod x (2 ^ k)). lia.
Qed.

(** Rounding up to a page. *)
Lemma page_round_spec x :
  0 <= x < 2 ^ 64 - 4096 -> x <= and_not (u64 (x + 4095)) 4095 < x + 4096 /\ and_not (u64 (x + 4095)) 4095 mod 4096 = 0.
Proof.
  intros Hx. rewrite u64_small by lia. change 4095 with (Z.ones 12) at 2 4 6. rewrite and_not_ones by lia. change (2 ^ 12) with 4096.
  Z.div_mod_to_equations. lia.
Qed.

Lemma land_bound a m n : 0 <= n -> 0 <= m < 2 ^ n -> 0 <= Z.land a m < 2 ^ n.
Proof.
  intros Hn Hm. replace (Z.land a m) with (Z.land (Z.land a m) (Z.ones n)).
  - rewrite Z.land_ones by done. apply Z.mod_pos_bound. lia.
  - rewrite <- Z.land_assoc. f_equal. rewrite Z.land_ones by done. by apply Z.mod_small.
Qed.

Lemma lor_low a n c : 0 <= n -> 0 <= c < 2 ^ n -> Z.lor (Z.shiftl a n) c = a * 2 ^ n + c.
Proof.
  intros Hn Hc. rewrite <- Z.shiftl_mul_pow2, Z.add_nocarry_lor; [done| |done]. apply Z.bits_inj'. intros i Hi. rewrite Z.land_spec, Z.bits_0.
  destruct (Z.lt_ge_cases i n) as [Hlt|Hge]; [by rewrite Z.shiftl_spec_low|].
  destruct (Z.eq_dec c 0) as [->|Hc0]; [by rewrite Z.bits_0, andb_false_r|].
  rewrite (Z.bits_above_log2 c i), andb_false_r; [done|lia|]. apply Z.log2_lt_pow2; [lia|].
  eapply Z.lt_le_trans; [apply Hc|]. by apply Z.pow_le_mono_r.
Qed.

Lemma zlen_nonneg {A} (l : list A) : 0 <= zlen l.
Proof. unfold zlen; lia. Qed.

Lemma zlen_app {A} (l k : list A) : zlen (l ++ k) = zlen l + zlen k.
Proof. unfold zlen; rewrite length_app; lia. Qed.

Lemma zlen_cons {A} (x : A) l : zlen (x :: l) = 1 + zlen l.
Proof. unfold zlen; simpl; lia. Qed.

Lemma zlen_nil {A} : zlen (@nil A) = 0.
Proof. reflexivity. Qed.

#[export] Hint Resolve zlen_nonneg : kernel.
#[export] Hint Rewrite @zlen_app @zlen_cons @zlen_nil : kernel.

Lemma bytes_eqb_eq l k : bytes_eqb l k = true <-> l = k.
Proof.
  revert k; induction l as [|x l IH]; intros [|y k]; simpl; try easy.
  rewrite andb_true_iff, Z.eqb_eq, IH. split; [intros [-> ->]|intros [= -> ->]]; auto.
Qed.

Lemma bytes_eqb_refl l : bytes_eqb l l = true.
Proof. by apply bytes_eqb_eq. Qed.

Lemma bytes_eqb_neq l k : bytes_eqb l k = false <-> l <> k.
Proof. rewrite <- bytes_eqb_eq. destruct (bytes_eqb l k); naive_solver. Qed.

Lemma starts_with_spec l p : starts_with l p = true <-> exists r, l = p ++ r.
Proof.
  revert l; induction p as [|y p IH]; intros [|x l]; simpl.
  - split; [by exists [] |done].
  - split; [by exists (x :: l)|done].
  - split; [done|by intros [r [=]]].
  - rewrite andb_true_iff, Z.eqb_eq, IH. split.
    + intros [-> [r ->]]. by exists r.
    + intros [r [= -> ->]]. eauto.
Qed.

Lemma starts_with_app p r : starts_with (p ++ r) p = true.
Proof. apply starts_with_spec; eauto. Qed.

Lemma position_Some {A} (f : A -> bool) l i :
  position f l = Some i ->
  exists x, l !! i = Some x /\ f x = true /\
            forall j y, (j < i)%nat -> l !! j = Some y -> f y = false.
Proof.
  revert i; induction l as [|x l IH]; intros i; simpl; [done|].
  destruct (f x) eqn:Hf; [intros [= <-]|].
  - exists x; repeat split; auto. intros j y Hj; lia.
  - destruct (position f l) as [k|] eqn:Hk; simpl; [|done]. intros [= <-].
    destruct (IH k eq_refl) as (y & Hy & Hfy & Hlt). exists y; repeat split; auto.
    intros [|j] z Hj Hz; simpl in Hz; [congruence|]. apply (Hlt j z); auto; lia.
Qed.

Lemma position_None {A} (f : A -> bool) l :
  position f l = None <-> Forall (fun x => f x = false) l.
Proof.
  induction l as [|x l IH]; simpl; [split; auto|].
  destruct (f x) eqn:Hf; split; intros H; try easy.
  - inversion H; congruence.
  - constructor; [done|]. apply IH. by destruct (position f l).
  - inversion H; subst. apply IH in H3 as ->. done.
Qed.

Lemma swap_remove_perm {A} (l : list A) i r : l !! i = Some r -> l ≡ₚ r :: swap_remove l i.
Proof.
  intros Hi. unfold swap_remove. destruct l as [|y l _] using rev_ind; [done|].
  rewrite last_snoc, length_app. simpl length. replace (length l + 1 - 1)%nat with (length l) by lia.
  destruct (decide (i < length l)%nat) as [Hlt|Hge].
  - rewrite lookup_app_l in Hi by done. rewrite insert_app_l by done.
    rewrite take_app_length' by (by rewrite length_insert).
    apply list_elem_of_split_length in Hi as (l1 & l2 & -> & ->).
    rewrite insert_app_r_alt, Nat.sub_diag, <- app_assoc by lia. simpl.
    rewrite <- (Permutation_middle l1 (l2 ++ [y]) r). constructor.
    rewrite app_assoc, (Permutation_app_comm (l1 ++ l2) [y]). simpl. by rewrite Permutation_middle.
  - pose proof (lookup_lt_Some _ _ _ Hi) as Hl. rewrite length_app in Hl. simpl in Hl.
    assert (i = length l) as -> by lia. rewrite lookup_app_r, Nat.sub_diag in Hi by lia. injection Hi as ->.
    rewrite insert_app_r_alt, Nat.sub_diag by lia. simpl. rewrite take_app_length.
    by rewrite (Permutation_app_comm l [r]).
Qed.

(** The whole list splits around the position found. *)
Lemma position_split {A} (f : A -> bool) l i :
  position f l = Some i ->
  exists l1 x l2, l = l1 ++ x :: l2 /\ length l1 = i /\ f x = true /\
                  Forall (fun y => f y = false) l1.
Proof.
  revert i; induction l as [|x l IH]; intros i; simpl; [done|].
  destruct (f x) eqn:Hf; [intros [= <-]; by exists [], x, l|].
  destruct (position f l) as [k|] eqn:Hk; simpl; [|done]. intros [= <-].
  destruct (IH k eq_refl) as (l1 & y & l2 & -> & <- & Hy & HF).
  exists (x :: l1), y, l2; repeat split; auto.
Qed.

(** *** Memory *)

Lemma mem_read_length m p n : length (mem_read m p n) = n.
Proof. revert p; induction n; intros; simpl; auto. Qed.

Lemma mem_read_lookup m p n i :
  (i < n)%nat -> mem_read m p n !! i = Some (m (p + Z.of_nat i)).
Proof.
  revert p i; induction n; intros p i Hi; [lia|]. destruct i; simpl.
  - f_equal; f_equal; lia.
  - rewrite IHn by lia. f_equal; f_equal; lia.
Qed.

Lemma mem_read_ext m m' p n :
  (forall a, p <= a < p + Z.of_nat n -> m a = m' a) ->
  mem_read m p n = mem_read m' p n.
Proof.
  revert p; induction n; intros p H; simpl; [done|].
  rewrite (H p) by lia. f_equal. apply IHn. intros; apply H; lia.
Qed.

Lemma mem_read_app m p n k :
  mem_read m p (n + k) = mem_read m p n ++ mem_read m (p + Z.of_nat n) k.
Proof.
  revert p; induction n; intros p; simpl.
  - f_equal; lia.
  - f_equal. rewrite IHn. do 2 f_equal; lia.
Qed.

Lemma mem_read_take m p n k :
  (k <= n)%nat -> take k (mem_read m p n) = mem_read m p k.
Proof.
  intros H. replace n with (k + (n - k))%nat by lia.
  rewrite mem_read_app, take_app_le, take_ge by (rewrite mem_read_length; lia). done.
Qed.

Lemma mem_write_outside m p l a :
  a < p \/ p + zlen l <= a -> mem_write m p l a = m a.
Proof.
  unfold mem_write, zlen; intros H. destruct (p <=? a) eqn:E; [|done].
  bool_to_prop. rewrite lookup_ge_None_2; [done|lia].
Qed.

Lemma mem_write_inside m p l i x :
  l !! i = Some x -> mem_write m p l (p + Z.of_nat i) = x.
Proof.
  unfold mem_write; intros H.
  replace (p <=? p + Z.of_nat i) with true by (symmetry; apply Z.leb_le; lia).
  replace (Z.to_nat (p + Z.of_nat i - p)) with i by lia. by rewrite H.
Qed.

Lemma mem_read_write_same m p l : mem_read (mem_write m p l) p (length l) = l.
Proof.
  apply list_eq; intros i. destruct (decide (i < length l)%nat) as [Hi|Hi].
  - rewrite mem_read_lookup by done. destruct (lookup_lt_is_Some_2 l i Hi) as [x Hx].
    rewrite Hx. f_equal. by apply mem_write_inside.
  - rewrite !lookup_ge_None_2; [done|lia|rewrite mem_read_length; lia].
Qed.

Lemma mem_read_write_disjoint m p l q n :
  q + Z.of_nat n <= p \/ p + zlen l <= q ->
  mem_read (mem_write m p l) q n = mem_read m q n.
Proof.
  intros H. apply mem_read_ext; intros a Ha. apply mem_write_outside; lia.
Qed.

Lemma mem_write_app m p l k a :
  mem_write m p (l ++ k) a = mem_write (mem_write m p l) (p + zlen l) k a.
Proof.
  unfold mem_write, zlen. destruct (p <=? a) eqn:E1, (p + Z.of_nat (length l) <=? a) eqn:E2;
    bool_to_prop; try lia; auto.
  - rewrite lookup_app_r by lia.
    replace (Z.to_nat (a - p) - length l)%nat
      with (Z.to_nat (a - (p + Z.of_nat (length l)))) by lia.
    destruct (k !! _) eqn:Hk; [done|]. rewrite lookup_ge_None_2 by lia. done.
  - rewrite lookup_app_l by lia. done.
Qed.

Lemma mem_zero_outside m p n a : a < p \/ p + n <= a -> mem_zero m p n a = m a.
Proof.
  unfold mem_zero; intros H. destruct (_ && _) eqn:E; [|done]. bool_to_prop. lia.
Qed.

Lemma mem_read_zero_disjoint m p n q k :
  q + Z.of_nat k <= p \/ p + n <= q -> mem_read (mem_zero m p n) q k = mem_read m q k.
Proof. intros H. apply mem_read_ext; intros a Ha. apply mem_zero_outside; lia. Qed.

Lemma mem_read_zero_same m p k :
  mem_read (mem_zero m p (Z.of_nat k)) p k = replicate k 0.
Proof.
  apply list_eq; intros i. destruct (decide (i < k)%nat) as [Hi|Hi].
  - rewrite mem_read_lookup, lookup_replicate_2 by done. f_equal. unfold mem_zero.
    replace (_ && _) with true; [done|]. symmetry.
    apply andb_true_iff; rewrite Z.leb_le, Z.ltb_lt; lia.
  - rewrite !lookup_ge_None_2; [done|rewrite length_replicate; lia|rewrite mem_read_length; lia].
Qed.

(** *** Little-endian words *)

Lemma le_bytes_length n v : length (le_bytes n v) = n.
Proof. revert v; induction n; intros; simpl; auto. Qed.

Lemma mem_read_le m p n v : mem_read (mem_write m p (le_bytes n v)) p n = le_bytes n v.
Proof.
  pose proof (mem_read_write_same m p (le_bytes n v)) as H.
  by rewrite le_bytes_length in H.
Qed.

Lemma le_val_bytes n v : 0 <= v < 256 ^ Z.of_nat n -> le_val (le_bytes n v) = v.
Proof.
  revert v; induction n; intros v Hv; [simpl in *; lia|].
  cbn [le_bytes le_val]. rewrite IHn.
  - pose proof (Z.div_mod v 256); lia.
  - rewrite Nat2Z.inj_succ, Z.pow_succ_r in Hv by lia.
    split; [apply Z.div_pos; lia|]. apply Z.div_lt_upper_bound; lia.
Qed.

Lemma load64_store64 m p v : 0 <= v < 2 ^ 64 -> load64 (store64 m p v) p = v.
Proof.
  intros Hv. unfold load64, store64. rewrite mem_read_le, le_val_bytes by done. by apply u64_small.
Qed.

Lemma load32_store32 m p v : 0 <= v < 2 ^ 32 -> load32 (store32 m p v) p = v.
Proof.
  intros Hv. unfold load32, store32. rewrite mem_read_le, le_val_bytes by done. by apply u32_small.
Qed.

Lemma load16_store16 m p v : 0 <= v < 2 ^ 16 -> load16 (store16 m p v) p = v.
Proof.
  intros Hv. unfold load16, store16. rewrite mem_read_le, le_val_bytes by done. by apply u16_small.
Qed.

Lemma load64_range m p : 0 <= load64 m p < 2 ^ 64.
Proof. apply u64_range. Qed.
