(* ===== verification/Dirent.v ===== *)
(** * Directory records

    Both file systems answer [getdents64] with [struct linux_dirent64]
    records ([src/src/tmpfs.rs], [src/src/vfs.rs]):
    [d_ino(8) d_off(8) d_reclen(2) d_type(1) d_name(..NUL)], padded to eight
    bytes.  This file models the store of one record, the reader a C library
    runs over the buffer, and proves that the reader recovers what was
    stored. *)

From S2P Require Import Prelude.

(** [(19 + name.len() + 1 + 7) & !7]. *)
Definition dirent_reclen (name : bytes) : Z := and_not (19 + zlen name + 1 + 7) 7.

(** The stores of one record at [rec]: inode, offset, record length, type,
    name, NUL and the zeroed padding. *)
Definition dirent_store (m : mem) (rec ino doff reclen dtype : Z) (name : bytes) : mem :=
  let m := store64 m rec ino in
  let m := store64 m (rec + 8) doff in
  let m := store16 m (rec + 16) reclen in
  let m := store8 m (rec + 18) dtype in
  let m := mem_write m (rec + 19) name in
  let m := mem_write m (rec + 19 + zlen name) [0] in
  mem_zero m (rec + 19 + zlen name + 1) (reclen - (19 + zlen name + 1)).

(** The reader: [d_name] up to its NUL and [d_type] of the record at [p]. *)
Fixpoint c_string (l : bytes) : bytes :=
  match l with
  | [] => []
  | x :: l' => if x =? 0 then [] else x :: c_string l'
  end.

Definition dirent_name (m : mem) (p : Z) : bytes :=
  c_string (mem_read m (p + 19) (Z.to_nat (load16 m (p + 16) - 19))).

Definition dirent_type (m : mem) (p : Z) : Z := m (p + 18).

(** Walk the records of a buffer of [len] bytes by [d_reclen], as readdir(3)
    does; [fuel] bounds the number of records. *)
Fixpoint read_dirents (fuel : nat) (m : mem) (p len : Z) : list (bytes * Z) :=
  match fuel with
  | O => []
  | S fuel' =>
      if len <=? 0 then []
      else (dirent_name m p, dirent_type m p) ::
           read_dirents fuel' m (p + load16 m (p + 16)) (len - load16 m (p + 16))
  end.

(** ** Lemmas *)

Lemma dirent_reclen_eq name :
  zlen name < 2 ^ 32 ->
  dirent_reclen name = 8 * ((27 + zlen name) / 8).
Proof.
  intros Hn. pose proof (zlen_nonneg name). unfold dirent_reclen.
  change 7 with (Z.ones 3) at 2. rewrite and_not_ones by lia.
  pose proof (Z.div_mod (27 + zlen name) 8).
  replace (19 + zlen name + 1 + 7) with (27 + zlen name) by lia.
  change (2 ^ 3) with 8. lia.
Qed.

Lemma dirent_reclen_bounds name :
  zlen name < 2 ^ 32 -> 20 + zlen name <= dirent_reclen name <= 27 + zlen name.
Proof.
  intros Hn. rewrite dirent_reclen_eq by done.
  pose proof (Z.div_mod (27 + zlen name) 8). pose proof (Z.mod_pos_bound (27 + zlen name) 8). lia.
Qed.

(** Memory is disturbed only inside the record. *)
Lemma dirent_store_outside m rec ino doff dtype name a :
  zlen name < 2 ^ 32 -> a < rec \/ rec + dirent_reclen name <= a ->
  dirent_store m rec ino doff (dirent_reclen name) dtype name a = m a.
Proof.
  intros Hn Ha. pose proof (dirent_reclen_bounds name Hn). pose proof (zlen_nonneg name).
  unfold dirent_store, store64, store16, store8.
  rewrite mem_zero_outside by lia.
  rewrite !mem_write_outside; [done|unfold zlen in *; rewrite ?le_bytes_length; simpl; lia..].
Qed.

Lemma c_string_nul name k :
  Forall (fun c => c <> 0) name -> (0 < k)%nat -> c_string (name ++ replicate k 0) = name.
Proof.
  intros Hn Hk. induction Hn as [|c name Hc _ IH]; simpl.
  - by destruct k; [lia|].
  - apply Z.eqb_neq in Hc as ->. by f_equal.
Qed.

Section stored.
Context (m : mem) (rec ino doff dtype : Z) (name : bytes).
Hypothesis Hlen : zlen name < 60000.
Let m' := dirent_store m rec ino doff (dirent_reclen name) dtype name.

(** The record length and the type read back as stored. *)
Lemma dirent_store_reclen : load16 m' (rec + 16) = dirent_reclen name.
Proof.
  pose proof (dirent_reclen_bounds name ltac:(lia)). pose proof (zlen_nonneg name).
  unfold m', dirent_store, load16, store8, store16.
  rewrite mem_read_zero_disjoint by lia.
  rewrite !(mem_read_write_disjoint _ (rec + 19 + zlen name)),
    (mem_read_write_disjoint _ (rec + 19)), (mem_read_write_disjoint _ (rec + 18))
    by (autorewrite with kernel; lia).
  rewrite mem_read_le, le_val_bytes by (change (256 ^ Z.of_nat 2) with 65536; lia).
  apply u16_small. lia.
Qed.

Lemma dirent_store_type : 0 <= dtype < 256 -> dirent_type m' rec = dtype.
Proof.
  intros Hd. pose proof (zlen_nonneg name). unfold m', dirent_store, dirent_type.
  rewrite mem_zero_outside by lia. rewrite !(mem_write_outside _ (_ + 19 + _)) by lia.
  rewrite mem_write_outside by lia. unfold store8.
  replace (rec + 18) with (rec + 18 + Z.of_nat 0) at 2 by lia.
  erewrite mem_write_inside by done. apply Z.mod_small. lia.
Qed.

(** The name reads back as stored. *)
Lemma dirent_store_name : Forall (fun c => c <> 0) name -> dirent_name m' rec = name.
Proof.
  intros Hnul. pose proof (dirent_reclen_bounds name ltac:(lia)) as Hr. pose proof (zlen_nonneg name).
  unfold dirent_name. rewrite dirent_store_reclen.
  set (pad := Z.to_nat (dirent_reclen name - 20 - zlen name)).
  replace (Z.to_nat (dirent_reclen name - 19)) with (length name + (1 + pad))%nat
    by (unfold zlen in *; lia).
  rewrite !mem_read_app. fold (zlen name).
  unfold m', dirent_store.
  replace (dirent_reclen name - (19 + zlen name + 1)) with (Z.of_nat pad) by lia.
  change (Z.of_nat 1) with 1. rewrite mem_read_zero_same.
  rewrite !mem_read_zero_disjoint by (unfold zlen; lia).
  rewrite (mem_read_write_disjoint _ (_ + zlen name)) by (unfold zlen; lia).
  rewrite mem_read_write_same. change (mem_read ?x ?y 1) with (mem_read x y (length [0])).
  rewrite mem_read_write_same. apply (c_string_nul name (S pad)); [done|lia].
Qed.
End stored.

(** The reader of one record depends only on the record's bytes. *)
Lemma dirent_read_ext m1 m2 p reclen :
  (forall a, p <= a < p + reclen -> m1 a = m2 a) -> 19 <= reclen ->
  load16 m1 (p + 16) = reclen ->
  load16 m2 (p + 16) = reclen /\ dirent_name m2 p = dirent_name m1 p /\
  dirent_type m2 p = dirent_type m1 p.
Proof.
  intros Heq Hr Hl.
  assert (Hl2 : load16 m2 (p + 16) = reclen).
  { rewrite <- Hl. unfold load16. do 2 f_equal. symmetry. apply mem_read_ext. intros; apply Heq; lia. }
  split; [done|]. split.
  - unfold dirent_name. rewrite Hl, Hl2. f_equal. symmetry. apply mem_read_ext.
    intros a Ha. apply Heq. lia.
  - symmetry. apply Heq. lia.
Qed.
