(* ===== verification/Tmpfs.v ===== *)
(** * The writable file system: [src/src/tmpfs.rs]

    The flat [path -> Node] map, the byte accounting, the open table and every
    public operation of the module, in the order of the source.  [TMPFS] and
    [NEXT_FD] are the two statics of the module; an operation takes the state
    and returns its [i64] result with the new state, and takes and returns
    the memory when it dereferences a user pointer.  [resize_path] is the only
    operation that can panic (a [Vec::resize] over [isize::MAX]). *)

From S2P Require Import Prelude Dirent.

Definition CAP : Z := 4 * 1024 * 1024.
Definition TMPFS_FD_BASE : Z := 4000.
Definition MAX_OPEN : nat := 256.

Definition O_WRONLY : Z := 1.
Definition O_RDWR : Z := 2.
Definition O_CREAT : Z := 64.
Definition O_EXCL : Z := 128.
Definition O_TRUNC : Z := 512.
Definition O_APPEND : Z := 1024.
Definition O_DIRECTORY : Z := 65536.

Definition ENOENT : Z := -2.
Definition EBADF : Z := -9.
Definition EEXIST : Z := -17.
Definition ENOTDIR : Z := -20.
Definition EISDIR : Z := -21.
Definition EINVAL : Z := -22.
Definition EMFILE : Z := -24.
Definition ENOSPC : Z := -28.
Definition ENOTEMPTY : Z := -39.

(** ** Data *)

Record Node := mkNode { nd_is_dir : bool; nd_data : bytes; nd_mode : Z }.

Record OpenFd := mkOpenFd {
  o_fd : Z;
  o_path : bytes;
  o_pos : Z;
  o_append : bool;
  o_writable : bool;
  o_is_dir : bool;
  o_dir_pos : nat
}.

Record Tmpfs := mkTmpfs {
  nodes : gmap bytes Node;
  total : Z;
  open_fds : list OpenFd
}.

Record state := mkState { TMPFS : option Tmpfs; NEXT_FD : Z }.

Definition with_data (nd : Node) (d : bytes) : Node :=
  mkNode (nd_is_dir nd) d (nd_mode nd).
Definition with_pos (o : OpenFd) (p : Z) : OpenFd :=
  mkOpenFd (o_fd o) (o_path o) p (o_append o) (o_writable o) (o_is_dir o) (o_dir_pos o).
Definition with_dir_pos (o : OpenFd) (p : nat) : OpenFd :=
  mkOpenFd (o_fd o) (o_path o) (o_pos o) (o_append o) (o_writable o) (o_is_dir o) p.
Definition with_nodes (fs : Tmpfs) (n : gmap bytes Node) (t : Z) : Tmpfs :=
  mkTmpfs n t (open_fds fs).
Definition with_open (fs : Tmpfs) (l : list OpenFd) : Tmpfs :=
  mkTmpfs (nodes fs) (total fs) l.
Definition with_fs (st : state) (fs : Tmpfs) : state :=
  mkState (Some fs) (NEXT_FD st).

(** [flags & bit != 0]. *)
Definition has (flags bit : Z) : bool := negb (Z.land flags bit =? 0).

(** ** Mounting and paths *)

Definition root_node : Node := mkNode true [] 511.

Definition init (st : state) : state :=
  with_fs st (mkTmpfs (<[b "/dev/shm" := root_node]> (<[b "/tmp" := root_node]> ∅)) 0 []).

(** The state before [init]: the statics' initial values. *)
Definition boot_state : state := mkState None TMPFS_FD_BASE.

(** The [while] loop that pops trailing slashes, on the reversed vector. *)
Fixpoint pop_slashes (r : bytes) : bytes :=
  match r with
  | c :: (_ :: _ as r') => if c =? SLASH then pop_slashes r' else r
  | _ => r
  end.

Definition norm (path : bytes) : bytes :=
  let p := if starts_with path (b "./") then drop 1 path else path in
  let v := if starts_with p (b "/") then p else SLASH :: p in
  rev (pop_slashes (rev v)).

Definition parent (path : bytes) : bytes :=
  match rposition (fun c => c =? SLASH) path with
  | Some O => b "/"
  | Some i => take i path
  | None => b "/"
  end.

Definition owns_path (path : bytes) : bool :=
  let n := norm path in
  bytes_eqb n (b "/tmp") || starts_with n (b "/tmp/") ||
  bytes_eqb n (b "/dev/shm") || starts_with n (b "/dev/shm/").

(** ** Descriptors *)

Definition fd_is (fd : Z) (o : OpenFd) : bool := o_fd o =? fd.

Definition is_tmpfs_fd (st : state) (fd : Z) : bool :=
  if fd <? TMPFS_FD_BASE then false
  else match TMPFS st with
       | Some fs => existsb (fd_is fd) (open_fds fs)
       | None => false
       end.

(** [NEXT_FD.fetch_add(1)]: the old value, and the counter wraps at 32 bits. *)
Definition alloc_fd (st : state) : Z * state :=
  (NEXT_FD st, mkState (TMPFS st) (i32 (NEXT_FD st + 1))).

(** [fs.open.push(o)] with a fresh descriptor, returning it. *)
Definition push_fd (st : state) (fs : Tmpfs) (mk : Z -> OpenFd) : Z * state :=
  let '(fd, st) := alloc_fd st in
  (fd, with_fs st (with_open fs (open_fds fs ++ [mk fd]))).

(** ** stat *)

Definition write_stat (m : mem) (buf mode size : Z) : mem :=
  if buf =? 0 then m
  else
    let m := mem_zero m buf 144 in
    let m := store32 m (buf + 24) mode in
    let m := store64 m (buf + 48) size in
    let m := store64 m (buf + 56) 4096 in
    store64 m (buf + 16) (if has mode 16384 then 2 else 1).

Definition stat_node (m : mem) (buf : Z) (nd : Node) : mem :=
  if nd_is_dir nd
  then write_stat m buf (Z.lor 16384 (Z.land (nd_mode nd) 4095)) 4096
  else write_stat m buf (Z.lor 32768 (Z.land (nd_mode nd) 4095)) (zlen (nd_data nd)).

Definition stat (st : state) (m : mem) (path : bytes) (buf : Z) : Z * mem :=
  let n := norm path in
  match TMPFS st with
  | None => (ENOENT, m)
  | Some fs =>
      match nodes fs !! n with
      | Some nd => (0, stat_node m buf nd)
      | None => (ENOENT, m)
      end
  end.

(** ** open *)

Definition open (st : state) (path : bytes) (flags mode : Z) : Z * state :=
  let n := norm path in
  match TMPFS st with
  | None => (ENOENT, st)
  | Some fs =>
      if (MAX_OPEN <=? length (open_fds fs))%nat then (EMFILE, st)
      else
        let acc := Z.land flags 3 in
        let writable := (acc =? O_WRONLY) || (acc =? O_RDWR) in
        match nodes fs !! n with
        | Some nd =>
            if has flags O_CREAT && has flags O_EXCL then (EEXIST, st)
            else if nd_is_dir nd then
              if writable then (EISDIR, st)
              else push_fd st fs (fun fd => mkOpenFd fd n 0 false false true 0)
            else if has flags O_DIRECTORY then (ENOTDIR, st)
            else
              let '(nd, fs) :=
                if has flags O_TRUNC && writable
                then let nd' := with_data nd [] in
                     (nd', with_nodes fs (<[n := nd']> (nodes fs))
                                      (u64 (total fs - zlen (nd_data nd))))
                else (nd, fs) in
              let append := has flags O_APPEND in
              let pos := if append then zlen (nd_data nd) else 0 in
              push_fd st fs (fun fd => mkOpenFd fd n pos append writable false 0)
        | None =>
            if negb (has flags O_CREAT) then (ENOENT, st)
            else if has flags O_DIRECTORY then (ENOENT, st)
            else
              match nodes fs !! parent n with
              | Some p =>
                  if nd_is_dir p then
                    let perm := Z.land (u32 mode) 4095 in
                    let perm := if perm =? 0 then 420 else perm in
                    let fs := with_nodes fs (<[n := mkNode false [] perm]> (nodes fs)) (total fs) in
                    push_fd st fs (fun fd => mkOpenFd fd n 0 false true false 0)
                  else (ENOTDIR, st)
              | None => (ENOENT, st)
              end
        end
  end.

(** ** Writing *)

(** [data.resize(new_len, 0)] on a vector that is not over-long. *)
Definition vec_resize (d : bytes) (new_len : Z) : bytes := resize (Z.to_nat new_len) 0 d.

(** [data[at..at + src.len()].copy_from_slice(src)]. *)
Definition copy_at (d : bytes) (at_ : Z) (src : bytes) : bytes :=
  take (Z.to_nat at_) d ++ src ++ drop (Z.to_nat at_ + length src) d.

Definition write_at (fs : Tmpfs) (m : mem) (path : bytes) (at_ buf count : Z) : Z * Tmpfs :=
  match nodes fs !! path with
  | Some nd =>
      if nd_is_dir nd then (EISDIR, fs)
      else if count =? 0 then (0, fs)
      else
        let len := zlen (nd_data nd) in
        let allowed_grow := sat_sub CAP (total fs) in
        let max_n := if len <=? at_
                     then sat_sub allowed_grow (at_ - len)
                     else u64 ((len - at_) + allowed_grow) in
        let n := Z.min count max_n in
        if n =? 0 then (ENOSPC, fs)
        else
          let new_end := u64 (at_ + n) in
          let '(d, t) := if len <? new_end
                         then (vec_resize (nd_data nd) new_end, u64 (total fs + (new_end - len)))
                         else (nd_data nd, total fs) in
          let d := copy_at d at_ (mem_read m buf (Z.to_nat n)) in
          (n, with_nodes fs (<[path := with_data nd d]> (nodes fs)) t)
  | None => (ENOENT, fs)
  end.

Definition file_len (fs : Tmpfs) (path : bytes) : Z :=
  match nodes fs !! path with Some nd => zlen (nd_data nd) | None => 0 end.

Definition write (st : state) (m : mem) (fd buf count : Z) : Z * state :=
  match TMPFS st with
  | None => (EBADF, st)
  | Some fs =>
      match position (fd_is fd) (open_fds fs) with
      | None => (EBADF, st)
      | Some idx =>
          match open_fds fs !! idx with
          | None => (EBADF, st)
          | Some o =>
              if negb (o_writable o) || o_is_dir o then (EBADF, st)
              else
                let at_ := if o_append o then file_len fs (o_path o) else o_pos o in
                let '(r, fs) := write_at fs m (o_path o) at_ buf count in
                let fs := if 0 <? r
                          then with_open fs (<[idx := with_pos o (u64 (at_ + r))]> (open_fds fs))
                          else fs in
                (r, with_fs st fs)
          end
      end
  end.

Definition pwrite (st : state) (m : mem) (fd buf count offset : Z) : Z * state :=
  match TMPFS st with
  | None => (EBADF, st)
  | Some fs =>
      match position (fd_is fd) (open_fds fs) with
      | None => (EBADF, st)
      | Some idx =>
          match open_fds fs !! idx with
          | None => (EBADF, st)
          | Some o =>
              if negb (o_writable o) || o_is_dir o then (EBADF, st)
              else let '(r, fs) := write_at fs m (o_path o) offset buf count in
                   (r, with_fs st fs)
          end
      end
  end.

(** ** Reading *)

Definition read_at (m : mem) (nd : Node) (at_ buf count : Z) : Z * mem :=
  if zlen (nd_data nd) <=? at_ then (0, m)
  else
    let n := Z.min count (zlen (nd_data nd) - at_) in
    (n, mem_write m buf (take (Z.to_nat n) (drop (Z.to_nat at_) (nd_data nd)))).

Definition read (st : state) (m : mem) (fd buf count : Z) : Z * state * mem :=
  match TMPFS st with
  | None => (EBADF, st, m)
  | Some fs =>
      match position (fd_is fd) (open_fds fs) with
      | None => (EBADF, st, m)
      | Some idx =>
          match open_fds fs !! idx with
          | None => (EBADF, st, m)
          | Some o =>
              if o_is_dir o then (EISDIR, st, m)
              else
                match nodes fs !! o_path o with
                | None => (EBADF, st, m)
                | Some nd =>
                    let '(r, m) := read_at m nd (o_pos o) buf count in
                    let fs := if 0 <? r
                              then with_open fs (<[idx := with_pos o (u64 (o_pos o + r))]> (open_fds fs))
                              else fs in
                    (r, with_fs st fs, m)
                end
          end
      end
  end.

(** [fs.open.iter().find(|o| o.fd == fd)]. *)
Definition find_fd (fs : Tmpfs) (fd : Z) : option OpenFd :=
  List.find (fd_is fd) (open_fds fs).

Definition pread (st : state) (m : mem) (fd buf count offset : Z) : Z * mem :=
  match TMPFS st with
  | None => (EBADF, m)
  | Some fs =>
      match find_fd fs fd with
      | None => (EBADF, m)
      | Some o =>
          if o_is_dir o then (EISDIR, m)
          else match nodes fs !! o_path o with
               | None => (EBADF, m)
               | Some nd => read_at m nd offset buf count
               end
      end
  end.

(** ** lseek, truncation *)

Definition lseek (st : state) (fd offset whence : Z) : Z * state :=
  match TMPFS st with
  | None => (EBADF, st)
  | Some fs =>
      match position (fd_is fd) (open_fds fs) with
      | None => (EBADF, st)
      | Some idx =>
          match open_fds fs !! idx with
          | None => (EBADF, st)
          | Some o =>
              let len := file_len fs (o_path o) in
              let base := if whence =? 0 then Some 0
                          else if whence =? 1 then Some (i64 (o_pos o))
                          else if whence =? 2 then Some (i64 len)
                          else None in
              match base with
              | None => (EINVAL, st)
              | Some base =>
                  let np := i64 (base + offset) in
                  if np <? 0 then (EINVAL, st)
                  else (np, with_fs st (with_open fs (<[idx := with_pos o np]> (open_fds fs))))
              end
          end
      end
  end.

(** [Vec::resize] panics when the requested length exceeds [isize::MAX]. *)
Definition resize_path (fs : Tmpfs) (path : bytes) (len : Z) : outcome (Z * Tmpfs) :=
  match nodes fs !! path with
  | Some nd =>
      if nd_is_dir nd then Ret (EISDIR, fs)
      else
        let cur := zlen (nd_data nd) in
        let resized t :=
          if I64_MAX <? len then Panic
          else Ret (0, with_nodes fs (<[path := with_data nd (vec_resize (nd_data nd) len)]> (nodes fs)) t) in
        if cur <? len then
          let grow := len - cur in
          if CAP <? u64 (total fs + grow) then Ret (ENOSPC, fs)
          else resized (u64 (total fs + grow))
        else resized (u64 (total fs - (cur - len)))
  | None => Ret (ENOENT, fs)
  end.

Definition ftruncate (st : state) (fd len : Z) : outcome (Z * state) :=
  match TMPFS st with
  | None => Ret (EBADF, st)
  | Some fs =>
      match find_fd fs fd with
      | Some o =>
          if o_is_dir o then Ret (EISDIR, st)
          else do! (r, fs) <- resize_path fs (o_path o) len; Ret (r, with_fs st fs)
      | None => Ret (EBADF, st)
      end
  end.

Definition truncate (st : state) (path : bytes) (len : Z) : outcome (Z * state) :=
  let n := norm path in
  match TMPFS st with
  | None => Ret (ENOENT, st)
  | Some fs =>
      match nodes fs !! n with
      | None => Ret (ENOENT, st)
      | Some _ => do! (r, fs) <- resize_path fs n len; Ret (r, with_fs st fs)
      end
  end.

(** ** fstat, close, unlink *)

Definition fstat (st : state) (m : mem) (fd buf : Z) : Z * mem :=
  match TMPFS st with
  | None => (EBADF, m)
  | Some fs =>
      match find_fd fs fd with
      | None => (EBADF, m)
      | Some o =>
          match nodes fs !! o_path o with
          | Some nd => (0, stat_node m buf nd)
          | None => (EBADF, m)
          end
      end
  end.

Definition close (st : state) (fd : Z) : Z * state :=
  if fd <? TMPFS_FD_BASE then (EBADF, st)
  else
    match TMPFS st with
    | None => (EBADF, st)
    | Some fs =>
        match position (fd_is fd) (open_fds fs) with
        | Some i => (0, with_fs st (with_open fs (delete i (open_fds fs))))
        | None => (EBADF, st)
        end
    end.

Definition unlink (st : state) (path : bytes) : Z * state :=
  let n := norm path in
  match TMPFS st with
  | None => (ENOENT, st)
  | Some fs =>
      match nodes fs !! n with
      | Some nd =>
          if nd_is_dir nd then (EISDIR, st)
          else (0, with_fs st (with_nodes fs (delete n (nodes fs))
                                          (u64 (total fs - zlen (nd_data nd)))))
      | None => (ENOENT, st)
      end
  end.

(** ** Directories and rename *)

(** The keys of the [BTreeMap] in its iteration order: bytewise lexicographic. *)
Fixpoint lex_leb (l k : bytes) : bool :=
  match l, k with
  | [], _ => true
  | _ :: _, [] => false
  | x :: l', y :: k' => (x <? y) || ((x =? y) && lex_leb l' k')
  end.

Definition lex_le (l k : bytes) : Prop := lex_leb l k = true.

#[global] Instance lex_le_dec : RelDecision lex_le.
Proof. intros l k. unfold lex_le. apply _. Defined.

Definition keys (n : gmap bytes Node) : list bytes :=
  merge_sort lex_le (map fst (map_to_list n)).

Definition has_children (fs : Tmpfs) (dir : bytes) : bool :=
  let prefix := dir ++ [SLASH] in
  existsb (fun k => starts_with k prefix) (keys (nodes fs)).

Definition rename (st : state) (old new : bytes) : Z * state :=
  let o := norm old in
  let nw := norm new in
  if bytes_eqb o nw then (0, st)
  else
    match TMPFS st with
    | None => (ENOENT, st)
    | Some fs =>
        match nodes fs !! o with
        | None => (ENOENT, st)
        | Some src =>
            match nodes fs !! parent nw with
            | None => (ENOENT, st)
            | Some p =>
                if negb (nd_is_dir p) then (ENOTDIR, st)
                else
                  let src_is_dir := nd_is_dir src in
                  let finish fs :=
                    if src_is_dir && has_children fs o then (EINVAL, with_fs st fs)
                    else (0, with_fs st (with_nodes fs (<[nw := src]> (delete o (nodes fs))) (total fs))) in
                  match nodes fs !! nw with
                  | Some dst =>
                      if negb (Bool.eqb (nd_is_dir dst) src_is_dir)
                      then (if nd_is_dir dst then EISDIR else ENOTDIR, st)
                      else if nd_is_dir dst then
                        if has_children fs nw then (ENOTEMPTY, st)
                        else finish (with_nodes fs (delete nw (nodes fs)) (total fs))
                      else finish (with_nodes fs (delete nw (nodes fs))
                                              (u64 (total fs - zlen (nd_data dst))))
                  | None => finish fs
                  end
            end
        end
    end.

Definition mkdir (st : state) (path : bytes) (mode : Z) : Z * state :=
  let n := norm path in
  match TMPFS st with
  | None => (ENOENT, st)
  | Some fs =>
      match nodes fs !! n with
      | Some _ => (EEXIST, st)
      | None =>
          match nodes fs !! parent n with
          | Some p =>
              if nd_is_dir p then
                let perm := Z.land (u32 mode) 4095 in
                let perm := if perm =? 0 then 493 else perm in
                (0, with_fs st (with_nodes fs (<[n := mkNode true [] perm]> (nodes fs)) (total fs)))
              else (ENOTDIR, st)
          | None => (ENOENT, st)
          end
      end
  end.

Definition rmdir (st : state) (path : bytes) : Z * state :=
  let n := norm path in
  if bytes_eqb n (b "/tmp") || bytes_eqb n (b "/dev/shm") then (-1, st)
  else
    match TMPFS st with
    | None => (ENOENT, st)
    | Some fs =>
        match nodes fs !! n with
        | None => (ENOENT, st)
        | Some nd =>
            if negb (nd_is_dir nd) then (ENOTDIR, st)
            else if has_children fs n then (ENOTEMPTY, st)
            else (0, with_fs st (with_nodes fs (delete n (nodes fs)) (total fs)))
        end
    end.

Definition access (st : state) (path : bytes) : Z :=
  match TMPFS st with
  | Some fs => match nodes fs !! norm path with Some _ => 0 | None => ENOENT end
  | None => ENOENT
  end.

(** ** getdents64 *)

Definition dir_prefix (dir : bytes) : bytes :=
  if bytes_eqb dir (b "/") then dir else dir ++ [SLASH].

(** The [for k in fs.nodes.keys()] loop: the names of the immediate children. *)
Definition child_name (prefix k : bytes) : option bytes :=
  if (length prefix <? length k)%nat && starts_with k prefix then
    let rest := drop (length prefix) k in
    if existsb (fun c => c =? SLASH) rest then None else Some rest
  else None.

Definition child_names (fs : Tmpfs) (prefix : bytes) : list bytes :=
  omap (child_name prefix) (keys (nodes fs)).

Definition child_dtype (fs : Tmpfs) (prefix name : bytes) : Z :=
  match nodes fs !! (prefix ++ name) with
  | Some nd => if nd_is_dir nd then 4 else 8
  | None => 8
  end.

(** The [while emitted < total] loop over the names from the cursor on:
    bytes written, new cursor, memory. *)
Fixpoint emit_names (fs : Tmpfs) (prefix : bytes) (rest : list bytes)
    (m : mem) (buf count off : Z) (emitted : nat) : Z * nat * mem :=
  match rest with
  | [] => (off, emitted, m)
  | name :: rest' =>
      let reclen := dirent_reclen name in
      if count <? off + reclen then (off, emitted, m)
      else
        let cookie := Z.of_nat emitted + 1 in
        let m := dirent_store m (buf + off) cookie cookie reclen
                              (child_dtype fs prefix name) name in
        emit_names fs prefix rest' m buf count (off + reclen) (S emitted)
  end.

Definition getdents64 (st : state) (m : mem) (fd buf count : Z) : Z * state * mem :=
  match TMPFS st with
  | None => (EBADF, st, m)
  | Some fs =>
      match position (fd_is fd) (open_fds fs) with
      | None => (EBADF, st, m)
      | Some idx =>
          match open_fds fs !! idx with
          | None => (EBADF, st, m)
          | Some o =>
              if negb (o_is_dir o) then (ENOTDIR, st, m)
              else
                let prefix := dir_prefix (o_path o) in
                let names := child_names fs prefix in
                let '(off, emitted, m) :=
                  emit_names fs prefix (drop (o_dir_pos o) names) m buf count 0 (o_dir_pos o) in
                (off, with_fs st (with_open fs (<[idx := with_dir_pos o emitted]> (open_fds fs))), m)
          end
      end
  end.
