(* ===== verification/TmpfsInv.v ===== *)
(** * Invariants of the writable file system

    The byte accounting, the cap, the descriptor table and the tree shape of
    [Tmpfs], preserved by every operation and therefore by every sequence of
    system calls from boot. *)

From S2P Require Import Prelude Dirent Tmpfs.

(** ** The operations as data *)

Inductive op :=
| OpOpen (path : bytes) (flags mode : Z)
| OpWrite (fd buf count : Z)
| OpPwrite (fd buf count offset : Z)
| OpRead (fd buf count : Z)
| OpPread (fd buf count offset : Z)
| OpLseek (fd offset whence : Z)
| OpFtruncate (fd len : Z)
| OpTruncate (path : bytes) (len : Z)
| OpStat (path : bytes) (buf : Z)
| OpFstat (fd buf : Z)
| OpClose (fd : Z)
| OpUnlink (path : bytes)
| OpRename (old new : bytes)
| OpMkdir (path : bytes) (mode : Z)
| OpRmdir (path : bytes)
| OpAccess (path : bytes)
| OpGetdents (fd buf count : Z).

Definition exec (o : op) (st : state) (m : mem) : outcome (Z * state * mem) :=
  let keep_mem (p : Z * state) := Ret (p.1, p.2, m) in
  let keep_st (p : Z * mem) := Ret (p.1, st, p.2) in
  match o with
  | OpOpen path flags mode => keep_mem (open st path flags mode)
  | OpWrite fd buf count => keep_mem (write st m fd buf count)
  | OpPwrite fd buf count off => keep_mem (pwrite st m fd buf count off)
  | OpRead fd buf count => Ret (read st m fd buf count)
  | OpPread fd buf count off => keep_st (pread st m fd buf count off)
  | OpLseek fd off whence => keep_mem (lseek st fd off whence)
  | OpFtruncate fd len => obind (ftruncate st fd len) keep_mem
  | OpTruncate path len => obind (truncate st path len) keep_mem
  | OpStat path buf => keep_st (stat st m path buf)
  | OpFstat fd buf => keep_st (fstat st m fd buf)
  | OpClose fd => keep_mem (close st fd)
  | OpUnlink path => keep_mem (unlink st path)
  | OpRename old new => keep_mem (rename st old new)
  | OpMkdir path mode => keep_mem (mkdir st path mode)
  | OpRmdir path => keep_mem (rmdir st path)
  | OpAccess path => Ret (access st path, st, m)
  | OpGetdents fd buf count => Ret (getdents64 st m fd buf count)
  end.

Fixpoint run (ops : list op) (st : state) (m : mem) : outcome (list Z * state * mem) :=
  match ops with
  | [] => Ret ([], st, m)
  | o :: ops' =>
      do! (r, st, m) <- exec o st m;
      do! (rs, st, m) <- run ops' st m;
      Ret (r :: rs, st, m)
  end.

(** ** The invariant *)

Definition bytes_total (n : gmap bytes Node) : Z :=
  map_fold (fun _ nd acc => zlen (nd_data nd) + acc) 0 n.

Record fs_inv (fs : Tmpfs) : Prop := mkFsInv {
  inv_total : total fs = bytes_total (nodes fs);
  inv_cap : total fs <= CAP;
  inv_dir_empty : map_Forall (fun _ nd => nd_is_dir nd = true -> nd_data nd = []) (nodes fs)
}.

Record fds_inv (l : list OpenFd) (next : Z) : Prop := mkFdsInv {
  inv_count : (length l <= MAX_OPEN)%nat;
  inv_nodup : NoDup (map o_fd l);
  inv_range : Forall (fun o => TMPFS_FD_BASE <= o_fd o < next) l;
  inv_pos : Forall (fun o => 0 <= o_pos o < 2 ^ 64) l
}.

Definition state_inv (st : state) : Prop :=
  TMPFS_FD_BASE <= NEXT_FD st /\
  exists fs, TMPFS st = Some fs /\ fs_inv fs /\ fds_inv (open_fds fs) (NEXT_FD st).

(** Arguments in the range of their machine types; a truncation length small
    enough that [fs.total + grow] does not wrap. *)
Definition op_ok (o : op) : Prop :=
  match o with
  | OpWrite _ _ count | OpRead _ _ count => 0 <= count < 2 ^ 64
  | OpPwrite _ _ count off | OpPread _ _ count off =>
      0 <= count < 2 ^ 64 /\ 0 <= off < 2 ^ 64
  | OpLseek _ off _ => - 2 ^ 63 <= off < 2 ^ 63
  | OpFtruncate _ len | OpTruncate _ len => 0 <= len < 2 ^ 64 - CAP
  | _ => True
  end.

(** Every node hangs under a directory node, except the two mount roots. *)
Definition tree_wf (n : gmap bytes Node) : Prop :=
  n !! b "/" = None /\
  forall p nd, n !! p = Some nd ->
    p = b "/tmp" \/ p = b "/dev/shm" \/
    exists q, n !! parent p = Some q /\ nd_is_dir q = true.

Definition op_tree_ok (o : op) : Prop :=
  match o with
  | OpRename old new => parent (norm new) <> norm old
  | _ => True
  end.

(** ** The accounting *)

Lemma bytes_total_insert n p nd :
  n !! p = None -> bytes_total (<[p := nd]> n) = zlen (nd_data nd) + bytes_total n.
Proof.
  intros H. unfold bytes_total. rewrite map_fold_insert_L; [done| |done].
  intros; lia.
Qed.

Lemma bytes_total_delete n p nd :
  n !! p = Some nd -> bytes_total (delete p n) = bytes_total n - zlen (nd_data nd).
Proof.
  intros H. rewrite <- (insert_delete_id n p nd) at 2 by done.
  rewrite bytes_total_insert by apply lookup_delete_eq. lia.
Qed.

Lemma bytes_total_update n p nd nd' :
  n !! p = Some nd ->
  bytes_total (<[p := nd']> n) = bytes_total n - zlen (nd_data nd) + zlen (nd_data nd').
Proof.
  intros H. rewrite <- insert_delete_eq.
  rewrite bytes_total_insert by apply lookup_delete_eq.
  rewrite (bytes_total_delete _ _ nd) by done. lia.
Qed.

Lemma bytes_total_nonneg n : 0 <= bytes_total n.
Proof.
  induction n as [|p nd n Hp IH] using map_ind; [done|].
  rewrite bytes_total_insert by done. pose proof (zlen_nonneg (nd_data nd)). lia.
Qed.

Lemma bytes_total_ge n p nd : n !! p = Some nd -> zlen (nd_data nd) <= bytes_total n.
Proof.
  intros H. pose proof (bytes_total_delete _ _ _ H).
  pose proof (bytes_total_nonneg (delete p n)). lia.
Qed.

(** ** The write core against a reference

    [splice d at src] is the contents after a write of [src] at [at]: bytes
    before it kept, a gap past the end zero-filled, bytes after it kept. *)

Definition splice (d : bytes) (at_ : Z) (src : bytes) : bytes :=
  take (Z.to_nat at_) d ++ replicate (Z.to_nat at_ - length d) 0 ++ src
    ++ drop (Z.to_nat at_ + length src) d.

Definition grow_of (len at_ n : Z) : Z := Z.max 0 (at_ + n - len).

Lemma splice_length d at_ src :
  0 <= at_ -> src <> [] ->
  zlen (splice d at_ src) = zlen d + grow_of (zlen d) at_ (zlen src).
Proof.
  intros Hat Hs. unfold splice, grow_of, zlen. destruct src as [|x src]; [done|].
  rewrite !length_app, length_replicate, length_take, length_drop. simpl length. lia.
Qed.

Lemma copy_at_in_place d at_ src :
  0 <= at_ -> at_ + zlen src <= zlen d -> copy_at d at_ src = splice d at_ src.
Proof.
  intros. unfold copy_at, splice, zlen in *.
  replace (Z.to_nat at_ - length d)%nat with 0%nat by lia. done.
Qed.

Lemma copy_at_resized d at_ src :
  0 <= at_ -> zlen d < at_ + zlen src ->
  copy_at (vec_resize d (at_ + zlen src)) at_ src = splice d at_ src.
Proof.
  intros. unfold copy_at, splice, vec_resize, zlen in *.
  rewrite take_resize_le by lia. rewrite resize_spec, <- app_assoc.
  rewrite !drop_ge; [done|lia|rewrite length_resize; lia].
Qed.

(** Everything [write_at] can do: fail with the file system unchanged, or write
    [r] bytes, the most that the request and the cap allow. *)
Lemma write_at_spec fs m path at_ buf count r fs' :
  fs_inv fs -> 0 <= at_ < 2 ^ 64 -> 0 <= count < 2 ^ 64 ->
  write_at fs m path at_ buf count = (r, fs') ->
  (r <= 0 /\ fs' = fs) \/
  exists nd, nodes fs !! path = Some nd /\ nd_is_dir nd = false /\ 0 < r <= count /\
    let t := total fs + grow_of (zlen (nd_data nd)) at_ r in
    t <= CAP /\ (r = count \/ t = CAP) /\
    fs' = with_nodes fs
            (<[path := with_data nd (splice (nd_data nd) at_ (mem_read m buf (Z.to_nat r)))]> (nodes fs)) t.
Proof.
  intros [Ht Hc _] Hat Hcnt. unfold write_at.
  destruct (nodes fs !! path) as [nd|] eqn:Hp; [|intros [= <- <-]; left; done].
  destruct (nd_is_dir nd) eqn:Hd; [intros [= <- <-]; left; done|].
  destruct (count =? 0) eqn:Hc0; [intros [= <- <-]; left; done|]. bool_to_prop.
  pose proof (bytes_total_ge _ _ _ Hp) as Hge. rewrite <- Ht in Hge.
  pose proof (zlen_nonneg (nd_data nd)) as Hl.
  set (len := zlen (nd_data nd)) in *.
  assert (HCAP : CAP = 4194304) by reflexivity.
  set (mx := if len <=? at_ then _ else _).
  assert (Hmx : 0 <= mx /\ forall k, 0 < k -> k <= mx <-> total fs + grow_of len at_ k <= CAP).
  { subst mx. unfold sat_sub, grow_of. destruct (len <=? at_) eqn:E; bool_to_prop.
    - split; [lia|]. intros; lia.
    - rewrite u64_small by lia. split; [lia|]. intros; lia. }
  clearbody mx. destruct Hmx as [Hmx0 Hmx].
  destruct (Z.min count mx =? 0) eqn:Hn0; [intros [= <- <-]; left; done|]. bool_to_prop.
  set (n := Z.min count mx) in *.
  pose proof (proj1 (Hmx n ltac:(lia)) ltac:(lia)) as Hfit. unfold grow_of in Hfit.
  rewrite (u64_small (at_ + n)) by lia.
  assert (Hlen : zlen (mem_read m buf (Z.to_nat n)) = n)
    by (unfold zlen; rewrite mem_read_length; lia).
  intros Heq. right. exists nd.
  assert (Hmax : r = n -> r = count \/ total fs + grow_of len at_ r = CAP).
  { intros ->. destruct (Z.eq_dec n count) as [|Hne]; [by left|right].
    assert (n = mx) as Hnm by lia.
    assert (~ total fs + grow_of len at_ (mx + 1) <= CAP) by (rewrite <- Hmx; lia).
    unfold grow_of in *. lia. }
  destruct (len <? at_ + n) eqn:E; bool_to_prop; injection Heq as <- <-;
    (split; [done|]); (split; [done|]); (split; [lia|]);
    (split; [unfold grow_of; lia|]); (split; [by apply Hmax|]).
  - rewrite u64_small by lia. rewrite <- Hlen at 1. rewrite copy_at_resized by lia.
    f_equal. unfold grow_of. lia.
  - rewrite copy_at_in_place by lia. f_equal. unfold grow_of. lia.
Qed.

(** ** Preservation *)

Lemma fs_inv_open fs l : fs_inv fs -> fs_inv (with_open fs l).
Proof. intros [? ? ?]; constructor; done. Qed.

Lemma fs_inv_nonneg fs : fs_inv fs -> 0 <= total fs.
Proof. intros [-> _ _]. apply bytes_total_nonneg. Qed.

(** Replacing a file's contents, with the total moved by the difference. *)
Lemma fs_inv_update fs p nd d t :
  fs_inv fs -> nodes fs !! p = Some nd -> nd_is_dir nd = false ->
  t = total fs - zlen (nd_data nd) + zlen d -> t <= CAP ->
  fs_inv (with_nodes fs (<[p := with_data nd d]> (nodes fs)) t).
Proof.
  intros [Ht Hc He] Hp Hd -> Hcap. constructor; simpl; [|done|].
  - rewrite (bytes_total_update _ _ nd) by done. simpl. lia.
  - apply map_Forall_insert_2; [|done]. simpl. congruence.
Qed.

(** Adding a node with no contents. *)
Lemma fs_inv_fresh fs p nd :
  fs_inv fs -> nodes fs !! p = None -> nd_data nd = [] ->
  fs_inv (with_nodes fs (<[p := nd]> (nodes fs)) (total fs)).
Proof.
  intros [Ht Hc He] Hp Hd. constructor; simpl; [|done|].
  - rewrite bytes_total_insert, Hd by done. simpl. autorewrite with kernel. lia.
  - by apply map_Forall_insert_2.
Qed.

(** Removing a node, with its bytes taken off the total. *)
Lemma fs_inv_remove fs p nd t :
  fs_inv fs -> nodes fs !! p = Some nd -> t = total fs - zlen (nd_data nd) ->
  fs_inv (with_nodes fs (delete p (nodes fs)) t).
Proof.
  intros [Ht Hc He] Hp ->. pose proof (zlen_nonneg (nd_data nd)).
  constructor; simpl; [|lia|].
  - rewrite (bytes_total_delete _ _ nd) by done. lia.
  - by apply map_Forall_delete.
Qed.

Lemma fs_inv_move fs o nw nd :
  fs_inv fs -> nodes fs !! o = Some nd -> nodes fs !! nw = None ->
  fs_inv (with_nodes fs (<[nw := nd]> (delete o (nodes fs))) (total fs)).
Proof.
  intros [Ht Hc He] Ho Hn. constructor; simpl; [|done|].
  - rewrite bytes_total_insert by (rewrite lookup_delete_None; auto).
    rewrite (bytes_total_delete _ _ nd) by done. lia.
  - apply map_Forall_insert_2; [by apply (He o)|]. by apply map_Forall_delete.
Qed.

(** The total after the removal of a file never wraps. *)
Lemma total_sub fs p nd k :
  fs_inv fs -> nodes fs !! p = Some nd -> 0 <= k <= zlen (nd_data nd) ->
  u64 (total fs - k) = total fs - k.
Proof.
  intros Hi Hp Hk. pose proof (bytes_total_ge _ _ _ Hp) as Hge.
  destruct Hi as [Ht Hc _]. rewrite <- Ht in Hge. apply u64_small. unfold CAP in Hc. lia.
Qed.

Lemma fds_inv_push l next o :
  fds_inv l next -> (length l < MAX_OPEN)%nat -> TMPFS_FD_BASE <= next < 2 ^ 31 - 1 ->
  o_fd o = next -> 0 <= o_pos o < 2 ^ 64 ->
  fds_inv (l ++ [o]) (i32 (next + 1)).
Proof.
  intros [Hc Hn Hr Hp] Hlt Hnext Hfd Hpos.
  rewrite i32_small by (unfold TMPFS_FD_BASE in *; lia). constructor.
  - rewrite length_app; simpl; lia.
  - rewrite map_app. apply NoDup_app. split; [done|]. split; [|apply NoDup_singleton].
    intros fd Hin [->|[]%elem_of_nil]%elem_of_cons.
    apply list_elem_of_fmap in Hin as (o' & Heq & Hin).
    rewrite Forall_forall in Hr. specialize (Hr _ Hin). lia.
  - apply Forall_app; split; [|apply Forall_singleton; lia].
    apply (Forall_impl _ _ _ Hr). cbn. intros o' Ho'. lia.
  - apply Forall_app; split; [done|by apply Forall_singleton].
Qed.

Lemma fds_inv_alter l next i o o' :
  fds_inv l next -> l !! i = Some o -> o_fd o' = o_fd o -> 0 <= o_pos o' < 2 ^ 64 ->
  fds_inv (<[i := o']> l) next.
Proof.
  intros [Hc Hn Hr Hp] Hi Hfd Hpos. constructor.
  - by rewrite length_insert.
  - rewrite list_fmap_insert, Hfd, list_insert_id; [done|].
    by rewrite list_lookup_fmap, Hi.
  - apply Forall_insert; [done|]. rewrite Hfd. exact (Forall_lookup_1 _ _ _ _ Hr Hi).
  - by apply Forall_insert.
Qed.

Lemma fds_inv_delete l next i : fds_inv l next -> fds_inv (delete i l) next.
Proof.
  intros [Hc Hn Hr Hp].
  constructor.
  - etransitivity; [|exact Hc]. apply sublist_length, sublist_delete.
  - eapply sublist_NoDup; [exact Hn|]. change (map ?f ?l) with (f <$> l).
    rewrite list_fmap_delete. apply sublist_delete.
  - by apply Forall_delete.
  - by apply Forall_delete.
Qed.

Definition step_ok (st st' : state) : Prop :=
  state_inv st' /\ NEXT_FD st <= NEXT_FD st' <= NEXT_FD st + 1.

Lemma step_ok_refl st : state_inv st -> step_ok st st.
Proof. split; [done|lia]. Qed.

Lemma step_ok_fs st fs' :
  state_inv st -> fs_inv fs' -> fds_inv (open_fds fs') (NEXT_FD st) ->
  step_ok st (with_fs st fs').
Proof. intros [Hb _] ? ?. split; [split; [done|by exists fs']|simpl; lia]. Qed.

Lemma step_ok_push st fs mk :
  TMPFS_FD_BASE <= NEXT_FD st < 2 ^ 31 - 1 ->
  fs_inv fs -> fds_inv (open_fds fs) (NEXT_FD st) ->
  (MAX_OPEN <=? length (open_fds fs))%nat = false ->
  (forall fd, o_fd (mk fd) = fd) -> (forall fd, 0 <= o_pos (mk fd) < 2 ^ 64) ->
  step_ok st (push_fd st fs mk).2.
Proof.
  intros Hn Hfs Hfds Hlen%Nat.leb_gt Hfd Hpos. unfold push_fd; simpl.
  assert (i32 (NEXT_FD st + 1) = NEXT_FD st + 1) as Hi.
  { apply i32_small. unfold TMPFS_FD_BASE in *. lia. }
  split; [split|]; simpl; [lia| |lia].
  eexists; split; [done|]; split; [by apply fs_inv_open|]. simpl.
  by apply fds_inv_push.
Qed.

#[export] Hint Resolve step_ok_refl step_ok_fs fs_inv_open fds_inv_alter : kernel.

Lemma file_len_range fs p : fs_inv fs -> 0 <= file_len fs p < 2 ^ 63.
Proof.
  intros Hi. unfold file_len. destruct (nodes fs !! p) as [nd|] eqn:Hp; [|lia].
  pose proof (bytes_total_ge _ _ _ Hp). pose proof (inv_total _ Hi).
  pose proof (inv_cap _ Hi). pose proof (zlen_nonneg (nd_data nd)). unfold CAP in *. lia.
Qed.

Lemma open_inv st path flags mode :
  state_inv st -> NEXT_FD st < 2 ^ 31 - 1 -> step_ok st (open st path flags mode).2.
Proof.
  intros Hst Hn. pose proof Hst as (Hb & fs & Hfs & Hi & Hf). unfold open. rewrite Hfs.
  destruct (MAX_OPEN <=? _)%nat eqn:Hmax; [by apply step_ok_refl|].
  destruct (nodes fs !! norm path) as [nd|] eqn:Hp.
  - destruct (has flags O_CREAT && has flags O_EXCL); [by apply step_ok_refl|].
    destruct (nd_is_dir nd) eqn:Hd.
    { destruct (_ || _); [by apply step_ok_refl|]. apply step_ok_push; auto; simpl; lia. }
    destruct (has flags O_DIRECTORY); [by apply step_ok_refl|].
    pose proof (file_len_range fs (norm path) Hi) as Hlen. unfold file_len in Hlen.
    rewrite Hp in Hlen. pose proof (inv_cap _ Hi).
    pose proof (total_sub fs (norm path) nd (zlen (nd_data nd)) Hi Hp ltac:(lia)) as Hsub.
    destruct (has flags O_TRUNC && _).
    + apply step_ok_push; auto;
        [|simpl; intros; destruct (has _ _); autorewrite with kernel; lia].
      apply fs_inv_update; auto; rewrite Hsub; autorewrite with kernel; lia.
    + apply step_ok_push; auto. simpl; intros; destruct (has _ _); lia.
  - destruct (negb _); [by apply step_ok_refl|].
    destruct (has flags O_DIRECTORY); [by apply step_ok_refl|].
    destruct (nodes fs !! parent _) as [p|]; [|by apply step_ok_refl].
    destruct (nd_is_dir p); [|by apply step_ok_refl].
    apply step_ok_push; auto; [by apply fs_inv_fresh|simpl; lia].
Qed.

(** The file system after [write_at], and the offset the write reached. *)
Lemma write_at_inv fs m path at_ buf count :
  fs_inv fs -> 0 <= at_ < 2 ^ 64 -> 0 <= count < 2 ^ 64 ->
  let '(r, fs') := write_at fs m path at_ buf count in
  fs_inv fs' /\ open_fds fs' = open_fds fs /\ (0 < r -> 0 <= at_ + r < 2 ^ 64).
Proof.
  intros Hi Hat Hc. destruct (write_at fs m path at_ buf count) as [r fs'] eqn:E.
  apply write_at_spec in E as [[Hr ->]|(nd & Hp & Hd & Hr & Ht & _ & ->)]; auto.
  { split; [done|]; split; [done|lia]. }
  set (src := mem_read _ _ _) in *.
  assert (Hsrc : zlen src = r) by (unfold src, zlen; rewrite mem_read_length; lia).
  assert (src <> []) by (intros ->; autorewrite with kernel in Hsrc; lia).
  split; [|split; [done|]].
  - apply fs_inv_update; auto. rewrite splice_length, Hsrc by (done || lia). lia.
  - pose proof (bytes_total_ge _ _ _ Hp) as Hge. pose proof (inv_total _ Hi).
    unfold grow_of, CAP in *. lia.
Qed.

Lemma fds_inv_lookup l next i o :
  fds_inv l next -> l !! i = Some o -> 0 <= o_pos o < 2 ^ 64.
Proof. intros Hf Hi. exact (Forall_lookup_1 _ _ _ _ (inv_pos _ _ Hf) Hi). Qed.

Lemma write_inv st m fd buf count :
  state_inv st -> 0 <= count < 2 ^ 64 -> step_ok st (write st m fd buf count).2.
Proof.
  intros Hst Hc. pose proof Hst as (Hb & fs & Hfs & Hi & Hf). unfold write. rewrite Hfs.
  destruct (position _ _) as [idx|]; [|by apply step_ok_refl].
  destruct (open_fds fs !! idx) as [o|] eqn:Ho; [|by apply step_ok_refl].
  destruct (_ || _); [by apply step_ok_refl|].
  set (at_ := if o_append o then _ else _).
  assert (Hat : 0 <= at_ < 2 ^ 64).
  { subst at_. pose proof (file_len_range fs (o_path o) Hi).
    pose proof (fds_inv_lookup _ _ _ _ Hf Ho). destruct (o_append o); lia. }
  pose proof (write_at_inv fs m (o_path o) at_ buf count Hi Hat Hc) as Hw.
  destruct (write_at fs m _ _ _ _) as [r fs'] eqn:E. destruct Hw as (Hi' & Hop & Hr).
  simpl. destruct (0 <? r) eqn:Er; apply step_ok_fs; auto with kernel; simpl; rewrite Hop; auto.
  bool_to_prop. eapply fds_inv_alter; eauto. simpl. apply u64_range.
Qed.

Lemma pwrite_inv st m fd buf count off :
  state_inv st -> 0 <= count < 2 ^ 64 -> 0 <= off < 2 ^ 64 ->
  step_ok st (pwrite st m fd buf count off).2.
Proof.
  intros Hst Hc Hoff. pose proof Hst as (Hb & fs & Hfs & Hi & Hf). unfold pwrite. rewrite Hfs.
  destruct (position _ _) as [idx|]; [|by apply step_ok_refl].
  destruct (open_fds fs !! idx) as [o|] eqn:Ho; [|by apply step_ok_refl].
  destruct (_ || _); [by apply step_ok_refl|].
  pose proof (write_at_inv fs m (o_path o) off buf count Hi Hoff Hc) as Hw.
  destruct (write_at fs m _ _ _ _) as [r fs'] eqn:E. destruct Hw as (Hi' & Hop & Hr).
  apply step_ok_fs; auto. by rewrite Hop.
Qed.

Lemma read_inv st m fd buf count : state_inv st -> step_ok st (read st m fd buf count).1.2.
Proof.
  intros Hst. pose proof Hst as (Hb & fs & Hfs & Hi & Hf). unfold read. rewrite Hfs.
  destruct (position _ _) as [idx|]; [|by apply step_ok_refl].
  destruct (open_fds fs !! idx) as [o|] eqn:Ho; [|by apply step_ok_refl].
  destruct (o_is_dir o); [by apply step_ok_refl|].
  destruct (nodes fs !! o_path o) as [nd|]; [|by apply step_ok_refl].
  destruct (read_at m nd _ _ _) as [r m'].
  simpl. destruct (0 <? r); apply step_ok_fs; auto with kernel. simpl.
  eapply fds_inv_alter; eauto. apply u64_range.
Qed.

Lemma lseek_inv st fd off whence :
  state_inv st -> step_ok st (lseek st fd off whence).2.
Proof.
  intros Hst. pose proof Hst as (Hb & fs & Hfs & Hi & Hf). unfold lseek. rewrite Hfs.
  destruct (position _ _) as [idx|]; [|by apply step_ok_refl].
  destruct (open_fds fs !! idx) as [o|] eqn:Ho; [|by apply step_ok_refl].
  set (base := if whence =? 0 then _ else _). clearbody base.
  destruct base as [base|]; [|by apply step_ok_refl]. cbv zeta.
  destruct (_ <? 0) eqn:E; [by apply step_ok_refl|]. bool_to_prop.
  apply step_ok_fs; auto with kernel. eapply fds_inv_alter; eauto. simpl.
  pose proof (i64_range (base + off)). lia.
Qed.

Lemma resize_length d n : 0 <= n -> zlen (vec_resize d n) = n.
Proof. intros. unfold zlen, vec_resize. rewrite length_resize. lia. Qed.

Lemma resize_path_inv fs path len :
  fs_inv fs -> 0 <= len < 2 ^ 64 - CAP ->
  exists r fs', resize_path fs path len = Ret (r, fs') /\ fs_inv fs' /\
                open_fds fs' = open_fds fs.
Proof.
  intros Hi Hlen. unfold resize_path.
  destruct (nodes fs !! path) as [nd|] eqn:Hp; [|do 2 eexists; eauto].
  destruct (nd_is_dir nd) eqn:Hd; [do 2 eexists; eauto|].
  pose proof (bytes_total_ge _ _ _ Hp) as Hge. rewrite <- (inv_total _ Hi) in Hge.
  pose proof (inv_cap _ Hi). pose proof (zlen_nonneg (nd_data nd)).
  assert (HC : CAP = 4194304) by done. unfold I64_MAX.
  destruct (zlen (nd_data nd) <? len) eqn:E; bool_to_prop.
  - rewrite u64_small by lia. destruct (CAP <? _) eqn:E2; [do 2 eexists; eauto|]. bool_to_prop.
    replace (2 ^ 63 - 1 <? len) with false by (symmetry; apply Z.ltb_ge; lia).
    do 2 eexists; split; [done|]; split; [|done]. apply fs_inv_update; auto; rewrite ?resize_length; lia.
  - rewrite u64_small by lia.
    replace (2 ^ 63 - 1 <? len) with false by (symmetry; apply Z.ltb_ge; lia).
    do 2 eexists; split; [done|]; split; [|done]. apply fs_inv_update; auto; rewrite ?resize_length; lia.
Qed.

Lemma ftruncate_inv st fd len :
  state_inv st -> 0 <= len < 2 ^ 64 - CAP ->
  exists r st', ftruncate st fd len = Ret (r, st') /\ step_ok st st'.
Proof.
  intros Hst Hlen. pose proof Hst as (Hb & fs & Hfs & Hi & Hf). unfold ftruncate. rewrite Hfs.
  destruct (find_fd fs fd) as [o|]; [|do 2 eexists; auto with kernel].
  destruct (o_is_dir o); [do 2 eexists; auto with kernel|].
  destruct (resize_path_inv fs (o_path o) len Hi Hlen) as (r & fs' & -> & Hi' & Hop).
  do 2 eexists; split; [done|]. apply step_ok_fs; auto. by rewrite Hop.
Qed.

Lemma truncate_inv st path len :
  state_inv st -> 0 <= len < 2 ^ 64 - CAP ->
  exists r st', truncate st path len = Ret (r, st') /\ step_ok st st'.
Proof.
  intros Hst Hlen. pose proof Hst as (Hb & fs & Hfs & Hi & Hf). unfold truncate. rewrite Hfs.
  destruct (nodes fs !! norm path) as [o|]; [|do 2 eexists; auto with kernel].
  destruct (resize_path_inv fs (norm path) len Hi Hlen) as (r & fs' & -> & Hi' & Hop).
  do 2 eexists; split; [done|]. apply step_ok_fs; auto. by rewrite Hop.
Qed.

Lemma close_inv st fd : state_inv st -> step_ok st (close st fd).2.
Proof.
  intros Hst. pose proof Hst as (Hb & fs & Hfs & Hi & Hf). unfold close. rewrite Hfs.
  destruct (fd <? _); [by apply step_ok_refl|].
  destruct (position _ _) as [idx|]; [|by apply step_ok_refl].
  apply step_ok_fs; auto with kernel. by apply fds_inv_delete.
Qed.

Lemma unlink_inv st path : state_inv st -> step_ok st (unlink st path).2.
Proof.
  intros Hst. pose proof Hst as (Hb & fs & Hfs & Hi & Hf). unfold unlink. rewrite Hfs.
  destruct (nodes fs !! norm path) as [nd|] eqn:Hp; [|by apply step_ok_refl].
  destruct (nd_is_dir nd); [by apply step_ok_refl|].
  apply step_ok_fs; auto. eapply fs_inv_remove; eauto.
  apply (total_sub _ (norm path) nd); auto. pose proof (zlen_nonneg (nd_data nd)). lia.
Qed.

Lemma mkdir_inv st path mode : state_inv st -> step_ok st (mkdir st path mode).2.
Proof.
  intros Hst. pose proof Hst as (Hb & fs & Hfs & Hi & Hf). unfold mkdir. rewrite Hfs.
  destruct (nodes fs !! norm path) as [nd|] eqn:Hp; [by apply step_ok_refl|].
  destruct (nodes fs !! parent _) as [p|]; [|by apply step_ok_refl].
  destruct (nd_is_dir p); [|by apply step_ok_refl].
  apply step_ok_fs; auto. by apply fs_inv_fresh.
Qed.

Lemma rmdir_inv st path : state_inv st -> step_ok st (rmdir st path).2.
Proof.
  intros Hst. pose proof Hst as (Hb & fs & Hfs & Hi & Hf). unfold rmdir. rewrite Hfs.
  destruct (_ || _); [by apply step_ok_refl|].
  destruct (nodes fs !! norm path) as [nd|] eqn:Hp; [|by apply step_ok_refl].
  destruct (nd_is_dir nd) eqn:Hd; simpl; [|by apply step_ok_refl].
  destruct (has_children _ _); [by apply step_ok_refl|].
  apply step_ok_fs; auto. eapply fs_inv_remove; eauto.
  rewrite (inv_dir_empty _ Hi _ _ Hp Hd). autorewrite with kernel. lia.
Qed.

(** What [rename] can do to the nodes: nothing, drop an empty destination
    directory (and fail), or move the source over a destination it dropped. *)
Lemma rename_cases st fs old new :
  TMPFS st = Some fs -> fs_inv fs ->
  let o := norm old in let nw := norm new in
  (rename st old new).2 = st \/
  exists fs1 src, fs_inv fs1 /\ open_fds fs1 = open_fds fs /\
    o <> nw /\ nodes fs !! o = Some src /\ nodes fs1 !! nw = None /\ nodes fs1 !! o = Some src /\
    (exists p, nodes fs !! parent nw = Some p /\ nd_is_dir p = true) /\
    ((nodes fs1 = nodes fs) \/
     exists dst, nodes fs1 = delete nw (nodes fs) /\ nodes fs !! nw = Some dst /\
                 (nd_is_dir dst = true -> has_children fs nw = false)) /\
    ((rename st old new).2 = with_fs st fs1 \/
     ((nd_is_dir src = true -> has_children fs1 o = false) /\
      (rename st old new).2 = with_fs st (with_nodes fs1 (<[nw := src]> (delete o (nodes fs1))) (total fs1)))).
Proof.
  intros Hfs Hi o nw. unfold rename. fold o nw. rewrite Hfs.
  destruct (bytes_eqb o nw) eqn:Heq; [by left|]. apply bytes_eqb_neq in Heq.
  destruct (nodes fs !! o) as [src|] eqn:Ho; [|by left].
  destruct (nodes fs !! parent nw) as [p|] eqn:Hpar; [|by left].
  destruct (nd_is_dir p) eqn:Hpd; [|by left]. simpl negb; cbv iota.
  destruct (nodes fs !! nw) as [dst|] eqn:Hnw.
  2: { right. exists fs, src. repeat (split; [by eauto|]).
       destruct (nd_is_dir src), (has_children fs o); simpl; naive_solver. }
  destruct (negb _); [by left|].
  set (t := if nd_is_dir dst then total fs else u64 (total fs - zlen (nd_data dst))).
  set (fs1 := with_nodes fs (delete nw (nodes fs)) t).
  assert (Hi1 : fs_inv fs1).
  { eapply fs_inv_remove; eauto. subst t. pose proof (zlen_nonneg (nd_data dst)).
    destruct (nd_is_dir dst) eqn:Hdd.
    - rewrite (inv_dir_empty _ Hi _ _ Hnw Hdd). autorewrite with kernel. lia.
    - apply (total_sub _ nw dst); auto. lia. }
  destruct (nd_is_dir dst) eqn:Hdd; [destruct (has_children fs nw) eqn:Hch; [by left|]|];
    right; exists fs1, src;
    (split; [done|]); (split; [done|]); (split; [done|]); (split; [done|]);
    (split; [apply lookup_delete_eq|]); (split; [by apply lookup_delete_Some|]);
    (split; [by eauto|]); (split; [right; exists dst; repeat split; auto; congruence|]);
    change (with_nodes fs (delete nw (nodes fs)) _) with fs1;
    destruct (nd_is_dir src), (has_children fs1 o); simpl; naive_solver.
Qed.

Lemma rename_inv st old new : state_inv st -> step_ok st (rename st old new).2.
Proof.
  intros Hst. pose proof Hst as (Hb & fs & Hfs & Hi & Hf).
  destruct (rename_cases st fs old new Hfs Hi)
    as [->|(fs1 & src & Hi1 & Hop & _ & _ & Hnw & Ho & _ & _ & [->|[_ ->]])].
  - by apply step_ok_refl.
  - apply step_ok_fs; auto. by rewrite Hop.
  - apply step_ok_fs; auto; [by apply fs_inv_move|]. simpl. by rewrite Hop.
Qed.

Lemma getdents64_inv st m fd buf count :
  state_inv st -> step_ok st (getdents64 st m fd buf count).1.2.
Proof.
  intros Hst. pose proof Hst as (Hb & fs & Hfs & Hi & Hf). unfold getdents64. rewrite Hfs.
  destruct (position _ _) as [idx|]; [|by apply step_ok_refl].
  destruct (open_fds fs !! idx) as [o|] eqn:Ho; [|by apply step_ok_refl].
  destruct (o_is_dir o); [|by apply step_ok_refl]. simpl.
  destruct (emit_names _ _ _ _ _ _ _ _) as [[off emitted] m']. simpl.
  apply step_ok_fs; auto with kernel. eapply fds_inv_alter; eauto.
  simpl. by eapply fds_inv_lookup.
Qed.

Lemma exec_inv o st m :
  state_inv st -> NEXT_FD st < 2 ^ 31 - 1 -> op_ok o ->
  exists r st' m', exec o st m = Ret (r, st', m') /\ step_ok st st'.
Proof.
  intros Hst Hn Hok. destruct o; simpl in *;
    try match goal with
    | |- context [obind (ftruncate ?st ?fd ?len)] =>
        destruct (ftruncate_inv st fd len) as (r & st' & -> & H'); auto; simpl; eauto
    | |- context [obind (truncate ?st ?p ?len)] =>
        destruct (truncate_inv st p len) as (r & st' & -> & H'); auto; simpl; eauto
    end;
    try (do 3 eexists; split; [done|];
         first [by apply step_ok_refl | by apply open_inv | by apply write_inv
               | by apply pwrite_inv; destruct_and? | by apply lseek_inv | by apply close_inv
               | by apply unlink_inv | by apply rename_inv | by apply mkdir_inv
               | by apply rmdir_inv ]).
  - pose proof (read_inv st m fd buf count Hst) as H.
    destruct (read st m fd buf count) as [[r st'] m']. eauto.
  - pose proof (getdents64_inv st m fd buf count Hst) as H.
    destruct (getdents64 st m fd buf count) as [[r st'] m']. eauto.
Qed.

Lemma run_inv ops st m :
  state_inv st -> NEXT_FD st + Z.of_nat (length ops) < 2 ^ 31 -> Forall op_ok ops ->
  exists rs st' m', run ops st m = Ret (rs, st', m') /\ state_inv st'.
Proof.
  revert st m; induction ops as [|o ops IH]; intros st m Hst Hn Hok; simpl in *.
  { by exists [], st, m. }
  inversion Hok as [|? ? Ho Hok']; subst.
  destruct (exec_inv o st m Hst ltac:(lia) Ho) as (r & st' & m' & -> & Hst' & Hn'). simpl.
  destruct (IH st' m' Hst' ltac:(lia) Hok') as (rs & st'' & m'' & -> & Hst''). simpl.
  by exists (r :: rs), st'', m''.
Qed.

Lemma init_inv : state_inv (init boot_state).
Proof.
  split; [done|]. eexists; split; [done|]. split.
  - constructor; [done|done|].
    apply map_Forall_insert_2; [done|]. apply map_Forall_insert_2; [done|]. apply map_Forall_empty.
  - constructor; [simpl; unfold MAX_OPEN; lia|constructor|constructor|constructor].
Qed.

(** ** The tree shape *)

Lemma rposition_Some {A} (f : A -> bool) l i :
  rposition f l = Some i ->
  exists l1 x l2, l = l1 ++ x :: l2 /\ length l1 = i /\ f x = true /\
                  Forall (fun y => f y = false) l2.
Proof.
  revert i; induction l as [|x l IH]; intros i; simpl; [done|].
  destruct (rposition f l) as [j|] eqn:Hr.
  - intros [= <-]. destruct (IH j eq_refl) as (l1 & y & l2 & -> & <- & Hy & HF).
    by exists (x :: l1), y, l2.
  - destruct (f x) eqn:Hf; [|done]. intros [= <-]. exists [], x, l.
    split; [done|]. split; [done|]. split; [done|]. clear -Hr.
    induction l as [|y l IH]; [constructor|]. simpl in Hr.
    destruct (rposition f l); [done|]. destruct (f y) eqn:?; [done|]. constructor; auto.
Qed.

(** A path lies under its parent: it extends the parent by a slash and a last
    component. *)
Lemma parent_prefix p : parent p = b "/" \/ starts_with p (parent p ++ [SLASH]) = true.
Proof.
  unfold parent. destruct (rposition _ p) as [[|i]|] eqn:Hr; [by left| |by left]. right.
  apply rposition_Some in Hr as (l1 & x & l2 & -> & Hlen & Hx & _). bool_to_prop.
  subst x. rewrite take_app_length' by done.
  replace (l1 ++ SLASH :: l2) with ((l1 ++ [SLASH]) ++ l2) by (by rewrite <- app_assoc).
  apply starts_with_app.
Qed.

Lemma elem_of_keys n k : k ∈ keys n <-> is_Some (n !! k).
Proof.
  unfold keys. rewrite merge_sort_Permutation. change (map ?f ?l) with (f <$> l).
  rewrite list_elem_of_fmap. split.
  - intros ((k' & v) & -> & Hin). exists v. by apply elem_of_map_to_list.
  - intros [v Hv]. exists (k, v). split; [done|]. by apply elem_of_map_to_list.
Qed.

Lemma has_children_false fs dir p nd :
  has_children fs dir = false -> nodes fs !! p = Some nd ->
  starts_with p (dir ++ [SLASH]) = false.
Proof.
  intros Hc Hp. destruct (starts_with p _) eqn:E; [|done].
  assert (Hin : existsb (fun k => starts_with k (dir ++ [SLASH])) (keys (nodes fs)) = true).
  { apply existsb_exists. exists p. split; [|done].
    apply list_elem_of_In, elem_of_keys. by exists nd. }
  unfold has_children in Hc. congruence.
Qed.

(** A childless node is nobody's parent. *)
Lemma not_parent fs dir p nd :
  nodes fs !! b "/" = None -> is_Some (nodes fs !! dir) ->
  has_children fs dir = false -> nodes fs !! p = Some nd -> parent p <> dir.
Proof.
  intros Hroot [d Hd] Hc Hp <-. destruct (parent_prefix p) as [Heq|Hs].
  - rewrite Heq in Hd. congruence.
  - rewrite (has_children_false _ _ _ _ Hc Hp) in Hs. done.
Qed.

Lemma tree_wf_insert n p nd :
  tree_wf n -> p <> b "/" ->
  (exists q, n !! parent p = Some q /\ nd_is_dir q = true) ->
  (forall nd', n !! p = Some nd' -> nd_is_dir nd' = true -> nd_is_dir nd = true) ->
  tree_wf (<[p := nd]> n).
Proof.
  intros [Hroot Hwf] Hp (q & Hq & Hqd) Hkeep.
  assert (Hpar : forall k, (exists q, n !! k = Some q /\ nd_is_dir q = true) ->
                 exists q, <[p := nd]> n !! k = Some q /\ nd_is_dir q = true).
  { intros k (q' & Hk & Hd). destruct (decide (p = k)) as [<-|].
    - exists nd. rewrite lookup_insert_eq. eauto.
    - exists q'. by rewrite lookup_insert_ne. }
  split; [by rewrite lookup_insert_ne|]. intros k nd' [[<- <-]|[Hne Hk]]%lookup_insert_Some.
  - right; right. apply Hpar; eauto.
  - destruct (Hwf k nd' Hk) as [->|[->|Hex]]; auto.
Qed.

(** Replacing a node by one of the same kind keeps the tree shape. *)
Lemma tree_wf_update n p nd nd' :
  tree_wf n -> n !! p = Some nd -> nd_is_dir nd' = nd_is_dir nd ->
  tree_wf (<[p := nd']> n).
Proof.
  intros [Hroot Hwf] Hp Hd. split.
  { rewrite lookup_insert_ne; [done|]. intros ->. congruence. }
  intros k x Hk.
  assert (Hk' : exists x', n !! k = Some x').
  { apply lookup_insert_Some in Hk as [[<- _]|[_ ?]]; eauto. }
  destruct Hk' as [x' Hx']. destruct (Hwf k x' Hx') as [->|[->|(q & Hq & Hqd)]]; auto.
  right; right. destruct (decide (p = parent k)) as [->|].
  - exists nd'. rewrite lookup_insert_eq. split; [done|]. congruence.
  - exists q. by rewrite lookup_insert_ne.
Qed.

(** Removing a node that is nobody's parent keeps the tree shape. *)
Lemma tree_wf_delete n p :
  tree_wf n -> (forall k nd, n !! k = Some nd -> k <> p -> parent k <> p \/ k = b "/tmp" \/ k = b "/dev/shm") ->
  tree_wf (delete p n).
Proof.
  intros [Hroot Hwf] Hnp. split; [rewrite lookup_delete_None; auto|].
  intros k nd [Hne Hk]%lookup_delete_Some.
  destruct (Hwf k nd Hk) as [->|[->|(q & Hq & Hqd)]]; auto.
  destruct (Hnp k nd Hk) as [Hp|[->| ->]]; auto.
  right; right. exists q. by rewrite lookup_delete_ne.
Qed.

(** A regular file is nobody's parent. *)
Lemma tree_wf_delete_file n p nd :
  tree_wf n -> n !! p = Some nd -> nd_is_dir nd = false -> tree_wf (delete p n).
Proof.
  intros Hwf Hp Hd. apply tree_wf_delete; [done|]. intros k nd' Hk _.
  destruct (proj2 Hwf k nd' Hk) as [->|[->|(q & Hq & Hqd)]]; auto.
  left. intros Heq. rewrite Heq in Hq. congruence.
Qed.

Definition tree_inv (st : state) : Prop :=
  exists fs, TMPFS st = Some fs /\ tree_wf (nodes fs).

Lemma tree_inv_fs st fs : tree_wf (nodes fs) -> tree_inv (with_fs st fs).
Proof. intros; by exists fs. Qed.

Lemma tree_inv_push st fs mk : tree_wf (nodes fs) -> tree_inv (push_fd st fs mk).2.
Proof. intros; by eexists. Qed.

#[export] Hint Resolve tree_inv_fs tree_inv_push : kernel.

Lemma parent_root : parent (b "/") = b "/".
Proof. done. Qed.

(** A path whose parent exists is not the root. *)
Lemma not_root n p q : tree_wf n -> n !! parent p = Some q -> p <> b "/".
Proof. intros [Hroot _] Hp ->. rewrite parent_root in Hp. congruence. Qed.

Lemma open_tree st path flags mode : tree_inv st -> tree_inv (open st path flags mode).2.
Proof.
  intros Hst. pose proof Hst as (fs & Hfs & Hwf). unfold open. rewrite Hfs.
  destruct (MAX_OPEN <=? _)%nat; [done|].
  destruct (nodes fs !! norm path) as [nd|] eqn:Hp.
  - destruct (has flags O_CREAT && has flags O_EXCL); [done|].
    destruct (nd_is_dir nd) eqn:Hd; [destruct (_ || _); [done|by apply tree_inv_push]|].
    destruct (has flags O_DIRECTORY); [done|].
    destruct (has flags O_TRUNC && _); apply tree_inv_push; [|done].
    by eapply tree_wf_update.
  - destruct (negb _); [done|]. destruct (has flags O_DIRECTORY); [done|].
    destruct (nodes fs !! parent _) as [p|] eqn:Hpar; [|done].
    destruct (nd_is_dir p) eqn:Hd; [|done]. apply tree_inv_push. simpl.
    apply tree_wf_insert; eauto using not_root. congruence.
Qed.

Lemma write_at_tree fs m path at_ buf count :
  tree_wf (nodes fs) -> tree_wf (nodes (write_at fs m path at_ buf count).2).
Proof.
  intros Hwf. unfold write_at. destruct (nodes fs !! path) as [nd|] eqn:Hp; [|done].
  destruct (nd_is_dir nd) eqn:Hd; [done|]. destruct (count =? 0); [done|]. cbv zeta.
  set (mx := if _ <=? _ then _ else _). destruct (_ =? 0); [done|].
  destruct (_ <? _); simpl; by eapply tree_wf_update.
Qed.

Lemma write_tree st m fd buf count : tree_inv st -> tree_inv (write st m fd buf count).2.
Proof.
  intros Hst. pose proof Hst as (fs & Hfs & Hwf). unfold write. rewrite Hfs.
  destruct (position _ _); [|done]. destruct (open_fds fs !! _) as [o|]; [|done].
  destruct (_ || _); [done|]. cbv zeta. set (at_ := if o_append o then _ else _).
  pose proof (write_at_tree fs m (o_path o) at_ buf count Hwf) as Hw.
  destruct (write_at fs m _ _ _ _) as [r fs']. simpl in *. destruct (0 <? r); by apply tree_inv_fs.
Qed.

Lemma pwrite_tree st m fd buf count off :
  tree_inv st -> tree_inv (pwrite st m fd buf count off).2.
Proof.
  intros Hst. pose proof Hst as (fs & Hfs & Hwf). unfold pwrite. rewrite Hfs.
  destruct (position _ _); [|done]. destruct (open_fds fs !! _) as [o|]; [|done].
  destruct (_ || _); [done|].
  pose proof (write_at_tree fs m (o_path o) off buf count Hwf) as Hw.
  destruct (write_at fs m _ _ _ _) as [r fs']. by apply tree_inv_fs.
Qed.

Lemma resize_path_tree fs path len r fs' :
  tree_wf (nodes fs) -> resize_path fs path len = Ret (r, fs') -> tree_wf (nodes fs').
Proof.
  intros Hwf. unfold resize_path. destruct (nodes fs !! path) as [nd|] eqn:Hp; [|by intros [= <- <-]].
  destruct (nd_is_dir nd) eqn:Hd; [by intros [= <- <-]|].
  repeat case_match; intros; simplify_eq; auto; simpl; by eapply tree_wf_update.
Qed.

Lemma unlink_tree st path : tree_inv st -> tree_inv (unlink st path).2.
Proof.
  intros Hst. pose proof Hst as (fs & Hfs & Hwf). unfold unlink. rewrite Hfs.
  destruct (nodes fs !! norm path) as [nd|] eqn:Hp; [|done].
  destruct (nd_is_dir nd) eqn:Hd; [done|]. apply tree_inv_fs. by eapply tree_wf_delete_file.
Qed.

Lemma mkdir_tree st path mode : tree_inv st -> tree_inv (mkdir st path mode).2.
Proof.
  intros Hst. pose proof Hst as (fs & Hfs & Hwf). unfold mkdir. rewrite Hfs.
  destruct (nodes fs !! norm path) as [nd|] eqn:Hp; [done|].
  destruct (nodes fs !! parent _) as [p|] eqn:Hpar; [|done].
  destruct (nd_is_dir p) eqn:Hd; [|done]. apply tree_inv_fs.
  apply tree_wf_insert; eauto using not_root.
Qed.

Lemma rmdir_tree st path : tree_inv st -> tree_inv (rmdir st path).2.
Proof.
  intros Hst. pose proof Hst as (fs & Hfs & Hwf). unfold rmdir. rewrite Hfs.
  destruct (_ || _); [done|].
  destruct (nodes fs !! norm path) as [nd|] eqn:Hp; [|done].
  destruct (negb _); [done|]. destruct (has_children _ _) eqn:Hc; [done|]. apply tree_inv_fs.
  apply tree_wf_delete; [done|]. intros k x Hk _. left.
  eapply not_parent; eauto. apply Hwf.
Qed.

Lemma rename_tree st old new :
  state_inv st -> tree_inv st -> parent (norm new) <> norm old ->
  tree_inv (rename st old new).2.
Proof.
  intros (_ & fs & Hfs & Hi & _) (fs0 & Hfs0 & Hwf) Hpar.
  assert (fs0 = fs) as -> by congruence. clear Hfs0.
  destruct (rename_cases st fs old new Hfs Hi)
    as [->|(fs1 & src & Hi1 & Hop & Hne & Ho & Hnw & Ho1 & (p & Hp & Hpd) & Hn & Hres)].
  { by exists fs. }
  assert (Hwf1 : tree_wf (nodes fs1)).
  { destruct Hn as [->|(dst & -> & Hdst & Hc)]; [done|].
    destruct (nd_is_dir dst) eqn:Hd; [|by eapply tree_wf_delete_file].
    apply tree_wf_delete; [done|]. intros k x Hk _. left. eapply not_parent; eauto. apply Hwf. }
  destruct Hres as [->|[Hc ->]]; apply tree_inv_fs; [done|]. simpl.
  assert (Hpn : parent (norm new) <> norm new).
  { intros Heq. destruct (parent_prefix (norm new)) as [Hr|Hs].
    - rewrite Hr in Hp. destruct Hwf. congruence.
    - rewrite Heq in Hs. apply starts_with_spec in Hs as [r Hr].
      apply (f_equal length) in Hr. rewrite !length_app in Hr. simpl in Hr. lia. }
  apply tree_wf_insert.
  - destruct (nd_is_dir src) eqn:Hd; [|by eapply tree_wf_delete_file].
    apply tree_wf_delete; [done|]. intros k x Hk _. left. eapply not_parent; eauto. apply Hwf1.
  - exact (not_root _ _ _ Hwf Hp).
  - exists p. rewrite lookup_delete_ne by done.
    destruct Hn as [->|(dst & -> & _)]; [done|]. by rewrite lookup_delete_ne.
  - intros nd'. rewrite lookup_delete_ne by done. congruence.
Qed.

Lemma ftruncate_tree st fd len r st' :
  tree_inv st -> ftruncate st fd len = Ret (r, st') -> tree_inv st'.
Proof.
  intros Ht. pose proof Ht as (fs & Hfs & Hwf). unfold ftruncate. rewrite Hfs.
  repeat case_match; intros; simplify_eq; auto.
  destruct (resize_path _ _ _) as [[? ?]| |] eqn:E; simpl in *; simplify_eq.
  apply tree_inv_fs. by eapply resize_path_tree.
Qed.

Lemma truncate_tree st path len r st' :
  tree_inv st -> truncate st path len = Ret (r, st') -> tree_inv st'.
Proof.
  intros Ht. pose proof Ht as (fs & Hfs & Hwf). unfold truncate. rewrite Hfs.
  repeat case_match; intros; simplify_eq; auto.
  destruct (resize_path _ _ _) as [[? ?]| |] eqn:E; simpl in *; simplify_eq.
  apply tree_inv_fs. by eapply resize_path_tree.
Qed.

Lemma exec_tree o st m r st' m' :
  state_inv st -> tree_inv st -> op_tree_ok o -> exec o st m = Ret (r, st', m') -> tree_inv st'.
Proof.
  intros Hst Ht Hok He. pose proof Ht as (fs & Hfs & Hwf).
  destruct o; simpl in *; simplify_eq;
    auto using open_tree, write_tree, pwrite_tree, unlink_tree, mkdir_tree, rmdir_tree, rename_tree.
  - unfold read in He. rewrite Hfs in He. repeat case_match; simplify_eq; auto; by apply tree_inv_fs.
  - unfold lseek. rewrite Hfs. repeat case_match; simplify_eq; simpl; auto; by apply tree_inv_fs.
  - destruct (ftruncate _ _ _) as [[? ?]| |] eqn:E; simpl in *; simplify_eq. by eapply ftruncate_tree.
  - destruct (truncate _ _ _) as [[? ?]| |] eqn:E; simpl in *; simplify_eq. by eapply truncate_tree.
  - unfold close. rewrite Hfs. repeat case_match; simplify_eq; simpl; auto; by apply tree_inv_fs.
  - unfold getdents64 in He. rewrite Hfs in He. repeat case_match; simplify_eq; auto; by apply tree_inv_fs.
Qed.

Lemma run_tree ops st m rs st' m' :
  state_inv st -> tree_inv st -> NEXT_FD st + Z.of_nat (length ops) < 2 ^ 31 ->
  Forall op_ok ops -> Forall op_tree_ok ops ->
  run ops st m = Ret (rs, st', m') -> tree_inv st'.
Proof.
  revert st m rs; induction ops as [|o ops IH]; intros st m rs Hst Ht Hn Hok Htok; simpl in *.
  { intros. by simplify_eq. }
  inversion Hok as [|? ? Ho Hok']; subst. inversion Htok as [|? ? Hto Htok']; subst.
  destruct (exec_inv o st m Hst ltac:(lia) Ho) as (r & st1 & m1 & E & Hst1 & Hn1).
  rewrite E. simpl. intros Hrun.
  destruct (run ops st1 m1) as [[[rs1 st2] m2]| |] eqn:E2; simpl in Hrun; simplify_eq.
  apply (IH st1 m1 rs1); auto; [exact (exec_tree o st m r st1 m1 Hst Ht Hto E)|lia].
Qed.

Lemma init_tree : tree_inv (init boot_state).
Proof.
  eexists; split; [done|]. split; [done|]. cbn [nodes].
  intros p nd [[<- _]|[_ [[<- _]|[_ Hn]]%lookup_insert_Some]]%lookup_insert_Some; auto.
  by rewrite lookup_empty in Hn.
Qed.

(** ** Properties *)

(** Every sequence of tmpfs system calls from boot runs without a panic
    and keeps the invariant of the file system: [total] is exactly the sum of
    the file lengths and never exceeds [CAP], directories hold no bytes, at
    most [MAX_OPEN] descriptors are live and their numbers are distinct. *)
Theorem tmpfs_run_safe (ops : list op) (m : mem) :
  Z.of_nat (length ops) < 2 ^ 31 - TMPFS_FD_BASE -> Forall op_ok ops ->
  exists rs st' m', run ops (init boot_state) m = Ret (rs, st', m') /\ state_inv st'.
Proof. intros Hlen Hok. apply run_inv; [apply init_inv|simpl; lia|done]. Qed.

Definition demo_ops : list op :=
  [OpMkdir (b "/tmp/d") 0; OpOpen (b "/tmp/d/f") 66 420; OpWrite 4000 0 5;
   OpRename (b "/tmp/d/f") (b "/tmp/g"); OpRmdir (b "/tmp/d"); OpClose 4000].

Lemma tmpfs_run_safe_witness :
  exists rs st' m', run demo_ops (init boot_state) (fun a => a mod 256) = Ret (rs, st', m') /\
                    state_inv st'.
Proof.
  apply (tmpfs_run_safe demo_ops (fun a => a mod 256)); [vm_compute; reflexivity|].
  repeat constructor; vm_compute; congruence.
Defined.

(** C31: every sequence of tmpfs system calls from boot keeps the tree shape:
    each node other than the two mount roots has its parent directory among
    the nodes, so no node is ever orphaned, provided no [rename] moves a
    directory into itself. *)
Theorem tmpfs_tree_wf (ops : list op) (m : mem) rs st' m' :
  Z.of_nat (length ops) < 2 ^ 31 - TMPFS_FD_BASE -> Forall op_ok ops -> Forall op_tree_ok ops ->
  run ops (init boot_state) m = Ret (rs, st', m') -> tree_inv st'.
Proof.
  intros Hlen Hok Htok. apply run_tree; auto using init_inv, init_tree. simpl; lia.
Qed.

Lemma tmpfs_tree_wf_witness :
  exists rs st' m', run demo_ops (init boot_state) (fun a => a mod 256) = Ret (rs, st', m') /\
                    tree_inv st'.
Proof.
  destruct (run demo_ops (init boot_state) (fun a => a mod 256)) as [[[rs st'] m']| |] eqn:E;
    [|vm_compute in E; discriminate..].
  exists rs, st', m'. split; [reflexivity|].
  apply (tmpfs_tree_wf demo_ops (fun a => a mod 256) rs st' m');
    [vm_compute; reflexivity| | |exact E]; repeat constructor; vm_compute; congruence.
Defined.

(** [rename] of an empty directory into itself succeeds and orphans it: the
    directory is gone, the moved node has no parent, and the tree shape is
    broken. *)
Theorem rename_into_itself_orphans :
  exists rs st' m' fs, run [OpMkdir (b "/tmp/a") 0; OpRename (b "/tmp/a") (b "/tmp/a/b")]
                         (init boot_state) (fun _ => 0) = Ret (rs, st', m') /\
    rs = [0; 0] /\ TMPFS st' = Some fs /\
    nodes fs !! b "/tmp/a" = None /\ is_Some (nodes fs !! b "/tmp/a/b") /\ ~ tree_wf (nodes fs).
Proof.
  do 4 eexists. split; [vm_compute; reflexivity|]. split; [done|]. split; [done|].
  split; [done|]. split; [by eexists|]. intros [_ Hwf].
  destruct (Hwf (b "/tmp/a/b") _ eq_refl) as [?|[?|(q & Hq & _)]]; done.
Qed.
