(* ===== verification/TmpfsData.v ===== *)
(** * What the writable file system stores and lists

    The exact effect of a write on contents, accounting and offset, the
    write/read round trip, the completeness of directory listings, and the
    behaviours of [truncate], [O_APPEND] and [rename] that depart from what
    the source documents. *)

From S2P Require Import Prelude Dirent Tmpfs TmpfsInv.

(** ** Descriptors *)

Lemma find_position l fd o :
  List.find (fd_is fd) l = Some o <->
  exists i, position (fd_is fd) l = Some i /\ l !! i = Some o.
Proof.
  induction l as [|x l IH]; simpl; [split; [done|by intros (? & ? & ?)]|].
  destruct (fd_is fd x).
  - split; [intros [= <-]; by exists 0%nat|by intros (i & [= <-] & ?)].
  - rewrite IH. split.
    + intros (i & Hi & Ho). exists (S i). by rewrite Hi.
    + intros (i & Hi & Ho). destruct (position _ l) as [j|]; simplify_eq/=. eauto.
Qed.

(** Updating the record found in place is found again. *)
Lemma find_insert l fd i o o' :
  position (fd_is fd) l = Some i -> l !! i = Some o -> o_fd o' = o_fd o ->
  List.find (fd_is fd) (<[i := o']> l) = Some o'.
Proof.
  revert i; induction l as [|x l IH]; intros i; simpl; [done|].
  destruct (fd_is fd x) eqn:E.
  - intros [= <-] [= ->] Hfd. simpl. unfold fd_is in *. by rewrite Hfd, E.
  - destruct (position _ l) as [j|]; simpl; [|done]. intros [= <-] Ho Hfd. simpl.
    rewrite E. by apply IH.
Qed.

(** Where a [write] on a descriptor lands. *)
Definition write_offset (fs : Tmpfs) (o : OpenFd) : Z :=
  if o_append o then file_len fs (o_path o) else o_pos o.

Section writing.
Context (st : state) (fs : Tmpfs) (m : mem) (fd buf count : Z) (o : OpenFd) (nd : Node).
Hypothesis Hinv : state_inv st.
Hypothesis Hfs : TMPFS st = Some fs.
Hypothesis Hfd : find_fd fs fd = Some o.
Hypothesis Hw : o_writable o = true.
Hypothesis Hdir : o_is_dir o = false.
Hypothesis Hnd : nodes fs !! o_path o = Some nd.
Hypothesis Hndir : nd_is_dir nd = false.
Hypothesis Hcount : 0 < count < 2 ^ 64.

Let at_ := write_offset fs o.

Lemma write_offset_range : 0 <= at_ < 2 ^ 64.
Proof using Hinv Hfs Hfd.
  destruct Hinv as (_ & fs0 & Hfs0 & Hi & Hf).
  assert (fs0 = fs) as -> by congruence.
  apply find_position in Hfd as (i & _ & Ho). unfold at_, write_offset.
  pose proof (file_len_range fs (o_path o) Hi). pose proof (fds_inv_lookup _ _ _ _ Hf Ho).
  destruct (o_append o); lia.
Qed.

(** [write] is [write_at] at the descriptor's offset. *)
Lemma write_unfold :
  let '(r, fs') := write_at fs m (o_path o) at_ buf count in
  exists i, position (fd_is fd) (open_fds fs) = Some i /\ open_fds fs !! i = Some o /\
  write st m fd buf count =
    (r, with_fs st (if 0 <? r
                    then with_open fs' (<[i := with_pos o (u64 (at_ + r))]> (open_fds fs'))
                    else fs')).
Proof using Hfs Hfd Hw Hdir.
  apply find_position in Hfd as (i & Hi & Ho). unfold write, at_, write_offset.
  rewrite Hfs, Hi, Ho, Hw, Hdir. simpl.
  destruct (write_at fs m _ _ _ _) as [r fs']. by exists i.
Qed.

(** No byte fits: even one byte at the offset would exceed the cap. *)
Lemma write_at_nospace r fs' :
  write_at fs m (o_path o) at_ buf count = (r, fs') -> r <= 0 ->
  r = ENOSPC /\ CAP < total fs + grow_of (zlen (nd_data nd)) at_ 1.
Proof using Hinv Hfs Hfd Hnd Hndir Hcount.
  destruct Hinv as (_ & fs0 & Hfs0 & Hi & _).
  assert (fs0 = fs) as -> by congruence.
  pose proof write_offset_range as Hat. unfold write_at. rewrite Hnd, Hndir.
  replace (count =? 0) with false by (symmetry; apply Z.eqb_neq; lia).
  set (len := zlen (nd_data nd)). pose proof (inv_cap _ Hi). pose proof (bytes_total_ge _ _ _ Hnd) as Hge.
  rewrite <- (inv_total _ Hi) in Hge. fold len in Hge.
  pose proof (zlen_nonneg (nd_data nd)) as Hl. fold len in Hl.
  unfold sat_sub, grow_of. assert (HC : CAP = 4194304) by done.
  destruct (len <=? at_) eqn:E; bool_to_prop.
  - destruct (_ =? 0) eqn:E0; bool_to_prop.
    + intros [= <- <-] _. split; [done|]. lia.
    + destruct (_ <? _); intros [= <- <-]; lia.
  - rewrite u64_small by lia. destruct (_ =? 0) eqn:E0; bool_to_prop; [lia|].
    destruct (_ <? _); intros [= <- <-]; lia.
Qed.
End writing.

(** ** Properties of writes *)

(** C7: a [write] of [count > 0] bytes to a writable file descriptor either
    writes [r > 0] bytes or fails with [ENOSPC].  On success the file's
    contents are the old ones with [r] bytes of the buffer spliced in at the
    offset (a gap zero-filled), every other node is untouched, the offset
    moves to the end of what was written, and [r] is the whole request unless
    the cap is exactly reached.  On failure nothing changes and not even one
    byte would have fitted under the cap. *)
Theorem write_exact st fs m fd buf count o nd :
  state_inv st -> TMPFS st = Some fs -> find_fd fs fd = Some o ->
  o_writable o = true -> o_is_dir o = false ->
  nodes fs !! o_path o = Some nd -> nd_is_dir nd = false -> 0 < count < 2 ^ 64 ->
  let at_ := write_offset fs o in
  let '(r, st') := write st m fd buf count in
  exists fs', TMPFS st' = Some fs' /\
  ((r = ENOSPC /\ fs' = fs /\ CAP < total fs + grow_of (zlen (nd_data nd)) at_ 1) \/
   (0 < r <= count /\
    nodes fs' = <[o_path o := with_data nd (splice (nd_data nd) at_ (mem_read m buf (Z.to_nat r)))]> (nodes fs) /\
    find_fd fs' fd = Some (with_pos o (at_ + r)) /\
    total fs' = total fs + grow_of (zlen (nd_data nd)) at_ r /\
    (r = count \/ total fs' = CAP))).
Proof.
  intros Hinv Hfs Hfd Hw Hdir Hnd Hndir Hcount at_.
  pose proof (write_offset_range st fs fd o Hinv Hfs Hfd) as Hat.
  pose proof (write_unfold st fs m fd buf count o Hfs Hfd Hw Hdir) as Hu. fold at_ in Hat, Hu.
  destruct (write_at fs m (o_path o) at_ buf count) as [r fs1] eqn:E.
  destruct Hu as (i & Hi & Ho & ->). pose proof Hinv as (_ & fs0 & Hfs0 & Hfi & _).
  assert (fs0 = fs) as -> by congruence.
  eexists; split; [done|].
  pose proof E as E'. apply write_at_spec in E' as [[Hr ->]|(nd' & Hp & _ & Hr & Ht & Hm & ->)]; auto; [| |lia].
  - left. destruct (write_at_nospace st fs m fd buf count o nd Hinv Hfs Hfd Hnd Hndir Hcount _ _ E Hr)
      as [-> Hns]. done.
  - right. simplify_eq. split; [done|].
    replace (0 <? r) with true by (symmetry; apply Z.ltb_lt; lia).
    assert (at_ + r < 2 ^ 64).
    { pose proof (bytes_total_ge _ _ _ Hnd). pose proof (inv_total _ Hfi).
      unfold grow_of, CAP in *. lia. }
    split; [done|]. split; [|done]. rewrite u64_small by lia.
    by eapply find_insert.
Qed.

(** The bytes spliced in are the bytes read back at the offset. *)
Lemma splice_read d at_ src :
  0 <= at_ -> take (length src) (drop (Z.to_nat at_) (splice d at_ src)) = src.
Proof.
  intros Hat. unfold splice. rewrite !app_assoc.
  rewrite <- (app_assoc _ src).
  rewrite drop_app_length'; [by rewrite take_app_length|].
  rewrite length_app, length_take, length_replicate. lia.
Qed.

(** What [write] stored, [pread] at the write's offset gives back, byte for
    byte, into any buffer. *)
Theorem write_pread st fs m fd buf count o nd r st' m' buf' :
  state_inv st -> TMPFS st = Some fs -> find_fd fs fd = Some o ->
  o_writable o = true -> o_is_dir o = false ->
  nodes fs !! o_path o = Some nd -> nd_is_dir nd = false -> 0 < count < 2 ^ 64 ->
  write st m fd buf count = (r, st') -> 0 < r ->
  pread st' m' fd buf' r (write_offset fs o) =
    (r, mem_write m' buf' (mem_read m buf (Z.to_nat r))).
Proof.
  intros Hinv Hfs Hfd Hw Hdir Hnd Hndir Hcount Hwr Hr.
  pose proof (write_offset_range st fs fd o Hinv Hfs Hfd) as Hat.
  pose proof (write_unfold st fs m fd buf count o Hfs Hfd Hw Hdir) as Hu.
  set (at_ := write_offset fs o) in *.
  destruct (write_at fs m (o_path o) at_ buf count) as [r1 fs1] eqn:E.
  destruct Hu as (i & Hi & Ho & Hu). rewrite Hu in Hwr. injection Hwr as -> <-.
  pose proof Hinv as (_ & fs0 & Hfs0 & Hfi & _).
  assert (fs0 = fs) as -> by congruence.
  apply write_at_spec in E as [[Hr' _]|(nd' & Hp & _ & Hrc & Ht & _ & ->)]; auto; [lia| |lia].
  simplify_eq. replace (0 <? r) with true by (symmetry; apply Z.ltb_lt; lia).
  unfold pread, with_fs. cbn [TMPFS]. unfold find_fd. cbn [open_fds with_open with_nodes].
  erewrite find_insert by done. cbn [o_is_dir with_pos]. rewrite Hdir.
  cbn [nodes with_open with_nodes o_path]. rewrite lookup_insert_eq.
  unfold read_at. cbn [nd_data with_data].
  set (src := mem_read m buf (Z.to_nat r)).
  assert (Hs : zlen src = r) by (unfold src, zlen; rewrite mem_read_length; lia).
  assert (src <> []) by (intros Hn; rewrite Hn in Hs; autorewrite with kernel in Hs; lia).
  rewrite splice_length by (done || lia). rewrite Hs. unfold grow_of.
  destruct (_ <=? at_) eqn:E2; bool_to_prop; [lia|].
  rewrite Z.min_l by lia. do 2 f_equal.
  replace (Z.to_nat r) with (length src) by (unfold zlen in Hs; lia).
  apply splice_read. lia.
Qed.

(** ** Witnesses of the write properties *)

Definition demo_state : state := (open (init boot_state) (b "/tmp/f") 66 420).2.
Definition demo_fs : Tmpfs :=
  match TMPFS demo_state with Some fs => fs | None => mkTmpfs ∅ 0 [] end.
Definition demo_fd : OpenFd := mkOpenFd 4000 (b "/tmp/f") 0 false true false 0.
Definition demo_nd : Node := mkNode false [] 420.
Definition demo_mem : mem := fun a => a mod 256.

Lemma demo_state_inv : state_inv demo_state.
Proof. apply open_inv; [apply init_inv|done]. Qed.

Lemma write_exact_witness :
  let '(r, st') := write demo_state demo_mem 4000 65 3 in
  exists fs', TMPFS st' = Some fs' /\
  ((r = ENOSPC /\ fs' = demo_fs /\ CAP < total demo_fs + grow_of 0 0 1) \/
   (0 < r <= 3 /\
    nodes fs' = <[b "/tmp/f" := with_data demo_nd (splice [] 0 (mem_read demo_mem 65 (Z.to_nat r)))]> (nodes demo_fs) /\
    find_fd fs' 4000 = Some (with_pos demo_fd (0 + r)) /\
    total fs' = total demo_fs + grow_of 0 0 r /\
    (r = 3 \/ total fs' = CAP))).
Proof.
  refine (write_exact demo_state demo_fs demo_mem 4000 65 3 demo_fd demo_nd
            demo_state_inv _ _ _ _ _ _ _).
  1-6: vm_compute; reflexivity.
  lia.
Defined.

Lemma write_pread_witness :
  (pread (write demo_state demo_mem 4000 65 3).2 demo_mem 4000 9000 3 0) =
  (3, mem_write demo_mem 9000 [65; 66; 67]).
Proof.
  refine (write_pread demo_state demo_fs demo_mem 4000 65 3 demo_fd demo_nd 3 _ demo_mem 9000
            demo_state_inv _ _ _ _ _ _ _ _ _); try lia.
  1-6: vm_compute; reflexivity.
  vm_compute; reflexivity.
Defined.

(** ** Truncation *)

(** [ftruncate] of an open regular file panics the kernel exactly when
    [fs.total + grow] overflows 64 bits: the wrapped sum passes the cap test and
    [Vec::resize] is asked for more than [isize::MAX] bytes.  For every other
    length it returns. *)
Theorem ftruncate_panics_iff st fs fd len o nd :
  state_inv st -> TMPFS st = Some fs -> find_fd fs fd = Some o -> o_is_dir o = false ->
  nodes fs !! o_path o = Some nd -> nd_is_dir nd = false -> 0 <= len < 2 ^ 64 ->
  (ftruncate st fd len = Panic <-> 2 ^ 64 <= total fs - zlen (nd_data nd) + len) /\
  ftruncate st fd len <> OutOfFuel.
Proof.
  intros (_ & fs0 & Hfs0 & Hi & _) Hfs Hfd Hd Hnd Hndir Hlen.
  assert (fs0 = fs) as -> by congruence. clear Hfs0.
  unfold ftruncate, resize_path. rewrite Hfs, Hfd, Hd, Hnd, Hndir. cbv zeta.
  pose proof (bytes_total_ge _ _ _ Hnd) as Hge. rewrite <- (inv_total _ Hi) in Hge.
  pose proof (inv_cap _ Hi). pose proof (zlen_nonneg (nd_data nd)).
  assert (HC : CAP = 4194304) by done. unfold I64_MAX.
  set (cur := zlen (nd_data nd)) in *.
  destruct (cur <? len) eqn:E; bool_to_prop.
  - unfold u64. destruct (Z.lt_ge_cases (total fs + (len - cur)) (2 ^ 64)).
    + rewrite Z.mod_small by lia. destruct (CAP <? _) eqn:Ec; bool_to_prop; simpl; [split; [split; [done|lia]|done]|].
      replace (2 ^ 63 - 1 <? len) with false by (symmetry; apply Z.ltb_ge; lia). simpl.
      split; [split; [done|lia]|done].
    + replace ((total fs + (len - cur)) mod 2 ^ 64) with (total fs + (len - cur) - 2 ^ 64)
        by (apply (Z.mod_unique_pos _ _ 1); lia).
      replace (CAP <? _) with false by (symmetry; apply Z.ltb_ge; lia).
      replace (2 ^ 63 - 1 <? len) with true by (symmetry; apply Z.ltb_lt; lia). simpl.
      split; [split; [lia|done]|done].
  - replace (2 ^ 63 - 1 <? len) with false by (symmetry; apply Z.ltb_ge; lia). simpl.
    split; [split; [done|lia]|done].
Qed.

(** Two files, one byte in the other one: truncating the empty one to
    [2^64 - 1] panics. *)
Definition demo_two_files : state :=
  let st := (open (init boot_state) (b "/tmp/f") 66 420).2 in
  let st := (open st (b "/tmp/g") 66 420).2 in
  (write st demo_mem 4001 65 1).2.

Definition demo_two_fs : Tmpfs :=
  match TMPFS demo_two_files with Some fs => fs | None => mkTmpfs ∅ 0 [] end.

Lemma demo_two_files_inv : state_inv demo_two_files.
Proof. apply write_inv; [|lia]. apply open_inv; [apply demo_state_inv|done]. Qed.

Lemma ftruncate_panics_iff_witness : ftruncate demo_two_files 4000 (2 ^ 64 - 1) = Panic.
Proof.
  refine (proj2 (proj1 (ftruncate_panics_iff demo_two_files demo_two_fs 4000 (2 ^ 64 - 1)
                          demo_fd demo_nd demo_two_files_inv _ _ _ _ _ _)) _).
  1-5: vm_compute; reflexivity.
  - lia.
  - vm_compute. congruence.
Defined.

(** ** Behaviours that depart from the documented ones *)

Definition contents (st : state) (path : bytes) : option bytes :=
  match TMPFS st with
  | Some fs => nd_data <$> nodes fs !! path
  | None => None
  end.

(** [O_APPEND] is dropped when the open creates the file: a write after a
    seek back to the start overwrites, although the descriptor was opened for
    appending; on an existing file the same calls append. *)
Theorem open_create_drops_append :
  let flags := Z.lor O_WRONLY (Z.lor O_CREAT O_APPEND) in
  let calls := [OpOpen (b "/tmp/log") flags 420; OpWrite 4000 65 2; OpLseek 4000 0 0; OpWrite 4000 67 1] in
  let again := [OpClose 4000; OpOpen (b "/tmp/log") flags 420; OpLseek 4001 0 0; OpWrite 4001 68 1] in
  (exists rs st m, run calls (init boot_state) demo_mem = Ret (rs, st, m) /\
     rs = [4000; 2; 0; 1] /\ contents st (b "/tmp/log") = Some (b "CB")) /\
  (exists rs st m, run (calls ++ again) (init boot_state) demo_mem = Ret (rs, st, m) /\
     contents st (b "/tmp/log") = Some (b "CBD")).
Proof.
  cbv zeta. split; do 3 eexists; (split; [vm_compute; reflexivity|]); vm_compute; auto.
Qed.

(** A [rename] that fails with [EINVAL] because its source directory has
    children has already removed the empty destination directory. *)
Theorem rename_failure_removes_destination :
  let setup := [OpMkdir (b "/tmp/a") 0; OpMkdir (b "/tmp/a/x") 0; OpMkdir (b "/tmp/d") 0] in
  exists rs st m, run (setup ++ [OpRename (b "/tmp/a") (b "/tmp/d"); OpAccess (b "/tmp/d")])
                      (init boot_state) demo_mem = Ret (rs, st, m) /\
    rs = [0; 0; 0; EINVAL; ENOENT].
Proof. do 3 eexists. split; [vm_compute; reflexivity|done]. Qed.
