(* ===== verification/TmpfsDir.v ===== *)
(** * Directory listings of the writable file system

    A [getdents64] loop lists every child of a directory exactly once, with
    its type, whatever the buffer size, and stops. *)

From S2P Require Import Prelude Dirent Tmpfs TmpfsInv TmpfsData.

(** The loop of a reader: call [getdents64] until it returns no bytes, decoding
    the records of each call. *)
Fixpoint list_dir (fuel : nat) (st : state) (m : mem) (fd buf count : Z) : list (bytes * Z) :=
  match fuel with
  | O => []
  | S fuel' =>
      let '(r, st', m') := getdents64 st m fd buf count in
      if 0 <? r then read_dirents (Z.to_nat r) m' buf r ++ list_dir fuel' st' m' fd buf count
      else []
  end.

(** Names as they come from C strings: no NUL, and not over-long. *)
Definition c_name (name : bytes) : Prop := zlen name < 60000 /\ Forall (fun c => c <> 0) name.

Definition entry (fs : Tmpfs) (prefix name : bytes) : bytes * Z :=
  (name, child_dtype fs prefix name).

(** ** The names of a directory *)

Lemma keys_NoDup n : NoDup (keys n).
Proof. unfold keys. rewrite merge_sort_Permutation. apply NoDup_fst_map_to_list. Qed.

Lemma child_name_Some prefix k name :
  child_name prefix k = Some name <->
  k = prefix ++ name /\ name <> [] /\ (SLASH ∉ name).
Proof.
  unfold child_name. split.
  - destruct (_ && _) eqn:E; [|done]. apply andb_true_iff in E as [Hlen Hs].
    apply Nat.ltb_lt in Hlen. apply starts_with_spec in Hs as [r ->].
    rewrite drop_app_length. destruct (existsb _ r) eqn:Ee; [done|]. intros [= <-].
    split; [done|]. split.
    + intros ->. rewrite length_app in Hlen. simpl in Hlen. lia.
    + intros Hin%list_elem_of_In. assert (existsb (fun c => c =? SLASH) r = true); [|congruence].
      apply existsb_exists. exists SLASH. auto.
  - intros (-> & Hne & Hns). rewrite starts_with_app, length_app, drop_app_length.
    destruct name as [|c name]; [done|].
    replace (_ <? _)%nat with true by (symmetry; apply Nat.ltb_lt; simpl; lia). simpl andb. cbv iota.
    destruct (existsb _ (c :: name)) eqn:Ee; [|done].
    apply existsb_exists in Ee as (x & Hx%list_elem_of_In & Heq). bool_to_prop. by subst.
Qed.

Lemma elem_of_child_names fs prefix name :
  name ∈ child_names fs prefix <->
  name <> [] /\ (SLASH ∉ name) /\ is_Some (nodes fs !! (prefix ++ name)).
Proof.
  unfold child_names. rewrite list_elem_of_omap. split.
  - intros (k & Hk%elem_of_keys & (-> & ? & ?)%child_name_Some). done.
  - intros (? & ? & Hk). exists (prefix ++ name). split; [by apply elem_of_keys|].
    by apply child_name_Some.
Qed.

Lemma child_names_NoDup fs prefix : NoDup (child_names fs prefix).
Proof.
  unfold child_names. pose proof (keys_NoDup (nodes fs)) as Hnd.
  induction Hnd as [|k l Hk _ IH]; [constructor|]. cbn [omap list_omap].
  destruct (child_name prefix k) as [name|] eqn:E; [|done]. constructor; [|done].
  intros (k' & Hk' & E')%list_elem_of_omap.
  apply child_name_Some in E as [-> _]. apply child_name_Some in E' as [-> _]. done.
Qed.

Lemma child_dtype_range fs prefix name : 0 <= child_dtype fs prefix name < 256.
Proof. unfold child_dtype. repeat case_match; lia. Qed.

(** ** One call *)

(** The records of one call decode to the names emitted; the call stops only at
    the end of the names or at a record that does not fit. *)
Lemma emit_names_spec fs prefix rest m buf count off emitted off' emitted' m' :
  Forall c_name rest ->
  emit_names fs prefix rest m buf count off emitted = (off', emitted', m') ->
  exists k, (k <= length rest)%nat /\ emitted' = (emitted + k)%nat /\
    off + 20 * Z.of_nat k <= off' /\ (k = 0%nat -> off' = off) /\
    (forall fuel, (k <= fuel)%nat ->
       read_dirents fuel m' (buf + off) (off' - off) = map (entry fs prefix) (take k rest)) /\
    (forall a, a < buf + off \/ buf + off' <= a -> m' a = m a) /\
    (forall name, rest !! k = Some name -> count < off' + dirent_reclen name).
Proof.
  revert m off emitted; induction rest as [|name rest IH]; intros m off emitted Hok; simpl.
  - intros [= <- <- <-]. exists 0%nat. split; [done|]. split; [lia|]. split; [lia|]. split; [done|]. split; [|done].
    intros fuel _. destruct fuel; simpl; [done|].
    by replace (off - off <=? 0) with true by (symmetry; apply Z.leb_le; lia).
  - inversion Hok as [|? ? [Hlen Hnul] Hok']; subst.
    pose proof (dirent_reclen_bounds name ltac:(lia)) as Hrb. pose proof (zlen_nonneg name).
    destruct (count <? off + dirent_reclen name) eqn:Ef; bool_to_prop.
    { intros [= <- <- <-]. exists 0%nat. split; [lia|]. split; [lia|]. split; [lia|]. split; [done|].
      split; [|split; [done|]].
      - intros fuel _. destruct fuel; simpl; [done|].
        by replace (off - off <=? 0) with true by (symmetry; apply Z.leb_le; lia).
      - intros n [= <-]. lia. }
    set (m1 := dirent_store _ _ _ _ _ _ _). intros E.
    apply IH in E as (k & Hk & -> & Hoff & _ & Hread & Hout & Hstop); [|done].
    exists (S k). split; [lia|]. split; [lia|]. split; [lia|]. split; [lia|].
    set (rl := dirent_reclen name) in *. split; [|split; [|done]].
    + intros [|fuel] Hfuel; [lia|]. cbn [read_dirents take map].
      replace (off' - off <=? 0) with false by (symmetry; apply Z.leb_gt; lia).
      destruct (dirent_read_ext m1 m' (buf + off) rl) as (-> & -> & ->).
      { intros a Ha. symmetry. apply Hout. lia. }
      { lia. }
      { apply dirent_store_reclen. lia. }
      unfold m1, rl. rewrite dirent_store_name, dirent_store_type by (done || lia || apply child_dtype_range).
      unfold entry at 1. f_equal. fold rl. rewrite <- (Hread fuel) by lia. f_equal; lia.
    + intros a Ha. rewrite Hout by lia. apply dirent_store_outside; lia.
Qed.

(** ** The whole listing *)

Lemma getdents64_open st fs m fd buf count o :
  TMPFS st = Some fs -> find_fd fs fd = Some o -> o_is_dir o = true ->
  let prefix := dir_prefix (o_path o) in
  let '(off, emitted, m') :=
    emit_names fs prefix (drop (o_dir_pos o) (child_names fs prefix)) m buf count 0 (o_dir_pos o) in
  exists fs', getdents64 st m fd buf count = (off, with_fs st fs', m') /\
    nodes fs' = nodes fs /\ find_fd fs' fd = Some (with_dir_pos o emitted).
Proof.
  intros Hfs (i & Hi & Ho)%find_position Hd prefix. unfold getdents64.
  rewrite Hfs, Hi, Ho, Hd. simpl negb; cbv iota zeta. fold prefix.
  destruct (emit_names _ _ _ _ _ _ _ _) as [[off emitted] m'].
  eexists. split; [done|]. split; [done|]. unfold find_fd. cbn [open_fds with_open].
  by eapply find_insert.
Qed.

Lemma child_names_nodes fs fs' prefix :
  nodes fs' = nodes fs -> child_names fs' prefix = child_names fs prefix.
Proof. intros H. unfold child_names. by rewrite H. Qed.

Lemma entry_nodes fs fs' prefix :
  nodes fs' = nodes fs -> forall l, map (entry fs' prefix) l = map (entry fs prefix) l.
Proof. intros H l. apply map_ext. intros a. unfold entry, child_dtype. by rewrite H. Qed.

(** The listing from the cursor on. *)
Lemma list_dir_from fuel st fs m fd buf count o :
  TMPFS st = Some fs -> find_fd fs fd = Some o -> o_is_dir o = true ->
  let prefix := dir_prefix (o_path o) in
  let names := child_names fs prefix in
  Forall c_name names -> Forall (fun n => dirent_reclen n <= count) names ->
  (length names - o_dir_pos o < fuel)%nat ->
  list_dir fuel st m fd buf count = map (entry fs prefix) (drop (o_dir_pos o) names).
Proof.
  revert st fs m o. induction fuel as [|fuel IH]; intros st fs m o Hfs Hfd Hd prefix names Hok Hfit Hfuel; [lia|].
  cbn [list_dir]. pose proof (getdents64_open st fs m fd buf count o Hfs Hfd Hd) as Hg.
  cbv zeta in Hg. fold prefix in Hg. fold names in Hg.
  destruct (emit_names _ _ _ _ _ _ _ _) as [[off emitted] m'] eqn:E.
  destruct Hg as (fs' & -> & Hn & Hfd'). apply emit_names_spec in E; [|by apply Forall_drop].
  destruct E as (k & Hk & -> & Hoff & Hk0 & Hread & _ & Hstop). rewrite length_drop in Hk.
  replace (buf + 0) with buf in Hread by lia. rewrite Z.sub_0_r in Hread.
  destruct (0 <? off) eqn:E0; bool_to_prop.
  - rewrite Hread by lia. rewrite (IH _ fs' _ (with_dir_pos o (o_dir_pos o + k))); auto; cbn [o_path o_dir_pos with_dir_pos];
      fold prefix; rewrite ?(child_names_nodes fs fs') by done; fold names; auto.
    + rewrite (entry_nodes fs fs') by done. rewrite <- map_app. f_equal.
      rewrite <- drop_drop. apply take_drop.
    + destruct k as [|k]; [specialize (Hk0 eq_refl); lia|lia].
  - assert (k = 0%nat) as -> by lia. destruct (drop (o_dir_pos o) names) as [|n rest] eqn:Edrop; [done|].
    specialize (Hstop n eq_refl). assert (Hin : n ∈ names).
    { rewrite <- (take_drop (o_dir_pos o) names), Edrop. apply elem_of_app. right. left. }
    rewrite Forall_forall in Hfit. specialize (Hfit _ Hin). lia.
Qed.

(** ** Properties *)

(** Reading a directory with repeated [getdents64] calls lists each of its
    immediate children exactly once, with its type, and stops, for any buffer
    that holds the longest single record. *)
Theorem getdents_complete st fs m fd buf count o :
  TMPFS st = Some fs -> find_fd fs fd = Some o -> o_is_dir o = true -> o_dir_pos o = 0%nat ->
  let prefix := dir_prefix (o_path o) in
  let names := child_names fs prefix in
  Forall c_name names -> Forall (fun n => dirent_reclen n <= count) names ->
  list_dir (S (length names)) st m fd buf count = map (entry fs prefix) names /\
  NoDup names /\
  (forall name, name ∈ names <->
     name <> [] /\ (SLASH ∉ name) /\ is_Some (nodes fs !! (prefix ++ name))).
Proof.
  intros Hfs Hfd Hd Hpos prefix names Hok Hfit. split; [|split].
  - pose proof (list_dir_from (S (length names)) st fs m fd buf count o Hfs Hfd Hd Hok Hfit) as H.
    rewrite Hpos in H. rewrite H by (fold prefix names; lia). done.
  - apply child_names_NoDup.
  - intros name. apply elem_of_child_names.
Qed.

Definition demo_dir_state : state :=
  let st := init boot_state in
  let st := (mkdir st (b "/tmp/sub") 0).2 in
  let st := (mkdir st (b "/tmp/sub/deep") 0).2 in
  let st := (open st (b "/tmp/file") 66 420).2 in
  (open st (b "/tmp") 65536 0).2.

Definition demo_dir_fs : Tmpfs :=
  match TMPFS demo_dir_state with Some fs => fs | None => mkTmpfs ∅ 0 [] end.

Definition demo_dir_fd : OpenFd := mkOpenFd 4001 (b "/tmp") 0 false false true 0.
Definition demo_names : list bytes := child_names demo_dir_fs (dir_prefix (o_path demo_dir_fd)).

Lemma demo_names_eq : demo_names = [b "file"; b "sub"].
Proof. vm_compute. reflexivity. Qed.

(** With a 40-byte buffer the two children of [/tmp] come in two calls. *)
Lemma getdents_complete_witness :
  list_dir (S (length demo_names)) demo_dir_state (fun _ => 255) 4001 1000 40 =
  [(b "file", 8); (b "sub", 4)].
Proof.
  transitivity (map (entry demo_dir_fs (dir_prefix (o_path demo_dir_fd))) demo_names);
    [|vm_compute; reflexivity].
  refine (proj1 (getdents_complete demo_dir_state demo_dir_fs (fun _ => 255) 4001 1000 40
                   demo_dir_fd _ _ _ _ _ _)).
  1-4: vm_compute; reflexivity.
  - fold demo_names. rewrite demo_names_eq.
    apply Forall_cons; split; [|apply Forall_singleton]; vm_compute; repeat constructor; congruence.
  - fold demo_names. rewrite demo_names_eq.
    apply Forall_cons; split; [|apply Forall_singleton]; vm_compute; congruence.
Defined.
