(* ===== verification/Vfs.v ===== *)
(** * The read-only file system: [src/src/vfs.rs]

    A cpio "newc" archive is scanned header by header on every lookup; open
    files are 256 slots of (offset, length, position), open directories eight
    slots.  The archive itself is an argument ([data]): the image is produced
    by the build and copied by [relocate].  The [while] loops run on fuel, one
    unit per header; [S (length data)] units are always enough
    ([cpio_lookup_total] and its companions in [VfsProofs]). *)

From S2P Require Import Prelude Dirent.

Definition MAX_OPEN : nat := 256.
Definition MAX_DIRS : nat := 8.
Definition DIR_FD_BASE : Z := 900.
Definition ENOENT : Z := -2.
Definition EBADF : Z := -9.
Definition EINVAL : Z := -22.
Definition EMFILE : Z := -24.

Record OpenFile := mkOpenFile { f_fd : Z; f_off : Z; f_len : Z; f_pos : Z }.

(** [d_prefix] is [prefix[..prefix_len]], the only part of the array read. *)
Record DirSlot := mkDirSlot { d_fd : Z; d_prefix : bytes; d_done : bool }.

Record state := mkState {
  CPIO_PTR : Z;
  CPIO_LEN : Z;
  NEXT_VFS_FD : Z;
  OPEN_FILES : list (option OpenFile);
  DIR_SLOTS : list DirSlot
}.

Definition with_files (st : state) (l : list (option OpenFile)) : state :=
  mkState (CPIO_PTR st) (CPIO_LEN st) (NEXT_VFS_FD st) l (DIR_SLOTS st).
Definition with_dirs (st : state) (l : list DirSlot) : state :=
  mkState (CPIO_PTR st) (CPIO_LEN st) (NEXT_VFS_FD st) (OPEN_FILES st) l.
Definition with_next (st : state) (n : Z) : state :=
  mkState (CPIO_PTR st) (CPIO_LEN st) n (OPEN_FILES st) (DIR_SLOTS st).
Definition with_cpio (st : state) (p n : Z) : state :=
  mkState p n (NEXT_VFS_FD st) (OPEN_FILES st) (DIR_SLOTS st).
Definition with_file_pos (f : OpenFile) (p : Z) : OpenFile :=
  mkOpenFile (f_fd f) (f_off f) (f_len f) p.

Definition boot_state : state :=
  mkState 0 0 1000 (replicate MAX_OPEN None) (replicate MAX_DIRS (mkDirSlot (-1) [] false)).

(** ** The archive *)

Definition cpio_data (embedded : bytes) (st : state) (m : mem) : bytes :=
  if CPIO_PTR st =? 0 then embedded
  else mem_read m (CPIO_PTR st) (Z.to_nat (CPIO_LEN st)).

Definition relocate (embedded : bytes) (st : state) (m : mem) (dest : Z) : state * mem :=
  (with_cpio st dest (zlen embedded), mem_write m dest embedded).

Definition relocate_from (st : state) (m : mem) (src len dest : Z) : state * mem :=
  (with_cpio st dest len, mem_write m dest (mem_read m src (Z.to_nat len))).

Definition hex_digit (c : Z) : Z :=
  if (48 <=? c) && (c <=? 57) then c - 48
  else if (97 <=? c) && (c <=? 102) then c - 97 + 10
  else if (65 <=? c) && (c <=? 70) then c - 65 + 10
  else 0.

Definition parse_hex (l : bytes) : Z :=
  fold_left (fun val c => Z.lor (u64 (Z.shiftl val 4)) (hex_digit c)) l 0.

Definition MAGIC : bytes := b "070701".
Definition TRAILER : bytes := b "TRAILER!!!".

(** [(x + 3) & !3]. *)
Definition align4 (x : Z) : Z := and_not (u64 (x + 3)) 3.

Definition normalized (path : bytes) : bytes :=
  if starts_with path (b "/") then drop 1 path
  else if starts_with path (b "./") then drop 2 path
  else path.

Fixpoint cpio_lookup_from (fuel : nat) (data path : bytes) (offset : Z) : outcome (option (Z * Z)) :=
  match fuel with
  | O => OutOfFuel
  | S fuel' =>
      if negb (u64 (offset + 110) <=? zlen data) then Ret None
      else
        do! magic <- slice data offset (offset + 6);
        if negb (bytes_eqb magic MAGIC) then Ret None
        else
          do! fsz <- slice data (offset + 54) (offset + 62);
          do! nsz <- slice data (offset + 94) (offset + 102);
          let filesize := parse_hex fsz in
          let namesize := parse_hex nsz in
          let name_start := u64 (offset + 110) in
          let name_end := u64 (name_start + namesize - 1) in
          let data_start := align4 (u64 (name_start + namesize)) in
          let data_end := u64 (data_start + filesize) in
          let next_entry := align4 data_end in
          if (zlen data <? name_end) || (zlen data <? data_end) then Ret None
          else
            do! entry_name <- slice data name_start name_end;
            if bytes_eqb entry_name TRAILER then Ret None
            else if bytes_eqb entry_name (normalized path) then Ret (Some (data_start, filesize))
            else cpio_lookup_from fuel' data path next_entry
  end.

Definition cpio_lookup (data path : bytes) : outcome (option (Z * Z)) :=
  cpio_lookup_from (S (length data)) data path 0.

Definition exists_ (data path : bytes) : outcome bool :=
  do! r <- cpio_lookup data path; Ret (bool_decide (is_Some r)).

(** ** Open files *)

Definition slot_free (s : option OpenFile) : bool :=
  match s with None => true | Some _ => false end.
Definition slot_fd (fd : Z) (s : option OpenFile) : bool :=
  match s with Some f => f_fd f =? fd | None => false end.

(** Claim a descriptor number, then the first free slot. *)
Definition claim (st : state) (off len pos : Z) : Z * state :=
  let fd := i32 (NEXT_VFS_FD st) in
  let st := with_next st (u64 (NEXT_VFS_FD st + 1)) in
  match position slot_free (OPEN_FILES st) with
  | Some i => (fd, with_files st (<[i := Some (mkOpenFile fd off len pos)]> (OPEN_FILES st)))
  | None => (EMFILE, st)
  end.

Definition open (st : state) (data path : bytes) : outcome (Z * state) :=
  do! r <- cpio_lookup data path;
  match r with
  | Some (off, len) => Ret (claim st off len 0)
  | None => Ret (ENOENT, st)
  end.

(** The open file of a descriptor, with its slot. *)
Definition find_file (st : state) (fd : Z) : option (nat * OpenFile) :=
  match position (slot_fd fd) (OPEN_FILES st) with
  | Some i => match OPEN_FILES st !! i with
              | Some (Some f) => Some (i, f)
              | _ => None
              end
  | None => None
  end.

Definition dup (st : state) (oldfd : Z) : Z * state :=
  match find_file st oldfd with
  | Some (_, f) => claim st (f_off f) (f_len f) (f_pos f)
  | None => (EBADF, st)
  end.

(** [&cpio_data()[start..]] panics when [start] is past the archive; the copy
    then takes [n] bytes from there. *)
Definition copy_out (data : bytes) (m : mem) (start n buf : Z) : outcome mem :=
  if zlen data <? start then Panic
  else Ret (mem_write m buf (take (Z.to_nat n) (drop (Z.to_nat start) data))).

Definition read (st : state) (data : bytes) (m : mem) (fd buf count : Z) : outcome (Z * state * mem) :=
  match find_file st fd with
  | Some (i, f) =>
      let remaining := u64 (f_len f - f_pos f) in
      if remaining =? 0 then Ret (0, st, m)
      else
        let to_read := Z.min count remaining in
        do! m <- copy_out data m (u64 (f_off f + f_pos f)) to_read buf;
        Ret (to_read,
             with_files st (<[i := Some (with_file_pos f (u64 (f_pos f + to_read)))]> (OPEN_FILES st)), m)
  | None => Ret (EBADF, st, m)
  end.

Definition pread (st : state) (data : bytes) (m : mem) (fd buf count offset : Z) : outcome (Z * mem) :=
  match find_file st fd with
  | Some (_, f) =>
      if f_len f <=? offset then Ret (0, m)
      else
        let remaining := u64 (f_len f - offset) in
        let to_read := Z.min count remaining in
        do! m <- copy_out data m (u64 (f_off f + offset)) to_read buf;
        Ret (to_read, m)
  | None => Ret (EBADF, m)
  end.

Definition fstat_size (st : state) (fd : Z) : option Z :=
  match find_file st fd with Some (_, f) => Some (f_len f) | None => None end.

(** [i64::saturating_add]. *)
Definition sat_add_i64 (a c : Z) : Z := Z.max (- 2 ^ 63) (Z.min I64_MAX (a + c)).

Definition lseek (st : state) (fd offset whence : Z) : Z * state :=
  match find_file st fd with
  | Some (i, f) =>
      let new_pos := if whence =? 0 then Some (Z.max offset 0)
                     else if whence =? 1 then Some (Z.max (sat_add_i64 (i64 (f_pos f)) offset) 0)
                     else if whence =? 2 then Some (Z.max (sat_add_i64 (i64 (f_len f)) offset) 0)
                     else None in
      match new_pos with
      | Some p =>
          let p := Z.min p (f_len f) in
          (p, with_files st (<[i := Some (with_file_pos f p)]> (OPEN_FILES st)))
      | None => (EINVAL, st)
      end
  | None => (EBADF, st)
  end.

Definition close (st : state) (fd : Z) : Z * state :=
  match find_file st fd with
  | Some (i, _) => (0, with_files st (<[i := None]> (OPEN_FILES st)))
  | None => (0, st)
  end.

Definition is_vfs_fd (st : state) (fd : Z) : bool := existsb (slot_fd fd) (OPEN_FILES st).

(** The entry count logged at boot. *)
Fixpoint init_from (fuel : nat) (data : bytes) (offset count : Z) : outcome Z :=
  match fuel with
  | O => OutOfFuel
  | S fuel' =>
      if negb (u64 (offset + 110) <=? zlen data) then Ret count
      else
        do! magic <- slice data offset (offset + 6);
        if negb (bytes_eqb magic MAGIC) then Ret count
        else
          do! fsz <- slice data (offset + 54) (offset + 62);
          do! nsz <- slice data (offset + 94) (offset + 102);
          let filesize := parse_hex fsz in
          let namesize := parse_hex nsz in
          let name_start := u64 (offset + 110) in
          let name_end := u64 (name_start + namesize - 1) in
          if zlen data <? name_end then Ret count
          else
            do! name <- slice data name_start name_end;
            if bytes_eqb name TRAILER then Ret count
            else
              let data_start := align4 (u64 (name_start + namesize)) in
              init_from fuel' data (align4 (u64 (data_start + filesize))) (count + 1)
  end.

Definition init (data : bytes) : outcome Z := init_from (S (length data)) data 0 0.

(** ** Directories *)

Definition ends_with_slash (p : bytes) : bool :=
  match last p with Some c => c =? SLASH | None => false end.

(** The scan for a name under [prefix]; note the strict [<] of its bound. *)
Fixpoint dir_scan (fuel : nat) (data prefix : bytes) (offset : Z) : outcome bool :=
  match fuel with
  | O => OutOfFuel
  | S fuel' =>
      if negb (u64 (offset + 110) <? zlen data) then Ret false
      else
        do! magic <- slice data offset (offset + 6);
        if negb (bytes_eqb magic MAGIC) then Ret false
        else
          do! nsz <- slice data (offset + 94) (offset + 102);
          let namesize := parse_hex nsz in
          let name_start := u64 (offset + 110) in
          let name_end := u64 (name_start + namesize - 1) in
          if zlen data <? name_end then Ret false
          else
            do! name <- slice data name_start name_end;
            if bytes_eqb name TRAILER then Ret false
            else if (length prefix <=? length name)%nat && bytes_eqb (take (length prefix) name) prefix
            then Ret true
            else
              do! fsz <- slice data (offset + 54) (offset + 62);
              let data_start := align4 (u64 (name_start + namesize)) in
              dir_scan fuel' data prefix (align4 (u64 (data_start + parse_hex fsz)))
  end.

Definition strip_slash (path : bytes) : bytes :=
  if starts_with path (b "/") then drop 1 path else path.

Definition is_dir_prefix (data path : bytes) : outcome bool :=
  let p := strip_slash path in
  if (127 <=? length p)%nat then Ret false
  else
    let prefix := if ends_with_slash p then p else p ++ [SLASH] in
    dir_scan (S (length data)) data prefix 0.

Definition dir_is (fd : Z) (s : DirSlot) : bool := d_fd s =? fd.

Definition open_dir (st : state) (path : bytes) : Z * state :=
  match position (dir_is (-1)) (DIR_SLOTS st) with
  | Some i =>
      let fd := DIR_FD_BASE + Z.of_nat i in
      (fd, with_dirs st (<[i := mkDirSlot fd (take 127 (strip_slash path)) false]> (DIR_SLOTS st)))
  | None => (EMFILE, st)
  end.

Definition close_dir (st : state) (fd : Z) : bool * state :=
  match position (dir_is fd) (DIR_SLOTS st) with
  | Some i => (true, with_dirs st (<[i := mkDirSlot (-1) [] false]> (DIR_SLOTS st)))
  | None => (false, st)
  end.

Definition is_dir_fd (st : state) (fd : Z) : bool := existsb (dir_is fd) (DIR_SLOTS st).

(** The [seen] table: up to 32 names, each zero-padded to 64 bytes. *)
Definition pad64 (child : bytes) : bytes := child ++ replicate (64 - length child) 0.

Definition seen_is (child row : bytes) : bool :=
  bytes_eqb (take (length child) row) child &&
  match row !! length child with Some c => c =? 0 | None => false end.

Fixpoint fill_from (fuel : nat) (data prefix : bytes) (buf count offset written : Z)
    (seen : list bytes) (m : mem) : outcome (Z * mem) :=
  match fuel with
  | O => OutOfFuel
  | S fuel' =>
      if negb (u64 (offset + 110) <? zlen data) then Ret (written, m)
      else
        do! magic <- slice data offset (offset + 6);
        if negb (bytes_eqb magic MAGIC) then Ret (written, m)
        else
          do! nsz <- slice data (offset + 94) (offset + 102);
          do! fsz <- slice data (offset + 54) (offset + 62);
          let namesize := parse_hex nsz in
          let filesize := parse_hex fsz in
          let name_start := u64 (offset + 110) in
          let name_end := u64 (name_start + namesize - 1) in
          if zlen data <? name_end then Ret (written, m)
          else
            do! name <- slice data name_start name_end;
            if bytes_eqb name TRAILER then Ret (written, m)
            else
              let data_start := align4 (u64 (name_start + namesize)) in
              let next := align4 (u64 (data_start + filesize)) in
              let under := (length prefix <? length name)%nat && bytes_eqb (take (length prefix) name) prefix in
              let rest := drop (length prefix) name in
              let child_end := match position (fun c => c =? SLASH) rest with
                               | Some i => i
                               | None => length rest
                               end in
              let child := take child_end rest in
              if under && ((0 <? length child)%nat && (length child <? 64)%nat) &&
                 (negb (existsb (seen_is child) seen) && (length seen <? 32)%nat) then
                let seen := seen ++ [pad64 child] in
                let reclen := dirent_reclen child in
                if count <? written + reclen then Ret (written, m)
                else
                  let d_type := if (child_end <? length rest)%nat then 4 else 8 in
                  let m := dirent_store m (buf + written) (zlen seen) (written + reclen)
                                        reclen d_type child in
                  fill_from fuel' data prefix buf count next (written + reclen) seen m
              else fill_from fuel' data prefix buf count next written seen m
  end.

Definition fill_dir_entries (data : bytes) (m : mem) (buf count : Z) (prefix : bytes) : outcome (Z * mem) :=
  fill_from (S (length data)) data prefix buf count 0 0 [] m.

Definition getdents64 (st : state) (data : bytes) (m : mem) (fd buf count : Z) : outcome (Z * state * mem) :=
  match position (dir_is fd) (DIR_SLOTS st) with
  | Some i =>
      match DIR_SLOTS st !! i with
      | Some slot =>
          if d_done slot then Ret (0, st, m)
          else
            let st := with_dirs st (<[i := mkDirSlot (d_fd slot) (d_prefix slot) true]> (DIR_SLOTS st)) in
            let p := d_prefix slot in
            let prefix := if (0 <? length p)%nat && negb (ends_with_slash p) then p ++ [SLASH] else p in
            do! (r, m) <- fill_dir_entries data m buf count prefix;
            Ret (r, st, m)
      | None => Ret (0, st, m)
      end
  | None => Ret (0, st, m)
  end.
