(* ===== verification/VfsProofs.v ===== *)
(** * Correctness of the read-only file system

    The archive format as an encoder, the lookup as its decoder; the scans
    terminate on every image; reads stay inside the archive and return the
    bytes of the file. *)

From S2P Require Import Prelude Dirent Vfs.

(** ** The newc format *)

(** One archive member: the header fields the kernel does not read are free. *)
Record member := mkMember {
  e_meta1 : bytes;  (* ino .. mtime, 48 hex digits *)
  e_meta2 : bytes;  (* devmajor .. rdevminor, 32 hex digits *)
  e_check : bytes;  (* check, 8 hex digits *)
  e_name : bytes;
  e_body : bytes
}.

Definition hex_char (d : Z) : Z := if d <? 10 then 48 + d else 55 + d.

Fixpoint hex_print (k : nat) (n : Z) : bytes :=
  match k with
  | O => []
  | S k' => hex_print k' (n / 16) ++ [hex_char (n mod 16)]
  end.

Definition pad4 (n : Z) : bytes := replicate (Z.to_nat ((- n) mod 4)) 0.

Definition encode_head (e : member) : bytes :=
  MAGIC ++ e_meta1 e ++ hex_print 8 (zlen (e_body e)) ++ e_meta2 e ++
  hex_print 8 (zlen (e_name e) + 1) ++ e_check e ++ e_name e ++ [0] ++
  pad4 (110 + zlen (e_name e) + 1).

Definition encode_member (e : member) : bytes :=
  encode_head e ++ e_body e ++ pad4 (zlen (e_body e)).

Definition trailer : member :=
  mkMember (replicate 48 48) (replicate 32 48) (replicate 8 48) TRAILER [].

Definition archive (es : list member) (tail : bytes) : bytes :=
  concat (map encode_member es) ++ encode_member trailer ++ tail.

Record member_ok (e : member) : Prop := mkMemberOk {
  ok_meta1 : zlen (e_meta1 e) = 48;
  ok_meta2 : zlen (e_meta2 e) = 32;
  ok_check : zlen (e_check e) = 8;
  ok_name : zlen (e_name e) < 2 ^ 30;
  ok_body : zlen (e_body e) < 2 ^ 32;
  ok_not_trailer : e_name e <> TRAILER
}.

(** The reference lookup: the first member of that name. *)
Definition find_member (es : list member) (path : bytes) : option member :=
  List.find (fun e => bytes_eqb (e_name e) (normalized path)) es.

(** ** Hexadecimal fields *)

Lemma hex_digit_range c : 0 <= hex_digit c < 16.
Proof. unfold hex_digit. repeat case_match; bool_to_prop; lia. Qed.

Lemma hex_digit_char d : 0 <= d < 16 -> hex_digit (hex_char d) = d.
Proof.
  intros Hd. unfold hex_char. destruct (d <? 10) eqn:E; bool_to_prop; unfold hex_digit.
  - replace (_ && _) with true by (symmetry; apply andb_true_iff; rewrite !Z.leb_le; lia). lia.
  - replace ((48 <=? 55 + d) && _) with false
      by (symmetry; apply andb_false_iff; rewrite !Z.leb_gt; lia).
    replace ((97 <=? 55 + d) && _) with false
      by (symmetry; apply andb_false_iff; rewrite !Z.leb_gt; lia).
    replace ((65 <=? 55 + d) && _) with true
      by (symmetry; apply andb_true_iff; rewrite !Z.leb_le; lia). lia.
Qed.

Lemma lor_shift4 v d : 0 <= v < 2 ^ 60 -> 0 <= d < 16 -> Z.lor (u64 (Z.shiftl v 4)) d = 16 * v + d.
Proof.
  intros Hv Hd. rewrite Z.shiftl_mul_pow2 by lia. rewrite u64_small by lia.
  pose proof (Z.add_lor_land (v * 2 ^ 4) d) as Hadd.
  cut (Z.land (v * 2 ^ 4) d = 0); [lia|]. clear Hadd.
  apply Z.bits_inj'; intros n Hn. rewrite Z.land_spec, Z.bits_0.
  destruct (Z.lt_ge_cases n 4).
  - rewrite Z.mul_pow2_bits_low by lia. done.
  - destruct (Z.eq_dec d 0) as [->|]; [rewrite Z.bits_0; by rewrite andb_false_r|].
    rewrite (Z.bits_above_log2 d); [by rewrite andb_false_r|lia|].
    apply Z.lt_le_trans with 4; [apply Z.log2_lt_pow2; lia|lia].
Qed.

Lemma parse_hex_snoc l c :
  parse_hex (l ++ [c]) = Z.lor (u64 (Z.shiftl (parse_hex l) 4)) (hex_digit c).
Proof. unfold parse_hex. by rewrite fold_left_app. Qed.

Lemma parse_hex_bound l : (length l <= 15)%nat -> 0 <= parse_hex l < 16 ^ zlen l.
Proof.
  induction l as [|c l IH] using rev_ind; intros Hl; [vm_compute; split; congruence|].
  rewrite length_app in Hl. simpl in Hl. specialize (IH ltac:(lia)).
  pose proof (hex_digit_range c).
  assert (16 ^ zlen l <= 16 ^ 14) by (apply Z.pow_le_mono_r; unfold zlen; lia).
  rewrite parse_hex_snoc, lor_shift4 by (change (2 ^ 60) with (16 * 16 ^ 14); lia).
  pose proof (zlen_nonneg l). autorewrite with kernel. rewrite Z.pow_add_r by lia.
  change (16 ^ (1 + 0)) with 16. lia.
Qed.

Lemma parse_hex_print k n :
  (k <= 15)%nat -> 0 <= n < 16 ^ Z.of_nat k -> parse_hex (hex_print k n) = n.
Proof.
  revert n; induction k as [|k IH]; intros n Hk Hn; [simpl in *; unfold parse_hex; simpl; lia|].
  cbn [hex_print]. rewrite Nat2Z.inj_succ, Z.pow_succ_r in Hn by lia.
  assert (0 <= n / 16 < 16 ^ Z.of_nat k).
  { split; [apply Z.div_pos; lia|apply Z.div_lt_upper_bound; lia]. }
  assert (16 ^ Z.of_nat k <= 16 ^ 14) by (apply Z.pow_le_mono_r; lia).
  pose proof (Z.mod_pos_bound n 16).
  rewrite parse_hex_snoc, IH, hex_digit_char, lor_shift4
    by (lia || (change (2 ^ 60) with (16 * 16 ^ 14); lia)).
  pose proof (Z.div_mod n 16). lia.
Qed.

Lemma hex_print_length k n : length (hex_print k n) = k.
Proof.
  revert n; induction k as [|k IH]; intros n; [done|]. cbn [hex_print].
  rewrite length_app, IH. simpl. lia.
Qed.

(** ** Slices and alignment *)

Lemma slice_mid l1 l2 l3 from to :
  from = zlen l1 -> to = zlen l1 + zlen l2 -> slice (l1 ++ l2 ++ l3) from to = Ret l2.
Proof.
  intros -> ->. unfold slice.
  replace (_ && _) with true; [|symmetry; apply andb_true_iff; rewrite !Z.leb_le, !zlen_app;
    pose proof (zlen_nonneg l2); pose proof (zlen_nonneg l3); lia].
  replace (Z.to_nat (zlen l1 + zlen l2 - zlen l1)) with (length l2) by (unfold zlen; lia).
  replace (Z.to_nat (zlen l1)) with (length l1) by (unfold zlen; lia).
  by rewrite drop_app_length, take_app_length.
Qed.

Lemma slice_ok l from to :
  0 <= from <= to -> to <= zlen l ->
  exists r, slice l from to = Ret r /\ zlen r = to - from.
Proof.
  intros Hf Ht. unfold slice.
  replace (_ && _) with true by (symmetry; apply andb_true_iff; rewrite !Z.leb_le; lia).
  eexists; split; [done|]. unfold zlen in *. rewrite length_take, length_drop. lia.
Qed.

Lemma align4_eq x : 0 <= x < 2 ^ 64 - 3 -> align4 x = x + (- x) mod 4.
Proof.
  intros Hx. unfold align4. rewrite u64_small by lia.
  change 3 with (Z.ones 2) at 2. rewrite and_not_ones by lia. change (2 ^ 2) with 4.
  Z.div_mod_to_equations. lia.
Qed.

Lemma align4_bounds x : 0 <= x < 2 ^ 64 - 3 -> x <= align4 x < x + 4 /\ align4 x mod 4 = 0.
Proof.
  intros Hx. rewrite align4_eq by lia. Z.div_mod_to_equations. lia.
Qed.

Lemma pad4_length n : zlen (pad4 n) = (- n) mod 4.
Proof.
  unfold pad4, zlen. rewrite length_replicate. pose proof (Z.mod_pos_bound (- n) 4). lia.
Qed.

(** ** Every scan terminates, and a hit lies inside the archive *)

Lemma field_bound data from r :
  slice data from (from + 8) = Ret r -> 0 <= from -> 0 <= parse_hex r < 2 ^ 32.
Proof.
  unfold slice. destruct (_ && _) eqn:E; [|done]. bool_to_prop. intros [= <-] Hf.
  change (2 ^ 32) with (16 ^ 8).
  assert (Hl : length (take (Z.to_nat (from + 8 - from)) (drop (Z.to_nat from) data)) = 8%nat).
  { rewrite length_take, length_drop. unfold zlen in *. lia. }
  pose proof (parse_hex_bound _ ltac:(rewrite Hl; lia)) as Hb.
  unfold zlen in Hb. by rewrite Hl in Hb.
Qed.

(** The two header fields, and the offset of the next header. *)
Lemma next_header offset namesize filesize len :
  0 <= offset -> offset + 110 <= len -> len < 2 ^ 63 ->
  0 <= namesize < 2 ^ 32 -> 0 <= filesize < 2 ^ 32 ->
  let data_start := align4 (u64 (u64 (offset + 110) + namesize)) in
  let next := align4 (u64 (data_start + filesize)) in
  offset + 110 <= data_start < 2 ^ 64 - 2 ^ 34 /\ offset + 110 <= next < 2 ^ 64 - 110.
Proof.
  intros Ho Hl Hlen Hn Hf data_start next.
  assert (Hd : offset + 110 + namesize <= data_start < offset + 110 + namesize + 4).
  { subst data_start. rewrite !u64_small by (rewrite ?u64_small; lia). apply align4_bounds. lia. }
  assert (Hx : data_start + filesize <= next < data_start + filesize + 4).
  { subst next. rewrite !u64_small by lia. apply align4_bounds. lia. }
  lia.
Qed.

Lemma slice_not_fuel l f t : slice l f t <> OutOfFuel.
Proof. unfold slice. by destruct (_ && _). Qed.

Lemma cpio_lookup_from_total fuel data path offset :
  zlen data < 2 ^ 63 -> 0 <= offset < 2 ^ 64 - 110 ->
  Z.max 0 (zlen data - offset) < Z.of_nat fuel ->
  cpio_lookup_from fuel data path offset <> OutOfFuel /\
  forall off len, cpio_lookup_from fuel data path offset = Ret (Some (off, len)) ->
    0 <= off /\ 0 <= len /\ off + len <= zlen data.
Proof.
  revert offset; induction fuel as [|fuel IH]; intros offset Hlen Hoff Hfuel; [lia|].
  cbn [cpio_lookup_from]. rewrite (u64_small (offset + 110)) by lia.
  destruct (offset + 110 <=? zlen data) eqn:E; cbn [negb]; [|done]. bool_to_prop.
  destruct (slice data offset _) as [magic| |] eqn:E1; cbn [obind]; [|done|by apply slice_not_fuel in E1].
  destruct (negb _); [done|].
  destruct (slice data (offset + 54) _) as [fsz| |] eqn:E2; cbn [obind]; [|done|by apply slice_not_fuel in E2].
  destruct (slice data (offset + 94) _) as [nsz| |] eqn:E3; cbn [obind]; [|done|by apply slice_not_fuel in E3].
  replace (offset + 62) with (offset + 54 + 8) in E2 by lia.
  replace (offset + 102) with (offset + 94 + 8) in E3 by lia.
  apply field_bound in E2; [|lia]. apply field_bound in E3; [|lia].
  pose proof (next_header offset (parse_hex nsz) (parse_hex fsz) (zlen data)
                ltac:(lia) ltac:(lia) Hlen E3 E2) as [Hds Hnx].
  rewrite (u64_small (offset + 110)) in * by lia. cbv zeta in *.
  destruct (_ || _) eqn:E4; [done|]. bool_to_prop.
  destruct (slice data (offset + 110) _) as [nm| |] eqn:E5; cbn [obind]; [|done|by apply slice_not_fuel in E5].
  destruct (bytes_eqb nm TRAILER); [done|].
  destruct (bytes_eqb nm _).
  - split; [done|]. intros off len [= <- <-]. rewrite (u64_small (_ + parse_hex fsz)) in * by lia. lia.
  - apply IH; lia.
Qed.

(** ** The lookup decodes the format *)

Lemma slice_at data l1 l2 l3 from to :
  data = l1 ++ l2 ++ l3 -> from = zlen l1 -> to = zlen l1 + zlen l2 -> slice data from to = Ret l2.
Proof. intros ->. apply slice_mid. Qed.

Record sizes_ok (e : member) : Prop := mkSizesOk {
  sz_meta1 : zlen (e_meta1 e) = 48;
  sz_meta2 : zlen (e_meta2 e) = 32;
  sz_check : zlen (e_check e) = 8;
  sz_name : zlen (e_name e) < 2 ^ 30;
  sz_body : zlen (e_body e) < 2 ^ 32
}.

Lemma member_sizes e : member_ok e -> sizes_ok e.
Proof. intros []. by constructor. Qed.

Lemma trailer_sizes : sizes_ok trailer.
Proof. by constructor. Qed.

Lemma zlen_magic : zlen MAGIC = 6.
Proof. done. Qed.

Lemma zlen_hex k n : zlen (hex_print k n) = Z.of_nat k.
Proof. unfold zlen. by rewrite hex_print_length. Qed.

#[export] Hint Rewrite zlen_magic zlen_hex pad4_length : kernel.

Lemma encode_head_length e :
  sizes_ok e ->
  zlen (encode_head e) = 110 + zlen (e_name e) + 1 + (- (110 + zlen (e_name e) + 1)) mod 4.
Proof. intros []. unfold encode_head. autorewrite with kernel. lia. Qed.

Lemma encode_member_length e :
  sizes_ok e -> zlen (encode_member e) =
    zlen (encode_head e) + zlen (e_body e) + (- zlen (e_body e)) mod 4 /\
  zlen (encode_member e) mod 4 = 0 /\ 110 < zlen (encode_head e).
Proof.
  intros Hs. unfold encode_member. autorewrite with kernel.
  rewrite encode_head_length by done.
  pose proof (zlen_nonneg (e_name e)). pose proof (zlen_nonneg (e_body e)).
  Z.div_mod_to_equations. lia.
Qed.

(** What the code reads from the header of a member at an aligned offset. *)
Section at_member.
Context (pre post : bytes) (e : member).
Hypothesis Hs : sizes_ok e.
Hypothesis Hpre : zlen pre mod 4 = 0.
Let data := pre ++ encode_member e ++ post.
Hypothesis Hdata : zlen data < 2 ^ 63.
Let p := zlen pre.

Lemma member_fits :
  0 <= p /\ p + zlen (encode_member e) <= zlen data /\ 0 <= zlen (e_name e) /\ 0 <= zlen (e_body e).
Proof.
  subst data p. rewrite !zlen_app.
  pose proof (zlen_nonneg pre). pose proof (zlen_nonneg post).
  pose proof (zlen_nonneg (e_name e)). pose proof (zlen_nonneg (e_body e)). lia.
Qed.

Lemma member_slices :
  slice data p (p + 6) = Ret MAGIC /\
  slice data (p + 54) (p + 62) = Ret (hex_print 8 (zlen (e_body e))) /\
  slice data (p + 94) (p + 102) = Ret (hex_print 8 (zlen (e_name e) + 1)) /\
  slice data (p + 110) (p + 110 + zlen (e_name e)) = Ret (e_name e) /\
  slice data (p + zlen (encode_head e)) (p + zlen (encode_head e) + zlen (e_body e)) = Ret (e_body e).
Proof.
  pose proof Hs as [H1 H2 H3 _ _]. subst p.
  split; [|split; [|split; [|split]]].
  - eapply (slice_at _ pre MAGIC); [unfold data, encode_member, encode_head; by rewrite <- !app_assoc| |];
      autorewrite with kernel; lia.
  - eapply (slice_at _ (pre ++ MAGIC ++ e_meta1 e) (hex_print 8 (zlen (e_body e))));
      [unfold data, encode_member, encode_head; by rewrite <- !app_assoc| |];
      autorewrite with kernel; lia.
  - eapply (slice_at _ (pre ++ MAGIC ++ e_meta1 e ++ hex_print 8 (zlen (e_body e)) ++ e_meta2 e)
              (hex_print 8 (zlen (e_name e) + 1)));
      [unfold data, encode_member, encode_head; by rewrite <- !app_assoc| |];
      autorewrite with kernel; lia.
  - eapply (slice_at _ (pre ++ MAGIC ++ e_meta1 e ++ hex_print 8 (zlen (e_body e)) ++ e_meta2 e ++
              hex_print 8 (zlen (e_name e) + 1) ++ e_check e) (e_name e));
      [unfold data, encode_member, encode_head; by rewrite <- !app_assoc| |];
      autorewrite with kernel; lia.
  - eapply (slice_at _ (pre ++ encode_head e) (e_body e));
      [unfold data, encode_member; by rewrite <- !app_assoc| |];
      autorewrite with kernel; lia.
Qed.

(** The offsets the code computes from the two fields. *)
Lemma member_offsets :
  let namesize := zlen (e_name e) + 1 in
  u64 (p + 110) = p + 110 /\ u64 (p + 110 + namesize - 1) = p + 110 + zlen (e_name e) /\
  align4 (u64 (p + 110 + namesize)) = p + zlen (encode_head e) /\
  u64 (p + zlen (encode_head e) + zlen (e_body e)) = p + zlen (encode_head e) + zlen (e_body e) /\
  align4 (p + zlen (encode_head e) + zlen (e_body e)) = p + zlen (encode_member e) /\
  p + 110 + zlen (e_name e) <= zlen data /\ p + 110 < zlen data /\
  p + zlen (encode_head e) + zlen (e_body e) <= zlen data.
Proof.
  intros namesize. pose proof member_fits as (Hp & Hfit & Hn & Hb).
  destruct (encode_member_length e Hs) as (Hl & _ & H110).
  pose proof (encode_head_length e Hs) as Hh.
  pose proof (Z.mod_pos_bound (- (110 + zlen (e_name e) + 1)) 4).
  pose proof (Z.mod_pos_bound (- zlen (e_body e)) 4).
  subst namesize. rewrite !u64_small by lia. rewrite !align4_eq by lia.
  fold p in Hpre. repeat split; try lia; Z.div_mod_to_equations; lia.
Qed.

Lemma lookup_step fuel path :
  cpio_lookup_from (S fuel) data path p =
    if bytes_eqb (e_name e) TRAILER then Ret None
    else if bytes_eqb (e_name e) (normalized path)
    then Ret (Some (p + zlen (encode_head e), zlen (e_body e)))
    else cpio_lookup_from fuel data path (p + zlen (encode_member e)).
Proof.
  destruct member_slices as (S1 & S2 & S3 & S4 & _).
  destruct member_offsets as (O1 & O2 & O3 & O4 & O5 & L1 & L2 & L3).
  pose proof (zlen_nonneg (e_name e)). pose proof (zlen_nonneg (e_body e)). destruct Hs.
  cbn [cpio_lookup_from]. rewrite O1.
  replace (p + 110 <=? zlen data) with true by (symmetry; apply Z.leb_le; lia). cbn [negb].
  rewrite S1. cbn [obind]. rewrite bytes_eqb_refl. cbn [negb]. rewrite S2, S3. cbn [obind].
  rewrite !parse_hex_print by (try lia; change (16 ^ Z.of_nat 8) with (2 ^ 32); lia).
  rewrite O2, O3, O4, O5.
  replace (_ || _) with false by (symmetry; apply orb_false_iff; rewrite !Z.ltb_ge; lia).
  rewrite S4. cbn [obind]. done.
Qed.

Lemma init_step fuel count :
  init_from (S fuel) data p count =
    if bytes_eqb (e_name e) TRAILER then Ret count else init_from fuel data (p + zlen (encode_member e)) (count + 1).
Proof.
  destruct member_slices as (S1 & S2 & S3 & S4 & _).
  destruct member_offsets as (O1 & O2 & O3 & O4 & O5 & L1 & L2 & L3).
  pose proof (zlen_nonneg (e_name e)). pose proof (zlen_nonneg (e_body e)). destruct Hs.
  cbn [init_from]. rewrite O1.
  replace (p + 110 <=? zlen data) with true by (symmetry; apply Z.leb_le; lia). cbn [negb].
  rewrite S1. cbn [obind]. rewrite bytes_eqb_refl. cbn [negb]. rewrite S2, S3. cbn [obind].
  rewrite !parse_hex_print by (try lia; change (16 ^ Z.of_nat 8) with (2 ^ 32); lia).
  rewrite O2. replace (_ <? _) with false by (symmetry; apply Z.ltb_ge; lia).
  rewrite S4. cbn [obind]. rewrite O3, O4, O5. done.
Qed.
End at_member.

Lemma archive_cons e es tail : archive (e :: es) tail = encode_member e ++ archive es tail.
Proof. unfold archive. cbn [map concat]. by rewrite <- !app_assoc. Qed.

Lemma archive_nil tail : archive [] tail = encode_member trailer ++ tail.
Proof. done. Qed.

Lemma aligned_app pre e :
  sizes_ok e -> zlen pre mod 4 = 0 -> zlen (pre ++ encode_member e) mod 4 = 0.
Proof.
  intros Hs Hp. destruct (encode_member_length e Hs) as (_ & Hm & _). rewrite zlen_app.
  Z.div_mod_to_equations. lia.
Qed.

Lemma archive_length es tail : Forall member_ok es -> Z.of_nat (length es) <= zlen (archive es tail).
Proof.
  induction 1 as [|e es He _ IH]; [unfold zlen; simpl; lia|].
  rewrite archive_cons, zlen_app. destruct (encode_member_length e (member_sizes e He)) as (Hl & _ & H).
  pose proof (zlen_nonneg (e_body e)). pose proof (Z.mod_pos_bound (- zlen (e_body e)) 4).
  simpl length. lia.
Qed.

Lemma lookup_members es : forall pre tail path fuel,
  Forall member_ok es -> zlen pre mod 4 = 0 -> zlen (pre ++ archive es tail) < 2 ^ 63 ->
  (length es < fuel)%nat ->
  let data := pre ++ archive es tail in
  match find_member es path with
  | Some e => exists off, cpio_lookup_from fuel data path (zlen pre) = Ret (Some (off, zlen (e_body e))) /\
                          slice data off (off + zlen (e_body e)) = Ret (e_body e)
  | None => cpio_lookup_from fuel data path (zlen pre) = Ret None
  end.
Proof.
  induction es as [|e es IH]; intros pre tail path fuel Hok Hpre Hlen Hfuel data; subst data.
  - destruct fuel as [|fuel]; [lia|]. rewrite archive_nil in *. cbn [find_member List.find].
    rewrite lookup_step by (done || apply trailer_sizes). done.
  - inversion Hok as [|? ? He Hok']; subst. pose proof (member_sizes e He) as Hs.
    destruct fuel as [|fuel]; [lia|]. rewrite archive_cons in *. unfold find_member. cbn [List.find].
    rewrite lookup_step by done.
    replace (bytes_eqb (e_name e) TRAILER) with false
      by (symmetry; apply bytes_eqb_neq; apply ok_not_trailer; done).
    destruct (bytes_eqb (e_name e) (normalized path)) eqn:E.
    + eexists. split; [done|]. by destruct (member_slices pre (archive es tail) e Hs) as (_ & _ & _ & _ & S5).
    + rewrite <- zlen_app. rewrite app_assoc. rewrite app_assoc in Hlen. apply IH; auto; [by apply aligned_app|].
      simpl in Hfuel. lia.
Qed.

(** [init] counts the members. *)
Lemma init_members es : forall pre tail fuel count,
  Forall member_ok es -> zlen pre mod 4 = 0 -> zlen (pre ++ archive es tail) < 2 ^ 63 -> (length es < fuel)%nat ->
  init_from fuel (pre ++ archive es tail) (zlen pre) count = Ret (count + zlen es).
Proof.
  induction es as [|e es IH]; intros pre tail fuel count Hok Hpre Hlen Hfuel; (destruct fuel as [|fuel]; [lia|]).
  - rewrite archive_nil in *. rewrite init_step by (done || apply trailer_sizes). cbn [e_name trailer]. rewrite bytes_eqb_refl, zlen_nil. f_equal. lia.
  - inversion Hok as [|? ? He Hok']; subst. pose proof (member_sizes e He) as Hs. rewrite archive_cons in *. rewrite init_step by done.
    rewrite (proj2 (bytes_eqb_neq _ _)) by (by apply ok_not_trailer).
    rewrite <- zlen_app. rewrite app_assoc. rewrite app_assoc in Hlen. cbn [length] in Hfuel. rewrite IH; [|done|by apply aligned_app|done|lia].
    rewrite zlen_cons. f_equal. lia.
Qed.

(** What boot asks of a well-formed archive. *)
Lemma archive_scans es tail path :
  Forall member_ok es -> zlen (archive es tail) < 2 ^ 63 ->
  init (archive es tail) = Ret (zlen es) /\ exists_ (archive es tail) path = Ret (bool_decide (is_Some (find_member es path))).
Proof.
  intros Hok Hlen. pose proof (archive_length es tail Hok) as Hal. unfold zlen in Hal. split.
  - exact (init_members es [] tail (S (length (archive es tail))) 0 Hok eq_refl Hlen ltac:(lia)).
  - pose proof (lookup_members es [] tail path (S (length (archive es tail))) Hok eq_refl Hlen ltac:(lia)) as Hl.
    unfold exists_, cpio_lookup. cbn [app] in Hl. change (zlen []) with 0 in Hl.
    destruct (find_member es path); [destruct Hl as (off & -> & _)|rewrite Hl]; done.
Qed.

(** ** Open files *)

Definition file_ok (data : bytes) (f : OpenFile) : Prop :=
  0 <= f_off f /\ f_off f + f_len f <= zlen data /\ 0 <= f_pos f <= f_len f.

Definition files_ok (data : bytes) (st : state) : Prop :=
  zlen data < 2 ^ 63 /\ Forall (fun s => match s with Some f => file_ok data f | None => True end) (OPEN_FILES st).

(** The contents of an open file. *)
Definition file_bytes (data : bytes) (f : OpenFile) : bytes :=
  take (Z.to_nat (f_len f)) (drop (Z.to_nat (f_off f)) data).

Lemma find_file_lookup st fd i f :
  find_file st fd = Some (i, f) ->
  OPEN_FILES st !! i = Some (Some f) /\ f_fd f = fd /\ position (slot_fd fd) (OPEN_FILES st) = Some i.
Proof.
  unfold find_file. destruct (position _ _) as [j|] eqn:Hp; [|done].
  pose proof Hp as (s & Hs & Hfd & _)%position_Some. rewrite Hs.
  destruct s as [f'|]; [|done]. intros [= <- <-]. simpl in Hfd. bool_to_prop. auto.
Qed.

Lemma find_file_ok data st fd i f :
  files_ok data st -> find_file st fd = Some (i, f) -> file_ok data f.
Proof.
  intros [_ Hf] [Hi _]%find_file_lookup. exact (Forall_lookup_1 _ _ _ _ Hf Hi).
Qed.

(** [position] finds an updated slot again. *)
Lemma find_file_insert st fd i f f' :
  find_file st fd = Some (i, f) -> f_fd f' = fd ->
  find_file (with_files st (<[i := Some f']> (OPEN_FILES st))) fd = Some (i, f').
Proof.
  intros (Hi & Hfd & Hp)%find_file_lookup Hfd'. unfold find_file. cbn [OPEN_FILES with_files].
  assert (position (slot_fd fd) (<[i := Some f']> (OPEN_FILES st)) = Some i) as ->.
  { clear Hfd. revert i Hi Hp. induction (OPEN_FILES st) as [|s l IH]; intros i Hi Hp; [done|]. simpl in Hp.
    destruct (slot_fd fd s) eqn:E; [injection Hp as <-|].
    - simpl. rewrite Hfd', Z.eqb_refl. done.
    - destruct (position (slot_fd fd) l) as [j|] eqn:Hj; [|done]. injection Hp as <-.
      simpl. rewrite E. by rewrite (IH j Hi eq_refl). }
  rewrite list_lookup_insert_eq; [done|]. by eapply lookup_lt_Some.
Qed.

Lemma copy_out_file data m f at_ n buf :
  file_ok data f -> 0 <= at_ -> 0 <= n -> at_ + n <= f_len f -> zlen data < 2 ^ 63 ->
  copy_out data m (u64 (f_off f + at_)) n buf =
    Ret (mem_write m buf (take (Z.to_nat n) (drop (Z.to_nat at_) (file_bytes data f)))).
Proof.
  intros (Ho & Hl & Hp) Ha Hn Han Hd. unfold copy_out. rewrite u64_small by lia.
  replace (_ <? _) with false by (symmetry; apply Z.ltb_ge; lia). do 2 f_equal.
  unfold file_bytes. rewrite skipn_firstn_comm, take_take, drop_drop. f_equal; [lia|]. f_equal. lia.
Qed.

(** [read] returns the next bytes of the file and advances by as many. *)
Lemma read_open data st m fd buf count i f :
  files_ok data st -> find_file st fd = Some (i, f) -> 0 <= count -> f_pos f < f_len f ->
  let n := Z.min count (f_len f - f_pos f) in
  read st data m fd buf count =
    Ret (n, with_files st (<[i := Some (with_file_pos f (f_pos f + n))]> (OPEN_FILES st)),
         mem_write m buf (take (Z.to_nat n) (drop (Z.to_nat (f_pos f)) (file_bytes data f)))).
Proof.
  intros Hok Hf Hc Hlt n. pose proof (find_file_ok _ _ _ _ _ Hok Hf) as (Ho & Hl & Hp).
  destruct Hok as [Hd _]. unfold read. rewrite Hf. rewrite (u64_small (f_len f - f_pos f)) by lia.
  replace (_ =? 0) with false by (symmetry; apply Z.eqb_neq; lia). fold n.
  rewrite copy_out_file by (done || lia). cbn [obind]. by rewrite u64_small by lia.
Qed.

Lemma read_eof data st m fd buf count i f :
  files_ok data st -> find_file st fd = Some (i, f) -> f_pos f = f_len f ->
  read st data m fd buf count = Ret (0, st, m).
Proof.
  intros Hok Hf Heq. unfold read. rewrite Hf, Heq, Z.sub_diag. done.
Qed.

Lemma files_ok_insert data st i s :
  files_ok data st -> match s with Some f => file_ok data f | None => True end ->
  files_ok data (with_files st (<[i := s]> (OPEN_FILES st))).
Proof. intros [Hd Hf] Hs. split; [done|]. by apply Forall_insert. Qed.

(** A reader's loop: [read] in chunks of [count] until end of file. *)
Fixpoint read_loop (fuel : nat) (st : state) (data : bytes) (m : mem) (fd buf count : Z) : outcome bytes :=
  match fuel with
  | O => OutOfFuel
  | S fuel' =>
      do! (r, st', m') <- read st data m fd buf count;
      if 0 <? r then
        do! rest <- read_loop fuel' st' data m' fd buf count;
        Ret (mem_read m' buf (Z.to_nat r) ++ rest)
      else Ret []
  end.

Lemma file_bytes_length data f : file_ok data f -> zlen (file_bytes data f) = f_len f.
Proof.
  intros (Ho & Hl & Hp). unfold file_bytes, zlen in *. rewrite length_take, length_drop. lia.
Qed.

Lemma read_loop_rest fuel : forall st data m fd buf count i f,
  files_ok data st -> find_file st fd = Some (i, f) -> 0 < count ->
  f_len f - f_pos f < Z.of_nat fuel ->
  read_loop fuel st data m fd buf count = Ret (drop (Z.to_nat (f_pos f)) (file_bytes data f)).
Proof.
  induction fuel as [|fuel IH]; intros st data m fd buf count i f Hok Hf Hc Hfuel;
    pose proof (find_file_ok _ _ _ _ _ Hok Hf) as Hfo; pose proof Hfo as (Ho & Hl & Hp); [lia|].
  pose proof (file_bytes_length data f Hfo) as Hbl. cbn [read_loop].
  destruct (Z.eq_dec (f_pos f) (f_len f)) as [Heq|Hne].
  - rewrite (read_eof data st m fd buf count i f) by done. cbn [obind]. cbn.
    rewrite drop_ge; [done|]. unfold zlen in Hbl. lia.
  - rewrite (read_open data st m fd buf count i f) by (done || lia). cbn [obind].
    set (n := Z.min count (f_len f - f_pos f)).
    replace (0 <? n) with true by (symmetry; apply Z.ltb_lt; lia).
    set (chunk := take (Z.to_nat n) _).
    assert (Hcl : length chunk = Z.to_nat n).
    { unfold chunk. rewrite length_take, length_drop. unfold zlen in Hbl. lia. }
    pose proof (find_file_lookup _ _ _ _ Hf) as (_ & Hfd & _).
    pose proof (find_file_insert st fd i f (with_file_pos f (f_pos f + n)) Hf Hfd) as Hf'.
    assert (Hok' : files_ok data (with_files st (<[i := Some (with_file_pos f (f_pos f + n))]> (OPEN_FILES st)))).
    { apply files_ok_insert; [done|]. split; [done|]. split; [done|]. cbn. lia. }
    rewrite (IH _ _ _ _ _ _ _ _ Hok' Hf' Hc ltac:(cbn; lia)).
    cbn [obind f_pos with_file_pos]. rewrite <- Hcl, mem_read_write_same.
    f_equal. unfold chunk. change (file_bytes data (with_file_pos f _)) with (file_bytes data f).
    rewrite Z2Nat.inj_add, <- drop_drop by lia. apply take_drop.
Qed.

(** ** Opening *)

Definition free_slot (st : state) : Prop := is_Some (position slot_free (OPEN_FILES st)).

Definition fd_fresh (st : state) : Prop :=
  Forall (fun s => slot_fd (i32 (NEXT_VFS_FD st)) s = false) (OPEN_FILES st).

Lemma position_insert_fresh {A} (f : A -> bool) l i x :
  Forall (fun y => f y = false) l -> f x = true -> (i < length l)%nat ->
  position f (<[i := x]> l) = Some i.
Proof.
  intros Hl Hx. revert i; induction Hl as [|y l Hy _ IH]; intros i Hi; simpl in Hi; [lia|].
  destruct i as [|i]; simpl; [by rewrite Hx|]. rewrite Hy, IH by lia. done.
Qed.

(** A claimed slot is found under the new descriptor. *)
Lemma claim_find st off len pos :
  free_slot st -> fd_fresh st ->
  exists i, let '(fd, st') := claim st off len pos in
    fd = i32 (NEXT_VFS_FD st) /\ find_file st' fd = Some (i, mkOpenFile fd off len pos) /\
    OPEN_FILES st' = <[i := Some (mkOpenFile fd off len pos)]> (OPEN_FILES st).
Proof.
  intros [i Hi] Hfresh. exists i. unfold claim. cbn [OPEN_FILES with_next]. rewrite Hi.
  split; [done|]. split; [|done]. unfold find_file. cbn [OPEN_FILES with_files with_next].
  pose proof Hi as (s & Hs & _ & _)%position_Some. apply lookup_lt_Some in Hs.
  rewrite position_insert_fresh; [|done|simpl; apply Z.eqb_refl|done].
  by rewrite list_lookup_insert_eq.
Qed.

(** C27: opening a path of a well-formed newc archive and reading to end of
    file, in chunks of any size, returns exactly the contents of the first
    member of that name; a path with no member is [ENOENT]. *)
Theorem open_read_member es tail st path m buf count :
  Forall member_ok es -> zlen (archive es tail) < 2 ^ 63 -> 0 < count ->
  let data := archive es tail in
  files_ok data st -> free_slot st -> fd_fresh st ->
  match find_member es path with
  | Some e =>
      exists fd st', open st data path = Ret (fd, st') /\ fd = i32 (NEXT_VFS_FD st) /\
        forall fuel, zlen (e_body e) < Z.of_nat fuel ->
        read_loop fuel st' data m fd buf count = Ret (e_body e)
  | None => open st data path = Ret (ENOENT, st)
  end.
Proof.
  intros Hes Hlen Hc data Hok Hfree Hfresh.
  pose proof (lookup_members es [] tail path (S (length data)) Hes eq_refl Hlen) as Hl.
  cbn [app] in Hl. fold data in Hl. unfold open.
  pose proof (archive_length es tail Hes) as Hal. fold data in Hal. unfold zlen in Hal.
  specialize (Hl ltac:(lia)). destruct (find_member es path) as [e|].
  2: { unfold cpio_lookup. change (zlen []) with 0 in Hl. by rewrite Hl. }
  destruct Hl as (off & Hl & Hsl). change (zlen []) with 0 in Hl. unfold cpio_lookup. rewrite Hl.
  cbn [obind]. destruct (claim_find st off (zlen (e_body e)) 0 Hfree Hfresh) as (i & Hcl).
  destruct (claim st off (zlen (e_body e)) 0) as [fd st']. destruct Hcl as (Hfd & Hf & Hfiles).
  exists fd, st'. split; [done|]. split; [done|]. intros fuel Hfuel.
  assert (Hfo : file_ok data (mkOpenFile fd off (zlen (e_body e)) 0)).
  { pose proof (cpio_lookup_from_total (S (length data)) data path 0 Hlen ltac:(lia)) as [_ Hb].
    { unfold zlen. lia. }
    specialize (Hb _ _ Hl). pose proof (zlen_nonneg (e_body e)). split; cbn; lia. }
  rewrite (read_loop_rest fuel st' data m fd buf count i _ ltac:(split; [done|]; rewrite Hfiles;
             apply Forall_insert; [apply Hok|exact Hfo]) Hf Hc ltac:(cbn; lia)).
  unfold slice in Hsl. destruct (_ && _); [|done]. injection Hsl as Hsl.
  replace (off + zlen (e_body e) - off) with (zlen (e_body e)) in Hsl by lia.
  unfold file_bytes. cbn [f_pos f_len f_off]. rewrite Hsl. done.
Qed.

(** ** The other scans terminate too *)

(** Split on the next slice of the goal; a failed slice ends the scan. *)
Ltac cut_slice :=
  match goal with
  | |- context [slice ?d ?f ?t] =>
      let E := fresh "Es" in
      destruct (slice d f t) eqn:E; cbn [obind]; [|done|by apply slice_not_fuel in E]
  end.

(** The bounds of the next offset from the two fields just read. *)
Ltac scan_bounds offset data Hlen :=
  match goal with
  | E1 : slice data (offset + 54) (offset + 62) = Ret ?fsz,
    E2 : slice data (offset + 94) (offset + 102) = Ret ?nsz |- _ =>
      replace (offset + 62) with (offset + 54 + 8) in E1 by lia;
      replace (offset + 102) with (offset + 94 + 8) in E2 by lia;
      apply field_bound in E1; [|lia]; apply field_bound in E2; [|lia];
      let H := fresh in
      pose proof (next_header offset (parse_hex nsz) (parse_hex fsz) (zlen data)
                    ltac:(lia) ltac:(lia) Hlen E2 E1) as H;
      cbv zeta in H; rewrite (u64_small (offset + 110)) in H by lia; destruct H
  end.

Lemma init_from_total fuel data : forall offset count,
  zlen data < 2 ^ 63 -> 0 <= offset < 2 ^ 64 - 110 ->
  Z.max 0 (zlen data - offset) < Z.of_nat fuel ->
  init_from fuel data offset count <> OutOfFuel.
Proof.
  induction fuel as [|fuel IH]; intros offset count Hlen Hoff Hfuel; [lia|].
  cbn [init_from]. rewrite (u64_small (offset + 110)) by lia.
  destruct (offset + 110 <=? zlen data) eqn:E; cbn [negb]; [|done]. bool_to_prop.
  cut_slice. destruct (negb _); [done|]. do 2 cut_slice.
  destruct (zlen data <? _); [done|]. cut_slice. destruct (bytes_eqb _ TRAILER); [done|].
  scan_bounds offset data Hlen. apply IH; lia.
Qed.

Lemma dir_scan_total fuel data prefix : forall offset,
  zlen data < 2 ^ 63 -> 0 <= offset < 2 ^ 64 - 110 ->
  Z.max 0 (zlen data - offset) < Z.of_nat fuel ->
  dir_scan fuel data prefix offset <> OutOfFuel.
Proof.
  induction fuel as [|fuel IH]; intros offset Hlen Hoff Hfuel; [lia|].
  cbn [dir_scan]. rewrite (u64_small (offset + 110)) by lia.
  destruct (offset + 110 <? zlen data) eqn:E; cbn [negb]; [|done]. bool_to_prop.
  cut_slice. destruct (negb _); [done|]. cut_slice.
  destruct (zlen data <? _); [done|]. cut_slice. destruct (bytes_eqb _ TRAILER); [done|].
  destruct (_ && _); [done|]. cut_slice. scan_bounds offset data Hlen. apply IH; lia.
Qed.

Lemma fill_from_total fuel data prefix buf count : forall offset written seen m,
  zlen data < 2 ^ 63 -> 0 <= offset < 2 ^ 64 - 110 ->
  Z.max 0 (zlen data - offset) < Z.of_nat fuel ->
  fill_from fuel data prefix buf count offset written seen m <> OutOfFuel.
Proof.
  induction fuel as [|fuel IH]; intros offset written seen m Hlen Hoff Hfuel; [lia|].
  cbn [fill_from]. rewrite (u64_small (offset + 110)) by lia.
  destruct (offset + 110 <? zlen data) eqn:E; cbn [negb]; [|done]. bool_to_prop.
  cut_slice. destruct (negb _); [done|]. do 2 cut_slice.
  destruct (zlen data <? _); [done|]. cut_slice. destruct (bytes_eqb _ TRAILER); [done|].
  scan_bounds offset data Hlen. cbv zeta.
  repeat match goal with
  | |- context [if ?x then _ else _] => destruct x; try (apply IH; lia); try done
  end.
Qed.

(** ** Directory prefixes of an archive *)

Definition under (prefix name : bytes) : bool :=
  (length prefix <=? length name)%nat && bytes_eqb (take (length prefix) name) prefix.

Lemma under_spec prefix name : under prefix name = true <-> exists rest, name = prefix ++ rest.
Proof.
  unfold under. rewrite andb_true_iff, Nat.leb_le, bytes_eqb_eq. split.
  - intros [_ Heq]. exists (drop (length prefix) name). by rewrite <- Heq at 1; rewrite take_drop.
  - intros [rest ->]. rewrite length_app, take_app_length. split; [lia|done].
Qed.

Lemma dir_scan_members es prefix : forall pre tail fuel,
  Forall member_ok es -> zlen pre mod 4 = 0 -> zlen (pre ++ archive es tail) < 2 ^ 63 ->
  (length es < fuel)%nat ->
  dir_scan fuel (pre ++ archive es tail) prefix (zlen pre) =
    Ret (existsb (fun e => under prefix (e_name e)) es).
Proof.
  assert (Hstep : forall pre post e fuel,
    sizes_ok e -> zlen pre mod 4 = 0 -> zlen (pre ++ encode_member e ++ post) < 2 ^ 63 ->
    dir_scan (S fuel) (pre ++ encode_member e ++ post) prefix (zlen pre) =
      if bytes_eqb (e_name e) TRAILER then Ret false
      else if under prefix (e_name e) then Ret true
      else dir_scan fuel (pre ++ encode_member e ++ post) prefix (zlen pre + zlen (encode_member e))).
  { intros pre post e fuel Hs Hpre Hlen.
    destruct (member_slices pre post e Hs) as (S1 & S2 & S3 & S4 & _).
    destruct (member_offsets pre post e Hs Hpre Hlen) as (O1 & O2 & O3 & O4 & O5 & L1 & L2 & L3).
    pose proof (zlen_nonneg (e_name e)). pose proof (zlen_nonneg (e_body e)). destruct Hs.
    cbn [dir_scan]. rewrite O1.
    replace (_ + 110 <? _) with true by (symmetry; apply Z.ltb_lt; lia). cbn [negb].
    rewrite S1. cbn [obind]. rewrite bytes_eqb_refl. cbn [negb]. rewrite S3. cbn [obind].
    rewrite !parse_hex_print by (try lia; change (16 ^ Z.of_nat 8) with (2 ^ 32); lia).
    rewrite O2. replace (_ <? _) with false by (symmetry; apply Z.ltb_ge; lia).
    rewrite S4. cbn [obind]. destruct (bytes_eqb _ TRAILER); [done|]. fold (under prefix (e_name e)).
    destruct (under _ _); [done|]. rewrite S2. cbn [obind].
    rewrite !parse_hex_print by (try lia; change (16 ^ Z.of_nat 8) with (2 ^ 32); lia).
    by rewrite O3, O4, O5. }
  induction es as [|e es IH]; intros pre tail fuel Hok Hpre Hlen Hfuel; (destruct fuel as [|fuel]; [lia|]).
  - rewrite archive_nil in *. rewrite Hstep by (done || apply trailer_sizes). done.
  - inversion Hok as [|? ? He Hok']; subst. pose proof (member_sizes e He) as Hs.
    rewrite archive_cons in *. rewrite Hstep by done.
    replace (bytes_eqb (e_name e) TRAILER) with false
      by (symmetry; apply bytes_eqb_neq; apply ok_not_trailer; done).
    cbn [existsb]. destruct (under prefix (e_name e)); [done|]. cbn [orb].
    rewrite <- zlen_app. rewrite app_assoc. rewrite app_assoc in Hlen.
    apply IH; auto; [by apply aligned_app|]. simpl in Hfuel. lia.
Qed.

Definition demo_member (name body : bytes) : member :=
  mkMember (replicate 48 48) (replicate 32 48) (replicate 8 48) name body.

Definition demo_members : list member :=
  [demo_member (b "lib/a.beam") (b "AAA"); demo_member (b "lib/x/y") (b "Y");
   demo_member (b "lib/x/z") (b "Z"); demo_member (b "bin/erl") (b "E")].

Lemma demo_member_ok name body :
  zlen name < 2 ^ 30 -> zlen body < 2 ^ 32 -> name <> TRAILER -> member_ok (demo_member name body).
Proof. intros. by constructor. Qed.

Lemma demo_members_ok : Forall member_ok demo_members.
Proof. repeat (apply Forall_cons; split; [by apply demo_member_ok|]). constructor. Qed.

Lemma open_read_member_witness :
  exists fd st', open boot_state (archive demo_members []) (b "/lib/x/z") = Ret (fd, st') /\
    fd = 1000 /\ read_loop 5 st' (archive demo_members []) (fun _ => 0) fd 4096 1 = Ret (b "Z").
Proof.
  destruct (open_read_member demo_members [] boot_state (b "/lib/x/z") (fun _ => 0) 4096 1 demo_members_ok)
    as (fd & st' & Ho & Hfd & Hr).
  - vm_compute. reflexivity.
  - lia.
  - split; [vm_compute; reflexivity|]. apply Forall_replicate. done.
  - exists 0%nat. reflexivity.
  - apply Forall_replicate. reflexivity.
  - exists fd, st'. split; [exact Ho|]. split; [exact Hfd|]. apply (Hr 5%nat). vm_compute. reflexivity.
Defined.

(** Every scan of the archive terminates on every image, well-formed or
    not, within one unit of fuel per byte; and a lookup that succeeds names a
    byte range inside the image, so the reads it enables never leave it. *)
Theorem scans_terminate data path prefix m buf count :
  zlen data < 2 ^ 63 ->
  cpio_lookup data path <> OutOfFuel /\ init data <> OutOfFuel /\
  is_dir_prefix data path <> OutOfFuel /\
  fill_dir_entries data m buf count prefix <> OutOfFuel /\
  (forall off len, cpio_lookup data path = Ret (Some (off, len)) ->
     0 <= off /\ 0 <= len /\ off + len <= zlen data).
Proof.
  intros Hlen. pose proof (zlen_nonneg data).
  assert (Hf : Z.max 0 (zlen data - 0) < Z.of_nat (S (length data))) by (unfold zlen; lia).
  destruct (cpio_lookup_from_total (S (length data)) data path 0 Hlen ltac:(lia) Hf) as [H1 H2].
  split; [exact H1|]. split; [by apply init_from_total|]. split; [|split; [by apply fill_from_total|exact H2]].
  unfold is_dir_prefix. destruct (127 <=? _)%nat; [done|]. by apply dir_scan_total.
Qed.

Lemma scans_terminate_witness :
  cpio_lookup (replicate 200 48) (b "/x") <> OutOfFuel.
Proof.
  refine (proj1 (scans_terminate (replicate 200 48) (b "/x") [] (fun _ => 0) 0 0 _)).
  vm_compute. reflexivity.
Defined.

(** On a well-formed archive, a path of fewer than 127 bytes is a
    directory exactly when some member's name continues it after a slash. *)
Theorem is_dir_prefix_archive es tail path :
  Forall member_ok es -> zlen (archive es tail) < 2 ^ 63 -> (length (strip_slash path) < 127)%nat ->
  let p := strip_slash path in
  exists r, is_dir_prefix (archive es tail) path = Ret r /\
    (r = true <-> exists e rest, e ∈ es /\
       e_name e = (if ends_with_slash p then p else p ++ [SLASH]) ++ rest).
Proof.
  intros Hok Hlen Hp p. unfold is_dir_prefix. fold p.
  apply Nat.leb_gt in Hp. fold p in Hp. rewrite Hp. eexists. split.
  - pose proof (archive_length es tail Hok) as Hal. unfold zlen in Hal.
    apply (dir_scan_members es _ [] tail); auto. lia.
  - rewrite existsb_exists. setoid_rewrite under_spec. setoid_rewrite <- list_elem_of_In. naive_solver.
Qed.

Lemma is_dir_prefix_archive_witness :
  exists r, is_dir_prefix (archive demo_members []) (b "/lib/x") = Ret r /\
    (r = true <-> exists e rest, e ∈ demo_members /\ e_name e = b "lib/x/" ++ rest).
Proof.
  refine (is_dir_prefix_archive demo_members [] (b "/lib/x") demo_members_ok _ _).
  - vm_compute. reflexivity.
  - apply Nat.ltb_lt. reflexivity.
Defined.

(** A header whose name size field is zero panics every lookup: the name
    range ends before it starts. *)
Theorem zero_namesize_panics path :
  cpio_lookup (MAGIC ++ replicate 106 48) path = Panic.
Proof. vm_compute. reflexivity. Qed.
