(* ===== verification/VfsDir.v ===== *)
(** * Directory listings of the read-only file system

    [fill_dir_entries] over a well-formed archive is a fold over the member
    names; within its two limits (32 distinct names, one buffer) it lists each
    immediate child once. *)

From S2P Require Import Prelude Dirent Vfs VfsProofs.

(** The immediate child that a member name contributes under [prefix], with
    its type: a directory when the name goes deeper. *)
Definition child_of (prefix name : bytes) : option (bytes * Z) :=
  if (length prefix <? length name)%nat && bytes_eqb (take (length prefix) name) prefix then
    let rest := drop (length prefix) name in
    let child_end := match position (fun c => c =? SLASH) rest with
                     | Some i => i
                     | None => length rest
                     end in
    let child := take child_end rest in
    if (0 <? length child)%nat && (length child <? 64)%nat
    then Some (child, if (child_end <? length rest)%nat then 4 else 8)
    else None
  else None.

(** The loop body as a fold over names. *)
Fixpoint fill_names (prefix : bytes) (buf count : Z) (names : list bytes)
    (written : Z) (seen : list bytes) (m : mem) : Z * mem :=
  match names with
  | [] => (written, m)
  | name :: names' =>
      match child_of prefix name with
      | Some (child, d_type) =>
          if negb (existsb (seen_is child) seen) && (length seen <? 32)%nat then
            let seen := seen ++ [pad64 child] in
            let reclen := dirent_reclen child in
            if count <? written + reclen then (written, m)
            else
              let m := dirent_store m (buf + written) (zlen seen) (written + reclen) reclen d_type child in
              fill_names prefix buf count names' (written + reclen) seen m
          else fill_names prefix buf count names' written seen m
      | None => fill_names prefix buf count names' written seen m
      end
  end.

Lemma fill_step pre post e fuel prefix buf count written seen m :
  sizes_ok e -> zlen pre mod 4 = 0 -> zlen (pre ++ encode_member e ++ post) < 2 ^ 63 ->
  let data := pre ++ encode_member e ++ post in
  let next := zlen pre + zlen (encode_member e) in
  fill_from (S fuel) data prefix buf count (zlen pre) written seen m =
    if bytes_eqb (e_name e) TRAILER then Ret (written, m)
    else match child_of prefix (e_name e) with
         | Some (child, d_type) =>
             if negb (existsb (seen_is child) seen) && (length seen <? 32)%nat then
               let seen := seen ++ [pad64 child] in
               let reclen := dirent_reclen child in
               if count <? written + reclen then Ret (written, m)
               else
                 let m := dirent_store m (buf + written) (zlen seen) (written + reclen) reclen d_type child in
                 fill_from fuel data prefix buf count next (written + reclen) seen m
             else fill_from fuel data prefix buf count next written seen m
         | None => fill_from fuel data prefix buf count next written seen m
         end.
Proof.
  intros Hs Hpre Hlen data next.
  destruct (member_slices pre post e Hs) as (S1 & S2 & S3 & S4 & _).
  destruct (member_offsets pre post e Hs Hpre Hlen) as (O1 & O2 & O3 & O4 & O5 & L1 & L2 & L3).
  fold data in S1, S2, S3, S4, L1, L2, L3.
  pose proof (zlen_nonneg (e_name e)). pose proof (zlen_nonneg (e_body e)). destruct Hs.
  cbn [fill_from]. rewrite O1.
  replace (_ + 110 <? _) with true by (symmetry; apply Z.ltb_lt; lia). cbn [negb].
  rewrite S1. cbn [obind]. rewrite bytes_eqb_refl. cbn [negb]. rewrite S3. cbn [obind].
  rewrite S2. cbn [obind].
  rewrite !parse_hex_print by (try lia; change (16 ^ Z.of_nat 8) with (2 ^ 32); lia).
  rewrite O2. replace (_ <? _) with false by (symmetry; apply Z.ltb_ge; lia).
  rewrite S4. cbn [obind]. destruct (bytes_eqb _ TRAILER); [done|].
  rewrite O3, O4, O5. fold next. unfold child_of.
  destruct ((_ <? _)%nat && bytes_eqb _ _); [|done]. cbv zeta.
  set (child := take _ (drop _ _)). cbn [andb].
  destruct ((0 <? length child)%nat && (length child <? 64)%nat); done.
Qed.

(** The scan of an archive is the fold over its names: in particular it never
    panics. *)
Lemma fill_members es prefix buf count : forall pre tail fuel written seen m,
  Forall member_ok es -> zlen pre mod 4 = 0 -> zlen (pre ++ archive es tail) < 2 ^ 63 ->
  (length es < fuel)%nat ->
  fill_from fuel (pre ++ archive es tail) prefix buf count (zlen pre) written seen m =
    Ret (fill_names prefix buf count (map e_name es) written seen m).
Proof.
  induction es as [|e es IH]; intros pre tail fuel written seen m Hok Hpre Hlen Hfuel;
    (destruct fuel as [|fuel]; [lia|]).
  - rewrite archive_nil in *. rewrite fill_step by (done || apply trailer_sizes). done.
  - inversion Hok as [|? ? He Hok']; subst. pose proof (member_sizes e He) as Hs.
    rewrite archive_cons in *. rewrite fill_step by done.
    replace (bytes_eqb (e_name e) TRAILER) with false
      by (symmetry; apply bytes_eqb_neq; apply ok_not_trailer; done).
    cbn [map fill_names]. cbv zeta. rewrite <- zlen_app. rewrite app_assoc. rewrite app_assoc in Hlen.
    assert (HIH : forall written seen m,
      fill_from fuel ((pre ++ encode_member e) ++ archive es tail) prefix buf count
        (zlen (pre ++ encode_member e)) written seen m =
      Ret (fill_names prefix buf count (map e_name es) written seen m)).
    { intros. apply IH; auto; [by apply aligned_app|]. simpl in Hfuel. lia. }
    repeat case_match; rewrite ?HIH; done.
Qed.

(** ** The names listed *)

(** The distinct children in archive order: the reference listing. *)
Fixpoint listing (prefix : bytes) (names : list bytes) (seen : list bytes) : list (bytes * Z) :=
  match names with
  | [] => []
  | name :: names' =>
      match child_of prefix name with
      | Some (child, d_type) =>
          if existsb (bytes_eqb child) seen then listing prefix names' seen
          else (child, d_type) :: listing prefix names' (seen ++ [child])
      | None => listing prefix names' seen
      end
  end.

Definition listing_size (l : list (bytes * Z)) : Z :=
  foldr (fun e acc => dirent_reclen e.1 + acc) 0 l.

Definition no_nul (name : bytes) : Prop := Forall (fun c => c <> 0) name.

Lemma seen_is_pad child s :
  no_nul child -> no_nul s -> (length child < 64)%nat -> (length s < 64)%nat ->
  seen_is child (pad64 s) = bytes_eqb child s.
Proof.
  intros Hc Hs Hlc Hls. unfold seen_is, pad64.
  destruct (bytes_eqb child s) eqn:E.
  - apply bytes_eqb_eq in E as ->. rewrite take_app_length, bytes_eqb_refl. simpl.
    rewrite lookup_app_r, Nat.sub_diag by lia.
    destruct (64 - length s)%nat eqn:E; [lia|done].
  - apply andb_false_iff. apply bytes_eqb_neq in E.
    destruct (bytes_eqb (take _ _) child) eqn:Et; [right|by left].
    apply bytes_eqb_eq in Et. destruct (decide (length child < length s)%nat) as [Hlt|Hge].
    + rewrite lookup_app_l by done. destruct (lookup_lt_is_Some_2 s (length child) Hlt) as [c Hcc].
      rewrite Hcc. apply Z.eqb_neq. exact (Forall_lookup_1 _ _ _ _ Hs Hcc).
    + exfalso. rewrite take_app_ge in Et by lia.
      destruct (decide (length child = length s)) as [Heq|Hne].
      * rewrite Heq, Nat.sub_diag, app_nil_r in Et. by apply E.
      * unfold no_nul in Hc. rewrite <- Et in Hc. apply Forall_app in Hc as [_ Hz].
        destruct (length child - length s)%nat as [|k] eqn:Ek; [lia|].
        destruct (64 - length s)%nat eqn:E64; [lia|]. inversion Hz. done.
Qed.

Lemma child_of_facts prefix name child d :
  child_of prefix name = Some (child, d) ->
  (0 < length child < 64)%nat /\ 0 <= d < 256 /\ (no_nul name -> no_nul child).
Proof.
  unfold child_of. destruct (_ && _); [|done]. cbv zeta.
  destruct (_ && _) eqn:E; [|done]. intros [= <- <-].
  apply andb_true_iff in E as [E1 E2]. apply Nat.ltb_lt in E1, E2.
  split; [done|]. split; [destruct (_ <? length _)%nat; lia|]. intros Hn. unfold no_nul. by apply Forall_take, Forall_drop.
Qed.

Lemma listing_size_nonneg prefix names seen :
  Forall no_nul names -> 0 <= listing_size (listing prefix names seen).
Proof.
  revert seen. induction names as [|n names IH]; intros seen Hn; simpl; [lia|].
  inversion Hn; subst. destruct (child_of prefix n) as [[c d]|] eqn:E; [|auto].
  destruct (existsb _ _); [auto|]. simpl.
  apply child_of_facts in E as ([_ Hl] & _). pose proof (dirent_reclen_bounds c).
  unfold zlen in *. specialize (IH (seen ++ [c]) H2). lia.
Qed.

(** Within the limits, the records of one call decode to the listing from the
    names still to come. *)
Lemma fill_names_listing prefix buf count names : forall written raw m,
  Forall no_nul names -> Forall (fun s => no_nul s /\ (length s < 64)%nat) raw ->
  (length raw + length (listing prefix names raw) <= 32)%nat ->
  written + listing_size (listing prefix names raw) <= count ->
  let '(w, m') := fill_names prefix buf count names written (map pad64 raw) m in
  w = written + listing_size (listing prefix names raw) /\
  (forall a, a < buf + written -> m' a = m a) /\
  forall fuel, (length (listing prefix names raw) <= fuel)%nat ->
    read_dirents fuel m' (buf + written) (w - written) = listing prefix names raw.
Proof.
  assert (Hnil : forall fuel m' p z, z <= 0 -> read_dirents fuel m' p z = []).
  { intros [|fuel] m' p z Hz; [done|]. simpl. by apply Z.leb_le in Hz as ->. }
  induction names as [|name names IH]; intros written raw m Hn Hraw H32 Hsize.
  { simpl. split; [lia|]. split; [done|]. intros. apply Hnil. lia. }
  inversion Hn as [|? ? Hname Hn']; subst. cbn [fill_names listing] in *.
  destruct (child_of prefix name) as [[child d]|] eqn:E; [|by apply IH].
  apply child_of_facts in E as (Hlen & Hd & Hnul). specialize (Hnul Hname).
  assert (Hseen : existsb (seen_is child) (map pad64 raw) = existsb (bytes_eqb child) raw).
  { clear -Hraw Hnul Hlen. induction Hraw as [|s raw [Hs Hl] _ IH]; [done|]. simpl.
    rewrite seen_is_pad, IH by (done || lia). done. }
  rewrite Hseen. destruct (existsb (bytes_eqb child) raw) eqn:Ex; cbn [negb andb]; [by apply IH|].
  cbn [length listing_size foldr fst] in *. rewrite length_map.
  replace (length raw <? 32)%nat with true by (symmetry; apply Nat.ltb_lt; lia).
  assert (Hz : zlen child < 64) by (unfold zlen; lia).
  pose proof (dirent_reclen_bounds child ltac:(lia)) as Hrb. pose proof (zlen_nonneg child).
  pose proof (listing_size_nonneg prefix names (raw ++ [child]) Hn') as Hnn.
  fold (listing_size (listing prefix names (raw ++ [child]))) in *.
  replace (count <? _) with false by (symmetry; apply Z.ltb_ge; lia).
  set (rl := dirent_reclen child) in *. set (m1 := dirent_store _ _ _ _ _ _ _).
  replace (map pad64 raw ++ [pad64 child]) with (map pad64 (raw ++ [child])) by (by rewrite map_app).
  specialize (IH (written + rl) (raw ++ [child]) m1 Hn').
  destruct (fill_names _ _ _ _ _ _ _) as [w m'].
  destruct IH as (Hw & Hout & Hread).
  { apply Forall_app; split; [done|]. apply Forall_singleton. split; [done|lia]. }
  { rewrite length_app. simpl. lia. }
  { lia. }
  split; [lia|]. split.
  - intros a Ha. rewrite Hout by lia. apply dirent_store_outside; fold rl; lia.
  - intros [|fuel] Hf; [lia|]. cbn [read_dirents].
    replace (w - written <=? 0) with false by (symmetry; apply Z.leb_gt; lia).
    destruct (dirent_read_ext m1 m' (buf + written) rl) as (-> & -> & ->).
    { intros a Ha. symmetry. apply Hout. lia. }
    { lia. }
    { apply dirent_store_reclen. lia. }
    unfold m1, rl. rewrite dirent_store_name, dirent_store_type by (done || lia).
    f_equal. fold rl. rewrite <- (Hread fuel) by lia. f_equal; lia.
Qed.

Lemma existsb_bytes_eqb c l : existsb (bytes_eqb c) l = true <-> c ∈ l.
Proof.
  rewrite existsb_exists, list_elem_of_In. setoid_rewrite bytes_eqb_eq. naive_solver.
Qed.

(** The listing has each child once, and no child seen before. *)
Lemma listing_names prefix names : forall seen,
  NoDup (map fst (listing prefix names seen)) /\
  forall c, c ∈ map fst (listing prefix names seen) <->
    c ∉ seen /\ exists name d, name ∈ names /\ child_of prefix name = Some (c, d).
Proof.
  induction names as [|name names IH]; intros seen; cbn [listing].
  { split; [constructor|]. intros c. split; [by intros ?%elem_of_nil|].
    intros (_ & n & d & []%elem_of_nil & _). }
  destruct (child_of prefix name) as [[child d]|] eqn:E.
  2: { destruct (IH seen) as [Hnd Hin]. split; [done|]. intros c. rewrite Hin.
       setoid_rewrite elem_of_cons. split; [naive_solver|].
       intros (Hs & n & d & [->|Hn] & Hc); [congruence|naive_solver]. }
  destruct (existsb (bytes_eqb child) seen) eqn:Ex.
  - apply existsb_bytes_eqb in Ex. destruct (IH seen) as [Hnd Hin]. split; [done|].
    intros c. rewrite Hin. setoid_rewrite elem_of_cons. split; [naive_solver|].
    intros (Hs & n & d' & [->|Hn] & Hc); [congruence|naive_solver].
  - assert (Hns : child ∉ seen) by (intros H%existsb_bytes_eqb; congruence).
    destruct (IH (seen ++ [child])) as [Hnd Hin]. cbn [map fst]. split.
    + constructor; [|done]. rewrite Hin. intros [Hn _]. apply Hn, elem_of_app. right. left.
    + intros c. rewrite elem_of_cons, Hin. setoid_rewrite elem_of_cons.
      rewrite elem_of_app, list_elem_of_singleton. split.
      * intros [->|(Hs & n & d' & Hn & Hc)]; naive_solver.
      * intros (Hs & n & d' & [->|Hn] & Hc); [left; congruence|].
        destruct (decide (c = child)) as [->|Hne]; [by left|right]. naive_solver.
Qed.

(** Directory descriptors are numbered by their slot. *)
Definition dirs_ok (st : state) : Prop :=
  forall i s, DIR_SLOTS st !! i = Some s -> d_fd s = -1 \/ d_fd s = DIR_FD_BASE + Z.of_nat i.

Lemma dirs_ok_insert st i fd p dn :
  dirs_ok st -> fd = -1 \/ fd = DIR_FD_BASE + Z.of_nat i ->
  dirs_ok (with_dirs st (<[i := mkDirSlot fd p dn]> (DIR_SLOTS st))).
Proof.
  intros Hok Hfd j s. cbn [DIR_SLOTS with_dirs]. intros [(<- & <- & _)|[_ Hj]]%list_lookup_insert_Some; auto.
Qed.

Lemma boot_dirs_ok : dirs_ok boot_state.
Proof. intros i s [-> _]%lookup_replicate. by left. Qed.

(** ** Properties *)

(** Listing a directory of a well-formed archive: one [getdents64] call
    after [open_dir] returns, decoded from the caller's buffer, exactly the
    distinct immediate children of the directory in archive order with their
    types, and the next call returns 0, as long as the directory has at most 32
    distinct children and their records fit the buffer. *)
Theorem getdents_archive es tail st path m buf count :
  Forall member_ok es -> Forall (fun e => no_nul (e_name e)) es ->
  zlen (archive es tail) < 2 ^ 63 ->
  is_Some (position (dir_is (-1)) (DIR_SLOTS st)) ->
  dirs_ok st ->
  let dir := take 127 (strip_slash path) in
  let prefix := if (0 <? length dir)%nat && negb (ends_with_slash dir) then dir ++ [SLASH] else dir in
  let l := listing prefix (map e_name es) [] in
  (length l <= 32)%nat -> listing_size l <= count ->
  let '(fd, st1) := open_dir st path in
  exists st2 m', getdents64 st1 (archive es tail) m fd buf count = Ret (listing_size l, st2, m') /\
    (forall fuel, (length l <= fuel)%nat -> read_dirents fuel m' buf (listing_size l) = l) /\
    getdents64 st2 (archive es tail) m' fd buf count = Ret (0, st2, m') /\
    NoDup (map fst l) /\
    (forall c, c ∈ map fst l <-> exists e d, e ∈ es /\ child_of prefix (e_name e) = Some (c, d)).
Proof.
  intros Hok Hnul Hlen [i Hi] Hslots dir prefix l H32 Hsize. unfold open_dir. rewrite Hi.
  pose proof Hi as (l1 & s & l2 & Hsl & Hl1 & Hs & Hl1f)%position_split.
  set (fd := DIR_FD_BASE + Z.of_nat i). fold dir.
  assert (Hpos : forall dn, position (dir_is fd) (<[i := mkDirSlot fd dir dn]> (DIR_SLOTS st)) = Some i).
  { intros dn. rewrite Hsl. rewrite insert_app_r_alt, Hl1, Nat.sub_diag by lia. simpl.
    assert (Hno : Forall (fun s => dir_is fd s = false) l1).
    { apply Forall_lookup. intros j x Hx. pose proof (lookup_lt_Some _ _ _ Hx) as Hj.
      unfold dir_is, fd. apply Z.eqb_neq. destruct (Hslots j x) as [->| ->];
        [by rewrite Hsl, lookup_app_l|unfold DIR_FD_BASE; lia|lia]. }
    clear -Hno Hl1. clearbody fd. revert i Hl1. induction Hno as [|x l1 Hx _ IH]; intros i Hl1; simpl in *.
    - subst i. unfold dir_is. simpl. by rewrite Z.eqb_refl.
    - rewrite Hx. destruct i as [|i]; [done|]. rewrite (IH i) by lia. done. }
  assert (Hlt : (i < length (DIR_SLOTS st))%nat) by (rewrite Hsl, length_app; simpl; lia).
  unfold getdents64 at 1. cbn [DIR_SLOTS with_dirs]. rewrite Hpos.
  rewrite list_lookup_insert_eq by done. cbn [d_done d_fd d_prefix]. fold prefix.
  unfold fill_dir_entries.
  pose proof (fill_members es prefix buf count [] tail (S (length (archive es tail))) 0 [] m Hok eq_refl Hlen) as Hf.
  pose proof (archive_length es tail Hok) as Hal. unfold zlen in Hal. specialize (Hf ltac:(lia)).
  change (zlen []) with 0 in Hf. cbn [app] in Hf. rewrite Hf. cbn [obind].
  pose proof (fill_names_listing prefix buf count (map e_name es) 0 [] m) as Hl.
  cbn [map] in Hl. fold l in Hl. destruct (fill_names _ _ _ _ _ _ _) as [w m'].
  destruct Hl as (Hw & _ & Hread); [by apply Forall_map|constructor|simpl; lia|lia|].
  replace (0 + listing_size l) with (listing_size l) in Hw by lia. subst w.
  do 2 eexists. split; [done|]. split; [|split; [|split]].
  - intros fuel Hfl. specialize (Hread fuel Hfl).
    by rewrite Z.add_0_r, Z.sub_0_r in Hread.
  - unfold getdents64. cbn [DIR_SLOTS with_dirs]. rewrite list_insert_insert_eq.
    rewrite Hpos. by rewrite list_lookup_insert_eq.
  - apply listing_names.
  - intros c. unfold l. rewrite (proj2 (listing_names prefix (map e_name es) [])). split.
    + intros (_ & n & d & Hn & Hc). apply list_elem_of_fmap in Hn as (e & -> & He). eauto.
    + intros (e & d & He & Hc). split; [by intros ?%elem_of_nil|]. exists (e_name e), d. split; [|done].
      apply list_elem_of_fmap. eauto.
Qed.

Lemma getdents_archive_witness :
  let '(fd, st1) := open_dir boot_state (b "/lib") in
  exists st2 m', getdents64 st1 (archive demo_members []) (fun _ => 7) fd 100 200 = Ret (56, st2, m') /\
    read_dirents 2 m' 100 56 = [(b "a.beam", 8); (b "x", 4)].
Proof.
  assert (H := getdents_archive demo_members [] boot_state (b "/lib") (fun _ => 7) 100 200 demo_members_ok).
  destruct (open_dir boot_state (b "/lib")) as [fd st1] eqn:E.
  destruct H as (st2 & m' & Hg & Hr & _).
  - unfold demo_members.
    repeat (apply Forall_cons; split; [vm_compute; repeat constructor; congruence|]). constructor.
  - vm_compute. reflexivity.
  - vm_compute. eauto.
  - apply boot_dirs_ok.
  - vm_compute. lia.
  - vm_compute. congruence.
  - exists st2, m'. split; [exact Hg|]. exact (Hr 2%nat ltac:(vm_compute; lia)).
Defined.

Definition two_digits (n : nat) : bytes :=
  [48 + Z.of_nat n / 10; 48 + Z.of_nat n mod 10].
Definition wide_dir (k : nat) : list member :=
  map (fun n => demo_member (b "d/" ++ two_digits n) []) (seq 10 k).

(** A directory with 33 files is listed with 32: the fixed [seen] table
    silently drops the last record, however large the buffer, and the second
    call reports the end of the directory. *)
Theorem getdents_drops_33rd :
  let names := map e_name (wide_dir 33) in
  let l := listing (b "d/") names [] in
  let data := archive (wide_dir 33) [] in
  length l = 33%nat /\
  let '(fd, st1) := open_dir boot_state (b "/d") in
  match getdents64 st1 data (fun _ => 0) fd 4096 65536 with
  | Ret (r, st2, m') =>
      r = listing_size (take 32 l) /\
      match getdents64 st2 data m' fd 4096 65536 with
      | Ret (r2, _, _) => r2 = 0
      | _ => False
      end
  | _ => False
  end.
Proof. vm_compute. auto. Qed.
