(* ===== verification/VfsInv.v ===== *)
(** * Invariants of the read-only file system

    Every sequence of calls on a well-formed archive runs without a panic and
    keeps the open tables consistent. *)

From S2P Require Import Prelude Dirent Vfs VfsProofs VfsDir.

Inductive op :=
| OpOpen (path : bytes)
| OpDup (fd : Z)
| OpRead (fd buf count : Z)
| OpPread (fd buf count offset : Z)
| OpLseek (fd offset whence : Z)
| OpClose (fd : Z)
| OpIsDir (path : bytes)
| OpOpenDir (path : bytes)
| OpCloseDir (fd : Z)
| OpGetdents (fd buf count : Z).

Definition exec (data : bytes) (o : op) (st : state) (m : mem) : outcome (Z * state * mem) :=
  let keep_mem (p : Z * state) := Ret (p.1, p.2, m) in
  match o with
  | OpOpen path => obind (open st data path) keep_mem
  | OpDup fd => keep_mem (dup st fd)
  | OpRead fd buf count => read st data m fd buf count
  | OpPread fd buf count off => do! (r, m) <- pread st data m fd buf count off; Ret (r, st, m)
  | OpLseek fd off whence => keep_mem (lseek st fd off whence)
  | OpClose fd => keep_mem (close st fd)
  | OpIsDir path => do! r <- is_dir_prefix data path; Ret (if r : bool then 1 else 0, st, m)
  | OpOpenDir path => keep_mem (open_dir st path)
  | OpCloseDir fd => let '(r, st) := close_dir st fd in Ret (if r : bool then 1 else 0, st, m)
  | OpGetdents fd buf count => getdents64 st data m fd buf count
  end.

Fixpoint run (data : bytes) (ops : list op) (st : state) (m : mem) : outcome (list Z * state * mem) :=
  match ops with
  | [] => Ret ([], st, m)
  | o :: ops' =>
      do! (r, st, m) <- exec data o st m;
      do! (rs, st, m) <- run data ops' st m;
      Ret (r :: rs, st, m)
  end.

(** The descriptors of the open files, in slot order. *)
Definition open_nums (l : list (option OpenFile)) : list Z := omap (fun s => f_fd <$> s) l.

Record inv (data : bytes) (st : state) : Prop := mkInv {
  inv_files : files_ok data st;
  inv_dirs : dirs_ok st;
  inv_next : 1000 <= NEXT_VFS_FD st;
  inv_range : Forall (fun fd => 1000 <= fd < NEXT_VFS_FD st) (open_nums (OPEN_FILES st));
  inv_nodup : NoDup (open_nums (OPEN_FILES st));
  inv_slots : length (DIR_SLOTS st) = MAX_DIRS
}.

Definition op_ok (o : op) : Prop :=
  match o with
  | OpRead _ _ count => 0 <= count < 2 ^ 64
  | OpPread _ _ count off => 0 <= count < 2 ^ 64 /\ 0 <= off < 2 ^ 64
  | OpLseek _ off _ => - 2 ^ 63 <= off < 2 ^ 63
  | _ => True
  end.

(** ** Descriptor numbers under slot updates *)

Lemma open_nums_split l1 s l2 :
  open_nums (l1 ++ s :: l2) = open_nums l1 ++ match s with Some f => [f_fd f] | None => [] end ++ open_nums l2.
Proof. unfold open_nums. rewrite omap_app. cbn [omap list_omap]. by destruct s. Qed.

Lemma open_nums_same l i f f' :
  l !! i = Some (Some f) -> f_fd f' = f_fd f -> open_nums (<[i := Some f']> l) = open_nums l.
Proof.
  intros Hi Hfd. apply list_elem_of_split_length in Hi as (l1 & l2 & -> & ->).
  rewrite insert_app_r_alt, Nat.sub_diag by lia. simpl. by rewrite !open_nums_split, Hfd.
Qed.

Lemma open_nums_free l i :
  (i < length l)%nat -> open_nums (<[i := None]> l) `sublist_of` open_nums l.
Proof.
  intros [s Hi]%lookup_lt_is_Some_2. apply list_elem_of_split_length in Hi as (l1 & l2 & -> & ->).
  rewrite insert_app_r_alt, Nat.sub_diag by lia. simpl. rewrite !open_nums_split. simpl.
  apply sublist_app; [done|]. by apply sublist_inserts_l.
Qed.

Lemma open_nums_claim l i f :
  l !! i = Some None -> open_nums (<[i := Some f]> l) ≡ₚ f_fd f :: open_nums l.
Proof.
  intros Hi. apply list_elem_of_split_length in Hi as (l1 & l2 & -> & ->).
  rewrite insert_app_r_alt, Nat.sub_diag by lia. simpl. rewrite !open_nums_split. simpl.
  by rewrite Permutation_middle.
Qed.

Definition vstep_ok (data : bytes) (st st' : state) : Prop :=
  inv data st' /\ NEXT_VFS_FD st' <= NEXT_VFS_FD st + 1.

Lemma vstep_ok_refl data st : inv data st -> vstep_ok data st st.
Proof. split; [done|lia]. Qed.

(** Moving the position of an open file. *)
Lemma vstep_ok_pos data st fd i f p :
  inv data st -> find_file st fd = Some (i, f) -> 0 <= p <= f_len f ->
  vstep_ok data st (with_files st (<[i := Some (with_file_pos f p)]> (OPEN_FILES st))).
Proof.
  intros [Hf Hd Hn Hr Hnd Hs] Hff Hp. pose proof (find_file_ok _ _ _ _ _ Hf Hff) as (Ho & Hl & _).
  pose proof (find_file_lookup _ _ _ _ Hff) as (Hi & _ & _).
  assert (Hon : open_nums (<[i := Some (with_file_pos f p)]> (OPEN_FILES st)) = open_nums (OPEN_FILES st))
    by (by eapply open_nums_same).
  split; [|cbn; lia]. constructor; cbn [OPEN_FILES with_files NEXT_VFS_FD]; rewrite ?Hon; auto.
  by apply files_ok_insert.
Qed.

Lemma vstep_ok_close data st i :
  inv data st -> (i < length (OPEN_FILES st))%nat ->
  vstep_ok data st (with_files st (<[i := None]> (OPEN_FILES st))).
Proof.
  intros [Hf Hd Hn Hr Hnd Hs] Hi. pose proof (open_nums_free _ _ Hi) as Hsub.
  split; [|cbn; lia]. constructor; cbn [OPEN_FILES with_files NEXT_VFS_FD]; auto.
  - by apply files_ok_insert.
  - rewrite Forall_forall in *. eauto using elem_of_sublist.
  - by eapply sublist_NoDup.
Qed.

Lemma vstep_ok_claim data st off len pos :
  inv data st -> NEXT_VFS_FD st < 2 ^ 31 - 1 ->
  0 <= off -> off + len <= zlen data -> 0 <= pos <= len ->
  vstep_ok data st (claim st off len pos).2.
Proof.
  intros [Hf Hd Hn Hr Hnd Hs] Hlt Ho Hl Hp. unfold claim. cbn [OPEN_FILES with_next].
  rewrite i32_small, u64_small by lia.
  assert (Hr' : Forall (fun fd => 1000 <= fd < NEXT_VFS_FD st + 1) (open_nums (OPEN_FILES st))).
  { apply (Forall_impl _ _ _ Hr). intros fd Hfd. lia. }
  destruct (position slot_free (OPEN_FILES st)) as [i|] eqn:Hi.
  2: { cbn [snd]. split; [|cbn; lia]. constructor; cbn [OPEN_FILES with_next NEXT_VFS_FD]; auto. lia. }
  pose proof Hi as (s & Hsi & Hfree & _)%position_Some. destruct s as [f'|]; [done|].
  set (f := mkOpenFile _ _ _ _).
  pose proof (open_nums_claim _ i f Hsi) as Hperm.
  cbn [snd]. split; [|cbn; lia]. constructor; cbn [OPEN_FILES with_files with_next NEXT_VFS_FD]; auto.
  - apply (files_ok_insert data (with_next st _) i (Some f)); [exact Hf|].
    unfold file_ok, f. cbn. lia.
  - lia.
  - rewrite Hperm. constructor; [cbn; lia|done].
  - rewrite Hperm. constructor; [|done]. intros Hin. rewrite Forall_forall in Hr.
    specialize (Hr _ Hin). cbn in Hr. lia.
Qed.

Lemma vstep_ok_dirs data st l :
  inv data st -> dirs_ok (with_dirs st l) -> length l = length (DIR_SLOTS st) -> vstep_ok data st (with_dirs st l).
Proof. intros [Hf Hd Hn Hr Hnd Hs] Hl El. rewrite Hs in El. split; [by constructor|cbn; lia]. Qed.

(** ** Each call *)

Lemma lookup_archive es tail path :
  Forall member_ok es -> zlen (archive es tail) < 2 ^ 63 ->
  exists r, cpio_lookup (archive es tail) path = Ret r /\
    forall off len, r = Some (off, len) -> 0 <= off /\ 0 <= len /\ off + len <= zlen (archive es tail).
Proof.
  intros Hok Hlen. pose proof (archive_length es tail Hok) as Hal. unfold zlen in Hal.
  pose proof (lookup_members es [] tail path (S (length (archive es tail))) Hok eq_refl Hlen ltac:(lia)) as Hl.
  destruct (cpio_lookup_from_total (S (length (archive es tail))) (archive es tail) path 0 Hlen ltac:(lia)
              ltac:(unfold zlen; lia)) as [_ Hb].
  unfold cpio_lookup. cbn [app] in Hl. change (zlen []) with 0 in Hl.
  destruct (find_member es path).
  - destruct Hl as (off & Hl & _). rewrite Hl in *. eexists. split; [done|]. intros ? ? [= <- <-]. by apply Hb.
  - rewrite Hl. by eexists.
Qed.

Section calls.
Context (es : list member) (tail : bytes) (st : state) (m : mem).
Let data := archive es tail.
Hypothesis Hes : Forall member_ok es.
Hypothesis Hlen : zlen data < 2 ^ 63.
Hypothesis Hinv : inv data st.
Hypothesis Hn : NEXT_VFS_FD st < 2 ^ 31 - 1.

(** A call returns, and keeps the invariant. *)
Definition call_ok (o : op) : Prop :=
  exists r st' m', exec data o st m = Ret (r, st', m') /\ vstep_ok data st st'.

Lemma call_ok_same o r m' : exec data o st m = Ret (r, st, m') -> call_ok o.
Proof using Hinv. intros H. exists r, st, m'. split; [done|]. by apply vstep_ok_refl. Qed.

Lemma es_fuel : (length es < S (length data))%nat.
Proof using Hes. pose proof (archive_length es tail Hes) as H. unfold zlen, data in *. lia. Qed.

Lemma open_call path : call_ok (OpOpen path).
Proof using Hes Hlen Hinv Hn.
  destruct (lookup_archive es tail path Hes Hlen) as ([[off len]|] & Hl & Hb); fold data in Hl, Hb.
  - destruct (Hb _ _ eq_refl) as (? & ? & ?). unfold call_ok, exec, open. rewrite Hl. cbn [obind].
    do 3 eexists. split; [done|]. apply vstep_ok_claim; auto; lia.
  - apply (call_ok_same _ ENOENT m). unfold exec, open. by rewrite Hl.
Qed.

Lemma dup_call fd : call_ok (OpDup fd).
Proof using Hinv Hn.
  do 3 eexists. split; [done|]. unfold dup.
  destruct (find_file st fd) as [[i f]|] eqn:Hff; [|by apply vstep_ok_refl].
  pose proof (find_file_ok _ _ _ _ _ (inv_files _ _ Hinv) Hff) as (? & ? & ?). by apply vstep_ok_claim.
Qed.

Lemma read_call fd buf count : 0 <= count < 2 ^ 64 -> call_ok (OpRead fd buf count).
Proof using Hinv.
  intros Hc. pose proof (inv_files _ _ Hinv) as Hf. destruct (find_file st fd) as [[i f]|] eqn:Hff.
  2: { apply (call_ok_same _ EBADF m). unfold exec, read. by rewrite Hff. }
  pose proof (find_file_ok _ _ _ _ _ Hf Hff) as (? & ? & ?).
  destruct (Z.eq_dec (f_pos f) (f_len f)).
  - apply (call_ok_same _ 0 m). by apply (read_eof data st m fd buf count i f).
  - unfold call_ok, exec. rewrite (read_open data st m fd buf count i f) by (done || lia).
    do 3 eexists. split; [done|]. apply (vstep_ok_pos data st fd); auto. lia.
Qed.

Lemma pread_call fd buf count off :
  0 <= count < 2 ^ 64 -> 0 <= off < 2 ^ 64 -> call_ok (OpPread fd buf count off).
Proof using Hinv.
  intros Hc Ho. pose proof (inv_files _ _ Hinv) as Hf. pose proof (proj1 Hf) as Hlen'.
  destruct (find_file st fd) as [[i f]|] eqn:Hff.
  2: { apply (call_ok_same _ EBADF m). unfold exec, pread. by rewrite Hff. }
  pose proof (find_file_ok _ _ _ _ _ Hf Hff) as Hfo. pose proof Hfo as (? & ? & ?).
  destruct (f_len f <=? off) eqn:E; bool_to_prop.
  - apply (call_ok_same _ 0 m). unfold exec, pread. rewrite Hff.
    replace (f_len f <=? off) with true by (symmetry; apply Z.leb_le; lia). done.
  - eapply call_ok_same. unfold exec, pread. rewrite Hff.
    replace (f_len f <=? off) with false by (symmetry; apply Z.leb_gt; lia).
    rewrite (u64_small (f_len f - off)) by lia. by rewrite copy_out_file by (done || lia).
Qed.

Lemma lseek_call fd off whence : call_ok (OpLseek fd off whence).
Proof using Hinv.
  do 3 eexists. split; [done|]. unfold lseek.
  destruct (find_file st fd) as [[i f]|] eqn:Hff; [|by apply vstep_ok_refl].
  pose proof (find_file_ok _ _ _ _ _ (inv_files _ _ Hinv) Hff) as (? & ? & ?). cbv zeta.
  destruct (whence =? 0); [|destruct (whence =? 1); [|destruct (whence =? 2); [|by apply vstep_ok_refl]]];
    apply (vstep_ok_pos data st fd); auto; lia.
Qed.

Lemma close_call fd : call_ok (OpClose fd).
Proof using Hinv.
  do 3 eexists. split; [done|]. unfold close.
  destruct (find_file st fd) as [[i f]|] eqn:Hff; [|by apply vstep_ok_refl].
  apply find_file_lookup in Hff as (Hi & _ & _). apply vstep_ok_close; [done|]. by eapply lookup_lt_Some.
Qed.

Lemma is_dir_call path : call_ok (OpIsDir path).
Proof using Hes Hlen Hinv.
  destruct (127 <=? length (strip_slash path))%nat eqn:E;
    eapply call_ok_same; unfold exec, is_dir_prefix; rewrite E; [done|].
  set (prefix := if ends_with_slash _ then _ else _).
  pose proof (dir_scan_members es prefix [] tail (S (length data)) Hes eq_refl Hlen es_fuel) as Hd.
  cbn [app] in Hd. fold data in Hd. change (zlen []) with 0 in Hd. by rewrite Hd.
Qed.

Lemma open_dir_call path : call_ok (OpOpenDir path).
Proof using Hinv.
  do 3 eexists. split; [done|]. unfold open_dir.
  destruct (position _ _) as [i|] eqn:Hi; [|by apply vstep_ok_refl].
  apply vstep_ok_dirs; [done| |by apply length_insert]. apply dirs_ok_insert; [apply Hinv|by right].
Qed.

Lemma close_dir_call fd : call_ok (OpCloseDir fd).
Proof using Hinv.
  unfold call_ok, exec, close_dir. destruct (position _ _) as [i|];
    do 3 eexists; (split; [done|]); [|by apply vstep_ok_refl].
  apply vstep_ok_dirs; [done| |by apply length_insert]. apply dirs_ok_insert; [apply Hinv|by left].
Qed.

Lemma getdents_call fd buf count : call_ok (OpGetdents fd buf count).
Proof using Hes Hlen Hinv.
  unfold call_ok, exec, getdents64.
  destruct (position _ _) as [i|]; [|do 3 eexists; split; [done|by apply vstep_ok_refl]].
  destruct (DIR_SLOTS st !! i) as [s|] eqn:Hs; [|do 3 eexists; split; [done|by apply vstep_ok_refl]].
  destruct (d_done s); [do 3 eexists; split; [done|by apply vstep_ok_refl]|]. cbv zeta.
  set (prefix := if _ && _ then _ else _). unfold fill_dir_entries.
  pose proof (fill_members es prefix buf count [] tail (S (length data)) 0 [] m Hes eq_refl Hlen es_fuel) as Hfill.
  cbn [app] in Hfill. fold data in Hfill. change (zlen []) with 0 in Hfill. rewrite Hfill. cbn [obind].
  destruct (fill_names _ _ _ _ _ _ _) as [r m']. do 3 eexists. split; [done|].
  apply vstep_ok_dirs; [done| |by apply length_insert]. apply dirs_ok_insert; [apply Hinv|]. by apply (inv_dirs _ _ Hinv).
Qed.

Lemma vexec_inv o : op_ok o -> call_ok o.
Proof using Hes Hlen Hinv Hn.
  destruct o; cbn [op_ok]; intros Hok;
    auto using open_call, dup_call, read_call, lseek_call, close_call, is_dir_call, open_dir_call,
      close_dir_call, getdents_call. destruct Hok. by apply pread_call.
Qed.
End calls.

Lemma vrun_inv es tail ops : forall st m,
  let data := archive es tail in
  Forall member_ok es -> zlen data < 2 ^ 63 ->
  inv data st -> NEXT_VFS_FD st + Z.of_nat (length ops) < 2 ^ 31 -> Forall op_ok ops ->
  exists rs st' m', run data ops st m = Ret (rs, st', m') /\ inv data st'.
Proof.
  induction ops as [|o ops IH]; intros st m data Hes Hlen Hinv Hn Hok;
    subst data; simpl in Hn.
  { by exists [], st, m. }
  inversion Hok as [|? ? Ho Hok']; subst. cbn [run].
  destruct (vexec_inv es tail st m Hes Hlen Hinv ltac:(lia) o Ho) as (r & st' & m' & -> & Hst' & Hn'). cbn [obind].
  destruct (IH st' m' Hes Hlen Hst' ltac:(lia) Hok') as (rs & st'' & m'' & -> & Hst''). cbn [obind].
  by exists (r :: rs), st'', m''.
Qed.

Lemma boot_inv data : zlen data < 2 ^ 63 -> inv data boot_state.
Proof.
  intros Hlen. constructor; [split; [done|by apply Forall_replicate]|apply boot_dirs_ok|cbn; lia|constructor..].
Qed.

(** Every sequence of VFS calls from boot on a well-formed archive returns
    (no panic, no unbounded scan) and keeps the tables consistent: each open
    file's range lies in the archive and its position in the range, the file
    descriptors are distinct, and each directory descriptor matches its slot. *)
Theorem vfs_run_safe es tail ops m :
  Forall member_ok es -> zlen (archive es tail) < 2 ^ 63 ->
  Z.of_nat (length ops) < 2 ^ 31 - 1000 -> Forall op_ok ops ->
  exists rs st' m', run (archive es tail) ops boot_state m = Ret (rs, st', m') /\ inv (archive es tail) st'.
Proof.
  intros Hes Hlen Hn Hok. apply vrun_inv; auto using boot_inv. cbn. lia.
Qed.

Lemma vfs_run_safe_witness :
  exists rs st' m', run (archive demo_members [])
      [OpOpen (b "/lib/a.beam"); OpRead 1000 4096 2; OpDup 1000; OpLseek 1001 0 2; OpClose 1000;
       OpOpenDir (b "/lib"); OpGetdents 900 4096 512] boot_state (fun _ => 0) = Ret (rs, st', m') /\
    inv (archive demo_members []) st'.
Proof.
  apply (vfs_run_safe demo_members []); [exact demo_members_ok|vm_compute; reflexivity..|].
  repeat constructor; vm_compute; congruence.
Defined.
