(* ===== verification/Pipe.v ===== *)
(** * Pipes: [src/src/pipe.rs]

    Sixteen ring buffers of 4096 bytes with a read and a write descriptor each,
    numbered by a counter that starts at 200.  A slot is free when its read
    descriptor is -1.  A read of an empty blocking pipe calls the scheduler's
    [yield_current] and returns [EINTR]; the yield itself is the scheduler's. *)

From S2P Require Import Prelude.

Definition PIPE_BUF_SIZE : nat := 4096.
Definition MAX_PIPES : nat := 16.
Definition EINTR : Z := -4.
Definition EBADF : Z := -9.
Definition EAGAIN : Z := -11.

Record Pipe := mkPipe {
  p_buf : bytes;
  p_head : nat;
  p_tail : nat;
  p_read_fd : Z;
  p_write_fd : Z;
  p_nonblock : bool
}.

Definition empty : Pipe := mkPipe (replicate PIPE_BUF_SIZE 0) 0 0 (-1) (-1) false.

Definition is_empty (p : Pipe) : bool := (p_head p =? p_tail p)%nat.

Record state := mkState { PIPES : list Pipe; NEXT_PIPE_FD : Z }.

Definition boot_state : state := mkState (replicate MAX_PIPES empty) 200.

Definition with_pipes (st : state) (l : list Pipe) : state := mkState l (NEXT_PIPE_FD st).
Definition with_fds (p : Pipe) (r w : Z) : Pipe :=
  mkPipe (p_buf p) (p_head p) (p_tail p) r w (p_nonblock p).

Definition reads_fd (fd : Z) (p : Pipe) : bool := p_read_fd p =? fd.
Definition writes_fd (fd : Z) (p : Pipe) : bool := p_write_fd p =? fd.

(** [create]: two numbers from the counter, then the first free slot; the
    numbers are returned whether or not a slot was found. *)
Definition create (st : state) : (Z * Z) * state :=
  let read_fd := i32 (NEXT_PIPE_FD st) in
  let write_fd := i32 (u64 (NEXT_PIPE_FD st + 1)) in
  let next := u64 (u64 (NEXT_PIPE_FD st + 1) + 1) in
  match position (reads_fd (-1)) (PIPES st) with
  | Some i => ((read_fd, write_fd), mkState (<[i := with_fds empty read_fd write_fd]> (PIPES st)) next)
  | None => ((read_fd, write_fd), mkState (PIPES st) next)
  end.

(** The [for i in 0..count] loop of [write]. *)
Fixpoint write_loop (n : nat) (m : mem) (addr : Z) (p : Pipe) (written : Z) : Z * Pipe :=
  match n with
  | O => (written, p)
  | S n' =>
      let byte := m addr in
      let next_tail := ((p_tail p + 1) mod PIPE_BUF_SIZE)%nat in
      if (next_tail =? p_head p)%nat then (written, p)
      else
        let p := mkPipe (<[p_tail p := byte]> (p_buf p)) (p_head p) next_tail
                        (p_read_fd p) (p_write_fd p) (p_nonblock p) in
        write_loop n' m (addr + 1) p (written + 1)
  end.

Definition write (st : state) (m : mem) (fd data count : Z) : Z * state :=
  match position (writes_fd fd) (PIPES st) with
  | Some i =>
      match PIPES st !! i with
      | Some p =>
          let '(written, p) := write_loop (Z.to_nat count) m data p 0 in
          (written, with_pipes st (<[i := p]> (PIPES st)))
      | None => (EBADF, st)
      end
  | None => (EBADF, st)
  end.

(** The [while nread < count && head != tail] loop of [read]. *)
Fixpoint read_loop (n : nat) (m : mem) (buf : Z) (p : Pipe) (nread : Z) : Z * Pipe * mem :=
  match n with
  | O => (nread, p, m)
  | S n' =>
      if (p_head p =? p_tail p)%nat then (nread, p, m)
      else
        let byte := nth (p_head p) (p_buf p) 0 in
        let m := mem_write m (buf + nread) [byte] in
        let p := mkPipe (p_buf p) ((p_head p + 1) mod PIPE_BUF_SIZE)%nat (p_tail p)
                        (p_read_fd p) (p_write_fd p) (p_nonblock p) in
        read_loop n' m buf p (nread + 1)
  end.

Definition read (st : state) (m : mem) (fd buf count : Z) : Z * state * mem :=
  match position (reads_fd fd) (PIPES st) with
  | Some i =>
      match PIPES st !! i with
      | Some p =>
          if negb (is_empty p) then
            let '(nread, p, m) := read_loop (Z.to_nat count) m buf p 0 in
            (nread, with_pipes st (<[i := p]> (PIPES st)), m)
          else if p_write_fd p =? -1 then (0, st, m)
          else if p_nonblock p then (EAGAIN, st, m)
          else (EINTR, st, m)
      | None => (EBADF, st, m)
      end
  | None => (EBADF, st, m)
  end.

Definition either_fd (fd : Z) (p : Pipe) : bool := (p_read_fd p =? fd) || (p_write_fd p =? fd).

Definition set_nonblock (st : state) (fd : Z) (nonblock : bool) : state :=
  match position (either_fd fd) (PIPES st) with
  | Some i =>
      match PIPES st !! i with
      | Some p => with_pipes st (<[i := mkPipe (p_buf p) (p_head p) (p_tail p) (p_read_fd p)
                                               (p_write_fd p) nonblock]> (PIPES st))
      | None => st
      end
  | None => st
  end.

Definition is_pipe_fd (st : state) (fd : Z) : bool := existsb (either_fd fd) (PIPES st).

Definition any_has_data (st : state) : bool :=
  existsb (fun p => negb (p_read_fd p =? -1) && negb (is_empty p)) (PIPES st).

Definition has_data (st : state) (fd : Z) : bool :=
  existsb (fun p => (p_read_fd p =? fd) && negb (is_empty p)) (PIPES st).

(** [close] walks every slot: a read end is marked closed, and the slot is
    wiped when its write end is gone too. *)
Definition close_slot (fd : Z) (p : Pipe) : Pipe :=
  if p_read_fd p =? fd then
    let p := with_fds p (-1) (p_write_fd p) in
    if p_write_fd p =? -1 then empty else p
  else p.

Definition close (st : state) (fd : Z) : state :=
  with_pipes st (map (close_slot fd) (PIPES st)).
