(* ===== verification/PipeProofs.v ===== *)
(** * Pipes are FIFO queues

    The ring buffer refines an abstract queue of at most 4095 bytes; over any
    sequence of calls the bytes read from a pipe are, in order and without loss
    or duplication, the bytes accepted by its writes. *)

From S2P Require Import Prelude Pipe.

(** ** The abstract queue *)

Definition fill (p : Pipe) : nat :=
  ((p_tail p + PIPE_BUF_SIZE - p_head p) mod PIPE_BUF_SIZE)%nat.

Definition cell (p : Pipe) (i : nat) : Z :=
  nth ((p_head p + i) mod PIPE_BUF_SIZE)%nat (p_buf p) 0.

Definition contents (p : Pipe) : bytes := map (cell p) (seq 0 (fill p)).

Record pipe_ok (p : Pipe) : Prop := mkPipeOk {
  ok_len : length (p_buf p) = PIPE_BUF_SIZE;
  ok_head : (p_head p < PIPE_BUF_SIZE)%nat;
  ok_tail : (p_tail p < PIPE_BUF_SIZE)%nat
}.

(** The same descriptors and flags. *)
Definition same_ends (p q : Pipe) : Prop :=
  p_read_fd q = p_read_fd p /\ p_write_fd q = p_write_fd p /\ p_nonblock q = p_nonblock p.

Lemma size_big : (1 < PIPE_BUF_SIZE)%nat.
Proof. apply Nat.ltb_lt. vm_compute. reflexivity. Qed.

#[local] Opaque PIPE_BUF_SIZE.

(** An index below twice the size wraps at most once. *)
Lemma wrap_once x :
  (x < 2 * PIPE_BUF_SIZE)%nat ->
  ((x mod PIPE_BUF_SIZE)%nat = x /\ (x < PIPE_BUF_SIZE)%nat) \/
  ((x mod PIPE_BUF_SIZE)%nat = (x - PIPE_BUF_SIZE)%nat /\ (PIPE_BUF_SIZE <= x)%nat).
Proof.
  intros Hx. destruct (decide (x < PIPE_BUF_SIZE)%nat) as [H|H].
  - left. split; [by apply Nat.mod_small|done].
  - right. split; [|lia]. symmetry. apply (Nat.mod_unique x PIPE_BUF_SIZE 1); lia.
Qed.

Lemma fill_bound p : (fill p < PIPE_BUF_SIZE)%nat.
Proof. apply Nat.mod_upper_bound. pose proof size_big. lia. Qed.

Lemma contents_length p : length (contents p) = fill p.
Proof. unfold contents. by rewrite length_map, length_seq. Qed.

(** The write index is the cell after the last one filled. *)
Lemma tail_cell p :
  pipe_ok p -> ((p_head p + fill p) mod PIPE_BUF_SIZE)%nat = p_tail p.
Proof.
  intros [_ Hh Ht]. pose proof size_big. unfold fill.
  destruct (wrap_once (p_tail p + PIPE_BUF_SIZE - p_head p)) as [[-> ?]|[-> ?]]; [lia| |].
  - destruct (wrap_once (p_head p + (p_tail p + PIPE_BUF_SIZE - p_head p))) as [[-> ?]|[-> ?]]; lia.
  - destruct (wrap_once (p_head p + (p_tail p + PIPE_BUF_SIZE - p_head p - PIPE_BUF_SIZE))) as [[-> ?]|[-> ?]]; lia.
Qed.

Definition push (p : Pipe) (byte : Z) : Pipe :=
  mkPipe (<[p_tail p := byte]> (p_buf p)) (p_head p) ((p_tail p + 1) mod PIPE_BUF_SIZE)%nat
         (p_read_fd p) (p_write_fd p) (p_nonblock p).

Definition pop (p : Pipe) : Pipe :=
  mkPipe (p_buf p) ((p_head p + 1) mod PIPE_BUF_SIZE)%nat (p_tail p)
         (p_read_fd p) (p_write_fd p) (p_nonblock p).

(** The full test of [write] holds exactly at 4095 bytes. *)
Lemma full_test p :
  pipe_ok p -> ((p_tail p + 1) mod PIPE_BUF_SIZE =? p_head p)%nat = true <->
  fill p = (PIPE_BUF_SIZE - 1)%nat.
Proof.
  intros [_ Hh Ht]. pose proof size_big. rewrite Nat.eqb_eq. unfold fill.
  destruct (wrap_once (p_tail p + 1)) as [[-> ?]|[-> ?]]; [lia| |];
    destruct (wrap_once (p_tail p + PIPE_BUF_SIZE - p_head p)) as [[-> ?]|[-> ?]]; lia.
Qed.

Lemma fill_push p byte :
  pipe_ok p -> (fill p < PIPE_BUF_SIZE - 1)%nat -> fill (push p byte) = S (fill p).
Proof.
  intros [_ Hh Ht]. pose proof size_big. unfold fill, push. cbn [p_tail p_head].
  destruct (wrap_once (p_tail p + PIPE_BUF_SIZE - p_head p)) as [[-> ?]|[-> ?]]; [lia| |];
    (destruct (wrap_once (p_tail p + 1)) as [[-> ?]|[-> ?]]; [lia| |]); intros Hf.
  all: match goal with |- (?x mod _)%nat = _ => destruct (wrap_once x) as [[-> ?]|[-> ?]] end; lia.
Qed.

(** Filled cells are distinct from the write index. *)
Lemma cell_not_tail p i :
  pipe_ok p -> (i < fill p)%nat -> ((p_head p + i) mod PIPE_BUF_SIZE)%nat <> p_tail p.
Proof.
  intros Hok Hi Heq. pose proof (tail_cell p Hok) as Ht. pose proof (fill_bound p).
  destruct Hok as [_ Hh _]. pose proof size_big.
  destruct (wrap_once (p_head p + i)) as [[E1 ?]|[E1 ?]]; [lia| |];
    (destruct (wrap_once (p_head p + fill p)) as [[E2 ?]|[E2 ?]]; [lia| |]); lia.
Qed.

Lemma contents_push p byte :
  pipe_ok p -> (fill p < PIPE_BUF_SIZE - 1)%nat ->
  contents (push p byte) = contents p ++ [byte].
Proof.
  intros Hok Hf. unfold contents. rewrite fill_push by done. rewrite seq_S, map_app. simpl.
  f_equal.
  - apply map_ext_in. intros i Hi%in_seq. unfold cell, push. cbn [p_head p_buf].
    rewrite !nth_lookup, list_lookup_insert_ne; [done|].
    intros Heq. by apply (cell_not_tail p i Hok); [lia|].
  - f_equal. unfold cell, push. cbn [p_head p_buf]. rewrite tail_cell by done.
    rewrite nth_lookup, list_lookup_insert_eq; [done|]. destruct Hok. lia.
Qed.

Lemma push_ok p byte : pipe_ok p -> pipe_ok (push p byte) /\ same_ends p (push p byte).
Proof.
  intros [Hl Hh Ht]. pose proof size_big. split; [|done].
  constructor; cbn [push p_buf p_head p_tail]; [by rewrite length_insert|done|]. apply Nat.mod_upper_bound. lia.
Qed.

Lemma fill_pop p : pipe_ok p -> (0 < fill p)%nat -> fill p = S (fill (pop p)).
Proof.
  intros [_ Hh Ht]. pose proof size_big. unfold fill, pop. cbn [p_tail p_head].
  destruct (wrap_once (p_tail p + PIPE_BUF_SIZE - p_head p)) as [[-> ?]|[-> ?]]; [lia| |];
    (destruct (wrap_once (p_head p + 1)) as [[-> ?]|[-> ?]]; [lia| |]); intros Hf.
  all: match goal with |- _ = S (?x mod _)%nat => destruct (wrap_once x) as [[-> ?]|[-> ?]] end; lia.
Qed.

Lemma contents_pop p :
  pipe_ok p -> (0 < fill p)%nat ->
  contents p = nth (p_head p) (p_buf p) 0 :: contents (pop p).
Proof.
  intros Hok Hf. unfold contents at 1. rewrite (fill_pop p Hok Hf). cbn [seq map]. f_equal.
  - unfold cell. rewrite Nat.add_0_r, Nat.mod_small; [done|apply Hok].
  - unfold contents. rewrite <- seq_shift, map_map. apply map_ext. intros i.
    unfold cell, pop. cbn [p_head p_buf]. f_equal.
    rewrite Nat.Div0.add_mod_idemp_l. f_equal. lia.
Qed.

Lemma pop_ok p : pipe_ok p -> pipe_ok (pop p) /\ same_ends p (pop p).
Proof.
  intros [Hl Hh Ht]. pose proof size_big. split; [|done].
  constructor; cbn [pop p_buf p_head p_tail]; [done| |done]. apply Nat.mod_upper_bound. lia.
Qed.

Lemma fill_zero p : pipe_ok p -> fill p = 0%nat <-> p_head p = p_tail p.
Proof.
  intros [_ Hh Ht]. pose proof size_big. unfold fill.
  destruct (wrap_once (p_tail p + PIPE_BUF_SIZE - p_head p)) as [[-> ?]|[-> ?]]; lia.
Qed.

(** ** The loops *)

(** [write] accepts as much as fits and appends it to the queue. *)
Lemma write_loop_spec n : forall m addr p w,
  pipe_ok p ->
  let k := Nat.min n (PIPE_BUF_SIZE - 1 - fill p) in
  exists p', write_loop n m addr p w = (w + Z.of_nat k, p') /\
    pipe_ok p' /\ same_ends p p' /\ contents p' = contents p ++ mem_read m addr k.
Proof.
  induction n as [|n IH]; intros m addr p w Hok k.
  { exists p. subst k. cbn. rewrite Z.add_0_r, app_nil_r. done. }
  cbn [write_loop]. pose proof (full_test p Hok) as Hfull. pose proof (fill_bound p).
  destruct (_ =? p_head p)%nat eqn:E.
  - pose proof (proj1 Hfull eq_refl) as Hx. exists p. replace k with 0%nat by (subst k; lia).
    cbn. by rewrite Z.add_0_r, app_nil_r.
  - assert (Hnf : fill p <> (PIPE_BUF_SIZE - 1)%nat) by (intros Hx; apply Hfull in Hx; congruence).
    fold (push p (m addr)). destruct (push_ok p (m addr) Hok) as [Hok' Hse].
    destruct (IH m (addr + 1) (push p (m addr)) (w + 1) Hok') as (p' & -> & Hp' & Hse' & Hc).
    rewrite fill_push in * by (done || lia). rewrite contents_push in Hc by (done || lia).
    exists p'. subst k. replace (Nat.min (S n) _) with (S (Nat.min n (PIPE_BUF_SIZE - 1 - S (fill p)))) by lia.
    split; [f_equal; lia|]. split; [done|]. split; [unfold same_ends in *; naive_solver|].
    rewrite Hc, <- app_assoc. done.
Qed.

(** [read] delivers the front of the queue. *)
Lemma read_loop_spec n : forall m buf p r,
  pipe_ok p ->
  let k := Nat.min n (fill p) in
  exists p' m', read_loop n m buf p r = (r + Z.of_nat k, p', m') /\
    pipe_ok p' /\ same_ends p p' /\ contents p = take k (contents p) ++ contents p' /\
    forall a, m' a = mem_write m (buf + r) (take k (contents p)) a.
Proof.
  induction n as [|n IH]; intros m buf p r Hok k.
  { exists p, m. subst k. cbn. rewrite Z.add_0_r. split_and!; try done. intros a. symmetry. apply mem_write_outside. unfold zlen. rewrite take_0. cbn. lia. }
  cbn [read_loop]. pose proof (fill_zero p Hok) as Hz.
  destruct (p_head p =? p_tail p)%nat eqn:E.
  - apply Nat.eqb_eq in E. apply Hz in E. exists p, m. replace k with 0%nat by (subst k; lia).
    cbn. rewrite Z.add_0_r. split_and!; try done. intros a. symmetry. apply mem_write_outside. unfold zlen. rewrite take_0. cbn. lia.
  - apply Nat.eqb_neq in E. assert (Hf : (0 < fill p)%nat) by (destruct (fill p); naive_solver lia).
    fold (pop p). destruct (pop_ok p Hok) as [Hok' Hse]. set (m1 := mem_write _ _ _).
    destruct (IH m1 buf (pop p) (r + 1) Hok') as (p' & m' & -> & Hp' & Hse' & Hc & Hm).
    pose proof (fill_pop p Hok Hf) as Hfp. pose proof (contents_pop p Hok Hf) as Hcp.
    exists p', m'. subst k. rewrite Hfp. cbn [Nat.min].
    set (k := Nat.min n (fill (pop p))) in *.
    split; [f_equal; f_equal; lia|]. split; [done|]. split; [unfold same_ends in *; naive_solver|].
    rewrite Hcp. cbn [take app]. split; [f_equal; exact Hc|]. intros a. rewrite Hm. unfold m1.
    rewrite (mem_write_app m (buf + r) [_] _ a : mem_write m (buf + r) (_ :: _) a = _). change (zlen [_]) with 1. by rewrite Z.add_assoc.
Qed.

Lemma read_loop_reads n m buf p p' m' k :
  read_loop n m buf p 0 = (k, p', m') -> pipe_ok p -> mem_read m' buf (Nat.min n (fill p)) = take (Nat.min n (fill p)) (contents p).
Proof.
  intros E Hok. destruct (read_loop_spec n m buf p 0 Hok) as (p1 & m1 & E1 & _ & _ & _ & Hm). rewrite E in E1. injection E1 as _ <- <-.
  rewrite Z.add_0_r in Hm. set (k0 := Nat.min n (fill p)) in *.
  assert (Hl : length (take k0 (contents p)) = k0) by (rewrite length_take, contents_length; lia).
  rewrite (mem_read_ext m' (mem_write m buf (take k0 (contents p)))) by (intros; apply Hm).
  pose proof (mem_read_write_same m buf (take k0 (contents p))) as Hr. by rewrite Hl in Hr.
Qed.

(** ** The table *)

Definition live (fd : Z) : list Z := if fd =? -1 then [] else [fd].
Definition ends (p : Pipe) : list Z := live (p_read_fd p) ++ live (p_write_fd p).
Definition all_ends (l : list Pipe) : list Z := concat (map ends l).

Record table_ok (st : state) : Prop := mkTableOk {
  tbl_pipes : Forall pipe_ok (PIPES st);
  tbl_next : 200 <= NEXT_PIPE_FD st;
  tbl_range : Forall (fun fd => 200 <= fd < NEXT_PIPE_FD st) (all_ends (PIPES st));
  tbl_nodup : NoDup (all_ends (PIPES st))
}.

Lemma all_ends_split l1 p l2 : all_ends (l1 ++ p :: l2) = all_ends l1 ++ ends p ++ all_ends l2.
Proof. unfold all_ends. rewrite map_app, concat_app. done. Qed.

Lemma all_ends_insert l i p q :
  l !! i = Some p ->
  exists l1 l2, all_ends l = l1 ++ ends p ++ l2 /\ all_ends (<[i := q]> l) = l1 ++ ends q ++ l2.
Proof.
  intros (l1 & l2 & -> & ->)%list_elem_of_split_length.
  rewrite insert_app_r_alt, Nat.sub_diag by lia. simpl. rewrite !all_ends_split. eauto.
Qed.

Lemma same_ends_ends p q : same_ends p q -> ends q = ends p.
Proof. intros (Hr & Hw & _). unfold ends. by rewrite Hr, Hw. Qed.

(** Replacing a pipe by one with the same ends. *)
Lemma table_ok_update st i p q :
  table_ok st -> PIPES st !! i = Some p -> pipe_ok q -> ends q = ends p ->
  table_ok (with_pipes st (<[i := q]> (PIPES st))).
Proof.
  intros [Hp Hn Hr Hnd] Hi Hq He.
  destruct (all_ends_insert _ _ _ q Hi) as (l1 & l2 & E1 & E2). rewrite He, <- E1 in E2.
  constructor; cbn [PIPES with_pipes NEXT_PIPE_FD]; rewrite ?E2; auto. by apply Forall_insert.
Qed.

Lemma empty_ok : pipe_ok empty.
Proof.
  pose proof size_big. constructor; cbn [empty p_buf p_head p_tail]; [apply length_replicate|lia..].
Qed.

Lemma table_ok_create st :
  table_ok st -> NEXT_PIPE_FD st < 2 ^ 31 - 2 -> table_ok (create st).2.
Proof.
  intros [Hp Hn Hr Hnd] Hlt. unfold create. set (n := NEXT_PIPE_FD st) in *.
  rewrite (u64_small (n + 1)), (u64_small (n + 1 + 1)), !i32_small by lia.
  assert (Hr' : Forall (fun fd => 200 <= fd < n + 1 + 1) (all_ends (PIPES st))).
  { apply (Forall_impl _ _ _ Hr). intros fd Hfd. lia. }
  destruct (position _ _) as [i|] eqn:Hi; cbn [snd].
  2: { constructor; cbn [PIPES NEXT_PIPE_FD]; auto. lia. }
  pose proof Hi as (p & Hpi & Hfd & _)%position_Some. unfold reads_fd in Hfd. bool_to_prop.
  set (q := with_fds empty n (n + 1)).
  destruct (all_ends_insert _ _ _ q Hpi) as (l1 & l2 & E1 & E2).
  assert (Hq : ends q = [n; n + 1]).
  { unfold ends, live, q. cbn [p_read_fd p_write_fd with_fds].
    do 2 rewrite (proj2 (Z.eqb_neq _ (-1))) by lia. done. }
  rewrite Hq in E2.
  assert (Hsub : l1 ++ l2 `sublist_of` all_ends (PIPES st)).
  { rewrite E1. apply sublist_app; [done|]. by apply sublist_inserts_l. }
  assert (Hperm : l1 ++ [n; n + 1] ++ l2 ≡ₚ [n; n + 1] ++ l1 ++ l2).
  { rewrite !app_assoc. by rewrite (Permutation_app_comm l1 [n; n + 1]). }
  constructor; cbn [PIPES NEXT_PIPE_FD].
  - apply Forall_insert; [done|]. pose proof empty_ok as []. by constructor.
  - lia.
  - rewrite E2, Hperm. apply Forall_app. split; [repeat (apply Forall_cons; split; [lia|]); constructor|].
    rewrite Forall_forall in *. eauto using elem_of_sublist.
  - rewrite E2, Hperm. pose proof (sublist_NoDup _ _ Hnd Hsub) as Hnd'.
    rewrite Forall_forall in Hr. apply NoDup_app. split; [|split; [|done]].
    + apply NoDup_cons. rewrite list_elem_of_singleton. split; [lia|apply NoDup_singleton].
    + intros fd Hfd' Hin. apply (elem_of_sublist _ _ _ Hin) in Hsub. specialize (Hr _ Hsub).
      rewrite !elem_of_cons, elem_of_nil in Hfd'. lia.
Qed.

Lemma close_slot_ok fd p : pipe_ok p -> pipe_ok (close_slot fd p) /\ ends (close_slot fd p) `sublist_of` ends p.
Proof.
  intros Hok. unfold close_slot. destruct (p_read_fd p =? fd) eqn:E; [|done].
  destruct (p_write_fd (with_fds p (-1) (p_write_fd p)) =? -1) eqn:Ew.
  - split; [apply empty_ok|]. apply sublist_nil_l.
  - split; [by destruct Hok|]. unfold ends. cbn [p_read_fd p_write_fd with_fds]. by apply sublist_inserts_l.
Qed.

Lemma table_ok_close st fd : table_ok st -> table_ok (close st fd).
Proof.
  intros [Hp Hn Hr Hnd]. unfold close.
  assert (Hsub : all_ends (map (close_slot fd) (PIPES st)) `sublist_of` all_ends (PIPES st)).
  { clear -Hp. induction Hp as [|p l Hok _ IH]; [done|]. unfold all_ends. cbn [map concat].
    apply sublist_app; [by apply close_slot_ok|exact IH]. }
  constructor; cbn [PIPES with_pipes NEXT_PIPE_FD]; auto.
  - apply Forall_map. apply (Forall_impl _ _ _ Hp). intros p Hok. by apply close_slot_ok.
  - rewrite Forall_forall in *. eauto using elem_of_sublist.
  - by eapply sublist_NoDup.
Qed.

(** In a consistent table a descriptor belongs to one slot. *)
Lemma ends_unique l i j p q fd :
  NoDup (all_ends l) -> l !! i = Some p -> l !! j = Some q -> fd ∈ ends p -> fd ∈ ends q -> i = j.
Proof.
  revert i j; induction l as [|x l IH]; intros i j Hnd Hi Hj Hp Hq; [done|].
  assert (Hrest : forall k y, l !! k = Some y -> fd ∈ ends y -> fd ∈ all_ends l).
  { intros k y Hk Hy. apply list_elem_of_split_length in Hk as (l1 & l2 & -> & _).
    rewrite all_ends_split, !elem_of_app. auto. }
  change (all_ends (x :: l)) with (ends x ++ all_ends l) in Hnd.
  apply NoDup_app in Hnd as (_ & Hdis & Hnd).
  destruct i as [|i], j as [|j]; simpl in *; simplify_eq; auto.
  - exfalso. eapply Hdis; eauto.
  - exfalso. eapply Hdis; eauto.
Qed.

Lemma read_in_ends p : p_read_fd p <> -1 -> p_read_fd p ∈ ends p.
Proof.
  intros H. unfold ends, live. apply elem_of_app. left. apply Z.eqb_neq in H as ->. left.
Qed.

Lemma write_in_ends p : p_write_fd p <> -1 -> p_write_fd p ∈ ends p.
Proof.
  intros H. unfold ends, live. apply elem_of_app. right. apply Z.eqb_neq in H as ->. left.
Qed.

(** The slot of a live channel. *)
Record chan (st : state) (i : nat) (r w : Z) (p : Pipe) : Prop := mkChan {
  ch_slot : PIPES st !! i = Some p;
  ch_read : p_read_fd p = r;
  ch_write : p_write_fd p = w;
  ch_r : r <> -1;
  ch_w : w <> -1
}.

Lemma position_unique {A} (f : A -> bool) l i x :
  l !! i = Some x -> f x = true -> (forall j y, l !! j = Some y -> f y = true -> j = i) ->
  position f l = Some i.
Proof.
  intros Hi Hx Hu. destruct (position f l) as [j|] eqn:E.
  - apply position_Some in E as (y & Hy & Hf & _). by rewrite (Hu j y).
  - apply position_None in E. rewrite Forall_lookup in E. specialize (E _ _ Hi). congruence.
Qed.

Lemma chan_position_write st i r w p :
  table_ok st -> chan st i r w p -> position (writes_fd w) (PIPES st) = Some i.
Proof.
  intros Ht [Hs Hr Hw Hr1 Hw1]. apply (position_unique _ _ i p); [done|unfold writes_fd; lia|].
  intros j q Hj Hq. unfold writes_fd in Hq. bool_to_prop.
  apply (ends_unique _ _ _ q p w (tbl_nodup _ Ht) Hj Hs); [rewrite <- Hq|rewrite <- Hw];
    apply write_in_ends; congruence.
Qed.

Lemma chan_position_read st i r w p :
  table_ok st -> chan st i r w p -> position (reads_fd r) (PIPES st) = Some i.
Proof.
  intros Ht [Hs Hr Hw Hr1 Hw1]. apply (position_unique _ _ i p); [done|unfold reads_fd; lia|].
  intros j q Hj Hq. unfold reads_fd in Hq. bool_to_prop.
  apply (ends_unique _ _ _ q p r (tbl_nodup _ Ht) Hj Hs); [rewrite <- Hq|rewrite <- Hr];
    apply read_in_ends; congruence.
Qed.

(** ** Sequences of calls *)

Inductive op :=
| OpCreate
| OpWrite (fd buf count : Z)
| OpRead (fd buf count : Z)
| OpNonblock (fd : Z) (nb : bool)
| OpClose (fd : Z).

Definition exec (o : op) (st : state) (m : mem) : Z * state * mem :=
  match o with
  | OpCreate => let '((r, _), st) := create st in (r, st, m)
  | OpWrite fd buf count => let '(n, st) := write st m fd buf count in (n, st, m)
  | OpRead fd buf count => read st m fd buf count
  | OpNonblock fd nb => (0, set_nonblock st fd nb, m)
  | OpClose fd => (0, close st fd, m)
  end.

(** A call, with the memory before it, its answer and the memory after it. *)
Record event := mkEvent { e_op : op; e_before : mem; e_answer : Z; e_after : mem }.

Fixpoint run (ops : list op) (st : state) (m : mem) : list event * state :=
  match ops with
  | [] => ([], st)
  | o :: ops' =>
      let '(n, st1, m1) := exec o st m in
      let '(evs, st2) := run ops' st1 m1 in
      (mkEvent o m n m1 :: evs, st2)
  end.

(** ** The abstract pipe *)

Record queue := mkQueue { q_bytes : bytes; q_nonblock : bool }.

(** What a call does on the queue with the ends [r] and [w], and what it answers: a
    write accepts what fits in 4095 bytes; a read of a queue with bytes delivers as
    many as were asked for and are there, to where the caller said, and a read of an
    empty one fails and writes nothing; calls on other numbers do not matter. *)
Definition answers (r w : Z) (e : event) (q q' : queue) : Prop :=
  match e_op e with
  | OpWrite fd buf count =>
      if fd =? w then
        e_answer e = Z.min count (4095 - zlen (q_bytes q)) /\
        q' = mkQueue (q_bytes q ++ mem_read (e_before e) buf (Z.to_nat (e_answer e))) (q_nonblock q)
      else q' = q
  | OpRead fd buf count =>
      if fd =? r then
        match q_bytes q with
        | [] => e_answer e = (if q_nonblock q then EAGAIN else EINTR) /\ e_after e = e_before e /\ q' = q
        | _ =>
            let n := Z.min count (zlen (q_bytes q)) in
            e_answer e = n /\ (forall a, e_after e a = mem_write (e_before e) buf (take (Z.to_nat n) (q_bytes q)) a) /\
            q' = mkQueue (drop (Z.to_nat n) (q_bytes q)) (q_nonblock q)
        end
      else q' = q
  | OpNonblock fd nb => q' = mkQueue (q_bytes q) (if (fd =? r) || (fd =? w) then nb else q_nonblock q)
  | OpCreate | OpClose _ => q' = q
  end.

Fixpoint behaves (r w : Z) (evs : list event) (q q' : queue) : Prop :=
  match evs with
  | [] => q' = q
  | e :: evs' => exists q1, answers r w e q q1 /\ behaves r w evs' q1 q'
  end.

(** The queue a slot holds. *)
Definition held (p : Pipe) : queue := mkQueue (contents p) (p_nonblock p).

Lemma write_effect st m fd buf count :
  table_ok st -> 0 <= count ->
  let '(n, st') := write st m fd buf count in
  table_ok st' /\ NEXT_PIPE_FD st' = NEXT_PIPE_FD st /\
  ((n = EBADF /\ st' = st) \/
   exists i p p', position (writes_fd fd) (PIPES st) = Some i /\ PIPES st !! i = Some p /\
     PIPES st' = <[i := p']> (PIPES st) /\ same_ends p p' /\ pipe_ok p' /\
     n = Z.min count (Z.of_nat (PIPE_BUF_SIZE - 1 - fill p)) /\
     contents p' = contents p ++ mem_read m buf (Z.to_nat n)).
Proof.
  intros Ht Hc. unfold write. destruct (position _ _) as [i|] eqn:Hi; [|split; [done|]; split; [done|]; left; split; [unfold EBADF; lia|done]].
  destruct (PIPES st !! i) as [p|] eqn:Hp; [|split; [done|]; split; [done|]; left; split; [unfold EBADF; lia|done]].
  pose proof (Forall_lookup_1 _ _ _ _ (tbl_pipes _ Ht) Hp) as Hok.
  destruct (write_loop_spec (Z.to_nat count) m buf p 0 Hok) as (p' & -> & Hok' & Hse & Hcon).
  split; [by eapply table_ok_update; eauto using same_ends_ends|]. split; [done|]. right.
  exists i, p, p'. repeat (split; [done|]). split; [lia|]. rewrite Hcon. do 2 f_equal. lia.
Qed.

Lemma read_effect st m fd buf count :
  table_ok st -> 0 <= count ->
  let '(n, st', m') := read st m fd buf count in
  table_ok st' /\ NEXT_PIPE_FD st' = NEXT_PIPE_FD st /\
  ((n <= 0 /\ st' = st) \/
   exists i p p', position (reads_fd fd) (PIPES st) = Some i /\ PIPES st !! i = Some p /\
     PIPES st' = <[i := p']> (PIPES st) /\ same_ends p p' /\ pipe_ok p' /\
     n = Z.min count (Z.of_nat (fill p)) /\
     contents p = mem_read m' buf (Z.to_nat n) ++ contents p').
Proof.
  intros Ht Hc. unfold read. destruct (position _ _) as [i|] eqn:Hi; [|split; [done|]; split; [done|]; left; split; [unfold EBADF; lia|done]].
  destruct (PIPES st !! i) as [p|] eqn:Hp; [|split; [done|]; split; [done|]; left; split; [unfold EBADF; lia|done]].
  pose proof (Forall_lookup_1 _ _ _ _ (tbl_pipes _ Ht) Hp) as Hok.
  destruct (is_empty p); cbn [negb].
  { destruct (p_write_fd p =? -1); [|destruct (p_nonblock p)]; (split; [done|]); (split; [done|]); left;
      (split; [unfold EAGAIN, EINTR; lia|done]). }
  destruct (read_loop_spec (Z.to_nat count) m buf p 0 Hok) as (p' & m' & El & Hok' & Hse & Hcon & _).
  pose proof (read_loop_reads _ _ _ _ _ _ _ El Hok) as Hm. rewrite El.
  split; [by eapply table_ok_update; eauto using same_ends_ends|]. split; [done|]. right.
  exists i, p, p'. repeat (split; [done|]). split; [lia|].
  replace (Z.to_nat (0 + _)) with (Nat.min (Z.to_nat count) (fill p)) by lia. by rewrite Hm.
Qed.

Lemma nonblock_effect st fd nb :
  table_ok st ->
  let st' := set_nonblock st fd nb in
  table_ok st' /\ NEXT_PIPE_FD st' = NEXT_PIPE_FD st /\
  forall j p, PIPES st !! j = Some p -> exists p', PIPES st' !! j = Some p' /\
    contents p' = contents p /\ p_read_fd p' = p_read_fd p /\ p_write_fd p' = p_write_fd p /\
    p_nonblock p' = (if bool_decide (position (either_fd fd) (PIPES st) = Some j) then nb else p_nonblock p).
Proof.
  intros Ht st'. subst st'. unfold set_nonblock. destruct (position _ _) as [i|] eqn:Hi; [|split; [done|]; split; [done|]; intros j q Hq; by exists q].
  pose proof Hi as (p & Hp & _)%position_Some. rewrite Hp.
  pose proof (Forall_lookup_1 _ _ _ _ (tbl_pipes _ Ht) Hp) as Hok.
  set (q := mkPipe _ _ _ _ _ _). split; [|split; [done|]].
  - eapply table_ok_update; eauto; by destruct Hok.
  - intros j x Hx. cbn [PIPES with_pipes]. destruct (decide (i = j)) as [<-|Hne].
    + exists q. rewrite list_lookup_insert_eq by (by eapply lookup_lt_Some). simplify_eq. by rewrite bool_decide_eq_true_2.
    + exists x. rewrite list_lookup_insert_ne by done. by rewrite bool_decide_eq_false_2 by congruence.
Qed.

Lemma chan_position_either st i r w p fd :
  table_ok st -> chan st i r w p -> bool_decide (position (either_fd fd) (PIPES st) = Some i) = (fd =? r) || (fd =? w).
Proof.
  intros Ht [Hs Hr Hw Hr1 Hw1]. destruct ((fd =? r) || (fd =? w)) eqn:E.
  - assert (Hfd : fd <> -1) by (apply orb_true_iff in E as [E|E]; bool_to_prop; congruence).
    assert (Hin : forall q, either_fd fd q = true -> fd ∈ ends q).
    { intros q Hq. unfold either_fd in Hq. apply orb_true_iff in Hq as [Hq|Hq]; bool_to_prop; rewrite <- Hq; [apply read_in_ends|apply write_in_ends]; congruence. }
    assert (Hx : either_fd fd p = true) by (unfold either_fd; rewrite Hr, Hw, (Z.eqb_sym r), (Z.eqb_sym w); exact E).
    apply bool_decide_eq_true_2, (position_unique _ _ i p); [done|done|]. intros j q Hj Hq.
    exact (ends_unique _ _ _ q p fd (tbl_nodup _ Ht) Hj Hs (Hin _ Hq) (Hin _ Hx)).
  - apply bool_decide_eq_false_2. intros (q & Hq & Hf & _)%position_Some. rewrite Hs in Hq. injection Hq as <-. unfold either_fd in Hf.
    rewrite Hr, Hw, (Z.eqb_sym r), (Z.eqb_sym w) in Hf. congruence.
Qed.

(** A call on another slot leaves the channel alone. *)
Lemma chan_other st st' i j r w p q :
  chan st i r w p -> PIPES st' = <[j := q]> (PIPES st) -> j <> i -> chan st' i r w p.
Proof. intros [] HP Hne. constructor; auto. by rewrite HP, list_lookup_insert_ne. Qed.

Lemma chan_update st st' i r w p q :
  chan st i r w p -> PIPES st' = <[i := q]> (PIPES st) -> same_ends p q -> chan st' i r w q.
Proof.
  intros [Hs] HP (Hr & Hw & _). constructor; try congruence.
  rewrite HP. apply list_lookup_insert_eq. by eapply lookup_lt_Some.
Qed.

Section one_call.
Context (st : state) (m : mem) (i : nat) (r w : Z) (p : Pipe).
Hypothesis Ht : table_ok st.
Hypothesis Hch : chan st i r w p.

Lemma create_chan :
  NEXT_PIPE_FD st < 2 ^ 31 - 2 ->
  NEXT_PIPE_FD (create st).2 <= NEXT_PIPE_FD st + 2 /\ chan (create st).2 i r w p.
Proof using Ht Hch.
  intros Hn. pose proof (tbl_next _ Ht). unfold create.
  rewrite (u64_small (_ + 1)), (u64_small (_ + 1 + 1)) by lia.
  destruct (position _ _) as [j|] eqn:Hj; cbn [snd]; (split; [cbn; lia|]).
  - eapply chan_other; [exact Hch|done|]. intros ->. destruct Hch.
    apply position_Some in Hj as (q & Hq & Hf & _). unfold reads_fd in Hf. bool_to_prop. congruence.
  - by destruct Hch; constructor.
Qed.

Lemma size_4096 : PIPE_BUF_SIZE = 4096%nat.
Proof. by vm_compute. Qed.

Lemma chan_ok : pipe_ok p.
Proof using Ht Hch. exact (Forall_lookup_1 _ _ _ _ (tbl_pipes _ Ht) (ch_slot _ _ _ _ _ Hch)). Qed.

Lemma write_chan fd buf count :
  0 <= count ->
  let '(n, st') := write st m fd buf count in
  exists p', chan st' i r w p' /\ answers r w (mkEvent (OpWrite fd buf count) m n m) (held p) (held p').
Proof using Ht Hch.
  intros Hc. pose proof (write_effect st m fd buf count Ht Hc) as He.
  destruct (write st m fd buf count) as [n st'] eqn:Ew. destruct He as (_ & _ & He). unfold answers. cbn [e_op e_answer e_before].
  destruct (fd =? w) eqn:E; bool_to_prop.
  - subst fd. pose proof (chan_position_write _ _ _ _ _ Ht Hch) as Hpos. rewrite Hpos in He.
    destruct He as [[Hneg ->]|(j & q & q' & [= <-] & Hq & HP & Hse & _ & Hn & Hcon)].
    + exfalso. unfold write in Ew. rewrite Hpos, (ch_slot _ _ _ _ _ Hch) in Ew. pose proof (write_loop_spec (Z.to_nat count) m buf p 0 chan_ok) as (p' & El & _).
      rewrite El in Ew. injection Ew as Ew _. unfold EBADF in Hneg. lia.
    + assert (q = p) as -> by (destruct Hch; congruence). exists q'. split; [by eapply chan_update|]. unfold held. cbn [q_bytes q_nonblock].
      rewrite Hcon. destruct Hse as (_ & _ & ->). split; [|done]. rewrite Hn. unfold zlen. rewrite contents_length, size_4096. pose proof (fill_bound p). rewrite size_4096 in *. lia.
  - exists p. split; [|done].
    destruct He as [[_ ->]|(j & q & q' & Hj & Hq & HP & _)]; [done|].
    eapply chan_other; [exact Hch|exact HP|]. intros ->. destruct Hch.
    apply position_Some in Hj as (x & Hx & Hf & _). unfold writes_fd in Hf. bool_to_prop. congruence.
Qed.

(** A read of the channel itself. *)
Lemma read_self buf count :
  0 <= count ->
  let '(n, st', m') := read st m r buf count in
  exists p', chan st' i r w p' /\ answers r w (mkEvent (OpRead r buf count) m n m') (held p) (held p').
Proof using Ht Hch.
  intros Hc. unfold read. rewrite (chan_position_read _ _ _ _ _ Ht Hch), (ch_slot _ _ _ _ _ Hch). unfold answers. cbn [e_op].
  rewrite Z.eqb_refl. cbn [held q_bytes q_nonblock]. pose proof (fill_zero p chan_ok) as Hz. pose proof (contents_length p) as Hl.
  destruct (is_empty p) eqn:Ee; unfold is_empty in Ee; cbn [negb].
  - apply Nat.eqb_eq, Hz in Ee. rewrite Ee in Hl. apply nil_length_inv in Hl. rewrite Hl.
    assert (p_write_fd p =? -1 = false) as -> by (apply Z.eqb_neq; destruct Hch; congruence).
    destruct (p_nonblock p) eqn:Enb; exists p; unfold held; by rewrite Hl, Enb.
  - apply Nat.eqb_neq in Ee. destruct (contents p) as [|x l] eqn:Ec; [cbn in Hl; exfalso; apply Ee, Hz; lia|]. rewrite <- Ec in *.
    destruct (read_loop_spec (Z.to_nat count) m buf p 0 chan_ok) as (p' & m' & -> & _ & Hse & Hcon & Hm). rewrite Z.add_0_r in Hm.
    exists p'. split; [by eapply chan_update|].
    replace (Z.to_nat (Z.min count (zlen (contents p)))) with (Nat.min (Z.to_nat count) (fill p)) by (unfold zlen; lia).
    split; [cbn [e_answer]; unfold zlen; lia|]. split; [exact Hm|]. unfold held. destruct Hse as (_ & _ & ->). f_equal.
    set (k := Nat.min (Z.to_nat count) (fill p)) in *. transitivity (drop k (take k (contents p) ++ contents p')); [|by rewrite <- Hcon].
    rewrite drop_app_length'; [done|]. rewrite length_take. lia.
Qed.

Lemma read_chan fd buf count :
  0 <= count ->
  let '(n, st', m') := read st m fd buf count in
  exists p', chan st' i r w p' /\ answers r w (mkEvent (OpRead fd buf count) m n m') (held p) (held p').
Proof using Ht Hch.
  intros Hc. destruct (Z.eqb_spec fd r) as [->|Hne]; [by apply read_self|].
  pose proof (read_effect st m fd buf count Ht Hc) as He.
  destruct (read st m fd buf count) as [[n st'] m']. destruct He as (_ & _ & He). unfold answers. cbn [e_op].
  rewrite (proj2 (Z.eqb_neq _ _) Hne). exists p. split; [|done].
  destruct He as [[_ ->]|(j & q & q' & Hj & Hq & HP & _)]; [done|].
  eapply chan_other; [exact Hch|exact HP|]. intros ->. destruct Hch.
  apply position_Some in Hj as (x & Hx & Hf & _). unfold reads_fd in Hf. bool_to_prop. congruence.
Qed.

Lemma close_chan fd : fd <> r -> chan (close st fd) i r w p.
Proof using Hch.
  intros Hne. destruct Hch as [Hs Hr Hw]. constructor; auto. unfold close. cbn [PIPES with_pipes].
  change (map ?f ?l) with (f <$> l). rewrite list_lookup_fmap, Hs. simpl. unfold close_slot.
  destruct (p_read_fd p =? fd) eqn:E; [|done]. bool_to_prop. congruence.
Qed.
End one_call.

Definition args_ok (o : op) : Prop :=
  match o with OpWrite _ _ c | OpRead _ _ c => 0 <= c | _ => True end.

(** One call: the table stays consistent, and the call is one of the channel's queue. *)
Lemma exec_chan o st m i r w p :
  table_ok st -> NEXT_PIPE_FD st < 2 ^ 31 - 2 -> chan st i r w p -> o <> OpClose r -> args_ok o ->
  let '(n, st', m') := exec o st m in
  table_ok st' /\ NEXT_PIPE_FD st' <= NEXT_PIPE_FD st + 2 /\
  exists p', chan st' i r w p' /\ answers r w (mkEvent o m n m') (held p) (held p').
Proof.
  intros Ht Hn Hch Hnc Harg. destruct o as [|fd buf count|fd buf count|fd nb|fd]; cbn [exec].
  - pose proof (table_ok_create st Ht Hn) as Hok'. destruct (create_chan st i r w p Ht Hch Hn) as [Hn' Hc].
    destruct (create st) as [[rf wf] st']. split; [done|]. split; [done|]. by exists p.
  - pose proof (write_effect st m fd buf count Ht Harg) as He.
    pose proof (write_chan st m i r w p Ht Hch fd buf count Harg) as Hw.
    destruct (write st m fd buf count) as [n st']. destruct He as (? & ? & _). split; [done|]. split; [lia|done].
  - pose proof (read_effect st m fd buf count Ht Harg) as He.
    pose proof (read_chan st m i r w p Ht Hch fd buf count Harg) as Hw.
    destruct (read st m fd buf count) as [[n st'] m']. destruct He as (? & ? & _). split; [done|]. split; [lia|done].
  - destruct (nonblock_effect st fd nb Ht) as (Ht' & Hn' & Hsl). split; [done|]. split; [lia|].
    destruct (Hsl i p (ch_slot _ _ _ _ _ Hch)) as (p' & Hp' & Hc & Hr' & Hw' & Hnb). exists p'.
    rewrite (chan_position_either _ _ _ _ _ fd Ht Hch) in Hnb.
    split; [destruct Hch; constructor; congruence|]. unfold answers, held. cbn [e_op q_bytes q_nonblock]. by rewrite Hc, Hnb.
  - split; [by apply table_ok_close|]. split; [cbn; lia|]. exists p. split; [|done].
    apply close_chan; [done|congruence].
Qed.

Lemma run_chan ops : forall st m i r w p,
  table_ok st -> NEXT_PIPE_FD st + 2 * Z.of_nat (length ops) < 2 ^ 31 - 2 -> chan st i r w p ->
  Forall (fun o => o <> OpClose r /\ args_ok o) ops ->
  let '(evs, st') := run ops st m in
  table_ok st' /\ exists p', chan st' i r w p' /\ behaves r w evs (held p) (held p').
Proof.
  induction ops as [|o ops IH]; intros st m i r w p Ht Hn Hch Hok; cbn [run].
  { split; [done|]. by exists p. }
  inversion Hok as [|? ? [Hnc Harg] Hok']; subst. simpl in Hn.
  pose proof (exec_chan o st m i r w p Ht ltac:(lia) Hch Hnc Harg) as He.
  destruct (exec o st m) as [[n st1] m1]. destruct He as (Ht1 & Hn1 & p1 & Hch1 & Heq1).
  specialize (IH st1 m1 i r w p1 Ht1 ltac:(lia) Hch1 Hok').
  destruct (run ops st1 m1) as [evs st2]. destruct IH as (Ht2 & p2 & Hch2 & Heq2).
  split; [done|]. exists p2. split; [done|]. by exists (held p1).
Qed.

(** A freshly created channel is empty. *)
Lemma create_fresh st :
  table_ok st -> NEXT_PIPE_FD st < 2 ^ 31 - 2 -> is_Some (position (reads_fd (-1)) (PIPES st)) ->
  let '((r, w), st') := create st in
  exists i p, chan st' i r w p /\ held p = mkQueue [] false.
Proof.
  intros Ht Hn [i Hi]. pose proof (tbl_next _ Ht). unfold create. rewrite Hi.
  rewrite (u64_small (_ + 1)), (u64_small (_ + 1 + 1)), !i32_small by lia.
  eexists i, _. split; [constructor|].
  - cbn [PIPES]. apply list_lookup_insert_eq.
    apply position_Some in Hi as (p & Hp & _). by eapply lookup_lt_Some.
  - done.
  - done.
  - lia.
  - lia.
  - unfold held, contents. assert (fill (with_fds empty (NEXT_PIPE_FD st) (NEXT_PIPE_FD st + 1)) = 0%nat) as ->; [|done].
    apply fill_zero; [|done]. pose proof empty_ok as []. by constructor.
Qed.

(** ** Properties *)

(** C14: a pipe is a FIFO queue.  From a [create] that finds a slot, and until its
    read end is closed, whatever calls are made on this and other pipes, every call on
    the pipe has the effect and the answer it has on a queue of at most 4095 bytes: a
    write appends as many bytes as fit, and says how many; a read of a pipe that is
    not empty takes the first bytes off, as many as were asked for and are there, and
    puts exactly those where the caller said; a read of an empty pipe fails with
    [EAGAIN] or [EINTR], as the pipe's flag says, and writes nothing.  In the end the
    ring buffer holds the bytes written and not read, in order. *)
Theorem pipe_fifo st ops m :
  table_ok st -> is_Some (position (reads_fd (-1)) (PIPES st)) ->
  NEXT_PIPE_FD st + 2 + 2 * Z.of_nat (length ops) < 2 ^ 31 - 2 ->
  let '((r, w), st1) := create st in
  Forall (fun o => o <> OpClose r /\ args_ok o) ops ->
  let '(evs, st') := run ops st1 m in
  table_ok st' /\ exists i p, chan st' i r w p /\ behaves r w evs (mkQueue [] false) (held p).
Proof.
  intros Ht Hfree Hn. pose proof (create_fresh st Ht ltac:(lia) Hfree) as Hc.
  pose proof (table_ok_create st Ht ltac:(lia)) as Ht1.
  assert (Hn1 : NEXT_PIPE_FD (create st).2 = NEXT_PIPE_FD st + 2).
  { pose proof (tbl_next _ Ht). unfold create.
    rewrite (u64_small (_ + 1)), (u64_small (_ + 1 + 1)) by lia.
    destruct (position _ _); cbn [snd NEXT_PIPE_FD]; lia. }
  destruct (create st) as [[r w] st1]. cbn [snd] in *. destruct Hc as (i & p & Hch & Hemp). intros Hok.
  pose proof (run_chan ops st1 m i r w p Ht1 ltac:(lia) Hch Hok) as Hr.
  destruct (run ops st1 m) as [evs st']. destruct Hr as (Ht' & p' & Hch' & Heq). rewrite Hemp in Heq. split; [done|]. by exists i, p'.
Qed.

Lemma boot_table_ok : table_ok boot_state.
Proof.
  constructor; [|cbn; lia|..].
  - apply Forall_replicate, empty_ok.
  - cbn. constructor.
  - cbn. constructor.
Qed.

(** A pipe gets three bytes, two are read while another pipe is made, and one more is
    written. *)
Definition demo_ops : list op := [OpWrite 201 65 3; OpCreate; OpRead 200 900 2; OpWrite 201 70 1].

Lemma pipe_fifo_witness :
  let st1 := (create boot_state).2 in
  let '(evs, st') := run demo_ops st1 (fun a => a mod 256) in
  e_answer <$> evs = [3; 202; 2; 1] /\
  exists i p, chan st' i 200 201 p /\ behaves 200 201 evs (mkQueue [] false) (held p).
Proof.
  pose proof (pipe_fifo boot_state demo_ops (fun a => a mod 256) boot_table_ok) as W.
  destruct (create boot_state) as [[r w] st1] eqn:E. cbn [snd].
  assert (r = 200 /\ w = 201) as [-> ->] by (unfold create in E; injection E as <- <- _; vm_compute; auto).
  assert (e_answer <$> (run demo_ops (create boot_state).2 (fun a => a mod 256)).1 = [3; 202; 2; 1]) as Ea by (vm_compute; reflexivity).
  rewrite E in Ea. cbn [snd] in Ea. destruct (run demo_ops st1 _) as [evs st']. split; [exact Ea|].
  apply W; [by exists 0%nat|vm_compute; reflexivity|]. repeat constructor; try congruence; vm_compute; congruence.
Defined.

(** A write on a live channel accepts exactly what fits (never an error,
    never a byte more than 4095 in all), and a read of a non-empty channel
    returns at once with as much as was asked for and is there. *)
Theorem pipe_counts st m i r w p buf count :
  table_ok st -> chan st i r w p -> 0 <= count ->
  (write st m w buf count).1 = Z.min count (4095 - zlen (contents p)) /\
  (contents p <> [] -> (read st m r buf count).1.1 = Z.min count (zlen (contents p))).
Proof.
  intros Ht Hch Hc. assert (HN : PIPE_BUF_SIZE = 4096%nat) by (vm_compute; reflexivity).
  pose proof (fill_bound p) as Hfb. pose proof (contents_length p) as Hcl.
  pose proof (Forall_lookup_1 _ _ _ _ (tbl_pipes _ Ht) (ch_slot _ _ _ _ _ Hch)) as Hok. split.
  - unfold write. rewrite (chan_position_write _ _ _ _ _ Ht Hch), (ch_slot _ _ _ _ _ Hch).
    destruct (write_loop_spec (Z.to_nat count) m buf p 0 Hok) as (p' & -> & _).
    cbn [fst]. unfold zlen. rewrite Hcl. lia.
  - intros Hne. unfold read. rewrite (chan_position_read _ _ _ _ _ Ht Hch), (ch_slot _ _ _ _ _ Hch).
    assert (is_empty p = false) as ->.
    { unfold is_empty. apply Nat.eqb_neq. intros Heq. apply fill_zero in Heq; [|done].
      apply Hne. apply nil_length_inv. by rewrite Hcl. }
    cbn [negb]. destruct (read_loop_spec (Z.to_nat count) m buf p 0 Hok) as (p' & m' & -> & _).
    cbn [fst]. unfold zlen. rewrite Hcl. lia.
Qed.

Definition demo_pipe : Pipe := with_fds empty 200 201.

Lemma demo_chan : chan (create boot_state).2 0 200 201 demo_pipe.
Proof. constructor; done. Qed.

Lemma pipe_counts_witness :
  (write (create boot_state).2 (fun _ => 1) 201 0 5000).1 = Z.min 5000 (4095 - zlen (contents demo_pipe)).
Proof.
  refine (proj1 (pipe_counts (create boot_state).2 (fun _ => 1) 0 200 201 demo_pipe 0 5000 _ demo_chan _)).
  - apply table_ok_create; [exact boot_table_ok|vm_compute; reflexivity].
  - lia.
Defined.

(** [n] pipes created in a row. *)
Fixpoint create_many (n : nat) (st : state) : state :=
  match n with O => st | S n' => create_many n' (create st).2 end.

(** With all sixteen slots in use [create] still reports success: the two
    descriptors it returns belong to no pipe, so every write and read on them
    fails. *)
Theorem create_when_full :
  let st := create_many 16 boot_state in
  let '((r, w), st') := create st in
  (r, w) = (232, 233) /\ is_pipe_fd st' r = false /\ is_pipe_fd st' w = false /\
  (write st' (fun _ => 1) w 0 10).1 = EBADF /\ (read st' (fun _ => 1) r 0 10).1.1 = EBADF.
Proof. vm_compute. auto. Qed.
