(* ===== verification/Mmap.v ===== *)
(** * Memory mappings: the [brk] and [mmap] handlers of [src/src/syscall.rs]

    A bump pointer over [[MMAP_BASE, MMAP_LIMIT)] and a list of freed regions
    that [munmap] feeds and [mmap] consumes best-fit first.  The list is behind
    a mutex and the bump pointer moves by compare-exchange, so each handler is
    one step on the state. *)

From S2P Require Import Prelude.

Definition MMAP_BASE : Z := 436207616.   (* 0x1A00_0000 *)
Definition MMAP_LIMIT : Z := 2684354560. (* 0xA000_0000 *)
Definition MAP_FIXED : Z := 16.
Definition EAGER_ZERO : Z := 67108864.   (* 0x400_0000 *)
Definition ENOMEM : Z := -12.
Definition EINVAL : Z := -22.

Abbreviation region := (Z * Z)%type.

Record state := mkState {
  MMAP_NEXT : Z;
  FREE_REGIONS : list region;
  BRK_TOP : Z;
  BRK_BASE : Z
}.

Definition boot_state : state := mkState MMAP_BASE [] 0 0.

Definition with_free (st : state) (l : list region) : state :=
  mkState (MMAP_NEXT st) l (BRK_TOP st) (BRK_BASE st).
Definition with_next (st : state) (n : Z) : state :=
  mkState n (FREE_REGIONS st) (BRK_TOP st) (BRK_BASE st).

(** [(x + 0xFFF) & !0xFFF]: the sum wraps. *)
Definition page_up (x : Z) : Z := and_not (u64 (x + 4095)) 4095.
Definition page_down (x : Z) : Z := and_not x 4095.

(** ** brk *)

Definition set_initial_brk (st : state) (mem_end : Z) : state :=
  mkState (MMAP_NEXT st) (FREE_REGIONS st) mem_end (BRK_BASE st).

Definition sys_brk (st : state) (addr : Z) : Z * state :=
  if addr =? 0 then (i64 (BRK_TOP st), st)
  else (i64 addr, mkState (MMAP_NEXT st) (FREE_REGIONS st) addr
                          (if BRK_BASE st =? 0 then addr else BRK_BASE st)).

(** ** The free list *)

(** The first loop of [free_regions_add]: merge with the first entry that
    touches the new range, giving its index and the merged range. *)
Fixpoint merge_first (l : list region) (addr len : Z) : option (nat * region) :=
  match l with
  | [] => None
  | (a, n) :: l' =>
      if u64 (a + n) =? addr then Some (0%nat, (a, u64 (n + len)))
      else if u64 (addr + len) =? a then Some (0%nat, (addr, u64 (n + len)))
      else match merge_first l' addr len with
           | Some (i, r) => Some (S i, r)
           | None => None
           end
  end.

(** The second loop: another entry, at an index other than [i], that touches
    the merged range. *)
Fixpoint touch_second (l : list region) (i j : nat) (addr len : Z) : option nat :=
  match l with
  | [] => None
  | (a, n) :: l' =>
      if (j =? i)%nat then touch_second l' i (S j) addr len
      else if (u64 (a + n) =? addr) || (u64 (addr + len) =? a) then Some j
      else touch_second l' i (S j) addr len
  end.

Definition free_regions_add (free : list region) (addr len : Z) : list region :=
  match merge_first free addr len with
  | Some (i, (new_addr, new_len)) =>
      let free := <[i := (new_addr, new_len)]> free in
      match touch_second free i 0 new_addr new_len with
      | Some j =>
          match free !! j with
          | Some (oa, ol) =>
              let free := delete j free in
              let i := if (j <? i)%nat then (i - 1)%nat else i in
              let '(lo, hi) := if oa <? new_addr then (oa, u64 (new_addr + new_len))
                               else (new_addr, u64 (oa + ol)) in
              <[i := (lo, u64 (hi - lo))]> free
          | None => free
          end
      | None => free
      end
  | None => free ++ [(addr, len)]
  end.

(** The best-fit scan: index of the smallest entry that fits, the first of
    several; an exact fit stops the scan. *)
Fixpoint best_fit (l : list region) (i : nat) (len : Z) (best : option nat) (best_excess : Z) : option nat :=
  match l with
  | [] => best
  | (_, n) :: l' =>
      if (len <=? n) && (n - len <? best_excess) then
        if n - len =? 0 then Some i
        else best_fit l' (S i) len (Some i) (n - len)
      else best_fit l' (S i) len best best_excess
  end.

Definition free_regions_take (free : list region) (len : Z) : option Z * list region :=
  match best_fit free 0 len None U64_MAX with
  | Some i =>
      match free !! i with
      | Some (a, n) =>
          if n =? len then (Some a, swap_remove free i)
          else (Some a, <[i := (u64 (a + len), n - len)]> free)
      | None => (None, free)
      end
  | None => (None, free)
  end.

(** [free.retain(..)] with the trimmed pieces collected, then [extend]. *)
Definition keep_region (addr end_ : Z) (r : region) : bool :=
  let '(a, n) := r in (u64 (a + n) <=? addr) || (end_ <=? a).

Definition trim_region (addr end_ : Z) (r : region) : list region :=
  let '(a, n) := r in
  let r_end := u64 (a + n) in
  if keep_region addr end_ r then []
  else (if a <? addr then [(a, addr - a)] else []) ++
       (if end_ <? r_end then [(end_, r_end - end_)] else []).

Definition free_regions_drop_range (free : list region) (addr len : Z) : list region :=
  let end_ := u64 (addr + len) in
  List.filter (keep_region addr end_) free ++ concat (map (trim_region addr end_) free).

(** ** mmap and munmap *)

Definition eager_zero (m : mem) (addr aligned : Z) : mem :=
  if aligned <=? EAGER_ZERO then mem_zero m addr aligned else m.

Definition sys_mmap (st : state) (m : mem) (addr length flags : Z) : Z * state * mem :=
  let aligned := page_up length in
  if negb (addr =? 0) && negb (Z.land flags MAP_FIXED =? 0) then
    if MMAP_LIMIT <? sat_add addr aligned then (ENOMEM, st, m)
    else
      let st := with_free st (free_regions_drop_range (FREE_REGIONS st) addr aligned) in
      (i64 addr, st, eager_zero m addr aligned)
  else
    match free_regions_take (FREE_REGIONS st) aligned with
    | (Some reused, free) => (i64 reused, with_free st free, eager_zero m reused aligned)
    | (None, _) =>
        let cur := MMAP_NEXT st in
        let new := sat_add cur aligned in
        if MMAP_LIMIT <? new then (ENOMEM, st, m)
        else (i64 cur, with_next st new, m)
    end.

Definition sys_munmap (st : state) (addr length : Z) : Z * state :=
  if (addr =? 0) || (length =? 0) then (EINVAL, st)
  else
    let aligned_addr := page_down addr in
    let aligned_len := page_up (u64 (length + (addr - aligned_addr))) in
    if (MMAP_BASE <=? aligned_addr) && (u64 (aligned_addr + aligned_len) <=? MMAP_LIMIT)
    then (0, with_free st (free_regions_add (FREE_REGIONS st) aligned_addr aligned_len))
    else (0, st).
