(* ===== verification/MmapProofs.v ===== *)
(** * The mapping allocator never hands out memory twice

    Regions are counted address by address: [cnt l x] is the number of regions
    of [l] that contain [x].  The free-list operations change the counts by
    exactly the range they are given, and the invariant of the allocator is
    that every address is in at most one free or live region, all of them below
    the bump pointer. *)

From S2P Require Import Prelude Mmap.

Definition inr (r : region) (x : Z) : nat :=
  if (r.1 <=? x) && (x <? r.1 + r.2) then 1 else 0.

Fixpoint cnt (l : list region) (x : Z) : nat :=
  match l with [] => 0 | r :: l' => inr r x + cnt l' x end.

Definition region_ok (r : region) : Prop :=
  MMAP_BASE <= r.1 /\ 0 < r.2 /\ r.1 + r.2 <= MMAP_LIMIT /\ r.1 mod 4096 = 0 /\ r.2 mod 4096 = 0.

(** ** Counting *)

Ltac inr_cases :=
  unfold inr; cbn [fst snd];
  repeat match goal with
  | |- context [?a <=? ?b] => destruct (Z.leb_spec a b)
  | |- context [?a <? ?b] => destruct (Z.ltb_spec a b)
  end; cbn [andb]; try lia.

Lemma cnt_app l k x : cnt (l ++ k) x = (cnt l x + cnt k x)%nat.
Proof. induction l as [|r l IH]; simpl; [done|]. rewrite IH. lia. Qed.

(** The order of regions does not matter. *)
#[global] Instance cnt_proper : Proper ((≡ₚ) ==> eq ==> eq) cnt.
Proof. intros l k Hp x ? <-. induction Hp; simpl; lia. Qed.

Lemma cnt_split l1 r l2 x : cnt (l1 ++ r :: l2) x = (inr r x + cnt (l1 ++ l2) x)%nat.
Proof. rewrite !cnt_app. simpl. lia. Qed.

Lemma cnt_insert l i r q x :
  l !! i = Some r -> (cnt (<[i := q]> l) x + inr r x = cnt l x + inr q x)%nat.
Proof.
  intros (l1 & l2 & -> & ->)%list_elem_of_split_length.
  rewrite insert_app_r_alt, Nat.sub_diag by lia. simpl. rewrite !cnt_split. lia.
Qed.

Lemma cnt_delete l i r x : l !! i = Some r -> (cnt (delete i l) x + inr r x = cnt l x)%nat.
Proof.
  intros H. rewrite (delete_Permutation l i r H) at 2. simpl. lia.
Qed.

Lemma cnt_in l r x : r ∈ l -> (inr r x <= cnt l x)%nat.
Proof. intros (l1 & l2 & ->)%list_elem_of_split. rewrite cnt_split. lia. Qed.

(** Two ranges that touch make one range. *)
Lemma inr_join a n k x : 0 <= n -> 0 <= k -> inr (a, n + k) x = (inr (a, n) x + inr ((a + n)%Z, k) x)%nat.
Proof. intros. inr_cases. Qed.

Lemma limits : MMAP_BASE = 436207616 /\ MMAP_LIMIT = 2684354560.
Proof. done. Qed.

Lemma region_join a n k :
  region_ok (a, n) -> region_ok (a + n, k) -> region_ok (a, n + k).
Proof.
  unfold region_ok; cbn [fst snd]. intros (? & ? & ? & ? & ?) (? & ? & ? & ? & ?).
  repeat split; try lia. rewrite Z.add_mod by lia. by rewrite H3, H8.
Qed.

(** ** Adding a range *)

Lemma merge_first_spec l : forall addr len i q,
  Forall region_ok l -> region_ok (addr, len) -> merge_first l addr len = Some (i, q) ->
  exists r, l !! i = Some r /\ region_ok q /\
    forall x, inr q x = (inr r x + inr (addr, len) x)%nat.
Proof.
  pose proof limits as [HB HL].
  induction l as [|[a n] l IH]; intros addr len i q Hl Hr; cbn [merge_first]; [done|].
  inversion Hl as [|? ? Ha Hl']; subst. pose proof Ha as (? & ? & ? & _). pose proof Hr as (? & ? & ? & _).
  cbn [fst snd] in *. rewrite (u64_small (a + n)), (u64_small (addr + len)), (u64_small (n + len)) by lia.
  destruct (a + n =? addr) eqn:E1; bool_to_prop.
  { subst addr. intros [= <- <-]. exists (a, n). split; [done|]. split; [by apply region_join|].
    intros x. apply inr_join; lia. }
  destruct (addr + len =? a) eqn:E2; bool_to_prop.
  { subst a. intros [= <- <-]. exists (addr + len, n). split; [done|]. rewrite (Z.add_comm n len).
    split; [by apply region_join|]. intros x. rewrite inr_join by lia. lia. }
  destruct (merge_first l addr len) as [[j r]|] eqn:E; [|done]. intros [= <- <-].
  destruct (IH addr len j r Hl' Hr E) as (r' & Hj & Hok & Hx). by exists r'.
Qed.

Lemma touch_second_spec l : forall i j addr len k,
  touch_second l i j addr len = Some k ->
  exists d a n, k = (j + d)%nat /\ l !! d = Some (a, n) /\ k <> i /\
    (u64 (a + n) = addr \/ u64 (addr + len) = a).
Proof.
  induction l as [|[a n] l IH]; intros i j addr len k; cbn [touch_second]; [done|].
  destruct (j =? i)%nat eqn:E.
  { intros (d & a' & n' & -> & Hd & Hne & Hor)%IH. exists (S d), a', n'. split; [lia|]. done. }
  apply Nat.eqb_neq in E. destruct (_ || _) eqn:Eo.
  - intros [= <-]. exists 0%nat, a, n. split; [lia|]. split; [done|]. split; [done|].
    apply orb_true_iff in Eo as [?|?]; bool_to_prop; auto.
  - intros (d & a' & n' & -> & Hd & Hne & Hor)%IH. exists (S d), a', n'. split; [lia|]. done.
Qed.

Lemma lookup_delete_shift (l : list region) i j r :
  l !! i = Some r -> j <> i -> delete j l !! (if (j <? i)%nat then (i - 1)%nat else i) = Some r.
Proof.
  intros Hi Hne. destruct (j <? i)%nat eqn:E.
  - apply Nat.ltb_lt in E. rewrite list_lookup_delete_ge by lia. by replace (S (i - 1)) with i by lia.
  - apply Nat.ltb_ge in E. rewrite list_lookup_delete_lt by lia. done.
Qed.

(** Merging conserves every address: the list gains exactly the range added. *)
Lemma free_regions_add_spec free addr len :
  Forall region_ok free -> region_ok (addr, len) ->
  Forall region_ok (free_regions_add free addr len) /\
  forall x, cnt (free_regions_add free addr len) x = (cnt free x + inr (addr, len) x)%nat.
Proof.
  pose proof limits as [HB HL]. intros Hf Hr. unfold free_regions_add.
  destruct (merge_first free addr len) as [[i [na nn]]|] eqn:E.
  2: { split; [apply Forall_app; split; [done|by apply Forall_singleton]|].
       intros x. rewrite cnt_app. simpl. lia. }
  destruct (merge_first_spec _ _ _ _ _ Hf Hr E) as (r & Hi & Hq & Hx).
  set (free1 := <[i := (na, nn)]> free).
  assert (Hf1 : Forall region_ok free1) by (by apply Forall_insert).
  assert (Hc1 : forall x, cnt free1 x = (cnt free x + inr (addr, len) x)%nat).
  { intros x. pose proof (cnt_insert free i r (na, nn) x Hi). specialize (Hx x). unfold free1. lia. }
  assert (Hi1 : free1 !! i = Some (na, nn)).
  { apply list_lookup_insert_eq. by eapply lookup_lt_Some. }
  destruct (touch_second free1 i 0 na nn) as [j|] eqn:Et; [|done].
  apply touch_second_spec in Et as (d & oa & ol & -> & Hd & Hne & Hor). cbn [Nat.add] in *. rewrite Hd.
  pose proof (Forall_lookup_1 _ _ _ _ Hf1 Hd) as Ho. pose proof Ho as (? & ? & ? & _).
  pose proof Hq as (? & ? & ? & _). cbn [fst snd] in *.
  rewrite (u64_small (na + nn)), (u64_small (oa + ol)) in * by lia.
  set (i' := if (d <? i)%nat then (i - 1)%nat else i).
  assert (Hi' : delete d free1 !! i' = Some (na, nn)) by (by apply lookup_delete_shift).
  set (lohi := if oa <? na then (oa, na + nn) else (na, oa + ol)).
  assert (Hm : exists lo hi, lohi = (lo, hi) /\ u64 (hi - lo) = nn + ol /\ region_ok (lo, nn + ol) /\
            forall x, inr (lo, nn + ol) x = (inr (na, nn) x + inr (oa, ol) x)%nat).
  { subst lohi. destruct (oa <? na) eqn:Elt; bool_to_prop; do 2 eexists; (split; [done|]).
    - destruct Hor as [Ho1|Ho1]; [|lia]. subst na. rewrite u64_small by lia.
      split; [lia|]. rewrite (Z.add_comm nn ol). split; [by apply region_join|].
      intros x. rewrite inr_join by lia. lia.
    - destruct Hor as [Ho1|Ho1]; [lia|]. subst oa. rewrite u64_small by lia.
      split; [lia|]. split; [by apply region_join|]. intros x. by rewrite inr_join by lia. }
  destruct Hm as (lo & hi & -> & -> & Hmok & Hmx). split.
  - apply Forall_insert; [by apply Forall_delete|done].
  - intros x. pose proof (cnt_insert _ _ _ (lo, nn + ol) x Hi'). pose proof (cnt_delete _ _ _ x Hd).
    specialize (Hmx x). specialize (Hc1 x). lia.
Qed.

(** ** Taking a range *)

(** The scan returns a fitting entry no larger than any other fitting one. *)
Lemma best_fit_spec l : forall i len best exc,
  0 <= len -> Forall (fun r => r.2 - len < U64_MAX) l ->
  (best = None -> exc = U64_MAX) ->
  match best_fit l i len best exc with
  | Some k =>
      (best = Some k /\ forall r, r ∈ l -> len <= r.2 -> exc <= r.2 - len) \/
      exists d a n, k = (i + d)%nat /\ l !! d = Some (a, n) /\ len <= n /\ n - len < exc /\
        forall r, r ∈ l -> len <= r.2 -> n <= r.2
  | None => best = None /\ forall r, r ∈ l -> r.2 < len
  end.
Proof.
  induction l as [|[a n] l IH]; intros i len best exc Hlen Hl Hb; cbn [best_fit].
  { destruct best; [left|]; (split; [done|]); by intros ? ?%elem_of_nil. }
  inversion Hl as [|? ? Ha Hl']; subst. cbn [snd] in Ha.
  destruct ((len <=? n) && (n - len <? exc)) eqn:E.
  - bool_to_prop. destruct (n - len =? 0) eqn:Ez; bool_to_prop.
    { right. exists 0%nat, a, n. repeat (split; [done || lia|]).
      intros r _ Hr. lia. }
    specialize (IH (S i) len (Some i) (n - len) Hlen Hl' ltac:(done)).
    destruct (best_fit l (S i) len (Some i) (n - len)) as [k|]; [|by destruct IH].
    destruct IH as [[[= <-] Hm]|(d & a' & n' & -> & Hd & Hn' & Hlt & Hm)]; right.
    + exists 0%nat, a, n. repeat (split; [done || lia|]).
      intros r [->|Hr]%elem_of_cons Hrl; [done|]. specialize (Hm r Hr Hrl). lia.
    + exists (S d), a', n'. repeat (split; [done || lia|]).
      intros r [->|Hr]%elem_of_cons Hrl; [cbn; lia|]. by apply Hm.
  - specialize (IH (S i) len best exc Hlen Hl' Hb).
    destruct (best_fit l (S i) len best exc) as [k|].
    + destruct IH as [[-> Hm]|(d & a' & n' & -> & Hd & Hn' & Hlt & Hm)]; [left|right].
      * split; [done|]. intros r [->|Hr]%elem_of_cons Hrl; [|by apply Hm].
        cbn [snd] in *. apply andb_false_iff in E as [?|?]; bool_to_prop; lia.
      * exists (S d), a', n'. repeat (split; [done || lia|]).
        intros r [->|Hr]%elem_of_cons Hrl; [|by apply Hm].
        cbn [snd] in *. apply andb_false_iff in E as [?|?]; bool_to_prop; lia.
    + destruct IH as [-> Hm]. split; [done|].
      intros r [->|Hr]%elem_of_cons; [|by apply Hm]. rewrite (Hb eq_refl) in E.
      cbn [snd] in *. apply andb_false_iff in E as [?|?]; bool_to_prop; lia.
Qed.

(** A successful take returns the start of the smallest fitting region and
    removes exactly the range taken; a failed one means nothing fits. *)
Lemma free_regions_take_spec free len :
  Forall region_ok free -> 0 < len -> len mod 4096 = 0 ->
  match free_regions_take free len with
  | (Some a, free') =>
      Forall region_ok free' /\ region_ok (a, len) /\
      (forall x, cnt free x = (cnt free' x + inr (a, len) x)%nat) /\
      exists n, (a, n) ∈ free /\ len <= n /\ forall r, r ∈ free -> len <= r.2 -> n <= r.2
  | (None, free') => free' = free /\ forall r, r ∈ free -> r.2 < len
  end.
Proof.
  pose proof limits as [HB HL]. intros Hf Hlen Hmod. unfold free_regions_take.
  assert (Hb : Forall (fun r => r.2 - len < U64_MAX) free).
  { apply (Forall_impl _ _ _ Hf). intros r (? & ? & ? & _). unfold U64_MAX. lia. }
  pose proof (best_fit_spec free 0 len None U64_MAX ltac:(lia) Hb ltac:(done)) as Hbf.
  destruct (best_fit free 0 len None U64_MAX) as [k|]; [|by destruct Hbf].
  destruct Hbf as [[? _]|(d & a & n & -> & Hd & Hn & _ & Hm)]; [done|]. cbn [Nat.add]. rewrite Hd.
  pose proof (Forall_lookup_1 _ _ _ _ Hf Hd) as Ha. pose proof Ha as (? & ? & ? & Hma & Hmn). cbn [fst snd] in *.
  pose proof (list_elem_of_lookup_2 _ _ _ Hd) as Hin.
  destruct (n =? len) eqn:E; bool_to_prop.
  - subst n. pose proof (swap_remove_perm _ _ _ Hd) as Hp. rewrite Hp in Hf. inversion Hf; subst.
    split; [done|]. split; [done|]. split; [|by exists len]. intros x. rewrite Hp at 1. simpl. lia.
  - rewrite u64_small by lia.
    assert (Hlr : region_ok (a, len)) by (unfold region_ok; cbn; repeat split; auto; lia).
    split; [|split; [done|split; [|by exists n]]].
    + apply Forall_insert; [done|]. unfold region_ok; cbn. repeat split; try lia;
        Z.div_mod_to_equations; lia.
    + intros x. pose proof (cnt_insert free d (a, n) (a + len, n - len) x Hd).
      pose proof (inr_join a len (n - len) x ltac:(lia) ltac:(lia)).
      replace (len + (n - len)) with n in * by lia. lia.
Qed.

(** ** Dropping a range *)

(** [free_regions_drop_range] is set difference: no address of the range stays
    free, every other address keeps its count. *)
Lemma drop_range_spec free addr len :
  Forall region_ok free -> 0 <= addr -> 0 <= len -> addr + len < 2 ^ 64 ->
  addr mod 4096 = 0 -> len mod 4096 = 0 ->
  Forall region_ok (free_regions_drop_range free addr len) /\
  forall x, cnt (free_regions_drop_range free addr len) x =
            if (addr <=? x) && (x <? addr + len) then 0%nat else cnt free x.
Proof.
  pose proof limits as [HB HL]. intros Hf Ha Hl Hov Hma Hml. unfold free_regions_drop_range.
  rewrite u64_small by lia. set (e := addr + len).
  assert (Hme : e mod 4096 = 0) by (subst e; Z.div_mod_to_equations; lia).
  induction Hf as [|[a n] free Hr Hf IH]; simpl.
  { split; [done|]. intros x. by destruct (_ && _). }
  destruct IH as [IHok IHc]. pose proof Hr as (? & ? & ? & Hra & Hrn). cbn [fst snd] in *.
  rewrite (u64_small (a + n)) by lia. rewrite Forall_app in IHok. destruct IHok as [IHk IHt].
  set (kp := List.filter _ free) in *. set (tr := concat _) in *.
  assert (Hcnt : forall x, cnt (kp ++ tr) x = (cnt kp x + cnt tr x)%nat) by (intros; apply cnt_app).
  destruct ((a + n <=? addr) || (e <=? a)) eqn:Ek.
  - split; [simpl; constructor; [done|by apply Forall_app]|]. intros x. simpl. specialize (IHc x).
    rewrite IHc. apply orb_true_iff in Ek as [?|?]; bool_to_prop; subst e; inr_cases.
  - bool_to_prop. split.
    + apply Forall_app; split; [done|]. apply Forall_app; split; [|done].
      apply Forall_app; split.
      * destruct (a <? addr) eqn:Elt; [|done]. bool_to_prop. apply Forall_singleton.
        unfold region_ok; cbn [fst snd]. repeat split; try lia. Z.div_mod_to_equations. lia.
      * destruct (e <? a + n) eqn:Elt; [|done]. bool_to_prop. apply Forall_singleton.
        unfold region_ok; cbn [fst snd]. repeat split; try lia. Z.div_mod_to_equations. lia.
    + intros x. specialize (IHc x). rewrite Hcnt in IHc. rewrite !cnt_app. subst e.
      destruct (a <? addr) eqn:E1, (addr + len <? a + n) eqn:E2; bool_to_prop; simpl cnt; revert IHc; inr_cases.
Qed.

(** ** Page arithmetic *)

Lemma page_up_spec x :
  0 <= x <= 2 ^ 63 -> x <= page_up x < x + 4096 /\ page_up x mod 4096 = 0.
Proof.
  intros Hx. apply page_round_spec. lia.
Qed.

Lemma page_down_spec x :
  0 <= x < 2 ^ 64 -> x - 4096 < page_down x <= x /\ page_down x mod 4096 = 0.
Proof.
  intros Hx. unfold page_down. change 4095 with (Z.ones 12). rewrite and_not_ones by lia.
  change (2 ^ 12) with 4096. Z.div_mod_to_equations. lia.
Qed.

(** ** The allocator and its client

    The client's live mappings are a second list of regions.  A step maps memory
    anywhere, or at a fixed page below the bump pointer, or unmaps pages that are
    mapped, in one mapping or in several; or it is a call that fails.  What the code
    does for other clients is further down. *)

Definition unfixed (addr flags : Z) : Prop := addr = 0 \/ Z.land flags MAP_FIXED = 0.

(** Every byte of a range is in a live mapping. *)
Definition mapped (live : list region) (lo len : Z) : Prop := forall x, lo <= x < lo + len -> (1 <= cnt live x)%nat.

Inductive mstep : state * list region -> state * list region -> Prop :=
| step_map st live m addr length flags a st' m' :
    unfixed addr flags -> 0 < length <= 2 ^ 63 ->
    sys_mmap st m addr length flags = (a, st', m') -> 0 <= a ->
    mstep (st, live) (st', (a, page_up length) :: live)
| step_map_fails st live m addr length flags a st' m' :
    unfixed addr flags -> 0 < length <= 2 ^ 63 ->
    sys_mmap st m addr length flags = (a, st', m') -> a < 0 ->
    mstep (st, live) (st', live)
| step_fixed st live m addr length flags a st' m' :
    addr <> 0 -> Z.land flags MAP_FIXED <> 0 -> 0 < length <= 2 ^ 63 ->
    MMAP_BASE <= addr -> addr mod 4096 = 0 -> addr + page_up length <= MMAP_NEXT st ->
    sys_mmap st m addr length flags = (a, st', m') ->
    mstep (st, live) (st', (addr, page_up length) :: free_regions_drop_range live addr (page_up length))
| step_fixed_fails st live m addr length flags a st' m' :
    addr <> 0 -> Z.land flags MAP_FIXED <> 0 ->
    sys_mmap st m addr length flags = (a, st', m') -> a = ENOMEM -> addr < 2 ^ 63 -> 0 <= addr ->
    mstep (st, live) (st', live)
| step_unmap st live addr length r st' :
    let lo := page_down addr in
    let len := page_up (length + (addr - lo)) in
    0 <= addr < 2 ^ 64 -> 0 < length <= 2 ^ 62 -> mapped live lo len ->
    sys_munmap st addr length = (r, st') ->
    mstep (st, live) (st', free_regions_drop_range live lo len)
| step_unmap_fails st live addr length r st' :
    addr = 0 \/ length = 0 -> sys_munmap st addr length = (r, st') -> mstep (st, live) (st', live).

Record mm_inv (st : state) (live : list region) : Prop := mkMmInv {
  mi_free : Forall region_ok (FREE_REGIONS st);
  mi_live : Forall region_ok live;
  mi_next : MMAP_BASE <= MMAP_NEXT st <= MMAP_LIMIT;
  mi_align : MMAP_NEXT st mod 4096 = 0;
  mi_once : forall x, (cnt (FREE_REGIONS st) x + cnt live x <= 1)%nat;
  mi_below : forall x, MMAP_NEXT st <= x -> (cnt (FREE_REGIONS st) x + cnt live x = 0)%nat
}.

Lemma boot_mm_inv : mm_inv boot_state [].
Proof. constructor; try done; cbn; lia. Qed.

(** What an unfixed [mmap] does. *)
Lemma sys_mmap_unfixed st m addr length flags :
  unfixed addr flags ->
  sys_mmap st m addr length flags =
    match free_regions_take (FREE_REGIONS st) (page_up length) with
    | (Some r, free) => (i64 r, with_free st free, eager_zero m r (page_up length))
    | (None, _) => if MMAP_LIMIT <? sat_add (MMAP_NEXT st) (page_up length) then (ENOMEM, st, m)
                   else (i64 (MMAP_NEXT st), with_next st (sat_add (MMAP_NEXT st) (page_up length)), m)
    end.
Proof.
  intros Hu. unfold sys_mmap. destruct Hu as [->|Hf]; [done|]. rewrite Hf.
  by destruct (negb (addr =? 0)).
Qed.

Lemma map_preserves st live m addr length flags a st' m' :
  mm_inv st live -> unfixed addr flags -> 0 < length <= 2 ^ 63 ->
  sys_mmap st m addr length flags = (a, st', m') ->
  if 0 <=? a then mm_inv st' ((a, page_up length) :: live) else st' = st.
Proof.
  pose proof limits as [HB HL]. intros [Hf Hl Hn Hal Ho Hb] Hu Hlen. rewrite sys_mmap_unfixed by done.
  pose proof (page_up_spec length ltac:(lia)) as [Hpu Hpm]. set (n := page_up length) in *.
  pose proof (free_regions_take_spec (FREE_REGIONS st) n Hf ltac:(lia) Hpm) as Ht.
  destruct (free_regions_take _ n) as [[r|] free'].
  - destruct Ht as (Hf' & Hr & Hc & _). pose proof Hr as (? & ? & ? & _). cbn [fst snd] in *.
    intros [= <- <- <-]. rewrite i64_small by lia.
    replace (0 <=? r) with true by (symmetry; apply Z.leb_le; lia).
    constructor; cbn [FREE_REGIONS MMAP_NEXT with_free cnt]; auto.
    + intros x. specialize (Ho x). specialize (Hc x). lia.
    + intros x Hx. specialize (Hb x Hx). specialize (Hc x). lia.
  - unfold sat_add, U64_MAX. destruct (MMAP_LIMIT <? _) eqn:E; bool_to_prop; intros [= <- <- <-]; [done|].
    rewrite i64_small by lia. replace (0 <=? _) with true by (symmetry; apply Z.leb_le; lia).
    rewrite Z.min_r in * by lia.
    constructor; cbn [FREE_REGIONS MMAP_NEXT with_next cnt]; auto.
    + constructor; [|done]. unfold region_ok; cbn [fst snd]. repeat split; auto; lia.
    + lia.
    + Z.div_mod_to_equations. lia.
    + intros x. specialize (Ho x). specialize (Hb x). inr_cases.
    + intros x Hx. specialize (Hb x ltac:(lia)). inr_cases.
Qed.

Lemma cnt_pos l x : (1 <= cnt l x)%nat -> exists r, r ∈ l /\ r.1 <= x < r.1 + r.2.
Proof.
  induction l as [|r l IH]; cbn [cnt]; [lia|]. intros Hc. destruct (decide (r.1 <= x < r.1 + r.2)) as [Hr|Hr]; [exists r; split; [by left|done]|].
  destruct IH as (r' & Hin & Hx); [|exists r'; split; [by right|done]]. revert Hc. inr_cases.
Qed.

(** The pages of an [munmap] of mapped memory are in RAM. *)
Lemma unmap_pages live addr length :
  Forall region_ok live -> 0 <= addr < 2 ^ 64 -> 0 < length <= 2 ^ 62 ->
  let lo := page_down addr in
  let len := page_up (length + (addr - lo)) in
  mapped live lo len -> region_ok (lo, len) /\ 0 <= length + (addr - lo) < 2 ^ 64 /\ 0 < addr.
Proof.
  pose proof limits as [HB HL]. intros Hl Hadd Hlen lo len Hm.
  pose proof (page_down_spec addr ltac:(lia)) as [Hpd Hpm]. fold lo in Hpd, Hpm.
  pose proof (page_up_spec (length + (addr - lo)) ltac:(lia)) as [Hpu Hum]. fold len in Hpu, Hum.
  destruct (cnt_pos _ _ (Hm lo ltac:(lia))) as (r1 & Hr1 & H1). destruct (cnt_pos _ _ (Hm (lo + len - 1) ltac:(lia))) as (r2 & Hr2 & H2).
  rewrite Forall_forall in Hl. destruct (Hl _ Hr1) as (? & _ & _). destruct (Hl _ Hr2) as (_ & _ & ? & _).
  unfold region_ok; cbn [fst snd]. repeat split; auto; lia.
Qed.

Lemma unmap_preserves st live addr length r st' :
  let lo := page_down addr in
  let len := page_up (length + (addr - lo)) in
  mm_inv st live -> 0 <= addr < 2 ^ 64 -> 0 < length <= 2 ^ 62 -> mapped live lo len ->
  sys_munmap st addr length = (r, st') -> mm_inv st' (free_regions_drop_range live lo len).
Proof.
  pose proof limits as [HB HL]. intros lo len [Hf Hl Hn Hal Ho Hb] Hadd Hlen Hcov Hun.
  destruct (unmap_pages live addr length Hl Hadd Hlen Hcov) as (Hok & Hbig & Hpos). fold lo len in Hok, Hbig.
  pose proof Hok as (? & ? & ? & Hlm & Hnm). cbn [fst snd] in *.
  unfold sys_munmap in Hun. fold lo in Hun.
  replace ((addr =? 0) || (length =? 0)) with false in Hun by (symmetry; apply orb_false_iff; rewrite !Z.eqb_neq; lia).
  cbv zeta in Hun. rewrite (u64_small (length + (addr - lo))) in Hun by lia. fold len in Hun.
  rewrite (u64_small (lo + len)) in Hun by lia.
  replace ((MMAP_BASE <=? lo) && (lo + len <=? MMAP_LIMIT)) with true in Hun
    by (symmetry; apply andb_true_iff; rewrite !Z.leb_le; lia).
  injection Hun as _ <-. destruct (free_regions_add_spec _ lo len Hf Hok) as [Hf' Hc].
  destruct (drop_range_spec live lo len Hl ltac:(lia) ltac:(lia) ltac:(lia) Hlm Hnm) as [Hl' Hd].
  constructor; cbn [FREE_REGIONS MMAP_NEXT with_free]; auto; intros x.
  - rewrite Hc, Hd. specialize (Ho x). specialize (Hcov x). inr_cases.
  - intros Hx. rewrite Hc, Hd. specialize (Hb x Hx). specialize (Hcov x). inr_cases.
Qed.

Lemma fixed_refused st m addr length flags st' m' :
  addr <> 0 -> Z.land flags MAP_FIXED <> 0 -> 0 <= addr < 2 ^ 63 -> sys_mmap st m addr length flags = (ENOMEM, st', m') -> st' = st.
Proof.
  intros Hnz Hfl Ha. unfold sys_mmap. apply Z.eqb_neq in Hnz as ->. apply Z.eqb_neq in Hfl as ->. cbn [negb andb].
  case_match; [by intros [= <- _]|]. rewrite i64_small by lia. intros [= E _ _]. unfold ENOMEM in E. lia.
Qed.

Lemma fixed_preserves st live m addr length flags a st' m' :
  mm_inv st live -> addr <> 0 -> Z.land flags MAP_FIXED <> 0 -> 0 < length <= 2 ^ 63 ->
  MMAP_BASE <= addr -> addr mod 4096 = 0 -> addr + page_up length <= MMAP_NEXT st ->
  sys_mmap st m addr length flags = (a, st', m') ->
  mm_inv st' ((addr, page_up length) :: free_regions_drop_range live addr (page_up length)).
Proof.
  pose proof limits as [HB HL]. intros [Hf Hl Hn Hal Ho Hb] Hnz Hfl Hlen Hbase Hma Hbelow.
  unfold sys_mmap. apply Z.eqb_neq in Hnz as ->. apply Z.eqb_neq in Hfl as ->. cbn [negb andb].
  pose proof (page_up_spec length ltac:(lia)) as [Hpu Hpm]. set (n := page_up length) in *.
  unfold sat_add, U64_MAX. rewrite Z.min_r by lia.
  replace (MMAP_LIMIT <? _) with false by (symmetry; apply Z.ltb_ge; lia). intros [= _ <- _].
  destruct (drop_range_spec (FREE_REGIONS st) addr n Hf ltac:(lia) ltac:(lia) ltac:(lia) Hma Hpm) as [Hf' Hcf].
  destruct (drop_range_spec live addr n Hl ltac:(lia) ltac:(lia) ltac:(lia) Hma Hpm) as [Hl' Hcl].
  constructor; cbn [FREE_REGIONS MMAP_NEXT with_free cnt]; auto.
  - constructor; [|done]. unfold region_ok; cbn [fst snd]. repeat split; auto; lia.
  - intros x. rewrite Hcf, Hcl. specialize (Ho x). inr_cases.
  - intros x Hx. rewrite Hcf, Hcl. specialize (Hb x Hx). inr_cases.
Qed.

Lemma mstep_preserves s s' : mstep s s' -> mm_inv s.1 s.2 -> mm_inv s'.1 s'.2.
Proof.
  intros Hs Hi. destruct Hs; cbn [fst snd] in *.
  - pose proof (map_preserves _ _ _ _ _ _ _ _ _ Hi H H0 H1) as Hp.
    by replace (0 <=? a) with true in Hp by (symmetry; apply Z.leb_le; lia).
  - pose proof (map_preserves _ _ _ _ _ _ _ _ _ Hi H H0 H1) as Hp.
    replace (0 <=? a) with false in Hp by (symmetry; apply Z.leb_gt; lia). by subst.
  - by eapply fixed_preserves.
  - subst a. apply fixed_refused in H1; [by subst|done..].
  - by eapply unmap_preserves.
  - assert (st' = st) as ->; [|done]. unfold sys_munmap in H0. replace ((addr =? 0) || (length =? 0)) with true in H0; [by injection H0|].
    symmetry. apply orb_true_iff. by destruct H as [-> | ->]; [left|right].
Qed.

Lemma rtc_mm_inv s s' : rtc mstep s s' -> mm_inv s.1 s.2 -> mm_inv s'.1 s'.2.
Proof. induction 1; eauto using mstep_preserves. Qed.

(** ** Properties *)

Definition disjoint (r s : region) : Prop := r.1 + r.2 <= s.1 \/ s.1 + s.2 <= r.1.

Lemma once_disjoint l k r s :
  Forall region_ok (l ++ k) -> (forall x, (cnt l x + cnt k x <= 1)%nat) -> r ∈ l -> s ∈ k -> disjoint r s.
Proof.
  rewrite Forall_app, !Forall_forall. intros [Hl Hk] Ho Hr Hs.
  destruct (Hl _ Hr) as (_ & ? & _), (Hk _ Hs) as (_ & ? & _). unfold disjoint.
  specialize (Ho (Z.max r.1 s.1)). pose proof (cnt_in l r (Z.max r.1 s.1) Hr).
  pose proof (cnt_in k s (Z.max r.1 s.1) Hs).
  destruct (Z.le_gt_cases (r.1 + r.2) s.1); [by left|]. destruct (Z.le_gt_cases (s.1 + s.2) r.1); [by right|].
  exfalso. revert H1 H2. inr_cases.
Qed.


Definition demo_mem : mem := fun _ => 170.


(** What an ordinary [mmap] of [length] bytes does, on every branch.  If a
    freed region fits, the mapping is the start of the smallest one that does,
    the bump pointer stays, and up to 64 MiB come back zeroed.  Otherwise the
    mapping is the old bump pointer, advanced by the rounded length, unless that
    would pass the end of RAM: then the result is [ENOMEM] and nothing changes. *)
Theorem mmap_functional st live m addr length flags :
  mm_inv st live -> unfixed addr flags -> 0 < length <= 2 ^ 63 ->
  let n := page_up length in
  let '(a, st', m') := sys_mmap st m addr length flags in
  (exists size, (a, size) ∈ FREE_REGIONS st /\ n <= size /\
     (forall r, r ∈ FREE_REGIONS st -> n <= r.2 -> size <= r.2) /\
     MMAP_NEXT st' = MMAP_NEXT st /\
     (n <= 67108864 -> forall x, a <= x < a + n -> m' x = 0) /\
     (forall x, x < a \/ a + n <= x -> m' x = m x)) \/
  ((forall r, r ∈ FREE_REGIONS st -> r.2 < n) /\ m' = m /\ FREE_REGIONS st' = FREE_REGIONS st /\
   (if MMAP_LIMIT <? MMAP_NEXT st + n
    then a = ENOMEM /\ MMAP_NEXT st' = MMAP_NEXT st
    else a = MMAP_NEXT st /\ MMAP_NEXT st' = MMAP_NEXT st + n)).
Proof.
  pose proof limits as [HB HL]. intros Hi Hu Hlen n. pose proof Hi as [Hf Hl Hn Hal Ho Hb].
  pose proof (page_up_spec length ltac:(lia)) as [Hpu Hpm]. fold n in Hpu, Hpm.
  rewrite sys_mmap_unfixed by done. fold n.
  pose proof (free_regions_take_spec (FREE_REGIONS st) n Hf ltac:(lia) Hpm) as Ht.
  destruct (free_regions_take _ n) as [[r|] free'].
  - left. destruct Ht as (_ & Hr & _ & size & Hin & Hfit & Hmin). pose proof Hr as (? & ? & ? & _). cbn [fst snd] in *.
    rewrite i64_small by lia. exists size. repeat (split; [done|]). unfold eager_zero, EAGER_ZERO. split.
    + intros Hn64 x Hx. replace (n <=? 67108864) with true by (symmetry; apply Z.leb_le; lia).
      unfold mem_zero. by replace (_ && _) with true by (symmetry; apply andb_true_iff; rewrite Z.leb_le, Z.ltb_lt; lia).
    + intros x Hx. destruct (n <=? 67108864); [|done]. by apply mem_zero_outside.
  - destruct Ht as (_ & Hnone). unfold sat_add, U64_MAX.
    destruct (MMAP_LIMIT <? MMAP_NEXT st + n) eqn:E; bool_to_prop.
    + replace (MMAP_LIMIT <? Z.min _ _) with true by (symmetry; apply Z.ltb_lt; lia). by right.
    + rewrite Z.min_r by lia. replace (MMAP_LIMIT <? _) with false by (symmetry; apply Z.ltb_ge; lia).
      rewrite i64_small by lia. by right.
Qed.

Lemma mmap_functional_witness :
  let '(a, st', m') := sys_mmap boot_state demo_mem 0 5000 0 in
  (exists size, (a, size) ∈ FREE_REGIONS boot_state /\ 8192 <= size /\
     (forall r, r ∈ FREE_REGIONS boot_state -> 8192 <= r.2 -> size <= r.2) /\
     MMAP_NEXT st' = MMAP_NEXT boot_state /\
     (8192 <= 67108864 -> forall x, a <= x < a + 8192 -> m' x = 0) /\
     (forall x, x < a \/ a + 8192 <= x -> m' x = demo_mem x)) \/
  ((forall r, r ∈ FREE_REGIONS boot_state -> r.2 < 8192) /\ m' = demo_mem /\ FREE_REGIONS st' = [] /\
   (if MMAP_LIMIT <? MMAP_NEXT boot_state + 8192
    then a = ENOMEM /\ MMAP_NEXT st' = MMAP_NEXT boot_state
    else a = MMAP_NEXT boot_state /\ MMAP_NEXT st' = MMAP_NEXT boot_state + 8192)).
Proof.
  refine (mmap_functional boot_state [] demo_mem 0 5000 0 boot_mm_inv (or_introl eq_refl) _).
  lia.
Defined.

(** A [length] of zero, or one within a page of [2^64], rounds to zero
    pages: with nothing on the free list [mmap] reports success and reserves
    nothing, so the next call returns the same address. *)
Theorem mmap_rounds_to_nothing st m length :
  FREE_REGIONS st = [] -> MMAP_BASE <= MMAP_NEXT st <= MMAP_LIMIT ->
  length = 0 \/ 2 ^ 64 - 4095 <= length < 2 ^ 64 ->
  sys_mmap st m 0 length 0 = (MMAP_NEXT st, st, m).
Proof.
  pose proof limits as [HB HL]. intros Hf Hn Hlen.
  assert (Hz : page_up length = 0).
  { unfold page_up, u64. assert (Hs : 0 <= (length + 4095) mod 2 ^ 64 < 4096).
    { destruct Hlen as [->|Hlen]; [vm_compute; split; congruence|].
      replace ((length + 4095) mod 2 ^ 64) with (length + 4095 - 2 ^ 64); [lia|].
      apply (Z.mod_unique_pos _ _ 1); lia. }
    pose proof (and_not_ones ((length + 4095) mod 2 ^ 64) 12 ltac:(lia) ltac:(lia)) as H.
    change (Z.ones 12) with 4095 in H. change (2 ^ 12) with 4096 in H. rewrite H.
    rewrite (Z.mod_small _ 4096) by lia. lia. }
  rewrite sys_mmap_unfixed by (by left). rewrite Hz, Hf. cbn [free_regions_take best_fit].
  unfold sat_add, U64_MAX. rewrite Z.add_0_r, Z.min_r by lia.
  replace (MMAP_LIMIT <? _) with false by (symmetry; apply Z.ltb_ge; lia).
  rewrite i64_small by lia. destruct st. done.
Qed.

Lemma mmap_rounds_to_nothing_witness :
  sys_mmap boot_state demo_mem 0 (2 ^ 64 - 1) 0 = (MMAP_BASE, boot_state, demo_mem).
Proof.
  refine (mmap_rounds_to_nothing boot_state demo_mem (2 ^ 64 - 1) eq_refl _ _).
  - vm_compute. split; congruence.
  - right. lia.
Defined.

(** A [MAP_FIXED] mapping above the bump pointer is not reserved: the next
    ordinary [mmap] returns the same pages. *)
Theorem mmap_fixed_not_reserved :
  let '(a, st1, m1) := sys_mmap boot_state demo_mem MMAP_BASE 4096 MAP_FIXED in
  let '(c, _, _) := sys_mmap st1 m1 0 4096 0 in
  a = MMAP_BASE /\ c = MMAP_BASE.
Proof. vm_compute. auto. Qed.

(** The end of an [munmap] range is computed modulo [2^64]: an
    over-long length passes the range test, the free list then claims memory
    past the end of RAM, and a later [mmap] returns it. *)
Theorem munmap_wraps_past_ram :
  let '(a, st1, m1) := sys_mmap boot_state demo_mem 0 4096 0 in
  let '(r, st2) := sys_munmap st1 (MMAP_BASE + 4096) (2 ^ 64 - MMAP_BASE) in
  let '(c, st3, _) := sys_mmap st2 m1 0 2415919104 0 in
  a = MMAP_BASE /\ r = 0 /\ c = MMAP_BASE + 4096 /\ MMAP_LIMIT < c + 2415919104.
Proof. vm_compute. auto. Qed.
