(* ===== verification/Sched.v ===== *)
(** * The SMP thread scheduler ([src/src/sched.rs])

    The scheduler runs on several CPUs at once, so it is modelled as a machine
    that interleaves their steps.  Each CPU executes a kernel stack: the thread
    the stack belongs to and the point it has reached ([pc], one constructor per
    point of the functions of [sched.rs] where another CPU can get in between).
    A saved [ThreadCtx] is such a stack, and [context_switch] stores one and
    loads another.  [cpu_step] executes the code from one point to the next: a
    step takes at most one lock or runs one critical section.  A step that
    waits for a spin lock is not enabled while the lock is held.

    The per-CPU arrays of the source ([CPU_QUEUES], [IDLE_CTX],
    [PENDING_UNLOCK_BUCKET], [NEED_RESCHED]) are the fields of one record per
    CPU.  Registers and FPU state are part of the stack; log lines are left
    out. *)

From S2P Require Import Prelude.

Definition MAX_THREADS : nat := 32.
Definition MAX_CPUS : nat := 16.
Definition FUTEX_BUCKETS : Z := 16.
Definition PENDING_WAKES_PER_BUCKET : nat := 8.
Definition BLOCKING_ARM_FALLBACK_NS : Z := 120000000000.
Definition BLOCKED_RESCUE_NS : Z := 5000000000.
Definition KSTACK_USABLE : Z := 16384.
Definition PREEMPT_REGION_SIZE : Z := 256.
Definition CLONE_PARENT_SETTID : Z := 1048576.  (* 0x0010_0000 *)
Definition CLONE_CHILD_SETTID : Z := 16777216.  (* 0x0100_0000 *)
Definition EAGAIN : Z := -11.
Definition ETIMEDOUT : Z := -110.

Inductive State := Ready | Running | Blocked | Dead.

Definition is_blocked (st : State) : bool := match st with Blocked => true | _ => false end.

(** The arguments of [spawn], with the parent's saved RCX and R9. *)
Record clone_args := mkClone {
  cl_fn_ptr : Z; cl_stack : Z; cl_tls : Z; cl_child_tid : Z; cl_parent_tid : Z; cl_flags : Z;
  cl_r9 : Z; cl_rip : Z
}.

(** Who called [yield_current]: the exit path of a system call that returns
    [r], the body of a system call, or the boot loop of an application
    processor. *)
Inductive ykont := YUser (r : Z) | YExit (r : Z) | YAp.

(** Who called [process_rescues]. *)
Inductive rkont := RYield (k : ykont) | RResched (r : Z) | RIdle.

(** The points a kernel stack can be at. *)
Inductive pc :=
  (* user code whose last system call returned r; the end of a system call; check_resched *)
  | User (r : Z) | Exit (r : Z) | Resched (r : Z)
  (* clone_child_return *)
  | CloneChild
  (* cpu_idle_loop *)
  | IdleTop | IdleDisable | IdleCheck | IdleHlt | IdlePop | IdleNext (n : nat) | IdleSwitch (n : nat)
  | IdleBack | IdleReset
  (* the boot loop of an application processor *)
  | ApHlt
  (* process_rescues *)
  | Rescue (i : nat) (k : rkont) | RescueRead (i : nat) (k : rkont) | RescueLock (i b : nat) (k : rkont)
  | RescueTLock (i b : nat) (k : rkont) | RescueDo (i b : nat) (k : rkont)
  (* yield_current *)
  | Yield (k : ykont) | YieldPick (k : ykont) | YieldSwitch (cur next : nat) (k : ykont) | YieldBack (k : ykont)
  (* futex_wait_until *)
  | Wait (addr val : Z) (deadline : option Z) | WaitLock (addr val : Z) (deadline : option Z)
  | WaitCheck (addr val : Z) (deadline : option Z) | WaitMode (addr val : Z) (deadline : option Z)
  | WaitMark (addr val : Z) (deadline : option Z) | WaitPick (b t : nat)
  | WaitSwitch (b t : nat) (next : option nat) | WaitBack (t : nat) | WaitResume (t : nat)
  (* futex_wake *)
  | WakeLock (addr count : Z) | WakeTLock (addr count : Z) | WakeScan (addr count : Z) (i : nat) (woken : Z)
  (* spawn *)
  | Spawn (a : clone_args) | SpawnStack (a : clone_args) (t : nat) | SpawnLock (a : clone_args) (t : nat) (top : Z)
  | SpawnInsert (a : clone_args) (t : nat) (top : Z)
  | SpawnScan (a : clone_args) (t cpu best : nat) (best_len : Z) (found_idle : bool)
  | SpawnPush (t best : nat) | SpawnIpi (t best : nat)
  (* thread_exit *)
  | ThreadExit | ExitSwitch (t : nat) | DeadHlt.

(** A kernel stack: the thread it belongs to ([None]: the CPU's idle or boot
    stack) and the point it is at. *)
Record kstack := mkStack { owner : option nat; at_pc : pc }.

Record Thread := mkThread {
  tid : nat;
  state : State;
  ctx : kstack;
  kernel_stack_top : Z;
  user_stack : Z;
  fn_ptr : Z;
  tls : Z;
  child_tid_ptr : Z;
  futex_addr : Z;
  futex_val : Z;
  in_idle_ctx : bool;
  clone_r9 : Z;
  clone_rip : Z;
  home_cpu : nat;
  wait_deadline_ns : Z;
  wait_timed_out : bool;
  blocked_since_ns : Z
}.

Record Cpu := mkCpu {
  current : option nat;
  queue : list nat;
  idle : bool;
  exec : kstack;           (* the stack the CPU is executing *)
  idle_ctx : kstack;       (* IDLE_CTX[cpu] *)
  gs_kstack : Z;           (* gs:[0], set by set_current_kernel_stack *)
  pending_unlock : Z;      (* PENDING_UNLOCK_BUCKET[cpu] *)
  need_resched : bool;     (* NEED_RESCHED[cpu] *)
  ipi : bool               (* an inter-processor interrupt is pending *)
}.

Record sched := mkSched {
  THREADS : list (option Thread);
  CPUS : list Cpu;
  PENDING_WAKES : list (list Z);
  FUTEX_LOCKS : list bool;
  THREAD_LOCK : bool;
  RESCUE_REQUESTED : list bool;
  NEXT_TID : Z;
  KSTACK_NEXT : Z;
  NUM_CPUS : nat;
  FUTEX_BLOCKING : bool;
  FIRST_SPINYIELD_NS : Z;
  memory : mem
}.

(** ** Field updates *)

Definition set_ctx (k : kstack) (t : Thread) : Thread :=
  mkThread (tid t) (state t) k (kernel_stack_top t) (user_stack t) (fn_ptr t) (tls t) (child_tid_ptr t)
    (futex_addr t) (futex_val t) (in_idle_ctx t) (clone_r9 t) (clone_rip t) (home_cpu t) (wait_deadline_ns t)
    (wait_timed_out t) (blocked_since_ns t).
Definition set_state (st : State) (t : Thread) : Thread :=
  mkThread (tid t) st (ctx t) (kernel_stack_top t) (user_stack t) (fn_ptr t) (tls t) (child_tid_ptr t)
    (futex_addr t) (futex_val t) (in_idle_ctx t) (clone_r9 t) (clone_rip t) (home_cpu t) (wait_deadline_ns t)
    (wait_timed_out t) (blocked_since_ns t).
Definition set_home (h : nat) (t : Thread) : Thread :=
  mkThread (tid t) (state t) (ctx t) (kernel_stack_top t) (user_stack t) (fn_ptr t) (tls t) (child_tid_ptr t)
    (futex_addr t) (futex_val t) (in_idle_ctx t) (clone_r9 t) (clone_rip t) h (wait_deadline_ns t)
    (wait_timed_out t) (blocked_since_ns t).
(** The wait fields: address, value, idle flag, deadline, timed-out flag, block time. *)
Definition set_wait (a v : Z) (ic : bool) (d : Z) (timed : bool) (since : Z) (t : Thread) : Thread :=
  mkThread (tid t) (state t) (ctx t) (kernel_stack_top t) (user_stack t) (fn_ptr t) (tls t) (child_tid_ptr t)
    a v ic (clone_r9 t) (clone_rip t) (home_cpu t) d timed since.

Definition set_exec (k : kstack) (c : Cpu) : Cpu :=
  mkCpu (current c) (queue c) (idle c) k (idle_ctx c) (gs_kstack c) (pending_unlock c) (need_resched c) (ipi c).
Definition set_idle_ctx (k : kstack) (c : Cpu) : Cpu :=
  mkCpu (current c) (queue c) (idle c) (exec c) k (gs_kstack c) (pending_unlock c) (need_resched c) (ipi c).
Definition set_gs (z : Z) (c : Cpu) : Cpu :=
  mkCpu (current c) (queue c) (idle c) (exec c) (idle_ctx c) z (pending_unlock c) (need_resched c) (ipi c).
Definition set_unlock (z : Z) (c : Cpu) : Cpu :=
  mkCpu (current c) (queue c) (idle c) (exec c) (idle_ctx c) (gs_kstack c) z (need_resched c) (ipi c).
Definition set_resched (b : bool) (c : Cpu) : Cpu :=
  mkCpu (current c) (queue c) (idle c) (exec c) (idle_ctx c) (gs_kstack c) (pending_unlock c) b (ipi c).
Definition set_ipi (b : bool) (c : Cpu) : Cpu :=
  mkCpu (current c) (queue c) (idle c) (exec c) (idle_ctx c) (gs_kstack c) (pending_unlock c) (need_resched c) b.
(** The fields of [CpuQueue]. *)
Definition set_run (cur : option nat) (q : list nat) (b : bool) (c : Cpu) : Cpu :=
  mkCpu cur q b (exec c) (idle_ctx c) (gs_kstack c) (pending_unlock c) (need_resched c) (ipi c).
Definition set_pc (p : pc) (c : Cpu) : Cpu := set_exec (mkStack (owner (exec c)) p) c.

Definition with_threads (l : list (option Thread)) (s : sched) : sched :=
  mkSched l (CPUS s) (PENDING_WAKES s) (FUTEX_LOCKS s) (THREAD_LOCK s) (RESCUE_REQUESTED s) (NEXT_TID s)
    (KSTACK_NEXT s) (NUM_CPUS s) (FUTEX_BLOCKING s) (FIRST_SPINYIELD_NS s) (memory s).
Definition with_cpus (l : list Cpu) (s : sched) : sched :=
  mkSched (THREADS s) l (PENDING_WAKES s) (FUTEX_LOCKS s) (THREAD_LOCK s) (RESCUE_REQUESTED s) (NEXT_TID s)
    (KSTACK_NEXT s) (NUM_CPUS s) (FUTEX_BLOCKING s) (FIRST_SPINYIELD_NS s) (memory s).
Definition with_wakes (l : list (list Z)) (s : sched) : sched :=
  mkSched (THREADS s) (CPUS s) l (FUTEX_LOCKS s) (THREAD_LOCK s) (RESCUE_REQUESTED s) (NEXT_TID s)
    (KSTACK_NEXT s) (NUM_CPUS s) (FUTEX_BLOCKING s) (FIRST_SPINYIELD_NS s) (memory s).
Definition with_locks (l : list bool) (tl : bool) (s : sched) : sched :=
  mkSched (THREADS s) (CPUS s) (PENDING_WAKES s) l tl (RESCUE_REQUESTED s) (NEXT_TID s)
    (KSTACK_NEXT s) (NUM_CPUS s) (FUTEX_BLOCKING s) (FIRST_SPINYIELD_NS s) (memory s).
Definition with_rescue (l : list bool) (s : sched) : sched :=
  mkSched (THREADS s) (CPUS s) (PENDING_WAKES s) (FUTEX_LOCKS s) (THREAD_LOCK s) l (NEXT_TID s)
    (KSTACK_NEXT s) (NUM_CPUS s) (FUTEX_BLOCKING s) (FIRST_SPINYIELD_NS s) (memory s).
Definition with_counters (nt ks : Z) (s : sched) : sched :=
  mkSched (THREADS s) (CPUS s) (PENDING_WAKES s) (FUTEX_LOCKS s) (THREAD_LOCK s) (RESCUE_REQUESTED s) nt
    ks (NUM_CPUS s) (FUTEX_BLOCKING s) (FIRST_SPINYIELD_NS s) (memory s).
Definition with_valve (b : bool) (first : Z) (s : sched) : sched :=
  mkSched (THREADS s) (CPUS s) (PENDING_WAKES s) (FUTEX_LOCKS s) (THREAD_LOCK s) (RESCUE_REQUESTED s) (NEXT_TID s)
    (KSTACK_NEXT s) (NUM_CPUS s) b first (memory s).
Definition with_memory (m : mem) (s : sched) : sched :=
  mkSched (THREADS s) (CPUS s) (PENDING_WAKES s) (FUTEX_LOCKS s) (THREAD_LOCK s) (RESCUE_REQUESTED s) (NEXT_TID s)
    (KSTACK_NEXT s) (NUM_CPUS s) (FUTEX_BLOCKING s) (FIRST_SPINYIELD_NS s) m.

Definition thread (s : sched) (i : nat) : option Thread := THREADS s !! i ≫= id.
Definition on_thread (i : nat) (f : Thread -> Thread) (s : sched) : sched :=
  with_threads (alter (fmap f) i (THREADS s)) s.
Definition on_cpu (c : nat) (f : Cpu -> Cpu) (s : sched) : sched := with_cpus (alter f c (CPUS s)) s.
Definition goto (c : nat) (p : pc) (s : sched) : sched := on_cpu c (set_pc p) s.

(** ** Locks *)

Definition futex_bucket (addr : Z) : nat := Z.to_nat ((addr / 4) mod FUTEX_BUCKETS).

Definition unlock_bucket (b : nat) (s : sched) : sched := with_locks (<[b := false]> (FUTEX_LOCKS s)) (THREAD_LOCK s) s.
Definition unlock_threads (s : sched) : sched := with_locks (FUTEX_LOCKS s) false s.

(** Take a lock, or wait: [None] while it is held. *)
Definition lock_bucket (b : nat) (s : sched) : option sched :=
  match FUTEX_LOCKS s !! b with
  | Some false => Some (with_locks (<[b := true]> (FUTEX_LOCKS s)) (THREAD_LOCK s) s)
  | _ => None
  end.
Definition lock_threads (s : sched) : option sched :=
  if THREAD_LOCK s then None else Some (with_locks (FUTEX_LOCKS s) true s).

(** [PENDING_UNLOCK_BUCKET[cpu].swap(-1)], then force the bucket's lock open. *)
Definition release_pending_unlock (c : nat) (s : sched) : sched :=
  match CPUS s !! c with
  | Some k =>
      let s1 := on_cpu c (set_unlock (-1)) s in
      if 0 <=? pending_unlock k then unlock_bucket (Z.to_nat (pending_unlock k)) s1 else s1
  | None => s
  end.

(** ** Pending wakes *)

Definition insert_slot (addr : Z) (addrs : list Z) : list Z :=
  if existsb (Z.eqb addr) addrs then addrs
  else match position (Z.eqb 0) addrs with
       | Some i => <[i := addr]> addrs
       | None => addrs
       end.

Definition pending_wake_insert (b : nat) (addr : Z) (s : sched) : sched :=
  with_wakes (alter (insert_slot addr) b (PENDING_WAKES s)) s.

Definition pending_wake_consume (b : nat) (addr : Z) (s : sched) : bool * sched :=
  match PENDING_WAKES s !! b ≫= position (Z.eqb addr) with
  | Some i => (true, with_wakes (alter (fun addrs => <[i := 0]> addrs) b (PENDING_WAKES s)) s)
  | None => (false, s)
  end.

(** ** Context switch *)

(** The [ThreadCtx] a switch saves to or loads from: a thread's, or the CPU's
    idle context. *)
Inductive ctxref := CThread (t : nat) | CIdle.

Definition save_ctx (c : nat) (r : ctxref) (k : kstack) (s : sched) : sched :=
  match r with
  | CThread t => on_thread t (set_ctx k) s
  | CIdle => on_cpu c (set_idle_ctx k) s
  end.

Definition load_ctx (c : nat) (r : ctxref) (s : sched) : option kstack :=
  match r with
  | CThread t => ctx <$> thread s t
  | CIdle => idle_ctx <$> CPUS s !! c
  end.

(** Save the executing stack, to resume at [p], in [from]; continue on [to]. *)
Definition context_switch (c : nat) (from : ctxref) (p : pc) (to : ctxref) (s : sched) : option sched :=
  k ← CPUS s !! c;
  let s1 := save_ctx c from (mkStack (owner (exec k)) p) s in
  k' ← load_ctx c to s1;
  Some (on_cpu c (set_exec k') s1).

Definition set_current_kernel_stack (c : nat) (top : Z) (s : sched) : sched := on_cpu c (set_gs top) s.

(** The kernel stack of the next thread, 0 when the slot is empty. *)
Definition kstack_of (s : sched) (t : nat) : Z :=
  match thread s t with Some th => kernel_stack_top th | None => 0 end.

Definition push_queue (t : nat) (c : Cpu) : Cpu := set_run (current c) (queue c ++ [t]) (idle c) c.

(** ** process_rescues *)

Definition after_rescues (k : rkont) : pc :=
  match k with RYield k' => YieldPick k' | RResched r => Resched r | RIdle => IdleDisable end.

Definition rescued (now : Z) (t : Thread) : Thread :=
  let was_timed_out := negb (wait_deadline_ns t =? 0) && (wait_deadline_ns t <=? now) in
  set_state Ready
    (set_wait 0 (futex_val t) (in_idle_ctx t) 0 (if was_timed_out then true else wait_timed_out t) 0 t).

(** The body under the locks: the state is checked again, the thread made
    ready and queued on its home CPU unless it is queued there already. *)
Definition rescue (c i : nat) (now : Z) (s : sched) : sched :=
  match thread s i with
  | Some t =>
      if is_blocked (state t) then
        let s1 := on_thread i (rescued now) s in
        let s2 :=
          if (home_cpu t <? MAX_CPUS)%nat then
            on_cpu (home_cpu t) (fun k => if existsb (Nat.eqb (tid t)) (queue k) then k else push_queue (tid t) k) s1
          else s1 in
        if negb (home_cpu t =? c)%nat then on_cpu (home_cpu t) (set_ipi true) s2 else s2
      else s
  | None => s
  end.

(** ** futex_wake *)

Definition woken_thread (t : Thread) : Thread :=
  set_state Ready (set_wait 0 (futex_val t) false (wait_deadline_ns t) (wait_timed_out t) 0 t).

(** One iteration of the scan: wake thread [i] if it waits on [addr]. *)
Definition wake_one (c : nat) (addr : Z) (i : nat) (s : sched) : bool * sched :=
  match thread s i with
  | Some t =>
      if is_blocked (state t) && (futex_addr t =? addr) then
        let s1 := on_cpu (home_cpu t) (push_queue (tid t)) (on_thread i woken_thread s) in
        (true, if negb (home_cpu t =? c)%nat then on_cpu (home_cpu t) (set_ipi true) s1 else s1)
      else (false, s)
  | None => (false, s)
  end.

(** ** spawn *)

Definition new_thread (a : clone_args) (t : nat) (top : Z) : Thread :=
  mkThread t Ready (mkStack (Some t) CloneChild) top (cl_stack a) (cl_fn_ptr a) (cl_tls a) (cl_child_tid a)
    0 0 false (cl_r9 a) (cl_rip a) 0 0 false 0.

(** The stores of the new thread id the clone flags ask for. *)
Definition store_tids (a : clone_args) (t : nat) (m : mem) : mem :=
  let m1 := if negb (Z.land (cl_flags a) CLONE_PARENT_SETTID =? 0) && negb (cl_parent_tid a =? 0)
            then store32 m (cl_parent_tid a) (Z.of_nat t) else m in
  if negb (Z.land (cl_flags a) CLONE_CHILD_SETTID =? 0) && negb (cl_child_tid a =? 0)
  then store32 m1 (cl_child_tid a) (Z.of_nat t) else m1.

(** ** The steps of one CPU *)

(** What the program running on a CPU does next, when it is in user code; in
    kernel code the only choice is to go on ([Go]), but a system call that
    polls may yield again before it ends. *)
Inductive act :=
  | Go
  | Store (addr : Z) (data : bytes)
  | FutexWait (addr val : Z) (deadline : option Z)
  | FutexWake (addr count : Z)
  | Clone (a : clone_args)
  | YieldIn (r : Z)            (* a system call that calls yield_current, then returns r *)
  | Syscall (r : Z)            (* any other system call that returns r *)
  | EnableBlocking (r : Z)     (* a write of the boot marker: enable_blocking_futex *)
  | ExitThread.

Definition user_step (c : nat) (a : act) (s : sched) : option sched :=
  match a with
  | Go => None
  | Store addr data => Some (with_memory (mem_write (memory s) addr data) s)
  | FutexWait addr val d => Some (goto c (Wait addr val d) s)
  | FutexWake addr n => Some (goto c (WakeLock addr n) s)
  | Clone args => Some (goto c (Spawn args) s)
  | YieldIn r => Some (goto c (Yield (YExit r)) s)
  | Syscall r => Some (goto c (Exit r) s)
  | EnableBlocking r => Some (goto c (Exit r) (with_valve true (FIRST_SPINYIELD_NS s) s))
  | ExitThread => Some (goto c ThreadExit s)
  end.

Definition exit_step (c : nat) (a : act) (r : Z) (s : sched) : option sched :=
  match a with
  | Go => Some (goto c (Rescue 0 (RResched r)) s)
  | Store addr data => Some (with_memory (mem_write (memory s) addr data) s)
  | YieldIn r' => Some (goto c (Yield (YExit r')) s)
  | _ => None
  end.

Definition rescue_step (c : nat) (now : Z) (p : pc) (s : sched) : option sched :=
  match p with
  | Rescue i k =>
      match RESCUE_REQUESTED s !! i with
      | Some true => Some (goto c (RescueRead i k) (with_rescue (<[i := false]> (RESCUE_REQUESTED s)) s))
      | Some false => Some (goto c (Rescue (S i) k) s)
      | None => Some (goto c (after_rescues k) s)
      end
  | RescueRead i k =>
      match thread s i with
      | Some t =>
          if negb (is_blocked (state t)) then Some (goto c (Rescue (S i) k) s)
          else if futex_addr t =? 0 then Some (goto c (Rescue (S i) k) s)
          else Some (goto c (RescueLock i (futex_bucket (futex_addr t)) k) s)
      | None => Some (goto c (Rescue (S i) k) s)
      end
  | RescueLock i b k => goto c (RescueTLock i b k) <$> lock_bucket b s
  | RescueTLock i b k => goto c (RescueDo i b k) <$> lock_threads s
  | RescueDo i b k => Some (goto c (Rescue (S i) k) (unlock_bucket b (unlock_threads (rescue c i now s))))
  | _ => None
  end.

Definition yield_ret (k : ykont) : pc :=
  match k with YUser r => User r | YExit r => Exit r | YAp => ApHlt end.

Definition yield_step (c : nat) (p : pc) (s : sched) : option sched :=
  k0 ← CPUS s !! c;
  match p with
  | Yield k => Some (goto c (Rescue 0 (RYield k)) s)
  | YieldPick k =>
      match current k0, queue k0 with
      | None, [] => Some (goto c (yield_ret k) s)
      | None, next :: q =>
          let s1 := on_cpu c (set_run (Some next) q false) s in
          match thread s1 next with
          | Some t => Some (on_cpu c (set_exec (ctx t)) (set_current_kernel_stack c (kernel_stack_top t) s1))
          | None => Some (goto c (yield_ret k) s1)
          end
      | Some cur, [] => Some (goto c (yield_ret k) s)
      | Some cur, next :: q =>
          Some (goto c (YieldSwitch cur next k) (on_cpu c (set_run (Some next) (q ++ [cur]) (idle k0)) s))
      end
  | YieldSwitch cur next k =>
      let s1 := set_current_kernel_stack c (kstack_of s next) s in
      match thread s1 cur, thread s1 next with
      | Some _, Some _ => context_switch c (CThread cur) (YieldBack k) (CThread next) s1
      | _, _ => Some (goto c (yield_ret k) s1)
      end
  | YieldBack k => Some (goto c (yield_ret k) (release_pending_unlock c s))
  | _ => None
  end.

Definition wait_step (c : nat) (now : Z) (p : pc) (s : sched) : option sched :=
  k0 ← CPUS s !! c;
  match p with
  | Wait a v d =>
      if NEXT_TID s <=? 1 then Some (goto c (Yield (YExit 0)) s) else Some (goto c (WaitLock a v d) s)
  | WaitLock a v d => goto c (WaitCheck a v d) <$> lock_bucket (futex_bucket a) s
  | WaitCheck a v d =>
      let '(hit, s1) := pending_wake_consume (futex_bucket a) a s in
      if hit then Some (goto c (Exit 0) (unlock_bucket (futex_bucket a) s1))
      else if negb (load32 (memory s1) a =? v) then Some (goto c (Exit EAGAIN) (unlock_bucket (futex_bucket a) s1))
      else Some (goto c (WaitMode a v d) s1)
  | WaitMode a v d =>
      if FUTEX_BLOCKING s then Some (goto c (WaitMark a v d) s)
      else
        let first := if FIRST_SPINYIELD_NS s =? 0 then now else FIRST_SPINYIELD_NS s in
        Some (goto c (Yield (YExit 0)) (unlock_bucket (futex_bucket a) (with_valve false first s)))
  | WaitMark a v d =>
      match current k0 with
      | None => Some (goto c (Exit 0) (unlock_bucket (futex_bucket a) s))
      | Some t =>
          let mark th := set_state Blocked (set_wait a v (in_idle_ctx th) (default 0 d) false now th) in
          Some (goto c (WaitPick (futex_bucket a) t) (on_thread t mark s))
      end
  | WaitPick b t =>
      match queue k0 with
      | next :: q => Some (goto c (WaitSwitch b t (Some next)) (on_cpu c (set_run (Some next) q (idle k0)) s))
      | [] => Some (goto c (WaitSwitch b t None) (on_cpu c (set_run None [] true) s))
      end
  | WaitSwitch b t next =>
      let s1 := on_cpu c (set_unlock (Z.of_nat b)) s in
      match next with
      | Some n =>
          let s2 := set_current_kernel_stack c (kstack_of s1 n) s1 in
          match thread s2 t, thread s2 n with
          | Some _, Some _ => context_switch c (CThread t) (WaitBack t) (CThread n) s2
          | _, _ => Some (goto c (WaitBack t) s2)
          end
      | None =>
          match thread s1 t with
          | Some _ => context_switch c (CThread t) (WaitBack t) CIdle s1
          | None => Some (goto c (WaitBack t) s1)
          end
      end
  | WaitBack t => Some (goto c (WaitResume t) (release_pending_unlock c s))
  | WaitResume t =>
      match thread s t with
      | Some th =>
          let clear th := set_wait (futex_addr th) (futex_val th) (in_idle_ctx th) 0 false (blocked_since_ns th) th in
          Some (goto c (Exit (if wait_timed_out th then ETIMEDOUT else 0)) (on_thread t clear s))
      | None => Some (goto c (Exit 0) s)
      end
  | _ => None
  end.

Definition wake_step (c : nat) (p : pc) (s : sched) : option sched :=
  match p with
  | WakeLock a n => goto c (WakeTLock a n) <$> lock_bucket (futex_bucket a) s
  | WakeTLock a n => goto c (WakeScan a n 0 0) <$> lock_threads s
  | WakeScan a n i w =>
      if (i <? MAX_THREADS)%nat && (w <? n) then
        let '(hit, s1) := wake_one c a i s in
        Some (goto c (WakeScan a n (S i) (if hit then w + 1 else w)) s1)
      else
        let s1 := if w =? 0 then pending_wake_insert (futex_bucket a) a s else s in
        Some (goto c (Exit w) (unlock_bucket (futex_bucket a) (unlock_threads s1)))
  | _ => None
  end.

Definition spawn_step (c : nat) (p : pc) (s : sched) : option sched :=
  match p with
  | Spawn a =>
      let t := NEXT_TID s in
      let s1 := with_counters (u32 (t + 1)) (KSTACK_NEXT s) s in
      if Z.of_nat MAX_THREADS <=? t then Some (goto c (Exit 0) s1)
      else Some (goto c (SpawnStack a (Z.to_nat t)) s1)
  | SpawnStack a t =>
      let base := KSTACK_NEXT s in
      Some (goto c (SpawnLock a t (u64 (base + KSTACK_USABLE)))
              (with_counters (NEXT_TID s) (u64 (base + (KSTACK_USABLE + PREEMPT_REGION_SIZE))) s))
  | SpawnLock a t top => goto c (SpawnInsert a t top) <$> lock_threads s
  | SpawnInsert a t top =>
      Some (goto c (SpawnScan a t 0 0 U64_MAX false) (with_threads (<[t := Some (new_thread a t top)]> (THREADS s)) s))
  | SpawnScan a t cpu best best_len found =>
      if (cpu <? NUM_CPUS s)%nat then
        q ← CPUS s !! cpu;
        let len := zlen (queue q) in
        if idle q && negb found then Some (goto c (SpawnScan a t (S cpu) cpu len true) s)
        else if negb found && (len <? best_len) then Some (goto c (SpawnScan a t (S cpu) cpu len found) s)
        else Some (goto c (SpawnScan a t (S cpu) best best_len found) s)
      else
        let s1 := on_thread t (set_home best) s in
        Some (goto c (SpawnPush t best) (with_memory (store_tids a t (memory s1)) s1))
  | SpawnPush t best => Some (goto c (SpawnIpi t best) (on_cpu best (push_queue t) s))
  | SpawnIpi t best =>
      q ← CPUS s !! best;
      let s1 := if idle q && negb (best =? c)%nat then on_cpu best (set_ipi true) s else s in
      Some (goto c (Exit (Z.of_nat t)) (unlock_threads s1))
  | _ => None
  end.

Definition exit_thread_step (c : nat) (p : pc) (s : sched) : option sched :=
  k0 ← CPUS s !! c;
  match p with
  | ThreadExit =>
      let s1 := on_cpu c (set_run None (queue k0) true) s in
      match current k0 with
      | Some t => Some (goto c (ExitSwitch t) (on_thread t (set_state Dead) s1))
      | None => Some (goto c (ExitSwitch 0) s1)
      end
  | ExitSwitch t => _ ← thread s t; context_switch c (CThread t) DeadHlt CIdle s
  | _ => None
  end.

Definition idle_step (c : nat) (p : pc) (s : sched) : option sched :=
  k0 ← CPUS s !! c;
  match p with
  | IdleTop => Some (goto c (Rescue 0 RIdle) (release_pending_unlock c s))
  | IdleDisable => Some (goto c IdleCheck s)
  | IdleCheck => Some (goto c (match queue k0 with [] => IdleHlt | _ => IdlePop end) s)
  | IdlePop =>
      match queue k0 with
      | next :: q => Some (goto c (IdleNext next) (on_cpu c (set_run (current k0) q (idle k0)) s))
      | [] => Some (goto c IdleTop s)
      end
  | IdleNext n =>
      let s1 := on_cpu c (set_run (Some n) (queue k0) false) s in
      match thread s1 n with
      | Some t => Some (goto c (IdleSwitch n) (set_current_kernel_stack c (kernel_stack_top t) s1))
      | None => Some (goto c IdleTop s1)
      end
  | IdleSwitch n => context_switch c CIdle IdleBack (CThread n) s
  | IdleBack => Some (goto c IdleReset (release_pending_unlock c s))
  | IdleReset => Some (goto c IdleTop (on_cpu c (set_run None (queue k0) true) s))
  | _ => None
  end.

(** The next step of CPU [c]; [now] is what [monotonic_ns] reads during it. *)
Definition cpu_step (c : nat) (a : act) (now : Z) (s : sched) : option sched :=
  k0 ← CPUS s !! c;
  match at_pc (exec k0), a with
  | User _, _ => user_step c a s
  | Exit r, _ => exit_step c a r s
  | Resched r, Go =>
      let s1 := on_cpu c (set_resched false) s in
      Some (goto c (if need_resched k0 then Yield (YUser r) else User r) s1)
  | CloneChild, Go => Some (goto c (User 0) (release_pending_unlock c s))
  | (Rescue _ _ | RescueRead _ _ | RescueLock _ _ _ | RescueTLock _ _ _ | RescueDo _ _ _) as p, Go =>
      rescue_step c now p s
  | (Yield _ | YieldPick _ | YieldSwitch _ _ _ | YieldBack _) as p, Go => yield_step c p s
  | (Wait _ _ _ | WaitLock _ _ _ | WaitCheck _ _ _ | WaitMode _ _ _ | WaitMark _ _ _ | WaitPick _ _
    | WaitSwitch _ _ _ | WaitBack _ | WaitResume _) as p, Go => wait_step c now p s
  | (WakeLock _ _ | WakeTLock _ _ | WakeScan _ _ _ _) as p, Go => wake_step c p s
  | (Spawn _ | SpawnStack _ _ | SpawnLock _ _ _ | SpawnInsert _ _ _ | SpawnScan _ _ _ _ _ _ | SpawnPush _ _
    | SpawnIpi _ _) as p, Go => spawn_step c p s
  | (ThreadExit | ExitSwitch _) as p, Go => exit_thread_step c p s
  | (IdleTop | IdleDisable | IdleCheck | IdlePop | IdleNext _ | IdleSwitch _ | IdleBack | IdleReset) as p, Go =>
      idle_step c p s
  | _, _ => None
  end.

(** ** Interrupts *)

(** An interrupt ends the [hlt] a CPU is in. *)
Definition end_hlt (k : Cpu) : Cpu :=
  match at_pc (exec k) with
  | IdleHlt => set_pc IdlePop k
  | ApHlt => set_pc (Yield YAp) k
  | _ => k
  end.

Definition timer_tick (c : nat) (s : sched) : sched :=
  if (c <? MAX_CPUS)%nat then on_cpu c (set_resched true) s else s.

(** The iteration of [watchdog_wake] for thread [i]. *)
Definition watchdog_one (now : Z) (i : nat) (s : sched) : sched :=
  match thread s i with
  | Some t =>
      if negb (is_blocked (state t)) then s
      else if futex_addr t =? 0 then s
      else
        let value_changed := negb (load32 (memory s) (futex_addr t) =? futex_val t) in
        let timed_out := negb (wait_deadline_ns t =? 0) && (wait_deadline_ns t <=? now) in
        let stale := (wait_deadline_ns t =? 0) && negb (blocked_since_ns t =? 0)
                     && (u64 (blocked_since_ns t + BLOCKED_RESCUE_NS) <=? now) in
        if value_changed || timed_out || stale
        then with_rescue (<[i := true]> (RESCUE_REQUESTED s)) s else s
  | None => s
  end.

(** Arm real blocking if the boot marker never came. *)
Definition watchdog_arm (now : Z) (s : sched) : sched :=
  if negb (FUTEX_BLOCKING s) && negb (FIRST_SPINYIELD_NS s =? 0)
     && (u64 (FIRST_SPINYIELD_NS s + BLOCKING_ARM_FALLBACK_NS) <=? now)
  then with_valve true (FIRST_SPINYIELD_NS s) s else s.

Definition watchdog_wake (now : Z) (s : sched) : sched :=
  fold_left (fun s i => watchdog_one now i s) (seq 0 MAX_THREADS) (watchdog_arm now s).

(** ** The machine *)

(** [LWatch] is one iteration of a watchdog that some CPU's timer interrupt
    runs without locks; [LIpi] delivers a pending inter-processor interrupt,
    which is held back while the idle loop has interrupts disabled. *)
Inductive label :=
  | LCpu (c : nat) (a : act) (now : Z)
  | LTick (c : nat)
  | LArm (now : Z)
  | LWatch (i : nat) (now : Z)
  | LIpi (c : nat).

Definition step (l : label) (s : sched) : option sched :=
  match l with
  | LCpu c a now => cpu_step c a now s
  | LTick c => Some (on_cpu c end_hlt (timer_tick c s))
  | LArm now => Some (watchdog_arm now s)
  | LWatch i now => Some (watchdog_one now i s)
  | LIpi c =>
      k ← CPUS s !! c;
      match at_pc (exec k) with
      | IdleCheck => None
      | _ => if ipi k then Some (on_cpu c end_hlt (on_cpu c (set_ipi false) s)) else None
      end
  end.

Fixpoint run (ls : list label) (s : sched) : option sched :=
  match ls with
  | [] => Some s
  | l :: ls' => s1 ← step l s; run ls' s1
  end.

(** ** The system calls that enter the scheduler ([src/src/syscall.rs]) *)

(** [sys_futex], as the action it amounts to; the clock reads [now]. *)
Definition sys_futex (m : mem) (now uaddr op val timeout_ptr : Z) : act :=
  let cmd := Z.land op 127 in
  if (cmd =? 0) || (cmd =? 9) then
    let deadline :=
      if negb (timeout_ptr =? 0) then
        let tv_sec := load64 m timeout_ptr in
        let tv_nsec := load64 m (u64 (timeout_ptr + 8)) in
        Some (sat_add now (sat_add (sat_mul tv_sec 1000000000) tv_nsec))
      else None in
    FutexWait uaddr (u32 val) deadline
  else if cmd =? 1 then FutexWake uaddr (u32 val)
  else Syscall 0.

(** [sys_clone]; [r9] and [rip] are the saved registers of the caller. *)
Definition sys_clone (flags stack parent_tid child_tid tls r9 rip : Z) : act :=
  if stack =? 0 then Syscall (-22)
  else Clone (mkClone r9 stack tls child_tid parent_tid flags r9 rip).

Definition current_idx (s : sched) (c : nat) : nat :=
  match CPUS s !! c with Some k => default 0%nat (current k) | None => 0%nat end.
Definition has_child (s : sched) : bool := 1 <? NEXT_TID s.
Definition num_threads (s : sched) : Z := NEXT_TID s.

(** ** init *)

Definition main_thread (stack0 : Z) : Thread :=
  mkThread 0 Running (mkStack (Some 0%nat) (User 0)) stack0 0 0 0 0 0 0 false 0 0 0 0 false 0.

(** CPU 0 runs the main thread, the others wait in their boot loop.  [stack0]
    is the address of [syscall_stack_0_top]. *)
Definition boot_cpu (stack0 : Z) (c : nat) : Cpu :=
  match c with
  | O => mkCpu (Some 0%nat) [] false (mkStack (Some 0%nat) (User 0)) (mkStack None IdleTop) stack0 (-1) false false
  | S _ => mkCpu None [] true (mkStack None ApHlt) (mkStack None IdleTop) 0 (-1) false false
  end.

Definition init (num_cpus : nat) (stack0 : Z) (m : mem) : sched :=
  mkSched (Some (main_thread stack0) :: replicate (MAX_THREADS - 1) None)
    (boot_cpu stack0 <$> seq 0 MAX_CPUS)
    (replicate (Z.to_nat FUTEX_BUCKETS) (replicate PENDING_WAKES_PER_BUCKET 0))
    (replicate (Z.to_nat FUTEX_BUCKETS) false) false (replicate MAX_THREADS false)
    1 117440512 num_cpus false 0 m.
