(* ===== verification/SchedInv.v ===== *)
(** * The scheduler never loses or duplicates a thread

    The invariant of the machine of [Sched.v] and its proof.  Every thread that
    is neither blocked nor dead has exactly one place: the run queue of its home
    CPU, the CPU itself, or the hands of the step that is moving it; a blocked
    or dead thread has none.  Each thread's stack is executed by at most one
    CPU, its home, and a stack that is not executing is saved in the thread's
    context at a point the code may resume it from. *)

From S2P Require Import Prelude Sched.

(** ** Counting *)

Fixpoint occ (i : nat) (l : list nat) : nat :=
  match l with [] => 0 | x :: l' => Nat.b2n (x =? i) + occ i l' end%nat.

Lemma occ_app i l1 l2 : occ i (l1 ++ l2) = (occ i l1 + occ i l2)%nat.
Proof. induction l1 as [|x l1 IH]; simpl; lia. Qed.

Lemma occ_in i l : (1 <= occ i l)%nat <-> i ∈ l.
Proof.
  induction l as [|x l IH]; simpl; [split; [lia|by intros ?%not_elem_of_nil]|].
  rewrite elem_of_cons, <- IH. destruct (Nat.eqb_spec x i) as [->|Hne]; simpl.
  - split; [by left|lia].
  - split; [by right|]. intros [->|?]; [done|lia].
Qed.

(** The sum of [f] over a list. *)
Fixpoint total {A} (f : A -> nat) (l : list A) : nat :=
  match l with [] => 0 | k :: l' => f k + total f l' end%nat.

Section total.
Context {A : Type}.
Implicit Types (f : A -> nat) (l : list A) (k : A).

Lemma total_alter f g l c k :
  l !! c = Some k -> (total f (alter g c l) + f k = total f l + f (g k))%nat.
Proof.
  revert c. induction l as [|x l IH]; intros [|c]; try done.
  - intros [= ->]. change (alter g 0%nat (k :: l)) with (g k :: l). cbn [total]. lia.
  - intros Hk. change (alter g (S c) (x :: l)) with (x :: alter g c l). cbn [total].
    pose proof (IH c Hk). lia.
Qed.

Lemma total_member f l c k : l !! c = Some k -> (f k <= total f l)%nat.
Proof. revert c. induction l as [|x l IH]; intros [|c]; simpl; try done; [intros [= ->]; lia|]. intros Hk%IH. lia. Qed.

Lemma total_two f l c c' k k' :
  c <> c' -> l !! c = Some k -> l !! c' = Some k' -> (f k + f k' <= total f l)%nat.
Proof.
  revert c c'. induction l as [|x l IH]; intros [|c] [|c'] Hne Hc Hc'; simplify_eq/=; try done.
  - pose proof (total_member f _ _ _ Hc'). lia.
  - pose proof (total_member f _ _ _ Hc). lia.
  - assert (c <> c') by congruence. pose proof (IH c c' ltac:(done) Hc Hc'). lia.
Qed.

Lemma total_pos f l : (1 <= total f l)%nat -> exists c k, l !! c = Some k /\ (1 <= f k)%nat.
Proof.
  induction l as [|x l IH]; simpl; [lia|]. intros H. destruct (decide (1 <= f x)%nat).
  - by exists 0%nat, x.
  - destruct IH as (c & k & ? & ?); [lia|]. by exists (S c), k.
Qed.
End total.

(** ** The invariant *)

Definition yk_idle (k : ykont) : bool := match k with YAp => true | _ => false end.
Definition rk_idle (k : rkont) : bool := match k with RIdle => true | RYield k' => yk_idle k' | RResched _ => false end.

(** The points of a CPU that runs no thread. *)
Definition idle_pc (p : pc) : bool :=
  match p with
  | IdleTop | IdleDisable | IdleCheck | IdleHlt | IdlePop | IdleBack | IdleReset | ApHlt => true
  | Rescue _ k | RescueRead _ k | RescueLock _ _ k | RescueTLock _ _ k | RescueDo _ _ k => rk_idle k
  | Yield k | YieldPick k => yk_idle k
  | _ => false
  end.

(** The threads a CPU holds outside its queue. *)
Definition extra (k : Cpu) : list nat :=
  match at_pc (exec k) with
  | WaitPick _ _ => []
  | IdleNext n => n :: option_list (current k)
  | SpawnScan _ t _ _ _ _ | SpawnPush t _ => t :: option_list (current k)
  | _ => option_list (current k)
  end.

Definition places (k : Cpu) : list nat := queue k ++ extra k.

(** The threads whose stack is in use on a CPU, or being created there. *)
Definition spawning (p : pc) : list nat :=
  match p with
  | SpawnStack _ t | SpawnLock _ t _ | SpawnInsert _ t _ | SpawnScan _ t _ _ _ _ | SpawnPush t _ => [t]
  | _ => []
  end.
Definition owned (k : Cpu) : list nat := option_list (owner (exec k)) ++ spawning (at_pc (exec k)).

Definition is_dead (st : State) : bool := match st with Dead => true | _ => false end.
Definition live (s : sched) (i : nat) : bool :=
  match thread s i with Some t => negb (is_blocked (state t)) && negb (is_dead (state t)) | None => false end.

(** What the CPUs' part of the invariant reads of a thread. *)
Definition sig (s : sched) (i : nat) : option (nat * Z * bool) :=
  (fun t => (home_cpu t, kernel_stack_top t, is_dead (state t))) <$> thread s i.

Definition home_is (s : sched) (i c : nat) : Prop := exists z d, sig s i = Some (c, z, d).

Definition normal (k : Cpu) : Prop := exists t, owner (exec k) = Some t /\ current k = Some t.
Definition resting (k : Cpu) : Prop := owner (exec k) = None /\ current k = None.

(** How the stack, [current] and the point of a CPU fit together. *)
Definition shape (s : sched) (k : Cpu) : Prop :=
  match at_pc (exec k) with
  | WaitPick _ t | WaitBack t | WaitResume t => owner (exec k) = Some t /\ current k = Some t
  | WaitSwitch _ t next => owner (exec k) = Some t /\ current k = next
  | YieldSwitch cur next y => owner (exec k) = Some cur /\ current k = Some next /\ yk_idle y = false
  | YieldBack y => normal k /\ yk_idle y = false
  | ExitSwitch t => owner (exec k) = Some t /\ current k = None /\ exists h z, sig s t = Some (h, z, true)
  | DeadHlt => False
  | IdleNext n => resting k
  | IdleSwitch n => owner (exec k) = None /\ current k = Some n /\ gs_kstack k = kstack_of s n
  | SpawnStack _ t | SpawnLock _ t _ | SpawnInsert _ t _ =>
      normal k /\ sig s t = None /\ Z.of_nat t < NEXT_TID s /\ (t < MAX_THREADS)%nat
  | SpawnScan _ t _ best _ _ => normal k /\ (best < MAX_CPUS)%nat
  | SpawnPush t best => normal k /\ (best < MAX_CPUS)%nat /\ home_is s t best
  | SpawnIpi t best => normal k /\ (best < MAX_CPUS)%nat
  | p => if idle_pc p then resting k else normal k
  end.

Definition idle_stack (k : kstack) : Prop := k = mkStack None IdleTop \/ k = mkStack None IdleBack.

Record cpu_ok (s : sched) (c : nat) (k : Cpu) : Prop := {
  ok_shape : shape s k;
  ok_queue : forall i, i ∈ queue k -> home_is s i c;
  ok_current : forall i, current k = Some i -> home_is s i c;
  ok_owner : forall i, owner (exec k) = Some i -> home_is s i c /\ gs_kstack k = kstack_of s i;
  ok_next : forall i, at_pc (exec k) = IdleNext i -> home_is s i c;
  ok_idle : idle_stack (idle_ctx k)
}.

(** The points a saved thread stack can be resumed at. *)
Definition resumable (i : nat) (k : kstack) : Prop :=
  owner k = Some i /\
  match at_pc k with
  | YieldBack y => yk_idle y = false
  | WaitBack t => t = i
  | CloneChild => True
  | _ => False
  end.

Definition owns (s : sched) (c i : nat) : Prop := exists k, CPUS s !! c = Some k /\ owner (exec k) = Some i.

Record thread_ok (s : sched) (i : nat) (t : Thread) : Prop := {
  ok_tid : tid t = i;
  ok_next_tid : Z.of_nat i < NEXT_TID s;
  ok_home : (home_cpu t < MAX_CPUS)%nat;
  ok_parked : state t <> Dead -> ~ owns s (home_cpu t) i -> resumable i (ctx t)
}.

Record inv (s : sched) : Prop := {
  inv_threads_len : length (THREADS s) = MAX_THREADS;
  inv_cpus_len : length (CPUS s) = MAX_CPUS;
  inv_ncpus : (NUM_CPUS s <= MAX_CPUS)%nat;
  inv_next : 1 <= NEXT_TID s;
  inv_place : forall i, total (fun k => occ i (places k)) (CPUS s) = Nat.b2n (live s i);
  inv_own : forall i, (total (fun k => occ i (owned k)) (CPUS s) <= 1)%nat;
  inv_cpu : forall c k, CPUS s !! c = Some k -> cpu_ok s c k;
  inv_thread : forall i t, thread s i = Some t -> thread_ok s i t
}.

(** ** Reading a state after an update *)

Lemma thread_on_thread s i f j :
  thread (on_thread i f s) j = if decide (i = j) then f <$> thread s j else thread s j.
Proof.
  unfold thread, on_thread. cbn [THREADS with_threads]. destruct (decide (i = j)) as [->|Hne].
  - rewrite list_lookup_alter_eq. by destruct (THREADS s !! j) as [[t|]|].
  - by rewrite list_lookup_alter_ne.
Qed.

Lemma thread_eq s s' : THREADS s' = THREADS s -> forall i, thread s' i = thread s i.
Proof. intros H i. unfold thread. by rewrite H. Qed.

Lemma kstack_of_sig s i : kstack_of s i = match sig s i with Some (_, z, _) => z | None => 0 end.
Proof. unfold kstack_of, sig. by destruct (thread s i). Qed.

Lemma alter_insert {A} (f : A -> A) (l : list A) c k : l !! c = Some k -> alter f c l = <[c := f k]> l.
Proof. revert c. induction l as [|x l IH]; intros [|c]; simpl; try done; [by intros [= ->]|]. intros H. by rewrite <- IH. Qed.

Lemma on_cpu_lookup s c f x :
  CPUS (on_cpu c f s) !! x = if decide (c = x) then f <$> CPUS s !! x else CPUS s !! x.
Proof.
  cbn [on_cpu with_cpus CPUS]. destruct (decide (c = x)) as [->|Hne].
  - by rewrite list_lookup_alter_eq.
  - by rewrite list_lookup_alter_ne.
Qed.

Lemma live_sig s i : live s i = true -> exists h z, sig s i = Some (h, z, false).
Proof.
  unfold live, sig. destruct (thread s i) as [t|]; [|done]. cbn.
  intros H. apply andb_true_iff in H as [_ H]. apply negb_true_iff in H. rewrite H. eauto.
Qed.

(** ** Frame lemmas: what an update leaves in place *)

Section frame.
Context (s s' : sched).
Hypothesis Hsig : forall i, sig s' i = sig s i.
Hypothesis Hnext : NEXT_TID s <= NEXT_TID s'.

Lemma home_is_frame i c : home_is s i c -> home_is s' i c.
Proof using Hsig. intros (z & d & H). exists z, d. by rewrite Hsig. Qed.

Lemma kstack_frame i : kstack_of s' i = kstack_of s i.
Proof using Hsig. by rewrite !kstack_of_sig, Hsig. Qed.

Lemma shape_frame k : shape s k -> shape s' k.
Proof using Hsig Hnext.
  unfold shape. pose proof home_is_frame.
  destruct (at_pc (exec k)); try done; rewrite ?Hsig, ?kstack_frame; try done; naive_solver lia.
Qed.

Lemma cpu_ok_frame c k : cpu_ok s c k -> cpu_ok s' c k.
Proof using Hsig Hnext.
  pose proof home_is_frame as Hh. intros [H1 H2 H3 H4 H5 H6]. constructor; auto using shape_frame.
  intros i Hi. rewrite kstack_frame. naive_solver.
Qed.
End frame.

Lemma thread_ok_frame s s' i t t' :
  thread_ok s i t -> NEXT_TID s <= NEXT_TID s' -> tid t' = tid t -> home_cpu t' = home_cpu t -> ctx t' = ctx t ->
  (state t' <> Dead -> state t <> Dead) -> (owns s (home_cpu t) i -> owns s' (home_cpu t) i) ->
  thread_ok s' i t'.
Proof.
  intros [H1 H2 H3 H4] Hn Ht Hh Hc Hd Ho. constructor; [congruence|lia|congruence|].
  intros Hst Hno. rewrite Hc. apply H4; [auto|]. rewrite Hh in Hno. auto.
Qed.

(** A step that changes CPU [c] only. *)
Lemma inv_build_gen s s' c k g :
  inv s -> CPUS s !! c = Some k -> CPUS s' = alter g c (CPUS s) ->
  NUM_CPUS s' = NUM_CPUS s -> NEXT_TID s <= NEXT_TID s' -> length (THREADS s') = length (THREADS s) ->
  (forall x kx, x <> c -> CPUS s !! x = Some kx -> cpu_ok s' x kx) ->
  (forall i, occ i (places (g k)) + Nat.b2n (live s i) = occ i (places k) + Nat.b2n (live s' i))%nat ->
  (forall i, occ i (owned (g k)) <= occ i (owned k) \/
     total (fun k => occ i (owned k)) (CPUS s) = 0 /\ occ i (owned (g k)) <= 1)%nat ->
  cpu_ok s' c (g k) ->
  (forall i t, thread s' i = Some t -> thread_ok s' i t) ->
  inv s'.
Proof.
  intros Hi Hk Hc Hn Hnx Hlen Hoth Hpl Hown Hok Hth. pose proof Hi as [I1 I2 I3 I4 I5 I6 I7 I8].
  constructor; [congruence|by rewrite Hc, length_alter|congruence|lia|..].
  - intros i. rewrite Hc. pose proof (total_alter (fun k => occ i (places k)) g _ _ _ Hk).
    specialize (Hpl i). rewrite I5 in *. cbn beta in *. lia.
  - intros i. rewrite Hc. pose proof (total_alter (fun k => occ i (owned k)) g _ _ _ Hk).
    pose proof (total_member (fun k => occ i (owned k)) _ _ _ Hk).
    specialize (Hown i). specialize (I6 i). cbn beta in *. lia.
  - intros x kx. rewrite Hc. destruct (decide (c = x)) as [->|Hne].
    + rewrite list_lookup_alter_eq, Hk. by intros [= <-].
    + rewrite list_lookup_alter_ne by done. auto.
  - exact Hth.
Qed.

(** The same, when what the CPUs read of the threads stays. *)
Lemma inv_build s s' c k g :
  inv s -> CPUS s !! c = Some k -> CPUS s' = alter g c (CPUS s) ->
  NUM_CPUS s' = NUM_CPUS s -> NEXT_TID s <= NEXT_TID s' -> length (THREADS s') = length (THREADS s) ->
  (forall i, sig s' i = sig s i) ->
  (forall i, occ i (places (g k)) + Nat.b2n (live s i) = occ i (places k) + Nat.b2n (live s' i))%nat ->
  (forall i, occ i (owned (g k)) <= occ i (owned k) \/
     total (fun k => occ i (owned k)) (CPUS s) = 0 /\ occ i (owned (g k)) <= 1)%nat ->
  cpu_ok s' c (g k) ->
  (forall i t, thread s' i = Some t -> thread_ok s' i t) ->
  inv s'.
Proof.
  intros Hi Hk Hc Hn Hnx Hlen Hsig Hpl Hown Hok Hth. apply (inv_build_gen s s' c k g); auto.
  intros x kx _ Hx. apply (cpu_ok_frame s); auto. by apply (inv_cpu _ Hi).
Qed.

Lemma shape_local s s' k :
  NEXT_TID s <= NEXT_TID s' ->
  (forall i, owner (exec k) = Some i \/ current k = Some i \/ i ∈ spawning (at_pc (exec k)) -> sig s' i = sig s i) ->
  shape s k -> shape s' k.
Proof.
  intros Hn Hsig. unfold shape. destruct (at_pc (exec k)); try done; cbn [spawning] in Hsig.
  - intros (Ho & Hc & Hg). rewrite (kstack_of_sig s'), Hsig, <- kstack_of_sig by auto. done.
  - intros (? & ? & ? & ?). rewrite Hsig by (right; right; by left). split; [done|]. split; [done|]. split; [lia|done].
  - intros (? & ? & ? & ?). rewrite Hsig by (right; right; by left). split; [done|]. split; [done|]. split; [lia|done].
  - intros (? & ? & ? & ?). rewrite Hsig by (right; right; by left). split; [done|]. split; [done|]. split; [lia|done].
  - intros (? & ? & z & d & ?). split; [done|]. split; [done|]. exists z, d. rewrite Hsig; [done|]. right; right; by left.
  - intros (Ho & Hc & Hd). rewrite Hsig by auto. done.
Qed.

(** A CPU that does not hold or use thread [t] does not see it change. *)
Lemma cpu_ok_other s s' c k t :
  (forall i, i <> t -> sig s' i = sig s i) -> NEXT_TID s <= NEXT_TID s' ->
  t ∉ places k -> t ∉ owned k -> cpu_ok s c k -> cpu_ok s' c k.
Proof.
  intros Hsig Hn Hpl Hown [H1 H2 H3 H4 H5 H6].
  assert (Hh : forall i x, i <> t -> home_is s i x -> home_is s' i x).
  { intros i x Hne (z & d & Hs). exists z, d. by rewrite Hsig. }
  unfold places in Hpl. unfold owned in Hown. rewrite elem_of_app in Hpl, Hown.
  assert (Ho : forall i, owner (exec k) = Some i -> i <> t).
  { intros i Hi ->. apply Hown. left. rewrite Hi. by left. }
  assert (Hc : forall i, current k = Some i -> i <> t).
  { intros i Hi ->. unfold extra in Hpl. unfold shape in H1. rewrite Hi in Hpl.
    destruct (at_pc (exec k)); try (by apply Hpl; right; left); try (by apply Hpl; right; right; left).
    destruct H1. apply (Ho t); congruence. }
  constructor; auto.
  - apply (shape_local s); [done| |done]. intros i [?|[?|?]]; apply Hsig; auto. intros ->. apply Hown. by right.
  - intros i Hi. apply Hh; [|by auto]. intros ->. by apply Hpl; left.
  - intros i Hi. rewrite (kstack_of_sig s'), Hsig, <- kstack_of_sig by auto.
    split; [apply Hh; [by auto|by apply H4]|by apply H4].
  - intros i Hi. apply Hh; [|by auto]. intros ->. apply Hpl. right. unfold extra. rewrite Hi. by left.
Qed.

(** ** Updates the invariant does not see *)

Definition core (k : Cpu) := (current k, queue k, exec k, idle_ctx k, gs_kstack k).

Lemma cpu_ok_core s c k k' : core k' = core k -> cpu_ok s c k -> cpu_ok s c k'.
Proof. destruct k, k'. unfold core. cbn. intros [= -> -> -> -> ->] [H1 H2 H3 H4 H5 H6]. by constructor. Qed.

Lemma places_core k k' : core k' = core k -> places k' = places k.
Proof. destruct k, k'. unfold core. cbn. by intros [= -> -> -> -> ->]. Qed.

Lemma owned_core k k' : core k' = core k -> owned k' = owned k.
Proof. destruct k, k'. unfold core. cbn. by intros [= -> -> -> -> ->]. Qed.

Lemma core_lookup (l l' : list Cpu) c k' :
  core <$> l' = core <$> l -> l' !! c = Some k' -> exists k, l !! c = Some k /\ core k' = core k.
Proof.
  intros He Hk. assert (H : (core <$> l') !! c = Some (core k')) by by rewrite list_lookup_fmap, Hk.
  rewrite He, list_lookup_fmap in H. destruct (l !! c) as [k|]; [|done]. exists k. split; [done|]. cbn in H. congruence.
Qed.

Lemma total_core (f : Cpu -> nat) l l' :
  (forall k k', core k' = core k -> f k' = f k) -> core <$> l' = core <$> l -> total f l' = total f l.
Proof.
  intros Hf. revert l'. induction l as [|k l IH]; intros [|k' l'] He; try done.
  rewrite !fmap_cons in He. injection He as E1 E2. cbn [total]. rewrite (Hf k k'), (IH l'); [done|done|].
  unfold core. congruence.
Qed.

Lemma owns_core s s' c i : core <$> CPUS s' = core <$> CPUS s -> owns s c i -> owns s' c i.
Proof.
  intros He (k & Hk & Ho). destruct (core_lookup _ _ c k (eq_sym He) Hk) as (k' & Hk' & Hc).
  exists k'. split; [done|]. unfold core in Hc. congruence.
Qed.

Lemma inv_core s s' :
  inv s -> THREADS s' = THREADS s -> NUM_CPUS s' = NUM_CPUS s -> NEXT_TID s <= NEXT_TID s' ->
  core <$> CPUS s' = core <$> CPUS s -> inv s'.
Proof.
  intros [I1 I2 I3 I4 I5 I6 I7 I8] Ht Hn Hnx Hc.
  assert (Hth : forall i, thread s' i = thread s i) by by apply thread_eq.
  assert (Hsig : forall i, sig s' i = sig s i) by (intros i; unfold sig; by rewrite Hth).
  assert (Hlen : length (CPUS s') = length (CPUS s)) by (rewrite <- (length_fmap core), Hc, length_fmap; done).
  constructor; [congruence|congruence|congruence|lia|..].
  - intros i. rewrite (total_core _ (CPUS s)); [|intros ?? H%places_core; by rewrite H|done].
    rewrite I5. unfold live. by rewrite Hth.
  - intros i. rewrite (total_core _ (CPUS s)); [done|intros ?? H%owned_core; by rewrite H|done].
  - intros c k' Hk'. destruct (core_lookup _ _ c k' Hc Hk') as (k & Hk & Hcore).
    apply (cpu_ok_core _ _ k); [done|]. apply (cpu_ok_frame s); auto.
  - intros i t. rewrite Hth. intros Hi. apply (thread_ok_frame s s' i t t); auto. by apply owns_core.
Qed.

Lemma core_alter f (c : nat) (l : list Cpu) : (forall k, core (f k) = core k) -> core <$> alter f c l = core <$> l.
Proof.
  intros Hf. revert c. induction l as [|k l IH]; intros [|c]; [done..| |].
  - change (alter f 0%nat (k :: l)) with (f k :: l). by rewrite !fmap_cons, Hf.
  - change (alter f (S c) (k :: l)) with (k :: alter f c l). by rewrite !fmap_cons, IH.
Qed.

Lemma core_release c s : core <$> CPUS (release_pending_unlock c s) = core <$> CPUS s.
Proof.
  unfold release_pending_unlock. destruct (CPUS s !! c); [|done].
  destruct (0 <=? _); cbn; by apply core_alter.
Qed.

Lemma inv_release c s : inv s -> inv (release_pending_unlock c s).
Proof.
  intros Hi. apply (inv_core s); [done|..|apply core_release];
    unfold release_pending_unlock; destruct (CPUS s !! c); try done; by destruct (0 <=? _).
Qed.

Lemma inv_locks l tl s : inv s -> inv (with_locks l tl s).
Proof. intros Hi. by apply (inv_core s). Qed.
Lemma inv_unlock_bucket b s : inv s -> inv (unlock_bucket b s).
Proof. apply inv_locks. Qed.
Lemma inv_unlock_threads s : inv s -> inv (unlock_threads s).
Proof. apply inv_locks. Qed.
Lemma inv_wakes l s : inv s -> inv (with_wakes l s).
Proof. intros Hi. by apply (inv_core s). Qed.
Lemma inv_rescue l s : inv s -> inv (with_rescue l s).
Proof. intros Hi. by apply (inv_core s). Qed.
Lemma inv_valve b z s : inv s -> inv (with_valve b z s).
Proof. intros Hi. by apply (inv_core s). Qed.
Lemma inv_memory m s : inv s -> inv (with_memory m s).
Proof. intros Hi. by apply (inv_core s). Qed.
Lemma inv_kstack_next z s : inv s -> inv (with_counters (NEXT_TID s) z s).
Proof. intros Hi. by apply (inv_core s). Qed.
Lemma inv_on_cpu f c s : (forall k, core (f k) = core k) -> inv s -> inv (on_cpu c f s).
Proof. intros Hf Hi. apply (inv_core s); try done. by apply core_alter. Qed.

Create HintDb sched.
#[export] Hint Resolve inv_release inv_unlock_bucket inv_unlock_threads inv_wakes inv_rescue inv_valve inv_memory
  inv_kstack_next : sched.

Lemma owns_on_cpu s c f x i :
  (forall k, owner (exec (f k)) = owner (exec k)) -> owns s x i -> owns (on_cpu c f s) x i.
Proof.
  intros Hf (k & Hk & Ho). unfold owns. rewrite on_cpu_lookup, Hk.
  destruct (decide (c = x)) as [->|]; [|by eauto]. eexists. split; [done|]. by rewrite Hf.
Qed.

(** Moving a CPU to a point with the same places. *)
Lemma inv_goto s c k p :
  inv s -> CPUS s !! c = Some k -> extra (set_pc p k) = extra k ->
  (forall i, occ i (spawning p) <= occ i (spawning (at_pc (exec k))))%nat ->
  shape s (set_pc p k) -> (forall n, p <> IdleNext n) -> inv (goto c p s).
Proof.
  intros Hi Hk He Hsp Hsh Hnn. pose proof Hi as [I1 I2 I3 I4 I5 I6 I7 I8].
  apply (inv_build s _ c k (set_pc p)); try done.
  - intros i. unfold places. rewrite He. cbn [queue set_pc set_exec]. done.
  - intros i. left. unfold owned. cbn [exec set_pc set_exec owner at_pc]. rewrite !occ_app.
    specialize (Hsp i). lia.
  - destruct (I7 c k Hk) as [H1 H2 H3 H4 H5 H6]. constructor; try done. intros i Hp. by destruct (Hnn i).
  - intros i t Ht. apply (thread_ok_frame s _ i t t); [by apply I8|done..|].
    by apply owns_on_cpu.
Qed.

(** ** Waking a thread *)

(** An update of a thread that keeps its id, home, stack and context. *)
Definition keeps (f : Thread -> Thread) : Prop :=
  forall t, tid (f t) = tid t /\ home_cpu (f t) = home_cpu t /\ ctx (f t) = ctx t /\
            kernel_stack_top (f t) = kernel_stack_top t.

Lemma sig_on_thread s i f :
  keeps f -> (forall t, thread s i = Some t -> is_dead (state (f t)) = is_dead (state t)) ->
  forall j, sig (on_thread i f s) j = sig s j.
Proof.
  intros Hf Hd j. unfold sig. rewrite thread_on_thread. destruct (decide (i = j)) as [->|]; [|done].
  destruct (thread s j) as [t|] eqn:Ht; [|done]. cbn. destruct (Hf t) as (_ & -> & _ & ->).
  by rewrite (Hd t).
Qed.

Lemma live_on_thread s i f t j :
  thread s i = Some t ->
  live (on_thread i f s) j =
  if decide (i = j) then negb (is_blocked (state (f t))) && negb (is_dead (state (f t))) else live s j.
Proof.
  intros Ht. unfold live. rewrite thread_on_thread. destruct (decide (i = j)) as [->|]; [|done]. by rewrite Ht.
Qed.

Lemma threads_on_thread s c g i f t :
  inv s -> thread s i = Some t -> keeps f -> (is_dead (state (f t)) = is_dead (state t)) ->
  (forall k, owner (exec (g k)) = owner (exec k)) ->
  forall j tj, thread (on_cpu c g (on_thread i f s)) j = Some tj -> thread_ok (on_cpu c g (on_thread i f s)) j tj.
Proof.
  intros Hi Ht Hf Hd Hg j tj. change (thread (on_cpu c g ?x) j) with (thread x j).
  rewrite thread_on_thread. intros Hj.
  assert (Hown : forall x, owns s x j -> owns (on_cpu c g (on_thread i f s)) x j).
  { intros x Ho. by apply owns_on_cpu. }
  destruct (decide (i = j)) as [->|].
  - rewrite Ht in Hj. injection Hj as <-. destruct (Hf t) as (? & ? & ? & ?).
    apply (thread_ok_frame s _ j t (f t)); [by apply (inv_thread _ Hi)|done|done|done|done| |by apply Hown].
    intros Hnd Hdd. rewrite Hdd in Hd. by destruct (state (f t)).
  - apply (thread_ok_frame s _ j tj tj); [by apply (inv_thread _ Hi)|done|done|done|done|done|by apply Hown].
Qed.

Lemma home_lt s i t : inv s -> thread s i = Some t -> exists k, CPUS s !! home_cpu t = Some k.
Proof.
  intros Hi Ht. destruct (inv_thread _ Hi i t Ht) as [_ _ Hh _]. apply lookup_lt_is_Some.
  by rewrite (inv_cpus_len _ Hi).
Qed.

(** Making a blocked thread ready and queueing it at home keeps the invariant. *)
Lemma inv_wake s i t f :
  inv s -> thread s i = Some t -> state t = Blocked -> keeps f -> state (f t) = Ready ->
  inv (on_cpu (home_cpu t) (push_queue i) (on_thread i f s)).
Proof.
  intros Hi Ht Hst Hf Hr. destruct (home_lt s i t Hi Ht) as [k Hk].
  assert (Hsig : forall j, sig (on_thread i f s) j = sig s j).
  { apply sig_on_thread; [done|]. intros t' Ht'. assert (t' = t) as -> by congruence. by rewrite Hr, Hst. }
  apply (inv_build s _ (home_cpu t) k (push_queue i)); try done.
  - cbn. by rewrite length_alter.
  - intros j. change (live (on_cpu ?c ?g ?x) j) with (live x j). rewrite (live_on_thread s i f t j Ht), Hr.
    unfold places. change (extra (push_queue i k)) with (extra k). cbn [queue push_queue set_run].
    rewrite !occ_app. cbn [occ]. destruct (decide (i = j)) as [->|Hne].
    + rewrite Nat.eqb_refl. unfold live. rewrite Ht, Hst. cbn. lia.
    + rewrite (proj2 (Nat.eqb_neq i j)) by done. cbn. lia.
  - intros j. by left.
  - destruct (inv_cpu _ Hi _ _ Hk) as [H1 H2 H3 H4 H5 H6].
    assert (Hh : forall j c, home_is s j c -> home_is (on_cpu (home_cpu t) (push_queue i) (on_thread i f s)) j c).
    { apply home_is_frame. exact Hsig. }
    constructor; auto; [by apply (shape_frame s)| |].
    + cbn. intros j [Hj|Hj%list_elem_of_singleton]%elem_of_app; [by auto|]. subst j. apply Hh.
      exists (kernel_stack_top t), (is_dead (state t)). unfold sig. by rewrite Ht.
    + intros j Hj. rewrite (kstack_frame s) by done. naive_solver.
  - apply threads_on_thread with t; try done. by rewrite Hr, Hst.
Qed.

Lemma inv_on_thread s i f :
  inv s -> keeps f -> (forall t, state (f t) = state t) -> inv (on_thread i f s).
Proof.
  intros Hi Hf Hst. pose proof Hi as [I1 I2 I3 I4 I5 I6 I7 I8].
  assert (Hsig : forall j, sig (on_thread i f s) j = sig s j).
  { apply sig_on_thread; [done|]. intros t _. by rewrite Hst. }
  constructor; try done.
  - cbn. by rewrite length_alter.
  - intros j. rewrite I5. f_equal. unfold live. rewrite thread_on_thread.
    destruct (decide (i = j)) as [->|]; [|done]. destruct (thread s j); [|done]. cbn. by rewrite Hst.
  - intros c k Hk. apply (cpu_ok_frame s); [done|done|]. by apply I7.
  - intros j tj. rewrite thread_on_thread. destruct (decide (i = j)) as [->|].
    2:{ intros Hj. apply (thread_ok_frame s _ j tj tj); [by apply I8|done..]. }
    destruct (thread s j) as [t|] eqn:Ht; [|done]. intros [= <-]. destruct (Hf t) as (? & ? & ? & ?).
    apply (thread_ok_frame s _ j t (f t)); [by apply I8|done..| |done]. by rewrite Hst.
Qed.

Lemma place_live s c k i : inv s -> CPUS s !! c = Some k -> i ∈ places k -> live s i = true.
Proof.
  intros Hi Hk Hin. apply occ_in in Hin. pose proof (inv_place _ Hi i) as Hp.
  pose proof (total_member (fun k => occ i (places k)) _ _ _ Hk). cbn beta in *.
  destruct (live s i); cbn in *; lia.
Qed.

Lemma on_cpu_ext s c f g :
  (forall k, CPUS s !! c = Some k -> f k = g k) -> on_cpu c f s = on_cpu c g s.
Proof.
  intros H. unfold on_cpu. f_equal. apply list_eq. intros j. rewrite !list_lookup_alter.
  destruct (decide (c = j)) as [->|]; [|done]. destruct (CPUS s !! j); [|done]. cbn. by rewrite H.
Qed.

Lemma rescued_keeps now : keeps (rescued now).
Proof. intros t. done. Qed.
Lemma woken_keeps : keeps woken_thread.
Proof. intros t. done. Qed.

(** A blocked thread is in no queue, so the rescue's test for a duplicate
    always queues it. *)
Lemma blocked_not_queued s c k i t :
  inv s -> CPUS s !! c = Some k -> thread s i = Some t -> state t = Blocked -> existsb (Nat.eqb i) (queue k) = false.
Proof.
  intros Hi Hk Ht Hst. apply not_true_is_false. intros Hex.
  apply existsb_exists in Hex as (x & Hx & <-%Nat.eqb_eq). apply list_elem_of_In in Hx.
  assert (Hl : live s i = true) by (apply (place_live s c k); [done..|apply elem_of_app; by left]).
  unfold live in Hl. by rewrite Ht, Hst in Hl.
Qed.

Lemma inv_send_ipi c s : inv s -> inv (on_cpu c (set_ipi true) s).
Proof. by apply inv_on_cpu. Qed.

Lemma inv_rescue_thread c i now s : inv s -> inv (rescue c i now s).
Proof.
  intros Hi. unfold rescue. destruct (thread s i) as [t|] eqn:Ht; [|done].
  destruct (state t) eqn:Hst; try done. cbn [is_blocked].
  pose proof (inv_thread _ Hi i t Ht) as [Htid _ Hh _]. rewrite (proj2 (Nat.ltb_lt _ _) Hh), Htid.
  rewrite (on_cpu_ext (on_thread i (rescued now) s) _ _ (push_queue i)).
  - pose proof (inv_wake s i t (rescued now) Hi Ht Hst (rescued_keeps now) eq_refl) as Hw.
    destruct (negb _); [by apply inv_send_ipi|done].
  - intros k Hk. by rewrite (blocked_not_queued s (home_cpu t) k i t).
Qed.

Lemma inv_wake_one c a i s : inv s -> inv (wake_one c a i s).2.
Proof.
  intros Hi. unfold wake_one. destruct (thread s i) as [t|] eqn:Ht; [|done].
  destruct (state t) eqn:Hst; try done. cbn [is_blocked andb]. destruct (futex_addr t =? a); [|done]. cbn [snd].
  pose proof (inv_thread _ Hi i t Ht) as [-> _ _ _].
  pose proof (inv_wake s i t woken_thread Hi Ht Hst woken_keeps eq_refl) as Hw.
  destruct (negb _); [by apply inv_send_ipi|done].
Qed.

(** ** Switching stacks *)

Lemma owned_spawning s c k n :
  inv s -> CPUS s !! c = Some k -> n ∈ spawning (at_pc (exec k)) ->
  (sig s n = None /\ Z.of_nat n < NEXT_TID s) \/ n ∈ extra k.
Proof.
  intros Hi Hk Hin. pose proof (ok_shape _ _ _ (inv_cpu _ Hi c k Hk)) as Hs. unfold shape, extra in *.
  destruct (at_pc (exec k)); cbn in Hin |- *; try by apply not_elem_of_nil in Hin.
  all: apply list_elem_of_singleton in Hin; subst; try by left; destruct Hs as (_ & ? & ? & _).
  all: right; apply elem_of_cons; by left.
Qed.

(** A thread in the hands of CPU [c], its home, is in use nowhere else. *)
Lemma unowned s c k n :
  inv s -> CPUS s !! c = Some k -> n ∈ places k -> home_is s n c -> spawning (at_pc (exec k)) = [] ->
  owner (exec k) <> Some n -> total (fun k => occ n (owned k)) (CPUS s) = 0%nat.
Proof.
  intros Hi Hk Hn (z & d & Hh) Hsp Ho.
  destruct (total (fun k => occ n (owned k)) (CPUS s)) eqn:Ht; [done|exfalso].
  destruct (total_pos (fun k => occ n (owned k)) (CPUS s)) as (c' & k' & Hk' & Hin); [lia|].
  apply occ_in, elem_of_app in Hin as [Hin|Hin].
  - destruct (owner (exec k')) as [x|] eqn:Hx; [|by apply not_elem_of_nil in Hin].
    apply list_elem_of_singleton in Hin as <-.
    destruct (ok_owner _ _ _ (inv_cpu _ Hi c' k' Hk') n Hx) as [(z' & d' & Hh') _].
    assert (c' = c) as -> by congruence. congruence.
  - destruct (owned_spawning s c' k' n Hi Hk' Hin) as [[? _]|Hex]; [congruence|].
    destruct (decide (c = c')) as [<-|Hne].
    + assert (k' = k) as -> by congruence. rewrite Hsp in Hin. by apply not_elem_of_nil in Hin.
    + pose proof (total_two (fun k => occ n (places k)) _ _ _ _ _ Hne Hk Hk') as H2.
      apply occ_in in Hn. assert (1 <= occ n (places k'))%nat by (apply occ_in, elem_of_app; by right).
      rewrite (inv_place _ Hi n) in H2. cbn beta in *. destruct (live s n); cbn in *; lia.
Qed.

(** A thread in the hands of its home CPU, whose stack that CPU is not
    executing, can be resumed. *)
Lemma parked_resumable s c k n tn :
  inv s -> CPUS s !! c = Some k -> n ∈ places k -> home_is s n c -> thread s n = Some tn ->
  owner (exec k) <> Some n -> resumable n (ctx tn).
Proof.
  intros Hi Hk Hin (z & d & Hs) Htn Ho. apply (inv_thread _ Hi n tn Htn).
  - pose proof (place_live s c k n Hi Hk Hin) as Hl. unfold live in Hl. rewrite Htn in Hl. by destruct (state tn).
  - unfold sig in Hs. rewrite Htn in Hs. injection Hs as -> _ _. intros (k1 & Hk1 & ?). congruence.
Qed.

(** The threads after a switch away from the stack of [from]: its context holds
    the stack [x], the others are as they were. *)
Definition switched (from : option nat) (x : kstack) (s s' : sched) : Prop :=
  forall j, thread s' j = if decide (from = Some j) then set_ctx x <$> thread s j else thread s j.

Lemma switched_sig from x s s' : switched from x s s' -> forall j, sig s' j = sig s j.
Proof. intros H j. unfold sig. rewrite H. destruct (decide _); [|done]. by destruct (thread s j). Qed.

Lemma switched_live from x s s' : switched from x s s' -> forall j, live s' j = live s j.
Proof. intros H j. unfold live. rewrite H. destruct (decide _); [|done]. by destruct (thread s j). Qed.

Section switch.
Context (s s' : sched) (c : nat) (k : Cpu) (g : Cpu -> Cpu) (x : kstack).
Hypothesis Hi : inv s.
Hypothesis Hk : CPUS s !! c = Some k.
Hypothesis Hc : CPUS s' = alter g c (CPUS s).
Hypothesis Hn : NUM_CPUS s' = NUM_CPUS s.
Hypothesis Hnx : NEXT_TID s' = NEXT_TID s.
Hypothesis Hlen : length (THREADS s') = length (THREADS s).
Hypothesis Hth : switched (owner (exec k)) x s s'.
Hypothesis Hq : forall i, i ∈ queue (g k) -> i ∈ queue k.
Hypothesis Hidle : idle_stack (idle_ctx (g k)).
Hypothesis Hsp : spawning (at_pc (exec k)) = [].

(** Every thread is well-formed afterwards, if the thread left behind is. *)
Lemma switch_threads :
  (forall f t, owner (exec k) = Some f -> thread s f = Some t -> owner (exec (g k)) <> Some f ->
     state t <> Dead -> resumable f x) ->
  forall i t, thread s' i = Some t -> thread_ok s' i t.
Proof using All.
  intros Hx i t Ht. rewrite Hth in Ht. destruct (decide (owner (exec k) = Some i)) as [Ho|Ho].
  - destruct (thread s i) as [t0|] eqn:Ht0; [|done]. injection Ht as <-.
    destruct (inv_thread _ Hi i t0 Ht0) as [H1 H2 H3 H4]. constructor; [done|by rewrite Hnx|done|].
    cbn [state home_cpu ctx set_ctx]. intros Hd Hno. apply (Hx i t0); try done. intros Hg. apply Hno.
    destruct (ok_owner _ _ _ (inv_cpu _ Hi c k Hk) i Ho) as [(z & d & Hs) _].
    unfold sig in Hs. rewrite Ht0 in Hs. injection Hs as -> _ _.
    exists (g k). by rewrite Hc, list_lookup_alter_eq, Hk.
  - apply (thread_ok_frame s _ i t t); [by apply (inv_thread _ Hi)|lia|done..|].
    intros (k1 & Hk1 & Ho1). unfold owns. rewrite Hc, list_lookup_alter.
    destruct (decide (c = home_cpu t)) as [Heq|]; [|by eauto]. rewrite <- Heq in Hk1. congruence.
Qed.

(** Switching to thread [n], held by this CPU. *)
Lemma inv_switch_to n tn :
  (forall i, occ i (queue (g k) ++ [n]) = occ i (places k)) ->
  home_is s n c -> thread s' n = Some tn -> exec (g k) = ctx tn ->
  current (g k) = Some n -> gs_kstack (g k) = kstack_of s n ->
  (forall f, owner (exec k) = Some f -> resumable f x) -> inv s'.
Proof using All.
  intros Hpl Hhome Htn Hex Hcur Hgs Hx.
  assert (Hin : n ∈ places k).
  { apply occ_in. rewrite <- Hpl, occ_app. cbn. rewrite Nat.eqb_refl. cbn. lia. }
  pose proof (switched_sig _ _ _ _ Hth) as Hsig.
  assert (Hres : resumable n (exec (g k))).
  { rewrite Hex. rewrite Hth in Htn. destruct (decide (owner (exec k) = Some n)) as [Ho|Ho].
    - destruct (thread s n); [|done]. injection Htn as <-. by apply Hx.
    - by apply (parked_resumable s c k). }
  destruct Hres as [Hrow Hrpc].
  apply (inv_build s s' c k g); auto; [lia|..].
  - intros i. rewrite (switched_live _ _ _ _ Hth), <- Hpl. unfold places, extra. rewrite Hcur.
    destruct (at_pc (exec (g k))); done.
  - intros i. assert (Hown : owned (g k) = [n]).
    { unfold owned. rewrite Hrow. destruct (at_pc (exec (g k))); done. }
    rewrite Hown. destruct (decide (owner (exec k) = Some n)) as [Ho|Ho].
    + left. unfold owned. rewrite Ho, occ_app. cbn. lia.
    + destruct (decide (n = i)) as [->|Hni]; [right|left].
      * split; [by apply (unowned s c k)|]. cbn. rewrite Nat.eqb_refl. cbn. lia.
      * cbn. rewrite (proj2 (Nat.eqb_neq n i)) by done. cbn. lia.
  - apply (cpu_ok_frame s); [done|lia|]. pose proof (inv_cpu _ Hi c k Hk) as [H1 H2 H3 H4 H5 H6].
    constructor; auto.
    + unfold shape. destruct (at_pc (exec (g k))); try done; [by exists n|by split; [exists n|]|by subst].
    + intros i. rewrite Hcur. by intros [= <-].
    + intros i. rewrite Hrow. by intros [= <-].
    + intros i Hpc. by rewrite Hpc in Hrpc.
  - apply switch_threads. intros f t Hf _ _ _. by apply Hx.
Qed.

(** Switching to the idle loop. *)
Lemma inv_switch_idle f :
  (forall i, occ i (queue (g k)) = occ i (places k)) ->
  owner (exec k) = Some f -> idle_stack (exec (g k)) -> current (g k) = None ->
  (forall t, thread s f = Some t -> state t = Dead \/ resumable f x) -> inv s'.
Proof using All.
  intros Hpl Ho Hex Hcur Hx. pose proof (switched_sig _ _ _ _ Hth) as Hsig.
  assert (Hrow : owner (exec (g k)) = None) by (by destruct Hex as [->| ->]).
  apply (inv_build s s' c k g); auto; [lia|..].
  - intros i. rewrite (switched_live _ _ _ _ Hth), <- Hpl. unfold places, extra.
    rewrite Hcur, occ_app. destruct Hex as [->| ->]; cbn; lia.
  - intros i. left. unfold owned. rewrite Hrow. destruct Hex as [->| ->]; cbn; lia.
  - apply (cpu_ok_frame s); [done|lia|]. pose proof (inv_cpu _ Hi c k Hk) as [H1 H2 H3 H4 H5 H6].
    constructor; auto; [|by rewrite Hcur|by rewrite Hrow|by destruct Hex as [->| ->]].
    unfold shape. destruct Hex as [->| ->]; by split.
  - apply switch_threads. intros f' t Hf Ht _ Hd. assert (f' = f) as -> by congruence.
    by destruct (Hx t Ht).
Qed.
End switch.
