(* ===== verification/SchedSafe.v ===== *)
(** * Every step of the scheduler keeps the invariant

    The cases of [cpu_step] one by one, then the machine as a whole, and what
    the invariant says about every reachable state. *)

From S2P Require Import Prelude Sched SchedInv.

(** ** Moving on after an update that leaves the CPU's own stack alone *)

Definition run_of (k : Cpu) := (current k, exec k, gs_kstack k).

Record quiet (c : nat) (s s' : sched) : Prop := {
  quiet_run : run_of <$> CPUS s' !! c = run_of <$> CPUS s !! c;
  quiet_sig : forall i, sig s' i = sig s i;
  quiet_next : NEXT_TID s <= NEXT_TID s'
}.

Lemma quiet_refl c s : quiet c s s.
Proof. by constructor. Qed.

Lemma quiet_trans c s1 s2 s3 : quiet c s2 s3 -> quiet c s1 s2 -> quiet c s1 s3.
Proof. intros [A1 A2 A3] [B1 B2 B3]. constructor; [congruence|intros; by rewrite A2|lia]. Qed.

Lemma quiet_on_cpu c x f s : (forall k, run_of (f k) = run_of k) -> quiet c s (on_cpu x f s).
Proof.
  intros Hf. constructor; [|done|done]. rewrite on_cpu_lookup. destruct (decide (x = c)); [|done].
  destruct (CPUS s !! c); [|done]. cbn. by rewrite Hf.
Qed.

Lemma quiet_locks c l tl s : quiet c s (with_locks l tl s).
Proof. by constructor. Qed.
Lemma quiet_unlock_bucket c b s : quiet c s (unlock_bucket b s).
Proof. by constructor. Qed.
Lemma quiet_unlock_threads c s : quiet c s (unlock_threads s).
Proof. by constructor. Qed.
Lemma quiet_valve c b z s : quiet c s (with_valve b z s).
Proof. by constructor. Qed.
Lemma quiet_wakes c l s : quiet c s (with_wakes l s).
Proof. by constructor. Qed.
Lemma quiet_release c s : quiet c s (release_pending_unlock c s).
Proof.
  unfold release_pending_unlock. destruct (CPUS s !! c) eqn:Hk; [|apply quiet_refl].
  destruct (0 <=? _); [eapply quiet_trans; [apply quiet_unlock_bucket|]|]; by apply quiet_on_cpu.
Qed.
Lemma quiet_on_thread c i f s :
  keeps f -> (forall t, thread s i = Some t -> is_dead (state (f t)) = is_dead (state t)) -> quiet c s (on_thread i f s).
Proof. intros. constructor; [done|by apply sig_on_thread|done]. Qed.

Lemma quiet_rescue c i now s : quiet c s (rescue c i now s).
Proof.
  unfold rescue. destruct (thread s i) as [t|] eqn:Ht; [|apply quiet_refl].
  destruct (state t) eqn:Hst; try apply quiet_refl. cbn [is_blocked].
  assert (Hq : quiet c s (on_thread i (rescued now) s)).
  { apply quiet_on_thread; [apply rescued_keeps|]. intros t' Ht'. assert (t' = t) as -> by congruence. by rewrite Hst. }
  assert (Hq2 : forall s1, quiet c s s1 -> quiet c s (if negb (home_cpu t =? c)%nat then on_cpu (home_cpu t) (set_ipi true) s1 else s1)).
  { intros s1 H1. destruct (negb _); [|done]. eapply quiet_trans; [by apply quiet_on_cpu|done]. }
  apply Hq2. destruct (_ <? _)%nat; [|done]. eapply quiet_trans; [|done]. apply quiet_on_cpu.
  intros k. by destruct (existsb _ _).
Qed.

Lemma quiet_wake_one c a i s : quiet c s (wake_one c a i s).2.
Proof.
  unfold wake_one. destruct (thread s i) as [t|] eqn:Ht; [|apply quiet_refl].
  destruct (state t) eqn:Hst; try apply quiet_refl. cbn [is_blocked andb].
  destruct (futex_addr t =? a); [|apply quiet_refl]. cbn [snd].
  assert (Hq : quiet c s (on_thread i woken_thread s)).
  { apply quiet_on_thread; [apply woken_keeps|]. intros t' Ht'. assert (t' = t) as -> by congruence. by rewrite Hst. }
  destruct (negb _); repeat (eapply quiet_trans; [by apply quiet_on_cpu|]); done.
Qed.

#[export] Hint Resolve quiet_refl quiet_locks quiet_unlock_bucket quiet_unlock_threads quiet_valve quiet_wakes
  quiet_release quiet_rescue  quiet_wake_one inv_rescue_thread inv_wake_one : sched.

(** CPU [c] goes to [p] after a quiet update. *)
Lemma inv_move s s1 c k p :
  inv s1 -> quiet c s s1 -> CPUS s !! c = Some k ->
  extra (set_pc p k) = extra k -> (forall i, occ i (spawning p) <= occ i (spawning (at_pc (exec k))))%nat ->
  shape s (set_pc p k) -> (forall n, p <> IdleNext n) -> inv (goto c p s1).
Proof.
  intros Hi [Hr Hs Hn] Hk He Hsp Hsh Hp. rewrite Hk in Hr.
  destruct (CPUS s1 !! c) as [k1|] eqn:Hk1; [|done]. cbn in Hr. unfold run_of in Hr.
  injection Hr as E1 E2 E3. apply (inv_goto s1 c k1); try done.
  - unfold extra in *. cbn [at_pc exec set_pc set_exec current] in *. rewrite E1, E2. done.
  - by rewrite E2.
  - apply (shape_frame s); [done|done|]. unfold shape in *. unfold normal, resting in *.
    cbn [at_pc exec set_pc set_exec current owner gs_kstack] in *. rewrite E1, E2, E3. done.
Qed.

(** Solve a move to another point: the update is quiet, the places stay, the
    new point's shape is the old one's. *)
Ltac go_to s k Hpc Hs :=
  apply (inv_move s _ _ k);
  [ eauto 6 with sched | eauto 6 using quiet_trans with sched | assumption
  | unfold extra; cbn; by rewrite Hpc
  | intros ?; cbn; rewrite ?Hpc; cbn; lia
  | unfold shape, normal, resting in *; cbn; try exact Hs; naive_solver
  | done ].

Section steps.
Context (s : sched) (c : nat) (k : Cpu).
Hypothesis Hi : inv s.
Hypothesis Hk : CPUS s !! c = Some k.

Lemma shape_at p : at_pc (exec k) = p -> shape s (set_pc p k).
Proof using Hi Hk.
  intros <-. pose proof (ok_shape _ _ _ (inv_cpu _ Hi c k Hk)) as Hs.
  by destruct k as [? ? ? [? ?] ? ? ? ? ?].
Qed.

Lemma user_inv r a s' : at_pc (exec k) = User r -> user_step c a s = Some s' -> inv s'.
Proof using Hi Hk.
  intros Hpc. pose proof (shape_at _ Hpc) as Hs. destruct a; cbn; intros [= <-]; try go_to s k Hpc Hs.
  by apply inv_memory.
Qed.

Lemma exit_inv r a s' : at_pc (exec k) = Exit r -> exit_step c a r s = Some s' -> inv s'.
Proof using Hi Hk.
  intros Hpc. pose proof (shape_at _ Hpc) as Hs. destruct a; cbn; try done; intros [= <-]; try go_to s k Hpc Hs.
  by apply inv_memory.
Qed.

Lemma resched_inv r :
  at_pc (exec k) = Resched r ->
  inv (goto c (if need_resched k then Yield (YUser r) else User r) (on_cpu c (set_resched false) s)).
Proof using Hi Hk.
  intros Hpc. pose proof (shape_at _ Hpc) as Hs.
  assert (inv (on_cpu c (set_resched false) s)) by by apply inv_on_cpu.
  assert (quiet c s (on_cpu c (set_resched false) s)) by by apply quiet_on_cpu.
  destruct (need_resched k); go_to s k Hpc Hs.
Qed.

Lemma clone_child_inv : at_pc (exec k) = CloneChild -> inv (goto c (User 0) (release_pending_unlock c s)).
Proof using Hi Hk. intros Hpc. pose proof (shape_at _ Hpc) as Hs. go_to s k Hpc Hs. Qed.

Lemma lock_bucket_inv b s1 p q :
  at_pc (exec k) = p -> lock_bucket b s = Some s1 -> extra (set_pc q k) = extra k ->
  (forall i, occ i (spawning q) <= occ i (spawning p))%nat -> shape s (set_pc q k) -> (forall n, q <> IdleNext n) ->
  inv (goto c q s1).
Proof using Hi Hk.
  intros Hpc Hl He Hsp Hsh Hn. subst p. unfold lock_bucket in Hl.
  destruct (FUTEX_LOCKS s !! b) as [[]|]; try done. injection Hl as <-.
  apply (inv_move s _ _ k); auto using inv_locks, quiet_locks.
Qed.

Lemma lock_threads_inv s1 p q :
  at_pc (exec k) = p -> lock_threads s = Some s1 -> extra (set_pc q k) = extra k ->
  (forall i, occ i (spawning q) <= occ i (spawning p))%nat -> shape s (set_pc q k) -> (forall n, q <> IdleNext n) ->
  inv (goto c q s1).
Proof using Hi Hk.
  intros Hpc Hl He Hsp Hsh Hn. subst p. unfold lock_threads in Hl. destruct (THREAD_LOCK s); [done|]. injection Hl as <-.
  apply (inv_move s _ _ k); auto using inv_locks, quiet_locks.
Qed.

Lemma rescue_inv now p s' : at_pc (exec k) = p -> rescue_step c now p s = Some s' -> inv s'.
Proof using Hi Hk.
  intros Hpc. pose proof (shape_at _ Hpc) as Hs. destruct p; try done; cbn.
  - destruct (RESCUE_REQUESTED s !! i) as [[]|] eqn:E; intros [= <-].
    + assert (quiet c s (with_rescue (<[i:=false]> (RESCUE_REQUESTED s)) s)) by by constructor. go_to s k Hpc Hs.
    + go_to s k Hpc Hs.
    + unfold shape in Hs. cbn in Hs. destruct k0 as [[| |]| |]; go_to s k Hpc Hs.
  - destruct (thread s i) as [t|]; [destruct (negb _); [|destruct (_ =? _)]|]; intros [= <-]; go_to s k Hpc Hs.
  - intros (s1 & Hl & ->)%fmap_Some. apply (lock_bucket_inv b s1 _ _ Hpc Hl); try done.
    unfold extra. cbn. by rewrite Hpc.
  - intros (s1 & Hl & ->)%fmap_Some. apply (lock_threads_inv s1 _ _ Hpc Hl); try done.
    unfold extra. cbn. by rewrite Hpc.
  - intros [= <-]. go_to s k Hpc Hs.
Qed.

Lemma wake_inv p s' : at_pc (exec k) = p -> wake_step c p s = Some s' -> inv s'.
Proof using Hi Hk.
  intros Hpc. pose proof (shape_at _ Hpc) as Hs. destruct p; try done; cbn.
  - intros (s1 & Hl & ->)%fmap_Some. apply (lock_bucket_inv _ s1 _ _ Hpc Hl); try done.
    unfold extra. cbn. by rewrite Hpc.
  - intros (s1 & Hl & ->)%fmap_Some. apply (lock_threads_inv s1 _ _ Hpc Hl); try done.
    unfold extra. cbn. by rewrite Hpc.
  - destruct (_ && _).
    + pose proof (inv_wake_one c addr i s Hi) as Hi1. pose proof (quiet_wake_one c addr i s) as Hq1.
      destruct (wake_one c addr i s) as [hit s1]. cbn [snd] in *. intros [= <-]. go_to s k Hpc Hs.
    + assert (Hq : quiet c s (pending_wake_insert (futex_bucket addr) addr s)) by by constructor.
      assert (inv (pending_wake_insert (futex_bucket addr) addr s)) by by apply inv_wakes.
      destruct (woken =? 0); intros [= <-]; go_to s k Hpc Hs.
Qed.

Lemma thread_here i : i ∈ queue k \/ current k = Some i -> exists t, thread s i = Some t /\ home_cpu t = c.
Proof using Hi Hk.
  pose proof (inv_cpu _ Hi c k Hk) as [_ H2 H3 _ _ _].
  intros [Hq|Hq]; [apply H2 in Hq|apply H3 in Hq]; destruct Hq as (z & d & Hs); unfold sig in Hs;
    destruct (thread s i) as [t|]; try done; exists t; by simplify_eq/=.
Qed.

(** Marking the current thread blocked. *)
Lemma mark_inv b t f a v d :
  at_pc (exec k) = WaitMark a v d -> current k = Some t -> keeps f -> (forall th, state (f th) = Blocked) ->
  inv (goto c (WaitPick b t) (on_thread t f s)).
Proof using Hi Hk.
  intros Hpc Hcur Hf Hb. pose proof (shape_at _ Hpc) as (t' & Ho & Hc'). cbn in Ho, Hc'.
  assert (t' = t) as -> by congruence. destruct (thread_here t) as (th & Ht & Hh); [by right|].
  assert (Hex : extra k = [t]) by (unfold extra; by rewrite Hpc, Hcur).
  assert (Hlive : live s t = true).
  { apply (place_live s c k); [done..|]. apply elem_of_app. right. rewrite Hex. by apply list_elem_of_singleton. }
  assert (Hnd : is_dead (state th) = false).
  { unfold live in Hlive. rewrite Ht in Hlive. apply andb_true_iff in Hlive as [_ ?]. by apply negb_true_iff. }
  assert (Hsig : forall j, sig (on_thread t f s) j = sig s j).
  { apply sig_on_thread; [done|]. intros x Hx. assert (x = th) as -> by congruence. by rewrite Hb. }
  apply (inv_build s _ c k (set_pc (WaitPick b t))); try done.
  - cbn. by rewrite length_alter.
  - intros j. change (live (goto _ _ ?x) j) with (live x j). rewrite (live_on_thread s t f th j Ht), Hb.
    unfold places. rewrite Hex, !occ_app. cbn. destruct (decide (t = j)) as [->|Hne].
    + rewrite Hlive, Nat.eqb_refl. cbn. lia.
    + rewrite (proj2 (Nat.eqb_neq t j)) by done. cbn. lia.
  - intros j. left. unfold owned. rewrite !occ_app. cbn. lia.
  - apply (cpu_ok_frame s); [done|done|]. destruct (inv_cpu _ Hi c k Hk) as [H1 H2 H3 H4 H5 H6].
    by constructor.
  - apply (threads_on_thread s c (set_pc (WaitPick b t)) t f th); try done. by rewrite Hb.
Qed.

(** Replacing the queue entry and the current thread, with the same places. *)
Lemma requeue_inv p cur q b :
  (forall i, occ i (q ++ extra (set_pc p (set_run cur q b k))) = occ i (places k)) ->
  spawning p = [] -> (forall i, i ∈ q \/ cur = Some i \/ p = IdleNext i -> home_is s i c) ->
  shape s (set_pc p (set_run cur q b k)) -> inv (goto c p (on_cpu c (set_run cur q b) s)).
Proof using Hi Hk.
  intros Hpl Hsp Hh Hsh.
  apply (inv_build s _ c k (set_pc p ∘ set_run cur q b)); try done.
  - cbn. by rewrite list_alter_alter_eq.
  - intros i. unfold compose, places at 1. cbn [queue set_pc set_exec set_run]. by rewrite Hpl.
  - intros i. left. unfold owned, compose. cbn. rewrite Hsp, !occ_app. cbn. lia.
  - destruct (inv_cpu _ Hi c k Hk) as [H1 H2 H3 H4 H5 H6]. unfold compose.
    constructor; try done; cbn; intros i ?; apply Hh; auto.
  - intros i t Ht. apply (thread_ok_frame s _ i t t); [by apply (inv_thread _ Hi)|done..|].
    intros Ho. unfold goto. apply owns_on_cpu; [done|]. by apply owns_on_cpu.
Qed.

Lemma queue_home i : i ∈ queue k -> home_is s i c.
Proof using Hi Hk. apply (inv_cpu _ Hi c k Hk). Qed.
Lemma current_home i : current k = Some i -> home_is s i c.
Proof using Hi Hk. apply (inv_cpu _ Hi c k Hk). Qed.

Lemma pick_inv now b t s' :
  at_pc (exec k) = WaitPick b t -> wait_step c now (WaitPick b t) s = Some s' -> inv s'.
Proof using Hi Hk.
  intros Hpc. pose proof (shape_at _ Hpc) as [Ho Hc]. cbn in Ho, Hc. unfold wait_step. rewrite Hk. cbn [mbind option_bind].
  pose proof queue_home as Hq.
  destruct (queue k) as [|next q] eqn:E; intros [= <-]; apply requeue_inv; try done; try (by split).
  - intros i. unfold places. rewrite E. unfold extra. by rewrite Hpc.
  - intros i [?%not_elem_of_nil|[?|?]]; done.
  - intros i. unfold places, extra. rewrite E, Hpc. cbn. rewrite !occ_app. cbn. lia.
  - intros i [?|[?|?]]; try done; apply Hq; [by right|]. simplify_eq. by left.
Qed.

(** A context switch after an update [h] of this CPU's other fields. *)
Section switching.
Context (s0 : sched) (h : Cpu -> Cpu).
Hypothesis Hc0 : CPUS s0 = alter h c (CPUS s).
Hypothesis Ht0 : THREADS s0 = THREADS s.
Hypothesis Hn0 : NUM_CPUS s0 = NUM_CPUS s.
Hypothesis Hx0 : NEXT_TID s0 = NEXT_TID s.
Hypothesis Hexec : exec (h k) = exec k.
Hypothesis Hidle : idle_ctx (h k) = idle_ctx k.
Hypothesis Hqueue : queue (h k) = queue k.
Hypothesis Hspawn : spawning (at_pc (exec k)) = [].

Lemma switched_save f x : owner (exec k) = Some f -> switched (owner (exec k)) x s (on_thread f (set_ctx x) s0).
Proof using Ht0.
  intros -> j. rewrite thread_on_thread, (thread_eq _ _ Ht0 j).
  destruct (decide (f = j)), (decide (Some f = Some j)); congruence.
Qed.

Lemma here0 : CPUS s0 !! c = Some (h k).
Proof using Hk Hc0. by rewrite Hc0, list_lookup_alter_eq, Hk. Qed.

Lemma switch_thread_inv f n p s' :
  owner (exec k) = Some f -> extra k = [n] -> home_is s n c -> current (h k) = Some n ->
  gs_kstack (h k) = kstack_of s n -> resumable f (mkStack (Some f) p) ->
  context_switch c (CThread f) p (CThread n) s0 = Some s' -> inv s'.
Proof using All.
  intros Ho Hex Hh Hcur Hgs Hres. unfold context_switch. rewrite here0. cbn [mbind option_bind save_ctx load_ctx].
  rewrite Hexec, Ho. set (s1 := on_thread f _ s0).
  destruct (thread s1 n) as [tn|] eqn:Htn; [|done]. cbn. intros [= <-].
  apply (inv_switch_to s _ c k (set_exec (ctx tn) ∘ h) (mkStack (Some f) p) Hi Hk) with n tn; try done; unfold compose; cbn.
  - by rewrite Hc0, list_alter_alter_eq.
  - by rewrite length_alter, Ht0.
  - by apply switched_save.
  - by rewrite Hqueue.
  - rewrite Hidle. apply (inv_cpu _ Hi c k Hk).
  - intros i. unfold places. by rewrite Hqueue, Hex.
  - intros f' Hf'. by assert (f' = f) as -> by congruence.
Qed.

Lemma switch_idle_inv f p s' :
  owner (exec k) = Some f -> extra k = [] -> current (h k) = None ->
  (forall t, thread s f = Some t -> state t = Dead \/ resumable f (mkStack (Some f) p)) ->
  context_switch c (CThread f) p CIdle s0 = Some s' -> inv s'.
Proof using All.
  intros Ho Hex Hcur Hres. unfold context_switch. rewrite here0. cbn [mbind option_bind save_ctx load_ctx].
  rewrite Hexec, Ho. change (CPUS (on_thread f ?g s0)) with (CPUS s0). rewrite here0. cbn. intros [= <-].
  pose proof (ok_idle _ _ _ (inv_cpu _ Hi c k Hk)) as Hid.
  apply (inv_switch_idle s _ c k (set_exec (idle_ctx (h k)) ∘ h) (mkStack (Some f) p) Hi Hk) with f; try done;
    unfold compose; cbn.
  - by rewrite Hc0, list_alter_alter_eq.
  - by rewrite length_alter, Ht0.
  - by apply switched_save.
  - by rewrite Hqueue.
  - by rewrite Hidle.
  - intros i. unfold places. by rewrite Hqueue, Hex, app_nil_r.
  - by rewrite Hidle.
Qed.
End switching.

Lemma home_thread i : home_is s i c -> exists t, thread s i = Some t /\ kstack_of s i = kernel_stack_top t.
Proof using Type.
  intros (z & d & Hs). unfold sig in Hs. destruct (thread s i) as [t|] eqn:Ht; [|done].
  exists t. split; [done|]. unfold kstack_of. by rewrite Ht.
Qed.

Lemma wait_switch_inv now b t next s' :
  at_pc (exec k) = WaitSwitch b t next -> wait_step c now (WaitSwitch b t next) s = Some s' -> inv s'.
Proof using Hi Hk.
  intros Hpc. pose proof (shape_at _ Hpc) as [Ho Hc]. cbn in Ho, Hc. unfold wait_step. rewrite Hk.
  cbn [mbind option_bind]. assert (Hex : extra k = option_list next) by (unfold extra; by rewrite Hpc, Hc).
  destruct (ok_owner _ _ _ (inv_cpu _ Hi c k Hk) t Ho) as [(tt & Ht & _)%home_thread _].
  assert (Hsp : spawning (at_pc (exec k)) = []) by by rewrite Hpc.
  destruct next as [n|].
  - pose proof (current_home n Hc) as Hh. destruct (home_thread n Hh) as (tn & Htn & _).
    change (thread (set_current_kernel_stack _ _ (on_cpu _ _ s)) ?i) with (thread s i). rewrite Ht, Htn.
    intros H. apply (switch_thread_inv _ (set_gs (kstack_of s n) ∘ set_unlock (Z.of_nat b))) in H; try done.
    cbn. by rewrite list_alter_alter_eq.
  - change (thread (on_cpu _ _ s) ?i) with (thread s i). rewrite Ht.
    intros H. eapply (switch_idle_inv _ (set_unlock (Z.of_nat b))) in H; try done. intros ? _. by right.
Qed.

Lemma wait_inv now p s' : at_pc (exec k) = p -> wait_step c now p s = Some s' -> inv s'.
Proof using Hi Hk.
  intros Hpc. pose proof (shape_at _ Hpc) as Hs.
  destruct p; try (unfold wait_step; by rewrite Hk).
  - unfold wait_step. rewrite Hk. cbn. destruct (_ <=? _); intros [= <-]; go_to s k Hpc Hs.
  - unfold wait_step. rewrite Hk. cbn. intros (s1 & Hl & ->)%fmap_Some.
    apply (lock_bucket_inv _ s1 _ _ Hpc Hl); try done. unfold extra. cbn. by rewrite Hpc.
  - unfold wait_step. rewrite Hk. cbn. unfold pending_wake_consume. destruct (_ ≫= _).
    + intros [= <-]. go_to s k Hpc Hs.
    + destruct (negb _); intros [= <-]; go_to s k Hpc Hs.
  - unfold wait_step. rewrite Hk. cbn. destruct (FUTEX_BLOCKING s); intros [= <-]; go_to s k Hpc Hs.
  - unfold wait_step. rewrite Hk. cbn. destruct (current k) as [t|] eqn:Hcur; intros [= <-].
    + by apply (mark_inv _ t _ addr val deadline).
    + go_to s k Hpc Hs.
  - by apply pick_inv.
  - by apply wait_switch_inv.
  - unfold wait_step. rewrite Hk. cbn. intros [= <-]. go_to s k Hpc Hs.
  - unfold wait_step. rewrite Hk. cbn. destruct Hs as [Ho Hc]. cbn in Ho, Hc.
    destruct (thread s t) as [th|]; intros [= <-]; [|go_to s k Hpc Hs].
    apply (inv_move s _ _ k); try done; [by apply inv_on_thread|by apply quiet_on_thread| |by intros; cbn; lia|].
    + unfold extra. cbn. by rewrite Hpc.
    + by exists t.
Qed.

(** An application processor leaves its boot loop for its first thread. *)
Lemma ap_jump_inv y next q tn :
  at_pc (exec k) = YieldPick y -> current k = None -> queue k = next :: q -> thread s next = Some tn ->
  inv (on_cpu c (set_exec (ctx tn)) (set_current_kernel_stack c (kernel_stack_top tn) (on_cpu c (set_run (Some next) q false) s))).
Proof using Hi Hk.
  intros Hpc Hcur Hq Htn. pose proof (shape_at _ Hpc) as Hs.
  assert (Ho : owner (exec k) = None).
  { unfold shape in Hs. cbn in Hs. destruct (yk_idle y); [apply Hs|]. destruct Hs as (? & ? & ?). cbn in *. congruence. }
  assert (Hh : home_is s next c) by (apply queue_home; rewrite Hq; by left).
  apply (inv_switch_to s _ c k (set_exec (ctx tn) ∘ (set_gs (kernel_stack_top tn) ∘ set_run (Some next) q false))
           (exec k) Hi Hk) with next tn; try done; unfold compose; cbn.
  - by rewrite !list_alter_alter_eq.
  - intros j. rewrite Ho. by destruct (decide _).
  - rewrite Hq. by right.
  - apply (inv_cpu _ Hi c k Hk).
  - by rewrite Hpc.
  - intros i. unfold places, extra. rewrite Hpc, Hq, Hcur. cbn. rewrite !occ_app. cbn. lia.
  - unfold kstack_of. by rewrite Htn.
  - by rewrite Ho.
Qed.

Lemma yield_pick_inv y s' :
  at_pc (exec k) = YieldPick y -> yield_step c (YieldPick y) s = Some s' -> inv s'.
Proof using Hi Hk.
  intros Hpc. pose proof (shape_at _ Hpc) as Hs. unfold yield_step. rewrite Hk. cbn [mbind option_bind].
  unfold shape in Hs. cbn in Hs.
  destruct (current k) as [cur|] eqn:Hcur, (queue k) as [|next q] eqn:Hq.
  - intros [= <-]. destruct y; cbn in *; go_to s k Hpc Hs.
  - intros [= <-].
    assert (Hy : yk_idle y = false /\ owner (exec k) = Some cur).
    { destruct (yk_idle y); [by destruct Hs; cbn in *; congruence|]. destruct Hs as (x & ? & ?). cbn in *. split; congruence. }
    apply requeue_inv; try done.
    + intros i. unfold places, extra. rewrite Hpc, Hq, Hcur. cbn. rewrite !occ_app. cbn. lia.
    + intros i [[Hin| ->%list_elem_of_singleton]%elem_of_app|[[= <-]|?]]; try done.
      * apply queue_home. rewrite Hq. by right.
      * by apply current_home.
      * apply queue_home. rewrite Hq. by left.
    + unfold shape. cbn. by destruct Hy.
  - intros [= <-]. destruct y; cbn in *; go_to s k Hpc Hs.
  - destruct (home_thread next) as (tn & Htn & _). { apply queue_home. rewrite Hq. by left. }
    change (thread (on_cpu _ _ s) ?i) with (thread s i). rewrite Htn. intros [= <-].
    by apply (ap_jump_inv y).
Qed.

Lemma yield_inv p s' : at_pc (exec k) = p -> yield_step c p s = Some s' -> inv s'.
Proof using Hi Hk.
  intros Hpc. pose proof (shape_at _ Hpc) as Hs. destruct p; try (unfold yield_step; by rewrite Hk).
  - unfold yield_step. rewrite Hk. cbn. intros [= <-]. destruct k0; go_to s k Hpc Hs.
  - by apply yield_pick_inv.
  - destruct Hs as (Ho & Hc & Hy). cbn in Ho, Hc. unfold yield_step. rewrite Hk. cbn [mbind option_bind].
    destruct (ok_owner _ _ _ (inv_cpu _ Hi c k Hk) cur Ho) as [(tt & Ht & _)%home_thread _].
    pose proof (current_home next Hc) as Hh. destruct (home_thread next Hh) as (tn & Htn & _).
    change (thread (set_current_kernel_stack _ _ s) ?i) with (thread s i). rewrite Ht, Htn.
    intros H. eapply (switch_thread_inv _ (set_gs (kstack_of s next))) in H; try done; [by rewrite Hpc|].
    unfold extra. by rewrite Hpc, Hc.
  - unfold yield_step. rewrite Hk. cbn. intros [= <-]. destruct Hs as [Hs Hy]. cbn in Hs, Hy.
    destruct k0; try done; go_to s k Hpc Hs.
Qed.

(** A thread this CPU holds, or whose stack it uses, is not with another CPU. *)
Lemma elsewhere x kx t :
  x <> c -> CPUS s !! x = Some kx ->
  (t ∈ places k -> t ∉ places kx) /\ (t ∈ owned k -> t ∉ owned kx).
Proof using Hi Hk.
  intros Hne Hx. split; intros H1%occ_in H2%occ_in.
  - pose proof (total_two (fun k => occ t (places k)) _ _ _ _ _ Hne Hx Hk) as H.
    rewrite (inv_place _ Hi t) in H. cbn beta in *. destruct (live s t); cbn in *; lia.
  - pose proof (total_two (fun k => occ t (owned k)) _ _ _ _ _ Hne Hx Hk) as H.
    pose proof (inv_own _ Hi t). cbn beta in *. lia.
Qed.

Lemma held_once t : (occ t (places k) <= 1)%nat /\ (occ t (owned k) <= 1)%nat.
Proof using Hi Hk.
  pose proof (total_member (fun k => occ t (places k)) _ _ _ Hk) as H1. rewrite (inv_place _ Hi t) in H1.
  pose proof (total_member (fun k => occ t (owned k)) _ _ _ Hk) as H2. pose proof (inv_own _ Hi t).
  cbn beta in *. destruct (live s t); cbn in *; lia.
Qed.

Lemma thread_exit_inv t :
  at_pc (exec k) = ThreadExit -> current k = Some t ->
  inv (goto c (ExitSwitch t) (on_thread t (set_state Dead) (on_cpu c (set_run None (queue k) true) s))).
Proof using Hi Hk.
  intros Hpc Hcur. pose proof (shape_at _ Hpc) as (t' & Ho & Hc). cbn in Ho, Hc.
  assert (t' = t) as -> by congruence.
  assert (Hex : extra k = [t]) by (unfold extra; by rewrite Hpc, Hcur).
  assert (Htp : t ∈ places k) by (apply elem_of_app; right; rewrite Hex; by left).
  pose proof (place_live s c k t Hi Hk Htp) as Hlive.
  destruct (thread_here t) as (th & Ht & Hh); [by right|]. set (s' := goto c _ _).
  assert (Hth : forall j, thread s' j = if decide (t = j) then set_state Dead <$> thread s j else thread s j).
  { intros j. unfold s', goto. change (thread (on_cpu _ _ ?x) j) with (thread x j). by rewrite thread_on_thread. }
  assert (Hsig : forall j, j <> t -> sig s' j = sig s j).
  { intros j Hne. unfold sig. rewrite Hth. by destruct (decide (t = j)). }
  assert (Hst : sig s' t = Some (c, kernel_stack_top th, true)).
  { unfold sig. rewrite Hth, decide_True, Ht by done. cbn. by rewrite Hh. }
  apply (inv_build_gen s s' c k (set_pc (ExitSwitch t) ∘ set_run None (queue k) true)); try done.
  - cbn. by rewrite list_alter_alter_eq.
  - cbn. by rewrite length_alter.
  - intros x kx Hne Hx. destruct (elsewhere x kx t Hne Hx) as [E1 E2].
    apply (cpu_ok_other s _ _ _ t); [done|done|by apply E1| |by apply (inv_cpu _ Hi)].
    apply E2. apply elem_of_app. left. rewrite Ho. by left.
  - intros j. unfold live at 2. rewrite Hth. unfold places. rewrite Hex, !occ_app. cbn.
    destruct (decide (t = j)) as [->|Hne].
    + rewrite Hlive, Ht, Nat.eqb_refl. cbn. lia.
    + rewrite (proj2 (Nat.eqb_neq t j)) by done. unfold live. cbn. lia.
  - intros j. left. unfold owned, compose. cbn. rewrite Hpc. done.
  - destruct (inv_cpu _ Hi c k Hk) as [H1 H2 H3 H4 H5 H6]. constructor; try done; cbn.
    + unfold shape. cbn. rewrite Hst. eauto.
    + intros j Hj. destruct (decide (j = t)) as [->|Hne]; [by eexists _, _|].
      destruct (H2 j Hj) as (z & d & Hs). exists z, d. by rewrite Hsig.
    + intros j Hj. assert (j = t) as -> by congruence. split; [by eexists _, _|].
      rewrite kstack_of_sig, Hst. destruct (H4 t Hj) as [_ ->]. unfold kstack_of. by rewrite Ht.
  - intros j tj. rewrite Hth. intros Hj.
    assert (Hown : forall x, owns s x j -> owns s' x j).
    { intros x Hx. unfold s', goto. apply owns_on_cpu; [done|].
      change (owns (on_thread t (set_state Dead) ?y) x j) with (owns y x j). by apply owns_on_cpu. }
    destruct (decide (t = j)) as [<-|Hne].
    + rewrite Ht in Hj. injection Hj as <-.
      apply (thread_ok_frame s _ t th); [by apply (inv_thread _ Hi)|done..|by apply Hown].
    + apply (thread_ok_frame s _ j tj tj); [by apply (inv_thread _ Hi)|done..|by apply Hown].
Qed.

Lemma exit_thread_inv p s' : at_pc (exec k) = p -> exit_thread_step c p s = Some s' -> inv s'.
Proof using Hi Hk.
  intros Hpc. pose proof (shape_at _ Hpc) as Hs. destruct p; try (unfold exit_thread_step; by rewrite Hk).
  - unfold exit_thread_step. rewrite Hk. cbn [mbind option_bind]. destruct Hs as (t & Ho & Hc). cbn in Ho, Hc.
    rewrite Hc. intros [= <-]. by apply thread_exit_inv.
  - unfold exit_thread_step. rewrite Hk. cbn [mbind option_bind]. destruct Hs as (Ho & Hc & h & z & Hd). cbn in Ho, Hc.
    destruct (thread s t) as [tt|] eqn:Ht; [|done]. intros H.
    eapply (switch_idle_inv s id) in H; try done; [..|].
    + symmetry. by apply list_alter_id.
    + by rewrite Hpc.
    + unfold extra. by rewrite Hpc, Hc.
    + intros t' Ht'. left. unfold sig in Hd. rewrite Ht' in Hd. cbn in Hd. by destruct (state t'); simplify_eq.
Qed.

Lemma idle_next_inv n t :
  at_pc (exec k) = IdleNext n -> thread s n = Some t ->
  inv (goto c (IdleSwitch n) (set_current_kernel_stack c (kernel_stack_top t) (on_cpu c (set_run (Some n) (queue k) false) s))).
Proof using Hi Hk.
  intros Hpc Ht. pose proof (shape_at _ Hpc) as [Ho Hc]. cbn in Ho, Hc.
  assert (Hh : home_is s n c) by apply (ok_next _ _ _ (inv_cpu _ Hi c k Hk) n Hpc).
  apply (inv_build s _ c k (set_pc (IdleSwitch n) ∘ (set_gs (kernel_stack_top t) ∘ set_run (Some n) (queue k) false)));
    try done; unfold compose.
  - cbn. by rewrite !list_alter_alter_eq.
  - intros i. unfold places, extra. rewrite Hpc, Hc. done.
  - intros i. left. unfold owned. rewrite Hpc. done.
  - destruct (inv_cpu _ Hi c k Hk) as [H1 H2 H3 H4 H5 H6]. constructor; try done; cbn.
    + unfold shape. cbn. unfold kstack_of. change (thread _ n) with (thread s n). by rewrite Ht.
    + by intros i [= <-].
    + intros i. by rewrite Ho.
  - intros i ti Hti. apply (thread_ok_frame s _ i ti ti); [by apply (inv_thread _ Hi)|done..|].
    intros. unfold goto. repeat (apply owns_on_cpu; [done|]). done.
Qed.

Lemma idle_switch_inv n s' :
  at_pc (exec k) = IdleSwitch n -> context_switch c CIdle IdleBack (CThread n) s = Some s' -> inv s'.
Proof using Hi Hk.
  intros Hpc. pose proof (shape_at _ Hpc) as (Ho & Hc & Hg). cbn in Ho, Hc, Hg.
  pose proof (current_home n Hc) as Hh.
  unfold context_switch. rewrite Hk. cbn [mbind option_bind save_ctx load_ctx].
  change (thread (on_cpu _ _ s) n) with (thread s n).
  destruct (thread s n) as [tn|] eqn:Htn; [|done]. cbn [mbind option_bind fmap option_fmap option_map]. intros [= <-].
  apply (inv_switch_to s _ c k (set_exec (ctx tn) ∘ set_idle_ctx (mkStack (owner (exec k)) IdleBack)) (exec k) Hi Hk)
    with n tn; try done; unfold compose; cbn.
  - by rewrite list_alter_alter_eq.
  - intros j. rewrite Ho. by destruct (decide _).
  - right. by rewrite Ho.
  - by rewrite Hpc.
  - intros i. unfold places, extra. by rewrite Hpc, Hc.
  - by rewrite Ho.
Qed.

Lemma idle_inv p s' : at_pc (exec k) = p -> idle_step c p s = Some s' -> inv s'.
Proof using Hi Hk.
  intros Hpc. pose proof (shape_at _ Hpc) as Hs. pose proof queue_home as Hqh.
  destruct p; try (unfold idle_step; by rewrite Hk); unfold idle_step; rewrite Hk; cbn [mbind option_bind].
  - intros [= <-]. go_to s k Hpc Hs.
  - intros [= <-]. go_to s k Hpc Hs.
  - intros [= <-]. destruct (queue k); go_to s k Hpc Hs.
  - destruct Hs as [Ho Hc]. cbn in Ho, Hc. destruct (queue k) as [|next q] eqn:Hq; intros [= <-]; [go_to s k Hpc Hs|].
    rewrite Hc. apply requeue_inv; try done.
    + intros i. unfold places, extra. rewrite Hpc, Hq, Hc. cbn. rewrite !occ_app. cbn. lia.
    + intros i [?|[?|[= <-]]]; [apply Hqh; by right|done|apply Hqh; by left].
  - destruct (home_thread n (ok_next _ _ _ (inv_cpu _ Hi c k Hk) n Hpc)) as (tn & Htn & _).
    change (thread (on_cpu _ _ s) n) with (thread s n). rewrite Htn. intros [= <-]. by apply idle_next_inv.
  - by apply idle_switch_inv.
  - intros [= <-]. go_to s k Hpc Hs.
  - intros [= <-]. destruct Hs as [Ho Hc]. cbn in Ho, Hc. apply requeue_inv; try done.
    + intros i. unfold places, extra. by rewrite Hpc, Hc.
    + intros i [?|[?|?]]; [by apply Hqh|done..].
Qed.

(** ** spawn *)

Lemma fresh_tid t : NEXT_TID s <= Z.of_nat t -> sig s t = None /\ total (fun k => occ t (owned k)) (CPUS s) = 0%nat.
Proof using Hi Hk.
  intros Ht. assert (Hnone : sig s t = None).
  { unfold sig. destruct (thread s t) as [th|] eqn:E; [|done].
    pose proof (ok_next_tid _ _ _ (inv_thread _ Hi t th E)). lia. }
  split; [done|]. destruct (total _ _) eqn:E; [done|exfalso].
  destruct (total_pos (fun k => occ t (owned k)) (CPUS s)) as (x & kx & Hx & Hin); [lia|].
  apply occ_in, elem_of_app in Hin as [Hin|Hin].
  - destruct (owner (exec kx)) as [y|] eqn:Hy; [|by apply not_elem_of_nil in Hin].
    apply list_elem_of_singleton in Hin as <-.
    destruct (ok_owner _ _ _ (inv_cpu _ Hi x kx Hx) t Hy) as [(z & d & Hs) _]. congruence.
  - destruct (owned_spawning s x kx t Hi Hx Hin) as [[_ ?]|Hex]; [lia|].
    assert (live s t = true) as (h & z & ?)%live_sig; [|congruence].
    apply (place_live s x kx); [done..|]. apply elem_of_app. by right.
Qed.

Lemma spawn_begin_inv a :
  at_pc (exec k) = Spawn a -> NEXT_TID s < Z.of_nat MAX_THREADS ->
  inv (goto c (SpawnStack a (Z.to_nat (NEXT_TID s))) (with_counters (NEXT_TID s + 1) (KSTACK_NEXT s) s)).
Proof using Hi Hk.
  intros Hpc Hlt. pose proof (shape_at _ Hpc) as Hs. pose proof (inv_next _ Hi) as Hpos.
  remember (Z.to_nat (NEXT_TID s)) as t eqn:Et. destruct (fresh_tid t) as [Hnone Hfresh]; [lia|].
  set (s' := goto _ _ _). assert (Hsig : forall i, sig s' i = sig s i) by done.
  apply (inv_build s s' c k (set_pc (SpawnStack a t))); try done.
  - cbn. lia.
  - intros i. unfold places, extra. cbn. by rewrite Hpc.
  - intros i. unfold owned. cbn. rewrite Hpc, !occ_app. cbn. destruct (decide (t = i)) as [<-|Hne]; [right|left].
    + split; [done|]. pose proof (total_member (fun k => occ t (owned k)) _ _ _ Hk) as Hm. rewrite Hfresh in Hm.
      unfold owned in Hm. rewrite occ_app in Hm. rewrite Nat.eqb_refl. cbn. lia.
    + rewrite (proj2 (Nat.eqb_neq t i)) by done. cbn. lia.
  - destruct (inv_cpu _ Hi c k Hk) as [H1 H2 H3 H4 H5 H6]. constructor; try done.
    unfold shape. cbn. rewrite Hsig, Hnone. split; [done|]. split; [done|]. change (NEXT_TID s') with (NEXT_TID s + 1). lia.
  - intros i ti Hti. apply (thread_ok_frame s _ i ti ti); [by apply (inv_thread _ Hi)|cbn; lia|done..|].
    intros. unfold s', goto. by apply owns_on_cpu.
Qed.

(** The new thread enters the table. *)
Lemma spawn_insert_inv a t top :
  at_pc (exec k) = SpawnInsert a t top ->
  inv (goto c (SpawnScan a t 0 0 U64_MAX false) (with_threads (<[t := Some (new_thread a t top)]> (THREADS s)) s)).
Proof using Hi Hk.
  intros Hpc. pose proof (shape_at _ Hpc) as (Hn & Hnone & Hlt & Hmax). cbn in Hlt.
  set (s' := goto _ _ _).
  assert (Hth : forall j, thread s' j = if decide (t = j) then Some (new_thread a t top) else thread s j).
  { intros j. unfold thread. cbn. destruct (decide (t = j)) as [<-|Hne].
    - rewrite list_lookup_insert_eq; [done|]. by rewrite (inv_threads_len _ Hi).
    - by rewrite list_lookup_insert_ne. }
  assert (Hsig : forall j, j <> t -> sig s' j = sig s j).
  { intros j Hne. unfold sig. rewrite Hth. by destruct (decide (t = j)). }
  assert (Hnh : forall j x, home_is s j x -> j <> t) by (intros j x (z & d & ?) ->; congruence).
  assert (Hlive : live s t = false).
  { destruct (live s t) eqn:E; [|done]. apply live_sig in E as (? & ? & ?). congruence. }
  assert (Hnp : forall x kx, CPUS s !! x = Some kx -> t ∉ places kx).
  { intros x kx Hx Hin%(place_live s x kx _ Hi Hx). congruence. }
  apply (inv_build_gen s s' c k (set_pc (SpawnScan a t 0 0 U64_MAX false))); try done.
  - cbn. by rewrite length_insert.
  - intros x kx Hne Hx. destruct (elsewhere x kx t Hne Hx) as [_ E2].
    apply (cpu_ok_other s _ _ _ t); [done|done|by eapply Hnp| |by apply (inv_cpu _ Hi)].
    apply E2. apply elem_of_app. right. rewrite Hpc. by left.
  - intros j. unfold live at 2. rewrite Hth. unfold places, extra. cbn. rewrite Hpc, !occ_app. cbn.
    destruct (decide (t = j)) as [<-|Hne].
    + rewrite Hlive, Nat.eqb_refl. cbn. lia.
    + rewrite (proj2 (Nat.eqb_neq t j)) by done. unfold live. cbn. lia.
  - intros j. left. unfold owned. cbn. by rewrite Hpc.
  - destruct (inv_cpu _ Hi c k Hk) as [H1 H2 H3 H4 H5 H6].
    assert (Hh : forall j x, home_is s j x -> home_is s' j x).
    { intros j x Hj. destruct Hj as (z & d & Hs) eqn:E. exists z, d. rewrite Hsig; [done|]. by eapply Hnh. }
    constructor; try done; cbn; auto.
    + split; [done|]. cbn. unfold MAX_CPUS. lia.
    + intros j Hj. destruct (H4 j Hj) as [Hj1 ->]. split; [by apply Hh|].
      rewrite !kstack_of_sig, Hsig; [done|]. by eapply Hnh.
  - intros j tj. rewrite Hth. destruct (decide (t = j)) as [<-|Hne].
    + intros [= <-]. constructor; [done|done| |done]. unfold MAX_CPUS. cbn. lia.
    + intros Hj. apply (thread_ok_frame s _ j tj tj); [by apply (inv_thread _ Hi)|done..|].
      intros. unfold s', goto. by apply owns_on_cpu.
Qed.

(** The new thread gets its home CPU. *)
Lemma spawn_home_inv a t cpu best len found m :
  at_pc (exec k) = SpawnScan a t cpu best len found ->
  inv (goto c (SpawnPush t best) (with_memory m (on_thread t (set_home best) s))).
Proof using Hi Hk.
  intros Hpc. pose proof (shape_at _ Hpc) as (Hn & Hbest). cbn in Hbest.
  assert (Htp : t ∈ places k) by (apply elem_of_app; right; unfold extra; rewrite Hpc; by left).
  assert (Hto : t ∈ owned k) by (apply elem_of_app; right; rewrite Hpc; by left).
  pose proof (place_live s c k t Hi Hk Htp) as Hlive.
  destruct (thread s t) as [th|] eqn:Ht; [|unfold live in Hlive; by rewrite Ht in Hlive].
  destruct (held_once t) as [Hp1 Ho1].
  assert (Hnq : t ∉ queue k).
  { intros Hin%occ_in. unfold places, extra in Hp1. rewrite Hpc, occ_app in Hp1. cbn in Hp1.
    rewrite Nat.eqb_refl in Hp1. cbn in Hp1. lia. }
  assert (Hno : owner (exec k) <> Some t).
  { intros Ho. unfold owned in Ho1. rewrite Hpc, Ho in Ho1. cbn in Ho1. rewrite Nat.eqb_refl in Ho1. cbn in Ho1. lia. }
  set (s' := goto _ _ _).
  assert (Hth : forall j, thread s' j = if decide (t = j) then set_home best <$> thread s j else thread s j).
  { intros j. unfold s', goto. change (thread (on_cpu _ _ (with_memory m ?x)) j) with (thread x j). apply thread_on_thread. }
  assert (Hsig : forall j, j <> t -> sig s' j = sig s j).
  { intros j Hne. unfold sig. rewrite Hth. by destruct (decide (t = j)). }
  assert (Hown : forall x i, owns s x i -> owns s' x i) by (intros; unfold s', goto; by apply owns_on_cpu).
  apply (inv_build_gen s s' c k (set_pc (SpawnPush t best))); try done.
  - cbn. by rewrite length_alter.
  - intros x kx Hne Hx. destruct (elsewhere x kx t Hne Hx) as [E1 E2].
    apply (cpu_ok_other s _ _ _ t); [done|done|by apply E1|by apply E2|by apply (inv_cpu _ Hi)].
  - intros j. unfold places, extra. cbn. rewrite Hpc. unfold live. rewrite Hth.
    destruct (decide (t = j)) as [<-|]; [|done]. by rewrite Ht.
  - intros j. left. unfold owned. cbn. by rewrite Hpc.
  - destruct (inv_cpu _ Hi c k Hk) as [H1 H2 H3 H4 H5 H6]. destruct Hn as (x & Hx1 & Hx2). cbn in Hx1, Hx2.
    assert (Hh : forall j y, j <> t -> home_is s j y -> home_is s' j y).
    { intros j y Hne (z & d & Hs). exists z, d. by rewrite Hsig. }
    constructor; try done; cbn.
    + split; [by exists x|]. split; [done|]. eexists _, _. unfold sig. rewrite Hth, decide_True, Ht by done. done.
    + intros j Hj. apply Hh; [by intros ->|by auto].
    + intros j Hj. apply Hh; [intros ->; congruence|by auto].
    + intros j Hj. assert (j <> t) by (intros ->; congruence). destruct (H4 j Hj) as [? ->].
      split; [by apply Hh|]. by rewrite !kstack_of_sig, Hsig.
  - intros j tj. rewrite Hth. destruct (decide (t = j)) as [<-|Hne].
    + rewrite Ht. intros [= <-]. destruct (inv_thread _ Hi t th Ht) as [T1 T2 T3 T4].
      constructor; [done|done|done|]. cbn. intros Hd _. apply T4; [done|]. intros (kx & Hx & Hox).
      destruct (decide (home_cpu th = c)) as [He|He]; [rewrite He in Hx; congruence|].
      apply (proj2 (elsewhere _ _ t He Hx) Hto). apply elem_of_app. left. rewrite Hox. by left.
    + intros Hj. apply (thread_ok_frame s _ j tj tj); [by apply (inv_thread _ Hi)|done..|]. apply Hown.
Qed.

(** The new thread is queued. *)
Lemma spawn_push_inv t best :
  at_pc (exec k) = SpawnPush t best -> inv (goto c (SpawnIpi t best) (on_cpu best (push_queue t) s)).
Proof using Hi Hk.
  intros Hpc. pose proof (shape_at _ Hpc) as (Hn & Hbest & Hhome). cbn in Hbest.
  destruct (lookup_lt_is_Some_2 (CPUS s) best) as [kb Hkb]; [by rewrite (inv_cpus_len _ Hi)|].
  set (s1 := on_cpu best (push_queue t) s).
  assert (Hok1 : forall x kx, CPUS s1 !! x = Some kx -> cpu_ok s x kx).
  { intros x kx. unfold s1. rewrite on_cpu_lookup. destruct (decide (best = x)) as [<-|]; [|apply (inv_cpu _ Hi)].
    rewrite Hkb. intros [= <-]. destruct (inv_cpu _ Hi best kb Hkb) as [H1 H2 H3 H4 H5 H6]. constructor; try done.
    cbn. intros i [?| ->%list_elem_of_singleton]%elem_of_app; auto. }
  assert (Hk1 : exists k1, CPUS s1 !! c = Some k1 /\ exec k1 = exec k /\ current k1 = current k).
  { unfold s1. rewrite on_cpu_lookup. destruct (decide (best = c)); [|by exists k]. rewrite Hk. by exists (push_queue t k). }
  destruct Hk1 as (k1 & Hk1 & Hex & Hcu). set (p := SpawnIpi t best). set (s' := goto c p s1).
  assert (Hown : forall x i, owns s x i -> owns s' x i).
  { intros. unfold s', goto, s1. by repeat (apply owns_on_cpu; [done|]). }
  pose proof Hi as [I1 I2 I3 I4 I5 I6 I7 I8]. constructor; try done.
  - cbn. by rewrite !length_alter.
  - intros j. change (live s' j) with (live s j). rewrite <- I5.
    pose proof (total_alter (fun k => occ j (places k)) (set_pc p) _ _ _ Hk1) as T1.
    pose proof (total_alter (fun k => occ j (places k)) (push_queue t) _ _ _ Hkb) as T2.
    cbn beta in T1, T2. unfold places at 2 4 in T1. unfold places at 2 4 in T2.
    change (extra (push_queue t kb)) with (extra kb) in T2. cbn [queue push_queue set_run] in T2.
    unfold extra at 1 2 in T1. cbn [at_pc exec set_pc set_exec queue current p] in T1. rewrite Hex, Hpc in T1.
    rewrite !occ_app in T1. rewrite !occ_app in T2. cbn [occ] in T1, T2. unfold s', s1 in *. cbn [goto on_cpu with_cpus CPUS] in *. lia.
  - intros j. specialize (I6 j).
    pose proof (total_alter (fun k => occ j (owned k)) (set_pc p) _ _ _ Hk1) as T1.
    pose proof (total_alter (fun k => occ j (owned k)) (push_queue t) _ _ _ Hkb) as T2.
    cbn beta in T1, T2. unfold owned at 2 4 in T1. cbn in T1. rewrite !occ_app in T1. cbn [occ] in T1.
    change (owned (push_queue t kb)) with (owned kb) in T2.
    unfold s', s1 in *. cbn [goto on_cpu with_cpus CPUS] in *. lia.
  - intros x kx Hx. apply (cpu_ok_frame s); [done|done|]. revert Hx. unfold s', goto. rewrite on_cpu_lookup.
    destruct (decide (c = x)) as [<-|]; [|apply Hok1]. rewrite Hk1. intros [= <-]. destruct (Hok1 c k1 Hk1) as [H1 H2 H3 H4 H5 H6]. constructor; try done.
    unfold shape, normal. cbn. rewrite Hex, Hcu. by split.
  - intros i ti Hti. apply (thread_ok_frame s _ i ti ti); [by apply I8|done..|]. apply Hown.
Qed.

Lemma spawn_inv p s' :
  NEXT_TID s + 1 < 2 ^ 32 -> at_pc (exec k) = p -> spawn_step c p s = Some s' -> inv s'.
Proof using Hi Hk.
  intros Hb Hpc. pose proof (shape_at _ Hpc) as Hs. pose proof (inv_next _ Hi).
  assert (Hu : u32 (NEXT_TID s + 1) = NEXT_TID s + 1) by (unfold u32; apply Z.mod_small; lia).
  destruct p; try done; unfold spawn_step.
  - rewrite Hu. destruct (_ <=? _) eqn:E; bool_to_prop; intros [= <-].
    + assert (inv (with_counters (NEXT_TID s + 1) (KSTACK_NEXT s) s)) by (apply (inv_core s); try done; cbn; lia).
      assert (quiet c s (with_counters (NEXT_TID s + 1) (KSTACK_NEXT s) s)) by (constructor; try done; cbn; lia).
      go_to s k Hpc Hs.
    + by apply spawn_begin_inv.
  - intros [= <-]. apply (inv_move s _ _ k); try done; [by apply inv_kstack_next|unfold extra; cbn; by rewrite Hpc|].
    intros i. rewrite Hpc. done.
  - intros (s1 & Hl & ->)%fmap_Some. apply (lock_threads_inv s1 _ _ Hpc Hl); try done.
    unfold extra. cbn. by rewrite Hpc.
  - intros [= <-]. by apply spawn_insert_inv.
  - destruct (_ <? _)%nat eqn:E.
    + apply Nat.ltb_lt in E. pose proof (inv_ncpus _ Hi). destruct Hs as [Hn Hbst]. cbn in Hbst.
      destruct (CPUS s !! cpu) as [q|]; [|done]. cbn [mbind option_bind].
      destruct (_ && _); [|destruct (_ && _)]; intros [= <-];
        (apply (inv_move s _ _ k); try done; try (unfold extra; cbn; by rewrite Hpc);
         try (intros i; by rewrite Hpc); split; try done; cbn; lia).
    + intros [= <-]. by eapply spawn_home_inv.
  - intros [= <-]. by apply spawn_push_inv.
  - destruct Hs as [Hn _]. destruct (CPUS s !! best) as [q|]; [|done]. cbn [mbind option_bind].
    assert (Hq : quiet c s (on_cpu best (set_ipi true) s)) by by apply quiet_on_cpu.
    pose proof (inv_send_ipi best s Hi). destruct (_ && _); intros [= <-]; go_to s k Hpc Hn.
Qed.
End steps.

(** ** The machine *)

Lemma cpu_step_inv c a now s s' :
  inv s -> NEXT_TID s + 1 < 2 ^ 32 -> cpu_step c a now s = Some s' -> inv s'.
Proof.
  intros Hi Hb. unfold cpu_step. destruct (CPUS s !! c) as [k|] eqn:Hk; [|done]. cbn [mbind option_bind].
  destruct (at_pc (exec k)) eqn:Hpc; try (by eapply user_inv); try (by eapply exit_inv);
    destruct a; try done; intros H.
  all: first
    [ by eapply rescue_inv | by eapply yield_inv | by eapply wait_inv | by eapply wake_inv | by eapply spawn_inv
    | by eapply exit_thread_inv | by eapply idle_inv
    | injection H as <-; by eapply resched_inv | injection H as <-; by eapply clone_child_inv ].
Qed.

(** Only [spawn] moves [NEXT_TID], by one. *)
Lemma release_next c s : NEXT_TID (release_pending_unlock c s) = NEXT_TID s.
Proof. unfold release_pending_unlock. destruct (CPUS s !! c); [|done]. by destruct (0 <=? _). Qed.

Lemma rescue_next c i now s : NEXT_TID (rescue c i now s) = NEXT_TID s.
Proof.
  unfold rescue. destruct (thread s i); [|done]. destruct (is_blocked _); [|done].
  by destruct (_ <? _)%nat, (negb _).
Qed.

Lemma wake_one_next c a i s : NEXT_TID (wake_one c a i s).2 = NEXT_TID s.
Proof.
  unfold wake_one. destruct (thread s i); [|done]. destruct (_ && _); [|done]. by destruct (negb _).
Qed.

Lemma consume_next b a s : NEXT_TID (pending_wake_consume b a s).2 = NEXT_TID s.
Proof. unfold pending_wake_consume. by destruct (_ ≫= _). Qed.

Lemma context_switch_next c f p r s s' : context_switch c f p r s = Some s' -> NEXT_TID s' = NEXT_TID s.
Proof.
  unfold context_switch. destruct (CPUS s !! c); [|done]. cbn [mbind option_bind].
  destruct (load_ctx _ _ _); [|done]. cbn. intros [= <-]. by destruct f.
Qed.

Ltac next_tid :=
  repeat match goal with
  | H : context_switch _ _ _ _ _ = Some _ |- _ => apply context_switch_next in H; cbn in H
  | H : _ <$> lock_bucket _ _ = Some _ |- _ =>
      unfold lock_bucket in H; destruct (FUTEX_LOCKS _ !! _) as [[]|]; try discriminate H; injection H as <-
  | H : _ <$> lock_threads _ = Some _ |- _ => unfold lock_threads in H; destruct (THREAD_LOCK _); try discriminate H; injection H as <-
  | H : Some _ = Some _ |- _ => injection H as <-
  | H : (match ?x with _ => _ end) = Some _ |- _ => destruct x eqn:?; try discriminate H
  | H : (_ ≫= _) = Some _ |- _ => apply bind_Some in H as (? & ? & H)
  end; cbn; rewrite ?release_next, ?rescue_next, ?wake_one_next; try lia.

Lemma cpu_step_next c a now s s' :
  0 <= NEXT_TID s -> NEXT_TID s + 1 < 2 ^ 32 -> cpu_step c a now s = Some s' ->
  NEXT_TID s <= NEXT_TID s' <= NEXT_TID s + 1.
Proof.
  intros H0 Hb. assert (Hu : u32 (NEXT_TID s + 1) = NEXT_TID s + 1) by (unfold u32; apply Z.mod_small; lia).
  unfold cpu_step. destruct (CPUS s !! c) as [k|] eqn:Hk; [|done]. cbn [mbind option_bind].
  destruct (at_pc (exec k)); destruct a; try done; intros H;
    unfold user_step, exit_step, rescue_step, yield_step, wait_step, wake_step, spawn_step, exit_thread_step, idle_step in H.
  all: try rewrite Hk in H; cbn [mbind option_bind] in H; next_tid.
  all: try match goal with
    | H : pending_wake_consume ?b ?a ?s = _ |- _ => pose proof (consume_next b a s) as Hn; rewrite H in Hn
    | H : wake_one ?c ?a ?i ?s = _ |- _ => pose proof (wake_one_next c a i s) as Hn; rewrite H in Hn
    end; cbn in *; try lia.
  all: try (destruct (queue k); cbn; lia).
  all: try (destruct (woken =? 0); cbn; lia).
  all: try (destruct (idle _ && _); cbn; lia).
Qed.

Lemma end_hlt_inv c s : inv s -> inv (on_cpu c end_hlt s).
Proof.
  intros Hi. destruct (CPUS s !! c) as [k|] eqn:Hk.
  - assert (Hmove : forall p q, at_pc (exec k) = p -> end_hlt k = set_pc q k -> extra (set_pc q k) = extra k ->
      spawning q = [] -> shape s (set_pc q k) -> (forall n, q <> IdleNext n) -> inv (on_cpu c end_hlt s)).
    { intros p q Hpc He Hx Hq Hsh Hn. rewrite (on_cpu_ext s c _ (set_pc q)) by (intros; by simplify_eq).
      apply (inv_goto s c k); try done. rewrite Hq. cbn. lia. }
    pose proof (shape_at s c k Hi Hk) as Hs.
    destruct (at_pc (exec k)) eqn:Hpc; specialize (Hs _ eq_refl);
      try (rewrite (on_cpu_ext s c _ id); [apply inv_on_cpu; [done|done]|intros k' Hk'; assert (k' = k) as -> by congruence;
           unfold end_hlt; by rewrite Hpc]).
    + apply (Hmove IdleHlt IdlePop); try done; unfold end_hlt, extra; cbn; by rewrite Hpc.
    + apply (Hmove ApHlt (Yield YAp)); try done; unfold end_hlt, extra; cbn; by rewrite Hpc.
  - unfold on_cpu. replace (alter end_hlt c (CPUS s)) with (CPUS s); [by apply (inv_core s)|].
    apply list_eq. intros j. rewrite list_lookup_alter. destruct (decide (c = j)) as [->|]; [|done]. by rewrite Hk.
Qed.

Lemma watchdog_one_inv now i s : inv s -> inv (watchdog_one now i s).
Proof.
  intros Hi. unfold watchdog_one. destruct (thread s i); [|done].
  destruct (negb _); [done|]. destruct (_ =? _); [done|]. destruct (_ || _ || _); [by apply inv_rescue|done].
Qed.

Lemma watchdog_one_next now i s : NEXT_TID (watchdog_one now i s) = NEXT_TID s.
Proof.
  unfold watchdog_one. destruct (thread s i); [|done].
  destruct (negb _); [done|]. destruct (_ =? _); [done|]. by destruct (_ || _ || _).
Qed.

Lemma step_inv l s s' :
  inv s -> NEXT_TID s + 1 < 2 ^ 32 -> step l s = Some s' -> inv s' /\ NEXT_TID s <= NEXT_TID s' <= NEXT_TID s + 1.
Proof.
  intros Hi Hb. pose proof (inv_next _ Hi). destruct l; cbn [step].
  - intros H1. split; [by eapply cpu_step_inv|]. eapply cpu_step_next; [|done..]. lia.
  - intros [= <-]. unfold timer_tick. destruct (_ <? _)%nat; (split; [apply end_hlt_inv|cbn; lia]); [by apply inv_on_cpu|done].
  - intros [= <-]. unfold watchdog_arm. destruct (_ && _); (split; [|cbn; lia]); [by apply inv_valve|done].
  - intros [= <-]. rewrite watchdog_one_next. split; [by apply watchdog_one_inv|lia].
  - destruct (CPUS s !! c) as [k|] eqn:Hk; [|done]. cbn [mbind option_bind].
    assert (inv (on_cpu c end_hlt (on_cpu c (set_ipi false) s))) by (apply end_hlt_inv; by apply inv_on_cpu).
    intros H1. assert (s' = on_cpu c end_hlt (on_cpu c (set_ipi false) s)) as ->
      by (destruct (at_pc (exec k)), (ipi k); congruence).
    split; [done|cbn; lia].
Qed.

Lemma sched_run_inv ls s s' :
  inv s -> NEXT_TID s + Z.of_nat (length ls) < 2 ^ 32 -> run ls s = Some s' -> inv s'.
Proof.
  revert s. induction ls as [|l ls IH]; cbn [run length]; intros s Hi Hb H; [by simplify_eq|].
  apply bind_Some in H as (s1 & H1 & H). destruct (step_inv l s s1 Hi ltac:(lia) H1) as [Hi1 Hn]. apply (IH s1); [done|lia|done].
Qed.

Lemma init_threads n stack0 m i t : thread (init n stack0 m) i = Some t -> i = 0%nat /\ t = main_thread stack0.
Proof.
  unfold thread. cbn [init THREADS]. destruct i as [|i]; [cbn; by intros [= <-]|].
  rewrite lookup_cons_ne_0 by done. cbn [pred]. destruct (_ !! i) as [o|] eqn:E; [|done]. apply lookup_replicate in E as [-> _]. done.
Qed.

Lemma sched_init_inv n stack0 m : (n <= MAX_CPUS)%nat -> inv (init n stack0 m).
Proof.
  intros Hn. constructor; try done.
  - intros [|i]; [done|]. replace (live (init n stack0 m) (S i)) with false; [done|].
    unfold live. destruct (thread _ (S i)) as [t|] eqn:E; [|done]. by apply init_threads in E as [? _].
  - intros [|i]; cbn; lia.
  - intros c k Hk. cbn [init CPUS] in Hk. rewrite list_lookup_fmap in Hk.
    destruct (seq 0 MAX_CPUS !! c) as [x|] eqn:E; [|done]. apply lookup_seq in E as [-> E]. injection Hk as <-.
    destruct c as [|c]; cbn.
    + constructor; cbn; try done; [by exists 0%nat|by intros ? ?%not_elem_of_nil|..|by left].
      * intros i [= <-]. by eexists _, _.
      * intros i [= <-]. split; [by eexists _, _|done].
    + constructor; cbn; try done; [by intros ? ?%not_elem_of_nil|by left].
  - intros i t [-> ->]%init_threads. constructor; cbn; try done; [unfold MAX_CPUS; lia|].
    intros _ Hno. exfalso. apply Hno. eexists. split; [done|]. done.
Qed.
