(* ===== verification/SchedLocks.v ===== *)
(** * The scheduler's locks

    A futex bucket lock is held by at most one CPU at any time, across the
    hand-over in which a thread that goes to sleep leaves the unlocking to
    whatever runs next; the thread-table lock likewise.  From this follow
    freedom from deadlock and that a wake misses no waiter. *)

From S2P Require Import Prelude Sched SchedInv SchedSafe.

(** ** Who holds what *)

Definition bucket_held (p : pc) : list nat :=
  match p with
  | RescueTLock _ b _ | RescueDo _ b _ | WaitPick b _ | WaitSwitch b _ _ => [b]
  | WaitCheck a _ _ | WaitMode a _ _ | WaitMark a _ _ | WakeTLock a _ | WakeScan a _ _ _ => [futex_bucket a]
  | _ => []
  end.

Definition threads_held (p : pc) : nat :=
  match p with
  | RescueDo _ _ _ | WakeScan _ _ _ _ | SpawnInsert _ _ _ | SpawnScan _ _ _ _ _ _ | SpawnPush _ _ | SpawnIpi _ _ => 1
  | _ => 0
  end%nat.

(** What the locks depend on in a CPU: its point and its pending unlock. *)
Definition view (k : Cpu) : pc * Z := (at_pc (exec k), pending_unlock k).
Definition views (s : sched) : list (pc * Z) := view <$> CPUS s.

Definition pending_held (z : Z) : list nat := if 0 <=? z then [Z.to_nat z] else [].
Definition held (v : pc * Z) : list nat := bucket_held v.1 ++ pending_held v.2.

(** The points that begin with [release_pending_unlock]. *)
Definition release_point (p : pc) : bool :=
  match p with CloneChild | IdleTop | IdleBack | YieldBack _ | WaitBack _ => true | _ => false end.

(** Bucket numbers a point carries are in range. *)
Definition bucket_ok (p : pc) : Prop :=
  match p with
  | RescueLock _ b _ | RescueTLock _ b _ | RescueDo _ b _ | WaitPick b _ | WaitSwitch b _ _ => (b < 16)%nat
  | _ => True
  end.

Definition view_ok (v : pc * Z) : Prop :=
  bucket_ok v.1 /\ (v.2 = -1 \/ 0 <= v.2 < 16 /\ release_point v.1 = true).

Definition locked (s : sched) (b : nat) : bool := default false (FUTEX_LOCKS s !! b).

Record linv (s : sched) : Prop := {
  linv_len : length (FUTEX_LOCKS s) = 16%nat;
  linv_bucket : forall b, total (fun v => occ b (held v)) (views s) = Nat.b2n (locked s b);
  linv_threads : total (fun v => threads_held v.1) (views s) = Nat.b2n (THREAD_LOCK s);
  linv_view : forall c v, views s !! c = Some v -> view_ok v
}.

Lemma futex_bucket_lt a : (futex_bucket a < 16)%nat.
Proof. unfold futex_bucket, FUTEX_BUCKETS. pose proof (Z.mod_pos_bound (a / 4) 16). lia. Qed.

(** ** Views after updates *)

Lemma views_lookup s c : views s !! c = view <$> CPUS s !! c.
Proof. apply list_lookup_fmap. Qed.

Lemma views_goto c p s : views (goto c p s) = alter (fun v => (p, v.2)) c (views s).
Proof.
  apply list_eq. intros j. rewrite list_lookup_alter, !views_lookup. unfold goto. rewrite on_cpu_lookup.
  destruct (decide (c = j)) as [->|]; [|done]. by destruct (CPUS s !! j).
Qed.

Lemma views_on_cpu c f s : (forall k, view (f k) = view k) -> views (on_cpu c f s) = views s.
Proof.
  intros Hf. apply list_eq. intros j. rewrite !views_lookup, on_cpu_lookup.
  destruct (decide (c = j)) as [->|]; [|done]. destruct (CPUS s !! j); [|done]. cbn. by rewrite Hf.
Qed.

Lemma views_release c s : views (release_pending_unlock c s) = alter (fun v => (v.1, -1)) c (views s).
Proof.
  assert (H : views (on_cpu c (set_unlock (-1)) s) = alter (fun v => (v.1, -1)) c (views s)).
  { apply list_eq. intros j. rewrite list_lookup_alter, !views_lookup, on_cpu_lookup.
    destruct (decide (c = j)) as [->|]; [|done]. by destruct (CPUS s !! j). }
  unfold release_pending_unlock. destruct (CPUS s !! c) as [k|] eqn:Hk; [by destruct (0 <=? _)|].
  apply list_eq. intros j. rewrite list_lookup_alter, !views_lookup. destruct (decide (c = j)) as [->|]; [|done]. by rewrite Hk.
Qed.

Lemma views_rescue c i now s : views (rescue c i now s) = views s.
Proof.
  unfold rescue. destruct (thread s i) as [t|]; [|done]. destruct (is_blocked _); [|done].
  destruct (negb _); rewrite ?views_on_cpu by done; (destruct (_ <? _)%nat; [|done]).
  all: rewrite views_on_cpu; [done|]; intros k; by destruct (existsb _ _).
Qed.

Lemma views_wake_one c a i s : views (wake_one c a i s).2 = views s.
Proof.
  unfold wake_one. destruct (thread s i) as [t|]; [|done]. destruct (_ && _); [|done]. cbn [snd].
  destruct (negb _); by rewrite !views_on_cpu.
Qed.

(** ** Steps *)

(** A step of CPU [c] from view [v] to [v'], with the locks it takes and releases. *)
Lemma linv_build s s' c v v' :
  linv s -> views s !! c = Some v -> views s' = <[c := v']> (views s) ->
  length (FUTEX_LOCKS s') = length (FUTEX_LOCKS s) ->
  (forall b, occ b (held v') + Nat.b2n (locked s b) = occ b (held v) + Nat.b2n (locked s' b))%nat ->
  (threads_held v'.1 + Nat.b2n (THREAD_LOCK s) = threads_held v.1 + Nat.b2n (THREAD_LOCK s'))%nat ->
  view_ok v' -> linv s'.
Proof.
  intros [L1 L2 L3 L4] Hv Hv' Hlen Hb Ht Hok.
  assert (Ha : views s' = alter (fun _ => v') c (views s)) by (by rewrite (alter_insert _ _ _ v)).
  constructor; [congruence|..].
  - intros b. rewrite Ha. pose proof (total_alter (fun v => occ b (held v)) (fun _ => v') _ _ _ Hv).
    specialize (Hb b). rewrite L2 in *. cbn beta in *. lia.
  - rewrite Ha. pose proof (total_alter (fun v => threads_held v.1) (fun _ => v') _ _ _ Hv). cbn beta in *. lia.
  - intros x w Hw. rewrite Ha, list_lookup_alter, Hv in Hw. destruct (decide (c = x)); [|by eapply L4].
    cbn in Hw. by simplify_eq.
Qed.

Lemma locked_set l b x s j :
  FUTEX_LOCKS s = <[b := x]> l -> (b < length l)%nat ->
  locked s j = if decide (b = j) then x else default false (l !! j).
Proof.
  intros Hl Hb. unfold locked. rewrite Hl. destruct (decide (b = j)) as [<-|].
  - by rewrite list_lookup_insert_eq.
  - by rewrite list_lookup_insert_ne.
Qed.

Section lock_steps.
Context (s : sched) (c : nat) (v : pc * Z).
Hypothesis Hl : linv s.
Hypothesis Hv : views s !! c = Some v.

Lemma view_here : view_ok v.
Proof using Hl Hv. by eapply linv_view. Qed.

(** No lock changes hands. *)
Lemma linv_goto s1 p :
  release_point v.1 = false -> views s1 = views s -> FUTEX_LOCKS s1 = FUTEX_LOCKS s -> THREAD_LOCK s1 = THREAD_LOCK s ->
  bucket_held p = bucket_held v.1 -> threads_held p = threads_held v.1 -> bucket_ok p -> linv (goto c p s1).
Proof using Hl Hv.
  intros Hr Hvs Hfl Htl Hb Ht Hok. destruct view_here as [_ Hz].
  assert (Hm : v.2 = -1) by (destruct Hz as [?|[_ ?]]; congruence).
  apply (linv_build s _ c v (p, v.2)); auto.
  - by rewrite views_goto, Hvs, (alter_insert _ _ _ v).
  - cbn. by rewrite Hfl.
  - intros b. unfold held. cbn [fst snd]. rewrite Hb. unfold locked. cbn. rewrite Hfl. done.
  - cbn [fst snd]. rewrite Ht. cbn [THREAD_LOCK goto on_cpu with_cpus]. by rewrite Htl.
  - split; [done|]. by left.
Qed.

(** [release_pending_unlock] opens the lock that was handed over. *)
Lemma linv_release p :
  release_point v.1 = true -> bucket_held p = [] -> threads_held p = 0%nat -> bucket_ok p ->
  linv (goto c p (release_pending_unlock c s)).
Proof using Hl Hv.
  intros Hr Hb Ht Hok. destruct view_here as [_ Hz].
  assert (Hh : bucket_held v.1 = [] /\ threads_held v.1 = 0%nat) by (by destruct v as [[]]).
  destruct Hh as [Hh1 Hh2]. rewrite views_lookup in Hv. destruct (CPUS s !! c) as [k|] eqn:Hk; [|done].
  assert (Hpk : pending_unlock k = v.2) by (cbn in Hv; by injection Hv as <-).
  assert (Hvs : views (goto c p (release_pending_unlock c s)) = <[c := (p, -1)]> (views s)).
  { rewrite views_goto, views_release, list_alter_alter_eq, (alter_insert _ _ _ v); [done|]. rewrite views_lookup, Hk. done. }
  assert (Hv0 : views s !! c = Some v) by (by rewrite views_lookup, Hk).
  unfold release_pending_unlock in *. rewrite Hk, Hpk in *. destruct (0 <=? v.2) eqn:E; bool_to_prop.
  - assert (Hlt : (Z.to_nat v.2 < length (FUTEX_LOCKS s))%nat) by (rewrite (linv_len _ Hl); lia).
    apply (linv_build s _ c v (p, -1)); auto.
    + cbn. by rewrite length_insert.
    + intros b. unfold held. cbn [fst snd]. rewrite Hb, Hh1. unfold pending_held.
      replace (0 <=? v.2) with true by (symmetry; by apply Z.leb_le). cbn [Z.leb Z.compare app occ].
      rewrite (locked_set (FUTEX_LOCKS s) (Z.to_nat v.2) false (goto c p _)) by done. fold (locked s b).
      pose proof (linv_bucket _ Hl b) as HB. pose proof (total_member (fun v => occ b (held v)) _ _ _ Hv0) as HM.
      unfold held in HM at 1. rewrite Hh1 in HM. unfold pending_held in HM.
      replace (0 <=? v.2) with true in HM by (symmetry; by apply Z.leb_le). cbn [app occ] in HM.
      destruct (decide (Z.to_nat v.2 = b)) as [<-|Hne].
      * rewrite Nat.eqb_refl in *. cbn beta in *. destruct (locked s _); cbn in *; lia.
      * rewrite (proj2 (Nat.eqb_neq _ _) Hne). cbn. lia.
    + cbn [fst snd]. by rewrite Ht, Hh2.
    + split; [done|]. by left.
  - apply (linv_build s _ c v (p, -1)); auto.
    + intros b. unfold held. cbn [fst snd]. rewrite Hb, Hh1. unfold pending_held.
      replace (0 <=? v.2) with false by (symmetry; apply Z.leb_gt; lia). done.
    + cbn [fst snd]. by rewrite Ht, Hh2.
    + split; [done|]. by left.
Qed.

Lemma linv_lock_bucket b s1 p :
  release_point v.1 = false -> lock_bucket b s = Some s1 -> (b < 16)%nat ->
  bucket_held v.1 = [] -> bucket_held p = [b] -> threads_held p = threads_held v.1 -> bucket_ok p -> linv (goto c p s1).
Proof using Hl Hv.
  intros Hr Hlk Hlt Hb Hp Ht Hok. unfold lock_bucket in Hlk.
  destruct (FUTEX_LOCKS s !! b) as [[]|] eqn:E; try done. injection Hlk as <-. destruct view_here as [_ Hz].
  assert (Hm : v.2 = -1) by (destruct Hz as [?|[_ ?]]; congruence).
  assert (Hlt' : (b < length (FUTEX_LOCKS s))%nat) by (by apply lookup_lt_Some in E).
  apply (linv_build s _ c v (p, v.2)); auto.
  - rewrite views_goto. by rewrite (alter_insert _ _ _ v).
  - cbn. by rewrite length_insert.
  - intros j. unfold held. cbn [fst snd]. rewrite Hb, Hp. cbn [app occ].
    rewrite (locked_set (FUTEX_LOCKS s) b true (goto c p _)) by done.
    destruct (decide (b = j)) as [<-|Hne].
    + rewrite Nat.eqb_refl. unfold locked. rewrite E. cbn. lia.
    + rewrite (proj2 (Nat.eqb_neq _ _) Hne). unfold locked. cbn. lia.
  - split; [done|]. by left.
Qed.

Lemma linv_lock_threads s1 p :
  release_point v.1 = false -> lock_threads s = Some s1 -> threads_held v.1 = 0%nat -> threads_held p = 1%nat ->
  bucket_held p = bucket_held v.1 -> bucket_ok p -> linv (goto c p s1).
Proof using Hl Hv.
  intros Hr Hlk Ht Hp Hb Hok. unfold lock_threads in Hlk. destruct (THREAD_LOCK s) eqn:E; [done|]. injection Hlk as <-.
  destruct view_here as [_ Hz]. assert (Hm : v.2 = -1) by (destruct Hz as [?|[_ ?]]; congruence).
  apply (linv_build s _ c v (p, v.2)); auto.
  - rewrite views_goto. by rewrite (alter_insert _ _ _ v).
  - intros j. unfold held. cbn [fst snd]. rewrite Hb. done.
  - cbn [fst snd]. by rewrite Ht, Hp, E.
  - split; [done|]. by left.
Qed.

(** Releasing a bucket lock this CPU holds, and the thread lock if it holds it. *)
Lemma linv_unlock b tl s1 p :
  release_point v.1 = false -> bucket_held v.1 = [b] -> bucket_held p = [] -> threads_held p = 0%nat ->
  views s1 = views s -> FUTEX_LOCKS s1 = <[b := false]> (FUTEX_LOCKS s) -> THREAD_LOCK s1 = tl ->
  (Nat.b2n (THREAD_LOCK s) = threads_held v.1 + Nat.b2n tl)%nat -> (b < 16)%nat -> bucket_ok p -> linv (goto c p s1).
Proof using Hl Hv.
  intros Hr Hb Hp Ht Hvs Hfl Htl Hth Hlt Hok. destruct view_here as [_ Hz].
  assert (Hm : v.2 = -1) by (destruct Hz as [?|[_ ?]]; congruence).
  assert (Hlt' : (b < length (FUTEX_LOCKS s))%nat) by (by rewrite (linv_len _ Hl)).
  apply (linv_build s _ c v (p, v.2)); auto.
  - by rewrite views_goto, Hvs, (alter_insert _ _ _ v).
  - cbn. by rewrite Hfl, length_insert.
  - intros j. unfold held. cbn [fst snd]. rewrite Hb, Hp. cbn [app occ].
    rewrite (locked_set (FUTEX_LOCKS s) b false (goto c p s1)) by done. fold (locked s j).
    pose proof (linv_bucket _ Hl j) as HB. pose proof (total_member (fun v => occ j (held v)) _ _ _ Hv) as HM.
    unfold held in HM at 1. rewrite Hb in HM. cbn [app occ] in HM. destruct (decide (b = j)) as [<-|Hne].
    + rewrite Nat.eqb_refl in *. cbn beta in *. destruct (locked s b); cbn in *; lia.
    + rewrite (proj2 (Nat.eqb_neq _ _) Hne). cbn. lia.
  - cbn [fst]. rewrite Ht. change (THREAD_LOCK (goto c p s1)) with (THREAD_LOCK s1). rewrite Htl. lia.
  - split; [done|]. by left.
Qed.
End lock_steps.

(** ** Context switches *)

Lemma resumable_release n k : resumable n k -> release_point (at_pc k) = true.
Proof. intros [_ H]. by destruct (at_pc k). Qed.

Lemma idle_stack_release k : idle_stack k -> release_point (at_pc k) = true.
Proof. by intros [->| ->]. Qed.

Lemma context_switch_views c from p to s s' :
  context_switch c from p to s = Some s' ->
  exists k k', CPUS s !! c = Some k /\ load_ctx c to (save_ctx c from (mkStack (owner (exec k)) p) s) = Some k' /\
    views s' = alter (fun v => (at_pc k', v.2)) c (views s) /\
    FUTEX_LOCKS s' = FUTEX_LOCKS s /\ THREAD_LOCK s' = THREAD_LOCK s.
Proof.
  unfold context_switch. intros (k & Hk & H)%bind_Some. apply bind_Some in H as (k' & Hl & [= <-]).
  exists k, k'. split; [done|]. split; [done|]. split; [|by destruct from].
  assert (Hs : forall s0 : sched, views (on_cpu c (set_exec k') s0) = alter (fun v => (at_pc k', v.2)) c (views s0)).
  { intros s0. apply list_eq. intros j. rewrite list_lookup_alter, !views_lookup, on_cpu_lookup.
    destruct (decide (c = j)) as [->|]; [|done]. by destruct (CPUS s0 !! j). }
  rewrite Hs. destruct from; [done|]. cbn [save_ctx]. by rewrite views_on_cpu.
Qed.

Lemma linv_switch s s' c v p z :
  linv s -> views s !! c = Some v -> views s' = <[c := (p, z)]> (views s) ->
  FUTEX_LOCKS s' = FUTEX_LOCKS s -> THREAD_LOCK s' = THREAD_LOCK s ->
  release_point v.1 = false -> release_point p = true -> threads_held v.1 = 0%nat ->
  (z = -1 /\ bucket_held v.1 = [] \/ 0 <= z < 16 /\ bucket_held v.1 = [Z.to_nat z]) -> linv s'.
Proof.
  intros Hl Hv Hvs Hfl Htl Hr Hp Ht Hz. destruct (view_here s c v Hl Hv) as [_ Hpend].
  assert (Hm : v.2 = -1) by (destruct Hpend as [?|[_ ?]]; congruence).
  assert (Hp0 : bucket_held p = [] /\ threads_held p = 0%nat /\ bucket_ok p) by (by destruct p).
  destruct Hp0 as (Hp1 & Hp2 & Hp3). apply (linv_build s s' c v (p, z)); try done.
  - by rewrite Hfl.
  - intros b. unfold held, locked. cbn [fst snd]. rewrite Hfl, Hp1, Hm. unfold pending_held.
    destruct Hz as [[-> ->]|[Hz ->]]; [done|]. replace (0 <=? z) with true by (symmetry; apply Z.leb_le; lia). done.
  - cbn [fst]. by rewrite Hp2, Ht, Htl.
  - split; [done|]. cbn. destruct Hz as [[-> _]|[Hz _]]; [by left|by right].
Qed.

Section lock_cases.
Context (s : sched) (c : nat) (k : Cpu).
Hypothesis Hi : inv s.
Hypothesis Hl : linv s.
Hypothesis Hk : CPUS s !! c = Some k.

Lemma view_at : views s !! c = Some (view k).
Proof using Hk. by rewrite views_lookup, Hk. Qed.

(** Loading thread [n] after saving the executing stack: a release point. *)
Lemma loaded_thread f p n s0 k' :
  owner (exec k) = Some f -> n ∈ places k -> home_is s n c -> release_point p = true -> THREADS s0 = THREADS s ->
  load_ctx c (CThread n) (save_ctx c (CThread f) (mkStack (Some f) p) s0) = Some k' -> release_point (at_pc k') = true.
Proof using Hi Hk.
  intros Ho Hin Hh Hp Hth Hld. cbn [load_ctx save_ctx] in Hld. rewrite thread_on_thread, (thread_eq _ _ Hth n) in Hld.
  destruct (thread s n) as [tn|] eqn:Htn; [|by destruct (decide (f = n))].
  destruct (decide (f = n)) as [->|Hne]; injection Hld as <-; [done|].
  apply (resumable_release n). apply (parked_resumable s c k); try done. congruence.
Qed.
End lock_cases.

Ltac lock_move s k Hl Hk Hpc :=
  apply (linv_goto s _ (view k) Hl (view_at s _ k Hk)); unfold view; rewrite ?Hpc; try done.

Section lock_cases2.
Context (s : sched) (c : nat) (k : Cpu).
Hypothesis Hi : inv s.
Hypothesis Hl : linv s.
Hypothesis Hk : CPUS s !! c = Some k.

Lemma user_linv r a s' : at_pc (exec k) = User r -> user_step c a s = Some s' -> linv s'.
Proof using Hl Hk.
  intros Hpc. destruct a; cbn; try done; intros [= <-]; try lock_move s k Hl Hk Hpc.
  destruct Hl as [L1 L2 L3 L4]. by constructor.
Qed.

Lemma exit_linv r a s' : at_pc (exec k) = Exit r -> exit_step c a r s = Some s' -> linv s'.
Proof using Hl Hk.
  intros Hpc. destruct a; cbn; try done; intros [= <-]; try lock_move s k Hl Hk Hpc.
  destruct Hl as [L1 L2 L3 L4]. by constructor.
Qed.

Lemma rescue_linv now p s' : at_pc (exec k) = p -> rescue_step c now p s = Some s' -> linv s'.
Proof using Hl Hk.
  intros Hpc. pose proof (view_here s c _ Hl (view_at s c k Hk)) as [Hbok _]. cbn [view fst] in Hbok. rewrite Hpc in Hbok.
  destruct p; try done; cbn.
  - destruct (RESCUE_REQUESTED s !! i) as [[]|]; intros [= <-]; try lock_move s k Hl Hk Hpc.
    all: destruct k0; done.
  - destruct (thread s i) as [t|]; [destruct (negb _); [|destruct (_ =? _)]|]; intros [= <-]; lock_move s k Hl Hk Hpc.
    apply futex_bucket_lt.
  - intros (s1 & Hlk & ->)%fmap_Some.
    apply (linv_lock_bucket s c (view k) Hl (view_at s c k Hk) b); unfold view; by rewrite ?Hpc.
  - intros (s1 & Hlk & ->)%fmap_Some.
    apply (linv_lock_threads s c (view k) Hl (view_at s c k Hk)); unfold view; by rewrite ?Hpc.
  - intros [= <-]. pose proof (linv_threads _ Hl) as HT.
    pose proof (total_member (fun v => threads_held v.1) _ _ _ (view_at s c k Hk)) as HM. cbn in HM. rewrite Hpc in HM.
    apply (linv_unlock s c (view k) Hl (view_at s c k Hk) b false); unfold view; rewrite ?Hpc; try done.
    + cbn. apply views_rescue.
    + cbn. f_equal. unfold rescue. destruct (thread s i); [|done]. destruct (is_blocked _); [|done].
      by destruct (_ <? _)%nat, (negb _).
    + cbn. destruct (THREAD_LOCK s); cbn in *; lia.
Qed.

Lemma wake_linv p s' : at_pc (exec k) = p -> wake_step c p s = Some s' -> linv s'.
Proof using Hl Hk.
  intros Hpc. destruct p; try done; cbn.
  - intros (s1 & Hlk & ->)%fmap_Some.
    apply (linv_lock_bucket s c (view k) Hl (view_at s c k Hk) (futex_bucket addr)); unfold view; rewrite ?Hpc; try done.
    apply futex_bucket_lt.
  - intros (s1 & Hlk & ->)%fmap_Some.
    apply (linv_lock_threads s c (view k) Hl (view_at s c k Hk)); unfold view; by rewrite ?Hpc.
  - destruct (_ && _).
    + pose proof (views_wake_one c addr i s) as Hvs.
      assert (Hlk : FUTEX_LOCKS (wake_one c addr i s).2 = FUTEX_LOCKS s /\ THREAD_LOCK (wake_one c addr i s).2 = THREAD_LOCK s).
      { unfold wake_one. destruct (thread s i); [|done]. destruct (_ && _); [|done]. by destruct (negb _). }
      destruct (wake_one c addr i s) as [hit s1]. cbn [snd] in *. destruct Hlk. intros [= <-]. lock_move s k Hl Hk Hpc.
    + pose proof (linv_threads _ Hl) as HT.
      pose proof (total_member (fun v => threads_held v.1) _ _ _ (view_at s c k Hk)) as HM. cbn in HM. rewrite Hpc in HM.
      intros [= <-].
      apply (linv_unlock s c (view k) Hl (view_at s c k Hk) (futex_bucket addr) false); unfold view; rewrite ?Hpc; try done.
      * by destruct (woken =? 0).
      * by destruct (woken =? 0).
      * cbn. destruct (THREAD_LOCK s); cbn in *; lia.
      * apply futex_bucket_lt.
Qed.

(** Releasing the bucket alone. *)
Lemma unlock_linv a s1 p q :
  at_pc (exec k) = p -> release_point p = false -> bucket_held p = [futex_bucket a] -> threads_held p = 0%nat ->
  bucket_held q = [] -> threads_held q = 0%nat -> bucket_ok q -> views s1 = views s ->
  FUTEX_LOCKS s1 = FUTEX_LOCKS s -> THREAD_LOCK s1 = THREAD_LOCK s ->
  linv (goto c q (unlock_bucket (futex_bucket a) s1)).
Proof using Hl Hk.
  intros Hpc Hr Hp Htp Hq Htq Hok Hvs Hfl Htl. subst p.
  apply (linv_unlock s c (view k) Hl (view_at s c k Hk) (futex_bucket a) (THREAD_LOCK s)); unfold view; try done.
  - cbn. by rewrite Hfl.
  - cbn. by rewrite Htp.
  - apply futex_bucket_lt.
Qed.

Lemma wait_switch_linv now b t next s' :
  at_pc (exec k) = WaitSwitch b t next -> wait_step c now (WaitSwitch b t next) s = Some s' -> linv s'.
Proof using Hi Hl Hk.
  intros Hpc. pose proof (view_here s c _ Hl (view_at s c k Hk)) as [Hbok _]. cbn [view fst] in Hbok. rewrite Hpc in Hbok.
  pose proof (shape_at s c k Hi Hk _ Hpc) as [Ho Hc]. cbn in Hbok, Ho, Hc. unfold wait_step. rewrite Hk.
  cbn [mbind option_bind]. assert (Hex : extra k = option_list next) by (unfold extra; by rewrite Hpc, Hc).
  destruct (ok_owner _ _ _ (inv_cpu _ Hi c k Hk) t Ho) as [Hht _]. destruct (home_thread s c t Hht) as (tt & Ht & _).
  assert (Hv : forall q, alter (fun v => (at_pc q, v.2)) c (alter (fun v => (v.1, Z.of_nat b)) c (views s))
                         = <[c := (at_pc q, Z.of_nat b)]> (views s)).
  { intros q. rewrite list_alter_alter_eq, (alter_insert _ _ _ (view k)); [done|]. by apply view_at. }
  assert (Hvu : views (on_cpu c (set_unlock (Z.of_nat b)) s) = alter (fun v => (v.1, Z.of_nat b)) c (views s)).
  { apply list_eq. intros j. rewrite list_lookup_alter, !views_lookup, on_cpu_lookup.
    destruct (decide (c = j)) as [->|]; [|done]. by destruct (CPUS s !! j). }
  assert (Hfin : forall q, release_point (at_pc q) = true -> views s' = <[c := (at_pc q, Z.of_nat b)]> (views s) ->
    FUTEX_LOCKS s' = FUTEX_LOCKS s -> THREAD_LOCK s' = THREAD_LOCK s -> linv s').
  { intros q Hq Hvq Hf Htl. apply (linv_switch s s' c (view k) (at_pc q) (Z.of_nat b)); try done; [by apply view_at|..];
      unfold view; cbn [fst]; rewrite ?Hpc; try done. right. split; [lia|]. by rewrite Nat2Z.id. }
  destruct next as [n|].
  - pose proof (current_home s c k Hi Hk n Hc) as Hh. destruct (home_thread s c n Hh) as (tn & Htn & _).
    change (thread (set_current_kernel_stack _ _ (on_cpu _ _ s)) ?i) with (thread s i). rewrite Ht, Htn.
    intros (k0 & k' & Hk0 & Hld & Hvs & Hf & Htl)%context_switch_views.
    unfold set_current_kernel_stack in Hk0, Hvs.
    apply (Hfin k'); [|by rewrite Hvs, views_on_cpu, Hvu, Hv|by rewrite Hf|by rewrite Htl].
    rewrite !on_cpu_lookup, !decide_True, Hk in Hk0 by done.
    injection Hk0 as <-. cbn [owner exec set_gs set_unlock] in Hld. rewrite Ho in Hld.
    eapply (loaded_thread s c k Hi Hk t (WaitBack t) n); [done| |done|done| |exact Hld]; [|done].
    apply elem_of_app. right. rewrite Hex. by left.
  - change (thread (on_cpu _ _ s) ?i) with (thread s i). rewrite Ht.
    intros (k0 & k' & Hk0 & Hld & Hvs & Hf & Htl)%context_switch_views.
    apply (Hfin k'); [|by rewrite Hvs, Hvu, Hv|by rewrite Hf|by rewrite Htl].
    cbn [load_ctx save_ctx] in Hld. change (CPUS (on_thread _ _ ?x)) with (CPUS x) in Hld.
    rewrite on_cpu_lookup, decide_True, Hk in Hld by done. injection Hld as <-.
    apply idle_stack_release. apply (inv_cpu _ Hi c k Hk).
Qed.

Lemma wait_linv now p s' : at_pc (exec k) = p -> wait_step c now p s = Some s' -> linv s'.
Proof using Hi Hl Hk.
  intros Hpc. pose proof (view_here s c _ Hl (view_at s c k Hk)) as [Hbok _]. cbn [view fst] in Hbok. rewrite Hpc in Hbok.
  destruct p; try (unfold wait_step; by rewrite Hk); try (by apply wait_switch_linv); unfold wait_step; rewrite Hk; cbn.
  - destruct (_ <=? _); intros [= <-]; lock_move s k Hl Hk Hpc.
  - intros (s1 & Hlk & ->)%fmap_Some.
    apply (linv_lock_bucket s c (view k) Hl (view_at s c k Hk) (futex_bucket addr)); unfold view; rewrite ?Hpc; try done.
    apply futex_bucket_lt.
  - unfold pending_wake_consume. destruct (_ ≫= _).
    + intros [= <-]. by apply (unlock_linv addr _ _ _ Hpc).
    + destruct (negb _); intros [= <-]; [by apply (unlock_linv addr _ _ _ Hpc)|]. lock_move s k Hl Hk Hpc.
  - destruct (FUTEX_BLOCKING s); intros [= <-]; [lock_move s k Hl Hk Hpc|]. by apply (unlock_linv addr _ _ _ Hpc).
  - destruct (current k) as [t|] eqn:Hcur; intros [= <-]; [|by apply (unlock_linv addr _ _ _ Hpc)].
    lock_move s k Hl Hk Hpc. apply futex_bucket_lt.
  - destruct (queue k); intros [= <-]; lock_move s k Hl Hk Hpc; by apply views_on_cpu.
  - intros [= <-]. apply (linv_release s c (view k) Hl (view_at s c k Hk)); unfold view; by rewrite ?Hpc.
  - destruct (thread s t); intros [= <-]; lock_move s k Hl Hk Hpc.
Qed.

(** A switch that hands over no lock. *)
Lemma plain_switch_linv q s' :
  release_point (at_pc q) = true -> release_point (at_pc (exec k)) = false ->
  bucket_held (at_pc (exec k)) = [] -> threads_held (at_pc (exec k)) = 0%nat ->
  views s' = alter (fun v => (at_pc q, v.2)) c (views s) ->
  FUTEX_LOCKS s' = FUTEX_LOCKS s -> THREAD_LOCK s' = THREAD_LOCK s -> linv s'.
Proof using Hl Hk.
  intros Hq Hr Hb Ht Hvs Hf Htl. pose proof (view_here s c _ Hl (view_at s c k Hk)) as [_ Hz].
  assert (Hm : (view k).2 = -1) by (destruct Hz as [?|[_ ?]]; cbn in *; congruence).
  apply (linv_switch s s' c (view k) (at_pc q) (-1)); try done; [by apply view_at| |by left].
  rewrite Hvs, (alter_insert _ _ _ (view k)); [by rewrite Hm|by apply view_at].
Qed.

Lemma yield_linv p s' : at_pc (exec k) = p -> yield_step c p s = Some s' -> linv s'.
Proof using Hi Hl Hk.
  intros Hpc. pose proof (shape_at s c k Hi Hk _ Hpc) as Hs.
  destruct p; try (unfold yield_step; by rewrite Hk); unfold yield_step; rewrite Hk; cbn [mbind option_bind].
  - intros [= <-]. lock_move s k Hl Hk Hpc.
  - destruct (current k) as [cur|] eqn:Hcur, (queue k) as [|next q] eqn:Hq.
    + intros [= <-]. destruct k0; lock_move s k Hl Hk Hpc.
    + intros [= <-]. lock_move s k Hl Hk Hpc. by apply views_on_cpu.
    + intros [= <-]. destruct k0; lock_move s k Hl Hk Hpc.
    + change (thread (on_cpu _ _ s) ?i) with (thread s i).
      assert (Hh : home_is s next c) by (apply (queue_home s c k Hi Hk); rewrite Hq; by left).
      destruct (home_thread s c next Hh) as (tn & Htn & _). rewrite Htn. intros [= <-].
      apply (plain_switch_linv (ctx tn)); rewrite ?Hpc; try done.
      * apply (resumable_release next), (parked_resumable s c k); try done; [apply elem_of_app; left; rewrite Hq; by left|].
        unfold shape in Hs. cbn in Hs. destruct (yk_idle k0); [destruct Hs as [Hs _]; cbn in Hs; congruence|].
        destruct Hs as (x & Hx1 & Hx2). cbn in Hx2. congruence.
      * apply list_eq. intros j. rewrite list_lookup_alter, !views_lookup. unfold set_current_kernel_stack.
        rewrite !on_cpu_lookup. destruct (decide (c = j)) as [<-|]; [|done]. by rewrite Hk.
  - destruct Hs as (Ho & Hc & Hy). cbn in Ho, Hc.
    destruct (ok_owner _ _ _ (inv_cpu _ Hi c k Hk) cur Ho) as [Hho _]. destruct (home_thread s c cur Hho) as (tt & Ht & _).
    pose proof (current_home s c k Hi Hk next Hc) as Hh. destruct (home_thread s c next Hh) as (tn & Htn & _).
    change (thread (set_current_kernel_stack _ _ s) ?i) with (thread s i). rewrite Ht, Htn.
    intros (k1 & k' & Hk1 & Hld & Hvs & Hf & Htl)%context_switch_views.
    unfold set_current_kernel_stack in Hk1, Hvs. rewrite on_cpu_lookup, decide_True, Hk in Hk1 by done.
    injection Hk1 as <-. cbn [owner exec set_gs] in Hld. rewrite Ho in Hld. rewrite views_on_cpu in Hvs by done.
    apply (plain_switch_linv k'); rewrite ?Hpc; try done.
    eapply (loaded_thread s c k Hi Hk cur (YieldBack k0) next); [done| |done|done| |exact Hld]; [|done].
    apply elem_of_app. right. unfold extra. rewrite Hpc, Hc. by left.
  - intros [= <-]. apply (linv_release s c (view k) Hl (view_at s c k Hk)); unfold view; rewrite ?Hpc; try done; by destruct k0.
Qed.

Lemma spawn_linv p s' : at_pc (exec k) = p -> spawn_step c p s = Some s' -> linv s'.
Proof using Hl Hk.
  intros Hpc. destruct p; try done; unfold spawn_step.
  - destruct (_ <=? _); intros [= <-]; lock_move s k Hl Hk Hpc.
  - intros [= <-]. lock_move s k Hl Hk Hpc.
  - intros (s1 & Hlk & ->)%fmap_Some.
    apply (linv_lock_threads s c (view k) Hl (view_at s c k Hk)); unfold view; by rewrite ?Hpc.
  - intros [= <-]. lock_move s k Hl Hk Hpc.
  - destruct (_ <? _)%nat.
    + intros (q & _ & H)%bind_Some. revert H.
      destruct (_ && _); [|destruct (_ && _)]; intros [= <-]; lock_move s k Hl Hk Hpc.
    + intros [= <-]. lock_move s k Hl Hk Hpc.
  - intros [= <-]. lock_move s k Hl Hk Hpc. by apply views_on_cpu.
  - intros (q & _ & H)%bind_Some. injection H as <-. match goal with |- context [unlock_threads ?x] => set (s1 := x) end.
    assert (Hs1 : views s1 = views s /\ FUTEX_LOCKS s1 = FUTEX_LOCKS s).
    { unfold s1. destruct (_ && _); [|done]. by rewrite views_on_cpu. }
    destruct Hs1 as [Hv1 Hf1]. pose proof (linv_threads _ Hl) as HT.
    pose proof (total_member (fun v => threads_held v.1) _ _ _ (view_at s c k Hk)) as HM. cbn in HM. rewrite Hpc in HM.
    pose proof (view_here s c _ Hl (view_at s c k Hk)) as [_ Hz]. cbn in Hz. rewrite Hpc in Hz.
    assert (Hm : pending_unlock k = -1) by (by destruct Hz as [?|[_ ?]]).
    apply (linv_build s _ c (view k) (Exit (Z.of_nat t), -1)); try done; [by apply view_at|..].
    + rewrite views_goto. change (views (unlock_threads s1)) with (views s1).
      rewrite Hv1, (alter_insert _ _ _ (view k)) by (by apply view_at). cbn. by rewrite Hm.
    + cbn. by rewrite Hf1.
    + intros b. unfold held, view, locked. cbn [fst snd]. rewrite Hpc, Hm. cbn. by rewrite Hf1.
    + cbn. rewrite Hpc. cbn. destruct (THREAD_LOCK s); cbn in *; lia.
    + split; [done|]. by left.
Qed.

Lemma exit_thread_linv p s' : at_pc (exec k) = p -> exit_thread_step c p s = Some s' -> linv s'.
Proof using Hi Hl Hk.
  intros Hpc. pose proof (shape_at s c k Hi Hk _ Hpc) as Hs.
  destruct p; try (unfold exit_thread_step; by rewrite Hk); unfold exit_thread_step; rewrite Hk; cbn [mbind option_bind].
  - destruct (current k); intros [= <-]; lock_move s k Hl Hk Hpc; by apply (views_on_cpu c).
  - intros (th & Hth & H)%bind_Some. apply context_switch_views in H as (k1 & k' & Hk1 & Hld & Hvs & Hf & Htl).
    apply (plain_switch_linv k'); rewrite ?Hpc; try done. apply idle_stack_release.
    cbn [load_ctx save_ctx] in Hld. change (CPUS (on_thread _ _ ?x)) with (CPUS x) in Hld. rewrite Hk in Hld.
    injection Hld as <-. apply (inv_cpu _ Hi c k Hk).
Qed.

Lemma idle_linv p s' : at_pc (exec k) = p -> idle_step c p s = Some s' -> linv s'.
Proof using Hi Hl Hk.
  intros Hpc. pose proof (shape_at s c k Hi Hk _ Hpc) as Hs.
  destruct p; try (unfold idle_step; by rewrite Hk); unfold idle_step; rewrite Hk; cbn [mbind option_bind].
  - intros [= <-]. apply (linv_release s c (view k) Hl (view_at s c k Hk)); unfold view; by rewrite ?Hpc.
  - intros [= <-]. lock_move s k Hl Hk Hpc.
  - intros [= <-]. destruct (queue k); lock_move s k Hl Hk Hpc.
  - destruct (queue k); intros [= <-]; lock_move s k Hl Hk Hpc. by apply views_on_cpu.
  - change (thread (on_cpu _ _ s) n) with (thread s n).
    destruct (thread s n); intros [= <-]; lock_move s k Hl Hk Hpc; unfold set_current_kernel_stack; by rewrite !views_on_cpu.
  - intros (k1 & k' & Hk1 & Hld & Hvs & Hf & Htl)%context_switch_views.
    assert (k1 = k) as -> by congruence. destruct Hs as (Ho & Hc & _). cbn in Ho, Hc.
    apply (plain_switch_linv k'); rewrite ?Hpc; try done. cbn [load_ctx save_ctx] in Hld.
    change (thread (on_cpu _ _ s) n) with (thread s n) in Hld.
    pose proof (current_home s c k Hi Hk n Hc) as Hh. destruct (home_thread s c n Hh) as (tn & Htn & _).
    rewrite Htn in Hld. injection Hld as <-. apply (resumable_release n), (parked_resumable s c k); try done.
    + apply elem_of_app. right. unfold extra. rewrite Hpc, Hc. by left.
    + by rewrite Ho.
  - intros [= <-]. apply (linv_release s c (view k) Hl (view_at s c k Hk)); unfold view; by rewrite ?Hpc.
  - intros [= <-]. lock_move s k Hl Hk Hpc. by apply views_on_cpu.
Qed.
End lock_cases2.

Lemma cpu_step_linv c a now s s' : inv s -> linv s -> cpu_step c a now s = Some s' -> linv s'.
Proof.
  intros Hi Hl. unfold cpu_step. destruct (CPUS s !! c) as [k|] eqn:Hk; [|done]. cbn [mbind option_bind].
  destruct (at_pc (exec k)) eqn:Hpc; try (by eapply user_linv); try (by eapply exit_linv); destruct a; try done; intros H.
  all: first
    [ by eapply rescue_linv | by eapply yield_linv | by eapply wait_linv | by eapply wake_linv | by eapply spawn_linv
    | by eapply exit_thread_linv | by eapply idle_linv | injection H as <- ].
  - destruct (need_resched k); lock_move s k Hl Hk Hpc; by apply views_on_cpu.
  - apply (linv_release s c (view k) Hl (view_at s c k Hk)); unfold view; by rewrite ?Hpc.
Qed.

Lemma end_hlt_linv c s : linv s -> linv (on_cpu c end_hlt s).
Proof.
  intros Hl. destruct (CPUS s !! c) as [k|] eqn:Hk.
  - destruct (at_pc (exec k)) eqn:Hpc;
      try (rewrite (on_cpu_ext s c _ id); [destruct Hl as [L1 L2 L3 L4]|intros k' Hk'; assert (k' = k) as -> by congruence;
           unfold end_hlt; by rewrite Hpc]).
    all: try (assert (Hv : views (on_cpu c id s) = views s) by (by apply views_on_cpu); constructor; rewrite ?Hv; done).
    + rewrite (on_cpu_ext s c _ (set_pc IdlePop)); [lock_move s k Hl Hk Hpc|].
      intros k' Hk'. assert (k' = k) as -> by congruence. unfold end_hlt. by rewrite Hpc.
    + rewrite (on_cpu_ext s c _ (set_pc (Yield YAp))); [lock_move s k Hl Hk Hpc|].
      intros k' Hk'. assert (k' = k) as -> by congruence. unfold end_hlt. by rewrite Hpc.
  - assert (Hv : views (on_cpu c end_hlt s) = views s).
    { apply list_eq. intros j. rewrite !views_lookup, on_cpu_lookup. destruct (decide (c = j)) as [<-|]; [|done]. by rewrite Hk. }
    destruct Hl as [L1 L2 L3 L4]. constructor; rewrite ?Hv; done.
Qed.

Lemma linv_same s s' :
  linv s -> views s' = views s -> FUTEX_LOCKS s' = FUTEX_LOCKS s -> THREAD_LOCK s' = THREAD_LOCK s -> linv s'.
Proof.
  intros [L1 L2 L3 L4] Hv Hf Ht. constructor; [congruence| |by rewrite Hv, Ht|by rewrite Hv].
  intros b. rewrite Hv, L2. unfold locked. by rewrite Hf.
Qed.

Lemma step_linv l s s' : inv s -> linv s -> step l s = Some s' -> linv s'.
Proof.
  intros Hi Hl. destruct l; cbn [step].
  - by apply cpu_step_linv.
  - intros [= <-]. apply end_hlt_linv. unfold timer_tick. destruct (_ <? _)%nat; [|done].
    apply (linv_same s); try done. by apply views_on_cpu.
  - intros [= <-]. unfold watchdog_arm. destruct (_ && _); [|done]. by apply (linv_same s).
  - intros [= <-]. unfold watchdog_one. destruct (thread s i); [|done].
    destruct (negb _); [done|]. destruct (_ =? _); [done|]. destruct (_ || _ || _); [|done]. by apply (linv_same s).
  - intros (k & Hk & H)%bind_Some.
    assert (s' = on_cpu c end_hlt (on_cpu c (set_ipi false) s)) as ->
      by (destruct (at_pc (exec k)), (ipi k); congruence).
    apply end_hlt_linv, (linv_same s); try done. by apply views_on_cpu.
Qed.

Lemma run_linv ls s s' :
  inv s -> linv s -> NEXT_TID s + Z.of_nat (length ls) < 2 ^ 32 -> run ls s = Some s' -> inv s' /\ linv s'.
Proof.
  revert s. induction ls as [|l ls IH]; cbn [run length]; intros s Hi Hl Hb H; [by simplify_eq|].
  apply bind_Some in H as (s1 & H1 & H). destruct (step_inv l s s1 Hi ltac:(lia) H1) as [Hi1 Hn].
  apply (IH s1); [done|by apply (step_linv l s)|lia|done].
Qed.

Lemma init_linv n stack0 m : linv (init n stack0 m).
Proof.
  constructor; [done|..|done|].
  - intros b. replace (locked _ b) with false; [done|]. unfold locked. cbn [init FUTEX_LOCKS].
    destruct (replicate _ false !! b) as [x|] eqn:E; [|done]. by apply lookup_replicate in E as [-> _].
  - intros c v Hv. rewrite views_lookup in Hv. cbn [init CPUS] in Hv. rewrite list_lookup_fmap in Hv.
    destruct (_ !! c) as [x|]; [|done]. cbn in Hv. injection Hv as <-. destruct x; split; cbn; auto.
Qed.
