(* ===== verification/SchedThms.v ===== *)
(** * What the scheduler guarantees

    The theorems about [sched.rs]: no thread is lost or run twice, the locks
    exclude each other and cannot deadlock, a wake reaches every waiter, an idle
    CPU with work is always about to be woken; and the cases in which the code
    does less than it says. *)

From S2P Require Import Prelude Sched SchedInv SchedSafe SchedLocks.

(** ** Waiters *)

(** Thread [j] sleeps on the futex at [a]. *)
Definition waits_on (s : sched) (j : nat) (a : Z) : Prop :=
  exists t, thread s j = Some t /\ state t = Blocked /\ futex_addr t = a.

Lemma waits_on_thread s i f j a :
  (forall t, state (f t) = Blocked -> state t = Blocked /\ futex_addr (f t) = futex_addr t) ->
  waits_on (on_thread i f s) j a -> waits_on s j a.
Proof.
  intros Hf (t & Ht & Hst & Ha). rewrite thread_on_thread in Ht. destruct (decide (i = j)) as [->|]; [|by exists t].
  destruct (thread s j) as [t0|] eqn:E; [|done]. injection Ht as <-. destruct (Hf t0 Hst) as [? Heq].
  exists t0. split; [done|]. split; [done|congruence].
Qed.

Lemma waits_context_switch c f p r s s' j a : context_switch c f p r s = Some s' -> waits_on s' j a -> waits_on s j a.
Proof.
  unfold context_switch. intros (k & _ & H)%bind_Some. apply bind_Some in H as (k' & _ & [= <-]).
  change (waits_on (on_cpu _ _ ?x) j a) with (waits_on x j a). destruct f; [|done].
  cbn [save_ctx]. by apply waits_on_thread.
Qed.

Lemma waits_release c s j a : waits_on (release_pending_unlock c s) j a -> waits_on s j a.
Proof. unfold release_pending_unlock. destruct (CPUS s !! c); [|done]. by destruct (0 <=? _). Qed.

Lemma waits_rescue c i now s j a : waits_on (rescue c i now s) j a -> waits_on s j a.
Proof.
  unfold rescue. destruct (thread s i) as [t|]; [|done]. destruct (is_blocked _); [|done].
  assert (H : waits_on (on_thread i (rescued now) s) j a -> waits_on s j a) by (by apply waits_on_thread).
  by destruct (negb _), (_ <? _)%nat.
Qed.

Lemma waits_wake_one c b i s j a : waits_on (wake_one c b i s).2 j a -> waits_on s j a /\ (i = j -> a <> b).
Proof.
  unfold wake_one. destruct (thread s i) as [t|] eqn:Ht.
  2:{ intros Hw. split; [done|]. intros -> . destruct Hw as (t & Ht' & _). cbn in Ht'. congruence. }
  assert (H : waits_on (on_thread i woken_thread s) j a -> waits_on s j a /\ i <> j).
  { intros Hw. split; [by apply (waits_on_thread s i woken_thread)|]. intros ->. destruct Hw as (t' & Ht' & Hst & _).
    rewrite thread_on_thread, decide_True, Ht in Ht' by done. by injection Ht' as <-. }
  destruct (is_blocked (state t) && (futex_addr t =? b)) eqn:E; cbn [snd].
  - intros Hw. destruct H; [by destruct (negb _)|]. by split.
  - intros Hw. split; [done|]. intros <-. destruct Hw as (t' & Ht' & Hst & Ha). assert (t' = t) as -> by congruence.
    rewrite Hst in E. cbn in E. bool_to_prop. congruence.
Qed.

Lemma consume_waits b addr s h s1 j a : pending_wake_consume b addr s = (h, s1) -> waits_on s1 j a -> waits_on s j a.
Proof. unfold pending_wake_consume. destruct (_ ≫= _); intros [= <- <-]; done. Qed.

Ltac split_step H :=
  repeat match type of H with
  | (_ <$> _) = Some _ => apply fmap_Some in H as (? & H & ->)
  | (_ ≫= _) = Some _ => apply bind_Some in H as (? & ? & H)
  | (match ?x with _ => _ end) = Some _ => destruct x eqn:?; try discriminate H
  | (let '(_, _) := ?x in _) = Some _ => destruct x eqn:?
  | Some _ = Some _ => injection H as <-
  end.

Ltac old_waiter :=
  intros Hw; left;
  first
    [ exact Hw | eapply waits_release; exact Hw | eapply waits_rescue; exact Hw
    | eapply waits_on_thread; [|exact Hw]; done
    | match goal with H : context_switch _ _ _ _ _ = Some _ |- _ => apply (waits_context_switch _ _ _ _ _ _ _ _ H) in Hw; exact Hw end ].

(** One step of a CPU adds a waiter only at the point that marks the thread. *)
Lemma waits_step c act now s s' j a :
  cpu_step c act now s = Some s' -> waits_on s' j a ->
  waits_on s j a \/ exists k v d, CPUS s !! c = Some k /\ at_pc (exec k) = WaitMark a v d.
Proof.
  unfold cpu_step. destruct (CPUS s !! c) as [k|] eqn:Hk; [|done]. cbn [mbind option_bind].
  destruct (at_pc (exec k)) eqn:Hpc; destruct act; try done; intros H;
    unfold user_step, exit_step, rescue_step, yield_step, wait_step, wake_step, spawn_step, exit_thread_step, idle_step,
      lock_bucket, lock_threads in H.
  all: try rewrite Hk in H; cbn [mbind option_bind] in H; split_step H; try old_waiter.
  all: try (intros Hw; left; eapply consume_waits; [eassumption|exact Hw]).
  - intros (t & Ht & Hst & Ha). cbn in Ht. unfold goto in Ht. change (thread (on_cpu _ _ ?x) j) with (thread x j) in Ht.
    rewrite thread_on_thread in Ht. destruct (decide (n = j)) as [->|]; [|left; by exists t].
    destruct (thread s j); [|done]. injection Ht as <-. cbn in Ha. subst a. right. by eauto.
  - intros Hw. left. apply (waits_wake_one c addr i s). by rewrite Heqp.
  - intros Hw. left. by destruct (woken =? 0).
  - intros (th & Hth & Hst & Ha). left. unfold thread in Hth. cbn in Hth. destruct (decide (t = j)) as [->|Hne].
    + destruct (decide (j < length (THREADS s))%nat); [|rewrite list_insert_ge in Hth by lia; by exists th].
      rewrite list_lookup_insert_eq in Hth by done. by injection Hth as <-.
    + rewrite list_lookup_insert_ne in Hth by done. by exists th.
  - intros Hw. left. by destruct (idle x && _).
Qed.

(** ** A wake misses no waiter *)

(** Every thread the scan has passed no longer waits on its address. *)
Definition winv (s : sched) : Prop :=
  forall c k a n i w, CPUS s !! c = Some k -> at_pc (exec k) = WakeScan a n i w ->
  forall j, (j < i)%nat -> ~ waits_on s j a.

(** Two CPUs never hold the same bucket. *)
Lemma bucket_exclusive s c c' k k' b :
  linv s -> c <> c' -> CPUS s !! c = Some k -> CPUS s !! c' = Some k' ->
  b ∈ bucket_held (at_pc (exec k)) -> b ∈ bucket_held (at_pc (exec k')) -> False.
Proof.
  intros Hl Hne Hk Hk' H1 H2.
  pose proof (total_two (fun v => occ b (held v)) _ _ _ _ _ Hne (view_at s c k Hk) (view_at s c' k' Hk')) as H.
  rewrite (linv_bucket _ Hl b) in H. unfold held in H. cbn [view fst snd] in H. rewrite !occ_app in H.
  apply occ_in in H1, H2. destruct (locked s b); cbn in H; lia.
Qed.

(** A step of one CPU leaves the stacks the others execute alone. *)
Definition same_exec (x : nat) (s s' : sched) : Prop := exec <$> CPUS s' !! x = exec <$> CPUS s !! x.

Lemma same_exec_on_cpu x c f s s' :
  c <> x \/ (forall k, exec (f k) = exec k) -> same_exec x s s' -> same_exec x s (on_cpu c f s').
Proof.
  unfold same_exec. intros Hf <-. rewrite on_cpu_lookup. destruct (decide (c = x)) as [->|]; [|done].
  destruct Hf as [?|Hf]; [done|]. destruct (CPUS s' !! x); [|done]. cbn. by rewrite Hf.
Qed.

Lemma same_exec_release x c s : same_exec x s (release_pending_unlock c s).
Proof.
  unfold release_pending_unlock. destruct (CPUS s !! c); [|done].
  destruct (0 <=? _); apply (same_exec_on_cpu x c (set_unlock (-1)) s s); auto; done.
Qed.

Lemma same_exec_rescue x c i now s : same_exec x s (rescue c i now s).
Proof.
  unfold rescue. destruct (thread s i) as [t|]; [|done]. destruct (is_blocked _); [|done].
  assert (H : same_exec x s (on_thread i (rescued now) s)) by done.
  destruct (negb _), (_ <? _)%nat; repeat (apply same_exec_on_cpu; [right; intros k; by try destruct (existsb _ _)|]); done.
Qed.

Lemma same_exec_wake_one x c a i s : same_exec x s (wake_one c a i s).2.
Proof.
  unfold wake_one. destruct (thread s i) as [t|]; [|done]. destruct (_ && _); [|done]. cbn [snd].
  destruct (negb _); repeat (apply same_exec_on_cpu; [by right|]); done.
Qed.

Lemma same_exec_switch x c f p r s s' : x <> c -> context_switch c f p r s = Some s' -> same_exec x s s'.
Proof.
  intros Hne. unfold context_switch. intros (k & _ & H)%bind_Some. apply bind_Some in H as (k' & _ & [= <-]).
  apply same_exec_on_cpu; [by left|]. destruct f; [done|]. by apply same_exec_on_cpu; [right|].
Qed.

Lemma same_exec_consume x b a s h s1 : pending_wake_consume b a s = (h, s1) -> same_exec x s s1.
Proof. unfold pending_wake_consume. destruct (_ ≫= _); intros [= <- <-]; done. Qed.

Lemma same_exec_trans x s1 s2 s3 : same_exec x s2 s3 -> same_exec x s1 s2 -> same_exec x s1 s3.
Proof. unfold same_exec. congruence. Qed.

Ltac other_exec :=
  repeat first
    [ reflexivity
    | apply same_exec_on_cpu; [first [by left|by right]|]
    | apply same_exec_release | apply same_exec_rescue | apply same_exec_wake_one ].

Lemma cpu_step_other x c a now s s' : x <> c -> cpu_step c a now s = Some s' -> same_exec x s s'.
Proof.
  intros Hne. unfold cpu_step. destruct (CPUS s !! c) as [k|] eqn:Hk; [|done]. cbn [mbind option_bind].
  destruct (at_pc (exec k)) eqn:Hpc; destruct a; try done; intros H;
    unfold user_step, exit_step, rescue_step, yield_step, wait_step, wake_step, spawn_step, exit_thread_step, idle_step,
      lock_bucket, lock_threads in H.
  all: try rewrite Hk in H; cbn [mbind option_bind] in H; split_step H; unfold goto; try (by other_exec).
  all: try (apply same_exec_on_cpu; [by left|]).
  all: try match goal with
    | H : context_switch _ _ _ _ _ = Some _ |- _ =>
        eapply same_exec_trans; [eapply same_exec_switch; [exact Hne|exact H]|by other_exec]
    | H : pending_wake_consume _ _ _ = _ |- _ => exact (same_exec_consume _ _ _ _ _ _ H)
    | H : wake_one ?c ?a ?i ?s = _ |- _ => pose proof (same_exec_wake_one x c a i s) as Hw; by rewrite H in Hw
    end.
  - by destruct (woken =? 0).
  - destruct (idle _ && _); [|done]. change (same_exec x s (on_cpu best (set_ipi true) s)). by other_exec.
Qed.

Lemma total_map {A B} (f : B -> nat) (g : A -> B) l : total f (g <$> l) = total (fun x => f (g x)) l.
Proof. induction l as [|x l IH]; [done|]. rewrite fmap_cons. cbn [total]. by rewrite IH. Qed.

Lemma total_fmap {A} (f : A -> nat) l : total f l = total id (f <$> l).
Proof. induction l as [|x l IH]; [done|]. rewrite fmap_cons. cbn [total]. by rewrite IH. Qed.

(** If the thread lock did not change hands, neither did the CPU's claim to it. *)
Lemma threads_held_same c act now s s' k k' :
  linv s -> linv s' -> cpu_step c act now s = Some s' -> THREAD_LOCK s' = THREAD_LOCK s ->
  CPUS s !! c = Some k -> CPUS s' !! c = Some k' -> threads_held (at_pc (exec k')) = threads_held (at_pc (exec k)).
Proof.
  intros Hl Hl' Hstep Hlock Hk Hk'. set (f := fun v : pc * Z => threads_held v.1).
  assert (He : f <$> views s' = alter (fun _ => threads_held (at_pc (exec k'))) c (f <$> views s)).
  { apply list_eq. intros x. rewrite list_lookup_alter, !list_lookup_fmap, !views_lookup.
    destruct (decide (c = x)) as [<-|Hne]; [by rewrite Hk, Hk'|].
    pose proof (cpu_step_other x c act now s s' ltac:(done) Hstep) as Hx. unfold same_exec in Hx.
    destruct (CPUS s !! x), (CPUS s' !! x); try done. injection Hx as Hx. cbn. unfold f, view. cbn. by rewrite Hx. }
  pose proof (linv_threads _ Hl) as H1. pose proof (linv_threads _ Hl') as H2. fold f in H1, H2.
  rewrite total_fmap in H1, H2. rewrite He in H2.
  assert (Hc : (f <$> views s) !! c = Some (threads_held (at_pc (exec k)))) by (by rewrite list_lookup_fmap, views_lookup, Hk).
  pose proof (total_alter id (fun _ => threads_held (at_pc (exec k'))) _ _ _ Hc) as H3. rewrite Hlock in H2. unfold id in *. lia.
Qed.

(** A CPU enters the scan at its start, and advances it by one thread. *)
Lemma new_scan c act now s s' k k' a n i w :
  inv s -> linv s -> cpu_step c act now s = Some s' -> CPUS s !! c = Some k -> CPUS s' !! c = Some k' ->
  at_pc (exec k') = WakeScan a n i w ->
  i = 0%nat \/ exists i' w' p, at_pc (exec k) = WakeScan a n i' w' /\ i = S i' /\ s' = goto c p (wake_one c a i' s).2.
Proof.
  intros Hi Hl Hstep Hk Hk' Hscan. pose proof (cpu_step_linv _ _ _ _ _ Hi Hl Hstep) as Hl'.
  assert (Hgoto : forall p X, CPUS (goto c p X) !! c = Some k' -> p = WakeScan a n i w).
  { intros p X H. unfold goto in H. rewrite on_cpu_lookup, decide_True in H by done.
    destruct (CPUS X !! c); [|done]. injection H as <-. done. }
  assert (Hsame : THREAD_LOCK s' = THREAD_LOCK s -> threads_held (at_pc (exec k)) = 0%nat -> False).
  { intros Ht H0. pose proof (threads_held_same _ _ _ _ _ _ _ Hl Hl' Hstep Ht Hk Hk') as H. rewrite Hscan, H0 in H. done. }
  clear Hl'. unfold cpu_step in Hstep. rewrite Hk in Hstep. cbn [mbind option_bind] in Hstep.
  destruct (at_pc (exec k)) eqn:Hpc; destruct act; try done; rename Hstep into H;
    unfold user_step, exit_step, rescue_step, yield_step, wait_step, wake_step, spawn_step, exit_thread_step, idle_step,
      lock_bucket, lock_threads in H.
  all: try rewrite Hk in H; cbn [mbind option_bind] in H; split_step H.
  all: try (apply Hgoto in Hk'; discriminate Hk').
  all: try (exfalso; apply Hsame; [|done];
            first [reflexivity | by apply context_switch_views in H as (? & ? & _ & _ & _ & _ & ->)]).
  - apply Hgoto in Hk'. by destruct k0.
  - apply Hgoto in Hk'. left. congruence.
  - apply Hgoto in Hk'. right. injection Hk' as -> -> <- _. eexists _, _, _. split; [done|]. split; [done|]. by rewrite Heqp.
Qed.

Lemma winv_cpu_step c act now s s' :
  inv s -> linv s -> winv s -> cpu_step c act now s = Some s' -> winv s'.
Proof.
  intros Hi Hl Hw Hstep x k' a n i w Hk' Hscan j Hj Hwait.
  assert (Hkx : exists k, CPUS s !! c = Some k).
  { unfold cpu_step in Hstep. destruct (CPUS s !! c) as [k|]; [by exists k|done]. }
  destruct Hkx as [k Hk]. destruct (decide (x = c)) as [->|Hne].
  - destruct (new_scan _ _ _ _ _ _ _ _ _ _ _ Hi Hl Hstep Hk Hk' Hscan) as [->|(i' & w' & p & Hpc & -> & ->)]; [lia|].
    change (waits_on (goto _ _ ?y) j a) with (waits_on y j a) in Hwait. apply waits_wake_one in Hwait as [Hwait Hij].
    destruct (decide (j = i')) as [->|]; [by apply Hij|]. apply (Hw c k a n i' w' Hk Hpc j); [lia|done].
  - pose proof (cpu_step_other x c act now s s' Hne Hstep) as Hx. unfold same_exec in Hx. rewrite Hk' in Hx.
    destruct (CPUS s !! x) as [kx|] eqn:Hkx; [|done]. injection Hx as Hx. rewrite Hx in Hscan.
    destruct (waits_step _ _ _ _ _ _ _ Hstep Hwait) as [Hold|(k0 & v & d & Hk0 & Hmark)].
    + by apply (Hw x kx a n i w Hkx Hscan j).
    + assert (k0 = k) as -> by congruence. apply (bucket_exclusive s x c kx k (futex_bucket a) Hl Hne Hkx Hk).
      * rewrite Hscan. by left.
      * rewrite Hmark. by left.
Qed.

Lemma winv_same s s' :
  winv s -> THREADS s' = THREADS s ->
  (forall x k', CPUS s' !! x = Some k' -> forall a n i w, at_pc (exec k') = WakeScan a n i w ->
     exists k, CPUS s !! x = Some k /\ at_pc (exec k) = WakeScan a n i w) -> winv s'.
Proof.
  intros Hw Ht Hc x k' a n i w Hk' Hscan j Hj Hwait. destruct (Hc x k' Hk' a n i w Hscan) as (k & Hk & Hpc).
  apply (Hw x k a n i w Hk Hpc j Hj). destruct Hwait as (t & H1 & H2). exists t. by rewrite <- (thread_eq _ _ Ht).
Qed.

Lemma winv_hlt c s : winv s -> winv (on_cpu c end_hlt s).
Proof.
  intros Hw. apply (winv_same s); [done|done|]. intros x k'. rewrite on_cpu_lookup.
  destruct (decide (c = x)) as [->|]; [|by eauto]. destruct (CPUS s !! x) as [k|]; [|done]. intros [= <-] a n i w Hpc.
  exists k. split; [done|]. unfold end_hlt in Hpc. destruct (at_pc (exec k)) eqn:E; cbn in Hpc; congruence.
Qed.

Lemma winv_on_cpu c f s : (forall k, exec (f k) = exec k) -> winv s -> winv (on_cpu c f s).
Proof.
  intros Hf Hw. apply (winv_same s); [done|done|]. intros x k'. rewrite on_cpu_lookup.
  destruct (decide (c = x)) as [->|]; [|by eauto]. destruct (CPUS s !! x) as [k|]; [|done]. intros [= <-] a n i w.
  rewrite Hf. by eauto.
Qed.

Lemma winv_step l s s' : inv s -> linv s -> winv s -> step l s = Some s' -> winv s'.
Proof.
  intros Hi Hl Hw. destruct l; cbn [step].
  - by apply winv_cpu_step.
  - intros [= <-]. apply winv_hlt. unfold timer_tick. destruct (_ <? _)%nat; [|done]. by apply winv_on_cpu.
  - intros [= <-]. unfold watchdog_arm. by destruct (_ && _).
  - intros [= <-]. unfold watchdog_one. destruct (thread s i); [|done].
    destruct (negb _); [done|]. destruct (_ =? _); [done|]. by destruct (_ || _ || _).
  - intros (k & Hk & H)%bind_Some.
    assert (s' = on_cpu c end_hlt (on_cpu c (set_ipi false) s)) as -> by (destruct (at_pc (exec k)), (ipi k); congruence).
    apply winv_hlt. by apply winv_on_cpu.
Qed.

(** ** Reachable states *)

(** [s] is reached from boot in fewer than 2^32 - 1 steps, so that thread ids do
    not wrap. *)
Definition reachable (ncpus : nat) (stack0 : Z) (m : mem) (s : sched) : Prop :=
  (ncpus <= MAX_CPUS)%nat /\
  exists ls, Z.of_nat (length ls) < 2 ^ 32 - 1 /\ run ls (init ncpus stack0 m) = Some s.

Lemma reachable_ind (P : sched -> Prop) ncpus stack0 m s :
  reachable ncpus stack0 m s -> P (init ncpus stack0 m) ->
  (forall l s s', inv s -> linv s -> NEXT_TID s + 1 < 2 ^ 32 -> P s -> step l s = Some s' -> P s') -> inv s /\ linv s /\ P s.
Proof.
  intros (Hn & ls & Hlen & Hr) H0 Hstep. pose proof (sched_init_inv ncpus stack0 m Hn) as Hi. pose proof (init_linv ncpus stack0 m) as Hl.
  assert (Hb : NEXT_TID (init ncpus stack0 m) + Z.of_nat (length ls) < 2 ^ 32) by (cbn [init NEXT_TID]; lia).
  clear Hn Hlen. revert Hr H0 Hi Hl Hb. generalize (init ncpus stack0 m). induction ls as [|l ls IH]; intros s0 Hr H0 Hi Hl Hb.
  - injection Hr as <-. done.
  - cbn [run] in Hr. apply bind_Some in Hr as (s1 & H1 & Hr). cbn [length] in Hb.
    destruct (step_inv l s0 s1 Hi ltac:(lia) H1) as [Hi1 Hn1].
    apply (IH s1); [done|apply (Hstep l s0); auto; lia|done|by apply (step_linv l s0)|lia].
Qed.

(** ** Progress *)

Definition wants_bucket (p : pc) : option nat :=
  match p with
  | RescueLock _ b _ => Some b
  | WaitLock a _ _ | WakeLock a _ => Some (futex_bucket a)
  | _ => None
  end.
Definition wants_threads (p : pc) : bool :=
  match p with RescueTLock _ _ _ | WakeTLock _ _ | SpawnLock _ _ _ => true | _ => false end.
Definition halted (p : pc) : bool := match p with IdleHlt | ApHlt => true | _ => false end.

(** CPU [c] can take a step, whatever the clock reads. *)
Definition enabled (s : sched) (c : nat) : Prop := forall now, exists a s', cpu_step c a now s = Some s'.

(** CPU [c] spins on a lock that CPU [x] holds. *)
Definition spins_on (s : sched) (c x : nat) : Prop :=
  exists k kx, CPUS s !! c = Some k /\ CPUS s !! x = Some kx /\
    ((exists b, wants_bucket (at_pc (exec k)) = Some b /\ b ∈ held (view kx)) \/
     (wants_threads (at_pc (exec k)) = true /\ threads_held (at_pc (exec kx)) = 1%nat)).

Lemma switch_enabled c f p r s :
  (exists k, CPUS s !! c = Some k) ->
  match r with CThread n => exists t, thread s n = Some t | CIdle => True end ->
  exists s', context_switch c f p r s = Some s'.
Proof.
  intros [k Hk] Hr. unfold context_switch. rewrite Hk. cbn [mbind option_bind].
  assert (Hld : exists k', load_ctx c r (save_ctx c f (mkStack (owner (exec k)) p) s) = Some k').
  { destruct r as [n|]; cbn [load_ctx].
    - destruct Hr as [t Ht]. destruct f; cbn [save_ctx]; [rewrite thread_on_thread; destruct (decide _)|
        change (thread (on_cpu _ _ s) n) with (thread s n)]; rewrite Ht; by eexists.
    - destruct f; cbn [save_ctx]; [change (CPUS (on_thread _ _ s)) with (CPUS s)|rewrite on_cpu_lookup, decide_True by done];
        rewrite Hk; by eexists. }
  destruct Hld as [k' ->]. by eexists.
Qed.

(** A CPU that neither wants a lock nor is halted can step. *)
Lemma runs s c k :
  inv s -> CPUS s !! c = Some k -> wants_bucket (at_pc (exec k)) = None -> wants_threads (at_pc (exec k)) = false ->
  halted (at_pc (exec k)) = false -> enabled s c.
Proof.
  intros Hi Hk Hb Ht Hh now. pose proof (shape_at s c k Hi Hk) as Hs. unfold cpu_step. rewrite Hk. cbn [mbind option_bind].
  destruct (at_pc (exec k)) eqn:Hpc; try discriminate Hb; try discriminate Ht; try discriminate Hh;
    specialize (Hs _ eq_refl); try (exfalso; exact Hs); try (by exists Go; eexists).
  all: try (exists (Syscall 0); by eexists).
  all: exists Go; unfold rescue_step, yield_step, wait_step, wake_step, spawn_step, exit_thread_step, idle_step;
       try rewrite Hk; cbn [mbind option_bind].
  all: repeat match goal with
    | |- exists s', Some _ = Some s' => by eexists
    | |- exists s', context_switch _ _ _ _ _ = Some s' => fail 1
    | |- exists s', (match ?x with _ => _ end) = Some s' => destruct x eqn:?
    end.
  - destruct Hs as (_ & Hc & _). apply switch_enabled; [by exists k|].
    destruct (home_thread s c n) as (tn & Htn & _); [by apply (current_home s c k Hi Hk)|by exists tn].
  - apply switch_enabled; [|by eexists]. unfold set_current_kernel_stack. rewrite on_cpu_lookup, decide_True, Hk by done. by eexists.
  - apply switch_enabled; [|by eexists]. unfold set_current_kernel_stack. rewrite !on_cpu_lookup, !decide_True, Hk by done. by eexists.
  - apply switch_enabled; [|done]. rewrite on_cpu_lookup, decide_True, Hk by done. by eexists.
  - apply Nat.ltb_lt in Heqb. destruct (lookup_lt_is_Some_2 (CPUS s) cpu) as [q ->].
    { rewrite (inv_cpus_len _ Hi). pose proof (inv_ncpus _ Hi). lia. }
    cbn [mbind option_bind]. destruct (_ && _); [by eexists|]. destruct (_ && _); by eexists.
  - destruct Hs as [_ Hb']. cbn in Hb'. destruct (lookup_lt_is_Some_2 (CPUS s) best) as [q ->]; [by rewrite (inv_cpus_len _ Hi)|].
    by eexists.
  - destruct Hs as (_ & _ & h & z & Hd). unfold sig in Hd. destruct (thread s t); [|done]. cbn [mbind option_bind].
    apply switch_enabled; [by exists k|done].
Qed.

Lemma threads_holder s c k :
  inv s -> linv s -> CPUS s !! c = Some k -> wants_threads (at_pc (exec k)) = true ->
  enabled s c \/ exists y, y <> c /\ spins_on s c y /\ enabled s y.
Proof.
  intros Hi Hl Hk Hw. destruct (THREAD_LOCK s) eqn:E.
  - right. pose proof (linv_threads _ Hl) as HT. rewrite E in HT.
    destruct (total_pos (fun v => threads_held v.1) (views s)) as (y & v & Hv & Hp); [cbn in *; lia|].
    rewrite views_lookup in Hv. destruct (CPUS s !! y) as [ky|] eqn:Hky; [|done]. injection Hv as <-. cbn in Hp.
    assert (H1 : threads_held (at_pc (exec ky)) = 1%nat) by (destruct (at_pc (exec ky)); cbn in *; lia).
    exists y. split; [|split].
    + intros ->. assert (ky = k) as -> by congruence. by destruct (at_pc (exec k)).
    + exists k, ky. split; [done|]. split; [done|]. by right.
    + apply (runs s y ky Hi Hky); by destruct (at_pc (exec ky)).
  - left. intros now. exists Go. unfold cpu_step. rewrite Hk. cbn [mbind option_bind].
    destruct (at_pc (exec k)); try done; unfold rescue_step, wake_step, spawn_step, lock_threads; rewrite E; by eexists.
Qed.

Lemma bucket_holder s c k b :
  inv s -> linv s -> CPUS s !! c = Some k -> wants_bucket (at_pc (exec k)) = Some b ->
  enabled s c \/ exists x kx, x <> c /\ CPUS s !! x = Some kx /\ spins_on s c x /\
    (wants_threads (at_pc (exec kx)) = true \/ enabled s x).
Proof.
  intros Hi Hl Hk Hw. destruct (view_here s c _ Hl (view_at s c k Hk)) as [Hok Hz]. cbn in Hok, Hz.
  assert (Hlt : (b < 16)%nat).
  { destruct (at_pc (exec k)); try discriminate Hw; injection Hw as <-; try done; apply futex_bucket_lt. }
  destruct (lookup_lt_is_Some_2 (FUTEX_LOCKS s) b) as [lb Hlb]; [by rewrite (linv_len _ Hl)|]. destruct lb.
  - right. pose proof (linv_bucket _ Hl b) as HB. unfold locked in HB. rewrite Hlb in HB.
    destruct (total_pos (fun v => occ b (held v)) (views s)) as (x & v & Hv & Hp); [cbn in *; lia|].
    rewrite views_lookup in Hv. destruct (CPUS s !! x) as [kx|] eqn:Hkx; [|done]. injection Hv as <-. apply occ_in in Hp.
    destruct (view_here s x _ Hl (view_at s x kx Hkx)) as [_ Hzx]. cbn in Hzx.
    exists x, kx. split; [|split; [done|split]].
    + intros ->. assert (kx = k) as -> by congruence. unfold held, view, pending_held in Hp. cbn in Hp.
      destruct Hz as [Hz|[_ Hz]]; [rewrite Hz in Hp|]; destruct (at_pc (exec k)); try done; by apply not_elem_of_nil in Hp.
    + exists k, kx. split; [done|]. split; [done|]. left. by exists b.
    + destruct (wants_threads (at_pc (exec kx))) eqn:Hwt; [by left|right]. apply (runs s x kx Hi Hkx); [|done|].
      all: unfold held, view, pending_held in Hp; cbn in Hp.
      all: destruct (at_pc (exec kx)); try done; cbn in Hp, Hzx; (destruct Hzx as [Hzx|[_ Hzx]]; [rewrite Hzx in Hp|]; try done).
      all: by apply not_elem_of_nil in Hp.
  - left. intros now. exists Go. unfold cpu_step. rewrite Hk. cbn [mbind option_bind].
    destruct (at_pc (exec k)); try discriminate Hw; injection Hw as <-;
      unfold rescue_step, wake_step, wait_step, lock_bucket; rewrite ?Hk; cbn [mbind option_bind]; rewrite Hlb; by eexists.
Qed.

(** ** An idle CPU with work is about to be woken *)

(** The points at which the CPU's [idle] flag is up. *)
Definition idle_flag (p : pc) : bool :=
  match p with
  | IdleTop | IdleBack | IdleReset | IdleDisable | IdleCheck | IdleHlt | IdlePop | IdleNext _
  | Rescue _ RIdle | RescueRead _ RIdle | RescueLock _ _ RIdle | RescueTLock _ _ RIdle | RescueDo _ _ RIdle
  | WaitSwitch _ _ None | ExitSwitch _ => true
  | _ => false
  end.

Record hinv (s : sched) : Prop := {
  hinv_idle : forall c k, CPUS s !! c = Some k -> idle_flag (at_pc (exec k)) = true -> idle k = true;
  hinv_work : forall c k, CPUS s !! c = Some k -> at_pc (exec k) = IdleHlt -> queue k <> [] ->
    ipi k = true \/ exists x kx t, CPUS s !! x = Some kx /\ at_pc (exec kx) = SpawnIpi t c
}.

(** What a step of one CPU may do to another: queue a thread, with an interrupt. *)
Definition peer (x : nat) (s s' : sched) : Prop :=
  forall k, CPUS s !! x = Some k -> exists k', CPUS s' !! x = Some k' /\ exec k' = exec k /\ idle k' = idle k /\
    (ipi k = true -> ipi k' = true) /\ (queue k' = queue k \/ ipi k' = true).

Lemma peer_refl x s : peer x s s.
Proof. intros k Hk. exists k. auto 10. Qed.

Lemma peer_cpus x s s' : CPUS s' = CPUS s -> peer x s s'.
Proof. intros He k Hk. exists k. rewrite He. auto 10. Qed.

Lemma peer_trans x s1 s2 s3 : peer x s2 s3 -> peer x s1 s2 -> peer x s1 s3.
Proof.
  intros H23 H12 k Hk. destruct (H12 k Hk) as (k2 & Hk2 & E1 & I1 & P1 & Q1).
  destruct (H23 k2 Hk2) as (k3 & Hk3 & E2 & I2 & P2 & Q2). exists k3. split; [done|]. split; [congruence|]. split; [congruence|].
  split; [auto|]. destruct Q2 as [Q2|]; [|auto]. destruct Q1 as [Q1|Q1]; [left; congruence|right; auto].
Qed.

Lemma peer_on_cpu x c f s :
  c <> x \/ (forall k, exec (f k) = exec k /\ idle (f k) = idle k /\ queue (f k) = queue k /\ (ipi k = true -> ipi (f k) = true)) ->
  peer x s (on_cpu c f s).
Proof.
  intros Hf k Hk. rewrite on_cpu_lookup, Hk. destruct (decide (c = x)) as [->|]; [|exists k; by auto 10].
  destruct Hf as [?|Hf]; [done|]. destruct (Hf k) as (? & ? & ? & ?). exists (f k). auto 10.
Qed.

(** Queueing a thread on another CPU and interrupting it. *)
Lemma peer_push x h f s :
  (forall k, exec (f k) = exec k /\ idle (f k) = idle k /\ ipi (f k) = ipi k) ->
  peer x s (on_cpu h (set_ipi true) (on_cpu h f s)).
Proof.
  intros Hf k Hk. rewrite !on_cpu_lookup, Hk. destruct (decide (h = x)) as [->|]; [|exists k; by auto 10].
  destruct (Hf k) as (? & ? & ?). exists (set_ipi true (f k)). auto 10.
Qed.

Lemma peer_release x c s : peer x s (release_pending_unlock c s).
Proof.
  unfold release_pending_unlock. destruct (CPUS s !! c); [|apply peer_refl].
  destruct (0 <=? _); [apply (peer_trans x s (on_cpu c (set_unlock (-1)) s)); [by apply peer_cpus|]|]; apply peer_on_cpu; by right.
Qed.

Lemma peer_rescue x c i now s : x <> c -> peer x s (rescue c i now s).
Proof.
  intros Hne. unfold rescue. destruct (thread s i) as [t|]; [|apply peer_refl]. destruct (is_blocked _); [|apply peer_refl].
  assert (H0 : peer x s (on_thread i (rescued now) s)) by by apply peer_cpus.
  destruct (home_cpu t =? c)%nat eqn:E; cbn [negb].
  - apply Nat.eqb_eq in E. destruct (_ <? _)%nat; [|done]. eapply peer_trans; [|done]. apply peer_on_cpu. left. congruence.
  - destruct (_ <? _)%nat; [|eapply peer_trans; [apply peer_on_cpu; by right|done]].
    eapply peer_trans; [|done]. apply peer_push. intros k. by destruct (existsb _ _).
Qed.

Lemma peer_wake_one x c a i s : x <> c -> peer x s (wake_one c a i s).2.
Proof.
  intros Hne. unfold wake_one. destruct (thread s i) as [t|]; [|apply peer_refl]. destruct (_ && _); [|apply peer_refl].
  cbn [snd]. assert (H0 : peer x s (on_thread i woken_thread s)) by by apply peer_cpus.
  destruct (home_cpu t =? c)%nat eqn:E; cbn [negb].
  - apply Nat.eqb_eq in E. eapply peer_trans; [|done]. apply peer_on_cpu. left. congruence.
  - eapply peer_trans; [|done]. by apply peer_push.
Qed.

Lemma peer_switch x c f p r s s' : x <> c -> context_switch c f p r s = Some s' -> peer x s s'.
Proof.
  intros Hne. unfold context_switch. intros (k & _ & H)%bind_Some. apply bind_Some in H as (k' & _ & [= <-]).
  eapply peer_trans; [apply peer_on_cpu; by left|]. destruct f; cbn [save_ctx]; [by apply peer_cpus|apply peer_on_cpu; by left].
Qed.

Lemma peer_consume x b a s h s1 : pending_wake_consume b a s = (h, s1) -> peer x s s1.
Proof. unfold pending_wake_consume. destruct (_ ≫= _); intros [= <- <-]; by apply peer_cpus. Qed.

Ltac peers Hne :=
  repeat first
    [ apply peer_refl | (apply peer_cpus; reflexivity)
    | eapply peer_trans; [apply peer_on_cpu; first [by left|by right]|]
    | eapply peer_trans; [apply peer_cpus; reflexivity|]
    | apply peer_release | (apply peer_rescue; exact Hne) | (apply peer_wake_one; exact Hne) ].

Lemma cpu_step_peer x c a now s s' k :
  x <> c -> CPUS s !! c = Some k -> (forall t b, at_pc (exec k) <> SpawnPush t b) -> cpu_step c a now s = Some s' -> peer x s s'.
Proof.
  intros Hne Hk Hnp. unfold cpu_step. rewrite Hk. cbn [mbind option_bind].
  destruct (at_pc (exec k)) eqn:Hpc; destruct a; try done; intros H;
    unfold user_step, exit_step, rescue_step, yield_step, wait_step, wake_step, spawn_step, exit_thread_step, idle_step,
      lock_bucket, lock_threads in H.
  all: try rewrite Hk in H; cbn [mbind option_bind] in H; split_step H; unfold goto.
  all: try (by peers Hne).
  all: try (eapply peer_trans; [apply peer_on_cpu; by left|]).
  all: try first
    [ apply peer_release
    | match goal with
      | H : context_switch _ _ _ _ _ = Some _ |- _ =>
          eapply peer_trans; [eapply peer_switch; [exact Hne|exact H]|by peers Hne]
      | H : pending_wake_consume _ _ _ = _ |- _ => exact (peer_consume _ _ _ _ _ _ H)
      | H : wake_one ?c ?a ?i ?s = _ |- _ => pose proof (peer_wake_one x c a i s Hne) as Hw; by rewrite H in Hw
      end ].
  - exact (peer_rescue x c i now s Hne).
  - by destruct (woken =? 0); apply peer_cpus.
  - by destruct (Hnp t best).
  - destruct (idle _ && _); [|by apply peer_cpus].
    apply (peer_trans x s (on_cpu best (set_ipi true) s)); [by apply peer_cpus|apply peer_on_cpu; by right].
Qed.

(** The idle flag of CPU [c]. *)
Definition idle_at (c : nat) (s : sched) : option bool := idle <$> CPUS s !! c.

Lemma idle_at_on_cpu c x f s : (forall k, idle (f k) = idle k) -> idle_at c (on_cpu x f s) = idle_at c s.
Proof.
  intros Hf. unfold idle_at. rewrite on_cpu_lookup. destruct (decide (x = c)); [|done].
  destruct (CPUS s !! c); [|done]. cbn. by rewrite Hf.
Qed.

Lemma idle_at_release c s : idle_at c (release_pending_unlock c s) = idle_at c s.
Proof.
  unfold release_pending_unlock. destruct (CPUS s !! c) eqn:Hk; [|done].
  destruct (0 <=? _); apply (idle_at_on_cpu c c (set_unlock (-1)) s); done.
Qed.

Lemma idle_at_rescue c i now s : idle_at c (rescue c i now s) = idle_at c s.
Proof.
  unfold rescue. destruct (thread s i) as [t|]; [|done]. destruct (is_blocked _); [|done].
  destruct (negb _); rewrite ?idle_at_on_cpu by done; (destruct (_ <? _)%nat; [|done]).
  all: rewrite idle_at_on_cpu; [done|]; intros k; by destruct (existsb _ _).
Qed.

Lemma idle_flag_current s c k : inv s -> CPUS s !! c = Some k -> idle_flag (at_pc (exec k)) = true -> current k = None.
Proof.
  intros Hi Hk Hf. pose proof (ok_shape _ _ _ (inv_cpu _ Hi c k Hk)) as Hs. unfold shape in Hs.
  destruct (at_pc (exec k)); try discriminate Hf; try (by apply Hs); cbn in Hs, Hf.
  all: repeat match goal with H : (match ?x with _ => _ end) = true |- _ => destruct x; try discriminate H end; by apply Hs.
Qed.

Lemma switch_fields c f p r s s' k k' :
  context_switch c f p r s = Some s' -> CPUS s !! c = Some k -> CPUS s' !! c = Some k' -> current k' = current k /\ idle k' = idle k.
Proof.
  unfold context_switch. intros (k0 & Hk0 & H)%bind_Some Hk. apply bind_Some in H as (q & _ & [= <-]).
  rewrite on_cpu_lookup, decide_True by done. destruct f; cbn [save_ctx].
  - change (CPUS (on_thread _ _ s)) with (CPUS s). rewrite Hk. by intros [= <-].
  - rewrite on_cpu_lookup, decide_True, Hk by done. by intros [= <-].
Qed.

Lemma switch_idle_pc c f p s s' k k' :
  context_switch c (CThread f) p CIdle s = Some s' -> CPUS s !! c = Some k -> CPUS s' !! c = Some k' -> exec k' = idle_ctx k.
Proof.
  unfold context_switch. intros (k0 & Hk0 & H)%bind_Some Hk. apply bind_Some in H as (q & Hq & [= <-]).
  cbn [save_ctx load_ctx] in *. change (CPUS (on_thread _ _ s)) with (CPUS s) in Hq. rewrite Hk in Hq. injection Hq as <-.
  rewrite on_cpu_lookup, decide_True by done. change (CPUS (on_thread _ _ s)) with (CPUS s). rewrite Hk. by intros [= <-].
Qed.

(** The idle flag of the stepping CPU is right at its next point. *)
Lemma own_idle c a now s s' k k' :
  inv s -> inv s' -> CPUS s !! c = Some k -> CPUS s' !! c = Some k' -> cpu_step c a now s = Some s' ->
  (idle_flag (at_pc (exec k)) = true -> idle k = true) -> idle_flag (at_pc (exec k')) = true -> idle k' = true.
Proof.
  intros Hi Hi' Hk Hk' Hstep Hidle Hflag. pose proof (idle_flag_current s' c k' Hi' Hk' Hflag) as Hcur.
  pose proof (shape_at s c k Hi Hk) as Hs.
  assert (Hgoto : forall p X, s' = goto c p X -> at_pc (exec k') = p /\ idle_at c X = Some (idle k')).
  { intros p X ->. unfold goto in Hk'. rewrite on_cpu_lookup, decide_True in Hk' by done. unfold idle_at.
    destruct (CPUS X !! c); [|done]. by injection Hk' as <-. }
  assert (Hat : idle_at c s = Some (idle k)) by (unfold idle_at; by rewrite Hk).
  unfold cpu_step in Hstep. rewrite Hk in Hstep. cbn [mbind option_bind] in Hstep.
  destruct (at_pc (exec k)) eqn:Hpc; destruct a; try done; rename Hstep into H; specialize (Hs _ eq_refl);
    unfold user_step, exit_step, rescue_step, yield_step, wait_step, wake_step, spawn_step, exit_thread_step, idle_step,
      lock_bucket, lock_threads in H.
  all: try rewrite Hk in H; cbn [mbind option_bind] in H; split_step H.
  all: try (destruct (Hgoto _ _ eq_refl) as [Hp Hx]; rewrite Hp in Hflag; try discriminate Hflag).
  all: try (rewrite ?idle_at_release, ?idle_at_rescue in Hx; change (idle_at c ?X) with (idle_at c s) in Hx;
            rewrite Hat in Hx; injection Hx as <-; auto; fail).
  all: try (by destruct k0).
  all: try (unfold idle_at in Hx; rewrite ?on_cpu_lookup, ?decide_True, Hk in Hx by done; cbn in Hx; injection Hx as <-; auto; fail).
  - cbn in Hk'. assert (k' = k) as -> by congruence. by rewrite Hpc in Hflag.
  - cbn in Hk'. assert (k' = k) as -> by congruence. by rewrite Hpc in Hflag.
  - by destruct (need_resched k).
  - destruct (home_thread s c n (ok_next _ _ _ (inv_cpu _ Hi c k Hk) n Hpc)) as (tn & Htn & _).
    change (thread (on_cpu _ _ s) n) with (thread s n) in *. congruence.
  - destruct (switch_fields _ _ _ _ _ _ _ _ H Hk Hk') as [Hc _]. destruct Hs as (_ & Hcn & _). cbn in Hcn. congruence.
  - destruct k0; try discriminate Hflag. rewrite Hat in Hx. injection Hx as <-. auto.
  - change (idle_at c _) with (idle_at c (rescue c i now s)) in Hx. rewrite idle_at_rescue, Hat in Hx. injection Hx as <-.
    destruct k0; try discriminate Hflag. auto.
  - unfold set_current_kernel_stack in Hk'. rewrite !on_cpu_lookup, !decide_True, Hk in Hk' by done. injection Hk' as <-. done.
  - assert (Hk2 : CPUS (set_current_kernel_stack c (kstack_of s next) s) !! c = Some (set_gs (kstack_of s next) k)).
    { unfold set_current_kernel_stack. by rewrite on_cpu_lookup, decide_True, Hk. }
    destruct (switch_fields _ _ _ _ _ _ _ _ H Hk2 Hk') as [Hc _]. destruct Hs as (_ & Hcn & _). cbn in Hcn, Hc. congruence.
  - match type of H with context_switch _ _ _ _ ?X = _ => assert (Hk2 : exists k2, CPUS X !! c = Some k2 /\ current k2 = current k) end.
    { unfold set_current_kernel_stack. rewrite !on_cpu_lookup, !decide_True, Hk by done. by eexists. }
    destruct Hk2 as (k2 & Hk2 & Hc2). destruct (switch_fields _ _ _ _ _ _ _ _ H Hk2 Hk') as [Hc _].
    destruct Hs as (_ & Hcn). cbn in Hcn. congruence.
  - assert (Hk2 : CPUS (on_cpu c (set_unlock (Z.of_nat b)) s) !! c = Some (set_unlock (Z.of_nat b) k)).
    { by rewrite on_cpu_lookup, decide_True, Hk. }
    destruct (switch_fields _ _ _ _ _ _ _ _ H Hk2 Hk') as [_ ->]. cbn. auto.
  - change (idle_at c (on_thread _ _ ?X)) with (idle_at c X) in Hx. unfold idle_at in Hx.
    rewrite on_cpu_lookup, decide_True, Hk in Hx by done. by injection Hx as <-.
  - destruct (switch_fields _ _ _ _ _ _ _ _ H Hk Hk') as [_ ->]. auto.
Qed.

(** A CPU halts only with an empty queue. *)
Lemma own_halt c a now s s' k k' :
  inv s -> inv s' -> CPUS s !! c = Some k -> CPUS s' !! c = Some k' -> cpu_step c a now s = Some s' ->
  at_pc (exec k') = IdleHlt -> queue k' = [].
Proof.
  intros Hi Hi' Hk Hk' Hstep Hhlt.
  assert (Hflag : idle_flag (at_pc (exec k')) = true) by by rewrite Hhlt.
  pose proof (idle_flag_current s' c k' Hi' Hk' Hflag) as Hcur. clear Hflag.
  pose proof (shape_at s c k Hi Hk) as Hs.
  assert (Hgoto : forall p X, CPUS (goto c p X) !! c = Some k' -> p = IdleHlt /\ queue <$> CPUS X !! c = Some (queue k')).
  { intros p X H. unfold goto in H. rewrite on_cpu_lookup, decide_True in H by done.
    destruct (CPUS X !! c); [|done]. by injection H as <-. }
  unfold cpu_step in Hstep. rewrite Hk in Hstep. cbn [mbind option_bind] in Hstep.
  destruct (at_pc (exec k)) eqn:Hpc; destruct a; try done; rename Hstep into H; specialize (Hs _ eq_refl);
    unfold user_step, exit_step, rescue_step, yield_step, wait_step, wake_step, spawn_step, exit_thread_step, idle_step,
      lock_bucket, lock_threads in H.
  all: try rewrite Hk in H; cbn [mbind option_bind] in H; split_step H.
  all: try (apply Hgoto in Hk' as [Hp _]; discriminate Hp).
  all: try (apply Hgoto in Hk' as [Hp _]; destruct k0; discriminate Hp).
  all: try (cbn in Hk'; assert (k' = k) by congruence; subst k'; congruence).
  - apply Hgoto in Hk' as [Hp _]. by destruct (need_resched k).
  - apply Hgoto in Hk' as [Hp Hq]. rewrite Hk in Hq. cbn in Hq. injection Hq as <-. by destruct (queue k).
  - destruct (switch_fields _ _ _ _ _ _ _ _ H Hk Hk') as [Hc _]. destruct Hs as (_ & Hcn & _). cbn in Hcn. congruence.
  - unfold set_current_kernel_stack in Hk'. rewrite !on_cpu_lookup, !decide_True, Hk in Hk' by done. injection Hk' as <-. done.
  - assert (Hk2 : CPUS (set_current_kernel_stack c (kstack_of s next) s) !! c = Some (set_gs (kstack_of s next) k)).
    { unfold set_current_kernel_stack. by rewrite on_cpu_lookup, decide_True, Hk. }
    destruct (switch_fields _ _ _ _ _ _ _ _ H Hk2 Hk') as [Hc _]. destruct Hs as (_ & Hcn & _). cbn in Hcn, Hc. congruence.
  - match type of H with context_switch _ _ _ _ ?X = _ => assert (Hk2 : exists k2, CPUS X !! c = Some k2 /\ current k2 = current k) end.
    { unfold set_current_kernel_stack. rewrite !on_cpu_lookup, !decide_True, Hk by done. by eexists. }
    destruct Hk2 as (k2 & Hk2 & Hc2). destruct (switch_fields _ _ _ _ _ _ _ _ H Hk2 Hk') as [Hc _].
    destruct Hs as (_ & Hcn). cbn in Hcn. congruence.
  - assert (Hk2 : CPUS (on_cpu c (set_unlock (Z.of_nat b)) s) !! c = Some (set_unlock (Z.of_nat b) k)).
    { by rewrite on_cpu_lookup, decide_True, Hk. }
    rewrite (switch_idle_pc _ _ _ _ _ _ _ H Hk2 Hk') in Hhlt. cbn in Hhlt.
    by destruct (ok_idle _ _ _ (inv_cpu _ Hi c k Hk)) as [E|E]; rewrite E in Hhlt.
  - rewrite (switch_idle_pc _ _ _ _ _ _ _ H Hk Hk') in Hhlt.
    by destruct (ok_idle _ _ _ (inv_cpu _ Hi c k Hk)) as [E|E]; rewrite E in Hhlt.
Qed.

(** The step that queues a new thread. *)
Lemma spawn_push_work x c t best s kx :
  x <> c -> CPUS s !! x = Some kx ->
  exists kx', CPUS (goto c (SpawnIpi t best) (on_cpu best (push_queue t) s)) !! x = Some kx' /\
    exec kx' = exec kx /\ idle kx' = idle kx /\ ipi kx' = ipi kx /\ (best <> x -> queue kx' = queue kx).
Proof.
  intros Hne Hx. unfold goto. rewrite on_cpu_lookup, decide_False, on_cpu_lookup by done. rewrite Hx.
  destruct (decide (best = x)) as [->|]; (eexists; split; [reflexivity|]); cbn; repeat (split; [done|]); done.
Qed.

(** The step that interrupts the new thread's CPU. *)
Lemma spawn_ipi_work x c t s s' kx kx' :
  x <> c -> CPUS s !! x = Some kx -> idle kx = true -> spawn_step c (SpawnIpi t x) s = Some s' ->
  CPUS s' !! x = Some kx' -> ipi kx' = true.
Proof.
  intros Hne Hx Hid H Hx'. cbn [spawn_step] in H. rewrite Hx in H. cbn [mbind option_bind] in H. rewrite Hid in H. cbn [andb] in H.
  rewrite (proj2 (Nat.eqb_neq x c) Hne) in H. injection H as <-. unfold goto in Hx'.
  rewrite on_cpu_lookup, decide_False in Hx' by done. change (CPUS (unlock_threads ?y)) with (CPUS y) in Hx'.
  rewrite on_cpu_lookup, decide_True, Hx in Hx' by done. by injection Hx' as <-.
Qed.

Lemma hinv_cpu_step c a now s s' :
  inv s -> inv s' -> hinv s -> cpu_step c a now s = Some s' -> hinv s'.
Proof.
  intros Hi Hi' [H1 H2] Hstep.
  assert (Hkx : exists k, CPUS s !! c = Some k).
  { unfold cpu_step in Hstep. destruct (CPUS s !! c) as [k|]; [by exists k|done]. }
  destruct Hkx as [k Hk].
  assert (Hback : forall x kx', x <> c -> CPUS s' !! x = Some kx' -> exists kx, CPUS s !! x = Some kx /\ exec kx' = exec kx).
  { intros x kx' Hne Hx'. pose proof (cpu_step_other x c a now s s' Hne Hstep) as Hsame. unfold same_exec in Hsame.
    rewrite Hx' in Hsame. destruct (CPUS s !! x) as [kx|]; [|done]. exists kx. by injection Hsame. }
  assert (Heff : forall x kx kx', x <> c -> CPUS s !! x = Some kx -> CPUS s' !! x = Some kx' ->
     idle kx' = idle kx /\ (ipi kx = true -> ipi kx' = true) /\
     (queue kx' = queue kx \/ ipi kx' = true \/ exists kc t, CPUS s' !! c = Some kc /\ at_pc (exec kc) = SpawnIpi t x)).
  { intros x kx kx' Hne Hx Hx'. destruct (at_pc (exec k)) eqn:Hpc.
    all: try (assert (Hp : peer x s s') by (apply (cpu_step_peer x c a now s s' k Hne Hk); [by rewrite Hpc|done]);
              destruct (Hp kx Hx) as (k2 & Hk2 & _ & ? & ? & [?|?]); assert (k2 = kx') as -> by congruence; by auto).
    assert (s' = goto c (SpawnIpi t best) (on_cpu best (push_queue t) s)) as ->.
    { unfold cpu_step in Hstep. rewrite Hk in Hstep. cbn [mbind option_bind] in Hstep. rewrite Hpc in Hstep.
      destruct a; try done. by injection Hstep as <-. }
    destruct (spawn_push_work x c t best s kx Hne Hx) as (k2 & Hk2 & _ & ? & Hip & Hqq). assert (k2 = kx') as -> by congruence.
    split; [done|]. split; [by rewrite Hip|]. destruct (decide (best = x)) as [->|]; [|by auto]. right. right.
    exists (set_pc (SpawnIpi t x) k), t. unfold goto. rewrite on_cpu_lookup, decide_True, on_cpu_lookup, decide_False, Hk by done. done. }
  constructor.
  - intros x kx' Hx' Hf. destruct (decide (x = c)) as [->|Hne].
    + apply (own_idle c a now s s' k kx'); auto. by apply (H1 c).
    + destruct (Hback x kx' Hne Hx') as (kx & Hx & He). destruct (Heff x kx kx' Hne Hx Hx') as (-> & _).
      apply (H1 x); [done|congruence].
  - intros x kx' Hx' Hhlt Hq. destruct (decide (x = c)) as [->|Hne].
    { destruct Hq. by apply (own_halt c a now s s' k). }
    destruct (Hback x kx' Hne Hx') as (kx & Hx & He). rewrite He in Hhlt.
    destruct (Heff x kx kx' Hne Hx Hx') as (_ & Hip & [Hqq|[?|(kc & t & ? & ?)]]); [|by left|right; by eauto].
    rewrite Hqq in Hq. destruct (H2 x kx Hx Hhlt Hq) as [?|(y & ky & t & Hy & Hpy)]; [by left; auto|].
    destruct (decide (y = c)) as [->|Hyc].
    + assert (ky = k) as -> by congruence. left. apply (spawn_ipi_work x c t s s' kx); try done.
      * apply (H1 x); [done|by rewrite Hhlt].
      * unfold cpu_step in Hstep. rewrite Hk in Hstep. cbn [mbind option_bind] in Hstep. rewrite Hpy in Hstep. by destruct a.
    + right. pose proof (cpu_step_other y c a now s s' Hyc Hstep) as Hsame. unfold same_exec in Hsame. rewrite Hy in Hsame.
      destruct (CPUS s' !! y) as [ky'|] eqn:Hy'; [|done]. injection Hsame as Hsame. exists y, ky', t. by rewrite Hsame.
Qed.

Lemma hinv_interrupt c f s :
  (forall k, CPUS s !! c = Some k -> at_pc (exec (f k)) <> IdleHlt /\ idle (f k) = idle k /\
     (idle_flag (at_pc (exec (f k))) = true -> idle_flag (at_pc (exec k)) = true) /\
     (forall t x, at_pc (exec k) = SpawnIpi t x -> at_pc (exec (f k)) = SpawnIpi t x)) ->
  hinv s -> hinv (on_cpu c f s).
Proof.
  intros Hf [H1 H2]. constructor.
  - intros x kx. rewrite on_cpu_lookup. destruct (decide (c = x)) as [->|]; [|apply H1].
    destruct (CPUS s !! x) as [k|] eqn:Hk; [|done]. intros [= <-] Hi. destruct (Hf k eq_refl) as (_ & -> & Hfl & _).
    apply (H1 x); auto.
  - intros x kx. rewrite on_cpu_lookup. destruct (decide (c = x)) as [->|].
    + destruct (CPUS s !! x) as [k|] eqn:Hk; [|done]. intros [= <-] Hp. by destruct (Hf k eq_refl).
    + intros Hx Hp Hq. destruct (H2 x kx Hx Hp Hq) as [?|(y & ky & t & Hy & Hpy)]; [by left|right].
      destruct (decide (c = y)) as [->|Hne].
      * destruct (Hf ky Hy) as (_ & _ & _ & Hsp). exists y, (f ky), t. rewrite on_cpu_lookup, decide_True, Hy by done. auto.
      * exists y, ky, t. by rewrite on_cpu_lookup, decide_False.
Qed.

Lemma end_hlt_facts k f :
  (forall k, exec (f k) = exec k /\ idle (f k) = idle k) ->
  at_pc (exec (end_hlt (f k))) <> IdleHlt /\ idle (end_hlt (f k)) = idle k /\
  (idle_flag (at_pc (exec (end_hlt (f k)))) = true -> idle_flag (at_pc (exec k)) = true) /\
  (forall t x, at_pc (exec k) = SpawnIpi t x -> at_pc (exec (end_hlt (f k))) = SpawnIpi t x).
Proof.
  intros Hf. destruct (Hf k) as [He Hid]. unfold end_hlt. rewrite He.
  destruct (at_pc (exec k)) eqn:E; cbn; rewrite ?He, ?E; repeat (split; [done|]); done.
Qed.

Lemma hinv_end_hlt c f s :
  (forall k, exec (f k) = exec k /\ idle (f k) = idle k) -> hinv s -> hinv (on_cpu c end_hlt (on_cpu c f s)).
Proof.
  intros Hf Hh. replace (on_cpu c end_hlt (on_cpu c f s)) with (on_cpu c (end_hlt ∘ f) s).
  - apply hinv_interrupt; [|done]. intros k _. by apply end_hlt_facts.
  - unfold on_cpu. cbn. by rewrite list_alter_alter_eq.
Qed.

Lemma hinv_step l s s' : inv s -> NEXT_TID s + 1 < 2 ^ 32 -> hinv s -> step l s = Some s' -> hinv s'.
Proof.
  intros Hi Hb Hh Hstep. destruct (step_inv l s s' Hi Hb Hstep) as [Hi' _]. destruct l; cbn [step] in Hstep.
  - by apply (hinv_cpu_step c a now s).
  - injection Hstep as <-. unfold timer_tick. destruct (_ <? _)%nat; [by apply hinv_end_hlt|].
    apply hinv_interrupt; [|done]. intros k _. by apply (end_hlt_facts k id).
  - injection Hstep as <-. unfold watchdog_arm. destruct (_ && _); [|done]. destruct Hh as [H1 H2]. by constructor.
  - injection Hstep as <-. unfold watchdog_one. destruct (thread s i); [|done].
    destruct (negb _); [done|]. destruct (_ =? _); [done|]. destruct (_ || _ || _); [|done]. destruct Hh as [H1 H2]. by constructor.
  - apply bind_Some in Hstep as (k & Hk & H).
    assert (s' = on_cpu c end_hlt (on_cpu c (set_ipi false) s)) as -> by (destruct (at_pc (exec k)), (ipi k); congruence).
    by apply hinv_end_hlt.
Qed.

Lemma init_cpu n stack0 m c k : CPUS (init n stack0 m) !! c = Some k -> k = boot_cpu stack0 c.
Proof.
  cbn [init CPUS]. rewrite list_lookup_fmap. destruct (seq 0 MAX_CPUS !! c) as [x|] eqn:E; [|done].
  apply lookup_seq in E as [-> _]. by intros [= <-].
Qed.

Lemma init_hinv n stack0 m : hinv (init n stack0 m).
Proof. constructor; intros c k ->%init_cpu; by destruct c. Qed.

Lemma init_winv n stack0 m : winv (init n stack0 m).
Proof. intros c k a w i x ->%init_cpu. by destruct c. Qed.

(** ** The guarantees *)

Section guarantees.
Context (ncpus : nat) (stack0 : Z) (m : mem) (s : sched).

Lemma reachable_inv : reachable ncpus stack0 m s -> inv s /\ linv s.
Proof using Type. intros Hr. destruct (reachable_ind (fun _ => True) _ _ _ _ Hr I ltac:(done)) as (? & ? & _). done. Qed.

(** The one point at which [current] does not count as a place: a thread in
    [futex_wait] has marked itself blocked and has not left its CPU. *)
Definition leaving (k : Cpu) : bool := match at_pc (exec k) with WaitPick _ _ => true | _ => false end.

Lemma current_placed k i : current k = Some i -> leaving k = false -> i ∈ extra k.
Proof using Type.
  unfold leaving, extra. intros ->. destruct (at_pc (exec k)); try done; intros _; try (by left); right; by left.
Qed.

(** C1: no thread is lost and none is queued or run twice.  In every reachable
    state a thread that is neither blocked nor dead has exactly one place (a run
    queue, a CPU whose current thread it is and which it is not about to leave, or
    the hands of the step that moves it), and a blocked or dead one has none.  A
    current thread is in no queue, with one exception: a thread in [futex_wait] that
    has marked itself blocked and not yet left its CPU may have been queued again, on
    that same CPU, by a rescue.  Apart from a thread being created, which waits in the
    hands of its creator, a place is on the thread's home CPU. *)
Theorem one_place_per_thread :
  reachable ncpus stack0 m s ->
  (forall i, total (fun k => occ i (places k)) (CPUS s) =
     match thread s i with
     | Some t => match state t with Blocked | Dead => 0 | Ready | Running => 1 end
     | None => 0
     end%nat) /\
  (forall c k i c' k', CPUS s !! c = Some k -> current k = Some i -> CPUS s !! c' = Some k' -> i ∈ queue k' -> c' = c /\ leaving k = true) /\
  (forall c k i, CPUS s !! c = Some k -> i ∈ places k -> i ∉ spawning (at_pc (exec k)) ->
     exists t, thread s i = Some t /\ home_cpu t = c).
Proof using Type.
  intros [Hi _]%reachable_inv. split; [|split].
  - intros i. rewrite (inv_place _ Hi i). unfold live. destruct (thread s i) as [t|]; [|done]. by destruct (state t).
  - intros c k i c' k' Hk Hc Hk' Hq. destruct (thread_here s c k Hi Hk i (or_intror Hc)) as (t & Ht & <-).
    destruct (thread_here s c' k' Hi Hk' i (or_introl Hq)) as (t' & Ht' & <-). rewrite Ht in Ht'. injection Ht' as <-. split; [done|].
    rewrite Hk in Hk'. injection Hk' as <-. destruct (leaving k) eqn:El; [done|]. exfalso. pose proof (current_placed k i Hc El) as He.
    apply occ_in in Hq, He. pose proof (total_member (fun k => occ i (places k)) _ _ _ Hk) as Hm. cbn beta in Hm.
    rewrite (inv_place _ Hi i) in Hm. unfold places in Hm. rewrite occ_app in Hm. destruct (SchedInv.live s i); cbn in Hm; lia.
  - intros c k i Hk [Hq|He]%elem_of_app Hns; [by apply (thread_here s c k Hi Hk); left|].
    pose proof (inv_cpu _ Hi c k Hk) as [_ _ _ _ H5 _].
    assert (Hc : i ∈ option_list (current k) -> exists t, thread s i = Some t /\ home_cpu t = c).
    { destruct (current k) as [x|] eqn:E; [|by intros ?%not_elem_of_nil].
      intros ->%list_elem_of_singleton. apply (thread_here s c k Hi Hk). by right. }
    unfold extra in He. destruct (at_pc (exec k)) eqn:Hpc; try (by apply Hc); try (by apply not_elem_of_nil in He).
    + apply elem_of_cons in He as [->|He]; [|by apply Hc]. destruct (H5 n eq_refl) as (z & d & Hs). unfold sig in Hs.
      destruct (thread s n) as [t|]; [|done]. injection Hs as ? _ _. by exists t.
    + apply elem_of_cons in He as [->|He]; [|by apply Hc]. destruct Hns. by left.
    + apply elem_of_cons in He as [->|He]; [|by apply Hc]. destruct Hns. by left.
Qed.

(** C3: stacks do not get mixed up.  A thread's stack is executed by at most one
    CPU, its home, with that thread's kernel stack installed for the next system
    call; user code runs as the CPU's current thread; and a thread that is not
    executing (and not dead) has a context saved at a point that may be resumed. *)
Theorem stacks_never_mixed :
  reachable ncpus stack0 m s ->
  (forall c k i, CPUS s !! c = Some k -> owner (exec k) = Some i ->
     (exists t, thread s i = Some t /\ home_cpu t = c /\ gs_kstack k = kernel_stack_top t) /\
     (forall c' k', CPUS s !! c' = Some k' -> owner (exec k') = Some i -> c' = c)) /\
  (forall c k r, CPUS s !! c = Some k -> at_pc (exec k) = User r ->
     exists i, owner (exec k) = Some i /\ current k = Some i) /\
  (forall i t, thread s i = Some t -> state t <> Dead ->
     (forall c k, CPUS s !! c = Some k -> owner (exec k) <> Some i) -> resumable i (ctx t)).
Proof using Type.
  intros [Hi _]%reachable_inv.
  assert (Hh : forall c k i, CPUS s !! c = Some k -> owner (exec k) = Some i ->
    exists t, thread s i = Some t /\ home_cpu t = c /\ gs_kstack k = kernel_stack_top t).
  { intros c k i Hk Ho. destruct (ok_owner _ _ _ (inv_cpu _ Hi c k Hk) i Ho) as [(z & d & Hs) Hg]. unfold sig in Hs.
    unfold kstack_of in Hg. destruct (thread s i) as [t|]; [|done]. injection Hs as ? _ _. by exists t. }
  split; [|split].
  - intros c k i Hk Ho. split; [by apply Hh|]. intros c' k' Hk' Ho'.
    destruct (Hh c k i Hk Ho) as (t & Ht & <- & _), (Hh c' k' i Hk' Ho') as (t' & Ht' & <- & _). congruence.
  - intros c k r Hk Hpc. exact (shape_at s c k Hi Hk _ Hpc).
  - intros i t Ht Hd Hno. apply (ok_parked _ _ _ (inv_thread _ Hi i t Ht) Hd). intros (k & Hk & Ho). by apply (Hno _ k Hk).
Qed.

(** C12: mutual exclusion, across the hand-over of a lock to the next thread.  A
    bucket lock is taken exactly when one CPU holds it (or has yet to release it
    for the thread that went to sleep), and never by two; the thread-table lock
    likewise. *)
Theorem locks_exclude :
  reachable ncpus stack0 m s ->
  (forall b, total (fun k => occ b (held (view k))) (CPUS s) = Nat.b2n (locked s b)) /\
  total (fun k => threads_held (at_pc (exec k))) (CPUS s) = Nat.b2n (THREAD_LOCK s).
Proof using Type.
  intros [_ Hl]%reachable_inv. split.
  - intros b. rewrite <- (linv_bucket _ Hl b). unfold views. by rewrite total_map.
  - rewrite <- (linv_threads _ Hl). unfold views. by rewrite total_map.
Qed.

(** C20: no deadlock.  A CPU can take a step, or is halted until an interrupt, or
    spins on a lock whose holder can take a step, at worst after the holder of
    the thread-table lock has. *)
Theorem no_deadlock :
  reachable ncpus stack0 m s ->
  forall c k, CPUS s !! c = Some k ->
  enabled s c \/ halted (at_pc (exec k)) = true \/
  exists x, x <> c /\ spins_on s c x /\
    (enabled s x \/ exists y, y <> x /\ spins_on s x y /\ enabled s y).
Proof using Type.
  intros [Hi Hl]%reachable_inv c k Hk.
  destruct (wants_bucket (at_pc (exec k))) as [b|] eqn:Hb.
  - destruct (bucket_holder s c k b Hi Hl Hk Hb) as [?|(x & kx & Hne & Hx & Hsp & [Hwt|Hen])]; [by left|right; right..].
    + exists x. split; [done|]. split; [done|]. by apply (threads_holder s x kx).
    + exists x. auto.
  - destruct (wants_threads (at_pc (exec k))) eqn:Hw.
    + destruct (threads_holder s c k Hi Hl Hk Hw) as [?|(y & ? & ? & ?)]; [by left|right; right]. exists y. auto.
    + destruct (halted (at_pc (exec k))) eqn:Hh; [by right; left|left]. by apply (runs s c k).
Qed.

(** C21: a wake misses no waiter.  Whatever the other CPUs do meanwhile, when a
    [futex_wake] of up to [n] threads has scanned the table and woken fewer than
    [n], no thread sleeps on its address. *)
Theorem wake_misses_nobody :
  reachable ncpus stack0 m s ->
  forall c k a n i w, CPUS s !! c = Some k -> at_pc (exec k) = WakeScan a n i w -> (MAX_THREADS <= i)%nat ->
  forall j, ~ waits_on s j a.
Proof using Type.
  intros Hr c k a n i w Hk Hpc Hn j Hw. destruct (reachable_ind winv _ _ _ _ Hr (init_winv _ _ _)) as (Hi & _ & Hwi).
  { intros l s0 s1 H1 H2 _ H3. by apply winv_step. }
  apply (Hwi c k a n i w Hk Hpc j); [|done]. destruct Hw as (t & Ht & _). unfold thread in Ht.
  destruct (THREADS s !! j) as [o|] eqn:E; [|done]. apply lookup_lt_Some in E. rewrite (inv_threads_len _ Hi) in E. lia.
Qed.

(** C26: the idle loop's check-then-sleep loses no work.  A CPU halted in the
    idle loop whose queue is not empty has an interrupt pending, or the [spawn]
    that queued the thread is about to send it. *)
Theorem idle_cpu_is_woken :
  reachable ncpus stack0 m s ->
  forall c k, CPUS s !! c = Some k -> at_pc (exec k) = IdleHlt -> queue k <> [] ->
  ipi k = true \/ exists x kx t, CPUS s !! x = Some kx /\ at_pc (exec kx) = SpawnIpi t c.
Proof using Type.
  intros Hr c k. destruct (reachable_ind hinv _ _ _ _ Hr (init_hinv _ _ _)) as (_ & _ & Hh).
  { intros l s0 s1 H1 _ H2 H3. by apply hinv_step. }
  apply (hinv_work _ Hh).
Qed.
End guarantees.
