(* ===== verification/SchedFutex.v ===== *)
(** * Futex wakes and waits in detail

    The table of pending wakes, the timed wait, runs that show the guarantees of
    [SchedThms.v] at work, and the cases in which [sched.rs] does less than its
    comments say. *)

From S2P Require Import Prelude Sched SchedInv SchedSafe SchedLocks SchedThms.

(** ** The table of pending wakes *)

(** Every bucket has eight slots, and no address is in two of them. *)
Definition slots_ok (l : list Z) : Prop :=
  length l = PENDING_WAKES_PER_BUCKET /\ forall i j a, l !! i = Some a -> l !! j = Some a -> a <> 0 -> i = j.

Definition pinv (s : sched) : Prop :=
  length (PENDING_WAKES s) = 16%nat /\ Forall slots_ok (PENDING_WAKES s).

Lemma existsb_eq a l : existsb (Z.eqb a) l = true <-> a ∈ l.
Proof.
  rewrite existsb_exists. split.
  - intros (x & Hx & ->%Z.eqb_eq). by apply list_elem_of_In.
  - intros Hx%list_elem_of_In. exists a. split; [done|apply Z.eqb_refl].
Qed.

Lemma insert_slot_ok a l : slots_ok l -> slots_ok (insert_slot a l).
Proof.
  intros [Hn Hd]. unfold insert_slot. destruct (existsb _ _) eqn:E; [done|].
  destruct (position _ _) as [p|] eqn:Hp; [|done]. split; [by rewrite length_insert|].
  assert (Ha : a ∉ l) by (intros H%existsb_eq; congruence).
  assert (Hpl : (p < length l)%nat) by (apply position_Some in Hp as (x & Hx & _); by apply lookup_lt_Some in Hx).
  intros i j x Hi Hj Hx. destruct (decide (i = p)) as [->|Hip], (decide (j = p)) as [->|Hjp]; [done|..].
  - rewrite list_lookup_insert_eq in Hi by done. rewrite list_lookup_insert_ne in Hj by done.
    injection Hi as ->. by apply list_elem_of_lookup_2 in Hj.
  - rewrite list_lookup_insert_eq in Hj by done. rewrite list_lookup_insert_ne in Hi by done.
    injection Hj as ->. by apply list_elem_of_lookup_2 in Hi.
  - rewrite list_lookup_insert_ne in Hi, Hj by done. by apply (Hd i j x).
Qed.

Lemma clear_slot_ok p l : slots_ok l -> slots_ok (<[p := 0]> l).
Proof.
  intros [Hn Hd]. split; [by rewrite length_insert|]. intros i j x Hi Hj Hx.
  apply list_lookup_insert_Some in Hi as [(_ & ? & _)|[_ Hi]]; [congruence|].
  apply list_lookup_insert_Some in Hj as [(_ & ? & _)|[_ Hj]]; [congruence|]. by apply (Hd i j x).
Qed.

Lemma pinv_alter f b s : pinv s -> (forall l, slots_ok l -> slots_ok (f l)) -> pinv (with_wakes (alter f b (PENDING_WAKES s)) s).
Proof.
  intros [Hn Hf] Hok. split; cbn; [by rewrite length_alter|]. apply Forall_lookup_2. intros i l.
  rewrite list_lookup_alter. destruct (decide (b = i)) as [->|]; [|by apply Forall_lookup_1].
  destruct (PENDING_WAKES s !! i) as [l0|] eqn:E; [|done]. intros [= <-]. apply Hok. by eapply Forall_lookup_1 in E.
Qed.

Lemma pinv_consume b a s : pinv s -> pinv (pending_wake_consume b a s).2.
Proof.
  intros Hp. unfold pending_wake_consume. destruct (_ ≫= _); [|done]. apply pinv_alter; [done|]. intros l. apply clear_slot_ok.
Qed.

Lemma wakes_context_switch c f p r s s' : context_switch c f p r s = Some s' -> PENDING_WAKES s' = PENDING_WAKES s.
Proof. unfold context_switch. intros (k & _ & H)%bind_Some. apply bind_Some in H as (k' & _ & [= <-]). by destruct f. Qed.

Lemma wakes_release c s : PENDING_WAKES (release_pending_unlock c s) = PENDING_WAKES s.
Proof. unfold release_pending_unlock. destruct (CPUS s !! c); [|done]. by destruct (0 <=? _). Qed.

Lemma wakes_rescue c i now s : PENDING_WAKES (rescue c i now s) = PENDING_WAKES s.
Proof.
  unfold rescue. destruct (thread s i); [|done]. destruct (is_blocked _); [|done]. by destruct (_ <? _)%nat, (negb _).
Qed.

Lemma wakes_wake_one c a i s : PENDING_WAKES (wake_one c a i s).2 = PENDING_WAKES s.
Proof. unfold wake_one. destruct (thread s i); [|done]. destruct (_ && _); [|done]. by destruct (negb _). Qed.

Lemma pinv_same s s' : pinv s -> PENDING_WAKES s' = PENDING_WAKES s -> pinv s'.
Proof. unfold pinv. by intros Hp ->. Qed.

Lemma pinv_step l s s' : pinv s -> step l s = Some s' -> pinv s'.
Proof.
  intros Hp. destruct l; cbn [step].
  2:{ intros [= <-]. apply (pinv_same s); [done|]. unfold timer_tick. by destruct (_ <? _)%nat. }
  2:{ intros [= <-]. unfold watchdog_arm. by destruct (_ && _). }
  2:{ intros [= <-]. unfold watchdog_one. destruct (thread s i); [|done].
      destruct (negb _); [done|]. destruct (_ =? _); [done|]. by destruct (_ || _ || _). }
  2:{ intros (k & Hk & H)%bind_Some. apply (pinv_same s); [done|].
      assert (s' = on_cpu c end_hlt (on_cpu c (set_ipi false) s)) as -> by (destruct (at_pc (exec k)), (ipi k); congruence). done. }
  unfold cpu_step. destruct (CPUS s !! c) as [k|] eqn:Hk; [|done]. cbn [mbind option_bind].
  destruct (at_pc (exec k)) eqn:Hpc; destruct a; try done; intros H;
    unfold user_step, exit_step, rescue_step, yield_step, wait_step, wake_step, spawn_step, exit_thread_step, idle_step,
      lock_bucket, lock_threads in H.
  all: try rewrite Hk in H; cbn [mbind option_bind] in H; split_step H; try exact Hp.
  all: try (apply (pinv_same s); [done|]; cbn;
            first [reflexivity | apply wakes_release | apply wakes_rescue | by apply wakes_context_switch in H]).
  all: try match goal with
    | H : pending_wake_consume ?b ?a ?s = _ |- _ => pose proof (pinv_consume b a s Hp) as Hc; rewrite H in Hc; exact Hc
    | H : wake_one ?c ?a ?i ?s = _ |- _ =>
        apply (pinv_same s); [done|]; pose proof (wakes_wake_one c a i s) as Hc; by rewrite H in Hc
    end.
  - destruct (woken =? 0); [|done]. apply (pinv_alter (insert_slot addr) (futex_bucket addr) s Hp). intros l0. apply insert_slot_ok.
  - by destruct (idle _ && _).
Qed.

Lemma init_pinv n stack0 m : pinv (init n stack0 m).
Proof.
  split; [done|]. cbn [init PENDING_WAKES]. apply Forall_replicate. split; [done|]. intros i j a Hi Hj Ha.
  apply lookup_replicate in Hi as [-> _]. done.
Qed.

Lemma position_in a l : is_Some (position (Z.eqb a) l) <-> a ∈ l.
Proof.
  split.
  - intros [p (x & Hx & ->%Z.eqb_eq & _)%position_Some]. by apply list_elem_of_lookup_2 in Hx.
  - intros Ha. destruct (position (Z.eqb a) l) eqn:E; [done|]. apply position_None in E.
    rewrite Forall_forall in E. specialize (E a Ha). by rewrite Z.eqb_refl in E.
Qed.

Lemma insert_slot_room a l :
  a ∈ insert_slot a l <-> existsb (fun x => (x =? 0) || (x =? a)) l = true.
Proof.
  assert (Hr : existsb (fun x => (x =? 0) || (x =? a)) l = true <-> 0 ∈ l \/ a ∈ l).
  { rewrite existsb_exists. split.
    - intros (x & Hx%list_elem_of_In & [->%Z.eqb_eq| ->%Z.eqb_eq]%orb_true_iff); auto.
    - intros [H|H]; [exists 0|exists a]; (split; [by apply list_elem_of_In|]); rewrite Z.eqb_refl, ?orb_true_r; done. }
  rewrite Hr. unfold insert_slot. destruct (existsb (Z.eqb a) l) eqn:E.
  - apply existsb_eq in E. by split; [right|].
  - assert (Ha : a ∉ l) by (intros H%existsb_eq; congruence). pose proof (position_in 0 l) as H0.
    destruct (position (Z.eqb 0) l) as [p|] eqn:Hp.
    + split; [intros _; left; by apply H0|]. intros _. apply position_Some in Hp as (x & Hx & _).
      apply (list_elem_of_lookup_2 _ p). apply list_lookup_insert_eq. by apply lookup_lt_Some in Hx.
    + split; [by right|]. intros [H%H0|?]; [by destruct H|done].
Qed.

(** A cleared slot: the address is gone. *)
Lemma clear_gone a l p : slots_ok l -> a <> 0 -> position (Z.eqb a) l = Some p -> position (Z.eqb a) (<[p := 0]> l) = None.
Proof.
  intros [_ Hd] Ha Hp. apply position_Some in Hp as (x & Hx & ->%Z.eqb_eq & _).
  destruct (position _ (<[p := 0]> l)) as [q|] eqn:E; [|done]. apply position_Some in E as (y & Hy & ->%Z.eqb_eq & _).
  apply list_lookup_insert_Some in Hy as [(_ & ? & _)|[Hne Hy]]; [congruence|]. by destruct Hne; apply (Hd p q y).
Qed.

(** A wake that finds nobody is kept for exactly one later wait.  After
    [pending_wake_insert] the next wait at that address consumes it and the one
    after that does not, provided one of the bucket's eight slots was free (or
    held the address already); otherwise the wake is forgotten. *)
Theorem pending_wake_once ncpus stack0 m s a :
  reachable ncpus stack0 m s -> a <> 0 ->
  let b := futex_bucket a in
  let '(hit, s2) := pending_wake_consume b a (pending_wake_insert b a s) in
  hit = existsb (fun x => (x =? 0) || (x =? a)) (default [] (PENDING_WAKES s !! b)) /\
  (pending_wake_consume b a s2).1 = false.
Proof.
  intros Hr Ha b. destruct (reachable_ind pinv _ _ _ _ Hr (init_pinv _ _ _)) as (_ & _ & Hp).
  { intros l s0 s1 _ _ _ H0 H1. by apply (pinv_step l s0). }
  destruct (lookup_lt_is_Some_2 (PENDING_WAKES s) b) as [l Hl]; [rewrite (proj1 Hp); apply futex_bucket_lt|].
  assert (Hok : slots_ok (insert_slot a l)) by (apply insert_slot_ok; destruct Hp as [_ Hf]; by eapply Forall_lookup_1 in Hl).
  assert (Hl1 : PENDING_WAKES (pending_wake_insert b a s) !! b = Some (insert_slot a l)).
  { cbn. by rewrite list_lookup_alter_eq, Hl. }
  pose proof (position_in a (insert_slot a l)) as Hin. rewrite insert_slot_room in Hin. rewrite Hl. change (default [] (Some l)) with l.
  unfold pending_wake_consume at 1. rewrite Hl1. cbn [mbind option_bind].
  destruct (position (Z.eqb a) (insert_slot a l)) as [p|] eqn:Epos.
  - split; [symmetry; by apply Hin|]. unfold pending_wake_consume. cbn [PENDING_WAKES with_wakes pending_wake_insert].
    rewrite !list_lookup_alter_eq, Hl. cbn [fmap option_fmap option_map mbind option_bind]. by rewrite clear_gone.
  - split.
    + destruct (existsb _ l); [|done]. by destruct (proj2 Hin eq_refl).
    + unfold pending_wake_consume. rewrite Hl1. cbn [mbind option_bind]. by rewrite Epos.
Qed.

(** Timed waits end.  Once the deadline of a sleeping thread has passed, a
    tick's watchdog asks for its rescue, and the rescue makes it ready, puts it
    on its home CPU's queue and makes its wait return [-ETIMEDOUT]; before the
    deadline a rescue returns [0]. *)
Theorem timed_wait_ends ncpus stack0 m s i t c now now' :
  reachable ncpus stack0 m s -> thread s i = Some t -> state t = Blocked -> futex_addr t <> 0 ->
  wait_deadline_ns t <> 0 -> wait_timed_out t = false ->
  (wait_deadline_ns t <= now -> RESCUE_REQUESTED (watchdog_one now i s) = <[i := true]> (RESCUE_REQUESTED s)) /\
  exists t' k', let s' := rescue c i now' s in
    thread s' i = Some t' /\ state t' = Ready /\ CPUS s' !! home_cpu t = Some k' /\ i ∈ queue k' /\
    wait_timed_out t' = (wait_deadline_ns t <=? now').
Proof.
  intros Hr Ht Hst Ha Hd Hto. destruct (reachable_inv _ _ _ _ Hr) as [Hi _]. split.
  - intros Hle. unfold watchdog_one. rewrite Ht, Hst. cbn [is_blocked negb].
    rewrite (proj2 (Z.eqb_neq _ _) Ha), (proj2 (Z.eqb_neq _ _) Hd), (proj2 (Z.leb_le _ _) Hle).
    cbn [negb andb orb]. by rewrite orb_true_r.
  - destruct (home_lt s i t Hi Ht) as [k Hk]. pose proof (inv_thread _ Hi i t Ht) as [Htid _ Hh _].
    unfold rescue. rewrite Ht, Hst. cbn [is_blocked]. rewrite (proj2 (Nat.ltb_lt _ _) Hh), Htid.
    rewrite (on_cpu_ext (on_thread i (rescued now') s) _ _ (push_queue i)).
    2:{ intros k0 Hk0. by rewrite (blocked_not_queued s (home_cpu t) k0 i t). }
    set (s1 := on_cpu (home_cpu t) (push_queue i) _). assert (Hth : thread s1 i = Some (rescued now' t)).
    { change (thread s1 i) with (thread (on_thread i (rescued now') s) i). by rewrite thread_on_thread, decide_True, Ht. }
    assert (Hc : CPUS s1 !! home_cpu t = Some (push_queue i k)).
    { unfold s1. rewrite on_cpu_lookup, decide_True by done. cbn. by rewrite Hk. }
    assert (Hto' : wait_timed_out (rescued now' t) = (wait_deadline_ns t <=? now')).
    { cbn. rewrite (proj2 (Z.eqb_neq _ _) Hd), Hto. cbn. by destruct (_ <=? _). }
    assert (Hq : i ∈ queue (push_queue i k)) by (cbn; apply elem_of_app; right; by left).
    destruct (negb _).
    + exists (rescued now' t), (set_ipi true (push_queue i k)). cbv zeta. rewrite on_cpu_lookup, decide_True, Hc by done. done.
    + exists (rescued now' t), (push_queue i k). done.
Qed.

(** ** Runs *)

Definition go (c n : nat) : list label := replicate n (LCpu c Go 7).
(** The end of a system call: 32 rescue flags, the reschedule flag. *)
Definition leave (c : nat) : list label := go c 35.
Definition demo_clone : clone_args := mkClone 1 2 3 0 0 0 4 5.
Definition clone_on_0 : list label := LCpu 0 (Clone demo_clone) 7 :: go 0 10 ++ leave 0.
(** An application processor takes its first thread. *)
Definition first_thread (c : nat) : list label := LIpi c :: go c 36.

(** Blocking enabled, threads 1 and 2 running on CPUs 1 and 2. *)
Definition three_threads : list label :=
  [LCpu 0 (EnableBlocking 1) 7] ++ leave 0 ++ clone_on_0 ++ first_thread 1 ++ clone_on_0 ++ first_thread 2.
(** Thread 0 sleeps on address 64 until time 100, leaving CPU 0 idle. *)
Definition main_sleeps : list label := LCpu 0 (FutexWait 64 0 (Some 100)) 7 :: go 0 8.
Definition zero_mem : mem := fun _ => 0.
Definition boot3 : sched := init 3 0 zero_mem.

Ltac reach ls := split; [vm_compute; lia|exists ls; split; [vm_compute; reflexivity|assumption]].

(** The point CPU [c] is at after a run. *)
Definition point_after (ls : list label) (c : nat) : option pc :=
  s ← run ls boot3; k ← CPUS s !! c; Some (at_pc (exec k)).

Lemma point_after_cpu ls c p s :
  point_after ls c = Some p -> run ls boot3 = Some s -> exists k, CPUS s !! c = Some k /\ at_pc (exec k) = p.
Proof.
  unfold point_after. intros H E. rewrite E in H. cbn [mbind option_bind] in H.
  destruct (CPUS s !! c) as [k|]; [|done]. injection H as <-. by exists k.
Qed.

Definition sleeping : list label := three_threads ++ main_sleeps.

Lemma one_place_per_thread_witness :
  match run sleeping boot3 with
  | Some s => forall i, total (fun k => occ i (places k)) (CPUS s) =
      match thread s i with
      | Some t => match state t with Blocked | Dead => 0 | Ready | Running => 1 end
      | None => 0
      end%nat
  | None => False
  end.
Proof.
  destruct (run sleeping boot3) as [s|] eqn:E; [|vm_compute in E; discriminate E].
  apply (one_place_per_thread 3 0 zero_mem s). reach sleeping.
Defined.

Lemma stacks_never_mixed_witness :
  match run sleeping boot3 with
  | Some s => exists k, CPUS s !! 1%nat = Some k /\ at_pc (exec k) = User 0 /\
      exists i, owner (exec k) = Some i /\ current k = Some i
  | None => False
  end.
Proof.
  destruct (run sleeping boot3) as [s|] eqn:E; [|vm_compute in E; discriminate E].
  destruct (point_after_cpu sleeping 1 (User 0) s ltac:(vm_compute; reflexivity) E) as (k & Hk & Hpc).
  exists k. split; [done|]. split; [done|].
  exact (proj1 (proj2 (stacks_never_mixed 3 0 zero_mem s ltac:(reach sleeping))) 1%nat k 0 Hk Hpc).
Defined.

Lemma locks_exclude_witness :
  match run sleeping boot3 with
  | Some s => forall b, total (fun k => occ b (held (view k))) (CPUS s) = Nat.b2n (locked s b)
  | None => False
  end.
Proof.
  destruct (run sleeping boot3) as [s|] eqn:E; [|vm_compute in E; discriminate E].
  apply (locks_exclude 3 0 zero_mem s). reach sleeping.
Defined.

(** CPU 1 wants the lock that CPU 2 holds. *)
Definition contended : list label :=
  three_threads ++ [LCpu 1 (FutexWake 64 1) 7; LCpu 2 (FutexWake 64 1) 7] ++ go 2 1.

Lemma no_deadlock_witness :
  match run contended boot3 with
  | Some s => exists k, CPUS s !! 1%nat = Some k /\ at_pc (exec k) = WakeLock 64 1 /\
      (enabled s 1 \/ halted (at_pc (exec k)) = true \/
       exists x, x <> 1%nat /\ spins_on s 1 x /\ (enabled s x \/ exists y, y <> x /\ spins_on s x y /\ enabled s y))
  | None => False
  end.
Proof.
  destruct (run contended boot3) as [s|] eqn:E; [|vm_compute in E; discriminate E].
  destruct (point_after_cpu contended 1 (WakeLock 64 1) s ltac:(vm_compute; reflexivity) E) as (k & Hk & Hpc).
  exists k. split; [done|]. split; [done|]. apply (no_deadlock 3 0 zero_mem s ltac:(reach contended) 1%nat k Hk).
Defined.

(** CPU 2 has scanned the table for sleepers on address 64. *)
Definition scanned : list label := sleeping ++ [LCpu 2 (FutexWake 64 5) 7] ++ go 2 34.

Lemma wake_misses_nobody_witness :
  match run scanned boot3 with Some s => forall j, ~ waits_on s j 64 | None => False end.
Proof.
  destruct (run scanned boot3) as [s|] eqn:E; [|vm_compute in E; discriminate E].
  destruct (point_after_cpu scanned 2 (WakeScan 64 5 32 1) s ltac:(vm_compute; reflexivity) E) as (k & Hk & Hpc).
  apply (wake_misses_nobody 3 0 zero_mem s ltac:(reach scanned) 2%nat k 64 5 32%nat 1 Hk Hpc). vm_compute. lia.
Defined.

(** CPU 0 halts, then CPU 2 wakes its thread. *)
Definition halted_with_work : list label :=
  sleeping ++ go 0 35 ++ [LCpu 2 (FutexWake 64 5) 7] ++ go 2 34.

Lemma idle_cpu_is_woken_witness :
  match run halted_with_work boot3 with
  | Some s => exists k, CPUS s !! 0%nat = Some k /\ queue k = [0%nat] /\
      (ipi k = true \/ exists x kx t, CPUS s !! x = Some kx /\ at_pc (exec kx) = SpawnIpi t 0)
  | None => False
  end.
Proof.
  destruct (run halted_with_work boot3) as [s|] eqn:E; [|vm_compute in E; discriminate E].
  destruct (point_after_cpu halted_with_work 0 IdleHlt s ltac:(vm_compute; reflexivity) E) as (k & Hk & Hpc).
  assert (Hq : queue k = [0%nat]).
  { assert (H : (run halted_with_work boot3 ≫= fun s => queue <$> CPUS s !! 0%nat) = Some [0%nat]) by (vm_compute; reflexivity).
    rewrite E in H. cbn [mbind option_bind] in H. rewrite Hk in H. by injection H. }
  exists k. split; [done|]. split; [done|].
  apply (idle_cpu_is_woken 3 0 zero_mem s ltac:(reach halted_with_work) 0%nat k Hk Hpc). by rewrite Hq.
Defined.

Lemma pending_wake_once_witness :
  match run three_threads boot3 with
  | Some s =>
      let '(hit, s2) := pending_wake_consume (futex_bucket 64) 64 (pending_wake_insert (futex_bucket 64) 64 s) in
      hit = true /\ (pending_wake_consume (futex_bucket 64) 64 s2).1 = false
  | None => False
  end.
Proof.
  destruct (run three_threads boot3) as [s|] eqn:E; [|vm_compute in E; discriminate E].
  pose proof (pending_wake_once 3 0 zero_mem s 64 ltac:(reach three_threads) ltac:(done)) as H. cbv zeta in H.
  assert (Hw : (PENDING_WAKES <$> run three_threads boot3) = Some (replicate 16 (replicate 8 0))) by (vm_compute; reflexivity).
  rewrite E in Hw. injection Hw as Hw. rewrite Hw in H. exact H.
Defined.

Lemma timed_wait_ends_witness :
  match run sleeping boot3 with
  | Some s => exists t' k', let s' := rescue 1 0 250 s in
      thread s' 0%nat = Some t' /\ state t' = Ready /\ CPUS s' !! 0%nat = Some k' /\ 0%nat ∈ queue k' /\ wait_timed_out t' = true
  | None => False
  end.
Proof.
  destruct (run sleeping boot3) as [s|] eqn:E; [|vm_compute in E; discriminate E].
  assert (Hb : (run sleeping boot3 ≫= fun s => thread s 0%nat) =
    Some (mkThread 0 Blocked (mkStack (Some 0%nat) (WaitBack 0)) 0 0 0 0 0 64 0 false 0 0 0 100 false 7)) by (vm_compute; reflexivity).
  rewrite E in Hb. cbn [mbind option_bind] in Hb.
  exact (proj2 (timed_wait_ends 3 0 zero_mem s 0 _ 1 200 250 ltac:(reach sleeping) Hb eq_refl ltac:(done) ltac:(done) eq_refl)).
Defined.

(** ** Where the code does less than it says *)

(** Thread 1, leaving a system call, has read that thread 0 sleeps on address 64
    and waits for that bucket; meanwhile thread 2 wakes thread 0, which goes on to
    wait on address 68 and marks itself blocked; then thread 1 goes on. *)
Definition stale_rescue : list label :=
  sleeping ++ [LWatch 0 200; LCpu 1 (Syscall 0) 7] ++ go 1 3 ++
  [LCpu 2 (FutexWake 64 1) 7] ++ go 2 4 ++ go 0 40 ++ leave 0 ++
  [LCpu 0 (FutexWait 68 0 None) 7] ++ go 0 5 ++ go 1 3.

(** [process_rescues] checks the thread's state again under the lock of the
    bucket it read earlier, but not that the thread still waits on that bucket.
    There is a run in which a thread is put on a run queue while its CPU still
    executes it in [futex_wait], with the lock of the other bucket held, which
    the lock hand-over was to exclude; the wait then returns 0 although nobody
    woke it and it had no deadline. *)
Theorem rescue_uses_stale_bucket :
  match run stale_rescue boot3 with
  | Some s =>
      match CPUS s !! 0%nat with
      | Some k => exec k = mkStack (Some 0%nat) (WaitPick (futex_bucket 68) 0) /\ queue k = [0%nat] /\
                  locked s (futex_bucket 68) = true
      | None => False
      end /\
      match run (go 0 4) s with
      | Some s' => (at_pc <$> (exec <$> CPUS s' !! 0%nat)) = Some (Exit 0) /\ load32 (memory s') 68 = 0
      | None => False
      end
  | None => False
  end.
Proof. vm_compute. repeat split. Qed.

(** When the thread table is full, [clone] returns 0 to its caller, which is
    what it returns in a child: no thread is created, and the caller cannot tell
    that it is not the new thread. *)
Theorem clone_when_full s c k a now :
  CPUS s !! c = Some k -> at_pc (exec k) = Spawn a -> 32 <= NEXT_TID s ->
  exists s', cpu_step c Go now s = Some s' /\ THREADS s' = THREADS s /\
    (at_pc <$> (exec <$> CPUS s' !! c)) = Some (Exit 0).
Proof.
  intros Hk Hpc Hn. eexists. unfold cpu_step. rewrite Hk. cbn [mbind option_bind]. rewrite Hpc. unfold spawn_step.
  change (Z.of_nat MAX_THREADS) with 32. rewrite (proj2 (Z.leb_le _ _) Hn).
  split; [done|]. split; [done|]. unfold goto. rewrite on_cpu_lookup, decide_True by done. cbn [CPUS with_counters]. by rewrite Hk.
Qed.

Lemma clone_when_full_witness :
  exists s', cpu_step 0 Go 7 (goto 0 (Spawn demo_clone) (with_counters 32 0 boot3)) = Some s' /\
    THREADS s' = THREADS boot3 /\ (at_pc <$> (exec <$> CPUS s' !! 0%nat)) = Some (Exit 0).
Proof.
  destruct (clone_when_full (goto 0 (Spawn demo_clone) (with_counters 32 0 boot3)) 0
    (set_pc (Spawn demo_clone) (boot_cpu 0 0)) demo_clone 7 eq_refl eq_refl ltac:(cbn; lia)) as (s' & H1 & H2 & H3).
  exists s'. split; [exact H1|]. split; [exact H2|exact H3].
Defined.

(** A [futex_wake] that may wake nobody (count 0) is recorded as a pending
    wake: the next wait on that address returns 0 at once, although its value
    still matches and no wake was meant. *)
Theorem wake_of_none_is_pending :
  match run (three_threads ++ [LCpu 1 (FutexWake 64 0) 7] ++ go 1 3 ++ [LCpu 2 (FutexWait 64 0 None) 7] ++ go 2 3) boot3 with
  | Some s => (at_pc <$> (exec <$> CPUS s !! 1%nat)) = Some (Exit 0) /\
              (at_pc <$> (exec <$> CPUS s !! 2%nat)) = Some (Exit 0) /\ load32 (memory s) 64 = 0
  | None => False
  end.
Proof. vm_compute. repeat split. Qed.
