(* ===== verification/Rtc.v ===== *)
(** * The real-time clock ([src/src/rtc.rs])

    Reading the CMOS clock registers and converting them to Unix time.  The
    registers are an argument: [raws i] is what the [i]-th read of the seven
    registers returns, once no update is in progress.  The conversion is proved
    against the calendar: consecutive days get consecutive numbers, and a date
    written to the registers in any of the clock's four formats comes back. *)

From S2P Require Import Prelude.

Record RawTime := mkRaw {
  r_sec : Z; r_min : Z; r_hour : Z; r_day : Z; r_mon : Z; r_year : Z; r_cent : Z
}.

#[export] Instance RawTime_eq_dec : EqDecision RawTime.
Proof. solve_decision. Defined.

(** Re-read until two reads in a row agree, at most [n] times; [i] is the number
    of the next read. *)
Fixpoint read_stable (raws : nat -> RawTime) (n i : nat) (last : RawTime) : RawTime :=
  match n with
  | O => last
  | S n' =>
      let cur := raws i in
      if decide (cur = last) then last else read_stable raws n' (S i) cur
  end.

Definition is_leap (y : Z) : bool :=
  ((y mod 4 =? 0) && negb (y mod 100 =? 0)) || (y mod 400 =? 0).

Definition MDAYS : list Z := [31; 28; 31; 30; 31; 30; 31; 31; 30; 31; 30; 31].

(** [n] iterations of the year loop from [y]. *)
Fixpoint year_days (n : nat) (y days : Z) : Z :=
  match n with
  | O => days
  | S n' => year_days n' (y + 1) (days + (if is_leap y then 366 else 365))
  end.

(** [n] iterations of the month loop from [m]. *)
Fixpoint month_days (n : nat) (year m days : Z) : Z :=
  match n with
  | O => days
  | S n' =>
      let days := days + nth (Z.to_nat (m - 1)) MDAYS 0 in
      let days := if (m =? 2) && is_leap year then days + 1 else days in
      month_days n' year (m + 1) days
  end.

Definition days_since_epoch (year month day : Z) : Z :=
  let days := year_days (Z.to_nat (year - 1970)) 1970 0 in
  let days := month_days (Z.to_nat (month - 1)) year 1 days in
  days + (day - 1).

(** A register's value: binary-coded decimal or binary. *)
Definition dec (is_bcd : bool) (v : Z) : Z :=
  if is_bcd then Z.land v 15 + Z.land (Z.shiftr v 4) 15 * 10 else v.

Definition decode_hour (is_bcd is_12h : bool) (hour : Z) : Z :=
  if is_12h then
    let pm := negb (Z.land hour 128 =? 0) in
    let h := dec is_bcd (Z.land hour 127) in
    if pm then h mod 12 + 12 else h mod 12
  else dec is_bcd hour.

Definition read_rtc_unix_secs (raws : nat -> RawTime) (status_b : Z) : option Z :=
  let last := read_stable raws 10 1 (raws 0%nat) in
  let is_bcd := Z.land status_b 4 =? 0 in
  let is_12h := Z.land status_b 2 =? 0 in
  let sec := dec is_bcd (r_sec last) in
  let min := dec is_bcd (r_min last) in
  let hour := decode_hour is_bcd is_12h (r_hour last) in
  let day := dec is_bcd (r_day last) in
  let mon := dec is_bcd (r_mon last) in
  let yy := dec is_bcd (r_year last) in
  let cent := dec is_bcd (r_cent last) in
  let year := if (19 <=? cent) && (cent <=? 21) then cent * 100 + yy else 2000 + yy in
  if negb ((1 <=? mon) && (mon <=? 12)) || negb ((1 <=? day) && (day <=? 31)) || (23 <? hour)
     || (59 <? min) || (60 <? sec) || negb ((2020 <=? year) && (year <=? 2100))
  then None
  else Some (days_since_epoch year mon day * 86400 + hour * 3600 + min * 60 + sec).

(** ** The calendar *)

(** The length of a month. *)
Definition month_length (year month : Z) : Z :=
  match month with
  | 1 | 3 | 5 | 7 | 8 | 10 | 12 => 31
  | 4 | 6 | 9 | 11 => 30
  | _ => if is_leap year then 29 else 28
  end.

(** A date of the Gregorian calendar from 1970 on, and the day after it. *)
Definition valid_date (year month day : Z) : Prop :=
  1970 <= year /\ 1 <= month <= 12 /\ 1 <= day <= month_length year month.

Definition next_day (year month day : Z) : Z * Z * Z :=
  if day <? month_length year month then (year, month, day + 1)
  else if month <? 12 then (year, month + 1, 1)
  else (year + 1, 1, 1).

Lemma year_days_acc n y d : year_days n y d = d + year_days n y 0.
Proof. revert y d. induction n as [|n IH]; intros y d; cbn [year_days]; [lia|]. rewrite (IH _ (d + _)), (IH _ (0 + _)). lia. Qed.

Lemma year_days_S n y : year_days (S n) y 0 = year_days n y 0 + (if is_leap (y + Z.of_nat n) then 366 else 365).
Proof.
  revert y. induction n as [|n IH]; intros y; [cbn [year_days]; rewrite Z.add_0_r; lia|].
  cbn [year_days] in *. rewrite year_days_acc, (year_days_acc n), (year_days_acc n (y + 1)).
  specialize (IH (y + 1)). rewrite year_days_acc in IH. replace (y + Z.of_nat (S n)) with (y + 1 + Z.of_nat n) by lia. lia.
Qed.

Lemma month_days_acc n y m d : month_days n y m d = d + month_days n y m 0.
Proof.
  revert m d. induction n as [|n IH]; intros m d; cbn [month_days]; [lia|].
  destruct (_ && _); rewrite (IH _ (_ + _)), (IH _ (0 + _)) || rewrite (IH _ (_ + _ + 1)), (IH _ (0 + _ + 1)); lia.
Qed.

(** Twelve cases of a month number. *)
Lemma month_cases (P : Z -> Prop) m :
  1 <= m <= 12 -> P 1 -> P 2 -> P 3 -> P 4 -> P 5 -> P 6 -> P 7 -> P 8 -> P 9 -> P 10 -> P 11 -> P 12 -> P m.
Proof.
  intros Hm. assert (m = 1 \/ m = 2 \/ m = 3 \/ m = 4 \/ m = 5 \/ m = 6 \/ m = 7 \/ m = 8 \/ m = 9 \/ m = 10 \/ m = 11 \/ m = 12) as H by lia.
  intros. repeat destruct H as [->|H]; subst; done.
Qed.

(** The month loop up to the next month adds this month's length. *)
Lemma month_days_next y m :
  1 <= m <= 12 -> month_days (Z.to_nat m) y 1 0 = month_days (Z.to_nat (m - 1)) y 1 0 + month_length y m.
Proof.
  intros Hm. pattern m. apply month_cases; [done|..]; cbv -[is_leap]; by destruct (is_leap y).
Qed.

Lemma month_days_year y : month_days 12 y 1 0 = if is_leap y then 366 else 365.
Proof. cbv -[is_leap]. by destruct (is_leap y). Qed.

Lemma month_length_range y m : 28 <= month_length y m <= 31.
Proof. unfold month_length. repeat case_match; lia. Qed.

(** The day number counts days.  1970-01-01 is day 0, and for every date of
    the calendar from then on, leap days and century years included, the date of
    the next day has the next number. *)
Theorem days_since_epoch_counts_days year month day :
  valid_date year month day ->
  days_since_epoch 1970 1 1 = 0 /\
  match next_day year month day with
  | (y, m, d) => valid_date y m d /\ days_since_epoch y m d = days_since_epoch year month day + 1
  end.
Proof.
  intros (Hy & Hm & Hd). split; [done|]. unfold next_day.
  pose proof (month_length_range year (month + 1)). pose proof (month_length_range (year + 1) 1).
  unfold days_since_epoch. rewrite (month_days_acc _ year). pose proof (month_days_next year month Hm) as Hnext.
  destruct (Z.ltb_spec day (month_length year month)).
  { split; [unfold valid_date; lia|]. rewrite month_days_acc. lia. }
  destruct (Z.ltb_spec month 12).
  { split; [unfold valid_date; lia|]. rewrite month_days_acc. replace (month + 1 - 1) with month by lia. lia. }
  split; [unfold valid_date; lia|]. assert (month = 12) as -> by lia.
  replace (Z.to_nat (year + 1 - 1970)) with (S (Z.to_nat (year - 1970))) by lia.
  rewrite year_days_S. replace (1970 + Z.of_nat _) with year by lia.
  pose proof (month_days_year year) as Hyear. change (Z.to_nat 12) with 12%nat in Hnext.
  change (Z.to_nat (1 - 1)) with 0%nat. cbn [month_days]. lia.
Qed.

Lemma days_since_epoch_counts_days_witness :
  valid_date 2024 2 29 /\
  (days_since_epoch 1970 1 1 = 0 /\
   match next_day 2024 2 29 with
   | (y, m, d) => valid_date y m d /\ days_since_epoch y m d = days_since_epoch 2024 2 29 + 1
   end).
Proof.
  assert (valid_date 2024 2 29) by (by vm_compute).
  split; [done|]. by apply (days_since_epoch_counts_days 2024 2 29).
Defined.

(** ** The register formats *)

(** What a clock set to a date holds, in the format status register B selects. *)
Definition enc (is_bcd : bool) (v : Z) : Z :=
  if is_bcd then v mod 10 + 16 * (v / 10) else v.

Definition encode_hour (is_bcd is_12h : bool) (h : Z) : Z :=
  if is_12h then
    let h12 := if h mod 12 =? 0 then 12 else h mod 12 in
    enc is_bcd h12 + (if 12 <=? h then 128 else 0)
  else enc is_bcd h.

Definition encode_time (status_b year month day hour min sec : Z) : RawTime :=
  let is_bcd := Z.land status_b 4 =? 0 in
  let is_12h := Z.land status_b 2 =? 0 in
  mkRaw (enc is_bcd sec) (enc is_bcd min) (encode_hour is_bcd is_12h hour) (enc is_bcd day)
        (enc is_bcd month) (enc is_bcd (year mod 100)) (enc is_bcd (year / 100)).

(** Decide a property of the numbers below [n] by running it. *)
Lemma below_check (n : nat) (p : Z -> bool) v :
  forallb p (map Z.of_nat (seq 0 n)) = true -> 0 <= v < Z.of_nat n -> p v = true.
Proof.
  intros H Hv. rewrite forallb_forall in H. apply H. apply in_map_iff.
  exists (Z.to_nat v). split; [lia|]. apply in_seq. lia.
Qed.

Lemma dec_enc b v : 0 <= v < 100 -> dec b (enc b v) = v.
Proof.
  intros Hv. destruct b; [|done]. apply Z.eqb_eq.
  by apply (below_check 100 (fun v => dec true (enc true v) =? v)).
Qed.

Lemma decode_encode_hour b t h : 0 <= h < 24 -> decode_hour b t (encode_hour b t h) = h.
Proof.
  intros Hv. apply Z.eqb_eq.
  apply (below_check 24 (fun h => decode_hour b t (encode_hour b t h) =? h)); [by destruct b, t|done].
Qed.

Lemma read_stable_same raws n i r :
  (forall j, (i <= j)%nat -> raws j = r) -> read_stable raws n i r = r.
Proof. destruct n; intros H; [done|]. cbn [read_stable]. rewrite (H i) by lia. by rewrite decide_True. Qed.

(** The date in the registers comes back.  Whatever of the four formats
    status register B selects (BCD or binary, 12- or 24-hour), a clock that is
    set to a valid date and time of the years 2020 to 2100 and does not tick
    during the read gives its Unix time. *)
Theorem rtc_roundtrip status_b year month day hour min sec :
  2020 <= year <= 2100 -> valid_date year month day ->
  0 <= hour < 24 -> 0 <= min < 60 -> 0 <= sec < 60 ->
  read_rtc_unix_secs (fun _ => encode_time status_b year month day hour min sec) status_b =
  Some (days_since_epoch year month day * 86400 + hour * 3600 + min * 60 + sec).
Proof.
  intros Hy (_ & Hm & Hd) Hh Hmin Hs. pose proof (month_length_range year month).
  assert (0 <= year mod 100 < 100) by (apply Z.mod_pos_bound; lia).
  assert (20 <= year / 100 <= 21) as Hc by (split; [apply Z.div_le_lower_bound|apply Z.div_le_upper_bound]; lia).
  unfold read_rtc_unix_secs. rewrite read_stable_same by done. unfold encode_time.
  cbn [r_sec r_min r_hour r_day r_mon r_year r_cent].
  rewrite !dec_enc, decode_encode_hour by lia.
  rewrite (Z.mul_comm (year / 100)), <- Z.div_mod by lia.
  rewrite (proj2 (Z.leb_le 19 (year / 100))), (proj2 (Z.leb_le (year / 100) 21)) by lia. cbn [andb].
  repeat match goal with |- context [?a <=? ?b] => destruct (Z.leb_spec a b); try lia end.
  by repeat match goal with |- context [?a <? ?b] => destruct (Z.ltb_spec a b); try lia end.
Qed.

Lemma rtc_roundtrip_witness :
  valid_date 2024 2 29 /\
  read_rtc_unix_secs (fun _ => encode_time 0 2024 2 29 23 59 58) 0 =
  Some (days_since_epoch 2024 2 29 * 86400 + 23 * 3600 + 59 * 60 + 58).
Proof.
  assert (valid_date 2024 2 29) by (by vm_compute).
  split; [done|]. by apply (rtc_roundtrip 0 2024 2 29 23 59 58); try lia.
Defined.

(** ** The reads *)

(** What the read loop guarantees: the value is that of two reads in a row, or
    all eleven reads differ from their predecessors and it is the last one. *)
Lemma read_stable_spec raws n i :
  let r := read_stable raws n (S i) (raws i) in
  (exists j, (i <= j < i + n)%nat /\ raws j = r /\ raws (S j) = r) \/
  (r = raws (i + n)%nat /\ forall j, (i <= j < i + n)%nat -> raws (S j) <> raws j).
Proof.
  revert i. induction n as [|n IH]; intros i; cbn [read_stable].
  { right. rewrite Nat.add_0_r. split; [done|lia]. }
  destruct (decide _) as [He|Hne].
  { left. exists i. split; [lia|done]. }
  destruct (IH (S i)) as [(j & Hj & H1 & H2)|[H1 H2]].
  - left. exists j. split; [lia|done].
  - right. split; [rewrite H1; f_equal; lia|]. intros j Hj.
    destruct (decide (j = i)) as [->|]; [done|]. apply H2. lia.
Qed.
