(* ===== verification/Clock.v ===== *)
(** * Time ([src/src/syscall.rs], lines 2023-2301)

    The kernel's clock: the time-stamp counter (TSC) of each CPU, corrected by
    its measured offset and scaled to nanoseconds, behind a global ratchet; the
    wall clock seeded from the real-time clock; [clock_gettime]; the one timer
    descriptor.  The statics are a record.  A call of [monotonic_ns] is one step
    at its [fetch_max] on [LAST_TIME_NS]; what [rdtsc] returned and the CPU the
    call ran on are arguments, so the theorems hold for every interleaving of
    calls and every reading.  The [serial_println!] logs are left out. *)

From S2P Require Import Prelude.
From S2P Require Import Rtc.

Record clock := mkClock {
  TSC_FREQ_HZ : Z;
  TSC_OFFSETS : list Z;
  LAST_TIME_NS : Z;
  LAST_RETURNED_PER_CPU : list Z;
  REPORTED : Z;
  WALL_OFFSET_NS : Z;
  TIMERFD_DEADLINE_NS : Z
}.

(** The statics at load time. *)
Definition boot_clock : clock := mkClock 2000000000 (replicate 16 0) 0 (replicate 16 0) 0 0 0.

(** A reading: the raw TSC and the CPU (its APIC number). *)
Record reading := mkReading { raw_tsc : Z; on : Z }.

Definition set_freq (c : clock) (v : Z) : clock :=
  mkClock v (TSC_OFFSETS c) (LAST_TIME_NS c) (LAST_RETURNED_PER_CPU c) (REPORTED c) (WALL_OFFSET_NS c) (TIMERFD_DEADLINE_NS c).
Definition set_offset (c : clock) (cpu v : Z) : clock :=
  mkClock (TSC_FREQ_HZ c) (<[Z.to_nat cpu := v]> (TSC_OFFSETS c)) (LAST_TIME_NS c) (LAST_RETURNED_PER_CPU c) (REPORTED c) (WALL_OFFSET_NS c) (TIMERFD_DEADLINE_NS c).
Definition set_last (c : clock) (v : Z) : clock :=
  mkClock (TSC_FREQ_HZ c) (TSC_OFFSETS c) v (LAST_RETURNED_PER_CPU c) (REPORTED c) (WALL_OFFSET_NS c) (TIMERFD_DEADLINE_NS c).
Definition set_returned (c : clock) (cpu v : Z) : clock :=
  mkClock (TSC_FREQ_HZ c) (TSC_OFFSETS c) (LAST_TIME_NS c) (<[Z.to_nat cpu := v]> (LAST_RETURNED_PER_CPU c)) (REPORTED c) (WALL_OFFSET_NS c) (TIMERFD_DEADLINE_NS c).
Definition set_reported (c : clock) (v : Z) : clock :=
  mkClock (TSC_FREQ_HZ c) (TSC_OFFSETS c) (LAST_TIME_NS c) (LAST_RETURNED_PER_CPU c) v (WALL_OFFSET_NS c) (TIMERFD_DEADLINE_NS c).
Definition set_wall (c : clock) (v : Z) : clock :=
  mkClock (TSC_FREQ_HZ c) (TSC_OFFSETS c) (LAST_TIME_NS c) (LAST_RETURNED_PER_CPU c) (REPORTED c) v (TIMERFD_DEADLINE_NS c).
Definition set_deadline (c : clock) (v : Z) : clock :=
  mkClock (TSC_FREQ_HZ c) (TSC_OFFSETS c) (LAST_TIME_NS c) (LAST_RETURNED_PER_CPU c) (REPORTED c) (WALL_OFFSET_NS c) v.

(** [TSC_OFFSETS[cpu]] and [LAST_RETURNED_PER_CPU[cpu]], for [cpu < 16]. *)
Definition offset_of (c : clock) (cpu : Z) : Z :=
  if cpu <? 16 then nth (Z.to_nat cpu) (TSC_OFFSETS c) 0 else 0.
Definition last_returned (c : clock) (cpu : Z) : Z := nth (Z.to_nat cpu) (LAST_RETURNED_PER_CPU c) 0.

(** [(raw_tsc as i64 + offset) as u64] and its conversion to nanoseconds. *)
Definition corrected_tsc (c : clock) (r : reading) : Z := u64 (i64 (raw_tsc r) + offset_of c (on r)).

Definition tsc_ns (freq tsc : Z) : Z :=
  let freq_mhz := freq / 1000000 in
  if 0 <? freq_mhz then u64 (tsc * 1000) / freq_mhz else tsc / 2.

Definition monotonic_ns (r : reading) (c : clock) : Z * clock :=
  let total_ns := tsc_ns (TSC_FREQ_HZ c) (corrected_tsc c r) in
  let prev := LAST_TIME_NS c in
  let c := set_last c (Z.max prev total_ns) in
  let result := Z.max prev total_ns in
  if on r <? 16 then
    let last := last_returned c (on r) in
    let c := if result <? last then set_reported c (u64 (REPORTED c + 1)) else c in
    (result, set_returned c (on r) (Z.max last result))
  else (result, c).

(** [calibrate_tsc], from the two readings around the timer's 10 ms. *)
Definition calibrate_tsc (tsc_start tsc_end : Z) (c : clock) : clock :=
  let pit_count := 11932 in
  let tsc_ticks := u64 (tsc_end - tsc_start) in
  set_freq c (u64 (tsc_ticks * 1193182) / pit_count).

(** [measure_tsc_offset], from the three pairs of readings (boot CPU, other CPU)
    its rounds collect; [sort] and the middle element. *)
Definition measure_tsc_offset (cpu_id : Z) (rounds : list (Z * Z)) (c : clock) : outcome clock :=
  let offsets := (fun '(bsp_tsc, ap_tsc) => i64 (i64 bsp_tsc - i64 ap_tsc)) <$> rounds in
  if cpu_id <? 16 then Ret (set_offset c cpu_id (nth 1 (merge_sort Z.le offsets) 0)) else Panic.

Definition seed_wall_clock (raws : nat -> RawTime) (status_b : Z) (r : reading) (c : clock) : clock :=
  match read_rtc_unix_secs raws status_b with
  | Some secs =>
      let wall_ns := sat_mul secs 1000000000 in
      let '(mono, c) := monotonic_ns r c in
      set_wall c (sat_sub wall_ns mono)
  | None => c
  end.

Definition realtime_ns (r : reading) (c : clock) : Z * clock :=
  let '(mono, c) := monotonic_ns r c in (u64 (mono + WALL_OFFSET_NS c), c).

Definition sys_clock_gettime (clk_id tp : Z) (r : reading) (c : clock) (m : mem) : Z * clock * mem :=
  if tp =? 0 then (-22, c, m)
  else
    let '(ns, c) := if (clk_id =? 0) || (clk_id =? 5) then realtime_ns r c else monotonic_ns r c in
    let m := store64 m tp (ns / 1000000000) in
    let m := store64 m (tp + 8) (ns mod 1000000000) in
    (0, c, m).

Definition sys_timerfd_settime (flags new_value_ptr : Z) (m : mem) (r : reading) (c : clock) : Z * clock :=
  if new_value_ptr =? 0 then (0, set_deadline c 0)
  else
    let it_value_sec := load64 m (u64 (new_value_ptr + 16)) in
    let it_value_nsec := load64 m (u64 (new_value_ptr + 24)) in
    if (it_value_sec =? 0) && (it_value_nsec =? 0) then (0, set_deadline c 0)
    else
      let dur_ns := sat_add (sat_mul it_value_sec 1000000000) it_value_nsec in
      if negb (Z.land flags 1 =? 0) then (0, set_deadline c dur_ns)
      else let '(now, c) := monotonic_ns r c in (0, set_deadline c (sat_add now dur_ns)).

Definition timerfd_ready (r : reading) (c : clock) : bool * clock :=
  let deadline := TIMERFD_DEADLINE_NS c in
  if deadline =? 0 then (false, c)
  else let '(now, c) := monotonic_ns r c in (deadline <=? now, c).

Definition timerfd_consume (r : reading) (c : clock) : Z * clock :=
  let deadline := TIMERFD_DEADLINE_NS c in
  if deadline =? 0 then (0, c)
  else
    let '(now, c) := monotonic_ns r c in
    if deadline <=? now then (1, set_deadline c 0) else (0, c).

(** ** Calls in any order

    [crun] performs a sequence of operations and lists the values [monotonic_ns]
    returned, whoever called it. *)

Inductive cop :=
| CMono (r : reading)
| CCalibrate (tsc_start tsc_end : Z)
| CMeasure (cpu : Z) (rounds : list (Z * Z))
| CSeed (raws : nat -> RawTime) (status_b : Z) (r : reading)
| CGettime (clk_id tp : Z) (r : reading) (m : mem)
| CSettime (flags ptr : Z) (m : mem) (r : reading)
| CReady (r : reading)
| CConsume (r : reading).

Definition cexec (o : cop) (c : clock) : clock :=
  match o with
  | CMono r => snd (monotonic_ns r c)
  | CCalibrate t0 t1 => calibrate_tsc t0 t1 c
  | CMeasure cpu rounds => match measure_tsc_offset cpu rounds c with Ret c' => c' | _ => c end
  | CSeed raws b r => seed_wall_clock raws b r c
  | CGettime clk tp r m => (sys_clock_gettime clk tp r c m).1.2
  | CSettime flags ptr m r => (sys_timerfd_settime flags ptr m r c).2
  | CReady r => (timerfd_ready r c).2
  | CConsume r => (timerfd_consume r c).2
  end.

(** The value a [CMono] in the sequence returns. *)
Definition cvalue (o : cop) (c : clock) : option Z :=
  match o with CMono r => Some (fst (monotonic_ns r c)) | _ => None end.

Fixpoint crun (os : list cop) (c : clock) : list Z * clock :=
  match os with
  | [] => ([], c)
  | o :: os' =>
      let '(vs, c') := crun os' (cexec o c) in
      (match cvalue o c with Some v => v :: vs | None => vs end, c')
  end.

(** ** The ratchet *)

Definition cinv (c : clock) : Prop :=
  (forall cpu, last_returned c cpu <= LAST_TIME_NS c) /\ REPORTED c = 0.

Lemma last_returned_insert c cpu v cpu' :
  last_returned (set_returned c cpu v) cpu' = v \/
  last_returned (set_returned c cpu v) cpu' = last_returned c cpu'.
Proof.
  unfold last_returned, set_returned; cbn [LAST_RETURNED_PER_CPU]. rewrite !nth_lookup.
  destruct (decide (Z.to_nat cpu' = Z.to_nat cpu)) as [->|Hne]; [|rewrite list_lookup_insert_ne by done; auto].
  destruct (decide (Z.to_nat cpu < length (LAST_RETURNED_PER_CPU c))%nat).
  - rewrite list_lookup_insert_eq by done. by left.
  - rewrite list_insert_ge by lia. by right.
Qed.

Lemma mono_last r c : LAST_TIME_NS (monotonic_ns r c).2 = (monotonic_ns r c).1.
Proof. unfold monotonic_ns. repeat case_match; done. Qed.

Lemma mono_value r c :
  (monotonic_ns r c).1 = Z.max (LAST_TIME_NS c) (tsc_ns (TSC_FREQ_HZ c) (corrected_tsc c r)).
Proof. unfold monotonic_ns. by case_match. Qed.

Lemma mono_ge r c : LAST_TIME_NS c <= (monotonic_ns r c).1.
Proof. rewrite mono_value. lia. Qed.

Lemma mono_frame r c :
  let c' := (monotonic_ns r c).2 in
  TSC_FREQ_HZ c' = TSC_FREQ_HZ c /\ TSC_OFFSETS c' = TSC_OFFSETS c /\
  WALL_OFFSET_NS c' = WALL_OFFSET_NS c /\ TIMERFD_DEADLINE_NS c' = TIMERFD_DEADLINE_NS c.
Proof. unfold monotonic_ns. repeat case_match; done. Qed.

Lemma mono_inv r c : cinv c -> cinv (monotonic_ns r c).2.
Proof.
  intros [Hl Hr]. pose proof (mono_ge r c) as Hge. pose proof (mono_last r c) as Hlast. split.
  - intros cpu. rewrite Hlast. revert Hge. unfold monotonic_ns.
    pose proof (Hl (on r)). pose proof (Hl cpu).
    repeat (case_match; cbn [fst snd] in *); intros Hge;
      try (match goal with |- last_returned (set_returned ?c ?k ?v) _ <= _ =>
        destruct (last_returned_insert c k v cpu) as [-> | ->] end);
      unfold last_returned in *; cbn [LAST_RETURNED_PER_CPU set_last set_reported] in *; lia.
  - unfold monotonic_ns. pose proof (Hl (on r)). destruct (on r <? 16); [|done].
    destruct (Z.ltb_spec (Z.max (LAST_TIME_NS c) (tsc_ns (TSC_FREQ_HZ c) (corrected_tsc c r)))
      (last_returned (set_last c (Z.max (LAST_TIME_NS c) (tsc_ns (TSC_FREQ_HZ c) (corrected_tsc c r)))) (on r))); [|done].
    unfold last_returned in *; cbn [LAST_RETURNED_PER_CPU set_last] in *; lia.
Qed.

(** Every operation leaves the ratchet as it is or reads the clock. *)
Lemma cexec_cases o c :
  exists c', ((c' = c) \/ exists r, c' = (monotonic_ns r c).2) /\
  LAST_TIME_NS (cexec o c) = LAST_TIME_NS c' /\
  LAST_RETURNED_PER_CPU (cexec o c) = LAST_RETURNED_PER_CPU c' /\ REPORTED (cexec o c) = REPORTED c'.
Proof.
  destruct o; cbn [cexec]; unfold calibrate_tsc, measure_tsc_offset, seed_wall_clock, sys_clock_gettime,
    realtime_ns, sys_timerfd_settime, timerfd_ready, timerfd_consume;
  repeat (case_match; simplify_eq/=);
  try (exists c; split; [by left|done]);
  match goal with
  | H : monotonic_ns ?r c = (_, ?d) |- _ => exists d; split; [right; exists r; by rewrite H|done]
  | r : reading |- _ => exists (monotonic_ns r c).2; split; [right; by exists r|done]
  end.
Qed.

Lemma cexec_inv o c : cinv c -> cinv (cexec o c) /\ LAST_TIME_NS c <= LAST_TIME_NS (cexec o c).
Proof.
  intros Hc. destruct (cexec_cases o c) as (c' & Hc' & H1 & H2 & H3).
  assert (cinv c' /\ LAST_TIME_NS c <= LAST_TIME_NS c') as [[Hl Hr] Hle].
  { destruct Hc' as [->|[r ->]]; [by split|]. split; [by apply mono_inv|]. rewrite mono_last. apply mono_ge. }
  unfold cinv, last_returned in *. rewrite H1, H2, H3. auto.
Qed.

Lemma crun_sorted os c :
  cinv c ->
  StronglySorted Z.le (crun os c).1 /\ Forall (Z.le (LAST_TIME_NS c)) (crun os c).1 /\ cinv (crun os c).2.
Proof.
  revert c. induction os as [|o os IH]; intros c Hc; cbn [crun].
  { split; [constructor|split; [constructor|done]]. }
  destruct (cexec_inv o c Hc) as [Hi Hle]. specialize (IH _ Hi).
  destruct (crun os (cexec o c)) as [vs c'] eqn:E. cbn [fst snd] in *. destruct IH as (Hs & Hf & Hi').
  assert (Forall (Z.le (LAST_TIME_NS c)) vs) by (eapply Forall_impl; [done|]; cbn; lia).
  split; [|split; [|done]].
  - destruct o; try done. cbn [cvalue cexec] in *. rewrite mono_last in Hf. by constructor.
  - destruct o; try done. cbn [cvalue]. constructor; [apply mono_ge|done].
Qed.

(** C32: the clock never goes back.  However calls interleave over the CPUs, and
    whatever the counters read (skewed, wrapped, jumping back), whatever the
    calibration and the offsets are set to in between, the values
    [monotonic_ns] returns never decrease, and the diagnostic for a decrease
    never fires. *)
Theorem clock_never_goes_back os :
  StronglySorted Z.le (crun os boot_clock).1 /\ REPORTED (crun os boot_clock).2 = 0.
Proof.
  assert (cinv boot_clock) as H.
  { split; [|done]. intros cpu. unfold last_returned, boot_clock; cbn [LAST_RETURNED_PER_CPU LAST_TIME_NS].
    rewrite nth_lookup. destruct (_ !! _) as [v|] eqn:E; [|done]. apply lookup_replicate in E as [-> _]. done. }
  destruct (crun_sorted os _ H) as (? & _ & _ & ?). done.
Qed.

(** ** Accuracy

    [reading_at c t cpu] is what CPU [cpu] reads when the boot CPU's counter is
    at [t], if the offset recorded for it is right. *)

Definition reading_at (c : clock) (t : Z * Z) : reading := mkReading (u64 (t.1 - offset_of c t.2)) t.2.

Definition mhz (c : clock) : Z := TSC_FREQ_HZ c / 1000000.

Lemma u64_i64_add a d : u64 (i64 a + d) = u64 (a + d).
Proof.
  unfold u64, i64. pose proof (Z.div_mod (a + 2 ^ 63) (2 ^ 64) ltac:(lia)) as H.
  replace (a + d) with ((a + 2 ^ 63) mod 2 ^ 64 - 2 ^ 63 + d + (a + 2 ^ 63) / 2 ^ 64 * 2 ^ 64) by lia.
  symmetry. apply Z_mod_plus_full.
Qed.

Lemma corrected_at c c' t :
  0 <= t.1 < 2 ^ 64 -> TSC_OFFSETS c' = TSC_OFFSETS c -> corrected_tsc c' (reading_at c t) = t.1.
Proof.
  intros Ht Ho. unfold corrected_tsc, reading_at, offset_of; cbn [raw_tsc on]. rewrite Ho, u64_i64_add.
  unfold u64. rewrite Zplus_mod_idemp_l, Z.sub_add. by apply Z.mod_small.
Qed.

Lemma tsc_ns_exact c t :
  0 < mhz c -> 0 <= t -> t * 1000 < 2 ^ 64 -> tsc_ns (TSC_FREQ_HZ c) t = t * 1000 / mhz c.
Proof.
  intros Hm Ht Hw. unfold tsc_ns, mhz in *. rewrite (proj2 (Z.ltb_lt _ _)) by done. by rewrite u64_small by lia.
Qed.

(** Scaling by whole megahertz runs at most one part in [mhz] fast, never slow. *)
Lemma scale_bounds c t ns :
  0 < mhz c -> 0 <= t -> ns = t * 1000 / mhz c ->
  t * 10 ^ 9 < (ns + 1) * TSC_FREQ_HZ c /\ ns * TSC_FREQ_HZ c * mhz c <= t * 10 ^ 9 * (mhz c + 1).
Proof.
  intros Hm Ht ->. unfold mhz in *. set (f := TSC_FREQ_HZ c) in *.
  pose proof (Z.div_mod f 1000000 ltac:(lia)). pose proof (Z.mod_pos_bound f 1000000 ltac:(lia)).
  set (q := f / 1000000) in *. set (r := f mod 1000000) in *. clearbody q r.
  pose proof (Z.div_mod (t * 1000) q ltac:(lia)). pose proof (Z.mod_pos_bound (t * 1000) q ltac:(lia)).
  set (n := t * 1000 / q) in *. set (k := (t * 1000) mod q) in *. clearbody n k.
  assert (0 <= n) by nia. split; nia.
Qed.

Lemma crun_mono_times c c' ts :
  TSC_FREQ_HZ c' = TSC_FREQ_HZ c -> TSC_OFFSETS c' = TSC_OFFSETS c -> 0 < mhz c ->
  StronglySorted (fun t t' => t.1 <= t'.1) ts ->
  Forall (fun t => 0 <= t.1 /\ t.1 * 1000 < 2 ^ 64 /\ LAST_TIME_NS c' <= t.1 * 1000 / mhz c) ts ->
  (crun (CMono <$> (reading_at c <$> ts)) c').1 = (fun t => t.1 * 1000 / mhz c) <$> ts.
Proof.
  intros Hf Ho Hm. revert c' Hf Ho. induction ts as [|t ts IH]; intros c' Hf Ho Hs Ht; [done|].
  apply Forall_cons in Ht as [(H0 & Hw & Hl) Ht]. apply StronglySorted_inv in Hs as [Hs Hle].
  cbn [fmap list_fmap crun cvalue cexec].
  assert ((monotonic_ns (reading_at c t) c').1 = t.1 * 1000 / mhz c) as Hv.
  { rewrite mono_value, Hf, corrected_at, tsc_ns_exact by (done || lia). lia. }
  destruct (mono_frame (reading_at c t) c') as (F1 & F2 & _).
  specialize (IH (monotonic_ns (reading_at c t) c').2 ltac:(congruence) ltac:(congruence) Hs).
  destruct (crun _ _) as [vs c2] eqn:E. cbn [fst] in *. rewrite Hv. f_equal. apply IH.
  rewrite mono_last, Hv. rewrite Forall_forall in *. intros t' Hin.
  destruct (Ht t' Hin) as (? & ? & _). specialize (Hle t' Hin). cbn in Hle.
  split; [done|split; [done|]]. apply Z.div_le_mono; lia.
Qed.

(** The clock tells the time.  When the recorded offsets are right, readings
    at nondecreasing times, on whichever CPU, return those times in nanoseconds,
    rounded down, as long as the scaled counter fits 64 bits; against the
    calibrated frequency the clock is never a nanosecond slow and at most one
    part in its megahertz fast. *)
Theorem monotonic_tracks_time c ts :
  0 < mhz c ->
  StronglySorted (fun t t' => t.1 <= t'.1) ts ->
  Forall (fun t => 0 <= t.1 /\ t.1 * 1000 < 2 ^ 64 /\ LAST_TIME_NS c <= t.1 * 1000 / mhz c) ts ->
  Forall2 (fun t ns => ns = t.1 * 1000 / mhz c /\ t.1 * 10 ^ 9 < (ns + 1) * TSC_FREQ_HZ c /\
                       ns * TSC_FREQ_HZ c * mhz c <= t.1 * 10 ^ 9 * (mhz c + 1))
    ts (crun (CMono <$> (reading_at c <$> ts)) c).1.
Proof.
  intros Hm Hs Ht. rewrite (crun_mono_times c c ts) by done.
  apply Forall2_fmap_r, Forall_Forall2_diag. eapply Forall_impl; [done|].
  intros t (H0 & _). cbn. split; [done|]. by apply scale_bounds.
Qed.

Lemma monotonic_tracks_time_witness :
  0 < mhz boot_clock /\
  Forall2 (fun t ns => ns = t.1 * 1000 / mhz boot_clock /\ t.1 * 10 ^ 9 < (ns + 1) * TSC_FREQ_HZ boot_clock /\
                       ns * TSC_FREQ_HZ boot_clock * mhz boot_clock <= t.1 * 10 ^ 9 * (mhz boot_clock + 1))
    [(3000, 0); (5001, 3)] (crun (CMono <$> (reading_at boot_clock <$> [(3000, 0); (5001, 3)])) boot_clock).1.
Proof.
  split; [done|]. apply (monotonic_tracks_time boot_clock [(3000, 0); (5001, 3)]); [done|..].
  - repeat constructor; cbn; lia.
  - repeat constructor; by vm_compute.
Defined.

(** The clock stops.  The scaled counter is a 64-bit product: when it passes
    2^64 (at 2 GHz, after 106 days up) the next readings, for as long as the
    system had been up, all return the last value from before. *)
Theorem clock_stops_at_wrap c t t' :
  0 < mhz c -> 0 <= t.1 -> LAST_TIME_NS c <= t.1 * 1000 / mhz c ->
  t.1 * 1000 < 2 ^ 64 <= t'.1 * 1000 -> t'.1 * 1000 - 2 ^ 64 <= t.1 * 1000 ->
  (crun [CMono (reading_at c t); CMono (reading_at c t')] c).1 = [t.1 * 1000 / mhz c; t.1 * 1000 / mhz c].
Proof.
  intros Hm H0 Hl Hw Hw'. cbn [crun cvalue cexec fst].
  assert ((monotonic_ns (reading_at c t) c).1 = t.1 * 1000 / mhz c) as Hv.
  { rewrite mono_value, corrected_at, tsc_ns_exact by (done || lia). lia. }
  rewrite Hv. f_equal. f_equal. destruct (mono_frame (reading_at c t) c) as (F1 & F2 & _).
  rewrite mono_value, mono_last, Hv, F1, corrected_at by (done || lia).
  apply Z.max_l. unfold tsc_ns, mhz in *. rewrite (proj2 (Z.ltb_lt _ _)) by done.
  apply Z.div_le_mono; [done|]. unfold u64.
  replace (t'.1 * 1000) with (t'.1 * 1000 - 2 ^ 64 + 1 * 2 ^ 64) by lia.
  rewrite Z_mod_plus_full, Z.mod_small by lia. done.
Qed.

Lemma clock_stops_at_wrap_witness :
  (crun [CMono (reading_at boot_clock (18446744073709551, 0));
         CMono (reading_at boot_clock (18446744073709551 + 8640000000000, 0))] boot_clock).1 =
  [18446744073709551 * 1000 / mhz boot_clock; 18446744073709551 * 1000 / mhz boot_clock].
Proof.
  apply (clock_stops_at_wrap boot_clock (18446744073709551, 0) (18446744073709551 + 8640000000000, 0));
    by vm_compute.
Defined.

(** ** The timer *)

(** Successive reads of the timer descriptor. *)
Fixpoint consumes (rs : list reading) (c : clock) : list Z :=
  match rs with
  | [] => []
  | r :: rs' => let '(n, c) := timerfd_consume r c in n :: consumes rs' c
  end.

(** One expiration, at the first value that has reached the deadline. *)
Fixpoint fires (deadline : Z) (values : list Z) : list Z :=
  match values with
  | [] => []
  | v :: vs => if deadline <=? v then 1 :: replicate (length vs) 0 else 0 :: fires deadline vs
  end.

Lemma consumes_disarmed rs c : TIMERFD_DEADLINE_NS c = 0 -> consumes rs c = replicate (length rs) 0.
Proof.
  intros H. induction rs as [|r rs IH]; [done|]. cbn [consumes]. unfold timerfd_consume. rewrite H. cbn.
  by rewrite IH.
Qed.

Lemma crun_mono_length rs c : length (crun (CMono <$> rs) c).1 = length rs.
Proof.
  revert c. induction rs as [|r rs IH]; intros c; [done|]. cbn [fmap list_fmap crun cvalue cexec].
  specialize (IH (monotonic_ns r c).2). destruct (crun _ _). cbn in *. lia.
Qed.

Lemma consumes_fires rs c :
  TIMERFD_DEADLINE_NS c <> 0 ->
  consumes rs c = fires (TIMERFD_DEADLINE_NS c) (crun (CMono <$> rs) c).1.
Proof.
  revert c. induction rs as [|r rs IH]; intros c Hd; [done|]. cbn [consumes fmap list_fmap crun cvalue cexec].
  unfold timerfd_consume. rewrite (proj2 (Z.eqb_neq _ _) Hd).
  destruct (mono_frame r c) as (_ & _ & _ & Hf). pose proof (crun_mono_length rs (monotonic_ns r c).2) as Hlen.
  destruct (monotonic_ns r c) as [now c1]. cbn [fst snd] in *.
  specialize (IH c1 ltac:(congruence)). destruct (crun _ _) as [vs c2]. cbn [fst] in *. cbn [fires].
  destruct (_ <=? _).
  - rewrite consumes_disarmed by done. by rewrite Hlen.
  - by rewrite IH, Hf.
Qed.

(** What [timerfd_settime] is asked for. *)
Definition timer_value (m : mem) (ptr : Z) : Z :=
  sat_add (sat_mul (load64 m (u64 (ptr + 16))) 1000000000) (load64 m (u64 (ptr + 24))).

(** The timer expires once.  Armed with a nonzero value, relative to the
    clock or absolute, the timer descriptor reads 0 until the clock reaches the
    deadline, 1 at the first read from then on, and 0 after that until it is
    armed again. *)
Theorem timerfd_fires_once flags ptr m r rs c :
  ptr <> 0 -> 0 <= LAST_TIME_NS c -> 0 < timer_value m ptr ->
  let '(res, c') := sys_timerfd_settime flags ptr m r c in
  let deadline := if Z.land flags 1 =? 0 then sat_add (monotonic_ns r c).1 (timer_value m ptr)
                  else timer_value m ptr in
  res = 0 /\ consumes rs c' = fires deadline (crun (CMono <$> rs) c').1.
Proof.
  intros Hp Hl Hv. unfold sys_timerfd_settime. rewrite (proj2 (Z.eqb_neq _ _) Hp).
  pose proof (load64_range m (u64 (ptr + 16))) as H1. pose proof (load64_range m (u64 (ptr + 24))) as H2.
  destruct (_ && _) eqn:Ez.
  { apply andb_true_iff in Ez as [E1%Z.eqb_eq E2%Z.eqb_eq]. unfold timer_value in Hv. rewrite E1, E2 in Hv. done. }
  fold (timer_value m ptr). pose proof (mono_ge r c). destruct (monotonic_ns r c) as [now c1].
  destruct (Z.land flags 1 =? 0); cbn [negb fst] in *; (split; [done|]); rewrite consumes_fires; try done;
    cbn [TIMERFD_DEADLINE_NS set_deadline]; unfold sat_add, U64_MAX in *; lia.
Qed.

(** A request for 2 seconds and 5 nanoseconds at address 4096. *)
Definition demo_timer : mem := store64 (store64 (fun _ => 0) 4112 2) 4120 5.

Lemma timerfd_fires_once_witness :
  match sys_timerfd_settime 0 4096 demo_timer (mkReading 1000 0) boot_clock with
  | (res, c') =>
      res = 0 /\
      consumes [mkReading 2000 0; mkReading 4000001010 1; mkReading 4000001020 0] c' =
      fires (sat_add (monotonic_ns (mkReading 1000 0) boot_clock).1 (timer_value demo_timer 4096))
        (crun (CMono <$> [mkReading 2000 0; mkReading 4000001010 1; mkReading 4000001020 0]) c').1
  end.
Proof.
  apply (timerfd_fires_once 0 4096 demo_timer (mkReading 1000 0)
    [mkReading 2000 0; mkReading 4000001010 1; mkReading 4000001020 0] boot_clock); [done|done|by vm_compute].
Defined.

(** ** The wall clock *)

Definition no_seed (o : cop) : Prop := match o with CSeed _ _ _ => False | _ => True end.

Lemma cexec_wall o c : no_seed o -> WALL_OFFSET_NS (cexec o c) = WALL_OFFSET_NS c.
Proof.
  destruct o; cbn [no_seed cexec]; try done; intros _;
    unfold measure_tsc_offset, sys_clock_gettime, realtime_ns, sys_timerfd_settime, timerfd_ready, timerfd_consume;
    repeat match goal with
    | |- context [monotonic_ns ?r c] =>
        pose proof (mono_frame r c) as (_ & _ & ? & _); destruct (monotonic_ns r c) as [? ?]; cbn [fst snd] in *
    end; repeat (case_match; simplify_eq/=); done.
Qed.

Lemma crun_wall os c : Forall no_seed os -> WALL_OFFSET_NS (crun os c).2 = WALL_OFFSET_NS c.
Proof.
  revert c. induction os as [|o os IH]; intros c H; [done|]. apply Forall_cons in H as [Ho H].
  cbn [crun]. specialize (IH (cexec o c) H). destruct (crun os _). cbn [snd] in *. rewrite IH. by apply cexec_wall.
Qed.

(** The nanoseconds [clock_gettime] stored. *)
Definition timespec (m : mem) (tp : Z) : Z := load64 m tp * 1000000000 + load64 m (tp + 8).

Lemma timespec_stored m tp ns :
  0 <= ns < 2 ^ 64 ->
  timespec (store64 (store64 m tp (ns / 1000000000)) (tp + 8) (ns mod 1000000000)) tp = ns.
Proof.
  intros Hn. pose proof (Z.div_mod ns 1000000000 ltac:(lia)).
  pose proof (Z.mod_pos_bound ns 1000000000 ltac:(lia)).
  assert (0 <= ns / 1000000000 < 2 ^ 64) by (split; [apply Z.div_pos|apply Z.div_lt_upper_bound]; lia).
  unfold timespec. rewrite load64_store64 by lia. unfold load64 at 1, store64 at 1.
  rewrite mem_read_write_disjoint by (autorewrite with kernel; cbn; lia).
  fold (load64 (store64 m tp (ns / 1000000000)) tp). rewrite load64_store64 by done. lia.
Qed.

(** The wall clock follows the real-time clock.  Once seeded with the time
    [secs] of the real-time clock, after any calls, [clock_gettime] with
    [CLOCK_REALTIME] stores that time plus what the monotonic clock has counted
    since; with [CLOCK_MONOTONIC] it stores the monotonic clock itself. *)
Theorem realtime_follows_rtc raws status_b r os r' tp m c secs :
  tp <> 0 -> Forall no_seed os -> read_rtc_unix_secs raws status_b = Some secs ->
  0 <= LAST_TIME_NS c -> (monotonic_ns r c).1 <= secs * 10 ^ 9 < 2 ^ 64 ->
  let c' := (crun os (seed_wall_clock raws status_b r c)).2 in
  let now := (monotonic_ns r' c').1 in
  0 <= now < 2 ^ 64 -> now + secs * 10 ^ 9 - (monotonic_ns r c).1 < 2 ^ 64 ->
  let '(res0, _, m0) := sys_clock_gettime 0 tp r' c' m in
  let '(res1, _, m1) := sys_clock_gettime 1 tp r' c' m in
  res0 = 0 /\ timespec m0 tp = secs * 10 ^ 9 + (now - (monotonic_ns r c).1) /\
  res1 = 0 /\ timespec m1 tp = now.
Proof.
  intros Htp Hos Hrtc Hl Hs c' now Hnow Hr.
  assert (WALL_OFFSET_NS c' = secs * 10 ^ 9 - (monotonic_ns r c).1) as Hw.
  { unfold c'. rewrite crun_wall by done. unfold seed_wall_clock. rewrite Hrtc.
    destruct (monotonic_ns r c) as [mono c1]. cbn in *. unfold sat_sub, sat_mul, U64_MAX. lia. }
  destruct (mono_frame r' c') as (_ & _ & Hw' & _). pose proof (mono_ge r c).
  unfold sys_clock_gettime, realtime_ns. rewrite (proj2 (Z.eqb_neq _ _) Htp). cbn [Z.eqb Pos.eqb orb].
  subst now. destruct (monotonic_ns r' c') as [v c2]. cbn [fst snd] in *.
  rewrite !timespec_stored by (apply u64_range || done). split_and!; try done.
  rewrite Hw', Hw, u64_small; lia.
Qed.

Lemma realtime_follows_rtc_witness :
  let raws := fun _ => encode_time 2 2024 2 29 23 59 58 in
  let c' := (crun [CConsume (mkReading 5000 0)] (seed_wall_clock raws 2 (mkReading 4000 0) boot_clock)).2 in
  let '(res0, _, m0) := sys_clock_gettime 0 4096 (mkReading 9000 0) c' (fun _ => 0) in
  let '(res1, _, m1) := sys_clock_gettime 1 4096 (mkReading 9000 0) c' (fun _ => 0) in
  res0 = 0 /\ timespec m0 4096 = 1709251198 * 10 ^ 9 +
    ((monotonic_ns (mkReading 9000 0) c').1 - (monotonic_ns (mkReading 4000 0) boot_clock).1) /\
  res1 = 0 /\ timespec m1 4096 = (monotonic_ns (mkReading 9000 0) c').1.
Proof.
  apply (realtime_follows_rtc (fun _ => encode_time 2 2024 2 29 23 59 58) 2 (mkReading 4000 0)
    [CConsume (mkReading 5000 0)] (mkReading 9000 0) 4096 (fun _ => 0) boot_clock 1709251198); try by vm_compute.
  by repeat constructor.
Defined.
