(* ===== verification/Virtq.v ===== *)
(** * Virtqueues ([src/virtio-drivers-patched/src/queue.rs], [queue/owning.rs])

    The split virtqueue through which the network driver and the device exchange
    buffers: the descriptor table with its free list threaded through the
    driver's shadow copy, the available ring the driver writes and the used ring
    the device writes, direct and indirect chains, and the queue that owns its
    buffers.

    The shared memory is three fields, [desc], [avail] and [used]; [desc_shadow]
    is private.  The device may overwrite [desc], [avail] and [used] at will: the
    driver reads only [used].  The hardware abstraction layer is the class [Hal]:
    the address it answers may depend on the whole history of calls, which
    [hal_log] records. *)

From S2P Require Import Prelude.

(** ** The driver's types *)

Inductive SocketError :=
| ConnectionExists | NotConnected | PeerSocketShutdown | BufferTooShort | OutputBufferTooShort (n : Z)
| BufferTooLong (n max : Z) | UnknownOperation (op : Z) | InvalidOperation | InvalidNumber
| UnexpectedDataInPacket | InsufficientBufferSpaceInPeer | RecycledWrongBuffer.

Inductive Error :=
| QueueFull | NotReady | WrongToken | AlreadyUsed | InvalidParam | DmaError | IoError
| Unsupported | ConfigSpaceTooSmall | ConfigSpaceMissing | SocketDeviceError (e : SocketError).

#[export] Instance SocketError_eq_dec : EqDecision SocketError.
Proof. solve_decision. Defined.
#[export] Instance Error_eq_dec : EqDecision Error.
Proof. solve_decision. Defined.

Inductive Result (A : Type) : Type :=
| Ok (a : A)
| Err (e : Error).
Arguments Ok {A} a.
Arguments Err {A} e.

Inductive BufferDirection := DriverToDevice | DeviceToDriver | Both.

(** A pointer to a slice. *)
Record Buffer := mkBuf { buf_ptr : Z; buf_len : Z }.

#[export] Instance BufferDirection_eq_dec : EqDecision BufferDirection.
Proof. solve_decision. Defined.
#[export] Instance Buffer_eq_dec : EqDecision Buffer.
Proof. solve_decision. Defined.

(** Calls of the hardware abstraction layer, with the addresses it answered. *)
Inductive hal_event :=
| DmaAlloc (pages : Z) (direction : BufferDirection) (paddr vaddr : Z)
| DmaDealloc (paddr vaddr pages : Z)
| Share (buffer : Buffer) (direction : BufferDirection) (paddr : Z)
| Unshare (paddr : Z) (buffer : Buffer) (direction : BufferDirection).

Class Hal := {
  hal_dma_alloc : list hal_event -> Z -> BufferDirection -> Z * Z;
  hal_dma_dealloc : list hal_event -> Z -> Z -> Z -> Z;
  hal_share : list hal_event -> Buffer -> BufferDirection -> Z;
  (** the address of a heap allocation *)
  hal_box : list hal_event -> Z -> Z
}.

Definition PAGE_SIZE : Z := 4096.
Definition align_up (size : Z) : Z := and_not (u64 (size + PAGE_SIZE)) (PAGE_SIZE - 1).
Definition pages (size : Z) : Z := (size + PAGE_SIZE - 1) / PAGE_SIZE.

(** ** Descriptors *)

Record Descriptor := mkDesc { d_addr : Z; d_len : Z; d_flags : Z; d_next : Z }.

Definition zero_desc : Descriptor := mkDesc 0 0 0 0.

(** [DescFlags], with the operations of [bitflags]. *)
Definition NEXT : Z := 1.
Definition WRITE : Z := 2.
Definition INDIRECT : Z := 4.
Definition contains (flags f : Z) : bool := Z.land flags f =? f.
Definition remove (flags f : Z) : Z := Z.ldiff flags f.

Definition set_next (d : Descriptor) (n : Z) : Descriptor := mkDesc (d_addr d) (d_len d) (d_flags d) n.
Definition set_flags (d : Descriptor) (f : Z) : Descriptor := mkDesc (d_addr d) (d_len d) f (d_next d).

Definition set_buf `{Hal} (log : list hal_event) (d : Descriptor) (buf : Buffer)
    (direction : BufferDirection) (extra_flags : Z) : outcome (Descriptor * list hal_event) :=
  let paddr := hal_share log buf direction in
  let log := log ++ [Share buf direction paddr] in
  if 2 ^ 32 <=? buf_len buf then Panic
  else
    match direction with
    | DeviceToDriver => Ret (mkDesc paddr (buf_len buf) (Z.lor extra_flags WRITE) (d_next d), log)
    | DriverToDevice => Ret (mkDesc paddr (buf_len buf) (Z.lor extra_flags 0) (d_next d), log)
    | Both => Panic
    end.

Definition unset_buf (d : Descriptor) : Descriptor := mkDesc 0 0 (d_flags d) (d_next d).

Definition next (d : Descriptor) : option Z :=
  if contains (d_flags d) NEXT then Some (d_next d) else None.

(** ** The queue *)

Record AvailRing := mkAvail { av_flags : Z; av_idx : Z; av_ring : list Z; used_event : Z }.
Record UsedRing := mkUsed { us_flags : Z; us_idx : Z; us_ring : list (Z * Z); avail_event : Z }.

Record VirtQueue := mkQueue {
  desc : list Descriptor;
  avail : AvailRing;
  used : UsedRing;
  queue_idx : Z;
  num_used : Z;
  free_head : Z;
  desc_shadow : list Descriptor;
  avail_idx : Z;
  last_used_idx : Z;
  event_idx : bool;
  indirect : bool;
  indirect_lists : list (option (Z * list Descriptor));
  hal_log : list hal_event
}.

Definition set_desc (q : VirtQueue) v : VirtQueue :=
  mkQueue v (avail q) (used q) (queue_idx q) (num_used q) (free_head q) (desc_shadow q) (avail_idx q)
    (last_used_idx q) (event_idx q) (indirect q) (indirect_lists q) (hal_log q).
Definition set_avail (q : VirtQueue) v : VirtQueue :=
  mkQueue (desc q) v (used q) (queue_idx q) (num_used q) (free_head q) (desc_shadow q) (avail_idx q)
    (last_used_idx q) (event_idx q) (indirect q) (indirect_lists q) (hal_log q).
Definition set_num_used (q : VirtQueue) v : VirtQueue :=
  mkQueue (desc q) (avail q) (used q) (queue_idx q) v (free_head q) (desc_shadow q) (avail_idx q)
    (last_used_idx q) (event_idx q) (indirect q) (indirect_lists q) (hal_log q).
Definition set_free_head (q : VirtQueue) v : VirtQueue :=
  mkQueue (desc q) (avail q) (used q) (queue_idx q) (num_used q) v (desc_shadow q) (avail_idx q)
    (last_used_idx q) (event_idx q) (indirect q) (indirect_lists q) (hal_log q).
Definition set_shadow (q : VirtQueue) v : VirtQueue :=
  mkQueue (desc q) (avail q) (used q) (queue_idx q) (num_used q) (free_head q) v (avail_idx q)
    (last_used_idx q) (event_idx q) (indirect q) (indirect_lists q) (hal_log q).
Definition set_avail_idx (q : VirtQueue) v : VirtQueue :=
  mkQueue (desc q) (avail q) (used q) (queue_idx q) (num_used q) (free_head q) (desc_shadow q) v
    (last_used_idx q) (event_idx q) (indirect q) (indirect_lists q) (hal_log q).
Definition set_last_used_idx (q : VirtQueue) v : VirtQueue :=
  mkQueue (desc q) (avail q) (used q) (queue_idx q) (num_used q) (free_head q) (desc_shadow q) (avail_idx q)
    v (event_idx q) (indirect q) (indirect_lists q) (hal_log q).
Definition set_indirect_lists (q : VirtQueue) v : VirtQueue :=
  mkQueue (desc q) (avail q) (used q) (queue_idx q) (num_used q) (free_head q) (desc_shadow q) (avail_idx q)
    (last_used_idx q) (event_idx q) (indirect q) v (hal_log q).
Definition set_log (q : VirtQueue) v : VirtQueue :=
  mkQueue (desc q) (avail q) (used q) (queue_idx q) (num_used q) (free_head q) (desc_shadow q) (avail_idx q)
    (last_used_idx q) (event_idx q) (indirect q) (indirect_lists q) v.

(** Array accesses: an index out of range panics. *)
Definition get {A} (l : list A) (i : Z) : outcome A :=
  match l !! Z.to_nat i with Some x => Ret x | None => Panic end.
Definition put {A} (l : list A) (i : Z) (x : A) : outcome (list A) :=
  if decide (Z.to_nat i < length l)%nat then Ret (<[Z.to_nat i := x]> l) else Panic.

(** ** Layout *)

Record Dma := mkDma { dma_paddr : Z; dma_base : Z; dma_pages : Z }.

Inductive VirtQueueLayout :=
| Legacy (dma : Dma) (avail_offset used_offset : Z)
| Modern (driver_to_device_dma device_to_driver_dma : Dma) (avail_offset : Z).

Definition Dma_new `{Hal} (n : Z) (direction : BufferDirection) (log : list hal_event) :
    Result Dma * list hal_event :=
  let '(paddr, vaddr) := hal_dma_alloc log n direction in
  let log := log ++ [DmaAlloc n direction paddr vaddr] in
  (if paddr =? 0 then Err DmaError else Ok (mkDma paddr vaddr n), log).

(** [Drop for Dma]: a failed deallocation panics. *)
Definition Dma_drop `{Hal} (d : Dma) (log : list hal_event) : outcome (list hal_event) :=
  let err := hal_dma_dealloc log (dma_paddr d) (dma_base d) (dma_pages d) in
  if err =? 0 then Ret (log ++ [DmaDealloc (dma_paddr d) (dma_base d) (dma_pages d)]) else Panic.

Definition dma_vaddr (d : Dma) (offset : Z) : outcome Z :=
  if offset <? u64 (dma_pages d * PAGE_SIZE) then
    let p := u64 (dma_base d + offset) in if p =? 0 then Panic else Ret p
  else Panic.

(** [is_power_of_two] of a [u16]. *)
Definition is_power_of_two (n : Z) : bool := (0 <? n) && (Z.land n (n - 1) =? 0).

Definition queue_part_sizes (queue_size : Z) : outcome (Z * Z * Z) :=
  if is_power_of_two queue_size then
    Ret (16 * queue_size, 2 * (3 + queue_size), 2 * 3 + 8 * queue_size)
  else Panic.

Definition allocate_legacy `{Hal} (queue_size : Z) (log : list hal_event) :
    outcome (Result VirtQueueLayout * list hal_event) :=
  do! (d, a, u) <- queue_part_sizes queue_size;
  let size := u64 (align_up (d + a) + align_up u) in
  let '(r, log) := Dma_new (size / PAGE_SIZE) Both log in
  match r with
  | Err e => Ret (Err e, log)
  | Ok dma => Ret (Ok (Legacy dma d (align_up (d + a))), log)
  end.

Definition allocate_flexible `{Hal} (queue_size : Z) (log : list hal_event) :
    outcome (Result VirtQueueLayout * list hal_event) :=
  do! (d, a, u) <- queue_part_sizes queue_size;
  let '(r, log) := Dma_new (pages (d + a)) DriverToDevice log in
  match r with
  | Err e => Ret (Err e, log)
  | Ok dma1 =>
      let '(r, log) := Dma_new (pages u) DeviceToDriver log in
      match r with
      | Err e => do! log <- Dma_drop dma1 log; Ret (Err e, log)
      | Ok dma2 => Ret (Ok (Modern dma1 dma2 d), log)
      end
  end.

Definition descriptors_paddr (l : VirtQueueLayout) : Z :=
  match l with Legacy dma _ _ => dma_paddr dma | Modern d _ _ => dma_paddr d end.
Definition driver_area_paddr (l : VirtQueueLayout) : Z :=
  match l with
  | Legacy dma avail_offset _ => u64 (dma_paddr dma + avail_offset)
  | Modern d _ avail_offset => u64 (dma_paddr d + avail_offset)
  end.
Definition device_area_paddr (l : VirtQueueLayout) : Z :=
  match l with
  | Legacy dma _ used_offset => u64 (dma_paddr dma + used_offset)
  | Modern _ d _ => dma_paddr d
  end.
Definition descriptors_vaddr (l : VirtQueueLayout) : outcome Z :=
  match l with Legacy dma _ _ => dma_vaddr dma 0 | Modern d _ _ => dma_vaddr d 0 end.
Definition avail_vaddr (l : VirtQueueLayout) : outcome Z :=
  match l with
  | Legacy dma avail_offset _ => dma_vaddr dma avail_offset
  | Modern d _ avail_offset => dma_vaddr d avail_offset
  end.
Definition used_vaddr (l : VirtQueueLayout) : outcome Z :=
  match l with
  | Legacy dma _ used_offset => dma_vaddr dma used_offset
  | Modern _ d _ => dma_vaddr d 0
  end.

(** ** Operations

    [SIZE] is the constant parameter of the type. *)

Section operations.
Context `{Hal} (SIZE : Z).

(** What [new] asks of the transport, and the call of [queue_set] it makes. *)
Record Transport := mkTransport { queue_used : bool; max_queue_size : Z; requires_legacy_layout : bool }.
Record QueueSet := mkQueueSet { qs_idx : Z; qs_size : Z; qs_descriptors : Z; qs_driver_area : Z; qs_device_area : Z }.

(** The links [i.next = i + 1] for [i < SIZE - 1] over zeroed descriptors. *)
Definition linked : list Descriptor :=
  (fun i => if Z.of_nat i <? SIZE - 1 then set_next zero_desc (Z.of_nat i + 1) else zero_desc) <$> seq 0 (Z.to_nat SIZE).

Definition new (transport : Transport) (idx : Z) (indirect event_idx : bool) (log : list hal_event) :
    outcome (Result (VirtQueue * QueueSet)) :=
  if queue_used transport then Ret (Err AlreadyUsed)
  else if max_queue_size transport <? SIZE then Ret (Err InvalidParam)
  else
    do! (r, log) <- if requires_legacy_layout transport then allocate_legacy SIZE log
                    else allocate_flexible SIZE log;
    match r with
    | Err e => Ret (Err e)
    | Ok layout =>
        let set := mkQueueSet idx SIZE (descriptors_paddr layout) (driver_area_paddr layout)
                     (device_area_paddr layout) in
        do! _ <- descriptors_vaddr layout;
        do! _ <- avail_vaddr layout;
        do! _ <- used_vaddr layout;
        Ret (Ok (mkQueue linked (mkAvail 0 0 (replicate (Z.to_nat SIZE) 0) 0)
                   (mkUsed 0 0 (replicate (Z.to_nat SIZE) (0, 0)) 0)
                   idx 0 0 linked 0 0 event_idx indirect (replicate (Z.to_nat SIZE) None) log, set))
    end.

(** Copies the descriptor at [index] from [desc_shadow] to [desc]. *)
Definition write_desc (index : Z) (q : VirtQueue) : outcome VirtQueue :=
  do! d <- get (desc_shadow q) index;
  do! ds <- put (desc q) index d;
  Ret (set_desc q ds).

(** [InputOutputIter]: the inputs, then the outputs. *)
Definition input_output (inputs outputs : list Buffer) : list (Buffer * BufferDirection) :=
  ((fun x => (x, DriverToDevice)) <$> inputs) ++ ((fun x => (x, DeviceToDriver)) <$> outputs).

(** The loop of [add_direct]; [last] is the last descriptor filled. *)
Fixpoint add_direct_loop (bufs : list (Buffer * BufferDirection)) (last : Z) (q : VirtQueue) :
    outcome (Z * VirtQueue) :=
  match bufs with
  | [] => Ret (last, q)
  | (buffer, direction) :: bufs' =>
      if buf_len buffer =? 0 then Panic
      else
        do! d <- get (desc_shadow q) (free_head q);
        do! (d, log) <- set_buf (hal_log q) d buffer direction NEXT;
        let last := free_head q in
        do! sh <- put (desc_shadow q) last d;
        let q := set_free_head (set_log (set_shadow q sh) log) (d_next d) in
        do! q <- write_desc last q;
        add_direct_loop bufs' last q
  end.

Definition add_direct (inputs outputs : list Buffer) (q : VirtQueue) : outcome (Z * VirtQueue) :=
  let head := free_head q in
  do! (last, q) <- add_direct_loop (input_output inputs outputs) (free_head q) q;
  do! d <- get (desc_shadow q) last;
  do! sh <- put (desc_shadow q) last (set_flags d (remove (d_flags d) NEXT));
  do! q <- write_desc last (set_shadow q sh);
  Ret (head, set_num_used q (u16 (num_used q + u16 (zlen inputs + zlen outputs)))).

(** The indirect list: descriptor [i] for the [i]-th buffer. *)
Fixpoint fill_indirect (bufs : list (Buffer * BufferDirection)) (i : Z) (log : list hal_event) :
    outcome (list Descriptor * list hal_event) :=
  match bufs with
  | [] => Ret ([], log)
  | (buffer, direction) :: bufs' =>
      do! (d, log) <- set_buf log zero_desc buffer direction NEXT;
      let d := set_next d (u16 (i + 1)) in
      do! (ds, log) <- fill_indirect bufs' (i + 1) log;
      Ret (d :: ds, log)
  end.

(** [last_mut().unwrap().flags.remove(NEXT)]. *)
Fixpoint clear_last (ds : list Descriptor) : outcome (list Descriptor) :=
  match ds with
  | [] => Panic
  | [d] => Ret [set_flags d (remove (d_flags d) NEXT)]
  | d :: ds' => do! ds' <- clear_last ds'; Ret (d :: ds')
  end.

Definition add_indirect (inputs outputs : list Buffer) (q : VirtQueue) : outcome (Z * VirtQueue) :=
  let head := free_head q in
  let n := zlen inputs + zlen outputs in
  let box := hal_box (hal_log q) (16 * n) in
  do! (ds, log) <- fill_indirect (input_output inputs outputs) 0 (hal_log q);
  do! ds <- clear_last ds;
  do! old <- get (indirect_lists q) head;
  match old with
  | Some _ => Panic
  | None =>
      do! lists <- put (indirect_lists q) head (Some (box, ds));
      do! d <- get (desc_shadow q) head;
      do! (d', log) <- set_buf log d (mkBuf box (16 * n)) DriverToDevice INDIRECT;
      do! sh <- put (desc_shadow q) head d';
      let q := set_free_head (set_log (set_shadow (set_indirect_lists q lists) sh) log) (d_next d) in
      do! q <- write_desc head q;
      Ret (head, set_num_used q (u16 (num_used q + 1)))
  end.

Definition add (inputs outputs : list Buffer) (q : VirtQueue) : outcome (Result Z * VirtQueue) :=
  if decide (inputs = [] /\ outputs = []) then Ret (Err InvalidParam, q)
  else
    let descriptors_needed := zlen inputs + zlen outputs in
    if (SIZE <? num_used q + 1) || (SIZE <? descriptors_needed)
       || (negb (indirect q) && (SIZE <? num_used q + descriptors_needed))
    then Ret (Err QueueFull, q)
    else
      do! (head, q) <- if indirect q && (1 <? descriptors_needed) then add_indirect inputs outputs q
                       else add_direct inputs outputs q;
      let avail_slot := Z.land (avail_idx q) (SIZE - 1) in
      do! ring <- put (av_ring (avail q)) avail_slot head;
      let q := set_avail q (mkAvail (av_flags (avail q)) (av_idx (avail q)) ring (used_event (avail q))) in
      let q := set_avail_idx q (u16 (avail_idx q + 1)) in
      let q := set_avail q (mkAvail (av_flags (avail q)) (avail_idx q) (av_ring (avail q)) (used_event (avail q))) in
      Ret (Ok head, q).

Definition set_dev_notify (enable : bool) (q : VirtQueue) : VirtQueue :=
  let avail_ring_flags := if enable then 0 else 1 in
  if negb (event_idx q) then
    set_avail q (mkAvail avail_ring_flags (av_idx (avail q)) (av_ring (avail q)) (used_event (avail q)))
  else q.

Definition should_notify (q : VirtQueue) : bool :=
  if event_idx q then u16 (avail_event (used q) + 1) <=? avail_idx q
  else Z.land (us_flags (used q)) 1 =? 0.

Definition can_pop (q : VirtQueue) : bool := negb (last_used_idx q =? us_idx (used q)).

Definition peek_used (q : VirtQueue) : outcome (option Z) :=
  if can_pop q then
    let last_used_slot := Z.land (last_used_idx q) (SIZE - 1) in
    do! e <- get (us_ring (used q)) last_used_slot;
    Ret (Some (u16 (fst e)))
  else Ret None.

Definition available_desc (q : VirtQueue) : Z :=
  if indirect q then (if num_used q =? SIZE then 0 else SIZE)
  else u64 (SIZE - num_used q).

(** The loop of [recycle_descriptors] over a direct chain. *)
Fixpoint recycle_loop (bufs : list (Buffer * BufferDirection)) (nxt : option Z) (original_free_head : Z)
    (q : VirtQueue) : outcome (option Z * VirtQueue) :=
  match bufs with
  | [] => Ret (nxt, q)
  | (buffer, direction) :: bufs' =>
      if buf_len buffer =? 0 then Panic
      else
        match nxt with
        | None => Panic
        | Some desc_index =>
            do! d <- get (desc_shadow q) desc_index;
            let paddr := d_addr d in
            let d := unset_buf d in
            let nxt := next d in
            let d := match nxt with None => set_next d original_free_head | Some _ => d end in
            do! sh <- put (desc_shadow q) desc_index d;
            let q := set_shadow (set_num_used q (u16 (num_used q - 1))) sh in
            do! q <- write_desc desc_index q;
            let q := set_log q (hal_log q ++ [Unshare paddr buffer direction]) in
            recycle_loop bufs' nxt original_free_head q
        end
  end.

(** The loop over the buffers of an indirect list. *)
Fixpoint unshare_indirect (bufs : list (Buffer * BufferDirection)) (ds : list Descriptor)
    (log : list hal_event) : outcome (list hal_event) :=
  match bufs, ds with
  | [], _ => Ret log
  | (buffer, direction) :: bufs', d :: ds' =>
      if buf_len buffer =? 0 then Panic
      else unshare_indirect bufs' ds' (log ++ [Unshare (d_addr d) buffer direction])
  | _ :: _, [] => Panic
  end.

Definition recycle_descriptors (head : Z) (inputs outputs : list Buffer) (q : VirtQueue) : outcome VirtQueue :=
  let original_free_head := free_head q in
  let q := set_free_head q head in
  do! head_desc <- get (desc_shadow q) head;
  if contains (d_flags head_desc) INDIRECT then
    do! taken <- get (indirect_lists q) head;
    do! lists <- put (indirect_lists q) head None;
    match taken with
    | None => Panic
    | Some (box, indirect_list) =>
        let paddr := d_addr head_desc in
        let d := set_next (unset_buf head_desc) original_free_head in
        do! sh <- put (desc_shadow q) head d;
        let q := set_shadow (set_num_used (set_indirect_lists q lists) (u16 (num_used q - 1))) sh in
        let log := hal_log q ++ [Unshare paddr (mkBuf box (16 * zlen indirect_list)) DriverToDevice] in
        if zlen indirect_list =? zlen inputs + zlen outputs then
          do! log <- unshare_indirect (input_output inputs outputs) indirect_list log;
          Ret (set_log q log)
        else Panic
    end
  else
    do! (nxt, q) <- recycle_loop (input_output inputs outputs) (Some head) original_free_head q;
    match nxt with Some _ => Panic | None => Ret q end.

Definition pop_used (token : Z) (inputs outputs : list Buffer) (q : VirtQueue) : outcome (Result Z * VirtQueue) :=
  if negb (can_pop q) then Ret (Err NotReady, q)
  else
    let last_used_slot := Z.land (last_used_idx q) (SIZE - 1) in
    do! (id, len) <- get (us_ring (used q)) last_used_slot;
    let index := u16 id in
    if negb (index =? token) then Ret (Err WrongToken, q)
    else
      do! q <- recycle_descriptors index inputs outputs q;
      let q := set_last_used_idx q (u16 (last_used_idx q + 1)) in
      let q := if event_idx q
               then set_avail q (mkAvail (av_flags (avail q)) (av_idx (avail q)) (av_ring (avail q)) (last_used_idx q))
               else q in
      Ret (Ok len, q).

(** The wait of [add_notify_wait_pop]: [seen] are the states of the used ring at
    its successive looks. *)
Fixpoint wait_pop (seen : list UsedRing) (q : VirtQueue) : outcome VirtQueue :=
  match seen with
  | [] => OutOfFuel
  | u :: seen' =>
      let q := mkQueue (desc q) (avail q) u (queue_idx q) (num_used q) (free_head q) (desc_shadow q)
                 (avail_idx q) (last_used_idx q) (event_idx q) (indirect q) (indirect_lists q) (hal_log q) in
      if can_pop q then Ret q else wait_pop seen' q
  end.

(** The [bool] tells whether the transport is notified. *)
Definition add_notify_wait_pop (inputs outputs : list Buffer) (seen : list UsedRing) (q : VirtQueue) :
    outcome (Result Z * bool * VirtQueue) :=
  do! (r, q) <- add inputs outputs q;
  match r with
  | Err e => Ret (Err e, false, q)
  | Ok token =>
      let notify := should_notify q in
      do! q <- wait_pop seen q;
      do! (r, q) <- pop_used token inputs outputs q;
      Ret (r, notify, q)
  end.

(** ** The owning queue

    [buffers] are the addresses of its [SIZE] boxes of [BUFFER_SIZE] bytes. *)

Record OwningQueue := mkOwning { queue : VirtQueue; buffers : list Z }.

Fixpoint owning_new_loop (BUFFER_SIZE : Z) (n : nat) (i : Z) (q : VirtQueue) (bufs : list Z) :
    outcome (Result OwningQueue) :=
  match n with
  | O => Ret (Ok (mkOwning q bufs))
  | S n' =>
      let buffer := hal_box (hal_log q) BUFFER_SIZE in
      do! (r, q) <- add [] [mkBuf buffer BUFFER_SIZE] q;
      match r with
      | Err e => Ret (Err e)
      | Ok token => if i =? token then owning_new_loop BUFFER_SIZE n' (i + 1) q (bufs ++ [buffer]) else Panic
      end
  end.

Definition owning_new (BUFFER_SIZE : Z) (q : VirtQueue) : outcome (Result OwningQueue) :=
  owning_new_loop BUFFER_SIZE (Z.to_nat SIZE) 0 q [].

(** The [bool] tells whether the transport is notified. *)
Definition add_buffer_to_queue (BUFFER_SIZE index : Z) (o : OwningQueue) : outcome (Result bool * OwningQueue) :=
  match buffers o !! Z.to_nat index with
  | None => Ret (Err WrongToken, o)
  | Some buffer =>
      do! (r, q) <- add [] [mkBuf buffer BUFFER_SIZE] (queue o);
      match r with
      | Err e => Ret (Err e, mkOwning q (buffers o))
      | Ok new_token =>
          if new_token =? index then Ret (Ok (should_notify q), mkOwning q (buffers o)) else Panic
      end
  end.

(** [pop]: the bytes [0..len] of a buffer, and its token. *)
Definition pop (BUFFER_SIZE : Z) (o : OwningQueue) : outcome (Result (option (Buffer * Z)) * OwningQueue) :=
  do! t <- peek_used (queue o);
  match t with
  | None => Ret (Ok None, o)
  | Some token =>
      do! buffer <- get (buffers o) token;
      do! (r, q) <- pop_used token [] [mkBuf buffer BUFFER_SIZE] (queue o);
      match r with
      | Err e => Ret (Err e, mkOwning q (buffers o))
      | Ok len =>
          if len <=? BUFFER_SIZE then Ret (Ok (Some (mkBuf buffer len, token)), mkOwning q (buffers o))
          else Panic
      end
  end.

(** [poll]: [handler] sees the bytes the device wrote; its result is returned
    once the buffer is back in the queue. *)
Definition poll {T} (BUFFER_SIZE : Z) (handler : Buffer -> Result (option T)) (o : OwningQueue) :
    outcome (Result (option T) * OwningQueue) :=
  do! (r, o) <- pop BUFFER_SIZE o;
  match r with
  | Err e => Ret (Err e, o)
  | Ok None => Ret (Ok None, o)
  | Ok (Some (buffer, token)) =>
      let result := handler buffer in
      do! (r, o) <- add_buffer_to_queue BUFFER_SIZE token o;
      match r with
      | Err e => Ret (Err e, o)
      | Ok _ => Ret (result, o)
      end
  end.

(** ** The device

    It reads the descriptors the driver published and writes the used ring.
    [device_chain] follows a chain from [head] as the device does: the address,
    the length and the writability of each buffer; [fuel] bounds the chain. *)

Definition device_writable (d : Descriptor) : bool := contains (d_flags d) WRITE.

Fixpoint device_chain (fuel : nat) (table : list Descriptor) (head : Z) : option (list (Z * Z * bool)) :=
  match fuel with
  | O => None
  | S fuel' =>
      match table !! Z.to_nat head with
      | None => None
      | Some d =>
          match next d with
          | None => Some [(d_addr d, d_len d, device_writable d)]
          | Some n => cons (d_addr d, d_len d, device_writable d) <$> device_chain fuel' table n
          end
      end
  end.

(** The buffers of the request at [head]: the chain in the table, or the chain in
    the indirect list, which lies at the address of the descriptor. *)
Definition device_request (q : VirtQueue) (head : Z) : option (list (Z * Z * bool)) :=
  d ← desc q !! Z.to_nat head;
  if contains (d_flags d) INDIRECT then
    match indirect_lists q !! Z.to_nat head with
    | Some (Some (_, ds)) => if d_len d =? 16 * zlen ds then device_chain (length ds) ds 0 else None
    | _ => None
    end
  else device_chain (Z.to_nat SIZE) (desc q) head.

(** What the device may do to the queue: anything in the memory it shares. *)
Definition device_writes (desc' : list Descriptor) (avail' : AvailRing) (used' : UsedRing) (q : VirtQueue) : VirtQueue :=
  mkQueue desc' avail' used' (queue_idx q) (num_used q) (free_head q) (desc_shadow q) (avail_idx q)
    (last_used_idx q) (event_idx q) (indirect q) (indirect_lists q) (hal_log q).
End operations.
