(* ===== verification/VirtqInv.v ===== *)
(** * Virtqueues: the invariant

    The free list and the chains in flight partition the descriptor table.  The
    invariant speaks of the driver's private state only, so no write of the
    device can break it.  This file proves that [add] and [pop_used] keep it. *)

From S2P Require Import Prelude.
From S2P Require Import Virtq.

(** ** Chains *)

(** A buffer with its direction and the address it was shared at. *)
Abbreviation sbuf := (Buffer * BufferDirection * Z)%type.

Definition wflag (direction : BufferDirection) : Z :=
  match direction with DeviceToDriver => WRITE | _ => 0 end.

Definition filled (flags : Z) (s : sbuf) (n : Z) : Descriptor :=
  mkDesc s.2 (buf_len s.1.1) (Z.lor flags (wflag s.1.2)) n.

Definition share_event (s : sbuf) : hal_event := Share s.1.1 s.1.2 s.2.
Definition unshare_event (s : sbuf) : hal_event := Unshare s.2 s.1.1 s.1.2.

Definition buffer_ok (x : Buffer * BufferDirection) : Prop := 0 < buf_len x.1 < 2 ^ 32 /\ x.2 <> Both.

(** [cells] is the list that [d_next] threads from [head]. *)
Fixpoint free_chain (sh : list Descriptor) (head : Z) (cells : list nat) : Prop :=
  match cells with
  | [] => True
  | c :: cells' => head = Z.of_nat c /\ exists d, sh !! c = Some d /\ free_chain sh (d_next d) cells'
  end.

(** The buffers [bs] lie in the chain [cells]; [lf] is the flag of the last. *)
Fixpoint chain (lf : Z) (sh : list Descriptor) (cells : list nat) (bs : list sbuf) : Prop :=
  match cells, bs with
  | [], [] => True
  | c :: cells', s :: bs' =>
      (exists n, sh !! c = Some (filled (match cells' with [] => lf | _ => NEXT end) s n) /\
                 forall c', head cells' = Some c' -> n = Z.of_nat c') /\
      chain lf sh cells' bs'
  | _, _ => False
  end.

Lemma free_chain_ext sh sh' h cells :
  (forall c, c ∈ cells -> sh' !! c = sh !! c) -> free_chain sh h cells -> free_chain sh' h cells.
Proof.
  revert h. induction cells as [|c cells IH]; intros h He; cbn; [done|]. intros [-> (d & Hd & Hc)].
  split; [done|]. exists d. rewrite He by left. split; [done|]. apply IH; [|done]. intros; apply He; by right.
Qed.

Lemma chain_ext lf sh sh' cells bs :
  (forall c, c ∈ cells -> sh' !! c = sh !! c) -> chain lf sh cells bs -> chain lf sh' cells bs.
Proof.
  revert bs. induction cells as [|c cells IH]; intros [|s bs] He; cbn; try done. intros [(n & Hn & Hc) Hr].
  split; [exists n; by rewrite He by left|]. apply IH; [|done]. intros; apply He; by right.
Qed.

Lemma chain_length lf sh cells bs : chain lf sh cells bs -> length cells = length bs.
Proof. revert bs. induction cells as [|c cells IH]; intros [|s bs]; cbn; try done. intros [_ H]. by rewrite (IH bs H). Qed.

(** The device follows a chain. *)
Definition view (s : sbuf) : Z * Z * bool := (s.2, buf_len s.1.1, bool_decide (s.1.2 = DeviceToDriver)).

Lemma filled_view flags s n :
  flags = 0 \/ flags = NEXT ->
  (d_addr (filled flags s n), d_len (filled flags s n), device_writable (filled flags s n)) = view s.
Proof. intros Hf. unfold filled, view, device_writable, contains; cbn. destruct Hf as [-> | ->], (s.1.2); done. Qed.

Lemma filled_next flags s n :
  next (filled flags s n) = if flags =? NEXT then Some n else if flags =? 0 then None else next (filled flags s n).
Proof.
  destruct (Z.eqb_spec flags NEXT) as [->|]; [|destruct (Z.eqb_spec flags 0) as [->|]; [|done]];
    unfold next, filled, contains; cbn; by destruct (s.1.2).
Qed.

Lemma chain_device table cells bs c fuel :
  chain 0 table cells bs -> head cells = Some c -> (length cells <= fuel)%nat ->
  device_chain fuel table (Z.of_nat c) = Some (view <$> bs).
Proof.
  revert bs c fuel. induction cells as [|c0 cells IH]; intros [|s bs] c [|fuel]; cbn [chain length head]; try done; [lia|].
  intros [(n & Hn & Hnext) Hr] [= <-] Hf. cbn [device_chain]. rewrite Nat2Z.id, Hn, filled_next.
  destruct cells as [|c1 cells].
  - destruct bs; [|done]. cbn. f_equal. f_equal. apply filled_view. by left.
  - cbn [Z.eqb NEXT Pos.eqb]. rewrite (Hnext c1 eq_refl), (IH bs c1 fuel Hr) by (done || cbn in *; lia).
    cbn. f_equal. f_equal. apply filled_view. by right.
Qed.

(** ** Filling and recycling a direct chain *)

Section steps.
Context `{Hal}.

Lemma set_buf_ok log d buf dir flags :
  buffer_ok (buf, dir) ->
  set_buf log d buf dir flags =
  Ret (filled flags (buf, dir, hal_share log buf dir) (d_next d),
       log ++ [share_event (buf, dir, hal_share log buf dir)]).
Proof.
  intros [Hl Hd]. unfold set_buf, filled, share_event; cbn in *.
  destruct (Z.leb_spec (2 ^ 32) (buf_len buf)); [lia|]. by destruct dir.
Qed.

Lemma get_ok {A} (l : list A) c x : l !! c = Some x -> get l (Z.of_nat c) = Ret x.
Proof. intros Hx. unfold get. by rewrite Nat2Z.id, Hx. Qed.

Lemma put_ok {A} (l : list A) c x : (c < length l)%nat -> put l (Z.of_nat c) x = Ret (<[c := x]> l).
Proof. intros Hx. unfold put. rewrite Nat2Z.id. by rewrite decide_True. Qed.

Lemma write_desc_ok q c d :
  desc_shadow q !! c = Some d -> (c < length (desc q))%nat ->
  write_desc (Z.of_nat c) q = Ret (set_desc q (<[c := d]> (desc q))).
Proof. intros Hd Hc. unfold write_desc. rewrite (get_ok _ _ _ Hd). cbn [obind]. by rewrite put_ok. Qed.

(** The buffers of [bs] are [bufs], each with an address the layer answered. *)
Definition answered (s : sbuf) : Prop := exists log, s.2 = hal_share log s.1.1 s.1.2.
Definition shared_as (bs : list sbuf) (bufs : list (Buffer * BufferDirection)) : Prop :=
  bs.*1 = bufs /\ Forall answered bs.

(** The fields that filling and recycling descriptors leave alone. *)
Definition same_rest (q q' : VirtQueue) : Prop :=
  avail q' = avail q /\ used q' = used q /\ queue_idx q' = queue_idx q /\ avail_idx q' = avail_idx q /\
  last_used_idx q' = last_used_idx q /\ event_idx q' = event_idx q /\ indirect q' = indirect q /\
  length (desc q') = length (desc q) /\ length (desc_shadow q') = length (desc_shadow q).

Lemma same_rest_trans q1 q2 q3 : same_rest q1 q2 -> same_rest q2 q3 -> same_rest q1 q3.
Proof. unfold same_rest. intuition congruence. Qed.

(** Tables that agree outside [cells], the device's copy being fresh inside. *)
Definition touched (cells : list nat) (q q' : VirtQueue) : Prop :=
  (forall c, c ∉ cells -> desc_shadow q' !! c = desc_shadow q !! c /\ desc q' !! c = desc q !! c) /\
  (forall c, c ∈ cells -> desc q' !! c = desc_shadow q' !! c).

Lemma touched_nil q : touched [] q q.
Proof. split; [done|]. by intros c ?%not_elem_of_nil. Qed.

Lemma touched_cons c cells q1 q2 q3 :
  c ∉ cells -> touched [c] q1 q2 -> touched cells q2 q3 -> touched (c :: cells) q1 q3.
Proof.
  intros Hc [H1 H1'] [H2 H2']. split.
  - intros c' [Hn Hn']%not_elem_of_cons. destruct (H2 c' Hn') as [-> ->]. apply H1.
    by intros ?%list_elem_of_singleton.
  - intros c' [-> | Hin]%elem_of_cons; [|by apply H2']. destruct (H2 c Hc) as [-> ->].
    apply H1'. by apply list_elem_of_singleton.
Qed.

(** One descriptor of the table rewritten and published. *)
Lemma touched_one q c d q' :
  (c < length (desc_shadow q))%nat -> (c < length (desc q))%nat ->
  desc_shadow q' = <[c := d]> (desc_shadow q) -> desc q' = <[c := d]> (desc q) -> touched [c] q q'.
Proof.
  intros H1 H2 Hs Hd. unfold touched. rewrite Hs, Hd. split.
  - intros c' Hc. rewrite list_elem_of_singleton in Hc. by rewrite !list_lookup_insert_ne by congruence.
  - intros c' ->%list_elem_of_singleton. by rewrite !list_lookup_insert_eq.
Qed.

Lemma last_default {A} (x d : A) l : List.last (x :: l) d = List.last l x.
Proof.
  revert x d. induction l as [|y l IH]; intros x d; [done|].
  change (List.last (y :: l) d = List.last (y :: l) x). by rewrite !IH.
Qed.

Lemma NoDup_app_cons {A} (c : A) l k : NoDup ((c :: l) ++ k) -> c ∉ l /\ c ∉ k /\ NoDup (l ++ k).
Proof. cbn. intros [Hc Hn]%NoDup_cons. rewrite elem_of_app in Hc. tauto. Qed.

Lemma add_direct_loop_ok bufs q lst cells rest :
  Forall buffer_ok bufs -> length cells = length bufs ->
  free_chain (desc_shadow q) (free_head q) (cells ++ rest) -> NoDup (cells ++ rest) ->
  length (desc q) = length (desc_shadow q) ->
  exists bs q',
    shared_as bs bufs /\
    add_direct_loop bufs lst q = Ret (List.last (Z.of_nat <$> cells) lst, q') /\
    same_rest q q' /\ num_used q' = num_used q /\ indirect_lists q' = indirect_lists q /\
    hal_log q' = hal_log q ++ (share_event <$> bs) /\
    free_chain (desc_shadow q') (free_head q') rest /\ touched cells q q' /\
    chain NEXT (desc_shadow q') cells bs.
Proof.
  intros Hb. revert q lst cells. induction Hb as [|[buf dir] bufs Hx Hb IH]; intros q lst [|c cells]; try done.
  { intros _ Hf _ _. exists [], q. rewrite app_nil_r.
    split_and!; try done; apply touched_nil. }
  intros [= Hlen] (Hh & d & Hd & Hf)%(fun x => x) (Hc & Hc' & Hn)%NoDup_app_cons Hl.
  cbn [add_direct_loop]. destruct (Z.eqb_spec (buf_len buf) 0); [destruct Hx; cbn in *; lia|].
  rewrite Hh, (get_ok _ _ _ Hd). cbn [obind].
  rewrite set_buf_ok by done. cbn [obind]. set (s := (buf, dir, hal_share (hal_log q) buf dir)).
  pose proof (lookup_lt_Some _ _ _ Hd) as Hlt.
  rewrite put_ok by done. cbn [obind d_next filled].
  set (q1 := set_free_head (set_log (set_shadow q _) _) _).
  rewrite (write_desc_ok q1 c (filled NEXT s (d_next d))); [|by cbn; apply list_lookup_insert_eq|cbn; lia].
  cbn [obind]. set (q2 := set_desc q1 _).
  destruct (IH q2 (Z.of_nat c) cells Hlen) as (bs & q3 & Hbs & Hrun & Hsame & Hnum & Hil & Hlog & Hfree & Htouch & Hch).
  { cbn. eapply free_chain_ext; [|done]. intros c' Hc2. apply list_lookup_insert_ne. rewrite elem_of_app in Hc2. naive_solver. }
  { done. }
  { cbn. rewrite !length_insert. done. }
  assert (touched [c] q q2) by (eapply (touched_one q c (filled NEXT s (d_next d))); cbn; done || lia).
  exists (s :: bs), q3. split_and!; try done.
  - destruct Hbs as [<- Ha]. split; [done|]. constructor; [by eexists|done].
  - rewrite Hrun. f_equal. f_equal. symmetry. apply last_default.
  - eapply same_rest_trans; [|done]. unfold same_rest; cbn. rewrite !length_insert. done.
  - rewrite Hlog. cbn. by rewrite <- (assoc_L (++)).
  - by eapply touched_cons.
  - cbn. split; [|done]. exists (d_next d). split.
    + destruct Htouch as [Ht _]. destruct (Ht c Hc) as [-> _]. cbn. rewrite list_lookup_insert_eq by done.
      by destruct cells.
    + intros c' Hc2. destruct cells as [|c1 cells]; [done|]. injection Hc2 as <-. cbn in Hf. by destruct Hf.
Qed.

Lemma set_flags_filled s n :
  set_flags (filled NEXT s n) (remove (d_flags (filled NEXT s n)) NEXT) = filled 0 s n.
Proof. unfold filled, set_flags, remove; cbn. f_equal. by destruct (s.1.2). Qed.

(** Clearing the flag of the last descriptor closes a chain. *)
Lemma chain_close sh cells bs x :
  chain NEXT sh cells bs -> cells <> [] -> NoDup cells ->
  exists l d, List.last (Z.of_nat <$> cells) x = Z.of_nat l /\ l ∈ cells /\ sh !! l = Some d /\
    chain 0 (<[l := set_flags d (remove (d_flags d) NEXT)]> sh) cells bs.
Proof.
  revert bs x. induction cells as [|c cells IH]; intros [|s bs] x; try done.
  intros [(n & Hn & Hnext) Hr] _ [Hc Hnd]%NoDup_cons. pose proof (lookup_lt_Some _ _ _ Hn) as Hlt.
  destruct cells as [|c1 cells].
  - destruct bs; [|done]. exists c, (filled NEXT s n). split_and!; [done|by left|done|].
    cbn. split; [|done]. exists n. rewrite set_flags_filled, list_lookup_insert_eq by done. done.
  - destruct (IH bs (Z.of_nat c) Hr) as (l & d & Hl & Hin & Hd & Hch); [done|done|].
    exists l, d. split_and!; [|by right|done|].
    + cbn [fmap list_fmap]. by rewrite last_default.
    + cbn [chain]. split; [|done]. exists n. split; [|done]. rewrite list_lookup_insert_ne; [done|]. naive_solver.
Qed.

(** A further change at a cell already touched. *)
Lemma touched_again cells q q' l d q2 :
  l ∈ cells -> (l < length (desc_shadow q'))%nat -> (l < length (desc q'))%nat -> touched cells q q' ->
  desc_shadow q2 = <[l := d]> (desc_shadow q') -> desc q2 = <[l := d]> (desc q') -> touched cells q q2.
Proof.
  intros Hl Hs Hd [H1 H2] Es Ed. unfold touched. rewrite Es, Ed. split; intros c Hc.
  - rewrite !list_lookup_insert_ne by naive_solver. by apply H1.
  - destruct (decide (c = l)) as [->|]; [by rewrite !list_lookup_insert_eq|].
    rewrite !list_lookup_insert_ne by done. by apply H2.
Qed.

(** What a successful [add] does to the tables: [cells] leave the free list. *)
Record added (q q' : VirtQueue) (cells rest : list nat) (log : list hal_event) : Prop := mkAdded {
  ad_rest : same_rest q q';
  ad_num : num_used q' = u16 (num_used q + zlen cells);
  ad_log : hal_log q' = hal_log q ++ log;
  ad_free : free_chain (desc_shadow q') (free_head q') rest;
  ad_touched : touched cells q q'
}.

Lemma input_output_length i o : zlen (input_output i o) = zlen i + zlen o.
Proof. unfold input_output. autorewrite with kernel. unfold zlen. by rewrite !length_fmap. Qed.

Lemma add_direct_ok inputs outputs q cells rest :
  let bufs := input_output inputs outputs in
  Forall buffer_ok bufs -> bufs <> [] -> length cells = length bufs ->
  free_chain (desc_shadow q) (free_head q) (cells ++ rest) -> NoDup (cells ++ rest) ->
  length (desc q) = length (desc_shadow q) ->
  exists bs q', shared_as bs bufs /\ add_direct inputs outputs q = Ret (free_head q, q') /\
    added q q' cells rest (share_event <$> bs) /\ indirect_lists q' = indirect_lists q /\
    chain 0 (desc_shadow q') cells bs.
Proof.
  intros bufs Hb Hne Hlen Hf Hnd Hl. subst bufs.
  destruct (add_direct_loop_ok _ q (free_head q) cells rest Hb Hlen Hf Hnd Hl)
    as (bs & q1 & Hbs & Hrun & Hsame & Hnum & Hil & Hlog & Hfree & Ht & Hch).
  apply NoDup_app in Hnd as (Hnc & Hdis & _).
  destruct (chain_close _ _ _ (free_head q) Hch) as (l & d & Hlast & Hin & Hd & Hc0);
    [by intros ->; destruct (input_output _ _)|done|].
  pose proof (lookup_lt_Some _ _ _ Hd) as Hlt. pose proof Hsame as (_ & _ & _ & _ & _ & _ & _ & Hdl & Hsl).
  unfold add_direct. rewrite Hrun. cbn [obind]. rewrite Hlast, (get_ok _ _ _ Hd). cbn [obind].
  rewrite put_ok by done. cbn [obind]. set (d' := set_flags d _) in *.
  rewrite (write_desc_ok _ l d'); [|by cbn; apply list_lookup_insert_eq|cbn; lia]. cbn [obind].
  eexists bs, _. split_and!; [done|done| |done|done]. constructor; cbn.
  - eapply same_rest_trans; [done|]. unfold same_rest; cbn. by rewrite !length_insert.
  - rewrite Hnum, <- input_output_length. unfold zlen. rewrite Hlen. unfold u16. by rewrite Zplus_mod_idemp_r.
  - done.
  - eapply free_chain_ext; [|done]. intros c Hc. apply list_lookup_insert_ne. intros ->. by eapply Hdis.
  - eapply (touched_again cells q q1 l d'); cbn; done || lia.
Qed.

(** ** Indirect lists *)

Fixpoint indirect_of (lf : Z) (bs : list sbuf) (i : Z) : list Descriptor :=
  match bs with
  | [] => []
  | s :: bs' => filled (match bs' with [] => lf | _ => NEXT end) s (u16 (i + 1)) :: indirect_of lf bs' (i + 1)
  end.

Lemma indirect_of_length lf bs i : length (indirect_of lf bs i) = length bs.
Proof. revert i. induction bs as [|s bs IH]; intros i; cbn; [done|]. by rewrite IH. Qed.

Lemma fill_indirect_ok bufs i log :
  Forall buffer_ok bufs ->
  exists bs, shared_as bs bufs /\ fill_indirect bufs i log = Ret (indirect_of NEXT bs i, log ++ (share_event <$> bs)).
Proof.
  intros Hb. revert i log. induction Hb as [|[buf dir] bufs Hx Hb IH]; intros i log.
  { exists []. rewrite app_nil_r. by repeat constructor. }
  cbn [fill_indirect]. rewrite set_buf_ok by done. cbn [obind].
  set (s := (buf, dir, hal_share log buf dir)).
  destruct (IH (i + 1) (log ++ [share_event s])) as (bs & Hbs & ->). cbn [obind].
  destruct Hbs as [<- Ha]. exists (s :: bs). cbn. rewrite <- (assoc_L (++)). split; [|by destruct bs].
  split; [done|]. constructor; [by eexists|done].
Qed.

Lemma clear_last_ok bs i : bs <> [] -> clear_last (indirect_of NEXT bs i) = Ret (indirect_of 0 bs i).
Proof.
  revert i. induction bs as [|s bs IH]; intros i Hne; [done|]. destruct bs as [|s' bs].
  - cbn. by rewrite set_flags_filled.
  - specialize (IH (i + 1) ltac:(done)). cbn [indirect_of] in *. cbn [clear_last]. cbn [clear_last] in IH.
    rewrite IH. done.
Qed.

Lemma indirect_of_chain lf pre bs :
  zlen pre + zlen bs < 2 ^ 16 ->
  chain lf (pre ++ indirect_of lf bs (zlen pre)) (seq (length pre) (length bs)) bs.
Proof.
  revert pre. induction bs as [|s bs IH]; intros pre Hn; [done|].
  cbn [indirect_of length seq chain]. rewrite zlen_cons in Hn. pose proof (zlen_nonneg bs).
  pose proof (zlen_nonneg pre). split.
  - exists (u16 (zlen pre + 1)). split.
    + rewrite lookup_app_r, Nat.sub_diag by lia. cbn. by destruct bs.
    + intros c' Hc. destruct bs; [done|]. cbn in Hc. injection Hc as <-. unfold u16. rewrite Z.mod_small; unfold zlen in *; lia.
  - specialize (IH (pre ++ [filled (match bs with [] => lf | _ => NEXT end) s (u16 (zlen pre + 1))])).
    rewrite zlen_app, length_app, <- (assoc_L (++)), zlen_cons, zlen_nil in IH. cbn in IH.
    rewrite Nat.add_1_r in IH. apply IH. lia.
Qed.

Lemma add_indirect_ok inputs outputs q c rest :
  let bufs := input_output inputs outputs in
  Forall buffer_ok bufs -> bufs <> [] -> zlen bufs < 2 ^ 16 ->
  free_chain (desc_shadow q) (free_head q) (c :: rest) -> c ∉ rest ->
  indirect_lists q !! c = Some None -> length (desc q) = length (desc_shadow q) ->
  exists bs box p n q', shared_as bs bufs /\ add_indirect inputs outputs q = Ret (free_head q, q') /\
    added q q' [c] rest ((share_event <$> bs) ++ [Share (mkBuf box (16 * zlen bs)) DriverToDevice p]) /\
    indirect_lists q' = <[c := Some (box, indirect_of 0 bs 0)]> (indirect_lists q) /\
    desc_shadow q' !! c = Some (mkDesc p (16 * zlen bs) INDIRECT n).
Proof.
  intros bufs Hb Hne Hlen (Hh & d & Hd & Hf) Hc Hnone Hl. subst bufs.
  destruct (fill_indirect_ok _ 0 (hal_log q) Hb) as (bs & Hbs & Hfill). pose proof Hbs as [Hbs1 _].
  pose proof (lookup_lt_Some _ _ _ Hd) as Hlt.
  assert (zlen bs = zlen inputs + zlen outputs) as Hn.
  { rewrite <- input_output_length, <- Hbs1. unfold zlen. by rewrite length_fmap. }
  rewrite input_output_length, <- Hn in Hlen.
  unfold add_indirect. rewrite Hfill, <- Hn. cbn [obind].
  rewrite clear_last_ok by (intros ->; destruct (input_output _ _); done). cbn [obind].
  rewrite Hh, (get_ok _ _ _ Hnone). cbn [obind].
  rewrite put_ok by (by eapply lookup_lt_Some). cbn [obind]. rewrite (get_ok _ _ _ Hd). cbn [obind].
  set (box := hal_box _ _). rewrite set_buf_ok; [|split; cbn; [destruct bs; [destruct (input_output _ _); done|]|done]].
  2: { rewrite zlen_cons in *. pose proof (zlen_nonneg bs). lia. }
  cbn [obind]. rewrite put_ok by done. cbn [obind]. set (x := filled INDIRECT _ _).
  rewrite (write_desc_ok _ c x); [|by cbn; apply list_lookup_insert_eq|cbn; lia]. cbn [obind].
  eexists bs, box, _, (d_next d), _. split_and!; [done|done| |done|].
  - constructor; cbn.
    + unfold same_rest; cbn. by rewrite !length_insert.
    + done.
    + by rewrite <- (assoc_L (++)).
    + eapply free_chain_ext; [|done]. intros c' Hc'. apply list_lookup_insert_ne. naive_solver.
    + eapply (touched_one q c x); cbn; done || lia.
  - cbn. rewrite list_lookup_insert_eq by done. done.
Qed.
End steps.
