(* ===== verification/VirtqRun.v ===== *)
(** * Virtqueues: sequences of operations

    [recycle_descriptors] undoes [add]; the invariant of the queue; the queue
    driven by any sequence of additions, completions and device writes. *)

From S2P Require Import Prelude.
From S2P Require Import Virtq.
From S2P Require Import VirtqInv.

(** ** Recycling *)

Lemma u16_minus a x : u16 (u16 (a - 1) - x) = u16 (a - (1 + x)).
Proof. unfold u16. rewrite Zminus_mod_idemp_l. f_equal. lia. Qed.

(** What recycling does: [cells] return to the front of the free list. *)
Record recycled (q q' : VirtQueue) (cells : list nat) (log : list hal_event) : Prop := mkRecycled {
  re_rest : same_rest q q';
  re_num : num_used q' = u16 (num_used q - zlen cells);
  re_log : hal_log q' = hal_log q ++ log;
  re_outside : forall c, c ∉ cells -> desc_shadow q' !! c = desc_shadow q !! c /\ desc q' !! c = desc q !! c
}.

Lemma recycle_loop_ok cells bs c ofh q :
  Forall (fun s => buffer_ok s.1) bs -> chain 0 (desc_shadow q) cells bs -> head cells = Some c -> NoDup cells ->
  length (desc q) = length (desc_shadow q) ->
  exists q', recycle_loop (bs.*1) (Some (Z.of_nat c)) ofh q = Ret (None, q') /\
    recycled q q' cells (unshare_event <$> bs) /\ indirect_lists q' = indirect_lists q /\ free_head q' = free_head q /\
    forall rest, free_chain (desc_shadow q) ofh rest -> (forall c, c ∈ cells -> c ∉ rest) ->
      free_chain (desc_shadow q') (Z.of_nat c) (cells ++ rest).
Proof.
  intros Hb. revert cells c q. induction Hb as [|[[buf dir] p] bs Hx Hb IH]; intros [|c0 cells] c q; try done.
  intros [(n & Hn & Hnext) Hr] [= ->] [Hc Hnd]%NoDup_cons Hl. pose proof (lookup_lt_Some _ _ _ Hn) as Hlt.
  change ((buf, dir, p) :: bs).*1 with ((buf, dir) :: bs.*1). cbn [recycle_loop]. destruct (Z.eqb_spec (buf_len buf) 0); [destruct Hx as [? _]; cbn in *; lia|].
  rewrite (get_ok _ _ _ Hn). cbn [obind].
  set (f := match cells with [] => 0 | _ => NEXT end) in *.
  assert (next (unset_buf (filled f (buf, dir, p) n)) = match cells with [] => None | _ => Some n end) as ->.
  { change (next (filled f (buf, dir, p) n) = match cells with [] => None | _ => Some n end).
    rewrite filled_next. unfold f. by destruct cells. }
  rewrite put_ok by done. cbn [obind].
  set (d' := match match cells with [] => None | _ => Some n end with None => _ | Some _ => _ end).
  rewrite (write_desc_ok _ c d'); [|by cbn; apply list_lookup_insert_eq|cbn; lia]. cbn [obind].
  set (q1 := set_log _ _).
  assert (same_rest q q1) as Hs1 by (unfold same_rest; cbn; by rewrite !length_insert).
  assert (forall c', c' <> c -> desc_shadow q1 !! c' = desc_shadow q !! c' /\ desc q1 !! c' = desc q !! c') as Ho1
    by (intros; cbn; by rewrite !list_lookup_insert_ne by done).
  assert (desc_shadow q1 !! c = Some d') as Hd' by (cbn; by apply list_lookup_insert_eq).
  destruct cells as [|c1 cells].
  - destruct bs; [|done]. exists q1. split_and!; try done.
    + constructor; try done. intros c' Hc'. apply Ho1. intros ->. apply Hc'. by left.
    + intros rest Hf Hdis. split; [done|]. exists d'. split; [done|]. cbn. eapply free_chain_ext; [|done].
      intros c' Hc'. apply Ho1. intros ->. eapply Hdis; [by left|done].
  - destruct (IH (c1 :: cells) c1 q1) as (q2 & Hrun & [Hs2 Hnum Hlog Ho2] & Hil & Hfh & Hfree); try done.
    { eapply chain_ext; [|exact Hr]. intros c' Hc'. apply Ho1. naive_solver. }
    { by destruct Hs1 as (_ & _ & _ & _ & _ & _ & _ & -> & ->). }
    rewrite (Hnext c1 eq_refl). exists q2. split_and!; try done.
    + constructor.
      * by eapply same_rest_trans.
      * rewrite Hnum, (zlen_cons c (c1 :: cells)). cbn [num_used q1 set_log set_desc set_shadow set_num_used]. apply u16_minus.
      * rewrite Hlog. cbn. by rewrite <- (assoc_L (++)).
      * intros c' [Hc1 Hc2]%not_elem_of_cons. destruct (Ho2 c' Hc2) as [-> ->]. by apply Ho1.
    + intros rest Hf Hdis. split; [done|]. exists d'. destruct (Ho2 c Hc) as [-> _]. split; [done|].
      cbn [d' d_next unset_buf filled]. rewrite (Hnext c1 eq_refl). apply Hfree.
      * eapply free_chain_ext; [|done]. intros c' Hc'. apply Ho1. intros ->. eapply Hdis; [by left|done].
      * intros c' Hc'. apply Hdis. by right.
Qed.

Lemma unshare_indirect_ok bs ds log :
  Forall (fun s => buffer_ok s.1) bs -> Forall2 (fun s d => d_addr d = s.2) bs ds ->
  unshare_indirect (bs.*1) ds log = Ret (log ++ (unshare_event <$> bs)).
Proof.
  intros Hb Hd. revert log. induction Hd as [|[[buf dir] p] d bs ds Hd _ IH]; intros log.
  { by rewrite app_nil_r. }
  apply Forall_cons in Hb as [[Hx _] Hb]. change ((buf, dir, p) :: bs).*1 with ((buf, dir) :: bs.*1). cbn [unshare_indirect].
  destruct (Z.eqb_spec (buf_len buf) 0); [cbn in *; lia|]. rewrite IH by done. cbn. rewrite Hd. by rewrite <- (assoc_L (++)).
Qed.

Lemma indirect_of_addrs lf bs i : Forall2 (fun s d => d_addr d = s.2) bs (indirect_of lf bs i).
Proof. revert i. induction bs as [|s bs IH]; intros i; cbn; constructor; done. Qed.

(** ** Chains in flight *)

Record flight := mkFlight {
  f_ins : list Buffer;
  f_outs : list Buffer;
  f_bs : list sbuf;
  f_cells : list nat;
  f_box : option (Z * Z)  (** an indirect list: its pointer and its shared address *)
}.

Definition f_token (f : flight) : Z := match f_cells f with c :: _ => Z.of_nat c | [] => 0 end.

Definition f_shared (f : flight) : list sbuf :=
  f_bs f ++ match f_box f with
            | Some (box, p) => [(mkBuf box (16 * zlen (f_bs f)), DriverToDevice, p)]
            | None => []
            end.

Definition flight_ok (q : VirtQueue) (f : flight) : Prop :=
  (f_bs f).*1 = input_output (f_ins f) (f_outs f) /\ f_bs f <> [] /\ Forall (fun s => buffer_ok s.1) (f_bs f) /\
  match f_box f with
  | None => chain 0 (desc_shadow q) (f_cells f) (f_bs f) /\
            forall c, c ∈ f_cells f -> indirect_lists q !! c = Some None
  | Some (box, p) =>
      zlen (f_bs f) < 2 ^ 16 /\
      exists c n, f_cells f = [c] /\ desc_shadow q !! c = Some (mkDesc p (16 * zlen (f_bs f)) INDIRECT n) /\
        indirect_lists q !! c = Some (Some (box, indirect_of 0 (f_bs f) 0))
  end.

(** A chain depends on its own cells only. *)
Lemma flight_frame q q' f :
  (forall c, c ∈ f_cells f -> desc_shadow q' !! c = desc_shadow q !! c /\ indirect_lists q' !! c = indirect_lists q !! c) ->
  flight_ok q f -> flight_ok q' f.
Proof.
  intros He (H1 & H2 & H3 & H4). split_and!; try done. destruct (f_box f) as [[box p]|].
  - destruct H4 as (Hl & c & n & Hc & Hd & Hi). split; [done|]. exists c, n.
    destruct (He c) as [-> ->]; [rewrite Hc; by left|]. done.
  - destruct H4 as [Hch Hn]. split; [|intros c Hc; destruct (He c Hc) as [_ ->]; by apply Hn].
    eapply chain_ext; [|done]. intros c Hc. by apply He.
Qed.

Lemma flight_cells_cons q f : flight_ok q f -> exists c cs, f_cells f = c :: cs.
Proof.
  intros (_ & Hne & _ & H). destruct (f_box f) as [[box p]|].
  - destruct H as (_ & c & n & Hc & _). eauto.
  - destruct H as [Hch%chain_length _]. destruct (f_cells f), (f_bs f); try done. eauto.
Qed.

(** Recycling a chain in flight. *)
Lemma recycle_ok q f :
  flight_ok q f -> NoDup (f_cells f) -> length (desc q) = length (desc_shadow q) ->
  exists q' log, recycle_descriptors (f_token f) (f_ins f) (f_outs f) q = Ret q' /\
    recycled q q' (f_cells f) log /\ log ≡ₚ unshare_event <$> f_shared f /\
    (forall c, indirect_lists q' !! c = if decide (c ∈ f_cells f) then Some None else indirect_lists q !! c) /\
    length (indirect_lists q') = length (indirect_lists q) /\
    forall rest, free_chain (desc_shadow q) (free_head q) rest -> (forall c, c ∈ f_cells f -> c ∉ rest) ->
      free_chain (desc_shadow q') (free_head q') (f_cells f ++ rest).
Proof.
  intros (Hbs & Hne & Hok & Hf) Hnd Hl. unfold recycle_descriptors, f_shared, f_token.
  destruct (f_box f) as [[box p]|].
  - destruct Hf as (Hlen & c & n & Hc & Hd & Hi). rewrite Hc in *.
    cbn [desc_shadow indirect_lists set_free_head]. pose proof (lookup_lt_Some _ _ _ Hd) as Hlt.
    rewrite (get_ok _ _ _ Hd). cbn [obind]. change (contains _ INDIRECT) with true. cbv iota.
    rewrite (get_ok _ _ _ Hi). cbn [obind]. rewrite put_ok by (by eapply lookup_lt_Some). cbn [obind].
    rewrite put_ok by done. cbn [obind].
    assert (zlen (indirect_of 0 (f_bs f) 0) = zlen (f_bs f)) as Hz by (unfold zlen; by rewrite indirect_of_length).
    rewrite Hz, <- input_output_length, <- Hbs. unfold zlen at 2. rewrite length_fmap, Z.eqb_refl.
    rewrite unshare_indirect_ok by (done || apply indirect_of_addrs). cbn [obind].
    eexists _, _. split_and!; [done| | | | |].
    + constructor; cbn.
      * unfold same_rest; cbn. by rewrite length_insert.
      * done.
      * by rewrite <- (assoc_L (++)).
      * intros c' Hc'. rewrite list_elem_of_singleton in Hc'. by rewrite list_lookup_insert_ne by congruence.
    + cbn. rewrite fmap_app. cbn. by rewrite Permutation_app_comm.
    + intros c'. cbn. destruct (decide _) as [->%list_elem_of_singleton|Hn].
      * apply list_lookup_insert_eq. by eapply lookup_lt_Some.
      * apply list_lookup_insert_ne. intros ->. apply Hn. by left.
    + cbn. apply length_insert.
    + intros rest Hfree Hdis. cbn. split; [done|]. eexists. rewrite list_lookup_insert_eq by done. split; [done|].
      cbn. eapply free_chain_ext; [|done]. intros c' Hc'. apply list_lookup_insert_ne. intros ->.
      by apply (Hdis c'); [left|].
  - destruct Hf as [Hch Hnone]. destruct (f_cells f) as [|c cs] eqn:Hcells; [by destruct (f_bs f)|].
    destruct (f_bs f) as [|s bs] eqn:Ebs; [done|]. pose proof Hch as [(n & Hn & Hnext) _].
    cbn [desc_shadow indirect_lists set_free_head]. rewrite (get_ok _ _ _ Hn). cbn [obind].
    assert (contains (d_flags (filled (match cs with [] => 0 | _ => NEXT end) s n)) INDIRECT = false) as ->
      by (destruct cs; cbn; unfold contains; by destruct (s.1.2)).
    destruct (recycle_loop_ok (c :: cs) (s :: bs) c (free_head q) (set_free_head q (Z.of_nat c)))
      as (q' & Hrun & [R1 R2 R3 R4] & Hil & Hfh & Hfree); try done.
    rewrite <- Hbs, Hrun. cbn [obind]. exists q', (unshare_event <$> s :: bs). rewrite app_nil_r.
    split_and!; try done.
    + intros c'. rewrite Hil. cbn. destruct (decide _); [by apply Hnone|done].
    + by rewrite Hil.
    + intros rest Hfr Hdis. rewrite Hfh. by apply Hfree.
Qed.

(** ** The invariant *)

Section queue.
Context `{Hal} (k : Z) (Hk : 0 <= k < 16).
Abbreviation SIZE := (2 ^ k).
Abbreviation N := (Z.to_nat (2 ^ k)).

Definition busy_cells (fs : list flight) : list nat := concat (f_cells <$> fs).

Record qinv (q : VirtQueue) (free : list nat) (fs : list flight) : Prop := mkQinv {
  qi_shadow : length (desc_shadow q) = N;
  qi_lists : length (indirect_lists q) = N;
  qi_desc : length (desc q) = N;
  qi_ring : length (av_ring (avail q)) = N;
  qi_used : length (us_ring (used q)) = N;
  qi_cells : free ++ busy_cells fs ≡ₚ seq 0 N;
  qi_num : num_used q = zlen (busy_cells fs);
  qi_free : free_chain (desc_shadow q) (free_head q) free;
  qi_none : forall c, c ∈ free -> indirect_lists q !! c = Some None;
  qi_flights : Forall (flight_ok q) fs;
  qi_direct : indirect q = false -> Forall (fun f => f_box f = None) fs;
  qi_indirect : indirect q = true -> Forall (fun f => length (f_cells f) = 1%nat) fs
}.

Lemma size_range : 1 <= SIZE <= 32768.
Proof using Hk. clear -Hk. split; [apply (Z.pow_le_mono_r 2 0 k)|apply (Z.pow_le_mono_r 2 k 15)]; lia. Qed.

Lemma slot_range x : 0 <= x -> 0 <= Z.land x (SIZE - 1) < SIZE.
Proof using Hk.
  clear -Hk. intros Hx. replace (SIZE - 1) with (Z.ones k) by (rewrite Z.ones_equiv; lia).
  rewrite Z.land_ones by lia. apply Z.mod_pos_bound. pose proof size_range. lia.
Qed.

Lemma qinv_nodup q free fs : qinv q free fs -> NoDup (free ++ busy_cells fs).
Proof. intros Hq. rewrite (qi_cells _ _ _ Hq). apply NoDup_seq. Qed.

Lemma qinv_free q free fs : qinv q free fs -> zlen free = SIZE - num_used q.
Proof using Hk.
  clear -Hk. intros Hq. pose proof (Permutation_length (qi_cells _ _ _ Hq)) as Hp. rewrite length_app, length_seq in Hp.
  rewrite (qi_num _ _ _ Hq). pose proof size_range. unfold zlen. lia.
Qed.

Lemma busy_elem fs f c : f ∈ fs -> c ∈ f_cells f -> c ∈ busy_cells fs.
Proof.
  intros Hf Hc. unfold busy_cells. rewrite list_elem_of_In, in_concat. exists (f_cells f).
  rewrite <- !list_elem_of_In. split; [by apply list_elem_of_fmap_2|done].
Qed.

Lemma busy_split l1 f l2 : busy_cells (l1 ++ f :: l2) ≡ₚ f_cells f ++ busy_cells (l1 ++ l2).
Proof. unfold busy_cells. rewrite !fmap_app, !concat_app. cbn. by rewrite Permutation_app_swap_app. Qed.

(** The cells of the flights other than [f], or of all against a part of the
    free list, are disjoint from it. *)
Lemma frame_flights q q' cells fs :
  Forall (flight_ok q) fs -> NoDup (cells ++ busy_cells fs) ->
  (forall c, c ∉ cells -> desc_shadow q' !! c = desc_shadow q !! c /\ indirect_lists q' !! c = indirect_lists q !! c) ->
  Forall (flight_ok q') fs.
Proof.
  intros Hok (_ & Hdis & _)%NoDup_app He. rewrite Forall_forall in *. intros f Hf.
  eapply flight_frame; [|by apply Hok]. intros c Hc. apply He. intros Hc'. eapply Hdis; [done|]. by eapply busy_elem.
Qed.

(** What [add] does when it succeeds. *)
Record add_result (q q' : VirtQueue) (f : flight) : Prop := mkAddResult {
  ar_answered : Forall answered (f_bs f);
  ar_log : hal_log q' = hal_log q ++ (share_event <$> f_shared f);
  ar_same : queue_idx q' = queue_idx q /\ used q' = used q /\ last_used_idx q' = last_used_idx q /\
            event_idx q' = event_idx q /\ indirect q' = indirect q;
  ar_desc : forall c, desc q' !! c = if decide (c ∈ f_cells f) then desc_shadow q' !! c else desc q !! c;
  ar_shadow : forall c, c ∉ f_cells f -> desc_shadow q' !! c = desc_shadow q !! c;
  ar_ring : av_ring (avail q') = <[Z.to_nat (Z.land (avail_idx q) (SIZE - 1)) := f_token f]> (av_ring (avail q));
  ar_idx : avail_idx q' = u16 (avail_idx q + 1) /\ av_idx (avail q') = avail_idx q'
}.

Lemma split_at {A} (l : list A) m : 0 <= m <= zlen l -> exists l1 l2, l = l1 ++ l2 /\ zlen l1 = m.
Proof.
  intros Hm. exists (take (Z.to_nat m) l), (drop (Z.to_nat m) l). rewrite take_drop. split; [done|].
  unfold zlen in *. rewrite length_take. lia.
Qed.

(** The common end of [add]: the head goes into the available ring. *)
Lemma add_inv_step q q1 q' cells rest fs f log :
  qinv q (cells ++ rest) fs -> added q q1 cells rest log -> f_cells f = cells -> 0 <= avail_idx q < 2 ^ 16 ->
  (forall c, c ∉ cells -> indirect_lists q1 !! c = indirect_lists q !! c) ->
  length (indirect_lists q1) = length (indirect_lists q) ->
  flight_ok q1 f -> (indirect q = false -> f_box f = None) -> (indirect q = true -> length (f_cells f) = 1%nat) ->
  length (av_ring (avail q')) = length (av_ring (avail q1)) ->
  q' = set_avail_idx (set_avail q1 (avail q')) (avail_idx q') -> qinv q' rest (f :: fs).
Proof using Hk.
  intros Hq [Hsame Hnum Hlog Hfree [Ht1 Ht2]] Hc Ha Hl Hll Hf Hb1 Hb2 Hav Eq.
  pose proof (qinv_free _ _ _ Hq) as Hlen. pose proof (qinv_nodup _ _ _ Hq) as Hnd.
  pose proof size_range. pose proof (zlen_nonneg cells). pose proof (zlen_nonneg rest). rewrite zlen_app in Hlen.
  assert (cells ++ rest ++ busy_cells fs ≡ₚ seq 0 N) as Hp by (rewrite (assoc_L (++)); apply (qi_cells _ _ _ Hq)).
  rewrite <- (assoc_L (++)) in Hnd. pose proof Hnd as (_ & Hdis & Hnd')%NoDup_app.
  assert (NoDup (cells ++ busy_cells fs)) as Hnd2.
  { rewrite Permutation_app_swap_app in Hnd. by apply NoDup_app in Hnd as (_ & _ & ?). }
  destruct Hsame as (S1 & S2 & S3 & S4 & S5 & S6 & S7 & S8 & S9).
  destruct Hq as [Q1 Q2 Q3 Q4 Q5 Q6 Q7 Q8 Q9 Q10 Q11 Q12].
  assert (forall c, c ∈ rest -> c ∉ cells) as Hrc.
  { intros c Hr Hc'. eapply Hdis; [done|]. rewrite elem_of_app. by left. }
  rewrite Eq. constructor; cbn; rewrite ?S2, ?S7; try congruence.
  - unfold busy_cells in *; cbn [fmap list_fmap concat]. by rewrite Hc, <- Hp, Permutation_app_swap_app.
  - unfold busy_cells in *; cbn [fmap list_fmap concat]. rewrite Hnum, zlen_app, Hc, Q7. unfold u16.
    pose proof (zlen_nonneg (concat (f_cells <$> fs))). rewrite Z.mod_small; lia.
  - intros c Hr. rewrite Hl by auto. apply Q9. rewrite elem_of_app. by right.
  - change (Forall (flight_ok q1) (f :: fs)). constructor; [done|]. eapply frame_flights; [done|done|].
    intros c Hn. split; [by apply Ht1|by apply Hl].
  - intros Hi. constructor; [auto|by apply Q11].
  - intros Hi. constructor; [auto|by apply Q12].
Qed.

(** The number of descriptors a request takes. *)
Definition needed (q : VirtQueue) (n : Z) : Z := if indirect q then 1 else n.

Lemma added_desc q q1 cells rest log c :
  added q q1 cells rest log ->
  desc q1 !! c = if decide (c ∈ cells) then desc_shadow q1 !! c else desc q !! c.
Proof. intros Ha. destruct (ad_touched _ _ _ _ _ Ha) as [H1 H2]. destruct (decide _); [by apply H2|by apply H1]. Qed.

Lemma add_tail q q1 cells rest log f fs :
  qinv q (cells ++ rest) fs -> added q q1 cells rest log -> f_cells f = cells -> 0 <= avail_idx q < 2 ^ 16 ->
  (forall c, c ∉ cells -> indirect_lists q1 !! c = indirect_lists q !! c) ->
  length (indirect_lists q1) = length (indirect_lists q) -> log = share_event <$> f_shared f ->
  flight_ok q1 f -> (indirect q = false -> f_box f = None) -> (indirect q = true -> length (f_cells f) = 1%nat) ->
  Forall answered (f_bs f) ->
  exists q', (let avail_slot := Z.land (avail_idx q1) (SIZE - 1) in
      do! ring <- put (av_ring (avail q1)) avail_slot (f_token f);
      let q := set_avail q1 (mkAvail (av_flags (avail q1)) (av_idx (avail q1)) ring (used_event (avail q1))) in
      let q := set_avail_idx q (u16 (avail_idx q + 1)) in
      let q := set_avail q (mkAvail (av_flags (avail q)) (avail_idx q) (av_ring (avail q)) (used_event (avail q))) in
      Ret (Ok (f_token f), q)) = Ret (Ok (f_token f), q') /\
    add_result q q' f /\ qinv q' rest (f :: fs).
Proof using Hk.
  intros Hq Ha Hc Hi Hl Hll Hlog Hf Hb1 Hb2 Hans. pose proof (ad_rest _ _ _ _ _ Ha) as (S1 & S2 & S3 & S4 & S5 & S6 & S7 & _).
  pose proof (slot_range (avail_idx q1) ltac:(lia)) as Hs. rewrite S4 in *.
  cbv zeta. set (slot := Z.land _ _) in *.
  unfold put. rewrite decide_True by (rewrite S1, (qi_ring _ _ _ Hq); lia). cbn [obind].
  eexists. split; [done|]. split.
  - constructor; cbn; rewrite ?S1, ?S4; try done.
    + rewrite (ad_log _ _ _ _ _ Ha). by rewrite Hlog.
    + intros c. rewrite Hc. by eapply added_desc.
    + intros c. rewrite Hc. intros Hn. by apply (ad_touched _ _ _ _ _ Ha).
  - eapply (add_inv_step q q1 _ cells rest fs f log); try done. cbn. by rewrite S1, length_insert, <- S1.
Qed.

Lemma head_token q cells rest f :
  free_chain (desc_shadow q) (free_head q) (cells ++ rest) -> f_cells f = cells -> cells <> [] ->
  free_head q = f_token f.
Proof. unfold f_token. intros Hf -> Hne. destruct cells; [done|]. by destruct Hf. Qed.

Lemma add_fits q n : 0 < n ->
  (SIZE <? num_used q + 1) || (SIZE <? n) || (negb (indirect q) && (SIZE <? num_used q + n)) =
  negb ((num_used q + needed q n <=? SIZE) && (n <=? SIZE) && (num_used q + 1 <=? SIZE)).
Proof using.
  intros Hn. unfold needed. destruct (indirect q); cbn [negb andb].
  - destruct (Z.ltb_spec SIZE (num_used q + 1)), (Z.ltb_spec SIZE n), (Z.leb_spec (num_used q + 1) SIZE), (Z.leb_spec n SIZE); done || lia.
  - destruct (Z.ltb_spec SIZE (num_used q + 1)), (Z.ltb_spec SIZE n), (Z.ltb_spec SIZE (num_used q + n)),
      (Z.leb_spec (num_used q + n) SIZE), (Z.leb_spec n SIZE), (Z.leb_spec (num_used q + 1) SIZE); done || lia.
Qed.

Section adding.
Context (q : VirtQueue) (free : list nat) (fs : list flight) (ins outs : list Buffer).
Hypothesis Hq : qinv q free fs.
Hypothesis Ha : 0 <= avail_idx q < 2 ^ 16.
Hypothesis Hb : Forall buffer_ok (input_output ins outs).
Let n := zlen ins + zlen outs.
Hypothesis Hn : 0 < n.

Lemma not_empty : ~ (ins = [] /\ outs = []).
Proof using Hn. intros [E1 E2]. unfold n in Hn. rewrite E1, E2 in Hn. done. Qed.

Lemma bufs_ne : input_output ins outs <> [].
Proof using Hn. intros E. pose proof (input_output_length ins outs) as H1. rewrite E, zlen_nil in H1. unfold n in Hn. lia. Qed.

Lemma add_full : SIZE < num_used q + needed q n \/ SIZE < n -> add SIZE ins outs q = Ret (Err QueueFull, q).
Proof using Hk Ha Hn.
  intros Hf. unfold add. rewrite decide_False by apply not_empty. rewrite add_fits by done.
  assert ((num_used q + needed q n <=? SIZE) && (n <=? SIZE) = false) as Hz.
  { apply andb_false_iff. rewrite !Z.leb_gt. tauto. }
  fold n. by rewrite Hz.
Qed.

Lemma shared_bufs (bs : list sbuf) : bs.*1 = input_output ins outs ->
  Forall (fun s => buffer_ok s.1) bs /\ bs <> [] /\ zlen bs = n.
Proof using Hb Hn.
  intros E. split_and!.
  - rewrite <- E, Forall_fmap in Hb. exact Hb.
  - intros ->. by apply bufs_ne.
  - unfold n. rewrite <- input_output_length, <- E. unfold zlen. by rewrite length_fmap.
Qed.

(** The chain an allocation builds, whichever way. *)
Definition allocates (run : outcome (Z * VirtQueue)) (cells rest : list nat) : Prop :=
  exists f q1, run = Ret (f_token f, q1) /\ f_ins f = ins /\ f_outs f = outs /\ f_cells f = cells /\
    added q q1 cells rest (share_event <$> f_shared f) /\ flight_ok q1 f /\
    (forall c, c ∉ cells -> indirect_lists q1 !! c = indirect_lists q !! c) /\
    length (indirect_lists q1) = length (indirect_lists q) /\ (indirect q = false -> f_box f = None) /\
    Forall answered (f_bs f).

Lemma allocates_indirect c rest :
  free = c :: rest -> indirect q = true -> n <= SIZE -> allocates (add_indirect ins outs q) [c] rest.
Proof using All.
  intros -> Ei Hmax. pose proof size_range as Hsz. pose proof (qinv_nodup _ _ _ Hq) as (Hnd & _ & _)%NoDup_app.
  apply NoDup_cons in Hnd as [Hc _]. pose proof (qi_none _ _ _ Hq c ltac:(left)) as Hnone.
  destruct (add_indirect_ok ins outs q c rest) as (bs & box & p & nx & q1 & [Hbs Hans] & Hrun & Hadd & Hil & Hd); try done.
  { apply bufs_ne. } { rewrite input_output_length. fold n. lia. } { apply (qi_free _ _ _ Hq). }
  { by rewrite (qi_desc _ _ _ Hq), (qi_shadow _ _ _ Hq). }
  destruct (shared_bufs bs Hbs) as (Hok & Hne & Hz).
  exists (mkFlight ins outs bs [c] (Some (box, p))), q1. rewrite Hil, length_insert. split_and!; try done.
  - rewrite Hrun. by rewrite (head_token q [c] rest (mkFlight ins outs bs [c] (Some (box, p)))) by (done || apply (qi_free _ _ _ Hq)).
  - unfold f_shared; cbn. by rewrite fmap_app.
  - unfold flight_ok; cbn [f_ins f_outs f_box f_bs f_cells]. split_and!; try done; [lia|]. exists c, nx. split_and!; try done. rewrite Hil. apply list_lookup_insert_eq. by eapply lookup_lt_Some.
  - intros c' Hc'. apply list_lookup_insert_ne. rewrite list_elem_of_singleton in Hc'. congruence.
  - by rewrite Ei.
Qed.

Lemma allocates_direct cells rest :
  free = cells ++ rest -> zlen cells = n -> allocates (add_direct ins outs q) cells rest.
Proof using All.
  intros -> Hcl. pose proof (qinv_nodup _ _ _ Hq) as (Hnd & _ & _)%NoDup_app.
  destruct (add_direct_ok ins outs q cells rest) as (bs & q1 & [Hbs Hans] & Hrun & Hadd & Hil & Hch); try done.
  { apply bufs_ne. } { pose proof (input_output_length ins outs). unfold zlen, n in *. unfold zlen in *. lia. }
  { apply (qi_free _ _ _ Hq). } { by rewrite (qi_desc _ _ _ Hq), (qi_shadow _ _ _ Hq). }
  destruct (shared_bufs bs Hbs) as (Hok & Hne & Hz).
  exists (mkFlight ins outs bs cells None), q1. rewrite Hil. split_and!; try done.
  - rewrite Hrun. rewrite (head_token q cells rest (mkFlight ins outs bs cells None)); [done|apply (qi_free _ _ _ Hq)|done|].
    intros ->. rewrite zlen_nil in Hcl. lia.
  - unfold f_shared; cbn. by rewrite app_nil_r.
  - unfold flight_ok; cbn [f_ins f_outs f_box f_bs f_cells]. split_and!; try done.
    intros c' Hc'. rewrite Hil. apply (qi_none _ _ _ Hq). rewrite elem_of_app. by left.
Qed.

(** [add] with room in the queue. *)
Lemma add_ok :
  num_used q + needed q n <= SIZE -> n <= SIZE ->
  exists f free' q', add SIZE ins outs q = Ret (Ok (f_token f), q') /\ f_ins f = ins /\ f_outs f = outs /\
    free = f_cells f ++ free' /\ zlen (f_cells f) = needed q n /\ add_result q q' f /\ qinv q' free' (f :: fs).
Proof using All.
  intros Hroom Hmax. pose proof size_range as Hsz. pose proof (qinv_free _ _ _ Hq) as Hlen.
  destruct (split_at free (needed q n)) as (cells & rest & Hsplit & Hcl); [unfold needed in *; case_match; lia|].
  unfold add. rewrite decide_False by apply not_empty. rewrite add_fits by done. fold n.
  rewrite (proj2 (Z.leb_le _ _) Hroom), (proj2 (Z.leb_le _ _) Hmax), (proj2 (Z.leb_le (num_used q + 1) SIZE)) by (unfold needed in *; destruct (indirect q); lia).
  cbn [andb negb].
  assert (allocates (if indirect q && (1 <? n) then add_indirect ins outs q else add_direct ins outs q) cells rest)
    as (f & q1 & -> & Hi & Ho & Hc & Hadd & Hf & Hl & Hll & Hb1 & Hans).
  { unfold needed in Hcl. destruct (indirect q) eqn:Ei; cbn [andb]; [|by apply allocates_direct].
    destruct (Z.ltb_spec 1 n); [|apply allocates_direct; [done|lia]].
    destruct cells as [|c [|c' cells]]; autorewrite with kernel in Hcl; try (pose proof (zlen_nonneg cells)); try lia.
    by apply allocates_indirect. }
  cbn [obind]. rewrite Hsplit in Hq.
  destruct (add_tail q q1 cells rest (share_event <$> f_shared f) f fs) as (q' & Ht & Hres & Hinv); try done.
  { intros Ei. rewrite Hc. unfold needed in Hcl. rewrite Ei in Hcl. unfold zlen in Hcl. lia. }
  exists f, rest, q'. by rewrite Hc.
Qed.
End adding.

(** The invariant speaks of the private state and the sizes of the shared one. *)
Lemma qinv_private q q' free fs :
  qinv q free fs -> desc_shadow q' = desc_shadow q -> indirect_lists q' = indirect_lists q ->
  free_head q' = free_head q -> num_used q' = num_used q -> indirect q' = indirect q ->
  length (desc q') = N -> length (av_ring (avail q')) = N -> length (us_ring (used q')) = N -> qinv q' free fs.
Proof.
  intros [] E1 E2 E3 E4 E5 L1 L2 L3. constructor; rewrite ?E1, ?E2, ?E3, ?E4, ?E5; try done.
  eapply Forall_impl; [done|]. intros f. apply flight_frame. intros c _. by rewrite E1, E2.
Qed.

(** What a successful [pop_used] does. *)
Record pop_result (q q' : VirtQueue) (f : flight) : Prop := mkPopResult {
  pr_log : exists log, hal_log q' = hal_log q ++ log /\ log ≡ₚ unshare_event <$> f_shared f;
  pr_same : queue_idx q' = queue_idx q /\ used q' = used q /\ avail_idx q' = avail_idx q /\
            event_idx q' = event_idx q /\ indirect q' = indirect q;
  pr_last : last_used_idx q' = u16 (last_used_idx q + 1);
  pr_desc : forall c, c ∉ f_cells f -> desc q' !! c = desc q !! c;
  pr_shadow : forall c, c ∉ f_cells f -> desc_shadow q' !! c = desc_shadow q !! c;
  pr_ring : av_ring (avail q') = av_ring (avail q) /\ av_idx (avail q') = av_idx (avail q)
}.

Section popping.
Context (q : VirtQueue) (free : list nat) (l1 : list flight) (f : flight) (l2 : list flight).
Hypothesis Hq : qinv q free (l1 ++ f :: l2).
Hypothesis Hl : 0 <= last_used_idx q < 2 ^ 16.

Lemma flight_here : flight_ok q f /\ NoDup (f_cells f) /\ (forall c, c ∈ f_cells f -> c ∉ free) /\
  NoDup (f_cells f ++ busy_cells (l1 ++ l2)).
Proof using Hq.
  clear -Hq. pose proof (qinv_nodup _ _ _ Hq) as Hnd. rewrite busy_split in Hnd.
  apply NoDup_app in Hnd as (_ & Hdis & Hnd). split_and!; [| |intros c Hc Hc'|done].
  - pose proof (qi_flights _ _ _ Hq) as Hf. rewrite Forall_app, Forall_cons in Hf. by destruct Hf as (_ & ? & _).
  - by apply NoDup_app in Hnd as (? & _ & _).
  - eapply (Hdis c); [done|]. rewrite elem_of_app. by left.
Qed.

Lemma used_slot : exists id len, us_ring (used q) !! Z.to_nat (Z.land (last_used_idx q) (SIZE - 1)) = Some (id, len).
Proof using Hk Hq Hl.
  pose proof (slot_range (last_used_idx q) ltac:(lia)).
  destruct (lookup_lt_is_Some_2 (us_ring (used q)) (Z.to_nat (Z.land (last_used_idx q) (SIZE - 1)))) as [[id len] E]; eauto.
  rewrite (qi_used _ _ _ Hq). lia.
Qed.

Lemma Forall_without (P : flight -> Prop) : Forall P (l1 ++ f :: l2) -> Forall P (l1 ++ l2).
Proof using. clear. rewrite !Forall_app, Forall_cons. tauto. Qed.

(** Recycling keeps the invariant. *)
Lemma recycle_inv q1 log lists :
  recycled q q1 (f_cells f) log -> (forall c, indirect_lists q1 !! c = lists c) ->
  (forall c, lists c = if decide (c ∈ f_cells f) then Some None else indirect_lists q !! c) ->
  length (indirect_lists q1) = length (indirect_lists q) ->
  free_chain (desc_shadow q1) (free_head q1) (f_cells f ++ free) ->
  qinv q1 (f_cells f ++ free) (l1 ++ l2).
Proof using Hk Hq Hl.
  intros [(S1 & S2 & S3 & S4 & S5 & S6 & S7 & S8 & S9) Hnum Hlog Hout] Hl1 Hl2 Hll Hfree.
  destruct flight_here as (Hf & Hnd & Hdis & Hnd2). pose proof size_range as Hsz.
  pose proof (qinv_free _ _ _ Hq) as Hfl. pose proof (zlen_nonneg free).
  destruct Hq as [Q1 Q2 Q3 Q4 Q5 Q6 Q7 Q8 Q9 Q10 Q11 Q12].
  pose proof (Permutation_length (busy_split l1 f l2)) as Hbl. rewrite length_app in Hbl.
  constructor; rewrite ?S1, ?S2, ?S7, ?Hnum; try congruence.
  - rewrite <- Q6, busy_split, !(assoc_L (++)). by rewrite (Permutation_app_comm free).
  - unfold u16. rewrite Z.mod_small; unfold zlen in *; lia.
  - intros c [Hc|Hc]%elem_of_app; rewrite Hl1, Hl2; destruct (decide _); try done. by apply Q9.
  - eapply (frame_flights q q1 (f_cells f)); [by eapply Forall_without|done|].
    intros c Hn. split; [by apply Hout|]. rewrite Hl1, Hl2. by rewrite decide_False.
  - intros Hi. by eapply Forall_without, Q11.
  - intros Hi. by eapply Forall_without, Q12.
Qed.

(** [pop_used] of a chain in flight, whatever the device wrote. *)
Lemma vq_pop_ok id len :
  us_ring (used q) !! Z.to_nat (Z.land (last_used_idx q) (SIZE - 1)) = Some (id, len) ->
  let run := pop_used SIZE (f_token f) (f_ins f) (f_outs f) q in
  if negb (can_pop q) then run = Ret (Err NotReady, q)
  else if negb (u16 id =? f_token f) then run = Ret (Err WrongToken, q)
  else exists q', run = Ret (Ok len, q') /\ pop_result q q' f /\ qinv q' (f_cells f ++ free) (l1 ++ l2).
Proof using All.
  intros Hslot. unfold pop_used, get. cbv zeta. rewrite Hslot. destruct (can_pop q); [|done]. cbn [negb obind].
  destruct (Z.eqb_spec (u16 id) (f_token f)) as [->|]; [|done]. cbn [negb].
  destruct flight_here as (Hf & Hnd & Hdis & _).
  destruct (recycle_ok q f Hf Hnd) as (q1 & log & -> & Hre & Hlog & Hil & Hll & Hfree).
  { by rewrite (qi_desc _ _ _ Hq), (qi_shadow _ _ _ Hq). }
  assert (qinv q1 (f_cells f ++ free) (l1 ++ l2)) as Hinv.
  { eapply recycle_inv; [done|done|done|done|]. apply Hfree; [apply (qi_free _ _ _ Hq)|done]. }
  destruct Hre as [(S1 & S2 & S3 & S4 & S5 & S6 & S7 & _) _ Hl' Hout].
  cbn [obind]. eexists. split; [done|]. split.
  - constructor; cbn; destruct (event_idx q1) eqn:E; cbn; rewrite ?S1, ?S5; try done; try (by exists log);
      try (intros c Hc; by apply Hout); split_and!; congruence.
  - eapply (qinv_private q1); [done|..]; cbn [event_idx set_last_used_idx];
      destruct (event_idx q1); try done; apply Hinv.
Qed.
End popping.
End queue.
