(* ===== verification/VirtqThms.v ===== *)
(** * Virtqueues: what they promise

    A driver that keeps the buffers of its outstanding tokens, over any sequence
    of additions, completions and device writes: the queue refines a table of
    outstanding requests; the device finds in shared memory exactly the buffers
    that were added; every buffer shared is given back once; the layouts do not
    overlap; the owning queue cycles its buffers. *)

From S2P Require Import Prelude.
From S2P Require Import Virtq.
From S2P Require Import VirtqInv.
From S2P Require Import VirtqRun.

(** ** The driver *)

Inductive vop :=
| VAdd (inputs outputs : list Buffer)
| VPop (token : Z)
| VUsed (used' : UsedRing)
| VDevice (desc' : list Descriptor) (avail' : AvailRing) (used' : UsedRing)
| VNotify (enable : bool).

Inductive vres := RAdd (r : Result Z) | RPop (r : Result Z) | RNone.

(** The requests outstanding, by token. *)
Abbreviation table := (list (Z * (list Buffer * list Buffer))).

Definition vfind (t : Z) (tbl : table) : option nat := position (fun e => fst e =? t) tbl.

(** One operation; a completion is asked for with the buffers of the token. *)
Definition vexec `{Hal} (SIZE : Z) (o : vop) (st : VirtQueue * table) : outcome (vres * (VirtQueue * table)) :=
  let '(q, tbl) := st in
  match o with
  | VAdd ins outs =>
      do! (r, q) <- add SIZE ins outs q;
      Ret (RAdd r, (q, match r with Ok t => (t, (ins, outs)) :: tbl | Err _ => tbl end))
  | VPop t =>
      match vfind t tbl with
      | None => Ret (RNone, st)
      | Some i =>
          match tbl !! i with
          | None => Ret (RNone, st)
          | Some (_, (ins, outs)) =>
              do! (r, q) <- pop_used SIZE t ins outs q;
              Ret (RPop r, (q, match r with Ok _ => delete i tbl | Err _ => tbl end))
          end
      end
  | VUsed u => Ret (RNone, (device_writes (desc q) (avail q) u q, tbl))
  | VDevice d a u => Ret (RNone, (device_writes d a u q, tbl))
  | VNotify b => Ret (RNone, (set_dev_notify b q, tbl))
  end.

Fixpoint vrun `{Hal} (SIZE : Z) (os : list vop) (st : VirtQueue * table) : outcome (list vres * (VirtQueue * table)) :=
  match os with
  | [] => Ret ([], st)
  | o :: os' =>
      do! (r, st) <- vexec SIZE o st;
      do! (rs, st) <- vrun SIZE os' st;
      Ret (r :: rs, st)
  end.

(** Buffers are not empty and smaller than 4 GiB, and the shared memory has the
    size it was allocated with. *)
Definition op_ok (SIZE : Z) (o : vop) : Prop :=
  match o with
  | VAdd ins outs => Forall (fun x => 0 < buf_len x < 2 ^ 32) ins /\ Forall (fun x => 0 < buf_len x < 2 ^ 32) outs
  | VUsed u => zlen (us_ring u) = SIZE
  | VDevice d a u => zlen d = SIZE /\ zlen (av_ring a) = SIZE /\ zlen (us_ring u) = SIZE
  | _ => True
  end.

(** ** The specification

    The state is the table of outstanding requests, the used ring and how many of
    its entries have been taken. *)

Record sstate := mkS { s_tbl : table; s_taken : Z; s_used : UsedRing }.

(** The descriptors the outstanding requests take. *)
Definition cost (ind : bool) (e : Z * (list Buffer * list Buffer)) : Z :=
  if ind then 1 else zlen e.2.1 + zlen e.2.2.

Fixpoint occupied (ind : bool) (tbl : table) : Z :=
  match tbl with [] => 0 | e :: tbl' => cost ind e + occupied ind tbl' end.

Definition room (SIZE : Z) (ind : bool) (tbl : table) (ins outs : list Buffer) : Prop :=
  occupied ind tbl + cost ind (0, (ins, outs)) <= SIZE /\ zlen ins + zlen outs <= SIZE.

Inductive spec_step (SIZE : Z) (ind : bool) : sstate -> vop -> vres -> sstate -> Prop :=
| spec_add_empty s : spec_step SIZE ind s (VAdd [] []) (RAdd (Err InvalidParam)) s
| spec_add_full s ins outs :
    0 < zlen ins + zlen outs -> ~ room SIZE ind (s_tbl s) ins outs ->
    spec_step SIZE ind s (VAdd ins outs) (RAdd (Err QueueFull)) s
| spec_add s ins outs t :
    0 < zlen ins + zlen outs -> room SIZE ind (s_tbl s) ins outs -> 0 <= t < SIZE -> t ∉ (s_tbl s).*1 ->
    spec_step SIZE ind s (VAdd ins outs) (RAdd (Ok t)) (mkS ((t, (ins, outs)) :: s_tbl s) (s_taken s) (s_used s))
| spec_pop_unknown s t : t ∉ (s_tbl s).*1 -> spec_step SIZE ind s (VPop t) RNone s
| spec_pop_none s t :
    t ∈ (s_tbl s).*1 -> s_taken s = us_idx (s_used s) -> spec_step SIZE ind s (VPop t) (RPop (Err NotReady)) s
| spec_pop_other s t id len :
    t ∈ (s_tbl s).*1 -> s_taken s <> us_idx (s_used s) ->
    us_ring (s_used s) !! Z.to_nat (s_taken s mod SIZE) = Some (id, len) -> u16 id <> t ->
    spec_step SIZE ind s (VPop t) (RPop (Err WrongToken)) s
| spec_pop s t io l1 l2 id len :
    s_tbl s = l1 ++ (t, io) :: l2 -> s_taken s <> us_idx (s_used s) ->
    us_ring (s_used s) !! Z.to_nat (s_taken s mod SIZE) = Some (id, len) -> u16 id = t ->
    spec_step SIZE ind s (VPop t) (RPop (Ok len)) (mkS (l1 ++ l2) ((s_taken s + 1) mod 2 ^ 16) (s_used s))
| spec_used s u : spec_step SIZE ind s (VUsed u) RNone (mkS (s_tbl s) (s_taken s) u)
| spec_device s d a u : spec_step SIZE ind s (VDevice d a u) RNone (mkS (s_tbl s) (s_taken s) u)
| spec_notify s e : spec_step SIZE ind s (VNotify e) RNone s.

Inductive spec_run (SIZE : Z) (ind : bool) : sstate -> list vop -> list vres -> sstate -> Prop :=
| spec_nil s : spec_run SIZE ind s [] [] s
| spec_cons s o r s' os rs s'' :
    spec_step SIZE ind s o r s' -> spec_run SIZE ind s' os rs s'' -> spec_run SIZE ind s (o :: os) (r :: rs) s''.

(** ** Refinement *)

Section refinement.
Context `{Hal} (k : Z) (Hk : 0 <= k < 16).
Abbreviation SIZE := (2 ^ k).

Definition entry (f : flight) : Z * (list Buffer * list Buffer) := (f_token f, (f_ins f, f_outs f)).

Definition refines (st : VirtQueue * table) (s : sstate) (free : list nat) (fs : list flight) : Prop :=
  qinv k st.1 free fs /\ st.2 = entry <$> fs /\ 0 <= avail_idx st.1 < 2 ^ 16 /\ 0 <= last_used_idx st.1 < 2 ^ 16 /\
  s = mkS st.2 (last_used_idx st.1) (used st.1).

Lemma slot_mod x : Z.land x (SIZE - 1) = x mod SIZE.
Proof using Hk. clear -Hk. replace (SIZE - 1) with (Z.ones k) by (rewrite Z.ones_equiv; lia). apply Z.land_ones. lia. Qed.

Lemma token_fresh q free fs f c :
  qinv k q free fs -> f ∈ fs -> c ∈ free -> f_token f <> Z.of_nat c.
Proof.
  intros Hq Hf Hc. pose proof (qinv_nodup _ _ _ _ Hq) as (_ & Hdis & _)%NoDup_app.
  pose proof (qi_flights _ _ _ _ Hq) as Hok. rewrite Forall_forall in Hok.
  destruct (flight_cells_cons _ _ (Hok f Hf)) as (c' & cs & E). unfold f_token. rewrite E.
  intros ->%Nat2Z.inj. eapply Hdis; [done|]. eapply busy_elem; [done|]. rewrite E. by left.
Qed.

(** The number of descriptors in use is what the table costs. *)
Lemma flight_cost q free fs f :
  qinv k q free fs -> f ∈ fs -> zlen (f_cells f) = cost (indirect q) (entry f).
Proof.
  intros Hq Hf. pose proof (qi_flights _ _ _ _ Hq) as Hok. rewrite Forall_forall in Hok.
  pose proof (Hok f Hf) as (Hbs & _ & _ & Hc). unfold cost, entry. cbn.
  destruct (indirect q) eqn:Ei.
  - pose proof (qi_indirect _ _ _ _ Hq Ei) as Hi. rewrite Forall_forall in Hi. unfold zlen. by rewrite (Hi f Hf).
  - pose proof (qi_direct _ _ _ _ Hq Ei) as Hi. rewrite Forall_forall in Hi. rewrite (Hi f Hf) in Hc.
    destruct Hc as [Hc%chain_length _]. rewrite <- input_output_length, <- Hbs. unfold zlen. rewrite length_fmap. lia.
Qed.

Lemma occupied_used q free fs : qinv k q free fs -> num_used q = occupied (indirect q) (entry <$> fs).
Proof.
  intros Hq. rewrite (qi_num _ _ _ _ Hq).
  assert (forall f, f ∈ fs -> zlen (f_cells f) = cost (indirect q) (entry f)) as Hc by (intros; by eapply flight_cost).
  clear -Hc. induction fs as [|f fs IH]; [done|]. unfold busy_cells in *. cbn [fmap list_fmap concat occupied].
  rewrite zlen_app, (Hc f) by left. rewrite IH; [done|]. intros; apply Hc. by right.
Qed.

Lemma io_ok ins outs :
  Forall (fun x => 0 < buf_len x < 2 ^ 32) ins -> Forall (fun x => 0 < buf_len x < 2 ^ 32) outs ->
  Forall buffer_ok (input_output ins outs).
Proof.
  intros Hi Ho. unfold input_output. rewrite Forall_app, !Forall_fmap. split; (eapply Forall_impl; [done|]); by intros x Hx.
Qed.

(** Each operation of the queue is a step of the specification. *)
Lemma add_step q tbl s free fs ins outs :
  refines (q, tbl) s free fs -> op_ok SIZE (VAdd ins outs) ->
  exists r st' s' free' fs', vexec SIZE (VAdd ins outs) (q, tbl) = Ret (r, st') /\
    spec_step SIZE (indirect q) s (VAdd ins outs) r s' /\ refines st' s' free' fs' /\ indirect st'.1 = indirect q /\
    ((st' = (q, tbl) /\ fs' = fs /\ free' = free /\ forall t, r <> RAdd (Ok t)) \/
     exists f, f_ins f = ins /\ f_outs f = outs /\ r = RAdd (Ok (f_token f)) /\ fs' = f :: fs /\ free = f_cells f ++ free' /\ add_result k q st'.1 f).
Proof using Hk.
  intros (Hq & Ht & Ha & Hl & ->) [Hi Ho]. cbn [fst snd] in *. cbn [vexec].
  pose proof (occupied_used _ _ _ Hq) as Hocc. rewrite <- Ht in Hocc.
  destruct (decide (ins = [] /\ outs = [])) as [[-> ->]|Hne].
  { exists (RAdd (Err InvalidParam)), (q, tbl), (mkS tbl (last_used_idx q) (used q)), free, fs. split_and!; try done; [constructor|by left]. }
  assert (0 < zlen ins + zlen outs) as Hn.
  { unfold zlen. destruct ins, outs; cbn [length]; try lia. by destruct Hne. }
  assert (needed q (zlen ins + zlen outs) = cost (indirect q) (0, (ins, outs))) as Hneed by done.
  destruct (decide (num_used q + needed q (zlen ins + zlen outs) <= SIZE /\ zlen ins + zlen outs <= SIZE)) as [[H1 H2]|Hfull].
  - destruct (add_ok k Hk q free fs ins outs Hq Ha (io_ok _ _ Hi Ho) Hn H1 H2) as (f & free' & q' & -> & E1 & E2 & Hfree & Hcl & Hres & Hinv).
    cbn [obind]. pose proof (ar_same _ _ _ _ Hres) as (S1 & S2 & S3 & S4 & S5).
    destruct (flight_cells_cons q' f) as (c & cs & Ec). { pose proof (qi_flights _ _ _ _ Hinv) as Hf. by apply Forall_cons in Hf as [? _]. }
    assert (c ∈ free) as Hc by (rewrite Hfree, Ec; by left).
    assert (f_token f = Z.of_nat c) as Etok by (unfold f_token; by rewrite Ec).
    exists (RAdd (Ok (f_token f))), (q', (f_token f, (ins, outs)) :: tbl), (mkS ((f_token f, (ins, outs)) :: tbl) (last_used_idx q) (used q)), free', (f :: fs).
    split_and!; try done.
    + constructor; cbn; [done|split; lia| |].
      * assert (c ∈ seq 0 (Z.to_nat SIZE)) as Hs by (rewrite <- (qi_cells _ _ _ _ Hq); rewrite elem_of_app; by left).
        apply elem_of_seq in Hs. pose proof (size_range k Hk). lia.
      * rewrite Ht, <- list_fmap_compose. intros (f' & E & Hf')%list_elem_of_fmap. cbn in E.
        eapply (token_fresh q free fs f' c); [done..|]. congruence.
    + unfold refines; cbn. rewrite S2, S3, Ht. split_and!; try done; try lia.
      * unfold entry. by rewrite E1, E2.
      * destruct (ar_idx _ _ _ _ Hres) as [-> _]. apply (Z.mod_pos_bound _ (2 ^ 16)). lia.
      * destruct (ar_idx _ _ _ _ Hres) as [-> _]. apply (Z.mod_pos_bound _ (2 ^ 16)). lia.
    + right. by exists f.
  - rewrite (add_full k Hk q ins outs Ha Hn) by lia.
    exists (RAdd (Err QueueFull)), (q, tbl), (mkS tbl (last_used_idx q) (used q)), free, fs. split_and!; try done; [|by left].
    constructor; cbn; [done|]. unfold room. rewrite <- Hocc, <- Hneed. lia.
Qed.

Lemma vfind_some t fs i :
  vfind t (entry <$> fs) = Some i ->
  exists l1 f l2, fs = l1 ++ f :: l2 /\ length l1 = i /\ f_token f = t.
Proof.
  intros Hf. apply position_Some in Hf as (e & He & Ht & _). apply Z.eqb_eq in Ht.
  rewrite list_lookup_fmap in He. destruct (fs !! i) as [f|] eqn:Ef; [|done]. injection He as <-.
  exists (take i fs), f, (drop (S i) fs). split_and!; [by rewrite take_drop_middle| |done].
  rewrite length_take. apply lookup_lt_Some in Ef. lia.
Qed.

Lemma vfind_none t (tbl : table) : vfind t tbl = None -> t ∉ tbl.*1.
Proof.
  intros Hf%position_None (e & -> & He)%list_elem_of_fmap. rewrite Forall_forall in Hf.
  specialize (Hf e He). by apply Z.eqb_neq in Hf.
Qed.

Lemma pop_step q tbl s free fs t :
  refines (q, tbl) s free fs ->
  exists r st' s' free' fs', vexec SIZE (VPop t) (q, tbl) = Ret (r, st') /\
    spec_step SIZE (indirect q) s (VPop t) r s' /\ refines st' s' free' fs' /\ indirect st'.1 = indirect q /\
    ((st' = (q, tbl) /\ fs' = fs /\ free' = free /\ forall t, r <> RAdd (Ok t)) \/
     exists l1 f l2, fs = l1 ++ f :: l2 /\ fs' = l1 ++ l2 /\ free' = f_cells f ++ free /\ (exists r', r = RPop r') /\ pop_result q st'.1 f).
Proof using Hk.
  intros (Hq & Ht & Ha & Hl & ->). cbn [fst snd] in *. cbn [vexec]. set (s := mkS _ _ _).
  assert (refines (q, tbl) s free fs) as Hstay by done.
  destruct (vfind t tbl) as [i|] eqn:Ef.
  2: { exists RNone, (q, tbl), s, free, fs. split_and!; try done; [|by left]. constructor. by apply vfind_none. }
  rewrite Ht in Ef. destruct (vfind_some _ _ _ Ef) as (l1 & f & l2 & -> & Hi & <-).
  assert (tbl = (entry <$> l1) ++ entry f :: (entry <$> l2)) as Ht' by (by rewrite Ht, fmap_app).
  assert (i = length (entry <$> l1)) as Hi' by (by rewrite length_fmap).
  assert (tbl !! i = Some (entry f)) as -> by (rewrite Ht', Hi'; apply list_lookup_middle; done).
  assert (f_token f ∈ tbl.*1) as Hin by (rewrite Ht', fmap_app; apply elem_of_app; right; left).
  destruct (used_slot k Hk q free l1 f l2 Hq Hl) as (id & len & Hslot).
  pose proof (vq_pop_ok k Hk q free l1 f l2 Hq Hl id len Hslot) as Hrun. cbv zeta in Hrun. rewrite slot_mod in Hslot.
  cbn [entry fst snd]. unfold can_pop in Hrun.
  destruct (Z.eqb_spec (last_used_idx q) (us_idx (used q))) as [Eidx|Eidx]; cbn [negb] in Hrun.
  { rewrite Hrun. exists (RPop (Err NotReady)), (q, tbl), s, free, (l1 ++ f :: l2). split_and!; try done; [|by left]. by constructor. }
  destruct (Z.eqb_spec (u16 id) (f_token f)) as [Eid|Eid]; cbn [negb] in Hrun.
  2: { rewrite Hrun. exists (RPop (Err WrongToken)), (q, tbl), s, free, (l1 ++ f :: l2). split_and!; try done; [|by left]. by econstructor. }
  destruct Hrun as (q' & -> & Hres & Hinv). pose proof (pr_same _ _ _ Hres) as (S1 & S2 & S3 & S4 & S5).
  pose proof (pr_last _ _ _ Hres) as Hlast. cbn [obind].
  assert (delete i tbl = entry <$> (l1 ++ l2)) as -> by (rewrite Ht', Hi', delete_middle; by rewrite fmap_app).
  eexists (RPop (Ok len)), _, (mkS (entry <$> (l1 ++ l2)) ((last_used_idx q + 1) mod 2 ^ 16) (used q)), (f_cells f ++ free), (l1 ++ l2).
  split_and!; try done.
  - rewrite fmap_app. apply (spec_pop SIZE (indirect q) s (f_token f) (f_ins f, f_outs f) _ _ id len); done.
  - unfold refines; cbn [fst snd]. rewrite S2, S3, Hlast. split_and!; try done; try lia; apply (Z.mod_pos_bound _ (2 ^ 16)); lia.
  - right. exists l1, f, l2. split_and!; try done. by eexists.
Qed.

(** What the device and the notification switch do. *)
Lemma other_step q tbl s free fs o :
  refines (q, tbl) s free fs -> op_ok SIZE o -> match o with VUsed _ | VDevice _ _ _ | VNotify _ => True | _ => False end ->
  exists q' s', vexec SIZE o (q, tbl) = Ret (RNone, (q', tbl)) /\
    spec_step SIZE (indirect q) s o RNone s' /\ refines (q', tbl) s' free fs /\ indirect q' = indirect q /\ hal_log q' = hal_log q /\
    desc_shadow q' = desc_shadow q /\ indirect_lists q' = indirect_lists q /\
    match o with VDevice d a _ => desc q' = d /\ avail q' = a
    | _ => desc q' = desc q /\ av_ring (avail q') = av_ring (avail q) /\ av_idx (avail q') = av_idx (avail q) end /\
    avail_idx q' = avail_idx q.
Proof using Hk.
  intros (Hq & Ht & Ha & Hl & ->) Hop Ho. cbn [fst snd] in *. destruct o; try done; cbn [vexec op_ok] in *.
  - eexists _, _. split_and!; try done; [apply spec_used|].
    split_and!; cbn; try done; try lia. eapply (qinv_private k q); try done; cbn; try apply Hq; unfold zlen in *; lia.
  - destruct Hop as (L1 & L2 & L3). eexists _, _. split_and!; try done; [apply spec_device|].
    split_and!; cbn; try done; try lia. eapply (qinv_private k q); try done; cbn; unfold zlen in *; lia.
  - eexists _, _. split_and!; try done; [apply spec_notify|..]; unfold set_dev_notify; destruct (event_idx q); try done.
    split_and!; cbn; try done; try lia. eapply (qinv_private k q); try done; apply Hq.
Qed.

(** The ways an operation moves the chains in flight. *)
Inductive moved (q : VirtQueue) (free : list nat) (fs : list flight) (o : vop) (q' : VirtQueue) :
    vres -> list nat -> list flight -> Prop :=
| moved_add f free' : free = f_cells f ++ free' -> add_result k q q' f -> qinv k q free fs -> qinv k q' free' (f :: fs) ->
    moved q free fs o q' (RAdd (Ok (f_token f))) free' (f :: fs)
| moved_pop r l1 f l2 : fs = l1 ++ f :: l2 -> pop_result q q' f -> qinv k q free fs -> qinv k q' (f_cells f ++ free) (l1 ++ l2) ->
    moved q free fs o q' (RPop r) (f_cells f ++ free) (l1 ++ l2)
| moved_not r : (forall t, r <> RAdd (Ok t)) ->
    hal_log q' = hal_log q -> desc_shadow q' = desc_shadow q -> indirect_lists q' = indirect_lists q ->
    match o with VDevice d a _ => desc q' = d /\ avail q' = a
    | _ => desc q' = desc q /\ av_ring (avail q') = av_ring (avail q) /\ av_idx (avail q') = av_idx (avail q) end ->
    avail_idx q' = avail_idx q -> moved q free fs o q' r free fs.

Lemma vexec_step st s free fs o :
  refines st s free fs -> op_ok SIZE o ->
  exists r st' s' free' fs', vexec SIZE o st = Ret (r, st') /\ spec_step SIZE (indirect st.1) s o r s' /\
    refines st' s' free' fs' /\ indirect st'.1 = indirect st.1 /\ moved st.1 free fs o st'.1 r free' fs'.
Proof using Hk.
  destruct st as [q tbl]. intros Hr Hop.
  destruct (match o with VUsed _ | VDevice _ _ _ | VNotify _ => true | _ => false end) eqn:Eo.
  { destruct (other_step _ _ _ _ _ o Hr Hop) as (q' & s' & Hx & Hs & Hr' & Hi & Hlog & Hsh & Hil & Hd & Ha); [by destruct o|].
    exists RNone, (q', tbl), s', free, fs. split_and!; try done. by apply moved_not. }
  destruct o as [ins outs|t| | |]; try done.
  - destruct (add_step _ _ _ _ _ _ _ Hr Hop) as (r & st' & s' & free' & fs' & Hx & Hs & Hr' & Hi & Hm).
    exists r, st', s', free', fs'. split_and!; try done.
    destruct Hm as [(-> & -> & -> & Hn)|(f & _ & _ & -> & -> & Hf & Hres)]; [by apply moved_not|].
    apply moved_add; [done|done|apply Hr|apply Hr'].
  - destruct (pop_step _ _ _ _ _ t Hr) as (r & st' & s' & free' & fs' & Hx & Hs & Hr' & Hi & Hm).
    exists r, st', s', free', fs'. split_and!; try done.
    destruct Hm as [(-> & -> & -> & Hn)|(l1 & f & l2 & Hf & -> & -> & [r' ->] & Hres)]; [by apply moved_not|].
    apply moved_pop; [done|done|apply Hr|apply Hr'].
Qed.

(** The tokens announced, the newest first. *)
Fixpoint announced (rs : list vres) (hist : list Z) : list Z :=
  match rs with
  | [] => hist
  | RAdd (Ok t) :: rs' => announced rs' (t :: hist)
  | _ :: rs' => announced rs' hist
  end.

Lemma announced_app rs rs' hist : announced (rs ++ rs') hist = announced rs' (announced rs hist).
Proof. revert hist. induction rs as [|[[]| |] rs IH]; intros hist; cbn; done. Qed.

(** A property the moves keep is kept by every run, and no run panics. *)
Lemma vrun_keeps (P : list Z -> VirtQueue -> list flight -> Prop) os st s free fs hist :
  (forall o r q free fs q' free' fs' hist, o ∈ os -> moved q free fs o q' r free' fs' -> P hist q fs -> P (announced [r] hist) q' fs') ->
  refines st s free fs -> Forall (op_ok SIZE) os -> P hist st.1 fs ->
  exists rs st' s' free' fs', vrun SIZE os st = Ret (rs, st') /\ spec_run SIZE (indirect st.1) s os rs s' /\
    refines st' s' free' fs' /\ P (announced rs hist) st'.1 fs'.
Proof using Hk.
  intros HP. revert st s free fs hist. induction os as [|o os IH]; intros st s free fs hist Hr Hop HPst.
  { exists [], st, s, free, fs. split_and!; try done. constructor. }
  apply Forall_cons in Hop as [Ho Hop].
  destruct (vexec_step st s free fs o Hr Ho) as (r & st1 & s1 & free1 & fs1 & Hx & Hs & Hr1 & Hi & Hm).
  destruct (IH ltac:(intros; eapply HP; [by right|done|done]) st1 s1 free1 fs1 (announced [r] hist) Hr1 Hop)
    as (rs & st2 & s2 & free2 & fs2 & Hx2 & Hs2 & Hr2 & HP2).
  { eapply HP; [by left|done|done]. }
  exists (r :: rs), st2, s2, free2, fs2. cbn [vrun]. rewrite Hx. cbn [obind]. rewrite Hx2. split_and!; try done.
  - econstructor; [done|]. by rewrite <- Hi.
  - change (announced (r :: rs) hist) with (announced ([r] ++ rs) hist). by rewrite announced_app.
Qed.

(** ** A new queue *)

Lemma linked_lookup i : (i < Z.to_nat SIZE)%nat ->
  linked SIZE !! i = Some (if Z.of_nat i <? SIZE - 1 then set_next zero_desc (Z.of_nat i + 1) else zero_desc).
Proof. intros Hi. unfold linked. rewrite list_lookup_fmap, lookup_seq_lt by done. done. Qed.

Lemma linked_chain n i : (i + n = Z.to_nat SIZE)%nat -> free_chain (linked SIZE) (Z.of_nat i) (seq i n).
Proof.
  revert i. induction n as [|n IH]; intros i Hi; [done|]. cbn [seq free_chain]. split; [done|].
  eexists. rewrite linked_lookup by lia. split; [done|]. destruct n as [|n]; [done|].
  destruct (Z.ltb_spec (Z.of_nat i) (SIZE - 1)); [|lia]. cbn [d_next set_next].
  replace (Z.of_nat i + 1) with (Z.of_nat (S i)) by lia. apply IH. lia.
Qed.

Definition fresh (q : VirtQueue) : Prop :=
  qinv k q (seq 0 (Z.to_nat SIZE)) [] /\ avail_idx q = 0 /\ last_used_idx q = 0 /\ av_idx (avail q) = 0.

Lemma new_fresh tr idx ind ev log q set :
  new SIZE tr idx ind ev log = Ret (Ok (q, set)) -> fresh q /\ indirect q = ind /\ event_idx q = ev /\ us_idx (used q) = 0.
Proof.
  intros Hnew. unfold new in Hnew. destruct (queue_used tr); [done|]. destruct (_ <? _); [done|].
  destruct (if requires_legacy_layout tr then _ else _) as [[[layout|] log']| |]; try done. cbn [obind] in Hnew.
  destruct (descriptors_vaddr _); try done. destruct (avail_vaddr _); try done. destruct (used_vaddr _); try done.
  cbn [obind] in Hnew. injection Hnew as <- _. split; [|done]. split; [|done].
  assert (length (linked SIZE) = Z.to_nat SIZE) as Hl by (unfold linked; by rewrite length_fmap, length_seq).
  constructor; cbn; rewrite ?length_replicate; try done.
  - by rewrite app_nil_r.
  - by apply (linked_chain (Z.to_nat SIZE) 0).
  - intros c [Hc1 Hc2]%elem_of_seq. apply lookup_replicate. split; [done|lia].
Qed.

Lemma fresh_refines q : fresh q -> refines (q, []) (mkS [] 0 (used q)) (seq 0 (Z.to_nat SIZE)) [].
Proof. intros (Hq & Ha & Hl & _). unfold refines; cbn. rewrite Ha, Hl. split_and!; done. Qed.

(** ** Giving buffers back *)

Definition shared_of (e : hal_event) : option sbuf := match e with Share b d p => Some (b, d, p) | _ => None end.
Definition unshared_of (e : hal_event) : option sbuf := match e with Unshare p b d => Some (b, d, p) | _ => None end.

Lemma shares_of bs : omap shared_of (share_event <$> bs) = bs /\ omap unshared_of (share_event <$> bs) = [].
Proof. induction bs as [|[[b d] p] bs [IH1 IH2]]; [done|]. cbn. split; [f_equal; exact IH1|exact IH2]. Qed.

Lemma unshares_of bs : omap unshared_of (unshare_event <$> bs) = bs /\ omap shared_of (unshare_event <$> bs) = [].
Proof. induction bs as [|[[b d] p] bs [IH1 IH2]]; [done|]. cbn. split; [f_equal; exact IH1|exact IH2]. Qed.

Lemma dma_log n d log r log' :
  Dma_new n d log = (r, log') -> omap shared_of log' = omap shared_of log /\ omap unshared_of log' = omap unshared_of log.
Proof.
  unfold Dma_new. destruct (hal_dma_alloc log n d) as [p v]. intros [= <- <-]. rewrite !omap_app. cbn. by rewrite !app_nil_r.
Qed.

Lemma new_log tr idx ind ev log q set :
  new SIZE tr idx ind ev log = Ret (Ok (q, set)) ->
  omap shared_of (hal_log q) = omap shared_of log /\ omap unshared_of (hal_log q) = omap unshared_of log.
Proof.
  unfold new. destruct (queue_used tr); [done|]. destruct (_ <? _); [done|]. intros Hn.
  assert (exists layout, (if requires_legacy_layout tr then allocate_legacy SIZE log else allocate_flexible SIZE log) =
    Ret (Ok layout, hal_log q)) as [layout Hl].
  { destruct (if requires_legacy_layout tr then _ else _) as [[[layout|] log']| |]; try done. cbn [obind] in Hn.
    destruct (descriptors_vaddr _); try done. destruct (avail_vaddr _); try done. destruct (used_vaddr _); try done.
    cbn [obind] in Hn. injection Hn as <- _. by exists layout. }
  clear Hn. unfold allocate_legacy, allocate_flexible in Hl.
  destruct (requires_legacy_layout tr), (queue_part_sizes SIZE) as [[[d a] u]| |]; try done; cbn [obind] in Hl.
  - destruct (Dma_new _ _ log) as [[dma|] log'] eqn:E; [|done]. injection Hl as _ <-. by eapply dma_log.
  - destruct (Dma_new _ _ log) as [[dma|] log'] eqn:E; [|done]. destruct (Dma_new _ _ log') as [[dma'|] log''] eqn:E'.
    + injection Hl as _ <-. apply dma_log in E as [<- <-]. by eapply dma_log.
    + by destruct (Dma_drop _ _).
Qed.

(** What was shared and not given back is what the chains in flight hold. *)
Definition balanced (q : VirtQueue) (fs : list flight) : Prop :=
  omap shared_of (hal_log q) ≡ₚ omap unshared_of (hal_log q) ++ concat (f_shared <$> fs).

Lemma balanced_moved q free fs o q' r free' fs' :
  moved q free fs o q' r free' fs' -> balanced q fs -> balanced q' fs'.
Proof.
  unfold balanced. intros Hm Hb. destruct Hm as [f free' _ Hres _ _|r l1 f l2 -> Hres _ _|r _ Hlog _ _ _ _].
  - rewrite (ar_log _ _ _ _ Hres), !omap_app. destruct (shares_of (f_shared f)) as [-> ->]. rewrite Hb, app_nil_r.
    cbn. rewrite <- (assoc_L (++)). f_equiv. apply Permutation_app_comm.
  - destruct (pr_log _ _ _ Hres) as (log & -> & Hlog). rewrite !omap_app, Hb.
    rewrite Hlog. destruct (unshares_of (f_shared f)) as [-> ->]. rewrite app_nil_r, !fmap_app, !concat_app. cbn.
    rewrite <- !(assoc_L (++)). f_equiv. by rewrite Permutation_app_swap_app.
  - by rewrite Hlog.
Qed.

(** ** What the device sees *)

Definition visible (hist : list Z) (q : VirtQueue) (fs : list flight) : Prop :=
  (forall f c, f ∈ fs -> c ∈ f_cells f -> desc q !! c = desc_shadow q !! c) /\
  (forall f x, f ∈ fs -> x ∈ f_bs f -> answered x /\ share_event x ∈ hal_log q) /\
  (forall j t, (j < Z.to_nat SIZE)%nat -> hist !! j = Some t ->
     av_ring (avail q) !! Z.to_nat ((avail_idx q - 1 - Z.of_nat j) mod SIZE) = Some t) /\
  av_idx (avail q) = avail_idx q.

Lemma mod_u16 x : u16 x mod SIZE = x mod SIZE.
Proof using Hk.
  clear -Hk. apply Z.mod_mod_divide. exists (2 ^ (16 - k)). rewrite <- Z.pow_add_r by lia. f_equal. lia.
Qed.

Lemma ring_after_add q q' f free fs hist :
  qinv k q free fs -> 0 <= avail_idx q < 2 ^ 16 -> add_result k q q' f ->
  (forall j t, (j < Z.to_nat SIZE)%nat -> hist !! j = Some t ->
     av_ring (avail q) !! Z.to_nat ((avail_idx q - 1 - Z.of_nat j) mod SIZE) = Some t) ->
  forall j t, (j < Z.to_nat SIZE)%nat -> (f_token f :: hist) !! j = Some t ->
     av_ring (avail q') !! Z.to_nat ((avail_idx q' - 1 - Z.of_nat j) mod SIZE) = Some t.
Proof using Hk.
  intros Hq Ha Hres Hold j t Hj Ht. pose proof (size_range k Hk) as Hsz.
  destruct (ar_idx _ _ _ _ Hres) as [Hidx _].
  assert ((avail_idx q' - 1 - Z.of_nat j) mod SIZE = (avail_idx q - Z.of_nat j) mod SIZE) as ->.
  { rewrite Hidx. replace (u16 (avail_idx q + 1) - 1 - Z.of_nat j) with (u16 (avail_idx q + 1) + (- 1 - Z.of_nat j)) by lia.
    rewrite <- Zplus_mod_idemp_l, mod_u16, Zplus_mod_idemp_l. f_equal. lia. }
  rewrite (ar_ring _ _ _ _ Hres), slot_mod. pose proof (Z.mod_pos_bound (avail_idx q) SIZE ltac:(lia)).
  pose proof (Z.mod_pos_bound (avail_idx q - Z.of_nat j) SIZE ltac:(lia)).
  destruct j as [|j].
  - injection Ht as <-. rewrite Z.sub_0_r. apply list_lookup_insert_eq. rewrite (qi_ring _ _ _ _ Hq). lia.
  - cbn in Ht. rewrite list_lookup_insert_ne.
    + replace (avail_idx q - Z.of_nat (S j)) with (avail_idx q - 1 - Z.of_nat j) by lia. apply Hold; [lia|done].
    + intros E. apply Z2Nat.inj in E; [|lia..].
      assert (Z.of_nat (S j) mod SIZE = 0) as Hz.
      { replace (Z.of_nat (S j)) with (avail_idx q - (avail_idx q - Z.of_nat (S j))) by lia.
        by rewrite Zminus_mod, <- E, Z.sub_diag, Z.mod_0_l by lia. }
      rewrite Z.mod_small in Hz; lia.
Qed.

(** Cells of distinct places are distinct. *)
Lemma cells_apart q free f fs f' c :
  qinv k q free fs -> (exists free', free = f_cells f ++ free') \/ (exists l1 l2, fs = l1 ++ f :: l2 /\ f' ∈ l1 ++ l2) ->
  f' ∈ fs -> c ∈ f_cells f' -> c ∉ f_cells f.
Proof.
  intros Hq Hcase Hf' Hc Hc'. pose proof (qinv_nodup _ _ _ _ Hq) as Hnd. destruct Hcase as [[free' ->]|(l1 & l2 & -> & Hin)].
  - apply NoDup_app in Hnd as (_ & Hdis & _). eapply Hdis; [apply elem_of_app; by left|by eapply busy_elem].
  - apply NoDup_app in Hnd as (_ & _ & Hnd). rewrite busy_split in Hnd. apply NoDup_app in Hnd as (_ & Hdis & _).
    eapply Hdis; [done|]. by eapply busy_elem.
Qed.

Definition honest (o : vop) : Prop := match o with VDevice _ _ _ => False | _ => True end.

Lemma visible_moved o r q free fs q' free' fs' hist :
  honest o -> 0 <= avail_idx q < 2 ^ 16 -> moved q free fs o q' r free' fs' -> visible hist q fs ->
  visible (announced [r] hist) q' fs'.
Proof using Hk.
  intros Ho Ha Hm (V1 & V2 & V3 & V4). destruct Hm as [f free' Hf Hres Hq Hq'|r l1 f l2 -> Hres Hq Hq'|r Hr Hlog Hsh Hil Hd Hai].
  - split_and!.
    + intros f' c Hin Hc. rewrite (ar_desc _ _ _ _ Hres). destruct (decide _) as [|Hn]; [done|].
      rewrite (ar_shadow _ _ _ _ Hres) by done. apply elem_of_cons in Hin as [->|Hin]; [done|by eapply V1].
    + intros f' x Hin Hx. rewrite (ar_log _ _ _ _ Hres), elem_of_app.
      apply elem_of_cons in Hin as [->|Hin]; [|destruct (V2 f' x Hin Hx); by auto].
      pose proof (ar_answered _ _ _ _ Hres) as Hans. rewrite Forall_forall in Hans. split; [by apply Hans|right].
      apply list_elem_of_fmap_2. unfold f_shared. apply elem_of_app. by left.
    + cbn [announced]. by apply (ring_after_add q q' f free fs hist).
    + apply (ar_idx _ _ _ _ Hres).
  - assert (forall f', f' ∈ l1 ++ l2 -> f' ∈ l1 ++ f :: l2) as Hsub
      by (intros f'; rewrite !elem_of_app, elem_of_cons; tauto).
    pose proof (pr_same _ _ _ Hres) as (_ & _ & S3 & _). destruct (pr_ring _ _ _ Hres) as [R1 R2]. split_and!.
    + intros f' c Hin Hc. assert (c ∉ f_cells f) as Hn by (eapply (cells_apart q free f _ f' c); eauto 10).
      rewrite (pr_desc _ _ _ Hres), (pr_shadow _ _ _ Hres) by done. eapply V1; [by apply Hsub|done].
    + intros f' x Hin Hx. destruct (pr_log _ _ _ Hres) as (log & -> & _). rewrite elem_of_app.
      destruct (V2 f' x (Hsub f' Hin) Hx); by auto.
    + rewrite R1, S3. exact V3.
    + congruence.
  - assert (announced [r] hist = hist) as -> by (destruct r as [[]| |]; try done; by destruct (Hr a)).
    assert (desc q' = desc q /\ av_ring (avail q') = av_ring (avail q) /\ av_idx (avail q') = av_idx (avail q)) as (E1 & E2 & E3)
      by (by destruct o). unfold visible. rewrite E1, E2, E3, Hlog, Hsh, Hai. done.
Qed.

(** The device reads the request of a chain in flight. *)
Lemma request_chain q free fs f :
  qinv k q free fs -> f ∈ fs -> (forall f c, f ∈ fs -> c ∈ f_cells f -> desc q !! c = desc_shadow q !! c) ->
  device_request SIZE q (f_token f) = Some (view <$> f_bs f).
Proof using Hk.
  intros Hq Hf V1. pose proof (qi_flights _ _ _ _ Hq) as Hok. rewrite Forall_forall in Hok.
  pose proof (Hok f Hf) as Hfo. destruct (flight_cells_cons _ _ Hfo) as (c & cs & Ec). destruct Hfo as (_ & Hne & _ & Hb).
  unfold device_request, f_token. rewrite Ec, Nat2Z.id, (V1 f c Hf) by (rewrite Ec; left).
  destruct (f_box f) as [[box p]|].
  - destruct Hb as (Hl & c' & n & Ec' & Hd & Hi). rewrite Ec in Ec'. injection Ec' as -> ->. rewrite Hd, Hi. cbn [mbind option_bind d_flags d_len].
    change (contains INDIRECT INDIRECT) with true. cbv iota. unfold zlen at 2. rewrite indirect_of_length. fold (zlen (f_bs f)).
    rewrite Z.eqb_refl. pose proof (indirect_of_chain 0 [] (f_bs f) ltac:(rewrite zlen_nil; lia)) as Hch. cbn in Hch.
    apply (chain_device _ _ _ 0%nat _ Hch); [by destruct (f_bs f)|]. by rewrite length_seq.
  - destruct Hb as [Hch Hn]. rewrite Ec in Hch. destruct (f_bs f) as [|s bs] eqn:Eb; [done|]. pose proof Hch as [(n & Hd & _) _].
    rewrite Hd. cbn [mbind option_bind].
    assert (contains (d_flags (filled (match cs with [] => 0 | _ => NEXT end) s n)) INDIRECT = false) as ->
      by (destruct cs; cbn; unfold contains; by destruct (s.1.2)).
    apply (chain_device _ (c :: cs)); [|done|].
    + eapply chain_ext; [|done]. intros c' Hc'. apply (V1 f); [done|by rewrite Ec].
    + apply list_elem_of_split in Hf as (l1 & l2 & ->). pose proof (Permutation_length (qi_cells _ _ _ _ Hq)) as Hp.
      rewrite length_app, (Permutation_length (busy_split _ _ _)), length_app, length_seq, Ec in Hp. lia.
Qed.

Lemma request_read q free fs f hist :
  qinv k q free fs -> f ∈ fs -> visible hist q fs -> device_request SIZE q (f_token f) = Some (view <$> f_bs f).
Proof using Hk. intros Hq Hf (V1 & _). by eapply request_chain. Qed.

Lemma visible_index o r q free fs q' free' fs' hist :
  honest o -> moved q free fs o q' r free' fs' -> visible hist q fs /\ 0 <= avail_idx q < 2 ^ 16 ->
  visible (announced [r] hist) q' fs' /\ 0 <= avail_idx q' < 2 ^ 16.
Proof using Hk.
  intros Ho Hm [Hv Ha]. split; [by eapply visible_moved|].
  destruct Hm as [f free' _ Hres _ _|r l1 f l2 _ Hres _ _|r _ _ _ _ _ Hai].
  - destruct (ar_idx _ _ _ _ Hres) as [-> _]. apply Z.mod_pos_bound. lia.
  - by destruct (pr_same _ _ _ Hres) as (_ & _ & -> & _).
  - by rewrite Hai.
Qed.
End refinement.

(** [SIZE_OK]: a power of two that fits a [u16]. *)
Definition size_ok (SIZE : Z) : Prop := is_power_of_two SIZE = true /\ SIZE <= 65535.

Lemma power_of_two SIZE : size_ok SIZE -> exists k, 0 <= k < 16 /\ SIZE = 2 ^ k.
Proof.
  intros [[Hp Hl]%andb_true_iff Hm]. apply Z.ltb_lt in Hp. apply Z.eqb_eq in Hl. exists (Z.log2 SIZE).
  pose proof (Z.log2_spec SIZE Hp) as [H1 H2]. pose proof (Z.log2_nonneg SIZE).
  split.
  - split; [lia|]. apply Z.log2_lt_pow2; lia.
  - destruct (decide (SIZE = 2 ^ Z.log2 SIZE)) as [|Hne]; [done|].
    assert (Z.log2 (SIZE - 1) = Z.log2 SIZE) as E by (apply Z.log2_unique; lia).
    assert (Z.testbit (Z.land SIZE (SIZE - 1)) (Z.log2 SIZE) = true) as Hb.
    { rewrite Z.land_spec, Z.bit_log2 by done. rewrite <- E at 1. apply Z.bit_log2. lia. }
    rewrite Hl in Hb. by rewrite Z.bits_0 in Hb.
Qed.

(** ** The theorems *)

Section theorems.
Context `{Hal} (SIZE : Z) (tr : Transport) (idx : Z) (ind ev : bool) (q0 : VirtQueue) (set : QueueSet).
Context (os : list vop).

(** C5: a virtqueue is a table of outstanding requests.  From a new queue, any
    sequence of additions, completions (each with the buffers of its token),
    notification switches and device writes, malicious ones to all the shared
    memory included, runs without a panic and answers as the specification: a
    request is refused exactly when its descriptors do not fit beside those of
    the outstanding ones, a token is fresh, and a completion succeeds exactly
    when the next entry of the used ring names it. *)
Theorem virtq_refines :
  size_ok SIZE -> new SIZE tr idx ind ev [] = Ret (Ok (q0, set)) -> Forall (op_ok SIZE) os ->
  exists rs st s, vrun SIZE os (q0, []) = Ret (rs, st) /\
    spec_run SIZE ind (mkS [] 0 (used q0)) os rs s /\ st.2 = s_tbl s.
Proof.
  intros (k & Hk & ->)%power_of_two Hnew Hop.
  destruct (new_fresh k Hk _ _ _ _ _ _ _ Hnew) as (Hf & Hi & _).
  destruct (vrun_keeps k Hk (fun _ _ _ => True) os (q0, []) _ _ _ [] ltac:(done) (fresh_refines k q0 Hf) Hop I)
    as (rs & st & s & free & fs & Hrun & Hspec & (_ & _ & _ & _ & ->) & _).
  exists rs, st. eexists. split; [done|]. cbn [fst] in Hspec. rewrite Hi in Hspec. split; [exact Hspec|done].
Qed.

(** C40: the device finds what was added.  As long as it writes only the used
    ring, after any operations the device that follows the chain of an
    outstanding token through the descriptors in memory, direct or indirect,
    meets the inputs and then the outputs of that request, in order, each with
    the address its buffer was shared at, its length, and writable exactly for
    the outputs; and the available ring holds the latest tokens, the newest
    right before the index it shows. *)
Theorem virtq_device_reads :
  size_ok SIZE -> new SIZE tr idx ind ev [] = Ret (Ok (q0, set)) -> Forall (op_ok SIZE) os -> Forall honest os ->
  exists rs q tbl, vrun SIZE os (q0, []) = Ret (rs, (q, tbl)) /\
    (forall t ins outs, (t, (ins, outs)) ∈ tbl ->
       exists bs, bs.*1 = input_output ins outs /\ device_request SIZE q t = Some (view <$> bs) /\
         Forall (fun x => answered x /\ share_event x ∈ hal_log q) bs) /\
    (forall j t, Z.of_nat j < SIZE -> announced rs [] !! j = Some t ->
       av_ring (avail q) !! Z.to_nat ((av_idx (avail q) - 1 - Z.of_nat j) mod SIZE) = Some t).
Proof.
  intros (k & Hk & ->)%power_of_two Hnew Hop Hh.
  destruct (new_fresh k Hk _ _ _ _ _ _ _ Hnew) as (Hf & Hi & _). rewrite Forall_forall in Hh.
  destruct (vrun_keeps k Hk (fun hist q fs => visible k hist q fs /\ 0 <= avail_idx q < 2 ^ 16) os (q0, []) _ _ _ []
    ltac:(intros; eapply visible_index; eauto) (fresh_refines k q0 Hf) Hop)
    as (rs & [q tbl] & s & free & fs & Hrun & _ & (Hq & Htbl & _) & Hv & _).
  { destruct Hf as (_ & Ha & _ & Hav). cbn [fst]. split; [|rewrite Ha; lia].
    split_and!; try (by intros f ? ?%not_elem_of_nil); [done|congruence]. }
  exists rs, q, tbl. cbn [fst snd] in *. split_and!; [done|..].
  - intros t ins outs Hin. rewrite Htbl in Hin. apply list_elem_of_fmap in Hin as (f & [= -> -> ->] & Hin).
    exists (f_bs f). pose proof (qi_flights _ _ _ _ Hq) as Hok. rewrite Forall_forall in Hok.
    destruct (Hok f Hin) as [Hbs _]. split_and!; [done|by eapply request_read|].
    apply Forall_forall. intros x Hx. destruct Hv as (_ & V2 & _). by eapply V2.
  - destruct Hv as (_ & _ & V3 & ->). intros j t Hj Ht. apply V3; [lia|done].
Qed.

(** Buffers are given back.  After any operations and device writes, what was
    shared with the device and not unshared is exactly the buffers of the
    outstanding requests and their indirect lists; when none is outstanding,
    every share has been matched by one unshare of the same buffer, direction
    and address. *)
Theorem virtq_shares_balance :
  size_ok SIZE -> new SIZE tr idx ind ev [] = Ret (Ok (q0, set)) -> Forall (op_ok SIZE) os ->
  exists rs q tbl, vrun SIZE os (q0, []) = Ret (rs, (q, tbl)) /\
    (exists rest, omap shared_of (hal_log q) ≡ₚ omap unshared_of (hal_log q) ++ rest /\
       (forall t ins outs x, (t, (ins, outs)) ∈ tbl -> x ∈ input_output ins outs -> x ∈ rest.*1)) /\
    (tbl = [] -> omap shared_of (hal_log q) ≡ₚ omap unshared_of (hal_log q)).
Proof.
  intros (k & Hk & ->)%power_of_two Hnew Hop.
  destruct (new_fresh k Hk _ _ _ _ _ _ _ Hnew) as (Hf & Hi & _).
  destruct (vrun_keeps k Hk (fun _ => balanced) os (q0, []) _ _ _ []
    ltac:(intros; eapply balanced_moved; eauto) (fresh_refines k q0 Hf) Hop)
    as (rs & [q tbl] & s & free & fs & Hrun & _ & (Hq & Htbl & _) & Hb).
  { unfold balanced. cbn [fst]. by destruct (new_log _ _ _ _ _ _ _ _ Hnew) as [-> ->]. }
  exists rs, q, tbl. cbn [fst snd] in *. split_and!; [done|exists (concat (f_shared <$> fs)); split; [exact Hb|]|].
  - intros t ins outs x Hin Hx. rewrite Htbl in Hin. apply list_elem_of_fmap in Hin as (f & [= -> -> ->] & Hin).
    pose proof (qi_flights _ _ _ _ Hq) as Hok. rewrite Forall_forall in Hok. destruct (Hok f Hin) as [Hbs _].
    rewrite <- Hbs in Hx. apply list_elem_of_fmap in Hx as (y & -> & Hy). apply list_elem_of_fmap_2.
    rewrite list_elem_of_In, in_concat. exists (f_shared f). rewrite <- !list_elem_of_In.
    split; [by apply list_elem_of_fmap_2|]. unfold f_shared. apply elem_of_app. by left.
  - intros ->. destruct fs; [|done]. unfold balanced in Hb. cbn in Hb. by rewrite app_nil_r in Hb.
Qed.
End theorems.
