(* ===== verification/VirtqOwn.v ===== *)
(** * Virtqueues: notification, layout and the owning queue

    When the device must be notified, against the rule of the virtio
    specification; that the three areas of a queue are where the specification
    wants them and do not overlap; that the queue that owns its buffers cycles
    them; and concrete runs. *)

From S2P Require Import Prelude.
From S2P Require Import Virtq.
From S2P Require Import VirtqInv.
From S2P Require Import VirtqRun.
From S2P Require Import VirtqThms.

(** ** Notification *)

(** The rule of the specification for event indices: the device wants to hear of
    the additions from [old] to [new] when they pass [event]. *)
Definition need_event (event new old : Z) : bool := u16 (new - event - 1) <? u16 (new - old).

(** A queue whose index the device has not been told about yet. *)
Definition at_index (q : VirtQueue) (event i : Z) : VirtQueue :=
  mkQueue (desc q) (avail q) (mkUsed (us_flags (used q)) (us_idx (used q)) (us_ring (used q)) event) (queue_idx q)
    (num_used q) (free_head q) (desc_shadow q) i (last_used_idx q) true (indirect q) (indirect_lists q) (hal_log q).

(** Notifications are lost when a batch crosses the wrap.  With event
    indices, after a single addition, or after a batch that does not cross the
    wrap of the 16-bit index, the driver notifies whenever the specification
    asks for it.  After a batch that crosses it, it need not: with the device
    waiting at 65534, three additions leave it unnotified. *)
Theorem should_notify_event q event old new :
  0 <= event < 2 ^ 16 -> 0 <= old < 2 ^ 16 -> 0 <= new < 2 ^ 16 -> new = u16 (old + 1) \/ old < new ->
  need_event event new old = true ->
  should_notify (at_index q event new) = true /\
  need_event 65534 (u16 (65534 + 3)) 65534 = true /\ should_notify (at_index q 65534 (u16 (65534 + 3))) = false.
Proof.
  intros He Ho Hn Hor Hneed. split; [|done]. unfold should_notify, at_index; cbn. unfold need_event, u16 in *.
  apply Z.ltb_lt in Hneed. apply Z.leb_le.
  Z.div_mod_to_equations. lia.
Qed.

(** ** Layout *)

(** The areas of a queue fit.  For every size a queue can have, the
    descriptor table, the available ring and the used ring lie inside the memory
    allocated, in this order and apart from each other; in the legacy layout the
    used ring starts at the first page boundary after the available ring, as the
    specification requires, although [align_up] would skip a page for an aligned
    size. *)
Theorem queue_layout_ok SIZE :
  size_ok SIZE ->
  exists d a u, queue_part_sizes SIZE = Ret (d, a, u) /\ d = 16 * SIZE /\ a = 6 + 2 * SIZE /\ u = 6 + 8 * SIZE /\
    d mod 2 = 0 /\
    align_up (d + a) = PAGE_SIZE * ((d + a + PAGE_SIZE - 1) / PAGE_SIZE) /\
    (align_up (d + a) + align_up u) mod PAGE_SIZE = 0 /\ u <= align_up u /\
    d + a <= PAGE_SIZE * pages (d + a) < d + a + PAGE_SIZE /\ u <= PAGE_SIZE * pages u < u + PAGE_SIZE /\
    align_up PAGE_SIZE = 2 * PAGE_SIZE.
Proof.
  intros Hs. pose proof Hs as [Hp _]. destruct (power_of_two _ Hs) as (k & Hk & ->).
  unfold queue_part_sizes. rewrite Hp. eexists _, _, _. split; [done|].
  assert (k = 0 \/ k = 1 \/ k = 2 \/ k = 3 \/ k = 4 \/ k = 5 \/ k = 6 \/ k = 7 \/ k = 8 \/ k = 9 \/ k = 10 \/ k = 11 \/
          k = 12 \/ k = 13 \/ k = 14 \/ k = 15) as H by lia.
  repeat destruct H as [->|H]; subst; vm_compute; repeat split; try done; try (intros ?; done).
Qed.

(** ** The owning queue *)

Section owning.
Context `{Hal} (k : Z) (Hk : 0 <= k < 16) (BUFFER_SIZE : Z) (Hbs : 0 < BUFFER_SIZE < 2 ^ 32).
Abbreviation SIZE := (2 ^ k).

(** Each chain in flight is one descriptor, for the buffer of its index. *)
Definition owns (bufs : list Z) (f : flight) : Prop :=
  exists c a, f_cells f = [c] /\ bufs !! c = Some a /\ f_ins f = [] /\ f_outs f = [mkBuf a BUFFER_SIZE].

Definition idx_ok (q : VirtQueue) : Prop := 0 <= avail_idx q < 2 ^ 16 /\ 0 <= last_used_idx q < 2 ^ 16.

Lemma out_ok a : Forall buffer_ok (input_output [] [mkBuf a BUFFER_SIZE]).
Proof using Hbs. constructor; [|done]. split; [|done]. cbn. lia. Qed.

Lemma needed_one q : needed q (zlen (@nil Buffer) + zlen [mkBuf 0 0]) = 1.
Proof. unfold needed. by destruct (indirect q). Qed.

(** Adding one output buffer takes the first free descriptor. *)
Lemma add_one q free c fs a :
  qinv k q (c :: free) fs -> idx_ok q ->
  exists f q', add SIZE [] [mkBuf a BUFFER_SIZE] q = Ret (Ok (Z.of_nat c), q') /\ qinv k q' free (f :: fs) /\ idx_ok q' /\
    f_cells f = [c] /\ f_ins f = [] /\ f_outs f = [mkBuf a BUFFER_SIZE] /\
    last_used_idx q' = last_used_idx q /\ used q' = used q.
Proof using Hk Hbs.
  intros Hq [Ha Hl]. pose proof (qinv_free k Hk _ _ _ Hq) as Hlen. rewrite zlen_cons in Hlen. pose proof (zlen_nonneg free).
  pose proof (size_range k Hk).
  destruct (add_ok k Hk q (c :: free) fs [] [mkBuf a BUFFER_SIZE] Hq Ha (out_ok a) ltac:(done))
    as (f & free' & q' & Hrun & Hi & Ho & Hf & Hcl & Hres & Hinv).
  { change (needed q _) with (needed q (zlen (@nil Buffer) + zlen [mkBuf 0 0])). rewrite needed_one. lia. }
  { change (1 <= SIZE). lia. }
  change (needed q _) with (needed q (zlen (@nil Buffer) + zlen [mkBuf 0 0])) in Hcl. rewrite needed_one in Hcl.
  destruct (f_cells f) as [|c' [|c'' cs]] eqn:Ec; rewrite ?zlen_cons in Hcl; try (pose proof (zlen_nonneg cs)); try done; [|lia].
  cbn in Hf. injection Hf as <- <-. exists f, q'. unfold f_token in Hrun. rewrite Ec in Hrun.
  destruct (ar_idx _ _ _ _ Hres) as [E _]. destruct (ar_same _ _ _ _ Hres) as (_ & Eu & E' & _). split_and!; try done.
  unfold idx_ok. rewrite E, E'. split; [apply (Z.mod_pos_bound _ (2 ^ 16)); lia|done].
Qed.

Lemma owns_more bufs a f : owns bufs f -> owns (bufs ++ [a]) f.
Proof. intros (c & a' & H1 & H2 & H3 & H4). exists c, a'. split_and!; try done. by apply lookup_app_l_Some. Qed.

Lemma owning_loop_ok n i q bufs fs :
  qinv k q (seq i n) fs -> idx_ok q -> length bufs = i -> Forall (owns bufs) fs ->
  exists q' bufs' fs', owning_new_loop SIZE BUFFER_SIZE n (Z.of_nat i) q bufs = Ret (Ok (mkOwning q' bufs')) /\
    qinv k q' [] fs' /\ idx_ok q' /\ length bufs' = (i + n)%nat /\ Forall (owns bufs') fs'.
Proof using Hk Hbs.
  revert i q bufs fs. induction n as [|n IH]; intros i q bufs fs Hq Hi Hlen Ho.
  { exists q, bufs, fs. split_and!; try done. lia. }
  cbn [seq] in Hq. cbn [owning_new_loop]. set (a := hal_box _ _).
  destruct (add_one q (seq (S i) n) i fs a Hq Hi) as (f & q' & -> & Hq' & Hi' & Hc & Hin & Hout & _). cbn [obind].
  rewrite Z.eqb_refl. replace (Z.of_nat i + 1) with (Z.of_nat (S i)) by lia.
  destruct (IH (S i) q' (bufs ++ [a]) (f :: fs) Hq' Hi') as (q2 & bufs2 & fs2 & Hrun & Hq2 & Hi2 & Hl2 & Ho2).
  { rewrite length_app; cbn; lia. }
  { constructor; [|eapply Forall_impl; [done|]; apply owns_more].
    exists i, a. split_and!; try done. rewrite <- Hlen. by apply list_lookup_middle. }
  exists q2, bufs2, fs2. split_and!; try done. lia.
Qed.

(** All the buffers are with the device. *)
Definition owning_inv (o : OwningQueue) : Prop :=
  exists fs, qinv k (queue o) [] fs /\ idx_ok (queue o) /\ zlen (buffers o) = SIZE /\ Forall (owns (buffers o)) fs.

(** What a device that follows the specification writes. *)
Definition device_ok (u : UsedRing) : Prop :=
  zlen (us_ring u) = SIZE /\ Forall (fun e => u16 e.1 < SIZE /\ e.2 <= BUFFER_SIZE) (us_ring u).

Definition with_used (o : OwningQueue) (u : UsedRing) : OwningQueue :=
  mkOwning (device_writes (desc (queue o)) (avail (queue o)) u (queue o)) (buffers o).

(** The chain a used element names. *)
Lemma owner_of q bufs fs t :
  qinv k q [] fs -> Forall (owns bufs) fs -> 0 <= t < SIZE ->
  exists l1 f l2 c a, fs = l1 ++ f :: l2 /\ Z.of_nat c = t /\ f_cells f = [c] /\ bufs !! c = Some a /\
    f_ins f = [] /\ f_outs f = [mkBuf a BUFFER_SIZE].
Proof using Hk.
  clear Hbs. intros Hq Ho Ht. rewrite Forall_forall in Ho.
  assert (Z.to_nat t ∈ busy_cells fs) as Hin.
  { pose proof (qi_cells _ _ _ _ Hq) as Hp. cbn in Hp. rewrite Hp. apply elem_of_seq. lia. }
  unfold busy_cells in Hin. apply list_elem_of_In, in_concat in Hin as (cs & Hcs & Hin).
  apply list_elem_of_In, list_elem_of_fmap in Hcs as (f & -> & Hf).
  destruct (Ho f Hf) as (c & a & Hc & Hr). rewrite Hc in Hin. destruct Hin as [->|[]].
  apply list_elem_of_split in Hf as (l1 & l2 & ->). exists l1, f, l2, (Z.to_nat t), a. split_and!; try done; [lia|apply Hr..].
Qed.

Lemma poll_inv {T} (handler : Buffer -> Result (option T)) o u :
  owning_inv o -> device_ok u ->
  exists r o', poll SIZE BUFFER_SIZE handler (with_used o u) = Ret (r, o') /\ owning_inv o' /\ num_used (queue o') = SIZE /\
    buffers o' = buffers o /\
    (r = Ok None \/ exists a len, In a (buffers o) /\ len <= BUFFER_SIZE /\ r = handler (mkBuf a len)) /\
    (last_used_idx (queue o) <> us_idx u -> exists a len, r = handler (mkBuf a len)).
Proof using Hk Hbs.
  intros (fs & Hq & [Ha Hl] & Hb & Ho) [Hu1 Hu2]. pose proof (size_range k Hk) as Hsz.
  set (q := queue (with_used o u)).
  assert (qinv k q [] fs) as Hq1 by (eapply (qinv_private k (queue o)); try done; cbn; try apply Hq; unfold zlen in *; lia).
  assert (num_used (queue o) = SIZE) as Hfull by (pose proof (qinv_free k Hk _ _ _ Hq) as Hf; rewrite zlen_nil in Hf; lia).
  unfold poll, pop, peek_used. fold q. unfold can_pop.
  destruct (Z.eqb_spec (last_used_idx q) (us_idx (used q))) as [E|E]; cbn [negb obind].
  { exists (Ok None), (with_used o u). split_and!; try done; [|by left].
    exists fs. split_and!; try done. }
  pose proof (slot_range k Hk (last_used_idx q) ltac:(cbn; lia)) as Hs.
  destruct (lookup_lt_is_Some_2 (us_ring u) (Z.to_nat (Z.land (last_used_idx q) (SIZE - 1)))) as [[id len] Hslot];
    [unfold zlen in Hu1; lia|].
  rewrite Forall_forall in Hu2. destruct (Hu2 (id, len)) as [Hid Hlen]; [by eapply list_elem_of_lookup_2|]. cbn [fst snd] in *.
  assert (0 <= u16 id) by (apply (Z.mod_pos_bound _ (2 ^ 16)); lia).
  unfold get at 1. change (us_ring (used q)) with (us_ring u). rewrite Hslot. cbn [obind fst].
  destruct (owner_of (queue o) (buffers o) fs (u16 id) Hq Ho ltac:(lia)) as (l1 & f & l2 & c & a & -> & Htok & Hc & Hba & Hin & Hout).
  rewrite <- Htok.
  unfold get. rewrite Nat2Z.id. cbn [buffers with_used]. rewrite Hba. cbn [obind].
  pose proof (vq_pop_ok k Hk q [] l1 f l2 Hq1 ltac:(done) id len Hslot) as Hpop. cbv zeta in Hpop.
  unfold can_pop in Hpop. rewrite (proj2 (Z.eqb_neq _ _) E) in Hpop. unfold f_token in Hpop. rewrite Hc, <- Htok, Z.eqb_refl, Hin, Hout in Hpop.
  cbn [negb] in Hpop. destruct Hpop as (q1 & -> & Hres & Hq2). cbn [obind]. rewrite (proj2 (Z.leb_le _ _) Hlen). cbn [obind].
  unfold add_buffer_to_queue. cbn [buffers queue]. rewrite Nat2Z.id, Hba.
  destruct (add_one q1 [] c (l1 ++ l2) a) as (f' & q2 & -> & Hq3 & Hi3 & Hc3 & Hin3 & Hout3 & _); [done| |].
  { destruct (pr_same _ _ _ Hres) as (_ & _ & S3 & _). split; [by rewrite S3|]. rewrite (pr_last _ _ _ Hres). apply (Z.mod_pos_bound _ (2 ^ 16)). lia. }
  cbn [obind]. rewrite Z.eqb_refl. cbn [obind].
  eexists _, _. split_and!; [done| | | | |].
  - exists (f' :: l1 ++ l2). split_and!; try done.
    constructor; [by exists c, a|]. rewrite Forall_app, Forall_cons in Ho. rewrite Forall_app. tauto.
  - pose proof (qinv_free k Hk _ _ _ Hq3) as Hf. rewrite zlen_nil in Hf. cbn. lia.
  - done.
  - right. exists a, len. split_and!; [|done|done]. by eapply list_elem_of_In, list_elem_of_lookup_2.
  - intros _. by exists a, len.
Qed.
End owning.

(** Polls, each after the device has left the used ring in a given state. *)
Fixpoint polls `{Hal} {T} (SIZE BUFFER_SIZE : Z) (handler : Buffer -> Result (option T)) (us : list UsedRing)
    (o : OwningQueue) : outcome (list (Result (option T)) * OwningQueue) :=
  match us with
  | [] => Ret ([], o)
  | u :: us' =>
      do! (r, o) <- poll SIZE BUFFER_SIZE handler (with_used o u);
      do! (rs, o) <- polls SIZE BUFFER_SIZE handler us' o;
      Ret (r :: rs, o)
  end.

(** The owning queue cycles its buffers.  Over a new queue it is built
    without a panic, with buffer [i] under token [i]; then, as long as the device
    names descriptors of the queue and lengths of the buffers, any number of polls
    runs without a panic: each returns nothing, or what the handler makes of the
    first bytes of one of the queue's buffers, and afterwards every buffer is
    with the device again under its own token. *)
Theorem owning_queue_cycles `{Hal} {T} SIZE tr idx ind ev q0 set BUFFER_SIZE (handler : Buffer -> Result (option T)) us :
  size_ok SIZE -> new SIZE tr idx ind ev [] = Ret (Ok (q0, set)) -> 0 < BUFFER_SIZE < 2 ^ 32 ->
  Forall (fun u => zlen (us_ring u) = SIZE /\ Forall (fun e => u16 e.1 < SIZE /\ e.2 <= BUFFER_SIZE) (us_ring u)) us ->
  exists o0 rs o, owning_new SIZE BUFFER_SIZE q0 = Ret (Ok o0) /\ polls SIZE BUFFER_SIZE handler us o0 = Ret (rs, o) /\
    num_used (queue o0) = SIZE /\ num_used (queue o) = SIZE /\ buffers o = buffers o0 /\ zlen (buffers o0) = SIZE /\
    Forall (fun r => r = Ok None \/ exists a len, In a (buffers o0) /\ len <= BUFFER_SIZE /\ r = handler (mkBuf a len)) rs.
Proof.
  intros (k & Hk & ->)%power_of_two Hnew Hbs Hus.
  destruct (new_fresh k Hk _ _ _ _ _ _ _ Hnew) as ((Hq & Ha & Hl & _) & _).
  destruct (owning_loop_ok k Hk BUFFER_SIZE Hbs (Z.to_nat (2 ^ k)) 0 q0 [] [] Hq) as (q & bufs & fs & Hrun & Hq' & Hi & Hlen & Ho); try done.
  { unfold idx_ok. rewrite Ha, Hl. done. }
  pose proof (size_range k Hk). pose proof (qinv_free k Hk _ _ _ Hq') as Hfull. rewrite zlen_nil in Hfull.
  assert (owning_inv k BUFFER_SIZE (mkOwning q bufs)) as Hinv.
  { exists fs. split_and!; try done; [apply Hi..|]. unfold zlen. cbn. lia. }
  assert (exists rs o, polls (2 ^ k) BUFFER_SIZE handler us (mkOwning q bufs) = Ret (rs, o) /\ num_used (queue o) = 2 ^ k /\ buffers o = bufs /\
    Forall (fun r => r = Ok None \/ exists a len, In a bufs /\ len <= BUFFER_SIZE /\ r = handler (mkBuf a len)) rs) as (rs & o & Hp & Hn & Hb & Hr).
  { assert (num_used (queue (mkOwning q bufs)) = 2 ^ k) as Hn by (cbn; lia). assert (buffers (mkOwning q bufs) = bufs) as Hb by done.
    revert Hinv Hn Hb. generalize (mkOwning q bufs) as o. clear -Hus Hk Hbs.
    induction Hus as [|u us Hu Hus IH]; intros o Hinv Hn Hb; [by exists [], o|].
    destruct (poll_inv k Hk BUFFER_SIZE Hbs handler o u Hinv Hu) as (r & o1 & Hp & Hinv1 & Hn1 & Hb1 & Hr & _).
    destruct (IH o1 Hinv1 Hn1 ltac:(congruence)) as (rs & o2 & Hp2 & Hn2 & Hb2 & Hr2).
    exists (r :: rs), o2. cbn [polls]. rewrite Hp. cbn [obind]. rewrite Hp2. split_and!; try done. constructor; [|done]. by rewrite <- Hb. }
  exists (mkOwning q bufs), rs, o. unfold owning_new. change 0 with (Z.of_nat 0) at 1. cbn [queue buffers]. split_and!; try done; [lia|unfold zlen; lia].
Qed.

(** The owning queue trusts the device.  A used element that names a
    descriptor outside the queue makes the next poll panic. *)
Theorem poll_panics_on_bad_token `{Hal} {T} SIZE BUFFER_SIZE (handler : Buffer -> Result (option T)) o u id len :
  last_used_idx (queue o) <> us_idx u ->
  us_ring u !! Z.to_nat (Z.land (last_used_idx (queue o)) (SIZE - 1)) = Some (id, len) ->
  zlen (buffers o) <= u16 id -> poll SIZE BUFFER_SIZE handler (with_used o u) = Panic.
Proof.
  intros Hp Hs Hid. unfold poll, pop, peek_used, can_pop. cbn [queue with_used last_used_idx used device_writes].
  rewrite (proj2 (Z.eqb_neq _ _) Hp). cbn [negb]. unfold get at 1. rewrite Hs. cbn [obind fst].
  unfold get. cbn [buffers with_used]. rewrite lookup_ge_None_2; [done|]. unfold zlen in Hid. lia.
Qed.

(** ** A concrete queue *)

(** A layer that maps addresses to themselves and allocates upwards. *)
Definition demo_hal : Hal := {|
  hal_dma_alloc log n _ := (1048576 + 65536 * zlen log, 1048576 + 65536 * zlen log);
  hal_dma_dealloc _ _ _ _ := 0;
  hal_share _ buf _ := buf_ptr buf;
  hal_box log _ := 33554432 + 65536 * zlen log
|}.

Definition demo_transport : Transport := mkTransport false 256 false.

Definition demo_new (ind : bool) : outcome (Result (VirtQueue * QueueSet)) :=
  new (H := demo_hal) 4 demo_transport 0 ind false [].

Definition demo_queue (ind : bool) : VirtQueue :=
  match demo_new ind with
  | Ret (Ok (q, _)) => q
  | _ => mkQueue [] (mkAvail 0 0 [] 0) (mkUsed 0 0 [] 0) 0 0 0 [] 0 0 false ind [] []
  end.
Definition demo_set (ind : bool) : QueueSet :=
  match demo_new ind with Ret (Ok (_, s)) => s | _ => mkQueueSet 0 0 0 0 0 end.

(** Two requests, the second completed first; then one that does not fit. *)
Definition demo_used : UsedRing := mkUsed 0 1 [(2, 9); (0, 0); (0, 0); (0, 0)] 0.
Definition demo_ops : list vop :=
  [VAdd [mkBuf 4096 10] [mkBuf 8192 20]; VAdd [] [mkBuf 12288 64]; VAdd [mkBuf 4096 1; mkBuf 4100 1] [];
   VUsed demo_used; VPop 0; VPop 2; VAdd [] []; VAdd [mkBuf 20480 5] []].

Lemma demo_ops_ok : Forall (op_ok 4) demo_ops /\ Forall honest demo_ops.
Proof. split; repeat constructor; cbn; lia. Qed.

Lemma virtq_refines_witness :
  exists rs st s, vrun (H := demo_hal) 4 demo_ops (demo_queue false, []) = Ret (rs, st) /\
    spec_run 4 false (mkS [] 0 (used (demo_queue false))) demo_ops rs s /\ st.2 = s_tbl s.
Proof.
  apply (virtq_refines (H := demo_hal) 4 demo_transport 0 false false (demo_queue false) (demo_set false) demo_ops);
    [by split|by vm_compute|apply demo_ops_ok].
Defined.

Lemma virtq_device_reads_witness :
  exists rs q tbl, vrun (H := demo_hal) 4 demo_ops (demo_queue true, []) = Ret (rs, (q, tbl)) /\
    (forall t ins outs, (t, (ins, outs)) ∈ tbl ->
       exists bs, bs.*1 = input_output ins outs /\ device_request 4 q t = Some (view <$> bs) /\
         Forall (fun x => answered (H := demo_hal) x /\ share_event x ∈ hal_log q) bs) /\
    (forall j t, Z.of_nat j < 4 -> announced rs [] !! j = Some t ->
       av_ring (avail q) !! Z.to_nat ((av_idx (avail q) - 1 - Z.of_nat j) mod 4) = Some t).
Proof.
  apply (virtq_device_reads (H := demo_hal) 4 demo_transport 0 true false (demo_queue true) (demo_set true) demo_ops);
    [by split|by vm_compute|apply demo_ops_ok..].
Defined.

Lemma virtq_shares_balance_witness :
  exists rs q tbl, vrun (H := demo_hal) 4 demo_ops (demo_queue true, []) = Ret (rs, (q, tbl)) /\
    (exists rest, omap shared_of (hal_log q) ≡ₚ omap unshared_of (hal_log q) ++ rest /\
       (forall t ins outs x, (t, (ins, outs)) ∈ tbl -> x ∈ input_output ins outs -> x ∈ rest.*1)) /\
    (tbl = [] -> omap shared_of (hal_log q) ≡ₚ omap unshared_of (hal_log q)).
Proof.
  apply (virtq_shares_balance (H := demo_hal) 4 demo_transport 0 true false (demo_queue true) (demo_set true) demo_ops);
    [by split|by vm_compute|apply demo_ops_ok].
Defined.

Lemma should_notify_event_witness :
  need_event 65535 0 65535 = true /\
  (should_notify (at_index (demo_queue false) 65535 0) = true /\
   need_event 65534 (u16 (65534 + 3)) 65534 = true /\ should_notify (at_index (demo_queue false) 65534 (u16 (65534 + 3))) = false).
Proof. split; [done|]. apply (should_notify_event (demo_queue false) 65535 65535 0); try done. by left. Defined.

Lemma queue_layout_ok_witness :
  exists d a u, queue_part_sizes 256 = Ret (d, a, u) /\ d = 16 * 256 /\ a = 6 + 2 * 256 /\ u = 6 + 8 * 256 /\
    d mod 2 = 0 /\
    align_up (d + a) = PAGE_SIZE * ((d + a + PAGE_SIZE - 1) / PAGE_SIZE) /\
    (align_up (d + a) + align_up u) mod PAGE_SIZE = 0 /\ u <= align_up u /\
    d + a <= PAGE_SIZE * pages (d + a) < d + a + PAGE_SIZE /\ u <= PAGE_SIZE * pages u < u + PAGE_SIZE /\
    align_up PAGE_SIZE = 2 * PAGE_SIZE.
Proof. apply (queue_layout_ok 256). by split. Defined.

(** Echo the buffer seen. *)
Definition demo_handler (x : Buffer) : Result (option Buffer) := Ok (Some x).

Definition demo_rings : list UsedRing :=
  [mkUsed 0 0 [(0, 0); (0, 0); (0, 0); (0, 0)] 0; mkUsed 0 1 [(3, 100); (0, 0); (0, 0); (0, 0)] 0;
   mkUsed 0 2 [(3, 100); (3, 60); (0, 0); (0, 0)] 0].

Lemma owning_queue_cycles_witness :
  exists o0 rs o, owning_new (H := demo_hal) 4 1514 (demo_queue true) = Ret (Ok o0) /\
    polls (H := demo_hal) 4 1514 demo_handler demo_rings o0 = Ret (rs, o) /\
    num_used (queue o0) = 4 /\ num_used (queue o) = 4 /\ buffers o = buffers o0 /\ zlen (buffers o0) = 4 /\
    Forall (fun r => r = Ok None \/ exists a len, In a (buffers o0) /\ len <= 1514 /\ r = demo_handler (mkBuf a len)) rs.
Proof.
  apply (owning_queue_cycles (H := demo_hal) 4 demo_transport 0 true false (demo_queue true) (demo_set true) 1514 demo_handler demo_rings);
    [by split|by vm_compute|done|]. repeat constructor; by vm_compute.
Defined.

Lemma poll_panics_on_bad_token_witness :
  poll (H := demo_hal) 4 1514 demo_handler (with_used (mkOwning (demo_queue true) [1; 2; 3; 4]) (mkUsed 0 1 [(4, 0); (0, 0); (0, 0); (0, 0)] 0)) = Panic.
Proof.
  apply (poll_panics_on_bad_token (H := demo_hal) 4 1514 demo_handler (mkOwning (demo_queue true) [1; 2; 3; 4])
    (mkUsed 0 1 [(4, 0); (0, 0); (0, 0); (0, 0)] 0) 4 0); by vm_compute.
Defined.
