(* ===== verification/Net.v ===== *)
(** * The virtio network driver

    [src/virtio-drivers-patched/src/device/net/] (the raw driver over two
    virtqueues and the driver that owns the receive buffers), the adapter of the
    kernel ([src/src/net/device.rs]) and its hardware abstraction layer
    ([src/src/drivers/virtio/hal.rs]).

    A [Vec] is its pointer and length; its bytes are in memory, where the device
    reads and writes them.  Pointers of the heap are [hal_box]. *)

From S2P Require Import Prelude.
From S2P Require Import Virtq.

(** ** The kernel's abstraction layer

    DMA memory is bumped from the linker's region and never freed; addresses are
    identity-mapped. *)

Fixpoint dma_used (log : list hal_event) : Z :=
  match log with
  | [] => 0
  | DmaAlloc n _ _ _ :: log' => PAGE_SIZE * n + dma_used log'
  | _ :: log' => dma_used log'
  end.

Definition TynHal (dma_region : Z) (heap : list hal_event -> Z -> Z) : Hal := {|
  hal_dma_alloc log n _ := let paddr := u64 (dma_region + dma_used log) in (paddr, paddr);
  hal_dma_dealloc _ _ _ _ := 0;
  hal_share _ buffer _ := buf_ptr buffer;
  hal_box := heap
|}.

(** ** The raw driver *)

Definition MIN_BUFFER_LEN : Z := 1526.
Definition QUEUE_RECEIVE : Z := 0.
Definition QUEUE_TRANSMIT : Z := 1.

Definition F_MAC : Z := 2 ^ 5.
Definition F_MRG_RXBUF : Z := 2 ^ 15.
Definition F_STATUS : Z := 2 ^ 16.
Definition F_RING_INDIRECT_DESC : Z := 2 ^ 28.
Definition F_RING_EVENT_IDX : Z := 2 ^ 29.
Definition F_VERSION_1 : Z := 2 ^ 32.
Definition SUPPORTED_FEATURES : Z :=
  Z.lor (Z.lor (Z.lor (Z.lor F_MAC F_STATUS) F_RING_EVENT_IDX) F_RING_INDIRECT_DESC) F_VERSION_1.

(** [size_of::<VirtioNetHdrLegacy>()] and [size_of::<VirtioNetHdr>()]; the default
    headers are zero bytes. *)
Definition hdr_size (legacy : bool) : Z := if legacy then 10 else 12.

Record VirtIONetRaw := mkRaw {
  mac : list Z;
  recv_queue : VirtQueue;
  send_queue : VirtQueue;
  legacy_header : bool;
  notified : list Z  (** the queues the transport was notified of *)
}.

Definition set_recv (d : VirtIONetRaw) (q : VirtQueue) : VirtIONetRaw :=
  mkRaw (mac d) q (send_queue d) (legacy_header d) (notified d).
Definition set_send (d : VirtIONetRaw) (q : VirtQueue) : VirtIONetRaw :=
  mkRaw (mac d) (recv_queue d) q (legacy_header d) (notified d).
Definition notify (d : VirtIONetRaw) (queue : Z) : VirtIONetRaw :=
  mkRaw (mac d) (recv_queue d) (send_queue d) (legacy_header d) (notified d ++ [queue]).

Section net.
Context `{Hal} (QUEUE_SIZE : Z).

(** [device_features] and the two configuration reads are the device's answers. *)
Definition raw_new (tr_tx tr_rx : Transport) (device_features : Z) (config_mac : Result (list Z)) (config_status : Result Z) :
    outcome (Result VirtIONetRaw) :=
  let negotiated_features := Z.land device_features SUPPORTED_FEATURES in
  match config_mac, config_status with
  | Err e, _ => Ret (Err e)
  | Ok _, Err e => Ret (Err e)
  | Ok m, Ok _ =>
      let ind := contains negotiated_features F_RING_INDIRECT_DESC in
      let ev := contains negotiated_features F_RING_EVENT_IDX in
      do! tx <- new QUEUE_SIZE tr_tx QUEUE_TRANSMIT ind ev [];
      match tx with
      | Err e => Ret (Err e)
      | Ok (tx, _) =>
          do! rx <- new QUEUE_SIZE tr_rx QUEUE_RECEIVE ind ev (hal_log tx);
          match rx with
          | Err e => Ret (Err e)
          | Ok (rx, _) =>
              Ret (Ok (mkRaw m rx tx (negb (contains negotiated_features F_VERSION_1)
                                      && negb (contains negotiated_features F_MRG_RXBUF)) []))
          end
      end
  end.

Definition disable_interrupts (d : VirtIONetRaw) : VirtIONetRaw :=
  set_recv (set_send d (set_dev_notify false (send_queue d))) (set_dev_notify false (recv_queue d)).
Definition enable_interrupts (d : VirtIONetRaw) : VirtIONetRaw :=
  set_recv (set_send d (set_dev_notify true (send_queue d))) (set_dev_notify true (recv_queue d)).

Definition can_send (d : VirtIONetRaw) : bool := 2 <=? available_desc QUEUE_SIZE (send_queue d).

Definition check_rx_buf_len (rx_buf : Buffer) : Result unit :=
  if buf_len rx_buf <? MIN_BUFFER_LEN then Err InvalidParam else Ok tt.

Definition check_tx_buf_len (d : VirtIONetRaw) (tx_buf : Buffer) : Result unit :=
  if buf_len tx_buf <? hdr_size (legacy_header d) then Err InvalidParam else Ok tt.

Definition fill_buffer_header (d : VirtIONetRaw) (buffer : Buffer) (m : mem) : Result Z * mem :=
  let n := hdr_size (legacy_header d) in
  if buf_len buffer <? n then (Err InvalidParam, m)
  else (Ok n, mem_write m (buf_ptr buffer) (replicate (Z.to_nat n) 0)).

Definition transmit_begin (tx_buf : Buffer) (d : VirtIONetRaw) : outcome (Result Z * VirtIONetRaw) :=
  match check_tx_buf_len d tx_buf with
  | Err e => Ret (Err e, d)
  | Ok _ =>
      do! (r, q) <- add QUEUE_SIZE [tx_buf] [] (send_queue d);
      let d := set_send d q in
      match r with
      | Err e => Ret (Err e, d)
      | Ok token => Ret (Ok token, if should_notify q then notify d QUEUE_TRANSMIT else d)
      end
  end.

Definition poll_transmit (d : VirtIONetRaw) : outcome (option Z) := peek_used QUEUE_SIZE (send_queue d).

Definition transmit_complete (token : Z) (tx_buf : Buffer) (d : VirtIONetRaw) : outcome (Result Z * VirtIONetRaw) :=
  do! (r, q) <- pop_used QUEUE_SIZE token [tx_buf] [] (send_queue d);
  Ret (r, set_send d q).

Definition receive_begin (rx_buf : Buffer) (d : VirtIONetRaw) : outcome (Result Z * VirtIONetRaw) :=
  match check_rx_buf_len rx_buf with
  | Err e => Ret (Err e, d)
  | Ok _ =>
      do! (r, q) <- add QUEUE_SIZE [] [rx_buf] (recv_queue d);
      let d := set_recv d q in
      match r with
      | Err e => Ret (Err e, d)
      | Ok token => Ret (Ok token, if should_notify q then notify d QUEUE_RECEIVE else d)
      end
  end.

Definition poll_receive (d : VirtIONetRaw) : outcome (option Z) := peek_used QUEUE_SIZE (recv_queue d).

Definition receive_complete (token : Z) (rx_buf : Buffer) (d : VirtIONetRaw) : outcome (Result (Z * Z) * VirtIONetRaw) :=
  do! (r, q) <- pop_used QUEUE_SIZE token [] [rx_buf] (recv_queue d);
  let d := set_recv d q in
  match r with
  | Err e => Ret (Err e, d)
  | Ok len =>
      let n := hdr_size (legacy_header d) in
      Ret (if len <? n then Err IoError else Ok (n, len - n), d)
  end.

(** [send]: the header lies at [hdr_ptr]; [seen] as in [add_notify_wait_pop]. *)
Definition raw_send (hdr_ptr : Z) (tx_buf : Buffer) (seen : list UsedRing) (d : VirtIONetRaw) :
    outcome (Result unit * VirtIONetRaw) :=
  let header := mkBuf hdr_ptr (hdr_size (legacy_header d)) in
  let inputs := if buf_len tx_buf =? 0 then [header] else [header; tx_buf] in
  do! (r, told, q) <- add_notify_wait_pop QUEUE_SIZE inputs [] seen (send_queue d);
  let d := set_send d q in
  let d := if told : bool then notify d (queue_idx q) else d in
  match r with Err e => Ret (Err e, d) | Ok _ => Ret (Ok tt, d) end.

(** ** The driver with receive buffers *)

Record RxBuffer := mkRx { rx_buf : Buffer; packet_len : Z; rx_idx : Z; rx_legacy : bool }.

(** [RxBuffer::new]: a vector of [buf_len / 8] words. *)
Definition rx_new (ptr i len : Z) (legacy : bool) : outcome RxBuffer :=
  if i <? 2 ^ 16 then Ret (mkRx (mkBuf ptr (8 * (len / 8))) 0 i legacy) else Panic.

Definition set_packet_len (r : RxBuffer) (n : Z) : RxBuffer := mkRx (rx_buf r) n (rx_idx r) (rx_legacy r).
Definition set_rx_idx (r : RxBuffer) (i : Z) : RxBuffer := mkRx (rx_buf r) (packet_len r) i (rx_legacy r).

(** [packet]: the bytes after the header; a range out of the buffer panics. *)
Definition packet (r : RxBuffer) (m : mem) : outcome bytes :=
  slice (mem_read m (buf_ptr (rx_buf r)) (Z.to_nat (buf_len (rx_buf r)))) (hdr_size (rx_legacy r))
    (hdr_size (rx_legacy r) + packet_len r).

Record VirtIONet := mkNet { inner : VirtIONetRaw; rx_buffers : list (option RxBuffer) }.

Fixpoint net_new_loop (buf_len : Z) (n : nat) (i : Z) (d : VirtIONetRaw) (bufs : list (option RxBuffer)) :
    outcome (Result VirtIONet) :=
  match n with
  | O => Ret (Ok (mkNet d bufs))
  | S n' =>
      do! rx <- rx_new (hal_box (hal_log (recv_queue d)) (8 * (buf_len / 8))) i buf_len (legacy_header d);
      do! (r, d) <- receive_begin (rx_buf rx) d;
      match r with
      | Err e => Ret (Err e)
      | Ok token => if token =? u16 i then net_new_loop buf_len n' (i + 1) d (bufs ++ [Some rx]) else Panic
      end
  end.

Definition net_new (buf_len : Z) (tr_tx tr_rx : Transport) (device_features : Z) (config_mac : Result (list Z))
    (config_status : Result Z) : outcome (Result VirtIONet) :=
  do! r <- raw_new tr_tx tr_rx device_features config_mac config_status;
  match r with
  | Err e => Ret (Err e)
  | Ok d => net_new_loop buf_len (Z.to_nat QUEUE_SIZE) 0 d []
  end.

Definition can_recv (v : VirtIONet) : outcome bool :=
  do! t <- poll_receive (inner v); Ret (match t with Some _ => true | None => false end).

Definition receive (v : VirtIONet) : outcome (Result RxBuffer * VirtIONet) :=
  do! t <- poll_receive (inner v);
  match t with
  | None => Ret (Err NotReady, v)
  | Some token =>
      do! taken <- get (rx_buffers v) token;
      do! bufs <- put (rx_buffers v) token None;
      let v := mkNet (inner v) bufs in
      match taken with
      | None => Ret (Err WrongToken, v)
      | Some rx =>
          if negb (token =? rx_idx rx) then Ret (Err WrongToken, v)
          else
            do! (r, d) <- receive_complete token (rx_buf rx) (inner v);
            let v := mkNet d (rx_buffers v) in
            match r with
            | Err e => Ret (Err e, v)
            | Ok (_, pkt_len) => Ret (Ok (set_packet_len rx pkt_len), v)
            end
      end
  end.

Definition recycle_rx_buffer (rx : RxBuffer) (v : VirtIONet) : outcome (Result unit * VirtIONet) :=
  do! (r, d) <- receive_begin (rx_buf rx) (inner v);
  let v := mkNet d (rx_buffers v) in
  match r with
  | Err e => Ret (Err e, v)
  | Ok new_token =>
      do! old <- get (rx_buffers v) new_token;
      match old with
      | Some _ => Ret (Err WrongToken, v)
      | None =>
          do! bufs <- put (rx_buffers v) new_token (Some (set_rx_idx rx new_token));
          Ret (Ok tt, mkNet (inner v) bufs)
      end
  end.

(** ** The adapter of the kernel *)

Record VirtioNetDevice := mkDev { dev : VirtIONet; pending_tx : list (Z * Buffer) }.

Definition dev_new (v : VirtIONet) : VirtioNetDevice := mkDev v [].

Definition set_raw (x : VirtioNetDevice) (d : VirtIONetRaw) : VirtioNetDevice :=
  mkDev (mkNet d (rx_buffers (dev x))) (pending_tx x).

(** [drain_completed_tx]: the loop goes on as long as the used ring of the
    transmit queue shows an element. *)
Fixpoint drain_completed_tx (fuel : nat) (x : VirtioNetDevice) : outcome VirtioNetDevice :=
  match fuel with
  | O => OutOfFuel
  | S fuel' =>
      do! t <- poll_transmit (inner (dev x));
      match t with
      | None => Ret x
      | Some token =>
          match position (fun e => fst e =? token) (pending_tx x) with
          | None => drain_completed_tx fuel' x
          | Some idx =>
              match pending_tx x !! idx with
              | None => drain_completed_tx fuel' x
              | Some (_, buf) =>
                  let x := mkDev (dev x) (delete idx (pending_tx x)) in
                  do! (_, d) <- transmit_complete token buf (inner (dev x));
                  drain_completed_tx fuel' (set_raw x d)
              end
          end
      end
  end.

(** [Device::receive]: the packet is copied before its buffer goes back; the
    [None] of the source with an error other than [NotReady] is logged. *)
Definition dev_receive (m : mem) (x : VirtioNetDevice) : outcome (option bytes * VirtioNetDevice) :=
  do! (r, v) <- receive (dev x);
  match r with
  | Ok rx =>
      do! p <- packet rx m;
      do! (r, v) <- recycle_rx_buffer rx v;
      match r with
      | Err _ => Panic
      | Ok _ => Ret (Some p, mkDev v (pending_tx x))
      end
  | Err _ => Ret (None, mkDev v (pending_tx x))
  end.

(** [TxToken::consume]: [frame] is what the closure of the network stack writes,
    [ptr] the address of the vector. *)
Definition tx_consume (fuel : nat) (ptr : Z) (frame : bytes) (m : mem) (x : VirtioNetDevice) :
    outcome (mem * VirtioNetDevice) :=
  do! x <- drain_completed_tx fuel x;
  let raw := inner (dev x) in
  let hdr_len := match fst (fill_buffer_header raw (mkBuf 0 32) m) with Ok n => n | Err _ => 12 end in
  let buf := mkBuf ptr (hdr_len + zlen frame) in
  let m := mem_zero m ptr (buf_len buf) in
  let '(r, m) := fill_buffer_header raw buf m in
  match r with
  | Err _ => Panic
  | Ok _ =>
      let m := mem_write m (ptr + hdr_len) frame in
      do! (r, d) <- transmit_begin buf raw;
      let x := set_raw x d in
      match r with
      | Ok token => Ret (m, mkDev (dev x) (pending_tx x ++ [(token, buf)]))
      | Err _ => Ret (m, x)
      end
  end.
End net.
