(* ===== verification/NetProofs.v ===== *)
(** * The virtio network driver: theorems

    The receive side always has all its buffers with the device; the transmit
    side remembers exactly the frames in flight; frames reach the device as the
    network stack wrote them, and packets the stack as the device wrote them. *)

From S2P Require Import Prelude.
From S2P Require Import Virtq.
From S2P Require Import VirtqInv.
From S2P Require Import VirtqRun.
From S2P Require Import VirtqThms.
From S2P Require Import VirtqOwn.
From S2P Require Import Net.

(** The next element of the used ring, if the driver has not taken it yet. *)
Definition next_used (SIZE : Z) (q : VirtQueue) : option (Z * Z) :=
  if can_pop q then us_ring (used q) !! Z.to_nat (Z.land (last_used_idx q) (SIZE - 1)) else None.

(** The used ring in a new state. *)
Definition see (q : VirtQueue) (u : UsedRing) : VirtQueue := device_writes (desc q) (avail q) u q.

(** The elements the device has added to the used ring and the driver has not
    taken, in order: [n] from index [i]. *)
Fixpoint shown (SIZE : Z) (n : nat) (i : Z) (u : UsedRing) : list (Z * Z) :=
  match n with
  | O => []
  | S n' => match us_ring u !! Z.to_nat (Z.land i (SIZE - 1)) with Some e => e | None => (0, 0) end
            :: shown SIZE n' (u16 (i + 1)) u
  end.

Definition backlog (q : VirtQueue) : nat := Z.to_nat (u16 (us_idx (used q) - last_used_idx q)).
Definition unseen (SIZE : Z) (q : VirtQueue) : list (Z * Z) := shown SIZE (backlog q) (last_used_idx q) (used q).
Definition completed (SIZE : Z) (q : VirtQueue) : list Z := (fun e => u16 e.1) <$> unseen SIZE q.

Lemma can_pop_backlog q :
  0 <= us_idx (used q) < 2 ^ 16 -> 0 <= last_used_idx q < 2 ^ 16 -> can_pop q = match backlog q with O => false | _ => true end.
Proof.
  intros Hu Hl. unfold can_pop, backlog. destruct (Z.eqb_spec (last_used_idx q) (us_idx (used q))) as [->|Hne].
  - by rewrite Z.sub_diag.
  - assert (0 < u16 (us_idx (used q) - last_used_idx q)) as Hpos; [|by destruct (Z.to_nat _) eqn:E; [lia|]].
    unfold u16. Z.div_mod_to_equations. lia.
Qed.

Lemma backlog_step i l n : Z.to_nat (u16 (i - l)) = S n -> Z.to_nat (u16 (i - u16 (l + 1))) = n.
Proof.
  intros E. unfold u16 in *. rewrite Zminus_mod_idemp_r. replace (i - (l + 1)) with (i - l + (-1)) by lia.
  rewrite <- Zplus_mod_idemp_l. pose proof (Z.mod_pos_bound (i - l) (2 ^ 16) ltac:(lia)).
  rewrite Z.mod_small; lia.
Qed.

(** The element [next_used] shows is the first unseen one, and taking it leaves
    the others. *)
Lemma unseen_cases k q :
  0 <= k < 16 -> 0 <= us_idx (used q) < 2 ^ 16 -> 0 <= last_used_idx q < 2 ^ 16 -> zlen (us_ring (used q)) = 2 ^ k ->
  (can_pop q = false /\ unseen (2 ^ k) q = []) \/
  exists e es, unseen (2 ^ k) q = e :: es /\ next_used (2 ^ k) q = Some e /\
    forall q', last_used_idx q' = u16 (last_used_idx q + 1) -> used q' = used q -> unseen (2 ^ k) q' = es.
Proof.
  intros Hk Hu Hl Hlen. pose proof (can_pop_backlog q Hu Hl) as Hc. unfold unseen, next_used.
  destruct (backlog q) as [|n] eqn:En; [by left|right]. rewrite Hc. cbn [shown].
  pose proof (slot_range k Hk (last_used_idx q) ltac:(lia)) as Hs. pose proof (size_range k Hk).
  destruct (lookup_lt_is_Some_2 (us_ring (used q)) (Z.to_nat (Z.land (last_used_idx q) (2 ^ k - 1)))) as [e He].
  { unfold zlen in Hlen. lia. }
  rewrite He. eexists _, _. split_and!; [done|done|]. intros q' El Eu. unfold backlog in *. rewrite El, Eu.
  by rewrite (backlog_step _ _ _ En).
Qed.

Section receiving.
Context `{Hal} (k : Z) (Hk : 0 <= k < 16) (L : Z) (HL : MIN_BUFFER_LEN <= L < 2 ^ 32).
Abbreviation SIZE := (2 ^ k).

Lemma L_pos : 0 < L < 2 ^ 32.
Proof using HL. unfold MIN_BUFFER_LEN in HL. lia. Qed.

Definition rx_ok (legacy : bool) (i : nat) (o : option RxBuffer) : Prop :=
  exists rx, o = Some rx /\ rx_idx rx = Z.of_nat i /\ buf_len (rx_buf rx) = L /\ rx_legacy rx = legacy.

Definition rx_ptrs (bufs : list (option RxBuffer)) : list Z :=
  (fun o => match o with Some rx => buf_ptr (rx_buf rx) | None => 0 end) <$> bufs.

(** All the receive buffers are with the device, buffer [i] under token [i]. *)
Definition rinv (q : VirtQueue) (bufs : list (option RxBuffer)) (legacy : bool) : Prop :=
  exists fs, qinv k q [] fs /\ idx_ok q /\ zlen bufs = SIZE /\
    (forall i o, bufs !! i = Some o -> rx_ok legacy i o) /\ Forall (owns L (rx_ptrs bufs)) fs.

Lemma rx_len_ok legacy i o rx : rx_ok legacy i o -> o = Some rx -> check_rx_buf_len (rx_buf rx) = Ok tt.
Proof using HL.
  intros (rx' & -> & _ & Hl & _) [= ->]. unfold check_rx_buf_len. rewrite Hl.
  destruct (Z.ltb_spec L MIN_BUFFER_LEN); [lia|done].
Qed.

Lemma rinv_see q bufs legacy u :
  rinv q bufs legacy -> zlen (us_ring u) = SIZE -> rinv (see q u) bufs legacy.
Proof using Hk.
  intros (fs & Hq & Hi & Hb & Hrx & Ho) Hu. exists fs. split_and!; try done. eapply (qinv_private k q); try done; cbn; try apply Hq.
  pose proof (size_range k Hk). unfold zlen in *. lia.
Qed.

(** The state between [receive] and [recycle_rx_buffer]. *)
Definition rinv_out (q : VirtQueue) (bufs : list (option RxBuffer)) (legacy : bool) (c : nat) (rx : RxBuffer) : Prop :=
  exists fs, qinv k q [c] fs /\ idx_ok q /\ zlen bufs = SIZE /\ bufs !! c = Some None /\
    (forall i o, bufs !! i = Some o -> i <> c -> rx_ok legacy i o) /\
    Forall (owns L (rx_ptrs (<[c := Some rx]> bufs))) fs /\ buf_len (rx_buf rx) = L /\ rx_legacy rx = legacy.

Lemma rx_ptrs_lookup bufs c a : rx_ptrs bufs !! c = Some a -> exists o, bufs !! c = Some o /\
  a = match o with Some rx => buf_ptr (rx_buf rx) | None => 0 end.
Proof. unfold rx_ptrs. rewrite list_lookup_fmap. intros (o & -> & ->)%fmap_Some. eauto. Qed.

Lemma rx_ptrs_insert bufs c rx rx' :
  bufs !! c = Some (Some rx) -> rx_buf rx' = rx_buf rx -> rx_ptrs (<[c := Some rx']> bufs) = rx_ptrs bufs.
Proof.
  intros Hc E. unfold rx_ptrs. rewrite list_fmap_insert. cbn. rewrite E. apply list_insert_id.
  by rewrite list_lookup_fmap, Hc.
Qed.

(** Completing a reception. *)
Lemma receive_step d bufs id len :
  rinv (recv_queue d) bufs (legacy_header d) -> next_used SIZE (recv_queue d) = Some (id, len) -> u16 id < SIZE ->
  exists rx q', bufs !! Z.to_nat (u16 id) = Some (Some rx) /\ rx_ok (legacy_header d) (Z.to_nat (u16 id)) (Some rx) /\
    receive SIZE (mkNet d bufs) =
      Ret (if len <? hdr_size (legacy_header d) then Err IoError else Ok (set_packet_len rx (len - hdr_size (legacy_header d))),
           mkNet (set_recv d q') (<[Z.to_nat (u16 id) := None]> bufs)) /\
    rinv_out q' (<[Z.to_nat (u16 id) := None]> bufs) (legacy_header d) (Z.to_nat (u16 id)) rx /\
    last_used_idx q' = u16 (last_used_idx (recv_queue d) + 1) /\ used q' = used (recv_queue d) /\ num_used q' = SIZE - 1.
Proof using H Hk HL.
  intros (fs & Hq & [Ha Hl] & Hb & Hrx & Ho) Hnext Hid. pose proof (size_range k Hk) as Hsz.
  unfold next_used in Hnext. destruct (can_pop (recv_queue d)) eqn:Ecan; [|done].
  assert (0 <= u16 id) as Hid0 by (apply (Z.mod_pos_bound _ (2 ^ 16)); lia).
  destruct (owner_of k Hk L (recv_queue d) (rx_ptrs bufs) fs (u16 id) Hq Ho ltac:(lia))
    as (l1 & f & l2 & c & a & -> & Htok & Hc & Hba & Hin & Hout).
  apply rx_ptrs_lookup in Hba as (o & Hbc & ->). pose proof (Hrx c o Hbc) as (rx & -> & Hidx & Hlen & Hleg).
  rewrite <- Htok, Nat2Z.id.
  pose proof (vq_pop_ok k Hk (recv_queue d) [] l1 f l2 Hq Hl id len Hnext) as Hpop. cbv zeta in Hpop.
  rewrite Ecan in Hpop. unfold f_token in Hpop. rewrite Hc, <- Htok, Z.eqb_refl, Hin, Hout in Hpop. cbn [negb] in Hpop.
  destruct Hpop as (q' & Hpop & Hres & Hq').
  assert (mkBuf (buf_ptr (rx_buf rx)) L = rx_buf rx) as Erx by (destruct (rx_buf rx); cbn in *; by subst).
  rewrite Erx in Hpop. pose proof (lookup_lt_Some _ _ _ Hbc) as Hlt.
  destruct (pr_same _ _ _ Hres) as (_ & S2 & S3 & _). pose proof (pr_last _ _ _ Hres) as Hlast.
  exists rx, q'. split_and!; [done|by exists rx| | |done|done|].
  - unfold receive, poll_receive, peek_used. cbn [inner rx_buffers]. rewrite Ecan. unfold get at 1. rewrite Hnext. cbn [obind fst].
    rewrite <- Htok. rewrite (get_ok _ _ _ Hbc). cbn [obind]. rewrite put_ok by done. cbn [obind].
    rewrite Hidx, Z.eqb_refl. cbn [negb inner]. unfold receive_complete. rewrite Hpop. cbn [obind rx_buffers].
    cbn [legacy_header set_recv]. by destruct (len <? hdr_size (legacy_header d)).
  - exists (l1 ++ l2). split_and!; try done.

    + split; [by rewrite S3|]. rewrite Hlast. apply (Z.mod_pos_bound _ (2 ^ 16)). lia.
    + unfold zlen in *. by rewrite length_insert.
    + by apply list_lookup_insert_eq.
    + intros i o Hi Hne. rewrite list_lookup_insert_ne in Hi by done. by apply Hrx.
    + rewrite list_insert_insert_eq, (rx_ptrs_insert _ _ rx) by done. rewrite Forall_app, Forall_cons in Ho. rewrite Forall_app. tauto.
  - pose proof (qinv_free k Hk _ _ _ Hq') as Hfree. cbn in Hfree. unfold zlen in Hfree. cbn in Hfree. lia.
Qed.

(** Giving the buffer back. *)
Lemma recycle_step d bufs c rx n :
  rinv_out (recv_queue d) bufs (legacy_header d) c rx ->
  exists d', recycle_rx_buffer SIZE (set_packet_len rx n) (mkNet d bufs) =
      Ret (Ok tt, mkNet d' (<[c := Some (set_rx_idx (set_packet_len rx n) (Z.of_nat c))]> bufs)) /\
    rinv (recv_queue d') (<[c := Some (set_rx_idx (set_packet_len rx n) (Z.of_nat c))]> bufs) (legacy_header d) /\
    legacy_header d' = legacy_header d /\ send_queue d' = send_queue d /\
    last_used_idx (recv_queue d') = last_used_idx (recv_queue d) /\ used (recv_queue d') = used (recv_queue d).
Proof using H Hk HL.
  intros (fs & Hq & Hi & Hb & Hbc & Hrx & Ho & Hlen & Hleg). pose proof L_pos as HL'. pose proof (size_range k Hk) as Hsz.
  destruct (add_one k Hk L HL' (recv_queue d) [] c fs (buf_ptr (rx_buf rx)) Hq Hi) as (f & q' & Hadd & Hq' & Hi' & Hc & Hin & Hout & El & Eu).
  assert (mkBuf (buf_ptr (rx_buf rx)) L = rx_buf rx) as Erx by (destruct (rx_buf rx); cbn in *; by subst).
  rewrite Erx in *. pose proof (lookup_lt_Some _ _ _ Hbc) as Hlt.
  set (rx' := set_rx_idx (set_packet_len rx n) (Z.of_nat c)).
  exists (if should_notify q' then notify (set_recv d q') QUEUE_RECEIVE else set_recv d q'). split_and!.
  - unfold recycle_rx_buffer, receive_begin, check_rx_buf_len. cbn [rx_buf set_packet_len inner]. rewrite Hlen.
    destruct (Z.ltb_spec L MIN_BUFFER_LEN); [lia|]. rewrite Hadd. cbn [obind rx_buffers].
    rewrite (get_ok _ _ _ Hbc). cbn [obind]. rewrite put_ok by done. done.
  - exists (f :: fs). split_and!.
    + by destruct (should_notify q').
    + by destruct (should_notify q').
    + unfold zlen in *. by rewrite length_insert.
    + intros i o Hio. destruct (decide (i = c)) as [->|Hne].
      * rewrite list_lookup_insert_eq in Hio by done. injection Hio as <-. exists rx'. done.
      * rewrite list_lookup_insert_ne in Hio by done. by apply Hrx.
    + assert (rx_ptrs (<[c := Some rx']> bufs) = rx_ptrs (<[c := Some rx]> bufs)) as Eptr
        by (unfold rx_ptrs; by rewrite !list_fmap_insert).
      constructor; [|by rewrite Eptr]. exists c, (buf_ptr (rx_buf rx)). rewrite Erx. split_and!; try done.
      unfold rx_ptrs. rewrite list_fmap_insert, list_lookup_insert_eq by (by rewrite length_fmap). done.
  - by destruct (should_notify q').
  - by destruct (should_notify q').
  - by destruct (should_notify q').
  - by destruct (should_notify q').
Qed.

(** A read of the packet. *)
Lemma packet_ok rx n m :
  buf_len (rx_buf rx) = L -> 0 <= n -> hdr_size (rx_legacy rx) + n <= L ->
  packet (set_packet_len rx n) m = Ret (mem_read m (buf_ptr (rx_buf rx) + hdr_size (rx_legacy rx)) (Z.to_nat n)).
Proof using.
  intros Hlen Hn Hle. unfold packet, slice. cbn [rx_buf packet_len rx_legacy set_packet_len]. rewrite Hlen.
  assert (0 <= hdr_size (rx_legacy rx)) by (unfold hdr_size; by destruct (rx_legacy rx)).
  unfold zlen. rewrite mem_read_length. rewrite Z2Nat.id by lia.
  rewrite (proj2 (Z.leb_le _ _)) by lia. rewrite (proj2 (Z.leb_le _ _)) by lia. cbn [andb]. f_equal.
  set (h := hdr_size (rx_legacy rx)) in *. replace (h + n - h) with n by lia.
  replace (Z.to_nat L) with (Z.to_nat h + (Z.to_nat n + Z.to_nat (L - h - n)))%nat by lia.
  rewrite mem_read_app, drop_app_length' by (by rewrite mem_read_length).
  rewrite mem_read_app, take_app_length' by (by rewrite mem_read_length). f_equal. lia.
Qed.
End receiving.

(** ** Transmitting *)

Lemma drain_step SIZE fuel x :
  drain_completed_tx SIZE (S fuel) x =
  do! t <- poll_transmit SIZE (inner (dev x));
  match t with
  | None => Ret x
  | Some token =>
      match position (fun e => fst e =? token) (pending_tx x) with
      | None => drain_completed_tx SIZE fuel x
      | Some idx =>
          match pending_tx x !! idx with
          | None => drain_completed_tx SIZE fuel x
          | Some (_, buf) =>
              let x := mkDev (dev x) (delete idx (pending_tx x)) in
              do! (_, d) <- transmit_complete SIZE token buf (inner (dev x));
              drain_completed_tx SIZE fuel (set_raw x d)
          end
      end
  end.
Proof. done. Qed.

Section transmitting.
Context `{Hal} (k : Z) (Hk : 0 <= k < 16).
Abbreviation SIZE := (2 ^ k).

Definition one_frame (f : flight) : Prop := exists b c, f_ins f = [b] /\ f_outs f = [] /\ f_cells f = [c].

Definition tentry (f : flight) : Z * Buffer :=
  (f_token f, match f_ins f with b :: _ => b | [] => mkBuf 0 0 end).

(** The frames in flight are exactly the pending ones, and the device sees them. *)
Definition tinv_with (q : VirtQueue) (pending : list (Z * Buffer)) (free : list nat) (fs : list flight) (hist : list Z) : Prop :=
  qinv k q free fs /\ idx_ok q /\ visible k hist q fs /\ pending ≡ₚ tentry <$> fs /\
  Forall one_frame fs.
Definition tinv (q : VirtQueue) (pending : list (Z * Buffer)) : Prop :=
  exists free fs hist, tinv_with q pending free fs hist.

Lemma pending_split (pending : list (Z * Buffer)) t :
  t ∈ pending.*1 -> exists p1 buf p2, pending = p1 ++ (t, buf) :: p2 /\
    position (fun e => fst e =? t) pending = Some (length p1).
Proof.
  intros Hin. destruct (position (fun e => fst e =? t) pending) as [i|] eqn:E.
  - destruct (position_split _ _ _ E) as (p1 & [t' buf] & p2 & -> & <- & Ht & _). apply Z.eqb_eq in Ht. cbn in Ht. subst t'.
    by exists p1, buf, p2.
  - exfalso. apply position_None in E. apply list_elem_of_fmap in Hin as ([t' buf] & -> & Hin). rewrite Forall_forall in E.
    specialize (E _ Hin). cbn in E. by rewrite Z.eqb_refl in E.
Qed.

Lemma pending_flight p1 t buf p2 fs :
  p1 ++ (t, buf) :: p2 ≡ₚ tentry <$> fs -> Forall one_frame fs ->
  exists l1 f l2, fs = l1 ++ f :: l2 /\ f_token f = t /\ f_ins f = [buf] /\ f_outs f = [] /\ p1 ++ p2 ≡ₚ tentry <$> (l1 ++ l2).
Proof.
  intros Hp Hf. assert ((t, buf) ∈ tentry <$> fs) as Hin by (rewrite <- Hp; apply elem_of_app; right; left).
  apply list_elem_of_fmap in Hin as (f & E & Hin). apply list_elem_of_split in Hin as (l1 & l2 & ->).
  rewrite Forall_app, Forall_cons in Hf. destruct Hf as (_ & (b & c & Hi & Ho & _) & _). unfold tentry in E. rewrite Hi in E. injection E as -> ->.
  exists l1, f, l2. split_and!; try done. rewrite <- Permutation_middle in Hp. rewrite fmap_app in *. cbn [fmap list_fmap] in Hp.
  rewrite <- (Permutation_middle (list_fmap _ _ tentry l1)) in Hp. assert (tentry f = (f_token f, b)) as E by (unfold tentry; by rewrite Hi).
  rewrite E in Hp. by apply Permutation_cons_inv in Hp.
Qed.

(** Taking one completed frame. *)
Lemma complete_step q pending free fs hist id len p1 buf p2 :
  tinv_with q pending free fs hist -> next_used SIZE q = Some (id, len) -> pending = p1 ++ (u16 id, buf) :: p2 ->
  exists q', pop_used SIZE (u16 id) [buf] [] q = Ret (Ok len, q') /\ tinv q' (p1 ++ p2) /\
    last_used_idx q' = u16 (last_used_idx q + 1) /\ used q' = used q.
Proof using Hk.
  intros (Hq & [Ha Hl] & Hv & Hp & Hf) Hnext ->. unfold next_used in Hnext. destruct (can_pop q) eqn:Ecan; [|done].
  destruct (pending_flight _ _ _ _ _ Hp Hf) as (l1 & f & l2 & -> & Htok & Hin & Hout & Hp').
  pose proof (vq_pop_ok k Hk q free l1 f l2 Hq Hl id len Hnext) as Hpop. cbv zeta in Hpop.
  rewrite Ecan, Htok, Z.eqb_refl, Hin, Hout in Hpop. cbn [negb] in Hpop. destruct Hpop as (q' & Hpop & Hres & Hq').
  destruct (pr_same _ _ _ Hres) as (_ & S2 & S3 & _). exists q'. split_and!; [done| |apply (pr_last _ _ _ Hres)|done].
  exists (f_cells f ++ free), (l1 ++ l2), hist. split_and!; [done| | |done|].
  - split; [by rewrite S3|]. rewrite (pr_last _ _ _ Hres). apply (Z.mod_pos_bound _ (2 ^ 16)). lia.
  - change hist with (announced [RPop (Ok len)] hist). eapply (visible_moved k Hk (VPop 0)); [done|done| |done].
    by apply moved_pop.
  - rewrite Forall_app, Forall_cons in Hf. rewrite Forall_app. tauto.
Qed.

(** The drain loop takes everything the device has completed. *)
Lemma drain_ok x :
  tinv (send_queue (inner (dev x))) (pending_tx x) ->
  0 <= us_idx (used (send_queue (inner (dev x)))) < 2 ^ 16 ->
  NoDup (completed SIZE (send_queue (inner (dev x)))) ->
  (forall t, t ∈ completed SIZE (send_queue (inner (dev x))) -> t ∈ (pending_tx x).*1) ->
  exists q' pending' gone, drain_completed_tx SIZE (S (backlog (send_queue (inner (dev x))))) x =
      Ret (mkDev (mkNet (set_send (inner (dev x)) q') (rx_buffers (dev x))) pending') /\
    tinv q' pending' /\ pending_tx x ≡ₚ gone ++ pending' /\ gone.*1 = completed SIZE (send_queue (inner (dev x))) /\
    used q' = used (send_queue (inner (dev x))) /\ last_used_idx q' = us_idx (used q').
Proof using Hk.
  unfold completed, unseen. remember (backlog (send_queue (inner (dev x)))) as n eqn:En. revert x En.
  induction n as [|n IH]; intros x En (free & fs & hist & Ht) Hu Hnd Hsub; pose proof Ht as (Hq & [Ha Hl] & _).
  - rewrite drain_step. unfold poll_transmit, peek_used. rewrite can_pop_backlog, <- En by done. cbn [obind].
    exists (send_queue (inner (dev x))), (pending_tx x), []. split_and!; try done.
    + destruct x as [[d rx] p]. cbn. do 3 f_equal. by destruct d.
    + by exists free, fs, hist.
    + apply Nat.eq_sym in En. unfold backlog, u16 in En. Z.div_mod_to_equations. lia.
  - set (q := send_queue (inner (dev x))) in *. pose proof (slot_range k Hk (last_used_idx q) ltac:(lia)) as Hs.
    destruct (lookup_lt_is_Some_2 (us_ring (used q)) (Z.to_nat (Z.land (last_used_idx q) (SIZE - 1)))) as [[id len] Hslot].
    { rewrite (qi_used _ _ _ _ Hq). lia. }
    cbn [shown fmap list_fmap] in Hnd, Hsub. rewrite Hslot in Hnd, Hsub. cbn [fst] in Hnd, Hsub. apply NoDup_cons in Hnd as [Hnt Hnd].
    assert (can_pop q = true) as Ecan by (rewrite can_pop_backlog, <- En by done; done).
    destruct (pending_split (pending_tx x) (u16 id)) as (p1 & buf & p2 & Hp & Hpos); [apply Hsub; left|].
    destruct (complete_step q (pending_tx x) free fs hist id len p1 buf p2 Ht) as (q' & Hpop & Ht' & Hl' & Hused); [|done|].
    { unfold next_used. by rewrite Ecan. }
    rewrite drain_step. unfold poll_transmit, peek_used. fold q. rewrite Ecan. unfold get. rewrite Hslot. cbn [obind fst].
    assert (pending_tx x !! length p1 = Some (u16 id, buf)) as Hget by (rewrite Hp; by apply list_lookup_middle).
    rewrite Hpos, Hget. cbv iota beta.
    unfold transmit_complete. cbn [dev inner]. fold q. rewrite Hpop. cbn [obind].
    assert (delete (length p1) (pending_tx x) = p1 ++ p2) as -> by (rewrite Hp; apply delete_middle).
    set (x1 := set_raw _ _).
    destruct (IH x1) as (q2 & pending' & gone & Hrun & Ht2 & Hperm & Hgone & Hu2 & Hl2).
    + cbn. unfold backlog. rewrite Hl', Hused. symmetry. apply backlog_step. by rewrite En.
    + exact Ht'.
    + cbn. by rewrite Hused.
    + cbn. by rewrite Hl', Hused.
    + cbn. rewrite Hl', Hused. intros t Hin. assert (t ∈ (pending_tx x).*1) as Hin' by (apply Hsub; by right).
      rewrite Hp, fmap_app in Hin'. rewrite fmap_app. cbn in Hin'. rewrite elem_of_app, elem_of_cons in Hin'. rewrite elem_of_app.
      destruct Hin' as [|[->|]]; auto. done.
    + exists q2, pending', ((u16 id, buf) :: gone). split_and!.
      * rewrite Hrun. done.
      * done.
      * rewrite Hp. cbn. rewrite <- Permutation_middle. f_equiv. exact Hperm.
      * cbn [shown]. fold q. rewrite Hslot. change (gone.*1) with (fst <$> gone) in *. cbn. f_equal. rewrite Hgone. cbn. by rewrite Hl', Hused.
      * rewrite Hu2. exact Hused.
      * done.
Qed.

Lemma tinv_perm q p p' : p' ≡ₚ p -> tinv q p -> tinv q p'.
Proof using.
  intros Hp (free & fs & hist & H1 & H2 & H3 & H4 & H5). exists free, fs, hist. split_and!; try done. by rewrite Hp.
Qed.

Lemma pending_used q pending free fs hist : tinv_with q pending free fs hist -> num_used q = zlen pending.
Proof using.
  intros (Hq & _ & _ & Hp & Hf). rewrite (qi_num _ _ _ _ Hq). unfold zlen. rewrite Hp, length_fmap. unfold busy_cells.
  f_equal. clear -Hf. induction Hf as [|f fs (b & c & _ & _ & Hc) _ IH]; [done|]. cbn. rewrite Hc. cbn. by rewrite IH.
Qed.

(** Announcing a frame. *)
Lemma send_step q pending b :
  tinv q pending -> 0 < buf_len b < 2 ^ 32 ->
  if zlen pending <? SIZE then
    exists token paddr q', add SIZE [b] [] q = Ret (Ok token, q') /\ tinv q' ((token, b) :: pending) /\
      used q' = used q /\ last_used_idx q' = last_used_idx q /\
      device_request SIZE q' token = Some [(paddr, buf_len b, false)] /\ answered (b, DriverToDevice, paddr) /\
      av_ring (avail q') !! Z.to_nat ((av_idx (avail q') - 1) mod SIZE) = Some token
  else add SIZE [b] [] q = Ret (Err QueueFull, q).
Proof using Hk.
  intros (free & fs & hist & Ht) Hb. pose proof (pending_used _ _ _ _ _ Ht) as Hnum. destruct Ht as (Hq & [Ha Hl] & Hv & Hp & Hf).
  assert (Forall buffer_ok (input_output [b] [])) as Hbo by (constructor; [by split|done]).
  assert (needed q (zlen [b] + zlen (@nil Buffer)) = 1) as Hneed by (unfold needed; by destruct (indirect q)).
  destruct (Z.ltb_spec (zlen pending) SIZE) as [Hroom|Hfull].
  2: { apply (add_full k Hk q [b] [] Ha ltac:(done)). left. rewrite Hneed. lia. }
  destruct (add_ok k Hk q free fs [b] [] Hq Ha Hbo ltac:(done)) as (f & free' & q' & Hrun & Hi & Ho & Hfree & Hcl & Hres & Hq').
  { rewrite Hneed. lia. }
  { change (1 <= SIZE). pose proof (size_range k Hk). lia. }
  assert (visible k (f_token f :: hist) q' (f :: fs)) as Hv'.
  { change (f_token f :: hist) with (announced [RAdd (Ok (f_token f))] hist). eapply (visible_moved k Hk (VAdd [b] [])); [done|done| |done].
    by apply (moved_add k _ _ _ _ _ f free'). }
  assert (exists paddr, f_bs f = [(b, DriverToDevice, paddr)]) as [paddr Ebs].
  { pose proof (qi_flights _ _ _ _ Hq') as (Hbs & _)%Forall_cons_1. destruct Hbs as [Hbs _]. rewrite Hi, Ho in Hbs.
    destruct (f_bs f) as [|[s p] [|]]; try done. cbn in Hbs. injection Hbs as ->. by exists p. }
  destruct (ar_same _ _ _ _ Hres) as (_ & S2 & S3 & _).
  exists (f_token f), paddr, q'. split_and!; [done| |done|done| | |].
  - exists free', (f :: fs), (f_token f :: hist). split_and!; [done| |done| |].
    + destruct (ar_idx _ _ _ _ Hres) as [E _]. unfold idx_ok. rewrite E, S3. split; [apply (Z.mod_pos_bound _ (2 ^ 16)); lia|done].
    + cbn. unfold tentry at 1. rewrite Hi. by rewrite Hp.
    + constructor; [|done]. rewrite Hneed in Hcl. destruct (f_cells f) as [|c [|c' cs]] eqn:Ec; rewrite ?zlen_cons in Hcl;
        try (pose proof (zlen_nonneg cs)); try done; [|lia]. by exists b, c.
  - rewrite (request_read k Hk q' free' (f :: fs) f _ Hq') by (done || left). by rewrite Ebs.
  - pose proof (ar_answered _ _ _ _ Hres) as Hans. rewrite Ebs in Hans. by apply Forall_cons in Hans as [? _].
  - destruct Hv' as (_ & _ & V3 & ->). rewrite <- (Z.sub_0_r (avail_idx q' - 1)). apply (V3 0%nat); [pose proof (size_range k Hk); lia|done].
Qed.
End transmitting.

(** ** The driver in use

    The network stack asks for packets and sends frames; in between the device
    updates the used rings of its two queues. *)

Inductive nop :=
| NDevice (rx tx : UsedRing)
| NReceive (m : mem)
| NSend (ptr : Z) (frame : bytes) (m : mem).

Inductive nres := NPacket (p : option bytes) | NSent (m : mem) | NNone.

Definition see_device (rx tx : UsedRing) (x : VirtioNetDevice) : VirtioNetDevice :=
  let d := inner (dev x) in
  set_raw x (mkRaw (mac d) (see (recv_queue d) rx) (see (send_queue d) tx) (legacy_header d) (notified d)).

(** The drain loop gets one iteration more than the elements to take. *)
Definition nexec `{Hal} (SIZE : Z) (o : nop) (x : VirtioNetDevice) : outcome (nres * VirtioNetDevice) :=
  match o with
  | NDevice rx tx => Ret (NNone, see_device rx tx x)
  | NReceive m => do! (p, x) <- dev_receive SIZE m x; Ret (NPacket p, x)
  | NSend ptr frame m =>
      do! (m, x) <- tx_consume SIZE (S (backlog (send_queue (inner (dev x))))) ptr frame m x; Ret (NSent m, x)
  end.

(** The device follows the specification: it completes receive buffers of the
    queue with at least a header and at most the buffer, and each frame in flight
    at most once. *)
Definition device_follows (SIZE L : Z) (x : VirtioNetDevice) : Prop :=
  let d := inner (dev x) in
  zlen (us_ring (used (recv_queue d))) = SIZE /\ zlen (us_ring (used (send_queue d))) = SIZE /\
  0 <= us_idx (used (recv_queue d)) < 2 ^ 16 /\ 0 <= us_idx (used (send_queue d)) < 2 ^ 16 /\
  Forall (fun e => u16 e.1 < SIZE /\ hdr_size (legacy_header d) <= e.2 <= L) (unseen SIZE (recv_queue d)) /\
  NoDup (completed SIZE (send_queue d)) /\
  forall t, t ∈ completed SIZE (send_queue d) -> t ∈ (pending_tx x).*1.

Definition nop_ok (SIZE L : Z) (o : nop) (x : VirtioNetDevice) : Prop :=
  match o with
  | NDevice rx tx => device_follows SIZE L (see_device rx tx x)
  | NReceive _ => True
  | NSend _ frame _ => zlen frame < 2 ^ 31
  end.

(** The states of the driver over a device that follows the specification:
    [net_new] with receive buffers of [len] bytes, then any operations. *)
Inductive net_reach `{Hal} (SIZE len : Z) : VirtioNetDevice -> Prop :=
| net_start tr_tx tr_rx features cmac cstatus v :
    net_new SIZE len tr_tx tr_rx features cmac cstatus = Ret (Ok v) -> net_reach SIZE len (dev_new v)
| net_next o x r x' :
    net_reach SIZE len x -> nop_ok SIZE (8 * (len / 8)) o x -> nexec SIZE o x = Ret (r, x') -> net_reach SIZE len x'.

Section driving.
Context `{Hal} (k : Z) (Hk : 0 <= k < 16) (L : Z) (HL : MIN_BUFFER_LEN <= L < 2 ^ 32).
Abbreviation SIZE := (2 ^ k).

Definition ninv (x : VirtioNetDevice) : Prop :=
  rinv k L (recv_queue (inner (dev x))) (rx_buffers (dev x)) (legacy_header (inner (dev x))) /\
  tinv k (send_queue (inner (dev x))) (pending_tx x) /\ device_follows SIZE L x.

Lemma tinv_see q pending u : tinv k q pending -> zlen (us_ring u) = SIZE -> tinv k (see q u) pending.
Proof using Hk.
  intros (free & fs & hist & Hq & Hi & Hv & Hp & Hf) Hu. exists free, fs, hist. split_and!; try done.
  eapply (qinv_private k q); try done; cbn; try apply Hq. pose proof (size_range k Hk). unfold zlen in *. lia.
Qed.

Lemma ninv_device rx tx x : ninv x -> device_follows SIZE L (see_device rx tx x) -> ninv (see_device rx tx x).
Proof using Hk.
  intros (Hr & Ht & _) Hd. pose proof Hd as (L1 & L2 & _). split_and!; [by apply rinv_see|by apply tinv_see|done].
Qed.

(** Receiving, on every state of the device. *)
Lemma dev_receive_ok m x :
  ninv x ->
  match unseen SIZE (recv_queue (inner (dev x))) with
  | [] => dev_receive SIZE m x = Ret (None, x)
  | (id, len) :: _ =>
      exists rx x', rx_buffers (dev x) !! Z.to_nat (u16 id) = Some (Some rx) /\
        dev_receive SIZE m x =
          Ret (Some (mem_read m (buf_ptr (rx_buf rx) + hdr_size (legacy_header (inner (dev x))))
                      (Z.to_nat (len - hdr_size (legacy_header (inner (dev x)))))), x') /\
        ninv x' /\ pending_tx x' = pending_tx x /\ send_queue (inner (dev x')) = send_queue (inner (dev x)) /\
        unseen SIZE (recv_queue (inner (dev x'))) = tail (unseen SIZE (recv_queue (inner (dev x))))
  end.
Proof using H Hk HL.
  intros (Hr & Ht & L1 & L2 & U1 & U2 & Hrx & Htx). pose proof Hr as (fs & Hq & [Ha Hl] & _).
  destruct (unseen_cases k (recv_queue (inner (dev x))) Hk U1 Hl L1) as [[Hc ->]|([id len] & es & Hun & Hnext & Hrest)].
  { unfold dev_receive, receive, poll_receive, peek_used. rewrite Hc. cbn [obind]. by destruct x. }
  rewrite Hun in *. apply Forall_cons in Hrx as [[Hid Hlen] Hrx]. cbn [fst snd] in *.
  destruct (receive_step k Hk L HL (inner (dev x)) (rx_buffers (dev x)) id len Hr Hnext Hid)
    as (rx & q' & Hbc & (rx' & [= <-] & Hidx & Hrl & Hleg) & Hrun & Hout & El & Eu & _).
  set (leg := legacy_header (inner (dev x))) in *.
  destruct (recycle_step k Hk L HL (set_recv (inner (dev x)) q') (<[Z.to_nat (u16 id) := None]> (rx_buffers (dev x))) (Z.to_nat (u16 id)) rx
    (len - hdr_size leg) Hout) as (d' & Hrec & Hr' & Eleg & Es & El' & Eu').
  assert (dev_receive SIZE m x = Ret (Some (mem_read m (buf_ptr (rx_buf rx) + hdr_size leg) (Z.to_nat (len - hdr_size leg))),
    mkDev (mkNet d' (<[Z.to_nat (u16 id) := Some (set_rx_idx (set_packet_len rx (len - hdr_size leg)) (Z.of_nat (Z.to_nat (u16 id))))]>
      (<[Z.to_nat (u16 id) := None]> (rx_buffers (dev x))))) (pending_tx x))) as Hdev.
  { unfold dev_receive. destruct x as [[d bufs] pend]. cbn [dev inner rx_buffers pending_tx] in *. rewrite Hrun. cbn [obind].
    destruct (Z.ltb_spec len (hdr_size leg)); [lia|].
    rewrite (packet_ok L) by (done || (rewrite Hleg; fold leg; lia) || lia). cbn [obind].
    rewrite Hrec. cbn [obind]. by rewrite Hleg. }
  assert (unseen SIZE (recv_queue d') = es) as Hun' by (apply Hrest; [rewrite El'; exact El|rewrite Eu'; exact Eu]).
  assert (send_queue d' = send_queue (inner (dev x))) as Es' by (rewrite Es; done).
  assert (used (recv_queue d') = used (recv_queue (inner (dev x)))) as Eu2 by (rewrite Eu'; exact Eu).
  exists rx. eexists. split_and!; [done|exact Hdev| |done|exact Es'|exact Hun'].
  cbn [legacy_header set_recv] in Hr', Eleg. fold leg in Hr', Eleg. unfold ninv, device_follows; cbn [dev inner rx_buffers pending_tx].
  rewrite Eleg, Es', Eu2, Hun'. split_and!; done || lia || apply Htx.
Qed.

(** ** Starting up *)

Lemma all_seen q : last_used_idx q = us_idx (used q) -> unseen SIZE q = [].
Proof. unfold unseen, backlog. intros ->. by rewrite Z.sub_diag. Qed.

Lemma rx_start n i d bufs fs len :
  L = 8 * (len / 8) -> qinv k (recv_queue d) (seq i n) fs -> idx_ok (recv_queue d) -> length bufs = i -> (i + n <= Z.to_nat SIZE)%nat ->
  (forall j o, bufs !! j = Some o -> rx_ok L (legacy_header d) j o) -> Forall (owns L (rx_ptrs bufs)) fs ->
  exists d' bufs' fs', net_new_loop SIZE len n (Z.of_nat i) d bufs = Ret (Ok (mkNet d' bufs')) /\
    qinv k (recv_queue d') [] fs' /\ idx_ok (recv_queue d') /\ length bufs' = (i + n)%nat /\
    (forall j o, bufs' !! j = Some o -> rx_ok L (legacy_header d) j o) /\ Forall (owns L (rx_ptrs bufs')) fs' /\
    legacy_header d' = legacy_header d /\ send_queue d' = send_queue d /\
    used (recv_queue d') = used (recv_queue d) /\ last_used_idx (recv_queue d') = last_used_idx (recv_queue d).
Proof using Hk HL.
  intros EL. revert i d bufs fs. induction n as [|n IH]; intros i d bufs fs Hq Hi Hlen Hn Hrx Ho.
  { exists d, bufs, fs. split_and!; try done. lia. }
  pose proof (size_range k Hk) as Hsz. cbn [seq] in Hq. cbn [net_new_loop]. rewrite <- EL. set (a := hal_box _ _).
  unfold rx_new. rewrite (proj2 (Z.ltb_lt (Z.of_nat i) (2 ^ 16))) by lia. cbn [obind rx_buf]. rewrite <- EL.
  destruct (add_one k Hk L (L_pos L HL) (recv_queue d) (seq (S i) n) i fs a Hq Hi) as (f & q' & Hadd & Hq' & Hi' & Hc & Hin & Hout & El & Eu).
  unfold receive_begin, check_rx_buf_len. cbn [buf_len]. destruct (Z.ltb_spec L MIN_BUFFER_LEN); [lia|]. rewrite Hadd. cbn [obind].
  assert (u16 (Z.of_nat i) = Z.of_nat i) as -> by (apply Z.mod_small; lia).
  rewrite Z.eqb_refl. replace (Z.of_nat i + 1) with (Z.of_nat (S i)) by lia.
  set (rx := mkRx (mkBuf a L) 0 (Z.of_nat i) (legacy_header d)).
  set (d1 := if should_notify q' then _ else _).
  assert (recv_queue d1 = q' /\ legacy_header d1 = legacy_header d /\ send_queue d1 = send_queue d) as (E1 & E2 & E3)
    by (unfold d1; by destruct (should_notify q')).
  rewrite <- E1 in *. rewrite <- E2 in *.
  destruct (IH (S i) d1 (bufs ++ [Some rx]) (f :: fs) Hq' Hi') as (d2 & bufs2 & fs2 & Hrun & Hq2 & Hi2 & Hl2 & Hr2 & Ho2 & R1 & R2 & R3 & R4).
  { rewrite length_app; cbn; lia. }
  { lia. }
  { intros j o [Hj|[Hj E]]%lookup_app_Some; [by apply Hrx|]. apply list_lookup_singleton_Some in E as [E <-].
    exists rx. split_and!; try done. cbn. lia. }
  { assert (rx_ptrs (bufs ++ [Some rx]) = rx_ptrs bufs ++ [a]) as -> by (unfold rx_ptrs; by rewrite fmap_app).
    constructor; [|eapply Forall_impl; [done|]; apply owns_more].
    exists i, a. split_and!; try done. apply list_lookup_middle. unfold rx_ptrs. by rewrite length_fmap. }
  exists d2, bufs2, fs2. split_and!; try done; [lia|congruence..].
Qed.

Lemma fresh_sends q : fresh k q -> tinv k q [].
Proof using Hk.
  intros (Hq & Ha & Hl & Hav). exists (seq 0 (Z.to_nat SIZE)), [], []. split_and!; try done.
  - split; [rewrite Ha|rewrite Hl]; lia.
  - split_and!; try (by intros f ? ?%not_elem_of_nil); [done|congruence].
Qed.

(** The driver comes up with all its receive buffers with the device. *)
Lemma net_new_ok len tr_tx tr_rx features cmac cstatus d :
  L = 8 * (len / 8) -> raw_new SIZE tr_tx tr_rx features cmac cstatus = Ret (Ok d) ->
  exists v, net_new SIZE len tr_tx tr_rx features cmac cstatus = Ret (Ok v) /\ ninv (dev_new v) /\
    legacy_header (inner v) = legacy_header d.
Proof using Hk HL.
  intros EL Hraw. unfold net_new. rewrite Hraw. cbn [obind]. unfold raw_new in Hraw.
  destruct cmac as [cm|]; [|done]. destruct cstatus as [cs|]; [|done].
  destruct (new SIZE tr_tx _ _ _ _) as [[[tx ?]|]| |] eqn:Etx; try done. cbn [obind] in Hraw.
  destruct (new SIZE tr_rx _ _ _ _) as [[[rx ?]|]| |] eqn:Erx; try done. cbn [obind] in Hraw. injection Hraw as <-.
  destruct (new_fresh k Hk _ _ _ _ _ _ _ Etx) as (Hftx & _ & _ & Utx). destruct (new_fresh k Hk _ _ _ _ _ _ _ Erx) as (Hfrx & _ & _ & Urx).
  pose proof (fresh_sends _ Hftx) as Ht. pose proof Ht as (fr & fs0 & hi & Hqt & _). destruct Hftx as (_ & _ & Hltx & _).
  destruct Hfrx as (Hq & Ha & Hl & _). set (d := mkRaw _ _ _ _ _).
  destruct (rx_start (Z.to_nat SIZE) 0 d [] [] len EL Hq) as (d' & bufs & fs & Hrun & Hq' & Hi' & Hn & Hr & Ho & E1 & E2 & E3 & E4); try done.
  { split; cbn; [rewrite Ha|rewrite Hl]; lia. }
  pose proof (size_range k Hk). eexists. split_and!; [exact Hrun| |exact E1]. unfold ninv. cbn [dev_new dev inner rx_buffers pending_tx].
  rewrite E2. split_and!; [|done|].
  - exists fs. split_and!; try done; [unfold zlen; lia|]. by rewrite E1.
  - assert (unseen SIZE tx = []) as U1 by (apply all_seen; congruence).
    assert (unseen SIZE (recv_queue d') = []) as U2 by (apply all_seen; rewrite E3, E4; cbn; congruence).
    unfold device_follows, completed. cbn [dev_new dev inner pending_tx]. rewrite E2, E3. cbn [recv_queue send_queue d].
    rewrite U2. change (send_queue d) with tx. change (recv_queue d) with rx. rewrite U1. pose proof (qi_used _ _ _ _ Hqt) as Z1. pose proof (qi_used _ _ _ _ Hq) as Z2. cbn in Z2.
    unfold zlen. rewrite Z1, Z2, Urx, Utx. split_and!; try lia; try constructor. by intros t ?%not_elem_of_nil.
Qed.

(** The vector the driver builds: a zero header and the frame. *)
Lemma frame_in_memory m ptr h frame :
  0 <= h -> mem_read (mem_write (mem_write (mem_zero m ptr (h + zlen frame)) ptr (replicate (Z.to_nat h) 0)) (ptr + h) frame) ptr
    (Z.to_nat (h + zlen frame)) = replicate (Z.to_nat h) 0 ++ frame.
Proof.
  intros Hh. pose proof (zlen_nonneg frame). replace (Z.to_nat (h + zlen frame)) with (Z.to_nat h + length frame)%nat by (unfold zlen; lia).
  rewrite mem_read_app, Z2Nat.id by done. f_equal; [|apply mem_read_write_same].
  rewrite mem_read_write_disjoint by lia. rewrite <- (length_replicate (Z.to_nat h) 0) at 2. apply mem_read_write_same.
Qed.

(** Sending, on every state of the device. *)
Lemma tx_consume_ok ptr frame m x :
  ninv x -> zlen frame < 2 ^ 31 ->
  exists gone pending' m' x', tx_consume SIZE (S (backlog (send_queue (inner (dev x))))) ptr frame m x = Ret (m', x') /\ ninv x' /\
    pending_tx x ≡ₚ gone ++ pending' /\ gone.*1 = completed SIZE (send_queue (inner (dev x))) /\
    recv_queue (inner (dev x')) = recv_queue (inner (dev x)) /\ rx_buffers (dev x') = rx_buffers (dev x) /\
    let h := hdr_size (legacy_header (inner (dev x))) in let b := mkBuf ptr (h + zlen frame) in
    mem_read m' ptr (Z.to_nat (h + zlen frame)) = replicate (Z.to_nat h) 0 ++ frame /\
    if zlen pending' <? SIZE then
      exists token paddr, pending_tx x' = pending' ++ [(token, b)] /\
        device_request SIZE (send_queue (inner (dev x'))) token = Some [(paddr, h + zlen frame, false)] /\
        answered (b, DriverToDevice, paddr) /\
        av_ring (avail (send_queue (inner (dev x')))) !!
          Z.to_nat ((av_idx (avail (send_queue (inner (dev x')))) - 1) mod SIZE) = Some token
    else pending_tx x' = pending'.
Proof using Hk.
  intros (Hr & Ht & L1 & L2 & U1 & U2 & Hrx & Hnd & Hsub) Hlen. pose proof (zlen_nonneg frame).
  destruct (drain_ok k Hk x Ht U2 Hnd Hsub) as (q1 & pending' & gone & Hdrain & Ht1 & Hperm & Hgone & Hu1 & Hl1).
  set (leg := legacy_header (inner (dev x))) in *. set (b := mkBuf ptr (hdr_size leg + zlen frame)).
  assert (10 <= hdr_size leg <= 12) as Hh by (unfold hdr_size; destruct leg; lia).
  pose proof (send_step k Hk q1 pending' b Ht1 ltac:(cbn; lia)) as Hsend.
  unfold tx_consume. rewrite Hdrain. cbn [obind dev inner].
  unfold fill_buffer_header, transmit_begin, check_tx_buf_len. cbn [legacy_header set_send send_queue buf_len]. fold leg.
  destruct (Z.ltb_spec 32 (hdr_size leg)); [lia|]. cbn [fst]. destruct (Z.ltb_spec (hdr_size leg + zlen frame) (hdr_size leg)); [lia|].
  cbn [buf_ptr]. fold b. destruct (zlen pending' <? SIZE) eqn:Eroom.
  - destruct Hsend as (token & paddr & q' & Hadd & Ht' & Hu' & Hl' & Hreq & Hans & Hav). rewrite Hadd. cbn [obind].
    exists gone, pending'. eexists _, _. split_and!; [done| |done|done|by destruct (should_notify q')|done| |rewrite Eroom].
    + assert (unseen SIZE q' = []) as Hno by (apply all_seen; congruence).
      unfold ninv, device_follows, completed. cbn [dev inner rx_buffers pending_tx set_raw].
      destruct (should_notify q'); cbn; rewrite ?Hno, ?Hu', ?Hu1; split_and!; try done; try lia.
      all: try (eapply tinv_perm; [symmetry; apply Permutation_cons_append|done]).
      all: try constructor. all: by intros t ?%not_elem_of_nil.
    + apply frame_in_memory. lia.
    + exists token, paddr. split_and!; [done| |done|]; by destruct (should_notify q').
  - rewrite Hsend. cbn [obind]. exists gone, pending'. eexists _, _. split_and!; [done| |done|done|done|done| |by rewrite Eroom].
    + assert (unseen SIZE q1 = []) as Hno by (apply all_seen; congruence).
      unfold ninv, device_follows, completed. cbn. rewrite ?Hno, ?Hu1. split_and!; try done; try lia.
      all: try constructor. all: by intros t ?%not_elem_of_nil.
    + apply frame_in_memory. lia.
Qed.
End driving.

Lemma nexec_ninv `{Hal} k L o x :
  0 <= k < 16 -> MIN_BUFFER_LEN <= L < 2 ^ 32 -> ninv k L x -> nop_ok (2 ^ k) L o x ->
  exists r x', nexec (2 ^ k) o x = Ret (r, x') /\ ninv k L x'.
Proof.
  intros Hk HL Hx Ho. destruct o as [rx tx|m|ptr frame m]; cbn [nexec].
  - eexists _, _. split; [done|]. by apply ninv_device.
  - pose proof (dev_receive_ok k Hk L HL m x Hx) as Hr. destruct (unseen _ _) as [|[id n] es].
    + rewrite Hr. by eexists _, _.
    + destruct Hr as (rx & x' & _ & -> & Hx' & _). by eexists _, _.
  - destruct (tx_consume_ok k Hk L ptr frame m x Hx Ho) as (gone & p & m' & x' & -> & Hx' & _). by eexists _, _.
Qed.

Lemma reach_ninv `{Hal} k len x :
  0 <= k < 16 -> MIN_BUFFER_LEN <= 8 * (len / 8) < 2 ^ 32 -> net_reach (2 ^ k) len x -> ninv k (8 * (len / 8)) x.
Proof.
  intros Hk HL. induction 1 as [tr_tx tr_rx features cmac cstatus v Hnew|o x r x' _ IH Ho Hrun].
  - destruct (raw_new (2 ^ k) tr_tx tr_rx features cmac cstatus) as [[d|]| |] eqn:Hraw.
    2-4: by unfold net_new in Hnew; rewrite Hraw in Hnew.
    destruct (net_new_ok k Hk _ HL len tr_tx tr_rx features cmac cstatus d) as (v' & Hnew' & Hv & _); [done..|].
    rewrite Hnew in Hnew'. by injection Hnew' as <-.
  - destruct (nexec_ninv k _ o x Hk HL IH Ho) as (r' & x2 & Hrun' & Hx2). rewrite Hrun in Hrun'. by injection Hrun' as <- <-.
Qed.

(** C9: the network driver over a device that follows the specification never
    panics and its drain loop ends; after every operation all the receive buffers
    are with the device, and the frames in [pending_tx] are exactly those the
    transmit queue holds, each a chain of one buffer the device reads. *)
Theorem net_never_stuck `{Hal} SIZE len x o :
  size_ok SIZE -> MIN_BUFFER_LEN <= 8 * (len / 8) < 2 ^ 32 -> net_reach SIZE len x -> nop_ok SIZE (8 * (len / 8)) o x ->
  exists r x', nexec SIZE o x = Ret (r, x') /\ num_used (recv_queue (inner (dev x'))) = SIZE /\
    num_used (send_queue (inner (dev x'))) = zlen (pending_tx x') /\
    forall t b, (t, b) ∈ pending_tx x' ->
      exists paddr, device_request SIZE (send_queue (inner (dev x'))) t = Some [(paddr, buf_len b, false)].
Proof.
  intros (k & Hk & ->)%power_of_two HL Hx Ho. apply reach_ninv in Hx; [|done..].
  destruct (nexec_ninv k _ o x Hk HL Hx Ho) as (r & x' & Hrun & (fs & Hq & _) & Ht & _).
  exists r, x'. split_and!; [done| | |].
  - pose proof (qinv_free k Hk _ _ _ Hq) as Hf. rewrite zlen_nil in Hf. lia.
  - destruct Ht as (free & fs' & hist & Ht). by eapply pending_used.
  - destruct Ht as (free & fs' & hist & Hq' & _ & Hv & Hp & Hf). intros t b Hin. rewrite Hp in Hin.
    apply list_elem_of_fmap in Hin as (f & E & Hin). rewrite Forall_forall in Hf. destruct (Hf f Hin) as (b' & c & Hi & Ho' & _).
    unfold tentry in E. rewrite Hi in E. injection E as -> ->. pose proof (qi_flights _ _ _ _ Hq') as Hok. rewrite Forall_forall in Hok.
    destruct (Hok f Hin) as [Hbs _]. rewrite Hi, Ho' in Hbs. rewrite (request_read k Hk _ _ _ _ _ Hq' Hin Hv).
    destruct (f_bs f) as [|[s p] [|]]; try done. cbn in Hbs. injection Hbs as ->. by exists p.
Qed.

(** C28: [Device::receive] hands the network stack the packets in the order the
    device completed them, each exactly the bytes the device wrote after the header
    of the buffer the used element names, and takes one element per packet; with
    nothing completed it returns [None] and changes nothing. *)
Theorem net_receives `{Hal} SIZE len m x :
  size_ok SIZE -> MIN_BUFFER_LEN <= 8 * (len / 8) < 2 ^ 32 -> net_reach SIZE len x ->
  let h := hdr_size (legacy_header (inner (dev x))) in
  match unseen SIZE (recv_queue (inner (dev x))) with
  | [] => dev_receive SIZE m x = Ret (None, x)
  | (id, n) :: rest =>
      exists rx x', rx_buffers (dev x) !! Z.to_nat (u16 id) = Some (Some rx) /\
        dev_receive SIZE m x = Ret (Some (mem_read m (buf_ptr (rx_buf rx) + h) (Z.to_nat (n - h))), x') /\
        unseen SIZE (recv_queue (inner (dev x'))) = rest
  end.
Proof.
  intros (k & Hk & ->)%power_of_two HL Hx. apply reach_ninv in Hx; [|done..]. cbv zeta.
  pose proof (dev_receive_ok k Hk _ HL m x Hx) as Hr. destruct (unseen _ _) as [|[id n] es]; [done|].
  destruct Hr as (rx & x' & H1 & H2 & _ & _ & _ & H3). by exists rx, x'.
Qed.

(** [TxToken::consume] forgets exactly the frames the device completed, puts
    a zero header and the frame in memory, and with a free descriptor announces
    them to the device: the request of the new token is that vector, and the token
    is the newest of the available ring.  With the queue full the frame is lost. *)
Theorem net_sends dma heap SIZE len ptr frame m x :
  size_ok SIZE -> MIN_BUFFER_LEN <= 8 * (len / 8) < 2 ^ 32 -> net_reach (H := TynHal dma heap) SIZE len x -> zlen frame < 2 ^ 31 ->
  exists gone pending' m' x',
    tx_consume (H := TynHal dma heap) SIZE (S (backlog (send_queue (inner (dev x))))) ptr frame m x = Ret (m', x') /\
    pending_tx x ≡ₚ gone ++ pending' /\ gone.*1 = completed SIZE (send_queue (inner (dev x))) /\
    let h := hdr_size (legacy_header (inner (dev x))) in
    let q := send_queue (inner (dev x')) in
    mem_read m' ptr (Z.to_nat (h + zlen frame)) = replicate (Z.to_nat h) 0 ++ frame /\
    if zlen pending' <? SIZE then
      exists token, pending_tx x' = pending' ++ [(token, mkBuf ptr (h + zlen frame))] /\
        device_request SIZE q token = Some [(ptr, h + zlen frame, false)] /\
        av_ring (avail q) !! Z.to_nat ((av_idx (avail q) - 1) mod SIZE) = Some token
    else pending_tx x' = pending'.
Proof.
  intros (k & Hk & ->)%power_of_two HL Hx Hf. apply reach_ninv in Hx; [|done..].
  destruct (tx_consume_ok (H := TynHal dma heap) k Hk _ ptr frame m x Hx Hf) as (gone & p & m' & x' & Hrun & _ & H1 & H2 & _ & _ & H3 & H4).
  exists gone, p, m', x'. cbv zeta. split_and!; try done. destruct (zlen p <? 2 ^ k); [|done].
  destruct H4 as (token & paddr & E1 & E2 & [log E3] & E4). cbn in E3. subst paddr. by exists token.
Qed.

(** ** A device that does not follow the specification *)

(** A used element of the receive queue shorter than the header makes
    [receive] return an error, and the buffer is neither used nor given back: the
    driver goes on with one receive buffer less. *)
Theorem short_packet_loses_buffer `{Hal} SIZE len m x rx tx id n :
  size_ok SIZE -> MIN_BUFFER_LEN <= 8 * (len / 8) < 2 ^ 32 -> net_reach SIZE len x ->
  zlen (us_ring rx) = SIZE -> next_used SIZE (see (recv_queue (inner (dev x))) rx) = Some (id, n) -> u16 id < SIZE ->
  n < hdr_size (legacy_header (inner (dev x))) ->
  exists x', dev_receive SIZE m (see_device rx tx x) = Ret (None, x') /\
    num_used (recv_queue (inner (dev x'))) = SIZE - 1 /\ rx_buffers (dev x') !! Z.to_nat (u16 id) = Some None.
Proof.
  intros (k & Hk & ->)%power_of_two HL Hx Hu Hnext Hid Hn. apply reach_ninv in Hx as (Hr & _); [|done..].
  pose proof (rinv_see k Hk _ _ _ _ rx Hr Hu) as Hr'.
  destruct (receive_step k Hk _ HL (inner (dev (see_device rx tx x))) (rx_buffers (dev x)) id n Hr' Hnext Hid)
    as (b & q' & Hb & _ & Hrun & _ & _ & _ & Hnum).
  change (legacy_header (inner (dev (see_device rx tx x)))) with (legacy_header (inner (dev x))) in Hrun.
  destruct (Z.ltb_spec n (hdr_size (legacy_header (inner (dev x))))); [|lia].
  eexists. split_and!; [unfold dev_receive; cbn [see_device set_raw dev inner] in *; by rewrite Hrun|done|].
  cbn. apply list_lookup_insert_eq. by eapply lookup_lt_Some.
Qed.

(** [drain_completed_tx] never ends when the used ring of the transmit queue
    shows a token that is not pending: no number of iterations is enough. *)
Theorem drain_spins_on_unknown_token SIZE x t fuel :
  poll_transmit SIZE (inner (dev x)) = Ret (Some t) -> Forall (fun e => fst e <> t) (pending_tx x) ->
  drain_completed_tx SIZE fuel x = OutOfFuel.
Proof.
  intros Hp Hn. induction fuel as [|fuel IH]; [done|]. rewrite drain_step, Hp. cbn [obind].
  destruct (position _ _) as [i|] eqn:E; [|done]. apply position_split in E as (p1 & e & p2 & Ep & _ & He & _).
  rewrite Ep, Forall_app, Forall_cons in Hn. destruct Hn as (_ & Hn & _). apply Z.eqb_eq in He. done.
Qed.

(** ** Witnesses *)

Definition tyn : Hal := TynHal 2097152 (fun log _ => 16777216 + 4096 * zlen log).
Definition net_demo : VirtIONet :=
  match net_new (H := tyn) 4 2048 (mkTransport false 256 false) (mkTransport false 256 false) (2 ^ 32 + 2 ^ 5)
          (Ok [82; 84; 0; 18; 52; 86]) (Ok 1) with
  | Ret (Ok v) => v
  | _ => mkNet (mkRaw [] (demo_queue false) (demo_queue false) false []) []
  end.

(** The device delivers a packet of 60 bytes in buffer 2, and completes no frame. *)
Definition net_rx : UsedRing := mkUsed 0 1 [(2, 72); (0, 0); (0, 0); (0, 0)] 0.
Definition net_tx : UsedRing := mkUsed 0 0 [(0, 0); (0, 0); (0, 0); (0, 0)] 0.

Lemma net_demo_reach : net_reach (H := tyn) 4 2048 (dev_new net_demo).
Proof.
  apply (net_start (H := tyn) 4 2048 (mkTransport false 256 false) (mkTransport false 256 false) (2 ^ 32 + 2 ^ 5)
    (Ok [82; 84; 0; 18; 52; 86]) (Ok 1)). by vm_compute.
Qed.

Lemma net_demo_follows : device_follows 4 (8 * (2048 / 8)) (see_device net_rx net_tx (dev_new net_demo)).
Proof.
  unfold device_follows. replace (unseen 4 _) with [(2, 72)] by (by vm_compute). replace (completed 4 _) with (@nil Z) by (by vm_compute).
  split_and!; try by vm_compute.
  - constructor; [|done]. by vm_compute.
  - constructor.
Qed.

Lemma net_demo_step : net_reach (H := tyn) 4 2048 (see_device net_rx net_tx (dev_new net_demo)).
Proof. eapply (net_next (H := tyn) 4 2048 (NDevice net_rx net_tx)); [apply net_demo_reach|apply net_demo_follows|done]. Qed.

Lemma net_never_stuck_witness :
  exists r x', nexec (H := tyn) 4 (NReceive (fun a => a mod 251)) (see_device net_rx net_tx (dev_new net_demo)) = Ret (r, x') /\
    num_used (recv_queue (inner (dev x'))) = 4 /\ num_used (send_queue (inner (dev x'))) = zlen (pending_tx x') /\
    forall t b, (t, b) ∈ pending_tx x' ->
      exists paddr, device_request 4 (send_queue (inner (dev x'))) t = Some [(paddr, buf_len b, false)].
Proof.
  apply (net_never_stuck (H := tyn) 4 2048 (see_device net_rx net_tx (dev_new net_demo)) (NReceive (fun a => a mod 251)));
    [by split|by vm_compute|apply net_demo_step|done].
Defined.

Lemma net_receives_witness :
  exists rx x', rx_buffers (dev (see_device net_rx net_tx (dev_new net_demo))) !! 2%nat = Some (Some rx) /\
    dev_receive (H := tyn) 4 (fun a => a mod 251) (see_device net_rx net_tx (dev_new net_demo)) =
      Ret (Some (mem_read (fun a => a mod 251) (buf_ptr (rx_buf rx) + 12) 60), x') /\
    unseen 4 (recv_queue (inner (dev x'))) = [].
Proof.
  apply (net_receives (H := tyn) 4 2048 (fun a => a mod 251) (see_device net_rx net_tx (dev_new net_demo)));
    [by split|by vm_compute|apply net_demo_step].
Defined.

Lemma net_sends_witness :
  exists gone pending' m' x',
    tx_consume (H := tyn) 4 1 33554432 [1; 2; 3] (fun a => a mod 251) (dev_new net_demo) = Ret (m', x') /\
    [] ≡ₚ gone ++ pending' /\ gone.*1 = [] /\
    mem_read m' 33554432 15 = [0; 0; 0; 0; 0; 0; 0; 0; 0; 0; 0; 0; 1; 2; 3] /\
    if zlen pending' <? 4 then
      exists token, pending_tx x' = pending' ++ [(token, mkBuf 33554432 15)] /\
        device_request 4 (send_queue (inner (dev x'))) token = Some [(33554432, 15, false)] /\
        av_ring (avail (send_queue (inner (dev x')))) !!
          Z.to_nat ((av_idx (avail (send_queue (inner (dev x')))) - 1) mod 4) = Some token
    else pending_tx x' = pending'.
Proof.
  apply (net_sends 2097152 (fun log _ => 16777216 + 4096 * zlen log) 4 2048 33554432 [1; 2; 3] (fun a => a mod 251) (dev_new net_demo));
    [by split|by vm_compute|apply net_demo_reach|by vm_compute].
Defined.

Lemma short_packet_loses_buffer_witness :
  exists x', dev_receive (H := tyn) 4 (fun a => a mod 251)
      (see_device (mkUsed 0 1 [(2, 11); (0, 0); (0, 0); (0, 0)] 0) net_tx (dev_new net_demo)) = Ret (None, x') /\
    num_used (recv_queue (inner (dev x'))) = 3 /\ rx_buffers (dev x') !! 2%nat = Some None.
Proof.
  apply (short_packet_loses_buffer (H := tyn) 4 2048 (fun a => a mod 251) (dev_new net_demo)
    (mkUsed 0 1 [(2, 11); (0, 0); (0, 0); (0, 0)] 0) net_tx 2 11);
    [by split|by vm_compute|apply net_demo_reach|by vm_compute..].
Defined.

Lemma drain_spins_on_unknown_token_witness :
  drain_completed_tx 4 1000 (see_device net_tx net_rx (dev_new net_demo)) = OutOfFuel.
Proof.
  apply (drain_spins_on_unknown_token 4 (see_device net_tx net_rx (dev_new net_demo)) 2 1000); [by vm_compute|constructor].
Defined.
