(* ===== verification/Socket.v ===== *)
(** * Sockets: [src/src/net/socket.rs] and [src/src/net/mod.rs]

    Socket descriptors map to handles of smoltcp's socket set.  smoltcp is a
    library: its sockets and their operations are the class [Smoltcp], what its
    documentation promises of them the class [SmoltcpOk].  The interface's [poll]
    lets packets in: an operation that polls takes what the poll did as an input.

    The functions are written as their critical sections, the parts that run
    under one lock, so that the sections of different threads can interleave. *)

From S2P Require Import Prelude.

(** ** smoltcp *)

Inductive State :=
| Closed | Listen | SynSent | SynReceived | Established | FinWait1 | FinWait2 | CloseWait | Closing | LastAck | TimeWait.

#[export] Instance State_eq_dec : EqDecision State.
Proof. solve_decision. Defined.

(** [Ipv4Address] is its four octets. *)
Definition Ipv4Address : Type := list Z.
Definition UNSPECIFIED : Ipv4Address := [0; 0; 0; 0].
Record IpEndpoint := mkEndpoint { ep_addr : Ipv4Address; ep_port : Z }.
Record IpListenEndpoint := mkListen { le_addr : option Ipv4Address; le_port : Z }.

Inductive SendError := Unaddressable | BufferFull.

Class Smoltcp := {
  tcp : Type;
  udp : Type;
  tcp_new : Z -> Z -> tcp;
  tcp_state : tcp -> State;
  tcp_listen : IpListenEndpoint -> tcp -> bool * tcp;
  tcp_connect : IpEndpoint -> Z -> tcp -> bool * tcp;
  tcp_can_send : tcp -> bool;
  tcp_can_recv : tcp -> bool;
  tcp_is_active : tcp -> bool;
  tcp_is_listening : tcp -> bool;
  tcp_send_slice : bytes -> tcp -> option Z * tcp;
  tcp_recv_slice : Z -> tcp -> option bytes * tcp;
  tcp_remote_endpoint : tcp -> option IpEndpoint;
  tcp_close : tcp -> tcp;
  udp_new : udp;
  udp_bind : IpListenEndpoint -> udp -> bool * udp;
  udp_can_send : udp -> bool;
  udp_can_recv : udp -> bool;
  udp_send_slice : bytes -> IpEndpoint -> udp -> option SendError * udp;
  udp_recv : udp -> option (bytes * IpEndpoint) * udp;
  udp_close : udp -> udp;
  (** the handle [SocketSet::add] picks, from the handles in use *)
  set_add : list nat -> nat
}.

(** A member of the socket set; [get_mut] of a handle that is not in the set, or
    that holds another kind of socket, panics. *)
Inductive sock `{Smoltcp} := Tcp (t : tcp) | Udp (u : udp) | Dhcp.
Abbreviation SocketSet := (gmap nat sock).

Section socket.
Context `{Smoltcp}.

Definition get_tcp (s : SocketSet) (h : nat) : outcome tcp :=
  match s !! h with Some (Tcp t) => Ret t | _ => Panic end.
Definition get_udp (s : SocketSet) (h : nat) : outcome udp :=
  match s !! h with Some (Udp u) => Ret u | _ => Panic end.
Definition put_tcp (s : SocketSet) (h : nat) (t : tcp) : SocketSet := <[h := Tcp t]> s.
Definition put_udp (s : SocketSet) (h : nat) (u : udp) : SocketSet := <[h := Udp u]> s.
Definition set_insert (s : SocketSet) (x : sock) : nat * SocketSet :=
  let h := set_add ((map_to_list s).*1) in (h, <[h := x]> s).
Definition set_remove (s : SocketSet) (h : nat) : outcome SocketSet :=
  match s !! h with Some _ => Ret (delete h s) | None => Panic end.

(** ** The socket table *)

Definition SOCK_FD_BASE : Z := 500.
Definition LISTENER_POOL_SIZE : nat := 64.
Definition LISTENER_BUF_SIZE : Z := 2048.
Definition LISTENER_TX_BUF_SIZE : Z := 32768.

Inductive SockType := TcpStream | TcpListener | UdpDgram.

#[export] Instance SockType_eq_dec : EqDecision SockType.
Proof. solve_decision. Defined.

Record Socket := mkSocket {
  fd : Z;
  sock_type : SockType;
  handle : nat;
  nonblock : bool;
  backlog : list nat;
  local_port : Z;
  local_addr : Ipv4Address;
  connecting : bool;
  udp_peer : option IpEndpoint
}.

Definition set_type (s : Socket) (v : SockType) : Socket :=
  mkSocket (fd s) v (handle s) (nonblock s) (backlog s) (local_port s) (local_addr s) (connecting s) (udp_peer s).
Definition set_handle (s : Socket) (v : nat) : Socket :=
  mkSocket (fd s) (sock_type s) v (nonblock s) (backlog s) (local_port s) (local_addr s) (connecting s) (udp_peer s).
Definition set_nb (s : Socket) (v : bool) : Socket :=
  mkSocket (fd s) (sock_type s) (handle s) v (backlog s) (local_port s) (local_addr s) (connecting s) (udp_peer s).
Definition set_backlog (s : Socket) (v : list nat) : Socket :=
  mkSocket (fd s) (sock_type s) (handle s) (nonblock s) v (local_port s) (local_addr s) (connecting s) (udp_peer s).
Definition set_port (s : Socket) (v : Z) : Socket :=
  mkSocket (fd s) (sock_type s) (handle s) (nonblock s) (backlog s) v (local_addr s) (connecting s) (udp_peer s).
Definition set_addr (s : Socket) (v : Ipv4Address) : Socket :=
  mkSocket (fd s) (sock_type s) (handle s) (nonblock s) (backlog s) (local_port s) v (connecting s) (udp_peer s).
Definition set_connecting (s : Socket) (v : bool) : Socket :=
  mkSocket (fd s) (sock_type s) (handle s) (nonblock s) (backlog s) (local_port s) (local_addr s) v (udp_peer s).
Definition set_peer (s : Socket) (v : option IpEndpoint) : Socket :=
  mkSocket (fd s) (sock_type s) (handle s) (nonblock s) (backlog s) (local_port s) (local_addr s) (connecting s) v.

(** [NET] is [NET_STATE]: [None] until the network is initialised, else the
    socket set and whether a DHCP client is in it. *)
Record state := mkState {
  SOCKETS : list Socket;
  NEXT_SOCK_FD : Z;
  RECYCLED_FDS : list Z;
  CLOSING_HANDLES : list nat;
  NEXT_EPHEMERAL : Z;
  NET : option (SocketSet * option nat);
  DNS_SERVERS : list Ipv4Address
}.

Definition boot_state : state := mkState [] SOCK_FD_BASE [] [] 49152 None [].

Definition with_sockets (st : state) (l : list Socket) : state :=
  mkState l (NEXT_SOCK_FD st) (RECYCLED_FDS st) (CLOSING_HANDLES st) (NEXT_EPHEMERAL st) (NET st) (DNS_SERVERS st).
Definition with_next_fd (st : state) (v : Z) : state :=
  mkState (SOCKETS st) v (RECYCLED_FDS st) (CLOSING_HANDLES st) (NEXT_EPHEMERAL st) (NET st) (DNS_SERVERS st).
Definition with_recycled (st : state) (v : list Z) : state :=
  mkState (SOCKETS st) (NEXT_SOCK_FD st) v (CLOSING_HANDLES st) (NEXT_EPHEMERAL st) (NET st) (DNS_SERVERS st).
Definition with_closing (st : state) (v : list nat) : state :=
  mkState (SOCKETS st) (NEXT_SOCK_FD st) (RECYCLED_FDS st) v (NEXT_EPHEMERAL st) (NET st) (DNS_SERVERS st).
Definition with_ephemeral (st : state) (v : Z) : state :=
  mkState (SOCKETS st) (NEXT_SOCK_FD st) (RECYCLED_FDS st) (CLOSING_HANDLES st) v (NET st) (DNS_SERVERS st).
Definition with_set (st : state) (s : SocketSet) : state :=
  mkState (SOCKETS st) (NEXT_SOCK_FD st) (RECYCLED_FDS st) (CLOSING_HANDLES st) (NEXT_EPHEMERAL st)
    (match NET st with Some (_, d) => Some (s, d) | None => None end) (DNS_SERVERS st).
Definition with_dns (st : state) (v : list Ipv4Address) : state :=
  mkState (SOCKETS st) (NEXT_SOCK_FD st) (RECYCLED_FDS st) (CLOSING_HANDLES st) (NEXT_EPHEMERAL st) (NET st) v.

Definition is_initialized (st : state) : bool := match NET st with Some _ => true | None => false end.

(** [with_net]: the socket set; without a network it panics. *)
Definition net_set (st : state) : outcome SocketSet :=
  match NET st with Some (s, _) => Ret s | None => Panic end.

(** The two ways the network comes up. *)
Definition init_with_transport (st : state) : state :=
  mkState (SOCKETS st) (NEXT_SOCK_FD st) (RECYCLED_FDS st) (CLOSING_HANDLES st) (NEXT_EPHEMERAL st)
    (Some (∅, None)) (DNS_SERVERS st ++ [[10; 0; 2; 3]]).
Definition init_with_ena (lease : option (list Ipv4Address)) (st : state) : state :=
  let '(h, s) := set_insert ∅ Dhcp in
  mkState (SOCKETS st) (NEXT_SOCK_FD st) (RECYCLED_FDS st) (CLOSING_HANDLES st) (NEXT_EPHEMERAL st)
    (Some (s, Some h)) (match lease with Some l => l | None => DNS_SERVERS st end).

(** [alloc_ephemeral_port]. *)
Definition alloc_ephemeral_port (st : state) : Z * state :=
  let p := NEXT_EPHEMERAL st in
  let st := with_ephemeral st (i32 (p + 1)) in
  let port := 49152 + (i32 (p - 49152)) mod (65535 - 49152 + 1) in
  let st := if 65535 <=? port then with_ephemeral st 49152 else st in
  (u16 port, st).

Definition fd_is (n : Z) (s : Socket) : bool := fd s =? n.
Definition is_socket_fd (st : state) (n : Z) : bool := existsb (fd_is n) (SOCKETS st).

(** The socket of a descriptor, with its place in the table. *)
Definition find_socket (st : state) (n : Z) : option (nat * Socket) :=
  match position (fd_is n) (SOCKETS st) with
  | Some i => match SOCKETS st !! i with Some s => Some (i, s) | None => None end
  | None => None
  end.
Definition put_socket (st : state) (i : nat) (s : Socket) : state := with_sockets st (<[i := s]> (SOCKETS st)).

Definition set_nonblock (st : state) (n : Z) (nb : bool) : state :=
  match find_socket st n with Some (i, s) => put_socket st i (set_nb s nb) | None => st end.

(** [alloc_fd]: the freelist is a stack. *)
Definition alloc_fd (st : state) : Z * state :=
  match rev (RECYCLED_FDS st) with
  | n :: l => (n, with_recycled st (rev l))
  | [] => (NEXT_SOCK_FD st, with_next_fd st (i32 (NEXT_SOCK_FD st + 1)))
  end.

Definition install_fresh_listener (s : SocketSet) (e : IpListenEndpoint) : nat * SocketSet :=
  let '(h, s) := set_insert s (Tcp (tcp_new LISTENER_BUF_SIZE LISTENER_TX_BUF_SIZE)) in
  (h, match s !! h with Some (Tcp t) => put_tcp s h (tcp_listen e t).2 | _ => s end).

Definition listen_endpoint (a : Ipv4Address) (p : Z) : IpListenEndpoint :=
  if decide (a = UNSPECIFIED) then mkListen None p else mkListen (Some a) p.

(** ** Polling the network *)

(** What a poll did: every socket may have moved, and the DHCP client may have a
    new lease. *)
Record poll_input := mkPoll {
  on_tcp : nat -> tcp -> tcp;
  on_udp : nat -> udp -> udp;
  on_dhcp : option (list Ipv4Address)
}.

Definition moved (pi : poll_input) (h : nat) (x : sock) : sock :=
  match x with Tcp t => Tcp (on_tcp pi h t) | Udp u => Udp (on_udp pi h u) | Dhcp => Dhcp end.

Definition finished (s : State) : bool := bool_decide (s = Closed) || bool_decide (s = TimeWait).

(** The [while] loop of [gc_closed_handles] from [i]; [n] bounds its iterations. *)
Fixpoint gc_loop (n : nat) (i : nat) (closing : list nat) (s : SocketSet) : outcome (list nat * SocketSet) :=
  match n with
  | O => Ret (closing, s)
  | S n' =>
      match closing !! i with
      | None => Ret (closing, s)
      | Some h =>
          do! t <- get_tcp s h;
          if finished (tcp_state t) then
            do! s <- set_remove s h;
            gc_loop n' i (swap_remove closing i) s
          else gc_loop n' (S i) closing s
      end
  end.

Definition gc_closed_handles (st : state) : outcome state :=
  match NET st with
  | None => Ret st
  | Some (s, _) =>
      do! (closing, s) <- gc_loop (length (CLOSING_HANDLES st)) 0 (CLOSING_HANDLES st) s;
      Ret (with_set (with_closing st closing) s)
  end.

(** [net::poll]. *)
Definition poll (pi : poll_input) (st : state) : outcome state :=
  match NET st with
  | None => Ret st
  | Some (s, dhcp) =>
      let st := with_set st (map_imap (fun h x => Some (moved pi h x)) s) in
      let st := match dhcp, on_dhcp pi with Some _, Some l => with_dns st l | _, _ => st end in
      gc_closed_handles st
  end.

(** ** socket, bind, listen, connect *)

(** [socket]: the domain and the type are checked, a smoltcp socket is added to
    the set (one critical section), then it gets a descriptor and its entry. *)
Definition socket_check (st : state) (domain ty : Z) : Z + (SockType * bool) :=
  if negb (domain =? 2) && negb (domain =? 10) then inl (-97)
  else
    let raw_type := Z.land ty 15 in
    let nb := negb (Z.land ty 2048 =? 0) in
    if negb (raw_type =? 1) && negb (raw_type =? 2) then inl (-93)
    else if negb (is_initialized st) then inl (-97)
    else inr (if raw_type =? 1 then TcpStream else UdpDgram, nb).

Definition socket_add (ty : SockType) (st : state) : outcome (nat * state) :=
  do! s <- net_set st;
  let '(h, s) := set_insert s (match ty with UdpDgram => Udp udp_new | _ => Tcp (tcp_new 8192 8192) end) in
  Ret (h, with_set st s).

Definition push_socket (st : state) (x : Socket) : state := with_sockets st (SOCKETS st ++ [x]).

Definition sys_socket (domain ty : Z) (st : state) : outcome (Z * state) :=
  match socket_check st domain ty with
  | inl e => Ret (e, st)
  | inr (ty, nb) =>
      do! (h, st) <- socket_add ty st;
      let '(n, st) := alloc_fd st in
      Ret (n, push_socket st (mkSocket n ty h nb [] 0 UNSPECIFIED false None))
  end.

(** [struct sockaddr_in]: the family, the port in network order, the address. *)
Definition sockaddr (m : mem) (p : Z) : option IpEndpoint :=
  if load16 m p =? 2 then Some (mkEndpoint (mem_read m (p + 4) 4) (256 * m (p + 2) + m (p + 3))) else None.

(** A UDP socket without a port is bound to an ephemeral one; the result of the
    bind is ignored. *)
Definition udp_autobind (st : state) (x : Socket) : outcome (Socket * state) :=
  if local_port x =? 0 then
    let '(p, st) := alloc_ephemeral_port st in
    do! s <- net_set st;
    do! u <- get_udp s (handle x);
    Ret (set_port x p, with_set st (put_udp s (handle x) (udp_bind (mkListen None p) u).2))
  else Ret (x, st).

(** A port of zero asks for an ephemeral one. *)
Definition choose_port (p : Z) (st : state) : Z * state := if p =? 0 then alloc_ephemeral_port st else (p, st).

(** The TCP arm of [connect]. *)
Definition connect_tcp (i : nat) (x : Socket) (remote : IpEndpoint) (st : state) : outcome (Z * state) :=
  let '(p, st) := choose_port (local_port x) st in
  let x := set_connecting (set_type (set_port x p) TcpStream) true in
  do! s <- net_set st;
  do! t <- get_tcp s (handle x);
  let '(ok, t) := tcp_connect remote p t in
  let st := with_set st (put_tcp s (handle x) t) in
  if ok : bool then Ret (-115, put_socket st i x) else Ret (-111, put_socket st i (set_connecting x false)).

Definition sys_connect (n addr : Z) (m : mem) (st : state) : outcome (Z * state) :=
  match sockaddr m addr with
  | None => Ret (-97, st)
  | Some remote =>
      match find_socket st n with
      | None => Ret (-9, st)
      | Some (i, x) =>
          match sock_type x with
          | UdpDgram =>
              do! (x, st) <- udp_autobind st (set_peer x (Some remote));
              Ret (0, put_socket st i x)
          | _ => connect_tcp i x remote st
          end
      end
  end.

Definition sys_bind (n addr : Z) (m : mem) (st : state) : outcome (Z * state) :=
  match sockaddr m addr with
  | None => Ret (-97, st)
  | Some e =>
      match find_socket st n with
      | None => Ret (-9, st)
      | Some (i, x) =>
          let '(p, st) := choose_port (ep_port e) st in
          let x := set_addr (set_port x p) (ep_addr e) in
          match sock_type x with
          | UdpDgram =>
              do! s <- net_set st;
              do! u <- get_udp s (handle x);
              let '(ok, u) := udp_bind (listen_endpoint (ep_addr e) p) u in
              let st := with_set st (put_udp s (handle x) u) in
              Ret (if ok : bool then 0 else -98, put_socket st i x)
          | _ => Ret (0, put_socket st i x)
          end
      end
  end.

(** The spare listeners of [listen]. *)
Fixpoint install_spares (n : nat) (e : IpListenEndpoint) (s : SocketSet) (l : list nat) : list nat * SocketSet :=
  match n with
  | O => (l, s)
  | S n' => let '(h, s) := install_fresh_listener s e in install_spares n' e s (l ++ [h])
  end.

Definition sys_listen (n : Z) (st : state) : outcome (Z * state) :=
  match find_socket st n with
  | None => Ret (-9, st)
  | Some (i, x) =>
      let x := set_type x TcpListener in
      do! s <- net_set st;
      let e := listen_endpoint (local_addr x) (local_port x) in
      do! t <- get_tcp s (handle x);
      let '(ok, t) := tcp_listen e t in
      let s := put_tcp s (handle x) t in
      if negb ok then Ret (-98, put_socket (with_set st s) i x)
      else
        let '(spares, s) := install_spares (LISTENER_POOL_SIZE - 1) e s [] in
        Ret (0, put_socket (with_set st s) i (set_backlog x spares))
  end.

(** ** accept *)

Definition ready (s : State) : bool := bool_decide (s = Established) || bool_decide (s = CloseWait).

(** The first section: what kind of call this is, and the endpoint. *)
Definition accept_snapshot (n flags : Z) (st : state) : Z + (bool * Z * Ipv4Address) :=
  match find_socket st n with
  | None => inl (-9)
  | Some (_, x) =>
      match sock_type x with
      | TcpListener => inr (nonblock x || negb (Z.land flags 2048 =? 0), local_port x, local_addr x)
      | _ => inl (-95)
      end
  end.

(** The scan of the spares. *)
Fixpoint scan_spares (e : IpListenEndpoint) (l : list nat) (s : SocketSet) :
    outcome (option (nat * option IpEndpoint) * list nat * SocketSet) :=
  match l with
  | [] => Ret (None, [], s)
  | h :: l' =>
      do! t <- get_tcp s h;
      if ready (tcp_state t) then
        let '(h', s) := install_fresh_listener s e in
        Ret (Some (h, tcp_remote_endpoint t), h' :: l', s)
      else
        do! (r, l', s) <- scan_spares e l' s;
        Ret (r, h :: l', s)
  end.

(** One attempt under the locks: a socket of the pool that has a connection is
    taken out, and a fresh listener takes its place. *)
Definition accept_attempt (n : Z) (port : Z) (addr : Ipv4Address) (st : state) :
    outcome (option (nat * option IpEndpoint) * state) :=
  match find_socket st n with
  | None => Ret (None, st)
  | Some (i, x) =>
      do! s <- net_set st;
      let e := listen_endpoint addr port in
      do! t <- get_tcp s (handle x);
      if ready (tcp_state t) then
        let '(h, s) := install_fresh_listener s e in
        Ret (Some (handle x, tcp_remote_endpoint t), put_socket (with_set st s) i (set_handle x h))
      else
        do! (r, l, s) <- scan_spares e (backlog x) s;
        Ret (r, put_socket (with_set st s) i (set_backlog x l))
  end.

(** The entry of an accepted connection. *)
Definition accepted (n : Z) (h : nat) (flags port : Z) (addr : Ipv4Address) : Socket :=
  mkSocket n TcpStream h (negb (Z.land flags 2048 =? 0)) [] port addr false None.

(** Port and address in a [sockaddr_in]. *)
Definition put_peer (m : mem) (p : Z) (e : IpEndpoint) : mem :=
  mem_write (mem_write (store16 m p 2) (p + 2) [ep_port e / 256; ep_port e mod 256]) (p + 4) (ep_addr e).

(** ** Names and options *)

Definition sys_getsockname (n addr_ptr addrlen_ptr : Z) (m : mem) (st : state) : Z * mem :=
  match find_socket st n with
  | None => (-9, m)
  | Some (_, x) =>
      if addr_ptr =? 0 then (0, m)
      else
        let m := put_peer (mem_zero m addr_ptr 16) addr_ptr (mkEndpoint (local_addr x) (local_port x)) in
        (0, if addrlen_ptr =? 0 then m else store32 m addrlen_ptr 16)
  end.

Definition sys_getpeername (n addr_ptr addrlen_ptr : Z) (m : mem) (st : state) : outcome (Z * mem) :=
  match find_socket st n with
  | None => Ret (-9, m)
  | Some (_, x) =>
      do! s <- net_set st;
      do! t <- get_tcp s (handle x);
      match tcp_remote_endpoint t with
      | None => Ret (-107, m)
      | Some e =>
          if addr_ptr =? 0 then Ret (0, m)
          else
            let m := put_peer (mem_zero m addr_ptr 16) addr_ptr e in
            Ret (0, if addrlen_ptr =? 0 then m else store32 m addrlen_ptr 16)
      end
  end.

Definition sys_setsockopt (n : Z) (st : state) : Z := if is_socket_fd st n then 0 else -9.

(** [SO_ERROR]: the outcome of a connect in progress. *)
Definition so_error (st : state) (n : Z) : outcome (Z * state) :=
  match find_socket st n with
  | None => Ret (0, st)
  | Some (i, x) =>
      match sock_type x with
      | TcpStream =>
          if connecting x then
            do! s <- net_set st;
            do! t <- get_tcp s (handle x);
            match tcp_state t with
            | Established => Ret (0, put_socket st i (set_connecting x false))
            | Closed | TimeWait | CloseWait => Ret (111, put_socket st i (set_connecting x false))
            | _ => Ret (0, st)
            end
          else Ret (0, st)
      | _ => Ret (0, st)
      end
  end.

Definition sys_getsockopt (n level optname optval optlen : Z) (m : mem) (st : state) : outcome (Z * mem * state) :=
  if negb (is_socket_fd st n) then Ret (-9, m, st)
  else if (optval =? 0) || (optlen =? 0) then Ret (-14, m, st)
  else
    do! (err, st) <- so_error st n;
    let len := load32 m optlen in
    let m := if (level =? 1) && (optname =? 13) then
               if 8 <=? len then store32 (store32 (store32 m optval 0) (optval + 4) 0) optlen 8 else m
             else if 4 <=? len then
               store32 (store32 m optval (if (level =? 1) && (optname =? 4) then err else 0)) optlen 4
             else m in
    Ret (0, m, st).

(** ** Data *)

Definition sys_sendto (n buf len dest_addr : Z) (pi : poll_input) (m : mem) (st : state) : outcome (Z * state) :=
  let data := mem_read m buf (Z.to_nat len) in
  let dest := if dest_addr =? 0 then None else sockaddr m dest_addr in
  match find_socket st n with
  | None => Ret (-9, st)
  | Some (i, x) =>
      match sock_type x with
      | UdpDgram =>
          match (match dest with Some e => Some e | None => udp_peer x end) with
          | None => Ret (-89, st)
          | Some e =>
              do! (x, st) <- udp_autobind st x;
              let st := put_socket st i x in
              do! s <- net_set st;
              do! u <- get_udp s (handle x);
              let '(r, u) := udp_send_slice data e u in
              let st := with_set st (put_udp s (handle x) u) in
              do! st <- poll pi st;
              Ret (match r with None => len | Some BufferFull => -11 | Some _ => -22 end, st)
          end
      | TcpStream =>
          do! s <- net_set st;
          do! t <- get_tcp s (handle x);
          if negb (tcp_can_send t) then Ret (-11, st)
          else
            let '(r, t) := tcp_send_slice data t in
            Ret (match r with Some sent => sent | None => -104 end, with_set st (put_tcp s (handle x) t))
      | TcpListener => Ret (-95, st)
      end
  end.

Definition sys_recvfrom (n buf len src_addr addrlen : Z) (pi : poll_input) (m : mem) (st : state) :
    outcome (Z * mem * state) :=
  do! st <- poll pi st;
  match find_socket st n with
  | None => Ret (-9, m, st)
  | Some (i, x) =>
      match sock_type x with
      | TcpStream =>
          do! s <- net_set st;
          do! t <- get_tcp s (handle x);
          if negb (tcp_can_recv t) then
            Ret (if negb (tcp_is_active t) then 0 else -11, m, st)
          else
            let '(r, t) := tcp_recv_slice len t in
            let st := with_set st (put_tcp s (handle x) t) in
            match r with
            | Some data => Ret (zlen data, mem_write m buf data, st)
            | None => Ret (-104, m, st)
            end
      | UdpDgram =>
          do! s <- net_set st;
          do! u <- get_udp s (handle x);
          if negb (udp_can_recv u) then Ret (-11, m, st)
          else
            let '(r, u) := udp_recv u in
            let st := with_set st (put_udp s (handle x) u) in
            match r with
            | Some (data, e) =>
                let k := Z.min (zlen data) len in
                let m := mem_write m buf (take (Z.to_nat k) data) in
                let m := if src_addr =? 0 then m
                         else let m := put_peer m src_addr e in
                              if addrlen =? 0 then m else store32 m addrlen 16 in
                Ret (k, m, st)
            | None => Ret (-11, m, st)
            end
      | TcpListener => Ret (-9, m, st)
      end
  end.

(** ** Readiness *)

Definition POLLIN : Z := 1.
Definition POLLOUT : Z := 4.
Definition POLLERR : Z := 8.
Definition POLLHUP : Z := 16.

(** The walk over the spares stops at the first active one. *)
Fixpoint any_active (l : list nat) (s : SocketSet) : outcome bool :=
  match l with
  | [] => Ret false
  | h :: l' =>
      do! t <- get_tcp s h;
      if tcp_is_active t then Ret true else any_active l' s
  end.

Definition poll_socket (n : Z) (st : state) : outcome (Z * state) :=
  match find_socket st n with
  | None => Ret (0, st)
  | Some (i, x) =>
      do! s <- net_set st;
      match sock_type x with
      | TcpStream =>
          do! t <- get_tcp s (handle x);
          if connecting x then
            match tcp_state t with
            | Established => Ret (POLLOUT, put_socket st i (set_connecting x false))
            | Closed | TimeWait | CloseWait => Ret (Z.lor POLLOUT POLLERR, st)
            | _ => Ret (0, st)
            end
          else
            Ret (Z.lor (if tcp_can_recv t then POLLIN else 0)
                   (Z.lor (if tcp_can_send t then POLLOUT else 0)
                      (if negb (tcp_is_active t) && negb (tcp_is_listening t) then POLLHUP else 0)), st)
      | TcpListener =>
          do! r <- any_active (handle x :: backlog x) s;
          Ret (if r then POLLIN else 0, st)
      | UdpDgram =>
          do! u <- get_udp s (handle x);
          Ret (Z.lor (if udp_can_recv u then POLLIN else 0) (if udp_can_send u then POLLOUT else 0), st)
      end
  end.

(** ** close *)

(** The first section takes the socket out of the table. *)
Definition close_take (n : Z) (st : state) : option (Socket * state) :=
  match find_socket st n with
  | Some (i, x) => Some (x, with_sockets st (delete i (SOCKETS st)))
  | None => None
  end.

(** The second returns the number. *)
Definition close_recycle (n : Z) (st : state) : state := with_recycled st (RECYCLED_FDS st ++ [n]).

Fixpoint remove_listeners (l : list nat) (s : SocketSet) : outcome SocketSet :=
  match l with
  | [] => Ret s
  | h :: l' =>
      do! t <- get_tcp s h;
      do! s <- set_remove (put_tcp s h (tcp_close t)) h;
      remove_listeners l' s
  end.

(** The third disposes of the handles. *)
Definition close_net (x : Socket) (st : state) : outcome state :=
  do! s <- net_set st;
  match sock_type x with
  | TcpStream =>
      do! t <- get_tcp s (handle x);
      Ret (with_closing (with_set st (put_tcp s (handle x) (tcp_close t))) (CLOSING_HANDLES st ++ [handle x]))
  | TcpListener =>
      do! s <- remove_listeners (handle x :: backlog x) s;
      Ret (with_set st s)
  | UdpDgram =>
      do! u <- get_udp s (handle x);
      do! s <- set_remove (put_udp s (handle x) (udp_close u)) (handle x);
      Ret (with_set st s)
  end.

Definition close (n : Z) (st : state) : outcome state :=
  match close_take n st with
  | None => Ret st
  | Some (x, st) => close_net x (close_recycle n st)
  end.

(** ** resolv.conf *)

(** Decimal notation of an octet. *)
Definition dec_octet (z : Z) : bytes :=
  if z <? 10 then [48 + z]
  else if z <? 100 then [48 + z / 10; 48 + z mod 10]
  else [48 + z / 100; 48 + z / 10 mod 10; 48 + z mod 10].

Definition show_addr (a : Ipv4Address) : bytes :=
  match dec_octet <$> a with
  | [] => []
  | x :: l => x ++ concat ((fun y => b "." ++ y) <$> l)
  end.

Definition resolv_conf (st : state) : bytes :=
  concat ((fun ns => b "nameserver " ++ show_addr ns ++ [10]) <$> DNS_SERVERS st).
End socket.
