(* ===== verification/SocketProofs.v ===== *)
(** * Sockets: theorems

    Threads run the socket calls concurrently; their critical sections interleave
    in any order.  No handle of smoltcp's set is used after its removal or by two
    owners, and no descriptor names two sockets. *)

From S2P Require Import Prelude.
From S2P Require Import Socket.

(** ** Critical sections of several threads *)

(** What a thread holds between two sections: a socket that has no number yet,
    one that is not in the table yet, one whose number is not recycled yet, one
    whose handles are not disposed of yet. *)
Inductive task := TNew (x : Socket) | TPush (x : Socket) | TRecycle (x : Socket) | TDispose (x : Socket).

Definition task_socket (t : task) : Socket := match t with TNew x | TPush x | TRecycle x | TDispose x => x end.
Definition task_fd (t : task) : list Z := match t with TPush x | TRecycle x => [fd x] | _ => [] end.

Definition renumber (x : Socket) (n : Z) : Socket :=
  mkSocket n (sock_type x) (handle x) (nonblock x) (backlog x) (local_port x) (local_addr x) (connecting x) (udp_peer x).

Inductive sop `{Smoltcp} :=
| SVirtio
| SEna (lease : option (list Ipv4Address))
| SPoll (pi : poll_input)
| SSocket (domain ty : Z)
| SAccept (n flags port : Z) (addr : Ipv4Address)
| SNumber (i : nat)
| SPush (i : nat)
| SClose (n : Z)
| SRecycle (i : nat)
| SDispose (i : nat)
| SConnect (n addr : Z) (m : mem)
| SBind (n addr : Z) (m : mem)
| SListen (n : Z)
| SSend (n buf len dest : Z) (pi : poll_input) (m : mem)
| SRecv (n buf len src addrlen : Z) (pi : poll_input) (m : mem)
| SPeer (n addr addrlen : Z) (m : mem)
| SSockopt (n level opt optval optlen : Z) (m : mem)
| SReady (n : Z)
| SNonblock (n : Z) (nb : bool).

Section machine.
Context `{Smoltcp}.

(** The sections of a thread that holds nothing it needs do not run. *)
Definition sexec (o : sop) (c : state * list task) : outcome (state * list task) :=
  let '(st, ts) := c in
  match o with
  | SVirtio => Ret (if is_initialized st then st else init_with_transport st, ts)
  | SEna lease => Ret (if is_initialized st then st else init_with_ena lease st, ts)
  | SPoll pi => do! st <- poll pi st; Ret (st, ts)
  | SSocket domain ty =>
      match socket_check st domain ty with
      | inl _ => Ret (st, ts)
      | inr (ty, nb) =>
          do! (h, st) <- socket_add ty st;
          Ret (st, TNew (mkSocket 0 ty h nb [] 0 UNSPECIFIED false None) :: ts)
      end
  | SAccept n flags port addr =>
      do! (r, st) <- accept_attempt n port addr st;
      Ret (st, match r with Some (h, _) => TNew (accepted 0 h flags port addr) :: ts | None => ts end)
  | SNumber i =>
      match ts !! i with
      | Some (TNew x) => let '(n, st) := alloc_fd st in Ret (st, <[i := TPush (renumber x n)]> ts)
      | _ => Ret (st, ts)
      end
  | SPush i =>
      match ts !! i with Some (TPush x) => Ret (push_socket st x, delete i ts) | _ => Ret (st, ts) end
  | SClose n =>
      match close_take n st with Some (x, st) => Ret (st, TRecycle x :: ts) | None => Ret (st, ts) end
  | SRecycle i =>
      match ts !! i with
      | Some (TRecycle x) => Ret (close_recycle (fd x) st, <[i := TDispose x]> ts)
      | _ => Ret (st, ts)
      end
  | SDispose i =>
      match ts !! i with
      | Some (TDispose x) => do! st <- close_net x st; Ret (st, delete i ts)
      | _ => Ret (st, ts)
      end
  | SConnect n addr m => do! (_, st) <- sys_connect n addr m st; Ret (st, ts)
  | SBind n addr m => do! (_, st) <- sys_bind n addr m st; Ret (st, ts)
  | SListen n => do! (_, st) <- sys_listen n st; Ret (st, ts)
  | SSend n buf len dest pi m => do! (_, st) <- sys_sendto n buf len dest pi m st; Ret (st, ts)
  | SRecv n buf len src addrlen pi m => do! (_, _, st) <- sys_recvfrom n buf len src addrlen pi m st; Ret (st, ts)
  | SPeer n addr addrlen m => do! _ <- sys_getpeername n addr addrlen m st; Ret (st, ts)
  | SSockopt n level opt optval optlen m =>
      do! (_, _, st) <- sys_getsockopt n level opt optval optlen m st; Ret (st, ts)
  | SReady n => do! (_, st) <- poll_socket n st; Ret (st, ts)
  | SNonblock n nb => Ret (set_nonblock st n nb, ts)
  end.

Fixpoint srun (os : list sop) (c : state * list task) : outcome (state * list task) :=
  match os with [] => Ret c | o :: os' => do! c <- sexec o c; srun os' c end.

(** The sections that take their socket for a TCP one. *)
Definition tcp_only (o : sop) : option Z := match o with SListen n | SPeer n _ _ _ | SAccept n _ _ _ => Some n | _ => None end.

(** Such a section is run on a UDP socket: by a call on the wrong kind of socket, or
    by a thread in [accept] whose listener was closed and its number used again. *)
Definition misuse (o : sop) (c : state * list task) : Prop :=
  exists n i x, tcp_only o = Some n /\ find_socket c.1 n = Some (i, x) /\ sock_type x = UdpDgram.

Definition not_udp (st : state) (n : Z) : Prop :=
  match find_socket st n with Some (_, x) => sock_type x <> UdpDgram | None => True end.

(** The counter of descriptors, an [i32], has numbers left. *)
Definition numbered (o : sop) (c : state * list task) : Prop :=
  match o with SNumber _ => NEXT_SOCK_FD c.1 < 2 ^ 31 - 1 | _ => True end.
Fixpoint all_numbered (os : list sop) (c : state * list task) : Prop :=
  match os with
  | [] => True
  | o :: os' => numbered o c /\ match sexec o c with Ret c' => all_numbered os' c' | _ => True end
  end.

Lemma misuse_or o c : misuse o c \/ (forall n, tcp_only o = Some n -> not_udp c.1 n).
Proof.
  destruct (tcp_only o) as [n|] eqn:Eo; [|by right]. destruct (find_socket c.1 n) as [[i x]|] eqn:Ef.
  - destruct (decide (sock_type x = UdpDgram)) as [Eu|Eu]; [left; by exists n, i, x|right]. intros n' [= <-]. unfold not_udp. by rewrite Ef.
  - right. intros n' [= <-]. unfold not_udp. by rewrite Ef.
Qed.

(** ** The invariant *)

Definition owns (x : Socket) : list nat := handle x :: backlog x.
Definition is_tcp (s : SocketSet) (h : nat) : Prop := exists t, s !! h = Some (Tcp t).
Definition is_udp (s : SocketSet) (h : nat) : Prop := exists u, s !! h = Some (Udp u).

(** The handles of a socket are in the set, of the kind its type needs. *)
Definition live (s : SocketSet) (x : Socket) : Prop :=
  match sock_type x with
  | UdpDgram => is_udp s (handle x) /\ backlog x = []
  | _ => Forall (is_tcp s) (owns x)
  end.

Definition hinv (s : SocketSet) (xs : list Socket) (closing : list nat) : Prop :=
  NoDup (concat (owns <$> xs) ++ closing) /\ Forall (live s) xs /\ Forall (is_tcp s) closing.

Definition sockets_of (c : state * list task) : list Socket := SOCKETS c.1 ++ (task_socket <$> c.2).
Definition fds_of (c : state * list task) : list Z := (fd <$> SOCKETS c.1) ++ concat (task_fd <$> c.2) ++ RECYCLED_FDS c.1.

Definition sinv (c : state * list task) : Prop :=
  match NET c.1 with
  | Some (s, _) => hinv s (sockets_of c) (CLOSING_HANDLES c.1)
  | None => sockets_of c = [] /\ CLOSING_HANDLES c.1 = []
  end /\
  fds_of c ≡ₚ seqZ SOCK_FD_BASE (NEXT_SOCK_FD c.1 - SOCK_FD_BASE) /\ SOCK_FD_BASE <= NEXT_SOCK_FD c.1 < 2 ^ 31.

(** ** The set *)

Definition same_kinds (s s' : SocketSet) : Prop :=
  forall h, (is_tcp s h -> is_tcp s' h) /\ (is_udp s h -> is_udp s' h).

Lemma same_kinds_refl s : same_kinds s s.
Proof. done. Qed.
Lemma same_kinds_trans s1 s2 s3 : same_kinds s1 s2 -> same_kinds s2 s3 -> same_kinds s1 s3.
Proof. intros H1 H2 h. destruct (H1 h), (H2 h). tauto. Qed.

Lemma put_tcp_kinds s h t : is_tcp s h -> same_kinds s (put_tcp s h t).
Proof.
  intros [t' Ht] h'. unfold is_tcp, is_udp, put_tcp. destruct (decide (h = h')) as [->|Hne].
  - rewrite lookup_insert_eq, Ht. naive_solver.
  - by rewrite lookup_insert_ne.
Qed.

Lemma put_udp_kinds s h u : is_udp s h -> same_kinds s (put_udp s h u).
Proof.
  intros [t' Ht] h'. unfold is_tcp, is_udp, put_udp. destruct (decide (h = h')) as [->|Hne].
  - rewrite lookup_insert_eq, Ht. naive_solver.
  - by rewrite lookup_insert_ne.
Qed.

Lemma moved_kinds pi s : same_kinds s (map_imap (fun h x => Some (Socket.moved pi h x)) s).
Proof. intros h. unfold is_tcp, is_udp. rewrite map_lookup_imap. split; intros [t ->]; eauto. Qed.

Lemma live_kinds s s' x : same_kinds s s' -> live s x -> live s' x.
Proof.
  intros Hk. unfold live. destruct (sock_type x); [..|intros [? ?]; split; [by apply Hk|done]];
    intros Hl; (eapply Forall_impl; [exact Hl|]); intros h; apply Hk.
Qed.

Lemma hinv_kinds s s' xs closing : same_kinds s s' -> hinv s xs closing -> hinv s' xs closing.
Proof.
  intros Hk (Hn & Hl & Hc). split_and!; [done| |].
  - eapply Forall_impl; [exact Hl|]. intros x. by apply live_kinds.
  - eapply Forall_impl; [exact Hc|]. intros h. by apply Hk.
Qed.

#[local] Instance hinv_perm s : Proper ((≡ₚ) ==> (=) ==> iff) (hinv s).
Proof.
  intros xs ys E c c' <-. unfold hinv. by rewrite E.
Qed.

(** Sockets [xs] and closing handles become [ys] and [c']: the handles that stay
    or come are theirs or new, and the set keeps the others. *)
Lemma sock_hinv_step s s' xs ys rest c d :
  hinv s (xs ++ rest) c -> NoDup (concat (owns <$> ys) ++ d) ->
  (forall h, h ∈ concat (owns <$> ys) ++ d -> h ∈ concat (owns <$> xs) \/ s !! h = None) ->
  (forall h, h ∉ concat (owns <$> xs) -> (is_tcp s h -> is_tcp s' h) /\ (is_udp s h -> is_udp s' h)) ->
  Forall (live s') ys -> Forall (is_tcp s') d -> hinv s' (ys ++ rest) (c ++ d).
Proof.
  intros (Hn & Hl & Hc) Hn' Hsub Hk Hl' Hd. rewrite fmap_app, concat_app in Hn.
  rewrite Forall_app in Hl. destruct Hl as [_ Hl].
  assert (forall h, h ∈ concat (owns <$> rest) ++ c -> h ∉ concat (owns <$> xs)) as Hdis.
  { intros h Hh Hx. rewrite <- app_assoc in Hn. apply NoDup_app in Hn as (_ & Hn & _). by apply (Hn h). }
  assert (forall h, h ∈ concat (owns <$> rest) ++ c -> exists x, s !! h = Some x) as Hin.
  { intros h [Hh|Hh]%elem_of_app.
    - apply list_elem_of_In, in_concat in Hh as (hs & Hhs & Hh). apply list_elem_of_In, list_elem_of_fmap in Hhs as (x & -> & Hx).
      rewrite Forall_forall in Hl. specialize (Hl x Hx). unfold live in Hl. apply list_elem_of_In in Hh.
      destruct (sock_type x); [..|destruct Hl as [[u Hu] Hb]; unfold owns in Hh; rewrite Hb in Hh; apply list_elem_of_singleton in Hh; subst; eauto];
        rewrite Forall_forall in Hl; destruct (Hl h Hh); eauto.
    - rewrite Forall_forall in Hc. destruct (Hc h Hh). eauto. }
  split_and!.
  - rewrite fmap_app, concat_app. rewrite <- app_assoc, (Permutation_app_comm (concat _) (c ++ d)), <- app_assoc, (Permutation_app_comm c).
    rewrite <- app_assoc, (app_assoc _ d). apply NoDup_app. split_and!; [done| |].
    + intros h Hh Hr. destruct (Hsub h Hh) as [Hx|Hno]; [by apply (Hdis h Hr)|].
      destruct (Hin h Hr) as [? E]. congruence.
    + rewrite <- app_assoc in Hn. by apply NoDup_app in Hn as (_ & _ & ?).
  - apply Forall_app. split; [done|]. rewrite Forall_forall in *. intros x Hx. specialize (Hl x Hx).
    assert (forall h, h ∈ owns x -> h ∉ concat (owns <$> xs)) as Hout.
    { intros h Hh. apply Hdis, elem_of_app. left. apply list_elem_of_In, in_concat. exists (owns x).
      split; apply list_elem_of_In; [by apply list_elem_of_fmap_2|done]. }
    unfold live in *. destruct (sock_type x); [..|destruct Hl as [Hu Hb]; split; [|done]; apply Hk; [apply Hout; left|done]];
      rewrite Forall_forall in *; intros h Hh; (apply Hk; [by apply Hout|by apply Hl]).
  - apply Forall_app. split; [|done]. rewrite Forall_forall in *. intros h Hh. apply Hk; [|by apply Hc].
    apply Hdis, elem_of_app. by right.
Qed.

Lemma get_tcp_ok s h : is_tcp s h -> exists t, get_tcp s h = Ret t.
Proof. intros [t E]. unfold get_tcp. rewrite E. eauto. Qed.
Lemma get_udp_ok s h : is_udp s h -> exists u, get_udp s h = Ret u.
Proof. intros [t E]. unfold get_udp. rewrite E. eauto. Qed.

Lemma set_remove_ok s h x : s !! h = Some x -> set_remove s h = Ret (delete h s).
Proof. intros E. unfold set_remove. by rewrite E. Qed.

Lemma delete_kinds s h h' : h' <> h -> (is_tcp s h' -> is_tcp (delete h s) h') /\ (is_udp s h' -> is_udp (delete h s) h').
Proof. intros Hne. unfold is_tcp, is_udp. by rewrite lookup_delete_ne. Qed.

(** [gc_closed_handles] removes closing handles only. *)
Lemma gc_loop_ok n i s xs c :
  hinv s xs c -> exists c' s', gc_loop n i c s = Ret (c', s') /\ hinv s' xs c'.
Proof.
  revert i s c. induction n as [|n IH]; intros i s c Hi; cbn [gc_loop]; [eauto|].
  destruct (c !! i) as [h|] eqn:Eh; [|eauto].
  pose proof Hi as (_ & _ & Hc). rewrite Forall_forall in Hc. destruct (Hc h) as [t Et]; [by eapply list_elem_of_lookup_2|].
  unfold get_tcp. rewrite Et. cbn [obind]. destruct (finished _); [|by apply IH].
  rewrite (set_remove_ok _ _ _ Et). cbn [obind]. apply IH.
  destruct Hi as (Hn & Hl & _). pose proof (swap_remove_perm _ _ _ Eh) as Hp. rewrite Hp in Hn.
  rewrite <- Permutation_middle in Hn. apply NoDup_cons in Hn as [Hh Hn]. rewrite elem_of_app in Hh. split_and!; [done| |].
  - rewrite Forall_forall in *. intros x Hx. specialize (Hl x Hx).
    assert (h ∉ owns x) as Hox.
    { intros Hin. apply Hh. left. apply list_elem_of_In, in_concat. exists (owns x). split; apply list_elem_of_In; [by apply list_elem_of_fmap_2|done]. }
    unfold live in *. destruct (sock_type x); [..|destruct Hl as [Hu Hb]; split; [|done]; apply delete_kinds; [|done]; intros <-; apply Hox; left];
      rewrite Forall_forall in *; intros h' Hh'; (apply delete_kinds; [by intros ->|by apply Hl]).
  - apply Forall_forall. intros h' Hh'. apply delete_kinds; [intros ->; tauto|]. apply Hc. rewrite Hp. by right.
Qed.

Hypothesis set_add_fresh : forall l, set_add l ∉ l.

Lemma set_insert_ok s x : exists h, set_insert s x = (h, <[h := x]> s) /\ s !! h = None.
Proof using set_add_fresh.
  unfold set_insert. eexists. split; [done|]. apply eq_None_not_Some. intros [y Hy].
  apply (set_add_fresh (map_to_list s).*1). apply list_elem_of_fmap. exists (set_add (map_to_list s).*1, y).
  split; [done|]. by apply elem_of_map_to_list.
Qed.

Lemma insert_kinds (s : SocketSet) h x : s !! h = None -> same_kinds s (<[h := x]> s).
Proof.
  intros Hn h'. unfold is_tcp, is_udp. destruct (decide (h = h')) as [->|]; [|by rewrite lookup_insert_ne].
  rewrite Hn. split; by intros [? ?].
Qed.

Lemma install_ok s e :
  exists h s', install_fresh_listener s e = (h, s') /\ s !! h = None /\ is_tcp s' h /\ same_kinds s s' /\
    (forall h', h' <> h -> s' !! h' = s !! h').
Proof using set_add_fresh.
  unfold install_fresh_listener. destruct (set_insert_ok s (Tcp (tcp_new LISTENER_BUF_SIZE LISTENER_TX_BUF_SIZE))) as (h & -> & Hn).
  rewrite lookup_insert_eq. eexists _, _. split_and!; [done|done| | |].
  - unfold is_tcp, put_tcp. rewrite lookup_insert_eq. eauto.
  - eapply same_kinds_trans; [by apply insert_kinds|]. apply put_tcp_kinds. unfold is_tcp. rewrite lookup_insert_eq. eauto.
  - intros h' Hne. unfold put_tcp. by rewrite !lookup_insert_ne.
Qed.

Lemma spares_ok n e s l :
  exists hs s', install_spares n e s l = (l ++ hs, s') /\ length hs = n /\ NoDup hs /\ Forall (fun h => s !! h = None) hs /\
    Forall (is_tcp s') hs /\ same_kinds s s'.
Proof using set_add_fresh.
  revert s l. induction n as [|n IH]; intros s l; cbn [install_spares].
  { exists [], s. rewrite app_nil_r. split_and!; try done; constructor. }
  destruct (install_ok s e) as (h & s1 & -> & Hn & Ht & Hk & He). destruct (IH s1 (l ++ [h])) as (hs & s2 & -> & Hl & Hnd & Hf & Ht2 & Hk2).
  rewrite Forall_forall in Hf.
  assert (forall h', h' ∈ hs -> s !! h' = None /\ h' <> h) as Hnew.
  { intros h' Hin. specialize (Hf h' Hin). assert (h' <> h) as Hne by (intros ->; destruct Ht; congruence). by rewrite <- (He h' Hne). }
  exists (h :: hs), s2. rewrite <- app_assoc. split_and!; [done|by cbn; rewrite Hl| | | |by eapply same_kinds_trans].
  - constructor; [|done]. intros Hin. by destruct (Hnew h Hin).
  - constructor; [done|]. apply Forall_forall. intros h' Hin. by destruct (Hnew h' Hin).
  - constructor; [|done]. by apply Hk2.
Qed.

Lemma scan_ok e l s :
  Forall (is_tcp s) l ->
  exists r l' s', scan_spares e l s = Ret (r, l', s') /\ same_kinds s s' /\
    match r with
    | None => l' = l
    | Some (h, _) => exists l1 h' l2, l = l1 ++ h :: l2 /\ l' = l1 ++ h' :: l2 /\ s !! h' = None /\ is_tcp s' h'
    end.
Proof using set_add_fresh.
  intros Hl. revert s Hl. induction l as [|h l IH]; intros s Hl; cbn [scan_spares].
  { by exists None, [], s. }
  apply Forall_cons in Hl as [[t Et] Hl]. unfold get_tcp. rewrite Et. cbn [obind]. destruct (ready _).
  - destruct (install_ok s e) as (h' & s1 & -> & Hn & Ht & Hk & He). eexists _, _, _. split_and!; [done|done|].
    by exists [], h', l.
  - destruct (IH s Hl) as (r & l' & s' & -> & Hk & Hr). cbn [obind]. eexists _, _, _. split_and!; [done|done|].
    destruct r as [[h1 ?]|]; [|by subst]. destruct Hr as (l1 & h' & l2 & -> & -> & Hn & Ht). by exists (h :: l1), h', l2.
Qed.

(** The replacement of one socket by one. *)
Lemma hinv_one s s' x x' rest c :
  hinv s (x :: rest) c -> same_kinds s s' -> live s' x' -> NoDup (owns x') ->
  (forall h, h ∈ owns x' -> h ∈ owns x \/ s !! h = None) -> hinv s' (x' :: rest) c.
Proof.
  intros Hi Hk Hl Hn Hs. rewrite <- (app_nil_r c). apply (sock_hinv_step s s' [x] [x'] rest c []); try done; cbn; rewrite ?app_nil_r; try done.
  by constructor.
Qed.

Lemma hinv_head s x rest c : hinv s (x :: rest) c -> live s x /\ NoDup (owns x).
Proof.
  intros (Hn & Hl & _). apply Forall_cons in Hl as [Hl _]. split; [done|]. rewrite fmap_cons in Hn.
  cbn [concat] in Hn. rewrite <- app_assoc in Hn. by apply NoDup_app in Hn as (? & _ & _).
Qed.

(** Fields that own nothing may change. *)
Lemma hinv_same s s' x x' rest c :
  hinv s (x :: rest) c -> same_kinds s s' -> owns x' = owns x ->
  (sock_type x' = sock_type x \/ sock_type x <> UdpDgram /\ sock_type x' <> UdpDgram) -> hinv s' (x' :: rest) c.
Proof.
  intros Hi Hk Ho Ht. destruct (hinv_head _ _ _ _ Hi) as [Hl Hn]. apply (hinv_one s s' x); rewrite ?Ho; auto.
  apply (live_kinds s s' x) in Hl; [|done]. injection Ho as Hh Hb. unfold live, owns in *. rewrite Hh, Hb.
  destruct Ht as [->|[H1 H2]]; [done|]. by destruct (sock_type x), (sock_type x').
Qed.

(** ** One section *)

Lemma find_split st n i x :
  find_socket st n = Some (i, x) -> exists l1 l2, SOCKETS st = l1 ++ x :: l2 /\ length l1 = i /\ fd x = n.
Proof using.
  clear. unfold find_socket. destruct (position _ _) as [j|] eqn:E; [|done]. apply position_split in E as (l1 & y & l2 & E & <- & Hf & _).
  rewrite E, list_lookup_middle by done. intros [= <- <-]. exists l1, l2. split_and!; [done|done|]. by apply Z.eqb_eq.
Qed.

(** The parts of the state the invariant speaks of, apart from the set. *)
Definition like (st st' : state) : Prop :=
  SOCKETS st' = SOCKETS st /\ NEXT_SOCK_FD st' = NEXT_SOCK_FD st /\ RECYCLED_FDS st' = RECYCLED_FDS st /\
  CLOSING_HANDLES st' = CLOSING_HANDLES st.

Lemma sinv_find st ts n i x :
  sinv (st, ts) -> find_socket st n = Some (i, x) -> exists s d, NET st = Some (s, d) /\ live s x.
Proof using.
  clear. intros [Hn _] (l1 & l2 & E & _)%find_split. cbn [fst] in Hn. destruct (NET st) as [[s d]|].
  - exists s, d. split; [done|]. destruct Hn as (_ & Hl & _). unfold sockets_of in Hl. cbn in Hl. rewrite E in Hl.
    rewrite Forall_forall in Hl. apply Hl. rewrite !elem_of_app. left. right. left.
  - destruct Hn as [Hn _]. unfold sockets_of in Hn. cbn in Hn. rewrite E in Hn. by destruct l1.
Qed.

Lemma sinv_put st ts n i x s d st' s' d' x' :
  sinv (st, ts) -> find_socket st n = Some (i, x) -> NET st = Some (s, d) -> like st st' -> NET st' = Some (s', d') -> fd x' = fd x ->
  (forall rest c, hinv s (x :: rest) c -> hinv s' (x' :: rest) c) -> sinv (put_socket st' i x', ts).
Proof using.
  clear. intros [Hn Hfd] (l1 & l2 & E & <- & _)%find_split EN (L1 & L2 & L3 & L4) EN' Ef Hstep. unfold sinv in *. cbn [fst] in *.
  unfold sockets_of, fds_of in *. cbn [fst snd put_socket SOCKETS NET with_sockets CLOSING_HANDLES RECYCLED_FDS NEXT_SOCK_FD] in *.
  rewrite EN in Hn. rewrite EN', L1, L2, L3, L4, E in *. rewrite insert_app_r_alt, Nat.sub_diag by done. cbn [insert list_insert].
  rewrite fmap_app, fmap_cons, Ef. rewrite fmap_app, fmap_cons in Hfd. split; [|done].
  rewrite <- app_assoc, <- app_comm_cons, <- Permutation_middle in *. by apply Hstep.
Qed.

Lemma sinv_set st ts s d st' s' d' :
  sinv (st, ts) -> NET st = Some (s, d) -> like st st' -> NET st' = Some (s', d') -> same_kinds s s' -> sinv (st', ts).
Proof using.
  clear. intros [Hn Hfd] EN (L1 & L2 & L3 & L4) EN' Hk. unfold sinv, sockets_of, fds_of in *. cbn [fst snd] in *.
  rewrite EN in Hn. rewrite EN', L1, L2, L3, L4. split; [|done]. by eapply hinv_kinds.
Qed.

Lemma with_set_like st s : like st (with_set st s).
Proof. done. Qed.
Lemma with_set_net st s s' d : NET st = Some (s, d) -> NET (with_set st s') = Some (s', d).
Proof. cbn. by intros ->. Qed.

Lemma eph_like st : exists p e, alloc_ephemeral_port st = (p, with_ephemeral st e).
Proof. unfold alloc_ephemeral_port. destruct (65535 <=? _); eauto. Qed.

Lemma poll_ok pi st ts :
  sinv (st, ts) -> exists st', poll pi st = Ret st' /\ sinv (st', ts) /\ SOCKETS st' = SOCKETS st.
Proof using.
  clear. intros Hi. unfold poll. destruct (NET st) as [[s d]|] eqn:EN; [|eauto].
  set (s1 := map_imap _ s).
  set (st1 := match d with Some _ => _ | None => _ end).
  assert (like st st1 /\ NET st1 = Some (s1, d)) as [L1 E1].
  { unfold st1. destruct d, (on_dhcp pi); cbn; rewrite EN; done. }
  pose proof (sinv_set st ts s d st1 s1 d Hi EN L1 E1 (moved_kinds pi s)) as H1.
  unfold gc_closed_handles. rewrite E1. pose proof H1 as [Hh Hfd]. cbn [fst] in Hh. rewrite E1 in Hh.
  destruct (gc_loop_ok (length (CLOSING_HANDLES st1)) 0 s1 (sockets_of (st1, ts)) (CLOSING_HANDLES st1) Hh) as (c' & s' & -> & Hh').
  cbn [obind]. eexists. split_and!; [done| |apply L1].
  unfold sinv, sockets_of, fds_of in *. cbn in *. rewrite E1. by split.
Qed.

(** The fields of a socket the invariant speaks of. *)
Definition alike (x x' : Socket) : Prop := owns x' = owns x /\ sock_type x' = sock_type x /\ fd x' = fd x.

Lemma alike_put st ts n i x s d st' s' d' x' :
  sinv (st, ts) -> find_socket st n = Some (i, x) -> NET st = Some (s, d) -> like st st' -> NET st' = Some (s', d') ->
  same_kinds s s' -> alike x x' -> sinv (put_socket st' i x', ts).
Proof using.
  intros Hi Hf EN Hl EN' Hk (Ho & Ht & Hfd). eapply sinv_put; try done. intros rest c Hh. eapply hinv_same; try done. by left.
Qed.

Lemma udp_alive s x : live s x -> sock_type x = UdpDgram -> is_udp s (handle x).
Proof. unfold live. intros Hl E. rewrite E in Hl. apply Hl. Qed.

Lemma tcp_alive s x : live s x -> sock_type x <> UdpDgram -> Forall (is_tcp s) (owns x).
Proof. unfold live. intros Hl E. by destruct (sock_type x). Qed.

Lemma autobind_ok st x s d :
  NET st = Some (s, d) -> is_udp s (handle x) ->
  exists x' st' s', udp_autobind st x = Ret (x', st') /\ alike x x' /\ like st st' /\ NET st' = Some (s', d) /\ same_kinds s s'.
Proof using.
  clear. intros EN Hu. unfold udp_autobind. destruct (_ =? 0).
  - destruct (eph_like st) as (p & e & ->). unfold net_set. cbn [with_ephemeral NET]. rewrite EN. cbn [obind].
    destruct (get_udp_ok s _ Hu) as [u ->]. cbn [obind]. eexists _, _, _. split_and!; [done..|by apply (with_set_net _ s)|].
    by apply put_udp_kinds.
  - eexists _, _, _. split_and!; done || apply same_kinds_refl.
Qed.

Lemma port_ok p st s d :
  NET st = Some (s, d) -> exists p' st', choose_port p st = (p', st') /\ like st st' /\ NET st' = Some (s, d).
Proof using.
  clear. intros EN. unfold choose_port. destruct (p =? 0); [|by eexists _, _].
  destruct (eph_like st) as (p' & e & ->). by eexists _, _.
Qed.

Lemma connect_tcp_ok n remote st ts i x :
  sinv (st, ts) -> find_socket st n = Some (i, x) -> sock_type x <> UdpDgram ->
  exists r st', connect_tcp i x remote st = Ret (r, st') /\ sinv (st', ts).
Proof using.
  clear. intros Hi Ef Eu. destruct (sinv_find _ _ _ _ _ Hi Ef) as (s & d & EN & Hl). unfold connect_tcp.
  destruct (port_ok (local_port x) st s d EN) as (p & st1 & -> & Hlk & EN1).
  pose proof (tcp_alive _ _ Hl Eu) as Ht. apply Forall_cons in Ht as [Ht _].
  cbn [handle set_connecting set_type set_port]. unfold net_set. rewrite EN1. cbn [obind].
  destruct (get_tcp_ok s _ Ht) as [t ->]. cbn [obind]. destruct (tcp_connect remote p t) as [ok t'].
  assert (forall c, sinv (put_socket (with_set st1 (put_tcp s (handle x) t')) i (set_connecting (set_type (set_port x p) TcpStream) c), ts)) as Hput.
  { intros c. eapply (sinv_put st ts n i x s d); [done|done|done|exact Hlk|by apply (with_set_net _ s)|done|].
    intros rest cl Hh. eapply hinv_same; [done|by apply put_tcp_kinds|done|]. by right. }
  destruct ok; eexists _, _; (split; [done|]); apply Hput.
Qed.

Lemma connect_ok n addr m st ts :
  sinv (st, ts) -> exists r st', sys_connect n addr m st = Ret (r, st') /\ sinv (st', ts).
Proof using.
  clear. intros Hi. unfold sys_connect. destruct (sockaddr m addr) as [remote|]; [|eauto].
  destruct (find_socket st n) as [[i x]|] eqn:Ef; [|eauto].
  destruct (sock_type x) eqn:Eu; try (eapply connect_tcp_ok; [done|done|by rewrite Eu]).
  destruct (sinv_find _ _ _ _ _ Hi Ef) as (s & d & EN & Hl).
  destruct (autobind_ok st (set_peer x (Some remote)) s d EN (udp_alive _ _ Hl Eu))
    as (x' & st' & s' & -> & Ha & Hlk & EN' & Hk). cbn [obind]. eexists _, _. split; [done|]. by eapply alike_put.
Qed.

Lemma bind_ok n addr m st ts :
  sinv (st, ts) -> exists r st', sys_bind n addr m st = Ret (r, st') /\ sinv (st', ts).
Proof using.
  clear. intros Hi. unfold sys_bind. destruct (sockaddr m addr) as [e|]; [|eauto].
  destruct (find_socket st n) as [[i x]|] eqn:Ef; [|eauto]. destruct (sinv_find _ _ _ _ _ Hi Ef) as (s & d & EN & Hl).
  destruct (port_ok (ep_port e) st s d EN) as (p & st1 & -> & Hlk & EN1).
  cbn [sock_type set_addr set_port handle].
  destruct (sock_type x) eqn:Eu; try (eexists _, _; split; [done|]; by eapply alike_put; try apply same_kinds_refl).
  unfold net_set. rewrite EN1. cbn [obind]. pose proof (udp_alive _ _ Hl Eu) as Hu. destruct (get_udp_ok s _ Hu) as [u ->]. cbn [obind].
  destruct (udp_bind _ u) as [ok u']. eexists _, _. split; [done|].
  eapply alike_put; [done|done|done|exact Hlk|by apply (with_set_net _ s)|by apply put_udp_kinds|done].
Qed.

Lemma owned_tcp s x h : live s x -> sock_type x <> UdpDgram -> h ∈ owns x -> exists t, get_tcp s h = Ret t.
Proof. intros Hl Hu Hh. apply get_tcp_ok. pose proof (tcp_alive _ _ Hl Hu) as Ht. rewrite Forall_forall in Ht. by apply Ht. Qed.

Lemma owned_some s x h : live s x -> sock_type x <> UdpDgram -> h ∈ owns x -> s !! h <> None.
Proof. intros Hl Hu Hh. pose proof (tcp_alive _ _ Hl Hu) as Ht. rewrite Forall_forall in Ht. destruct (Ht h Hh) as [t ->]. done. Qed.

Lemma listen_ok n st ts :
  sinv (st, ts) -> not_udp st n -> exists r st', sys_listen n st = Ret (r, st') /\ sinv (st', ts).
Proof using set_add_fresh.
  intros Hi Hu. unfold sys_listen, not_udp in *. destruct (find_socket st n) as [[i x]|] eqn:Ef; [|eauto].
  destruct (sinv_find _ _ _ _ _ Hi Ef) as (s & d & EN & Hl). unfold net_set. rewrite EN. cbn [obind handle set_type].
  pose proof (tcp_alive _ _ Hl Hu) as Hall. pose proof Hall as [Hht _]%Forall_cons.
  destruct (get_tcp_ok s _ Hht) as [t ->]. cbn [obind].
  destruct (tcp_listen _ t) as [ok t']. set (s1 := put_tcp s (handle x) t').
  assert (same_kinds s s1) as Hk1 by (by apply put_tcp_kinds).
  destruct ok; cbn [negb].
  - destruct (spares_ok (LISTENER_POOL_SIZE - 1) (listen_endpoint (local_addr (set_type x TcpListener)) (local_port (set_type x TcpListener))) s1 [])
      as (hs & s2 & -> & _ & Hnd & Hf & Ht2 & Hk2). cbn [app]. eexists _, _. split; [done|].
    eapply (sinv_put st ts n i x s d); [done|done|done|done|by apply (with_set_net _ s)|done|].
    assert (forall h, h ∈ hs -> s !! h = None /\ h <> handle x) as Hnew.
    { intros h Hh. rewrite Forall_forall in Hf. specialize (Hf h Hh). unfold s1, put_tcp in Hf.
      apply lookup_insert_None in Hf as [? ?]. done. }
    intros rest c Hh. apply (hinv_one s s2 x); [done|by eapply same_kinds_trans| | |].
    + unfold live. cbn. constructor; [apply Hk2; by apply Hk1|done].
    + cbn. constructor; [|done]. intros Hin. by destruct (Hnew _ Hin).
    + cbn. intros h [->|Hh']%elem_of_cons; [left; left|right; by apply Hnew].
  - eexists _, _. split; [done|]. eapply (sinv_put st ts n i x s d); [done|done|done|done|by apply (with_set_net _ s)|done|].
    intros rest c Hh. eapply hinv_same; [done|done|done|]. by right.
Qed.

(** Accepting splits the listener's handles. *)
Lemma hinv_two s s' x x' y rest c :
  hinv s (x :: rest) c -> same_kinds s s' -> live s' y -> live s' x' -> NoDup (owns y ++ owns x') ->
  (forall h, h ∈ owns y ++ owns x' -> h ∈ owns x \/ s !! h = None) -> hinv s' (y :: x' :: rest) c.
Proof using.
  clear. intros Hi Hk Hy Hx Hn Hs. rewrite <- (app_nil_r c).
  assert (concat (owns <$> [y; x']) = owns y ++ owns x') as E by (cbn; by rewrite app_nil_r).
  apply (sock_hinv_step s s' [x] [y; x'] rest c []); rewrite ?E, ?app_nil_r; try done.
  - intros h Hh. cbn. rewrite app_nil_r. by apply Hs.
  - by constructor; [|constructor].
Qed.

Lemma sinv_take st ts n i x s d s' x' y :
  sinv (st, ts) -> find_socket st n = Some (i, x) -> NET st = Some (s, d) -> fd x' = fd x ->
  (forall rest c, hinv s (x :: rest) c -> hinv s' (y :: x' :: rest) c) -> sinv (put_socket (with_set st s') i x', TNew y :: ts).
Proof using.
  clear. intros [Hn Hfd] (l1 & l2 & E & <- & _)%find_split EN Ef Hstep. unfold sinv, sockets_of, fds_of in *. cbn in *.
  rewrite EN, E in *. rewrite insert_app_r_alt, Nat.sub_diag by done. cbn [insert list_insert]. rewrite fmap_app, fmap_cons in *.
  rewrite Ef. split; [|done]. rewrite <- app_assoc, <- app_comm_cons, <- Permutation_middle in Hn.
  assert ((l1 ++ x' :: l2) ++ y :: (task_socket <$> ts) ≡ₚ y :: x' :: l1 ++ l2 ++ (task_socket <$> ts)) as -> by solve_Permutation.
  by apply Hstep.
Qed.

Lemma owns_NoDup st ts n i x : sinv (st, ts) -> find_socket st n = Some (i, x) -> NoDup (owns x).
Proof using.
  clear. intros Hi Ef. destruct (sinv_find _ _ _ _ _ Hi Ef) as (s & d & EN & _). destruct Hi as [Hn _]. cbn [fst] in Hn. rewrite EN in Hn.
  destruct (find_split _ _ _ _ Ef) as (l1 & l2 & E & _). unfold sockets_of in Hn. cbn in Hn.
  rewrite E, <- app_assoc, <- app_comm_cons, <- Permutation_middle in Hn. by apply hinv_head in Hn as [_ ?].
Qed.

Lemma live_tcp s x : sock_type x <> UdpDgram -> Forall (is_tcp s) (owns x) -> live s x.
Proof using. clear. unfold live. by destruct (sock_type x). Qed.

Lemma accept_ok n port addr flags st ts :
  sinv (st, ts) -> not_udp st n ->
  exists r st', accept_attempt n port addr st = Ret (r, st') /\
    sinv (st', match r with Some (h, _) => TNew (accepted 0 h flags port addr) :: ts | None => ts end).
Proof using set_add_fresh.
  intros Hi Hu. unfold accept_attempt, not_udp in *. destruct (find_socket st n) as [[i x]|] eqn:Ef; [|eauto].
  destruct (sinv_find _ _ _ _ _ Hi Ef) as (s & d & EN & Hl). unfold net_set. rewrite EN. cbn [obind]. pose proof (tcp_alive _ _ Hl Hu) as Hall.
  pose proof Hall as [[t Et] Hb]%Forall_cons. pose proof (owns_NoDup _ _ _ _ _ Hi Ef) as Hnd.
  assert (forall h, h ∈ owns x -> s !! h <> None) as Hsome by (intros h; by apply owned_some).
  unfold get_tcp. rewrite Et. cbn [obind]. destruct (ready (tcp_state t)).
  - destruct (install_ok s (listen_endpoint addr port)) as (h' & s' & -> & Hn & Ht & Hk & _). eexists _, _. split; [done|].
    apply (sinv_take st ts n i x s d); [done..|]. intros rest c Hh. apply (hinv_two s s' x); [done|done| | | |].
    + constructor; [|done]. apply Hk. by exists t.
    + apply live_tcp; [done|]. constructor; [done|]. eapply Forall_impl; [exact Hb|]. intros y. apply Hk.
    + cbn. unfold owns in Hnd. apply NoDup_cons in Hnd as [H1 H2]. constructor.
      * intros [E|]%elem_of_cons; [|done]. rewrite E in Et. cbn in Et. congruence.
      * constructor; [|done]. intros Hin. eapply Hsome; [|exact Hn]. by right.
    + cbn. intros y [->|[->|Hy]%elem_of_cons]%elem_of_cons; [left; left|by right|left; by right].
  - destruct (scan_ok (listen_endpoint addr port) (backlog x) s Hb) as (r & l' & s' & -> & Hk & Hr). cbn [obind].
    eexists _, _. split; [done|]. destruct r as [[h e]|].
    2: { subst l'. eapply (alike_put st ts n i x s d); [done|done|done|done|by apply (with_set_net _ s)|done|done]. }
    destruct Hr as (b1 & h' & b2 & Eb & -> & Hn & Ht). unfold owns in Hnd, Hsome, Hall. rewrite Eb in Hnd, Hsome, Hall.
    apply (sinv_take st ts n i x s d); [done..|]. intros rest c Hh.
    assert (handle x :: b1 ++ h :: b2 ≡ₚ h :: handle x :: b1 ++ b2) as Ep by solve_Permutation.
    assert (handle x :: b1 ++ h' :: b2 ≡ₚ h' :: handle x :: b1 ++ b2) as Ep' by solve_Permutation.
    assert (h' ∉ h :: handle x :: b1 ++ b2) as Hnew by (rewrite <- Ep; intros Hin; by apply (Hsome h')).
    apply (Forall_impl _ (is_tcp s')) in Hall; [|intros y; apply Hk]. rewrite Ep in Hall, Hnd. apply Forall_cons in Hall as [Hall1 Hall2].
    apply (hinv_two s s' x); [done|done| | | |].
    + by constructor.
    + apply live_tcp; [done|]. unfold owns. cbn [set_backlog handle backlog]. rewrite Ep'. by constructor.
    + unfold owns. cbn [set_backlog accepted handle backlog app]. rewrite Ep'. apply NoDup_cons in Hnd as [H1 H2].
      rewrite elem_of_cons in Hnew. constructor; [|constructor; tauto]. intros [->|]%elem_of_cons; tauto.
    + unfold owns. cbn [set_backlog accepted handle backlog app]. rewrite Eb. intros y. rewrite Ep, Ep', !elem_of_cons. intros [?|[->|?]]; auto.
Qed.

Lemma send_ok n buf len dest pi m st ts :
  sinv (st, ts) -> exists r st', sys_sendto n buf len dest pi m st = Ret (r, st') /\ sinv (st', ts).
Proof using.
  clear. intros Hi. unfold sys_sendto. destruct (find_socket st n) as [[i x]|] eqn:Ef; [|eauto].
  destruct (sinv_find _ _ _ _ _ Hi Ef) as (s & d & EN & Hl). destruct (sock_type x) eqn:Ety; [| |].
  - unfold net_set. rewrite EN. cbn [obind]. pose proof (tcp_alive _ _ Hl ltac:(by rewrite Ety)) as [Ht _]%Forall_cons.
    destruct (get_tcp_ok s _ Ht) as [t ->]. cbn [obind]. destruct (negb _); [eauto|].
    destruct (tcp_send_slice _ t) as [r t']. eexists _, _. split; [done|].
    eapply (sinv_set st ts s d); [done|done|done|by apply (with_set_net _ s)|by apply put_tcp_kinds].
  - eauto.
  - destruct (match (if dest =? 0 then _ else _) with Some e => _ | None => _ end) as [e|]; [|eauto].
    pose proof (udp_alive _ _ Hl Ety) as Hu.
    destruct (autobind_ok st x s d EN Hu) as (x' & st1 & s1 & -> & Ha & Hlk & EN1 & Hk). cbn [obind].
    assert (sinv (put_socket st1 i x', ts)) as H1 by (by eapply alike_put).
    unfold net_set. cbn [NET put_socket with_sockets]. rewrite EN1. cbn [obind].
    assert (is_udp s1 (handle x')) as Hu' by (destruct Ha as ([= -> _] & _); by apply Hk).
    destruct (get_udp_ok s1 _ Hu') as [u ->]. cbn [obind]. destruct (udp_send_slice _ e u) as [r u'].
    edestruct (poll_ok pi (with_set (put_socket st1 i x') (put_udp s1 (handle x') u')) ts) as (st2 & -> & H2 & _).
    + eapply (sinv_set (put_socket st1 i x') ts s1 d); [done|done|done|by apply (with_set_net _ s1)|by apply put_udp_kinds].
    + cbn [obind]. eauto.
Qed.

Lemma recv_ok n buf len src addrlen pi m st ts :
  sinv (st, ts) -> exists r m' st', sys_recvfrom n buf len src addrlen pi m st = Ret (r, m', st') /\ sinv (st', ts).
Proof using.
  clear. intros Hi0. unfold sys_recvfrom. destruct (poll_ok pi st ts Hi0) as (st1 & -> & Hi & _). cbn [obind].
  destruct (find_socket st1 n) as [[i x]|] eqn:Ef; [|eauto]. destruct (sinv_find _ _ _ _ _ Hi Ef) as (s & d & EN & Hl).
  destruct (sock_type x) eqn:Ety; [|eauto|].
  - unfold net_set. rewrite EN. cbn [obind]. pose proof (tcp_alive _ _ Hl ltac:(by rewrite Ety)) as [Ht _]%Forall_cons.
    destruct (get_tcp_ok s _ Ht) as [t ->]. cbn [obind]. destruct (negb _); [eauto|]. destruct (tcp_recv_slice _ t) as [r t'].
    assert (sinv (with_set st1 (put_tcp s (handle x) t'), ts)) as H2
      by (eapply (sinv_set st1 ts s d); [done|done|done|by apply (with_set_net _ s)|by apply put_tcp_kinds]).
    destruct r; eauto.
  - unfold net_set. rewrite EN. cbn [obind]. pose proof (udp_alive _ _ Hl Ety) as Hu.
    destruct (get_udp_ok s _ Hu) as [u ->]. cbn [obind]. destruct (negb _); [eauto|]. destruct (udp_recv u) as [r u'].
    assert (sinv (with_set st1 (put_udp s (handle x) u'), ts)) as H2
      by (eapply (sinv_set st1 ts s d); [done|done|done|by apply (with_set_net _ s)|by apply put_udp_kinds]).
    destruct r as [[data e]|]; eauto.
Qed.

Lemma peer_ok n addr addrlen m st ts :
  sinv (st, ts) -> not_udp st n -> exists r, sys_getpeername n addr addrlen m st = Ret r.
Proof using.
  clear. intros Hi Hu. unfold sys_getpeername, not_udp in *. destruct (find_socket st n) as [[i x]|] eqn:Ef; [|eauto].
  destruct (sinv_find _ _ _ _ _ Hi Ef) as (s & d & EN & Hl). unfold net_set. rewrite EN. cbn [obind].
  pose proof (tcp_alive _ _ Hl Hu) as [Ht _]%Forall_cons. destruct (get_tcp_ok s _ Ht) as [t ->]. cbn [obind].
  destruct (tcp_remote_endpoint t); [|eauto]. destruct (addr =? 0); eauto.
Qed.

Lemma alike_same st ts n i x x' : sinv (st, ts) -> find_socket st n = Some (i, x) -> alike x x' -> sinv (put_socket st i x', ts).
Proof using.
  clear. intros Hi Ef Ha. destruct (sinv_find _ _ _ _ _ Hi Ef) as (s & d & EN & _).
  eapply (alike_put st ts n i x s d st s d); done || apply same_kinds_refl.
Qed.

Lemma sockopt_ok n level opt optval optlen m st ts :
  sinv (st, ts) -> exists r m' st', sys_getsockopt n level opt optval optlen m st = Ret (r, m', st') /\ sinv (st', ts).
Proof using.
  clear. intros Hi. unfold sys_getsockopt. destruct (negb _); [eauto|]. destruct (_ || _); [eauto|].
  assert (exists e st', so_error st n = Ret (e, st') /\ sinv (st', ts)) as (e & st' & -> & Hi').
  { unfold so_error. destruct (find_socket st n) as [[i x]|] eqn:Ef; [|eauto].
    destruct (sinv_find _ _ _ _ _ Hi Ef) as (s & d & EN & Hl). destruct (sock_type x) eqn:Ety; eauto.
    destruct (connecting x); [|eauto]. unfold net_set. rewrite EN. cbn [obind].
    pose proof (tcp_alive _ _ Hl ltac:(by rewrite Ety)) as [Ht _]%Forall_cons. destruct (get_tcp_ok s _ Ht) as [t ->]. cbn [obind].
    destruct (tcp_state t); eexists _, _; (split; [done|]); (done || by eapply alike_same). }
  cbn [obind]. eauto.
Qed.

Lemma active_ok l s : Forall (is_tcp s) l -> exists r, any_active l s = Ret r.
Proof using.
  clear. induction 1 as [|h l Ht _ IH]; cbn [any_active]; [eauto|]. destruct (get_tcp_ok s _ Ht) as [t ->]. cbn [obind].
  destruct (tcp_is_active t); eauto.
Qed.

Lemma ready_ok n st ts : sinv (st, ts) -> exists r st', poll_socket n st = Ret (r, st') /\ sinv (st', ts).
Proof using.
  clear. intros Hi. unfold poll_socket. destruct (find_socket st n) as [[i x]|] eqn:Ef; [|eauto].
  destruct (sinv_find _ _ _ _ _ Hi Ef) as (s & d & EN & Hl). unfold net_set. rewrite EN. cbn [obind]. destruct (sock_type x) eqn:Ety.
  - pose proof (tcp_alive _ _ Hl ltac:(by rewrite Ety)) as [Ht _]%Forall_cons. destruct (get_tcp_ok s _ Ht) as [t ->]. cbn [obind].
    destruct (connecting x); [|eauto]. destruct (tcp_state t); eexists _, _; (split; [done|]); (done || by eapply alike_same).
  - destruct (active_ok (handle x :: backlog x) s) as [r ->]; [by apply tcp_alive; [|rewrite Ety]|]. cbn [obind]. eauto.
  - destruct (get_udp_ok s _ (udp_alive _ _ Hl Ety)) as [u ->]. cbn [obind]. eauto.
Qed.

Lemma nonblock_ok n nb st ts : sinv (st, ts) -> sinv (set_nonblock st n nb, ts).
Proof using.
  clear. intros Hi. unfold set_nonblock. destruct (find_socket st n) as [[i x]|] eqn:Ef; [|done]. by eapply alike_same.
Qed.

(** Sections that move a socket between the table and the threads. *)
Lemma sinv_move st ts st' ts' :
  sinv (st, ts) -> NET st' = NET st -> CLOSING_HANDLES st' = CLOSING_HANDLES st -> NEXT_SOCK_FD st' = NEXT_SOCK_FD st ->
  sockets_of (st', ts') ≡ₚ sockets_of (st, ts) -> fds_of (st', ts') ≡ₚ fds_of (st, ts) -> sinv (st', ts').
Proof using.
  clear. intros [Hn [Hfd Hr]] EN EC EX Es Ef. unfold sinv in *. cbn [fst] in *. rewrite EN, EC, EX, Ef. split; [|done].
  destruct (NET st) as [[s d]|]; [by rewrite Es|]. destruct Hn as [Hn Hc]. split; [|done]. rewrite Hn in Es. by apply Permutation_nil_r.
Qed.

Lemma sock_push_ok st ts i x : sinv (st, ts) -> ts !! i = Some (TPush x) -> sinv (push_socket st x, delete i ts).
Proof using.
  clear. intros Hi Et. apply list_elem_of_split_length in Et as (t1 & t2 & -> & ->). rewrite delete_middle.
  apply (sinv_move st (t1 ++ TPush x :: t2)); try done; unfold sockets_of, fds_of; cbn; rewrite !fmap_app; cbn.
  - solve_Permutation.
  - rewrite !concat_app. cbn. solve_Permutation.
Qed.

Lemma close_take_ok st ts n x st' : sinv (st, ts) -> close_take n st = Some (x, st') -> sinv (st', TRecycle x :: ts).
Proof using.
  clear. intros Hi Hc. unfold close_take in Hc. destruct (find_socket st n) as [[i y]|] eqn:Ef; [|done]. injection Hc as -> <-.
  destruct (find_split _ _ _ _ Ef) as (l1 & l2 & E & <- & _).
  apply (sinv_move st ts); try done; unfold sockets_of, fds_of; cbn; rewrite E, delete_middle; [solve_Permutation|].
  rewrite !fmap_app. cbn. solve_Permutation.
Qed.

Lemma sock_recycle_ok st ts i x :
  sinv (st, ts) -> ts !! i = Some (TRecycle x) -> sinv (close_recycle (fd x) st, <[i := TDispose x]> ts).
Proof using.
  clear. intros Hi Et. apply list_elem_of_split_length in Et as (t1 & t2 & -> & ->).
  rewrite insert_app_r_alt, Nat.sub_diag by done. cbn [insert list_insert].
  apply (sinv_move st (t1 ++ TRecycle x :: t2)); try done; unfold sockets_of, fds_of; cbn; rewrite !fmap_app; cbn; [done|].
  rewrite !concat_app. cbn. solve_Permutation.
Qed.

Lemma seqZ_snoc m n : 0 <= n -> seqZ m (n + 1) ≡ₚ (m + n) :: seqZ m n.
Proof. intros Hn. rewrite seqZ_app by lia. rewrite (seqZ_cons (m + n)) by lia. rewrite (seqZ_nil _ (Z.pred 1)) by done. solve_Permutation. Qed.

Lemma hinv_renumber s st ts1 x ts2 n c :
  hinv s (sockets_of (st, ts1 ++ TNew x :: ts2)) c -> hinv s (sockets_of (st, ts1 ++ TPush (renumber x n) :: ts2)) c.
Proof using.
  clear. unfold sockets_of. cbn. rewrite !fmap_app. cbn. rewrite !(app_assoc (SOCKETS st)), <- !Permutation_middle.
  intros Hi. eapply hinv_same; [done|done|done|by left].
Qed.

Lemma number_ok st ts i x :
  sinv (st, ts) -> ts !! i = Some (TNew x) -> NEXT_SOCK_FD st < 2 ^ 31 - 1 ->
  sinv ((alloc_fd st).2, <[i := TPush (renumber x (alloc_fd st).1)]> ts).
Proof using.
  clear. intros [Hn [Hfd Hr]] Et Hlt. apply list_elem_of_split_length in Et as (t1 & t2 & -> & ->).
  rewrite insert_app_r_alt, Nat.sub_diag by done. cbn [insert list_insert].
  assert (NET st <> None) as HN.
  { intros E. cbn [fst] in Hn. rewrite E in Hn. destruct Hn as [Hn _]. unfold sockets_of in Hn. cbn in Hn. by destruct (SOCKETS st), t1. }
  cbn [fst] in Hn. destruct (NET st) as [[s d]|] eqn:EN; [|done]. unfold alloc_fd.
  destruct (rev (RECYCLED_FDS st)) as [|n l] eqn:Er; unfold sinv; cbn [fst snd NET with_next_fd with_recycled CLOSING_HANDLES NEXT_SOCK_FD]; rewrite EN.
  - assert (RECYCLED_FDS st = []) as E0 by (rewrite <- (rev_involutive (RECYCLED_FDS st)), Er; done).
    unfold fds_of in *. cbn [fst snd SOCKETS RECYCLED_FDS with_next_fd] in *. rewrite E0 in *. unfold SOCK_FD_BASE in *.
    rewrite i32_small by lia. split_and!; [by apply hinv_renumber| |lia|lia].
    replace (NEXT_SOCK_FD st + 1 - 500) with (NEXT_SOCK_FD st - 500 + 1) by lia.
    rewrite seqZ_snoc by lia. replace (500 + (NEXT_SOCK_FD st - 500)) with (NEXT_SOCK_FD st) by lia.
    rewrite <- Hfd. rewrite !fmap_app, !concat_app. cbn. solve_Permutation.
  - assert (RECYCLED_FDS st = rev l ++ [n]) as E0 by (rewrite <- (rev_involutive (RECYCLED_FDS st)), Er; done).
    split_and!; [by apply hinv_renumber| |apply Hr|apply Hr]. rewrite <- Hfd. unfold fds_of. cbn. rewrite E0, !fmap_app, !concat_app. cbn.
    solve_Permutation.
Qed.

(** A fresh smoltcp socket. *)
Lemma add_socket_ok st ts ty nb :
  sinv (st, ts) -> is_initialized st = true ->
  exists h st', socket_add ty st = Ret (h, st') /\ sinv (st', TNew (mkSocket 0 ty h nb [] 0 UNSPECIFIED false None) :: ts).
Proof using set_add_fresh.
  intros [Hn Hfd] Hin. unfold socket_add, net_set, is_initialized in *. cbn [fst] in Hn. destruct (NET st) as [[s d]|] eqn:EN; [|done]. cbn [obind].
  destruct (set_insert_ok s (match ty with UdpDgram => Udp udp_new | _ => Tcp (tcp_new 8192 8192) end)) as (h & -> & Hno).
  eexists _, _. split; [done|]. unfold sinv. cbn [fst NET with_set CLOSING_HANDLES]. rewrite EN. split; [|done].
  set (y := mkSocket 0 ty h nb [] 0 UNSPECIFIED false None). set (s' := <[h := _]> s).
  assert (sockets_of (with_set st s', TNew y :: ts) ≡ₚ [y] ++ sockets_of (st, ts)) as -> by (unfold sockets_of; cbn; solve_Permutation).
  rewrite <- (app_nil_r (CLOSING_HANDLES st)). apply (sock_hinv_step s s' [] [y]); try done.
  - cbn. apply NoDup_singleton.
  - cbn. intros h' ->%list_elem_of_singleton. by right.
  - intros h' _. by apply insert_kinds.
  - constructor; [|done]. unfold live, s'. cbn [sock_type y].
    destruct ty; [constructor; [|done]; eexists; apply lookup_insert_eq..|split; [eexists; apply lookup_insert_eq|done]].
Qed.

Lemma remove_ok l s :
  NoDup l -> Forall (is_tcp s) l ->
  exists s', remove_listeners l s = Ret s' /\ forall h, h ∉ l -> s' !! h = s !! h.
Proof using.
  clear. intros Hn. revert s. induction Hn as [|h l Hh Hn IH]; intros s Hl; cbn [remove_listeners]; [eauto|].
  apply Forall_cons in Hl as [Ht Hl]. destruct (get_tcp_ok s _ Ht) as [t ->]. cbn [obind].
  rewrite (set_remove_ok _ _ (Tcp (tcp_close t))) by apply lookup_insert_eq. cbn [obind].
  destruct (IH (delete h (put_tcp s h (tcp_close t)))) as (s' & -> & Hs').
  - rewrite Forall_forall in *. intros h' Hh'. assert (h' <> h) by (by intros ->). apply delete_kinds; [done|].
    apply put_tcp_kinds; [done|]. by apply Hl.
  - eexists. split; [done|]. intros h' Hh'. rewrite elem_of_cons in Hh'. rewrite Hs' by tauto.
    rewrite lookup_delete_ne by (intros ->; tauto). apply lookup_insert_ne. intros ->; tauto.
Qed.

Lemma sinv_task st t1 T t2 st' s d s' c' :
  sinv (st, t1 ++ T :: t2) -> task_fd T = [] -> NET st = Some (s, d) -> NET st' = Some (s', d) -> SOCKETS st' = SOCKETS st ->
  RECYCLED_FDS st' = RECYCLED_FDS st -> NEXT_SOCK_FD st' = NEXT_SOCK_FD st -> CLOSING_HANDLES st' = CLOSING_HANDLES st ++ c' ->
  (forall rest c, hinv s (task_socket T :: rest) c -> hinv s' rest (c ++ c')) -> sinv (st', t1 ++ t2).
Proof using.
  clear. intros [Hn Hfd] ET EN EN' E1 E2 E3 E4 Hstep. unfold sinv, sockets_of, fds_of in *. cbn in *. rewrite EN in Hn.
  rewrite EN', E1, E2, E3, E4. rewrite !fmap_app, !concat_app in *. cbn in *. rewrite ET in Hfd. split; [|done].
  apply Hstep. by rewrite app_assoc, <- Permutation_middle, <- app_assoc in Hn.
Qed.

Lemma sinv_task_live st ts i T : sinv (st, ts) -> ts !! i = Some T -> exists s d, NET st = Some (s, d) /\ live s (task_socket T) /\ NoDup (owns (task_socket T)).
Proof using.
  clear. intros [Hn _] (t1 & t2 & -> & _)%list_elem_of_split_length. cbn [fst] in Hn. unfold sockets_of in Hn. cbn in Hn. rewrite fmap_app in Hn. cbn in Hn.
  destruct (NET st) as [[s d]|]; [|destruct Hn as [Hn _]; by destruct (SOCKETS st), t1].
  exists s, d. split; [done|]. rewrite app_assoc, <- Permutation_middle in Hn. by apply hinv_head in Hn.
Qed.

(** Handles that go away with their owner. *)
Lemma hinv_drop s s' x rest c d :
  hinv s (x :: rest) c -> (forall h, h ∉ owns x -> (is_tcp s h -> is_tcp s' h) /\ (is_udp s h -> is_udp s' h)) ->
  (d = [] \/ d = [handle x]) -> Forall (is_tcp s') d -> hinv s' rest (c ++ d).
Proof using.
  clear. intros Hi Hk Hd Ht. apply (sock_hinv_step s s' [x] [] rest c d); try done.
  - destruct Hd as [->| ->]; [constructor|apply NoDup_singleton].
  - cbn. intros h Hh. left. destruct Hd as [->| ->]; [by apply not_elem_of_nil in Hh|]. apply list_elem_of_singleton in Hh as ->. left.
  - intros h Hh. apply Hk. cbn in Hh. by rewrite app_nil_r in Hh.
Qed.

Lemma dispose_ok st ts i x :
  sinv (st, ts) -> ts !! i = Some (TDispose x) -> exists st', close_net x st = Ret st' /\ sinv (st', delete i ts).
Proof using.
  clear. intros Hi Et. destruct (sinv_task_live _ _ _ _ Hi Et) as (s & d & EN & Hl & Hnd). cbn [task_socket] in *.
  apply list_elem_of_split_length in Et as (t1 & t2 & -> & ->). rewrite delete_middle. unfold close_net, net_set. rewrite EN. cbn [obind].
  destruct (sock_type x) eqn:Ety.
  - pose proof (tcp_alive _ _ Hl ltac:(by rewrite Ety)) as [Ht _]%Forall_cons. destruct (get_tcp_ok s _ Ht) as [t ->]. cbn [obind].
    eexists. split; [done|]. eapply (sinv_task st t1 _ t2 _ s d _ [handle x]); [done|done|done|cbn; by rewrite EN|done..|].
    intros rest c Hh. apply (hinv_drop s _ x); [done| |by right|].
    + intros h _. by apply put_tcp_kinds.
    + constructor; [|done]. by apply put_tcp_kinds.
  - destruct (remove_ok (handle x :: backlog x) s Hnd) as (s' & -> & Hs'); [by apply tcp_alive; [|rewrite Ety]|]. cbn [obind].
    eexists. split; [done|]. eapply (sinv_task st t1 _ t2 _ s d s' []); [done|done|done|cbn; by rewrite EN|done..|by rewrite app_nil_r|].
    intros rest c Hh. apply (hinv_drop s s' x); [done| |by left|done]. intros h Hh'. unfold is_tcp, is_udp. by rewrite Hs'.
  - pose proof (udp_alive _ _ Hl Ety) as Hu. destruct (get_udp_ok s _ Hu) as [u ->]. cbn [obind].
    rewrite (set_remove_ok _ _ (Udp (udp_close u))) by apply lookup_insert_eq. cbn [obind].
    eexists. split; [done|]. eapply (sinv_task st t1 _ t2 _ s d _ []); [done|done|done|cbn; by rewrite EN|done..|by rewrite app_nil_r|].
    intros rest c Hh. apply (hinv_drop s _ x); [done| |by left|done]. intros h Hh'.
    assert (h <> handle x) by (intros ->; apply Hh'; left). destruct (put_udp_kinds s (handle x) (udp_close u) Hu h).
    destruct (delete_kinds (put_udp s (handle x) (udp_close u)) (handle x) h); tauto.
Qed.

Lemma start_ok st ts net dns :
  sinv (st, ts) -> is_initialized st = false ->
  sinv (mkState (SOCKETS st) (NEXT_SOCK_FD st) (RECYCLED_FDS st) (CLOSING_HANDLES st) (NEXT_EPHEMERAL st) (Some net) dns, ts).
Proof using.
  clear. unfold is_initialized. intros [Hn Hfd] Hin. cbn [fst] in Hn. destruct (NET st); [done|]. destruct Hn as [Hn Hc].
  unfold sinv. cbn [fst NET CLOSING_HANDLES NEXT_SOCK_FD]. rewrite Hc. destruct net as [s d]. split; [|done].
  unfold sockets_of in *. cbn in *. rewrite Hn. split_and!; [apply NoDup_nil_2|done..].
Qed.

Lemma sexec_ok o c : sinv c -> numbered o c -> (forall n, tcp_only o = Some n -> not_udp c.1 n) -> exists c', sexec o c = Ret c' /\ sinv c'.
Proof using set_add_fresh.
  intros Hi Ho Hu. destruct c as [st ts]. destruct o; cbn [sexec]; cbn [tcp_only fst] in Hu.
  - destruct (is_initialized st) eqn:E; eexists; (split; [done|]); [done|by apply start_ok].
  - destruct (is_initialized st) eqn:E; eexists; (split; [done|]); [done|].
    unfold init_with_ena. destruct (set_insert _ _). by apply start_ok.
  - destruct (poll_ok pi st ts Hi) as (st' & -> & H1 & _). cbn [obind]. eauto.
  - destruct (socket_check st domain ty) as [|[t nb]] eqn:E; [eauto|].
    assert (is_initialized st = true) as Hin.
    { unfold socket_check in E. repeat (destruct (_ && _); [done|]). by destruct (is_initialized st). }
    destruct (add_socket_ok st ts t nb Hi Hin) as (h & st' & -> & H1). cbn [obind]. eauto.
  - destruct (accept_ok n port addr flags st ts Hi (Hu _ eq_refl)) as (r & st' & -> & H1). cbn [obind]. eauto.
  - destruct (ts !! i) as [[x|x|x|x]|] eqn:E; eauto. pose proof (number_ok st ts i x Hi E Ho) as H1.
    destruct (alloc_fd st) as [n st']. eauto.
  - destruct (ts !! i) as [[x|x|x|x]|] eqn:E; eauto. eexists. split; [done|]. by apply sock_push_ok.
  - destruct (close_take n st) as [[x st']|] eqn:E; [|eauto]. eexists. split; [done|]. by eapply close_take_ok.
  - destruct (ts !! i) as [[x|x|x|x]|] eqn:E; eauto. eexists. split; [done|]. by apply sock_recycle_ok.
  - destruct (ts !! i) as [[x|x|x|x]|] eqn:E; eauto. destruct (dispose_ok st ts i x Hi E) as (st' & -> & H1). cbn [obind]. eauto.
  - destruct (connect_ok n addr m st ts Hi) as (r & st' & -> & H1). cbn [obind]. eauto.
  - destruct (bind_ok n addr m st ts Hi) as (r & st' & -> & H1). cbn [obind]. eauto.
  - destruct (listen_ok n st ts Hi (Hu _ eq_refl)) as (r & st' & -> & H1). cbn [obind]. eauto.
  - destruct (send_ok n buf len dest pi m st ts Hi) as (r & st' & -> & H1). cbn [obind]. eauto.
  - destruct (recv_ok n buf len src addrlen pi m st ts Hi) as (r & m' & st' & -> & H1). cbn [obind]. eauto.
  - destruct (peer_ok n addr addrlen m st ts Hi (Hu _ eq_refl)) as (r & ->). cbn [obind]. eauto.
  - destruct (sockopt_ok n level opt optval optlen m st ts Hi) as (r & m' & st' & -> & H1). cbn [obind]. eauto.
  - destruct (ready_ok n st ts Hi) as (r & st' & -> & H1). cbn [obind]. eauto.
  - eexists. split; [done|]. by apply nonblock_ok.
Qed.

Lemma sexec_misuse o c : sinv c -> misuse o c -> sexec o c = Panic.
Proof using.
  clear. destruct c as [st ts]. intros Hi (n & i & x & Eo & Ef & Eu). cbn [fst] in Ef. destruct (sinv_find _ _ _ _ _ Hi Ef) as (s & d & EN & Hl).
  destruct (udp_alive _ _ Hl Eu) as [u Hs]. destruct o; try discriminate Eo; injection Eo as ->;
    cbn [sexec]; unfold accept_attempt, sys_listen, sys_getpeername, net_set, get_tcp; rewrite Ef, EN; cbn [obind handle set_type]; by rewrite Hs.
Qed.

(** A run goes through, or ends at the first misuse. *)
Lemma srun_ok os c : sinv c -> all_numbered os c ->
  match srun os c with
  | Ret c' => sinv c'
  | Panic => exists os1 o os2 c', os = os1 ++ o :: os2 /\ srun os1 c = Ret c' /\ misuse o c'
  | OutOfFuel => False
  end.
Proof using set_add_fresh.
  revert c. induction os as [|o os IH]; intros c Hi; cbn [srun]; [done|]. intros [Hn Hos]. destruct (misuse_or o c) as [Hm|Hu].
  - rewrite (sexec_misuse _ _ Hi Hm). cbn [obind]. by exists [], o, os, c.
  - destruct (sexec_ok o c Hi Hn Hu) as (c1 & E & H1). rewrite E in *. cbn [obind]. specialize (IH c1 H1 Hos).
    destruct (srun os c1) as [c'| |]; [done| |done]. destruct IH as (os1 & o' & os2 & c' & -> & Er & Hm). exists (o :: os1), o', os2, c'.
    split; [done|]. split; [|done]. cbn [srun]. by rewrite E.
Qed.

Lemma boot_sinv : sinv (boot_state, []).
Proof. split; [done|]. split; [done|]. by split. Qed.
End machine.

Section theorems.
Context `{Smoltcp} (set_add_fresh : forall l, set_add l ∉ l).


(** The first socket of a pool that has a connection. *)
Fixpoint first_ready (s : SocketSet) (l : list nat) : option nat :=
  match l with
  | [] => None
  | h :: l' => match s !! h with
               | Some (Tcp t) => if ready (tcp_state t) then Some h else first_ready s l'
               | _ => first_ready s l'
               end
  end.

Hypothesis new_closed : forall rx tx, tcp_state (tcp_new rx tx) = Closed.
Hypothesis listen_closed : forall e t, tcp_state t = Closed -> le_port e <> 0 -> (tcp_listen e t).1 = true /\ tcp_state (tcp_listen e t).2 = Listen.

Lemma install_listens s e :
  le_port e <> 0 -> exists h s', install_fresh_listener s e = (h, s') /\ s !! h = None /\
    (exists t, s' !! h = Some (Tcp t) /\ tcp_state t = Listen) /\ forall h', h' <> h -> s' !! h' = s !! h'.
Proof using All.
  intros Hp. unfold install_fresh_listener. destruct (set_insert_ok set_add_fresh s (Tcp (tcp_new LISTENER_BUF_SIZE LISTENER_TX_BUF_SIZE))) as (h & -> & Hn).
  rewrite lookup_insert_eq. eexists _, _. split_and!; [done|done| |].
  - eexists. split; [apply lookup_insert_eq|]. by apply listen_closed.
  - intros h' Hne. unfold put_tcp. by rewrite !lookup_insert_ne.
Qed.

Lemma scan_first e l s :
  le_port e <> 0 -> Forall (is_tcp s) l ->
  match first_ready s l with
  | None => scan_spares e l s = Ret (None, l, s)
  | Some h =>
      exists l1 h' l2 remote s', l = l1 ++ h :: l2 /\ scan_spares e l s = Ret (Some (h, remote), l1 ++ h' :: l2, s') /\
        s !! h' = None /\ (exists t, s' !! h' = Some (Tcp t) /\ tcp_state t = Listen) /\ (forall g, g <> h' -> s' !! g = s !! g) /\
        (exists t, s !! h = Some (Tcp t) /\ ready (tcp_state t) = true /\ remote = tcp_remote_endpoint t)
  end.
Proof using All.
  intros Hp Hl. induction Hl as [|h l [t Et] Hl IH]; cbn [first_ready scan_spares]; [done|]. unfold get_tcp. rewrite Et. cbn [obind].
  destruct (ready (tcp_state t)) eqn:Er.
  - destruct (install_listens s e Hp) as (h' & s' & -> & Hn & Ht & Hf). exists [], h', l, (tcp_remote_endpoint t), s'. split_and!; eauto.
  - destruct (first_ready s l) as [g|]; [|by rewrite IH].
    destruct IH as (l1 & h' & l2 & remote & s' & -> & -> & Hrest). exists (h :: l1), h', l2, remote, s'. done.
Qed.

(** C29: an attempt of [accept] on a listener takes the first socket of its pool
    that has a connection and puts a fresh socket in Listen state in its place, so
    that the pool keeps its size; it touches no other socket, and without a
    connection it changes nothing. *)
Theorem accept_takes_first st ts n i x s d port addr :
  sinv (st, ts) -> find_socket st n = Some (i, x) -> sock_type x = TcpListener -> NET st = Some (s, d) -> port <> 0 ->
  match first_ready s (owns x) with
  | None => accept_attempt n port addr st = Ret (None, st)
  | Some h =>
      exists l1 h' l2 h0 pool remote s' t, owns x = l1 ++ h :: l2 /\ h0 :: pool = l1 ++ h' :: l2 /\
        accept_attempt n port addr st = Ret (Some (h, remote), put_socket (with_set st s') i (set_backlog (set_handle x h0) pool)) /\
        s !! h' = None /\ s' !! h' = Some (Tcp t) /\ tcp_state t = Listen /\ (forall g, g <> h' -> s' !! g = s !! g)
  end.
Proof using All.
  intros Hi Ef Ety EN Hp. destruct (sinv_find _ _ _ _ _ Hi Ef) as (s1 & d1 & EN1 & Hl). rewrite EN in EN1. injection EN1 as <- <-.
  pose proof (tcp_alive _ _ Hl ltac:(by rewrite Ety)) as Hall. unfold accept_attempt, net_set. rewrite Ef, EN. cbn [obind].
  assert (le_port (listen_endpoint addr port) <> 0) as Hp' by (unfold listen_endpoint; by destruct (decide _)).
  pose proof (scan_first (listen_endpoint addr port) (owns x) s Hp' Hall) as Hscan. apply Forall_cons in Hall as [[t Et] Hb].
  unfold owns in *. cbn [first_ready scan_spares] in *. unfold get_tcp in *. rewrite Et in *. cbn [obind] in *. destruct (ready (tcp_state t)).
  - destruct (install_listens s (listen_endpoint addr port) Hp') as (h' & s' & -> & Hn & (t' & Ht & Hs) & Hf).
    exists [], h', (backlog x), h', (backlog x), (tcp_remote_endpoint t), s', t'. by destruct x.
  - pose proof (scan_first (listen_endpoint addr port) (backlog x) s Hp' Hb) as Hspares. destruct (first_ready s (backlog x)) as [h|].
    + destruct Hspares as (l1 & h' & l2 & remote & s' & Eb & -> & Hn & (t' & Ht & Hs) & Hf & _). cbn [obind].
      exists (handle x :: l1), h', l2, (handle x), (l1 ++ h' :: l2), remote, s', t'. rewrite Eb. by destruct x.
    + rewrite Hspares. cbn [obind]. do 2 f_equal. destruct (find_split _ _ _ _ Ef) as (l1 & l2 & E & <- & _).
      assert (set_backlog x (backlog x) = x) as -> by (by destruct x). unfold put_socket, with_set, with_sockets. cbn.
      rewrite EN, E, list_insert_id by (by apply list_lookup_middle). rewrite <- E, <- EN. by destruct st.
Qed.
(** ** Ephemeral ports *)

Fixpoint ports (n : nat) (st : state) : list Z :=
  match n with O => [] | S n' => let '(p, st) := alloc_ephemeral_port st in p :: ports n' st end.

Definition next_port (p : Z) : Z := if p =? 65535 then 49152 else p + 1.

Lemma alloc_next st :
  49152 <= NEXT_EPHEMERAL st <= 65535 ->
  alloc_ephemeral_port st = (NEXT_EPHEMERAL st, with_ephemeral st (next_port (NEXT_EPHEMERAL st))).
Proof using.
  clear. intros Hr. unfold alloc_ephemeral_port, next_port. rewrite (i32_small (_ - _)), (i32_small (_ + _)) by lia.
  rewrite Z.mod_small by lia. replace (49152 + (NEXT_EPHEMERAL st - 49152)) with (NEXT_EPHEMERAL st) by lia.
  assert (u16 (NEXT_EPHEMERAL st) = NEXT_EPHEMERAL st) as -> by (apply Z.mod_small; lia).
  destruct (Z.leb_spec 65535 (NEXT_EPHEMERAL st)), (Z.eqb_spec (NEXT_EPHEMERAL st) 65535); try lia; done.
Qed.

(** Where the allocator is after [k] ports. *)
Definition port_at (p k : Z) : Z := 49152 + (p - 49152 + k) mod 16384.

Lemma ports_at n st :
  49152 <= NEXT_EPHEMERAL st <= 65535 -> ports n st = (fun k => port_at (NEXT_EPHEMERAL st) (Z.of_nat k)) <$> seq 0 n.
Proof using.
  clear. revert st. induction n as [|n IH]; intros st Hr; [done|]. cbn [ports]. rewrite (alloc_next st Hr). cbn [seq fmap list_fmap].
  f_equal; [unfold port_at; rewrite Z.mod_small by lia; lia|].
  rewrite IH by (cbn; unfold next_port; destruct (_ =? _) eqn:E; bool_to_prop; lia).
  rewrite <- (fmap_S_seq 0 n), <- list_fmap_compose. apply list_fmap_ext. intros _ k _. cbn. unfold port_at, next_port.
  destruct (Z.eqb_spec (NEXT_EPHEMERAL st) 65535) as [->|]; Z.div_mod_to_equations; lia.
Qed.

(** The ephemeral ports are of the dynamic range, and none comes twice in
    any 16384 consecutive allocations. *)
Theorem ephemeral_ports st n :
  49152 <= NEXT_EPHEMERAL st <= 65535 -> Z.of_nat n <= 16384 ->
  NoDup (ports n st) /\ Forall (fun p => 49152 <= p <= 65535) (ports n st) /\
  49152 <= NEXT_EPHEMERAL (alloc_ephemeral_port st).2 <= 65535.
Proof using.
  clear. intros Hr Hn. rewrite ports_at by done. split_and!.
  - apply NoDup_fmap_2_strong; [|apply NoDup_seq]. intros a c [_ Ha]%elem_of_seq [_ Hc]%elem_of_seq. unfold port_at.
    intros E. cbn beta in E. Z.div_mod_to_equations. lia.
  - apply Forall_fmap, Forall_forall. intros k _. cbn. unfold port_at. pose proof (Z.mod_pos_bound (NEXT_EPHEMERAL st - 49152 + Z.of_nat k) 16384 ltac:(lia)). lia.
  - rewrite alloc_next by done. cbn. unfold next_port. destruct (_ =? _) eqn:E; bool_to_prop; lia.
  - rewrite alloc_next by done. cbn. unfold next_port. destruct (_ =? _) eqn:E; bool_to_prop; lia.
Qed.

(** ** Where the code goes wrong *)

(** [listen] or [getpeername] on a UDP socket panics the kernel: both take the
    handle for a TCP socket. *)
Theorem tcp_call_on_udp_panics st ts n i x addr addrlen m :
  sinv (st, ts) -> find_socket st n = Some (i, x) -> sock_type x = UdpDgram ->
  sys_listen n st = Panic /\ sys_getpeername n addr addrlen m st = Panic.
Proof using.
  clear. intros Hi Ef Ety. destruct (sinv_find _ _ _ _ _ Hi Ef) as (s & d & EN & Hl). destruct (udp_alive _ _ Hl Ety) as [u Hu].
  unfold sys_listen, sys_getpeername, net_set, get_tcp. rewrite Ef, EN. cbn [obind handle set_type]. by rewrite Hu.
Qed.

(** A thread that waits in [accept] goes on with its number alone.  When the
    listener was closed meanwhile and the number given to a connected stream, the
    attempt takes the stream's connection away and leaves a listener under its
    number; given to a UDP socket, it panics. *)
Theorem accept_trusts_number st ts n i x s d port addr :
  sinv (st, ts) -> find_socket st n = Some (i, x) -> NET st = Some (s, d) ->
  (sock_type x = UdpDgram -> accept_attempt n port addr st = Panic) /\
  (forall t, sock_type x = TcpStream -> s !! handle x = Some (Tcp t) -> tcp_state t = Established ->
     exists h' s', accept_attempt n port addr st =
       Ret (Some (handle x, tcp_remote_endpoint t), put_socket (with_set st s') i (set_handle x h')) /\ s !! h' = None).
Proof using set_add_fresh.
  intros Hi Ef EN. destruct (sinv_find _ _ _ _ _ Hi Ef) as (s1 & d1 & EN1 & Hl). rewrite EN in EN1. injection EN1 as <- <-.
  unfold accept_attempt, net_set, get_tcp. rewrite Ef, EN. cbn [obind]. split.
  - intros Ety. destruct (udp_alive _ _ Hl Ety) as [u ->]. done.
  - intros t _ -> Es. cbn [obind]. rewrite Es. cbn [ready bool_decide].
    destruct (install_ok set_add_fresh s (listen_endpoint addr port)) as (h & s' & -> & Hn & _). by eexists _, _.
Qed.

(** After the peer has closed its side (CloseWait) and everything was read,
    [recv] answers [EAGAIN] and not the end of the stream, and the readiness shows
    neither input nor hang-up; a reader that waits is never told. *)
Theorem no_end_of_stream st n i x s d t buf len src addrlen m :
  (forall t, tcp_is_active t = negb (bool_decide (tcp_state t = Closed) || bool_decide (tcp_state t = TimeWait) || bool_decide (tcp_state t = Listen))) ->
  find_socket st n = Some (i, x) -> sock_type x = TcpStream -> connecting x = false -> NET st = Some (s, d) -> CLOSING_HANDLES st = [] ->
  s !! handle x = Some (Tcp t) -> tcp_state t = CloseWait -> tcp_can_recv t = false ->
  sys_recvfrom n buf len src addrlen (mkPoll (fun _ t => t) (fun _ u => u) None) m st = Ret (-11, m, st) /\
  poll_socket n st = Ret (if tcp_can_send t then POLLOUT else 0, st).
Proof using.
  clear. intros Hact Ef Ety Ec EN Ecl Es Et Er.
  assert (poll (mkPoll (fun _ t => t) (fun _ u => u) None) st = Ret st) as Hpoll.
  { unfold poll. rewrite EN. unfold on_dhcp.
    assert (map_imap (fun h x => Some (Socket.moved (mkPoll (fun _ t => t) (fun _ u => u) None) h x)) s = s) as ->.
    { apply map_eq. intros h. rewrite map_lookup_imap. destruct (s !! h) as [[| |]|]; done. }
    clear Ef. destruct st; cbn in *; subst. by destruct d. }
  unfold sys_recvfrom, poll_socket. rewrite Hpoll. cbn [obind]. rewrite Ef, Ety, Ec. unfold net_set, get_tcp. rewrite EN. cbn [obind]. rewrite Es. cbn [obind].
  rewrite Er, Hact, Et. cbn. split; [done|]. by destruct (tcp_can_send t).
Qed.

End theorems.

(** ** A small smoltcp, and witnesses *)

Record toy_tcp := mkToy { tt_state : State; tt_rx : bytes; tt_tx : bytes; tt_cap : Z; tt_remote : option IpEndpoint }.

Definition toy_in (l : list State) (t : toy_tcp) : bool := bool_decide (tt_state t ∈ l).
Definition toy_to (s : State) (t : toy_tcp) : toy_tcp := mkToy s (tt_rx t) (tt_tx t) (tt_cap t) (tt_remote t).

Definition toy : Smoltcp := {|
  tcp := toy_tcp;
  udp := list (bytes * IpEndpoint);
  tcp_new _ tx := mkToy Closed [] [] tx None;
  tcp_state := tt_state;
  tcp_listen e t := if toy_in [Closed] t && negb (le_port e =? 0) then (true, toy_to Listen t) else (false, t);
  tcp_connect e _ t :=
    if toy_in [Closed] t then (true, mkToy SynSent (tt_rx t) (tt_tx t) (tt_cap t) (Some e)) else (false, t);
  tcp_can_send t := toy_in [Established; CloseWait] t && (zlen (tt_tx t) <? tt_cap t);
  tcp_can_recv t := negb (zlen (tt_rx t) =? 0);
  tcp_is_active t := negb (bool_decide (tt_state t = Closed) || bool_decide (tt_state t = TimeWait) || bool_decide (tt_state t = Listen));
  tcp_is_listening := toy_in [Listen];
  tcp_send_slice d t :=
    if toy_in [Established; CloseWait] t then
      let n := Z.min (zlen d) (sat_sub (tt_cap t) (zlen (tt_tx t))) in
      (Some n, mkToy (tt_state t) (tt_rx t) (tt_tx t ++ take (Z.to_nat n) d) (tt_cap t) (tt_remote t))
    else (None, t);
  tcp_recv_slice n t :=
    (Some (take (Z.to_nat n) (tt_rx t)), mkToy (tt_state t) (drop (Z.to_nat n) (tt_rx t)) (tt_tx t) (tt_cap t) (tt_remote t));
  tcp_remote_endpoint := tt_remote;
  tcp_close t :=
    match tt_state t with
    | Established | SynReceived => toy_to FinWait1 t
    | CloseWait => toy_to LastAck t
    | Listen | SynSent => toy_to Closed t
    | _ => t
    end;
  udp_new := [];
  udp_bind e u := (negb (le_port e =? 0), u);
  udp_can_send _ := true;
  udp_can_recv u := match u with [] => false | _ => true end;
  udp_send_slice _ _ u := (None, u);
  udp_recv u := match u with [] => (None, []) | d :: u' => (Some d, u') end;
  udp_close u := u;
  set_add l := S (max_list l)
|}.

Lemma toy_fresh l : S (max_list l) ∉ l.
Proof.
  intros Hin. assert (forall k, k ∈ l -> (k <= max_list l)%nat) as Hle.
  { clear. induction l as [|y l IH]; intros k; [by intros ?%not_elem_of_nil|]. cbn. intros [->|Hk]%elem_of_cons; [lia|]. specialize (IH k Hk). lia. }
  specialize (Hle _ Hin). lia.
Qed.

(** A [sockaddr_in] at 4096: port 8080, any address. *)
Definition toy_addr : mem := mem_write (fun _ => 0) 4096 [2; 0; 31; 144; 0; 0; 0; 0].
Definition toy_quiet : @poll_input toy := @mkPoll toy (fun _ t => t) (fun _ u => u) None.
(** A connection arrives at handle [h]. *)
Definition toy_syn (h : nat) : @poll_input toy :=
  @mkPoll toy (fun h' t => if (h' =? h)%nat then mkToy Established [71; 69; 84] [] (tt_cap t) (Some (mkEndpoint [10; 0; 2; 2] 50000)) else t)
    (fun _ u => u) None.
(** The peer closes its side. *)
Definition toy_fin (h : nat) : @poll_input toy :=
  @mkPoll toy (fun h' t => if (h' =? h)%nat then mkToy CloseWait [] (tt_tx t) (tt_cap t) (tt_remote t) else t) (fun _ u => u) None.

(** A server: a listener at 500 whose third socket gets a connection. *)
Definition toy_listen : list (@sop toy) :=
  [SVirtio; SSocket 2 1; SNumber 0; SPush 0; SBind 500 4096 toy_addr; SListen 500; SPoll (toy_syn 3)].
(** The connection is accepted as 501; then it is closed while a UDP socket is
    made, which takes its number before the handle is disposed of. *)
Definition toy_serve : list (@sop toy) :=
  toy_listen ++ [SAccept 500 0 8080 UNSPECIFIED; SNumber 0; SPush 0; SRecv 501 8192 100 0 0 toy_quiet toy_addr; SReady 501; SSocket 2 2;
    SClose 501; SRecycle 0; SNumber 1; SPush 1; SDispose 0; SPoll toy_quiet; SReady 501].

Definition toy_after (os : list (@sop toy)) : @state toy * list task :=
  match srun (H := toy) os (boot_state (H := toy), []) with Ret c => c | _ => (boot_state (H := toy), []) end.

Lemma toy_serve_ok : all_numbered (H := toy) toy_serve (boot_state (H := toy), []).
Proof. vm_compute. repeat split; done. Qed.

Lemma toy_sinv os : all_numbered (H := toy) os (boot_state (H := toy), []) -> sinv (H := toy) (toy_after os).
Proof.
  intros Ho. pose proof (srun_ok (H := toy) toy_fresh os _ (boot_sinv (H := toy)) Ho) as Hc. unfold toy_after.
  destruct (srun os _); [done|apply boot_sinv..].
Qed.

Lemma toy_listen_ok : all_numbered (H := toy) toy_listen (boot_state (H := toy), []).
Proof. vm_compute. repeat split; done. Qed.


Lemma toy_listens e (t : tcp (Smoltcp := toy)) :
  tcp_state t = Closed -> le_port e <> 0 -> (tcp_listen e t).1 = true /\ tcp_state (tcp_listen e t).2 = Listen.
Proof.
  intros Et Hp. change (tt_state t = Closed) in Et. cbn. unfold toy_in. rewrite bool_decide_eq_true_2 by (rewrite Et; left).
  by destruct (Z.eqb_spec (le_port e) 0).
Qed.

(** The state after [toy_listen], and what of it the witnesses need. *)
Definition toy_st : @state toy := (toy_after toy_listen).1.
Lemma toy_st_sinv : sinv (H := toy) (toy_st, (toy_after toy_listen).2).
Proof. unfold toy_st. rewrite <- surjective_pairing. apply toy_sinv, toy_listen_ok. Qed.

Definition toy_view (st : @state toy) (n : Z) : option (SockType * bool * option nat * option State) :=
  match find_socket (H := toy) st n, NET (H := toy) st with
  | Some (_, x), Some (s, _) =>
      Some (sock_type x, connecting x, first_ready (H := toy) s (owns x),
            match s !! handle x with Some (Tcp t) => Some (tt_state t) | _ => None end)
  | _, _ => None
  end.

Lemma toy_view_inv st n v : toy_view st n = Some v ->
  exists i x s d, find_socket (H := toy) st n = Some (i, x) /\ NET (H := toy) st = Some (s, d) /\
    sock_type x = v.1.1.1 /\ connecting x = v.1.1.2 /\ first_ready (H := toy) s (owns x) = v.1.2 /\
    match s !! handle x with Some (Tcp t) => Some (tt_state t) | _ => None end = v.2.
Proof.
  unfold toy_view. destruct (find_socket st n) as [[i x]|]; [|done]. destruct (NET st) as [[s d]|]; [|done]. intros [= <-].
  by exists i, x, s, d.
Qed.

Lemma accept_takes_first_witness :
  exists i x s d, find_socket (H := toy) toy_st 500 = Some (i, x) /\ NET (H := toy) toy_st = Some (s, d) /\
    exists l1 h' l2 h0 pool remote s' t, owns x = l1 ++ 3%nat :: l2 /\ h0 :: pool = l1 ++ h' :: l2 /\
      accept_attempt (H := toy) 500 8080 UNSPECIFIED toy_st =
        Ret (Some (3%nat, remote), put_socket (H := toy) (with_set (H := toy) toy_st s') i (set_backlog (set_handle x h0) pool)) /\
      s !! h' = None /\ s' !! h' = Some (Tcp t) /\ tt_state t = Listen /\ (forall g, g <> h' -> s' !! g = s !! g).
Proof.
  destruct (toy_view_inv toy_st 500 (TcpListener, false, Some 3%nat, Some Listen) ltac:(by vm_compute)) as (i & x & s & d & Ef & EN & Ety & _ & Er & _).
  exists i, x, s, d. split; [done|]. split; [done|].
  pose proof (accept_takes_first (H := toy) toy_fresh (fun _ _ => eq_refl)
toy_listens toy_st _ 500 i x s d 8080 UNSPECIFIED toy_st_sinv Ef Ety EN ltac:(done)) as Hacc.
  rewrite Er in Hacc. exact Hacc.
Defined.

Lemma ephemeral_ports_witness :
  NoDup (ports (H := toy) 3 (boot_state (H := toy))) /\ Forall (fun p => 49152 <= p <= 65535) (ports (H := toy) 3 (boot_state (H := toy))) /\
  49152 <= NEXT_EPHEMERAL (H := toy) (alloc_ephemeral_port (H := toy) (boot_state (H := toy))).2 <= 65535.
Proof. apply (ephemeral_ports (H := toy) (boot_state (H := toy)) 3); by vm_compute. Defined.

Definition toy_dns : list (@sop toy) := [SVirtio; SSocket 2 2; SNumber 0; SPush 0].

Lemma tcp_call_on_udp_panics_witness :
  sys_listen (H := toy) 500 (toy_after toy_dns).1 = Panic /\ sys_getpeername (H := toy) 500 0 0 toy_addr (toy_after toy_dns).1 = Panic.
Proof.
  destruct (toy_view_inv (toy_after toy_dns).1 500 (UdpDgram, false, None, None) ltac:(by vm_compute)) as (i & x & s & d & Ef & EN & Ety & _).
  apply (tcp_call_on_udp_panics (H := toy) (toy_after toy_dns).1 (toy_after toy_dns).2 500 i x); [|done..].
  rewrite <- surjective_pairing. apply toy_sinv. vm_compute. repeat split; done.
Defined.

(** The listener 500 is closed while a thread waits in [accept] on it, and the
    number goes to another connection. *)
Definition toy_reuse : list (@sop toy) :=
  toy_listen ++ [SAccept 500 0 8080 UNSPECIFIED; SClose 500; SRecycle 0; SNumber 1; SPush 1].

Lemma accept_trusts_number_witness :
  exists i x s d t h' s', find_socket (H := toy) (toy_after toy_reuse).1 500 = Some (i, x) /\ NET (H := toy) (toy_after toy_reuse).1 = Some (s, d) /\
    sock_type x = TcpStream /\ s !! handle x = Some (Tcp t) /\
    accept_attempt (H := toy) 500 8080 UNSPECIFIED (toy_after toy_reuse).1 =
      Ret (Some (handle x, tt_remote t), put_socket (H := toy) (with_set (H := toy) (toy_after toy_reuse).1 s') i (set_handle x h')).
Proof.
  destruct (toy_view_inv (toy_after toy_reuse).1 500 (TcpStream, false, Some 3%nat, Some Established) ltac:(by vm_compute))
    as (i & x & s & d & Ef & EN & Ety & _ & _ & Es). cbn [fst snd] in *.
  destruct (s !! handle x) as [[t|u|]|] eqn:Eh; [|discriminate Es..]. injection Es as Es.
  assert (sinv (H := toy) ((toy_after toy_reuse).1, (toy_after toy_reuse).2)) as Hi.
  { rewrite <- surjective_pairing. apply toy_sinv. vm_compute. repeat split; done. }
  destruct (proj2 (accept_trusts_number (H := toy) toy_fresh _ _ 500 i x s d 8080 UNSPECIFIED Hi Ef EN) t Ety Eh Es) as (h' & s' & Ha & _).
  exists i, x, s, d, t, h', s'. split_and!; assumption.
Defined.

Definition toy_eof : list (@sop toy) :=
  toy_listen ++ [SAccept 500 0 8080 UNSPECIFIED; SNumber 0; SPush 0; SPoll (toy_fin 3)].

Lemma no_end_of_stream_witness :
  sys_recvfrom (H := toy) 501 8192 100 0 0 toy_quiet toy_addr (toy_after toy_eof).1 = Ret (-11, toy_addr, (toy_after toy_eof).1) /\
  poll_socket (H := toy) 501 (toy_after toy_eof).1 = Ret (POLLOUT, (toy_after toy_eof).1).
Proof.
  destruct (toy_view_inv (toy_after toy_eof).1 501 (TcpStream, false, Some 3%nat, Some CloseWait) ltac:(by vm_compute))
    as (i & x & s & d & Ef & EN & Ety & Ec & _ & Es). cbn [fst snd] in *.
  assert (match find_socket (H := toy) (toy_after toy_eof).1 501, NET (H := toy) (toy_after toy_eof).1 with
    | Some (_, x), Some (s, _) => match s !! handle x with
                                  | Some (Tcp t) => tcp_can_recv (Smoltcp := toy) t = false /\ tcp_can_send (Smoltcp := toy) t = true
                                  | _ => False end
    | _, _ => False end) as Hd by (clear; vm_compute; split; reflexivity).
  rewrite Ef, EN in Hd. destruct (s !! handle x) as [[t|u|]|] eqn:Eh; [|discriminate Es..]. destruct Hd as [Hr Hw]. injection Es as Es.
  pose proof (no_end_of_stream (H := toy) (toy_after toy_eof).1 501 i x s d t 8192 100 0 0 toy_addr (fun _ => eq_refl) Ef Ety Ec EN
    ltac:(clear; vm_compute; reflexivity) Eh Es Hr) as Hn. rewrite Hw in Hn. exact Hn.
Defined.
