(* ===== verification/Rng.v ===== *)
(** * Random numbers: [src/src/rng.rs]

    A ChaCha20 generator (of the crate rand_chacha: the class [ChaCha20]) seeded
    from the processor.  The processor's answers are a stream of carry flags and
    words, read at a cursor. *)

From S2P Require Import Prelude.

Class ChaCha20 := {
  chacha : Type;
  from_seed : bytes -> chacha;
  fill_bytes : nat -> chacha -> bytes * chacha
}.

Record HwRng := mkHw { rdrand : bool; rdseed : bool }.

Definition RESEED_BYTES : Z := 2 ^ 20.

Section rng.
Context `{ChaCha20} (step : nat -> bool * Z).

(** [CURSOR] counts the instructions executed. *)
Record state := mkState { HW : HwRng; CSPRNG : option chacha; SINCE_RESEED : Z; CURSOR : nat }.

Definition boot_state : state := mkState (mkHw false false) None 0 0.

(** At most [n] executions of one instruction, until its carry flag is set. *)
Fixpoint attempt (n : nat) (cursor : nat) : option Z * nat :=
  match n with
  | O => (None, cursor)
  | S n' => let '(cf, v) := step cursor in if cf : bool then (Some v, S cursor) else attempt n' (S cursor)
  end.

Definition hw_word (hw : HwRng) (cursor : nat) : option Z * nat :=
  let '(r, cursor) := if rdseed hw then attempt 1024 cursor else (None, cursor) in
  match r with
  | Some v => (Some v, cursor)
  | None => if rdrand hw then attempt 64 cursor else (None, cursor)
  end.

(** [expect] panics when the hardware fails. *)
Fixpoint hw_words (n : nat) (hw : HwRng) (cursor : nat) : outcome (list Z * nat) :=
  match n with
  | O => Ret ([], cursor)
  | S n' =>
      let '(w, cursor) := hw_word hw cursor in
      match w with
      | None => Panic
      | Some v => do! (ws, cursor) <- hw_words n' hw cursor; Ret (v :: ws, cursor)
      end
  end.

(** Eight words folded to four. *)
Definition fold_seed (words : list Z) : bytes :=
  concat (le_bytes 8 <$> zip_with Z.lxor (take 4 words) (drop 4 words)).

Definition gather_seed (hw : HwRng) (cursor : nat) : outcome (bytes * nat) :=
  do! (words, cursor) <- hw_words 8 hw cursor;
  Ret (fold_seed words, cursor).

(** [detected] is what CPUID answers. *)
Definition init (detected : HwRng) (st : state) : outcome state :=
  if negb (rdrand detected) && negb (rdseed detected) then Panic
  else
    do! (seed, cursor) <- gather_seed detected (CURSOR st);
    Ret (mkState detected (Some (from_seed seed)) 0 cursor).

Definition fill (len : nat) (st : state) : outcome (bytes * state) :=
  match CSPRNG st with
  | None => Panic
  | Some rng =>
      let '(out, rng) := fill_bytes len rng in
      let total := u64 (u64 (SINCE_RESEED st + Z.of_nat len)) in
      if RESEED_BYTES <=? total then
        do! (newseed, cursor) <- gather_seed (HW st) (CURSOR st);
        let '(cur, _) := fill_bytes 32 rng in
        Ret (out, mkState (HW st) (Some (from_seed (zip_with Z.lxor newseed cur))) 0 cursor)
      else Ret (out, mkState (HW st) (Some rng) total (CURSOR st))
  end.

Definition fill_raw (buf len : Z) (m : mem) (st : state) : outcome (mem * state) :=
  do! (out, st) <- fill (Z.to_nat len) st;
  Ret (mem_write m buf out, st).

(** ** Theorems *)

(** A word is one the processor gave with the carry flag set. *)
Lemma attempt_ok n cursor v cursor' :
  attempt n cursor = (Some v, cursor') -> exists i, step i = (true, v) /\ (cursor <= i < cursor')%nat /\ (cursor' <= cursor + n)%nat.
Proof.
  revert cursor. induction n as [|n IH]; intros cursor; cbn [attempt]; [done|]. destruct (step cursor) as [[|] w] eqn:E.
  - intros [= <- <-]. exists cursor. split; [done|lia].
  - intros (i & Hi & Hc & Hn)%IH. exists i. split; [done|lia].
Qed.

Lemma attempt_none n cursor cursor' : attempt n cursor = (None, cursor') -> cursor' = (cursor + n)%nat.
Proof.
  revert cursor. induction n as [|n IH]; intros cursor; cbn [attempt]; [intros [= <-]; lia|].
  destruct (step cursor) as [[|] w]; [done|]. intros ->%IH. lia.
Qed.

Lemma hw_word_ok hw cursor v cursor' :
  hw_word hw cursor = (Some v, cursor') -> exists i, step i = (true, v) /\ (cursor <= i < cursor')%nat.
Proof.
  unfold hw_word. destruct (rdseed hw).
  - destruct (attempt 1024 cursor) as [[w|] c] eqn:E.
    + intros [= <- <-]. apply attempt_ok in E as (i & Hi & Hc & _). eauto.
    + apply attempt_none in E. destruct (rdrand hw); [|done]. intros (i & Hi & Hc & _)%attempt_ok. exists i. split; [done|]. lia.
  - destruct (rdrand hw); [|done]. intros (i & Hi & Hc & _)%attempt_ok. eauto.
Qed.

(** [ws] are words of the processor, from strictly increasing executions. *)
Fixpoint fresh_words (from : nat) (ws : list Z) (to : nat) : Prop :=
  match ws with
  | [] => from = to
  | v :: ws' => exists i next, step i = (true, v) /\ (from <= i < next)%nat /\ fresh_words next ws' to
  end.

Lemma hw_words_ok n hw cursor ws cursor' :
  hw_words n hw cursor = Ret (ws, cursor') -> length ws = n /\ fresh_words cursor ws cursor'.
Proof.
  revert cursor ws. induction n as [|n IH]; intros cursor ws; cbn [hw_words]; [by intros [= <- <-]|].
  destruct (hw_word hw cursor) as [[v|] c] eqn:E; [|done]. destruct (hw_words n hw c) as [[ws' c']| |] eqn:E'; try done. cbn [obind].
  intros [= <- <-]. destruct (IH _ _ E') as [Hl Hf]. apply hw_word_ok in E as (i & Hi & Hc). cbn. split; [by rewrite Hl|]. by exists i, c.
Qed.

Lemma fresh_words_le from ws to : fresh_words from ws to -> (from + length ws <= to)%nat.
Proof.
  revert from. induction ws as [|v ws IH]; intros from; cbn; [lia|]. intros (i & next & _ & Hc & Hf%IH). lia.
Qed.

(** The seeds the generator had, the newest first: each the fold of eight fresh
    words, mixed (after the first) with the generator's own output. *)
Inductive seeded : nat -> nat -> bytes -> Prop :=
| seeded_init from ws to : fresh_words from ws to -> length ws = 8%nat -> seeded from to (fold_seed ws)
| seeded_again from ws to rng :
    fresh_words from ws to -> length ws = 8%nat -> seeded from to (zip_with Z.lxor (fold_seed ws) (fill_bytes 32 rng).1).

(** The generator is some output away from a seed made after instruction [from]. *)
Definition rng_inv (st : state) : Prop :=
  0 <= SINCE_RESEED st < RESEED_BYTES /\ (exists rng, CSPRNG st = Some rng).

(** The generator serves no byte before it is seeded and refuses to start
    without a hardware source; every seed is made of eight new words, each given
    by the processor with its carry flag set, mixed on a reseed with the old
    generator's output; and fewer than 2^20 bytes are served since the last seed
    whenever a request starts, so that a seed serves under 1 MiB plus one request. *)
Theorem rng_reseeds detected st st' len out st'' :
  (CSPRNG st = None -> fill len st = Panic) /\
  (rdrand detected = false -> rdseed detected = false -> init detected st = Panic) /\
  (init detected st = Ret st' ->
     exists seed, CSPRNG st' = Some (from_seed seed) /\ seeded (CURSOR st) (CURSOR st') seed /\ rng_inv st') /\
  (rng_inv st -> Z.of_nat len < 2 ^ 63 -> fill len st = Ret (out, st'') ->
     rng_inv st'' /\
     ((CURSOR st'' = CURSOR st /\ SINCE_RESEED st'' = SINCE_RESEED st + Z.of_nat len) \/
      SINCE_RESEED st'' = 0 /\ exists seed, CSPRNG st'' = Some (from_seed seed) /\ seeded (CURSOR st) (CURSOR st'') seed)).
Proof.
  split_and!.
  - intros E. unfold fill. by rewrite E.
  - intros E1 E2. unfold init. by rewrite E1, E2.
  - unfold init, gather_seed. destruct (_ && _); [done|]. destruct (hw_words 8 detected (CURSOR st)) as [[ws c]| |] eqn:E; try done.
    cbn [obind]. intros [= <-]. apply hw_words_ok in E as [Hl Hf]. exists (fold_seed ws). split_and!; [done|by apply seeded_init|].
    split; [|eauto]. cbn. unfold RESEED_BYTES. lia.
  - intros [Hr [rng E]] Hlen. unfold fill, RESEED_BYTES in *. rewrite E. destruct (fill_bytes len rng) as [out' rng'].
    rewrite (u64_small (SINCE_RESEED st + _)), u64_small by lia. destruct (2 ^ 20 <=? _) eqn:El; bool_to_prop.
    + unfold gather_seed. destruct (hw_words 8 (HW st) (CURSOR st)) as [[ws c]| |] eqn:Ew; try done. cbn [obind].
      destruct (fill_bytes 32 rng') as [cur rng2] eqn:Ec. intros [= <- <-]. apply hw_words_ok in Ew as [Hl Hf]. split.
      * split; [|eauto]. cbn. unfold RESEED_BYTES. lia.
      * right. split; [done|]. eexists. split; [done|]. cbn. pose proof (seeded_again (CURSOR st) ws c rng' Hf Hl) as Hs. by rewrite Ec in Hs.
    + intros [= <- <-]. split; [split; [cbn; unfold RESEED_BYTES; lia|eauto]|]. by left.
Qed.
End rng.
