(* ===== verification/Syscall.v ===== *)
(** * System calls: [src/src/syscall.rs]

    The calls on descriptors and paths, and the dispatcher: which component a
    call goes to, and what it does over the components' states.  The calls that
    make and block threads are the scheduler's ([Sched]).

    What the machine gives, the time stamp counter, the network, the serial line
    and the hardware random numbers, are streams read at a cursor; [others] is
    what the other threads do while this one has yielded. *)

From S2P Require Import Prelude.
From S2P Require Import Dirent.
From S2P Require Import Tmpfs.
From S2P Require Import Vfs.
From S2P Require Import Pipe.
From S2P Require Import Mmap.
From S2P Require Import Rtc.
From S2P Require Import Clock.
From S2P Require Import Socket.
From S2P Require Import Rng.

Definition FD_DEVNULL : Z := 100.
Definition FD_SYNTH_ZERO : Z := 101.
Definition FD_SYNTH_DIR : Z := 102.
Definition FD_DEV_RANDOM : Z := 103.
Definition FD_RESOLV_CONF : Z := 104.
Definition FD_EPOLL : Z := 50.
Definition FD_TIMER : Z := 51.

(** ** The epoll table *)

Definition EPOLL_MAX : nat := 1024.
Record EpollEntry := mkEpoll { e_fd : Z; e_data : Z; e_events : Z }.
Definition no_entry : EpollEntry := mkEpoll (-1) 0 0.
Definition entry_is (fd : Z) (e : EpollEntry) : bool := e_fd e =? fd.

Definition epoll_drop_fd (fd : Z) (l : list EpollEntry) : list EpollEntry :=
  map (fun e => if entry_is fd e then no_entry else e) l.

(** ADD and MOD: the entry of the descriptor, else the first empty one; a full
    table drops the registration. *)
Definition epoll_set (fd data events : Z) (l : list EpollEntry) : list EpollEntry :=
  match position (entry_is fd) l with
  | Some i => <[i := mkEpoll fd data events]> l
  | None =>
      match position (entry_is (-1)) l with
      | Some i => <[i := mkEpoll fd data events]> l
      | None => l
      end
  end.

Definition EPOLLIN : Z := 1.
Definition EPOLLOUT : Z := 4.
Definition EPOLLERR : Z := 8.
Definition EPOLLHUP : Z := 16.

(** ** The kernel's state *)

Section kernel.
Context `{Smoltcp} `{ChaCha20}.

Record kernel := mkKernel {
  k_tmpfs : Tmpfs.state;
  k_vfs : Vfs.state;
  k_pipes : Pipe.state;
  k_socks : Socket.state;
  k_epoll : list EpollEntry;
  k_mmap : Mmap.state;
  k_clock : clock;
  k_rng : Rng.state;
  RESOLV : bytes * Z;
  uart_in : bytes;       (** received on the serial line and not read *)
  uart_out : bytes;      (** sent on the serial line by the program *)
  QUIET : bool;
  FUTEX_BLOCKING : bool;
  k_mem : mem;
  tick : nat             (** the cursor in the streams *)
}.

Definition set_tmpfs (k : kernel) v := mkKernel v (k_vfs k) (k_pipes k) (k_socks k) (k_epoll k) (k_mmap k) (k_clock k) (k_rng k) (RESOLV k) (uart_in k) (uart_out k) (QUIET k) (FUTEX_BLOCKING k) (k_mem k) (tick k).
Definition set_vfs (k : kernel) v := mkKernel (k_tmpfs k) v (k_pipes k) (k_socks k) (k_epoll k) (k_mmap k) (k_clock k) (k_rng k) (RESOLV k) (uart_in k) (uart_out k) (QUIET k) (FUTEX_BLOCKING k) (k_mem k) (tick k).
Definition set_pipes (k : kernel) v := mkKernel (k_tmpfs k) (k_vfs k) v (k_socks k) (k_epoll k) (k_mmap k) (k_clock k) (k_rng k) (RESOLV k) (uart_in k) (uart_out k) (QUIET k) (FUTEX_BLOCKING k) (k_mem k) (tick k).
Definition set_socks (k : kernel) v := mkKernel (k_tmpfs k) (k_vfs k) (k_pipes k) v (k_epoll k) (k_mmap k) (k_clock k) (k_rng k) (RESOLV k) (uart_in k) (uart_out k) (QUIET k) (FUTEX_BLOCKING k) (k_mem k) (tick k).
Definition set_epoll (k : kernel) v := mkKernel (k_tmpfs k) (k_vfs k) (k_pipes k) (k_socks k) v (k_mmap k) (k_clock k) (k_rng k) (RESOLV k) (uart_in k) (uart_out k) (QUIET k) (FUTEX_BLOCKING k) (k_mem k) (tick k).
Definition set_mmap (k : kernel) v := mkKernel (k_tmpfs k) (k_vfs k) (k_pipes k) (k_socks k) (k_epoll k) v (k_clock k) (k_rng k) (RESOLV k) (uart_in k) (uart_out k) (QUIET k) (FUTEX_BLOCKING k) (k_mem k) (tick k).
Definition set_clock (k : kernel) v := mkKernel (k_tmpfs k) (k_vfs k) (k_pipes k) (k_socks k) (k_epoll k) (k_mmap k) v (k_rng k) (RESOLV k) (uart_in k) (uart_out k) (QUIET k) (FUTEX_BLOCKING k) (k_mem k) (tick k).
Definition set_rng (k : kernel) v := mkKernel (k_tmpfs k) (k_vfs k) (k_pipes k) (k_socks k) (k_epoll k) (k_mmap k) (k_clock k) v (RESOLV k) (uart_in k) (uart_out k) (QUIET k) (FUTEX_BLOCKING k) (k_mem k) (tick k).
Definition set_resolv (k : kernel) v := mkKernel (k_tmpfs k) (k_vfs k) (k_pipes k) (k_socks k) (k_epoll k) (k_mmap k) (k_clock k) (k_rng k) v (uart_in k) (uart_out k) (QUIET k) (FUTEX_BLOCKING k) (k_mem k) (tick k).
Definition set_uart_in (k : kernel) v := mkKernel (k_tmpfs k) (k_vfs k) (k_pipes k) (k_socks k) (k_epoll k) (k_mmap k) (k_clock k) (k_rng k) (RESOLV k) v (uart_out k) (QUIET k) (FUTEX_BLOCKING k) (k_mem k) (tick k).
Definition set_uart_out (k : kernel) v := mkKernel (k_tmpfs k) (k_vfs k) (k_pipes k) (k_socks k) (k_epoll k) (k_mmap k) (k_clock k) (k_rng k) (RESOLV k) (uart_in k) v (QUIET k) (FUTEX_BLOCKING k) (k_mem k) (tick k).
Definition set_ready (k : kernel) := mkKernel (k_tmpfs k) (k_vfs k) (k_pipes k) (k_socks k) (k_epoll k) (k_mmap k) (k_clock k) (k_rng k) (RESOLV k) (uart_in k) (uart_out k) true true (k_mem k) (tick k).
Definition set_mem (k : kernel) v := mkKernel (k_tmpfs k) (k_vfs k) (k_pipes k) (k_socks k) (k_epoll k) (k_mmap k) (k_clock k) (k_rng k) (RESOLV k) (uart_in k) (uart_out k) (QUIET k) (FUTEX_BLOCKING k) v (tick k).
Definition next_tick (k : kernel) := mkKernel (k_tmpfs k) (k_vfs k) (k_pipes k) (k_socks k) (k_epoll k) (k_mmap k) (k_clock k) (k_rng k) (RESOLV k) (uart_in k) (uart_out k) (QUIET k) (FUTEX_BLOCKING k) (k_mem k) (S (tick k)).

End kernel.

(** ** The machine

    [cpio_data] is the archive, which nothing writes to; the streams [tsc],
    [net_event], [typed] and [hw_step] are the time stamp counter, what happens on
    the network, what arrives on the serial line and the processor's random
    words; [others] is what the other threads do during a yield; [thread_call] are
    the calls of the scheduler (exit_group, exit, clone, futex, gettid, arch_prctl);
    [num_cpus] is what it reports, [kbuf] a buffer on the kernel stack. *)
Class Machine `{Smoltcp} `{ChaCha20} := {
  cpio_data : bytes;
  tsc : nat -> reading;
  net_event : nat -> poll_input;
  typed : nat -> bytes;
  hw_step : nat -> bool * Z;
  others : nat -> kernel -> kernel;
  thread_call : Z -> Z -> Z -> Z -> Z -> Z -> kernel -> outcome (Z * kernel);
  num_cpus : Z;
  kbuf : Z
}.

Section calls.
Context `{Machine}.

(** A value of the clock, with what reading it records. *)
Definition with_clock {A} (f : reading -> clock -> A * clock) (k : kernel) : A * kernel :=
  let '(v, c) := f (tsc (tick k)) (k_clock k) in (v, set_clock (next_tick k) c).
Definition now (k : kernel) : Z * kernel := with_clock monotonic_ns k.

Definition net_poll (k : kernel) : outcome kernel :=
  do! s <- Socket.poll (net_event (tick k)) (k_socks k);
  Ret (set_socks (next_tick k) s).

Definition yield_current (k : kernel) : kernel :=
  others (tick k) (set_uart_in (next_tick k) (uart_in k ++ typed (tick k))).

(** ** Reading and writing *)

(** [s.windows(MARK.len()).any(|w| w == MARK)]. *)
Fixpoint has_window (mark s : bytes) : bool :=
  match s with
  | [] => bytes_eqb mark []
  | _ :: s' => starts_with s mark || has_window mark s'
  end.
Definition MARK : bytes := b "serial_shell ready".

Definition sys_write (fd buf count : Z) (k : kernel) : outcome (Z * kernel) :=
  if Tmpfs.is_tmpfs_fd (k_tmpfs k) fd then
    let '(r, s) := Tmpfs.write (k_tmpfs k) (k_mem k) fd buf count in Ret (r, set_tmpfs k s)
  else if (fd =? 1) || (fd =? 2) then
    let s := mem_read (k_mem k) buf (Z.to_nat count) in
    let k := set_uart_out k (uart_out k ++ s) in
    let k := if negb (QUIET k) && (zlen MARK <=? count) then if has_window MARK s then set_ready k else k else k in
    Ret (i64 count, k)
  else if fd =? FD_DEVNULL then Ret (i64 count, k)
  else if Pipe.is_pipe_fd (k_pipes k) fd then
    let '(r, s) := Pipe.write (k_pipes k) (k_mem k) fd buf count in Ret (r, set_pipes k s)
  else if Socket.is_socket_fd (k_socks k) fd then
    do! (r, s) <- Socket.sys_sendto fd buf count 0 (net_event (tick k)) (k_mem k) (k_socks k);
    Ret (r, set_socks (next_tick k) s)
  else Ret (-9, k).

(** What a typed byte is echoed as, and what the reader gets. *)
Definition echo (c : Z) : bytes :=
  if (c =? 13) || (c =? 10) then [13; 10] else if (c =? 127) || (c =? 8) then [8; 32; 8] else [c].
Definition typed_as (c : Z) : Z := if (c =? 13) || (c =? 10) then 10 else if (c =? 127) || (c =? 8) then 127 else c.

(** The loop of [sys_read_stdin]: it yields until the line has input; [fuel]
    bounds the yields. *)
Fixpoint sys_read_stdin (fuel : nat) (buf count : Z) (k : kernel) : outcome (Z * kernel) :=
  if count =? 0 then Ret (0, k)
  else
    match uart_in k with
    | [] => match fuel with O => OutOfFuel | S fuel' => sys_read_stdin fuel' buf count (yield_current k) end
    | _ :: _ =>
        let got := take (Z.to_nat count) (uart_in k) in
        let k := set_uart_in k (drop (Z.to_nat count) (uart_in k)) in
        let k := set_uart_out k (uart_out k ++ concat (echo <$> got)) in
        Ret (zlen got, set_mem k (mem_write (k_mem k) buf (typed_as <$> got)))
    end.

Definition sys_read (fuel : nat) (fd buf count : Z) (k : kernel) : outcome (Z * kernel) :=
  if fd =? 0 then sys_read_stdin fuel buf count k
  else if Tmpfs.is_tmpfs_fd (k_tmpfs k) fd then
    let '(r, s, m) := Tmpfs.read (k_tmpfs k) (k_mem k) fd buf count in Ret (r, set_mem (set_tmpfs k s) m)
  else if Vfs.is_vfs_fd (k_vfs k) fd then
    do! (r, s, m) <- Vfs.read (k_vfs k) cpio_data (k_mem k) fd buf count; Ret (r, set_mem (set_vfs k s) m)
  else if Pipe.is_pipe_fd (k_pipes k) fd then
    let '(r, s, m) := Pipe.read (k_pipes k) (k_mem k) fd buf count in
    let k := set_mem (set_pipes k s) m in
    Ret (r, if r =? Pipe.EINTR then yield_current k else k)
  else if fd =? FD_DEV_RANDOM then
    if count =? 0 then Ret (0, k)
    else
      do! (m, s) <- Rng.fill_raw hw_step buf count (k_mem k) (k_rng k);
      Ret (i64 count, set_mem (set_rng k s) m)
  else if fd =? FD_RESOLV_CONF then
    let '(content, pos) := RESOLV k in
    let remaining := sat_sub (zlen content) pos in
    if remaining =? 0 then Ret (0, k)
    else
      let n := Z.min remaining count in
      Ret (n, set_resolv (set_mem k (mem_write (k_mem k) buf (take (Z.to_nat n) (drop (Z.to_nat pos) content)))) (content, pos + n))
  else if fd =? FD_SYNTH_ZERO then
    if 2 <=? count then Ret (2, set_mem k (mem_write (k_mem k) buf [48; 10])) else Ret (0, k)
  else if fd =? FD_TIMER then
    let '(n, k) := with_clock timerfd_consume k in
    if n =? 0 then Ret (-11, k)
    else Ret (8, if 8 <=? count then set_mem k (store64 (k_mem k) buf n) else k)
  else if Socket.is_socket_fd (k_socks k) fd then
    do! (r, m, s) <- Socket.sys_recvfrom fd buf count 0 0 (net_event (tick k)) (k_mem k) (k_socks k);
    Ret (r, set_mem (set_socks (next_tick k) s) m)
  else Ret (0, k).

(** [struct iovec] [i] of the array at [iov]. *)
Definition iov_base (m : mem) (iov : Z) (i : nat) : Z := load64 m (iov + 16 * Z.of_nat i).
Definition iov_len (m : mem) (iov : Z) (i : nat) : Z := load64 m (iov + 16 * Z.of_nat i + 8).

(** The loop of [writev], [n] vectors from number [i]. *)
Fixpoint writev_loop (n : nat) (i : nat) (fd iov total : Z) (k : kernel) : outcome (Z * kernel) :=
  match n with
  | O => Ret (total, k)
  | S n' =>
      let len := iov_len (k_mem k) iov i in
      if len =? 0 then writev_loop n' (S i) fd iov total k
      else
        do! (written, k) <- sys_write fd (iov_base (k_mem k) iov i) len k;
        if written <? 0 then Ret (if 0 <? total then total else written, k)
        else
          let total := i64 (total + written) in
          if u64 written <? len then Ret (total, k) else writev_loop n' (S i) fd iov total k
  end.
Definition sys_writev (fd iov iovcnt : Z) (k : kernel) : outcome (Z * kernel) :=
  writev_loop (Z.to_nat iovcnt) 0 fd iov 0 k.

Fixpoint readv_loop (fuel : nat) (n : nat) (i : nat) (fd iov total : Z) (k : kernel) : outcome (Z * kernel) :=
  match n with
  | O => Ret (total, k)
  | S n' =>
      let len := iov_len (k_mem k) iov i in
      do! (got, k) <- sys_read fuel fd (iov_base (k_mem k) iov i) len k;
      if got <? 0 then Ret (if total =? 0 then got else total, k)
      else
        let total := i64 (total + got) in
        if u64 got <? len then Ret (total, k) else readv_loop fuel n' (S i) fd iov total k
  end.
Definition sys_readv (fuel : nat) (fd iov iovcnt : Z) (k : kernel) : outcome (Z * kernel) :=
  readv_loop fuel (Z.to_nat iovcnt) 0 fd iov 0 k.

(** The loop of [sendfile]: chunks through the kernel's buffer; an error
    of the first chunk, or what was transferred and the new offset. *)
Definition CHUNK : Z := 4096.
Fixpoint sendfile_loop (fuel : nat) (out_fd in_fd off total remaining : Z) (k : kernel) :
    outcome ((Z + Z * Z) * kernel) :=
  match fuel with
  | O => OutOfFuel
  | S fuel' =>
      if remaining <=? 0 then Ret (inr (total, off), k)
      else
        let want := Z.min remaining CHUNK in
        do! (nread, m) <- Vfs.pread (k_vfs k) cpio_data (k_mem k) in_fd kbuf want off;
        let k := set_mem k m in
        if nread <? 0 then Ret (if 0 <? total then inr (total, off) else inl nread, k)
        else if nread =? 0 then Ret (inr (total, off), k)
        else
          do! (nsent, s) <- Socket.sys_sendto out_fd kbuf nread 0 (net_event (tick k)) (k_mem k) (k_socks k);
          let k := set_socks (next_tick k) s in
          if nsent <? 0 then Ret (if 0 <? total then inr (total, off) else inl nsent, k)
          else
            let total := u64 (total + nsent) in
            let off := u64 (off + nsent) in
            let remaining := u64 (remaining - nsent) in
            if nsent <? nread then Ret (inr (total, off), k)
            else sendfile_loop fuel' out_fd in_fd off total remaining k
  end.

Definition sys_sendfile (out_fd in_fd offset_ptr count : Z) (k : kernel) : outcome (Z * kernel) :=
  if negb (Socket.is_socket_fd (k_socks k) out_fd) then Ret (-22, k)
  else if negb (Vfs.is_vfs_fd (k_vfs k) in_fd) then Ret (-22, k)
  else
    let '(p, s) := if offset_ptr =? 0 then Vfs.lseek (k_vfs k) in_fd 0 1 else (load64 (k_mem k) offset_ptr, k_vfs k) in
    let k := set_vfs k s in
    if (offset_ptr =? 0) && (p <? 0) then Ret (p, k)
    else
      do! (r, k) <- sendfile_loop (S (S (Z.to_nat count))) out_fd in_fd p 0 count k;
      match r with
      | inl e => Ret (e, k)
      | inr (total, off) =>
          let k := if offset_ptr =? 0 then set_vfs k (Vfs.lseek (k_vfs k) in_fd (i64 off) 0).2
                   else set_mem k (store64 (k_mem k) offset_ptr off) in
          Ret (i64 total, k)
      end.

(** ** Paths *)

(** [copy_path], and the same loop written out in [open], [stat] and [readlink]:
    up to 255 bytes before the NUL. *)
Fixpoint path_from (n : nat) (m : mem) (ptr : Z) : bytes :=
  match n with
  | O => []
  | S n' => if m ptr =? 0 then [] else m ptr :: path_from n' m (ptr + 1)
  end.
Definition copy_path (m : mem) (ptr : Z) : bytes := path_from 255 m ptr.

(** [l.ends_with(p)] of a slice. *)
Definition ends_with (l p : bytes) : bool := starts_with (rev l) (rev p).

Definition synth_file (path : bytes) : bool :=
  starts_with path (b "/sys/devices/system/cpu/cpu")
  && (ends_with path (b "/topology/physical_package_id") || ends_with path (b "/topology/core_id")
      || ends_with path (b "/topology/thread_siblings_list") || ends_with path (b "/topology/core_siblings_list")).
Definition synth_dir (path : bytes) : bool :=
  bytes_eqb path (b "/sys/devices/system/node") || bytes_eqb path (b "/sys/devices/system/cpu")
  || starts_with path (b "/sys/devices/system/node/node") || starts_with path (b "/sys/devices/system/cpu/cpu").

Definition open_path (path : bytes) (flags mode : Z) (k : kernel) : outcome (Z * kernel) :=
  if bytes_eqb path (b "/dev/null") then Ret (FD_DEVNULL, k)
  else if bytes_eqb path (b "/dev/urandom") || bytes_eqb path (b "/dev/random") then Ret (FD_DEV_RANDOM, k)
  else if bytes_eqb path (b "/tyn/resolv.conf") then
    Ret (FD_RESOLV_CONF, set_resolv k (Socket.resolv_conf (k_socks k), 0))
  else if synth_file path then Ret (FD_SYNTH_ZERO, k)
  else if synth_dir path then Ret (FD_SYNTH_DIR, k)
  else if Tmpfs.owns_path path then
    let '(r, s) := Tmpfs.open (k_tmpfs k) path flags mode in Ret (r, set_tmpfs k s)
  else
    do! (fd, s) <- Vfs.open (k_vfs k) cpio_data path;
    let k := set_vfs k s in
    if 0 <=? fd then Ret (fd, k)
    else
      do! dir <- Vfs.is_dir_prefix cpio_data path;
      if dir : bool then let '(r, s) := Vfs.open_dir (k_vfs k) path in Ret (r, set_vfs k s)
      else Ret (-2, k).

Definition SYS_OPENAT : Z := 257.
Definition sys_open (a0 a1 a2 a3 nr : Z) (k : kernel) : outcome (Z * kernel) :=
  let '(ptr, flags, mode) := if nr =? SYS_OPENAT then (a1, a2, a3) else (a0, a1, a2) in
  open_path (copy_path (k_mem k) ptr) flags mode k.

Definition sys_getdents64 (fd buf count : Z) (k : kernel) : outcome (Z * kernel) :=
  if fd =? FD_SYNTH_DIR then Ret (0, k)
  else if Tmpfs.is_tmpfs_fd (k_tmpfs k) fd then
    let '(r, s, m) := Tmpfs.getdents64 (k_tmpfs k) (k_mem k) fd buf count in Ret (r, set_mem (set_tmpfs k s) m)
  else do! (r, s, m) <- Vfs.getdents64 (k_vfs k) cpio_data (k_mem k) fd buf count; Ret (r, set_mem (set_vfs k s) m).

(** The fields of [struct stat] that are set. *)
Definition S_IFREG_644 : Z := 33188.
Definition S_IFDIR_755 : Z := 16877.
Definition S_IFCHR_666 : Z := 8630.
Definition st_mode (m : mem) (buf v : Z) : mem := store32 m (buf + 24) v.
Definition st_size (m : mem) (buf v : Z) : mem := store64 m (buf + 48) v.
Definition st_blksize (m : mem) (buf : Z) : mem := store64 m (buf + 56) 4096.

Definition stat_path (path : bytes) (buf : Z) (k : kernel) : outcome (Z * kernel) :=
  if Tmpfs.owns_path path then
    let '(r, m) := Tmpfs.stat (k_tmpfs k) (k_mem k) path buf in Ret (r, set_mem k m)
  else
    let put (f : mem -> mem) (k : kernel) := if buf =? 0 then k else set_mem k (f (k_mem k)) in
    let k := put (fun m => mem_zero m buf 144) k in
    if bytes_eqb path (b "/dev/urandom") || bytes_eqb path (b "/dev/random") || bytes_eqb path (b "/dev/null") then
      Ret (0, put (fun m => st_mode m buf S_IFCHR_666) k)
    else if bytes_eqb path (b "/tyn/resolv.conf") then
      Ret (0, put (fun m => st_size (st_mode m buf S_IFREG_644) buf (zlen (Socket.resolv_conf (k_socks k)))) k)
    else
      do! (fd, s) <- Vfs.open (k_vfs k) cpio_data path;
      let k := set_vfs k s in
      if 0 <=? fd then
        let k := put (fun m =>
          let m := st_mode m buf S_IFREG_644 in
          let m := match Vfs.fstat_size (k_vfs k) (i32 fd) with Some size => st_size m buf size | None => m end in
          st_blksize m buf) k in
        Ret (0, set_vfs k (Vfs.close (k_vfs k) (i32 fd)).2)
      else
        do! dir <- Vfs.is_dir_prefix cpio_data path;
        if (dir : bool) || synth_dir path then Ret (0, put (fun m => st_mode m buf S_IFDIR_755) k)
        else Ret (-2, k).

Definition sys_stat (path_ptr buf : Z) (k : kernel) : outcome (Z * kernel) :=
  stat_path (copy_path (k_mem k) path_ptr) buf k.

Definition sys_fstat (fd buf : Z) (k : kernel) : outcome (Z * kernel) :=
  if Tmpfs.is_tmpfs_fd (k_tmpfs k) fd then
    let '(r, m) := Tmpfs.fstat (k_tmpfs k) (k_mem k) fd buf in Ret (r, set_mem k m)
  else if buf =? 0 then Ret (0, k)
  else
    let m := mem_zero (k_mem k) buf 144 in
    let m :=
      if (fd =? FD_SYNTH_DIR) || Vfs.is_dir_fd (k_vfs k) fd then st_mode m buf S_IFDIR_755
      else if (fd =? FD_DEV_RANDOM) || (fd =? FD_DEVNULL) then st_mode m buf S_IFCHR_666
      else if fd =? FD_RESOLV_CONF then st_size (st_mode m buf S_IFREG_644) buf (zlen (RESOLV k).1)
      else
        let m := st_mode m buf S_IFREG_644 in
        match Vfs.fstat_size (k_vfs k) fd with Some size => st_size m buf size | None => m end in
    Ret (0, set_mem k (st_blksize m buf)).

Definition sys_newfstatat (dirfd path_ptr buf : Z) (k : kernel) : outcome (Z * kernel) :=
  if negb (path_ptr =? 0) && negb (k_mem k path_ptr =? 0) then sys_stat path_ptr buf k else sys_fstat dirfd buf k.

Definition EXE : bytes := b "/otp/erts-15.2.7/bin/beam.smp".
Definition sys_readlink (path buf bufsiz : Z) (k : kernel) : Z * kernel :=
  if bytes_eqb (copy_path (k_mem k) path) (b "/proc/self/exe") then
    let len := Z.min (zlen EXE) bufsiz in
    (len, set_mem k (mem_write (k_mem k) buf (take (Z.to_nat len) EXE)))
  else (-22, k).

(** The arms that take one path: tmpfs paths go to [f], others fail with [e]. *)
Definition tmpfs_path (ptr e : Z) (f : bytes -> Tmpfs.state -> outcome (Z * Tmpfs.state)) (k : kernel) : outcome (Z * kernel) :=
  let path := copy_path (k_mem k) ptr in
  if Tmpfs.owns_path path then do! (r, s) <- f path (k_tmpfs k); Ret (r, set_tmpfs k s) else Ret (e, k).

Definition sys_access (ptr : Z) : kernel -> outcome (Z * kernel) :=
  tmpfs_path ptr (-2) (fun p s => Ret (Tmpfs.access s p, s)).
Definition sys_truncate (ptr len : Z) : kernel -> outcome (Z * kernel) :=
  tmpfs_path ptr (-13) (fun p s => Tmpfs.truncate s p len).
Definition sys_mkdir (ptr mode : Z) : kernel -> outcome (Z * kernel) :=
  tmpfs_path ptr (-13) (fun p s => Ret (Tmpfs.mkdir s p mode)).
Definition sys_rmdir (ptr : Z) : kernel -> outcome (Z * kernel) :=
  tmpfs_path ptr (-13) (fun p s => Ret (Tmpfs.rmdir s p)).
Definition sys_unlink (ptr : Z) : kernel -> outcome (Z * kernel) :=
  tmpfs_path ptr (-13) (fun p s => Ret (Tmpfs.unlink s p)).
Definition sys_unlinkat (ptr flags : Z) : kernel -> outcome (Z * kernel) :=
  tmpfs_path ptr (-13) (fun p s => Ret (if negb (Z.land flags 512 =? 0) then Tmpfs.rmdir s p else Tmpfs.unlink s p)).

Definition sys_rename (old_ptr new_ptr : Z) (k : kernel) : outcome (Z * kernel) :=
  let old := copy_path (k_mem k) old_ptr in
  let new := copy_path (k_mem k) new_ptr in
  if Tmpfs.owns_path old && Tmpfs.owns_path new then
    let '(r, s) := Tmpfs.rename (k_tmpfs k) old new in Ret (r, set_tmpfs k s)
  else Ret (-18, k).

(** ** Descriptors *)

Definition sys_close (fd : Z) (k : kernel) : outcome (Z * kernel) :=
  let k := set_epoll k (epoll_drop_fd fd (k_epoll k)) in
  let k := set_tmpfs k (Tmpfs.close (k_tmpfs k) fd).2 in
  let k := set_vfs k (Vfs.close (k_vfs k) fd).2 in
  let k := set_vfs k (Vfs.close_dir (k_vfs k) fd).2 in
  let k := set_pipes k (Pipe.close (k_pipes k) fd) in
  do! s <- Socket.close fd (k_socks k);
  do! k <- net_poll (set_socks k s);
  Ret (0, k).

Definition sys_lseek (fd offset whence : Z) (k : kernel) : Z * kernel :=
  if Tmpfs.is_tmpfs_fd (k_tmpfs k) fd then
    let '(r, s) := Tmpfs.lseek (k_tmpfs k) fd offset whence in (r, set_tmpfs k s)
  else if Vfs.is_vfs_fd (k_vfs k) fd then
    let '(r, s) := Vfs.lseek (k_vfs k) fd offset whence in (r, set_vfs k s)
  else (0, k).

Definition sys_pread64 (fd buf count offset : Z) (k : kernel) : outcome (Z * kernel) :=
  if Tmpfs.is_tmpfs_fd (k_tmpfs k) fd then
    let '(r, m) := Tmpfs.pread (k_tmpfs k) (k_mem k) fd buf count offset in Ret (r, set_mem k m)
  else if Vfs.is_vfs_fd (k_vfs k) fd then
    do! (r, m) <- Vfs.pread (k_vfs k) cpio_data (k_mem k) fd buf count offset; Ret (r, set_mem k m)
  else Ret (0, k).

Definition sys_pwrite64 (fd buf count offset : Z) (k : kernel) : Z * kernel :=
  if Tmpfs.is_tmpfs_fd (k_tmpfs k) fd then
    let '(r, s) := Tmpfs.pwrite (k_tmpfs k) (k_mem k) fd buf count offset in (r, set_tmpfs k s)
  else (-9, k).

Definition sys_dup (fd : Z) (k : kernel) : Z * kernel :=
  if Vfs.is_vfs_fd (k_vfs k) fd then let '(r, s) := Vfs.dup (k_vfs k) fd in (r, set_vfs k s) else (-9, k).

Definition sys_ftruncate (fd len : Z) (k : kernel) : outcome (Z * kernel) :=
  do! (r, s) <- Tmpfs.ftruncate (k_tmpfs k) fd len; Ret (r, set_tmpfs k s).

Definition sys_pipe (fds : Z) (k : kernel) : Z * kernel :=
  if fds =? 0 then (-22, k)
  else
    let '((r, w), s) := Pipe.create (k_pipes k) in
    (0, set_mem (set_pipes k s) (store32 (store32 (k_mem k) fds r) (fds + 4) w)).

Definition sys_fcntl (fd cmd arg : Z) (k : kernel) : Z * kernel :=
  if cmd =? 4 then
    let nb := negb (Z.land arg 2048 =? 0) in
    if Pipe.is_pipe_fd (k_pipes k) fd then (0, set_pipes k (Pipe.set_nonblock (k_pipes k) fd nb))
    else if Socket.is_socket_fd (k_socks k) fd then (0, set_socks k (Socket.set_nonblock (k_socks k) fd nb))
    else (0, k)
  else (0, k).

Definition sys_getrandom (buf len : Z) (k : kernel) : outcome (Z * kernel) :=
  if (buf =? 0) || (len =? 0) then Ret (0, k)
  else
    do! (m, s) <- Rng.fill_raw hw_step buf len (k_mem k) (k_rng k);
    Ret (i64 len, set_mem (set_rng k s) m).

Definition sys_getcwd (buf size : Z) (k : kernel) : Z * kernel :=
  if 2 <=? size then (1, set_mem k (mem_write (k_mem k) buf [SLASH; 0])) else (-34, k).

Definition sys_uname (buf : Z) (k : kernel) : Z * kernel :=
  let fields := [b "Linux"; b "tyn.local"; b "6.1.0-tyn"; b "Tyn Kernel"; b "x86_64"] in
  let put m '(i, f) := mem_write m (buf + 65 * Z.of_nat i) f in
  (0, set_mem k (foldl put (mem_zero (k_mem k) buf 325) (zip (seq 0 5) fields))).

(** [sendmsg]: the lengths are added up; a pipe gets that many bytes from the
    base of the first vector. *)
Fixpoint iov_total (n i : nat) (iov : Z) (m : mem) (total : Z) : Z :=
  match n with O => total | S n' => iov_total n' (S i) iov m (i64 (total + i64 (iov_len m iov i))) end.
Definition sys_sendmsg (fd msg : Z) (k : kernel) : Z * kernel :=
  let iov := load64 (k_mem k) (msg + 16) in
  let cnt := load64 (k_mem k) (msg + 24) in
  let total := iov_total (Z.to_nat cnt) 0 iov (k_mem k) 0 in
  if Pipe.is_pipe_fd (k_pipes k) fd then
    (total, set_pipes k (Pipe.write (k_pipes k) (k_mem k) fd (iov_base (k_mem k) iov 0) (u64 total)).2)
  else (total, k).

Definition sys_recvmsg (fd msg : Z) (k : kernel) : outcome (Z * kernel) :=
  if Socket.is_socket_fd (k_socks k) fd then
    let iov := load64 (k_mem k) (msg + 16) in
    let cnt := load64 (k_mem k) (msg + 24) in
    if 0 <? cnt then
      do! (r, m, s) <- Socket.sys_recvfrom fd (iov_base (k_mem k) iov 0) (iov_len (k_mem k) iov 0) 0 0 (net_event (tick k))
                         (k_mem k) (k_socks k);
      Ret (r, set_mem (set_socks (next_tick k) s) m)
    else Ret (0, k)
  else Ret (-11, k).

(** ** epoll, ppoll, select *)

Definition sys_epoll_ctl (op fd event_ptr : Z) (k : kernel) : Z * kernel :=
  if op =? 2 then (0, set_epoll k (epoll_drop_fd fd (k_epoll k)))
  else
    let events := if event_ptr =? 0 then 0 else load32 (k_mem k) event_ptr in
    let dat := if event_ptr =? 0 then 0 else load64 (k_mem k) (event_ptr + 4) in
    (0, set_epoll k (epoll_set fd dat events (k_epoll k))).

(** The events of one entry that are ready. *)
Definition epoll_ready (e : EpollEntry) (k : kernel) : outcome (Z * kernel) :=
  if e_fd e =? FD_TIMER then
    let '(r, k) := with_clock timerfd_ready k in Ret (if r : bool then EPOLLIN else 0, k)
  else if e_fd e =? 0 then Ret (match uart_in k with [] => 0 | _ => EPOLLIN end, k)
  else if Pipe.is_pipe_fd (k_pipes k) (e_fd e) then Ret (if Pipe.has_data (k_pipes k) (e_fd e) then EPOLLIN else 0, k)
  else if Socket.is_socket_fd (k_socks k) (e_fd e) then
    do! (sev, s) <- Socket.poll_socket (e_fd e) (k_socks k);
    Ret (Z.land sev (Z.lor (e_events e) (Z.lor EPOLLERR EPOLLHUP)), set_socks k s)
  else Ret (0, k).

(** The walk over the table. *)
Fixpoint epoll_scan (l : list EpollEntry) (events_ptr max count : Z) (k : kernel) : outcome (Z * kernel) :=
  match l with
  | [] => Ret (count, k)
  | e :: l' =>
      if max <=? count then Ret (count, k)
      else if e_fd e <? 0 then epoll_scan l' events_ptr max count k
      else
        do! (revents, k) <- epoll_ready e k;
        if revents =? 0 then epoll_scan l' events_ptr max count k
        else
          let ev := events_ptr + 12 * count in
          let m := store64 (store32 (k_mem k) ev revents) (ev + 4) (e_data e) in
          epoll_scan l' events_ptr max (count + 1) (set_mem k m)
  end.

(** [fuel] bounds the scans. *)
Fixpoint epoll_loop (fuel : nat) (events_ptr max : Z) (deadline : option Z) (k : kernel) : outcome (Z * kernel) :=
  match fuel with
  | O => OutOfFuel
  | S fuel' =>
      do! k <- net_poll k;
      do! (count, k) <- epoll_scan (k_epoll k) events_ptr max 0 k;
      if 0 <? count then Ret (count, k)
      else
        match deadline with
        | None => epoll_loop fuel' events_ptr max deadline (yield_current k)
        | Some d =>
            if d =? 0 then Ret (0, k)
            else
              let '(t, k) := now k in
              if d <=? t then Ret (0, k) else epoll_loop fuel' events_ptr max deadline (yield_current k)
        end
  end.

Definition sys_epoll_wait (fuel : nat) (events_ptr maxevents timeout_ms : Z) (k : kernel) : outcome (Z * kernel) :=
  let '(deadline, k) :=
    if timeout_ms =? -1 then (None, k)
    else if 0 <? timeout_ms then let '(t, k) := now k in (Some (sat_add t (timeout_ms * 1000000)), k)
    else (Some 0, k) in
  epoll_loop fuel events_ptr (i64 maxevents) deadline k.

(** The descriptors of [ppoll]: eight bytes each. *)
Definition ppoll_ready (fd events : Z) (k : kernel) : outcome (Z * kernel) :=
  let wants_in := negb (Z.land events POLLIN =? 0) in
  if fd =? 0 then Ret (if wants_in && (match uart_in k with [] => false | _ => true end) then POLLIN else 0, k)
  else if fd =? FD_TIMER then
    if wants_in then let '(r, k) := with_clock timerfd_ready k in Ret (if r : bool then POLLIN else 0, k) else Ret (0, k)
  else if Pipe.is_pipe_fd (k_pipes k) fd then Ret (if wants_in && Pipe.has_data (k_pipes k) fd then POLLIN else 0, k)
  else if Socket.is_socket_fd (k_socks k) fd then
    do! (sev, s) <- Socket.poll_socket fd (k_socks k);
    Ret (Z.land sev events, set_socks k s)
  else Ret (0, k).

Fixpoint ppoll_scan (n i : nat) (fds ready : Z) (k : kernel) : outcome (Z * kernel) :=
  match n with
  | O => Ret (ready, k)
  | S n' =>
      let pfd := fds + 8 * Z.of_nat i in
      let fd := i32 (load32 (k_mem k) pfd) in
      let events := load16 (k_mem k) (pfd + 4) in
      let k := set_mem k (store16 (k_mem k) (pfd + 6) 0) in
      if events =? 0 then ppoll_scan n' (S i) fds ready k
      else
        do! (revents, k) <- ppoll_ready fd events k;
        if revents =? 0 then ppoll_scan n' (S i) fds ready k
        else ppoll_scan n' (S i) fds (ready + 1) (set_mem k (store16 (k_mem k) (pfd + 6) revents))
  end.

Fixpoint ppoll_loop (fuel : nat) (fds : Z) (n : nat) (target : option Z) (k : kernel) : outcome (Z * kernel) :=
  match fuel with
  | O => OutOfFuel
  | S fuel' =>
      do! k <- net_poll (yield_current k);
      do! (r, k) <- ppoll_scan n 0 fds 0 k;
      if 0 <? r then Ret (r, k)
      else
        match target with
        | None => ppoll_loop fuel' fds n target k
        | Some d => let '(t, k) := now k in if d <=? t then Ret (0, k) else ppoll_loop fuel' fds n target k
        end
  end.

(** A timeout in seconds and nanoseconds at [ptr], as a deadline. *)
Definition deadline_at (ptr : Z) (scale : Z) (k : kernel) : option Z * kernel :=
  if ptr =? 0 then (None, k)
  else
    let ns := sat_add (sat_mul (load64 (k_mem k) ptr) 1000000000) (sat_mul (load64 (k_mem k) (ptr + 8)) scale) in
    let '(t, k) := now k in (Some (sat_add t ns), k).

Definition sys_ppoll (fuel : nat) (fds nfds timeout_ptr : Z) (k : kernel) : outcome (Z * kernel) :=
  do! k <- net_poll k;
  let '(target, k) := deadline_at timeout_ptr 1 k in
  let k := yield_current k in
  do! (r, k) <- ppoll_scan (Z.to_nat nfds) 0 fds 0 k;
  if 0 <? r then Ret (r, k) else ppoll_loop fuel fds (Z.to_nat nfds) target k.

Fixpoint select_loop (fuel : nat) (target : option Z) (k : kernel) : outcome kernel :=
  match fuel with
  | O => OutOfFuel
  | S fuel' =>
      let k := yield_current k in
      match target with
      | None => Ret k
      | Some d => let '(t, k) := now k in if d <=? t then Ret k else select_loop fuel' target k
      end
  end.

Definition sys_select (fuel : nat) (nfds timeout_ptr : Z) (k : kernel) : outcome (Z * kernel) :=
  do! k <- if 0 <? nfds then net_poll k else Ret k;
  let '(target, k) := deadline_at timeout_ptr 1000 k in
  do! k <- select_loop fuel target k;
  Ret (0, k).

(** ** Time, memory, limits *)

Definition sys_gettimeofday (tv : Z) (k : kernel) : Z * kernel :=
  if tv =? 0 then (0, k)
  else
    let '(ns, k) := with_clock realtime_ns k in
    (0, set_mem k (store64 (store64 (k_mem k) tv (ns / 1000000000)) (tv + 8) (ns / 1000 mod 1000000))).

Definition sys_getrusage (usage : Z) (k : kernel) : Z * kernel :=
  if usage =? 0 then (0, k)
  else
    let '(ns, k) := now k in
    (0, set_mem k (store64 (store64 (mem_zero (k_mem k) usage 144) usage (ns / 1000000000)) (usage + 8) (ns / 1000 mod 1000000))).

Definition sys_sched_getaffinity (len mask : Z) (k : kernel) : Z * kernel :=
  if 8 <=? len then
    let ncpus := Z.min num_cpus 64 in
    let mask_val := if 64 <=? ncpus then U64_MAX else 2 ^ ncpus - 1 in
    (8, set_mem k (store64 (mem_zero (k_mem k) mask len) mask mask_val))
  else (-22, k).

Definition sys_clock_getres (res : Z) (k : kernel) : Z * kernel :=
  (0, if res =? 0 then k else set_mem k (store64 (store64 (k_mem k) res 0) (res + 8) 1)).

Definition sys_prlimit64 (old : Z) (k : kernel) : Z * kernel :=
  (0, if old =? 0 then k else set_mem k (store64 (store64 (k_mem k) old 8388608) (old + 8) U64_MAX)).

(** ** The dispatcher *)

(** Calls that only answer a constant. *)
Definition constant_call (nr : Z) : option Z :=
  if existsb (Z.eqb nr) [10; 28; 273; 102; 107; 104; 108; 13; 14; 131; 270; 200; 234; 203; 157; 24; 48] then Some 0
  else if existsb (Z.eqb nr) [218; 39] then Some 1
  else if existsb (Z.eqb nr) [334; 319; 435] then Some (-38)
  else if existsb (Z.eqb nr) [291; 213] then Some FD_EPOLL
  else if nr =? 283 then Some FD_TIMER
  else if nr =? 57 then Some 42
  else if nr =? 16 then Some (-25)
  else None.

(** The loop of [sys_accept]: a poll and an attempt; a blocking call that found no
    connection lets the other threads run, then tries again on whatever the number
    names by then.  [fuel] bounds the attempts. *)
Fixpoint sys_accept_loop (fuel : nat) (n port : Z) (addr : Ipv4Address) (nb : bool) (k : kernel) :
    outcome (option (nat * option IpEndpoint) * kernel) :=
  match fuel with
  | O => OutOfFuel
  | S fuel' =>
      do! k <- net_poll k;
      do! (r, s) <- Socket.accept_attempt n port addr (k_socks k);
      let k := set_socks k s in
      match r with
      | Some c => Ret (Some c, k)
      | None => if nb then Ret (None, k) else sys_accept_loop fuel' n port addr nb (yield_current k)
      end
  end.

Definition sys_accept (fuel : nat) (n addr_ptr addrlen_ptr flags : Z) (k : kernel) : outcome (Z * kernel) :=
  match Socket.accept_snapshot n flags (k_socks k) with
  | inl e => Ret (e, k)
  | inr (nb, port, addr) =>
      do! (r, k) <- sys_accept_loop fuel n port addr nb k;
      match r with
      | None => Ret (-11, k)
      | Some (h, remote) =>
          let '(new_fd, s) := Socket.alloc_fd (k_socks k) in
          let k := set_socks k (push_socket s (accepted new_fd h flags port addr)) in
          let k := match remote with
                   | Some e => if addr_ptr =? 0 then k
                               else let k := set_mem k (put_peer (k_mem k) addr_ptr e) in
                                    if addrlen_ptr =? 0 then k else set_mem k (store32 (k_mem k) addrlen_ptr 16)
                   | None => k
                   end in
          Ret (new_fd, k)
      end
  end.

Definition socket_call (fuel : nat) (nr a0 a1 a2 a3 a4 a5 : Z) (k : kernel) : outcome (Z * kernel) :=
  let pi := net_event (tick k) in
  let m := k_mem k in
  let s := k_socks k in
  if nr =? 41 then do! (r, s) <- Socket.sys_socket (i32 a0) (i32 a1) s; Ret (r, set_socks k s)
  else if nr =? 42 then do! (r, s) <- Socket.sys_connect (i32 a0) a1 m s; Ret (r, set_socks k s)
  else if (nr =? 43) || (nr =? 288) then
    sys_accept fuel (i32 a0) a1 a2 (i32 a3) k
  else if nr =? 44 then do! (r, s) <- Socket.sys_sendto (i32 a0) a1 a2 a4 pi m s; Ret (r, set_socks (next_tick k) s)
  else if nr =? 45 then
    do! (r, m, s) <- Socket.sys_recvfrom (i32 a0) a1 a2 a4 a5 pi m s; Ret (r, set_mem (set_socks (next_tick k) s) m)
  else if nr =? 49 then do! (r, s) <- Socket.sys_bind (i32 a0) a1 m s; Ret (r, set_socks k s)
  else if nr =? 50 then do! (r, s) <- Socket.sys_listen (i32 a0) s; Ret (r, set_socks k s)
  else if nr =? 51 then let '(r, m) := Socket.sys_getsockname (i32 a0) a1 a2 m s in Ret (r, set_mem k m)
  else if nr =? 52 then do! (r, m) <- Socket.sys_getpeername (i32 a0) a1 a2 m s; Ret (r, set_mem k m)
  else if nr =? 54 then Ret (Socket.sys_setsockopt (i32 a0) s, k)
  else
    do! (r, m, s) <- Socket.sys_getsockopt (i32 a0) (i32 a1) (i32 a2) a3 a4 m s; Ret (r, set_mem (set_socks k s) m).

Definition syscall_dispatch_inner (fuel : nat) (nr a0 a1 a2 a3 a4 a5 : Z) (k : kernel) : outcome (Z * kernel) :=
  match constant_call nr with
  | Some r => Ret (r, k)
  | None =>
      if nr =? 1 then sys_write (i32 a0) a1 a2 k
      else if nr =? 0 then sys_read fuel (i32 a0) a1 a2 k
      else if nr =? 12 then let '(r, s) := sys_brk (k_mmap k) a0 in Ret (r, set_mmap k s)
      else if nr =? 9 then let '(r, s, m) := sys_mmap (k_mmap k) (k_mem k) a0 a1 (i32 a3) in Ret (r, set_mem (set_mmap k s) m)
      else if nr =? 11 then let '(r, s) := sys_munmap (k_mmap k) a0 a1 in Ret (r, set_mmap k s)
      else if nr =? 63 then Ret (sys_uname a0 k)
      else if nr =? 204 then Ret (sys_sched_getaffinity a1 a2 k)
      else if nr =? 229 then Ret (sys_clock_getres a1 k)
      else if nr =? 302 then Ret (sys_prlimit64 a3 k)
      else if (nr =? 2) || (nr =? SYS_OPENAT) then sys_open a0 a1 a2 a3 nr k
      else if nr =? 3 then sys_close (i32 a0) k
      else if nr =? 4 then sys_stat a0 a1 k
      else if nr =? 5 then sys_fstat (i32 a0) a1 k
      else if nr =? 262 then sys_newfstatat (i32 a0) a1 a2 k
      else if nr =? 8 then Ret (sys_lseek (i32 a0) (i64 a1) (i32 a2) k)
      else if nr =? 72 then Ret (sys_fcntl (i32 a0) (i32 a1) a2 k)
      else if nr =? 21 then sys_access a0 k
      else if nr =? 269 then sys_access a1 k
      else if nr =? 89 then Ret (sys_readlink a0 a1 a2 k)
      else if nr =? 267 then Ret (sys_readlink a1 a2 a3 k)
      else if nr =? 217 then sys_getdents64 (i32 a0) a1 a2 k
      else if (nr =? 22) || (nr =? 293) then Ret (sys_pipe a0 k)
      else if nr =? 233 then Ret (sys_epoll_ctl (i32 a1) (i32 a2) a3 k)
      else if (nr =? 232) || (nr =? 281) then sys_epoll_wait fuel a1 a2 (i32 a3) k
      else if nr =? 17 then sys_pread64 (i32 a0) a1 a2 a3 k
      else if nr =? 18 then Ret (sys_pwrite64 (i32 a0) a1 a2 a3 k)
      else if nr =? 228 then
        let '(r, c, m) := sys_clock_gettime (i32 a0) a1 (tsc (tick k)) (k_clock k) (k_mem k) in
        Ret (r, set_mem (set_clock (next_tick k) c) m)
      else if nr =? 40 then sys_sendfile (i32 a0) (i32 a1) a2 a3 k
      else if nr =? 32 then Ret (sys_dup (i32 a0) k)
      else if nr =? 20 then sys_writev (i32 a0) a1 a2 k
      else if nr =? 19 then sys_readv fuel (i32 a0) a1 a2 k
      else if nr =? 318 then sys_getrandom a0 a1 k
      else if nr =? 79 then Ret (sys_getcwd a0 a1 k)
      else if nr =? 96 then Ret (sys_gettimeofday a0 k)
      else if nr =? 98 then Ret (sys_getrusage a1 k)
      else if nr =? 53 then Ret (sys_pipe a3 k)
      else if nr =? 271 then sys_ppoll fuel a0 a1 a2 k
      else if nr =? 23 then sys_select fuel (i32 a0) a4 k
      else if nr =? 286 then
        let '(r, c) := sys_timerfd_settime (i32 a1) a2 (k_mem k) (tsc (tick k)) (k_clock k) in
        Ret (r, set_clock (next_tick k) c)
      else if nr =? 35 then Ret (0, yield_current k)
      else if existsb (Z.eqb nr) [41; 42; 43; 288; 44; 45; 49; 50; 51; 52; 54; 55] then
        socket_call fuel nr a0 a1 a2 a3 a4 a5 k
      else if nr =? 46 then Ret (sys_sendmsg (i32 a0) a1 k)
      else if nr =? 47 then sys_recvmsg (i32 a0) a1 k
      else if nr =? 76 then sys_truncate a0 a1 k
      else if nr =? 77 then sys_ftruncate (i32 a0) a1 k
      else if nr =? 82 then sys_rename a0 a1 k
      else if (nr =? 264) || (nr =? 316) then sys_rename a1 a3 k
      else if nr =? 83 then sys_mkdir a0 a1 k
      else if nr =? 258 then sys_mkdir a1 a2 k
      else if nr =? 84 then sys_rmdir a0 k
      else if nr =? 87 then sys_unlink a0 k
      else if nr =? 263 then sys_unlinkat a1 a2 k
      else if existsb (Z.eqb nr) [231; 158; 186; 202; 56; 60] then thread_call nr a0 a1 a2 a3 a4 k
      else Ret (-38, k)
  end.
End calls.
