(* ===== verification/Descriptors.v ===== *)
(** * The descriptors of each component

    The numbers the open objects of each component have, and what each operation
    does to them: which operations add a number, which remove one, and that the
    others leave them as they are. *)

From S2P Require Import Prelude Dirent Tmpfs TmpfsInv Vfs VfsProofs VfsDir VfsInv Pipe PipeProofs.
From S2P Require Import Socket SocketProofs.

Lemma position_fmap {A B} (g : A -> B) (f : B -> bool) l : position f (g <$> l) = position (fun x => f (g x)) l.
Proof. induction l as [|x l IH]; [done|]. cbn. by rewrite IH. Qed.

(** Opens a call that returned, branch by branch. *)
Ltac returned :=
  repeat match goal with
  | H : Ret _ = Ret _ |- _ => injection H as H; subst
  | H : (_, _) = (_, _) |- _ => injection H as H; subst
  | H : Panic = Ret _ |- _ => discriminate H
  | H : OutOfFuel = Ret _ |- _ => discriminate H
  | H : obind ?e _ = Ret _ |- _ => let E := fresh "E" in destruct e eqn:E; cbn [obind] in H
  | H : context [match ?e with _ => _ end] |- _ =>
      match type of H with _ = Ret _ => let E := fresh "E" in destruct e eqn:E end
  end.

(** ** Sockets *)

Section sockets.
Context `{Smoltcp}.

Definition sock_fds (st : Socket.state) : list Z := fd <$> SOCKETS st.

Lemma find_socket_at st n :
  find_socket st n = match position (fun z => z =? n) (sock_fds st) with
                     | Some i => match SOCKETS st !! i with Some x => Some (i, x) | None => None end
                     | None => None
                     end.
Proof. unfold find_socket, sock_fds. by rewrite position_fmap. Qed.

(** The socket that was replaced is found, and the others as before. *)
Lemma find_put st st' n i x x' :
  SOCKETS st' = SOCKETS st -> find_socket st n = Some (i, x) -> fd x' = fd x ->
  find_socket (put_socket st' i x') n = Some (i, x') /\
  forall k, k <> n -> find_socket (put_socket st' i x') k = find_socket st k.
Proof.
  intros Es Ef Ex. pose proof (find_split _ _ _ _ Ef) as (l1 & l2 & E & <- & Hx).
  assert (Hs : sock_fds (put_socket st' (length l1) x') = sock_fds st).
  { unfold sock_fds. cbn. rewrite Es, list_fmap_insert, Ex. apply list_insert_id. by rewrite list_lookup_fmap, E, list_lookup_middle. }
  rewrite find_socket_at in Ef. split; [|intros k Hk]; rewrite !find_socket_at, Hs; cbn [SOCKETS put_socket with_sockets]; rewrite Es.
  - destruct (position _ _) as [j|]; [|done]. destruct (SOCKETS st !! j) as [y|] eqn:Ej; [|done]. injection Ef as -> ->.
    by rewrite list_lookup_insert_eq by (by eapply lookup_lt_Some).
  - destruct (position (fun z => z =? k) (sock_fds st)) as [j|] eqn:Ej; [|done]. rewrite list_lookup_insert_ne; [done|]. intros <-.
    apply position_Some in Ej as (z & Hz & Hk'%Z.eqb_eq & _). unfold sock_fds in Hz. rewrite list_lookup_fmap, E, list_lookup_middle in Hz by done.
    cbn in Hz. congruence.
Qed.

(** The same descriptors, and the same numbers to give out. *)
Definition sock_same (st st' : Socket.state) : Prop :=
  sock_fds st' = sock_fds st /\ NEXT_SOCK_FD st' = NEXT_SOCK_FD st /\ RECYCLED_FDS st' = RECYCLED_FDS st.

Lemma sock_same_trans st1 st2 st3 : sock_same st1 st2 -> sock_same st2 st3 -> sock_same st1 st3.
Proof. unfold sock_same. intuition congruence. Qed.

Lemma sock_same_put st st' n i x x' :
  find_socket st n = Some (i, x) -> sock_same st st' -> fd x' = fd x -> sock_same st (put_socket st' i x').
Proof.
  intros (l1 & l2 & E & <- & _)%find_split (E1 & E2 & E3) Ef. split; [|done]. unfold sock_fds in *. cbn.
  rewrite list_fmap_insert, E1, Ef, E, fmap_app, fmap_cons. by rewrite insert_app_r_alt, length_fmap, Nat.sub_diag by (by rewrite length_fmap).
Qed.

Lemma sock_same_refl st : sock_same st st.
Proof. done. Qed.
Lemma sock_same_set st st' s : sock_same st st' -> sock_same st (with_set st' s).
Proof. done. Qed.

Lemma poll_same pi st st' : poll pi st = Ret st' -> sock_same st st'.
Proof. unfold poll, gc_closed_handles. intros Hr. returned; repeat case_match; by repeat split. Qed.

Lemma choose_port_same p st p' st' : choose_port p st = (p', st') -> sock_same st st'.
Proof.
  unfold choose_port. destruct (p =? 0); [|by intros [= _ <-]]. destruct (eph_like st) as (p1 & e & ->). by intros [= _ <-].
Qed.

Lemma autobind_same st x x' st' : udp_autobind st x = Ret (x', st') -> sock_same st st' /\ fd x' = fd x.
Proof.
  unfold udp_autobind. destruct (eph_like st) as (p1 & e & ->). intros Hr. returned; by repeat split.
Qed.

Lemma autobind_put st st' n i x x' y :
  find_socket st n = Some (i, x) -> udp_autobind st y = Ret (x', st') -> fd y = fd x -> sock_same st (put_socket st' i x').
Proof. intros Hf [Hs E]%autobind_same Ey. eapply sock_same_put; [done..|congruence]. Qed.

Lemma put_peer_fd x e : fd (set_peer x e) = fd x.
Proof. done. Qed.

Create HintDb socks.
Hint Resolve sock_same_refl sock_same_set choose_port_same sock_same_put autobind_put put_peer_fd : socks.

Lemma connect_same n addr m st r st' : sys_connect n addr m st = Ret (r, st') -> sock_same st st'.
Proof. unfold sys_connect, connect_tcp. intros Hr. returned; eauto 6 with socks. Qed.

Lemma bind_same n addr m st r st' : sys_bind n addr m st = Ret (r, st') -> sock_same st st'.
Proof. unfold sys_bind. intros Hr. returned; eauto 6 with socks. Qed.

Lemma listen_same n st r st' : sys_listen n st = Ret (r, st') -> sock_same st st'.
Proof. unfold sys_listen. intros Hr. returned; eauto 6 with socks. Qed.

Lemma attempt_same n port addr st r st' : accept_attempt n port addr st = Ret (r, st') -> sock_same st st'.
Proof. unfold accept_attempt. intros Hr. returned; eauto 6 with socks. Qed.

Lemma sendto_same n buf len dest pi m st r st' : sys_sendto n buf len dest pi m st = Ret (r, st') -> sock_same st st'.
Proof.
  unfold sys_sendto. intros Hr. returned; eauto with socks; (eapply sock_same_trans; [|by eapply poll_same]); eauto with socks.
Qed.

Lemma recvfrom_same n buf len src addrlen pi m st r m' st' :
  sys_recvfrom n buf len src addrlen pi m st = Ret (r, m', st') -> sock_same st st'.
Proof.
  unfold sys_recvfrom. destruct (poll pi st) as [st1| |] eqn:Ep; [|done..]. cbn [obind]. intros Hr.
  apply (sock_same_trans _ st1); [by eapply poll_same|]. returned; eauto with socks.
Qed.

Lemma so_error_same st n e st' : so_error st n = Ret (e, st') -> sock_same st st'.
Proof. unfold so_error. intros Hr. returned; eauto with socks. Qed.

Lemma getsockopt_same n level opt optval optlen m st r m' st' :
  sys_getsockopt n level opt optval optlen m st = Ret (r, m', st') -> sock_same st st'.
Proof.
  unfold sys_getsockopt. destruct (negb _); [by intros [= _ _ <-]|]. destruct (_ || _); [by intros [= _ _ <-]|].
  destruct (so_error st n) as [[e st1]| |] eqn:Es; [|done..]. cbn [obind]. intros [= _ _ <-]. by eapply so_error_same.
Qed.

Lemma poll_socket_same n st r st' : poll_socket n st = Ret (r, st') -> sock_same st st'.
Proof. unfold poll_socket. intros Hr. returned; eauto with socks. Qed.

Lemma set_nonblock_same st n nb : sock_same st (Socket.set_nonblock st n nb).
Proof. unfold Socket.set_nonblock. destruct (find_socket st n) as [[i x]|] eqn:E; eauto with socks. Qed.
End sockets.

(** ** tmpfs *)

Definition tmpfs_fds (st : Tmpfs.state) : list Z :=
  match TMPFS st with Some fs => o_fd <$> open_fds fs | None => [] end.

Definition tmpfs_same (st st' : Tmpfs.state) : Prop := tmpfs_fds st' = tmpfs_fds st /\ NEXT_FD st' = NEXT_FD st.

Lemma tmpfs_same_fs st fs fs' :
  TMPFS st = Some fs -> o_fd <$> open_fds fs' = o_fd <$> open_fds fs -> tmpfs_same st (with_fs st fs').
Proof. intros E Ef. split; [|done]. unfold tmpfs_fds. cbn. by rewrite E. Qed.

Lemma insert_same fs i o o' : open_fds fs !! i = Some o -> o_fd o' = o_fd o -> o_fd <$> <[i := o']> (open_fds fs) = o_fd <$> open_fds fs.
Proof. intros Ho E. rewrite list_fmap_insert, E. apply list_insert_id. by rewrite list_lookup_fmap, Ho. Qed.

Lemma write_at_same fs m path at_ buf count r fs' : Tmpfs.write_at fs m path at_ buf count = (r, fs') -> open_fds fs' = open_fds fs.
Proof. unfold Tmpfs.write_at. intros E. repeat case_match; by simplify_eq. Qed.

Lemma resize_path_same fs path len r fs' : resize_path fs path len = Ret (r, fs') -> open_fds fs' = open_fds fs.
Proof. unfold resize_path. intros E. repeat case_match; by simplify_eq. Qed.

Lemma tmpfs_exec_same o st m r st' m' :
  TmpfsInv.exec o st m = Ret (r, st', m') ->
  match o with TmpfsInv.OpOpen _ _ _ | TmpfsInv.OpClose _ => False | _ => True end -> tmpfs_same st st'.
Proof.
  intros Hr Ho. destruct o; cbn [TmpfsInv.exec] in Hr; try done;
  unfold Tmpfs.write, Tmpfs.pwrite, Tmpfs.read, Tmpfs.pread, Tmpfs.lseek, ftruncate, truncate, Tmpfs.stat, Tmpfs.fstat, unlink, rename, mkdir, rmdir, Tmpfs.getdents64 in Hr.
  all: returned; repeat (case_match; cbn [fst snd]; simplify_eq); try (by split);
    eapply tmpfs_same_fs; try done; cbn [open_fds with_open with_nodes];
    repeat match goal with
    | E : write_at _ _ _ _ _ _ = _ |- _ => apply write_at_same in E; rewrite ?E
    | E : resize_path _ _ _ = _ |- _ => apply resize_path_same in E; rewrite ?E
    end; try done; by eapply insert_same.
Qed.

Lemma push_fd_fds st fs fs' mk r st' :
  push_fd st fs' mk = (r, st') -> TMPFS st = Some fs -> open_fds fs' = open_fds fs -> (forall n, o_fd (mk n) = n) ->
  r = NEXT_FD st /\ tmpfs_fds st' = tmpfs_fds st ++ [r] /\ NEXT_FD st' = i32 (NEXT_FD st + 1).
Proof. intros [= <- <-] E Ef Hm. unfold tmpfs_fds. cbn. by rewrite E, Ef, fmap_app, list_fmap_singleton, Hm. Qed.

Lemma tmpfs_open_fds st path flags mode r st' :
  Tmpfs.open st path flags mode = (r, st') ->
  (r < 0 /\ st' = st) \/ (r = NEXT_FD st /\ tmpfs_fds st' = tmpfs_fds st ++ [r] /\ NEXT_FD st' = i32 (NEXT_FD st + 1)).
Proof.
  unfold Tmpfs.open. intros Hr.
  repeat case_match; try (injection Hr as <- <-; left; by split); right; simplify_eq; by eapply push_fd_fds.
Qed.

Lemma filter_absent (l : list Z) n : n ∉ l -> filter (fun x => x <> n) l = l.
Proof.
  induction l as [|x l IH]; [done|]. intros [Hx Hl]%not_elem_of_cons. rewrite filter_cons_True by done. by rewrite IH.
Qed.

(** Removing the one entry with a number. *)
Lemma delete_number {A} (f : A -> Z) (l : list A) i x :
  l !! i = Some x -> NoDup (f <$> l) -> f <$> delete i l = filter (fun n => n <> f x) (f <$> l).
Proof.
  intros Hi Hn. apply list_elem_of_split_length in Hi as (l1 & l2 & -> & ->). rewrite delete_middle, !fmap_app, fmap_cons in *.
  apply NoDup_app in Hn as (_ & Hd & [Hx _]%NoDup_cons). rewrite filter_app, filter_cons_False by (by intros Hne; apply Hne).
  rewrite !filter_absent; [done|done|]. intros Hin. apply (Hd _ Hin). by left.
Qed.

Lemma tmpfs_close_fds st fd : state_inv st -> tmpfs_fds (Tmpfs.close st fd).2 = filter (fun n => n <> fd) (tmpfs_fds st).
Proof.
  intros (Hb & fs & Hfs & _ & [_ Hnd Hr _]). unfold Tmpfs.close, tmpfs_fds. rewrite Hfs. destruct (fd <? TMPFS_FD_BASE) eqn:E; bool_to_prop.
  - cbn [snd]. rewrite Hfs, filter_absent; [done|]. rewrite list_elem_of_fmap. intros (o & -> & Ho). rewrite Forall_forall in Hr.
    specialize (Hr _ Ho). cbn in Hr. lia.
  - destruct (position _ _) as [i|] eqn:Ei; cbn.
    + apply position_Some in Ei as (o & Ho & Hf%Z.eqb_eq & _). rewrite <- Hf. by apply delete_number.
    + rewrite Hfs, filter_absent; [done|]. rewrite list_elem_of_fmap. intros (o & -> & Ho). apply position_None in Ei.
      rewrite Forall_forall in Ei. specialize (Ei _ Ho). unfold Tmpfs.fd_is in Ei. by rewrite Z.eqb_refl in Ei.
Qed.

Lemma tmpfs_fd_iff st fd : state_inv st -> is_tmpfs_fd st fd = true <-> fd ∈ tmpfs_fds st.
Proof.
  intros (Hb & fs & Hfs & _ & [_ Hnd Hr _]). unfold is_tmpfs_fd, tmpfs_fds. rewrite Hfs, list_elem_of_fmap. split.
  - destruct (_ <? _); [done|]. intros (o & Ho & E%Z.eqb_eq)%existsb_exists. exists o. by rewrite list_elem_of_In.
  - intros (o & -> & Ho). rewrite Forall_forall in Hr. specialize (Hr _ Ho). cbn in Hr.
    rewrite (proj2 (Z.ltb_ge _ _)) by lia. apply existsb_exists. exists o. rewrite <- list_elem_of_In. split; [done|]. apply Z.eqb_refl.
Qed.

(** ** The read-only file system *)

Definition vfs_fds (st : Vfs.state) : list Z := open_nums (OPEN_FILES st).
Definition dir_fds (st : Vfs.state) : list Z := filter (fun n => n <> -1) (d_fd <$> DIR_SLOTS st).

Definition vfs_same (st st' : Vfs.state) : Prop :=
  vfs_fds st' = vfs_fds st /\ dir_fds st' = dir_fds st /\ NEXT_VFS_FD st' = NEXT_VFS_FD st.

Lemma vfs_pos_same st fd i f p :
  find_file st fd = Some (i, f) -> vfs_same st (with_files st (<[i := Some (with_file_pos f p)]> (OPEN_FILES st))).
Proof. intros (Hi & _ & _)%find_file_lookup. split; [|done]. by eapply open_nums_same. Qed.

Lemma vfs_exec_same data o st m r st' m' :
  VfsInv.exec data o st m = Ret (r, st', m') ->
  match o with VfsInv.OpOpen _ | VfsInv.OpDup _ | VfsInv.OpOpenDir _ | VfsInv.OpClose _ | VfsInv.OpCloseDir _ => False | _ => True end ->
  vfs_same st st'.
Proof.
  intros Hr Ho. destruct o; cbn [VfsInv.exec] in Hr; try done;
    unfold Vfs.read, Vfs.pread, Vfs.lseek, is_dir_prefix, Vfs.getdents64 in Hr.
  all: returned; repeat (case_match; cbn [fst snd]; simplify_eq); try (by split); try (by eapply vfs_pos_same).
  all: split; [done|]; split; [|done]; unfold dir_fds; cbn; f_equal; rewrite list_fmap_insert; apply list_insert_id;
    by rewrite list_lookup_fmap, E0.
Qed.

Lemma vfs_claim_fds data st off len pos r st' :
  claim st off len pos = (r, st') -> VfsInv.inv data st -> NEXT_VFS_FD st < 2 ^ 31 - 1 ->
  dir_fds st' = dir_fds st /\ NEXT_VFS_FD st' = NEXT_VFS_FD st + 1 /\
  (r < 0 /\ vfs_fds st' = vfs_fds st \/ r = NEXT_VFS_FD st /\ vfs_fds st' ≡ₚ r :: vfs_fds st).
Proof.
  intros Hc [_ _ Hn _ _ _] Hlt. unfold claim in Hc. cbn [OPEN_FILES with_next] in Hc. rewrite i32_small, u64_small in Hc by lia.
  destruct (position slot_free (OPEN_FILES st)) as [i|] eqn:Hi; injection Hc as <- <-; (split; [done|]; split; [done|]).
  - right. split; [done|]. apply position_Some in Hi as ([f|] & Hs & Hf & _); [done|]. by apply open_nums_claim.
  - left. by split.
Qed.

Lemma vfs_open_fds data st path r st' :
  Vfs.open st data path = Ret (r, st') -> VfsInv.inv data st -> NEXT_VFS_FD st < 2 ^ 31 - 1 ->
  dir_fds st' = dir_fds st /\ NEXT_VFS_FD st' <= NEXT_VFS_FD st + 1 /\
  (r < 0 /\ vfs_fds st' = vfs_fds st \/ r = NEXT_VFS_FD st /\ vfs_fds st' ≡ₚ r :: vfs_fds st).
Proof.
  unfold Vfs.open. destruct (cpio_lookup data path) as [[[off len]|]| |]; cbn [obind]; [|intros [= <- <-] _ _|done..].
  - intros [= Hc] Hi Hn. destruct (vfs_claim_fds _ _ _ _ _ _ _ Hc Hi Hn) as (? & ? & ?). split; [done|]. split; [lia|done].
  - split; [done|]. split; [lia|]. by left.
Qed.

Lemma vfs_dup_fds data st fd r st' :
  Vfs.dup st fd = (r, st') -> VfsInv.inv data st -> NEXT_VFS_FD st < 2 ^ 31 - 1 ->
  dir_fds st' = dir_fds st /\ NEXT_VFS_FD st' <= NEXT_VFS_FD st + 1 /\
  (r < 0 /\ vfs_fds st' = vfs_fds st \/ r = NEXT_VFS_FD st /\ vfs_fds st' ≡ₚ r :: vfs_fds st).
Proof.
  unfold Vfs.dup. destruct (find_file st fd) as [[i f]|]; [|intros [= <- <-] _ _].
  - intros Hc Hi Hn. destruct (vfs_claim_fds _ _ _ _ _ _ _ Hc Hi Hn) as (? & ? & ?). split; [done|]. split; [lia|done].
  - split; [done|]. split; [lia|]. by left.
Qed.

Lemma vfs_close_fds data st fd :
  VfsInv.inv data st ->
  let st' := (Vfs.close st fd).2 in
  vfs_fds st' = filter (fun n => n <> fd) (vfs_fds st) /\ dir_fds st' = dir_fds st /\ NEXT_VFS_FD st' = NEXT_VFS_FD st.
Proof.
  intros [_ _ _ _ Hnd _]. unfold Vfs.close. destruct (find_file st fd) as [[i f]|] eqn:Hff; cbn [snd]; (split; [|done]).
  - apply find_file_lookup in Hff as (Hi & <- & _). unfold vfs_fds in *. cbn.
    apply list_elem_of_split_length in Hi as (l1 & l2 & E & ->). rewrite E in *. rewrite insert_app_r_alt, Nat.sub_diag by done.
    cbn [insert list_insert]. rewrite !open_nums_split in *. cbn [app] in *. apply NoDup_app in Hnd as (_ & Hd & [Hx _]%NoDup_cons).
    rewrite filter_app, filter_cons_False by (by intros Hne; apply Hne). rewrite !filter_absent; [done|done|].
    intros Hin. apply (Hd _ Hin). by left.
  - symmetry. apply filter_absent. unfold vfs_fds, open_nums. rewrite list_elem_of_omap. intros ([f|] & Hin & [= Ef]).
    unfold find_file in Hff. destruct (position (slot_fd fd) (OPEN_FILES st)) as [i|] eqn:Hi.
    + apply position_Some in Hi as ([g|] & Hg & Hf & _); [|done]. by rewrite Hg in Hff.
    + apply position_None in Hi. rewrite Forall_forall in Hi. specialize (Hi _ Hin). cbn in Hi. by rewrite Ef, Z.eqb_refl in Hi.
Qed.

Lemma vfs_fd_iff st fd : is_vfs_fd st fd = true <-> fd ∈ vfs_fds st.
Proof.
  unfold is_vfs_fd, vfs_fds, open_nums. rewrite list_elem_of_omap. setoid_rewrite list_elem_of_In. rewrite existsb_exists. split.
  - intros ([f|] & Hin & Hf); [|done]. exists (Some f). split; [done|]. cbn in *. apply Z.eqb_eq in Hf. by rewrite Hf.
  - intros ([f|] & Hin & [= Ef]). exists (Some f). split; [done|]. cbn. by rewrite Ef, Z.eqb_refl.
Qed.

(** A directory's number is its slot's. *)
Lemma dir_numbers st :
  dirs_ok st -> NoDup (dir_fds st) /\ Forall (fun n => 900 <= n < 900 + Z.of_nat (length (DIR_SLOTS st))) (dir_fds st).
Proof.
  unfold dirs_ok, dir_fds, DIR_FD_BASE. generalize (DIR_SLOTS st) as l. intros l.
  assert (Hg : forall (l : list DirSlot) j, (forall i s, l !! i = Some s -> d_fd s = -1 \/ d_fd s = 900 + Z.of_nat (j + i)) ->
    NoDup (filter (fun n => n <> -1) (d_fd <$> l)) /\
    Forall (fun n => 900 + Z.of_nat j <= n < 900 + Z.of_nat (j + length l)) (filter (fun n => n <> -1) (d_fd <$> l))).
  { clear. induction l as [|s l IH]; intros j Hl; [by repeat constructor|]. cbn [fmap list_fmap length].
    destruct (IH (S j)) as [Hn Hf]; [intros i s' Hs; specialize (Hl (S i) s' Hs); by rewrite Nat.add_succ_r in Hl|].
    specialize (Hl 0%nat s eq_refl). rewrite filter_cons. case_decide as Hd.
    - destruct Hl as [Hl|Hl]; [done|]. split; constructor; [|done|lia|].
      + intros Hin. rewrite Forall_forall in Hf. specialize (Hf _ Hin). cbn in Hf. lia.
      + eapply Forall_impl; [exact Hf|]. cbn. lia.
    - split; [done|]. eapply Forall_impl; [exact Hf|]. cbn. lia. }
  intros Hl. destruct (Hg l 0%nat) as [Hn Hf]; [exact Hl|]. split; [done|]. eapply Forall_impl; [exact Hf|]. cbn. lia.
Qed.

Lemma dir_fds_split st l1 s l2 :
  DIR_SLOTS st = l1 ++ s :: l2 -> forall s', dir_fds (with_dirs st (<[length l1 := s']> (DIR_SLOTS st))) =
    filter (fun n => n <> -1) (d_fd <$> l1) ++ (if decide (d_fd s' <> -1) then [d_fd s'] else []) ++ filter (fun n => n <> -1) (d_fd <$> l2).
Proof.
  intros E s'. unfold dir_fds. cbn. rewrite E, insert_app_r_alt, Nat.sub_diag by done. cbn [insert list_insert].
  rewrite fmap_app, fmap_cons, filter_app, filter_cons. by case_decide.
Qed.

Lemma open_dir_fds st path r st' :
  open_dir st path = (r, st') -> vfs_fds st' = vfs_fds st /\ NEXT_VFS_FD st' = NEXT_VFS_FD st /\
  (r < 0 /\ dir_fds st' = dir_fds st \/ dir_fds st' ≡ₚ r :: dir_fds st).
Proof.
  unfold open_dir. destruct (position _ _) as [i|] eqn:Hi; intros [= <- <-]; (split; [done|]; split; [done|]); [right|by left].
  apply position_split in Hi as (l1 & s & l2 & E & <- & Hs%Z.eqb_eq & _). rewrite (dir_fds_split _ _ _ _ E).
  rewrite decide_True by (cbn; unfold DIR_FD_BASE; lia). unfold dir_fds. rewrite E, fmap_app, fmap_cons, filter_app, filter_cons_False by lia.
  cbn [app]. by rewrite <- Permutation_middle.
Qed.

Lemma close_dir_fds st fd : dirs_ok st ->
  let st' := (close_dir st fd).2 in
  vfs_fds st' = vfs_fds st /\ NEXT_VFS_FD st' = NEXT_VFS_FD st /\ dir_fds st' = filter (fun n => n <> fd) (dir_fds st).
Proof.
  intros Hok. destruct (dir_numbers st Hok) as [Hnd _]. unfold close_dir.
  destruct (position _ _) as [i|] eqn:Hi; cbn [snd]; (split; [done|]; split; [done|]).
  - apply position_split in Hi as (l1 & s & l2 & E & <- & Hs%Z.eqb_eq & _). rewrite (dir_fds_split _ _ _ _ E). destruct (decide (fd = -1)) as [Hm|Hfd].
    { rewrite (filter_absent (dir_fds st)) by (unfold dir_fds; rewrite list_elem_of_filter; lia). unfold dir_fds.
      rewrite E, fmap_app, fmap_cons, filter_app, filter_cons_False by lia. by rewrite decide_False by (intros Hne; apply Hne; done). }
    unfold dir_fds in *. rewrite E, fmap_app, fmap_cons, filter_app, filter_cons_True in * by lia. subst fd.
    apply NoDup_app in Hnd as (_ & Hd & [Hx _]%NoDup_cons). rewrite decide_False by (by intros Hne; apply Hne).
    rewrite filter_app, filter_cons_False by (by intros Hne; apply Hne). rewrite !(filter_absent _ (d_fd s)); [done|done|].
    intros Hin. apply (Hd _ Hin). by left.
  - symmetry. apply filter_absent. unfold dir_fds. rewrite list_elem_of_filter, list_elem_of_fmap. intros (_ & s & Es & Hin).
    apply position_None in Hi. rewrite Forall_forall in Hi. specialize (Hi _ Hin). unfold dir_is in Hi. by rewrite <- Es, Z.eqb_refl in Hi.
Qed.

Lemma dir_fd_iff st fd : fd <> -1 -> is_dir_fd st fd = true <-> fd ∈ dir_fds st.
Proof.
  intros Hfd. unfold is_dir_fd, dir_fds. rewrite existsb_exists, list_elem_of_filter, list_elem_of_fmap. setoid_rewrite list_elem_of_In. split.
  - intros (s & Hin & E%Z.eqb_eq). eauto.
  - intros (_ & s & -> & Hin). exists s. split; [done|]. apply Z.eqb_refl.
Qed.

(** ** Pipes *)

Definition pipe_fds (st : Pipe.state) : list Z := all_ends (PIPES st).

Lemma ends_iff fd p : fd <> -1 -> fd ∈ ends p <-> either_fd fd p = true.
Proof.
  intros Hfd. unfold ends, PipeProofs.live, either_fd. rewrite elem_of_app, orb_true_iff, !Z.eqb_eq.
  destruct (p_read_fd p =? -1) eqn:E1, (p_write_fd p =? -1) eqn:E2; bool_to_prop; rewrite ?elem_of_nil, ?list_elem_of_singleton; intuition lia.
Qed.

Lemma pipe_fd_iff st fd : fd <> -1 -> is_pipe_fd st fd = true <-> fd ∈ pipe_fds st.
Proof.
  intros Hfd. unfold is_pipe_fd, pipe_fds, all_ends. rewrite existsb_exists, list_elem_of_In, in_concat. setoid_rewrite in_map_iff. split.
  - intros (p & Hin & He%ends_iff); [|done]. exists (ends p). rewrite <- list_elem_of_In. eauto.
  - intros (l & (p & <- & Hin) & He). exists p. rewrite <- list_elem_of_In in He. split; [done|]. by apply ends_iff.
Qed.

Lemma pipe_put_same st i p p' :
  PIPES st !! i = Some p -> ends p' = ends p -> all_ends (<[i := p']> (PIPES st)) = all_ends (PIPES st).
Proof. intros Hi He. destruct (all_ends_insert _ _ _ p' Hi) as (l1 & l2 & -> & ->). by rewrite He. Qed.

Lemma pipe_write_same st m fd buf count :
  table_ok st -> 0 <= count -> pipe_fds (Pipe.write st m fd buf count).2 = pipe_fds st.
Proof.
  intros Ht Hc. pose proof (write_effect st m fd buf count Ht Hc) as He. destruct (Pipe.write _ _ _ _ _) as [n st'].
  destruct He as (_ & _ & [[_ ->]|(i & p & p' & _ & Hp & E & Hs & _)]); [done|]. unfold pipe_fds. cbn [snd]. rewrite E.
  eapply pipe_put_same; [done|]. by apply same_ends_ends.
Qed.

Lemma pipe_read_same st m fd buf count :
  table_ok st -> 0 <= count -> pipe_fds (Pipe.read st m fd buf count).1.2 = pipe_fds st.
Proof.
  intros Ht Hc. pose proof (read_effect st m fd buf count Ht Hc) as He. destruct (Pipe.read _ _ _ _ _) as [[n st'] m'].
  destruct He as (_ & _ & [[_ ->]|(i & p & p' & _ & Hp & E & Hs & _)]); [done|]. unfold pipe_fds. cbn [fst snd]. rewrite E.
  eapply pipe_put_same; [done|]. by apply same_ends_ends.
Qed.

Lemma pipe_nonblock_same st fd nb : pipe_fds (Pipe.set_nonblock st fd nb) = pipe_fds st.
Proof.
  unfold Pipe.set_nonblock. destruct (position _ _) as [i|]; [|done]. destruct (PIPES st !! i) as [p|] eqn:E; [|done].
  by eapply pipe_put_same.
Qed.

(** [close] takes read ends away, and nothing but the number closed. *)
Lemma pipe_close_fds st fd n :
  n ∈ pipe_fds st -> n <> fd -> n ∈ pipe_fds (Pipe.close st fd).
Proof.
  intros Hin Hne. unfold pipe_fds, all_ends in *. rewrite list_elem_of_In, in_concat in *. destruct Hin as (l & (p & <- & Hp)%in_map_iff & Hl).
  exists (ends (close_slot fd p)). split; [apply in_map, in_map_iff; by exists p|]. revert Hl. unfold close_slot.
  destruct (p_read_fd p =? fd) eqn:E; bool_to_prop; [|done]. unfold ends, PipeProofs.live. cbn [p_read_fd p_write_fd with_fds].
  rewrite E. destruct (p_write_fd p =? -1) eqn:Ew; cbn; rewrite ?Ew; destruct (fd =? -1) eqn:Em; try done.
  - intros [?|[]]. congruence.
  - intros [?|?]; [congruence|done].
Qed.

(** The write ends that are open. *)
Definition write_ends (st : Pipe.state) : list Z := concat (map (fun p => PipeProofs.live (p_write_fd p)) (PIPES st)).

Lemma write_ends_iff st n : n ∈ write_ends st <-> n <> -1 /\ exists p, p ∈ PIPES st /\ p_write_fd p = n.
Proof.
  unfold write_ends. rewrite list_elem_of_In, in_concat. setoid_rewrite in_map_iff. unfold PipeProofs.live. split.
  - intros (l & (p & <- & Hp) & Hl). rewrite <- list_elem_of_In in Hp. destruct (p_write_fd p =? -1) eqn:E; bool_to_prop; [done|].
    destruct Hl as [<-|[]]. eauto.
  - intros (Hn & p & Hp & <-). eexists. split; [exists p; split; [done|by apply list_elem_of_In]|].
    rewrite (proj2 (Z.eqb_neq _ _) Hn). by left.
Qed.

(** [close] of a read end takes it away; a write end stays. *)
Lemma pipe_close_self st fd : fd ∈ pipe_fds (Pipe.close st fd) <-> fd ∈ write_ends st.
Proof.
  rewrite write_ends_iff. unfold pipe_fds, all_ends, Pipe.close. cbn [PIPES with_pipes]. rewrite list_elem_of_In, in_concat. setoid_rewrite in_map_iff.
  setoid_rewrite in_map_iff. setoid_rewrite <- list_elem_of_In. split.
  - intros (l & (q & <- & p & <- & Hp) & Hl). destruct (decide (fd = -1)) as [->|Hfd].
    { exfalso. revert Hl. unfold ends, PipeProofs.live. repeat case_match; bool_to_prop; rewrite ?elem_of_app, ?list_elem_of_singleton, ?elem_of_nil; intuition. }
    apply ends_iff in Hl; [|done]. split; [done|]. exists p. split; [done|]. unfold close_slot, either_fd in Hl.
    destruct (p_read_fd p =? fd) eqn:E; cbn [p_write_fd with_fds] in Hl; [destruct (p_write_fd p =? -1)|]; cbn [p_read_fd p_write_fd with_fds Pipe.empty] in Hl; apply orb_true_iff in Hl as [Hl|Hl]; bool_to_prop; lia.
  - intros (Hfd & p & Hp & E). exists (ends (close_slot fd p)). split; [by exists (close_slot fd p); split; [done|exists p]|].
    apply ends_iff; [done|]. unfold close_slot, either_fd. destruct (p_read_fd p =? fd) eqn:Er; cbn [p_write_fd with_fds].
    + rewrite E, (proj2 (Z.eqb_neq _ _) Hfd). cbn [p_write_fd with_fds]. by rewrite Z.eqb_refl, orb_true_r.
    + by rewrite E, Z.eqb_refl, orb_true_r.
Qed.

Lemma pipe_close_sub st fd n : table_ok st -> n ∈ pipe_fds (Pipe.close st fd) -> n ∈ pipe_fds st.
Proof.
  intros [Hp _ _ _] Hin. eapply elem_of_sublist; [exact Hin|]. unfold pipe_fds, Pipe.close. cbn. clear -Hp.
  induction Hp as [|p l Hok _ IH]; [done|]. unfold all_ends. cbn [map concat]. apply sublist_app; [by apply close_slot_ok|exact IH].
Qed.

(** The slot [create] takes, the first without a read end.  It may still have a write
    end, which is lost then. *)
Definition slot_taken (st : Pipe.state) : option Pipe :=
  match position (reads_fd (-1)) (PIPES st) with Some i => PIPES st !! i | None => None end.

Lemma pipe_create_fds st :
  table_ok st -> NEXT_PIPE_FD st < 2 ^ 31 - 2 ->
  let n := NEXT_PIPE_FD st in
  (Pipe.create st).1 = (n, n + 1) /\
  match slot_taken st with
  | Some p => pipe_fds (Pipe.create st).2 ++ PipeProofs.live (p_write_fd p) ≡ₚ n :: n + 1 :: pipe_fds st
  | None => pipe_fds (Pipe.create st).2 = pipe_fds st
  end.
Proof.
  intros Ht Hn n. pose proof (tbl_next _ Ht) as Hn'. unfold Pipe.create, slot_taken, pipe_fds. rewrite !u64_small, !i32_small by lia. fold n.
  destruct (position _ _) as [i|] eqn:Hi; [|done]. apply position_Some in Hi as (p & Hp & Hr%Z.eqb_eq & _). rewrite Hp. split; [done|]. cbn [snd PIPES].
  set (q := with_fds _ _ _). destruct (all_ends_insert _ _ _ q Hp) as (l1 & l2 & -> & ->).
  assert (ends q = [n; n + 1]) as -> by (unfold ends, PipeProofs.live, q; cbn [p_read_fd p_write_fd with_fds]; by rewrite !(proj2 (Z.eqb_neq _ (-1))) by lia).
  unfold ends. rewrite Hr. cbn [PipeProofs.live Z.eqb Pos.eqb app]. solve_Permutation.
Qed.

(** ** Socket numbers *)

Section socket_numbers.
Context `{Smoltcp}.

Lemma sock_numbers st ts :
  sinv (st, ts) -> NoDup (sock_fds st) /\ Forall (fun n => 500 <= n < NEXT_SOCK_FD st) (sock_fds st).
Proof.
  intros (_ & Hfd & Hr). unfold fds_of in Hfd. cbn [fst snd] in *. split.
  - pose proof (NoDup_seqZ SOCK_FD_BASE (NEXT_SOCK_FD st - SOCK_FD_BASE)) as Hn. rewrite <- Hfd in Hn. by apply NoDup_app in Hn as (? & _ & _).
  - apply Forall_forall. intros n Hn. assert (Hin : n ∈ seqZ SOCK_FD_BASE (NEXT_SOCK_FD st - SOCK_FD_BASE)).
    { rewrite <- Hfd, elem_of_app. by left. }
    apply elem_of_seqZ in Hin. unfold SOCK_FD_BASE in *. lia.
Qed.

Lemma socket_fd_iff st fd : is_socket_fd st fd = true <-> fd ∈ sock_fds st.
Proof.
  unfold is_socket_fd, sock_fds. rewrite existsb_exists, list_elem_of_fmap. setoid_rewrite list_elem_of_In. split.
  - intros (x & Hin & E%Z.eqb_eq). eauto.
  - intros (x & -> & Hin). exists x. split; [done|]. apply Z.eqb_refl.
Qed.

Lemma alloc_fd_fds st : sock_fds (Socket.alloc_fd st).2 = sock_fds st /\ (SOCK_FD_BASE <= NEXT_SOCK_FD st < 2 ^ 31 - 1 -> NEXT_SOCK_FD (Socket.alloc_fd st).2 <= NEXT_SOCK_FD st + 1).
Proof.
  unfold Socket.alloc_fd. destruct (rev _); (split; [done|]); cbn; [|lia]. intros Hn. unfold SOCK_FD_BASE in Hn. rewrite i32_small; lia.
Qed.

Lemma socket_close_fds st fd st' :
  Socket.close fd st = Ret st' -> NoDup (sock_fds st) ->
  sock_fds st' = filter (fun n => n <> fd) (sock_fds st) /\ NEXT_SOCK_FD st' = NEXT_SOCK_FD st.
Proof.
  unfold Socket.close, close_take. destruct (find_socket st fd) as [[i x]|] eqn:Ef.
  - intros Hc Hn. pose proof (find_split _ _ _ _ Ef) as (l1 & l2 & E & <- & <-).
    assert (Hs : SOCKETS st' = delete (length l1) (SOCKETS st) /\ NEXT_SOCK_FD st' = NEXT_SOCK_FD st)
      by (unfold close_net in Hc; returned; by repeat split).
    destruct Hs as [Hs Hx]. split; [|done]. unfold sock_fds in *. rewrite Hs. apply delete_number; [|done]. rewrite E. by apply list_lookup_middle.
  - intros [= <-] Hn. split; [|done]. symmetry. apply filter_absent. rewrite <- socket_fd_iff. unfold find_socket, is_socket_fd in *.
    destruct (position (Socket.fd_is fd) (SOCKETS st)) as [i|] eqn:Ei.
    + apply position_Some in Ei as (x & Hx & _). by rewrite Hx in Ef.
    + apply position_None in Ei. intros (x & Hin & Hf)%existsb_exists. rewrite Forall_forall in Ei. rewrite <- list_elem_of_In in Hin.
      by rewrite (Ei _ Hin) in Hf.
Qed.
End socket_numbers.
