(* ===== verification/SyscallInv.v ===== *)
(** * Invariants of the system calls

    The invariants of the components hold together between any two calls, and no
    call panics: a call returns, or waits for input. *)

From S2P Require Import Prelude Dirent Tmpfs TmpfsInv Vfs VfsProofs VfsDir VfsInv Pipe PipeProofs.
From S2P Require Import Mmap Rtc Clock Socket SocketProofs Rng Syscall Descriptors.

(** ** The random generator returns *)

Section rng.
Context `{ChaCha20} (step : nat -> bool * Z).
Hypothesis live : forall n, exists i, (i < 64)%nat /\ (step (n + i)%nat).1 = true.

Lemma attempt_returns n m cursor : (m <= n)%nat ->
  (exists i, (i < m)%nat /\ (step (cursor + i)%nat).1 = true) -> exists v c, attempt step n cursor = (Some v, c).
Proof using.
  clear. intros Hm. revert m cursor Hm. induction n as [|n IH]; intros m cursor Hm (i & Hi & Hs); [lia|]. cbn [attempt].
  destruct (step cursor) as [[|] v] eqn:E; [eauto|]. destruct i as [|i].
  - rewrite Nat.add_0_r, E in Hs. done.
  - apply (IH (m - 1)%nat); [lia|]. exists i. split; [lia|]. by rewrite Nat.add_succ_l, <- Nat.add_succ_r.
Qed.

Definition has_source (hw : HwRng) : Prop := rdrand hw || rdseed hw = true.

Lemma hw_word_returns hw cursor : has_source hw -> exists v c, hw_word step hw cursor = (Some v, c).
Proof using live.
  unfold hw_word, has_source. intros Hs. destruct (rdseed hw).
  - destruct (attempt_returns 1024 64 cursor ltac:(lia) (live cursor)) as (v & c & ->). eauto.
  - destruct (rdrand hw); [|done]. apply (attempt_returns 64 64 cursor); auto.
Qed.

Lemma hw_words_return n hw cursor : has_source hw -> exists ws c, hw_words step n hw cursor = Ret (ws, c).
Proof using live.
  intros Hs. revert cursor. induction n as [|n IH]; intros cursor; cbn [hw_words]; [eauto|].
  destruct (hw_word_returns hw cursor Hs) as (v & c & ->). destruct (IH c) as (ws & c' & ->). cbn [obind]. eauto.
Qed.

Definition rng_ok (st : Rng.state) : Prop := (exists rng, CSPRNG st = Some rng) /\ has_source (HW st).

Lemma fill_raw_ok buf len m st :
  rng_ok st -> exists m' st', fill_raw step buf len m st = Ret (m', st') /\ rng_ok st'.
Proof using live.
  intros [[rng E] Hs]. unfold fill_raw, fill. rewrite E. destruct (fill_bytes _ rng) as [out rng'].
  destruct (_ <=? _); cbn [obind].
  - unfold gather_seed. destruct (hw_words_return 8 (HW st) (CURSOR st) Hs) as (ws & c & ->). cbn [obind].
    destruct (fill_bytes 32 rng') as [cur rng2]. cbn [obind]. do 2 eexists. split; [done|]. split; [eauto|done].
  - do 2 eexists. split; [done|]. split; [eauto|done].
Qed.
End rng.

(** ** The epoll table *)

(** The registered descriptors, in table order. *)
Definition registered (l : list EpollEntry) : list EpollEntry := filter (fun e => 0 <= e_fd e) l.

Record epoll_ok (l : list EpollEntry) : Prop := mkEpollOk {
  eo_length : length l = EPOLL_MAX;
  eo_nodup : NoDup (e_fd <$> registered l)
}.

Lemma registered_app l1 l2 : registered (l1 ++ l2) = registered l1 ++ registered l2.
Proof. apply filter_app. Qed.

Lemma registered_drop fd l : registered (epoll_drop_fd fd l) = filter (fun e => e_fd e <> fd) (registered l).
Proof.
  unfold registered, epoll_drop_fd. induction l as [|e l IH]; [done|]. cbn [map]. unfold entry_is at 1.
  destruct (e_fd e =? fd) eqn:E; bool_to_prop.
  - rewrite filter_cons_False by (cbn; lia). rewrite IH, (filter_cons _ e). case_decide; [|done].
    by rewrite filter_cons_False by (intros Hn; by apply Hn).
  - rewrite !(filter_cons (fun e => 0 <= e_fd e)). case_decide; [|done]. rewrite filter_cons_True by done. by f_equal.
Qed.

Lemma epoll_drop_ok fd l : epoll_ok l -> epoll_ok (epoll_drop_fd fd l).
Proof.
  intros [Hl Hn]. split; [unfold epoll_drop_fd; by rewrite length_map|]. rewrite registered_drop.
  eapply sublist_NoDup; [done|]. apply fmap_sublist, sublist_filter.
Qed.

Lemma epoll_set_ok fd dat ev l : epoll_ok l -> epoll_ok (epoll_set fd dat ev l).
Proof.
  intros [Hl Hn]. unfold epoll_set.
  destruct (position (entry_is fd) l) as [i|] eqn:Ei; [|destruct (position (entry_is (-1)) l) as [i|] eqn:Ej; [|done]];
    (split; [by rewrite length_insert|]).
  - apply position_split in Ei as (l1 & e & l2 & -> & <- & E%Z.eqb_eq & _). rewrite insert_app_r_alt, Nat.sub_diag by done.
    cbn [insert list_insert]. rewrite !registered_app in *. unfold registered in *. rewrite !filter_cons in *. cbn [e_fd]. rewrite E in *.
    case_decide; rewrite !fmap_app in *; cbn [fmap list_fmap e_fd] in *; by rewrite ?E in *.
  - apply position_split in Ej as (l1 & e & l2 & -> & <- & E%Z.eqb_eq & _). rewrite insert_app_r_alt, Nat.sub_diag by done.
    cbn [insert list_insert]. rewrite !registered_app in *. unfold registered in *. rewrite !filter_cons in *. cbn [e_fd]. rewrite E in Hn.
    rewrite (decide_False (P := 0 <= -1)) in Hn by lia. case_decide; [|done]. rewrite fmap_app in *. cbn [fmap list_fmap e_fd].
    rewrite <- Permutation_middle. constructor; [|done]. rewrite <- fmap_app, list_elem_of_fmap. intros (e' & Ef & Hin).
    pose proof (proj1 (position_None _ _) Ei) as Hno. rewrite Forall_forall in Hno.
    assert (He : e' ∈ l1 ++ e :: l2) by (rewrite <- filter_app, list_elem_of_filter, elem_of_app in Hin; set_solver).
    specialize (Hno _ He). unfold entry_is in Hno. rewrite <- Ef, Z.eqb_refl in Hno. done.
Qed.

(** ** Whole socket calls *)

Section sockets.
Context `{Smoltcp}.
Hypothesis set_add_fresh : forall l, set_add l ∉ l.

Lemma enter_ok st x :
  sinv (st, [TNew x]) -> NEXT_SOCK_FD st < 2 ^ 31 - 1 ->
  sinv (push_socket (alloc_fd st).2 (renumber x (alloc_fd st).1), []).
Proof using.
  clear. intros Hi Hn. pose proof (number_ok st [TNew x] 0 x Hi eq_refl Hn) as Hi'.
  by apply (sock_push_ok _ [TPush (renumber x (alloc_fd st).1)] 0).
Qed.

Lemma sys_socket_ok domain ty st :
  sinv (st, []) -> NEXT_SOCK_FD st < 2 ^ 31 - 1 ->
  exists r st', sys_socket domain ty st = Ret (r, st') /\ sinv (st', []).
Proof using set_add_fresh.
  intros Hi Hn. unfold sys_socket. destruct (socket_check st domain ty) as [e|[ty' nb]] eqn:Ec; [eauto|].
  assert (Hin : is_initialized st = true).
  { unfold socket_check in Ec. repeat (destruct (_ && _); [done|]). by destruct (is_initialized st). }
  destruct (add_socket_ok set_add_fresh st [] ty' nb Hi Hin) as (h & st1 & E1 & Hi1). rewrite E1. cbn [obind].
  assert (NEXT_SOCK_FD st1 = NEXT_SOCK_FD st) as Hnx.
  { unfold socket_add in E1. destruct (net_set st) as [s| |]; [|done..]. cbn [obind] in E1. destruct (set_insert _ _). by injection E1 as _ <-. }
  pose proof (enter_ok _ _ Hi1 ltac:(lia)) as Hi2. destruct (alloc_fd st1) as [n st2]. eauto.
Qed.

Lemma socket_close_ok n st :
  sinv (st, []) -> exists st', Socket.close n st = Ret st' /\ sinv (st', []).
Proof using.
  clear. intros Hi. unfold Socket.close. destruct (close_take n st) as [[x st1]|] eqn:Ec; [|eauto].
  pose proof (close_take_ok _ _ _ _ _ Hi Ec) as Hi1. assert (fd x = n) as <-.
  { unfold close_take in Ec. destruct (find_socket st n) as [[i y]|] eqn:Ef; [|done]. injection Ec as -> <-.
    by apply find_split in Ef as (? & ? & _ & _ & ?). }
  pose proof (sock_recycle_ok st1 [TRecycle x] 0 x Hi1 eq_refl) as Hi2.
  by apply (dispose_ok _ [TDispose x] 0 x Hi2).
Qed.
End sockets.

(** ** The kernel *)

Section kernel_inv.
Context `{Machine}.

Record kinv (k : kernel) : Prop := mkKinv {
  ki_tmpfs : TmpfsInv.state_inv (k_tmpfs k);
  ki_vfs : VfsInv.inv cpio_data (k_vfs k);
  ki_pipes : PipeProofs.table_ok (k_pipes k);
  ki_socks : sinv (k_socks k, []);
  ki_epoll : epoll_ok (k_epoll k);
  ki_rng : rng_ok (k_rng k)
}.

(** Numbers are left in every counter. *)
Record room (k : kernel) : Prop := mkRoom {
  rm_tmpfs : NEXT_FD (k_tmpfs k) < 2 ^ 31 - 1;
  rm_vfs : NEXT_VFS_FD (k_vfs k) < 2 ^ 31 - 1;
  rm_pipes : NEXT_PIPE_FD (k_pipes k) < 2 ^ 31 - 2;
  rm_socks : NEXT_SOCK_FD (k_socks k) < 2 ^ 31 - 1
}.
End kernel_inv.

(** What the machine promises: a well-formed archive (a malformed one panics the scan:
    [zero_namesize_panics]), fresh handles from smoltcp,
    which sends no more than it is given, a hardware source that answers within 64 tries, and other threads that keep the
    invariant too. *)
Class GoodMachine `{Machine} := {
  members : list member;
  trailer : bytes;
  gm_archive : cpio_data = archive members trailer;
  gm_members : Forall member_ok members;
  gm_length : zlen cpio_data < 2 ^ 63;
  gm_fresh : forall l, set_add l ∉ l;
  gm_send : forall l t n t', tcp_send_slice l t = (Some n, t') -> 0 <= n <= zlen l;
  gm_hw : forall n, exists i, (i < 64)%nat /\ (hw_step (n + i)%nat).1 = true;
  gm_others : forall n k, kinv k -> kinv (others n k)
}.

Section calls.
Context `{GoodMachine}.

(** A call returns with the invariant; a call that may wait can also not return. *)
Definition returns (o : outcome (Z * kernel)) : Prop := exists r k', o = Ret (r, k') /\ kinv k'.
Definition runs (o : outcome (Z * kernel)) : Prop :=
  match o with Ret (_, k') => kinv k' | Panic => False | OutOfFuel => True end.

Lemma returns_runs o : returns o -> runs o.
Proof. by intros (r & k' & -> & Hk). Qed.
Lemma returns_ret r k : kinv k -> returns (Ret (r, k)).
Proof. intros Hk. by exists r, k. Qed.
Lemma returns_pair p : kinv p.2 -> returns (Ret p).
Proof. destruct p. apply returns_ret. Qed.

(** *** Components that changed *)

Lemma kinv_tmpfs k s : kinv k -> TmpfsInv.step_ok (k_tmpfs k) s -> kinv (set_tmpfs k s).
Proof. intros [] [? _]. by constructor. Qed.
Lemma kinv_vfs k s : kinv k -> vstep_ok cpio_data (k_vfs k) s -> kinv (set_vfs k s).
Proof. intros [] [? _]. by constructor. Qed.
Lemma kinv_pipes k s : kinv k -> PipeProofs.table_ok s -> kinv (set_pipes k s).
Proof. intros [] ?. by constructor. Qed.
Lemma kinv_socks k s : kinv k -> sinv (s, []) -> kinv (set_socks k s).
Proof. intros [] ?. by constructor. Qed.
Lemma kinv_epoll k s : kinv k -> epoll_ok s -> kinv (set_epoll k s).
Proof. intros [] ?. by constructor. Qed.
Lemma kinv_rng k s : kinv k -> rng_ok s -> kinv (set_rng k s).
Proof. intros [] ?. by constructor. Qed.
Lemma kinv_mem k m : kinv k -> kinv (set_mem k m).
Proof. intros []. by constructor. Qed.
Lemma kinv_mmap k s : kinv k -> kinv (set_mmap k s).
Proof. intros []. by constructor. Qed.
Lemma kinv_clock k s : kinv k -> kinv (set_clock k s).
Proof. intros []. by constructor. Qed.
Lemma kinv_resolv k s : kinv k -> kinv (set_resolv k s).
Proof. intros []. by constructor. Qed.
Lemma kinv_uart_in k s : kinv k -> kinv (set_uart_in k s).
Proof. intros []. by constructor. Qed.
Lemma kinv_uart_out k s : kinv k -> kinv (set_uart_out k s).
Proof. intros []. by constructor. Qed.
Lemma kinv_ready k : kinv k -> kinv (set_ready k).
Proof. intros []. by constructor. Qed.
Lemma kinv_tick k : kinv k -> kinv (next_tick k).
Proof. intros []. by constructor. Qed.

Hint Resolve returns_ret returns_pair kinv_mem kinv_mmap kinv_clock kinv_resolv kinv_uart_in kinv_uart_out kinv_ready kinv_tick : kernel.
Hint Resolve kinv_tmpfs kinv_vfs kinv_pipes kinv_socks kinv_epoll kinv_rng : kernel.

Lemma kinv_ticks n k : kinv k -> kinv (Nat.iter n next_tick k).
Proof. intros Hk. induction n; cbn; auto with kernel. Qed.

Lemma kinv_yield k : kinv k -> kinv (yield_current k).
Proof. intros Hk. unfold yield_current. apply gm_others. auto with kernel. Qed.

Lemma kinv_with_clock {A} (f : reading -> clock -> A * clock) k : kinv k -> kinv (with_clock f k).2.
Proof. intros Hk. unfold with_clock. destruct (f _ _). cbn. auto with kernel. Qed.

Hint Resolve kinv_ticks kinv_yield kinv_with_clock : kernel.

Lemma net_poll_ok k : kinv k -> exists k', net_poll k = Ret k' /\ kinv k'.
Proof.
  intros Hk. unfold net_poll. destruct (poll_ok (net_event (tick k)) (k_socks k) [] (ki_socks _ Hk)) as (s & -> & Hs & _).
  cbn [obind]. eexists. split; [done|]. auto with kernel.
Qed.

(** *** Reading and writing *)

Lemma vfs_call o k m :
  kinv k -> NEXT_VFS_FD (k_vfs k) < 2 ^ 31 - 1 \/ match o with VfsInv.OpOpen _ | VfsInv.OpDup _ => False | _ => True end -> VfsInv.op_ok o ->
  exists r s m', VfsInv.exec cpio_data o (k_vfs k) m = Ret (r, s, m') /\ vstep_ok cpio_data (k_vfs k) s.
Proof.
  intros Hk Hn Ho. pose proof (ki_vfs _ Hk) as Hv. pose proof gm_length as Hl. rewrite gm_archive in *. pose proof gm_members as Hm.
  change (call_ok members trailer (k_vfs k) m o).
  destruct o; cbn [VfsInv.op_ok] in Ho; try (by destruct Hn as [Hn|[]]; apply vexec_inv);
    auto using read_call, lseek_call, close_call, is_dir_call, open_dir_call, close_dir_call, getdents_call.
  destruct Ho. by apply pread_call.
Qed.

Lemma sys_write_ok fd buf count k : kinv k -> 0 <= count < 2 ^ 64 -> returns (sys_write fd buf count k).
Proof.
  intros Hk Hc. unfold sys_write. destruct (is_tmpfs_fd _ fd).
  { pose proof (write_inv (k_tmpfs k) (k_mem k) fd buf count (ki_tmpfs _ Hk) Hc). destruct (Tmpfs.write _ _ _ _ _). auto with kernel. }
  destruct (_ || _); [repeat case_match; auto with kernel|]. destruct (_ =? _); [auto with kernel|].
  destruct (is_pipe_fd _ fd).
  { pose proof (write_effect (k_pipes k) (k_mem k) fd buf count (ki_pipes _ Hk) ltac:(lia)) as He.
    destruct (Pipe.write _ _ _ _ _). destruct He as [He _]. auto with kernel. }
  destruct (is_socket_fd _ fd); [|auto with kernel].
  destruct (send_ok fd buf count 0 (net_event (tick k)) (k_mem k) (k_socks k) [] (ki_socks _ Hk)) as (r & s & -> & Hs).
  cbn [obind]. auto with kernel.
Qed.

Lemma sys_read_stdin_ok fuel buf count k : kinv k -> runs (sys_read_stdin fuel buf count k).
Proof.
  revert k. induction fuel as [|fuel IH]; intros k Hk; cbn [sys_read_stdin];
    (destruct (count =? 0); [done|]); (destruct (uart_in k); [|cbn; auto 10 with kernel]); [done|]. apply IH. auto with kernel.
Qed.

Lemma sys_read_other_ok fuel fd buf count k :
  kinv k -> 0 <= count < 2 ^ 64 -> fd <> 0 -> returns (sys_read fuel fd buf count k).
Proof.
  intros Hk Hc Hfd. unfold sys_read. rewrite (proj2 (Z.eqb_neq _ _) Hfd). destruct (is_tmpfs_fd _ fd).
  { pose proof (read_inv (k_tmpfs k) (k_mem k) fd buf count (ki_tmpfs _ Hk)). destruct (Tmpfs.read _ _ _ _ _) as [[r s] m]. auto with kernel. }
  destruct (is_vfs_fd _ fd).
  { destruct (vfs_call (VfsInv.OpRead fd buf count) k (k_mem k) Hk ltac:(by right) Hc) as (r & s & m & E & Hs). cbn [VfsInv.exec] in E.
    rewrite E. cbn [obind]. auto with kernel. }
  destruct (is_pipe_fd _ fd).
  { pose proof (read_effect (k_pipes k) (k_mem k) fd buf count (ki_pipes _ Hk) ltac:(lia)) as He.
    destruct (Pipe.read _ _ _ _ _) as [[r s] m]. destruct He as [He _]. destruct (r =? _); auto 6 with kernel. }
  destruct (fd =? FD_DEV_RANDOM).
  { destruct (count =? 0); [auto with kernel|]. destruct (fill_raw_ok hw_step gm_hw buf count (k_mem k) (k_rng k) (ki_rng _ Hk)) as (m & s & -> & Hs).
    cbn [obind]. auto with kernel. }
  destruct (fd =? FD_RESOLV_CONF); [destruct (RESOLV k); destruct (_ =? 0); auto with kernel|].
  destruct (fd =? FD_SYNTH_ZERO); [destruct (_ <=? _); auto with kernel|].
  destruct (fd =? FD_TIMER).
  { pose proof (kinv_with_clock timerfd_consume k Hk). destruct (with_clock timerfd_consume k) as [n k']. cbn [snd] in *.
    destruct (n =? 0); [|destruct (8 <=? count)]; auto with kernel. }
  destruct (is_socket_fd _ fd); [|auto with kernel].
  destruct (recv_ok fd buf count 0 0 (net_event (tick k)) (k_mem k) (k_socks k) [] (ki_socks _ Hk)) as (r & m & s & -> & Hs).
  cbn [obind]. auto with kernel.
Qed.

Lemma sys_read_ok fuel fd buf count k : kinv k -> 0 <= count < 2 ^ 64 -> runs (sys_read fuel fd buf count k).
Proof.
  intros Hk Hc. destruct (decide (fd = 0)) as [->|Hfd]; [by apply sys_read_stdin_ok|]. by apply returns_runs, sys_read_other_ok.
Qed.

Lemma writev_loop_ok n i fd iov total k : kinv k -> returns (writev_loop n i fd iov total k).
Proof.
  revert i total k. induction n as [|n IH]; intros i total k Hk; cbn [writev_loop]; [auto with kernel|].
  destruct (_ =? 0); [auto|]. destruct (sys_write_ok fd (iov_base (k_mem k) iov i) (iov_len (k_mem k) iov i) k Hk (load64_range _ _)) as (r & k' & -> & Hk').
  cbn [obind]. destruct (r <? 0); [auto with kernel|]. destruct (_ <? _); auto with kernel.
Qed.

Lemma readv_loop_ok fuel n i fd iov total k : kinv k -> runs (readv_loop fuel n i fd iov total k).
Proof.
  revert i total k. induction n as [|n IH]; intros i total k Hk; cbn [readv_loop]; [done|].
  pose proof (sys_read_ok fuel fd (iov_base (k_mem k) iov i) (iov_len (k_mem k) iov i) k Hk (load64_range _ _)) as Hr.
  destruct (sys_read _ _ _ _ _) as [[r k']| |]; [|done..]. cbn [obind runs] in *. destruct (r <? 0); [done|]. destruct (_ <? _); [done|]. by apply IH.
Qed.

(** *** sendfile *)

Lemma sendto_count fd buf len dest pi m st r st' :
  0 <= len -> Socket.sys_sendto fd buf len dest pi m st = Ret (r, st') -> r <= len.
Proof.
  intros Hl. unfold sys_sendto. intros Hr. returned; repeat case_match; try lia.
  all: match goal with E : tcp_send_slice _ _ = _ |- _ => apply gm_send in E; unfold zlen in E; rewrite mem_read_length in E; lia end.
Qed.

Lemma pread_count st m fd buf count off r m' :
  0 <= count -> Vfs.pread st cpio_data m fd buf count off = Ret (r, m') -> r <= count.
Proof. intros Hc. unfold Vfs.pread. intros Hr. returned; try lia. unfold Vfs.EBADF. lia. Qed.

Lemma sendfile_loop_ok fuel out_fd in_fd off total remaining k :
  kinv k -> 0 <= remaining < 2 ^ 64 -> 0 <= off < 2 ^ 64 -> (Z.to_nat remaining < fuel)%nat ->
  exists r k', sendfile_loop fuel out_fd in_fd off total remaining k = Ret (r, k') /\ kinv k'.
Proof.
  revert off total remaining k. induction fuel as [|fuel IH]; intros off total remaining k Hk Hr Ho Hf; [lia|]. cbn [sendfile_loop].
  destruct (remaining <=? 0) eqn:E0; bool_to_prop; [eauto|]. set (want := Z.min remaining CHUNK). unfold CHUNK in *.
  destruct (vfs_call (VfsInv.OpPread in_fd kbuf want off) k (k_mem k) Hk ltac:(by right) ltac:(cbn; lia)) as (n & s & m & E & Hs).
  cbn [VfsInv.exec] in E. destruct (Vfs.pread (k_vfs k) cpio_data (k_mem k) in_fd kbuf want off) as [[n' m']| |] eqn:Ep; [|done..].
  apply pread_count in Ep; [|lia]. cbn [obind] in *. injection E as -> _ ->.
  destruct (n <? 0) eqn:E1; bool_to_prop; [eauto with kernel|]. destruct (n =? 0) eqn:E2; bool_to_prop; [eauto with kernel|].
  destruct (send_ok out_fd kbuf n 0 (net_event (tick (set_mem k m))) (k_mem (set_mem k m)) (k_socks (set_mem k m)) [] (ki_socks _ Hk)) as (r & s' & Es & Hs').
  rewrite Es. cbn [obind]. apply sendto_count in Es; [|lia]. destruct (r <? 0) eqn:E3; bool_to_prop; [do 2 eexists; split; [done|auto with kernel]|].
  destruct (r <? n) eqn:E4; bool_to_prop; [do 2 eexists; split; [done|auto with kernel]|]. rewrite (u64_small (remaining - r)) by lia.
  apply IH; [auto with kernel|lia|apply u64_range|lia].
Qed.

Lemma lseek_range fd off whence k r s : kinv k -> Vfs.lseek (k_vfs k) fd off whence = (r, s) -> r < 2 ^ 63.
Proof.
  intros Hk. unfold Vfs.lseek. destruct (find_file _ fd) as [[i f]|] eqn:Ef; [|intros [= <- _]; unfold Vfs.EBADF; lia].
  pose proof (inv_files _ _ (ki_vfs _ Hk)) as Hf. destruct (find_file_ok _ _ _ _ _ Hf Ef) as (Ho & Hl & Hp). pose proof gm_length.
  cbv zeta. destruct (if whence =? 0 then _ else _) as [p|]; intros [= <- _]; [|unfold Vfs.EINVAL]; lia.
Qed.

Lemma sys_sendfile_ok out_fd in_fd offset_ptr count k :
  kinv k -> 0 <= count < 2 ^ 64 -> returns (sys_sendfile out_fd in_fd offset_ptr count k).
Proof.
  intros Hk Hc. unfold sys_sendfile. destruct (negb _); [auto with kernel|]. destruct (negb _); [auto with kernel|].
  destruct (vfs_call (VfsInv.OpLseek in_fd 0 1) k (k_mem k) Hk ltac:(by right) ltac:(cbn; lia)) as (n & s & m & E & Hs). cbn [VfsInv.exec] in E.
  destruct (Vfs.lseek (k_vfs k) in_fd 0 1) as [p s'] eqn:El. cbn [fst snd] in E. injection E as -> -> _.
  pose proof (lseek_range _ _ _ _ _ _ Hk El) as Hp.
  set (q := if offset_ptr =? 0 then (n, s) else (load64 (k_mem k) offset_ptr, k_vfs k)).
  assert (Hq : vstep_ok cpio_data (k_vfs k) q.2) by (unfold q; destruct (_ =? _); [done|apply vstep_ok_refl, Hk]).
  assert (Hq' : (offset_ptr =? 0) && (q.1 <? 0) = false -> 0 <= q.1 < 2 ^ 64).
  { unfold q. destruct (offset_ptr =? 0); cbn [andb fst]; [intros E; bool_to_prop; lia|]. intros _. apply load64_range. }
  destruct q as [p1 s1]. cbn [fst snd] in *. destruct (_ && _); [auto with kernel|]. specialize (Hq' eq_refl).
  destruct (sendfile_loop_ok (S (S (Z.to_nat count))) out_fd in_fd p1 0 count (set_vfs k s1)) as (r & k' & -> & Hk'); [auto with kernel|done|done|lia|].
  cbn [obind]. destruct r as [e|[total off]]; [auto with kernel|]. apply returns_ret. destruct (_ =? _); [|auto with kernel].
  destruct (vfs_call (VfsInv.OpLseek in_fd (i64 off) 0) k' (k_mem k') Hk' ltac:(by right)) as (n' & s2 & m2 & E & Hs2);
    [apply i64_range|].
  cbn [VfsInv.exec] in E. injection E as _ <- _. auto with kernel.
Qed.

(** *** Paths *)

Lemma vfs_open_ok path k :
  kinv k -> room k -> exists r s, Vfs.open (k_vfs k) cpio_data path = Ret (r, s) /\ kinv (set_vfs k s).
Proof.
  intros Hk Hr. destruct (vfs_call (VfsInv.OpOpen path) k (k_mem k) Hk ltac:(left; apply Hr) I) as (r & s & m & E & Hs). cbn [VfsInv.exec] in E.
  destruct (Vfs.open _ _ _) as [[r' s']| |]; [|done..]. injection E as -> -> _. eauto with kernel.
Qed.

Lemma is_dir_prefix_ok path k : kinv k -> exists d, is_dir_prefix cpio_data path = Ret d.
Proof.
  intros Hk. destruct (vfs_call (VfsInv.OpIsDir path) k (k_mem k) Hk ltac:(by right) I) as (r & s & m & E & Hs). cbn [VfsInv.exec] in E.
  destruct (is_dir_prefix _ _) as [d| |]; [|done..]. eauto.
Qed.

Lemma open_path_ok path flags mode k : kinv k -> room k -> returns (open_path path flags mode k).
Proof.
  intros Hk Hr. unfold open_path. destruct (bytes_eqb _ _); [auto with kernel|]. destruct (_ || _); [auto with kernel|].
  destruct (bytes_eqb _ _); [auto with kernel|]. destruct (synth_file path); [auto with kernel|]. destruct (synth_dir path); [auto with kernel|].
  destruct (owns_path path).
  { pose proof (open_inv (k_tmpfs k) path flags mode (ki_tmpfs _ Hk) ltac:(apply Hr)). destruct (Tmpfs.open _ _ _ _). auto with kernel. }
  destruct (vfs_open_ok path k Hk Hr) as (r & s & -> & Hk'). cbn [obind]. destruct (0 <=? r); [auto with kernel|].
  destruct (is_dir_prefix_ok path k Hk) as [d ->]. cbn [obind]. destruct d; [|auto with kernel].
  destruct (vfs_call (VfsInv.OpOpenDir path) _ (k_mem k) Hk' ltac:(by right) I) as (r' & s' & m & E & Hs). cbn [VfsInv.exec k_vfs set_vfs] in *.
  destruct (open_dir s path) as [r1 s1]. injection E as _ -> _. auto with kernel.
Qed.

Lemma stat_path_ok path buf k : kinv k -> room k -> returns (stat_path path buf k).
Proof.
  intros Hk Hr. unfold stat_path. destruct (owns_path path); [destruct (Tmpfs.stat _ _ _ _); auto with kernel|].
  set (k1 := if buf =? 0 then k else _). assert (Hk1 : kinv k1) by (unfold k1; destruct (buf =? 0); auto with kernel). assert (Hr1 : room k1) by (unfold k1; by destruct (buf =? 0), Hr).
  clearbody k1. destruct (_ || _); [destruct (buf =? 0); auto with kernel|]. destruct (bytes_eqb _ _); [destruct (buf =? 0); auto with kernel|].
  destruct (vfs_open_ok path k1 Hk1 Hr1) as (r & s & -> & Hk'). cbn [obind]. destruct (0 <=? r).
  - apply returns_ret. set (k2 := if buf =? 0 then _ else _). assert (Hk2 : kinv k2) by (unfold k2; destruct (buf =? 0); auto with kernel).
    destruct (vfs_call (VfsInv.OpClose (i32 r)) k2 (k_mem k2) Hk2 ltac:(by right) I) as (r' & s' & m & E & Hs). cbn [VfsInv.exec] in E.
    injection E as _ <- _. auto with kernel.
  - destruct (is_dir_prefix_ok path k Hk) as [d ->]. cbn [obind]. destruct (_ || _); [destruct (buf =? 0)|]; auto with kernel.
Qed.

Lemma sys_fstat_ok fd buf k : kinv k -> returns (sys_fstat fd buf k).
Proof. intros Hk. unfold sys_fstat. repeat case_match; auto with kernel. Qed.

Lemma sys_newfstatat_ok dirfd path buf k : kinv k -> room k -> returns (sys_newfstatat dirfd path buf k).
Proof. intros Hk Hr. unfold sys_newfstatat. destruct (_ && _); [by apply stat_path_ok|by apply sys_fstat_ok]. Qed.

Lemma sys_getdents64_ok fd buf count k : kinv k -> returns (sys_getdents64 fd buf count k).
Proof.
  intros Hk. unfold sys_getdents64. destruct (_ =? _); [auto with kernel|]. destruct (is_tmpfs_fd _ _).
  { pose proof (TmpfsInv.getdents64_inv (k_tmpfs k) (k_mem k) fd buf count (ki_tmpfs _ Hk)). destruct (Tmpfs.getdents64 _ _ _ _ _) as [[r s] m]. auto with kernel. }
  destruct (vfs_call (VfsInv.OpGetdents fd buf count) k (k_mem k) Hk ltac:(by right) I) as (r & s & m & E & Hs). cbn [VfsInv.exec] in E. rewrite E.
  cbn [obind]. auto with kernel.
Qed.

Lemma tmpfs_path_ok ptr e f k :
  kinv k -> (forall p, exists r s, f p (k_tmpfs k) = Ret (r, s) /\ step_ok (k_tmpfs k) s) -> returns (tmpfs_path ptr e f k).
Proof.
  intros Hk Hf. unfold tmpfs_path. destruct (owns_path _); [|auto with kernel].
  destruct (Hf (copy_path (k_mem k) ptr)) as (r & s & -> & Hs). cbn [obind]. auto with kernel.
Qed.

Lemma tmpfs_ret {p : Z * Tmpfs.state} {st} : step_ok st p.2 -> exists r s, Ret p = Ret (r, s) /\ step_ok st s.
Proof. destruct p as [r s]. eauto. Qed.

Lemma sys_rename_ok old new k : kinv k -> returns (sys_rename old new k).
Proof.
  intros Hk. unfold sys_rename. destruct (_ && _); [|auto with kernel].
  pose proof (rename_inv (k_tmpfs k) (copy_path (k_mem k) old) (copy_path (k_mem k) new) (ki_tmpfs _ Hk)). destruct (rename _ _ _). auto with kernel.
Qed.

Lemma sys_truncate_ok ptr len k : kinv k -> 0 <= len < 2 ^ 64 - CAP -> returns (sys_truncate ptr len k).
Proof. intros Hk Hl. apply tmpfs_path_ok; [done|]. intros p. apply truncate_inv; [apply Hk|done]. Qed.

Lemma sys_ftruncate_ok fd len k : kinv k -> 0 <= len < 2 ^ 64 - CAP -> returns (sys_ftruncate fd len k).
Proof.
  intros Hk Hl. unfold sys_ftruncate. destruct (ftruncate_inv (k_tmpfs k) fd len (ki_tmpfs _ Hk) Hl) as (r & s & -> & Hs).
  cbn [obind]. auto with kernel.
Qed.

(** *** Descriptors *)

Lemma sys_close_ok fd k : kinv k -> returns (sys_close fd k).
Proof.
  intros Hk. unfold sys_close. set (k1 := set_epoll k _). assert (Hk1 : kinv k1) by (apply kinv_epoll; [done|apply epoll_drop_ok, Hk]). clearbody k1.
  set (k2 := set_tmpfs k1 _). assert (Hk2 : kinv k2) by (apply kinv_tmpfs; [done|apply close_inv, Hk1]). clearbody k2.
  set (k3 := set_vfs k2 _). assert (Hk3 : kinv k3).
  { destruct (vfs_call (VfsInv.OpClose fd) k2 (k_mem k2) Hk2 ltac:(by right) I) as (r & s & m & E & Hs). injection E as _ <- _. by apply kinv_vfs. }
  clearbody k3. set (k4 := set_vfs k3 _). assert (Hk4 : kinv k4).
  { destruct (vfs_call (VfsInv.OpCloseDir fd) k3 (k_mem k3) Hk3 ltac:(by right) I) as (r & s & m & E & Hs). cbn [VfsInv.exec] in E.
    unfold k4. destruct (close_dir (k_vfs k3) fd) as [c s1]. injection E as _ -> _. by apply kinv_vfs. }
  clearbody k4. set (k5 := set_pipes k4 _). assert (Hk5 : kinv k5) by (apply kinv_pipes; [done|apply table_ok_close, Hk4]). clearbody k5.
  destruct (socket_close_ok fd (k_socks k5) (ki_socks _ Hk5)) as (s & -> & Hs). cbn [obind].
  destruct (net_poll_ok (set_socks k5 s)) as (k' & -> & Hk'); [auto with kernel|]. cbn [obind]. auto with kernel.
Qed.

Lemma sys_lseek_ok fd off whence k : kinv k -> - 2 ^ 63 <= off < 2 ^ 63 -> kinv (sys_lseek fd off whence k).2.
Proof.
  intros Hk Ho. unfold sys_lseek. destruct (is_tmpfs_fd _ _).
  { pose proof (lseek_inv (k_tmpfs k) fd off whence (ki_tmpfs _ Hk)). destruct (Tmpfs.lseek _ _ _ _). cbn in *. auto with kernel. }
  destruct (is_vfs_fd _ _); [|done].
  destruct (vfs_call (VfsInv.OpLseek fd off whence) k (k_mem k) Hk ltac:(by right) Ho) as (r & s & m & E & Hs). cbn [VfsInv.exec] in E.
  destruct (Vfs.lseek _ _ _ _). injection E as -> -> _. cbn. auto with kernel.
Qed.

Lemma sys_pread64_ok fd buf count off k :
  kinv k -> 0 <= count < 2 ^ 64 -> 0 <= off < 2 ^ 64 -> returns (sys_pread64 fd buf count off k).
Proof.
  intros Hk Hc Ho. unfold sys_pread64. destruct (is_tmpfs_fd _ _); [destruct (Tmpfs.pread _ _ _ _ _ _); auto with kernel|].
  destruct (is_vfs_fd _ _); [|auto with kernel].
  destruct (vfs_call (VfsInv.OpPread fd buf count off) k (k_mem k) Hk ltac:(by right) (conj Hc Ho)) as (r & s & m & E & Hs). cbn [VfsInv.exec] in E.
  destruct (Vfs.pread _ _ _ _ _ _ _) as [[r' m']| |]; [|done..]. cbn [obind]. auto with kernel.
Qed.

Lemma sys_pwrite64_ok fd buf count off k :
  kinv k -> 0 <= count < 2 ^ 64 -> 0 <= off < 2 ^ 64 -> kinv (sys_pwrite64 fd buf count off k).2.
Proof.
  intros Hk Hc Ho. unfold sys_pwrite64. destruct (is_tmpfs_fd _ _); [|done].
  pose proof (pwrite_inv (k_tmpfs k) (k_mem k) fd buf count off (ki_tmpfs _ Hk) Hc Ho). destruct (Tmpfs.pwrite _ _ _ _ _ _). cbn in *. auto with kernel.
Qed.

Lemma sys_dup_ok fd k : kinv k -> room k -> kinv (sys_dup fd k).2.
Proof.
  intros Hk Hr. unfold sys_dup. destruct (is_vfs_fd _ _); [|done].
  destruct (vfs_call (VfsInv.OpDup fd) k (k_mem k) Hk ltac:(left; apply Hr) I) as (r & s & m & E & Hs). cbn [VfsInv.exec] in E.
  destruct (Vfs.dup _ _). injection E as -> -> _. cbn. auto with kernel.
Qed.

Lemma sys_pipe_ok fds k : kinv k -> room k -> kinv (sys_pipe fds k).2.
Proof.
  intros Hk Hr. unfold sys_pipe. destruct (fds =? 0); [done|].
  pose proof (table_ok_create (k_pipes k) (ki_pipes _ Hk) ltac:(apply Hr)). destruct (Pipe.create _) as [[r w] s]. cbn in *. auto with kernel.
Qed.

Lemma sys_fcntl_ok fd cmd arg k : kinv k -> kinv (sys_fcntl fd cmd arg k).2.
Proof.
  intros Hk. unfold sys_fcntl. destruct (cmd =? 4); [|done]. destruct (is_pipe_fd _ _); cbn [snd].
  - apply kinv_pipes; [done|]. by apply nonblock_effect, Hk.
  - destruct (is_socket_fd _ _); [|done]. apply kinv_socks; [done|]. apply nonblock_ok, Hk.
Qed.

Lemma sys_getrandom_ok buf len k : kinv k -> returns (sys_getrandom buf len k).
Proof.
  intros Hk. unfold sys_getrandom. destruct (_ || _); [auto with kernel|].
  destruct (fill_raw_ok hw_step gm_hw buf len (k_mem k) (k_rng k) (ki_rng _ Hk)) as (m & s & -> & Hs). cbn [obind]. auto with kernel.
Qed.

Lemma sys_sendmsg_ok fd msg k : kinv k -> kinv (sys_sendmsg fd msg k).2.
Proof.
  intros Hk. unfold sys_sendmsg. destruct (is_pipe_fd _ _); [|done]. cbn [snd]. set (t := u64 _).
  pose proof (write_effect (k_pipes k) (k_mem k) fd (iov_base (k_mem k) (load64 (k_mem k) (msg + 16)) 0) t (ki_pipes _ Hk) ltac:(apply u64_range)) as He.
  destruct (Pipe.write _ _ _ _ _). destruct He as [He _]. cbn. auto with kernel.
Qed.

Lemma sys_recvmsg_ok fd msg k : kinv k -> returns (sys_recvmsg fd msg k).
Proof.
  intros Hk. unfold sys_recvmsg. destruct (is_socket_fd _ _); [|auto with kernel]. destruct (_ <? _); [|auto with kernel].
  edestruct recv_ok as (r & m & s & -> & Hs); [apply Hk|]. cbn [obind]. auto with kernel.
Qed.

(** *** Waiting for events *)

Lemma sys_epoll_ctl_ok op fd ptr k : kinv k -> kinv (sys_epoll_ctl op fd ptr k).2.
Proof.
  intros Hk. unfold sys_epoll_ctl. destruct (op =? 2); cbn [snd]; (apply kinv_epoll; [done|]); [apply epoll_drop_ok, Hk|apply epoll_set_ok, Hk].
Qed.

Lemma epoll_ready_ok e k : kinv k -> returns (epoll_ready e k).
Proof.
  intros Hk. unfold epoll_ready. destruct (_ =? FD_TIMER).
  { pose proof (kinv_with_clock timerfd_ready k Hk). destruct (with_clock _ _). auto with kernel. }
  destruct (_ =? 0); [auto with kernel|]. destruct (is_pipe_fd _ _); [auto with kernel|]. destruct (is_socket_fd _ _); [|auto with kernel].
  destruct (ready_ok (e_fd e) (k_socks k) [] (ki_socks _ Hk)) as (r & s & -> & Hs). cbn [obind]. auto with kernel.
Qed.

Lemma epoll_scan_ok l events max count k : kinv k -> returns (epoll_scan l events max count k).
Proof.
  revert count k. induction l as [|e l IH]; intros count k Hk; cbn [epoll_scan]; [auto with kernel|].
  destruct (_ <=? _); [auto with kernel|]. destruct (_ <? 0); [auto|]. destruct (epoll_ready_ok e k Hk) as (r & k' & -> & Hk'). cbn [obind].
  destruct (r =? 0); auto with kernel.
Qed.

Lemma epoll_loop_ok fuel events max deadline k : kinv k -> runs (epoll_loop fuel events max deadline k).
Proof.
  revert k. induction fuel as [|fuel IH]; intros k Hk; cbn [epoll_loop]; [done|].
  destruct (net_poll_ok k Hk) as (k1 & -> & Hk1). cbn [obind]. destruct (epoll_scan_ok (k_epoll k1) events max 0 k1 Hk1) as (c & k2 & -> & Hk2). cbn [obind].
  destruct (0 <? c); [done|]. destruct deadline as [d|]; [|auto with kernel]. destruct (d =? 0); [done|].
  pose proof (kinv_with_clock monotonic_ns k2 Hk2) as Hk3. unfold now. destruct (with_clock _ _) as [t k3]. destruct (d <=? t); auto with kernel.
Qed.

Lemma sys_epoll_wait_ok fuel events max timeout k : kinv k -> runs (sys_epoll_wait fuel events max timeout k).
Proof.
  intros Hk. unfold sys_epoll_wait, now. pose proof (kinv_with_clock monotonic_ns k Hk). destruct (with_clock _ _) as [t k1].
  destruct (_ =? -1); [|destruct (0 <? timeout)]; by apply epoll_loop_ok.
Qed.

Lemma ppoll_ready_ok fd events k : kinv k -> returns (ppoll_ready fd events k).
Proof.
  intros Hk. unfold ppoll_ready. destruct (fd =? 0); [auto with kernel|]. destruct (fd =? FD_TIMER).
  { pose proof (kinv_with_clock timerfd_ready k Hk). destruct (negb _); [|auto with kernel]. destruct (with_clock _ _). auto with kernel. }
  destruct (is_pipe_fd _ _); [auto with kernel|]. destruct (is_socket_fd _ _); [|auto with kernel].
  destruct (ready_ok fd (k_socks k) [] (ki_socks _ Hk)) as (r & s & -> & Hs). cbn [obind]. auto with kernel.
Qed.

Lemma ppoll_scan_ok n i fds ready k : kinv k -> returns (ppoll_scan n i fds ready k).
Proof.
  revert i ready k. induction n as [|n IH]; intros i ready k Hk; cbn [ppoll_scan]; [auto with kernel|].
  destruct (_ =? 0); [auto with kernel|]. edestruct ppoll_ready_ok as (r & k' & -> & Hk'); [apply kinv_mem, Hk|]. cbn [obind].
  destruct (r =? 0); auto with kernel.
Qed.

Lemma ppoll_loop_ok fuel fds n target k : kinv k -> runs (ppoll_loop fuel fds n target k).
Proof.
  revert k. induction fuel as [|fuel IH]; intros k Hk; cbn [ppoll_loop]; [done|].
  destruct (net_poll_ok (yield_current k)) as (k1 & -> & Hk1); [auto with kernel|]. cbn [obind].
  destruct (ppoll_scan_ok n 0 fds 0 k1 Hk1) as (r & k2 & -> & Hk2). cbn [obind]. destruct (0 <? r); [done|].
  destruct target as [d|]; [|auto]. pose proof (kinv_with_clock monotonic_ns k2 Hk2) as Hk3. unfold now. destruct (with_clock _ _) as [t k3].
  destruct (d <=? t); auto with kernel.
Qed.

Lemma deadline_at_ok ptr scale k : kinv k -> kinv (deadline_at ptr scale k).2.
Proof.
  intros Hk. unfold deadline_at, now. destruct (ptr =? 0); [done|]. pose proof (kinv_with_clock monotonic_ns k Hk) as Hk'. by destruct (with_clock _ _).
Qed.

Lemma sys_ppoll_ok fuel fds nfds timeout k : kinv k -> runs (sys_ppoll fuel fds nfds timeout k).
Proof.
  intros Hk. unfold sys_ppoll. destruct (net_poll_ok k Hk) as (k1 & -> & Hk1). cbn [obind].
  pose proof (deadline_at_ok timeout 1 k1 Hk1) as Hk2. destruct (deadline_at _ _ _) as [target k2]. cbn [snd] in Hk2.
  destruct (ppoll_scan_ok (Z.to_nat nfds) 0 fds 0 (yield_current k2)) as (r & k3 & -> & Hk3); [auto with kernel|]. cbn [obind].
  destruct (0 <? r); [done|]. by apply ppoll_loop_ok.
Qed.

Lemma select_loop_ok fuel target k :
  kinv k -> match select_loop fuel target k with Ret k' => kinv k' | Panic => False | OutOfFuel => True end.
Proof.
  revert k. induction fuel as [|fuel IH]; intros k Hk; cbn [select_loop]; [done|]. destruct target as [d|]; [|by apply kinv_yield].
  pose proof (kinv_with_clock monotonic_ns _ (kinv_yield _ Hk)) as Hk'. unfold now. destruct (with_clock _ _) as [t k']. cbn [snd] in Hk'.
  destruct (d <=? t); [done|by apply IH].
Qed.

Lemma sys_select_ok fuel nfds timeout k : kinv k -> runs (sys_select fuel nfds timeout k).
Proof.
  intros Hk. unfold sys_select.
  assert (exists k', (if 0 <? nfds then net_poll k else Ret k) = Ret k' /\ kinv k') as (k1 & -> & Hk1)
    by (destruct (0 <? nfds); [by apply net_poll_ok|eauto]).
  cbn [obind]. pose proof (deadline_at_ok timeout 1000 k1 Hk1) as Hk2. destruct (deadline_at _ _ _) as [target k2]. cbn [snd] in Hk2.
  pose proof (select_loop_ok fuel target k2 Hk2) as Hs. by destruct (select_loop _ _ _).
Qed.

(** *** accept *)

(** While [accept] waits, the other threads may close the listener, and use its
    number again.  This holds of a wait in which, each time the CPU comes back, the
    number is not that of a UDP socket, and there are numbers left. *)
Definition tcp_or_free (st : Socket.state) (n : Z) : bool :=
  match find_socket st n with Some (_, x) => negb (bool_decide (sock_type x = UdpDgram)) | None => true end.

Fixpoint accept_kept (fuel : nat) (n port : Z) (addr : Ipv4Address) (k : kernel) : bool :=
  match fuel with
  | O => true
  | S fuel' =>
      match net_poll k with
      | Ret k =>
          match accept_attempt n port addr (k_socks k) with
          | Ret (None, s) =>
              let k := yield_current (set_socks k s) in
              tcp_or_free (k_socks k) n && (NEXT_SOCK_FD (k_socks k) <? 2 ^ 31 - 1) && accept_kept fuel' n port addr k
          | _ => true
          end
      | _ => true
      end
  end.

Lemma tcp_or_free_iff st n : tcp_or_free st n = true <-> not_udp st n.
Proof.
  unfold tcp_or_free, not_udp. destruct (find_socket st n) as [[i x]|]; [|done]. rewrite negb_true_iff. apply bool_decide_eq_false.
Qed.

(** What is left to do for a connection that was found. *)
Definition to_enter (r : option (nat * option IpEndpoint)) (flags port : Z) (addr : Ipv4Address) : list task :=
  match r with Some (h, _) => [TNew (accepted 0 h flags port addr)] | None => [] end.

Lemma accept_loop_ok fuel n port addr nb flags k :
  kinv k -> not_udp (k_socks k) n -> NEXT_SOCK_FD (k_socks k) < 2 ^ 31 - 1 -> (nb = false -> accept_kept fuel n port addr k = true) ->
  match sys_accept_loop fuel n port addr nb k with
  | Ret (r, k') => sinv (k_socks k', to_enter r flags port addr) /\ NEXT_SOCK_FD (k_socks k') < 2 ^ 31 - 1 /\
      (forall s, sinv (s, []) -> kinv (set_socks k' s))
  | Panic => False
  | OutOfFuel => True
  end.
Proof.
  revert k. induction fuel as [|fuel IH]; intros k Hk Hu Hn Hkept; cbn [sys_accept_loop accept_kept] in *; [done|].
  unfold net_poll in *. destruct (poll_ok (net_event (tick k)) (k_socks k) [] (ki_socks _ Hk)) as (s1 & Ep & Hs1 & Es). rewrite Ep in *. cbn [obind] in *.
  pose proof (poll_same _ _ _ Ep) as (_ & En & _). cbn [k_socks set_socks] in *.
  assert (Hu1 : not_udp s1 n) by (unfold not_udp, find_socket in *; by rewrite Es).
  destruct (accept_ok gm_fresh n port addr flags s1 [] Hs1 Hu1) as (r & s2 & Ea & Hs2). rewrite Ea in *. cbn [obind].
  pose proof (attempt_same _ _ _ _ _ _ Ea) as (_ & En2 & _).
  assert (Hk2 : forall s, sinv (s, []) -> kinv (set_socks (set_socks (next_tick k) s1) s)) by (intros s Hs; destruct Hk; by constructor).
  assert (Hdone : sinv (s2, to_enter r flags port addr) /\ NEXT_SOCK_FD s2 < 2 ^ 31 - 1) by (split; [by destruct r as [[h e]|]|lia]).
  destruct r as [[h e]|]; [by destruct Hdone|]. destruct nb; [by destruct Hdone|]. specialize (Hkept eq_refl). bool_to_prop.
  apply IH; [by apply kinv_yield, Hk2|by apply tcp_or_free_iff|lia|done].
Qed.

Lemma sys_accept_ok fuel n addr_ptr addrlen_ptr flags k :
  kinv k -> NEXT_SOCK_FD (k_socks k) < 2 ^ 31 - 1 ->
  (forall port addr, accept_snapshot n flags (k_socks k) = inr (false, port, addr) -> accept_kept fuel n port addr k = true) ->
  runs (sys_accept fuel n addr_ptr addrlen_ptr flags k).
Proof.
  intros Hk Hn Hkept. unfold sys_accept. destruct (accept_snapshot n flags _) as [e|[[nb port] addr]] eqn:Es; [done|].
  assert (Hu : not_udp (k_socks k) n).
  { unfold accept_snapshot, not_udp in *. destruct (find_socket _ n) as [[i x]|]; [|done]. by destruct (sock_type x). }
  pose proof (accept_loop_ok fuel n port addr nb flags k Hk Hu Hn ltac:(intros ->; by apply Hkept)) as Hl.
  destruct (sys_accept_loop _ _ _ _ _ _) as [[r k1]| |]; [|done..]. destruct Hl as (Hs & Hn1 & Hk1). cbn [obind].
  destruct r as [[h remote]|]; [|by specialize (Hk1 _ Hs); destruct k1].
  pose proof (enter_ok _ _ Hs Hn1) as Hs2. destruct (Socket.alloc_fd (k_socks k1)) as [m s2]. cbn [runs].
  specialize (Hk1 _ Hs2). destruct remote as [e|]; [|done]. destruct (addr_ptr =? 0); [done|]. destruct (addrlen_ptr =? 0); auto with kernel.
Qed.

(** *** The dispatcher *)

Definition may_wait (nr : Z) : bool := existsb (Z.eqb nr) [0; 19; 23; 43; 232; 271; 281; 288].
Definition is_thread_call (nr : Z) : bool := existsb (Z.eqb nr) [231; 158; 186; 202; 56; 60].

(** The calls that can take the kernel down, and what keeps them from it: truncating
    to a length near 2^64; listen or getpeername on a UDP socket; and a blocking
    accept whose number becomes that of a UDP socket while it waits. *)
Definition args_ok (fuel : nat) (nr a0 a1 a3 : Z) (k : kernel) : Prop :=
  ((nr = 76 \/ nr = 77) -> a1 < 2 ^ 64 - CAP) /\ ((nr = 50 \/ nr = 52) -> not_udp (k_socks k) (i32 a0)) /\
  ((nr = 43 \/ nr = 288) -> forall port addr, accept_snapshot (i32 a0) (i32 a3) (k_socks k) = inr (false, port, addr) ->
     accept_kept fuel (i32 a0) port addr k = true).

Definition call_result (nr : Z) (o : outcome (Z * kernel)) : Prop := if may_wait nr then runs o else returns o.

Lemma call_returns nr o : returns o -> call_result nr o.
Proof. intros Ho. unfold call_result. destruct (may_wait nr); [by apply returns_runs|done]. Qed.

Lemma socket_call_ok fuel nr a0 a1 a2 a3 a4 a5 k :
  kinv k -> room k -> args_ok fuel nr a0 a1 a3 k -> call_result nr (socket_call fuel nr a0 a1 a2 a3 a4 a5 k).
Proof.
  intros Hk Hr (_ & Hu & Hac). pose proof (ki_socks _ Hk) as Hs. pose proof (rm_socks _ Hr) as Hn. unfold socket_call.
  destruct (nr =? 41) eqn:E1.
  { apply call_returns. destruct (sys_socket_ok gm_fresh (i32 a0) (i32 a1) _ Hs Hn) as (r & s & -> & Hs'). cbn [obind]. auto with kernel. }
  destruct (nr =? 42).
  { apply call_returns. destruct (connect_ok (i32 a0) a1 (k_mem k) _ [] Hs) as (r & s & -> & Hs'). cbn [obind]. auto with kernel. }
  destruct ((nr =? 43) || (nr =? 288)) eqn:E3.
  { assert (nr = 43 \/ nr = 288) as Enr by (apply orb_true_iff in E3 as [?%Z.eqb_eq|?%Z.eqb_eq]; auto). unfold call_result.
    replace (may_wait nr) with true by (by destruct Enr as [-> | ->]). apply sys_accept_ok; auto. }
  apply call_returns. destruct (nr =? 44).
  { edestruct send_ok as (r & s & -> & Hs'); [done|]. cbn [obind]. auto with kernel. }
  destruct (nr =? 45).
  { edestruct recv_ok as (r & m & s & -> & Hs'); [done|]. cbn [obind]. auto with kernel. }
  destruct (nr =? 49).
  { destruct (bind_ok (i32 a0) a1 (k_mem k) _ [] Hs) as (r & s & -> & Hs'). cbn [obind]. auto with kernel. }
  destruct (nr =? 50) eqn:E50; bool_to_prop.
  { destruct (listen_ok gm_fresh (i32 a0) _ [] Hs ltac:(auto)) as (r & s & -> & Hs'). cbn [obind]. auto with kernel. }
  destruct (nr =? 51); [destruct (sys_getsockname _ _ _ _ _); auto with kernel|].
  destruct (nr =? 52) eqn:E52; bool_to_prop.
  { destruct (peer_ok (i32 a0) a1 a2 (k_mem k) _ [] Hs ltac:(auto)) as ([r m] & ->). cbn [obind]. auto with kernel. }
  destruct (nr =? 54); [auto with kernel|].
  edestruct sockopt_ok as (r & m & s & -> & Hs'); [done|]. cbn [obind]. auto with kernel.
Qed.

(** The arms that only store in memory or move the clock. *)
Lemma stores_ok k :
  kinv k ->
  (forall a, kinv (sys_uname a k).2) /\ (forall a c, kinv (sys_sched_getaffinity a c k).2) /\ (forall a, kinv (sys_clock_getres a k).2) /\
  (forall a, kinv (sys_prlimit64 a k).2) /\ (forall a c d, kinv (sys_readlink a c d k).2) /\ (forall a c, kinv (sys_getcwd a c k).2) /\
  (forall a, kinv (sys_gettimeofday a k).2) /\ (forall a, kinv (sys_getrusage a k).2).
Proof.
  intros Hk. split_and!; intros.
  - cbn. auto with kernel.
  - unfold sys_sched_getaffinity. destruct (_ <=? _); cbn; auto with kernel.
  - unfold sys_clock_getres. destruct (_ =? _); cbn; auto with kernel.
  - unfold sys_prlimit64. destruct (_ =? _); cbn; auto with kernel.
  - unfold sys_readlink. destruct (bytes_eqb _ _); cbn; auto with kernel.
  - unfold sys_getcwd. destruct (_ <=? _); cbn; auto with kernel.
  - unfold sys_gettimeofday. destruct (_ =? _); [done|]. pose proof (kinv_with_clock realtime_ns k Hk). destruct (with_clock _ _). cbn in *. auto with kernel.
  - unfold sys_getrusage, now. destruct (_ =? _); [done|]. pose proof (kinv_with_clock monotonic_ns k Hk). destruct (with_clock _ _). cbn in *. auto with kernel.
Qed.

(** The arms on one path of tmpfs. *)
Lemma path_calls_ok k :
  kinv k ->
  (forall p, returns (sys_access p k)) /\ (forall p mode, returns (sys_mkdir p mode k)) /\ (forall p, returns (sys_rmdir p k)) /\
  (forall p, returns (sys_unlink p k)) /\ (forall p flags, returns (sys_unlinkat p flags k)).
Proof.
  intros Hk. pose proof (ki_tmpfs _ Hk) as Ht.
  split_and!; intros; (apply tmpfs_path_ok; [done|]); intros path; apply tmpfs_ret; auto using step_ok_refl, mkdir_inv, rmdir_inv, unlink_inv.
  destruct (negb _); auto using rmdir_inv, unlink_inv.
Qed.

Lemma call_waits nr o : may_wait nr = true -> runs o -> call_result nr o.
Proof. intros E Ho. unfold call_result. by rewrite E. Qed.

Lemma sys_open_ok a0 a1 a2 a3 nr k : kinv k -> room k -> returns (sys_open a0 a1 a2 a3 nr k).
Proof. intros Hk Hr. unfold sys_open. destruct (nr =? _); by apply open_path_ok. Qed.

Lemma sys_stat_ok path buf k : kinv k -> room k -> returns (sys_stat path buf k).
Proof. apply stat_path_ok. Qed.

Lemma sys_writev_ok fd iov n k : kinv k -> returns (sys_writev fd iov n k).
Proof. apply writev_loop_ok. Qed.

Lemma sys_readv_ok fuel fd iov n k : kinv k -> runs (sys_readv fuel fd iov n k).
Proof. apply readv_loop_ok. Qed.

(** Every arm of the dispatcher. *)
Lemma dispatch_ok fuel nr a0 a1 a2 a3 a4 a5 k :
  kinv k -> room k -> args_ok fuel nr a0 a1 a3 k -> is_thread_call nr = false ->
  0 <= a1 < 2 ^ 64 -> 0 <= a2 < 2 ^ 64 -> 0 <= a3 < 2 ^ 64 ->
  call_result nr (syscall_dispatch_inner fuel nr a0 a1 a2 a3 a4 a5 k).
Proof.
  intros Hk Hr Ha Hnt H1' H2' H3'. unfold syscall_dispatch_inner. destruct (constant_call nr); [by apply call_returns; auto with kernel|].
  destruct (stores_ok k Hk) as (S1 & S2 & S3 & S4 & S5 & S6 & S7 & S8). destruct (path_calls_ok k Hk) as (P1 & P2 & P3 & P4 & P5).
  pose proof (i64_range a1) as Hi.
  repeat match goal with
  | |- call_result _ (if ?c then _ else _) => let E := fresh "E" in destruct c eqn:E;
      [first
        [ solve [apply call_returns; auto using sys_write_ok, sys_open_ok, sys_sendfile_ok, sys_stat_ok, sys_fstat_ok, sys_newfstatat_ok,
            sys_getdents64_ok, sys_close_ok, sys_pread64_ok, sys_writev_ok, sys_getrandom_ok, sys_recvmsg_ok, sys_rename_ok,
            sys_lseek_ok, sys_fcntl_ok, sys_pipe_ok, sys_epoll_ctl_ok, sys_pwrite64_ok, sys_dup_ok, sys_sendmsg_ok with kernel]
        | solve [apply socket_call_ok; auto]
        | solve [apply call_waits; [by repeat (apply orb_true_iff in E as [E|E]; [by apply Z.eqb_eq in E as ->|]); apply Z.eqb_eq in E as ->|];
            auto using sys_read_ok, sys_epoll_wait_ok, sys_ppoll_ok, sys_select_ok, sys_readv_ok]
        | idtac ] | ]
  end.
  - apply call_returns. destruct (sys_brk _ _). auto with kernel.
  - apply call_returns. destruct (sys_mmap _ _ _ _ _) as [[? ?] ?]. auto with kernel.
  - apply call_returns. destruct (sys_munmap _ _ _). auto with kernel.
  - apply call_returns. destruct (sys_clock_gettime _ _ _ _ _) as [[? ?] ?]. auto with kernel.
  - apply call_returns. destruct (sys_timerfd_settime _ _ _ _ _). auto with kernel.
  - apply call_returns, sys_truncate_ok; [done|]. split; [lia|]. apply Ha. left. by apply Z.eqb_eq.
  - apply call_returns, sys_ftruncate_ok; [done|]. split; [lia|]. apply Ha. right. by apply Z.eqb_eq.
  - unfold is_thread_call in Hnt. match goal with E : existsb _ _ = true |- _ => rewrite Hnt in E; discriminate E end.
  - apply call_returns. auto with kernel.
Qed.

(** ** Sequences of calls *)

Record kcall := mkCall { c_nr : Z; c_a0 : Z; c_a1 : Z; c_a2 : Z; c_a3 : Z; c_a4 : Z; c_a5 : Z }.

Definition kcall_run (fuel : nat) (c : kcall) (k : kernel) : outcome (Z * kernel) :=
  syscall_dispatch_inner fuel (c_nr c) (c_a0 c) (c_a1 c) (c_a2 c) (c_a3 c) (c_a4 c) (c_a5 c) k.

Fixpoint krun (fuel : nat) (cs : list kcall) (k : kernel) : outcome kernel :=
  match cs with [] => Ret k | c :: cs' => do! (_, k) <- kcall_run fuel c k; krun fuel cs' k end.

Definition kcall_ok (fuel : nat) (c : kcall) (k : kernel) : Prop :=
  room k /\ args_ok fuel (c_nr c) (c_a0 c) (c_a1 c) (c_a3 c) k /\ is_thread_call (c_nr c) = false /\
  0 <= c_a1 c < 2 ^ 64 /\ 0 <= c_a2 c < 2 ^ 64 /\ 0 <= c_a3 c < 2 ^ 64.

Fixpoint kcalls_ok (fuel : nat) (cs : list kcall) (k : kernel) : Prop :=
  match cs with
  | [] => True
  | c :: cs' => kcall_ok fuel c k /\ match kcall_run fuel c k with Ret (_, k') => kcalls_ok fuel cs' k' | _ => True end
  end.

(** The same, decided. *)
Definition kcall_okb (fuel : nat) (c : kcall) (k : kernel) : bool :=
  let word (a : Z) := (0 <=? a) && (a <? 2 ^ 64) in
  ((NEXT_FD (k_tmpfs k) <? 2 ^ 31 - 1) && (NEXT_VFS_FD (k_vfs k) <? 2 ^ 31 - 1) && (NEXT_PIPE_FD (k_pipes k) <? 2 ^ 31 - 2) &&
   (NEXT_SOCK_FD (k_socks k) <? 2 ^ 31 - 1)) &&
  ((if (c_nr c =? 76) || (c_nr c =? 77) then c_a1 c <? 2 ^ 64 - CAP else true) &&
   (if (c_nr c =? 50) || (c_nr c =? 52) then tcp_or_free (k_socks k) (i32 (c_a0 c)) else true) &&
   (if (c_nr c =? 43) || (c_nr c =? 288) then
      match accept_snapshot (i32 (c_a0 c)) (i32 (c_a3 c)) (k_socks k) with
      | inr (false, port, addr) => accept_kept fuel (i32 (c_a0 c)) port addr k
      | _ => true
      end
    else true)) &&
  negb (is_thread_call (c_nr c)) && word (c_a1 c) && word (c_a2 c) && word (c_a3 c).

Fixpoint kcalls_okb (fuel : nat) (cs : list kcall) (k : kernel) : bool :=
  match cs with
  | [] => true
  | c :: cs' => kcall_okb fuel c k && match kcall_run fuel c k with Ret (_, k') => kcalls_okb fuel cs' k' | _ => true end
  end.

Lemma kcall_okb_ok fuel c k : kcall_okb fuel c k = true -> kcall_ok fuel c k.
Proof.
  unfold kcall_okb, kcall_ok. intros Hc. repeat (apply andb_true_iff in Hc as [Hc ?]). bool_to_prop.
  split; [by constructor|]. split; [|split_and!; (done || lia)]. split.
  - intros [E|E]; rewrite E in *; cbn in *; bool_to_prop; lia.
  - split; [intros [E|E]; rewrite E in *; cbn in *; by apply tcp_or_free_iff|].
    intros [E|E] port addr Es; rewrite E, Es in *; cbn in *; done.
Qed.

Lemma kcalls_okb_ok fuel cs k : kcalls_okb fuel cs k = true -> kcalls_ok fuel cs k.
Proof.
  revert k. induction cs as [|c cs IH]; intros k; cbn [kcalls_okb kcalls_ok]; [done|]. intros [H1' H2']%andb_true_iff.
  split; [by apply kcall_okb_ok|]. destruct (kcall_run fuel c k) as [[r k']| |]; auto.
Qed.

(** The kernel when the program starts. *)
Definition booted (k : kernel) : Prop :=
  k_tmpfs k = Tmpfs.init Tmpfs.boot_state /\ k_vfs k = Vfs.boot_state /\ k_pipes k = Pipe.boot_state /\
  (k_socks k = Socket.boot_state \/ k_socks k = init_with_transport Socket.boot_state \/
   exists lease, k_socks k = init_with_ena lease Socket.boot_state) /\
  k_epoll k = replicate EPOLL_MAX no_entry /\ rng_ok (k_rng k).

Lemma boot_pipes_ok : table_ok Pipe.boot_state.
Proof.
  assert (E : all_ends (PIPES Pipe.boot_state) = []) by (unfold Pipe.boot_state; cbn [PIPES]; by vm_compute).
  constructor; rewrite ?E; [|cbn; lia|constructor..]. apply Forall_replicate, empty_ok.
Qed.

Lemma boot_epoll_ok : epoll_ok (replicate EPOLL_MAX no_entry).
Proof.
  split; [apply length_replicate|]. replace (registered (replicate EPOLL_MAX no_entry)) with (@nil EpollEntry); [constructor|].
  generalize EPOLL_MAX as n. induction n as [|n IH]; [done|]. cbn [replicate]. unfold registered. rewrite filter_cons_False by (cbn; lia). exact IH.
Qed.

Lemma booted_kinv k : booted k -> kinv k.
Proof.
  intros (E1 & E2 & E3 & E4 & E5 & Hr). constructor; rewrite ?E1, ?E2, ?E3, ?E5; [apply init_inv| |apply boot_pipes_ok| |apply boot_epoll_ok|done].
  - apply VfsInv.boot_inv, gm_length.
  - destruct E4 as [-> | [-> | [lease ->]]]; [apply boot_sinv|apply start_ok; [apply boot_sinv|done]|].
    unfold init_with_ena. destruct (set_insert _ _). apply start_ok; [apply boot_sinv|done].
Qed.

Lemma krun_ok fuel cs k :
  kinv k -> kcalls_ok fuel cs k ->
  match krun fuel cs k with
  | Ret k' => kinv k'
  | Panic => False
  | OutOfFuel => existsb (fun c => may_wait (c_nr c)) cs = true
  end.
Proof.
  revert k. induction cs as [|c cs IH]; intros k Hk; cbn [krun kcalls_ok existsb]; [done|].
  intros [(Hr & Ha & Ht & H1' & H2' & H3') Hcs]. pose proof (dispatch_ok fuel _ _ _ _ _ (c_a4 c) (c_a5 c) k Hk Hr Ha Ht H1' H2' H3') as Hc.
  fold (kcall_run fuel c k) in Hc. unfold call_result in Hc. destruct (may_wait (c_nr c)); cbn [orb].
  - destruct (kcall_run fuel c k) as [[r k']| |]; [|done..]. cbn [obind]. specialize (IH k' Hc Hcs). by destruct (krun fuel cs k').
  - destruct Hc as (r & k' & E & Hk'). rewrite E in *. cbn [obind]. by apply IH.
Qed.

(** C2: no sequence of system calls takes the kernel down.  From boot (without a
    network, with a virtio one, or with ENA and any lease), with a well-formed archive
    and other threads that keep the invariant, whatever calls but the scheduler's own
    the program makes with whatever arguments, as long as the counters of descriptors
    have numbers left: the kernel does not panic, but for a truncation to a length
    near 2^64, [listen] or [getpeername] on a UDP socket, and an [accept] whose number
    the other threads make that of a UDP socket while it waits ([args_ok]); after
    every call that returned, the invariants of tmpfs, the archive's file system, the
    pipes, the sockets, the epoll table and the random generator hold; and only the
    calls that wait for input can fail to return. *)
Theorem syscalls_safe fuel cs k :
  booted k -> kcalls_ok fuel cs k ->
  match krun fuel cs k with
  | Ret k' => kinv k'
  | Panic => False
  | OutOfFuel => existsb (fun c => may_wait (c_nr c)) cs = true
  end.
Proof. intros Hb. by apply krun_ok, booted_kinv. Qed.
End calls.

(** ** An instance *)

Definition toy_chacha : ChaCha20 := {| chacha := Z; from_seed l := le_val l; fill_bytes n s := (le_bytes n s, s + 1) |}.

#[local] Existing Instance toy.
#[local] Existing Instance toy_chacha.

(** A connection on socket 3 is there at half of the scans of the network. *)
Definition toy_machine : Machine := {|
  cpio_data := archive demo_members [];
  tsc n := mkReading (1000 * Z.of_nat n) 0;
  net_event n := if (n mod 4 <? 2)%nat then toy_syn 3 else toy_quiet;
  typed n := [104; 105];
  hw_step n := (true, Z.of_nat n);
  others n k := k;
  thread_call _ _ _ _ _ _ k := Ret (0, k);
  num_cpus := 2;
  kbuf := 8388608
|}.
#[local] Existing Instance toy_machine.

Lemma toy_send l (t : tcp) n t' : tcp_send_slice l t = (Some n, t') -> 0 <= n <= zlen l.
Proof.
  cbn. destruct (toy_in _ t); [|done]. intros [= <- _]. pose proof (zlen_nonneg l). unfold sat_sub. lia.
Qed.

Definition toy_good : GoodMachine.
Proof.
  refine {| members := demo_members; trailer := []; gm_archive := eq_refl; gm_members := demo_members_ok; gm_fresh := toy_fresh; gm_send := toy_send |}.
  - by vm_compute.
  - intros n. exists 0%nat. split; [lia|done].
  - done.
Defined.
#[local] Existing Instance toy_good.

(** Paths and an address where the calls below expect them. *)
Definition toy_mem : mem :=
  mem_write (mem_write (mem_write toy_addr 16384 (b "/tmp/log")) 16640 (b "/lib/a.beam")) 16896 (b "/tmp/d").

Definition toy_kernel : kernel :=
  mkKernel (Tmpfs.init Tmpfs.boot_state) Vfs.boot_state Pipe.boot_state (init_with_transport Socket.boot_state)
    (replicate EPOLL_MAX no_entry) Mmap.boot_state boot_clock (mkState (mkHw true false) (Some 7) 0 0) ([], 0) [] [] false false toy_mem 0.

Definition toy_calls : list kcall :=
  [mkCall 2 16384 66 420 0 0 0; mkCall 1 4000 16384 8 0 0 0; mkCall 2 16640 0 0 0 0 0; mkCall 0 1000 20480 4 0 0 0;
   mkCall 22 24576 0 0 0 0 0; mkCall 1 201 16384 4 0 0 0; mkCall 233 50 1 200 0 0 0; mkCall 232 50 28672 8 0 0 0;
   mkCall 41 2 1 0 0 0 0; mkCall 49 500 4096 16 0 0 0; mkCall 83 16896 511 0 0 0 0; mkCall 318 32768 16 0 0 0 0;
   mkCall 77 4000 3 0 0 0 0; mkCall 3 1000 0 0 0 0 0; mkCall 0 0 36864 2 0 0 0;
   mkCall 50 500 128 0 0 0 0; mkCall 43 500 0 0 0 0 0].

Lemma toy_booted : booted toy_kernel.
Proof. repeat split; [by right; left|eauto]. Qed.

Lemma toy_calls_ok : kcalls_ok 3 toy_calls toy_kernel.
Proof. apply kcalls_okb_ok. vm_compute. reflexivity. Qed.

Lemma syscalls_safe_witness :
  exists k', krun 3 toy_calls toy_kernel = Ret k' /\ kinv k' /\ NEXT_PIPE_FD (k_pipes k') = 202 /\ uart_out k' = [104; 105] /\ NEXT_SOCK_FD (k_socks k') = 502.
Proof.
  pose proof (syscalls_safe 3 toy_calls toy_kernel toy_booted toy_calls_ok) as Hs.
  assert (match krun 3 toy_calls toy_kernel with Ret k' => (NEXT_PIPE_FD (k_pipes k'), uart_out k', NEXT_SOCK_FD (k_socks k')) | _ => (0, [], 0) end = (202, [104; 105], 502)) as E
    by (clear; vm_compute; reflexivity).
  destruct (krun 3 toy_calls toy_kernel) as [k'| |]; [|discriminate E..]. injection E as E1 E2 E3. exists k'. split_and!; assumption || reflexivity.
Defined.

(** The kernel a sequence of calls leads to. *)
Definition toy_after_calls (cs : list kcall) : kernel :=
  match krun 3 cs toy_kernel with Ret k => k | _ => toy_kernel end.

Lemma toy_after_kinv cs : kcalls_okb 3 cs toy_kernel = true -> kinv (toy_after_calls cs).
Proof.
  intros Hc%kcalls_okb_ok. pose proof (booted_kinv _ toy_booted) as Hb. pose proof (krun_ok 3 cs toy_kernel Hb Hc) as Hk.
  unfold toy_after_calls. by destruct (krun 3 cs toy_kernel).
Qed.
