(* ===== verification/SyscallFds.v ===== *)
(** * The descriptor table of the kernel

    No table says which component has a descriptor: each call asks the components
    in turn, and each hands out numbers of a range of its own.  While the ranges
    last, a number belongs to one component, and the calls do to the open
    descriptors what they do on a table with one entry for each; past them, one
    number names two objects. *)

From S2P Require Import Prelude Dirent Tmpfs TmpfsInv Vfs VfsProofs VfsDir VfsInv Pipe PipeProofs.
From S2P Require Import Mmap Rtc Clock Socket SocketProofs Rng Syscall Descriptors SyscallInv.

Section fds.
Context `{GoodMachine}.

(** Every descriptor that is open. *)
Definition open_numbers (k : kernel) : list Z :=
  tmpfs_fds (k_tmpfs k) ++ vfs_fds (k_vfs k) ++ dir_fds (k_vfs k) ++ pipe_fds (k_pipes k) ++ sock_fds (k_socks k).

(** No range has run into the next. *)
Record apart (k : kernel) : Prop := mkApart {
  ap_pipes : NEXT_PIPE_FD (k_pipes k) <= 500;
  ap_socks : NEXT_SOCK_FD (k_socks k) <= 900;
  ap_vfs : NEXT_VFS_FD (k_vfs k) <= 4000
}.

(** Where each component's numbers lie. *)
Lemma ranges k :
  kinv k -> apart k ->
  Forall (fun n => 4000 <= n) (tmpfs_fds (k_tmpfs k)) /\ Forall (fun n => 1000 <= n < 4000) (vfs_fds (k_vfs k)) /\
  Forall (fun n => 900 <= n < 1000) (dir_fds (k_vfs k)) /\ Forall (fun n => 200 <= n < 500) (pipe_fds (k_pipes k)) /\
  Forall (fun n => 500 <= n < 900) (sock_fds (k_socks k)).
Proof.
  intros Hk [Hp Hs Hv]. split_and!.
  - destruct (ki_tmpfs _ Hk) as (_ & fs & E & _ & [_ _ Hr _]). unfold tmpfs_fds. rewrite E. apply Forall_fmap.
    eapply Forall_impl; [exact Hr|]. cbn. unfold TMPFS_FD_BASE. lia.
  - eapply Forall_impl; [exact (VfsInv.inv_range _ _ (ki_vfs _ Hk))|]. cbn. lia.
  - destruct (dir_numbers _ (inv_dirs _ _ (ki_vfs _ Hk))) as [_ Hf]. rewrite (inv_slots _ _ (ki_vfs _ Hk)) in Hf.
    eapply Forall_impl; [exact Hf|]. cbn. unfold MAX_DIRS. lia.
  - eapply Forall_impl; [exact (tbl_range _ (ki_pipes _ Hk))|]. cbn. lia.
  - destruct (sock_numbers _ _ (ki_socks _ Hk)) as [_ Hf]. eapply Forall_impl; [exact Hf|]. cbn. lia.
Qed.

Lemma numbers_nodup k : kinv k -> apart k -> NoDup (open_numbers k).
Proof.
  intros Hk Ha. destruct (ranges k Hk Ha) as (R1 & R2 & R3 & R4 & R5). rewrite Forall_forall in *. unfold open_numbers.
  repeat (apply NoDup_app; split; [|split]).
  - destruct (ki_tmpfs _ Hk) as (_ & fs & E & _ & [_ Hn _ _]). unfold tmpfs_fds. by rewrite E.
  - intros n Hn Hin. specialize (R1 _ Hn). rewrite !elem_of_app in Hin.
    destruct Hin as [Hin|[Hin|[Hin|Hin]]]; [apply R2 in Hin|apply R3 in Hin|apply R4 in Hin|apply R5 in Hin]; lia.
  - apply (VfsInv.inv_nodup _ _ (ki_vfs _ Hk)).
  - intros n Hn Hin. specialize (R2 _ Hn). rewrite !elem_of_app in Hin.
    destruct Hin as [Hin|[Hin|Hin]]; [apply R3 in Hin|apply R4 in Hin|apply R5 in Hin]; lia.
  - apply dir_numbers, (inv_dirs _ _ (ki_vfs _ Hk)).
  - intros n Hn Hin. specialize (R3 _ Hn). rewrite !elem_of_app in Hin. destruct Hin as [Hin|Hin]; [apply R4 in Hin|apply R5 in Hin]; lia.
  - apply (tbl_nodup _ (ki_pipes _ Hk)).
  - intros n Hn Hin. specialize (R4 _ Hn). apply R5 in Hin. lia.
  - by eapply sock_numbers, Hk.
Qed.

(** ** Calls that leave the table alone *)

Definition same_numbers (k k' : kernel) : Prop := open_numbers k' ≡ₚ open_numbers k.
Definition keeps (k : kernel) (o : outcome (Z * kernel)) : Prop :=
  match o with Ret (_, k') => same_numbers k k' | _ => True end.

#[export] Instance same_numbers_equivalence : Equivalence same_numbers.
Proof. split; unfold same_numbers; [by intros k|by intros k k' ->|by intros k1 k2 k3 -> ->]. Qed.
Lemma same_eq k k' : open_numbers k' = open_numbers k -> same_numbers k k'.
Proof. unfold same_numbers. by intros ->. Qed.

Lemma same_parts k k' :
  tmpfs_fds (k_tmpfs k') = tmpfs_fds (k_tmpfs k) -> vfs_fds (k_vfs k') ≡ₚ vfs_fds (k_vfs k) -> dir_fds (k_vfs k') = dir_fds (k_vfs k) ->
  pipe_fds (k_pipes k') = pipe_fds (k_pipes k) -> sock_fds (k_socks k') = sock_fds (k_socks k) -> same_numbers k k'.
Proof. unfold same_numbers, open_numbers. by intros -> -> -> -> ->. Qed.

Lemma same_tmpfs o k r s m k' :
  TmpfsInv.exec o (k_tmpfs k) (k_mem k) = Ret (r, s, m) ->
  match o with TmpfsInv.OpOpen _ _ _ | TmpfsInv.OpClose _ => False | _ => True end ->
  k_tmpfs k' = s -> k_vfs k' = k_vfs k -> k_pipes k' = k_pipes k -> k_socks k' = k_socks k -> same_numbers k k'.
Proof. intros Hx Ho E1 E2 E3 E4. destruct (tmpfs_exec_same _ _ _ _ _ _ Hx Ho) as [Hs _]. apply same_parts; by rewrite ?E1, ?E2, ?E3, ?E4. Qed.

Lemma same_vfs o k r s m k' :
  VfsInv.exec cpio_data o (k_vfs k) (k_mem k) = Ret (r, s, m) ->
  match o with VfsInv.OpOpen _ | VfsInv.OpDup _ | VfsInv.OpOpenDir _ | VfsInv.OpClose _ | VfsInv.OpCloseDir _ => False | _ => True end ->
  k_tmpfs k' = k_tmpfs k -> k_vfs k' = s -> k_pipes k' = k_pipes k -> k_socks k' = k_socks k -> same_numbers k k'.
Proof. intros Hx Ho E1 E2 E3 E4. destruct (vfs_exec_same _ _ _ _ _ _ _ Hx Ho) as (Hs & Hd & _). apply same_parts; rewrite ?E1, ?E2, ?E3, ?E4; by rewrite ?Hs. Qed.

Lemma same_socks k s k' :
  sock_same (k_socks k) s ->
  k_tmpfs k' = k_tmpfs k -> k_vfs k' = k_vfs k -> k_pipes k' = k_pipes k -> k_socks k' = s -> same_numbers k k'.
Proof. intros (Hs & _) E1 E2 E3 E4. apply same_parts; by rewrite ?E1, ?E2, ?E3, ?E4. Qed.

Lemma same_pipes k s k' :
  pipe_fds s = pipe_fds (k_pipes k) ->
  k_tmpfs k' = k_tmpfs k -> k_vfs k' = k_vfs k -> k_pipes k' = s -> k_socks k' = k_socks k -> same_numbers k k'.
Proof. intros Hs E1 E2 E3 E4. apply same_parts; by rewrite ?E1, ?E2, ?E3, ?E4. Qed.

Lemma keeps_ret r k k' : open_numbers k' = open_numbers k -> keeps k (Ret (r, k')).
Proof. cbn. unfold same_numbers. by intros ->. Qed.
Lemma keeps_trans k k1 o : same_numbers k k1 -> keeps k1 o -> keeps k o.
Proof. intros Hs. destruct o as [[r k']| |]; [|done..]. cbn. unfold same_numbers in *. by intros ->. Qed.

(** Closes an arm that changed no component. *)
Ltac untouched := by repeat case_match; apply keeps_ret.

Lemma keeps_write fd buf count k : kinv k -> 0 <= count < 2 ^ 64 -> keeps k (sys_write fd buf count k).
Proof.
  intros Hk Hc. unfold sys_write. destruct (is_tmpfs_fd _ fd).
  { destruct (Tmpfs.write _ _ _ _ _) as [r s] eqn:E. cbn [keeps snd]. eapply (same_tmpfs (TmpfsInv.OpWrite fd buf count)); try done. cbn [TmpfsInv.exec]. by rewrite E. }
  destruct (_ || _); [untouched|]. destruct (_ =? _); [untouched|]. destruct (is_pipe_fd _ fd).
  { pose proof (pipe_write_same (k_pipes k) (k_mem k) fd buf count (ki_pipes _ Hk) ltac:(lia)) as Hs. destruct (Pipe.write _ _ _ _ _). by eapply same_pipes. }
  destruct (is_socket_fd _ fd); [|untouched]. destruct (sys_sendto _ _ _ _ _ _ _) as [[r s]| |] eqn:E; [|done..]. cbn.
  eapply same_socks; [by eapply sendto_same|done..].
Qed.

Lemma keeps_writev n i fd iov total k : kinv k -> keeps k (writev_loop n i fd iov total k).
Proof.
  revert i total k. induction n as [|n IH]; intros i total k Hk; cbn [writev_loop]; [untouched|]. destruct (_ =? 0); [auto|].
  pose proof (keeps_write fd (iov_base (k_mem k) iov i) (iov_len (k_mem k) iov i) k Hk (load64_range _ _)) as Hs.
  destruct (sys_write_ok fd (iov_base (k_mem k) iov i) (iov_len (k_mem k) iov i) k Hk (load64_range _ _)) as (r & k' & E & Hk'). rewrite E in *.
  cbn [obind keeps] in *. destruct (r <? 0); [done|]. destruct (_ <? _); [done|]. eapply keeps_trans; [done|]. by apply IH.
Qed.

Lemma keeps_sendfile_loop fuel out_fd in_fd off total remaining k :
  kinv k -> match sendfile_loop fuel out_fd in_fd off total remaining k with Ret (_, k') => same_numbers k k' | _ => True end.
Proof.
  revert off total remaining k. induction fuel as [|fuel IH]; intros off total remaining k Hk; cbn [sendfile_loop]; [done|].
  destruct (_ <=? 0); [done|]. destruct (Vfs.pread _ _ _ _ _ _ _) as [[n m]| |]; [|done..]. cbn [obind]. destruct (n <? 0); [by apply same_eq|].
  destruct (n =? 0); [by apply same_eq|].
  destruct (send_ok out_fd kbuf n 0 (net_event (tick (set_mem k m))) (k_mem (set_mem k m)) (k_socks (set_mem k m)) [] (ki_socks _ Hk)) as (r & s & E & Hs).
  rewrite E. cbn [obind]. apply sendto_same in E. set (k1 := set_socks _ s).
  assert (Hs1 : same_numbers k k1) by (by eapply same_socks; [exact E|done..]). assert (Hk1 : kinv k1) by (by apply kinv_socks, Hs; apply kinv_tick, kinv_mem).
  destruct (r <? 0); [done|]. destruct (_ <? _); [done|]. specialize (IH (u64 (off + r)) (u64 (total + r)) (u64 (remaining - r)) k1 Hk1).
  destruct (sendfile_loop _ _ _ _ _ _ _) as [[e k2]| |]; [|done..]. by rewrite Hs1.
Qed.

Lemma same_lseek fd off whence k k' :
  k' = set_vfs k (Vfs.lseek (k_vfs k) fd off whence).2 -> same_numbers k k'.
Proof. intros ->. by eapply (same_vfs (VfsInv.OpLseek fd off whence)). Qed.

Lemma keeps_sendfile out_fd in_fd ptr count k : kinv k -> keeps k (sys_sendfile out_fd in_fd ptr count k).
Proof.
  intros Hk. unfold sys_sendfile. destruct (negb _); [untouched|]. destruct (negb _); [untouched|].
  set (q := if ptr =? 0 then _ else _). set (k1 := set_vfs k q.2).
  assert (kinv k1 /\ same_numbers k k1) as [Hk1 Hs1].
  { unfold k1, q. destruct (ptr =? 0); [|split; [by destruct Hk|by apply same_eq]]. split; [|by eapply same_lseek].
    destruct (vfs_call (VfsInv.OpLseek in_fd 0 1) k (k_mem k) Hk ltac:(by right) ltac:(cbn; lia)) as (n & s & m & E & Hs).
    injection E as _ <- _. by apply kinv_vfs. }
  destruct q as [p s]. cbn [snd] in k1. fold k1. destruct (_ && _); [exact Hs1|].
  pose proof (keeps_sendfile_loop (S (S (Z.to_nat count))) out_fd in_fd p 0 count k1 Hk1) as Hl.
  destruct (sendfile_loop _ _ _ _ _ _ _) as [[e k2]| |]; [|done..]. cbn [obind]. destruct e as [e|[t o]]; cbn [keeps]; [by rewrite Hs1|].
  rewrite Hs1, Hl. destruct (ptr =? 0); [by eapply same_lseek|by apply same_eq].
Qed.

Lemma keeps_stat path buf k : kinv k -> room k -> keeps k (stat_path path buf k).
Proof.
  intros Hk Hr. unfold stat_path. destruct (owns_path path); [untouched|]. set (k1 := if buf =? 0 then k else _).
  assert (kinv k1 /\ room k1 /\ same_numbers k k1) as (Hk1 & Hr1 & Hs1).
  { unfold k1. destruct (buf =? 0); [done|]. split_and!; [by apply kinv_mem|by destruct Hr|by apply same_eq]. }
  clearbody k1. apply (keeps_trans _ _ _ Hs1). destruct (_ || _); [untouched|]. destruct (bytes_eqb _ _); [untouched|].
  destruct (vfs_open_ok path k1 Hk1 Hr1) as (r & s & E & Hk2). rewrite E. cbn [obind].
  pose proof (vfs_open_fds _ _ _ _ _ E (ki_vfs _ Hk1) (rm_vfs _ Hr1)) as (Ed & _ & Hn). destruct (0 <=? r) eqn:Er; bool_to_prop.
  - destruct Hn as [[? _]|[Er' Hn]]; [lia|]. cbn [keeps]. set (k2 := if buf =? 0 then _ else _). cbn zeta.
    assert (Hv : k_vfs k2 = s) by (unfold k2; by destruct (buf =? 0)). rewrite Hv.
    destruct (vfs_close_fds cpio_data s (i32 r) (ki_vfs _ Hk2)) as (Hc & Hcd & _).
    pose proof (VfsInv.inv_range _ _ (ki_vfs _ Hk1)) as Hrng. fold (vfs_fds (k_vfs k1)) in Hrng.
    assert (Hi : i32 r = r) by (pose proof (rm_vfs _ Hr1); pose proof (inv_next _ _ (ki_vfs _ Hk1)); apply i32_small; lia).
    apply same_parts; cbn [k_tmpfs k_vfs k_pipes k_socks set_vfs]; try (unfold k2; by destruct (buf =? 0)).
    + rewrite Hc, Hi, Hn, filter_cons_False by (by intros Hne; apply Hne). rewrite filter_absent; [done|].
      intros Hin. rewrite Forall_forall in Hrng. specialize (Hrng _ Hin). cbn in Hrng. lia.
    + by rewrite Hcd.
  - assert (Hs2 : same_numbers k1 (set_vfs k1 s)).
    { destruct Hn as [[_ Hn]|[Er' _]]; [|pose proof (inv_next _ _ (ki_vfs _ Hk1)); lia]. apply same_parts; try done. cbn. by rewrite Hn. }
    destruct (is_dir_prefix _ _) as [d| |]; [|done..]. cbn [obind]. destruct (_ || _); cbn [keeps]; [|done].
    transitivity (set_vfs k1 s); [done|]. destruct (buf =? 0); by apply same_eq.
Qed.

Lemma keeps_read fuel fd buf count k :
  kinv k -> 0 <= count < 2 ^ 64 -> fd <> 0 -> is_pipe_fd (k_pipes k) fd = false -> keeps k (sys_read fuel fd buf count k).
Proof.
  intros Hk Hc Hfd Hp. unfold sys_read. rewrite (proj2 (Z.eqb_neq _ _) Hfd), Hp. destruct (is_tmpfs_fd _ fd).
  { destruct (Tmpfs.read _ _ _ _ _) as [[r s] m] eqn:E. cbn. eapply (same_tmpfs (TmpfsInv.OpRead fd buf count)); [cbn [TmpfsInv.exec]; by rewrite E|done..]. }
  destruct (is_vfs_fd _ fd).
  { destruct (Vfs.read _ _ _ _ _ _) as [[[r s] m]| |] eqn:E; [|done..]. cbn. by eapply (same_vfs (VfsInv.OpRead fd buf count)). }
  destruct (fd =? FD_DEV_RANDOM).
  { destruct (count =? 0); [untouched|]. destruct (fill_raw _ _ _ _ _) as [[m s]| |]; [|done..]. cbn [obind]. untouched. }
  destruct (fd =? FD_RESOLV_CONF); [untouched|]. destruct (fd =? FD_SYNTH_ZERO); [untouched|]. destruct (fd =? FD_TIMER).
  { unfold with_clock. destruct (timerfd_consume _ _) as [n c]. untouched. }
  destruct (is_socket_fd _ fd); [|untouched]. destruct (sys_recvfrom _ _ _ _ _ _ _ _) as [[[r m] s]| |] eqn:E; [|done..]. cbn.
  eapply same_socks; [by eapply recvfrom_same|done..].
Qed.

Lemma keeps_lseek fd off whence k : same_numbers k (sys_lseek fd off whence k).2.
Proof.
  unfold sys_lseek. destruct (is_tmpfs_fd _ _).
  { destruct (Tmpfs.lseek _ _ _ _) as [r s] eqn:E. cbn [keeps snd]. eapply (same_tmpfs (TmpfsInv.OpLseek fd off whence)); [cbn [TmpfsInv.exec]; by rewrite E|done..]. }
  destruct (is_vfs_fd _ _); [|by apply same_eq]. destruct (Vfs.lseek _ _ _ _) as [r s] eqn:E. cbn. apply (same_lseek fd off whence). by rewrite E.
Qed.

Lemma keeps_getdents fd buf count k : keeps k (sys_getdents64 fd buf count k).
Proof.
  unfold sys_getdents64. destruct (_ =? _); [untouched|]. destruct (is_tmpfs_fd _ _).
  { destruct (Tmpfs.getdents64 _ _ _ _ _) as [[r s] m] eqn:E. cbn. eapply (same_tmpfs (TmpfsInv.OpGetdents fd buf count)); [cbn [TmpfsInv.exec]; by rewrite E|done..]. }
  destruct (Vfs.getdents64 _ _ _ _ _ _) as [[[r s] m]| |] eqn:E; [|done..]. cbn. by eapply (same_vfs (VfsInv.OpGetdents fd buf count)).
Qed.

Lemma keeps_path (op : bytes -> TmpfsInv.op) ptr e f k :
  (forall p, TmpfsInv.exec (op p) (k_tmpfs k) (k_mem k) = (do! (r, s) <- f p (k_tmpfs k); Ret (r, s, k_mem k))) ->
  (forall p, match op p with TmpfsInv.OpOpen _ _ _ | TmpfsInv.OpClose _ => False | _ => True end) -> keeps k (tmpfs_path ptr e f k).
Proof.
  intros He Ho. unfold tmpfs_path. destruct (owns_path _); [|untouched]. specialize (He (copy_path (k_mem k) ptr)).
  destruct (f _ (k_tmpfs k)) as [[r s]| |]; [|done..]. cbn [obind] in *. cbn. eapply same_tmpfs; [exact He|apply Ho|done..].
Qed.

Lemma keeps_rename old new k : keeps k (sys_rename old new k).
Proof.
  unfold sys_rename. destruct (_ && _); [|untouched]. destruct (rename _ _ _) as [r s] eqn:E. cbn [keeps snd].
  eapply (same_tmpfs (TmpfsInv.OpRename (copy_path (k_mem k) old) (copy_path (k_mem k) new))); [cbn [TmpfsInv.exec]; by rewrite E|done..].
Qed.

Lemma keeps_ftruncate fd len k : keeps k (sys_ftruncate fd len k).
Proof.
  unfold sys_ftruncate. destruct (ftruncate _ _ _) as [[r s]| |] eqn:E; [|done..]. cbn.
  eapply (same_tmpfs (TmpfsInv.OpFtruncate fd len)); [cbn [TmpfsInv.exec]; by rewrite E|done..].
Qed.

Lemma keeps_pread fd buf count off k : keeps k (sys_pread64 fd buf count off k).
Proof.
  unfold sys_pread64. destruct (is_tmpfs_fd _ _); [untouched|]. destruct (is_vfs_fd _ _); [|untouched].
  destruct (Vfs.pread _ _ _ _ _ _ _) as [[r m]| |]; [|done..]. cbn [obind]. untouched.
Qed.

Lemma keeps_pwrite fd buf count off k : same_numbers k (sys_pwrite64 fd buf count off k).2.
Proof.
  unfold sys_pwrite64. destruct (is_tmpfs_fd _ _); [|by apply same_eq]. destruct (Tmpfs.pwrite _ _ _ _ _ _) as [r s] eqn:E. cbn [keeps snd].
  eapply (same_tmpfs (TmpfsInv.OpPwrite fd buf count off)); [cbn [TmpfsInv.exec]; by rewrite E|done..].
Qed.

Lemma keeps_fcntl fd cmd arg k : same_numbers k (sys_fcntl fd cmd arg k).2.
Proof.
  unfold sys_fcntl. destruct (cmd =? 4); [|by apply same_eq]. destruct (is_pipe_fd _ _); cbn [snd].
  - eapply same_pipes; [apply pipe_nonblock_same|done..].
  - destruct (is_socket_fd _ _); [|by apply same_eq]. eapply same_socks; [apply set_nonblock_same|done..].
Qed.

Lemma keeps_sendmsg fd msg k : kinv k -> same_numbers k (sys_sendmsg fd msg k).2.
Proof.
  intros Hk. unfold sys_sendmsg. destruct (is_pipe_fd _ _); [|by apply same_eq]. cbn [snd]. eapply same_pipes; [|done..].
  apply pipe_write_same; [apply Hk|apply u64_range].
Qed.

Lemma keeps_recvmsg fd msg k : keeps k (sys_recvmsg fd msg k).
Proof.
  unfold sys_recvmsg. destruct (is_socket_fd _ _); [|untouched]. destruct (_ <? _); [|untouched].
  destruct (sys_recvfrom _ _ _ _ _ _ _ _) as [[[r m] s]| |] eqn:E; [|done..]. cbn. eapply same_socks; [by eapply recvfrom_same|done..].
Qed.

(** ** Calls that let the other threads run *)

(** What the other threads do to the table while the CPU is theirs, and nothing else. *)
Definition meanwhile : relation kernel := rtc (fun k k' => same_numbers k k' \/ exists n, k' = others n k).

Lemma meanwhile_same k k' : same_numbers k k' -> meanwhile k k'.
Proof. intros Hs. apply rtc_once. by left. Qed.
Lemma meanwhile_trans k1 k2 k3 : meanwhile k1 k2 -> meanwhile k2 k3 -> meanwhile k1 k3.
Proof. unfold meanwhile. apply transitivity. Qed.
Lemma meanwhile_yield k : meanwhile k (yield_current k).
Proof.
  apply (rtc_l _ _ (set_uart_in (next_tick k) (uart_in k ++ typed (tick k)))); [left; by apply same_eq|].
  apply rtc_once. right. by eexists.
Qed.

(** A call that returned left the table as the others left it. *)
Definition during {A} (k : kernel) (o : outcome (A * kernel)) : Prop :=
  match o with Ret (_, k') => meanwhile k k' | _ => True end.

Lemma keeps_during k o : keeps k o -> during k o.
Proof. destruct o as [[r k']| |]; [apply meanwhile_same|done..]. Qed.
Lemma during_trans {A} k k1 (o : outcome (A * kernel)) : meanwhile k k1 -> during k1 o -> during k o.
Proof. intros Hm. destruct o as [[r k']| |]; [|done..]. cbn. by apply meanwhile_trans. Qed.
Lemma during_ret {A} (r : A) k k' : meanwhile k k' -> during k (Ret (r, k')).
Proof. done. Qed.

Lemma during_stdin fuel buf count k : during k (sys_read_stdin fuel buf count k).
Proof.
  revert k. induction fuel as [|fuel IH]; intros k; cbn [sys_read_stdin]; (destruct (count =? 0); [by apply meanwhile_same|]);
    (destruct (uart_in k); [|by apply meanwhile_same, same_eq]); [done|]. eapply during_trans; [apply meanwhile_yield|apply IH].
Qed.

Lemma during_read fuel fd buf count k : kinv k -> 0 <= count < 2 ^ 64 -> during k (sys_read fuel fd buf count k).
Proof.
  intros Hk Hc. destruct (decide (fd = 0)) as [->|Hfd]; [apply during_stdin|].
  destruct (is_pipe_fd (k_pipes k) fd) eqn:Hp; [|by apply keeps_during, keeps_read].
  unfold sys_read. rewrite (proj2 (Z.eqb_neq _ _) Hfd), Hp. destruct (is_tmpfs_fd _ fd).
  { destruct (Tmpfs.read _ _ _ _ _) as [[r s] m] eqn:E. apply meanwhile_same.
    eapply (same_tmpfs (TmpfsInv.OpRead fd buf count)); [cbn [TmpfsInv.exec]; by rewrite E|done..]. }
  destruct (is_vfs_fd _ fd).
  { destruct (Vfs.read _ _ _ _ _ _) as [[[r s] m]| |] eqn:E; [|done..]. apply meanwhile_same. by eapply (same_vfs (VfsInv.OpRead fd buf count)). }
  pose proof (pipe_read_same (k_pipes k) (k_mem k) fd buf count (ki_pipes _ Hk) ltac:(lia)) as Hs.
  destruct (Pipe.read _ _ _ _ _) as [[r s] m]. cbn [fst snd] in Hs. set (k1 := set_mem _ m).
  assert (Hk1 : meanwhile k k1) by (apply meanwhile_same; by eapply same_pipes).
  destruct (r =? Pipe.EINTR); [|done]. eapply meanwhile_trans; [exact Hk1|apply meanwhile_yield].
Qed.

Lemma during_readv fuel n i fd iov total k : kinv k -> during k (readv_loop fuel n i fd iov total k).
Proof.
  revert i total k. induction n as [|n IH]; intros i total k Hk; cbn [readv_loop]; [by apply meanwhile_same|].
  pose proof (during_read fuel fd (iov_base (k_mem k) iov i) (iov_len (k_mem k) iov i) k Hk (load64_range _ _)) as Hd.
  pose proof (sys_read_ok fuel fd (iov_base (k_mem k) iov i) (iov_len (k_mem k) iov i) k Hk (load64_range _ _)) as Ho.
  destruct (sys_read _ _ _ _ _) as [[r k']| |]; [|done..]. cbn [obind]. destruct (r <? 0); [done|]. destruct (_ <? _); [done|].
  eapply during_trans; [exact Hd|by apply IH].
Qed.

Lemma clock_numbers {A} (f : reading -> clock -> A * clock) k : same_numbers k (with_clock f k).2.
Proof. unfold with_clock. destruct (f _ _). by apply same_eq. Qed.

Lemma net_poll_numbers k k' : net_poll k = Ret k' -> same_numbers k k'.
Proof.
  unfold net_poll. destruct (poll _ _) as [s| |] eqn:E; [|done..]. cbn [obind]. intros [= <-]. by eapply same_socks; [eapply poll_same|..].
Qed.

Lemma epoll_ready_numbers e k r k' : epoll_ready e k = Ret (r, k') -> same_numbers k k'.
Proof.
  unfold epoll_ready. destruct (_ =? FD_TIMER).
  { pose proof (clock_numbers timerfd_ready k) as Hs. destruct (with_clock _ _). by intros [= _ <-]. }
  destruct (_ =? 0); [by intros [= _ <-]|]. destruct (is_pipe_fd _ _); [by intros [= _ <-]|]. destruct (is_socket_fd _ _); [|by intros [= _ <-]].
  destruct (poll_socket _ _) as [[v s]| |] eqn:E; [|done..]. intros [= _ <-]. by eapply same_socks; [eapply poll_socket_same|..].
Qed.

Lemma epoll_scan_numbers l ptr max count k r k' : epoll_scan l ptr max count k = Ret (r, k') -> same_numbers k k'.
Proof.
  revert count k. induction l as [|e l IH]; intros count k; cbn [epoll_scan]; [by intros [= _ <-]|]. destruct (max <=? count); [by intros [= _ <-]|].
  destruct (e_fd e <? 0); [apply IH|]. destruct (epoll_ready e k) as [[v k1]| |] eqn:E; [|done..]. cbn [obind]. apply epoll_ready_numbers in E.
  destruct (v =? 0); intros Hs%IH; [by transitivity k1|]. transitivity k1; [done|]. by rewrite <- Hs; apply same_eq.
Qed.

Lemma during_epoll fuel ptr max deadline k : during k (epoll_loop fuel ptr max deadline k).
Proof.
  revert k. induction fuel as [|fuel IH]; intros k; cbn [epoll_loop]; [done|]. destruct (net_poll k) as [k1| |] eqn:E1; [|done..]. cbn [obind].
  destruct (epoll_scan _ _ _ _ _) as [[n k2]| |] eqn:E2; [|done..]. cbn [obind]. apply net_poll_numbers in E1. apply epoll_scan_numbers in E2.
  assert (Hq2 : same_numbers k k2) by (by transitivity k1). destruct (0 <? n); [by apply meanwhile_same|].
  destruct deadline as [d|]; [destruct (d =? 0); [by apply meanwhile_same|]|].
  - unfold now. pose proof (clock_numbers monotonic_ns k2) as Hq3. destruct (with_clock _ _) as [t k3]. cbn [snd] in Hq3.
    assert (Hm : meanwhile k k3) by (apply meanwhile_same; by transitivity k2). destruct (d <=? t); [done|].
    eapply during_trans; [exact Hm|]. eapply during_trans; [apply meanwhile_yield|apply IH].
  - eapply during_trans; [by apply meanwhile_same|]. eapply during_trans; [apply meanwhile_yield|apply IH].
Qed.

Lemma during_epoll_wait fuel ptr max timeout k : during k (sys_epoll_wait fuel ptr max timeout k).
Proof.
  unfold sys_epoll_wait. destruct (_ =? -1); [apply during_epoll|]. destruct (0 <? timeout); [|apply during_epoll].
  unfold now. pose proof (clock_numbers monotonic_ns k) as Hs. destruct (with_clock _ _) as [t k1].
  eapply during_trans; [by apply meanwhile_same|apply during_epoll].
Qed.

Lemma ppoll_ready_numbers fd events k r k' : ppoll_ready fd events k = Ret (r, k') -> same_numbers k k'.
Proof.
  unfold ppoll_ready. destruct (fd =? 0); [by intros [= _ <-]|]. destruct (fd =? FD_TIMER).
  { destruct (negb _); [|by intros [= _ <-]]. pose proof (clock_numbers timerfd_ready k) as Hs. destruct (with_clock _ _). by intros [= _ <-]. }
  destruct (is_pipe_fd _ _); [by intros [= _ <-]|]. destruct (is_socket_fd _ _); [|by intros [= _ <-]].
  destruct (poll_socket _ _) as [[v s]| |] eqn:E; [|done..]. intros [= _ <-]. by eapply same_socks; [eapply poll_socket_same|..].
Qed.

Lemma ppoll_scan_numbers n i fds ready k r k' : ppoll_scan n i fds ready k = Ret (r, k') -> same_numbers k k'.
Proof.
  revert i ready k. induction n as [|n IH]; intros i ready k; cbn [ppoll_scan]; [by intros [= _ <-]|]. set (k1 := set_mem k _).
  assert (Hq1 : same_numbers k k1) by (by apply same_eq). destruct (_ =? 0); [intros Hs%IH; by transitivity k1|].
  destruct (ppoll_ready _ _ k1) as [[v k2]| |] eqn:E; [|done..]. cbn [obind]. apply ppoll_ready_numbers in E.
  destruct (v =? 0); intros Hs%IH; (transitivity k1; [done|]; transitivity k2; [done|]); [done|]. by rewrite <- Hs; apply same_eq.
Qed.

Lemma during_ppoll_loop fuel fds n target k : during k (ppoll_loop fuel fds n target k).
Proof.
  revert k. induction fuel as [|fuel IH]; intros k; cbn [ppoll_loop]; [done|]. destruct (net_poll _) as [k1| |] eqn:E1; [|done..]. cbn [obind].
  destruct (ppoll_scan _ _ _ _ _) as [[r k2]| |] eqn:E2; [|done..]. cbn [obind]. apply net_poll_numbers in E1. apply ppoll_scan_numbers in E2.
  assert (Hq2 : meanwhile k k2) by (eapply meanwhile_trans; [apply meanwhile_yield|]; apply meanwhile_same; by transitivity k1).
  destruct (0 <? r); [done|]. destruct target as [d|]; [|by eapply during_trans].
  unfold now. pose proof (clock_numbers monotonic_ns k2) as Hq3. destruct (with_clock _ _) as [t k3]. cbn [snd] in Hq3.
  assert (Hm : meanwhile k k3) by (eapply meanwhile_trans; [exact Hq2|by apply meanwhile_same]). destruct (d <=? t); [done|by eapply during_trans].
Qed.

Lemma deadline_numbers ptr scale k : same_numbers k (deadline_at ptr scale k).2.
Proof.
  unfold deadline_at, now. destruct (ptr =? 0); [done|]. pose proof (clock_numbers monotonic_ns k) as Hs. by destruct (with_clock _ _).
Qed.

Lemma during_ppoll fuel fds nfds timeout k : during k (sys_ppoll fuel fds nfds timeout k).
Proof.
  unfold sys_ppoll. destruct (net_poll k) as [k1| |] eqn:E1; [|done..]. cbn [obind]. apply net_poll_numbers in E1.
  pose proof (deadline_numbers timeout 1 k1) as Hq2. destruct (deadline_at _ _ _) as [target k2]. cbn [snd] in Hq2.
  destruct (ppoll_scan _ _ _ _ _) as [[r k3]| |] eqn:E3; [|done..]. cbn [obind]. apply ppoll_scan_numbers in E3.
  assert (Hm : meanwhile k k3).
  { eapply meanwhile_trans; [apply meanwhile_same; by transitivity k1|]. eapply meanwhile_trans; [apply meanwhile_yield|by apply meanwhile_same]. }
  destruct (0 <? r); [done|]. eapply during_trans; [exact Hm|apply during_ppoll_loop].
Qed.

Lemma select_loop_numbers fuel target k k' : select_loop fuel target k = Ret k' -> meanwhile k k'.
Proof.
  revert k. induction fuel as [|fuel IH]; intros k; cbn [select_loop]; [done|]. destruct target as [d|]; [|intros [= <-]; apply meanwhile_yield].
  unfold now. pose proof (clock_numbers monotonic_ns (yield_current k)) as Hs. destruct (with_clock _ _) as [t k1]. cbn [snd] in Hs.
  assert (Hm : meanwhile k k1) by (eapply meanwhile_trans; [apply meanwhile_yield|by apply meanwhile_same]).
  destruct (d <=? t); [by intros [= <-]|]. intros Hl%IH. by eapply meanwhile_trans.
Qed.

Lemma during_select fuel nfds timeout k : during k (sys_select fuel nfds timeout k).
Proof.
  unfold sys_select. destruct (if 0 <? nfds then net_poll k else Ret k) as [k1| |] eqn:E1; [|done..]. cbn [obind].
  assert (Hq1 : same_numbers k k1) by (destruct (0 <? nfds); [by apply net_poll_numbers|by injection E1 as <-]).
  pose proof (deadline_numbers timeout 1000 k1) as Hq2. destruct (deadline_at _ _ _) as [target k2]. cbn [snd] in Hq2.
  destruct (select_loop _ _ _) as [k3| |] eqn:E3; [|done..]. apply select_loop_numbers in E3. cbn.
  eapply meanwhile_trans; [|exact E3]. apply meanwhile_same. by transitivity k1.
Qed.

Lemma accept_loop_numbers fuel n port addr nb k r k' : sys_accept_loop fuel n port addr nb k = Ret (r, k') -> meanwhile k k'.
Proof.
  revert k. induction fuel as [|fuel IH]; intros k; cbn [sys_accept_loop]; [done|]. destruct (net_poll k) as [k1| |] eqn:E1; [|done..]. cbn [obind].
  destruct (accept_attempt _ _ _ _) as [[c s]| |] eqn:E2; [|done..]. cbn [obind]. apply net_poll_numbers in E1. apply attempt_same in E2.
  assert (Hq2 : meanwhile k (set_socks k1 s)) by (apply meanwhile_same; transitivity k1; [done|]; by eapply same_socks).
  destruct c as [c|]; [by intros [= _ <-]|]. destruct nb; [by intros [= _ <-]|]. intros Hl%IH.
  eapply meanwhile_trans; [exact Hq2|]. eapply meanwhile_trans; [apply meanwhile_yield|exact Hl].
Qed.

(** ** Calls that open a descriptor *)

(** An error, or one of the numbers of [/dev/null] and the like, which have no entry. *)
Definition unlisted (r : Z) : Prop := r < 0 \/ FD_DEVNULL <= r <= FD_RESOLV_CONF.

(** The result is a new number, or nothing was opened. *)
Definition adds (k : kernel) (o : outcome (Z * kernel)) : Prop :=
  match o with
  | Ret (r, k') => (unlisted r /\ same_numbers k k') \/ (0 <= r /\ open_numbers k' ≡ₚ r :: open_numbers k)
  | _ => True
  end.

Lemma adds_none r k k' : unlisted r -> same_numbers k k' -> adds k (Ret (r, k')).
Proof. by left. Qed.
Lemma adds_device r k k' : FD_DEVNULL <= r <= FD_RESOLV_CONF -> open_numbers k' = open_numbers k -> adds k (Ret (r, k')).
Proof. intros Hr E. left. split; [by right|by apply same_eq]. Qed.

Lemma adds_open path flags mode k : kinv k -> room k -> adds k (open_path path flags mode k).
Proof.
  intros Hk Hr. unfold open_path. repeat match goal with |- adds _ (if owns_path _ then _ else _) => fail 1 | |- adds _ (if ?c then _ else _) => destruct c; [by apply adds_device|] end.
  destruct (owns_path path).
  { destruct (Tmpfs.open _ _ _ _) as [r s] eqn:E. pose proof (tmpfs_open_fds _ _ _ _ _ _ E) as [[Hneg ->]|(Hn & Hs & _)]; [left; split; [by left|by apply same_eq]|right].
    split; [pose proof (proj1 (ki_tmpfs _ Hk)); unfold TMPFS_FD_BASE in *; lia|]. unfold open_numbers. cbn [k_tmpfs set_tmpfs k_vfs k_pipes k_socks]. rewrite Hs. solve_Permutation. }
  destruct (vfs_open_ok path k Hk Hr) as (r & s & E & Hk2). rewrite E. cbn [obind].
  pose proof (vfs_open_fds _ _ _ _ _ E (ki_vfs _ Hk) (rm_vfs _ Hr)) as (Ed & _ & Hn). pose proof (inv_next _ _ (ki_vfs _ Hk)).
  destruct (0 <=? r) eqn:Er; bool_to_prop.
  { right. split; [done|]. destruct Hn as [[? _]|[_ Hn]]; [lia|]. unfold open_numbers. cbn [k_tmpfs set_vfs k_vfs k_pipes k_socks]. rewrite Hn, Ed. solve_Permutation. }
  destruct Hn as [[_ Hn]|[? _]]; [|lia].
  assert (Hs2 : same_numbers k (set_vfs k s)) by (apply same_parts; try done; cbn; by rewrite Hn).
  destruct (is_dir_prefix _ _) as [d| |]; [|done..]. cbn [obind]. destruct d; [|left; split; [by left|done]]. cbn [k_vfs set_vfs].
  destruct (open_dir s path) as [r' s'] eqn:Eo. pose proof (open_dir_fds _ _ _ _ Eo) as (Ev & _ & [[Hneg Hd]|Hd]); [left; split; [by left|]|right].
  - apply same_parts; try done; cbn; by rewrite ?Ev, ?Hd, ?Hn.
  - assert (0 <= r') by (unfold open_dir in Eo; destruct (position _ _); injection Eo as <- <-; [unfold DIR_FD_BASE; lia|exfalso; by apply (Permutation_length (l := dir_fds s)) in Hd; cbn in Hd; lia]).
    split; [done|]. unfold open_numbers. cbn [k_tmpfs set_vfs k_vfs k_pipes k_socks]. rewrite Hd, Ev, Hn, Ed. solve_Permutation.
Qed.

Lemma adds_dup fd k : kinv k -> room k -> adds k (Ret (sys_dup fd k)).
Proof.
  intros Hk Hr. unfold sys_dup. destruct (is_vfs_fd _ _); [|apply adds_none; [by left|done]]. destruct (Vfs.dup _ _) as [r s] eqn:E. cbn [keeps snd].
  pose proof (vfs_dup_fds _ _ _ _ _ E (ki_vfs _ Hk) (rm_vfs _ Hr)) as (Ed & _ & [[Hneg Hn]|[Er Hn]]); [left; split; [by left|]|right].
  - apply same_parts; try done; cbn; by rewrite Hn.
  - split; [pose proof (inv_next _ _ (ki_vfs _ Hk)); lia|]. unfold open_numbers. cbn [k_tmpfs set_vfs k_vfs k_pipes k_socks]. rewrite Hn, Ed. solve_Permutation.
Qed.

Lemma entered_fds st x n st1 : sock_same st st1 -> fd x = (Socket.alloc_fd st1).1 -> n = (Socket.alloc_fd st1).1 ->
  sock_fds (push_socket (Socket.alloc_fd st1).2 x) = sock_fds st ++ [n].
Proof.
  intros (Es & _) Ef ->. destruct (alloc_fd_fds st1) as [Ea _]. unfold sock_fds in *. cbn. by rewrite fmap_app, Ea, Es, list_fmap_singleton, Ef.
Qed.

Lemma adds_socks k r s k' :
  sock_fds s = sock_fds (k_socks k) ++ [r] -> 0 <= r ->
  k_tmpfs k' = k_tmpfs k -> k_vfs k' = k_vfs k -> k_pipes k' = k_pipes k -> k_socks k' = s -> adds k (Ret (r, k')).
Proof.
  intros Es Hr E1 E2 E3 E4. right. split; [done|]. unfold open_numbers. rewrite E1, E2, E3, E4, Es. solve_Permutation.
Qed.

Lemma adds_socket domain ty k : kinv k -> room k ->
  match Socket.sys_socket domain ty (k_socks k) with Ret (r, s) => adds k (Ret (r, set_socks k s)) | _ => True end.
Proof.
  intros Hk Hr. destruct (sys_socket_ok gm_fresh domain ty _ (ki_socks _ Hk) (rm_socks _ Hr)) as (r & s & E & Hs). rewrite E.
  unfold sys_socket in E. destruct (socket_check _ _ _) as [e|[ty' nb]] eqn:Ec.
  { injection E as <- <-. apply adds_none; [left|by apply same_eq]. unfold socket_check in Ec. by repeat case_match; simplify_eq. }
  destruct (socket_add ty' (k_socks k)) as [[h st1]| |] eqn:Ea; [|done..]. cbn [obind] in E. destruct (Socket.alloc_fd st1) as [n st2] eqn:Ef. injection E as <- <-.
  assert (Hs1 : sock_same (k_socks k) st1) by (unfold socket_add in Ea; destruct (net_set _); [|done..]; cbn [obind] in Ea; destruct (set_insert _ _); by injection Ea as _ <-).
  pose proof (entered_fds (k_socks k) (mkSocket n ty' h nb [] 0 UNSPECIFIED false None) n st1 Hs1) as He. rewrite Ef in He. specialize (He eq_refl eq_refl). cbn [snd] in He.
  eapply adds_socks; [exact He| |done..]. destruct (sock_numbers _ _ Hs) as [_ Hf]. rewrite Forall_forall, He in Hf.
  specialize (Hf n). rewrite elem_of_app, list_elem_of_singleton in Hf. specialize (Hf (or_intror eq_refl)). lia.
Qed.

(** [accept] adds its number to what the other threads have left. *)
Definition adds_late (k : kernel) (o : outcome (Z * kernel)) : Prop := exists k0, meanwhile k k0 /\ adds k0 o.

Lemma accept_error n flags st e : accept_snapshot n flags st = inl e -> e < 0.
Proof. unfold accept_snapshot. repeat case_match; by intros [= <-]. Qed.

Lemma adds_accept fuel n addr_ptr len_ptr flags k : kinv k -> NEXT_SOCK_FD (k_socks k) < 2 ^ 31 - 1 ->
  (forall port addr, accept_snapshot n flags (k_socks k) = inr (false, port, addr) -> accept_kept fuel n port addr k = true) ->
  adds_late k (sys_accept fuel n addr_ptr len_ptr flags k).
Proof.
  intros Hk Hn Hkept. unfold sys_accept. destruct (accept_snapshot n flags _) as [e|[[nb port] addr]] eqn:Es.
  { exists k. split; [by apply meanwhile_same|]. apply adds_none; [left; by eapply accept_error|done]. }
  assert (Hu : not_udp (k_socks k) n).
  { unfold accept_snapshot, not_udp in *. destruct (find_socket _ n) as [[i x]|]; [|done]. by destruct (sock_type x). }
  pose proof (accept_loop_ok fuel n port addr nb flags k Hk Hu Hn ltac:(intros ->; by apply Hkept)) as Hl.
  destruct (sys_accept_loop _ _ _ _ _ _) as [[r k1]| |] eqn:El; [|by exists k; split; [apply meanwhile_same|]..].
  apply accept_loop_numbers in El. destruct Hl as (Hs & Hn1 & _). cbn [obind]. exists k1. split; [done|].
  destruct r as [[h remote]|]; [|apply adds_none; [by left|done]].
  pose proof (enter_ok _ _ Hs Hn1) as Hs2. destruct (Socket.alloc_fd (k_socks k1)) as [m s2] eqn:Ea.
  pose proof (entered_fds (k_socks k1) (accepted m h flags port addr) m (k_socks k1) (sock_same_refl _)) as He. rewrite Ea in He.
  specialize (He eq_refl eq_refl). cbn [fst snd] in *. change (renumber (accepted 0 h flags port addr) m) with (accepted m h flags port addr) in Hs2.
  assert (0 <= m).
  { destruct (sock_numbers _ _ Hs2) as [_ Hf]. rewrite Forall_forall, He in Hf. specialize (Hf m).
    rewrite elem_of_app, list_elem_of_singleton in Hf. specialize (Hf (or_intror eq_refl)). lia. }
  destruct remote as [e|]; [destruct (addr_ptr =? 0); [|destruct (len_ptr =? 0)]|]; by eapply adds_socks.
Qed.

Definition accepts (nr : Z) : bool := existsb (Z.eqb nr) [43; 288].
Definition opens (nr : Z) : bool := existsb (Z.eqb nr) [2; 257; 32; 41; 43; 288].

Lemma socket_call_numbers fuel nr a0 a1 a2 a3 a4 a5 k :
  kinv k -> room k -> args_ok fuel nr a0 a1 a3 k -> existsb (Z.eqb nr) [2; 257; 32] = false ->
  let o := socket_call fuel nr a0 a1 a2 a3 a4 a5 k in
  if accepts nr then adds_late k o else if opens nr then adds k o else keeps k o.
Proof.
  intros Hk Hr (_ & _ & Hac) Hno. unfold socket_call. cbv zeta. destruct (nr =? 41) eqn:E1.
  { apply Z.eqb_eq in E1 as ->. pose proof (adds_socket (i32 a0) (i32 a1) k Hk Hr) as Ha. by destruct (sys_socket _ _ _) as [[r s]| |]. }
  destruct (nr =? 42) eqn:E2.
  { apply Z.eqb_eq in E2 as ->. destruct (sys_connect _ _ _ _) as [[r s]| |] eqn:E; [|done..]. by eapply same_socks; [eapply connect_same|..]. }
  destruct ((nr =? 43) || (nr =? 288)) eqn:E3.
  { assert (nr = 43 \/ nr = 288) as Enr by (apply orb_true_iff in E3 as [?%Z.eqb_eq|?%Z.eqb_eq]; auto).
    replace (accepts nr) with true by (by destruct Enr as [-> | ->]). apply adds_accept; auto. apply Hr. }
  assert (accepts nr = false /\ opens nr = false) as [-> ->].
  { unfold accepts, opens. cbn [existsb] in *. apply orb_false_iff in E3 as [-> ->]. rewrite E1. repeat (apply orb_false_iff in Hno as [-> Hno]). done. }
  destruct (nr =? 44); [destruct (sys_sendto _ _ _ _ _ _ _) as [[r s]| |] eqn:E; [|done..]; by eapply same_socks; [eapply sendto_same|..]|].
  destruct (nr =? 45); [destruct (sys_recvfrom _ _ _ _ _ _ _ _) as [[[r m] s]| |] eqn:E; [|done..]; by eapply same_socks; [eapply recvfrom_same|..]|].
  destruct (nr =? 49); [destruct (sys_bind _ _ _ _) as [[r s]| |] eqn:E; [|done..]; by eapply same_socks; [eapply bind_same|..]|].
  destruct (nr =? 50); [destruct (sys_listen _ _) as [[r s]| |] eqn:E; [|done..]; by eapply same_socks; [eapply listen_same|..]|].
  destruct (nr =? 51); [destruct (sys_getsockname _ _ _ _ _); untouched|].
  destruct (nr =? 52); [destruct (sys_getpeername _ _ _ _ _) as [[r m]| |]; [|done..]; untouched|].
  destruct (nr =? 54); [untouched|].
  destruct (sys_getsockopt _ _ _ _ _ _ _) as [[[r m] s]| |] eqn:E; [|done..]; by eapply same_socks; [eapply getsockopt_same|..].
Qed.

(** ** close and pipe *)

Lemma close_numbers fd k r k' :
  kinv k -> sys_close fd k = Ret (r, k') ->
  forall n, n ∈ open_numbers k' <-> (n <> fd /\ n ∈ open_numbers k) \/ (n = fd /\ n ∈ write_ends (k_pipes k)).
Proof.
  intros Hk. unfold sys_close.
  destruct (vfs_close_fds cpio_data (k_vfs k) fd (ki_vfs _ Hk)) as (Hv & Hvd & _).
  assert (Hi : VfsInv.inv cpio_data (Vfs.close (k_vfs k) fd).2).
  { destruct (vfs_call (VfsInv.OpClose fd) k (k_mem k) Hk ltac:(by right) I) as (r0 & s0 & m0 & E0 & Hs0). injection E0 as _ <- _. apply Hs0. }
  destruct (close_dir_fds (Vfs.close (k_vfs k) fd).2 fd (inv_dirs _ _ Hi)) as (Hv2 & _ & Hd).
  destruct (Socket.close fd _) as [s| |] eqn:Es; [|done..]. cbn [obind]. apply socket_close_fds in Es as [Es _]; [|by eapply sock_numbers, Hk].
  destruct (net_poll _) as [k1| |] eqn:Ep; [|done..]. cbn [obind]. intros [= _ <-]. apply net_poll_numbers in Ep. unfold same_numbers in Ep.
  assert (Hm : forall n, n ∈ open_numbers k1 <-> (n <> fd /\ n ∈ tmpfs_fds (k_tmpfs k)) \/ (n <> fd /\ n ∈ vfs_fds (k_vfs k)) \/
    (n <> fd /\ n ∈ dir_fds (k_vfs k)) \/ n ∈ pipe_fds (Pipe.close (k_pipes k) fd) \/ (n <> fd /\ n ∈ sock_fds (k_socks k))).
  { intros n. rewrite Ep. unfold open_numbers. cbn [k_tmpfs k_vfs k_pipes k_socks set_socks set_pipes set_vfs set_tmpfs set_epoll] in *.
    by rewrite (tmpfs_close_fds _ _ (ki_tmpfs _ Hk)), Hv2, Hv, Hd, Hvd, Es, !elem_of_app, !list_elem_of_filter. }
  intros n. rewrite Hm. unfold open_numbers. rewrite !elem_of_app. destruct (decide (n = fd)) as [->|Hn].
  - rewrite pipe_close_self. tauto.
  - assert (Hp : n ∈ pipe_fds (Pipe.close (k_pipes k) fd) <-> n ∈ pipe_fds (k_pipes k)) by (split; [by apply pipe_close_sub, Hk|by intros; apply pipe_close_fds]).
    tauto.
Qed.

(** The numbers the next pipe gets. *)
Definition next_pipe (k : kernel) : list Z := [NEXT_PIPE_FD (k_pipes k); NEXT_PIPE_FD (k_pipes k) + 1].

(** [pipe] and [socketpair]: the caller is told the two next numbers, whether or not
    there was a slot for the pipe; with a slot they are open, and a write end left in
    the slot is not open any more. *)
Definition pipe_spec (fds : Z) (k k' : kernel) : Prop :=
  if fds =? 0 then same_numbers k k'
  else
    [load32 (k_mem k') fds; load32 (k_mem k') (fds + 4)] = next_pipe k /\
    match slot_taken (k_pipes k) with
    | Some p => open_numbers k' ++ PipeProofs.live (p_write_fd p) ≡ₚ next_pipe k ++ open_numbers k
    | None => same_numbers k k'
    end.

Lemma pipe_numbers fds k : kinv k -> room k -> pipe_spec fds k (sys_pipe fds k).2.
Proof.
  intros Hk Hr. unfold sys_pipe, pipe_spec, next_pipe. destruct (fds =? 0); [done|].
  destruct (pipe_create_fds (k_pipes k) (ki_pipes _ Hk) (rm_pipes _ Hr)) as [En Hs]. pose proof (tbl_next _ (ki_pipes _ Hk)). pose proof (rm_pipes _ Hr).
  destruct (Pipe.create (k_pipes k)) as [[r w] s]. cbn [fst snd] in *. injection En as -> ->. cbn [k_mem set_mem]. split.
  - rewrite (load32_store32 _ (fds + 4)) by lia. f_equal. unfold load32, store32 at 1. rewrite mem_read_write_disjoint by (autorewrite with kernel; cbn; lia).
    fold (load32 (store32 (k_mem k) fds (NEXT_PIPE_FD (k_pipes k))) fds). by apply load32_store32; lia.
  - destruct (slot_taken (k_pipes k)) as [p|]; unfold same_numbers, open_numbers; cbn [k_tmpfs k_vfs k_pipes k_socks set_mem set_pipes]; [|by rewrite Hs].
    transitivity (tmpfs_fds (k_tmpfs k) ++ vfs_fds (k_vfs k) ++ dir_fds (k_vfs k) ++ (pipe_fds s ++ PipeProofs.live (p_write_fd p)) ++ sock_fds (k_socks k));
      [|rewrite Hs]; solve_Permutation.
Qed.

Lemma next_pipe_fresh k : kinv k -> room k -> apart k -> NEXT_PIPE_FD (k_pipes k) + 2 <= 500 -> Forall (fun n => n ∉ open_numbers k) (next_pipe k).
Proof.
  intros Hk Hr Ha Hp. destruct (ranges k Hk Ha) as (R1 & R2 & R3 & R4 & R5). pose proof (tbl_range _ (ki_pipes _ Hk)) as R6.
  fold (pipe_fds (k_pipes k)) in R6. pose proof (tbl_next _ (ki_pipes _ Hk)) as Hn. rewrite Forall_forall in *.
  unfold next_pipe. intros n Hin Ho. assert (NEXT_PIPE_FD (k_pipes k) <= n < NEXT_PIPE_FD (k_pipes k) + 2) by (rewrite !elem_of_cons, elem_of_nil in Hin; lia).
  unfold open_numbers in Ho. rewrite !elem_of_app in Ho.
  destruct Ho as [Ho|[Ho|[Ho|[Ho|Ho]]]]; [apply R1 in Ho|apply R2 in Ho|apply R3 in Ho|apply R6 in Ho|apply R5 in Ho]; lia.
Qed.

(** ** The dispatcher *)

Definition makes_pipe (nr : Z) : bool := existsb (Z.eqb nr) [22; 293; 53].

(** The other threads may run during these. *)
Definition lets_others_run (nr : Z) : bool := existsb (Z.eqb nr) [0; 19; 23; 35; 43; 232; 271; 281; 288].

(** What a call does to the open descriptors, once the other threads have had their
    turns, which left the kernel at [k]. *)
Definition does (nr a0 a3 r : Z) (k k' : kernel) : Prop :=
  if opens nr then (unlisted r /\ same_numbers k k') \/ (0 <= r /\ open_numbers k' ≡ₚ r :: open_numbers k)
  else if makes_pipe nr then pipe_spec (if nr =? 53 then a3 else a0) k k'
  else if nr =? 3 then forall n, n ∈ open_numbers k' <-> (n <> i32 a0 /\ n ∈ open_numbers k) \/ (n = i32 a0 /\ n ∈ write_ends (k_pipes k))
  else same_numbers k k'.

Definition effect (nr a0 a3 : Z) (k : kernel) (o : outcome (Z * kernel)) : Prop :=
  match o with
  | Ret (r, k') => exists k0, (if lets_others_run nr then meanwhile k k0 else k0 = k) /\ does nr a0 a3 r k0 k'
  | _ => True
  end.

(** The calls with an effect of their own. *)
Definition special (nr : Z) : bool := opens nr || makes_pipe nr || (nr =? 3).

Lemma does_keeps nr a0 a3 r k k' : special nr = false -> same_numbers k k' -> does nr a0 a3 r k k'.
Proof. unfold special, does. intros [[-> ->]%orb_false_iff ->]%orb_false_iff. done. Qed.

Lemma effect_keeps nr a0 a3 k o : special nr = false -> keeps k o -> effect nr a0 a3 k o.
Proof.
  intros Hn Hk. destruct o as [[r k']| |]; [|done..]. exists k. split; [|by apply does_keeps].
  destruct (lets_others_run nr); [by apply meanwhile_same|done].
Qed.

Lemma effect_pair nr a0 a3 k p : special nr = false -> same_numbers k p.2 -> effect nr a0 a3 k (Ret p).
Proof. intros Hn Hs. apply effect_keeps; [done|]. by destruct p. Qed.

Lemma effect_during nr a0 a3 k o : special nr = false -> lets_others_run nr = true -> during k o -> effect nr a0 a3 k o.
Proof. intros Hn Hl Hd. destruct o as [[r k']| |]; [|done..]. exists k'. rewrite Hl. split; [done|by apply does_keeps]. Qed.

Lemma effect_opens nr a0 a3 k o : opens nr = true -> accepts nr = false -> adds k o -> effect nr a0 a3 k o.
Proof.
  intros E Ea Ha. destruct o as [[r k']| |]; [|done..]. exists k. unfold does. rewrite E. split; [|done].
  destruct (lets_others_run nr); [by apply meanwhile_same|done].
Qed.

Lemma effect_accept nr a0 a3 k o : accepts nr = true -> adds_late k o -> effect nr a0 a3 k o.
Proof.
  intros E (k0 & Hm & Ha). destruct o as [[r k']| |]; [|done..]. exists k0. unfold accepts in E. cbn [existsb] in E. rewrite orb_false_r in E.
  by apply orb_true_iff in E as [->%Z.eqb_eq| ->%Z.eqb_eq].
Qed.

Lemma effect_pipe nr a0 a3 k : kinv k -> room k -> makes_pipe nr = true -> effect nr a0 a3 k (Ret (sys_pipe (if nr =? 53 then a3 else a0) k)).
Proof.
  intros Hk Hr E. pose proof (pipe_numbers (if nr =? 53 then a3 else a0) k Hk Hr) as Hn. destruct (sys_pipe _ k) as [r k']. exists k. unfold does.
  assert (opens nr = false /\ lets_others_run nr = false) as [-> ->]
    by (unfold makes_pipe in E; repeat (apply orb_true_iff in E as [E|E]; [by apply Z.eqb_eq in E as ->|]); done).
  by rewrite E.
Qed.

(** The arms that only store in memory, or move the clock or the heap. *)
Lemma stores_numbers k :
  (forall a, same_numbers k (sys_uname a k).2) /\ (forall a c, same_numbers k (sys_sched_getaffinity a c k).2) /\
  (forall a, same_numbers k (sys_clock_getres a k).2) /\ (forall a, same_numbers k (sys_prlimit64 a k).2) /\
  (forall a c d, same_numbers k (sys_readlink a c d k).2) /\ (forall a c, same_numbers k (sys_getcwd a c k).2) /\
  (forall a, same_numbers k (sys_gettimeofday a k).2) /\ (forall a, same_numbers k (sys_getrusage a k).2) /\
  (forall a c d, same_numbers k (sys_epoll_ctl a c d k).2).
Proof.
  split_and!; intros.
  - by apply same_eq.
  - unfold sys_sched_getaffinity. destruct (_ <=? _); by apply same_eq.
  - unfold sys_clock_getres. destruct (_ =? _); by apply same_eq.
  - unfold sys_prlimit64. destruct (_ =? _); by apply same_eq.
  - unfold sys_readlink. destruct (bytes_eqb _ _); by apply same_eq.
  - unfold sys_getcwd. destruct (_ <=? _); by apply same_eq.
  - unfold sys_gettimeofday. destruct (_ =? _); [done|]. pose proof (clock_numbers realtime_ns k). by destruct (with_clock _ _).
  - unfold sys_getrusage, now. destruct (_ =? _); [done|]. pose proof (clock_numbers monotonic_ns k). by destruct (with_clock _ _).
  - unfold sys_epoll_ctl. destruct (_ =? _); by apply same_eq.
Qed.

Lemma path_numbers k :
  (forall p, keeps k (sys_access p k)) /\ (forall p len, keeps k (sys_truncate p len k)) /\ (forall p mode, keeps k (sys_mkdir p mode k)) /\
  (forall p, keeps k (sys_rmdir p k)) /\ (forall p, keeps k (sys_unlink p k)) /\ (forall p flags, keeps k (sys_unlinkat p flags k)).
Proof.
  split_and!; intros.
  - by apply (keeps_path (fun p => TmpfsInv.OpAccess p)).
  - apply (keeps_path (fun p => TmpfsInv.OpTruncate p len)); [|done]. intros p'. cbn [TmpfsInv.exec]. by destruct (truncate _ _ _) as [[r s]| |].
  - apply (keeps_path (fun p => TmpfsInv.OpMkdir p mode)); [|done]. intros p'. cbn [TmpfsInv.exec obind]. by destruct (mkdir _ _ _).
  - apply (keeps_path (fun p => TmpfsInv.OpRmdir p)); [|done]. intros p'. cbn [TmpfsInv.exec obind]. by destruct (rmdir _ _).
  - apply (keeps_path (fun p => TmpfsInv.OpUnlink p)); [|done]. intros p'. cbn [TmpfsInv.exec obind]. by destruct (unlink _ _).
  - apply (keeps_path (fun p => if negb (Z.land flags 512 =? 0) then TmpfsInv.OpRmdir p else TmpfsInv.OpUnlink p)); intros p';
      (destruct (negb _); [|]); try done; cbn [TmpfsInv.exec obind]; [by destruct (rmdir _ _)|by destruct (unlink _ _)].
Qed.

Lemma keeps_getrandom buf len k : keeps k (sys_getrandom buf len k).
Proof. unfold sys_getrandom. destruct (_ || _); [untouched|]. destruct (fill_raw _ _ _ _ _) as [[m s]| |]; [|done..]. cbn [obind]. untouched. Qed.

Lemma keeps_fstat fd buf k : keeps k (sys_fstat fd buf k).
Proof. unfold sys_fstat. destruct (is_tmpfs_fd _ _); [untouched|]. destruct (buf =? 0); by apply keeps_ret. Qed.

Lemma keeps_fstatat dirfd path buf k : kinv k -> room k -> keeps k (sys_newfstatat dirfd path buf k).
Proof. intros Hk Hr. unfold sys_newfstatat. destruct (_ && _); [by apply keeps_stat|apply keeps_fstat]. Qed.

(** No number that was tested for before. *)
Ltac no_arm :=
  let E := fresh "E" in
  apply not_true_iff_false; unfold special, opens, makes_pipe; intros E; repeat (apply orb_true_iff in E as [E|E]); try discriminate E;
  apply Z.eqb_eq in E; subst; by match goal with E : _ = false |- _ => vm_compute in E; discriminate E end.

(** The number of the arm taken. *)
Ltac arm := match goal with E : _ = true |- _ => repeat (apply orb_true_iff in E as [E|E]; [by apply Z.eqb_eq in E as ->|]); by apply Z.eqb_eq in E as -> end.

Lemma dispatch_effect fuel nr a0 a1 a2 a3 a4 a5 k :
  kinv k -> room k -> args_ok fuel nr a0 a1 a3 k -> is_thread_call nr = false ->
  0 <= a1 < 2 ^ 64 -> 0 <= a2 < 2 ^ 64 -> 0 <= a3 < 2 ^ 64 ->
  effect nr a0 a3 k (syscall_dispatch_inner fuel nr a0 a1 a2 a3 a4 a5 k).
Proof.
  intros Hk Hr Harg Hnt H1' H2' H3'. unfold syscall_dispatch_inner. destruct (constant_call nr) eqn:E0.
  { apply effect_keeps; [|by apply keeps_ret]. apply not_true_iff_false. unfold special, opens, makes_pipe. intros E.
    repeat (apply orb_true_iff in E as [E|E]); try discriminate E; by apply Z.eqb_eq in E as ->. }
  destruct (stores_numbers k) as (S1 & S2 & S3 & S4 & S5 & S6 & S7 & S8 & S9). destruct (path_numbers k) as (P1 & P2 & P3 & P4 & P5 & P6).
  repeat match goal with
  | |- effect _ _ _ _ (if ?c then _ else _) => let E := fresh "E" in destruct c eqn:E;
      [try solve [apply effect_keeps; [arm|];
          auto using keeps_write, keeps_sendfile, keeps_fstat, keeps_fstatat, keeps_getdents, keeps_pread, keeps_writev,
            keeps_getrandom, keeps_recvmsg, keeps_rename, keeps_ftruncate
        | apply effect_pair; [arm|]; auto using keeps_lseek, keeps_fcntl, keeps_pwrite, keeps_sendmsg
        | apply effect_during; [arm|arm|];
          auto using during_read, during_readv, during_epoll_wait, during_ppoll, during_select] |]
  end.
  - apply effect_keeps; [arm|]. destruct (sys_brk _ _). by apply keeps_ret.
  - apply effect_keeps; [arm|]. destruct (sys_mmap _ _ _ _ _) as [[? ?] ?]. by apply keeps_ret.
  - apply effect_keeps; [arm|]. destruct (sys_munmap _ _ _). by apply keeps_ret.
  - apply effect_opens; [arm|arm|]. unfold sys_open. destruct (nr =? SYS_OPENAT); by apply adds_open.
  - match goal with E : (nr =? 3) = true |- _ => apply Z.eqb_eq in E as -> end. destruct (sys_close _ _) as [[r k']| |] eqn:Es; [|done..].
    exists k. split; [done|]. exact (close_numbers _ _ _ _ Hk Es).
  - apply effect_keeps; [arm|]. by apply keeps_stat.
  - replace a0 with (if nr =? 53 then a3 else a0) at 2 by arm. apply effect_pipe; [done..|arm].
  - apply effect_keeps; [arm|]. destruct (sys_clock_gettime _ _ _ _ _) as [[? ?] ?]. by apply keeps_ret.
  - apply effect_opens; [arm|arm|by apply adds_dup].
  - apply effect_keeps; [arm|]. by apply keeps_writev.
  - apply effect_during; [arm|arm|by apply during_readv].
  - replace a3 with (if nr =? 53 then a3 else a0) at 2 by arm. apply effect_pipe; [done..|arm].
  - apply effect_keeps; [arm|]. destruct (sys_timerfd_settime _ _ _ _ _). by apply keeps_ret.
  - apply effect_during; [arm|arm|apply meanwhile_yield].
  - assert (Hno : existsb (Z.eqb nr) [2; 257; 32] = false) by no_arm.
    pose proof (socket_call_numbers fuel nr a0 a1 a2 a3 a4 a5 k Hk Hr Harg Hno) as Hs. cbv zeta in Hs.
    destruct (accepts nr) eqn:Ea; [by apply effect_accept|]. destruct (opens nr) eqn:Eo; [by apply effect_opens|].
    apply effect_keeps; [|done]. unfold special. rewrite Eo. no_arm.
  - unfold is_thread_call in Hnt. match goal with E : existsb _ _ = true |- _ => rewrite Hnt in E; discriminate E end.
  - apply effect_keeps; [no_arm|by apply keeps_ret].
Qed.

(** ** Theorems *)

(** The components a number is sent to. *)
Definition owners (k : kernel) (fd : Z) : nat :=
  length (List.filter (fun c : bool => c)
    [is_tmpfs_fd (k_tmpfs k) fd; is_vfs_fd (k_vfs k) fd; is_dir_fd (k_vfs k) fd; is_pipe_fd (k_pipes k) fd; is_socket_fd (k_socks k) fd]).

(** C13: a descriptor has one owner.  While the ranges of numbers have not met, and
    for every number but -1 (which every unused slot of the pipes and directories
    has), the tests by which the calls find the component of a descriptor answer yes
    for at most one of the five, and for exactly the numbers that are open. *)
Theorem one_owner k fd :
  kinv k -> apart k -> fd <> -1 -> (owners k fd <= 1)%nat /\ (owners k fd = 1%nat <-> fd ∈ open_numbers k).
Proof.
  intros Hk Ha Hfd. destruct (ranges k Hk Ha) as (R1 & R2 & R3 & R4 & R5). rewrite Forall_forall in *. specialize (R1 fd).
  specialize (R2 fd). specialize (R3 fd). specialize (R4 fd). specialize (R5 fd). unfold owners, open_numbers. rewrite !elem_of_app.
  rewrite <- (tmpfs_fd_iff _ _ (ki_tmpfs _ Hk)), <- vfs_fd_iff, <- (dir_fd_iff _ fd), <- (pipe_fd_iff _ fd), <- socket_fd_iff in * by lia.
  destruct (is_tmpfs_fd _ fd), (is_vfs_fd _ fd), (is_dir_fd _ fd), (is_pipe_fd _ fd), (is_socket_fd _ fd);
    repeat match goal with R : true = true -> _ |- _ => specialize (R eq_refl) end; try lia; cbn; (split; [lia|]); split; intros Hx; solve [lia | tauto | intuition discriminate].
Qed.

(** The table a call leaves, [k0] being what the other threads made of [k] while the
    call let them run: the numbers it adds were not open. *)
Definition fd_spec (nr a0 a3 r : Z) (k k' : kernel) : Prop :=
  exists k0, (if lets_others_run nr then meanwhile k k0 else k0 = k) /\ does nr a0 a3 r k0 k' /\
    (opens nr = true -> ~ unlisted r -> r ∉ open_numbers k0) /\
    (makes_pipe nr = true -> (if nr =? 53 then a3 else a0) <> 0 -> Forall (fun n => n ∉ open_numbers k0) (next_pipe k0)).

Lemma pipe_dispatch fuel nr a0 a1 a2 a3 a4 a5 k :
  makes_pipe nr = true -> syscall_dispatch_inner fuel nr a0 a1 a2 a3 a4 a5 k = Ret (sys_pipe (if nr =? 53 then a3 else a0) k).
Proof. intros E. unfold makes_pipe in E. repeat (apply orb_true_iff in E as [E|E]; [by apply Z.eqb_eq in E as ->|]). done. Qed.

Lemma pipe_apart fds k : kinv k -> room k -> fds <> 0 -> apart (sys_pipe fds k).2 -> apart k /\ NEXT_PIPE_FD (k_pipes k) + 2 <= 500.
Proof.
  intros Hk Hr Hf. pose proof (tbl_next _ (ki_pipes _ Hk)). pose proof (rm_pipes _ Hr). unfold sys_pipe. rewrite (proj2 (Z.eqb_neq _ _) Hf).
  unfold Pipe.create. rewrite !u64_small by lia. destruct (position _ _); intros [Hp Hs Hv]; cbn in Hp; (split; [split; [lia|done..]|lia]).
Qed.

(** C4: the descriptor table.  As long as no range of numbers has met the next,
    every call but the scheduler's own acts on the open descriptors of all components
    as on one table without duplicates.  [open], [openat], [dup], [socket] and
    [accept] add the number they return, which was not open, unless that is an error
    or the number of [/dev/null] or the like; [pipe] and [socketpair] add the two
    numbers they store, neither of which was open, provided there is a slot, and drop
    a write end left in that slot; [close] of any number takes it away and nothing
    else, but a write end of a pipe stays; and every other call leaves the table
    alone.  A call that waits lets the other threads run: its effect is on the table
    they have left, and apart from it the table changed only in their hands. *)
Theorem descriptor_table fuel nr a0 a1 a2 a3 a4 a5 k r k' :
  kinv k -> room k -> args_ok fuel nr a0 a1 a3 k -> is_thread_call nr = false ->
  0 <= a1 < 2 ^ 64 -> 0 <= a2 < 2 ^ 64 -> 0 <= a3 < 2 ^ 64 ->
  syscall_dispatch_inner fuel nr a0 a1 a2 a3 a4 a5 k = Ret (r, k') -> apart k' ->
  NoDup (open_numbers k') /\ fd_spec nr a0 a3 r k k'.
Proof.
  intros Hk Hr Ha Hnt H1' H2' H3' E Ha'.
  pose proof (dispatch_ok fuel nr a0 a1 a2 a3 a4 a5 k Hk Hr Ha Hnt H1' H2' H3') as Hk'. rewrite E in Hk'.
  assert (Hki : kinv k') by (unfold call_result in Hk'; destruct (may_wait nr); [done|]; destruct Hk' as (? & ? & [= <- <-] & ?); done).
  pose proof (numbers_nodup k' Hki Ha') as Hnd. split; [done|].
  pose proof (dispatch_effect fuel nr a0 a1 a2 a3 a4 a5 k Hk Hr Ha Hnt H1' H2' H3') as He. rewrite E in He. destruct He as (k0 & Hm & Hd).
  exists k0. split; [done|]. split; [done|]. unfold does in Hd. split.
  - intros Eo Hu. rewrite Eo in Hd. destruct Hd as [[? _]|[_ Hd]]; [done|]. rewrite Hd in Hnd. by apply NoDup_cons in Hnd as [? _].
  - intros Em Hf. rewrite (pipe_dispatch _ _ _ _ _ _ _ _ _ Em) in E.
    assert (lets_others_run nr = false) as El by (unfold makes_pipe in Em; repeat (apply orb_true_iff in Em as [Em|Em]; [by apply Z.eqb_eq in Em as ->|]); done).
    rewrite El in Hm. subst k0. set (fds := if nr =? 53 then a3 else a0) in *. assert (k' = (sys_pipe fds k).2) as -> by (by injection E as ->).
    destruct (pipe_apart fds k Hk Hr Hf Ha'). by apply next_pipe_fresh.
Qed.

(** The pipe made when the counter is at 500. *)
Lemma create_at_500 st :
  table_ok st -> NEXT_PIPE_FD st = 500 -> is_Some (position (reads_fd (-1)) (PIPES st)) ->
  exists s, Pipe.create st = ((500, 501), s) /\ 500 ∈ pipe_fds s /\ Forall (fun p => p_write_fd p <> 500) (PIPES s).
Proof.
  intros Ht Hn [i Hi]. unfold Pipe.create. rewrite Hi, Hn. set (q := with_fds empty 500 501).
  exists (Pipe.mkState (<[i := q]> (PIPES st)) 502). split; [done|]. pose proof Hi as (p & Hp & _)%position_Some. split.
  - unfold pipe_fds. cbn [PIPES]. destruct (all_ends_insert _ _ _ q Hp) as (l1 & l2 & _ & ->). rewrite !elem_of_app. right. left. by left.
  - cbn [PIPES]. apply Forall_insert; [|done]. apply Forall_forall. intros p' Hp' E.
    assert (Hin : 500 ∈ pipe_fds st).
    { unfold pipe_fds, all_ends. apply list_elem_of_In, in_concat. exists (ends p'). split; [apply in_map; by apply list_elem_of_In|].
      apply list_elem_of_In, ends_iff; [done|]. unfold either_fd. by rewrite E, orb_true_r. }
    pose proof (tbl_range _ Ht) as Hr. rewrite Forall_forall in Hr. specialize (Hr _ Hin). cbn in Hr. lia.
Qed.

(** A descriptor that is a pipe and a socket.  Pipe numbers are never used
    again, so after 150 pipes they have reached 500, where the sockets start: the
    next pipe and the first socket get the same number.  Both components then claim
    it, the pipe is asked first, and writing to the socket fails with [EBADF]. *)
Theorem pipe_socket_collision fds buf count k :
  kinv k -> NEXT_PIPE_FD (k_pipes k) = 500 -> NEXT_SOCK_FD (k_socks k) = 500 ->
  is_Some (position (reads_fd (-1)) (PIPES (k_pipes k))) -> is_initialized (k_socks k) = true -> fds <> 0 ->
  let k1 := (sys_pipe fds k).2 in
  load32 (k_mem k1) fds = 500 /\
  exists k2, socket_call 0 41 2 1 0 0 0 0 k1 = Ret (500, k2) /\ owners k2 500 = 2%nat /\
    sys_write 500 buf count k2 = Ret (Pipe.EBADF, k2).
Proof.
  intros Hk Hp Hs Hslot Hin Hfds k1. destruct (create_at_500 _ (ki_pipes _ Hk) Hp Hslot) as (s & Ec & Hs5 & Hw).
  assert (E1 : k1 = set_mem (set_pipes k s) (store32 (store32 (k_mem k) fds 500) (fds + 4) 501))
    by (unfold k1, sys_pipe; rewrite (proj2 (Z.eqb_neq _ _) Hfds), Ec; done).
  split.
  { rewrite E1. cbn [k_mem set_mem]. unfold load32, store32 at 1. rewrite mem_read_write_disjoint by (autorewrite with kernel; cbn; lia).
    fold (load32 (store32 (k_mem k) fds 500) fds). by apply load32_store32. }
  destruct (ki_socks _ Hk) as (_ & Hfd & _). cbn [fst snd] in *. unfold fds_of in Hfd. rewrite Hs in Hfd. cbn [fst snd] in Hfd.
  apply Permutation_nil_r in Hfd. apply app_eq_nil in Hfd as [Hf0 Hr0]. cbn in Hr0.
  destruct (add_socket_ok gm_fresh (k_socks k) [] TcpStream false (ki_socks _ Hk) Hin) as (h & st1 & Ea & _).
  assert (Es1 : sock_fds st1 = [] /\ NEXT_SOCK_FD st1 = 500 /\ RECYCLED_FDS st1 = []).
  { unfold socket_add in Ea. destruct (net_set _); [|done..]. cbn [obind] in Ea. destruct (set_insert _ _). injection Ea as _ <-. by split_and!. }
  destruct Es1 as (Es1 & En1 & Er1). rewrite E1. unfold socket_call. cbn [Z.eqb Pos.eqb k_socks set_mem set_pipes].
  change (i32 2) with 2. change (i32 1) with 1. unfold sys_socket.
  assert (socket_check (k_socks k) 2 1 = inr (TcpStream, false)) as -> by (unfold socket_check; by rewrite Hin). rewrite Ea. cbn [obind]. unfold Socket.alloc_fd. rewrite Er1. cbn [rev]. rewrite En1. cbn [obind]. eexists. split; [done|].
  set (k2 := set_socks _ _).
  assert (Hpp : is_pipe_fd (k_pipes k2) 500 = true) by (by apply pipe_fd_iff).
  assert (Hss : is_socket_fd (k_socks k2) 500 = true) by (apply socket_fd_iff; unfold sock_fds in *; cbn; rewrite fmap_app, Es1; by left).
  assert (Htt : is_tmpfs_fd (k_tmpfs k2) 500 = false) by done.
  split.
  - unfold owners. rewrite Hpp, Hss, Htt.
    assert (Hvv : is_vfs_fd (k_vfs k2) 500 = false).
    { apply not_true_iff_false. rewrite vfs_fd_iff. intros Hin'. pose proof (VfsInv.inv_range _ _ (ki_vfs _ Hk)) as Hr. rewrite Forall_forall in Hr.
      specialize (Hr _ Hin'). cbn in Hr. lia. }
    assert (Hdd : is_dir_fd (k_vfs k2) 500 = false).
    { apply not_true_iff_false. rewrite dir_fd_iff by done. intros Hin'. destruct (dir_numbers _ (inv_dirs _ _ (ki_vfs _ Hk))) as [_ Hr].
      rewrite Forall_forall in Hr. specialize (Hr _ Hin'). cbn in Hr. lia. }
    by rewrite Hvv, Hdd.
  - unfold sys_write. rewrite Htt, Hpp. cbn [Z.eqb Pos.eqb orb FD_DEVNULL]. unfold Pipe.write. cbn [k_pipes k2 set_socks set_mem set_pipes].
    rewrite (proj2 (position_None _ _)); [done|]. eapply Forall_impl; [exact Hw|]. intros p. apply Z.eqb_neq.
Qed.
End fds.

(** ** Instances *)

#[local] Existing Instance toy.
#[local] Existing Instance toy_chacha.
#[local] Existing Instance toy_machine.
#[local] Existing Instance toy_good.

Lemma one_owner_witness :
  (owners (toy_after_calls toy_calls) 500 <= 1)%nat /\ (owners (toy_after_calls toy_calls) 500 = 1%nat <-> 500 ∈ open_numbers (toy_after_calls toy_calls)).
Proof.
  apply (one_owner (toy_after_calls toy_calls) 500); [apply toy_after_kinv; vm_compute; reflexivity| |discriminate].
  split; vm_compute; discriminate.
Defined.

Lemma descriptor_table_witness :
  exists r k', syscall_dispatch_inner 1 2 16384 66 420 0 0 0 toy_kernel = Ret (r, k') /\ r = 4000 /\
    NoDup (open_numbers k') /\ fd_spec 2 16384 0 r toy_kernel k'.
Proof.
  assert (match syscall_dispatch_inner 1 2 16384 66 420 0 0 0 toy_kernel with
          | Ret (r, k') => (r, NEXT_PIPE_FD (k_pipes k'), NEXT_SOCK_FD (k_socks k'), NEXT_VFS_FD (k_vfs k'))
          | _ => (0, 0, 0, 0) end = (4000, 200, 500, 1000)) as E by (vm_compute; reflexivity).
  destruct (syscall_dispatch_inner 1 2 16384 66 420 0 0 0 toy_kernel) as [[r k']| |] eqn:Er; [|discriminate E..].
  injection E as Er' E1 E2 E3. exists r, k'. split; [reflexivity|]. split; [exact Er'|].
  apply (descriptor_table 1 2 16384 66 420 0 0 0 toy_kernel r k' (booted_kinv _ toy_booted)); try exact Er; try reflexivity; try lia.
  - split; vm_compute; reflexivity.
  - split_and!; intros [E|E]; discriminate E.
  - split; lia.
Defined.

(** 150 pipes, each with its read end closed. *)
Definition toy_pipes : list kcall :=
  concat ((fun i => [mkCall 22 24576 0 0 0 0 0; mkCall 3 (200 + 2 * Z.of_nat i) 0 0 0 0 0]) <$> seq 0 150).

Lemma pipe_socket_collision_witness :
  let k1 := (sys_pipe 24576 (toy_after_calls toy_pipes)).2 in
  load32 (k_mem k1) 24576 = 500 /\
  exists k2, socket_call 0 41 2 1 0 0 0 0 k1 = Ret (500, k2) /\ owners k2 500 = 2%nat /\ sys_write 500 16384 4 k2 = Ret (Pipe.EBADF, k2).
Proof.
  apply (pipe_socket_collision 24576 16384 4 (toy_after_calls toy_pipes)).
  - apply toy_after_kinv. vm_compute. reflexivity.
  - vm_compute. reflexivity.
  - vm_compute. reflexivity.
  - assert (position (reads_fd (-1)) (PIPES (k_pipes (toy_after_calls toy_pipes))) = Some 0%nat) as -> by (vm_compute; reflexivity). by eexists.
  - vm_compute. reflexivity.
  - discriminate.
Defined.
