(* ===== verification/SyscallData.v ===== *)
(** * Data through the system calls

    [writev] writes its vectors as one, [sendfile] sends the bytes of the file, and
    [epoll_wait] reports the descriptors that are ready.  What [writev] needs of the
    component it writes to is the class [Sink]; the serial line, a pipe and a TCP
    socket are its instances. *)

From S2P Require Import Prelude Dirent Tmpfs TmpfsInv Vfs VfsProofs VfsDir VfsInv Pipe PipeProofs.
From S2P Require Import Mmap Rtc Clock Socket SocketProofs Rng Syscall Descriptors SyscallInv.

(** A descriptor whose writes append to a sequence of bytes: a write fails and
    appends nothing, or appends a prefix of what it was given and returns its
    length. *)
Class Sink `{Machine} (n : Z) (ok : kernel -> Prop) (sunk : kernel -> bytes) := {
  sink_write : forall buf count k, ok k -> 0 <= count < 2 ^ 63 ->
    exists r k', sys_write n buf count k = Ret (r, k') /\ ok k' /\ k_mem k' = k_mem k /\
      (r < 0 /\ sunk k' = sunk k \/ 0 <= r <= count /\ sunk k' = sunk k ++ mem_read (k_mem k) buf (Z.to_nat r))
}.

(** The bytes of [n] vectors from number [i]. *)
Fixpoint gather (n i : nat) (iov : Z) (m : mem) : bytes :=
  match n with O => [] | S n' => mem_read m (iov_base m iov i) (Z.to_nat (iov_len m iov i)) ++ gather n' (S i) iov m end.

Section writev.
Context `{Machine} (n : Z) `{!Sink n ok sunk}.

Lemma writev_loop_spec c i iov total k :
  ok k -> 0 <= total -> total + zlen (gather c i iov (k_mem k)) < 2 ^ 63 ->
  exists r k', writev_loop c i n iov total k = Ret (r, k') /\ ok k' /\ k_mem k' = k_mem k /\
    (r < 0 /\ total = 0 /\ sunk k' = sunk k \/
     total <= r <= total + zlen (gather c i iov (k_mem k)) /\ sunk k' = sunk k ++ take (Z.to_nat (r - total)) (gather c i iov (k_mem k))).
Proof.
  revert i total k. induction c as [|c IH]; intros i total k Hok Ht Hm; cbn [writev_loop gather] in *.
  { exists total, k. split_and!; [done..|]. right. rewrite take_nil, app_nil_r. split; [rewrite zlen_nil; lia|done]. }
  set (len := iov_len (k_mem k) iov i) in *. set (l := mem_read (k_mem k) (iov_base (k_mem k) iov i) (Z.to_nat len)) in *.
  set (g := gather c (S i) iov (k_mem k)) in *. pose proof (load64_range (k_mem k) (iov + 16 * Z.of_nat i + 8)) as Hl. fold (iov_len (k_mem k) iov i) in Hl. fold len in Hl.
  assert (El : zlen l = len) by (unfold l, zlen; rewrite mem_read_length; lia). rewrite zlen_app in *. pose proof (zlen_nonneg g) as Hg.
  destruct (len =? 0) eqn:E0; bool_to_prop.
  { assert (l = []) as -> by (unfold l; by rewrite E0). apply IH; [done..|]. fold g. lia. }
  destruct (sink_write (iov_base (k_mem k) iov i) len k Hok ltac:(lia)) as (w & k1 & -> & Hok1 & Em & Hw). cbn [obind].
  destruct (w <? 0) eqn:Ew; bool_to_prop.
  { destruct Hw as [[_ Es]|[? _]]; [|lia]. eexists _, k1. split; [done|]. split_and!; [done..|]. destruct (0 <? total) eqn:Et; bool_to_prop.
    - right. rewrite Z.sub_diag. cbn. rewrite app_nil_r. split; [lia|done].
    - left. split_and!; [done|lia|done]. }
  destruct Hw as [[? _]|[Hw Es]]; [lia|]. rewrite i64_small, u64_small by lia. destruct (w <? len) eqn:Ec; bool_to_prop.
  { eexists _, k1. split; [done|]. split_and!; [done..|]. right. split; [lia|]. rewrite Es. f_equal. replace (total + w - total) with w by lia.
    rewrite take_app_le by (unfold zlen in El; lia). unfold l. by rewrite mem_read_take by lia. }
  assert (w = len) as -> by lia. destruct (IH (S i) (total + len) k1 Hok1 ltac:(lia)) as (r & k2 & E & Hok2 & Em2 & Hr); [rewrite Em; fold g; lia|].
  rewrite E. exists r, k2. split_and!; [done..|by rewrite Em2|]. right. rewrite Em in Hr. fold g in Hr. destruct Hr as [(? & ? & _)|[Hr Es2]]; [lia|].
  split; [lia|]. rewrite Es2, Es, <- app_assoc. f_equal. fold l. replace (Z.to_nat (r - total)) with (length l + Z.to_nat (r - (total + len)))%nat by (unfold zlen in *; lia).
  by rewrite take_app_add.
Qed.

(** [writev] writes its vectors as if they were one buffer.  On any
    descriptor that is a [Sink], the call returns; an error means that nothing was
    written, and a count [r] that exactly the first [r] bytes of the vectors put
    one after the other were. *)
Theorem writev_gathers iov iovcnt k :
  ok k -> zlen (gather (Z.to_nat iovcnt) 0 iov (k_mem k)) < 2 ^ 63 ->
  exists r k', sys_writev n iov iovcnt k = Ret (r, k') /\ ok k' /\ k_mem k' = k_mem k /\
    (r < 0 /\ sunk k' = sunk k \/
     0 <= r <= zlen (gather (Z.to_nat iovcnt) 0 iov (k_mem k)) /\
     sunk k' = sunk k ++ take (Z.to_nat r) (gather (Z.to_nat iovcnt) 0 iov (k_mem k))).
Proof.
  intros Hok Hl. destruct (writev_loop_spec (Z.to_nat iovcnt) 0 iov 0 k Hok ltac:(lia) Hl) as (r & k' & E & Hok' & Em & Hr).
  exists r, k'. split_and!; [done..|]. rewrite Z.sub_0_r in Hr. destruct Hr as [(? & _ & ?)|?]; [by left|by right].
Qed.
End writev.

Lemma position_insert_same {A} (f : A -> bool) l i x :
  (forall y, l !! i = Some y -> f x = f y) -> position f (<[i := x]> l) = position f l.
Proof.
  revert i. induction l as [|y l IH]; intros [|i] Hx; [done..| |]; cbn.
  - by rewrite (Hx y eq_refl).
  - rewrite IH; [done|]. intros z. apply (Hx z).
Qed.

Section sinks.
Context `{Machine}.

(** The serial line, under both of its descriptors. *)
Lemma serial_sink (n : Z) : n = 1 \/ n = 2 -> Sink n (fun _ => True) uart_out.
Proof.
  intros Hn. constructor. intros buf count k _ Hc. unfold sys_write.
  replace (is_tmpfs_fd (k_tmpfs k) n) with false by (by destruct Hn as [-> | ->]).
  replace ((n =? 1) || (n =? 2)) with true by (by destruct Hn as [-> | ->]). cbv zeta. rewrite i64_small by lia. eexists _, _. split; [done|].
  split; [done|]. set (l := mem_read _ _ _). split; [by repeat case_match|]. right. split; [lia|]. by repeat case_match.
Qed.
#[global] Instance serial_sink_1 : Sink 1 (fun _ => True) uart_out := serial_sink 1 (or_introl eq_refl).
#[global] Instance serial_sink_2 : Sink 2 (fun _ => True) uart_out := serial_sink 2 (or_intror eq_refl).

(** The write end of the pipe in slot [i]. *)
Definition pipe_ready (n : Z) (i : nat) (k : kernel) : Prop :=
  table_ok (k_pipes k) /\ is_tmpfs_fd (k_tmpfs k) n = false /\ position (writes_fd n) (PIPES (k_pipes k)) = Some i.
Definition pipe_contents (i : nat) (k : kernel) : bytes :=
  match PIPES (k_pipes k) !! i with Some p => contents p | None => [] end.

#[global] Instance pipe_sink n i : 200 <= n -> Sink n (pipe_ready n i) (pipe_contents i).
Proof.
  intros Hn. constructor. intros buf count k (Ht & Hf & Hi) Hc. unfold sys_write. rewrite Hf.
  replace ((n =? 1) || (n =? 2)) with false by (symmetry; apply orb_false_iff; rewrite !Z.eqb_neq; lia).
  rewrite (proj2 (Z.eqb_neq n FD_DEVNULL)) by (unfold FD_DEVNULL; lia).
  pose proof (position_Some _ _ _ Hi) as (p & Hp & Hw & _). assert (Hpf : is_pipe_fd (k_pipes k) n = true).
  { apply existsb_exists. exists p. split; [apply list_elem_of_In; by eapply list_elem_of_lookup_2|]. unfold either_fd. unfold writes_fd in Hw. by rewrite Hw, orb_true_r. }
  rewrite Hpf. pose proof (write_effect (k_pipes k) (k_mem k) n buf count Ht ltac:(lia)) as He.
  destruct (Pipe.write (k_pipes k) (k_mem k) n buf count) as [r s]. destruct He as (Ht' & _ & He). exists r, (set_pipes k s). split; [done|].
  destruct He as [[-> ->]|(i' & q & q' & Hi' & Hq & Es & (Er & Ew & _) & _ & Er' & Ec)].
  { split; [done|]. split; [done|]. left. split; [unfold Pipe.EBADF; lia|done]. }
  rewrite Hi in Hi'. injection Hi' as <-. split.
  - split; [done|]. split; [done|]. cbn [k_pipes set_pipes]. rewrite Es, position_insert_same; [done|]. intros y Hy.
    unfold writes_fd. rewrite Hq in Hy. injection Hy as <-. by rewrite Ew.
  - split; [done|]. right. split; [lia|]. unfold pipe_contents. cbn [k_pipes set_pipes]. rewrite Es, Hq.
    rewrite list_lookup_insert_eq by (by eapply lookup_lt_Some). done.
Qed.

(** What [send_slice] of smoltcp documents: it takes a prefix of the data into the
    stream [sent], or refuses and takes nothing. *)
Class SendLaw (sent : tcp -> bytes) := {
  send_some : forall l t c t', tcp_send_slice l t = (Some c, t') -> 0 <= c <= zlen l /\ sent t' = sent t ++ take (Z.to_nat c) l;
  send_none : forall l t t', tcp_send_slice l t = (None, t') -> sent t' = sent t
}.

(** The TCP stream behind a descriptor. *)
Definition stream_of (n : Z) (st : Socket.state) : option tcp :=
  match find_socket st n, NET st with
  | Some (_, x), Some (s, _) =>
      match sock_type x, s !! handle x with TcpStream, Some (Tcp t) => Some t | _, _ => None end
  | _, _ => None
  end.
Definition sent_on (sent : tcp -> bytes) (n : Z) (st : Socket.state) : bytes :=
  match stream_of n st with Some t => sent t | None => [] end.

(** A send without a destination on a stream: it is refused, or a prefix is sent. *)
Lemma sendto_stream sent `{!SendLaw sent} n buf len pi m st :
  0 <= len -> is_Some (stream_of n st) ->
  exists r st', sys_sendto n buf len 0 pi m st = Ret (r, st') /\ is_Some (stream_of n st') /\ SOCKETS st' = SOCKETS st /\
    (r < 0 /\ sent_on sent n st' = sent_on sent n st \/
     0 <= r <= len /\ sent_on sent n st' = sent_on sent n st ++ mem_read m buf (Z.to_nat r)).
Proof.
  intros Hl [t Ht]. unfold sent_on, sys_sendto. unfold stream_of in Ht. destruct (find_socket st n) as [[i x]|] eqn:Ef; [|done].
  destruct (NET st) as [[s d]|] eqn:EN; [|done]. destruct (sock_type x) eqn:Ety; [|done..].
  destruct (s !! handle x) as [[t'| |]|] eqn:Eh; [|done..]. injection Ht as ->. unfold net_set. rewrite EN. cbn [obind]. unfold get_tcp. rewrite Eh. cbn [obind].
  assert (Hst : stream_of n st = Some t) by (unfold stream_of; by rewrite Ef, EN, Ety, Eh).
  destruct (tcp_can_send t); cbn [negb]; [|exists (-11), st; rewrite Hst; split_and!; [done|by eexists|done|by left]].
  destruct (tcp_send_slice (mem_read m buf (Z.to_nat len)) t) as [r t1] eqn:Es.
  assert (Hst1 : stream_of n (with_set st (put_tcp s (handle x) t1)) = Some t1).
  { unfold stream_of, find_socket in *. cbn [SOCKETS NET with_set]. rewrite Ef, EN, Ety. unfold put_tcp. by rewrite lookup_insert_eq. }
  eexists _, _. split; [done|]. rewrite Hst1, Hst. split; [by eexists|]. split; [done|]. destruct r as [c|].
  - apply send_some in Es as [Hc Es]. right. unfold zlen in Hc. rewrite mem_read_length in Hc. split; [lia|]. rewrite Es. f_equal.
    apply mem_read_take. lia.
  - apply send_none in Es. left. split; [lia|done].
Qed.

(** A connected TCP socket. *)
Definition tcp_ready (n : Z) (k : kernel) : Prop :=
  is_tmpfs_fd (k_tmpfs k) n = false /\ is_pipe_fd (k_pipes k) n = false /\ is_Some (stream_of n (k_socks k)).

Lemma stream_is_socket n st : is_Some (stream_of n st) -> is_socket_fd st n = true.
Proof.
  intros [t Ht]. unfold stream_of in Ht. destruct (find_socket st n) as [[i x]|] eqn:Ef; [|done]. apply socket_fd_iff. unfold sock_fds.
  apply find_split in Ef as (l1 & l2 & -> & _ & <-). rewrite fmap_app. set_solver.
Qed.

#[global] Instance tcp_sink sent `{!SendLaw sent} n : 200 <= n -> Sink n (tcp_ready n) (fun k => sent_on sent n (k_socks k)).
Proof.
  intros Hn. constructor. intros buf count k (Hf & Hp & Ht) Hc. unfold sys_write. rewrite Hf, Hp.
  replace ((n =? 1) || (n =? 2)) with false by (symmetry; apply orb_false_iff; rewrite !Z.eqb_neq; lia).
  rewrite (proj2 (Z.eqb_neq n FD_DEVNULL)) by (unfold FD_DEVNULL; lia). rewrite (stream_is_socket _ _ Ht).
  destruct (sendto_stream sent n buf count (net_event (tick k)) (k_mem k) (k_socks k) ltac:(lia) Ht) as (r & s & -> & Ht' & _ & Hr). cbn [obind].
  eexists _, _. split; [done|]. split; [by split_and!|]. by split.
Qed.
End sinks.

(** ** sendfile *)

Section sendfile.
Context `{Machine} (sent : tcp -> bytes) `{!SendLaw sent}.

Lemma pread_file data st m fd buf count off i f :
  files_ok data st -> find_file st fd = Some (i, f) -> 0 <= count -> 0 <= off ->
  let n := Z.max 0 (Z.min count (f_len f - off)) in
  exists m', Vfs.pread st data m fd buf count off = Ret (n, m') /\
    mem_read m' buf (Z.to_nat n) = take (Z.to_nat n) (drop (Z.to_nat off) (file_bytes data f)) /\
    forall a, ~ buf <= a < buf + n -> m' a = m a.
Proof.
  intros Hok Hf Hc Ho n. pose proof (find_file_ok _ _ _ _ _ Hok Hf) as Hfo. pose proof (file_bytes_length _ _ Hfo) as Hbl.
  pose proof Hfo as (? & ? & ?). destruct Hok as [Hd _].
  unfold Vfs.pread. rewrite Hf. destruct (f_len f <=? off) eqn:E; bool_to_prop.
  { replace n with 0 by lia. by exists m. }
  rewrite (u64_small (f_len f - off)) by lia. replace (Z.min count (f_len f - off)) with n by lia.
  rewrite copy_out_file by (done || lia). set (l := take _ _). cbn [obind]. eexists. split; [done|].
  assert (Hl : length l = Z.to_nat n) by (unfold l, zlen in *; rewrite length_take, length_drop; lia). split.
  - rewrite <- Hl. apply mem_read_write_same.
  - intros a Ha. apply mem_write_outside. unfold zlen. lia.
Qed.

(** Outside the kernel's transfer buffer two memories are the same. *)
Definition but_kbuf (m m' : mem) : Prop := forall a, ~ kbuf <= a < kbuf + CHUNK -> m' a = m a.
#[local] Instance but_kbuf_preorder : PreOrder but_kbuf.
Proof. split; [by intros x a Ha|]. intros x y z Hxy Hyz a Ha. by rewrite Hyz, Hxy. Qed.

Lemma sendfile_loop_spec fuel i f out_fd in_fd off total remaining k :
  files_ok cpio_data (k_vfs k) -> find_file (k_vfs k) in_fd = Some (i, f) -> is_Some (stream_of out_fd (k_socks k)) ->
  0 <= off -> 0 <= total -> 0 <= remaining < Z.of_nat fuel -> total + remaining < 2 ^ 63 -> off + remaining < 2 ^ 64 ->
  exists res k', sendfile_loop fuel out_fd in_fd off total remaining k = Ret (res, k') /\ k_vfs k' = k_vfs k /\ but_kbuf (k_mem k) (k_mem k') /\
    match res with
    | inl e => e < 0 /\ total = 0 /\ sent_on sent out_fd (k_socks k') = sent_on sent out_fd (k_socks k)
    | inr (t, o) =>
        exists c, 0 <= c <= remaining /\ t = total + c /\ o = off + c /\ c <= Z.max 0 (f_len f - off) /\
          sent_on sent out_fd (k_socks k') =
            sent_on sent out_fd (k_socks k) ++ take (Z.to_nat c) (drop (Z.to_nat off) (file_bytes cpio_data f))
    end.
Proof.
  intros Hok Hf. revert off total remaining k Hok Hf. induction fuel as [|fuel IH]; intros off total remaining k Hok Hf Hst Ho Ht Hr Hm Hm2; [lia|].
  assert (Hstop : forall k', k_socks k' = k_socks k -> exists c, 0 <= c <= remaining /\ total = total + c /\ off = off + c /\ c <= Z.max 0 (f_len f - off) /\
    sent_on sent out_fd (k_socks k') = sent_on sent out_fd (k_socks k) ++ take (Z.to_nat c) (drop (Z.to_nat off) (file_bytes cpio_data f))).
  { intros k' ->. exists 0. split_and!; [lia..|]. by rewrite app_nil_r. }
  cbn [sendfile_loop]. destruct (remaining <=? 0) eqn:E0; bool_to_prop; [eexists _, k; split; [done|]; split_and!; [done..|]; by apply Hstop|].
  destruct (pread_file _ _ (k_mem k) _ kbuf (Z.min remaining CHUNK) off _ _ Hok Hf ltac:(unfold CHUNK; lia) Ho) as (m1 & -> & Hr1 & Hb).
  cbn [obind]. set (nread := Z.max 0 (Z.min (Z.min remaining CHUNK) _)) in *.
  assert (Hb1 : but_kbuf (k_mem k) m1) by (intros a Ha; apply Hb; unfold CHUNK in *; lia).
  destruct (nread <? 0) eqn:E1; bool_to_prop; [lia|]. destruct (nread =? 0) eqn:E2; bool_to_prop.
  { eexists _, _. split; [done|]. split_and!; [done..|]. by apply Hstop. }
  cbn [k_socks set_mem k_mem tick]. destruct (sendto_stream sent out_fd kbuf nread (net_event (tick k)) m1 (k_socks k) ltac:(lia) Hst) as (w & s & -> & Hst' & _ & Hw).
  cbn [obind]. destruct (w <? 0) eqn:E3; bool_to_prop.
  { destruct Hw as [[_ Hw]|[? _]]; [|lia]. eexists _, _. split; [done|]. split_and!; [done..|]. cbn [k_socks set_socks]. destruct (0 <? total) eqn:Et; bool_to_prop.
    - exists 0. rewrite Hw, app_nil_r. split_and!; lia || done.
    - split_and!; [done|lia|done]. }
  destruct Hw as [[? _]|[Hw Es]]; [lia|]. rewrite !u64_small by lia.
  rewrite <- (mem_read_take m1 kbuf (Z.to_nat nread)), Hr1, take_take, Nat.min_l in Es by lia.
  destruct (w <? nread) eqn:E4; bool_to_prop.
  { eexists _, _. split; [done|]. split_and!; [done..|]. exists w. split_and!; [lia..|done]. }
  edestruct (IH (off + w) (total + w) (remaining - w) (set_socks (next_tick (set_mem k m1)) s)) as (res & k' & -> & Ev & Hb2 & Hres); [done|done|done|lia..|].
  eexists res, k'. split; [done|]. split_and!; [done|by trans m1|]. destruct res as [e|[t o]]; [lia|].
  destruct Hres as (c & Hc & -> & -> & Hc' & E). exists (w + c). split_and!; [lia..|]. rewrite E. cbn [k_socks set_socks]. rewrite Es, <- app_assoc. f_equal.
  rewrite !Z2Nat.inj_add, <- drop_drop by lia. rewrite <- (take_drop (Z.to_nat w) (drop (Z.to_nat off) _)) at 3.
  rewrite take_app_add'; [done|]. rewrite length_take, length_drop. pose proof (file_bytes_length _ _ (find_file_ok _ _ _ _ _ Hok Hf)) as Hbl. unfold zlen in Hbl. lia.
Qed.

(** [sendfile] neither loses nor repeats a byte.  Between a file of the archive
    and a connected stream, with an offset given, the call returns; an error means
    that nothing was sent and the offset is as it was, and a count [r] that the
    stream got exactly the [r] bytes of the file from the offset on, and that the
    offset stored is the old one plus [r], where the next call goes on. *)
Theorem sendfile_exact i f out_fd in_fd ptr count k :
  files_ok cpio_data (k_vfs k) -> find_file (k_vfs k) in_fd = Some (i, f) -> is_Some (stream_of out_fd (k_socks k)) ->
  ptr <> 0 -> ptr + 8 <= kbuf \/ kbuf + CHUNK <= ptr ->
  0 <= count < 2 ^ 63 -> load64 (k_mem k) ptr + count < 2 ^ 64 ->
  let off := load64 (k_mem k) ptr in
  exists r k', sys_sendfile out_fd in_fd ptr count k = Ret (r, k') /\
    (r < 0 /\ load64 (k_mem k') ptr = off /\ sent_on sent out_fd (k_socks k') = sent_on sent out_fd (k_socks k) \/
     0 <= r <= count /\ load64 (k_mem k') ptr = off + r /\ r <= Z.max 0 (f_len f - off) /\
     sent_on sent out_fd (k_socks k') =
       sent_on sent out_fd (k_socks k) ++ take (Z.to_nat r) (drop (Z.to_nat off) (file_bytes cpio_data f))).
Proof.
  intros Hok Hf Hst Hp Hd Hc Hm off. pose proof (load64_range (k_mem k) ptr) as Hr. unfold sys_sendfile. rewrite (stream_is_socket _ _ Hst).
  assert (is_vfs_fd (k_vfs k) in_fd = true) as ->.
  { pose proof (find_file_lookup _ _ _ _ Hf) as (Hl & Hfd & _). unfold is_vfs_fd. apply existsb_exists. eexists. split; [by eapply list_elem_of_In, list_elem_of_lookup_2|].
    by apply Z.eqb_eq. }
  cbn [negb]. rewrite (proj2 (Z.eqb_neq ptr 0) Hp). cbn [andb].
  edestruct (sendfile_loop_spec (S (S (Z.to_nat count))) i f out_fd in_fd (load64 (k_mem k) ptr) 0 count (set_vfs k (k_vfs k))) as (res & k' & -> & Ev & Hb2 & Hres); [done|done|done|lia..|].
  cbn [obind]. cbn [k_socks k_mem set_vfs] in Hb2, Hres. destruct res as [e|[t o]].
  - destruct Hres as (He & _ & E). exists e, k'. split; [done|]. left. split_and!; [done| |done]. unfold off, load64. f_equal. f_equal.
    apply mem_read_ext. intros a Ha. apply Hb2. unfold CHUNK in *. lia.
  - destruct Hres as (c & Hc' & -> & -> & Hcl & E). eexists _, _. split; [done|]. right. rewrite Z.add_0_l, i64_small by lia.
    split_and!; [lia..| |done|done]. cbn [k_mem set_mem]. apply load64_store64. lia.
Qed.
End sendfile.

(** ** epoll *)

Section epoll.
Context `{GoodMachine}.

(** What one descriptor's own test answers in a state. *)
Definition answer {A} (o : outcome (Z * A)) : Z := match o with Ret (r, _) => r | _ => 0 end.
Definition readiness (k : kernel) (e : EpollEntry) : Z := answer (epoll_ready e k).

(** The registered descriptors that are ready, up to a maximum. *)
Definition readies (k : kernel) (l : list EpollEntry) : list EpollEntry := filter (fun e => readiness k e <> 0) (registered l).
Definition reported (max : Z) (k : kernel) (l : list EpollEntry) : list EpollEntry := take (Z.to_nat max) (readies k l).

(** An event as it lies in memory: the mask, and the data the program registered. *)
Definition event (k : kernel) (e : EpollEntry) : bytes := le_bytes 4 (readiness k e) ++ le_bytes 8 (e_data e).

Lemma poll_socket_ext n st st' :
  find_socket st' n = find_socket st n -> NET st' = NET st -> answer (poll_socket n st') = answer (poll_socket n st).
Proof.
  intros Ef EN. unfold poll_socket, net_set. rewrite Ef, EN. destruct (find_socket st n) as [[i x]|]; [|done]. destruct (NET st) as [[s d]|]; [|done]. cbn [obind].
  destruct (sock_type x); [destruct (get_tcp s (handle x)) as [t| |]; [|done..]|destruct (any_active _ _)|destruct (get_udp _ _)]; cbn [obind]; [|done..].
  destruct (connecting x); [|done]. by destruct (tcp_state t).
Qed.

Lemma poll_socket_frame n st r st' n' :
  poll_socket n st = Ret (r, st') -> n' <> n -> find_socket st' n' = find_socket st n' /\ NET st' = NET st.
Proof.
  intros Hp Hn. unfold poll_socket in Hp. destruct (find_socket st n) as [[i x]|] eqn:Ef; [|by returned].
  returned; try done. split; [|done]. by apply (find_put st st n i x (set_connecting x false)).
Qed.

Lemma readiness_ext e k k' :
  uart_in k' = uart_in k -> k_pipes k' = k_pipes k ->
  is_socket_fd (k_socks k') (e_fd e) = is_socket_fd (k_socks k) (e_fd e) ->
  find_socket (k_socks k') (e_fd e) = find_socket (k_socks k) (e_fd e) -> NET (k_socks k') = NET (k_socks k) ->
  (e_fd e = FD_TIMER -> k_clock k' = k_clock k /\ tick k' = tick k) -> readiness k' e = readiness k e.
Proof.
  intros Eu Ep Ei Ef EN Hc. unfold readiness, epoll_ready. destruct (_ =? FD_TIMER) eqn:Et; bool_to_prop.
  { destruct (Hc Et) as [Ec Ek]. unfold with_clock. rewrite Ec, Ek. by destruct (timerfd_ready _ _). }
  rewrite Eu, Ep. destruct (e_fd e =? 0); [done|]. destruct (is_pipe_fd (k_pipes k) (e_fd e)); [done|]. pose proof (poll_socket_ext _ _ _ Ef EN) as Ha.
  rewrite Ei. destruct (is_socket_fd (k_socks k) (e_fd e)); [|done].
  destruct (poll_socket (e_fd e) (k_socks k')) as [[]| |], (poll_socket (e_fd e) (k_socks k)) as [[]| |]; cbn [obind answer] in *; subst; by rewrite ?Z.land_0_l.
Qed.

(** A descriptor's test does not change the answer of another's. *)
Lemma readiness_frame e e' k r k' :
  epoll_ready e k = Ret (r, k') -> e_fd e' <> e_fd e -> readiness k' e' = readiness k e'.
Proof.
  intros Hr Hne. unfold epoll_ready in Hr. destruct (e_fd e =? FD_TIMER) eqn:Et; bool_to_prop.
  { unfold with_clock in Hr. destruct (timerfd_ready _ _) as [b c]. injection Hr as _ <-. by apply readiness_ext; [..|lia]. }
  destruct (e_fd e =? 0); [injection Hr as _ <-; by apply readiness_ext|].
  destruct (is_pipe_fd _ _) eqn:Ep; [injection Hr as _ <-; by apply readiness_ext|].
  destruct (is_socket_fd _ _); [|injection Hr as _ <-; by apply readiness_ext].
  destruct (poll_socket _ _) as [[sev s]| |] eqn:Es; [|done..]. injection Hr as _ <-.
  pose proof (poll_socket_same _ _ _ _ Es) as Hs. destruct (poll_socket_frame _ _ _ _ (e_fd e') Es Hne) as [Ef EN].
  apply readiness_ext; [done..| |done|done|done]. cbn [k_socks set_socks]. apply eq_true_iff_eq.
  by rewrite !socket_fd_iff, (proj1 Hs).
Qed.

(** An event written past those already there. *)
Lemma event_written m p r d :
  let m' := store64 (store32 m p r) (p + 4) d in
  mem_read m' p 12 = le_bytes 4 r ++ le_bytes 8 d /\ forall a, ~ p <= a < p + 12 -> m' a = m a.
Proof.
  intros m'. unfold m', store64, store32. split.
  - change 12%nat with (4 + 8)%nat. rewrite mem_read_app. f_equal; [|apply mem_read_le].
    rewrite mem_read_write_disjoint by (left; lia). apply mem_read_le.
  - intros a Ha. rewrite !mem_write_outside; [done|unfold zlen; rewrite le_bytes_length; lia..].
Qed.

Lemma readies_ext k k' l : Forall (fun e => readiness k' e = readiness k e) (registered l) -> readies k' l = readies k l.
Proof.
  unfold readies. induction 1 as [|e l' E _ IHf]; [done|]. rewrite !filter_cons, E. by repeat case_decide; rewrite ?IHf.
Qed.
Lemma readies_mem k m l : readies (set_mem k m) l = readies k l.
Proof. apply readies_ext, Forall_true. intros e. by apply readiness_ext. Qed.
Lemma readies_cons k e l :
  readies k (e :: l) = (if decide (0 <= e_fd e /\ readiness k e <> 0) then [e] else []) ++ readies k l.
Proof. unfold readies, registered. rewrite filter_cons. repeat (case_decide || rewrite filter_cons); tauto || done. Qed.
Lemma readies_frame e l k r k' :
  epoll_ready e k = Ret (r, k') -> 0 <= e_fd e -> NoDup (e_fd <$> registered (e :: l)) ->
  Forall (fun e' => readiness k' e' = readiness k e') (registered l) /\ NoDup (e_fd <$> registered l).
Proof.
  intros Er He. unfold registered. rewrite filter_cons_True by done. intros [Hin Hn]%NoDup_cons. split; [|done].
  apply Forall_forall. intros e' He'. apply (readiness_frame e _ _ r); [done|]. intros Eq. apply Hin. rewrite <- Eq. by apply list_elem_of_fmap_2.
Qed.

Lemma event_ext k k' l (es : list EpollEntry) :
  Forall (fun e => readiness k' e = readiness k e) (registered l) -> (forall e, e ∈ es -> e ∈ registered l) -> event k' <$> es = event k <$> es.
Proof.
  intros Hf Hin. apply list_fmap_ext. intros i e He. unfold event. rewrite Forall_forall in Hf. rewrite (Hf e); [done|].
  eapply Hin, list_elem_of_lookup_2; done.
Qed.
Lemma reported_in n k l e : e ∈ take n (readies k l) -> e ∈ registered l.
Proof. intros He%(subseteq_take n)%list_elem_of_filter. tauto. Qed.

Lemma epoll_ready_mem e k r k' : epoll_ready e k = Ret (r, k') -> k_mem k' = k_mem k.
Proof.
  unfold epoll_ready. intros Hr. destruct (_ =? FD_TIMER).
  { unfold with_clock in Hr. destruct (timerfd_ready _ _). by injection Hr as _ <-. }
  returned; done.
Qed.

Lemma epoll_scan_exact l ptr max count k :
  kinv k -> NoDup (e_fd <$> registered l) -> 0 <= count <= max ->
  let es := reported (max - count) k l in
  exists k', epoll_scan l ptr max count k = Ret (count + zlen es, k') /\ kinv k' /\
    mem_read (k_mem k') (ptr + 12 * count) (12 * length es) = concat (event k <$> es) /\
    forall a, ~ ptr + 12 * count <= a < ptr + 12 * (count + zlen es) -> k_mem k' a = k_mem k a.
Proof.
  unfold reported. revert count k. induction l as [|e l IH]; intros count k Hk Hn Hc; cbn [epoll_scan].
  { change (readies k []) with (@nil EpollEntry). rewrite take_nil. exists k. by rewrite Z.add_0_r. }
  destruct (max <=? count) eqn:E0; bool_to_prop.
  { replace (max - count) with 0 by lia. exists k. by rewrite Z.add_0_r. }
  rewrite readies_cons. destruct (e_fd e <? 0) eqn:E1; bool_to_prop.
  { rewrite decide_False by lia. unfold registered in Hn. rewrite filter_cons_False in Hn by lia. by apply IH. }
  destruct (epoll_ready_ok e k Hk) as (r & k1 & Er & Hk1). rewrite Er. cbn [obind].
  assert (Hrd : readiness k e = r) by (unfold readiness; by rewrite Er). destruct (readies_frame _ _ _ _ _ Er E1 Hn) as [Hf Hn'].
  pose proof (readies_ext _ _ _ Hf) as Hrs. destruct (r =? 0) eqn:E2; bool_to_prop.
  - rewrite decide_False by lia. cbn [app]. destruct (IH count k1 Hk1 Hn' Hc) as (k2 & -> & Hk2 & Hm & Ho). rewrite Hrs in *.
    exists k2. split_and!; [done..| |by intros a Ha; rewrite Ho, (epoll_ready_mem _ _ _ _ Er)].
    rewrite Hm. f_equal. apply (event_ext _ _ l); [done|]. intros e'. apply reported_in.
  - rewrite decide_True by lia. cbn [app]. replace (Z.to_nat (max - count)) with (S (Z.to_nat (max - (count + 1)))) by lia. cbn [take].
    set (m := store64 _ _ _). destruct (event_written (k_mem k1) (ptr + 12 * count) r (e_data e)) as [Hev Hout]. fold m in Hev, Hout.
    destruct (IH (count + 1) (set_mem k1 m) (kinv_mem _ _ Hk1) Hn' ltac:(lia)) as (k2 & -> & Hk2 & Hm & Ho). rewrite readies_mem, Hrs in *.
    set (es := take _ _) in *. exists k2. rewrite zlen_cons. split_and!; [do 2 f_equal; lia|done| |].
    + cbn [length fmap list_fmap concat]. replace (12 * S (length es))%nat with (12 + 12 * length es)%nat by lia. rewrite mem_read_app. f_equal.
      * unfold event. rewrite Hrd, <- Hev. apply mem_read_ext. intros a Ha. apply Ho. lia.
      * replace (ptr + 12 * count + Z.of_nat 12) with (ptr + 12 * (count + 1)) by lia. rewrite Hm. f_equal.
        apply (event_ext _ _ l); [|intros e'; apply reported_in]. eapply Forall_impl; [exact Hf|]. intros e' <-. by apply readiness_ext.
    + intros a Ha. rewrite Ho by lia. cbn [k_mem set_mem]. rewrite Hout by (pose proof (zlen_nonneg es); lia). by rewrite (epoll_ready_mem _ _ _ _ Er).
Qed.

(** C30: [epoll_wait] reports what is ready.  One look at the descriptors, after the
    network was polled, tells of the first [maxevents] registered descriptors that
    are ready then, in the order of the table and each once: the events written are
    their masks with the data they were registered with, the count is their number,
    and the rest of the memory is as it was.  With anything to report, or with a
    timeout of zero, the call returns this at its first look. *)
Theorem epoll_reports fuel ptr maxevents timeout k :
  kinv k -> 0 <= maxevents < 2 ^ 63 ->
  let k0 := if 0 <? timeout then (now k).2 else k in
  exists k1 k2, net_poll k0 = Ret k1 /\
    let es := reported maxevents k1 (k_epoll k) in
    (es <> [] \/ timeout <= 0 /\ timeout <> -1 -> sys_epoll_wait (S fuel) ptr maxevents timeout k = Ret (zlen es, k2)) /\
    epoll_scan (k_epoll k) ptr maxevents 0 k1 = Ret (zlen es, k2) /\
    mem_read (k_mem k2) ptr (12 * length es) = concat (event k1 <$> es) /\
    forall a, ~ ptr <= a < ptr + 12 * zlen es -> k_mem k2 a = k_mem k1 a.
Proof.
  intros Hk Hm k0. assert (Hk0 : kinv k0 /\ k_epoll k0 = k_epoll k).
  { unfold k0. destruct (0 <? timeout); [|done]. split; [apply (kinv_with_clock monotonic_ns k Hk)|]. unfold now, with_clock. by destruct (monotonic_ns _ _). }
  destruct Hk0 as [Hk0 Ee]. destruct (net_poll_ok k0 Hk0) as (k1 & E1 & Hk1). exists k1.
  assert (Ee1 : k_epoll k1 = k_epoll k). { rewrite <- Ee. unfold net_poll in E1. by returned. }
  destruct (epoll_scan_exact (k_epoll k) ptr maxevents 0 k1 Hk1) as (k2 & Es & _ & Hr & Ho); [apply (eo_nodup _ (ki_epoll _ Hk))|lia|].
  rewrite Z.sub_0_r, Z.mul_0_r, Z.add_0_r, Z.add_0_l in *. set (es := reported _ _ _) in *. exists k2. split; [done|]. cbv zeta. fold es. split_and!; [|done..].
  intros Hgo. unfold sys_epoll_wait. rewrite i64_small by lia.
  assert (Hl : forall d, (es = [] -> d = Some 0) -> epoll_loop (S fuel) ptr maxevents d k0 = Ret (zlen es, k2)).
  { intros d Hd. cbn [epoll_loop]. rewrite E1. cbn [obind]. rewrite Ee1, Es. cbn [obind]. destruct es as [|e es']; [by rewrite Hd|].
    by rewrite zlen_cons, (proj2 (Z.ltb_lt 0 _)) by (pose proof (zlen_nonneg es'); lia). }
  destruct (timeout =? -1) eqn:E2; bool_to_prop.
  { unfold k0 in Hl. rewrite (proj2 (Z.ltb_ge 0 timeout)) in Hl by lia. apply Hl. intros. destruct Hgo; [done|lia]. }
  unfold k0 in Hl. destruct (0 <? timeout) eqn:E3; bool_to_prop; [|by apply Hl]. destruct (now k) as [t k']. apply Hl. intros. destruct Hgo; [done|lia].
Qed.

(** The interest list: what is registered for each descriptor. *)
Definition interests (l : list EpollEntry) : gmap Z (Z * Z) :=
  list_to_map ((fun e => (e_fd e, (e_data e, e_events e))) <$> registered l).

Lemma interests_lookup l fd d ev :
  epoll_ok l -> interests l !! fd = Some (d, ev) <-> mkEpoll fd d ev ∈ registered l.
Proof.
  intros [_ Hn]. unfold interests. rewrite <- elem_of_list_to_map.
  - rewrite list_elem_of_fmap. split; [intros ([] & E & Hin); by simplify_eq/=|]. intros Hin. by exists (mkEpoll fd d ev).
  - by rewrite <- list_fmap_compose.
Qed.

Lemma interests_drop fd l : epoll_ok l -> interests (epoll_drop_fd fd l) = delete fd (interests l).
Proof.
  intros Hl. apply map_eq. intros n. apply option_eq. intros [d ev]. rewrite interests_lookup by (by apply epoll_drop_ok).
  rewrite lookup_delete_Some, interests_lookup by done. rewrite registered_drop, list_elem_of_filter. cbn [e_fd]. split; intros []; done.
Qed.

(** Putting an entry in the place of one with the same descriptor, or of an empty one. *)
Lemma interests_put l1 e l2 fd d ev :
  0 <= fd -> epoll_ok (l1 ++ e :: l2) -> epoll_ok (l1 ++ mkEpoll fd d ev :: l2) -> e_fd e = fd \/ e_fd e < 0 ->
  interests (l1 ++ mkEpoll fd d ev :: l2) = <[fd := (d, ev)]> (interests (l1 ++ e :: l2)).
Proof.
  intros Hfd Hl Hl' He. apply map_eq. intros n. apply option_eq. intros [d' ev']. rewrite lookup_insert_Some, !interests_lookup by done.
  destruct Hl' as [_ Hn]. rewrite !registered_app in *. unfold registered in *. rewrite filter_cons_True in Hn |- * by done. rewrite filter_cons.
  rewrite fmap_app in Hn. cbn [fmap list_fmap e_fd] in Hn. rewrite <- Permutation_middle in Hn. apply NoDup_cons in Hn as [Hnot _].
  rewrite <- fmap_app in Hnot. set (r1 := filter _ l1) in *. set (r2 := filter _ l2) in *.
  assert (Hin : forall x, x ∈ r1 ++ r2 -> e_fd x <> fd) by (intros x Hx <-; apply Hnot; by apply list_elem_of_fmap_2).
  rewrite !elem_of_app, elem_of_cons. split.
  - intros [H3|[[= -> -> ->]|H3]]; [|by left|]; right; (split; [symmetry; apply (Hin (mkEpoll n d' ev')); set_solver|]); case_decide; set_solver.
  - intros [[<- [= -> ->]]|[Hne [H3|H3]]]; [set_solver..|]. case_decide; [|set_solver]. apply elem_of_cons in H3 as [<-|H3]; [|set_solver].
    cbn [e_fd] in *. lia.
Qed.

(** The epoll table is a map from descriptors to what they are registered with.
    ADD and MOD set the descriptor's entry, if it has one or the table has an empty
    one, and change no other; DEL, like [close], removes it.  A descriptor refused
    for want of space is dropped without an error. *)
Theorem epoll_interests op fd ptr k :
  kinv k -> 0 <= fd ->
  let ev := if ptr =? 0 then 0 else load32 (k_mem k) ptr in
  let d := if ptr =? 0 then 0 else load64 (k_mem k) (ptr + 4) in
  let old := interests (k_epoll k) in
  let room := bool_decide (is_Some (old !! fd)) || existsb (entry_is (-1)) (k_epoll k) in
  (sys_epoll_ctl op fd ptr k).1 = 0 /\
  interests (k_epoll (sys_epoll_ctl op fd ptr k).2) =
    (if op =? 2 then delete fd old else if room then <[fd := (d, ev)]> old else old).
Proof.
  intros Hk Hfd ev d old room. pose proof (ki_epoll _ Hk) as Hl. unfold sys_epoll_ctl. destruct (op =? 2); (split; [done|]); cbn [snd k_epoll set_epoll].
  { by apply interests_drop. }
  pose proof (epoll_set_ok fd d ev _ Hl) as Hl'. unfold epoll_set in *. fold d ev. unfold room, old in *. clear room old.
  destruct (position (entry_is fd) (k_epoll k)) as [i|] eqn:Ei.
  { apply position_split in Ei as (l1 & e & l2 & E & <- & Ee%Z.eqb_eq & _). rewrite E in *. rewrite insert_app_r_alt, Nat.sub_diag in * by done.
    cbn [insert list_insert] in *. rewrite bool_decide_true; [by apply interests_put; auto|]. exists (e_data e, e_events e).
    apply interests_lookup; [done|]. rewrite <- Ee. destruct e. apply list_elem_of_filter. cbn in *. set_solver by lia. }
  rewrite bool_decide_false.
  2:{ intros [[d' ev'] Hi%interests_lookup]; [|done]. apply list_elem_of_filter in Hi as [_ Hi]. apply position_None in Ei. rewrite Forall_forall in Ei.
      specialize (Ei _ Hi). unfold entry_is in Ei. cbn in Ei. by rewrite Z.eqb_refl in Ei. }
  destruct (position (entry_is (-1)) (k_epoll k)) as [i|] eqn:Ej.
  - apply position_split in Ej as (l1 & e & l2 & E & <- & Ee & _). rewrite E in *. rewrite insert_app_r_alt, Nat.sub_diag in * by done.
    cbn [insert list_insert] in *. rewrite existsb_app. cbn [existsb]. rewrite Ee, orb_true_r. apply Z.eqb_eq in Ee.
    apply interests_put; [done..|]. right. lia.
  - destruct (existsb _ _) eqn:Ex; [|done]. apply existsb_exists in Ex as (e & He & Ee). apply position_None in Ej. rewrite Forall_forall in Ej.
    rewrite <- list_elem_of_In in He. by rewrite (Ej _ He) in Ee.
Qed.
End epoll.

(** ** Instances *)

#[local] Existing Instance toy.
#[local] Existing Instance toy_chacha.
#[local] Existing Instance toy_machine.
#[local] Existing Instance toy_good.

Definition toy_sent (t : tcp) : bytes := tt_tx t.
#[local] Instance toy_sends : SendLaw toy_sent.
Proof.
  constructor; intros l t; cbn; destruct (toy_in _ t); intros * E; simplify_eq; [|done]. split; [|done].
  pose proof (zlen_nonneg l). unfold sat_sub. lia.
Qed.

(** Two vectors at address 40960. *)
Definition toy_vectors : kernel :=
  set_mem toy_kernel (store64 (store64 (store64 (store64 toy_mem 40960 16384) 40968 5) 40976 16640) 40984 4).

Lemma writev_gathers_witness :
  exists r k', sys_writev 1 40960 2 toy_vectors = Ret (r, k') /\ True /\ k_mem k' = k_mem toy_vectors /\
    (r < 0 /\ uart_out k' = uart_out toy_vectors \/
     0 <= r <= zlen (gather 2 0 40960 (k_mem toy_vectors)) /\
     uart_out k' = uart_out toy_vectors ++ take (Z.to_nat r) (gather 2 0 40960 (k_mem toy_vectors))).
Proof. apply (writev_gathers 1 40960 2 toy_vectors I). vm_compute. reflexivity. Defined.

(** A connection accepted as descriptor 501, and a file of the archive open as 1000. *)
Definition toy_serving_calls : list kcall :=
  [mkCall 41 2 1 0 0 0 0; mkCall 49 500 4096 16 0 0 0; mkCall 50 500 8 0 0 0 0; mkCall 43 500 0 0 0 0 0; mkCall 2 16640 0 0 0 0 0;
    mkCall 233 50 1 501 0 0 0; mkCall 22 24576 0 0 0 0 0; mkCall 1 201 16384 4 0 0 0; mkCall 233 50 1 200 0 0 0].
Definition toy_serving : kernel := toy_after_calls toy_serving_calls.
Lemma toy_serving_ok : kcalls_okb 3 toy_serving_calls toy_kernel = true.
Proof. vm_compute. reflexivity. Qed.

Lemma sendfile_exact_witness :
  exists i f, find_file (k_vfs toy_serving) 1000 = Some (i, f) /\
  exists r k', sys_sendfile 501 1000 45056 100 toy_serving = Ret (r, k') /\
    (r < 0 /\ load64 (k_mem k') 45056 = load64 (k_mem toy_serving) 45056 /\ sent_on toy_sent 501 (k_socks k') = sent_on toy_sent 501 (k_socks toy_serving) \/
     0 <= r <= 100 /\ load64 (k_mem k') 45056 = load64 (k_mem toy_serving) 45056 + r /\ r <= Z.max 0 (f_len f - load64 (k_mem toy_serving) 45056) /\
     sent_on toy_sent 501 (k_socks k') = sent_on toy_sent 501 (k_socks toy_serving) ++
       take (Z.to_nat r) (drop (Z.to_nat (load64 (k_mem toy_serving) 45056)) (file_bytes cpio_data f))).
Proof.
  destruct (find_file (k_vfs toy_serving) 1000) as [[i f]|] eqn:Ef; [|vm_compute in Ef; discriminate Ef]. exists i, f. split; [reflexivity|].
  assert (Hs : is_Some (stream_of 501 (k_socks toy_serving))).
  { assert (Et : match stream_of 501 (k_socks toy_serving) with Some t => tt_cap t | None => 0 end = 32768) by (vm_compute; reflexivity).
    destruct (stream_of 501 (k_socks toy_serving)) as [t|]; [by exists t|discriminate Et]. }
  assert (Hp : 45056 + 8 <= kbuf \/ kbuf + CHUNK <= 45056) by (left; vm_compute; discriminate).
  assert (Hl : load64 (k_mem toy_serving) 45056 + 100 < 2 ^ 64) by (vm_compute; reflexivity).
  exact (sendfile_exact toy_sent i f 501 1000 45056 100 toy_serving (inv_files _ _ (ki_vfs _ (toy_after_kinv _ toy_serving_ok))) Ef Hs
    ltac:(discriminate) Hp ltac:(lia) Hl).
Defined.

Lemma epoll_reports_witness :
  exists k1 k2, net_poll toy_serving = Ret k1 /\
    let es := reported 8 k1 (k_epoll toy_serving) in
    (es <> [] \/ 0 <= 0 /\ 0 <> -1 -> sys_epoll_wait 1 49152 8 0 toy_serving = Ret (zlen es, k2)) /\
    epoll_scan (k_epoll toy_serving) 49152 8 0 k1 = Ret (zlen es, k2) /\
    mem_read (k_mem k2) 49152 (12 * length es) = concat (event k1 <$> es) /\
    forall a, ~ 49152 <= a < 49152 + 12 * zlen es -> k_mem k2 a = k_mem k1 a.
Proof. apply (epoll_reports 0 49152 8 0 toy_serving); [apply toy_after_kinv, toy_serving_ok|lia]. Defined.

Lemma epoll_interests_witness :
  (sys_epoll_ctl 1 201 24576 toy_serving).1 = 0 /\
  interests (k_epoll (sys_epoll_ctl 1 201 24576 toy_serving).2) =
    <[201 := (load64 (k_mem toy_serving) 24580, load32 (k_mem toy_serving) 24576)]> (interests (k_epoll toy_serving)).
Proof.
  pose proof (epoll_interests 1 201 24576 toy_serving (toy_after_kinv _ toy_serving_ok) ltac:(lia)) as Hi. cbv zeta in Hi.
  replace (existsb (entry_is (-1)) (k_epoll toy_serving)) with true in Hi by (vm_compute; reflexivity). rewrite orb_true_r in Hi.
  change (24576 =? 0) with false in Hi. change (24576 + 4) with 24580 in Hi. change (1 =? 2) with false in Hi. exact Hi.
Defined.
