(* ===== verification/Elf.v ===== *)
(** * The ELF loader ([src/src/elf.rs])

    [load] copies the loadable segments of an executable image to their addresses
    in the identity-mapped memory and clears what follows them.  The image lies in
    the same memory, [len] bytes at [base].  Proved: on a well-formed image every
    segment is in place, nothing else is touched, and the addresses reported to the
    program (its headers, its break) are right. *)

From S2P Require Import Prelude.

Definition ELF_MAGIC : bytes := [127; 69; 76; 70].
Definition ET_EXEC : Z := 2.
Definition PT_LOAD : Z := 1.
Definition ELFCLASS64 : Z := 2.
Definition EM_X86_64 : Z := 62.

Record Elf64Header := mkHeader {
  e_ident : bytes; e_type : Z; e_machine : Z; e_version : Z; e_entry : Z; e_phoff : Z; e_shoff : Z; e_flags : Z;
  e_ehsize : Z; e_phentsize : Z; e_phnum : Z; e_shentsize : Z; e_shnum : Z; e_shstrndx : Z
}.
Definition HEADER_SIZE : Z := 64.
Definition read_header (m : mem) (p : Z) : Elf64Header :=
  mkHeader (mem_read m p 16) (load16 m (p + 16)) (load16 m (p + 18)) (load32 m (p + 20)) (load64 m (p + 24)) (load64 m (p + 32))
    (load64 m (p + 40)) (load32 m (p + 48)) (load16 m (p + 52)) (load16 m (p + 54)) (load16 m (p + 56)) (load16 m (p + 58))
    (load16 m (p + 60)) (load16 m (p + 62)).

Record Elf64Phdr := mkPhdr {
  p_type : Z; p_flags : Z; p_offset : Z; p_vaddr : Z; p_paddr : Z; p_filesz : Z; p_memsz : Z; p_align : Z
}.
Definition PHDR_SIZE : Z := 56.
Definition read_phdr (m : mem) (p : Z) : Elf64Phdr :=
  mkPhdr (load32 m p) (load32 m (p + 4)) (load64 m (p + 8)) (load64 m (p + 16)) (load64 m (p + 24)) (load64 m (p + 32))
    (load64 m (p + 40)) (load64 m (p + 48)).

Record ElfInfo := mkInfo { entry : Z; phdr_vaddr : Z; phentsize : Z; phnum : Z; mem_end : Z }.

Inductive elf_error :=
  | TooSmall | BadMagic | NotElf64 | NotExec | NotX86_64 | PhdrOutOfBounds | SegmentOutOfBounds.

(** The copy of one segment, and the clearing of the rest of it. *)
Definition load_segment (base : Z) (ph : Elf64Phdr) (m : mem) : mem :=
  let m := mem_write m (p_vaddr ph) (mem_read m (u64 (base + p_offset ph)) (Z.to_nat (p_filesz ph))) in
  if p_filesz ph <? p_memsz ph then mem_zero m (u64 (p_vaddr ph + p_filesz ph)) (p_memsz ph - p_filesz ph) else m.

(** What one loaded segment does to the address of the headers and to the end. *)
Definition note_phdrs (phoff : Z) (ph : Elf64Phdr) (vaddr : Z) : Z :=
  if (vaddr =? 0) && (p_offset ph <=? phoff) && (phoff <? u64 (p_offset ph + p_filesz ph))
  then u64 (p_vaddr ph + (phoff - p_offset ph)) else vaddr.
Definition note_end (ph : Elf64Phdr) (e : Z) : Z :=
  let seg_end := u64 (p_vaddr ph + p_memsz ph) in if e <? seg_end then seg_end else e.

(** The loop over the program headers from number [i]; each is read when its turn
    comes. *)
Fixpoint load_phdrs (n : nat) (i base len phoff vaddr mend : Z) (m : mem) : (elf_error + Z * Z) * mem :=
  match n with
  | O => (inr (vaddr, mend), m)
  | S n' =>
      let offset := u64 (phoff + i * PHDR_SIZE) in
      if len <? u64 (offset + PHDR_SIZE) then (inl PhdrOutOfBounds, m)
      else
        let ph := read_phdr m (u64 (base + offset)) in
        if negb (p_type ph =? PT_LOAD) then load_phdrs n' (i + 1) base len phoff vaddr mend m
        else if len <? u64 (p_offset ph + p_filesz ph) then (inl SegmentOutOfBounds, m)
        else
          let m := load_segment base ph m in
          load_phdrs n' (i + 1) base len phoff (note_phdrs phoff ph vaddr) (note_end ph mend) m
  end.

Definition load (base len : Z) (m : mem) : (elf_error + ElfInfo) * mem :=
  if len <? HEADER_SIZE then (inl TooSmall, m)
  else
    let h := read_header m base in
    if negb (bytes_eqb (take 4 (e_ident h)) ELF_MAGIC) then (inl BadMagic, m)
    else if negb (nth 4 (e_ident h) 0 =? ELFCLASS64) then (inl NotElf64, m)
    else if negb (e_type h =? ET_EXEC) then (inl NotExec, m)
    else if negb (e_machine h =? EM_X86_64) then (inl NotX86_64, m)
    else
      match load_phdrs (Z.to_nat (e_phnum h)) 0 base len (e_phoff h) 0 0 m with
      | (inl e, m) => (inl e, m)
      | (inr (vaddr, mend), m) =>
          (inr (mkInfo (e_entry h) vaddr (e_phentsize h) (e_phnum h) (and_not (u64 (mend + 4095)) 4095)), m)
      end.

(** ** A well-formed image *)

Definition header_at (m : mem) (base phoff i : Z) : Elf64Phdr := read_phdr m (base + phoff + i * PHDR_SIZE).

(** The loadable segments, in the order of their headers. *)
Fixpoint segments (n : nat) (i base phoff : Z) (m : mem) : list Elf64Phdr :=
  match n with
  | O => []
  | S n' =>
      let ph := header_at m base phoff i in
      (if p_type ph =? PT_LOAD then [ph] else []) ++ segments n' (i + 1) base phoff m
  end.

(** Where a segment lies when loaded, and what it holds. *)
Definition in_segment (ph : Elf64Phdr) (a : Z) : Prop := p_vaddr ph <= a < p_vaddr ph + p_memsz ph.
Definition segment_bytes (base : Z) (m : mem) (ph : Elf64Phdr) : bytes :=
  mem_read m (base + p_offset ph) (Z.to_nat (p_filesz ph)) ++ replicate (Z.to_nat (p_memsz ph - p_filesz ph)) 0.

(** A segment inside the file and inside the address space, away from the image. *)
Record segment_ok (base len : Z) (ph : Elf64Phdr) : Prop := mkSegOk {
  so_file : p_offset ph + p_filesz ph <= len;
  so_sizes : 0 <= p_filesz ph <= p_memsz ph;
  so_offset : 0 <= p_offset ph;
  so_vaddr : 0 <= p_vaddr ph;
  so_space : p_vaddr ph + p_memsz ph < 2 ^ 64 - 4096;
  so_apart : p_vaddr ph + p_memsz ph <= base \/ base + len <= p_vaddr ph
}.
Definition apart (p q : Elf64Phdr) : Prop :=
  p_vaddr p + p_memsz p <= p_vaddr q \/ p_vaddr q + p_memsz q <= p_vaddr p.

Record image_ok (base len : Z) (m : mem) : Prop := mkImageOk {
  io_base : 0 <= base;
  io_space : base + len < 2 ^ 64;
  io_size : HEADER_SIZE <= len;
  io_magic : take 4 (e_ident (read_header m base)) = ELF_MAGIC;
  io_class : nth 4 (e_ident (read_header m base)) 0 = ELFCLASS64;
  io_type : e_type (read_header m base) = ET_EXEC;
  io_machine : e_machine (read_header m base) = EM_X86_64;
  io_table : e_phoff (read_header m base) + e_phnum (read_header m base) * PHDR_SIZE <= len;
  io_segments : Forall (segment_ok base len) (segments (Z.to_nat (e_phnum (read_header m base))) 0 base (e_phoff (read_header m base)) m);
  io_apart : ForallOrdPairs apart (segments (Z.to_nat (e_phnum (read_header m base))) 0 base (e_phoff (read_header m base)) m)
}.

(** ** The proofs *)

(** Two memories that agree on the image. *)
Definition same_image (base len : Z) (m m' : mem) : Prop := forall a, base <= a < base + len -> m' a = m a.

Lemma read_phdr_ext m m' p : (forall a, p <= a < p + PHDR_SIZE -> m' a = m a) -> read_phdr m' p = read_phdr m p.
Proof.
  unfold PHDR_SIZE. intros Hm. unfold read_phdr, load32, load64. f_equal; do 2 f_equal; apply mem_read_ext; intros a Ha; apply Hm; lia.
Qed.

Lemma load_segment_outside base len ph m a :
  segment_ok base len ph -> ~ in_segment ph a -> load_segment base ph m a = m a.
Proof.
  intros [] Ha. unfold in_segment in Ha. unfold load_segment.
  set (l := mem_read _ _ _). assert (Hl : zlen l = p_filesz ph) by (unfold zlen, l; rewrite mem_read_length; lia).
  destruct (_ <? _) eqn:E; bool_to_prop.
  - rewrite u64_small by lia. rewrite mem_zero_outside by lia. apply mem_write_outside. lia.
  - apply mem_write_outside. lia.
Qed.

Lemma load_segment_image base len ph m : segment_ok base len ph -> same_image base len m (load_segment base ph m).
Proof. intros Hs a Ha. apply (load_segment_outside base len); [done|]. unfold in_segment. destruct Hs. lia. Qed.

Lemma load_segment_bytes base len ph m :
  0 <= base -> base + len < 2 ^ 64 -> segment_ok base len ph ->
  mem_read (load_segment base ph m) (p_vaddr ph) (Z.to_nat (p_memsz ph)) = segment_bytes base m ph.
Proof.
  intros Hb Hl []. unfold load_segment, segment_bytes. rewrite u64_small by lia.
  set (l := mem_read m (base + p_offset ph) _). assert (Hll : length l = Z.to_nat (p_filesz ph)) by (unfold l; by rewrite mem_read_length).
  replace (Z.to_nat (p_memsz ph)) with (length l + Z.to_nat (p_memsz ph - p_filesz ph))%nat by lia. rewrite mem_read_app.
  destruct (_ <? _) eqn:E; bool_to_prop.
  - rewrite u64_small by lia. f_equal.
    + rewrite mem_read_zero_disjoint by lia. apply mem_read_write_same.
    + replace (p_vaddr ph + Z.of_nat (length l)) with (p_vaddr ph + p_filesz ph) by lia.
      rewrite <- (Z2Nat.id (p_memsz ph - p_filesz ph)) at 1 by lia. apply mem_read_zero_same.
  - replace (p_memsz ph - p_filesz ph) with 0 by lia. cbn [Z.to_nat mem_read replicate]. f_equal. apply mem_read_write_same.
Qed.

(** The loop is a fold over the segments. *)
Definition load_all (base : Z) (l : list Elf64Phdr) (m : mem) : mem := foldl (fun m ph => load_segment base ph m) m l.

Lemma load_all_image base len l : forall m, Forall (segment_ok base len) l -> same_image base len m (load_all base l m).
Proof.
  induction l as [|ph l IH]; intros m Hl; [done|]. apply Forall_cons in Hl as [Hp Hl]. intros a Ha. cbn [load_all foldl].
  fold (load_all base l (load_segment base ph m)). by rewrite IH, (load_segment_image base len).
Qed.

Lemma load_all_outside base len l : forall m a,
  Forall (segment_ok base len) l -> Forall (fun ph => ~ in_segment ph a) l -> load_all base l m a = m a.
Proof.
  induction l as [|ph l IH]; intros m a Hl Ha; [done|]. apply Forall_cons in Hl as [Hp Hl]. apply Forall_cons in Ha as [Hpa Ha].
  cbn [load_all foldl]. fold (load_all base l (load_segment base ph m)). by rewrite IH, (load_segment_outside base len).
Qed.

Lemma segment_bytes_ext base len m m' ph :
  segment_ok base len ph -> same_image base len m m' -> segment_bytes base m' ph = segment_bytes base m ph.
Proof. intros [] Hi. unfold segment_bytes. f_equal. apply mem_read_ext. intros a Ha. apply Hi. lia. Qed.

Lemma load_all_bytes base len l : forall m ph,
  0 <= base -> base + len < 2 ^ 64 -> Forall (segment_ok base len) l -> ForallOrdPairs apart l -> ph ∈ l ->
  mem_read (load_all base l m) (p_vaddr ph) (Z.to_nat (p_memsz ph)) = segment_bytes base m ph.
Proof.
  induction l as [|q l IH]; intros m ph Hb Hs Hl Ha Hin; [set_solver|]. apply Forall_cons in Hl as [Hq Hl]. inversion_clear Ha as [|? ? Hqa Ha'].
  cbn [load_all foldl]. fold (load_all base l (load_segment base q m)). apply elem_of_cons in Hin as [->|Hin].
  - rewrite <- (load_segment_bytes base len q m) by done. apply mem_read_ext. intros a Hr. apply (load_all_outside base len); [done|].
    eapply Forall_impl; [exact Hqa|]. intros p Hap. unfold apart in Hap. unfold in_segment. lia.
  - rewrite IH by done. rewrite Forall_forall in Hl. apply (segment_bytes_ext base len); [by apply Hl|]. by apply load_segment_image.
Qed.

Lemma segments_ext base len phoff n : forall i m m',
  0 <= i -> 0 <= phoff -> phoff + (i + Z.of_nat n) * PHDR_SIZE <= len -> same_image base len m m' ->
  segments n i base phoff m' = segments n i base phoff m.
Proof.
  unfold PHDR_SIZE. induction n as [|n IH]; intros i m m' Hi Ho Hl Hm; [done|]. cbn [segments].
  assert (header_at m' base phoff i = header_at m base phoff i) as ->.
  { apply read_phdr_ext. unfold PHDR_SIZE. intros a Ha. apply Hm. lia. }
  f_equal. apply IH; [lia..|done].
Qed.

Lemma load_phdrs_fold base len phoff n : forall i vaddr mend m,
  0 <= base -> base + len < 2 ^ 64 -> 0 <= i -> 0 <= phoff -> phoff + (i + Z.of_nat n) * PHDR_SIZE <= len ->
  Forall (segment_ok base len) (segments n i base phoff m) ->
  let l := segments n i base phoff m in
  load_phdrs n i base len phoff vaddr mend m =
    (inr (foldl (fun v ph => note_phdrs phoff ph v) vaddr l, foldl (fun e ph => note_end ph e) mend l), load_all base l m).
Proof.
  unfold PHDR_SIZE. induction n as [|n IH]; intros i vaddr mend m Hb Hs Hi Ho Hl Hok; [done|]. cbn [segments load_phdrs] in *.
  unfold PHDR_SIZE in *. rewrite (u64_small (phoff + i * 56)), (u64_small (phoff + i * 56 + 56)), (u64_small (base + _)) by lia. rewrite (proj2 (Z.ltb_ge len _)) by lia.
  replace (base + (phoff + i * 56)) with (base + phoff + i * PHDR_SIZE) by (unfold PHDR_SIZE; lia). fold (header_at m base phoff i). set (ph := header_at m base phoff i) in *.
  destruct (p_type ph =? PT_LOAD); cbn [negb app] in *; [|by apply IH; [lia..|]].
  apply Forall_cons in Hok as [Hp Hok]. pose proof Hp as []. rewrite u64_small by lia. rewrite (proj2 (Z.ltb_ge len _)) by lia.
  assert (Hx : segments n (i + 1) base phoff (load_segment base ph m) = segments n (i + 1) base phoff m).
  { apply (segments_ext base len); [lia..| |by apply load_segment_image]. unfold PHDR_SIZE. lia. }
  rewrite IH; rewrite ?Hx; [done|lia..|done].
Qed.

(** Being well formed is a matter of the image's bytes alone. *)
Lemma read_header_ext base len m m' :
  HEADER_SIZE <= len -> same_image base len m m' -> read_header m' base = read_header m base.
Proof.
  unfold HEADER_SIZE. intros Hl Hm. unfold read_header, load16, load32, load64.
  f_equal; first [apply mem_read_ext | do 2 f_equal; apply mem_read_ext]; intros a Ha; apply Hm; lia.
Qed.

Lemma image_segments_ext base len m m' :
  image_ok base len m -> same_image base len m m' ->
  let h := read_header m base in
  read_header m' base = h /\ segments (Z.to_nat (e_phnum h)) 0 base (e_phoff h) m' = segments (Z.to_nat (e_phnum h)) 0 base (e_phoff h) m.
Proof.
  intros [] Hm h. pose proof (read_header_ext base len m m' io_size0 Hm) as E. split; [done|].
  apply (segments_ext base len); [lia|apply load64_range| |done]. rewrite Z2Nat.id by (apply Z.mod_pos_bound; lia). done.
Qed.

Lemma image_ok_ext base len m m' : image_ok base len m -> same_image base len m m' -> image_ok base len m'.
Proof.
  intros Hi Hm. destruct (image_segments_ext base len m m' Hi Hm) as [E Es]. destruct Hi. constructor; rewrite ?E, ?Es; done.
Qed.

(** A part of what was copied reads as in the source. *)
Lemma copied_part (m m' : mem) p q n k z d c :
  mem_read m' p n = mem_read m q k ++ z -> (d + c <= k)%nat -> (k <= n)%nat ->
  mem_read m' (p + Z.of_nat d) c = mem_read m (q + Z.of_nat d) c.
Proof.
  intros E Hd Hk. apply list_eq. intros i. destruct (decide (i < c)%nat) as [Hi|Hi].
  - rewrite !mem_read_lookup by done. assert (El : mem_read m' p n !! (d + i)%nat = mem_read m q k !! (d + i)%nat).
    { rewrite E, lookup_app_l; [done|]. rewrite mem_read_length. lia. }
    rewrite !mem_read_lookup in El by lia. injection El as El. rewrite <- !Z.add_assoc, <- !Nat2Z.inj_add. by f_equal.
  - rewrite !lookup_ge_None_2; [done|rewrite mem_read_length; lia..].
Qed.

(** The end of the last segment. *)
Lemma note_end_spec base len l : forall e, Forall (segment_ok base len) l ->
  let e' := foldl (fun e ph => note_end ph e) e l in
  e <= e' /\ Forall (fun ph => p_vaddr ph + p_memsz ph <= e') l /\ (e' = e \/ exists ph, ph ∈ l /\ e' = p_vaddr ph + p_memsz ph).
Proof.
  induction l as [|ph l IH]; intros e Hl; [cbn; auto with lia|]. apply Forall_cons in Hl as [Hp Hl]. cbn [foldl].
  specialize (IH (note_end ph e) Hl). cbv zeta in *. set (e' := foldl _ _ _) in *. destruct IH as (H1 & H2 & H3).
  assert (Hn : note_end ph e = Z.max e (p_vaddr ph + p_memsz ph)).
  { unfold note_end. destruct Hp. rewrite u64_small by lia. destruct (_ <? _) eqn:E; bool_to_prop; lia. }
  split; [lia|]. split; [constructor; [lia|done]|]. destruct H3 as [H3|(q & Hq & H3)]; [|right; exists q; set_solver].
  destruct (Z.max_spec e (p_vaddr ph + p_memsz ph)) as [[? E]|[? E]]; [right; exists ph; set_solver by lia|left; lia].
Qed.

(** A segment whose file part has the start of the program headers. *)
Definition has_headers (phoff : Z) (ph : Elf64Phdr) : Prop := p_offset ph <= phoff < p_offset ph + p_filesz ph.

Lemma note_phdrs_spec base len phoff l :
  0 <= base -> base + len < 2 ^ 64 -> Forall (segment_ok base len) l ->
  Forall (fun ph => has_headers phoff ph -> 0 < p_vaddr ph) l -> Exists (has_headers phoff) l ->
  exists ph, ph ∈ l /\ has_headers phoff ph /\ foldl (fun v ph => note_phdrs phoff ph v) 0 l = p_vaddr ph + (phoff - p_offset ph).
Proof.
  intros Hb Hs Hl Hv He. induction l as [|q l IH]; [by apply Exists_nil in He|].
  apply Forall_cons in Hl as [Hq Hl]. apply Forall_cons in Hv as [Hqv Hv]. cbn [foldl]. unfold note_phdrs at 2. pose proof Hq as [].
  rewrite (u64_small (_ + p_filesz q)) by lia. cbn [Z.eqb andb]. unfold has_headers in *.
  destruct (decide (p_offset q <= phoff < p_offset q + p_filesz q)) as [E|E].
  - rewrite (proj2 (Z.leb_le _ _)), (proj2 (Z.ltb_lt _ _)) by lia. cbn [andb]. exists q. split; [set_solver|]. split; [done|]. rewrite u64_small by lia. specialize (Hqv E).
    assert (Hkeep : forall v, v <> 0 -> foldl (fun v ph => note_phdrs phoff ph v) v l = v); [|apply Hkeep; lia].
    clear. intros v Hv. induction l as [|ph l IH]; [done|]. cbn [foldl]. unfold note_phdrs at 2. by rewrite (proj2 (Z.eqb_neq v 0)).
  - assert ((p_offset q <=? phoff) && (phoff <? p_offset q + p_filesz q) = false) as -> by (apply andb_false_iff; rewrite Z.leb_gt, Z.ltb_ge; lia).
    apply Exists_cons in He as [He|He]; [lia|]. destruct (IH Hl Hv He) as (ph & Hin & Hh & E'). exists ph. split; [set_solver|done].
Qed.

Lemma load_spec base len m :
  image_ok base len m ->
  let h := read_header m base in
  let segs := segments (Z.to_nat (e_phnum h)) 0 base (e_phoff h) m in
  let table := Z.to_nat (e_phnum h * PHDR_SIZE) in
  exists info m', load base len m = (inr info, m') /\
    entry info = e_entry h /\ phnum info = e_phnum h /\ phentsize info = e_phentsize h /\
    (forall ph, ph ∈ segs -> mem_read m' (p_vaddr ph) (Z.to_nat (p_memsz ph)) = segment_bytes base m ph) /\
    (forall a, Forall (fun ph => ~ in_segment ph a) segs -> m' a = m a) /\
    (mem_end info mod 4096 = 0 /\ Forall (fun ph => p_vaddr ph + p_memsz ph <= mem_end info) segs /\
     (mem_end info = 0 \/ Exists (fun ph => mem_end info < p_vaddr ph + p_memsz ph + 4096) segs)) /\
    (Exists (has_headers (e_phoff h)) segs ->
     Forall (fun ph => has_headers (e_phoff h) ph -> 0 < p_vaddr ph /\ e_phoff h + e_phnum h * PHDR_SIZE <= p_offset ph + p_filesz ph) segs ->
     mem_read m' (phdr_vaddr info) table = mem_read m (base + e_phoff h) table).
Proof.
  intros [] h segs table. fold h in io_magic0, io_class0, io_type0, io_machine0, io_table0, io_segments0, io_apart0. fold segs in io_segments0, io_apart0.
  assert (Hn : 0 <= e_phnum h < 2 ^ 16) by (apply Z.mod_pos_bound; lia).
  pose proof (load64_range m (base + 32)) as Ho. change (0 <= e_phoff h < 2 ^ 64) in Ho.
  unfold load. rewrite (proj2 (Z.ltb_ge len HEADER_SIZE)) by done. fold h.
  rewrite io_magic0, bytes_eqb_refl, io_class0, io_type0, io_machine0, !Z.eqb_refl. cbn [negb].
  rewrite (load_phdrs_fold base len); [|done|done|lia|lia|rewrite Z2Nat.id by lia; lia|done]. fold segs. eexists _, _. split; [done|]. cbn [entry phnum phentsize mem_end phdr_vaddr].
  destruct (note_end_spec base len segs 0 io_segments0) as (He0 & Hends & Hlast). set (e := foldl (fun e ph => note_end ph e) 0 segs) in *.
  assert (He : 0 <= e < 2 ^ 64 - 4096).
  { split; [done|]. destruct Hlast as [->|(ph & Hin & ->)]; [lia|]. rewrite Forall_forall in io_segments0. by apply io_segments0. }
  destruct (page_round_spec e He) as [Hround Hmod]. set (me := and_not _ _) in *. split_and!; [done..| | | | | |].
  - intros ph Hin. by apply (load_all_bytes base len).
  - intros a Ha. by apply (load_all_outside base len).
  - done.
  - eapply Forall_impl; [exact Hends|]. cbn. lia.
  - destruct Hlast as [Hz|(ph & Hin & Hz)]; [left; unfold me; by rewrite Hz|right]. apply Exists_exists. exists ph. split; [done|lia].
  - intros Hex Hall. destruct (note_phdrs_spec base len (e_phoff h) segs) as (ph & Hin & Hh & ->); [done..| |done|].
    { eapply Forall_impl; [exact Hall|]. cbn. tauto. }
    rewrite Forall_forall in Hall. destruct (Hall ph Hin Hh) as [_ Hfit]. unfold has_headers in Hh.
    pose proof (load_all_bytes base len segs m ph io_base0 io_space0 io_segments0 io_apart0 Hin) as Hb. rewrite Forall_forall in io_segments0.
    destruct (io_segments0 ph Hin). unfold PHDR_SIZE in *.
    pose proof (copied_part _ _ _ _ _ _ _ (Z.to_nat (e_phoff h - p_offset ph)) table Hb ltac:(unfold table, PHDR_SIZE; lia) ltac:(lia)) as Hc.
    rewrite !Z2Nat.id in Hc by lia. rewrite Hc. f_equal. lia.
Qed.

(** The values reported fit their types. *)
Lemma load_phdrs_range n base len phoff : forall i vaddr mend m v e m',
  0 <= vaddr < 2 ^ 64 -> load_phdrs n i base len phoff vaddr mend m = (inr (v, e), m') -> 0 <= v < 2 ^ 64.
Proof.
  induction n as [|n IH]; intros i vaddr mend m v e m' Hv; cbn [load_phdrs]; [by intros [= -> _ _]|].
  repeat case_match; try done; intros E; eapply IH in E; eauto. unfold note_phdrs. case_match; [apply u64_range|done].
Qed.

Lemma load_range base len m info m' :
  load base len m = (inr info, m') ->
  0 <= entry info < 2 ^ 64 /\ 0 <= phdr_vaddr info < 2 ^ 64 /\ 0 <= phentsize info < 2 ^ 64 /\ 0 <= phnum info < 2 ^ 64.
Proof.
  unfold load. repeat case_match; try done. intros [= <- <-]. cbn [entry phdr_vaddr phentsize phnum].
  assert (H16 : forall p, 0 <= load16 m p < 2 ^ 64) by (intros q; pose proof (Z.mod_pos_bound (le_val (mem_read m q 2)) (2 ^ 16)); unfold load16, u16; lia).
  split; [apply load64_range|]. split; [eapply load_phdrs_range; [|eassumption]; lia|]. split; apply H16.
Qed.

(** C17: the loader puts an executable in place.  From a well-formed image, whose
    segments do not overlap each other or the image, every segment's bytes are at
    its address with zeros after them, and no other byte of memory changes; the
    break is at the first page boundary after the last segment; and when a segment
    holds the program headers, the address reported for them is where they are in
    memory. *)
Theorem elf_loads base len m :
  image_ok base len m ->
  let h := read_header m base in
  let segs := segments (Z.to_nat (e_phnum h)) 0 base (e_phoff h) m in
  let table := Z.to_nat (e_phnum h * PHDR_SIZE) in
  exists info m', load base len m = (inr info, m') /\
    entry info = e_entry h /\ phnum info = e_phnum h /\ phentsize info = e_phentsize h /\
    (forall ph, ph ∈ segs -> mem_read m' (p_vaddr ph) (Z.to_nat (p_memsz ph)) = segment_bytes base m ph) /\
    (forall a, Forall (fun ph => ~ in_segment ph a) segs -> m' a = m a) /\
    (mem_end info mod 4096 = 0 /\ Forall (fun ph => p_vaddr ph + p_memsz ph <= mem_end info) segs /\
     (mem_end info = 0 \/ Exists (fun ph => mem_end info < p_vaddr ph + p_memsz ph + 4096) segs)) /\
    (Exists (has_headers (e_phoff h)) segs ->
     Forall (fun ph => has_headers (e_phoff h) ph -> 0 < p_vaddr ph /\ e_phoff h + e_phnum h * PHDR_SIZE <= p_offset ph + p_filesz ph) segs ->
     mem_read m' (phdr_vaddr info) table = mem_read m (base + e_phoff h) table).
Proof. apply load_spec. Qed.

(** An image with one segment, which holds the headers, and a note. *)
Definition demo_phdr (t off vaddr filesz memsz : Z) : bytes :=
  le_bytes 4 t ++ le_bytes 4 5 ++ le_bytes 8 off ++ le_bytes 8 vaddr ++ le_bytes 8 vaddr ++ le_bytes 8 filesz ++ le_bytes 8 memsz ++ le_bytes 8 4096.
Definition demo_image : bytes :=
  ELF_MAGIC ++ [2; 1; 1; 0; 0; 0; 0; 0; 0; 0; 0; 0] ++ le_bytes 2 2 ++ le_bytes 2 62 ++ le_bytes 4 1 ++ le_bytes 8 4194480 ++ le_bytes 8 64 ++
  le_bytes 8 0 ++ le_bytes 4 0 ++ le_bytes 2 64 ++ le_bytes 2 56 ++ le_bytes 2 2 ++ le_bytes 2 0 ++ le_bytes 2 0 ++ le_bytes 2 0 ++
  demo_phdr 1 0 4194304 180 200 ++ demo_phdr 4 176 0 4 4 ++ [144; 144; 244; 195].
Definition demo_mem : mem := mem_write (fun _ => 7) 4194816 demo_image.

Lemma demo_ok : image_ok 4194816 180 demo_mem.
Proof.
  assert (E : segments (Z.to_nat (e_phnum (read_header demo_mem 4194816))) 0 4194816 (e_phoff (read_header demo_mem 4194816)) demo_mem =
    [mkPhdr 1 5 0 4194304 4194304 180 200 4096]) by (vm_compute; reflexivity).
  assert (Ht : e_phoff (read_header demo_mem 4194816) + e_phnum (read_header demo_mem 4194816) * PHDR_SIZE = 176) by (vm_compute; reflexivity).
  constructor; rewrite ?E, ?Ht; try lia; try (vm_compute; reflexivity).
  - unfold HEADER_SIZE. lia.
  - repeat constructor; cbn; lia.
  - repeat constructor.
Qed.

Lemma elf_loads_witness :
  exists info m', load 4194816 180 demo_mem = (inr info, m') /\ entry info = 4194480 /\ m' 4194480 = 144 /\ m' 4194500 = 0 /\ mem_end info = 4198400.
Proof.
  destruct (elf_loads 4194816 180 demo_mem demo_ok) as (info & m' & El & Ee & _ & _ & _). exists info, m'. split; [exact El|].
  assert (match load 4194816 180 demo_mem with (inr i, m) => (m 4194480, m 4194500, mem_end i) | _ => (0, 0, 0) end = (144, 0, 4198400)) as E by (vm_compute; reflexivity).
  rewrite El in E. injection E as E1 E2 E3. rewrite Ee. split_and!; [vm_compute; reflexivity|assumption..].
Defined.
