(* ===== verification/Boot.v ===== *)
(** * Boot ([src/src/main.rs])

    The last part of [main], from the copy of the executable to the jump, and the
    search for a multiboot module that precedes it: the archive is chosen (a
    module, or the one in the kernel image) and brought to its place, the file
    systems are mounted, the program is loaded, and its initial stack is built as
    the C start-up code expects it.  Proved: the archive in place is the module's,
    and the program finds on its stack its arguments, its environment and the
    auxiliary vector, with the stack pointer aligned.  The part of [main] between
    the two (heap, interrupts, clock, processors, network card, generator) is not
    modelled here: its steps belong to other components. *)

From S2P Require Import Prelude Tmpfs Vfs VfsProofs Mmap Elf.

(** ** The multiboot modules *)

Definition mb_read_u32 (m : mem) (base off : Z) : Z := load32 m (base + off).

Definition CPIO_MAGIC : bytes := b "070701".

(** The loop over the modules from number [i]; the entries after the first archive
    are read but not used. *)
Fixpoint scan_modules (n : nat) (i mods_addr : Z) (found : option (Z * Z)) (m : mem) : option (Z * Z) :=
  match n with
  | O => found
  | S n' =>
      let ent := mods_addr + i * 16 in
      let mod_start := mb_read_u32 m ent 0 in
      let mod_end := mb_read_u32 m ent 4 in
      let is_cpio := bytes_eqb (mem_read m mod_start 6) CPIO_MAGIC in
      let found := match found with None => if is_cpio then Some (mod_start, mod_end) else None | Some _ => found end in
      scan_modules n' (i + 1) mods_addr found m
  end.

Definition parse_multiboot_module (mbi : Z) (m : mem) : option (Z * Z) :=
  if mbi =? 0 then None
  else if Z.land (mb_read_u32 m mbi 0) 8 =? 0 then None
  else scan_modules (Z.to_nat (mb_read_u32 m mbi 20)) 0 (mb_read_u32 m mbi 24) None m.

(** ** The archive and the program *)

Definition ELF_COPY_BASE : Z := 335544320.
Definition CPIO_COPY_BASE : Z := ELF_COPY_BASE + 16777216.
Definition CPIO_HOME : Z := CPIO_COPY_BASE.
Definition MMAP_BASE : Z := 436207616.
Definition CPIO_MAX : Z := MMAP_BASE - CPIO_HOME.

(** The module is copied up, then its place is cleared to the end of the page. *)
Definition place_cpio (embedded : bytes) (cpio_module : option (Z * Z)) (v : Vfs.state) (m : mem) : outcome (Vfs.state * mem) :=
  match cpio_module with
  | Some (start, end_) =>
      let size := u64 (end_ - start) in
      do! _ <- assert (size <=? CPIO_MAX);
      do! _ <- assert ((end_ <=? CPIO_HOME) || (CPIO_HOME + size <=? start));
      let '(v, m) := relocate_from v m start size CPIO_HOME in
      let zero_end := and_not (u64 (end_ + 4095)) 4095 in
      Ret (v, mem_zero m start (u64 (zero_end - start)))
  | None => Ret (relocate embedded v m CPIO_HOME)
  end.

(** ** The initial stack *)

Definition USER_STACK_BASE : Z := 234881024.
Definition USER_STACK_SIZE : Z := 2097152.

Definition c_str (s : string) : bytes := b s ++ [0].
Definition args : list bytes := c_str <$>
  ["/otp/erts-15.2.7/bin/beam.smp"; "-S"; "2:2"; "-A"; "1"; "-P"; "65536"; "-Q"; "65536"; "--"; "-root"; "/otp";
   "-bindir"; "/otp/erts-15.2.7/bin"; "-noshell"; "-noinput"; "-kernel"; "inet_backend"; "inet"; "-eval"; "tyn_boot:start()."]%string.
Definition envs : list bytes := c_str <$>
  ["ROOTDIR=/otp"; "BINDIR=/otp/erts-15.2.7/bin"; "EMU=beam"; "PROGNAME=beam.smp"]%string.

(** Strings, each in a slot of its own, with their addresses in an array of [cap]
    entries. *)
Fixpoint put_strings (cap : nat) (slot : Z) (l : list bytes) (sp : Z) (ptrs : list Z) (m : mem) : outcome (Z * list Z * mem) :=
  match l with
  | [] => Ret (sp, ptrs, m)
  | s :: l' =>
      let sp := u64 (sp - slot) in
      let m := mem_write m sp s in
      if (length ptrs <? cap)%nat then put_strings cap slot l' sp (ptrs ++ [sp]) m else Panic
  end.

(** The bytes for the stack canary: [n] steps of the generator from [tsc]. *)
Fixpoint put_random (n : nat) (p tsc : Z) (m : mem) : mem :=
  match n with
  | O => m
  | S n' => put_random n' (p + 1) (u64 (u64 (tsc * 6364136223846793005) + 1)) (mem_write m p [u8 tsc])
  end.

(** [sp -= 8; *sp = v] and [sp -= 16; *sp = k; *(sp + 8) = v]. *)
Definition push (s : Z * mem) (v : Z) : Z * mem := let sp := u64 (fst s - 8) in (sp, store64 (snd s) sp v).
Definition push_pair (s : Z * mem) (kv : Z * Z) : Z * mem :=
  let sp := u64 (fst s - 16) in (sp, store64 (store64 (snd s) sp (fst kv)) (sp + 8) (snd kv)).

(** The auxiliary vector, in the order it is written. *)
Definition auxv (info : ElfInfo) (at_random_ptr : Z) : list (Z * Z) :=
  [(0, 0); (25, at_random_ptr); (9, entry info); (5, phnum info); (4, phentsize info); (3, phdr_vaddr info); (6, 4096); (7, 0); (16, 0); (17, 100)].

Definition build_stack (info : ElfInfo) (tsc : Z) (m : mem) : outcome (Z * mem) :=
  let user_stack_top := USER_STACK_BASE + USER_STACK_SIZE in
  let m := mem_zero m USER_STACK_BASE USER_STACK_SIZE in
  do! (sp, arg_ptrs, m) <- put_strings 24 2048 args user_stack_top [] m;
  do! (sp, env_ptrs, m) <- put_strings 8 256 envs sp [] m;
  let sp := u64 (sp - 16) in
  let at_random_ptr := sp in
  let m := put_random 16 sp tsc m in
  let s := (and_not sp 15, m) in
  let s := fold_left push_pair (auxv info at_random_ptr) s in
  let s := push s 0 in
  let s := fold_left push (rev env_ptrs) s in
  let s := push s 0 in
  let s := fold_left push (rev arg_ptrs) s in
  Ret (push s (zlen args)).

(** ** From the images to the program *)

Definition SENTINEL : bytes := b "TYN_MODULE_SENTINEL".

(** What the program starts with, and what boot reports of the archive on the
    serial line: how many files it has, and whether it has the sentinel. *)
Record launch := mkLaunch {
  l_vfs : Vfs.state;
  l_tmpfs : Tmpfs.state;
  l_mmap : Mmap.state;
  l_entry : Z;
  l_sp : Z;
  l_mem : mem;
  l_count : Z;
  l_source_module : bool
}.

(** [main] from the copy of the executable [elf] to the jump; a failed load panics.
    [cpio_module] is what [parse_multiboot_module] returned at its start. *)
Definition boot_user (elf embedded : bytes) (cpio_module : option (Z * Z)) (tsc : Z) (v : Vfs.state) (t : Tmpfs.state)
    (b : Mmap.state) (m : mem) : outcome launch :=
  do! _ <- assert (zlen elf <=? CPIO_COPY_BASE - ELF_COPY_BASE);
  let m := mem_write m ELF_COPY_BASE elf in
  do! (v, m) <- place_cpio embedded cpio_module v m;
  do! count <- Vfs.init (cpio_data embedded v m);
  let t := Tmpfs.init t in
  do! sentinel <- Vfs.exists_ (cpio_data embedded v m) SENTINEL;
  match Elf.load ELF_COPY_BASE (zlen elf) m with
  | (inl _, _) => Panic
  | (inr info, m) =>
      let b := set_initial_brk b (mem_end info) in
      do! (sp, m) <- build_stack info tsc m;
      Ret (mkLaunch v t b (entry info) sp m count sentinel)
  end.

(** ** The stack the program finds *)

Fixpoint words (m : mem) (p : Z) (n : nat) : list Z :=
  match n with O => [] | S n' => load64 m p :: words m (p + 8) n' end.

Lemma words_ext m m' n : forall p, (forall a, p <= a -> m' a = m a) -> words m' p n = words m p n.
Proof.
  induction n as [|n IH]; intros p Hm; [done|]. cbn [words]. f_equal; [|apply IH; intros a Ha; apply Hm; lia].
  unfold load64. do 2 f_equal. apply mem_read_ext. intros a Ha. apply Hm. lia.
Qed.

(** The words of [l] were put under the top of a stack, and nothing else. *)
Record grew (s : Z * mem) (l : list Z) (s' : Z * mem) : Prop := mkGrew {
  grew_sp : s'.1 = s.1 - 8 * zlen l;
  grew_words : forall n, words s'.2 s'.1 (length l + n) = l ++ words s.2 s.1 n;
  grew_same : forall a, ~ s'.1 <= a < s.1 -> s'.2 a = s.2 a
}.

Lemma grew_nil s : grew s [] s.
Proof. constructor; [unfold zlen; cbn [length]; lia|done..]. Qed.

Lemma grew_app s l1 s1 l2 s2 : grew s l1 s1 -> grew s1 l2 s2 -> grew s (l2 ++ l1) s2.
Proof.
  intros [E1 W1 H1] [E2 W2 H2]. pose proof (zlen_nonneg l1). pose proof (zlen_nonneg l2). constructor.
  - rewrite zlen_app. lia.
  - intros n. by rewrite length_app, <- Nat.add_assoc, W2, W1, app_assoc.
  - intros a Ha. rewrite H2, H1 by lia. done.
Qed.

Lemma grew_push s v : 8 <= s.1 < 2 ^ 64 -> 0 <= v < 2 ^ 64 -> grew s [v] (push s v).
Proof.
  destruct s as [sp m]. cbn [fst]. intros Hs Hv. unfold push. cbn [fst snd]. rewrite u64_small by lia. constructor; cbn [fst snd].
  - done.
  - intros n. cbn [length app Nat.add words]. rewrite load64_store64 by done. f_equal. replace (sp - 8 + 8) with sp by lia.
    apply words_ext. intros a Ha. apply mem_write_outside. unfold zlen. rewrite le_bytes_length. lia.
  - intros a Ha. apply mem_write_outside. unfold zlen. rewrite le_bytes_length. lia.
Qed.

Lemma grew_push_pair s k v :
  16 <= s.1 < 2 ^ 64 -> 0 <= k < 2 ^ 64 -> 0 <= v < 2 ^ 64 -> grew s [k; v] (push_pair s (k, v)).
Proof.
  destruct s as [sp m]. cbn [fst]. intros Hs Hk Hv. unfold push_pair. cbn [fst snd]. rewrite u64_small by lia.
  assert (Hout : forall a, ~ sp - 16 <= a < sp -> store64 (store64 m (sp - 16) k) (sp - 16 + 8) v a = m a).
  { intros a Ha. unfold store64. rewrite !mem_write_outside; [done|unfold zlen; rewrite le_bytes_length; lia..]. }
  constructor; cbn [fst snd]; [unfold zlen; cbn; lia| |done].
  intros n. cbn [length app Nat.add words]. f_equal; [|f_equal].
  - unfold load64, store64. rewrite mem_read_write_disjoint by lia. fold (load64 (mem_write m (sp - 16) (le_bytes 8 k)) (sp - 16)).
    by apply load64_store64.
  - by apply load64_store64.
  - replace (sp - 16 + 8 + 8) with sp by lia. apply words_ext. intros a Ha. apply Hout. lia.
Qed.

Lemma grew_pushes vs : forall s,
  Forall (fun v => 0 <= v < 2 ^ 64) vs -> 8 * zlen vs <= s.1 < 2 ^ 64 -> grew s (rev vs) (fold_left push vs s).
Proof.
  induction vs as [|v vs IH]; intros s Hv Hs; [apply grew_nil|]. apply Forall_cons in Hv as [Hv1 Hv].
  rewrite zlen_cons in Hs. pose proof (zlen_nonneg vs). cbn [fold_left rev]. pose proof (grew_push s v ltac:(lia) Hv1) as Hg.
  eapply grew_app; [exact Hg|]. apply IH; [done|]. rewrite (grew_sp _ _ _ Hg), zlen_cons, zlen_nil. lia.
Qed.

Lemma grew_pairs kvs : forall s,
  Forall (fun kv => 0 <= kv.1 < 2 ^ 64 /\ 0 <= kv.2 < 2 ^ 64) kvs -> 16 * zlen kvs <= s.1 < 2 ^ 64 ->
  grew s (concat ((fun kv => [kv.1; kv.2]) <$> rev kvs)) (fold_left push_pair kvs s).
Proof.
  induction kvs as [|[k v] kvs IH]; intros s Hv Hs; [apply grew_nil|]. apply Forall_cons in Hv as [[Hk Hv1] Hv]. cbn [fst snd] in *.
  rewrite zlen_cons in Hs. pose proof (zlen_nonneg kvs). cbn [fold_left rev]. pose proof (grew_push_pair s k v ltac:(lia) Hk Hv1) as Hg.
  rewrite fmap_app, concat_app. eapply grew_app; [exact Hg|]. apply IH; [done|]. rewrite (grew_sp _ _ _ Hg), !zlen_cons, zlen_nil. lia.
Qed.

(** A string at an address, below [top]. *)
Definition string_at (m : mem) (lo top p : Z) (s : bytes) : Prop := lo <= p /\ p + zlen s <= top /\ mem_read m p (length s) = s.

Lemma string_at_ext m m' lo top p s : (forall a, lo <= a < top -> m' a = m a) -> string_at m lo top p s -> string_at m' lo top p s.
Proof.
  intros Hm (Hlo & Hp & Hr). split_and!; [done..|]. rewrite <- Hr at 2. apply mem_read_ext. intros a Ha. apply Hm. unfold zlen in Hp. lia.
Qed.

Lemma put_strings_spec cap slot l : forall sp ptrs m,
  0 < slot -> Forall (fun s => zlen s <= slot) l -> (length ptrs + length l <= cap)%nat -> slot * zlen l <= sp < 2 ^ 64 ->
  exists ptrs' m', put_strings cap slot l sp ptrs m = Ret (sp - slot * zlen l, ptrs ++ ptrs', m') /\
    Forall2 (string_at m' (sp - slot * zlen l) sp) ptrs' l /\ (forall a, ~ sp - slot * zlen l <= a < sp -> m' a = m a).
Proof.
  induction l as [|s l IH]; intros sp ptrs m Hs Hl Hc Hsp; cbn [put_strings].
  { exists [], m. rewrite app_nil_r, zlen_nil, Z.mul_0_r, Z.sub_0_r. split_and!; [done|constructor|done]. }
  apply Forall_cons in Hl as [Hs1 Hl]. rewrite zlen_cons in Hsp. pose proof (zlen_nonneg l). rewrite u64_small by nia. cbn [length] in Hc.
  rewrite (proj2 (Nat.ltb_lt _ _)) by lia.
  destruct (IH (sp - slot) (ptrs ++ [sp - slot]) (mem_write m (sp - slot) s) Hs Hl) as (ptrs' & m' & -> & Hf & Ho); [rewrite length_app; cbn; lia|nia|].
  exists ((sp - slot) :: ptrs'), m'. rewrite zlen_cons. replace (sp - slot - slot * zlen l) with (sp - slot * (1 + zlen l)) in * by lia.
  rewrite <- app_assoc. split_and!; [done| |].
  - constructor; [|eapply Forall2_impl; [exact Hf|]; intros p t (? & ? & ?); split_and!; [lia..|done]]. split_and!; [nia|lia|].
    rewrite <- (mem_read_write_same m (sp - slot) s) at 2. apply mem_read_ext. intros a Ha. apply Ho. lia.
  - intros a Ha. rewrite Ho by lia. apply mem_write_outside. nia.
Qed.

Lemma put_random_outside n : forall p tsc m a, ~ p <= a < p + Z.of_nat n -> put_random n p tsc m a = m a.
Proof.
  induction n as [|n IH]; intros p tsc m a Ha; [done|]. cbn [put_random]. rewrite IH by lia. apply mem_write_outside. rewrite zlen_cons, zlen_nil. lia.
Qed.

Record info_ok (info : ElfInfo) : Prop := mkInfoOk {
  ko_entry : 0 <= entry info < 2 ^ 64;
  ko_phdr : 0 <= phdr_vaddr info < 2 ^ 64;
  ko_phent : 0 <= phentsize info < 2 ^ 64;
  ko_phnum : 0 <= phnum info < 2 ^ 64
}.

Definition STACK_TOP : Z := USER_STACK_BASE + USER_STACK_SIZE.

(** The stack as the start-up code reads it: the count, the arguments, the
    environment and the auxiliary vector. *)
Record stack_ok (info : ElfInfo) (sp : Z) (m : mem) : Prop := mkStackOk {
  sk_aligned : sp mod 16 = 0;
  sk_layout : exists argp envp rnd,
    words m sp 48 = [zlen args] ++ argp ++ [0] ++ envp ++ [0] ++
      [17; 100; 16; 0; 7; 0; 6; 4096; 3; phdr_vaddr info; 4; phentsize info; 5; phnum info; 9; entry info; 25; rnd; 0; 0] /\
    Forall2 (string_at m USER_STACK_BASE STACK_TOP) argp args /\ Forall2 (string_at m USER_STACK_BASE STACK_TOP) envp envs /\
    sp <= rnd /\ rnd + 16 <= STACK_TOP
}.

Lemma strings_range m lo top ptrs l : 0 <= lo -> top < 2 ^ 64 -> Forall2 (string_at m lo top) ptrs l -> Forall (fun v => 0 <= v < 2 ^ 64) ptrs.
Proof. intros Hlo Ht. induction 1 as [|p s ? ? (H1 & H2 & _)]; constructor; [|done]. pose proof (zlen_nonneg s). lia. Qed.

Lemma strings_ext m m' lo top lo' top' ptrs l :
  (forall a, lo <= a < top -> m' a = m a) -> lo' <= lo -> top <= top' ->
  Forall2 (string_at m lo top) ptrs l -> Forall2 (string_at m' lo' top') ptrs l.
Proof.
  intros Hm Hlo Ht Hf. eapply Forall2_impl; [exact Hf|]. intros p s Hp%(string_at_ext m m'); [|done]. destruct Hp as (? & ? & ?). split_and!; [lia..|done].
Qed.

(** The words, from the vector at the top to the count at the bottom. *)
Lemma stack_words info rnd argp envp m :
  info_ok info -> length argp = 21%nat -> length envp = 4%nat ->
  Forall (fun v => 0 <= v < 2 ^ 64) argp -> Forall (fun v => 0 <= v < 2 ^ 64) envp -> 384 <= rnd < 2 ^ 64 ->
  exists m', push (fold_left push (rev argp) (push (fold_left push (rev envp) (push (fold_left push_pair (auxv info rnd) (rnd, m)) 0)) 0)) 21 = (rnd - 384, m') /\
    words m' (rnd - 384) 48 = [21] ++ argp ++ [0] ++ envp ++ [0] ++
      [17; 100; 16; 0; 7; 0; 6; 4096; 3; phdr_vaddr info; 4; phentsize info; 5; phnum info; 9; entry info; 25; rnd; 0; 0] /\
    forall a, ~ rnd - 384 <= a < rnd -> m' a = m a.
Proof.
  intros [] La Le Hra Hre Hr. set (s1 := fold_left push_pair _ _).
  assert (G : grew (rnd, m) [17; 100; 16; 0; 7; 0; 6; 4096; 3; phdr_vaddr info; 4; phentsize info; 5; phnum info; 9; entry info; 25; rnd; 0; 0] s1).
  { apply (grew_pairs (auxv info rnd) (rnd, m)); [|change (zlen (auxv info rnd)) with 10; cbn [fst]; lia]. repeat constructor; cbn; lia. }
  assert (step : forall l s v, grew (rnd, m) l s -> 8 * zlen l + 8 <= rnd -> 0 <= v < 2 ^ 64 -> grew (rnd, m) ([v] ++ l) (push s v)).
  { intros l s v Hg Hl Hv. eapply grew_app; [exact Hg|]. apply grew_push; [|done]. rewrite (grew_sp _ _ _ Hg). cbn [fst]. pose proof (zlen_nonneg l). lia. }
  assert (steps : forall l s vs, grew (rnd, m) l s -> 8 * zlen l + 8 * zlen vs <= rnd -> Forall (fun v => 0 <= v < 2 ^ 64) vs ->
    grew (rnd, m) (vs ++ l) (fold_left push (rev vs) s)).
  { intros l s vs Hg Hl Hv. eapply grew_app; [exact Hg|]. rewrite <- (rev_involutive vs) at 1. apply grew_pushes; [by apply Forall_rev|].
    rewrite (grew_sp _ _ _ Hg). cbn [fst]. unfold zlen in *. rewrite length_rev. lia. }
  apply step with (v := 0) in G; [|unfold zlen; cbn [length]; lia|lia]. apply steps with (vs := envp) in G; [|unfold zlen; rewrite ?length_app, Le; cbn [length]; lia|done].
  apply step with (v := 0) in G; [|unfold zlen; rewrite ?length_app, Le; cbn [length]; lia|lia].
  apply steps with (vs := argp) in G; [|unfold zlen; rewrite ?length_app, La, Le; cbn [length]; lia|done].
  apply step with (v := 21) in G; [|unfold zlen; rewrite ?length_app, La, Le; cbn [length]; lia|lia].
  set (s := push _ 21) in *. destruct G as [Es W Hs]. assert (El : zlen ([21] ++ argp ++ [0] ++ envp ++ [0] ++ [17; 100; 16; 0; 7; 0; 6; 4096; 3; phdr_vaddr info; 4; phentsize info; 5; phnum info; 9; entry info; 25; rnd; 0; 0]) = 48).
  { unfold zlen. rewrite !length_app, La, Le. done. }
  rewrite El in Es. cbn [fst] in Es. destruct s as [sp m']. cbn [fst snd] in *. exists m'. split_and!; [f_equal; lia| |].
  - specialize (W 0%nat). cbn [words] in W. rewrite app_nil_r in W. rewrite <- W. f_equal; [lia|]. unfold zlen in El. lia.
  - intros a Ha. apply Hs. lia.
Qed.

Lemma build_stack_ok info tsc m :
  info_ok info -> exists sp m', build_stack info tsc m = Ret (sp, m') /\ stack_ok info sp m' /\
    forall a, ~ USER_STACK_BASE <= a < STACK_TOP -> m' a = m a.
Proof.
  intros Hi. unfold build_stack. fold STACK_TOP. set (m0 := mem_zero _ _ _).
  destruct (put_strings_spec 24 2048 args STACK_TOP [] m0) as (argp & m1 & -> & Ha & Ho1);
    [lia|repeat constructor; vm_compute; discriminate|vm_compute; lia|vm_compute; split; [discriminate|reflexivity]|]. cbn [obind app].
  assert (Et : STACK_TOP = 236978176) by reflexivity. change (zlen args) with 21 in *. set (sp1 := STACK_TOP - 2048 * 21) in *.
  destruct (put_strings_spec 8 256 envs sp1 [] m1) as (envp & m2 & -> & He & Ho2);
    [lia|repeat constructor; vm_compute; discriminate|vm_compute; lia|vm_compute; split; [discriminate|reflexivity]|]. cbn [obind app].
  change (zlen envs) with 4 in *. set (sp2 := sp1 - 256 * 4) in *. assert (Es2 : sp2 = 236934144) by reflexivity.
  assert (Es1 : sp1 = 236935168) by reflexivity. assert (Eb : USER_STACK_BASE = 234881024) by reflexivity.
  change (u64 (sp2 - 16)) with 236934128. change (and_not 236934128 15) with 236934128. clearbody sp1 sp2.
  set (m3 := put_random _ _ _ _). assert (Ho3 : forall a, ~ 236934128 <= a < sp2 -> m3 a = m2 a) by (intros a Hx; apply put_random_outside; lia).
  pose proof (strings_range m1 sp1 STACK_TOP argp args ltac:(lia) ltac:(lia) Ha) as Hra.
  pose proof (strings_range m2 sp2 sp1 envp envs ltac:(lia) ltac:(lia) He) as Hre.
  pose proof (Forall2_length _ _ _ Ha) as La. change (length args) with 21%nat in La. pose proof (Forall2_length _ _ _ He) as Le. change (length envs) with 4%nat in Le.
  destruct (stack_words info 236934128 argp envp m3) as (m4 & E & W & Ho4); [done..|lia|]. rewrite E.
  eexists _, _. split; [done|].
  split; [split; [done|]|].
  - exists argp, envp, 236934128. rewrite W. split; [done|]. split_and!; [| |lia..].
    + eapply (strings_ext m1 _ sp1 STACK_TOP); [|lia..|exact Ha]. intros a Hx. rewrite Ho4, Ho3, Ho2 by lia. done.
    + eapply (strings_ext m2 _ sp2 sp1); [|lia..|exact He]. intros a Hx. rewrite Ho4, Ho3 by lia. done.
  - intros a Hx. rewrite Ho4, Ho3, Ho2, Ho1 by lia. apply mem_zero_outside. unfold STACK_TOP in Hx. lia.
Qed.

(** ** The hand-over *)

(** What [main] relies on of the boot loader: the module is below 4 GiB and away
    from the places where the executable and the archive go. *)
Definition module_ok (cpio_module : option (Z * Z)) : Prop :=
  match cpio_module with
  | Some (start, end_) =>
      0 <= start <= end_ /\ end_ < 2 ^ 32 /\ end_ - start <= CPIO_MAX /\
      (end_ <= CPIO_HOME \/ CPIO_HOME + (end_ - start) <= start) /\ (end_ <= ELF_COPY_BASE \/ CPIO_COPY_BASE <= start)
  | None => True
  end.

(** The archive the system is to use. *)
Definition archive_of (embedded : bytes) (cpio_module : option (Z * Z)) (m : mem) : bytes :=
  match cpio_module with
  | Some (start, end_) => mem_read m start (Z.to_nat (end_ - start))
  | None => embedded
  end.

Lemma place_cpio_ok embedded cpio_module v m :
  module_ok cpio_module ->
  exists v' m', place_cpio embedded cpio_module v m = Ret (v', m') /\
    CPIO_PTR v' = CPIO_HOME /\ CPIO_LEN v' = zlen (archive_of embedded cpio_module m) /\
    mem_read m' CPIO_HOME (length (archive_of embedded cpio_module m)) = archive_of embedded cpio_module m /\
    forall a, ELF_COPY_BASE <= a < CPIO_COPY_BASE -> m' a = m a.
Proof.
  assert (Eh : CPIO_HOME = 352321536) by reflexivity. assert (Ee : ELF_COPY_BASE = 335544320) by reflexivity.
  assert (Ec : CPIO_COPY_BASE = 352321536) by reflexivity. assert (Em : CPIO_MAX = 83886080) by reflexivity.
  destruct cpio_module as [[start end_]|]; cbn [module_ok archive_of place_cpio].
  - intros (Hs & Hb & Hm & Ho & Hd). rewrite !(u64_small (end_ - start)) by lia. rewrite (proj2 (Z.leb_le _ _)) by done. cbn [assert obind].
    assert ((end_ <=? CPIO_HOME) || (CPIO_HOME + (end_ - start) <=? start) = true) as -> by (rewrite orb_true_iff, !Z.leb_le; done). cbn [assert obind].
    destruct (page_round_spec end_ ltac:(lia)) as [Hz Hz']. set (ze := and_not _ _) in *. unfold relocate_from.
    set (l := mem_read m start _). assert (Hl : length l = Z.to_nat (end_ - start)) by (unfold l; apply mem_read_length).
    assert (Hzl : zlen l = end_ - start) by (unfold zlen; lia). rewrite u64_small by lia.
    eexists _, _. split; [done|]. cbn [CPIO_PTR CPIO_LEN with_cpio]. split_and!; [done|done| |].
    + rewrite mem_read_zero_disjoint; [apply mem_read_write_same|]. destruct Ho; [right|left]; Z.div_mod_to_equations; lia.
    + intros a Ha. rewrite mem_zero_outside by (destruct Hd; Z.div_mod_to_equations; lia). apply mem_write_outside. lia.
  - intros _. eexists _, _. split; [done|]. split_and!; [done|done|apply mem_read_write_same|]. intros a Ha. apply mem_write_outside. lia.
Qed.

(** The copy of the executable leaves the module alone. *)
Lemma archive_of_elf embedded elf cpio_module m :
  zlen elf <= CPIO_COPY_BASE - ELF_COPY_BASE -> module_ok cpio_module ->
  archive_of embedded cpio_module (mem_write m ELF_COPY_BASE elf) = archive_of embedded cpio_module m.
Proof.
  intros Hl Hm. destruct cpio_module as [[start end_]|]; [|done]. destruct Hm as (Hs & _ & _ & _ & Hd). cbn [archive_of].
  apply mem_read_write_disjoint. lia.
Qed.

(** C16: boot hands over to the program.  Take the last part of [main], from the
    copy of the executable on, with the module that [parse_multiboot_module] found at
    entry.  Suppose the module is below 4 GiB, is no larger than the place for it, and
    is away from the executable's and the archive's places; the archive is a well
    formed newc archive of less than 2^63 bytes; and the executable is a well formed
    image that loads below the stack.  Then this part reaches the jump without a
    panic.  The file system serves exactly the module (or the archive in the kernel),
    and what is reported of it is right: the number of its files and whether the
    sentinel is among them.  The volatile file system is mounted, the program's
    segments are in memory, the break is past them, and the stack holds its
    arguments, environment and auxiliary vector, with the stack pointer a multiple
    of 16.  (An archive that is not well formed can panic here; the initialisation
    before this part is not covered.) *)
Theorem boot_hands_over elf embedded mbi tsc v t b m0 m es tail :
  let m1 := mem_write m ELF_COPY_BASE elf in
  let cpio_module := parse_multiboot_module mbi m0 in
  let h := read_header m1 ELF_COPY_BASE in
  let segs := segments (Z.to_nat (e_phnum h)) 0 ELF_COPY_BASE (e_phoff h) m1 in
  zlen elf <= CPIO_COPY_BASE - ELF_COPY_BASE -> module_ok cpio_module ->
  archive_of embedded cpio_module m = archive es tail -> Forall member_ok es -> zlen (archive es tail) < 2 ^ 63 ->
  image_ok ELF_COPY_BASE (zlen elf) m1 -> Forall (fun ph => p_vaddr ph + p_memsz ph <= USER_STACK_BASE) segs ->
  exists l info, boot_user elf embedded cpio_module tsc v t b m = Ret l /\
    cpio_data embedded (l_vfs l) (l_mem l) = archive es tail /\
    l_count l = zlen es /\ l_source_module l = bool_decide (is_Some (find_member es SENTINEL)) /\ l_tmpfs l = Tmpfs.init t /\
    (forall ph, ph ∈ segs -> mem_read (l_mem l) (p_vaddr ph) (Z.to_nat (p_memsz ph)) = segment_bytes ELF_COPY_BASE m1 ph) /\
    l_entry l = e_entry h /\ entry info = e_entry h /\ phnum info = e_phnum h /\
    Forall (fun ph => p_vaddr ph + p_memsz ph <= BRK_TOP (l_mmap l)) segs /\ BRK_TOP (l_mmap l) mod 4096 = 0 /\
    stack_ok info (l_sp l) (l_mem l).
Proof.
  intros m1 cpio_module h segs Hlen Hmod Harc Hes Hsz Himg Hlow. unfold boot_user. rewrite (proj2 (Z.leb_le _ _)) by done. cbn [assert obind]. fold m1.
  destruct (place_cpio_ok embedded cpio_module v m1 Hmod) as (v' & m2 & -> & Ep & El & Ea & Hsame). cbn [obind].
  unfold m1 in El, Ea. rewrite archive_of_elf, Harc in El, Ea by done. fold m1 in El, Ea.
  assert (Hdata : forall m', (forall a, CPIO_HOME <= a -> m' a = m2 a) -> cpio_data embedded v' m' = archive es tail).
  { intros m' Hm'. unfold cpio_data. rewrite Ep, El. change (CPIO_HOME =? 0) with false. cbv iota. unfold zlen. rewrite Nat2Z.id.
    rewrite <- Ea at 2. apply mem_read_ext. intros a Ha. apply Hm'. lia. }
  rewrite (Hdata m2) by done. destruct (archive_scans es tail SENTINEL Hes Hsz) as [-> ->]. cbn [obind].
  assert (Hi : same_image ELF_COPY_BASE (zlen elf) m1 m2) by (intros a Ha; apply Hsame; lia).
  destruct (image_segments_ext _ _ _ _ Himg Hi) as [Eh Es]. fold h in Eh, Es. fold segs in Es.
  destruct (load_spec _ _ _ (image_ok_ext _ _ _ _ Himg Hi)) as (info & m3 & Eload & Een & Epn & Epe & Hseg & Hout & (Hmod4 & Hends & _) & _).
  rewrite Eload, Eh in *. rewrite Es in *. cbn [obind].
  assert (Hinfo : info_ok info) by (apply load_range in Eload as (? & ? & ? & ?); by constructor).
  destruct (build_stack_ok info tsc m3 Hinfo) as (sp & m4 & -> & Hst & Hout4). cbn [obind]. eexists _, info. split; [done|].
  cbn [l_vfs l_tmpfs l_mmap l_entry l_sp l_mem l_count l_source_module BRK_TOP set_initial_brk].
  assert (Eu : USER_STACK_BASE = 234881024) by reflexivity. assert (Et : STACK_TOP = 236978176) by reflexivity.
  assert (Ehm : CPIO_HOME = 352321536) by reflexivity. assert (Eel : ELF_COPY_BASE = 335544320) by reflexivity.
  assert (Hhigh : forall a, STACK_TOP <= a -> m4 a = m2 a).
  { intros a Ha. rewrite Hout4 by lia. apply Hout. eapply Forall_impl; [exact Hlow|]. cbn. unfold in_segment. lia. }
  rewrite Forall_forall in Hlow. split_and!; [|done..| |done|done|done|done|done|done].
  - apply Hdata. intros a Ha. apply Hhigh. lia.
  - intros ph Hin. rewrite <- (segment_bytes_ext _ (zlen elf) m1 m2 ph), <- Hseg; [|done| |done].
    + apply mem_read_ext. intros a Ha. apply Hout4. specialize (Hlow ph Hin). lia.
    + pose proof (io_segments _ _ _ Himg) as Hok. fold h in Hok. fold segs in Hok. rewrite Forall_forall in Hok. by apply Hok.
Qed.

(** Multiboot information at 4096 with one module at 8192. *)
Definition demo_boot_mem : mem :=
  let a := archive demo_members [] in
  mem_write (mem_write (mem_write (fun _ => 0) 8192 a) 4608 (le_bytes 4 8192 ++ le_bytes 4 (8192 + zlen a)))
    4096 (le_bytes 4 8 ++ replicate 16 0 ++ le_bytes 4 1 ++ le_bytes 4 4608).

Lemma demo_boot_image : image_ok ELF_COPY_BASE (zlen demo_image) (mem_write demo_boot_mem ELF_COPY_BASE demo_image) /\
  Forall (fun ph => p_vaddr ph + p_memsz ph <= USER_STACK_BASE)
    (let h := read_header (mem_write demo_boot_mem ELF_COPY_BASE demo_image) ELF_COPY_BASE in
     segments (Z.to_nat (e_phnum h)) 0 ELF_COPY_BASE (e_phoff h) (mem_write demo_boot_mem ELF_COPY_BASE demo_image)).
Proof.
  set (m1 := mem_write _ _ _). set (h := read_header m1 ELF_COPY_BASE).
  assert (E : segments (Z.to_nat (e_phnum h)) 0 ELF_COPY_BASE (e_phoff h) m1 = [mkPhdr 1 5 0 4194304 4194304 180 200 4096]) by (vm_compute; reflexivity).
  assert (Ht : e_phoff h + e_phnum h * PHDR_SIZE = 176) by (vm_compute; reflexivity).
  assert (Eb : ELF_COPY_BASE = 335544320) by reflexivity. assert (Ez : zlen demo_image = 180) by reflexivity. cbv zeta. rewrite E, Ez. split.
  - constructor; fold h; rewrite ?E, ?Ht; try lia; try (vm_compute; reflexivity).
    + unfold HEADER_SIZE. lia.
    + repeat constructor; cbn; lia.
    + repeat constructor.
  - repeat constructor. vm_compute. discriminate.
Qed.

Lemma boot_hands_over_witness :
  let module := parse_multiboot_module 4096 demo_boot_mem in
  exists l info, boot_user demo_image [] module 77 Vfs.boot_state (Tmpfs.mkState None 4000) Mmap.boot_state demo_boot_mem = Ret l /\
    cpio_data [] (l_vfs l) (l_mem l) = archive demo_members [] /\ l_count l = 4 /\ l_source_module l = false /\
    l_entry l = 4194480 /\ stack_ok info (l_sp l) (l_mem l).
Proof.
  cbv zeta. assert (Ep : parse_multiboot_module 4096 demo_boot_mem = Some (8192, 8816)) by (vm_compute; reflexivity).
  destruct (boot_hands_over demo_image [] 4096 77 Vfs.boot_state (Tmpfs.mkState None 4000) Mmap.boot_state demo_boot_mem demo_boot_mem demo_members [])
    as (l & info & E & Ec & El & Ej & _ & _ & Ee & _ & _ & _ & _ & Hs).
  - vm_compute. discriminate.
  - rewrite Ep. unfold module_ok, CPIO_MAX, MMAP_BASE, CPIO_HOME, CPIO_COPY_BASE, ELF_COPY_BASE. lia.
  - rewrite Ep. vm_compute. reflexivity.
  - exact demo_members_ok.
  - vm_compute. reflexivity.
  - exact (proj1 demo_boot_image).
  - exact (proj2 demo_boot_image).
  - exists l, info. split_and!; [exact E|exact Ec|exact El|rewrite Ej; vm_compute; reflexivity|rewrite Ee; vm_compute; reflexivity|exact Hs].
Defined.
