(* ===== verification/Acpi.v ===== *)
(** * The ACPI tables ([src/src/acpi.rs])

    At boot the kernel looks in the firmware's tables for the processors, the I/O
    APIC and the PCI configuration window.  The tables lie in the identity-mapped
    memory, which is the argument.  Proved: from well-formed tables every enabled
    processor is found, in order, up to the sixteen the kernel supports, and on any
    memory the walk over the processors' table ends. *)

From S2P Require Import Prelude.

Definition MAX_CPUS : nat := 16.

Record CpuInfo := mkCpu { apic_id : Z; is_bsp : bool; processor_id : Z }.
Record IoApicInfo := mkIoApic { io_id : Z; address : Z; gsi_base : Z }.
Record AcpiInfo := mkAcpi {
  cpus : list CpuInfo;
  num_cpus : nat;
  ioapic : option IoApicInfo;
  local_apic_addr : Z;
  pci_ecam_base : Z;
  pci_start_bus : Z;
  pci_end_bus : Z
}.

Definition load8 (m : mem) (p : Z) : Z := u8 (m p).

(** ** The root pointer *)

Definition RSDP_SIGNATURE : bytes := b "RSD PTR ".
Definition checksum (l : bytes) : Z := fold_left (fun a c => u8 (a + c)) l 0.
Definition rsdp_valid (m : mem) (addr : Z) : bool :=
  bytes_eqb (mem_read m addr 8) RSDP_SIGNATURE && (checksum (mem_read m addr 20) =? 0).

Fixpoint find_rsdp_from (n : nat) (addr : Z) (m : mem) : option Z :=
  match n with
  | O => None
  | S n' => if rsdp_valid m addr then Some addr else find_rsdp_from n' (addr + 16) m
  end.
(** The 128 KiB from 0xE0000, one paragraph at a time. *)
Definition find_rsdp (m : mem) : option Z := find_rsdp_from 8192 917504 m.

(** ** The tables of the root table *)

Definition signature (m : mem) (p : Z) : bytes := mem_read m p 4.

Fixpoint find_entry (n : nat) (p : Z) (entry_size : Z) (target : bytes) (m : mem) : option Z :=
  match n with
  | O => None
  | S n' =>
      let entry_addr := if entry_size =? 4 then load32 m p else load64 m p in
      if bytes_eqb (signature m entry_addr) target then Some entry_addr else find_entry n' (p + entry_size) entry_size target m
  end.

(** The length is not checked here: one below 36 makes a count near 2^62. *)
Definition find_madt (rsdt_addr : Z) (m : mem) : option Z :=
  if negb (bytes_eqb (signature m rsdt_addr) (b "RSDT")) then None
  else
    let length := load32 m (rsdt_addr + 4) in
    find_entry (Z.to_nat (u64 (length - 36) / 4)) (rsdt_addr + 36) 4 (b "APIC") m.

Definition find_table_in_sdt (sdt_addr : Z) (expected_root_sig target : bytes) (entry_size : Z) (m : mem) : option Z :=
  if negb (bytes_eqb (signature m sdt_addr) expected_root_sig) then None
  else
    let length := load32 m (sdt_addr + 4) in
    if length <=? 36 then None
    else find_entry (Z.to_nat ((length - 36) / entry_size)) (sdt_addr + 36) entry_size target m.

Definition find_mcfg (rsdp_addr : Z) (m : mem) : option (Z * Z * Z) :=
  let revision := load8 m (rsdp_addr + 15) in
  let rsdt_addr := load32 m (rsdp_addr + 16) in
  let from_rsdt := find_table_in_sdt rsdt_addr (b "RSDT") (b "MCFG") 4 m in
  let from_xsdt := if 2 <=? revision then find_table_in_sdt (load64 m (rsdp_addr + 24)) (b "XSDT") (b "MCFG") 8 m else None in
  match (match from_rsdt with Some t => Some t | None => from_xsdt end) with
  | Some mcfg_addr => Some (load64 m (mcfg_addr + 44), load8 m (mcfg_addr + 54), load8 m (mcfg_addr + 55))
  | None => None
  end.

(** ** The processors *)

Definition no_cpu : CpuInfo := mkCpu 0 false 0.

Definition add_cpu (info : AcpiInfo) (c : CpuInfo) : AcpiInfo :=
  mkAcpi (<[num_cpus info := c]> (cpus info)) (S (num_cpus info)) (ioapic info) (local_apic_addr info) (pci_ecam_base info) (pci_start_bus info) (pci_end_bus info).
Definition set_ioapic (info : AcpiInfo) (io : IoApicInfo) : AcpiInfo :=
  mkAcpi (cpus info) (num_cpus info) (Some io) (local_apic_addr info) (pci_ecam_base info) (pci_start_bus info) (pci_end_bus info).

(** One entry of the table, at address [p], [entry_len] bytes long. *)
Definition parse_entry (p entry_type entry_len : Z) (info : AcpiInfo) (m : mem) : AcpiInfo :=
  if entry_type =? 0 then
    if (8 <=? entry_len) && (num_cpus info <? MAX_CPUS)%nat then
      let flags := load32 m (p + 4) in
      if negb (Z.land flags 1 =? 0)
      then add_cpu info (mkCpu (load8 m (p + 3)) (num_cpus info =? 0)%nat (load8 m (p + 2)))
      else info
    else info
  else if entry_type =? 1 then
    if 12 <=? entry_len then set_ioapic info (mkIoApic (load8 m (p + 2)) (load32 m (p + 4)) (load32 m (p + 8))) else info
  else info.

Fixpoint parse_entries (fuel : nat) (madt offset length : Z) (info : AcpiInfo) (m : mem) : outcome AcpiInfo :=
  match fuel with
  | O => OutOfFuel
  | S fuel' =>
      if offset + 2 <=? length then
        let entry_type := load8 m (madt + offset) in
        let entry_len := load8 m (madt + offset + 1) in
        if entry_len =? 0 then Ret info
        else parse_entries fuel' madt (offset + entry_len) length (parse_entry (madt + offset) entry_type entry_len info m) m
      else Ret info
  end.

(** Every entry takes at least a byte, so the table's length bounds their number. *)
Definition parse_madt (madt_addr : Z) (m : mem) : outcome AcpiInfo :=
  let length := load32 m (madt_addr + 4) in
  let info := mkAcpi (replicate MAX_CPUS no_cpu) 0 None (load32 m (madt_addr + 36)) 2952790016 0 255 in
  parse_entries (S (Z.to_nat length)) madt_addr 44 length info m.

Definition discover_cpus (m : mem) : outcome (option AcpiInfo) :=
  match find_rsdp m with
  | None => Ret None
  | Some rsdp_addr =>
      let rsdt_addr := load32 m (rsdp_addr + 16) in
      match find_madt rsdt_addr m with
      | None => Ret None
      | Some madt_addr =>
          do! info <- parse_madt madt_addr m;
          Ret (Some match find_mcfg rsdp_addr m with
               | Some (base, start_bus, end_bus) =>
                   mkAcpi (cpus info) (num_cpus info) (ioapic info) (local_apic_addr info) base start_bus end_bus
               | None => info
               end)
      end
  end.

(** ** The proofs *)

Lemma find_rsdp_first n : forall addr m k,
  (k < n)%nat -> rsdp_valid m (addr + 16 * Z.of_nat k) = true -> (forall j, (j < k)%nat -> rsdp_valid m (addr + 16 * Z.of_nat j) = false) ->
  find_rsdp_from n addr m = Some (addr + 16 * Z.of_nat k).
Proof.
  induction n as [|n IH]; intros addr m [|k] Hk Hv Hn; [lia..| |]; cbn [find_rsdp_from].
  - rewrite Z.mul_0_r, Z.add_0_r in *. by rewrite Hv.
  - pose proof (Hn 0%nat ltac:(lia)) as H0. rewrite Z.mul_0_r, Z.add_0_r in H0. rewrite H0. rewrite (IH (addr + 16) m k); [f_equal; lia|lia| |].
    + rewrite <- Hv. f_equal. lia.
    + intros j Hj. rewrite <- (Hn (S j)) by lia. f_equal. lia.
Qed.

(** The addresses a root table lists, and the first of them with a signature. *)
Fixpoint tables (n : nat) (p entry_size : Z) (m : mem) : list Z :=
  match n with
  | O => []
  | S n' => (if entry_size =? 4 then load32 m p else load64 m p) :: tables n' (p + entry_size) entry_size m
  end.
Definition first_table (target : bytes) (l : list Z) (m : mem) : option Z := head (filter (fun a => signature m a = target) l).

Lemma find_entry_first n : forall p sz target m, find_entry n p sz target m = first_table target (tables n p sz m) m.
Proof.
  unfold first_table. induction n as [|n IH]; intros p sz target m; [done|]. cbn [find_entry tables]. set (a := if sz =? 4 then _ else _).
  rewrite filter_cons. destruct (bytes_eqb _ _) eqn:E; [apply bytes_eqb_eq in E|apply bytes_eqb_neq in E]; [by rewrite decide_True|by rewrite decide_False].
Qed.

(** The entries of the processors' table: a type, and what follows its length. *)
Record madt_entry := mkEntry { en_type : Z; en_body : bytes }.
Definition entry_ok (e : madt_entry) : Prop :=
  0 <= en_type e < 256 /\ zlen (en_body e) <= 253 /\ Forall (fun c => 0 <= c < 256) (en_body e).
Definition encode_entry (e : madt_entry) : bytes := en_type e :: 2 + zlen (en_body e) :: en_body e.
Definition encode_entries (es : list madt_entry) : bytes := concat (encode_entry <$> es).

(** What an entry says: an enabled processor (its ids), or an I/O APIC. *)
Definition byte_at (e : madt_entry) (i : nat) : Z := nth i (en_body e) 0.
Definition word_at (e : madt_entry) (i : nat) : Z := u32 (le_val (take 4 (drop i (en_body e)))).
Definition enabled_cpu (e : madt_entry) : option (Z * Z) :=
  if (en_type e =? 0) && (6 <=? zlen (en_body e)) && negb (Z.land (word_at e 2) 1 =? 0) then Some (byte_at e 0, byte_at e 1) else None.
Definition io_apic (e : madt_entry) : option IoApicInfo :=
  if (en_type e =? 1) && (10 <=? zlen (en_body e)) then Some (mkIoApic (byte_at e 0) (word_at e 2) (word_at e 6)) else None.

(** The processors with their rank: the first is the one that booted. *)
Definition ranked (l : list (Z * Z)) : list CpuInfo :=
  imap (fun i p => mkCpu p.2 (i =? 0)%nat p.1) l.
Definition listed_cpus (es : list madt_entry) : list CpuInfo := ranked (take MAX_CPUS (omap enabled_cpu es)).

(** What an entry adds to the result. *)
Definition note_entry (info : AcpiInfo) (e : madt_entry) : AcpiInfo :=
  match enabled_cpu e, io_apic e with
  | Some (pid, aid), _ => if (num_cpus info <? MAX_CPUS)%nat then add_cpu info (mkCpu aid (num_cpus info =? 0)%nat pid) else info
  | None, Some io => set_ioapic info io
  | None, None => info
  end.

Lemma read_part m p n l d c :
  mem_read m p n = l -> (d + c <= n)%nat -> mem_read m (p + Z.of_nat d) c = take c (drop d l).
Proof.
  intros <- Hn. replace n with (d + (c + (n - d - c)))%nat by lia. rewrite !mem_read_app, drop_app_length' by (by rewrite mem_read_length).
  by rewrite take_app_length' by (by rewrite mem_read_length).
Qed.

(** Reading the parts of an entry in memory. *)
Section entry.
Context (m : mem) (p : Z) (e : madt_entry).
Hypothesis Hok : entry_ok e.
Hypothesis Hm : mem_read m p (length (encode_entry e)) = encode_entry e.

Lemma entry_type_read : load8 m p = en_type e.
Proof using Hok Hm.
  pose proof (read_part m p _ _ 0 1 Hm ltac:(cbn; lia)) as E. rewrite Z.add_0_r in E. injection E as E. unfold load8. rewrite E.
  apply Z.mod_small. destruct Hok. lia.
Qed.
Lemma entry_len_read : load8 m (p + 1) = 2 + zlen (en_body e).
Proof using Hok Hm.
  pose proof (read_part m p _ _ 1 1 Hm ltac:(cbn; lia)) as E. change (Z.of_nat 1) with 1 in E. injection E as E. unfold load8. rewrite E.
  apply Z.mod_small. destruct Hok as (_ & ? & _). pose proof (zlen_nonneg (en_body e)). lia.
Qed.
Lemma entry_byte_read i : (i < length (en_body e))%nat -> load8 m (p + Z.of_nat (2 + i)) = byte_at e i.
Proof using Hok Hm.
  intros Hi. pose proof (read_part m p _ _ (2 + i) 1 Hm ltac:(cbn; lia)) as E. unfold encode_entry in E. cbn [drop Nat.add] in E.
  destruct (lookup_lt_is_Some_2 _ _ Hi) as [c Hc]. rewrite (drop_S _ c i Hc) in E. cbn [take mem_read] in E. injection E as E.
  unfold load8. replace (p + Z.of_nat (2 + i)) with (p + Z.of_nat (S (S i))) by lia. rewrite E. unfold byte_at. rewrite (nth_lookup_Some _ _ _ _ Hc).
  destruct Hok as (_ & _ & Hb). rewrite Forall_forall in Hb. apply Z.mod_small, Hb. by eapply list_elem_of_lookup_2.
Qed.
Lemma entry_word_read i : (i + 4 <= length (en_body e))%nat -> load32 m (p + Z.of_nat (2 + i)) = word_at e i.
Proof using Hm.
  intros Hi. unfold load32, word_at. by rewrite (read_part m p _ _ (2 + i) 4 Hm) by (cbn; lia).
Qed.

(** One step of the walk adds what the entry says, while there is room. *)
Lemma parse_entry_spec info :
  parse_entry p (en_type e) (2 + zlen (en_body e)) info m = note_entry info e.
Proof using Hok Hm.
  unfold note_entry, parse_entry, enabled_cpu, io_apic, zlen. destruct (en_type e =? 0) eqn:E0; bool_to_prop.
  - rewrite E0. cbn [andb Z.eqb]. destruct (6 <=? Z.of_nat (length (en_body e))) eqn:E6; bool_to_prop.
    + rewrite (proj2 (Z.leb_le 8 _)) by lia. cbn [andb].
      rewrite <- (entry_byte_read 0), <- (entry_byte_read 1), <- (entry_word_read 2) by lia.
      change (Z.of_nat (2 + 2)) with 4. change (Z.of_nat (2 + 1)) with 3. change (Z.of_nat (2 + 0)) with 2.
      by destruct (negb _), (_ <? _)%nat.
    + rewrite (proj2 (Z.leb_gt 8 _)) by lia. done.
  - cbn [andb]. destruct (en_type e =? 1) eqn:E1; [|done]. cbn [andb]. destruct (10 <=? Z.of_nat (length (en_body e))) eqn:E10; bool_to_prop.
    + rewrite (proj2 (Z.leb_le 12 _)) by lia. rewrite <- (entry_byte_read 0), <- (entry_word_read 2), <- (entry_word_read 6) by lia. done.
    + by rewrite (proj2 (Z.leb_gt 12 _)) by lia.
Qed.
End entry.

(** The processors noted so far. *)
Definition noted (info : AcpiInfo) (l : list (Z * Z)) : Prop :=
  length (cpus info) = MAX_CPUS /\ num_cpus info = length (take MAX_CPUS l) /\ take (num_cpus info) (cpus info) = ranked (take MAX_CPUS l).

Lemma noted_add info l pid aid :
  noted info l ->
  noted (if (num_cpus info <? MAX_CPUS)%nat then add_cpu info (mkCpu aid (num_cpus info =? 0)%nat pid) else info) (l ++ [(pid, aid)]).
Proof.
  intros (Hl & Hn & Hc). destruct (_ <? _)%nat eqn:E; [apply Nat.ltb_lt in E|apply Nat.ltb_ge in E].
  - assert (Hll : (length l < MAX_CPUS)%nat) by (rewrite length_take in Hn; lia). rewrite (take_ge l) in * by lia.
    unfold noted, add_cpu. cbn [cpus num_cpus]. rewrite length_insert. rewrite (take_ge (l ++ _)) by (rewrite length_app; cbn; lia).
    split_and!; [done|rewrite length_app, Hn; cbn; lia|]. unfold ranked in *. rewrite imap_app. cbn [imap].
    erewrite take_S_r by (apply list_lookup_insert_eq; lia). rewrite take_insert_ge by lia. rewrite Hc, Hn. by rewrite Nat.add_0_r.
  - rewrite length_take in Hn. unfold noted. rewrite take_app_le by lia. rewrite length_take. split_and!; [done|lia|done].
Qed.

Lemma parse_entries_spec es : forall fuel madt offset length info l m,
  Forall entry_ok es -> (Datatypes.length es < fuel)%nat -> length = offset + zlen (encode_entries es) ->
  mem_read m (madt + offset) (Datatypes.length (encode_entries es)) = encode_entries es -> noted info l ->
  exists info', parse_entries fuel madt offset length info m = Ret info' /\ noted info' (l ++ omap enabled_cpu es) /\
    ioapic info' = (match last (omap io_apic es) with Some io => Some io | None => ioapic info end) /\
    local_apic_addr info' = local_apic_addr info /\ pci_ecam_base info' = pci_ecam_base info /\
    pci_start_bus info' = pci_start_bus info /\ pci_end_bus info' = pci_end_bus info.
Proof.
  induction es as [|e es IH]; intros fuel madt offset length info l m Hok Hf Hlen Hm Hn; (destruct fuel as [|fuel]; [lia|]); cbn [parse_entries].
  { rewrite (proj2 (Z.leb_gt _ _)) by (unfold encode_entries, zlen in Hlen; cbn in Hlen; lia). exists info. cbn. by rewrite app_nil_r. }
  apply Forall_cons in Hok as [He Hok]. unfold encode_entries in Hlen, Hm. cbn [fmap list_fmap concat] in Hlen, Hm. fold (encode_entries es) in Hlen, Hm.
  assert (Hel : zlen (encode_entry e) = 2 + zlen (en_body e)) by (unfold encode_entry; rewrite !zlen_cons; lia).
  rewrite length_app, mem_read_app in Hm. apply app_inj_1 in Hm as [Hm1 Hm2]; [|by rewrite mem_read_length].
  rewrite zlen_app in Hlen. pose proof (zlen_nonneg (en_body e)). pose proof (zlen_nonneg (encode_entries es)).
  rewrite (proj2 (Z.leb_le _ _)) by lia. rewrite (entry_type_read _ _ _ He Hm1), (entry_len_read _ _ _ He Hm1), (proj2 (Z.eqb_neq _ _)) by lia.
  rewrite (parse_entry_spec _ _ _ He Hm1). replace (madt + offset + Z.of_nat (Datatypes.length (encode_entry e))) with (madt + (offset + (2 + zlen (en_body e)))) in Hm2 by (unfold zlen in *; lia).
  set (info1 := note_entry info e).
  assert (H1 : noted info1 (l ++ omap enabled_cpu [e]) /\ ioapic info1 = (match io_apic e with Some io => Some io | None => ioapic info end) /\
    local_apic_addr info1 = local_apic_addr info /\ pci_ecam_base info1 = pci_ecam_base info /\ pci_start_bus info1 = pci_start_bus info /\ pci_end_bus info1 = pci_end_bus info).
  { unfold info1, note_entry. cbn [omap list_omap]. destruct (enabled_cpu e) as [[pid aid]|] eqn:Ec.
    - assert (io_apic e = None) as ->. { unfold enabled_cpu in Ec. unfold io_apic. destruct (en_type e =? 0) eqn:E0; [|done]. bool_to_prop. by rewrite E0. }
      split; [by apply noted_add|]. by destruct (_ <? _)%nat.
    - rewrite app_nil_r. by destruct (io_apic e). }
  destruct H1 as (Hn1 & Hio & HL & HE & HS & HB).
  destruct (IH fuel madt (offset + (2 + zlen (en_body e))) length info1 _ m Hok ltac:(cbn in Hf; lia) ltac:(lia) Hm2 Hn1) as (info' & -> & Hn' & Hio' & HL' & HE' & HS' & HB').
  exists info'. split; [done|]. rewrite <- app_assoc in Hn'. split; [by destruct (enabled_cpu e) eqn:Ec; cbn [omap list_omap] in Hn' |- *; rewrite Ec in *|].
  split; [|by rewrite HL', HE', HS', HB']. rewrite Hio', Hio. cbn [omap list_omap]. destruct (io_apic e) as [io|]; [|done].
  rewrite last_cons. by destruct (last _).
Qed.

(** On any memory the walk ends, and the processors fit their array. *)
Lemma parse_entries_ends fuel : forall madt offset length info m,
  (0 < fuel)%nat -> length - offset < Z.of_nat fuel -> Datatypes.length (cpus info) = MAX_CPUS -> (num_cpus info <= MAX_CPUS)%nat ->
  exists info', parse_entries fuel madt offset length info m = Ret info' /\ Datatypes.length (cpus info') = MAX_CPUS /\ (num_cpus info' <= MAX_CPUS)%nat.
Proof.
  induction fuel as [|fuel IH]; intros madt offset length info m H0 Hf Hl Hn; cbn [parse_entries]; [lia|].
  destruct (_ <=? _) eqn:E; bool_to_prop; [|eauto]. destruct (load8 m (madt + offset + 1) =? 0) eqn:Ez; bool_to_prop; [eauto|].
  pose proof (Z.mod_pos_bound (m (madt + offset + 1)) (2 ^ 8) ltac:(lia)) as Hb. fold (u8 (m (madt + offset + 1))) in Hb. fold (load8 m (madt + offset + 1)) in Hb.
  apply IH; [lia..| |]; unfold parse_entry, add_cpu, set_ioapic; repeat case_match; cbn [cpus num_cpus]; rewrite ?length_insert; try done.
  match goal with H : _ && _ = true |- _ => apply andb_true_iff in H as [_ H%Nat.ltb_lt] end. lia.
Qed.

(** The MCFG table: the first of the root table, else of the extended one. *)
Lemma find_mcfg_first rsdp m :
  let rsdt := load32 m (rsdp + 16) in
  let xsdt := load64 m (rsdp + 24) in
  find_mcfg rsdp m =
    match (match (if bytes_eqb (signature m rsdt) (b "RSDT") && (36 <? load32 m (rsdt + 4))
                  then first_table (b "MCFG") (tables (Z.to_nat ((load32 m (rsdt + 4) - 36) / 4)) (rsdt + 36) 4 m) m else None) with
           | Some t => Some t
           | None => if (2 <=? load8 m (rsdp + 15)) && bytes_eqb (signature m xsdt) (b "XSDT") && (36 <? load32 m (xsdt + 4))
                     then first_table (b "MCFG") (tables (Z.to_nat ((load32 m (xsdt + 4) - 36) / 8)) (xsdt + 36) 8 m) m else None
           end) with
    | Some t => Some (load64 m (t + 44), load8 m (t + 54), load8 m (t + 55))
    | None => None
    end.
Proof.
  assert (Hs : forall p sig sz, find_table_in_sdt p sig (b "MCFG") sz m =
    if bytes_eqb (signature m p) sig && (36 <? load32 m (p + 4)) then first_table (b "MCFG") (tables (Z.to_nat ((load32 m (p + 4) - 36) / sz)) (p + 36) sz m) m else None).
  { intros p sig sz. unfold find_table_in_sdt. rewrite find_entry_first. destruct (bytes_eqb _ _); [|done]. cbn [negb andb]. rewrite (Z.ltb_antisym _ 36). by destruct (_ <=? 36). }
  intros rsdt xsdt. unfold find_mcfg. rewrite !Hs. fold rsdt xsdt. destruct (2 <=? _); [done|]. by destruct (_ && _).
Qed.

(** The processors are found.  When the first valid root pointer of the BIOS
    area leads to a root table whose first processors' table is well formed, the
    kernel gets its enabled processors in the order listed, up to sixteen, the first
    of them as the boot processor; the last I/O APIC listed; the address of the
    local APIC; and the PCI window of the first MCFG table of the root table, else of
    the extended one, else the default. *)
Theorem acpi_discovers m (k n : nat) madt es :
  let rsdp := 917504 + 16 * Z.of_nat k in
  let rsdt := load32 m (rsdp + 16) in
  let listed := tables n (rsdt + 36) 4 m in
  let xsdt := load64 m (rsdp + 24) in
  let xlisted := tables (Z.to_nat ((load32 m (xsdt + 4) - 36) / 8)) (xsdt + 36) 8 m in
  (k < 8192)%nat -> rsdp_valid m rsdp = true -> (forall j, (j < k)%nat -> rsdp_valid m (917504 + 16 * Z.of_nat j) = false) ->
  signature m rsdt = b "RSDT" -> load32 m (rsdt + 4) = 36 + 4 * Z.of_nat n ->
  first_table (b "APIC") listed m = Some madt ->
  Forall entry_ok es -> load32 m (madt + 4) = 44 + zlen (encode_entries es) ->
  mem_read m (madt + 44) (length (encode_entries es)) = encode_entries es ->
  exists info, discover_cpus m = Ret (Some info) /\
    take (num_cpus info) (cpus info) = listed_cpus es /\ ioapic info = last (omap io_apic es) /\ local_apic_addr info = load32 m (madt + 36) /\
    let mcfg := match first_table (b "MCFG") listed m with
                | Some t => Some t
                | None => if (2 <=? load8 m (rsdp + 15)) && bytes_eqb (signature m xsdt) (b "XSDT") && (36 <? load32 m (xsdt + 4))
                          then first_table (b "MCFG") xlisted m else None
                end in
    (pci_ecam_base info, pci_start_bus info, pci_end_bus info) =
      match mcfg with Some t => (load64 m (t + 44), load8 m (t + 54), load8 m (t + 55)) | None => (2952790016, 0, 255) end.
Proof.
  intros rsdp rsdt listed xsdt xlisted Hk Hv Hn Hsig Hlen Hmadt Hok Hml Hmem. unfold discover_cpus, find_rsdp.
  rewrite (find_rsdp_first 8192 917504 m k Hk Hv Hn). fold rsdp. fold rsdt. unfold find_madt. rewrite Hsig, bytes_eqb_refl, Hlen. cbn [negb].
  pose proof (Z.mod_pos_bound (le_val (mem_read m (rsdt + 4) 4)) (2 ^ 32) ltac:(lia)) as Hr. change (0 <= load32 m (rsdt + 4) < 2 ^ 32) in Hr.
  rewrite find_entry_first, u64_small by lia. replace ((36 + 4 * Z.of_nat n - 36) / 4) with (Z.of_nat n) by (Z.div_mod_to_equations; lia).
  rewrite Nat2Z.id. fold listed. rewrite Hmadt. unfold parse_madt. set (info0 := mkAcpi _ _ _ _ _ _ _).
  destruct (parse_entries_spec es (S (Z.to_nat (load32 m (madt + 4)))) madt 44 (load32 m (madt + 4)) info0 [] m) as (info & -> & (_ & _ & Hc) & Hio & HL & HE & HS & HB); [done| |done|done|done|].
  { assert (Hle : forall l, (length l <= length (encode_entries l))%nat) by (induction l as [|e l IHl]; [cbn; lia|unfold encode_entries in *; cbn [fmap list_fmap concat]; rewrite length_app; cbn [length encode_entry]; lia]).
    specialize (Hle es). unfold zlen in Hml. lia. }
  cbn [obind]. rewrite find_mcfg_first. fold rsdt. rewrite Hsig, bytes_eqb_refl, Hlen. cbn [andb].
  assert (Hl36 : (36 <? 36 + 4 * Z.of_nat n) = (0 <? n)%nat) by (apply eq_true_iff_eq; rewrite Z.ltb_lt, Nat.ltb_lt; lia).
  replace (Z.to_nat ((36 + 4 * Z.of_nat n - 36) / 4)) with n by (Z.div_mod_to_equations; lia). fold listed xsdt xlisted.
  replace (if 36 <? 36 + 4 * Z.of_nat n then first_table (b "MCFG") listed m else None) with (first_table (b "MCFG") listed m)
    by (rewrite Hl36; by destruct n).
  eexists. split; [done|].
  destruct (first_table (b "MCFG") listed m) as [t|]; [|destruct (if (2 <=? _) && _ && _ then _ else _) as [t|]];
    cbn [cpus num_cpus ioapic local_apic_addr pci_ecam_base pci_start_bus pci_end_bus];
    (split_and!; [done|rewrite Hio; by destruct (last _)|done|by rewrite ?HE, ?HS, ?HB]).
Qed.

(** Tables with two enabled processors and one that is not. *)
Definition demo_rsdp (c : Z) : bytes := RSDP_SIGNATURE ++ [c] ++ b "TYNOEM" ++ [0] ++ le_bytes 4 918016.
Definition demo_rsdt : bytes := b "RSDT" ++ le_bytes 4 44 ++ replicate 28 0 ++ le_bytes 4 918272 ++ le_bytes 4 918528.
Definition demo_entries : list madt_entry :=
  [mkEntry 0 [0; 0; 1; 0; 0; 0]; mkEntry 0 [1; 2; 0; 0; 0; 0]; mkEntry 1 ([9; 0] ++ le_bytes 4 4273995776 ++ le_bytes 4 0); mkEntry 0 [2; 4; 1; 0; 0; 0]].
Definition demo_madt : bytes :=
  b "APIC" ++ le_bytes 4 (44 + zlen (encode_entries demo_entries)) ++ replicate 28 0 ++ le_bytes 4 4276092928 ++ le_bytes 4 1 ++ encode_entries demo_entries.
Definition demo_tables : mem :=
  mem_write (mem_write (mem_write (mem_write (fun _ => 0) 918272 (b "FACP")) 918528 demo_madt) 918016 demo_rsdt) 917520 (demo_rsdp 245).

Lemma acpi_discovers_witness :
  exists info, discover_cpus demo_tables = Ret (Some info) /\ take (num_cpus info) (cpus info) = [mkCpu 0 true 0; mkCpu 4 false 2] /\
    ioapic info = Some (mkIoApic 9 4273995776 0) /\ local_apic_addr info = 4276092928.
Proof.
  destruct (acpi_discovers demo_tables 1 2 918528 demo_entries) as (info & E & Ec & Ei & El & _);
    [apply Nat.ltb_lt; reflexivity|vm_compute; reflexivity| |vm_compute; reflexivity|vm_compute; reflexivity|vm_compute; reflexivity| |vm_compute; reflexivity|vm_compute; reflexivity|].
  - intros j Hj. assert (j = 0%nat) as -> by lia. vm_compute. reflexivity.
  - unfold demo_entries, entry_ok. cbn [en_type en_body app le_bytes]. repeat first [apply Forall_nil; exact I | apply Forall_cons | split]; vm_compute; first [reflexivity | discriminate].
  - exists info. split_and!; [exact E|rewrite Ec; vm_compute; reflexivity|rewrite Ei; vm_compute; reflexivity|rewrite El; vm_compute; reflexivity].
Defined.
