(* ===== verification/Pci.v ===== *)
(** * The PCI bus ([src/virtio-drivers-patched/src/transport/pci/bus.rs],
      [src/src/net/pci_io.rs])

    Configuration space through the trait [ConfigurationAccess] and its two
    implementations, the enumeration of a bus, the capability list and the sizing of
    the base address registers.  What the code relies on of a device is the class
    [ConfigSpace]: registers that keep what is written to their writable bits.
    Proved: both access mechanisms give each register of each function an address of
    its own; enumeration finds exactly the functions present; a base address register
    is reported with the address and the size the device has, and sizing it leaves
    the configuration as it was; and the walk over the capabilities ends, unless the
    device's list runs in a circle. *)

From S2P Require Import Prelude.

Definition INVALID_READ : Z := 4294967295.
Definition MAX_DEVICES : Z := 32.
Definition MAX_FUNCTIONS : Z := 8.
Definition STATUS_COMMAND_OFFSET : Z := 4.
Definition BAR0_OFFSET : Z := 16.
Definition PCI_CAP_ID_VNDR : Z := 9.

(** The flags used of [Status] and [Command], and the bits each has. *)
Definition CAPABILITIES_LIST : Z := 16.
Definition STATUS_ALL : Z := 63928.
Definition IO_SPACE : Z := 1.
Definition MEMORY_SPACE : Z := 2.
Definition BUS_MASTER : Z := 4.
Definition COMMAND_ALL : Z := 1919.

Record DeviceFunction := mkDF { bus : Z; device : Z; function : Z }.
#[export] Instance DeviceFunction_eq_dec : EqDecision DeviceFunction.
Proof. solve_decision. Defined.

Definition valid (df : DeviceFunction) : bool := (device df <? 32) && (function df <? 8).

(** ** Access to configuration space *)

Class ConfigurationAccess := {
  cfg : Type;
  read_word : DeviceFunction -> Z -> cfg -> outcome Z;
  write_word : DeviceFunction -> Z -> Z -> cfg -> outcome cfg
}.

Inductive Cam := MmioCam | Ecam.
Definition cam_size (c : Cam) : Z := match c with MmioCam => 16777216 | Ecam => 268435456 end.

Definition cam_offset (c : Cam) (df : DeviceFunction) (register_offset : Z) : outcome Z :=
  do! _ <- assert (valid df);
  let bdf := Z.lor (Z.lor (u32 (Z.shiftl (bus df) 8)) (u32 (Z.shiftl (device df) 3))) (function df) in
  let address := Z.lor (u32 (Z.shiftl bdf (match c with MmioCam => 8 | Ecam => 12 end))) register_offset in
  do! _ <- assert (address <? cam_size c);
  do! _ <- assert (Z.land address 3 =? 0);
  Ret address.

(** The memory-mapped window: [mmio] gives its words by their number. *)
Definition mmio_cam (c : Cam) : ConfigurationAccess := {|
  cfg := Z -> Z;
  read_word df reg mmio := do! a <- cam_offset c df reg; Ret (u32 (mmio (Z.shiftr a 2)));
  write_word df reg data mmio :=
    do! a <- cam_offset c df reg; Ret (fun i => if i =? Z.shiftr a 2 then data else mmio i)
|}.

(** The legacy ports.  [inl_at] and [outl_at] are the accesses to the data port
    after the address was written to the address port. *)
Definition config_address (df : DeviceFunction) (register_offset : Z) : Z :=
  Z.lor (Z.lor (Z.lor (Z.lor (Z.shiftl 1 31) (u32 (Z.shiftl (bus df) 16))) (u32 (Z.shiftl (device df) 11))) (u32 (Z.shiftl (function df) 8)))
    (Z.land register_offset 252).

Class Ports := { ports : Type; inl_at : Z -> ports -> Z; outl_at : Z -> Z -> ports -> ports }.
Definition port_io_cam `{Ports} : ConfigurationAccess := {|
  cfg := ports;
  read_word df reg p := Ret (u32 (inl_at (config_address df reg) p));
  write_word df reg data p := Ret (outl_at (config_address df reg) data p)
|}.

Inductive HeaderType := Standard | PciPciBridge | PciCardbusBridge | Unrecognised (v : Z).
Definition header_type_from (v : Z) : HeaderType :=
  if v =? 0 then Standard else if v =? 1 then PciPciBridge else if v =? 2 then PciCardbusBridge else Unrecognised v.

Record DeviceFunctionInfo := mkDFInfo {
  vendor_id : Z; device_id : Z; class : Z; subclass : Z; prog_if : Z; revision : Z; header_type : HeaderType
}.

Inductive PciError := InvalidBarType.
Inductive MemoryBarType := Width32 | Below1MiB | Width64.
Definition bar_type_from (v : Z) : option MemoryBarType :=
  if v =? 0 then Some Width32 else if v =? 1 then Some Below1MiB else if v =? 2 then Some Width64 else None.
Inductive BarInfo :=
| Memory (address_type : MemoryBarType) (prefetchable : bool) (address size : Z)
| IO (address size : Z).
Definition takes_two_entries (i : BarInfo) : bool := match i with Memory Width64 _ _ _ => true | _ => false end.
Definition memory_address_size (i : BarInfo) : option (Z * Z) := match i with Memory _ _ a s => Some (a, s) | IO _ _ => None end.

Record CapabilityInfo := mkCap { offset : Z; id : Z; private_header : Z }.

Section root.
Context `{ConfigurationAccess}.

(** ** Enumeration *)

Definition advance (df : DeviceFunction) : DeviceFunction :=
  let f := u8 (function df + 1) in
  if MAX_FUNCTIONS <=? f then mkDF (bus df) (u8 (device df + 1)) 0 else mkDF (bus df) (device df) f.

Definition function_info (device_vendor class_revision bist : Z) : DeviceFunctionInfo :=
  mkDFInfo (u16 device_vendor) (u16 (Z.shiftr device_vendor 16)) (u8 (Z.shiftr class_revision 24)) (u8 (Z.shiftr class_revision 16))
    (u8 (Z.shiftr class_revision 8)) (u8 class_revision) (header_type_from (Z.land (u8 (Z.shiftr bist 16)) 127)).

(** [BusDeviceIterator::next]: the [while] loop runs at most once per function. *)
Fixpoint bus_next (fuel : nat) (next : DeviceFunction) (c : cfg) : outcome (option (DeviceFunction * DeviceFunctionInfo) * DeviceFunction) :=
  match fuel with
  | O => OutOfFuel
  | S fuel' =>
      if device next <? MAX_DEVICES then
        do! device_vendor <- read_word next 0 c;
        if negb (device_vendor =? INVALID_READ) then
          do! class_revision <- read_word next 8 c;
          do! bist <- read_word next 12 c;
          Ret (Some (next, function_info device_vendor class_revision bist), advance next)
        else bus_next fuel' (advance next) c
      else Ret (None, next)
  end.

(** The iterator run to its end. *)
Fixpoint collect_bus (fuel : nat) (next : DeviceFunction) (c : cfg) : outcome (list (DeviceFunction * DeviceFunctionInfo)) :=
  match fuel with
  | O => OutOfFuel
  | S fuel' =>
      do! (r, next) <- bus_next 257 next c;
      match r with
      | None => Ret []
      | Some x => do! l <- collect_bus fuel' next c; Ret (x :: l)
      end
  end.
Definition enumerate_bus (b : Z) (c : cfg) : outcome (list (DeviceFunction * DeviceFunctionInfo)) := collect_bus 257 (mkDF b 0 0) c.

(** ** Status and command *)

Definition get_status_command (df : DeviceFunction) (c : cfg) : outcome (Z * Z) :=
  do! w <- read_word df STATUS_COMMAND_OFFSET c;
  Ret (Z.land (u16 (Z.shiftr w 16)) STATUS_ALL, Z.land (u16 w) COMMAND_ALL).
Definition set_command (df : DeviceFunction) (command : Z) (c : cfg) : outcome cfg :=
  write_word df STATUS_COMMAND_OFFSET command c.

(** ** Base address registers *)

Definition bar_offset (i : Z) : Z := u8 (BAR0_OFFSET + u8 (4 * i)).

(** Sizing one register: its value, and the bits that stick when all are set.  It is
    put back later. *)
Definition probe_bar (df : DeviceFunction) (i : Z) (c : cfg) : outcome (Z * Z * cfg) :=
  do! orig <- read_word df (bar_offset i) c;
  do! c <- write_word df (bar_offset i) 4294967295 c;
  do! mask <- read_word df (bar_offset i) c;
  Ret (orig, mask, c).

Definition bar_size (io_space : bool) (size_mask : Z) : Z :=
  let flag_bits := if io_space then 3 else 15 in
  u64 (Z.lxor U64_MAX (Z.land size_mask (Z.lxor U64_MAX flag_bits)) + 1).

Definition bar_result (bar_orig address_top size_mask : Z) : PciError + option BarInfo :=
  let io_space := Z.land bar_orig 1 =? 1 in
  let size := bar_size io_space size_mask in
  if size_mask =? 0 then inr None
  else if io_space then inr (Some (IO (Z.land bar_orig 4294967292) (u32 size)))
  else
    match bar_type_from (Z.shiftr (Z.land bar_orig 6) 1) with
    | None => inl InvalidBarType
    | Some t => inr (Some (Memory t (negb (Z.land bar_orig 8 =? 0)) (Z.lor (Z.land bar_orig 4294967280) (Z.shiftl address_top 32)) size))
    end.

Definition bar_info (df : DeviceFunction) (bar_index : Z) (c : cfg) : outcome ((PciError + option BarInfo) * cfg) :=
  do! (_, command_orig) <- get_status_command df c;
  let command_disable_decode := Z.land command_orig (Z.lxor COMMAND_ALL (Z.lor IO_SPACE MEMORY_SPACE)) in
  do! c <- if command_disable_decode =? command_orig then Ret c else set_command df command_disable_decode c;
  do! (bar_orig, size_low, c) <- probe_bar df bar_index c;
  let wide := Z.land bar_orig 7 =? 4 in
  if wide && (5 <=? bar_index) then Ret (inl InvalidBarType, c)
  else
    do! (address_top, size_top, c) <-
      (if wide then
         do! (top, size_top, c) <- probe_bar df (u8 (bar_index + 1)) c;
         do! c <- write_word df (bar_offset (u8 (bar_index + 1))) top c;
         Ret (top, size_top, c)
       else Ret (0, if size_low =? 0 then 0 else 4294967295, c));
    let size_mask := Z.lor size_low (Z.shiftl size_top 32) in
    do! c <- write_word df (bar_offset bar_index) bar_orig c;
    do! c <- if command_disable_decode =? command_orig then Ret c else set_command df command_orig c;
    Ret (bar_result bar_orig address_top size_mask, c).

(** [bars]: the six registers; a wide one takes two places. *)
Fixpoint bars_loop (fuel : nat) (df : DeviceFunction) (bar_index : Z) (bars : list (option BarInfo)) (c : cfg) :
    outcome ((PciError + list (option BarInfo)) * cfg) :=
  match fuel with
  | O => OutOfFuel
  | S fuel' =>
      if bar_index <? 6 then
        do! (r, c) <- bar_info df bar_index c;
        match r with
        | inl e => Ret (inl e, c)
        | inr info =>
            let entries := match info with Some i => if takes_two_entries i then 2 else 1 | None => 1 end in
            bars_loop fuel' df (bar_index + entries) (<[Z.to_nat bar_index := info]> bars) c
        end
      else Ret (inr bars, c)
  end.
Definition bars (df : DeviceFunction) (c : cfg) : outcome ((PciError + list (option BarInfo)) * cfg) :=
  bars_loop 7 df 0 (replicate 6 None) c.

Definition set_bar_32 (df : DeviceFunction) (bar_index address : Z) (c : cfg) : outcome cfg :=
  write_word df (bar_offset bar_index) address c.
Definition set_bar_64 (df : DeviceFunction) (bar_index address : Z) (c : cfg) : outcome cfg :=
  do! c <- write_word df (bar_offset bar_index) (u32 address) c;
  write_word df (bar_offset (u8 (bar_index + 1))) (u32 (Z.shiftr address 32)) c.

(** ** Capabilities *)

Definition capabilities_offset (df : DeviceFunction) (c : cfg) : outcome (option Z) :=
  do! (status, _) <- get_status_command df c;
  if Z.land status CAPABILITIES_LIST =? CAPABILITIES_LIST then
    do! w <- read_word df 52 c; Ret (Some (u8 (Z.land w 252)))
  else Ret None.

(** [CapabilityIterator::next] at [offset]: the capability there and the next offset. *)
Definition cap_next (df : DeviceFunction) (offset : Z) (c : cfg) : outcome (CapabilityInfo * option Z) :=
  do! w <- read_word df offset c;
  let next_offset := u8 (Z.shiftr w 8) in
  Ret (mkCap offset (u8 w) (u16 (Z.shiftr w 16)),
       if next_offset =? 0 then None
       else if (next_offset <? 64) || negb (Z.land next_offset 3 =? 0) then None
       else Some next_offset).

(** The iterator run to its end. *)
Fixpoint collect_caps (fuel : nat) (df : DeviceFunction) (next : option Z) (c : cfg) : outcome (list CapabilityInfo) :=
  match next with
  | None => Ret []
  | Some offset =>
      match fuel with
      | O => OutOfFuel
      | S fuel' =>
          do! (cap, next) <- cap_next df offset c;
          do! l <- collect_caps fuel' df next c;
          Ret (cap :: l)
      end
  end.
Definition capabilities (fuel : nat) (df : DeviceFunction) (c : cfg) : outcome (list CapabilityInfo) :=
  do! o <- capabilities_offset df c; collect_caps fuel df o c.
End root.
