(* ===== verification/PciProofs.v ===== *)
(** * Proofs on the PCI bus

    The addresses of both access mechanisms, the interface [ConfigSpace] to a device
    with its two instances, and the theorems on enumeration, base address registers
    and capabilities. *)

From S2P Require Import Prelude Pci.

(** ** Addresses *)

Record proper (df : DeviceFunction) : Prop := mkProper {
  pr_bus : 0 <= bus df < 256;
  pr_device : 0 <= device df < 32;
  pr_function : 0 <= function df < 8
}.
Definition reg_ok (r : Z) : Prop := 0 <= r < 256 /\ r mod 4 = 0.

Lemma proper_valid df : proper df -> valid df = true.
Proof. intros []. unfold valid. rewrite andb_true_iff, !Z.ltb_lt. lia. Qed.

Lemma land_low a n : 0 <= n -> Z.land a (Z.ones n) = a mod 2 ^ n.
Proof. intros. by apply Z.land_ones. Qed.

Definition cam_shift (c : Cam) : Z := match c with MmioCam => 8 | Ecam => 12 end.
Definition bdf (df : DeviceFunction) : Z := bus df * 256 + device df * 8 + function df.

Lemma cam_offset_eq c df r :
  proper df -> reg_ok r -> cam_offset c df r = Ret (bdf df * 2 ^ cam_shift c + r).
Proof.
  intros Hp [Hr Hr4]. pose proof Hp as []. unfold cam_offset, bdf. rewrite proper_valid by done. cbn [assert obind].
  rewrite (u32_small (Z.shiftl (bus df) 8)), (u32_small (Z.shiftl (device df) 3)) by (rewrite Z.shiftl_mul_pow2 by lia; lia).
  rewrite (lor_low (bus df) 8) by (rewrite ?Z.shiftl_mul_pow2 by lia; lia). rewrite (Z.shiftl_mul_pow2 (device df)) by lia.
  replace (bus df * 2 ^ 8 + device df * 2 ^ 3) with (Z.shiftl (bus df * 32 + device df) 3) by (rewrite Z.shiftl_mul_pow2 by lia; lia).
  rewrite (lor_low _ 3) by lia. replace ((bus df * 32 + device df) * 2 ^ 3 + function df) with (bus df * 256 + device df * 8 + function df) by lia.
  set (n := bus df * 256 + device df * 8 + function df). assert (Hn : 0 <= n < 65536) by lia.
  destruct c; cbn [cam_shift cam_size]; (rewrite u32_small by (rewrite Z.shiftl_mul_pow2 by lia; lia)); rewrite lor_low by lia;
    rewrite (proj2 (Z.ltb_lt _ _)) by lia; cbn [assert obind]; change 3 with (Z.ones 2); rewrite land_low by lia;
    (rewrite (proj2 (Z.eqb_eq _ _)); [done|]); Z.div_mod_to_equations; lia.
Qed.

Lemma config_address_eq df r : proper df -> reg_ok r -> config_address df r = 2 ^ 31 + bdf df * 2 ^ 8 + r.
Proof.
  intros [] [Hr Hr4]. unfold config_address, bdf. rewrite !u32_small by (rewrite Z.shiftl_mul_pow2 by lia; lia).
  assert (Z.land r 252 = r) as ->.
  { replace 252 with (Z.shiftl (Z.ones 6) 2) by reflexivity. replace r with (Z.shiftl (r / 4) 2) at 1 by (rewrite Z.shiftl_mul_pow2 by lia; Z.div_mod_to_equations; lia).
    rewrite <- Z.shiftl_land, land_low by lia. rewrite Z.mod_small, Z.shiftl_mul_pow2 by (Z.div_mod_to_equations; lia). Z.div_mod_to_equations; lia. }
  rewrite (lor_low 1 31) by (rewrite ?Z.shiftl_mul_pow2 by lia; lia). rewrite !Z.shiftl_mul_pow2 by lia.
  replace (1 * 2 ^ 31 + bus df * 2 ^ 16) with (Z.shiftl (32768 + bus df) 16) by (rewrite Z.shiftl_mul_pow2 by lia; lia). rewrite (lor_low _ 16) by lia.
  replace ((32768 + bus df) * 2 ^ 16 + device df * 2 ^ 11) with (Z.shiftl ((32768 + bus df) * 32 + device df) 11) by (rewrite Z.shiftl_mul_pow2 by lia; lia).
  rewrite (lor_low _ 11) by lia.
  replace (((32768 + bus df) * 32 + device df) * 2 ^ 11 + function df * 2 ^ 8) with (Z.shiftl (((32768 + bus df) * 32 + device df) * 8 + function df) 8) by (rewrite Z.shiftl_mul_pow2 by lia; lia).
  rewrite (lor_low _ 8) by lia. lia.
Qed.

Lemma bdf_inj df df' : proper df -> proper df' -> bdf df = bdf df' -> df = df'.
Proof. destruct df, df'. intros [] []. unfold bdf. cbn in *. intros E. f_equal; lia. Qed.

(** ** What the code relies on of a device *)

(** The bits a write leaves and the bits it sets. *)
Definition merge (old mask v : Z) : Z := Z.lor (Z.ldiff old mask) (Z.land v mask).

(** Each register keeps its value; a write changes its writable bits and no other
    register. *)
Class ConfigSpace `{ConfigurationAccess} := {
  regs : cfg -> DeviceFunction -> Z -> Z;
  writable : DeviceFunction -> Z -> Z;
  regs_range : forall c df r, 0 <= regs c df r < 2 ^ 32;
  regs_read : forall c df r, proper df -> reg_ok r -> read_word df r c = Ret (regs c df r);
  regs_write : forall c df r v, proper df -> reg_ok r -> 0 <= v < 2 ^ 32 ->
    exists c', write_word df r v c = Ret c' /\ regs c' df r = merge (regs c df r) (writable df r) v /\
      forall df' r', proper df' -> reg_ok r' -> ~ (df' = df /\ r' = r) -> regs c' df' r' = regs c df' r'
}.

(** A window of plain memory is such a device, by the addresses' being distinct. *)
Definition word_number (c : Cam) (df : DeviceFunction) (r : Z) : Z := Z.shiftr (bdf df * 2 ^ cam_shift c + r) 2.

Lemma word_number_inj c df r df' r' :
  proper df -> proper df' -> reg_ok r -> reg_ok r' -> word_number c df r = word_number c df' r' -> df = df' /\ r = r'.
Proof.
  intros Hp Hp' [Hr H4] [Hr' H4']. unfold word_number. rewrite !Z.shiftr_div_pow2 by lia. intros E.
  assert (Hb : bdf df = bdf df' /\ r = r'); [|destruct Hb; split; [by apply bdf_inj|done]].
  assert (bdf df * 2 ^ cam_shift c + r = bdf df' * 2 ^ cam_shift c + r') as E2 by (destruct c; cbn [cam_shift] in *; Z.div_mod_to_equations; lia).
  destruct c; cbn [cam_shift] in E2; lia.
Qed.

#[export] Instance mmio_space (c : Cam) : @ConfigSpace (mmio_cam c).
Proof.
  refine {| regs := (fun (mmio : @cfg (mmio_cam c)) df r => u32 (mmio (word_number c df r))); writable := fun _ _ => 2 ^ 32 - 1 |}.
  - intros. apply Z.mod_pos_bound. lia.
  - intros mmio df r Hp Hr. cbn [read_word mmio_cam]. by rewrite cam_offset_eq.
  - intros mmio df r v Hp Hr Hv. cbn [write_word mmio_cam]. rewrite cam_offset_eq by done. cbn [obind]. fold (word_number c df r).
    eexists. split; [done|]. cbn beta. split.
    + rewrite Z.eqb_refl, u32_small by done. unfold merge. change (2 ^ 32 - 1) with (Z.ones 32). rewrite !Z.land_ones by lia.
      rewrite Z.ldiff_ones_r_low, Z.lor_0_l, Z.mod_small; [done|done|apply Z.mod_pos_bound; lia|].
      set (o := u32 _). assert (0 <= o < 2 ^ 32) by (apply Z.mod_pos_bound; lia). destruct (Z.eq_dec o 0) as [->|]; [done|]. apply Z.log2_lt_pow2; lia.
    + intros df' r' Hp' Hr' Hne. destruct (_ =? _) eqn:E; [|done]. bool_to_prop. exfalso. apply Hne. by apply (word_number_inj c).
Qed.

(** ** Enumeration *)

Section enumeration.
Context `{ConfigSpace}.

(** The functions of a bus by their number. *)
Definition nth_function (b : Z) (n : nat) : DeviceFunction := mkDF b (Z.of_nat n / 8) (Z.of_nat n mod 8).
Definition functions (b : Z) : list DeviceFunction := nth_function b <$> seq 0 256.

(** What is at a function: nothing, or a device with its identification. *)
Definition present (c : cfg) (df : DeviceFunction) : option (DeviceFunction * DeviceFunctionInfo) :=
  if regs c df 0 =? INVALID_READ then None else Some (df, function_info (regs c df 0) (regs c df 8) (regs c df 12)).

Lemma nth_function_proper b n : 0 <= b < 256 -> (n < 256)%nat -> proper (nth_function b n).
Proof. intros Hb Hn. constructor; cbn; [done|Z.div_mod_to_equations; lia..]. Qed.

Lemma advance_nth b n : (n < 256)%nat -> advance (nth_function b n) = nth_function b (S n).
Proof.
  intros Hn. unfold advance, nth_function, MAX_FUNCTIONS. cbn [function device bus]. unfold u8.
  rewrite (Z.mod_small (_ mod 8 + 1)) by (Z.div_mod_to_equations; lia). destruct (8 <=? _) eqn:E; bool_to_prop.
  - rewrite Z.mod_small by (Z.div_mod_to_equations; lia). f_equal; Z.div_mod_to_equations; lia.
  - f_equal; Z.div_mod_to_equations; lia.
Qed.

Lemma bus_next_spec fuel b c : forall n, 0 <= b < 256 -> (n <= 256)%nat -> (256 - n < fuel)%nat ->
  exists k, (n <= k <= 256)%nat /\ Forall (fun i => present c (nth_function b i) = None) (seq n (k - n)) /\
    bus_next fuel (nth_function b n) c =
      (if (k <? 256)%nat then Ret (present c (nth_function b k), nth_function b (S k)) else Ret (None, nth_function b 256)) /\
    ((k < 256)%nat -> present c (nth_function b k) <> None).
Proof.
  induction fuel as [|fuel IH]; intros n Hb Hn Hf; [lia|]. cbn [bus_next]. destruct (decide (n = 256)%nat) as [->|Hne].
  { exists 256%nat. cbn. split_and!; [lia..|constructor|done|lia]. }
  assert (Hp : proper (nth_function b n)) by (apply nth_function_proper; lia). pose proof Hp as [_ Hd _]. unfold MAX_DEVICES.
  rewrite (proj2 (Z.ltb_lt _ 32)) by lia. rewrite regs_read by (done || (split; [lia|done])). cbn [obind].
  destruct (regs c (nth_function b n) 0 =? INVALID_READ) eqn:E; cbn [negb].
  - rewrite advance_nth by lia. destruct (IH (S n) Hb ltac:(lia) ltac:(lia)) as (k & Hk & Hall & Hnext & Hpres). exists k. split_and!; [lia..| |done|done].
    replace (k - n)%nat with (S (k - S n)) by lia. cbn [seq]. constructor; [|done]. unfold present. by rewrite E.
  - rewrite !regs_read by (done || (split; [lia|done])). cbn [obind]. rewrite advance_nth by lia. exists n. rewrite Nat.sub_diag.
    rewrite (proj2 (Nat.ltb_lt _ _)) by lia. unfold present. rewrite E. split_and!; [lia..|constructor|done|done].
Qed.

Lemma omap_none {A B} (f : A -> option B) l : Forall (fun x => f x = None) l -> omap f l = [].
Proof. induction 1 as [|x l E _ IH]; [done|]. cbn. by rewrite E. Qed.

Lemma collect_bus_spec fuel b c : forall n, 0 <= b < 256 -> (n <= 256)%nat -> (256 - n < fuel)%nat ->
  collect_bus fuel (nth_function b n) c = Ret (omap (present c) (nth_function b <$> seq n (256 - n))).
Proof.
  induction fuel as [|fuel IH]; intros n Hb Hn Hf; [lia|]. cbn [collect_bus].
  destruct (bus_next_spec 257 b c n Hb Hn ltac:(lia)) as (k & Hk & Hall & -> & Hpres).
  replace (256 - n)%nat with ((k - n) + (256 - k))%nat by lia. rewrite seq_app, fmap_app, omap_app.
  rewrite (omap_none (present c) (nth_function b <$> seq n (k - n))) by (by apply Forall_fmap). cbn [app]. replace (n + (k - n))%nat with k by lia.
  destruct (k <? 256)%nat eqn:E; [apply Nat.ltb_lt in E|apply Nat.ltb_ge in E]; cbn [obind].
  - destruct (present c (nth_function b k)) as [x|] eqn:Ex; [|by destruct (Hpres E)]. rewrite IH by lia. cbn [obind].
    replace (256 - k)%nat with (S (256 - S k)) by lia. cbn [seq fmap list_fmap omap list_omap]. by rewrite Ex.
  - by replace (256 - k)%nat with 0%nat by lia.
Qed.

Lemma enumerate_bus_run b c : 0 <= b < 256 -> enumerate_bus b c = Ret (omap (present c) (functions b)).
Proof. intros Hb. unfold enumerate_bus. change (mkDF b 0 0) with (nth_function b 0). by rewrite collect_bus_spec by lia. Qed.

(** Enumerating a bus finds its devices.  The result is the functions of the
    bus that answer, each once, in the order of their numbers and with their
    identification; the iterator ends. *)
Theorem enumeration_exact b c : 0 <= b < 256 -> enumerate_bus b c = Ret (omap (present c) (functions b)).
Proof. apply enumerate_bus_run. Qed.
End enumeration.

(** ** Base address registers *)

Lemma testbit_mask k n : 0 <= k <= 32 -> Z.testbit (2 ^ 32 - 2 ^ k) n = (k <=? n) && (n <? 32).
Proof.
  intros Hk. replace (2 ^ 32 - 2 ^ k) with (Z.shiftl (Z.ones (32 - k)) k).
  - destruct (Z.lt_ge_cases n 0) as [Hn|Hn].
    { rewrite Z.testbit_neg_r by done. symmetry. apply andb_false_iff. left. apply Z.leb_gt. lia. }
    rewrite Z.shiftl_spec by done. destruct (k <=? n) eqn:E; bool_to_prop.
    + rewrite Z.testbit_ones_nonneg by lia. apply eq_true_iff_eq. cbn [andb]. rewrite !Z.ltb_lt. lia.
    + rewrite Z.testbit_neg_r by lia. done.
  - rewrite Z.shiftl_mul_pow2, Z.ones_equiv by lia. replace (2 ^ 32) with (2 ^ (32 - k) * 2 ^ k) by (rewrite <- Z.pow_add_r by lia; f_equal; lia). lia.
Qed.

Lemma testbit_multiple a k n : 0 <= n < k -> a mod 2 ^ k = 0 -> Z.testbit a n = false.
Proof.
  intros Hn Ha. rewrite (Z.div_mod a (2 ^ k)), Ha, Z.add_0_r, Z.mul_comm, <- Z.shiftl_mul_pow2 by lia. apply Z.shiftl_spec_low. lia.
Qed.
Lemma testbit_small a k n : 0 <= a < 2 ^ k -> 0 <= k <= n -> Z.testbit a n = false.
Proof.
  intros Ha Hn. destruct (Z.eq_dec a 0) as [->|]; [apply Z.bits_0|]. apply Z.bits_above_log2; [lia|].
  pose proof (proj1 (Z.log2_lt_pow2 a k ltac:(lia)) ltac:(lia)). lia.
Qed.

(** All ones written to a register of which the bits from [k] on are writable. *)
Lemma merge_ones k addr flags :
  0 <= k <= 32 -> 0 <= addr < 2 ^ 32 -> addr mod 2 ^ k = 0 -> 0 <= flags < 2 ^ k ->
  merge (Z.lor addr flags) (2 ^ 32 - 2 ^ k) 4294967295 = Z.lor flags (2 ^ 32 - 2 ^ k).
Proof.
  intros Hk Ha Hm Hf. apply Z.bits_inj'. intros n Hn. unfold merge.
  rewrite !Z.lor_spec, Z.ldiff_spec, Z.land_spec, Z.lor_spec, testbit_mask by done. change 4294967295 with (Z.ones 32). rewrite Z.testbit_ones_nonneg by lia.
  destruct (Z.lt_ge_cases n k) as [Hlt|Hge].
  - rewrite (proj2 (Z.leb_gt k n)), (testbit_multiple addr k n) by (done || lia). by destruct (Z.testbit flags n), (n <? 32).
  - rewrite (proj2 (Z.leb_le k n)), (testbit_small flags k n) by lia. destruct (n <? 32) eqn:E; bool_to_prop; cbn [andb negb]; [by rewrite andb_false_r|].
    by rewrite (testbit_small addr 32 n) by lia.
Qed.

Lemma merge_restore o m x v : Z.land v m = Z.land o m -> merge (merge o m x) m v = o.
Proof.
  intros Hv. apply Z.bits_inj'. intros n Hn. apply (f_equal (fun z => Z.testbit z n)) in Hv. unfold merge.
  rewrite !Z.lor_spec, Z.ldiff_spec, Z.lor_spec, Z.ldiff_spec, !Z.land_spec in *. destruct (Z.testbit m n); rewrite ?andb_true_r, ?andb_false_r, ?orb_false_r, ?orb_false_l in *; done.
Qed.

Lemma land_flags j addr f m : 0 <= j -> addr mod 2 ^ j = 0 -> 0 <= m < 2 ^ j -> Z.land (Z.lor addr f) m = Z.land f m.
Proof.
  intros Hj Ha Hm. apply Z.bits_inj'. intros n Hn. rewrite !Z.land_spec, Z.lor_spec. destruct (Z.lt_ge_cases n j) as [Hlt|Hge].
  - by rewrite (testbit_multiple addr j n) by lia.
  - by rewrite (testbit_small m j n), !andb_false_r by lia.
Qed.

Lemma land_address j addr f :
  0 <= j <= 32 -> 0 <= addr < 2 ^ 32 -> addr mod 2 ^ j = 0 -> 0 <= f < 2 ^ j -> Z.land (Z.lor addr f) (2 ^ 32 - 2 ^ j) = addr.
Proof.
  intros Hj Ha Hm Hf. apply Z.bits_inj'. intros n Hn. rewrite Z.land_spec, Z.lor_spec, testbit_mask by done. destruct (Z.lt_ge_cases n j) as [Hlt|Hge].
  - rewrite (testbit_multiple addr j n), (proj2 (Z.leb_gt j n)) by lia. by rewrite andb_false_r.
  - rewrite (testbit_small f j n), (proj2 (Z.leb_le j n)), orb_false_r by lia. destruct (n <? 32) eqn:E; bool_to_prop; [by rewrite andb_true_r|].
    by rewrite (testbit_small addr 32 n) by lia.
Qed.

Lemma land_pow2 a n : 0 <= n -> Z.land a (2 ^ n) = if Z.testbit a n then 2 ^ n else 0.
Proof.
  intros Hn. apply Z.bits_inj'. intros i Hi. rewrite Z.land_spec. destruct (Z.eq_dec n i) as [<-|Hne].
  - rewrite Z.pow2_bits_true, andb_true_r by done. destruct (Z.testbit a n) eqn:E; [by rewrite Z.pow2_bits_true|by rewrite Z.bits_0].
  - rewrite Z.pow2_bits_false, andb_false_r by done. destruct (Z.testbit a n); [by rewrite Z.pow2_bits_false|by rewrite Z.bits_0].
Qed.

Lemma low_byte_aligned w : u8 (Z.land w 252) = 4 * (w mod 256 / 4).
Proof.
  assert (Z.land w 252 = Z.ldiff (Z.land w (Z.ones 8)) (Z.ones 2)) as ->.
  { change 252 with (Z.ldiff (Z.ones 8) (Z.ones 2)). apply Z.bits_inj'. intros i Hi. by rewrite Z.land_spec, !Z.ldiff_spec, Z.land_spec, andb_assoc. }
  rewrite Z.ldiff_ones_r, Z.shiftl_mul_pow2, Z.shiftr_div_pow2, Z.land_ones by lia. change (2 ^ 8) with 256. change (2 ^ 2) with 4.
  pose proof (Z.mod_pos_bound w 256 ltac:(lia)). unfold u8. rewrite Z.mod_small; [lia|]. Z.div_mod_to_equations; lia.
Qed.

(** The size computed from the bits that stick, for every size and every flags. *)
Lemma bar_sizes :
  (forall k f, 4 <= k < 32 -> 0 <= f < 16 -> bar_size false (Z.lor (Z.lor f (2 ^ 32 - 2 ^ k)) (Z.shiftl 4294967295 32)) = 2 ^ k) /\
  (forall k, 2 <= k < 32 -> u32 (bar_size true (Z.lor (Z.lor 1 (2 ^ 32 - 2 ^ k)) (Z.shiftl 4294967295 32))) = 2 ^ k) /\
  (forall k f, 4 <= k < 64 -> 0 <= f < 16 ->
     bar_size false (Z.lor (Z.lor f ((2 ^ 64 - 2 ^ k) mod 2 ^ 32)) (Z.shiftl ((2 ^ 64 - 2 ^ k) / 2 ^ 32) 32)) = 2 ^ k).
Proof.
  assert (Hall : forallb (fun k => let k := Z.of_nat k in
    (negb ((2 <=? k) && (k <? 32)) || (u32 (bar_size true (Z.lor (Z.lor 1 (2 ^ 32 - 2 ^ k)) (Z.shiftl 4294967295 32))) =? 2 ^ k)) &&
    forallb (fun f => let f := Z.of_nat f in
      (negb ((4 <=? k) && (k <? 32)) || (bar_size false (Z.lor (Z.lor f (2 ^ 32 - 2 ^ k)) (Z.shiftl 4294967295 32)) =? 2 ^ k)) &&
      (negb (4 <=? k) || (bar_size false (Z.lor (Z.lor f ((2 ^ 64 - 2 ^ k) mod 2 ^ 32)) (Z.shiftl ((2 ^ 64 - 2 ^ k) / 2 ^ 32) 32)) =? 2 ^ k))) (seq 0 16)) (seq 0 64) = true)
    by (vm_compute; reflexivity).
  rewrite forallb_forall in Hall.
  assert (Hin : forall z n, 0 <= z < Z.of_nat n -> In (Z.to_nat z) (seq 0 n)) by (intros; apply in_seq; lia).
  split_and!; intros k; [intros f Hr Hf|intros Hr|intros f Hr Hf]; pose proof (Hall _ (Hin k 64%nat ltac:(lia))) as Hk; cbv zeta in Hk; rewrite Z2Nat.id in Hk by lia;
    apply andb_true_iff in Hk as [H1 H2].
  - rewrite forallb_forall in H2. specialize (H2 _ (Hin f 16%nat ltac:(lia))). cbv zeta in H2. rewrite Z2Nat.id in H2 by lia.
    apply andb_true_iff in H2 as [H2 _]. rewrite (proj2 (Z.leb_le 4 k)), (proj2 (Z.ltb_lt k 32)) in H2 by lia. by apply Z.eqb_eq.
  - rewrite (proj2 (Z.leb_le 2 k)), (proj2 (Z.ltb_lt k 32)) in H1 by lia. by apply Z.eqb_eq.
  - rewrite forallb_forall in H2. specialize (H2 _ (Hin f 16%nat ltac:(lia))). cbv zeta in H2. rewrite Z2Nat.id in H2 by lia.
    apply andb_true_iff in H2 as [_ H2]. rewrite (proj2 (Z.leb_le 4 k)) in H2 by lia. by apply Z.eqb_eq.
Qed.

Section bars.
Context `{ConfigSpace}.

(** Two configurations with the same registers. *)
Definition same_regs (c c' : cfg) : Prop := forall df r, proper df -> reg_ok r -> regs c' df r = regs c df r.

Definition bar_reg (i : Z) : Z := 16 + 4 * i.
Lemma bar_reg_ok i : 0 <= i < 6 -> reg_ok (bar_reg i).
Proof. intros Hi. split; [unfold bar_reg; lia|]. unfold bar_reg. Z.div_mod_to_equations; lia. Qed.
Lemma bar_offset_reg i : 0 <= i < 6 -> bar_offset i = bar_reg i.
Proof. intros Hi. unfold bar_offset, bar_reg, BAR0_OFFSET, u8. rewrite (Z.mod_small (4 * i)) by lia. apply Z.mod_small. lia. Qed.

(** What a write does, register by register. *)
Lemma write_at c df r v :
  proper df -> reg_ok r -> 0 <= v < 2 ^ 32 ->
  exists c', write_word df r v c = Ret c' /\ forall df' r', proper df' -> reg_ok r' ->
    regs c' df' r' = if decide (df' = df /\ r' = r) then merge (regs c df r) (writable df r) v else regs c df' r'.
Proof.
  intros Hp Hr Hv. destruct (regs_write c df r v Hp Hr Hv) as (c' & E & Hat & Hother). exists c'. split; [done|]. intros df' r' Hp' Hr'.
  case_decide as Hd; [by destruct Hd as [-> ->]|by apply Hother].
Qed.

Lemma probe_at c df i :
  proper df -> 0 <= i < 6 ->
  exists c', probe_bar df i c = Ret (regs c df (bar_reg i), merge (regs c df (bar_reg i)) (writable df (bar_reg i)) 4294967295, c') /\
    forall df' r', proper df' -> reg_ok r' ->
      regs c' df' r' = if decide (df' = df /\ r' = bar_reg i) then merge (regs c df (bar_reg i)) (writable df (bar_reg i)) 4294967295 else regs c df' r'.
Proof.
  intros Hp Hi. pose proof (bar_reg_ok i Hi) as Hr. unfold probe_bar. rewrite bar_offset_reg by done. rewrite regs_read by done. cbn [obind].
  destruct (write_at c df (bar_reg i) 4294967295 Hp Hr ltac:(lia)) as (c' & -> & Hc). cbn [obind]. rewrite regs_read by done. cbn [obind].
  rewrite Hc by done. rewrite decide_True by done. eauto.
Qed.

(** Clearing the decoding bits of the command and setting them again. *)
Lemma command_off_on c df (off : bool) :
  proper df -> Z.ldiff (writable df 4) COMMAND_ALL = 0 ->
  let w := regs c df 4 in
  let orig := Z.land (u16 w) COMMAND_ALL in
  let disabled := Z.land orig (Z.lxor COMMAND_ALL (Z.lor IO_SPACE MEMORY_SPACE)) in
  get_status_command df c = Ret (Z.land (u16 (Z.shiftr w 16)) STATUS_ALL, orig) /\
  0 <= orig < 2 ^ 32 /\ 0 <= disabled < 2 ^ 32 /\ Z.land orig (writable df 4) = Z.land w (writable df 4).
Proof.
  intros Hp Hm w orig disabled. assert (Hr4 : reg_ok 4) by (split; [lia|done]).
  assert (Hb : forall a m, 0 <= m < 2 ^ 32 -> 0 <= Z.land a m < 2 ^ 32) by (intros; by apply land_bound).
  split; [unfold get_status_command, STATUS_COMMAND_OFFSET; by rewrite regs_read|]. split; [apply Hb; unfold COMMAND_ALL; lia|].
  split; [apply Hb; vm_compute; split; [discriminate|reflexivity]|].
  apply Z.bits_inj'. intros n Hn. apply (f_equal (fun z => Z.testbit z n)) in Hm. rewrite Z.ldiff_spec, Z.bits_0 in Hm. unfold orig. rewrite !Z.land_spec.
  destruct (Z.testbit (writable df 4) n) eqn:E; [|by rewrite !andb_false_r]. cbn [andb] in Hm. apply negb_false_iff in Hm. rewrite Hm, !andb_true_r.
  unfold u16. rewrite Z.mod_pow2_bits_low; [done|]. destruct (Z.lt_ge_cases n 16) as [Hlt|Hge]; [done|].
  rewrite (testbit_small COMMAND_ALL 16 n) in Hm; [done|unfold COMMAND_ALL|]; lia.
Qed.

(** [bar_info] run: what it computes from, and that it puts everything back. *)
Lemma bar_info_run c df i :
  proper df -> 0 <= i < 6 -> Z.ldiff (writable df 4) COMMAND_ALL = 0 ->
  let orig := regs c df (bar_reg i) in
  let low := merge orig (writable df (bar_reg i)) 4294967295 in
  let wide := Z.land orig 7 =? 4 in
  let top := if wide then regs c df (bar_reg (i + 1)) else 0 in
  let high := if wide then merge top (writable df (bar_reg (i + 1))) 4294967295 else if low =? 0 then 0 else 4294967295 in
  (wide = true -> i < 5) ->
  exists c', bar_info df i c = Ret (bar_result orig top (Z.lor low (Z.shiftl high 32)), c') /\ same_regs c c'.
Proof.
  intros Hp Hi Hcmd orig low wide top high Hw. destruct (command_off_on c df true Hp Hcmd) as (Eg & Ho & Hd & Hl).
  assert (Hr4 : reg_ok 4) by (split; [lia|done]). pose proof (bar_reg_ok i Hi) as Hri. pose proof (regs_range c df (bar_reg i)) as Hor.
  unfold bar_info. rewrite Eg. cbn [obind]. set (co := Z.land _ COMMAND_ALL) in *. set (cd := Z.land co _) in *.
  assert (H1 : exists c1, (if cd =? co then Ret c else set_command df cd c) = Ret c1 /\ forall df' r', proper df' -> reg_ok r' ->
    regs c1 df' r' = if decide (df' = df /\ r' = 4) then (if cd =? co then regs c df 4 else merge (regs c df 4) (writable df 4) cd) else regs c df' r').
  { destruct (cd =? co); [|by apply write_at]. exists c. split; [done|]. intros df' r' _ _. case_decide as Hx; [by destruct Hx as [-> ->]|done]. }
  destruct H1 as (c1 & -> & R1). cbn [obind].
  assert (H4i : forall j, 0 <= j -> bar_reg j <> 4) by (unfold bar_reg; lia).
  destruct (probe_at c1 df i Hp Hi) as (c2 & -> & R2). cbn [obind].
  assert (E1 : regs c1 df (bar_reg i) = orig) by (rewrite R1 by done; rewrite decide_False by (intros [_ Hx]; by apply (H4i i ltac:(lia))); done).
  rewrite E1 in *. fold low in R2 |- *. fold wide. destruct (wide && (5 <=? i)) eqn:Ew.
  { apply andb_true_iff in Ew as [Ew E5]. bool_to_prop. specialize (Hw Ew). lia. }
  assert (H3 : exists c3, (if wide then
       do! (top, size_top, c) <- probe_bar df (u8 (i + 1)) c2;
       do! c <- write_word df (bar_offset (u8 (i + 1))) top c; Ret (top, size_top, c)
     else Ret (0, if low =? 0 then 0 else 4294967295, c2)) = Ret (top, high, c3) /\ same_regs c2 c3).
  { unfold top, high. destruct wide eqn:Ewide; [|by exists c2]. specialize (Hw eq_refl). unfold u8. rewrite Z.mod_small by lia.
    assert (Hi1 : 0 <= i + 1 < 6) by lia. pose proof (bar_reg_ok _ Hi1) as Hri1. rewrite bar_offset_reg by done.
    destruct (probe_at c2 df (i + 1) Hp Hi1) as (c3 & -> & R3). cbn [obind]. pose proof (regs_range c2 df (bar_reg (i + 1))) as Hrr.
    destruct (write_at c3 df (bar_reg (i + 1)) (regs c2 df (bar_reg (i + 1))) Hp Hri1 Hrr) as (c4 & -> & R4). cbn [obind].
    assert (E2 : regs c2 df (bar_reg (i + 1)) = regs c df (bar_reg (i + 1))).
    { rewrite R2 by done. rewrite decide_False by (unfold bar_reg; lia). rewrite R1 by done. by rewrite decide_False by (unfold bar_reg; lia). }
    exists c4. rewrite E2 in *. split; [done|]. intros df' r' Hp' Hr'. rewrite R4 by done. case_decide as Hx; [|rewrite R3 by done; by rewrite decide_False].
    destruct Hx as [-> ->]. rewrite R3 by done. rewrite decide_True by done. rewrite merge_restore; [done|done]. }
  destruct H3 as (c3 & -> & S3). cbn [obind]. rewrite bar_offset_reg by done.
  destruct (write_at c3 df (bar_reg i) orig Hp Hri Hor) as (c4 & -> & R4). cbn [obind].
  assert (R4' : forall df' r', proper df' -> reg_ok r' -> regs c4 df' r' = regs c1 df' r').
  { intros df' r' Hp' Hr'. rewrite R4 by done. case_decide as Hx; [destruct Hx as [-> ->]|]; rewrite !S3, R2 by done.
    - rewrite decide_True by done. rewrite E1. by apply merge_restore.
    - by rewrite decide_False. }
  assert (H5 : exists c5, (if cd =? co then Ret c4 else set_command df co c4) = Ret c5 /\ same_regs c c5).
  { destruct (cd =? co) eqn:Ec.
    - exists c4. split; [done|]. intros df' r' Hp' Hr'. rewrite R4', R1 by done. case_decide as Hx; [by destruct Hx as [-> ->]|done].
    - destruct (write_at c4 df 4 co Hp Hr4 Ho) as (c5 & E5 & R5). exists c5. split; [done|]. intros df' r' Hp' Hr'. rewrite R5 by done.
      case_decide as Hx; [destruct Hx as [-> ->]|]; rewrite R4', R1 by done; [|by rewrite decide_False]. rewrite decide_True by done. by apply merge_restore. }
  destruct H5 as (c5 & -> & S5). cbn [obind]. eauto.
Qed.
End bars.

(** ** The registers a device has *)

(** Nothing, an I/O or memory window of [2^k] bytes at an address, or the same over
    two registers. *)
Inductive bar_kind :=
| Unused
| IoBar (k addr : Z)
| Mem32 (below prefetch : bool) (k addr : Z)
| Mem64 (prefetch : bool) (k addr : Z).

Definition bar_flags (b : bar_kind) : Z :=
  match b with
  | Unused => 0
  | IoBar _ _ => 1
  | Mem32 below prefetch _ _ => (if below then 2 else 0) + (if prefetch then 8 else 0)
  | Mem64 prefetch _ _ => 4 + (if prefetch then 8 else 0)
  end.

Definition bar_answer (b : bar_kind) : option BarInfo :=
  match b with
  | Unused => None
  | IoBar k addr => Some (IO addr (2 ^ k))
  | Mem32 below prefetch k addr => Some (Memory (if below then Below1MiB else Width32) prefetch addr (2 ^ k))
  | Mem64 prefetch k addr => Some (Memory Width64 prefetch addr (2 ^ k))
  end.

Section bar_theorem.
Context `{ConfigSpace}.

(** Register [i] is of this kind: the window is aligned to its size, the address bits
    from [k] up are writable and the flags are not. *)
Definition has_bar (c : cfg) (df : DeviceFunction) (i : Z) (b : bar_kind) : Prop :=
  let v := regs c df (bar_reg i) in
  let w := writable df (bar_reg i) in
  match b with
  | Unused => v = 0 /\ w = 0
  | IoBar k addr => 2 <= k < 32 /\ 0 <= addr < 2 ^ 32 /\ addr mod 2 ^ k = 0 /\ v = Z.lor addr 1 /\ w = 2 ^ 32 - 2 ^ k
  | Mem32 _ _ k addr => 4 <= k < 32 /\ 0 <= addr < 2 ^ 32 /\ addr mod 2 ^ k = 0 /\ v = Z.lor addr (bar_flags b) /\ w = 2 ^ 32 - 2 ^ k
  | Mem64 _ k addr =>
      i < 5 /\ 4 <= k < 64 /\ 0 <= addr < 2 ^ 64 /\ addr mod 2 ^ k = 0 /\
      v = Z.lor (addr mod 2 ^ 32) (bar_flags b) /\ w = (2 ^ 64 - 2 ^ k) mod 2 ^ 32 /\
      regs c df (bar_reg (i + 1)) = addr / 2 ^ 32 /\ writable df (bar_reg (i + 1)) = (2 ^ 64 - 2 ^ k) / 2 ^ 32
  end.

Lemma mod_weaken a j k : 0 <= j <= k -> a mod 2 ^ k = 0 -> a mod 2 ^ j = 0.
Proof.
  intros Hj Ha. apply Z.mod_divide; [lia|]. apply Z.mod_divide in Ha; [|lia]. eapply Z.divide_trans; [|exact Ha].
  exists (2 ^ (k - j)). rewrite <- Z.pow_add_r by lia. f_equal. lia.
Qed.

(** The two halves of a wide register's writable bits and of its address. *)
Lemma wide_low k addr f :
  4 <= k < 64 -> 0 <= addr < 2 ^ 64 -> addr mod 2 ^ k = 0 -> 0 <= f < 16 ->
  merge (Z.lor (addr mod 2 ^ 32) f) ((2 ^ 64 - 2 ^ k) mod 2 ^ 32) 4294967295 = Z.lor f ((2 ^ 64 - 2 ^ k) mod 2 ^ 32) /\
  merge (addr / 2 ^ 32) ((2 ^ 64 - 2 ^ k) / 2 ^ 32) 4294967295 = (2 ^ 64 - 2 ^ k) / 2 ^ 32.
Proof.
  intros Hk Ha Hm Hf. destruct (Z.lt_ge_cases k 32) as [Hlt|Hge].
  - assert (2 ^ k < 2 ^ 32) by (apply Z.pow_lt_mono_r; lia). pose proof (Z.pow_pos_nonneg 2 k ltac:(lia) ltac:(lia)).
    assert ((2 ^ 64 - 2 ^ k) mod 2 ^ 32 = 2 ^ 32 - 2 ^ k) as E1 by (symmetry; apply (Z.mod_unique _ _ (2 ^ 32 - 1)); lia).
    assert ((2 ^ 64 - 2 ^ k) / 2 ^ 32 = 2 ^ 32 - 1) as E2 by (symmetry; apply (Z.div_unique _ _ _ (2 ^ 32 - 2 ^ k)); lia). rewrite E1, E2. split.
    + apply merge_ones; [lia|apply Z.mod_pos_bound; lia| |]; [|assert (2 ^ 4 <= 2 ^ k) by (apply Z.pow_le_mono_r; lia); lia].
      apply Z.mod_divide; [lia|]. apply Z.mod_divide in Hm; [|lia].
      rewrite Z.mod_eq by lia. apply Z.divide_sub_r; [done|]. apply Z.divide_mul_l. exists (2 ^ (32 - k)). rewrite <- Z.pow_add_r by lia. f_equal. lia.
    + pose proof (merge_ones 0 (addr / 2 ^ 32) 0 ltac:(lia)) as E. rewrite Z.lor_0_r, Z.lor_0_l in E. apply E; [|by rewrite Z.mod_1_r|lia].
      split; [apply Z.div_pos; lia|apply Z.div_lt_upper_bound; lia].
  - assert (2 ^ 32 <= 2 ^ k) by (apply Z.pow_le_mono_r; lia).
    replace (2 ^ 64 - 2 ^ k) with ((2 ^ 32 - 2 ^ (k - 32)) * 2 ^ 32) by (rewrite Z.mul_sub_distr_r, <- !Z.pow_add_r by lia; f_equal; f_equal; lia).
    rewrite Z.mod_mul, Z.div_mul by lia. split.
    + rewrite (mod_weaken addr 32 k) by (done || lia). unfold merge. by rewrite Z.ldiff_0_r, Z.land_0_r, Z.lor_0_l.
    + pose proof (merge_ones (k - 32) (addr / 2 ^ 32) 0 ltac:(lia)) as E. rewrite Z.lor_0_r, Z.lor_0_l in E. apply E.
      * split; [apply Z.div_pos; lia|apply Z.div_lt_upper_bound; lia].
      * apply Z.mod_divide in Hm as [q ->]; [|lia]. replace (q * 2 ^ k) with (q * 2 ^ (k - 32) * 2 ^ 32) by (rewrite <- Z.mul_assoc, <- Z.pow_add_r by lia; do 2 f_equal; lia).
        rewrite Z.div_mul by lia. apply Z.mod_mul. lia.
      * pose proof (Z.pow_pos_nonneg 2 (k - 32)). lia.
Qed.

(** The flag bits read from a register with an aligned address. *)
Lemma flags_read addr f m : addr mod 2 ^ 4 = 0 -> 0 <= m < 16 -> Z.land (Z.lor addr f) m = Z.land f m.
Proof. intros Ha Hm. by apply (land_flags 4). Qed.

Lemma sticky_nonzero f w top : 0 <= f -> 0 <= w -> 0 <= top -> f <> 0 \/ w <> 0 -> Z.lor (Z.lor f w) (Z.shiftl top 32) <> 0.
Proof. intros ? ? ? Hn E. apply Z.lor_eq_0_iff in E as [E _]. apply Z.lor_eq_0_iff in E. lia. Qed.

Lemma mem32_result below prefetch k addr :
  let b := Mem32 below prefetch k addr in
  4 <= k < 32 -> 0 <= addr < 2 ^ 32 -> addr mod 2 ^ k = 0 ->
  bar_result (Z.lor addr (bar_flags b)) 0 (Z.lor (Z.lor (bar_flags b) (2 ^ 32 - 2 ^ k)) (Z.shiftl 4294967295 32)) = inr (bar_answer b).
Proof.
  intros b Hk Ha Hm. assert (Hf : 0 <= bar_flags b < 16) by (unfold b; destruct below, prefetch; cbn; lia). pose proof (mod_weaken addr 4 k ltac:(lia) Hm) as H4.
  assert (2 ^ k < 2 ^ 32) by (apply Z.pow_lt_mono_r; lia).
  unfold bar_result. rewrite (proj2 (Z.eqb_neq _ 0)) by (apply sticky_nonzero; lia). rewrite (flags_read addr _ 1), (flags_read addr _ 6), (flags_read addr _ 8) by (done || lia).
  change 4294967280 with (2 ^ 32 - 2 ^ 4). rewrite land_address by (done || lia). rewrite Z.shiftl_0_l, Z.lor_0_r.
  replace (Z.land (bar_flags b) 1 =? 1) with false by (unfold b; by destruct below, prefetch). rewrite (proj1 bar_sizes) by done. unfold b. by destruct below, prefetch.
Qed.

Lemma io_result k addr :
  2 <= k < 32 -> 0 <= addr < 2 ^ 32 -> addr mod 2 ^ k = 0 ->
  bar_result (Z.lor addr 1) 0 (Z.lor (Z.lor 1 (2 ^ 32 - 2 ^ k)) (Z.shiftl 4294967295 32)) = inr (bar_answer (IoBar k addr)).
Proof.
  intros Hk Ha Hm. pose proof (mod_weaken addr 2 k ltac:(lia) Hm) as H2. assert (2 ^ k < 2 ^ 32) by (apply Z.pow_lt_mono_r; lia).
  unfold bar_result. rewrite (proj2 (Z.eqb_neq _ 0)) by (apply sticky_nonzero; lia). rewrite (land_flags 2) by (done || lia).
  change (Z.land 1 1 =? 1) with true. cbn beta iota zeta. rewrite (proj1 (proj2 bar_sizes)) by done.
  change 4294967292 with (2 ^ 32 - 2 ^ 2). by rewrite land_address by (done || lia).
Qed.

Lemma low_aligned k addr : 4 <= k -> addr mod 2 ^ k = 0 -> (addr mod 2 ^ 32) mod 2 ^ 4 = 0.
Proof.
  intros Hk Hm. pose proof (mod_weaken addr 4 k ltac:(lia) Hm) as H4. change (2 ^ 32) with (2 ^ 4 * 2 ^ 28).
  rewrite Z.rem_mul_r by lia. rewrite H4, Z.add_0_l, Z.mul_comm. by apply Z.mod_mul.
Qed.

Lemma mem64_result prefetch k addr :
  let b := Mem64 prefetch k addr in
  4 <= k < 64 -> 0 <= addr < 2 ^ 64 -> addr mod 2 ^ k = 0 ->
  bar_result (Z.lor (addr mod 2 ^ 32) (bar_flags b)) (addr / 2 ^ 32)
    (Z.lor (Z.lor (bar_flags b) ((2 ^ 64 - 2 ^ k) mod 2 ^ 32)) (Z.shiftl ((2 ^ 64 - 2 ^ k) / 2 ^ 32) 32)) = inr (bar_answer b).
Proof.
  intros b Hk Ha Hm. assert (Hf : 0 < bar_flags b < 16) by (unfold b; destruct prefetch; cbn; lia).
  pose proof (low_aligned k addr ltac:(lia) Hm) as H4.
  assert (2 ^ k < 2 ^ 64) by (apply Z.pow_lt_mono_r; lia). pose proof (Z.mod_pos_bound addr (2 ^ 32) ltac:(lia)) as Hl.
  pose proof (Z.mod_pos_bound (2 ^ 64 - 2 ^ k) (2 ^ 32) ltac:(lia)). pose proof (Z.div_pos (2 ^ 64 - 2 ^ k) (2 ^ 32) ltac:(lia) ltac:(lia)).
  unfold bar_result. rewrite (proj2 (Z.eqb_neq _ 0)) by (apply sticky_nonzero; lia). rewrite (flags_read _ _ 1), (flags_read _ _ 6), (flags_read _ _ 8) by (done || lia).
  change 4294967280 with (2 ^ 32 - 2 ^ 4). rewrite land_address by (done || lia).
  replace (Z.land (bar_flags b) 1 =? 1) with false by (unfold b; by destruct prefetch). rewrite (proj2 (proj2 bar_sizes)) by lia.
  replace (Z.lor (addr mod 2 ^ 32) (Z.shiftl (addr / 2 ^ 32) 32)) with addr; [unfold b; by destruct prefetch|].
  rewrite Z.lor_comm, lor_low by lia. pose proof (Z.div_mod addr (2 ^ 32)). lia.
Qed.

Lemma bar_info_reports c df i b :
  proper df -> 0 <= i < 6 -> Z.ldiff (writable df 4) COMMAND_ALL = 0 -> has_bar c df i b ->
  exists c', bar_info df i c = Ret (inr (bar_answer b), c') /\ same_regs c c'.
Proof.
  intros Hp Hi Hc Hb. pose proof (bar_info_run c df i Hp Hi Hc) as Hrun. cbv zeta in Hrun. destruct b as [|k addr|below prefetch k addr|prefetch k addr]; cbn [has_bar] in Hb.
  - destruct Hb as [Ev Ew]. rewrite Ev, Ew in Hrun. by apply Hrun.
  - destruct Hb as (Hk & Ha & Hm & Ev & Ew). pose proof (mod_weaken addr 2 k ltac:(lia) Hm) as H2. assert (2 ^ 2 <= 2 ^ k < 2 ^ 32) by (split; [apply Z.pow_le_mono_r|apply Z.pow_lt_mono_r]; lia).
    rewrite Ev, Ew, merge_ones in Hrun by (done || lia). rewrite <- (io_result k addr) by done.
    replace (Z.land (Z.lor addr 1) 7 =? 4) with false in Hrun by (symmetry; apply Z.eqb_neq; intros E; apply (f_equal (fun z => Z.testbit z 0)) in E; by rewrite Z.land_spec, Z.lor_spec, orb_true_r in E).
    rewrite (proj2 (Z.eqb_neq (Z.lor 1 _) 0)) in Hrun by (intros E; apply Z.lor_eq_0_iff in E; lia). by apply Hrun.
  - destruct Hb as (Hk & Ha & Hm & Ev & Ew). set (b := Mem32 below prefetch k addr) in *. assert (Hf : 0 <= bar_flags b < 16) by (unfold b; destruct below, prefetch; cbn; lia).
    pose proof (mod_weaken addr 4 k ltac:(lia) Hm) as H4. assert (2 ^ 4 <= 2 ^ k < 2 ^ 32) by (split; [apply Z.pow_le_mono_r|apply Z.pow_lt_mono_r]; lia).
    rewrite Ev, Ew, merge_ones, flags_read in Hrun by (done || lia). pose proof (mem32_result below prefetch k addr Hk Ha Hm) as Er. fold b in Er. rewrite <- Er.
    replace (Z.land (bar_flags b) 7 =? 4) with false in Hrun by (unfold b; by destruct below, prefetch).
    rewrite (proj2 (Z.eqb_neq (Z.lor _ _) 0)) in Hrun by (intros E; apply Z.lor_eq_0_iff in E; lia). by apply Hrun.
  - destruct Hb as (Hi5 & Hk & Ha & Hm & Ev & Ew & Et & Ewt). set (b := Mem64 prefetch k addr) in *.
    assert (Hf : 0 <= bar_flags b < 16) by (unfold b; destruct prefetch; cbn; lia). destruct (wide_low k addr (bar_flags b) Hk Ha Hm Hf) as [El Eh].
    rewrite Ev, Ew, Et, Ewt, El, flags_read in Hrun by ((apply (low_aligned k); lia) || lia). pose proof (mem64_result prefetch k addr Hk Ha Hm) as Er. fold b in Er. rewrite <- Er.
    replace (Z.land (bar_flags b) 7 =? 4) with true in Hrun by (unfold b; by destruct prefetch). rewrite Eh in Hrun. by apply Hrun.
Qed.

(** [bar_info] on a device with a proper base address register: for every kind of
    register, window size and aligned address, it reports exactly the address, the size
    and the attributes the device has, and it leaves every register of every function,
    the command register included, as it found it. *)
Theorem bar_info_exact c df i b :
  proper df -> 0 <= i < 6 -> Z.ldiff (writable df 4) COMMAND_ALL = 0 -> has_bar c df i b ->
  exists c', bar_info df i c = Ret (inr (bar_answer b), c') /\ same_regs c c'.
Proof. apply bar_info_reports. Qed.
End bar_theorem.

(** ** Capabilities *)

Section capability_walk.
Context `{ConfigSpace}.
Variables (c : cfg) (df : DeviceFunction).
Hypothesis df_proper : proper df.

(** The capability at an offset, and the offset it points to. *)
Definition cap_at (o : Z) : CapabilityInfo :=
  let w := regs c df o in mkCap o (u8 w) (u16 (Z.shiftr w 16)).
Definition cap_succ (o : Z) : option Z :=
  let n := u8 (Z.shiftr (regs c df o) 8) in
  if (64 <=? n) && (n mod 4 =? 0) then Some n else None.
Definition first_cap : option Z :=
  if Z.testbit (regs c df 4) 20 then Some (4 * (regs c df 52 mod 256 / 4)) else None.

(** The offsets of the list from [next] to its end. *)
Fixpoint follows (next : option Z) (l : list Z) : Prop :=
  match l with
  | [] => next = None
  | o :: l' => next = Some o /\ follows (cap_succ o) l'
  end.

Lemma follows_unique next l l' : follows next l -> follows next l' -> l = l'.
Proof.
  revert next l'. induction l as [|o l IH]; intros next [|o' l']; cbn; [done|by intros -> []|by intros [-> _]|].
  intros [-> Hl] [E Hl']. simplify_eq. f_equal. by eapply IH.
Qed.
Lemma follows_app next l o l' : follows next (l ++ o :: l') -> follows (Some o) (o :: l').
Proof. revert next. induction l as [|x l IH]; intros next; cbn; [by intros [-> ?]|]. intros [_ Hl]. by apply IH in Hl. Qed.
Lemma follows_NoDup next l : follows next l -> NoDup l.
Proof.
  revert next. induction l as [|o l IH]; intros next Hl; [constructor|]. constructor; [|by destruct Hl as [_ Hl]; apply IH in Hl].
  intros Ho. apply list_elem_of_split in Ho as (a & b & ->). pose proof (follows_app _ [] _ _ Hl) as H1. pose proof (follows_app _ (o :: a) _ _ Hl) as H2.
  pose proof (follows_unique _ _ _ H1 H2) as E. apply (f_equal length) in E. cbn in E. rewrite length_app in E. cbn in E. lia.
Qed.

Lemma cap_succ_ok o o' : cap_succ o = Some o' -> reg_ok o'.
Proof.
  unfold cap_succ. destruct (_ && _) eqn:E; [|done]. intros [= <-]. apply andb_true_iff in E as [_ E]. bool_to_prop. split; [|done].
  pose proof (Z.mod_pos_bound (Z.shiftr (regs c df o) 8) (2 ^ 8)). unfold u8. lia.
Qed.
Lemma first_cap_ok o : first_cap = Some o -> reg_ok o.
Proof. unfold first_cap. destruct (Z.testbit _ _); [|done]. intros [= <-]. pose proof (Z.mod_pos_bound (regs c df 52) 256). split; Z.div_mod_to_equations; lia. Qed.

Lemma follows_ok next l : (forall o, next = Some o -> reg_ok o) -> follows next l -> Forall reg_ok l.
Proof.
  revert next. induction l as [|o l IH]; intros next Hn Hl; [constructor|]. destruct Hl as [-> Hl]. constructor; [by apply Hn|].
  apply (IH (cap_succ o)); [apply cap_succ_ok|done].
Qed.

Lemma offsets_bounded l : NoDup l -> Forall reg_ok l -> (length l <= 64)%nat.
Proof.
  intros Hd Hok. change 64%nat with (length ((fun n => 4 * Z.of_nat n) <$> seq 0 64)). apply submseteq_length, NoDup_submseteq; [done|].
  intros o Ho. rewrite Forall_forall in Hok. destruct (Hok o Ho) as [Hr H4]. apply list_elem_of_fmap. exists (Z.to_nat (o / 4)).
  split; [Z.div_mod_to_equations; lia|]. apply elem_of_seq. Z.div_mod_to_equations; lia.
Qed.

(** The operations in those terms. *)
Lemma capabilities_offset_run : capabilities_offset df c = Ret first_cap.
Proof.
  unfold capabilities_offset, get_status_command, STATUS_COMMAND_OFFSET. rewrite regs_read by (done || by split). cbn [obind].
  assert (Hbit : (Z.land (Z.land (u16 (Z.shiftr (regs c df 4) 16)) STATUS_ALL) CAPABILITIES_LIST =? CAPABILITIES_LIST) = Z.testbit (regs c df 4) 20).
  { rewrite <- Z.land_assoc. change (Z.land STATUS_ALL CAPABILITIES_LIST) with (2 ^ 4). change CAPABILITIES_LIST with (2 ^ 4). rewrite land_pow2 by lia.
    unfold u16. rewrite Z.mod_pow2_bits_low, Z.shiftr_spec by lia. by destruct (Z.testbit _ _). }
  rewrite Hbit. unfold first_cap. destruct (Z.testbit _ _); [|done]. rewrite regs_read by (done || by split). cbn [obind]. do 2 f_equal.
  apply low_byte_aligned.
Qed.

Lemma cap_next_run o : reg_ok o -> cap_next df o c = Ret (cap_at o, cap_succ o).
Proof.
  intros Ho. unfold cap_next. rewrite regs_read by done. cbn [obind]. unfold cap_at, cap_succ. set (n := u8 (Z.shiftr _ 8)). do 2 f_equal.
  change 3 with (Z.ones 2). rewrite land_low by lia. change (2 ^ 2) with 4.
  destruct (n =? 0) eqn:E0; bool_to_prop; [by rewrite E0|]. rewrite Z.ltb_antisym. by destruct (64 <=? n), (n mod 4 =? 0).
Qed.

Lemma collect_caps_run fuel next :
  (forall o, next = Some o -> reg_ok o) ->
  (exists l, follows next l /\ (length l <= fuel)%nat /\ collect_caps fuel df next c = Ret (cap_at <$> l)) \/
  (collect_caps fuel df next c = OutOfFuel /\ forall l, follows next l -> (fuel < length l)%nat).
Proof.
  revert next. induction fuel as [|fuel IH]; intros [o|] Hn; cbn [collect_caps]; try (left; exists []; repeat split; cbn; lia).
  { right. split; [done|]. intros [|x l]; cbn; [done|lia]. }
  rewrite cap_next_run by by apply Hn. cbn [obind]. destruct (IH (cap_succ o) (cap_succ_ok o)) as [(l & Hl & Hlen & ->)|[-> Hl]]; cbn [obind].
  - left. exists (o :: l). cbn. repeat split; [done|lia].
  - right. split; [done|]. intros [|x l]; cbn; [done|]. intros [[= <-] Hx]. specialize (Hl l Hx). lia.
Qed.

(** C33: walking the capabilities.  Either the device's list ends, and then the walk
    with any fuel from sixty-four on returns exactly the capabilities on it, each
    once and in their order; or the list runs in a circle, and then no fuel is
    enough: the walk of the code never returns. *)
Theorem capabilities_walk :
  (exists l, follows first_cap l /\ NoDup l /\ forall fuel, (64 <= fuel)%nat -> capabilities fuel df c = Ret (cap_at <$> l)) \/
  ((forall l, ~ follows first_cap l) /\ forall fuel, capabilities fuel df c = OutOfFuel).
Proof.
  assert (Hlen : forall l, follows first_cap l -> (length l <= 64)%nat)
    by (intros l Hl; apply offsets_bounded; [by eapply follows_NoDup|by eapply follows_ok; [apply first_cap_ok|]]).
  unfold capabilities. rewrite capabilities_offset_run. cbn [obind]. destruct (collect_caps_run 64 first_cap first_cap_ok) as [(l & Hl & Hn & E)|[E Hno]].
  - left. exists l. split_and!; [done|by eapply follows_NoDup|]. intros fuel Hf.
    destruct (collect_caps_run fuel first_cap first_cap_ok) as [(l' & Hl' & _ & ->)|[_ Hno]]; [by rewrite (follows_unique _ _ _ Hl Hl')|]. specialize (Hno l Hl). lia.
  - right. split; [intros l Hl; specialize (Hno l Hl); specialize (Hlen l Hl); lia|]. intros fuel.
    destruct (collect_caps_run fuel first_cap first_cap_ok) as [(l & Hl & _)|[-> _]]; [|done]. specialize (Hno l Hl). specialize (Hlen l Hl). lia.
Qed.
End capability_walk.

(** ** Instances *)

(** A device as its registers and their writable bits. *)
Section device.
Variable mask : DeviceFunction -> Z -> Z.

Definition device_access : ConfigurationAccess := {|
  cfg := DeviceFunction -> Z -> Z;
  read_word df r c := Ret (u32 (c df r));
  write_word df r v c := Ret (fun df' r' => if decide (df' = df /\ r' = r) then merge (u32 (c df r)) (u32 (mask df r)) v else c df' r')
|}.

Lemma merge_range o m v : 0 <= o < 2 ^ 32 -> 0 <= m < 2 ^ 32 -> u32 (merge o m v) = merge o m v.
Proof.
  intros Ho Hm. unfold u32. rewrite <- Z.land_ones by lia. unfold merge. apply Z.bits_inj'. intros n Hn. rewrite Z.land_spec, !Z.lor_spec, Z.ldiff_spec, !Z.land_spec.
  rewrite Z.testbit_ones_nonneg by lia. destruct (n <? 32) eqn:E; bool_to_prop; [by rewrite andb_true_r|].
  by rewrite (testbit_small o 32 n), (testbit_small m 32 n), !andb_false_r by lia.
Qed.

#[export] Instance device_space : @ConfigSpace device_access.
Proof.
  refine {| regs := (fun (c : @cfg device_access) df r => u32 (c df r)); writable := fun df r => u32 (mask df r) |}.
  - intros. apply Z.mod_pos_bound. lia.
  - done.
  - intros c df r v Hp Hr Hv. eexists. split; [done|]. cbn beta. split.
    + rewrite decide_True by done. apply merge_range; apply Z.mod_pos_bound; lia.
    + intros df' r' Hp' Hr' Hne. by rewrite decide_False.
Defined.
End device.

(** A network device at [0:3.0] with a 16 KiB window above 4 GiB and two capabilities. *)
Module Card.
Definition df : DeviceFunction := mkDF 0 3 0.
Definition card_mask (d : DeviceFunction) (r : Z) : Z :=
  if decide (d = df) then
    if r =? 4 then 7 else if r =? 16 then (2 ^ 64 - 2 ^ 14) mod 2 ^ 32 else if r =? 20 then (2 ^ 64 - 2 ^ 14) / 2 ^ 32 else 0
  else 0.
Definition config : DeviceFunction -> Z -> Z := fun d r =>
  if decide (d = df) then
    if r =? 0 then 0x10411AF4 else if r =? 4 then 0x00100007 else if r =? 8 then 0x02000001
    else if r =? 16 then 0xC + 0x4000 else if r =? 20 then 0x80 else if r =? 52 then 64
    else if r =? 64 then 0x00015409 else if r =? 84 then 0x00020009 else 0
  else 4294967295.
End Card.

Lemma enumeration_exact_witness :
  @enumerate_bus (device_access Card.card_mask) 0 Card.config =
    Ret [(Card.df, {| vendor_id := 0x1AF4; device_id := 0x1041; class := 2; subclass := 0; prog_if := 0; revision := 1; header_type := Standard |})].
Proof.
  pose proof (@enumeration_exact _ (device_space Card.card_mask) 0 Card.config ltac:(lia)) as E. rewrite E. vm_compute. reflexivity.
Defined.

Lemma bar_info_exact_witness :
  exists c', @bar_info (device_access Card.card_mask) Card.df 0 Card.config = Ret (inr (Some (Memory Width64 true 0x8000004000 16384)), c') /\
    @same_regs _ (device_space Card.card_mask) Card.config c'.
Proof.
  apply (@bar_info_exact _ (device_space Card.card_mask) Card.config Card.df 0 (Mem64 true 14 0x8000004000)).
  - constructor; cbn; lia.
  - lia.
  - reflexivity.
  - unfold has_bar. split_and!; (reflexivity || lia).
Defined.

Lemma capabilities_walk_witness :
  @capabilities (device_access Card.card_mask) 64 Card.df Card.config = Ret [mkCap 64 9 1; mkCap 84 9 2].
Proof.
  destruct (@capabilities_walk _ (device_space Card.card_mask) Card.config Card.df) as [(l & Hl & _ & E)|[Hno _]].
  - constructor; cbn; lia.
  - assert (l = [64; 84]) as -> by (eapply follows_unique; [exact Hl|]; vm_compute; done). rewrite E by lia. reflexivity.
  - destruct (Hno [64; 84]). vm_compute. done.
Defined.
