(* ===== verification/Transport.v ===== *)
(** * Virtio transports ([src/virtio-drivers-patched/src/transport/mod.rs],
      [pci.rs], [mmio.rs])

    The trait [Transport] is a class; its default methods, the handshake with the
    device, are written against it.  The PCI transport and the memory-mapped one, in
    both of its versions, are its instances.  A device's registers are the class
    [Mmio]: an access has a width and an address, and a read may change the device. *)

From S2P Require Import Prelude Virtq Net Pci.

(** ** Types of devices *)

Inductive DeviceType :=
| Network | Block | Console | EntropySource | MemoryBallooning | IoMemory | Rpmsg | ScsiHost | P9
| Mac80211 | RprocSerial | VirtioCAIF | MemoryBalloon | GPU | Timer | Input | DSocket | Crypto
| SignalDistributionModule | Pstore | IOMMU | DMemory | Sound.
#[export] Instance DeviceType_eq_dec : EqDecision DeviceType.
Proof. solve_decision. Defined.

(** [TryFrom<u32>]. *)
Definition device_type_try_from (virtio_device_id : Z) : option DeviceType :=
  match virtio_device_id with
  | 1 => Some Network | 2 => Some Block | 3 => Some Console | 4 => Some EntropySource
  | 5 => Some MemoryBalloon | 6 => Some IoMemory | 7 => Some Rpmsg | 8 => Some ScsiHost | 9 => Some P9
  | 10 => Some Mac80211 | 11 => Some RprocSerial | 12 => Some VirtioCAIF | 13 => Some MemoryBalloon
  | 16 => Some GPU | 17 => Some Timer | 18 => Some Input | 19 => Some DSocket | 20 => Some Crypto
  | 21 => Some SignalDistributionModule | 22 => Some Pstore | 23 => Some IOMMU | 24 => Some DMemory
  | 25 => Some Sound
  | _ => None
  end.

(** [DeviceStatus]. *)
Notation ACKNOWLEDGE := 1.
Notation DRIVER := 2.
Notation DRIVER_OK := 4.
Notation FEATURES_OK := 8.
(** The bits [from_bits_truncate] keeps. *)
Notation STATUS_BITS := 207.
Notation INTERRUPT_BITS := 3.

(** ** The trait *)

(** [tr] is the transport together with the device behind it.  A value read from or
    written to configuration space has a size and an alignment. *)
Class Transport := {
  tr : Type;
  device_type : tr -> DeviceType;
  read_device_features : tr -> Z * tr;
  write_driver_features : Z -> tr -> tr;
  max_queue_size : Z -> tr -> Z * tr;
  notify : Z -> tr -> outcome tr;
  get_status : tr -> Z * tr;
  set_status : Z -> tr -> tr;
  set_guest_page_size : Z -> tr -> tr;
  requires_legacy_layout : tr -> bool;
  queue_set : Z -> Z -> Z -> Z -> Z -> tr -> outcome tr;
  queue_unset : nat -> Z -> tr -> outcome tr;
  queue_used : Z -> tr -> bool * tr;
  ack_interrupt : tr -> Z * tr;
  read_config_generation : tr -> Z * tr;
  read_config_space : Z -> Z -> Z -> tr -> outcome (Result Z * tr);
  write_config_space : Z -> Z -> Z -> Z -> tr -> outcome (Result unit * tr)
}.

(** The flags [Features] of the network device has. *)
Notation NET_FEATURES := 0x130ffffef.

Section defaults.
Context `{Transport}.

(** [known] is the set of flags the driver's feature type has. *)
Definition begin_init (known supported_features : Z) (t : tr) : Z * tr :=
  let t := set_status 0 t in
  let t := set_status (Z.lor ACKNOWLEDGE DRIVER) t in
  let '(device_feature_bits, t) := read_device_features t in
  let device_features := Z.land device_feature_bits known in
  let negotiated_features := Z.land device_features supported_features in
  let t := write_driver_features negotiated_features t in
  let t := set_status (Z.lor (Z.lor ACKNOWLEDGE DRIVER) FEATURES_OK) t in
  let t := set_guest_page_size (u32 PAGE_SIZE) t in
  (negotiated_features, t).

Definition finish_init (t : tr) : tr :=
  set_status (Z.lor (Z.lor (Z.lor ACKNOWLEDGE DRIVER) FEATURES_OK) DRIVER_OK) t.

(** The reads [f] between two equal generations. *)
Fixpoint read_consistent {A} (fuel : nat) (f : tr -> outcome (A * tr)) (t : tr) : outcome (A * tr) :=
  match fuel with
  | O => OutOfFuel
  | S fuel' =>
      let '(before, t) := read_config_generation t in
      do! (result, t) <- f t;
      let '(after, t) := read_config_generation t in
      if before =? after then Ret (result, t) else read_consistent fuel' f t
  end.

(** [VirtQueue::new] over a transport. *)
Definition make_queue `{Hal} (SIZE idx : Z) (indirect event_idx : bool) (log : list hal_event) (t : tr) : outcome (Result VirtQueue * tr) :=
  let '(used, t) := queue_used idx t in
  let '(max, t) := if used then (0, t) else max_queue_size idx t in
  do! r <- Virtq.new SIZE (mkTransport used max (requires_legacy_layout t)) idx indirect event_idx log;
  match r with
  | Err e => Ret (Err e, t)
  | Ok (q, set) =>
      do! t <- queue_set (qs_idx set) (qs_size set) (qs_descriptors set) (qs_driver_area set) (qs_device_area set) t;
      Ret (Ok q, t)
  end.

(** [VirtIONetRaw::new]: the address is at the start of the configuration, the status
    after it. *)
Definition net_bring_up `{Hal} (fuel : nat) (QUEUE_SIZE : Z) (t : tr) : outcome (Result VirtIONetRaw * tr) :=
  let '(negotiated_features, t) := begin_init NET_FEATURES SUPPORTED_FEATURES t in
  do! (mac, t) <- read_consistent fuel (read_config_space 6 1 0) t;
  match mac with
  | Err e => Ret (Err e, t)
  | Ok mac =>
      do! (status, t) <- read_config_space 2 2 6 t;
      match status with
      | Err e => Ret (Err e, t)
      | Ok _ =>
          let ind := contains negotiated_features F_RING_INDIRECT_DESC in
          let ev := contains negotiated_features F_RING_EVENT_IDX in
          do! (tx, t) <- make_queue QUEUE_SIZE QUEUE_TRANSMIT ind ev [] t;
          match tx with
          | Err e => Ret (Err e, t)
          | Ok tx =>
              do! (rx, t) <- make_queue QUEUE_SIZE QUEUE_RECEIVE ind ev (hal_log tx) t;
              match rx with
              | Err e => Ret (Err e, t)
              | Ok rx =>
                  let t := finish_init t in
                  Ret (Ok (mkRaw (le_bytes 6 mac) rx tx (negb (contains negotiated_features F_VERSION_1)
                                                         && negb (contains negotiated_features F_MRG_RXBUF)) []), t)
              end
          end
      end
  end.
End defaults.

(** ** Registers *)

Class Mmio := {
  dev : Type;
  rd : Z -> Z -> dev -> Z * dev;
  wr : Z -> Z -> Z -> dev -> dev
}.

(** ** The PCI transport *)

Notation VIRTIO_VENDOR_ID := 0x1af4.
Notation PCI_DEVICE_ID_OFFSET := 0x1040.

Definition pci_device_type (pci_device_id : Z) : option DeviceType :=
  match pci_device_id with
  | 0x1000 => Some Network | 0x1001 => Some Block | 0x1002 => Some MemoryBalloon | 0x1003 => Some Console
  | 0x1004 => Some ScsiHost | 0x1005 => Some EntropySource | 0x1009 => Some P9
  | id => if PCI_DEVICE_ID_OFFSET <=? id then device_type_try_from (id - PCI_DEVICE_ID_OFFSET) else None
  end.

Definition virtio_device_type (info : DeviceFunctionInfo) : option DeviceType :=
  if vendor_id info =? VIRTIO_VENDOR_ID then pci_device_type (Pci.device_id info) else None.

(** The layout of [virtio_pci_common_cfg]. *)
Inductive CommonCfg :=
| device_feature_select | device_feature | driver_feature_select | driver_feature | msix_config | num_queues
| device_status | config_generation | queue_select | queue_size | queue_msix_vector | queue_enable
| queue_notify_off | queue_desc | queue_driver | queue_device.
Definition field_offset (f : CommonCfg) : Z :=
  match f with
  | device_feature_select => 0 | device_feature => 4 | driver_feature_select => 8 | driver_feature => 12
  | msix_config => 16 | num_queues => 18 | device_status => 20 | config_generation => 21 | queue_select => 22
  | queue_size => 24 | queue_msix_vector => 26 | queue_enable => 28 | queue_notify_off => 30
  | queue_desc => 32 | queue_driver => 40 | queue_device => 48
  end.
Definition field_size (f : CommonCfg) : Z :=
  match f with
  | device_feature_select | device_feature | driver_feature_select | driver_feature => 4
  | device_status | config_generation => 1
  | queue_desc | queue_driver | queue_device => 8
  | _ => 2
  end.

Record VirtioCapabilityInfo := mkCapInfo { ci_bar : Z; ci_offset : Z; ci_length : Z }.

Inductive VirtioPciError :=
| InvalidDeviceId (id : Z) | InvalidVendorId (id : Z) | MissingCommonConfig | MissingNotifyConfig
| InvalidNotifyOffMultiplier (m : Z) | MissingIsrConfig | UnexpectedIoBar | BarNotAllocated (bar : Z)
| BarOffsetOutOfRange | Misaligned (address alignment : Z) | PciErr (e : PciError).

(** A slice is its address and its number of elements. *)
Record PciTransport := mkPciTransport {
  pt_device_type : DeviceType;
  device_function : DeviceFunction;
  common_cfg : Z;
  notify_region : Z * Z;
  notify_off_multiplier : Z;
  isr_status : Z;
  config_space : option (Z * Z)
}.

Section new.
Context `{ConfigurationAccess}.
(** [H::mmio_phys_to_virt] *)
Variable mmio_phys_to_virt : Z -> Z -> Z.

Local Abbreviation result A := ((VirtioPciError + A) * cfg)%type.

(** [size] and [align] are those of [T]. *)
Definition get_bar_region (size align : Z) (df : DeviceFunction) (info : VirtioCapabilityInfo) (c : cfg) : outcome (result Z) :=
  do! (r, c) <- bar_info df (ci_bar info) c;
  match r with
  | inl e => Ret (inl (PciErr e), c)
  | inr None => Ret (inl (BarNotAllocated (ci_bar info)), c)
  | inr (Some bar_info) =>
      match memory_address_size bar_info with
      | None => Ret (inl UnexpectedIoBar, c)
      | Some (bar_address, bar_size) =>
          if bar_address =? 0 then Ret (inl (BarNotAllocated (ci_bar info)), c)
          else if (bar_size <? u32 (ci_offset info + ci_length info)) || (ci_length info <? size) then
            Ret (inl BarOffsetOutOfRange, c)
          else
            let paddr := u64 (bar_address + ci_offset info) in
            let vaddr := mmio_phys_to_virt paddr (ci_length info) in
            if negb (vaddr mod align =? 0) then Ret (inl (Misaligned vaddr align), c)
            else Ret (inr vaddr, c)
      end
  end.

Definition get_bar_region_slice (size align : Z) (df : DeviceFunction) (info : VirtioCapabilityInfo) (c : cfg) : outcome (result (Z * Z)) :=
  do! (r, c) <- get_bar_region size align df info c;
  match r with
  | inl e => Ret (inl e, c)
  | inr p => Ret (inr (p, ci_length info / size), c)
  end.

(** What the loop of [new] over the capabilities finds. *)
Record Found := mkFound {
  f_common : option VirtioCapabilityInfo;
  f_notify : option VirtioCapabilityInfo;
  f_multiplier : Z;
  f_isr : option VirtioCapabilityInfo;
  f_device : option VirtioCapabilityInfo
}.

Definition find_capability (df : DeviceFunction) (cap : CapabilityInfo) (f : Found) (c : cfg) : outcome Found :=
  if negb (Pci.id cap =? PCI_CAP_ID_VNDR) then Ret f
  else
    let cap_len := u8 (private_header cap) in
    let cfg_type := u8 (Z.shiftr (private_header cap) 8) in
    if cap_len <? 16 then Ret f
    else
      do! bar <- read_word df (u8 (Pci.offset cap + 4)) c;
      do! off <- read_word df (u8 (Pci.offset cap + 8)) c;
      do! len <- read_word df (u8 (Pci.offset cap + 12)) c;
      let info := Some (mkCapInfo (u8 bar) off len) in
      if (cfg_type =? 1) && bool_decide (f_common f = None) then
        Ret (mkFound info (f_notify f) (f_multiplier f) (f_isr f) (f_device f))
      else if (cfg_type =? 2) && (20 <=? cap_len) && bool_decide (f_notify f = None) then
        do! m <- read_word df (u8 (Pci.offset cap + 16)) c;
        Ret (mkFound (f_common f) info m (f_isr f) (f_device f))
      else if (cfg_type =? 3) && bool_decide (f_isr f = None) then
        Ret (mkFound (f_common f) (f_notify f) (f_multiplier f) info (f_device f))
      else if (cfg_type =? 4) && bool_decide (f_device f = None) then
        Ret (mkFound (f_common f) (f_notify f) (f_multiplier f) (f_isr f) info)
      else Ret f.

(** The loop of [new]: the iterator and the body take turns. *)
Fixpoint find_capabilities (fuel : nat) (df : DeviceFunction) (next : option Z) (f : Found) (c : cfg) : outcome Found :=
  match next with
  | None => Ret f
  | Some o =>
      match fuel with
      | O => OutOfFuel
      | S fuel' =>
          do! (cap, next) <- cap_next df o c;
          do! f <- find_capability df cap f c;
          find_capabilities fuel' df next f c
      end
  end.

Definition or_missing {A B} (o : option A) (e : VirtioPciError) (c : cfg) (k : A -> outcome (result B)) : outcome (result B) :=
  match o with None => Ret (inl e, c) | Some a => k a end.
(** [?] *)
Definition try {A B} (r : outcome (result A)) (k : A -> cfg -> outcome (result B)) : outcome (result B) :=
  do! (r, c) <- r; match r with inl e => Ret (inl e, c) | inr a => k a c end.

Definition pci_new (fuel : nat) (df : DeviceFunction) (c : cfg) : outcome (result PciTransport) :=
  do! device_vendor <- read_word df 0 c;
  let device_id := u16 (Z.shiftr device_vendor 16) in
  let vendor_id := u16 device_vendor in
  if negb (vendor_id =? VIRTIO_VENDOR_ID) then Ret (inl (InvalidVendorId vendor_id), c)
  else
    or_missing (pci_device_type device_id) (InvalidDeviceId device_id) c (fun device_type =>
    do! first <- capabilities_offset df c;
    do! f <- find_capabilities fuel df first (mkFound None None 0 None None) c;
    or_missing (f_common f) MissingCommonConfig c (fun common =>
    try (get_bar_region 56 8 df common c) (fun common_cfg c =>
    or_missing (f_notify f) MissingNotifyConfig c (fun notify =>
    if negb (f_multiplier f mod 2 =? 0) then Ret (inl (InvalidNotifyOffMultiplier (f_multiplier f)), c)
    else
      try (get_bar_region_slice 2 2 df notify c) (fun notify_region c =>
      or_missing (f_isr f) MissingIsrConfig c (fun isr =>
      try (get_bar_region 1 1 df isr c) (fun isr_status c =>
      match f_device f with
      | None => Ret (inr (mkPciTransport device_type df common_cfg notify_region (f_multiplier f) isr_status None), c)
      | Some device =>
          try (get_bar_region_slice 4 4 df device c) (fun config c =>
          Ret (inr (mkPciTransport device_type df common_cfg notify_region (f_multiplier f) isr_status (Some config)), c))
      end))))))).
End new.

Section pci.
Context `{Mmio}.

Definition fread (f : CommonCfg) (s : PciTransport * dev) : Z * (PciTransport * dev) :=
  let '(v, d) := rd (field_size f) (common_cfg s.1 + field_offset f) s.2 in (v, (s.1, d)).
Definition fwrite (f : CommonCfg) (v : Z) (s : PciTransport * dev) : PciTransport * dev :=
  (s.1, wr (field_size f) (common_cfg s.1 + field_offset f) v s.2).

Definition pci_read_device_features (s : PciTransport * dev) : Z * (PciTransport * dev) :=
  let s := fwrite device_feature_select 0 s in
  let '(low, s) := fread device_feature s in
  let s := fwrite device_feature_select 1 s in
  let '(high, s) := fread device_feature s in
  (Z.lor low (Z.shiftl high 32), s).

Definition pci_write_driver_features (driver_features : Z) (s : PciTransport * dev) : PciTransport * dev :=
  let s := fwrite driver_feature_select 0 s in
  let s := fwrite driver_feature (u32 driver_features) s in
  let s := fwrite driver_feature_select 1 s in
  fwrite driver_feature (u32 (Z.shiftr driver_features 32)) s.

Definition pci_max_queue_size (queue : Z) (s : PciTransport * dev) : Z * (PciTransport * dev) :=
  fread queue_size (fwrite queue_select queue s).

Definition pci_notify (queue : Z) (s : PciTransport * dev) : outcome (PciTransport * dev) :=
  let s := fwrite queue_select queue s in
  let '(off, s) := fread queue_notify_off s in
  let offset_bytes := u64 (off * notify_off_multiplier s.1) in
  let index := offset_bytes / 2 in
  if index <? (notify_region s.1).2 then Ret (s.1, wr 2 ((notify_region s.1).1 + 2 * index) queue s.2) else Panic.

Definition pci_get_status (s : PciTransport * dev) : Z * (PciTransport * dev) :=
  let '(status, s) := fread device_status s in (Z.land status STATUS_BITS, s).
Definition pci_set_status (status : Z) (s : PciTransport * dev) : PciTransport * dev := fwrite device_status (u8 status) s.

Definition pci_queue_set (queue size descriptors driver_area device_area : Z) (s : PciTransport * dev) : PciTransport * dev :=
  let s := fwrite queue_select queue s in
  let s := fwrite queue_size (u16 size) s in
  let s := fwrite queue_desc descriptors s in
  let s := fwrite queue_driver driver_area s in
  let s := fwrite queue_device device_area s in
  fwrite queue_enable 1 s.

Definition pci_queue_used (queue : Z) (s : PciTransport * dev) : bool * (PciTransport * dev) :=
  let '(v, s) := fread queue_enable (fwrite queue_select queue s) in (v =? 1, s).

Definition pci_ack_interrupt (s : PciTransport * dev) : Z * (PciTransport * dev) :=
  let '(v, d) := rd 1 (isr_status s.1) s.2 in (v, (s.1, d)).

Definition pci_read_config_space (size align offset : Z) (s : PciTransport * dev) : outcome (Result Z * (PciTransport * dev)) :=
  do! _ <- assert (align <=? 4);
  do! _ <- assert (offset mod align =? 0);
  match config_space s.1 with
  | None => Ret (Err ConfigSpaceMissing, s)
  | Some (p, len) =>
      if len * 4 <? u64 (offset + size) then Ret (Err ConfigSpaceTooSmall, s)
      else let '(v, d) := rd size (p + offset) s.2 in Ret (Ok v, (s.1, d))
  end.
Definition pci_write_config_space (size align offset value : Z) (s : PciTransport * dev) : outcome (Result unit * (PciTransport * dev)) :=
  do! _ <- assert (align <=? 4);
  do! _ <- assert (offset mod align =? 0);
  match config_space s.1 with
  | None => Ret (Err ConfigSpaceMissing, s)
  | Some (p, len) =>
      if len * 4 <? u64 (offset + size) then Ret (Err ConfigSpaceTooSmall, s)
      else Ret (Ok tt, (s.1, wr size (p + offset) value s.2))
  end.

#[export] Instance pci_transport : Transport := {|
  tr := PciTransport * dev;
  device_type s := pt_device_type s.1;
  read_device_features := pci_read_device_features;
  write_driver_features := pci_write_driver_features;
  max_queue_size := pci_max_queue_size;
  notify := pci_notify;
  get_status := pci_get_status;
  set_status := pci_set_status;
  set_guest_page_size _ s := s;
  requires_legacy_layout _ := false;
  queue_set q size a b c s := Ret (pci_queue_set q size a b c s);
  queue_unset _ _ s := Ret s;
  queue_used := pci_queue_used;
  ack_interrupt := pci_ack_interrupt;
  read_config_generation := fread config_generation;
  read_config_space := pci_read_config_space;
  write_config_space := pci_write_config_space
|}.

(** [Drop]: the device is reset, and waited for. *)
Fixpoint pci_wait_reset (fuel : nat) (s : PciTransport * dev) : outcome (PciTransport * dev) :=
  match fuel with
  | O => OutOfFuel
  | S fuel' => let '(status, s) := pci_get_status s in if status =? 0 then Ret s else pci_wait_reset fuel' s
  end.
Definition pci_drop (fuel : nat) (s : PciTransport * dev) : outcome (PciTransport * dev) :=
  pci_wait_reset fuel (pci_set_status 0 s).
End pci.

(** ** The memory-mapped transport *)

Inductive MmioVersion := MLegacy | MModern.
Inductive MmioError := BadMagic (v : Z) | UnsupportedVersion (v : Z) | InvalidDeviceID (id : Z) | MmioRegionTooSmall.
Definition mmio_version_try_from (version : Z) : MmioError + MmioVersion :=
  match version with 1 => inr MLegacy | 2 => inr MModern | v => inl (UnsupportedVersion v) end.

(** The registers of [VirtIOHeader]; all are of four bytes. *)
Inductive VirtIOHeader :=
| h_magic | h_version | h_device_id | h_vendor_id | h_device_features | h_device_features_sel | h_driver_features
| h_driver_features_sel | h_legacy_guest_page_size | h_queue_sel | h_queue_num_max | h_queue_num
| h_legacy_queue_align | h_legacy_queue_pfn | h_queue_ready | h_queue_notify | h_interrupt_status | h_interrupt_ack
| h_status | h_queue_desc_low | h_queue_desc_high | h_queue_driver_low | h_queue_driver_high | h_queue_device_low
| h_queue_device_high | h_config_generation.
Definition header_offset (f : VirtIOHeader) : Z :=
  match f with
  | h_magic => 0x0 | h_version => 0x4 | h_device_id => 0x8 | h_vendor_id => 0xc | h_device_features => 0x10
  | h_device_features_sel => 0x14 | h_driver_features => 0x20 | h_driver_features_sel => 0x24
  | h_legacy_guest_page_size => 0x28 | h_queue_sel => 0x30 | h_queue_num_max => 0x34 | h_queue_num => 0x38
  | h_legacy_queue_align => 0x3c | h_legacy_queue_pfn => 0x40 | h_queue_ready => 0x44 | h_queue_notify => 0x50
  | h_interrupt_status => 0x60 | h_interrupt_ack => 0x64 | h_status => 0x70 | h_queue_desc_low => 0x80
  | h_queue_desc_high => 0x84 | h_queue_driver_low => 0x90 | h_queue_driver_high => 0x94 | h_queue_device_low => 0xa0
  | h_queue_device_high => 0xa4 | h_config_generation => 0xfc
  end.

(** [config_space] is a slice of bytes. *)
Record MmioTransport := mkMmioTransport {
  header : Z;
  m_config_space : Z * Z;
  version : MmioVersion;
  mt_device_type : DeviceType
}.

Section mmio.
Context `{Mmio}.

Definition hread_at (header : Z) (f : VirtIOHeader) (d : dev) : Z * dev := rd 4 (header + header_offset f) d.

Definition new_from_unique (header : Z) (config_space : Z * Z) (d : dev) : (MmioError + MmioTransport) * dev :=
  let '(magic, d) := hread_at header h_magic d in
  if negb (magic =? 0x74726976) then (inl (BadMagic magic), d)
  else
    let '(device_id, d) := hread_at header h_device_id d in
    match device_type_try_from device_id with
    | None => (inl (InvalidDeviceID device_id), d)
    | Some device_type =>
        let '(version, d) := hread_at header h_version d in
        match mmio_version_try_from version with
        | inl e => (inl e, d)
        | inr version => (inr (mkMmioTransport header config_space version device_type), d)
        end
    end.

Definition mmio_new (header mmio_size : Z) (d : dev) : (MmioError + MmioTransport) * dev :=
  if mmio_size <? 0x100 then (inl MmioRegionTooSmall, d)
  else new_from_unique header (header + 0x100, mmio_size - 0x100) d.

Definition hread (f : VirtIOHeader) (s : MmioTransport * dev) : Z * (MmioTransport * dev) :=
  let '(v, d) := hread_at (header s.1) f s.2 in (v, (s.1, d)).
Definition hwrite (f : VirtIOHeader) (v : Z) (s : MmioTransport * dev) : MmioTransport * dev :=
  (s.1, wr 4 (header s.1 + header_offset f) v s.2).

Definition mmio_read_device_features (s : MmioTransport * dev) : Z * (MmioTransport * dev) :=
  let s := hwrite h_device_features_sel 0 s in
  let '(low, s) := hread h_device_features s in
  let s := hwrite h_device_features_sel 1 s in
  let '(high, s) := hread h_device_features s in
  (u64 (low + Z.shiftl high 32), s).

Definition mmio_write_driver_features (driver_features : Z) (s : MmioTransport * dev) : MmioTransport * dev :=
  let s := hwrite h_driver_features_sel 0 s in
  let s := hwrite h_driver_features (u32 driver_features) s in
  let s := hwrite h_driver_features_sel 1 s in
  hwrite h_driver_features (u32 (Z.shiftr driver_features 32)) s.

Definition mmio_max_queue_size (queue : Z) (s : MmioTransport * dev) : Z * (MmioTransport * dev) :=
  hread h_queue_num_max (hwrite h_queue_sel queue s).

Definition mmio_set_guest_page_size (size : Z) (s : MmioTransport * dev) : MmioTransport * dev :=
  match version s.1 with MLegacy => hwrite h_legacy_guest_page_size size s | MModern => s end.

Definition mmio_queue_set (queue size descriptors driver_area device_area : Z) (s : MmioTransport * dev) : outcome (MmioTransport * dev) :=
  match version s.1 with
  | MLegacy =>
      do! _ <- assert (u64 (driver_area - descriptors) =? u64 (16 * size));
      do! _ <- assert (u64 (device_area - descriptors) =? align_up (u64 (16 * size + 2 * (size + 3))));
      let pfn := descriptors / PAGE_SIZE in
      do! _ <- assert (pfn <? 2 ^ 32);
      do! _ <- assert (pfn * PAGE_SIZE =? descriptors);
      let s := hwrite h_queue_sel queue s in
      let s := hwrite h_queue_num size s in
      let s := hwrite h_legacy_queue_align PAGE_SIZE s in
      Ret (hwrite h_legacy_queue_pfn pfn s)
  | MModern =>
      let s := hwrite h_queue_sel queue s in
      let s := hwrite h_queue_num size s in
      let s := hwrite h_queue_desc_low (u32 descriptors) s in
      let s := hwrite h_queue_desc_high (u32 (Z.shiftr descriptors 32)) s in
      let s := hwrite h_queue_driver_low (u32 driver_area) s in
      let s := hwrite h_queue_driver_high (u32 (Z.shiftr driver_area 32)) s in
      let s := hwrite h_queue_device_low (u32 device_area) s in
      let s := hwrite h_queue_device_high (u32 (Z.shiftr device_area 32)) s in
      Ret (hwrite h_queue_ready 1 s)
  end.

(** The wait for the device in [queue_unset]. *)
Fixpoint mmio_wait_unready (fuel : nat) (s : MmioTransport * dev) : outcome (MmioTransport * dev) :=
  match fuel with
  | O => OutOfFuel
  | S fuel' => let '(v, s) := hread h_queue_ready s in if v =? 0 then Ret s else mmio_wait_unready fuel' s
  end.
Definition mmio_queue_unset (fuel : nat) (queue : Z) (s : MmioTransport * dev) : outcome (MmioTransport * dev) :=
  let s := hwrite h_queue_sel queue s in
  match version s.1 with
  | MLegacy => Ret (hwrite h_legacy_queue_pfn 0 (hwrite h_legacy_queue_align 0 (hwrite h_queue_num 0 s)))
  | MModern =>
      do! s <- mmio_wait_unready fuel (hwrite h_queue_ready 0 s);
      let s := hwrite h_queue_num 0 s in
      let s := hwrite h_queue_desc_low 0 s in
      let s := hwrite h_queue_desc_high 0 s in
      let s := hwrite h_queue_driver_low 0 s in
      let s := hwrite h_queue_driver_high 0 s in
      let s := hwrite h_queue_device_low 0 s in
      Ret (hwrite h_queue_device_high 0 s)
  end.

Definition mmio_queue_used (queue : Z) (s : MmioTransport * dev) : bool * (MmioTransport * dev) :=
  let s := hwrite h_queue_sel queue s in
  let '(v, s) := match version s.1 with MLegacy => hread h_legacy_queue_pfn s | MModern => hread h_queue_ready s end in
  (negb (v =? 0), s).

Definition mmio_ack_interrupt (s : MmioTransport * dev) : Z * (MmioTransport * dev) :=
  let '(interrupt, s) := hread h_interrupt_status s in
  if negb (interrupt =? 0) then (Z.land interrupt INTERRUPT_BITS, hwrite h_interrupt_ack interrupt s) else (0, s).

Definition mmio_read_config_space (size align offset : Z) (s : MmioTransport * dev) : outcome (Result Z * (MmioTransport * dev)) :=
  do! _ <- assert (align <=? 4);
  do! _ <- assert (offset mod align =? 0);
  if (m_config_space s.1).2 <? u64 (offset + size) then Ret (Err ConfigSpaceTooSmall, s)
  else let '(v, d) := rd size ((m_config_space s.1).1 + offset) s.2 in Ret (Ok v, (s.1, d)).
Definition mmio_write_config_space (size align offset value : Z) (s : MmioTransport * dev) : outcome (Result unit * (MmioTransport * dev)) :=
  do! _ <- assert (align <=? 4);
  do! _ <- assert (offset mod align =? 0);
  if (m_config_space s.1).2 <? u64 (offset + size) then Ret (Err ConfigSpaceTooSmall, s)
  else Ret (Ok tt, (s.1, wr size ((m_config_space s.1).1 + offset) value s.2)).

#[export] Instance mmio_transport : Transport := {|
  tr := MmioTransport * dev;
  device_type s := mt_device_type s.1;
  read_device_features := mmio_read_device_features;
  write_driver_features := mmio_write_driver_features;
  max_queue_size := mmio_max_queue_size;
  notify q s := Ret (hwrite h_queue_notify q s);
  get_status := hread h_status;
  set_status := hwrite h_status;
  set_guest_page_size := mmio_set_guest_page_size;
  requires_legacy_layout s := match version s.1 with MLegacy => true | MModern => false end;
  queue_set := mmio_queue_set;
  queue_unset := mmio_queue_unset;
  queue_used := mmio_queue_used;
  ack_interrupt := mmio_ack_interrupt;
  read_config_generation := hread h_config_generation;
  read_config_space := mmio_read_config_space;
  write_config_space := mmio_write_config_space
|}.

Definition mmio_drop (s : MmioTransport * dev) : MmioTransport * dev := hwrite h_status 0 s.
End mmio.
