(* ===== verification/TransportProofs.v ===== *)
(** * Virtio transports: theorems

    What the driver may rely on of a transport is the class [TransportOk], in terms of
    the device as the virtio specification describes it: its features, its status and
    its queues.  The PCI transport and both versions of the memory-mapped one meet it
    over a device whose registers behave as the specification says.  Against the
    interface: the handshake negotiates what both sides have, and a queue the driver
    makes is the queue the device uses. *)

From S2P Require Import Prelude Virtq VirtqThms Net Pci PciProofs Transport.

(** ** The device *)

Record queue := mkQ { q_max : Z; q_on : bool; q_size : Z; q_desc : Z; q_driver : Z; q_device : Z; q_notify_off : Z }.

(** [accepts] is the device's decision about a set of features; [kicks] is the history
    of its notifications. *)
Record vdevice := mkV {
  offered : Z;
  accepts : Z -> bool;
  accepted : Z;
  v_status : Z;
  queues : gmap Z queue;
  v_isr : Z;
  kicks : list Z;
  (** the configuration: the value of a size at an offset *)
  v_config : Z -> Z -> Z;
  v_generation : Z
}.

Definition set_accepted x v := mkV (offered v) (accepts v) x (v_status v) (queues v) (v_isr v) (kicks v) (v_config v) (v_generation v).
Definition set_queues x v := mkV (offered v) (accepts v) (accepted v) (v_status v) x (v_isr v) (kicks v) (v_config v) (v_generation v).
Definition set_isr x v := mkV (offered v) (accepts v) (accepted v) (v_status v) (queues v) x (kicks v) (v_config v) (v_generation v).
Definition kick x v := mkV (offered v) (accepts v) (accepted v) (v_status v) (queues v) (v_isr v) (kicks v ++ [x]) (v_config v) (v_generation v).

Definition off_queue (q : queue) : queue := mkQ (q_max q) false (q_max q) 0 0 0 (q_notify_off q).
Definition set_up (size d a u : Z) (q : queue) : queue := mkQ (q_max q) true size d a u (q_notify_off q).

(** Writing the status: zero resets the device; FEATURES_OK sticks only if the device
    accepts the features. *)
Definition status_after (v : vdevice) (s : Z) : Z :=
  if Z.testbit s 3 && negb (accepts v (accepted v)) then Z.ldiff s FEATURES_OK else s.
Definition dev_set_status (s : Z) (v : vdevice) : vdevice :=
  if s =? 0 then mkV (offered v) (accepts v) 0 0 (off_queue <$> queues v) 0 (kicks v) (v_config v) (v_generation v)
  else mkV (offered v) (accepts v) (accepted v) (status_after v s) (queues v) (v_isr v) (kicks v) (v_config v) (v_generation v).
(** Features are fixed once FEATURES_OK is set. *)
Definition dev_accept (x : Z) (v : vdevice) : vdevice := if Z.testbit (v_status v) 3 then v else set_accepted x v.
Definition dev_queue (i : Z) (f : queue -> queue) (v : vdevice) : vdevice := set_queues (alter f i (queues v)) v.

Definition is_on (v : vdevice) (i : Z) : bool := match queues v !! i with Some q => q_on q | None => false end.
Definition max_of (v : vdevice) (i : Z) : Z := match queues v !! i with Some q => q_max q | None => 0 end.

(** ** What a transport promises *)

Section fits.
(** The place of the device area in the layout of the legacy interface: after the
    driver area, at the next page boundary. *)
Definition legacy_used (size : Z) : Z := (18 * size + 6 + 4095) / 4096 * 4096.
Record fits (legacy : bool) (size d a u : Z) : Prop := {
  fit_size : 0 <= size < 2 ^ 16;
  fit_d : 0 <= d < 2 ^ 64; fit_a : 0 <= a < 2 ^ 64; fit_u : 0 <= u < 2 ^ 64;
  fit_legacy : legacy = true ->
    d mod 4096 = 0 /\ 0 < d < 2 ^ 44 /\ a = d + 16 * size /\ u = d + legacy_used size /\ (18 * size + 6) mod 4096 <> 0
}.
End fits.

(** What a transport knows of its device. *)
Class TransportView `{Transport} := {
  view : tr -> vdevice;
  good : tr -> Prop;
  (** the device knows the size of a page *)
  paged : tr -> Prop;
  (** the queue has a place where it is notified *)
  has_bell : tr -> Z -> Prop;
  (** the bytes of configuration in reach *)
  config_len : tr -> Z;
}.

(** The transport and the device go on from [t] to [t'], the device to [v]. *)
Record steps `{TransportView} (t t' : tr) (v : vdevice) : Prop := mkSteps {
  st_view : view t' = v;
  st_good : good t';
  st_paged : paged t -> paged t';
  st_legacy : requires_legacy_layout t' = requires_legacy_layout t;
  st_bell : forall q, has_bell t q -> has_bell t' q;
  st_config : config_len t' = config_len t
}.

Class TransportOk `{TransportView} := {
  ok_read_features : forall t, good t -> (read_device_features t).1 = offered (view t) /\ steps t (read_device_features t).2 (view t);
  ok_write_features : forall x t, good t -> 0 <= x < 2 ^ 64 -> steps t (write_driver_features x t) (dev_accept x (view t));
  ok_max : forall q t, good t -> 0 <= q < 2 ^ 16 -> is_on (view t) q = false -> (max_queue_size q t).1 = max_of (view t) q /\ steps t (max_queue_size q t).2 (view t);
  ok_get_status : forall t, good t -> (get_status t).1 = v_status (view t) /\ steps t (get_status t).2 (view t);
  ok_set_status : forall s t, good t -> 0 < s < 2 ^ 8 -> Z.land s STATUS_BITS = s -> steps t (set_status s t) (dev_set_status s (view t));
  (** a reset may make the device forget the size of a page *)
  ok_reset : forall t, good t -> view (set_status 0 t) = dev_set_status 0 (view t) /\ good (set_status 0 t) /\
    requires_legacy_layout (set_status 0 t) = requires_legacy_layout t /\ (forall q, has_bell t q -> has_bell (set_status 0 t) q) /\ config_len (set_status 0 t) = config_len t;
  ok_page : forall t, good t -> steps t (set_guest_page_size 4096 t) (view t) /\ paged (set_guest_page_size 4096 t);
  ok_queue_set : forall q size d a u t, good t -> paged t -> 0 <= q < 2 ^ 16 -> fits (requires_legacy_layout t) size d a u ->
    exists t', queue_set q size d a u t = Ret t' /\ steps t t' (dev_queue q (set_up size d a u) (view t));
  ok_used : forall q t, good t -> 0 <= q < 2 ^ 16 -> (queue_used q t).1 = is_on (view t) q /\ steps t (queue_used q t).2 (view t);
  ok_notify : forall q t, good t -> 0 <= q < 2 ^ 16 -> has_bell t q -> exists t', notify q t = Ret t' /\ steps t t' (kick q (view t));
  ok_ack : forall t, good t -> 0 <= v_isr (view t) < 4 -> (ack_interrupt t).1 = v_isr (view t) /\ steps t (ack_interrupt t).2 (set_isr 0 (view t));
  ok_generation : forall t, good t -> (read_config_generation t).1 = v_generation (view t) /\ steps t (read_config_generation t).2 (view t);
  ok_config : forall size align offset t, good t -> 0 < align <= 4 -> 0 <= offset < 2 ^ 32 -> 0 < size < 2 ^ 32 -> offset mod align = 0 -> offset + size <= config_len t ->
    exists t', read_config_space size align offset t = Ret (Ok (v_config (view t) size offset), t') /\ steps t t' (view t)
}.

(** ** The handshake *)

Section handshake.
Context `{TransportOk}.

Lemma steps_trans t1 t2 t3 v2 v3 : steps t1 t2 v2 -> steps t2 t3 v3 -> steps t1 t3 v3.
Proof. intros [] []. constructor; eauto; congruence. Qed.

Lemma begin_init_run known supported t :
  good t -> 0 <= supported < 2 ^ 64 -> Z.land known supported = supported ->
  let n := Z.land (offered (view t)) supported in
  exists t', begin_init known supported t = (n, t') /\ good t' /\ paged t' /\
    requires_legacy_layout t' = requires_legacy_layout t /\ config_len t' = config_len t /\ (forall q, has_bell t q -> has_bell t' q) /\
    view t' = mkV (offered (view t)) (accepts (view t)) n (if accepts (view t) n then 11 else 3) (off_queue <$> queues (view t)) 0 (kicks (view t)) (v_config (view t)) (v_generation (view t)).
Proof.
  intros Hg Hs Hk n. unfold begin_init. destruct (ok_reset t Hg) as (V0 & G0 & L0 & B0 & C0). set (t0 := set_status 0 t) in *.
  pose proof (ok_set_status 3 t0 G0 ltac:(lia) eq_refl) as [V1 G1 _ L1 B1 C1]. change (Z.lor ACKNOWLEDGE DRIVER) with 3. set (t1 := set_status 3 t0) in *.
  destruct (ok_read_features t1 G1) as [Ef [V2 G2 _ L2 B2 C2]]. destruct (read_device_features t1) as [f t2]. cbn [fst snd] in *.
  assert (Hf : f = offered (view t)) by (rewrite Ef, V1, V0; done). rewrite <- Z.land_assoc, Hk, Hf. fold n.
  assert (Hn : 0 <= n < 2 ^ 64) by (apply land_bound; [lia|done]).
  destruct (ok_write_features n t2 G2 Hn) as [V3 G3 _ L3 B3 C3]. set (t3 := write_driver_features n t2) in *.
  change (Z.lor 3 FEATURES_OK) with 11. destruct (ok_set_status 11 t3 G3 ltac:(lia) eq_refl) as [V4 G4 _ L4 B4 C4]. set (t4 := set_status 11 t3) in *.
  change (u32 PAGE_SIZE) with 4096. destruct (ok_page t4 G4) as [[V5 G5 _ L5 B5 C5] P5]. eexists. split; [done|]. split_and!; [done|done|congruence|congruence|by auto 10|].
  rewrite V5, V4, V3, V2, V1, V0. unfold dev_set_status, dev_accept, status_after. cbn. by destruct (accepts (view t) n).
Qed.

(** The handshake with the device.  Over any transport that keeps its promises,
    [begin_init] resets the device, so that all its queues are off, and agrees on the
    features both sides have; [finish_init] puts the device into operation.  A device
    that refuses the features says so by dropping FEATURES_OK: the driver does not
    look, and puts a device that has refused into operation too. *)
Theorem handshake known supported t :
  good t -> 0 <= supported < 2 ^ 64 -> Z.land known supported = supported ->
  let '(n, t') := begin_init known supported t in
  n = Z.land (offered (view t)) supported /\ accepted (view t') = n /\
  (forall q, is_on (view t') q = false /\ max_of (view t') q = max_of (view t) q) /\
  v_status (view t') = (if accepts (view t) n then 11 else 3) /\
  v_status (view (finish_init t')) = (if accepts (view t) n then 15 else 7).
Proof.
  intros Hg Hs Hk. destruct (begin_init_run known supported t Hg Hs Hk) as (t' & -> & Hg' & _ & _ & _ & _ & Hv). set (n := Z.land _ supported) in *.
  rewrite Hv. cbn. split_and!; [done|done| |done|].
  - intros q. unfold is_on, max_of. cbn. rewrite lookup_fmap. by destruct (queues (view t) !! q).
  - unfold finish_init. destruct (ok_set_status 15 t' Hg' ltac:(lia) eq_refl) as [V _ _ _ _ _]. change (Z.lor _ DRIVER_OK) with 15. rewrite V, Hv.
    unfold dev_set_status, status_after. cbn. by destruct (accepts (view t) _).
Qed.
End handshake.

(** ** Making queues *)

(** Memory for the device: whole pages below 2^44, or none; it can be given back. *)
Class DmaOk `{Hal} := {
  dma_alloc_ok : forall log n dir, 0 < n < 2 ^ 20 -> let '(p, v) := hal_dma_alloc log n dir in
    p = 0 \/ (p mod 4096 = 0 /\ 0 < p < 2 ^ 44 - 4096 * n /\ 0 < v < 2 ^ 64 - 4096 * n);
  dma_dealloc_ok : forall log p v n, hal_dma_dealloc log p v n = 0
}.

(** Some request for memory is refused. *)
Definition no_memory `{Hal} : Prop := exists log n dir, (hal_dma_alloc log n dir).1 = 0.

(** The sizes of the parts of a queue, by the size of the queue. *)
Lemma part_sizes SIZE :
  size_ok SIZE ->
  queue_part_sizes SIZE = Ret (16 * SIZE, 2 * (3 + SIZE), 2 * 3 + 8 * SIZE) /\ 0 < SIZE < 2 ^ 16 /\
  align_up (16 * SIZE + 2 * (3 + SIZE)) = legacy_used SIZE /\ (18 * SIZE + 6) mod 4096 <> 0 /\ 0 < legacy_used SIZE /\
  (let n := u64 (align_up (16 * SIZE + 2 * (3 + SIZE)) + align_up (2 * 3 + 8 * SIZE)) / PAGE_SIZE in 0 < n < 2 ^ 20 /\ 16 * SIZE < legacy_used SIZE < 4096 * n) /\
  (let n := pages (16 * SIZE + 2 * (3 + SIZE)) in 0 < n < 2 ^ 20 /\ 16 * SIZE < 4096 * n) /\ 0 < pages (2 * 3 + 8 * SIZE) < 2 ^ 20.
Proof.
  intros Hs. pose proof Hs as [Hp _]. destruct (power_of_two _ Hs) as (k & Hk & ->).
  unfold queue_part_sizes. rewrite Hp. split; [done|].
  assert (k = 0 \/ k = 1 \/ k = 2 \/ k = 3 \/ k = 4 \/ k = 5 \/ k = 6 \/ k = 7 \/ k = 8 \/ k = 9 \/ k = 10 \/ k = 11 \/
          k = 12 \/ k = 13 \/ k = 14 \/ k = 15) as H by lia.
  repeat destruct H as [->|H]; subst; vm_compute; repeat split; try done; try (intros ?; done).
Qed.

Lemma dma_vaddr_ok p v n o : 0 < v < 2 ^ 64 - 4096 * n -> 0 < n < 2 ^ 20 -> 0 <= o < 4096 * n -> exists a, dma_vaddr (mkDma p v n) o = Ret a.
Proof.
  intros Hv Hn Ho. unfold dma_vaddr, PAGE_SIZE. cbn. rewrite !u64_small by lia. rewrite (proj2 (Z.ltb_lt _ _)) by lia.
  rewrite (proj2 (Z.eqb_neq _ _)) by lia. eauto.
Qed.

(** [new] over a transport that answers that the queue is free. *)
Lemma new_run `{DmaOk} SIZE max legacy idx ind ev log :
  size_ok SIZE -> SIZE <= max ->
  exists r, Virtq.new SIZE (mkTransport false max legacy) idx ind ev log = Ret r /\
    match r with
    | Err e => e = DmaError /\ no_memory
    | Ok (q, set) => qs_idx set = idx /\ qs_size set = SIZE /\ fits legacy SIZE (qs_descriptors set) (qs_driver_area set) (qs_device_area set)
    end.
Proof.
  intros Hs Hm. destruct (part_sizes SIZE Hs) as (Ep & HS & Ea & Hx & Hlu & [Hn Hin] & [Hn1 Hin1] & Hn2). unfold Virtq.new. cbn [Virtq.queue_used Virtq.max_queue_size Virtq.requires_legacy_layout].
  rewrite (proj2 (Z.ltb_ge _ _)) by lia. destruct legacy.
  - unfold allocate_legacy. rewrite Ep. cbn [obind]. unfold Dma_new. set (n := u64 _ / PAGE_SIZE) in *. pose proof (dma_alloc_ok log n Both Hn) as Hd.
    assert (Hno : (hal_dma_alloc log n Both).1 = 0 -> no_memory) by (by eexists _, _, _).
    destruct (hal_dma_alloc log n Both) as [p v]. destruct (p =? 0) eqn:E; bool_to_prop; cbn [obind]; [eexists; split; [done|]; split; [done|by apply Hno]|]. destruct Hd as [|(Hp4 & Hp & Hv)]; [done|].
    unfold descriptors_vaddr, avail_vaddr, used_vaddr. rewrite Ea.
    destruct (dma_vaddr_ok p v n 0) as [? ->]; [done..|lia|]. destruct (dma_vaddr_ok p v n (16 * SIZE)) as [? ->]; [done..|lia|].
    destruct (dma_vaddr_ok p v n (legacy_used SIZE)) as [? ->]; [done..|lia|]. cbn [obind]. eexists. split; [done|]. cbn.
    rewrite !u64_small by lia. split_and!; [done|done|]. constructor; [lia..|]. intros _. split_and!; (done || lia).
  - unfold allocate_flexible. rewrite Ep. cbn [obind]. unfold Dma_new. set (n1 := pages (16 * SIZE + _)) in *. set (n2 := pages (2 * 3 + _)) in *.
    pose proof (dma_alloc_ok log n1 DriverToDevice Hn1) as Hd1. assert (Hno1 : (hal_dma_alloc log n1 DriverToDevice).1 = 0 -> no_memory) by (by eexists _, _, _).
    destruct (hal_dma_alloc log n1 DriverToDevice) as [p1 v1]. destruct (p1 =? 0) eqn:E1; cbn [obind]; [bool_to_prop; eexists; split; [done|]; split; [done|by apply Hno1]|].
    set (log1 := log ++ _). pose proof (dma_alloc_ok log1 n2 DeviceToDriver Hn2) as Hd2. assert (Hno2 : (hal_dma_alloc log1 n2 DeviceToDriver).1 = 0 -> no_memory) by (by eexists _, _, _).
    destruct (hal_dma_alloc log1 n2 DeviceToDriver) as [p2 v2]. destruct (p2 =? 0) eqn:E2; cbn [obind].
    { unfold Dma_drop. rewrite dma_dealloc_ok. cbn [obind]. bool_to_prop. eexists; split; [done|]; split; [done|by apply Hno2]. }
    bool_to_prop. destruct Hd1 as [|(Hp41 & Hp1 & Hv1)]; [done|]. destruct Hd2 as [|(Hp42 & Hp2 & Hv2)]; [done|].
    unfold descriptors_vaddr, avail_vaddr, used_vaddr.
    destruct (dma_vaddr_ok p1 v1 n1 0) as [? ->]; [done..|lia|]. destruct (dma_vaddr_ok p1 v1 n1 (16 * SIZE)) as [? ->]; [done..|lia|].
    destruct (dma_vaddr_ok p2 v2 n2 0) as [? ->]; [done..|lia|]. cbn [obind]. eexists. split; [done|]. cbn.
    rewrite !u64_small by lia. split_and!; [done|done|]. constructor; lia || done.
Qed.

Section making.
Context `{TransportOk} `{DmaOk}.

(** The queue [idx] of the device is set up where [new] has put it. *)
Definition installed (SIZE idx : Z) (legacy : bool) (q : VirtQueue) (ind ev : bool) (log : list hal_event) (max : Z) (v v' : vdevice) : Prop :=
  exists set, Virtq.new SIZE (mkTransport false max legacy) idx ind ev log = Ret (Ok (q, set)) /\
    v' = dev_queue idx (set_up SIZE (qs_descriptors set) (qs_driver_area set) (qs_device_area set)) v.

Lemma make_queue_run SIZE idx ind ev log t :
  good t -> paged t -> size_ok SIZE -> 0 <= idx < 2 ^ 16 -> is_on (view t) idx = false -> SIZE <= max_of (view t) idx ->
  exists r t', make_queue SIZE idx ind ev log t = Ret (r, t') /\
    match r with
    | Err e => e = DmaError /\ no_memory /\ steps t t' (view t)
    | Ok q => steps t t' (view t') /\ installed SIZE idx (requires_legacy_layout t) q ind ev log (max_of (view t) idx) (view t) (view t')
    end.
Proof.
  intros Hg Hpg Hs Hi Hoff Hmax. unfold make_queue. destruct (ok_used idx t Hg Hi) as [Eu S1]. destruct (queue_used idx t) as [u t1]. cbn [fst snd] in *.
  pose proof S1 as [V1 G1 P1 L1 _ _]. rewrite Eu, Hoff. destruct (ok_max idx t1 G1 Hi) as [Em S2]; [by rewrite V1|]. destruct (max_queue_size idx t1) as [m t2]. cbn [fst snd] in *.
  pose proof S2 as [V2 G2 P2 L2 _ _]. rewrite Em, V1, L2, L1 in *. assert (S02 : steps t t2 (view t)) by (by eapply steps_trans).
  destruct (new_run SIZE (max_of (view t) idx) (requires_legacy_layout t) idx ind ev log Hs Hmax) as (r & En & Hr). rewrite En. cbn [obind]. destruct r as [[q set]|e].
  2: { exists (Err e), t2. by destruct Hr as [-> ?]. }
  destruct Hr as (Hidx & Hsz & Hfit). rewrite Hidx, Hsz. destruct (ok_queue_set idx SIZE (qs_descriptors set) (qs_driver_area set) (qs_device_area set) t2) as (t3 & -> & S3); [done|by auto|done|by rewrite L2|].
  exists (Ok q), t3. split; [done|]. pose proof S3 as [V3 _ _ _ _ _]. rewrite V2 in *. rewrite V3. split; [by eapply steps_trans|]. by exists set.
Qed.
End making.

(** ** The network device *)

(** Queue [i] of the device is on, with the size and at the places of the call. *)
Definition on_at (v : vdevice) (i : Z) (set : QueueSet) : Prop :=
  exists q, queues v !! i = Some (set_up (qs_size set) (qs_descriptors set) (qs_driver_area set) (qs_device_area set) q).

Section network.
Context `{TransportOk} `{DmaOk}.

Lemma read_consistent_run {A} fuel (f : tr -> outcome (A * tr)) t a t1 :
  good t -> (forall t0, steps t t0 (view t) -> exists t', f t0 = Ret (a, t') /\ steps t t' (view t)) ->
  t1 = t -> exists t', read_consistent (S fuel) f t1 = Ret (a, t') /\ steps t t' (view t).
Proof.
  intros Hg Hf ->. cbn [read_consistent]. destruct (ok_generation t Hg) as [E1 S1]. destruct (read_config_generation t) as [g1 t1]. cbn [fst snd] in *.
  destruct (Hf t1 S1) as (t2 & -> & S2). cbn [obind]. pose proof S2 as [V2 G2 _ _ _ _]. destruct (ok_generation t2 G2) as [E3 S3]. destruct (read_config_generation t2) as [g3 t3]. cbn [fst snd] in *.
  rewrite E1, E3, V2, Z.eqb_refl. exists t3. split; [done|]. rewrite V2 in S3. by eapply steps_trans.
Qed.

(** The negotiated features. *)
Definition negotiated (v : vdevice) : Z := Z.land (offered v) SUPPORTED_FEATURES.

(** Both queues, one after the other. *)
Definition two_queues QS ind ev t : outcome (Result (VirtQueue * VirtQueue) * tr) :=
  do! (tx, t) <- make_queue QS QUEUE_TRANSMIT ind ev [] t;
  match tx with
  | Err e => Ret (Err e, t)
  | Ok tx =>
      do! (rx, t) <- make_queue QS QUEUE_RECEIVE ind ev (hal_log tx) t;
      match rx with Err e => Ret (Err e, t) | Ok rx => Ret (Ok (tx, rx), t) end
  end.

Lemma two_queues_run QS ind ev t :
  good t -> paged t -> size_ok QS -> (forall q, is_on (view t) q = false) -> QS <= max_of (view t) QUEUE_TRANSMIT -> QS <= max_of (view t) QUEUE_RECEIVE ->
  exists r t', two_queues QS ind ev t = Ret (r, t') /\
    match r with
    | Err e => e = DmaError /\ no_memory
    | Ok (tx, rx) => good t' /\
        (exists stx srx, Virtq.new QS (mkTransport false (max_of (view t) QUEUE_TRANSMIT) (requires_legacy_layout t)) QUEUE_TRANSMIT ind ev [] = Ret (Ok (tx, stx)) /\
           Virtq.new QS (mkTransport false (max_of (view t) QUEUE_RECEIVE) (requires_legacy_layout t)) QUEUE_RECEIVE ind ev (hal_log tx) = Ret (Ok (rx, srx)) /\
           on_at (view t') QUEUE_TRANSMIT stx /\ on_at (view t') QUEUE_RECEIVE srx) /\
        (forall q, q <> QUEUE_TRANSMIT -> q <> QUEUE_RECEIVE -> is_on (view t') q = false) /\
        view t' = set_queues (queues (view t')) (view t)
    end.
Proof.
  intros Hg Hp Hs Hoff Htx Hrx. unfold two_queues.
  destruct (make_queue_run QS QUEUE_TRANSMIT ind ev [] t Hg Hp Hs ltac:(by vm_compute) (Hoff _) Htx) as (r & t3 & -> & Hr). cbn [obind].
  destruct r as [tx|e]; [|destruct Hr as (-> & ? & _); by eexists _, _]. destruct Hr as [[_ G3 P3 L3 _ _] (stx & Etx & V3)].
  assert (Hother : forall q, q <> QUEUE_TRANSMIT -> queues (view t3) !! q = queues (view t) !! q) by (intros q Hq; rewrite V3; cbn; by rewrite lookup_alter_ne).
  assert (Hmx : max_of (view t3) QUEUE_RECEIVE = max_of (view t) QUEUE_RECEIVE) by (unfold max_of; by rewrite Hother).
  destruct (make_queue_run QS QUEUE_RECEIVE ind ev (hal_log tx) t3 G3 (P3 Hp) Hs ltac:(by vm_compute)) as (r & t4 & -> & Hr);
    [unfold is_on; rewrite Hother by done; apply Hoff|by rewrite Hmx|]. cbn [obind].
  destruct r as [rx|e]; [|destruct Hr as (-> & ? & _); by eexists _, _]. destruct Hr as [[_ G4 _ _ _ _] (srx & Erx & V4)]. rewrite Hmx, L3 in Erx.
  assert (Hon : forall q, max_of (view t) q <> 0 -> exists k, queues (view t) !! q = Some k) by (intros q; unfold max_of; destruct (queues (view t) !! q); [by eexists|done]).
  destruct (power_of_two QS Hs) as (k & Hk & EQ). pose proof (Z.pow_pos_nonneg 2 k ltac:(lia) ltac:(lia)).
  destruct (Hon QUEUE_TRANSMIT) as [qt Eqt]; [lia|]. destruct (Hon QUEUE_RECEIVE) as [qr Eqr]; [lia|].
  pose proof (new_run QS _ (requires_legacy_layout t) QUEUE_TRANSMIT ind ev [] Hs Htx) as (r1 & E1 & Hr1). rewrite Etx in E1. injection E1 as <-. destruct Hr1 as (_ & Es1 & _).
  pose proof (new_run QS _ (requires_legacy_layout t) QUEUE_RECEIVE ind ev (hal_log tx) Hs Hrx) as (r2 & E2 & Hr2). rewrite Erx in E2. injection E2 as <-. destruct Hr2 as (_ & Es2 & _).
  eexists _, t4. split; [done|]. cbn beta iota. split_and!; [done| | |].
  - exists stx, srx. split_and!; [done|done| |].
    + exists qt. rewrite V4, V3, Es1. cbn. rewrite lookup_alter_ne by done. by rewrite lookup_alter_eq, Eqt.
    + exists qr. rewrite V4, V3, Es2. cbn. rewrite lookup_alter_eq, lookup_alter_ne by done. by rewrite Eqr.
  - intros q Hq1 Hq2. unfold is_on. rewrite V4. cbn. rewrite lookup_alter_ne by done. rewrite Hother by done. apply Hoff.
  - rewrite V4, V3. done.
Qed.

(** C19: bringing up the network device.  Take any transport that keeps its promises
    and memory for the device in whole pages; let the device have a receive and a
    transmit queue of at least the wanted size (a power of two below 2^16) and at least
    8 bytes of configuration.  Then [VirtIONetRaw::new] runs to its end without a panic;
    its only error is [DmaError], and only if a request for memory is refused.
    Otherwise the driver it returns is the one of [Net.v] for the device's answers; the
    device was given the features both sides have, its receive and transmit queues are
    on, with the size and at the places of the driver's queues, and no other queue is
    on.  The status of the device is then 15, in operation, if it accepts these
    features.  If it refuses them the status is 7, and [new] succeeds all the same: it
    does not look. *)
Theorem net_device_ready fuel QS t :
  good t -> size_ok QS -> 8 <= config_len t -> QS <= max_of (view t) QUEUE_RECEIVE -> QS <= max_of (view t) QUEUE_TRANSMIT ->
  let v := view t in
  exists r t', net_bring_up (S fuel) QS t = Ret (r, t') /\
    match r with
    | Err e => e = DmaError /\ no_memory
    | Ok d =>
        let legacy := requires_legacy_layout t in
        Net.raw_new QS (mkTransport false (max_of v QUEUE_TRANSMIT) legacy) (mkTransport false (max_of v QUEUE_RECEIVE) legacy)
          (offered v) (Ok (le_bytes 6 (v_config v 6 0))) (Ok (v_config v 2 6)) = Ret (Ok d) /\
        (exists tx rx,
           Virtq.new QS (mkTransport false (max_of v QUEUE_TRANSMIT) legacy) QUEUE_TRANSMIT (contains (negotiated v) F_RING_INDIRECT_DESC)
             (contains (negotiated v) F_RING_EVENT_IDX) [] = Ret (Ok (send_queue d, tx)) /\
           Virtq.new QS (mkTransport false (max_of v QUEUE_RECEIVE) legacy) QUEUE_RECEIVE (contains (negotiated v) F_RING_INDIRECT_DESC)
             (contains (negotiated v) F_RING_EVENT_IDX) (hal_log (send_queue d)) = Ret (Ok (recv_queue d, rx)) /\
           on_at (view t') QUEUE_TRANSMIT tx /\ on_at (view t') QUEUE_RECEIVE rx) /\
        (forall q, q <> QUEUE_TRANSMIT -> q <> QUEUE_RECEIVE -> is_on (view t') q = false) /\
        accepted (view t') = negotiated v /\
        v_status (view t') = (if accepts v (negotiated v) then 15 else 7)
    end.
Proof.
  intros Hg Hs Hc Hrx Htx v. unfold net_bring_up.
  destruct (begin_init_run NET_FEATURES SUPPORTED_FEATURES t Hg ltac:(vm_compute; split; [discriminate|done]) ltac:(by vm_compute)) as (t0 & -> & G0 & P0 & L0 & C0 & _ & V0).
  fold v in V0 |- *. fold (negotiated v) in V0 |- *. set (n := negotiated v) in *.
  destruct (read_consistent_run fuel (read_config_space 6 1 0) t0 (Ok (v_config v 6 0)) t0 G0) as (t1 & -> & S1); [|done|].
  { intros t' St. pose proof St as [V' G' _ _ _ C']. destruct (ok_config 6 1 0 t' G') as (t2 & -> & S2); [lia..|done|lia|].
    exists t2. rewrite V' in *. rewrite V0. split; [done|]. rewrite <- V0. by eapply steps_trans. }
  cbn [obind]. pose proof S1 as [V1 G1 P1 L1 _ C1]. destruct (ok_config 2 2 6 t1 G1) as (t2 & -> & S2); [lia..|done|lia|].
  cbn [obind]. pose proof S2 as [V2 G2 P2 L2 _ _]. assert (Ev : view t2 = view t0) by congruence.
  assert (Hoff : forall q, is_on (view t2) q = false) by (intros q; rewrite Ev, V0; unfold is_on; cbn; rewrite lookup_fmap; by destruct (queues v !! q)).
  assert (Hmx : forall q, max_of (view t2) q = max_of v q) by (intros q; rewrite Ev, V0; unfold max_of; cbn; rewrite lookup_fmap; by destruct (queues v !! q)).
  destruct (two_queues_run QS (contains n F_RING_INDIRECT_DESC) (contains n F_RING_EVENT_IDX) t2 G2 ltac:(by auto) Hs Hoff) as (r & t3 & Er & Hr); [by rewrite Hmx..|].
  rewrite !Hmx in Hr. rewrite L2, L1, L0 in Hr. unfold two_queues in Er.
  destruct (make_queue QS QUEUE_TRANSMIT _ _ [] t2) as [[[tx|e] t4]| |]; cbn [obind] in *; [|simplify_eq; by eexists _, _|done|done].
  destruct (make_queue QS QUEUE_RECEIVE _ _ (hal_log tx) t4) as [[[rx|e] t5]| |]; cbn [obind] in *; simplify_eq; [|by eexists _, _].
  destruct Hr as (Gd & (stx & srx & Etx & Erx & Hotx & Horx) & Hoth & Hsame). eexists _, _. split; [done|]. cbn [send_queue recv_queue].
  unfold finish_init. change (Z.lor _ DRIVER_OK) with 15. destruct (ok_set_status 15 t3 Gd ltac:(lia) eq_refl) as [Vf _ _ _ _ _].
  assert (Hq : queues (view (set_status 15 t3)) = queues (view t3)) by by rewrite Vf. split_and!.
  - unfold raw_new. fold (negotiated v). fold n. rewrite Etx. cbn [obind]. rewrite Erx. done.
  - exists stx, srx. unfold on_at. rewrite Hq. done.
  - unfold is_on. rewrite Hq. exact Hoth.
  - rewrite Vf, Hsame, Ev, V0. done.
  - rewrite Vf, Hsame, Ev, V0. unfold dev_set_status, status_after. cbn. by destruct (accepts v n).
Qed.
End network.

(** ** Devices by their registers *)

(** The halves of a register of 64 bits. *)
Definition half (i x : Z) : Z := if i =? 0 then u32 x else if i =? 1 then u32 (Z.shiftr x 32) else 0.
Definition set_half (i h x : Z) : Z := if i =? 0 then x / 2 ^ 32 * 2 ^ 32 + h else if i =? 1 then x mod 2 ^ 32 + h * 2 ^ 32 else x.

Lemma halves x : 0 <= x < 2 ^ 64 -> half 0 x + half 1 x * 2 ^ 32 = x.
Proof.
  intros Hx. cbn [half Z.eqb]. unfold half, u32. cbn. rewrite Z.shiftr_div_pow2 by lia. rewrite (Z.mod_small (x / 2 ^ 32)) by (split; [apply Z.div_pos; lia|apply Z.div_lt_upper_bound; lia]).
  pose proof (Z.div_mod x (2 ^ 32)). lia.
Qed.
Lemma half_range i x : 0 <= half i x < 2 ^ 32.
Proof. unfold half. destruct (i =? 0); [apply Z.mod_pos_bound; lia|]. destruct (i =? 1); [apply Z.mod_pos_bound; lia|lia]. Qed.
Lemma set_halves x y : 0 <= x < 2 ^ 64 -> set_half 1 (half 1 x) (set_half 0 (half 0 x) y) = x.
Proof.
  intros Hx. transitivity (half 0 x + half 1 x * 2 ^ 32); [|by apply halves]. unfold set_half. cbn [Z.eqb Pos.eqb]. pose proof (half_range 0 x).
  rewrite (Z.add_comm (y / 2 ^ 32 * 2 ^ 32)), Z.mod_add, Z.mod_small by lia. lia.
Qed.

(** The places where the queues are notified do not change. *)
Definition bells (v : vdevice) : gmap Z Z := q_notify_off <$> queues v.
Lemma bells_queue i f v : (forall q, q_notify_off (f q) = q_notify_off q) -> bells (dev_queue i f v) = bells v.
Proof.
  intros Hf. unfold bells. cbn. apply map_eq. intros j. rewrite !lookup_fmap. destruct (Z.eq_dec i j) as [<-|Hne].
  - rewrite lookup_alter_eq. destruct (queues v !! i) as [q|]; cbn; [by rewrite Hf|done].
  - by rewrite lookup_alter_ne.
Qed.
Lemma bells_status s v : bells (dev_set_status s v) = bells v.
Proof. unfold bells, dev_set_status. destruct (s =? 0); [|done]. cbn. rewrite <- map_fmap_compose. apply map_fmap_ext. done. Qed.
Lemma bells_accept x v : bells (dev_accept x v) = bells v.
Proof. unfold dev_accept. by destruct (Z.testbit _ _). Qed.

(** A queue that is off has its greatest size; the status has known bits only. *)
Record settled (v : vdevice) : Prop := {
  set_offered : 0 <= offered v < 2 ^ 64;
  set_status_bits : Z.land (v_status v) STATUS_BITS = v_status v;
  set_off : forall i q, queues v !! i = Some q -> q_on q = false -> q_size q = q_max q
}.
Lemma settled_status s v : Z.land s STATUS_BITS = s -> settled v -> settled (dev_set_status s v).
Proof.
  intros Hs [Ho Hb Hq]. unfold dev_set_status. destruct (s =? 0); constructor; try done; cbn.
  - intros i q. rewrite lookup_fmap. destruct (queues v !! i) as [k|]; cbn; [|done]. intros [= <-] _. done.
  - unfold status_after. destruct (_ && _); [|done]. apply Z.bits_inj'. intros n Hn. apply (f_equal (fun z => Z.testbit z n)) in Hs. rewrite !Z.land_spec, !Z.ldiff_spec in *.
    destruct (Z.testbit s n), (Z.testbit STATUS_BITS n), (Z.testbit FEATURES_OK n); done.
Qed.
Lemma settled_accept x v : settled v -> settled (dev_accept x v).
Proof. intros [Ho Hb Hq]. unfold dev_accept. destruct (Z.testbit _ _); by constructor. Qed.
Lemma settled_queue i f v : (forall q, q_on (f q) = true) -> settled v -> settled (dev_queue i f v).
Proof.
  intros Hf [Ho Hb Hq]. constructor; [done..|]. cbn. intros j q. destruct (Z.eq_dec i j) as [<-|Hne].
  - rewrite lookup_alter_eq. destruct (queues v !! i) as [k|]; cbn; [|done]. intros [= <-]. by rewrite Hf.
  - rewrite lookup_alter_ne by done. apply Hq.
Qed.

Lemma dev_queue_queue i f g v : dev_queue i f (dev_queue i g v) = dev_queue i (fun q => f (g q)) v.
Proof. unfold dev_queue. cbn. by rewrite alter_alter_eq. Qed.

(** ** A device on the PCI bus *)

(** The registers of [virtio_pci_common_cfg], over the device and the three selectors. *)
Record pregs := mkP { p_core : vdevice; p_dfsel : Z; p_gfsel : Z; p_qsel : Z }.
Definition on_core (f : vdevice -> vdevice) (p : pregs) : pregs := mkP (f (p_core p)) (p_dfsel p) (p_gfsel p) (p_qsel p).
Definition selected (f : queue -> Z) (p : pregs) : Z := match queues (p_core p) !! p_qsel p with Some q => f q | None => 0 end.

Definition pci_reg (f : CommonCfg) (p : pregs) : Z :=
  match f with
  | device_feature_select => p_dfsel p
  | device_feature => half (p_dfsel p) (offered (p_core p))
  | driver_feature_select => p_gfsel p
  | driver_feature => half (p_gfsel p) (accepted (p_core p))
  | device_status => v_status (p_core p)
  | config_generation => v_generation (p_core p)
  | queue_select => p_qsel p
  | queue_size => selected q_size p
  | queue_enable => selected (fun q => if q_on q then 1 else 0) p
  | queue_notify_off => selected q_notify_off p
  | queue_desc => selected q_desc p
  | queue_driver => selected q_driver p
  | queue_device => selected q_device p
  | num_queues => Z.of_nat (size (queues (p_core p)))
  | msix_config | queue_msix_vector => 0xffff
  end.

Definition pci_set (f : CommonCfg) (x : Z) (p : pregs) : pregs :=
  let at_queue g := on_core (dev_queue (p_qsel p) g) p in
  match f with
  | device_feature_select => mkP (p_core p) x (p_gfsel p) (p_qsel p)
  | driver_feature_select => mkP (p_core p) (p_dfsel p) x (p_qsel p)
  | queue_select => mkP (p_core p) (p_dfsel p) (p_gfsel p) x
  | driver_feature => on_core (dev_accept (set_half (p_gfsel p) x (accepted (p_core p)))) p
  | device_status => on_core (dev_set_status x) p
  | queue_size => at_queue (fun q => mkQ (q_max q) (q_on q) x (q_desc q) (q_driver q) (q_device q) (q_notify_off q))
  | queue_desc => at_queue (fun q => mkQ (q_max q) (q_on q) (q_size q) x (q_driver q) (q_device q) (q_notify_off q))
  | queue_driver => at_queue (fun q => mkQ (q_max q) (q_on q) (q_size q) (q_desc q) x (q_device q) (q_notify_off q))
  | queue_device => at_queue (fun q => mkQ (q_max q) (q_on q) (q_size q) (q_desc q) (q_driver q) x (q_notify_off q))
  | queue_enable => if x =? 1 then at_queue (fun q => mkQ (q_max q) true (q_size q) (q_desc q) (q_driver q) (q_device q) (q_notify_off q)) else p
  | _ => p
  end.

(** Writing the number of a queue where the queue is notified. *)
Definition ring (multiplier off q : Z) (p : pregs) : pregs :=
  match queues (p_core p) !! q with
  | Some k => if q_notify_off k * multiplier =? off then on_core (kick q) p else p
  | None => p
  end.

(** The device behind a transport behaves as its registers are specified. *)
Class PciDevice `{Mmio} (t : PciTransport) := {
  pview : dev -> pregs;
  pd_read : forall f d, (rd (field_size f) (common_cfg t + field_offset f) d).1 = pci_reg f (pview d) /\
    pview (rd (field_size f) (common_cfg t + field_offset f) d).2 = pview d;
  pd_write : forall f x d, 0 <= x < 2 ^ (8 * field_size f) ->
    pview (wr (field_size f) (common_cfg t + field_offset f) x d) = pci_set f x (pview d);
  pd_isr : forall d, (rd 1 (isr_status t) d).1 = v_isr (p_core (pview d)) /\ pview (rd 1 (isr_status t) d).2 = on_core (set_isr 0) (pview d);
  pd_ring : forall i x d, 0 <= i < (notify_region t).2 ->
    pview (wr 2 ((notify_region t).1 + 2 * i) x d) = ring (notify_off_multiplier t) (2 * i) x (pview d);
  pd_config : forall p len size offset d, config_space t = Some (p, len) -> 0 <= offset -> offset + size <= 4 * len ->
    (rd size (p + offset) d).1 = v_config (p_core (pview d)) size offset /\ pview (rd size (p + offset) d).2 = pview d
}.

Section pci_device.
Context `{PciDevice}.

Definition pci_bell (v : vdevice) (q : Z) : Prop :=
  exists o, bells v !! q = Some o /\ 0 <= o < 2 ^ 16 /\ 0 <= notify_off_multiplier t < 2 ^ 32 /\ notify_off_multiplier t mod 2 = 0 /\
    o * notify_off_multiplier t / 2 < (notify_region t).2.

#[export] Instance pci_view : @TransportView pci_transport := {|
  view := (fun s => p_core (pview s.2)) : @tr pci_transport -> vdevice;
  good := (fun s => s.1 = t /\ settled (p_core (pview s.2))) : @tr pci_transport -> Prop;
  paged := fun _ => True;
  has_bell := (fun s q => pci_bell (p_core (pview s.2)) q) : @tr pci_transport -> Z -> Prop;
  config_len := (fun s => match config_space s.1 with Some (_, len) => 4 * len | None => 0 end) : @tr pci_transport -> Z
|}.

Lemma pci_steps (s s' : @tr pci_transport) v : s.1 = t -> s'.1 = t -> p_core (pview s'.2) = v -> settled v -> bells v = bells (p_core (pview s.2)) -> steps s s' v.
Proof.
  intros E E' Ev Hs Hb. constructor; cbn; [done|by rewrite Ev|done|done| |by rewrite E, E'].
  intros q (o & Ho & Hr). exists o. by rewrite Ev, Hb.
Qed.

(** The accesses to a field. *)
Lemma fread_spec f s : s.1 = t -> exists d, fread f s = (pci_reg f (pview s.2), (t, d)) /\ pview d = pview s.2.
Proof.
  intros E. unfold fread. rewrite E. destruct (pd_read f s.2) as [E1 E2]. destruct (rd _ _ s.2) as [v d]. cbn in *. subst v. eauto.
Qed.
Lemma fwrite_spec f x s : s.1 = t -> 0 <= x < 2 ^ (8 * field_size f) -> (fwrite f x s).1 = t /\ pview (fwrite f x s).2 = pci_set f x (pview s.2).
Proof. intros E Hx. unfold fwrite. cbn. rewrite E. by rewrite pd_write. Qed.

Lemma accept_halves x v : 0 <= x < 2 ^ 64 ->
  dev_accept (set_half 1 (half 1 x) (accepted (dev_accept (set_half 0 (half 0 x) (accepted v)) v))) (dev_accept (set_half 0 (half 0 x) (accepted v)) v) = dev_accept x v.
Proof.
  intros Hx. unfold dev_accept. destruct (Z.testbit (v_status v) 3) eqn:E; [by rewrite E|]. unfold set_accepted. cbn [v_status accepted]. rewrite E, set_halves by done. done.
Qed.

(** The operations, one after the other. *)
Lemma pci_features_ok s : good s -> (pci_read_device_features s).1 = offered (view s) /\ steps s (pci_read_device_features s).2 (view s).
Proof.
  intros [E Hs]. unfold pci_read_device_features.
  destruct (fwrite_spec device_feature_select 0 s E ltac:(cbn; lia)) as [E1 V1]. destruct (fread_spec device_feature _ E1) as (d2 & -> & V2).
  destruct (fwrite_spec device_feature_select 1 (t, d2) eq_refl ltac:(cbn; lia)) as [E3 V3]. destruct (fread_spec device_feature _ E3) as (d4 & -> & V4).
  rewrite V3 in *. cbn [snd] in *. rewrite V2, V1 in *. cbn [fst snd pci_reg pci_set p_dfsel p_core] in *. split.
  - rewrite Z.lor_comm, lor_low by (lia || apply half_range). cbn [view pci_view]. destruct Hs as [Ho _ _]. pose proof (halves _ Ho). lia.
  - apply pci_steps; [done|done|cbn [snd]; by rewrite V4|done|done].
Qed.

Lemma pci_accept_ok x s : good s -> 0 <= x < 2 ^ 64 -> steps s (pci_write_driver_features x s) (dev_accept x (view s)).
Proof.
  intros [E Hs] Hx. unfold pci_write_driver_features. change (u32 x) with (half 0 x). change (u32 (Z.shiftr x 32)) with (half 1 x).
  destruct (fwrite_spec driver_feature_select 0 s E ltac:(cbn; lia)) as [E1 V1]. set (s1 := fwrite driver_feature_select 0 s) in *.
  destruct (fwrite_spec driver_feature (half 0 x) s1 E1 (half_range 0 x)) as [E2 V2]. set (s2 := fwrite driver_feature _ s1) in *.
  destruct (fwrite_spec driver_feature_select 1 s2 E2 ltac:(cbn; lia)) as [E3 V3]. set (s3 := fwrite driver_feature_select 1 s2) in *.
  destruct (fwrite_spec driver_feature (half 1 x) s3 E3 (half_range 1 x)) as [E4 V4]. set (s4 := fwrite driver_feature _ s3) in *.
  apply pci_steps; [done|done| |by apply settled_accept|apply bells_accept].
  rewrite V4, V3, V2, V1. cbn [pci_set on_core p_core p_gfsel]. rewrite accept_halves by done. done.
Qed.

Lemma pci_select q s : s.1 = t -> 0 <= q < 2 ^ 16 -> (fwrite queue_select q s).1 = t /\ pview (fwrite queue_select q s).2 = mkP (p_core (pview s.2)) (p_dfsel (pview s.2)) (p_gfsel (pview s.2)) q.
Proof. intros E Hq. by apply (fwrite_spec queue_select). Qed.

Lemma pci_max_ok q s : good s -> 0 <= q < 2 ^ 16 -> is_on (view s) q = false -> (pci_max_queue_size q s).1 = max_of (view s) q /\ steps s (pci_max_queue_size q s).2 (view s).
Proof.
  intros [E Hs] Hq Hoff. unfold pci_max_queue_size. destruct (pci_select q s E Hq) as [E1 V1]. destruct (fread_spec queue_size _ E1) as (d2 & -> & V2).
  rewrite V1 in *. cbn. split; [|apply pci_steps; [done|done|cbn; by rewrite V2|done|done]].
  unfold max_of, is_on in *. cbn in *. unfold selected. cbn. destruct (queues _ !! q) as [k|] eqn:Ek; [|done]. destruct Hs as [_ _ Hq2]. by apply (Hq2 q k).
Qed.

Lemma pci_used_ok q s : good s -> 0 <= q < 2 ^ 16 -> (pci_queue_used q s).1 = is_on (view s) q /\ steps s (pci_queue_used q s).2 (view s).
Proof.
  intros [E Hs] Hq. unfold pci_queue_used. destruct (pci_select q s E Hq) as [E1 V1]. destruct (fread_spec queue_enable _ E1) as (d2 & -> & V2).
  rewrite V1 in *. cbn. split; [|apply pci_steps; [done|done|cbn; by rewrite V2|done|done]].
  unfold is_on, selected. cbn. destruct (queues _ !! q) as [k|]; [|done]. by destruct (q_on k).
Qed.

Lemma pci_get_status_ok s : good s -> (pci_get_status s).1 = v_status (view s) /\ steps s (pci_get_status s).2 (view s).
Proof.
  intros [E Hs]. unfold pci_get_status. destruct (fread_spec device_status s E) as (d & -> & V). cbn [fst snd pci_reg]. pose proof Hs as [_ Hb _].
  split; [done|]. apply pci_steps; [done|done|cbn; by rewrite V|done|done].
Qed.

Lemma pci_set_status_ok x s : good s -> 0 <= x < 2 ^ 8 -> Z.land x STATUS_BITS = x -> steps s (pci_set_status x s) (dev_set_status x (view s)).
Proof.
  intros [E Hs] Hx Hb. unfold pci_set_status, u8. rewrite Z.mod_small by done. destruct (fwrite_spec device_status x s E Hx) as [E1 V1].
  apply pci_steps; [done|done|by rewrite V1|by apply settled_status|apply bells_status].
Qed.

Lemma pci_queue_set_ok q size d a u s :
  good s -> 0 <= q < 2 ^ 16 -> fits false size d a u -> steps s (pci_queue_set q size d a u s) (dev_queue q (set_up size d a u) (view s)).
Proof.
  intros [E Hs] Hq [Hsz Hd Ha Hu _]. unfold pci_queue_set, u16. rewrite Z.mod_small by done. destruct (pci_select q s E Hq) as [E1 V1]. set (s1 := fwrite queue_select q s) in *.
  destruct (fwrite_spec queue_size size s1 E1 Hsz) as [E2 V2]. set (s2 := fwrite queue_size size s1) in *.
  destruct (fwrite_spec queue_desc d s2 E2 Hd) as [E3 V3]. set (s3 := fwrite queue_desc d s2) in *.
  destruct (fwrite_spec queue_driver a s3 E3 Ha) as [E4 V4]. set (s4 := fwrite queue_driver a s3) in *.
  destruct (fwrite_spec queue_device u s4 E4 Hu) as [E5 V5]. set (s5 := fwrite queue_device u s4) in *.
  destruct (fwrite_spec queue_enable 1 s5 E5 ltac:(cbn; lia)) as [E6 V6]. set (s6 := fwrite queue_enable 1 s5) in *.
  apply pci_steps; [done|done| |by apply settled_queue|by apply bells_queue].
  rewrite V6, V5, V4, V3, V2, V1. cbn [pci_set on_core p_core p_qsel Z.eqb Pos.eqb]. rewrite !dev_queue_queue. done.
Qed.

Lemma pci_notify_ok q s : good s -> 0 <= q < 2 ^ 16 -> has_bell s q -> exists s', pci_notify q s = Ret s' /\ steps s s' (kick q (view s)).
Proof.
  intros [E Hs] Hq (o & Ho & Hor & Hm & Hm2 & Hlt). unfold pci_notify. destruct (pci_select q s E Hq) as [E1 V1]. destruct (fread_spec queue_notify_off _ E1) as (d2 & -> & V2).
  rewrite V1 in *. cbn [fst snd pci_reg] in *. unfold bells in Ho. rewrite lookup_fmap in Ho. destruct (queues (p_core (pview s.2)) !! q) as [k|] eqn:Ek; [|done]. cbn in Ho. injection Ho as Ho.
  assert (Esel : selected q_notify_off (mkP (p_core (pview s.2)) (p_dfsel (pview s.2)) (p_gfsel (pview s.2)) q) = o) by (unfold selected; cbn; by rewrite Ek).
  rewrite Esel, u64_small by nia. rewrite (proj2 (Z.ltb_lt _ _)) by done. eexists. split; [done|].
  assert (Eo : 2 * (o * notify_off_multiplier t / 2) = o * notify_off_multiplier t).
  { apply Z.mod_divide in Hm2 as [z Hz]; [|done]. rewrite Hz. replace (o * (z * 2)) with (o * z * 2) by lia. rewrite Z.div_mul by done. lia. }
  apply pci_steps; [done|done| |by destruct Hs|done]. cbn [snd]. rewrite pd_ring by (split; [apply Z.div_pos; nia|done]). rewrite V2. unfold ring. cbn [p_core]. rewrite Ek, Eo, Ho, Z.eqb_refl. done.
Qed.

Lemma pci_ack_ok s : good s -> (pci_ack_interrupt s).1 = v_isr (view s) /\ steps s (pci_ack_interrupt s).2 (set_isr 0 (view s)).
Proof.
  intros [E Hs]. unfold pci_ack_interrupt. rewrite E. destruct (pd_isr s.2) as [E1 E2]. destruct (rd 1 _ s.2) as [v d]. cbn [fst snd] in *. split; [done|].
  apply pci_steps; [done|done|cbn [snd]; by rewrite E2|by destruct Hs|done].
Qed.

Lemma pci_config_ok size align offset s :
  good s -> 0 < align <= 4 -> 0 <= offset < 2 ^ 32 -> 0 < size < 2 ^ 32 -> offset mod align = 0 -> offset + size <= config_len s ->
  exists s', pci_read_config_space size align offset s = Ret (Ok (v_config (view s) size offset), s') /\ steps s s' (view s).
Proof.
  intros [E Hs] Hal Ho Hsz Hm Hl. cbn [config_len pci_view] in Hl. unfold pci_read_config_space. rewrite (proj2 (Z.leb_le _ _)), (proj2 (Z.eqb_eq _ _)) by (done || lia). cbn [assert obind].
  rewrite E in *. destruct (config_space t) as [[p len]|] eqn:Ec; [|exfalso; lia]. rewrite u64_small, (proj2 (Z.ltb_ge _ _)) by lia.
  destruct (pd_config p len size offset s.2 Ec ltac:(lia) Hl) as [E1 E2]. destruct (rd size _ s.2) as [v d]. cbn [fst snd] in *. subst v. eexists. split; [done|].
  apply pci_steps; [done|done|cbn [snd]; by rewrite E2|done|done].
Qed.

#[export] Instance pci_ok : @TransportOk pci_transport pci_view.
Proof.
  constructor.
  - exact pci_features_ok.
  - exact pci_accept_ok.
  - exact pci_max_ok.
  - exact pci_get_status_ok.
  - intros x s Hg Hx. apply pci_set_status_ok; [done|lia].
  - intros s Hg. destruct (pci_set_status_ok 0 s Hg ltac:(lia) eq_refl) as [V G _ L B C]. done.
  - intros s Hg. split; [|done]. cbn. destruct Hg. by apply pci_steps.
  - intros q size d a u s Hg _ Hq Hf. eexists. split; [done|]. by apply pci_queue_set_ok.
  - exact pci_used_ok.
  - exact pci_notify_ok.
  - intros s Hg _. by apply pci_ack_ok.
  - intros s [E Hs]. cbn [read_config_generation pci_transport]. destruct (fread_spec config_generation s E) as (d & -> & V). split; [done|].
    apply pci_steps; [done|done|cbn [snd]; by rewrite V|done|done].
  - exact pci_config_ok.
Qed.
End pci_device.

(** ** Instances *)

(** A network device as its registers, behind four windows. *)
Module CardRegs.
Definition fields : list CommonCfg :=
  [device_feature_select; device_feature; driver_feature_select; driver_feature; msix_config; num_queues; device_status;
   config_generation; queue_select; queue_size; queue_msix_vector; queue_enable; queue_notify_off; queue_desc; queue_driver; queue_device].
Definition find_field (a : Z) : option CommonCfg := snd <$> list_find (fun f => 0x1000 + field_offset f = a) fields.

Definition transport : PciTransport := mkPciTransport Network (mkDF 0 3 0) 0x1000 (0x2000, 8) 4 0x3000 (Some (0x4000, 16)).

#[export] Instance regs_mmio : Mmio := {|
  dev := pregs;
  rd size a d :=
    if a =? 0x3000 then (v_isr (p_core d), on_core (set_isr 0) d)
    else if 0x4000 <=? a then (v_config (p_core d) size (a - 0x4000), d)
    else match find_field a with Some f => (pci_reg f d, d) | None => (0, d) end;
  wr size a x d :=
    if (0x2000 <=? a) && (a <? 0x3000) then ring 4 (a - 0x2000) x d
    else match find_field a with Some f => pci_set f x d | None => d end
|}.

#[export] Instance regs_device : PciDevice transport.
Proof.
  refine {| pview := (fun d : @dev regs_mmio => d : pregs) |}.
  - intros f d. destruct f; split; reflexivity.
  - intros f x d _. destruct f; reflexivity.
  - intros d. split; reflexivity.
  - intros i x d Hi. cbn [wr regs_mmio notify_region transport fst snd] in *. rewrite (proj2 (Z.leb_le _ _)), (proj2 (Z.ltb_lt _ _)) by lia. cbn [andb]. by replace (0x2000 + 2 * i - 0x2000) with (2 * i) by lia.
  - intros p len size offset d [= <- <-] Ho Hl. cbn [rd regs_mmio]. rewrite (proj2 (Z.eqb_neq _ _)), (proj2 (Z.leb_le _ _)) by lia.
    replace (0x4000 + offset - 0x4000) with offset by lia. done.
Defined.

Definition idle_queue : queue := mkQ 256 false 256 0 0 0 1.
Definition card : vdevice := mkV (2 ^ 32 + 2 ^ 5 + 2 ^ 3) (fun _ => true) 7 15 {[0 := set_up 64 1 2 3 idle_queue; 1 := idle_queue]} 0 [] (fun size offset => size * 1000 + offset) 0.
Definition start : @tr pci_transport := (transport, mkP card 0 0 0).

Lemma start_good : @good _ pci_view start.
Proof.
  split; [done|]. constructor; [vm_compute; split; [discriminate|reflexivity]|reflexivity|].
  intros i q. cbn. intros Hi. destruct (Z.eq_dec i 0) as [->|H0]; [vm_compute in Hi; by injection Hi as <-|].
  destruct (Z.eq_dec i 1) as [->|H1]; [vm_compute in Hi; by injection Hi as <-|]. rewrite lookup_insert_ne, lookup_singleton_ne in Hi by done. done.
Qed.

#[export] Instance pages_hal : Hal := {|
  hal_dma_alloc log n _ := let p := 0x100000 + 0x10000 * (zlen log mod 1024) in (p, p);
  hal_dma_dealloc _ _ _ _ := 0;
  hal_share _ buffer _ := buf_ptr buffer;
  hal_box _ _ := 0
|}.
#[export] Instance pages_hal_ok : DmaOk.
Proof.
  constructor; [|done]. intros log n dir Hn. cbn. right. pose proof (Z.mod_pos_bound (zlen log) 1024 ltac:(lia)). split; [Z.div_mod_to_equations; lia|]. lia.
Qed.
End CardRegs.
Import CardRegs.

Lemma handshake_witness :
  let '(n, t') := @begin_init pci_transport NET_FEATURES SUPPORTED_FEATURES CardRegs.start in
  n = 2 ^ 32 + 2 ^ 5 /\ accepted (@view _ pci_view t') = n /\ v_status (@view _ pci_view (@finish_init pci_transport t')) = 15.
Proof.
  pose proof (@handshake _ _ pci_ok NET_FEATURES SUPPORTED_FEATURES CardRegs.start CardRegs.start_good ltac:(vm_compute; split; [discriminate|reflexivity]) eq_refl) as Hh.
  destruct (@begin_init pci_transport NET_FEATURES SUPPORTED_FEATURES CardRegs.start) as [n t']. destruct Hh as (Hn & Ha & _ & _ & Hs). split; [exact Hn|split; [exact Ha|exact Hs]].
Defined.

Lemma net_device_ready_witness :
  exists d t', @net_bring_up pci_transport _ 1 16 CardRegs.start = Ret (Ok d, t') /\
    accepted (@view _ pci_view t') = 2 ^ 32 + 2 ^ 5 /\ v_status (@view _ pci_view t') = 15.
Proof.
  destruct (@net_device_ready _ _ pci_ok _ CardRegs.pages_hal_ok 0 16 CardRegs.start CardRegs.start_good) as (r & t' & E & Hr).
  - split; [reflexivity|lia].
  - vm_compute. discriminate.
  - vm_compute. discriminate.
  - vm_compute. discriminate.
  - destruct r as [d|e]; [|destruct Hr as (_ & log & n & dir & Hno); pose proof (Z.mod_pos_bound (zlen log) 1024 ltac:(lia)); cbn in Hno; lia].
    exists d, t'. split; [exact E|]. destruct Hr as (_ & _ & _ & Ha & Hs). split; [exact Ha|exact Hs].
Defined.
