(* ===== verification/TransportMmio.v ===== *)
(** * The memory-mapped transport meets the interface

    A device whose registers behave as the specification says, with the legacy
    interface, where the driver gives a page number, or the modern one, where it gives
    the three addresses: in both, [MmioTransport] is a [TransportOk]. *)

From S2P Require Import Prelude Virtq Net Pci Transport TransportProofs.

(** ** The registers *)

Record mregs := mkM { m_core : vdevice; m_dfsel : Z; m_gfsel : Z; m_qsel : Z; m_page : Z; m_align : Z }.
Definition m_on (f : vdevice -> vdevice) (m : mregs) : mregs := mkM (f (m_core m)) (m_dfsel m) (m_gfsel m) (m_qsel m) (m_page m) (m_align m).
Definition m_selected (f : queue -> Z) (m : mregs) : Z := match queues (m_core m) !! m_qsel m with Some q => f q | None => 0 end.

Definition with_size x q := mkQ (q_max q) (q_on q) x (q_desc q) (q_driver q) (q_device q) (q_notify_off q).
Definition with_desc x q := mkQ (q_max q) (q_on q) (q_size q) x (q_driver q) (q_device q) (q_notify_off q).
Definition with_driver x q := mkQ (q_max q) (q_on q) (q_size q) (q_desc q) x (q_device q) (q_notify_off q).
Definition with_device x q := mkQ (q_max q) (q_on q) (q_size q) (q_desc q) (q_driver q) x (q_notify_off q).
Definition with_on x q := mkQ (q_max q) x (q_size q) (q_desc q) (q_driver q) (q_device q) (q_notify_off q).

(** The legacy layout: the three areas one after the other, the last at a multiple of
    the alignment. *)
Definition legacy_areas (page align pfn : Z) (q : queue) : queue :=
  let d := pfn * page in
  let a := d + 16 * q_size q in
  set_up (q_size q) d a (d + (16 * q_size q + 2 * (q_size q + 3) + (align - 1)) / align * align) q.

Definition mmio_reg (f : VirtIOHeader) (m : mregs) : Z :=
  match f with
  | h_device_features => half (m_dfsel m) (offered (m_core m))
  | h_queue_num_max => m_selected q_max m
  | h_legacy_queue_pfn => m_selected (fun q => if q_on q then q_desc q / m_page m else 0) m
  | h_queue_ready => m_selected (fun q => if q_on q then 1 else 0) m
  | h_interrupt_status => v_isr (m_core m)
  | h_status => v_status (m_core m)
  | h_config_generation => v_generation (m_core m)
  | _ => 0
  end.

Definition mmio_set (f : VirtIOHeader) (x : Z) (m : mregs) : mregs :=
  let at_queue g := m_on (dev_queue (m_qsel m) g) m in
  match f with
  | h_device_features_sel => mkM (m_core m) x (m_gfsel m) (m_qsel m) (m_page m) (m_align m)
  | h_driver_features_sel => mkM (m_core m) (m_dfsel m) x (m_qsel m) (m_page m) (m_align m)
  | h_driver_features => m_on (dev_accept (set_half (m_gfsel m) x (accepted (m_core m)))) m
  | h_legacy_guest_page_size => mkM (m_core m) (m_dfsel m) (m_gfsel m) (m_qsel m) x (m_align m)
  | h_queue_sel => mkM (m_core m) (m_dfsel m) (m_gfsel m) x (m_page m) (m_align m)
  | h_queue_num => at_queue (with_size x)
  | h_legacy_queue_align => mkM (m_core m) (m_dfsel m) (m_gfsel m) (m_qsel m) (m_page m) x
  | h_legacy_queue_pfn => at_queue (if x =? 0 then off_queue else legacy_areas (m_page m) (m_align m) x)
  | h_queue_ready => at_queue (with_on (x =? 1))
  | h_queue_notify => m_on (kick x) m
  | h_interrupt_ack => m_on (fun v => set_isr (Z.ldiff (v_isr v) x) v) m
  | h_status =>
      let m := m_on (dev_set_status x) m in
      if x =? 0 then mkM (m_core m) (m_dfsel m) (m_gfsel m) (m_qsel m) 0 0 else m
  | h_queue_desc_low => at_queue (fun q => with_desc (set_half 0 x (q_desc q)) q)
  | h_queue_desc_high => at_queue (fun q => with_desc (set_half 1 x (q_desc q)) q)
  | h_queue_driver_low => at_queue (fun q => with_driver (set_half 0 x (q_driver q)) q)
  | h_queue_driver_high => at_queue (fun q => with_driver (set_half 1 x (q_driver q)) q)
  | h_queue_device_low => at_queue (fun q => with_device (set_half 0 x (q_device q)) q)
  | h_queue_device_high => at_queue (fun q => with_device (set_half 1 x (q_device q)) q)
  | _ => m
  end.

Class MmioDevice `{Mmio} (t : MmioTransport) := {
  mview : dev -> mregs;
  md_read : forall f d, (rd 4 (header t + header_offset f) d).1 = mmio_reg f (mview d) /\ mview (rd 4 (header t + header_offset f) d).2 = mview d;
  md_write : forall f x d, 0 <= x < 2 ^ 32 -> mview (wr 4 (header t + header_offset f) x d) = mmio_set f x (mview d);
  md_config : forall size offset d, 0 <= offset -> offset + size <= (m_config_space t).2 ->
    (rd size ((m_config_space t).1 + offset) d).1 = v_config (m_core (mview d)) size offset /\ mview (rd size ((m_config_space t).1 + offset) d).2 = mview d
}.

(** The alignment of the source is the specification's, but for a multiple of a page. *)
Lemma align_up_exact x : 0 <= x < 2 ^ 32 -> x mod 4096 <> 0 -> align_up (u64 x) = (x + 4095) / 4096 * 4096.
Proof.
  intros Hx Hm. unfold align_up, PAGE_SIZE. rewrite !u64_small by (rewrite ?u64_small by lia; lia). change (4096 - 1) with (Z.ones 12). rewrite and_not_ones by lia.
  change (2 ^ 12) with 4096. Z.div_mod_to_equations; lia.
Qed.

(** The registers after a write, from those before it. *)
Ltac norm_regs V V' :=
  rewrite V in V'; unfold mmio_set, m_on in V'; cbn [m_core m_qsel m_page m_dfsel m_gfsel m_align] in V'.

Section mmio_device.
Context `{MmioDevice}.

#[export] Instance mmio_view : @TransportView mmio_transport := {|
  view := (fun s => m_core (mview s.2)) : @tr mmio_transport -> vdevice;
  good := (fun s => s.1 = t /\ 0 <= offered (m_core (mview s.2)) < 2 ^ 64 /\
             forall i q, queues (m_core (mview s.2)) !! i = Some q -> q_on q = true -> version t = MLegacy -> 4096 <= q_desc q /\ m_page (mview s.2) = 4096) : @tr mmio_transport -> Prop;
  paged := (fun s => version s.1 = MLegacy -> m_page (mview s.2) = 4096) : @tr mmio_transport -> Prop;
  has_bell := fun _ _ => True;
  config_len := (fun s => (m_config_space s.1).2) : @tr mmio_transport -> Z
|}.

Lemma hread_spec f s : s.1 = t -> exists d, hread f s = (mmio_reg f (mview s.2), (t, d)) /\ mview d = mview s.2.
Proof.
  intros E. unfold hread, hread_at. rewrite E. destruct (md_read f s.2) as [E1 E2]. destruct (rd _ _ s.2) as [v d]. cbn in *. subst v. eauto.
Qed.
Lemma hwrite_spec f x s : s.1 = t -> 0 <= x < 2 ^ 32 -> (hwrite f x s).1 = t /\ mview (hwrite f x s).2 = mmio_set f x (mview s.2).
Proof. intros E Hx. unfold hwrite. cbn. rewrite E. by rewrite md_write. Qed.

(** Nothing but the selectors has changed. *)
Lemma mmio_quiet (s s' : @tr mmio_transport) :
  good s -> s'.1 = t -> m_core (mview s'.2) = m_core (mview s.2) -> m_page (mview s'.2) = m_page (mview s.2) -> steps s s' (view s).
Proof.
  intros (E & Ho & Hq) E' Ev Ep. constructor; cbn; [done| | |by rewrite E, E'|done|by rewrite E, E'].
  - rewrite Ev, Ep. done.
  - rewrite E, E', Ep. done.
Qed.

Lemma mmio_features_ok s : good s -> (mmio_read_device_features s).1 = offered (view s) /\ steps s (mmio_read_device_features s).2 (view s).
Proof.
  intros Hg. pose proof Hg as (E & Ho & _). unfold mmio_read_device_features.
  destruct (hwrite_spec h_device_features_sel 0 s E ltac:(lia)) as [E1 V1]. destruct (hread_spec h_device_features _ E1) as (d2 & -> & V2).
  destruct (hwrite_spec h_device_features_sel 1 (t, d2) eq_refl ltac:(lia)) as [E3 V3]. destruct (hread_spec h_device_features _ E3) as (d4 & -> & V4).
  rewrite V3 in *. cbn [snd] in *. rewrite V2, V1 in *. cbn [fst snd mmio_reg mmio_set m_dfsel m_core] in *. split; [|apply mmio_quiet; [done|done|cbn [snd]; by rewrite V4..]].
  rewrite Z.shiftl_mul_pow2, halves, u64_small by (done || lia). done.
Qed.

Lemma mmio_steps (s s' : @tr mmio_transport) v :
  good s -> s'.1 = t -> m_core (mview s'.2) = v -> offered v = offered (view s) -> queues v = queues (view s) -> m_page (mview s'.2) = m_page (mview s.2) -> steps s s' v.
Proof.
  intros (E & Ho & Hq) E' Ev Eo Eq Ep. constructor; cbn; [done| |by rewrite E, E', Ep|by rewrite E, E'|done|by rewrite E, E'].
  rewrite Ev, Ep, Eo, Eq. done.
Qed.

Lemma mmio_accept_ok x s : good s -> 0 <= x < 2 ^ 64 -> steps s (mmio_write_driver_features x s) (dev_accept x (view s)).
Proof.
  intros Hg Hx. pose proof Hg as (E & _). unfold mmio_write_driver_features. change (u32 x) with (half 0 x). change (u32 (Z.shiftr x 32)) with (half 1 x).
  destruct (hwrite_spec h_driver_features_sel 0 s E ltac:(lia)) as [E1 V1]. set (s1 := hwrite h_driver_features_sel 0 s) in *.
  destruct (hwrite_spec h_driver_features (half 0 x) s1 E1 (half_range 0 x)) as [E2 V2]. set (s2 := hwrite h_driver_features _ s1) in *.
  destruct (hwrite_spec h_driver_features_sel 1 s2 E2 ltac:(lia)) as [E3 V3]. set (s3 := hwrite h_driver_features_sel 1 s2) in *.
  destruct (hwrite_spec h_driver_features (half 1 x) s3 E3 (half_range 1 x)) as [E4 V4]. set (s4 := hwrite h_driver_features _ s3) in *.
  apply mmio_steps; [done|done| | | |by rewrite V4, V3, V2, V1].
  - rewrite V4, V3, V2, V1. cbn [mmio_set m_on m_core m_gfsel]. by rewrite accept_halves.
  - unfold dev_accept. by destruct (Z.testbit _ _).
  - unfold dev_accept. by destruct (Z.testbit _ _).
Qed.

Lemma mmio_select q s : s.1 = t -> 0 <= q < 2 ^ 16 -> (hwrite h_queue_sel q s).1 = t /\ mview (hwrite h_queue_sel q s).2 = mmio_set h_queue_sel q (mview s.2).
Proof. intros E Hq. apply hwrite_spec; [done|lia]. Qed.

Lemma mmio_max_ok q s : good s -> 0 <= q < 2 ^ 16 -> (mmio_max_queue_size q s).1 = max_of (view s) q /\ steps s (mmio_max_queue_size q s).2 (view s).
Proof.
  intros Hg Hq. pose proof Hg as (E & _). unfold mmio_max_queue_size. destruct (mmio_select q s E Hq) as [E1 V1]. destruct (hread_spec h_queue_num_max _ E1) as (d2 & -> & V2).
  rewrite V1 in *. split; [done|]. apply mmio_quiet; [done|done|cbn [snd]; by rewrite V2..].
Qed.

Lemma mmio_used_ok q s : good s -> 0 <= q < 2 ^ 16 -> (mmio_queue_used q s).1 = is_on (view s) q /\ steps s (mmio_queue_used q s).2 (view s).
Proof.
  intros Hg Hq. pose proof Hg as (E & _ & Hon). unfold mmio_queue_used. destruct (mmio_select q s E Hq) as [E1 V1]. rewrite E1.
  destruct (version t) eqn:Ev.
  - destruct (hread_spec h_legacy_queue_pfn _ E1) as (d2 & -> & V2). rewrite V1 in *. split; [|apply mmio_quiet; [done|done|cbn [snd]; by rewrite V2..]].
    cbn [fst mmio_reg mmio_set]. unfold m_selected, is_on. cbn. destruct (queues _ !! q) as [k|] eqn:Ek; [|done]. destruct (q_on k) eqn:Eo; [|done].
    destruct (Hon q k Ek Eo eq_refl) as [Hd ->]. apply negb_true_iff, Z.eqb_neq. Z.div_mod_to_equations; lia.
  - destruct (hread_spec h_queue_ready _ E1) as (d2 & -> & V2). rewrite V1 in *. split; [|apply mmio_quiet; [done|done|cbn [snd]; by rewrite V2..]].
    cbn [fst mmio_reg mmio_set]. unfold m_selected, is_on. cbn. destruct (queues _ !! q) as [k|]; [|done]. by destruct (q_on k).
Qed.

Lemma mmio_set_status_ok x s : good s -> 0 < x < 2 ^ 8 -> steps s (hwrite h_status x s) (dev_set_status x (view s)).
Proof.
  intros Hg Hx. pose proof Hg as (E & _). destruct (hwrite_spec h_status x s E ltac:(lia)) as [E1 V1]. cbn [mmio_set] in V1. rewrite (proj2 (Z.eqb_neq x 0)) in V1 by lia.
  apply mmio_steps; [done|done|by rewrite V1| | |by rewrite V1]; unfold dev_set_status; by rewrite (proj2 (Z.eqb_neq x 0)) by lia.
Qed.

Lemma mmio_reset_ok s :
  good s -> view (hwrite h_status 0 s : @tr mmio_transport) = dev_set_status 0 (view s) /\ good (hwrite h_status 0 s : @tr mmio_transport).
Proof.
  intros (E & Ho & _). destruct (hwrite_spec h_status 0 s E ltac:(lia)) as [E1 V1]. set (s1 := hwrite h_status 0 s) in *. cbn [view good mmio_view]. rewrite V1. split; [done|]. split; [done|]. split; [done|].
  cbn. intros i q. rewrite lookup_fmap. destruct (queues _ !! i); cbn; [|done]. by intros [= <-].
Qed.

(** Setting up a queue; the invariant on the page number. *)
Lemma mmio_install q size d a u s (s' : @tr mmio_transport) :
  good s -> s'.1 = t -> mview s'.2 = mkM (dev_queue q (set_up size d a u) (view s)) (m_dfsel (mview s'.2)) (m_gfsel (mview s'.2)) (m_qsel (mview s'.2)) (m_page (mview s.2)) (m_align (mview s'.2)) ->
  (version t = MLegacy -> 4096 <= d /\ m_page (mview s.2) = 4096) -> steps s s' (dev_queue q (set_up size d a u) (view s)).
Proof.
  intros (E & Ho & Hq) E' Ev Hl. constructor; cbn; [by rewrite Ev| | |by rewrite E, E'|done|by rewrite E, E'].
  - rewrite Ev. split; [done|]. split; [done|]. cbn. intros i k. destruct (Z.eq_dec q i) as [<-|Hne].
    + rewrite lookup_alter_eq. destruct (queues _ !! q); cbn; [|done]. intros [= <-] _. done.
    + rewrite lookup_alter_ne by done. apply Hq.
  - rewrite Ev, E, E'. done.
Qed.

Lemma mmio_modern_ok q size d a u s :
  good s -> version t = MModern -> 0 <= q < 2 ^ 16 -> fits false size d a u ->
  exists s', mmio_queue_set q size d a u s = Ret s' /\ steps s s' (dev_queue q (set_up size d a u) (view s)).
Proof.
  intros Hg Hv Hq [Hsz Hd Ha Hu _]. pose proof Hg as (E & _). unfold mmio_queue_set. rewrite E, Hv. eexists. split; [done|].
  change (u32 d) with (half 0 d). change (u32 a) with (half 0 a). change (u32 u) with (half 0 u).
  change (u32 (Z.shiftr d 32)) with (half 1 d). change (u32 (Z.shiftr a 32)) with (half 1 a). change (u32 (Z.shiftr u 32)) with (half 1 u).
  destruct (mmio_select q s E Hq) as [E1 V1]. set (s1 := hwrite h_queue_sel q s) in *.
  destruct (hwrite_spec h_queue_num size s1 E1 ltac:(lia)) as [E2 V2]. set (s2 := hwrite h_queue_num size s1) in *. norm_regs V1 V2.
  destruct (hwrite_spec h_queue_desc_low (half 0 d) s2 E2 (half_range _ _)) as [E3 V3]. set (s3 := hwrite h_queue_desc_low _ s2) in *. norm_regs V2 V3.
  destruct (hwrite_spec h_queue_desc_high (half 1 d) s3 E3 (half_range _ _)) as [E4 V4]. set (s4 := hwrite h_queue_desc_high _ s3) in *. norm_regs V3 V4.
  destruct (hwrite_spec h_queue_driver_low (half 0 a) s4 E4 (half_range _ _)) as [E5 V5]. set (s5 := hwrite h_queue_driver_low _ s4) in *. norm_regs V4 V5.
  destruct (hwrite_spec h_queue_driver_high (half 1 a) s5 E5 (half_range _ _)) as [E6 V6]. set (s6 := hwrite h_queue_driver_high _ s5) in *. norm_regs V5 V6.
  destruct (hwrite_spec h_queue_device_low (half 0 u) s6 E6 (half_range _ _)) as [E7 V7]. set (s7 := hwrite h_queue_device_low _ s6) in *. norm_regs V6 V7.
  destruct (hwrite_spec h_queue_device_high (half 1 u) s7 E7 (half_range _ _)) as [E8 V8]. set (s8 := hwrite h_queue_device_high _ s7) in *. norm_regs V7 V8.
  destruct (hwrite_spec h_queue_ready 1 s8 E8 ltac:(lia)) as [E9 V9]. set (s9 := hwrite h_queue_ready 1 s8) in *. norm_regs V8 V9.
  apply mmio_install; [done|done| |by rewrite Hv].
  rewrite V9. cbn [m_core m_qsel m_page m_dfsel m_gfsel m_align]. f_equal. rewrite !dev_queue_queue.
  unfold dev_queue. f_equal. apply alter_ext. intros k _. unfold with_on, with_device, with_driver, with_desc, with_size, set_up. cbn [q_max q_size q_desc q_driver q_device q_notify_off q_on].
  by rewrite !set_halves.
Qed.

Lemma mmio_legacy_ok q size d a u s :
  good s -> paged s -> version t = MLegacy -> 0 <= q < 2 ^ 16 -> fits true size d a u ->
  exists s', mmio_queue_set q size d a u s = Ret s' /\ steps s s' (dev_queue q (set_up size d a u) (view s)).
Proof.
  intros Hg Hp Hv Hq [Hsz Hd Ha Hu Hl]. destruct (Hl eq_refl) as (Hd4 & Hd44 & -> & -> & Hx). pose proof Hg as (E & _). cbn in Hp. rewrite E in Hp. specialize (Hp Hv).
  assert (Hdiv : d / PAGE_SIZE * PAGE_SIZE = d) by (unfold PAGE_SIZE; Z.div_mod_to_equations; lia).
  assert (Hpf : 0 < d / PAGE_SIZE < 2 ^ 32) by (unfold PAGE_SIZE; Z.div_mod_to_equations; lia).
  unfold mmio_queue_set. rewrite E, Hv. unfold legacy_used in *.
  rewrite (u64_small (d + 16 * size - d)), (u64_small (16 * size)), Z.add_simpl_l, Z.eqb_refl by lia. cbn [assert obind].
  assert (Eal : u64 (d + (18 * size + 6 + 4095) / 4096 * 4096 - d) = align_up (u64 (16 * size + 2 * (size + 3)))).
  { replace (16 * size + 2 * (size + 3)) with (18 * size + 6) by lia. rewrite align_up_exact by (done || lia). rewrite Z.add_simpl_l. apply u64_small. Z.div_mod_to_equations; lia. }
  rewrite Eal, Z.eqb_refl. cbn [assert obind]. rewrite (proj2 (Z.ltb_lt _ _)), (proj2 (Z.eqb_eq _ _)) by (done || lia). cbn [assert obind]. eexists. split; [done|].
  destruct (mmio_select q s E Hq) as [E1 V1]. set (s1 := hwrite h_queue_sel q s) in *.
  destruct (hwrite_spec h_queue_num size s1 E1 ltac:(lia)) as [E2 V2]. set (s2 := hwrite h_queue_num size s1) in *. norm_regs V1 V2.
  destruct (hwrite_spec h_legacy_queue_align PAGE_SIZE s2 E2 ltac:(unfold PAGE_SIZE; lia)) as [E3 V3]. set (s3 := hwrite h_legacy_queue_align _ s2) in *. norm_regs V2 V3.
  destruct (hwrite_spec h_legacy_queue_pfn (d / PAGE_SIZE) s3 E3 ltac:(lia)) as [E4 V4]. set (s4 := hwrite h_legacy_queue_pfn _ s3) in *. norm_regs V3 V4.
  apply mmio_install; [done|done| |intros _; split; [unfold PAGE_SIZE in *; lia|done]].
  rewrite V4. cbn [m_core m_qsel m_page m_dfsel m_gfsel m_align]. rewrite (proj2 (Z.eqb_neq (d / PAGE_SIZE) 0)) by lia. f_equal. rewrite !dev_queue_queue.
  unfold dev_queue. f_equal. apply alter_ext. intros k _. unfold legacy_areas, with_size, set_up. cbn [q_max q_size q_desc q_driver q_device q_notify_off q_on].
  rewrite Hp. unfold PAGE_SIZE in *. rewrite Hdiv. do 3 f_equal; try lia. f_equal. lia.
Qed.

#[export] Instance mmio_ok : @TransportOk mmio_transport mmio_view.
Proof.
  constructor.
  - exact mmio_features_ok.
  - exact mmio_accept_ok.
  - intros q s Hg Hq _. by apply mmio_max_ok.
  - intros s Hg. pose proof Hg as (E & _). cbn [get_status mmio_transport]. destruct (hread_spec h_status s E) as (d & -> & V). split; [done|]. apply mmio_quiet; [done|done|cbn [snd]; by rewrite V..].
  - intros x s Hg Hx _. by apply mmio_set_status_ok.
  - intros s Hg. destruct (mmio_reset_ok s Hg) as [V G]. split_and!; [exact V|exact G|done|done|done].
  - intros s Hg. pose proof Hg as (E & Ho & Hq). cbn [set_guest_page_size mmio_transport]. unfold mmio_set_guest_page_size. rewrite E.
    destruct (version t) eqn:Ev; [|split; [by apply mmio_quiet|cbn; by rewrite E, Ev]].
    destruct (hwrite_spec h_legacy_guest_page_size 4096 s E ltac:(lia)) as [E1 V1]. set (s1 := hwrite _ 4096 s) in *. cbn [mmio_set] in V1.
    split; [|cbn [paged mmio_view]; intros _; by rewrite V1]. constructor; cbn [view good paged mmio_view requires_legacy_layout mmio_transport config_len]; [by rewrite V1| |intros _ _; by rewrite V1|by rewrite E, E1|done|by rewrite E, E1].
    rewrite V1. split; [done|]. split; [done|]. cbn. intros i q Hi Hon Hv. by destruct (Hq i q Hi Hon eq_refl).
  - intros q size d a u s Hg Hp Hq Hf. pose proof Hg as (E & _). cbn in Hf. rewrite E in Hf. destruct (version t) eqn:Ev; [by apply mmio_legacy_ok|by apply mmio_modern_ok].
  - exact mmio_used_ok.
  - intros q s Hg Hq _. pose proof Hg as (E & _). cbn [notify mmio_transport]. eexists. split; [done|]. destruct (hwrite_spec h_queue_notify q s E ltac:(lia)) as [E1 V1].
    apply mmio_steps; [done|done|by rewrite V1|done|done|by rewrite V1].
  - intros s Hg Hi. pose proof Hg as (E & _). cbn [ack_interrupt mmio_transport]. unfold mmio_ack_interrupt. destruct (hread_spec h_interrupt_status s E) as (d & -> & V). cbn [mmio_reg].
    set (i := v_isr (m_core (mview s.2))) in *. assert (Hi4 : 0 <= i < 4) by exact Hi. destruct (i =? 0) eqn:Ez; bool_to_prop; cbn [negb fst snd].
    + split; [done|]. apply mmio_steps; [done|done| |done|done|cbn [snd]; by rewrite V]. cbn [snd]. rewrite V. cbn. fold i. unfold set_isr. rewrite <- Ez. unfold i. by destruct (m_core (mview s.2)).
    + destruct (hwrite_spec h_interrupt_ack i (t, d) eq_refl ltac:(lia)) as [E1 V1]. cbn [snd] in V1. rewrite V in V1. split.
      * change INTERRUPT_BITS with (Z.ones 2). rewrite Z.land_ones by lia. by apply Z.mod_small.
      * apply mmio_steps; [done|done| |done|done|by rewrite V1]. rewrite V1. cbn. fold i. by rewrite Z.ldiff_diag.
  - intros s Hg. pose proof Hg as (E & _). cbn [read_config_generation mmio_transport]. destruct (hread_spec h_config_generation s E) as (d & -> & V). split; [done|]. apply mmio_quiet; [done|done|cbn [snd]; by rewrite V..].
  - intros size align offset s Hg Hal Ho Hsz Hm Hl. pose proof Hg as (E & _). cbn [config_len mmio_view] in Hl. cbn [read_config_space mmio_transport]. unfold mmio_read_config_space.
    rewrite (proj2 (Z.leb_le _ _)), (proj2 (Z.eqb_eq _ _)) by (done || lia). cbn [assert obind]. rewrite E in *. rewrite u64_small, (proj2 (Z.ltb_ge _ _)) by lia.
    destruct (md_config size offset s.2 ltac:(lia) Hl) as [E1 E2]. destruct (rd size _ s.2) as [v d]. cbn [fst snd] in *. subst v. eexists. split; [done|].
    apply mmio_quiet; [done|done|cbn [snd]; by rewrite E2..].
Qed.

(** Turning a queue off, by any change that leaves it off. *)
Lemma mmio_turned_off q f s (s' : @tr mmio_transport) :
  good s -> s'.1 = t -> m_core (mview s'.2) = dev_queue q f (view s) -> m_page (mview s'.2) = m_page (mview s.2) ->
  (forall k, q_on (f k) = false /\ q_max (f k) = q_max k) ->
  good s' /\ is_on (view s') q = false /\ (forall i, max_of (view s') i = max_of (view s) i) /\ (forall i, i <> q -> queues (view s') !! i = queues (view s) !! i).
Proof.
  intros (E & Ho & Hq) E' Ev Ep Hf. cbn [good view mmio_view]. rewrite Ev, Ep. split_and!; [done|cbn; lia..| | | |].
  - cbn. intros i k. destruct (Z.eq_dec q i) as [<-|Hne].
    + rewrite lookup_alter_eq. destruct (queues _ !! q) as [k'|]; cbn; [|done]. intros [= <-]. by rewrite (proj1 (Hf k')).
    + rewrite lookup_alter_ne by done. apply Hq.
  - unfold is_on. cbn. rewrite lookup_alter_eq. destruct (queues _ !! q) as [k|]; cbn; [|done]. apply Hf.
  - intros i. unfold max_of. cbn. destruct (Z.eq_dec q i) as [<-|Hne]; [|by rewrite lookup_alter_ne]. rewrite lookup_alter_eq. destruct (queues _ !! q) as [k|]; cbn; [|done]. apply Hf.
  - intros i Hne. cbn. by rewrite lookup_alter_ne.
Qed.

Lemma mmio_unset_run fuel q s :
  good s -> 0 <= q < 2 ^ 16 ->
  exists s', mmio_queue_unset (S fuel) q s = Ret s' /\ good s' /\ is_on (view s') q = false /\
    (forall i, max_of (view s') i = max_of (view s) i) /\ (forall i, i <> q -> queues (view s') !! i = queues (view s) !! i).
Proof.
  intros Hg Hq. pose proof Hg as (E & _).
  unfold mmio_queue_unset. destruct (mmio_select q s E Hq) as [E1 V1]. set (s1 := hwrite h_queue_sel q s) in *. rewrite E1. destruct (version t) eqn:Ev.
  - destruct (hwrite_spec h_queue_num 0 s1 E1 ltac:(lia)) as [E2 V2]. set (s2 := hwrite h_queue_num 0 s1) in *. norm_regs V1 V2.
    destruct (hwrite_spec h_legacy_queue_align 0 s2 E2 ltac:(lia)) as [E3 V3]. set (s3 := hwrite h_legacy_queue_align _ s2) in *. norm_regs V2 V3.
    destruct (hwrite_spec h_legacy_queue_pfn 0 s3 E3 ltac:(lia)) as [E4 V4]. set (s4 := hwrite h_legacy_queue_pfn _ s3) in *. norm_regs V3 V4.
    exists s4. split; [done|]. cbn [Z.eqb] in V4. rewrite dev_queue_queue in V4. eapply mmio_turned_off; [done|done|by rewrite V4|by rewrite V4|done].
  - destruct (hwrite_spec h_queue_ready 0 s1 E1 ltac:(lia)) as [E2 V2]. set (s2 := hwrite h_queue_ready 0 s1) in *. norm_regs V1 V2.
    cbn [mmio_wait_unready]. destruct (hread_spec h_queue_ready s2 E2) as (d & -> & Vd). rewrite V2 in Vd |- *.
    assert (Er : mmio_reg h_queue_ready (mview s2.2) = 0).
    { rewrite V2. cbn [mmio_reg]. unfold m_selected. cbn. rewrite lookup_alter_eq. by destruct (queues _ !! q). }
    rewrite V2 in Er. rewrite Er. cbn [Z.eqb obind]. set (s3 := (t, d)). assert (E3 : s3.1 = t) by done. assert (V3 : mview s3.2 = mview d) by done. rewrite Vd in V3.
    destruct (hwrite_spec h_queue_num 0 s3 E3 ltac:(lia)) as [E4 V4]. set (s4 := hwrite h_queue_num 0 s3) in *. norm_regs V3 V4.
    destruct (hwrite_spec h_queue_desc_low 0 s4 E4 ltac:(lia)) as [E5 V5]. set (s5 := hwrite h_queue_desc_low 0 s4) in *. norm_regs V4 V5.
    destruct (hwrite_spec h_queue_desc_high 0 s5 E5 ltac:(lia)) as [E6 V6]. set (s6 := hwrite h_queue_desc_high 0 s5) in *. norm_regs V5 V6.
    destruct (hwrite_spec h_queue_driver_low 0 s6 E6 ltac:(lia)) as [E7 V7]. set (s7 := hwrite h_queue_driver_low 0 s6) in *. norm_regs V6 V7.
    destruct (hwrite_spec h_queue_driver_high 0 s7 E7 ltac:(lia)) as [E8 V8]. set (s8 := hwrite h_queue_driver_high 0 s7) in *. norm_regs V7 V8.
    destruct (hwrite_spec h_queue_device_low 0 s8 E8 ltac:(lia)) as [E9 V9]. set (s9 := hwrite h_queue_device_low 0 s8) in *. norm_regs V8 V9.
    destruct (hwrite_spec h_queue_device_high 0 s9 E9 ltac:(lia)) as [E10 V10]. set (s10 := hwrite h_queue_device_high 0 s9) in *. norm_regs V9 V10.
    exists s10. split; [done|]. rewrite !dev_queue_queue in V10. eapply mmio_turned_off; [done|done|by rewrite V10|by rewrite V10|done].
Qed.

(** Giving a queue back.  On the memory-mapped transport [queue_unset] turns the
    queue off in both versions, in one pass of its waiting loop on a device that
    follows the specification; the other queues keep their state, and the queue can be
    made again: it is not used and has its greatest size. *)
Theorem queue_unset_frees fuel q s :
  good s -> 0 <= q < 2 ^ 16 ->
  exists s', mmio_queue_unset (S fuel) q s = Ret s' /\ good s' /\ is_on (view s') q = false /\
    (forall i, max_of (view s') i = max_of (view s) i) /\ (forall i, i <> q -> queues (view s') !! i = queues (view s) !! i) /\
    (mmio_queue_used q s').1 = false.
Proof.
  intros Hg Hq. destruct (mmio_unset_run fuel q s Hg Hq) as (s' & E' & Hg' & Hoff & Hmax & Hrest). exists s'. split_and!; [done..|].
  destruct (mmio_used_ok q s' Hg' Hq) as [Eu _]. by rewrite Eu.
Qed.
End mmio_device.

(** ** Instances *)

(** A legacy device as its registers, with one queue in use. *)
Module LegacyRegs.
Definition fields : list VirtIOHeader :=
  [h_magic; h_version; h_device_id; h_vendor_id; h_device_features; h_device_features_sel; h_driver_features; h_driver_features_sel;
   h_legacy_guest_page_size; h_queue_sel; h_queue_num_max; h_queue_num; h_legacy_queue_align; h_legacy_queue_pfn; h_queue_ready; h_queue_notify;
   h_interrupt_status; h_interrupt_ack; h_status; h_queue_desc_low; h_queue_desc_high; h_queue_driver_low; h_queue_driver_high; h_queue_device_low;
   h_queue_device_high; h_config_generation].
Definition find_header (a : Z) : option VirtIOHeader := snd <$> list_find (fun f => 0x1000 + header_offset f = a) fields.

Definition transport : MmioTransport := mkMmioTransport 0x1000 (0x1100, 64) MLegacy Network.

#[export] Instance regs_mmio : Mmio := {|
  dev := mregs;
  rd size a d :=
    if 0x1100 <=? a then (v_config (m_core d) size (a - 0x1100), d)
    else match find_header a with Some f => (mmio_reg f d, d) | None => (0, d) end;
  wr size a x d := match find_header a with Some f => mmio_set f x d | None => d end
|}.

#[export] Instance regs_device : MmioDevice transport.
Proof.
  refine {| mview := (fun d : @dev regs_mmio => d : mregs) |}.
  - intros f d. destruct f; split; reflexivity.
  - intros f x d _. destruct f; reflexivity.
  - intros size offset d Ho Hl. cbn [rd regs_mmio m_config_space transport fst]. rewrite (proj2 (Z.leb_le _ _)) by lia. by replace (0x1100 + offset - 0x1100) with offset by lia.
Defined.

Definition idle_queue : queue := mkQ 256 false 256 0 0 0 0.
Definition card : vdevice := mkV (2 ^ 5) (fun _ => true) 7 15 {[0 := set_up 64 8192 9216 12288 idle_queue]} 0 [] (fun size offset => 0) 0.
Definition start : @tr mmio_transport := (transport, mkM card 0 0 0 4096 4096).
Lemma legacy_start_good : @good _ mmio_view start.
Proof.
  split; [done|]. split; [vm_compute; split; [discriminate|reflexivity]|]. intros i q. cbn. intros Hi. destruct (Z.eq_dec i 0) as [->|H0].
  - vm_compute in Hi. injection Hi as <-. intros _ _. split; [cbn; lia|done].
  - by rewrite lookup_singleton_ne in Hi.
Qed.
End LegacyRegs.
Import LegacyRegs.

Lemma queue_unset_frees_witness :
  is_on (@view _ mmio_view start) 0 = true /\ exists s', mmio_queue_unset 1 0 start = Ret s' /\ is_on (@view _ mmio_view s') 0 = false.
Proof.
  split; [reflexivity|]. destruct (queue_unset_frees 0 0 start legacy_start_good ltac:(lia)) as (s' & E & _ & Hoff & _). exists s'. split; [exact E|exact Hoff].
Defined.
