(* ===== verification/TransportPci.v ===== *)
(** * Finding the devices

    [PciTransport::new] against a device's configuration space, and the search of the
    kernel for a network card ([init_networking] of [src/src/main.rs]).  Proved: on a
    device with proper capabilities the transport has its regions where the device has
    them; construction returns whatever the device's registers hold, unless its
    capability list runs in a circle; the kernel takes the first network card in the
    order of the bus. *)

From S2P Require Import Prelude Virtq Net Pci PciProofs Transport.

(** ** Construction ends *)

Section construction.
Context `{ConfigSpace} (v2p : Z -> Z -> Z).
Variable df : DeviceFunction.
Hypothesis df_proper : proper df.

Lemma read_any c r : reg_ok r -> read_word df r c = Ret (regs c df r).
Proof. intros Hr. by apply regs_read. Qed.
Lemma write_any c r v : reg_ok r -> 0 <= v < 2 ^ 32 -> exists c', write_word df r v c = Ret c'.
Proof. intros Hr Hv. destruct (regs_write c df r v df_proper Hr Hv) as (c' & E & _). eauto. Qed.

(** Every index gives a register, the unused ones too. *)
Lemma bar_offset_ok i : reg_ok (bar_offset i).
Proof.
  unfold bar_offset, BAR0_OFFSET, u8. change (2 ^ 8) with 256. split; Z.div_mod_to_equations; lia.
Qed.

Lemma probe_any c i : exists o m c', probe_bar df i c = Ret (o, m, c') /\ 0 <= o < 2 ^ 32.
Proof.
  unfold probe_bar. rewrite read_any by apply bar_offset_ok. cbn [obind]. destruct (write_any c (bar_offset i) 4294967295 (bar_offset_ok i) ltac:(lia)) as (c' & ->). cbn [obind].
  rewrite read_any by apply bar_offset_ok. cbn [obind]. eexists _, _, _. split; [done|apply regs_range].
Qed.

Lemma command_any c w : exists c', set_command df (Z.land w COMMAND_ALL) c = Ret c'.
Proof. apply write_any; [by split|]. apply land_bound; [lia|]. unfold COMMAND_ALL. lia. Qed.

(** Sizing a register returns, whatever the index and the registers. *)
Lemma bar_info_total c i : exists r c', bar_info df i c = Ret (r, c').
Proof.
  unfold bar_info, get_status_command, STATUS_COMMAND_OFFSET. rewrite read_any by by split. cbn [obind].
  set (orig := Z.land _ COMMAND_ALL). set (dis := Z.land orig _).
  assert (Hdis : dis = Z.land (Z.land orig (Z.lxor COMMAND_ALL (Z.lor IO_SPACE MEMORY_SPACE))) COMMAND_ALL) by (unfold dis; rewrite <- Z.land_assoc; reflexivity).
  assert (Horig : orig = Z.land orig COMMAND_ALL) by (unfold orig; rewrite <- Z.land_assoc, Z.land_diag; done).
  assert (H1 : exists c1, (if dis =? orig then Ret c else set_command df dis c) = Ret c1) by (destruct (dis =? orig); [eauto|]; rewrite Hdis; apply command_any).
  destruct H1 as (c1 & ->). cbn [obind]. destruct (probe_any c1 i) as (o & m & c2 & -> & Ho). cbn [obind]. set (wide := Z.land o 7 =? 4).
  destruct (wide && (5 <=? i)); [by eexists _, _|].
  assert (H2 : exists top st c3, (if wide then
       do! (top, size_top, c) <- probe_bar df (u8 (i + 1)) c2;
       do! c <- write_word df (bar_offset (u8 (i + 1))) top c; Ret (top, size_top, c)
     else Ret (0, if m =? 0 then 0 else 4294967295, c2)) = Ret (top, st, c3)).
  { destruct wide; [|by eexists _, _, _]. destruct (probe_any c2 (u8 (i + 1))) as (o' & m' & c3 & -> & Ho'). cbn [obind].
    destruct (write_any c3 _ o' (bar_offset_ok (u8 (i + 1))) Ho') as (c4 & ->). cbn [obind]. by eexists _, _, _. }
  destruct H2 as (top & st & c3 & ->). cbn [obind]. destruct (write_any c3 _ o (bar_offset_ok i) Ho) as (c4 & ->). cbn [obind].
  assert (H5 : exists c5, (if dis =? orig then Ret c4 else set_command df orig c4) = Ret c5) by (destruct (dis =? orig); [eauto|]; rewrite Horig; apply command_any).
  destruct H5 as (c5 & ->). cbn [obind]. by eexists _, _.
Qed.

Lemma region_total size align info c : exists r c', get_bar_region v2p size align df info c = Ret (r, c').
Proof.
  unfold get_bar_region. destruct (bar_info_total c (ci_bar info)) as (r & c' & ->). cbn [obind]. destruct r as [e|[b|]]; [eauto| |eauto].
  destruct (memory_address_size b) as [[a s]|]; [|eauto]. destruct (a =? 0); [eauto|]. destruct (_ || _); [eauto|]. destruct (negb _); eauto.
Qed.
Lemma slice_total size align info c : exists r c', get_bar_region_slice v2p size align df info c = Ret (r, c').
Proof.
  unfold get_bar_region_slice. destruct (region_total size align info c) as (r & c' & ->). cbn [obind]. destruct r; eauto.
Qed.

(** One capability, in terms of the registers; reading it changes nothing. *)
Definition found_at (c : cfg) (cap : CapabilityInfo) (f : Found) : Found :=
  let reg k := regs c df (u8 (Pci.offset cap + k)) in
  let info := Some (mkCapInfo (u8 (reg 4)) (reg 8) (reg 12)) in
  let len := u8 (private_header cap) in
  if negb (Pci.id cap =? PCI_CAP_ID_VNDR) || (len <? 16) then f
  else
    match u8 (Z.shiftr (private_header cap) 8), f with
    | 1, mkFound None n m i d => mkFound info n m i d
    | 2, mkFound cm None m i d => if 20 <=? len then mkFound cm info (reg 16) i d else f
    | 3, mkFound cm n m None d => mkFound cm n m info d
    | 4, mkFound cm n m i None => mkFound cm n m i info
    | _, _ => f
    end.

Lemma cap_reg_ok o k : reg_ok o -> k mod 4 = 0 -> reg_ok (u8 (o + k)).
Proof. intros [Ho H4] Hk. unfold u8. change (2 ^ 8) with 256. split; Z.div_mod_to_equations; lia. Qed.

Lemma find_capability_run c o f : reg_ok o -> find_capability df (cap_at c df o) f c = Ret (found_at c (cap_at c df o) f).
Proof.
  intros Ho. unfold find_capability, found_at. cbn [Pci.offset Pci.id private_header cap_at]. set (w := regs c df o).
  destruct (u8 w =? PCI_CAP_ID_VNDR); [|done]. cbn [negb orb]. destruct (u8 (u16 (Z.shiftr w 16)) <? 16) eqn:El; [done|].
  rewrite !read_any by (apply cap_reg_ok; done). cbn [obind]. set (len := u8 _) in *. set (ty := u8 (Z.shiftr (u16 _) 8)). destruct f as [cm n m i d]. cbn [f_common f_notify f_multiplier f_isr f_device].
  destruct (Z.eq_dec ty 1) as [->|N1]; [by destruct cm|]. destruct (Z.eq_dec ty 2) as [->|N2].
  { cbn [Z.eqb Pos.eqb andb]. destruct n; [by rewrite andb_false_r|]. destruct (20 <=? len); [|done]. cbn [andb bool_decide decide_rel]. by rewrite bool_decide_true. }
  destruct (Z.eq_dec ty 3) as [->|N3]; [by destruct i|]. destruct (Z.eq_dec ty 4) as [->|N4]; [by destruct d|].
  rewrite !(proj2 (Z.eqb_neq _ _)) by done. cbn [andb]. destruct ty as [|p|p]; [done| |done]. destruct p as [[[]|[]|]|[[]|[]|]|]; done.
Qed.

(** The loop over the capabilities. *)
Definition found (c : cfg) (l : list Z) (f : Found) : Found := fold_left (fun f o => found_at c (cap_at c df o) f) l f.

Lemma find_capabilities_run fuel c next l f :
  (forall o, next = Some o -> reg_ok o) -> follows c df next l -> (length l <= fuel)%nat -> find_capabilities fuel df next f c = Ret (found c l f).
Proof.
  revert next l f. induction fuel as [|fuel IH]; intros next [|o l] f Hn Hl Hlen; cbn in Hl, Hlen; try lia; try (subst next; done).
  destruct Hl as [-> Hl]. cbn [find_capabilities]. rewrite cap_next_run by (done || by apply Hn). cbn [obind]. rewrite find_capability_run by by apply Hn. cbn [obind].
  rewrite (IH _ l) by (apply cap_succ_ok || done || lia). done.
Qed.

Lemma find_capabilities_circle fuel c next f :
  (forall o, next = Some o -> reg_ok o) -> (forall l, ~ follows c df next l) -> find_capabilities fuel df next f c = OutOfFuel.
Proof.
  revert next f. induction fuel as [|fuel IH]; intros [o|] f Hn Hl; try by destruct (Hl []). { done. }
  cbn [find_capabilities]. rewrite cap_next_run by (done || by apply Hn). cbn [obind]. rewrite find_capability_run by by apply Hn. cbn [obind].
  apply IH; [apply cap_succ_ok|]. intros l Hf. by apply (Hl (o :: l)).
Qed.

Lemma follows_length c l : follows c df (first_cap c df) l -> (length l <= 64)%nat.
Proof. intros Hl. apply offsets_bounded; [by eapply follows_NoDup|by eapply follows_ok; [apply first_cap_ok|]]. Qed.

(** [PciTransport::new] returns.  On a virtio device whose capability list ends it
    returns with a transport or an error, whatever else the device's registers hold:
    the capabilities, the registers they name and the windows behind them may be
    anything.  If the list runs in a circle, it never returns. *)
Theorem pci_new_returns c ty :
  u16 (regs c df 0) = VIRTIO_VENDOR_ID -> pci_device_type (u16 (Z.shiftr (regs c df 0) 16)) = Some ty ->
  (forall l fuel, follows c df (first_cap c df) l -> (64 <= fuel)%nat -> exists r c', pci_new v2p fuel df c = Ret (r, c')) /\
  ((forall l, ~ follows c df (first_cap c df) l) -> forall fuel, pci_new v2p fuel df c = OutOfFuel).
Proof.
  intros Hv Ht. unfold pci_new. rewrite read_any by by split. cbn [obind]. rewrite Hv, Ht. cbn [Z.eqb Pos.eqb negb or_missing].
  rewrite capabilities_offset_run by done. cbn [obind]. split.
  - intros l fuel Hl Hf. pose proof (follows_length c l Hl). rewrite (find_capabilities_run fuel c _ l) by (apply first_cap_ok || done || lia). cbn [obind].
    set (f := found c l _). unfold or_missing, try. destruct (f_common f); [|eauto]. destruct (region_total 56 8 v c) as (r1 & c1 & ->). cbn [obind]. destruct r1; [eauto|].
    destruct (f_notify f); [|eauto]. destruct (negb _); [eauto|]. destruct (slice_total 2 2 v0 c1) as (r2 & c2 & ->). cbn [obind]. destruct r2; [eauto|].
    destruct (f_isr f); [|eauto]. destruct (region_total 1 1 v1 c2) as (r3 & c3 & ->). cbn [obind]. destruct r3; [eauto|].
    destruct (f_device f); [|eauto]. destruct (slice_total 4 4 v2 c3) as (r4 & c4 & ->). cbn [obind]. destruct r4; eauto.
  - intros Hno fuel. rewrite find_capabilities_circle by (apply first_cap_ok || done). done.
Qed.

(** ** Construction finds the device's regions *)

(** A structure of the device: a register with a window that is allocated, the
    structure inside it, at an aligned address. *)
Record placed (c : cfg) (info : VirtioCapabilityInfo) (size align a : Z) : Prop := {
  pl_bar : 0 <= ci_bar info < 6;
  pl_kind : exists b ty pre base len, has_bar c df (ci_bar info) b /\ bar_answer b = Some (Memory ty pre base len) /\
    base <> 0 /\ ci_offset info + ci_length info <= len /\ base + ci_offset info < 2 ^ 64 /\ 0 <= base /\ a = v2p (base + ci_offset info) (ci_length info);
  pl_range : 0 <= ci_offset info /\ ci_offset info + ci_length info < 2 ^ 32;
  pl_size : size <= ci_length info /\ 0 <= ci_length info;
  pl_align : a mod align = 0
}.

Lemma same_regs_trans c1 c2 c3 : same_regs c1 c2 -> same_regs c2 c3 -> same_regs c1 c3.
Proof. intros H1 H2 d r Hd Hr. rewrite H2 by done. by apply H1. Qed.

Lemma has_bar_ext c c' i b : (forall j, 0 <= j < 6 -> regs c' df (bar_reg j) = regs c df (bar_reg j)) -> 0 <= i < 6 -> has_bar c df i b -> has_bar c' df i b.
Proof.
  intros E Hi. unfold has_bar. destruct b; rewrite ?E by done; [done..|]. intros (Hi5 & Hh). split; [done|]. rewrite (E (i + 1)) by lia. done.
Qed.

Lemma placed_same c c' info size align a : same_regs c c' -> placed c info size align a -> placed c' info size align a.
Proof.
  intros Hs [Hb (b & ty & pre & base & len & Hh & Hrest) Hr Hsz Hal]. constructor; try done. exists b, ty, pre, base, len. split; [|done].
  eapply has_bar_ext; [|exact Hb|exact Hh]. intros i Hi. apply Hs; [done|by apply bar_reg_ok].
Qed.

Hypothesis command_writable : Z.ldiff (writable df 4) COMMAND_ALL = 0.

Lemma region_exact c info size align a :
  placed c info size align a -> exists c', get_bar_region v2p size align df info c = Ret (inr a, c') /\ same_regs c c'.
Proof.
  intros [Hb (b & ty & pre & base & len & Hh & Ha & Hb0 & Hin & H64 & Hbase & ->) [Ho Hol] [Hsz Hlen] Hal]. unfold get_bar_region.
  destruct (bar_info_reports c df (ci_bar info) b df_proper Hb command_writable Hh) as (c' & -> & Hs). cbn [obind]. rewrite Ha. cbn [memory_address_size].
  rewrite (proj2 (Z.eqb_neq base 0)) by done. rewrite u32_small by lia. rewrite (proj2 (Z.ltb_ge _ _)), (proj2 (Z.ltb_ge _ _)) by lia. cbn [orb].
  rewrite u64_small by lia. rewrite (proj2 (Z.eqb_eq _ _)) by done. eauto.
Qed.
Lemma slice_exact c info size align a :
  placed c info size align a -> exists c', get_bar_region_slice v2p size align df info c = Ret (inr (a, ci_length info / size), c') /\ same_regs c c'.
Proof. intros Hp. unfold get_bar_region_slice. destruct (region_exact c info size align a Hp) as (c' & -> & Hs). cbn [obind]. eauto. Qed.

(** The configuration describes a transport: the first capabilities of each type, in a
    list that ends, place its regions. *)
Record describes (c : cfg) (t : PciTransport) : Prop := {
  de_vendor : u16 (regs c df 0) = VIRTIO_VENDOR_ID;
  de_type : pci_device_type (u16 (Z.shiftr (regs c df 0) 16)) = Some (pt_device_type t);
  de_function : device_function t = df;
  de_caps : exists l common notify isr device da,
    follows c df (first_cap c df) l /\ Forall (fun o => 64 <= o <= 236) l /\
    found c l (mkFound None None 0 None None) = mkFound (Some common) (Some notify) (notify_off_multiplier t) (Some isr) (Some device) /\
    notify_off_multiplier t mod 2 = 0 /\ placed c common 56 8 (common_cfg t) /\ placed c notify 2 2 (notify_region t).1 /\
    (notify_region t).2 = ci_length notify / 2 /\ placed c isr 1 1 (isr_status t) /\ placed c device 4 4 da /\
    config_space t = Some (da, ci_length device / 4)
}.

Lemma pci_new_run c t fuel : describes c t -> (64 <= fuel)%nat -> exists c', pci_new v2p fuel df c = Ret (inr t, c') /\ same_regs c c'.
Proof.
  intros [Hv Ht Hdf (l & common & notify & isr & device & da & Hl & _ & Ef & Hm & Pc & Pn & En & Pi & Pd & Ed)] Hf.
  unfold pci_new. rewrite read_any by by split. cbn [obind]. rewrite Hv, Ht. cbn [Z.eqb Pos.eqb negb or_missing].
  rewrite capabilities_offset_run by done. cbn [obind]. pose proof (follows_length c l Hl). rewrite (find_capabilities_run fuel c _ l) by (apply first_cap_ok || done || lia). cbn [obind].
  rewrite Ef. cbn [f_common f_notify f_isr f_device f_multiplier]. rewrite Hm. unfold or_missing, try. cbn [Z.eqb negb].
  destruct (region_exact c _ _ _ _ Pc) as (c1 & -> & S1). cbn [obind]. destruct (slice_exact c1 _ _ _ _ (placed_same _ _ _ _ _ _ S1 Pn)) as (c2 & -> & S2). cbn [obind].
  pose proof (same_regs_trans _ _ _ S1 S2) as S12. destruct (region_exact c2 _ _ _ _ (placed_same _ _ _ _ _ _ S12 Pi)) as (c3 & -> & S3). cbn [obind].
  pose proof (same_regs_trans _ _ _ S12 S3) as S13. destruct (slice_exact c3 _ _ _ _ (placed_same _ _ _ _ _ _ S13 Pd)) as (c4 & -> & S4). cbn [obind].
  exists c4. split; [|by eapply same_regs_trans]. rewrite <- En, <- Ed, <- Hdf, <- surjective_pairing. by destruct t.
Qed.

(** C34: [PciTransport::new] on a well-formed device.  The capability list ends, and its
    first capabilities of each type place the device's structures inside allocated
    windows: then the transport is made, with each region where the device has it and
    the length the device gives it, and the configuration space is as it was. *)
Theorem pci_new_exact c t fuel : describes c t -> (64 <= fuel)%nat -> exists c', pci_new v2p fuel df c = Ret (inr t, c') /\ same_regs c c'.
Proof. apply pci_new_run. Qed.

(** ** Commands do not matter *)

(** Only the command registers differ. *)
Definition but_command (c c' : cfg) : Prop :=
  forall d r, proper d -> reg_ok r -> if r =? 4 then Z.ldiff (regs c' d 4) COMMAND_ALL = Z.ldiff (regs c d 4) COMMAND_ALL else regs c' d r = regs c d r.

Lemma but_reg c c' r : but_command c c' -> reg_ok r -> r <> 4 -> regs c' df r = regs c df r.
Proof. intros Hb Hr Hn. pose proof (Hb df r df_proper Hr) as E. by rewrite (proj2 (Z.eqb_neq _ _)) in E. Qed.

Lemma first_cap_but c c' : but_command c c' -> first_cap c' df = first_cap c df.
Proof.
  intros Hb. unfold first_cap. rewrite (but_reg c c' 52) by (done || by split). replace (Z.testbit (regs c' df 4) 20) with (Z.testbit (regs c df 4) 20); [done|].
  pose proof (Hb df 4 df_proper ltac:(by split)) as E. apply (f_equal (fun z => Z.testbit z 20)) in E. rewrite !Z.ldiff_spec in E.
  change (Z.testbit COMMAND_ALL 20) with false in E. cbn [negb] in E. by rewrite !andb_true_r in E.
Qed.

Lemma caps_but c c' l next f : but_command c c' -> Forall (fun o => 64 <= o <= 236) l -> Forall reg_ok l -> follows c df next l -> follows c' df next l /\ found c' l f = found c l f.
Proof.
  intros Hb Hl. revert next f. induction Hl as [|o l Ho Hl IH]; intros next f Hok Hf; [done|]. inversion Hok as [|? ? Hro Hrl]; subst. destruct Hf as [-> Hf].
  assert (Er : forall k, k mod 4 = 0 -> 0 <= k <= 16 -> regs c' df (u8 (o + k)) = regs c df (u8 (o + k))).
  { intros k Hk Hk16. apply (but_reg c c'); [done|by apply cap_reg_ok|]. unfold u8. rewrite Z.mod_small by lia. lia. }
  assert (E0 : regs c' df o = regs c df o) by (apply (but_reg c c'); [done|done|lia]).
  assert (Es : cap_succ c' df o = cap_succ c df o) by (unfold cap_succ; by rewrite E0). assert (Ea : cap_at c' df o = cap_at c df o) by (unfold cap_at; by rewrite E0).
  destruct (IH (cap_succ c df o) (found_at c (cap_at c df o) f) Hrl Hf) as [H1 H2]. cbn [follows found fold_left]. rewrite Es, Ea. split; [done|].
  replace (found_at c' (cap_at c df o) f) with (found_at c (cap_at c df o) f); [exact H2|]. unfold found_at. cbn [Pci.offset cap_at]. by rewrite !Er.
Qed.

Lemma placed_but c c' info size align a : but_command c c' -> placed c info size align a -> placed c' info size align a.
Proof.
  intros Hs [Hb (b & ty & pre & base & len & Hh & Hrest) Hr Hsz Hal]. constructor; try done. exists b, ty, pre, base, len. split; [|done].
  eapply has_bar_ext; [|exact Hb|exact Hh]. intros i Hi. apply (but_reg c c'); [done|by apply bar_reg_ok|unfold bar_reg; lia].
Qed.

Lemma describes_but c c' t : but_command c c' -> describes c t -> describes c' t.
Proof.
  intros Hb [Hv Ht Hdf (l & common & notify & isr & device & da & Hl & Ha & Ef & Hm & Pc & Pn & En & Pi & Pd & Ed)].
  assert (E0 : regs c' df 0 = regs c df 0) by (apply (but_reg c c'); [done|by split|done]).
  assert (Hok : Forall reg_ok l) by (eapply follows_ok; [apply first_cap_ok|exact Hl]).
  destruct (caps_but c c' l _ (mkFound None None 0 None None) Hb Ha Hok Hl) as [Hl' Ef'].
  constructor; [by rewrite E0|by rewrite E0|done|]. exists l, common, notify, isr, device, da. rewrite (first_cap_but c c'), Ef' by done. split_and!; eauto using placed_but.
Qed.
End construction.

(** ** Instances *)

(** A network card at [0:3.0]: a 16 KiB window above 4 GiB with its four structures, and
    the capabilities that name them. *)
Module NicCard.
Definition df : DeviceFunction := mkDF 0 3 0.
Definition card_mask (d : DeviceFunction) (r : Z) : Z :=
  if decide (d = df) then
    if r =? 4 then 7 else if r =? 32 then (2 ^ 64 - 2 ^ 14) mod 2 ^ 32 else if r =? 36 then (2 ^ 64 - 2 ^ 14) / 2 ^ 32 else 0
  else 0.
Definition registers : list (Z * Z) :=
  [(0, 0x10411AF4); (4, 0x00100000); (8, 0x02000001); (32, 0x400C); (36, 0x80); (52, 64);
   (64, 0x01105409); (68, 4); (72, 0); (76, 56);
   (84, 0x02146809); (88, 4); (92, 0x3000); (96, 0x1000); (100, 4);
   (104, 0x03107809); (108, 4); (112, 0x1000); (116, 4);
   (120, 0x04100009); (124, 4); (128, 0x2000); (132, 64)].
Definition config : DeviceFunction -> Z -> Z := fun d r =>
  if decide (d = df) then default 0 (snd <$> (snd <$> list_find (fun x => x.1 = r) registers)) else 4294967295.
Definition transport : PciTransport :=
  mkPciTransport Network df 0x8000004000 (0x8000007000, 2048) 4 0x8000005000 (Some (0x8000006000, 16)).

Lemma df_proper : proper df.
Proof. constructor; cbn; lia. Qed.

#[export] Instance space : @ConfigSpace (device_access card_mask) := device_space card_mask.

Lemma window : @has_bar _ space config df 4 (Mem64 true 14 0x8000004000).
Proof. unfold has_bar. split_and!; (reflexivity || lia). Qed.

Lemma structure offset length size align :
  0 <= offset -> 0 <= length -> offset + length <= 16384 -> size <= length -> (0x8000004000 + offset) mod align = 0 ->
  @placed _ space (fun p _ => p) df config (mkCapInfo 4 offset length) size align (0x8000004000 + offset).
Proof.
  intros Ho Hl Hol Hs Ha. constructor; cbn; [lia| |lia|lia|done]. exists (Mem64 true 14 0x8000004000), Width64, true, 0x8000004000, 16384.
  split; [exact window|]. split_and!; (reflexivity || lia).
Qed.

Lemma described : @describes _ space (fun p _ => p) df config transport.
Proof.
  constructor; [reflexivity|reflexivity|reflexivity|].
  exists [64; 84; 104; 120], (mkCapInfo 4 0 56), (mkCapInfo 4 0x3000 0x1000), (mkCapInfo 4 0x1000 4), (mkCapInfo 4 0x2000 64), 0x8000006000.
  split_and!; [vm_compute; tauto|repeat constructor; lia|vm_compute; reflexivity|reflexivity| | |reflexivity| | |reflexivity].
  - by apply (structure 0 56 56 8).
  - by apply (structure 0x3000 0x1000 2 2).
  - by apply (structure 0x1000 4 1 1).
  - by apply (structure 0x2000 64 4 4).
Qed.
End NicCard.

Lemma pci_new_exact_witness :
  exists c', @pci_new (device_access NicCard.card_mask) (fun p _ => p) 64 NicCard.df NicCard.config = Ret (inr NicCard.transport, c') /\
    @same_regs _ NicCard.space NicCard.config c'.
Proof.
  apply (@pci_new_exact _ NicCard.space (fun p _ => p) NicCard.df NicCard.df_proper).
  - reflexivity.
  - exact NicCard.described.
  - lia.
Defined.

Lemma pci_new_returns_witness :
  exists r c', @pci_new (device_access NicCard.card_mask) (fun p _ => p) 64 NicCard.df NicCard.config = Ret (r, c').
Proof.
  destruct (@pci_new_returns _ NicCard.space (fun p _ => p) NicCard.df NicCard.df_proper NicCard.config Network) as [Hr _].
  - reflexivity.
  - reflexivity.
  - apply (Hr [64; 84; 104; 120]); [vm_compute; tauto|lia].
Defined.
