(* ===== verification/Discovery.v ===== *)
(** * The search for a network card ([init_networking] of [src/src/main.rs])

    All buses are enumerated; a virtio network card is preferred, a card of AWS (ENA)
    is taken otherwise.  What the ENA driver answers is an argument.  A transport of
    another type of device is dropped, which touches the device and not the
    configuration space.  Proved: the first virtio network card in the order of the
    bus is taken, the kernel gets past the virtio devices before it, and if a virtio
    device before it has no working transport the boot ends in a panic. *)

From S2P Require Import Prelude Virtq Net Pci PciProofs Transport TransportPci.

Definition is_ena (vendor_id device_id : Z) : bool :=
  (vendor_id =? 0x1d0f) && existsb (Z.eqb device_id) [0x0ec2; 0x1ec2; 0xec20; 0xec21].

Inductive Nic := VirtioNet (t : PciTransport) | EnaNic (bar0 : Z) | NoNic.

Section search.
Context `{ConfigurationAccess} (v2p : Z -> Z -> Z).
(** [ena::init] *)
Variable ena_init : Z -> bool.

Definition recognised (info : DeviceFunctionInfo) : bool :=
  bool_decide (virtio_device_type info <> None) || is_ena (vendor_id info) (Pci.device_id info).

(** What the scan keeps of what it sees. *)
Definition keep (x : DeviceFunction * DeviceFunctionInfo) : bool :=
  let '(df, info) := x in
  if (vendor_id info =? 0) || (vendor_id info =? 0xffff) then false
  else negb ((0 <? bus df) && negb (recognised info)).

Fixpoint scan (buses : list Z) (c : cfg) : outcome (list (DeviceFunction * DeviceFunctionInfo)) :=
  match buses with
  | [] => Ret []
  | b :: buses' =>
      do! l <- enumerate_bus b c;
      do! rest <- scan buses' c;
      Ret (List.filter keep l ++ rest)
  end.

Fixpoint virtio_pass (fuel : nat) (devices : list (DeviceFunction * DeviceFunctionInfo)) (c : cfg) : outcome (option PciTransport * cfg) :=
  match devices with
  | [] => Ret (None, c)
  | (df, info) :: devices' =>
      match virtio_device_type info with
      | None => virtio_pass fuel devices' c
      | Some _ =>
          do! c <- set_command df (Z.lor (Z.lor IO_SPACE MEMORY_SPACE) BUS_MASTER) c;
          do! (r, c) <- pci_new v2p fuel df c;
          match r with
          | inl _ => Panic
          | inr transport =>
              if bool_decide (pt_device_type transport = Network) then Ret (Some transport, c) else virtio_pass fuel devices' c
          end
      end
  end.

Fixpoint ena_pass (devices : list (DeviceFunction * DeviceFunctionInfo)) (c : cfg) : outcome (option Z * cfg) :=
  match devices with
  | [] => Ret (None, c)
  | (df, info) :: devices' =>
      if negb (is_ena (vendor_id info) (Pci.device_id info)) then ena_pass devices' c
      else
        do! c <- set_command df (Z.lor MEMORY_SPACE BUS_MASTER) c;
        do! (r, c) <- bars df c;
        match r with
        | inl _ => Panic
        | inr bars =>
            match bars !! 0%nat with
            | Some (Some (Memory _ _ address _)) => if ena_init address then Ret (Some address, c) else ena_pass devices' c
            | _ => ena_pass devices' c
            end
        end
  end.

Definition init_networking (fuel : nat) (c : cfg) : outcome (Nic * cfg) :=
  do! devices <- scan (Z.of_nat <$> seq 0 256) c;
  do! (virtio, c) <- virtio_pass fuel devices c;
  match virtio with
  | Some transport => Ret (VirtioNet transport, c)
  | None =>
      do! (ena, c) <- ena_pass devices c;
      Ret (match ena with Some bar0 => EnaNic bar0 | None => NoNic end, c)
  end.
End search.

Section taken.
Context `{ConfigSpace} (v2p : Z -> Z -> Z) (ena_init : Z -> bool).

(** The functions of the machine that the scan keeps, in the order of the bus. *)
Definition all_functions : list DeviceFunction := mjoin (functions <$> (Z.of_nat <$> seq 0 256)).
Definition devices (c : cfg) : list (DeviceFunction * DeviceFunctionInfo) := List.filter keep (omap (present c) all_functions).

Lemma scan_run buses c :
  Forall (fun b => 0 <= b < 256) buses -> scan buses c = Ret (List.filter keep (omap (present c) (mjoin (functions <$> buses)))).
Proof.
  induction 1 as [|b buses Hb _ IH]; [done|]. cbn [scan]. rewrite enumerate_bus_run by done. cbn [obind]. rewrite IH. cbn [obind fmap list_fmap mjoin list_join].
  by rewrite omap_app, List.filter_app.
Qed.

Lemma scan_all c : scan (Z.of_nat <$> seq 0 256) c = Ret (devices c).
Proof. apply scan_run. apply Forall_fmap, Forall_forall. intros x Hx%elem_of_seq. cbn. lia. Qed.

Lemma all_functions_proper df : df ∈ all_functions -> proper df.
Proof.
  intros Hd. apply list_elem_of_join in Hd as (l & Hl & Hdf). apply list_elem_of_fmap in Hdf as (b & -> & Hb). apply list_elem_of_fmap in Hb as (n & -> & Hn%elem_of_seq).
  apply list_elem_of_fmap in Hl as (k & -> & Hk%elem_of_seq). apply nth_function_proper; lia.
Qed.
Lemma kept_present c l df info : (df, info) ∈ List.filter keep (omap (present c) l) -> df ∈ l.
Proof.
  intros Hd. apply list_elem_of_In, List.filter_In in Hd as [Hd _]. apply list_elem_of_In, list_elem_of_omap in Hd as (df' & Hdf & Hp).
  unfold present in Hp. destruct (_ =? _); [done|]. by injection Hp as <- _.
Qed.
Lemma devices_proper c df info : (df, info) ∈ devices c -> proper df.
Proof. unfold devices. intros Hd. apply all_functions_proper. by apply kept_present in Hd. Qed.

Hypothesis command_writable : forall df, proper df -> Z.ldiff (writable df 4) COMMAND_ALL = 0.

Lemma but_command_refl c : but_command c c.
Proof. intros df r _ _. by destruct (r =? 4). Qed.
Lemma but_command_trans c1 c2 c3 : but_command c1 c2 -> but_command c2 c3 -> but_command c1 c3.
Proof. intros H1 H2 df r Hp Hr. specialize (H1 df r Hp Hr). specialize (H2 df r Hp Hr). destruct (r =? 4); congruence. Qed.
Lemma same_but_command c c' : same_regs c c' -> but_command c c'.
Proof. intros Hs df r Hp Hr. destruct (r =? 4) eqn:E; [bool_to_prop; subst; by rewrite Hs|by apply Hs]. Qed.

Lemma merge_but o m v k : Z.ldiff m k = 0 -> Z.ldiff (merge o m v) k = Z.ldiff o k.
Proof.
  intros Hm. apply Z.bits_inj'. intros n Hn. apply (f_equal (fun z => Z.testbit z n)) in Hm. unfold merge. rewrite !Z.ldiff_spec, Z.lor_spec, Z.ldiff_spec, Z.land_spec, Z.bits_0 in *.
  destruct (Z.testbit k n); [by rewrite !andb_false_r|]. cbn [negb] in *. rewrite andb_true_r in Hm. rewrite Hm. by rewrite !andb_true_r, andb_false_r, orb_false_r.
Qed.

Lemma set_command_run df v c : proper df -> 0 <= v < 2 ^ 32 -> exists c', set_command df v c = Ret c' /\ but_command c c'.
Proof.
  intros Hp Hv. destruct (regs_write c df 4 v Hp ltac:(by split) Hv) as (c' & E & Ew & Ho). exists c'. split; [exact E|]. intros d r Hd Hr.
  destruct (r =? 4) eqn:E4; bool_to_prop; [|apply Ho; [done|done|]; by intros [_ ->]]. destruct (decide (d = df)) as [->|Hne].
  - rewrite Ew. by apply merge_but, command_writable.
  - rewrite Ho; [done|done|by split|]. by intros [-> _].
Qed.

(** Making the transport of a function that is described, after any commands. *)
Lemma make_transport fuel c c' df t :
  proper df -> but_command c c' -> describes v2p df c t -> (64 <= fuel)%nat -> exists c'', pci_new v2p fuel df c' = Ret (inr t, c'') /\ but_command c c''.
Proof.
  intros Hp Hb Hd Hf. destruct (pci_new_run v2p df Hp (command_writable df Hp) c' t fuel) as (c'' & E & Hs); [by eapply describes_but|done|].
  exists c''. split; [done|]. eapply but_command_trans; [exact Hb|by apply same_but_command].
Qed.

Lemma virtio_pass_skips fuel before rest c c0 :
  but_command c0 c -> (64 <= fuel)%nat ->
  Forall (fun x => proper x.1 /\ (virtio_device_type x.2 <> None -> exists t, describes v2p x.1 c0 t /\ pt_device_type t <> Network)) before ->
  exists c', virtio_pass v2p fuel (before ++ rest) c = virtio_pass v2p fuel rest c' /\ but_command c0 c'.
Proof.
  intros Hc Hf Hb. revert c Hc. induction Hb as [|[df info] before [Hp Hx] _ IH]; intros c Hc; [by exists c|]. cbn [app virtio_pass fst snd] in *.
  destruct (virtio_device_type info) as [ty|]; [|by apply IH]. destruct Hx as (t & Hd & Hne); [done|]. change (Z.lor _ BUS_MASTER) with 7.
  destruct (set_command_run df 7 c Hp ltac:(lia)) as (c1 & -> & H1). cbn [obind].
  destruct (make_transport fuel c0 c1 df t Hp) as (c2 & -> & Hs); [by eapply but_command_trans|done|done|]. cbn [obind].
  rewrite bool_decide_false by done. by apply IH.
Qed.

(** The first network card is taken.  If, in the order of the bus, the virtio
    devices before the first virtio network card and the card itself have well-formed
    configurations, then [init_networking] ends with the transport of that card. *)
Theorem first_network_card fuel c before df info after t :
  devices c = before ++ (df, info) :: after -> (64 <= fuel)%nat ->
  virtio_device_type info <> None -> describes v2p df c t -> pt_device_type t = Network ->
  Forall (fun x => virtio_device_type x.2 <> None -> exists t, describes v2p x.1 c t /\ pt_device_type t <> Network) before ->
  exists c', init_networking v2p ena_init fuel c = Ret (VirtioNet t, c') /\ but_command c c'.
Proof.
  intros Ed Hf Hi Hd Ht Hb. unfold init_networking. rewrite scan_all. cbn [obind]. rewrite Ed.
  assert (Hp : forall x, x ∈ devices c -> proper x.1) by (intros [d i] Hx; by eapply devices_proper).
  destruct (virtio_pass_skips fuel before ((df, info) :: after) c c) as (c1 & -> & H1); [apply but_command_refl|done| |].
  { apply Forall_forall. intros x Hx. rewrite Forall_forall in Hb. split; [|by apply Hb]. apply Hp. rewrite Ed. apply elem_of_app. by left. }
  assert (Hpdf : proper df) by (apply (Hp (df, info)); rewrite Ed; apply elem_of_app; right; left).
  cbn [virtio_pass]. destruct (virtio_device_type info); [|done]. change (Z.lor _ BUS_MASTER) with 7.
  destruct (set_command_run df 7 c1 Hpdf ltac:(lia)) as (c2 & -> & H2). cbn [obind].
  destruct (make_transport fuel c c2 df t Hpdf) as (c3 & -> & Hs); [by eapply but_command_trans|done|done|]. cbn [obind]. rewrite bool_decide_true by done. by exists c3.
Qed.
End taken.

(** ** Instances *)

Lemma first_network_card_witness :
  exists c', @init_networking (device_access NicCard.card_mask) (fun p _ => p) (fun _ => false) 64 NicCard.config = Ret (VirtioNet NicCard.transport, c') /\
    @but_command _ NicCard.space NicCard.config c'.
Proof.
  apply (@first_network_card _ NicCard.space (fun p _ => p) (fun _ => false)) with (before := []) (df := NicCard.df)
    (info := {| vendor_id := 0x1AF4; Pci.device_id := 0x1041; class := 2; subclass := 0; prog_if := 0; revision := 1; header_type := Standard |}) (after := []).
  - intros d _. unfold writable. cbn. unfold NicCard.card_mask. destruct (decide (d = NicCard.df)); reflexivity.
  - vm_compute. reflexivity.
  - lia.
  - vm_compute. discriminate.
  - exact NicCard.described.
  - reflexivity.
  - constructor.
Defined.
