(* ===== verification/Ena.v ===== *)
(** * The ENA network driver ([src/src/net/ena/])

    The card of AWS: the admin queue ([admin.rs]) over which the driver creates the
    queues for data, and the rings of those ([device.rs]).  The rings and buffers lie
    in memory the device shares; a store to a register of the card is an entry of
    [w_regs].  While the driver waits for an answer the device writes memory: the
    polls of a command read a stream of memories and times. *)

From S2P Require Import Prelude Virtq.

(** ** The world of the driver *)

Record world := mkW {
  w_mem : mem;
  w_dma : list hal_event;
  (** the stores to the registers, address and value, in their order *)
  w_regs : list (Z * Z)
}.
Definition set_mem (w : world) (m : mem) : world := mkW m (w_dma w) (w_regs w).
Definition write32 (bar0 off val : Z) (w : world) : world := mkW (w_mem w) (w_dma w) (w_regs w ++ [(u64 (bar0 + off), val)]).

Definition dma_alloc_zeroed `{Hal} (bytes : Z) (w : world) : Z * world :=
  let n := pages bytes in
  let '(paddr, vaddr) := hal_dma_alloc (w_dma w) n Both in
  (paddr, mkW (mem_zero (w_mem w) vaddr (n * PAGE_SIZE)) (w_dma w ++ [DmaAlloc n Both paddr vaddr]) (w_regs w)).

(** Register offsets. *)
Notation AQ_BASE_LO := 0x10.
Notation AQ_BASE_HI := 0x14.
Notation AQ_CAPS := 0x18.
Notation ACQ_BASE_LO := 0x20.
Notation ACQ_BASE_HI := 0x24.
Notation ACQ_CAPS := 0x28.
Notation AQ_DB := 0x2c.
Notation AENQ_CAPS := 0x34.
Notation AENQ_BASE_LO := 0x38.
Notation AENQ_BASE_HI := 0x3c.

Definition caps_reset_timeout_ms (caps : Z) : Z := Z.land (Z.shiftr caps 1) 31 * 100.

(** ** The admin queue *)

Notation ADMIN_QUEUE_DEPTH := 32.
Notation ADMIN_ENTRY_SIZE := 64.
Notation AENQ_DEPTH := 16.
Notation ADMIN_CMD_TIMEOUT_NS := 1000000000.

Inductive ena_error := NotReady | NonZeroStatus | CommandTimeout.

Record DeviceAttrs := mkAttrs { at_mac : bytes; max_mtu : Z; phys_addr_width : Z; supported_features : Z }.

Record AdminQueue := mkAQ {
  aq_bar0 : Z; sq_base : Z; cq_base : Z; depth : Z;
  sq_tail : Z; sq_phase : Z; cq_head : Z; cq_phase : Z; curr_cmd_id : Z
}.

Section admin.
Context `{Hal}.

(** [dev_sts] is what the status register reads. *)
Definition aq_init (bar0 dev_sts : Z) (w : world) : (ena_error + AdminQueue) * world :=
  if Z.land dev_sts 1 =? 0 then (inl NotReady, w)
  else
    let '(sq_base, w) := dma_alloc_zeroed (ADMIN_QUEUE_DEPTH * ADMIN_ENTRY_SIZE) w in
    let '(cq_base, w) := dma_alloc_zeroed (ADMIN_QUEUE_DEPTH * ADMIN_ENTRY_SIZE) w in
    let '(aenq_base, w) := dma_alloc_zeroed (AENQ_DEPTH * ADMIN_ENTRY_SIZE) w in
    let w := write32 bar0 AQ_BASE_LO (u32 sq_base) w in
    let w := write32 bar0 AQ_BASE_HI (u32 (Z.shiftr sq_base 32)) w in
    let w := write32 bar0 ACQ_BASE_LO (u32 cq_base) w in
    let w := write32 bar0 ACQ_BASE_HI (u32 (Z.shiftr cq_base 32)) w in
    let aq_caps := Z.lor (Z.land ADMIN_QUEUE_DEPTH 65535) (Z.shiftl ADMIN_ENTRY_SIZE 16) in
    let w := write32 bar0 AQ_CAPS aq_caps w in
    let w := write32 bar0 ACQ_CAPS aq_caps w in
    let w := write32 bar0 AENQ_BASE_LO (u32 aenq_base) w in
    let w := write32 bar0 AENQ_BASE_HI (u32 (Z.shiftr aenq_base 32)) w in
    let w := write32 bar0 AENQ_CAPS (Z.lor (Z.land AENQ_DEPTH 65535) (Z.shiftl ADMIN_ENTRY_SIZE 16)) w in
    (inr (mkAQ bar0 sq_base cq_base ADMIN_QUEUE_DEPTH 0 1 0 1 0), w).

(** The entry of the submission queue for [cmd]: the command id and the phase. *)
Definition stamp (q : AdminQueue) (cmd : bytes) : bytes :=
  let cmd := <[0%nat := Z.land (curr_cmd_id q) 255]> cmd in
  let cmd := <[1%nat := Z.land (Z.shiftr (curr_cmd_id q) 8) 15]> cmd in
  <[3%nat := Z.lor (default 0 (cmd !! 3%nat)) (Z.land (sq_phase q) 1)]> cmd.

Definition submit (cmd : bytes) (q : AdminQueue) (w : world) : AdminQueue * world :=
  let mask := depth q - 1 in
  let tail_masked := Z.land (sq_tail q) mask in
  let w := set_mem w (mem_write (w_mem w) (sq_base q + tail_masked * ADMIN_ENTRY_SIZE) (stamp q cmd)) in
  let curr := Z.land (u16 (curr_cmd_id q + 1)) mask in
  let tail := u16 (sq_tail q + 1) in
  let phase := if Z.land tail mask =? 0 then Z.lxor (sq_phase q) 1 else sq_phase q in
  (mkAQ (aq_bar0 q) (sq_base q) (cq_base q) (depth q) tail phase (cq_head q) (cq_phase q) curr, write32 (aq_bar0 q) AQ_DB tail w).

(** The loop over the completion queue; [obs i] is the memory and the time at the
    [i]-th poll. *)
Fixpoint poll_cq (fuel i : nat) (start : Z) (obs : nat -> mem * Z) (q : AdminQueue) (w : world) :
    outcome ((ena_error + bytes) * AdminQueue * world) :=
  match fuel with
  | O => OutOfFuel
  | S fuel' =>
      let '(m, now) := obs i in
      let w := set_mem w m in
      let entry := cq_base q + cq_head q * ADMIN_ENTRY_SIZE in
      let flags := u8 (m (entry + 3)) in
      if Z.land flags 1 =? cq_phase q then
        let out := mem_read m entry 64 in
        let head := u16 (cq_head q + 1) in
        let '(head, phase) := if head =? depth q then (0, Z.lxor (cq_phase q) 1) else (head, cq_phase q) in
        let q := mkAQ (aq_bar0 q) (sq_base q) (cq_base q) (depth q) (sq_tail q) (sq_phase q) head phase (curr_cmd_id q) in
        if u8 (default 0 (out !! 2%nat)) =? 0 then Ret (inr out, q, w) else Ret (inl NonZeroStatus, q, w)
      else if ADMIN_CMD_TIMEOUT_NS <? u64 (now - start) then Ret (inl CommandTimeout, q, w)
      else poll_cq fuel' (S i) start obs q w
  end.

Definition submit_and_poll (fuel : nat) (start : Z) (obs : nat -> mem * Z) (cmd : bytes) (q : AdminQueue) (w : world) :
    outcome ((ena_error + bytes) * AdminQueue * world) :=
  let '(q, w) := submit cmd q w in poll_cq fuel 0 start obs q w.

(** The fields of a command, at their offsets. *)
Definition put_bytes (at_ : nat) (l cmd : bytes) : bytes := take at_ cmd ++ l ++ drop (at_ + length l) cmd.
Definition blank : bytes := replicate 64 0.
Definition field (at_ n : nat) (l : bytes) : Z := le_val (take n (drop at_ l)).

Definition get_feature_cmd : bytes := put_bytes 17 [1] (put_bytes 2 [8] blank).
Definition create_cq_cmd (depth cq_phys entry_size_bytes : Z) : bytes :=
  let cmd := put_bytes 2 [3] blank in
  let cmd := put_bytes 5 [Z.land (entry_size_bytes / 4) 31] cmd in
  let cmd := put_bytes 6 (le_bytes 2 depth) cmd in
  let cmd := put_bytes 12 (le_bytes 4 (u32 cq_phys)) cmd in
  put_bytes 16 (le_bytes 2 (u16 (Z.shiftr cq_phys 32))) cmd.
Definition create_sq_cmd (direction depth sq_phys cq_idx : Z) : bytes :=
  let cmd := put_bytes 2 [1] blank in
  let cmd := put_bytes 4 [u8 (Z.shiftl direction 5)] cmd in
  let cmd := put_bytes 6 [1] cmd in
  let cmd := put_bytes 7 [1] cmd in
  let cmd := put_bytes 8 (le_bytes 2 cq_idx) cmd in
  let cmd := put_bytes 10 (le_bytes 2 depth) cmd in
  let cmd := put_bytes 12 (le_bytes 4 (u32 sq_phys)) cmd in
  put_bytes 16 (le_bytes 2 (u16 (Z.shiftr sq_phys 32))) cmd.

(** A command with what is read from its answer. *)
Definition command {A} (cmd : bytes) (k : bytes -> A) (fuel : nat) (start : Z) (obs : nat -> mem * Z) (q : AdminQueue) (w : world) :
    outcome ((ena_error + A) * AdminQueue * world) :=
  do! (r, q, w) <- submit_and_poll fuel start obs cmd q w;
  Ret (match r with inl e => inl e | inr resp => inr (k resp) end, q, w).

Definition get_device_attributes := command get_feature_cmd (fun resp =>
  mkAttrs (take 6 (drop 32 resp)) (field 40 4 resp) (field 24 4 resp) (field 16 4 resp)).
Definition create_io_cq (depth cq_phys entry_size_bytes : Z) := command (create_cq_cmd depth cq_phys entry_size_bytes) (field 8 2).
Definition create_io_sq (direction depth sq_phys cq_idx : Z) :=
  command (create_sq_cmd direction depth sq_phys cq_idx) (fun resp => (field 8 2 resp, field 12 4 resp)).
End admin.

(** ** The data path *)

Notation IO_DEPTH := 256.
Notation Q_MASK := 255.
Notation BUF_SIZE := 2048.
Notation N_RX_BUFS := 255.

Record EnaDevice := mkEna {
  bar0 : Z; e_mac : bytes;
  rx_sq : Z; rx_cq : Z; rx_db : Z; rx_sq_tail : Z; rx_sq_phase : Z; rx_cq_head : Z; rx_cq_phase : Z; rx_bufs : Z;
  tx_sq : Z; tx_cq : Z; tx_db : Z; tx_sq_tail : Z; tx_sq_phase : Z; tx_cq_head : Z; tx_cq_phase : Z; tx_bufs : Z;
  tx_next_to_comp : Z
}.
Definition set_rx_sq (d : EnaDevice) (tail phase : Z) : EnaDevice :=
  mkEna (bar0 d) (e_mac d) (rx_sq d) (rx_cq d) (rx_db d) tail phase (rx_cq_head d) (rx_cq_phase d) (rx_bufs d)
    (tx_sq d) (tx_cq d) (tx_db d) (tx_sq_tail d) (tx_sq_phase d) (tx_cq_head d) (tx_cq_phase d) (tx_bufs d) (tx_next_to_comp d).
Definition set_rx_cq (d : EnaDevice) (head phase : Z) : EnaDevice :=
  mkEna (bar0 d) (e_mac d) (rx_sq d) (rx_cq d) (rx_db d) (rx_sq_tail d) (rx_sq_phase d) head phase (rx_bufs d)
    (tx_sq d) (tx_cq d) (tx_db d) (tx_sq_tail d) (tx_sq_phase d) (tx_cq_head d) (tx_cq_phase d) (tx_bufs d) (tx_next_to_comp d).
Definition set_tx_sq (d : EnaDevice) (tail phase : Z) : EnaDevice :=
  mkEna (bar0 d) (e_mac d) (rx_sq d) (rx_cq d) (rx_db d) (rx_sq_tail d) (rx_sq_phase d) (rx_cq_head d) (rx_cq_phase d) (rx_bufs d)
    (tx_sq d) (tx_cq d) (tx_db d) tail phase (tx_cq_head d) (tx_cq_phase d) (tx_bufs d) (tx_next_to_comp d).
Definition set_tx_cq (d : EnaDevice) (head phase comp : Z) : EnaDevice :=
  mkEna (bar0 d) (e_mac d) (rx_sq d) (rx_cq d) (rx_db d) (rx_sq_tail d) (rx_sq_phase d) (rx_cq_head d) (rx_cq_phase d) (rx_bufs d)
    (tx_sq d) (tx_cq d) (tx_db d) (tx_sq_tail d) (tx_sq_phase d) head phase (tx_bufs d) comp.

Definition post_rx_desc (req_id : Z) (d : EnaDevice) (w : world) : EnaDevice * world :=
  let slot := Z.land (rx_sq_tail d) Q_MASK in
  let buf := u64 (rx_bufs d + req_id * BUF_SIZE) in
  let desc := u64 (rx_sq d + slot * 16) in
  let m := store16 (w_mem w) desc BUF_SIZE in
  let m := store8 m (desc + 2) 0 in
  let m := store8 m (desc + 3) (Z.lor (Z.lor (Z.lor 4 8) 16) (Z.land (rx_sq_phase d) 1)) in
  let m := store16 m (desc + 4) req_id in
  let m := store16 m (desc + 6) 0 in
  let m := store32 m (desc + 8) (u32 buf) in
  let m := store16 m (desc + 12) (u16 (Z.shiftr buf 32)) in
  let m := store16 m (desc + 14) 0 in
  let tail := u16 (rx_sq_tail d + 1) in
  (set_rx_sq d tail (if Z.land tail Q_MASK =? 0 then Z.lxor (rx_sq_phase d) 1 else rx_sq_phase d), set_mem w m).

Definition ring_rx_doorbell (d : EnaDevice) (w : world) : world := write32 (bar0 d) (rx_db d) (rx_sq_tail d) w.
Definition ring_tx_doorbell (d : EnaDevice) (w : world) : world := write32 (bar0 d) (tx_db d) (tx_sq_tail d) w.

Fixpoint post_all (l : list Z) (d : EnaDevice) (w : world) : EnaDevice * world :=
  match l with [] => (d, w) | i :: l' => let '(d, w) := post_rx_desc i d w in post_all l' d w end.

(** [EnaDevice::new]: [obs c] are the polls of the [c]-th command, [starts c] its time. *)
Definition ena_new `{Hal} (fuel : nat) (starts : nat -> Z) (obs : nat -> nat -> mem * Z) (bar0 : Z) (mac : bytes) (aq : AdminQueue) (w : world) :
    outcome ((ena_error + EnaDevice) * AdminQueue * world) :=
  let '(rx_cq, w) := dma_alloc_zeroed (IO_DEPTH * 16) w in
  let '(rx_sq, w) := dma_alloc_zeroed (IO_DEPTH * 16) w in
  let '(tx_cq, w) := dma_alloc_zeroed (IO_DEPTH * 8) w in
  let '(tx_sq, w) := dma_alloc_zeroed (IO_DEPTH * 16) w in
  let '(rx_bufs, w) := dma_alloc_zeroed (N_RX_BUFS * BUF_SIZE) w in
  let '(tx_bufs, w) := dma_alloc_zeroed (IO_DEPTH * BUF_SIZE) w in
  do! (r, aq, w) <- create_io_cq IO_DEPTH rx_cq 16 fuel (starts 0%nat) (obs 0%nat) aq w;
  match r with
  | inl e => Ret (inl e, aq, w)
  | inr rx_cq_idx =>
      do! (r, aq, w) <- create_io_sq 2 IO_DEPTH rx_sq rx_cq_idx fuel (starts 1%nat) (obs 1%nat) aq w;
      match r with
      | inl e => Ret (inl e, aq, w)
      | inr (_, rx_db) =>
          do! (r, aq, w) <- create_io_cq IO_DEPTH tx_cq 8 fuel (starts 2%nat) (obs 2%nat) aq w;
          match r with
          | inl e => Ret (inl e, aq, w)
          | inr tx_cq_idx =>
              do! (r, aq, w) <- create_io_sq 1 IO_DEPTH tx_sq tx_cq_idx fuel (starts 3%nat) (obs 3%nat) aq w;
              match r with
              | inl e => Ret (inl e, aq, w)
              | inr (_, tx_db) =>
                  let d := mkEna bar0 mac rx_sq rx_cq rx_db 0 1 0 1 rx_bufs tx_sq tx_cq tx_db 0 1 0 1 tx_bufs 0 in
                  let '(d, w) := post_all (Z.of_nat <$> seq 0 255) d w in
                  Ret (inr d, aq, ring_rx_doorbell d w)
              end
          end
      end
  end.

(** One turn of the loop of [drain_tx]; [None] ends it. *)
Definition drain_one (d : EnaDevice) (w : world) : option EnaDevice :=
  let cdesc := tx_cq d + tx_cq_head d * 8 in
  let flags := u8 (w_mem w (cdesc + 3)) in
  if negb (Z.land flags 1 =? tx_cq_phase d) then None
  else
    let comp := u16 (tx_next_to_comp d + 1) in
    let head := u16 (tx_cq_head d + 1) in
    Some (if head =? IO_DEPTH then set_tx_cq d 0 (Z.lxor (tx_cq_phase d) 1) comp else set_tx_cq d head (tx_cq_phase d) comp).
Fixpoint drain_tx (fuel : nat) (d : EnaDevice) (w : world) : outcome EnaDevice :=
  match fuel with
  | O => OutOfFuel
  | S fuel' => match drain_one d w with None => Ret d | Some d => drain_tx fuel' d w end
  end.

Definition tx_free_slots (d : EnaDevice) : Z := u16 (IO_DEPTH - 1 - u16 (tx_sq_tail d - tx_next_to_comp d)).

Definition receive (d : EnaDevice) (w : world) : option bytes * EnaDevice * world :=
  let cdesc := u64 (rx_cq d + rx_cq_head d * 16) in
  let status := load32 (w_mem w) cdesc in
  if negb (Z.land (Z.shiftr status 24) 1 =? rx_cq_phase d) then (None, d, w)
  else
    let len := load16 (w_mem w) (cdesc + 4) in
    let req_id := load16 (w_mem w) (cdesc + 6) in
    let packet := if (req_id <? N_RX_BUFS) && (len <=? BUF_SIZE) then mem_read (w_mem w) (u64 (rx_bufs d + req_id * BUF_SIZE)) (Z.to_nat len) else [] in
    let head := u16 (rx_cq_head d + 1) in
    let d := if head =? IO_DEPTH then set_rx_cq d 0 (Z.lxor (rx_cq_phase d) 1) else set_rx_cq d head (rx_cq_phase d) in
    if req_id <? N_RX_BUFS then
      let '(d, w) := post_rx_desc req_id d w in (Some packet, d, ring_rx_doorbell d w)
    else (Some packet, d, w).

(** [EnaTxToken::consume]; [frame] is what the network stack writes to the buffer.  The
    [bool] tells whether the frame is queued. *)
Definition consume (fuel : nat) (len : Z) (frame : bytes) (d : EnaDevice) (w : world) : outcome (bool * EnaDevice * world) :=
  do! d <- drain_tx fuel d w;
  let slot := Z.land (tx_sq_tail d) Q_MASK in
  let buf := u64 (tx_bufs d + slot * BUF_SIZE) in
  let req_id := Z.land (tx_sq_tail d) Q_MASK in
  let w := set_mem w (mem_write (w_mem w) buf (take (Z.to_nat (Z.min len BUF_SIZE)) frame)) in
  if tx_free_slots d =? 0 then Ret (false, d, w)
  else
    let desc := u64 (tx_sq d + slot * 16) in
    let len_ctrl := Z.lor (Z.lor (Z.lor (Z.lor (Z.land (u32 len) 65535) (Z.shiftl (tx_sq_phase d) 24)) (2 ^ 26)) (2 ^ 27)) (2 ^ 28) in
    let m := store32 (w_mem w) desc len_ctrl in
    let m := store32 m (desc + 4) (u32 (Z.shiftl (Z.land req_id 1023) 22)) in
    let m := store32 m (desc + 8) (u32 buf) in
    let m := store32 m (desc + 12) (Z.land (u32 (Z.shiftr buf 32)) 65535) in
    let tail := u16 (tx_sq_tail d + 1) in
    let d := set_tx_sq d tail (if Z.land tail Q_MASK =? 0 then Z.lxor (tx_sq_phase d) 1 else tx_sq_phase d) in
    Ret (true, d, ring_tx_doorbell d (set_mem w m)).

(** [Device::transmit]: always a token. *)
Definition transmit (fuel : nat) (d : EnaDevice) (w : world) : outcome EnaDevice := drain_tx fuel d w.

(** [ena::init]. *)
Definition ena_init `{Hal} (fuel : nat) (starts : nat -> Z) (obs : nat -> nat -> mem * Z) (bar0 dev_sts : Z) (w : world) :
    outcome (option EnaDevice * world) :=
  let '(r, w) := aq_init bar0 dev_sts w in
  match r with
  | inl _ => Ret (None, w)
  | inr aq =>
      do! (r, aq, w) <- get_device_attributes fuel (starts 0%nat) (obs 0%nat) aq w;
      match r with
      | inl _ => Ret (None, w)
      | inr attrs =>
          do! (r, _, w) <- ena_new fuel (fun c => starts (S c)) (fun c => obs (S c)) bar0 (at_mac attrs) aq w;
          Ret (match r with inl _ => None | inr d => Some d end, w)
      end
  end.
