(* ===== verification/EnaProofs.v ===== *)
(** * The ENA driver: theorems

    The rings of the data path against a device that fetches descriptors in their order
    and reports completions with the phase bit: frames leave as the network stack wrote
    them and none in flight is overwritten; packets arrive in the order and as the
    device wrote them, and no receive buffer is lost.  The admin queue: a command ends,
    and its answer is the device's, unless an earlier command timed out. *)

From S2P Require Import Prelude Virtq Ena.

(** ** Phases *)

(** The phase bit of pass [n / 256] over a ring. *)
Definition phase (n : Z) : Z := if Z.even (n / 256) then 1 else 0.

Lemma phase_bit n : phase n = 0 \/ phase n = 1.
Proof. unfold phase. destruct (Z.even _); auto. Qed.

Lemma phase_flip n : (if (n + 1) mod 256 =? 0 then Z.lxor (phase n) 1 else phase n) = phase (n + 1).
Proof.
  unfold phase. destruct ((n + 1) mod 256 =? 0) eqn:E; bool_to_prop.
  - replace ((n + 1) / 256) with (n / 256 + 1) by (Z.div_mod_to_equations; lia). rewrite Z.even_add. by destruct (Z.even (n / 256)).
  - replace ((n + 1) / 256) with (n / 256) by (Z.div_mod_to_equations; lia). done.
Qed.

(** A counter of sixteen bits in a ring of 256. *)
Lemma counter_slot n : 0 <= n -> Z.land (u16 n) Q_MASK = n mod 256.
Proof. intros Hn. change Q_MASK with (Z.ones 8). rewrite Z.land_ones by lia. unfold u16. change (2 ^ 16) with (2 ^ 8 * 256). rewrite Z.rem_mul_r by lia. change (2 ^ 8) with 256. Z.div_mod_to_equations; lia. Qed.
Lemma counter_next n : u16 (u16 n + 1) = u16 (n + 1).
Proof. unfold u16. by rewrite Zplus_mod_idemp_l. Qed.

(** The next head and its phase. *)
Lemma head_next n : 0 <= n ->
  (u16 (n mod 256 + 1) =? IO_DEPTH) = ((n + 1) mod 256 =? 0) /\ ((n + 1) mod 256 <> 0 -> u16 (n mod 256 + 1) = (n + 1) mod 256).
Proof.
  intros Hn. pose proof (Z.mod_pos_bound n 256 ltac:(lia)). rewrite u16_small by lia. split.
  - destruct (n mod 256 + 1 =? 256) eqn:E1, ((n + 1) mod 256 =? 0) eqn:E2; bool_to_prop; try done; exfalso; Z.div_mod_to_equations; lia.
  - intros. Z.div_mod_to_equations; lia.
Qed.

(** ** Completion rings *)

(** The flag at entry [k] after [K] completions: of the last completion there, or zero. *)
Definition cq_flag (K k : Z) : Z := if K <=? k then 0 else phase (k + 256 * ((K - 1 - k) / 256)).

Lemma phase_at k q : 0 <= k < 256 -> phase (k + 256 * q) = if Z.even q then 1 else 0.
Proof. intros Hk. unfold phase. replace ((k + 256 * q) / 256) with q; [done|]. Z.div_mod_to_equations; lia. Qed.

Lemma cq_flag_ready R K : 0 <= R < K -> K <= R + 256 -> cq_flag K (R mod 256) = phase R.
Proof.
  intros HR HK. unfold cq_flag. pose proof (Z.mod_pos_bound R 256 ltac:(lia)). pose proof (Z.mod_le R 256 ltac:(lia) ltac:(lia)).
  rewrite (proj2 (Z.leb_gt _ _)) by lia. rewrite phase_at by lia. unfold phase. replace ((K - 1 - R mod 256) / 256) with (R / 256); [done|]. Z.div_mod_to_equations; lia.
Qed.
Lemma cq_flag_idle K : 0 <= K -> cq_flag K (K mod 256) <> phase K.
Proof.
  intros HK. unfold cq_flag. pose proof (Z.mod_pos_bound K 256 ltac:(lia)). destruct (K <=? K mod 256) eqn:E; bool_to_prop.
  - unfold phase. replace (K / 256) with 0 by (Z.div_mod_to_equations; lia). done.
  - rewrite phase_at by lia. unfold phase. replace (K / 256) with ((K - 1 - K mod 256) / 256 + 1) by (Z.div_mod_to_equations; lia).
    rewrite Z.even_add. by destruct (Z.even ((K - 1 - K mod 256) / 256)).
Qed.
Lemma cq_flag_step K k : 0 <= K -> 0 <= k < 256 -> cq_flag (K + 1) k = if k =? K mod 256 then phase K else cq_flag K k.
Proof.
  intros HK Hk. destruct (k =? K mod 256) eqn:E; bool_to_prop; [subst; apply cq_flag_ready; lia|]. unfold cq_flag.
  destruct (K <=? k) eqn:E1, (K + 1 <=? k) eqn:E2; bool_to_prop; try lia; try done.
  - exfalso. apply E. rewrite Z.mod_small; lia.
  - rewrite !phase_at by lia. replace ((K + 1 - 1 - k) / 256) with ((K - 1 - k) / 256); [done|]. Z.div_mod_to_equations; lia.
Qed.

(** ** Writing an entry piece by piece *)

Fixpoint puts (m : mem) (p : Z) (ls : list (Z * bytes)) : mem :=
  match ls with [] => m | (o, l) :: ls' => puts (mem_write m (p + o) l) p ls' end.
Fixpoint contig (o : Z) (ls : list (Z * bytes)) : bool :=
  match ls with [] => true | (o', l) :: ls' => (o' =? o) && contig (o + zlen l) ls' end.
Definition cat (ls : list (Z * bytes)) : bytes := mjoin (snd <$> ls).

Lemma puts_outside m p o ls a : contig o ls = true -> a < p + o \/ p + o + zlen (cat ls) <= a -> puts m p ls a = m a.
Proof.
  revert m o. induction ls as [|[o' l] ls IH]; intros m o Hc Ha; [done|]. cbn in Hc. apply andb_true_iff in Hc as [Ho Hc]. bool_to_prop. subst o'. cbn [puts].
  assert (E : zlen (cat ((o, l) :: ls)) = zlen l + zlen (cat ls)) by apply zlen_app. pose proof (zlen_nonneg l). pose proof (zlen_nonneg (cat ls)).
  rewrite (IH _ (o + zlen l)) by (done || lia). apply mem_write_outside. lia.
Qed.

Lemma puts_read m p o ls : contig o ls = true -> mem_read (puts m p ls) (p + o) (length (cat ls)) = cat ls.
Proof.
  revert m o. induction ls as [|[o' l] ls IH]; intros m o Hc; [done|]. cbn in Hc. apply andb_true_iff in Hc as [Ho Hc]. bool_to_prop. subst o'. cbn [puts].
  change (cat ((o, l) :: ls)) with (l ++ cat ls). rewrite length_app, mem_read_app. f_equal.
  - transitivity (mem_read (mem_write m (p + o) l) (p + o) (length l)); [|apply mem_read_write_same]. apply mem_read_ext. intros a Ha. apply (puts_outside _ p (o + zlen l)); [done|]. unfold zlen. lia.
  - replace (p + o + Z.of_nat (length l)) with (p + (o + zlen l)) by (unfold zlen; lia). by apply IH.
Qed.

(** ** The layout *)

(** The rings and buffers as they are allocated: one after the other, below 2^47. *)
Record laid_out (d : EnaDevice) : Prop := {
  lo_rx_cq : 0 <= rx_cq d;
  lo_rx_sq : rx_cq d + 4096 <= rx_sq d;
  lo_tx_cq : rx_sq d + 4096 <= tx_cq d;
  lo_tx_sq : tx_cq d + 2048 <= tx_sq d;
  lo_rx_bufs : tx_sq d + 4096 <= rx_bufs d;
  lo_tx_bufs : rx_bufs d + 522240 <= tx_bufs d;
  lo_end : tx_bufs d + 524288 < 2 ^ 47
}.

(** ** Sending *)

(** The entry the device reads for the [n]-th frame, of this length. *)
Definition tx_entry (d : EnaDevice) (n len : Z) : bytes :=
  let buf := tx_bufs d + n mod 256 * BUF_SIZE in
  le_bytes 4 (len + phase n * 2 ^ 24 + 7 * 2 ^ 26) ++ le_bytes 4 (n mod 256 * 2 ^ 22) ++ le_bytes 4 (u32 buf) ++ le_bytes 4 (buf / 2 ^ 32).

(** [T] frames sent, [K] of them completed by the device, [R] of these seen by the
    driver; [fl] are the frames in flight. *)
Record tx_ok (d : EnaDevice) (m : mem) (T K R : Z) (fl : list bytes) : Prop := {
  tx_counts : 0 <= R <= K /\ K <= T <= R + 255;
  tx_len : zlen fl = T - K;
  tx_tail : tx_sq_tail d = u16 T;
  tx_sqph : tx_sq_phase d = phase T;
  tx_head : tx_cq_head d = R mod 256;
  tx_cqph : tx_cq_phase d = phase R;
  tx_comp : tx_next_to_comp d = u16 R;
  tx_flags : forall k, 0 <= k < 256 -> Z.land (u8 (m (tx_cq d + k * 8 + 3))) 1 = cq_flag K k;
  tx_sizes : Forall (fun f => zlen f <= BUF_SIZE) fl;
  tx_flight : forall i f, fl !! i = Some f ->
    let n := K + Z.of_nat i in
    mem_read m (tx_sq d + n mod 256 * 16) 16 = tx_entry d n (zlen f) /\ mem_read m (tx_bufs d + n mod 256 * BUF_SIZE) (length f) = f
}.

(** What belongs to the sending side: the fields, and the three areas. *)
Definition tx_same (d d' : EnaDevice) (m m' : mem) : Prop :=
  (tx_sq d', tx_cq d', tx_db d', tx_sq_tail d', tx_sq_phase d', tx_cq_head d', tx_cq_phase d', tx_bufs d', tx_next_to_comp d') =
  (tx_sq d, tx_cq d, tx_db d, tx_sq_tail d, tx_sq_phase d, tx_cq_head d, tx_cq_phase d, tx_bufs d, tx_next_to_comp d) /\
  forall a, tx_cq d <= a < tx_cq d + 2048 \/ tx_sq d <= a < tx_sq d + 4096 \/ tx_bufs d <= a < tx_bufs d + 524288 -> m' a = m a.

Lemma slot_bounds n k : 0 <= k -> 0 <= n mod 256 * k <= 255 * k.
Proof. intros Hk. pose proof (Z.mod_pos_bound n 256 ltac:(lia)). nia. Qed.

Lemma tx_ok_same d d' m m' T K R fl : laid_out d -> tx_same d d' m m' -> tx_ok d m T K R fl -> tx_ok d' m' T K R fl.
Proof.
  intros L [E Hm] [H1 H2 H3 H4 H5 H6 H7 Hf Hs Hfl]. injection E as Ea Eb Ec Ed Ee Ef Eg Eh Ei. constructor; rewrite ?Ea, ?Eb, ?Ec, ?Ed, ?Ee, ?Ef, ?Eg, ?Eh, ?Ei; try done.
  - intros k Hk. rewrite Hm by lia. by apply Hf.
  - intros i f Hi n. destruct (Hfl i f Hi) as [E1 E2]. fold n in E1, E2. rewrite Forall_forall in Hs. pose proof (Hs f (list_elem_of_lookup_2 _ _ _ Hi)) as Hlen. pose proof (slot_bounds n 16 ltac:(lia)). pose proof (slot_bounds n 2048 ltac:(lia)). split.
    + etransitivity; [|unfold tx_entry; rewrite Eh; exact E1]. apply mem_read_ext. intros a Ha. apply Hm. lia.
    + etransitivity; [|exact E2]. apply mem_read_ext. intros a Ha. apply Hm. unfold zlen in Hlen. lia.
Qed.

(** What belongs to the receiving side. *)
Definition rx_same (d d' : EnaDevice) (m m' : mem) : Prop :=
  (bar0 d', e_mac d', rx_sq d', rx_cq d', rx_db d', rx_sq_tail d', rx_sq_phase d', rx_cq_head d', rx_cq_phase d', rx_bufs d') =
  (bar0 d, e_mac d, rx_sq d, rx_cq d, rx_db d, rx_sq_tail d, rx_sq_phase d, rx_cq_head d, rx_cq_phase d, rx_bufs d) /\
  forall a, rx_cq d <= a < rx_cq d + 4096 \/ rx_sq d <= a < rx_sq d + 4096 \/ rx_bufs d <= a < rx_bufs d + 522240 -> m' a = m a.
(** Where everything is. *)
Definition bases (d : EnaDevice) := (bar0 d, e_mac d, rx_sq d, rx_cq d, rx_db d, rx_bufs d, tx_sq d, tx_cq d, tx_db d, tx_bufs d).
Lemma laid_out_bases d d' : bases d' = bases d -> laid_out d -> laid_out d'.
Proof. intros [= E1 E2 E3 E4 E5 E6 E7 E8 E9 E10] []. constructor; congruence || lia. Qed.

(** One completion seen, or none left. *)
Lemma drain_one_spec d w T K R fl :
  tx_ok d (w_mem w) T K R fl ->
  if R <? K then exists d', drain_one d w = Some d' /\ tx_ok d' (w_mem w) T K (R + 1) fl /\ bases d' = bases d /\ rx_same d d' (w_mem w) (w_mem w)
  else drain_one d w = None.
Proof.
  intros [Hc Hl Ht Hp Hh Hq Hn Hf Hs Hfl]. unfold drain_one. rewrite Hh, Hq. pose proof (Z.mod_pos_bound R 256 ltac:(lia)). rewrite Hf by done.
  destruct (R <? K) eqn:E; bool_to_prop.
  - rewrite cq_flag_ready, Z.eqb_refl by lia. cbn [negb]. eexists. split; [done|]. destruct (head_next R ltac:(lia)) as [E1 E2]. rewrite E1. rewrite Hn, counter_next.
    pose proof (phase_flip R) as Hpf. destruct ((R + 1) mod 256 =? 0) eqn:E0; bool_to_prop; (split; [|split; [done|split; [done|done]]]); constructor; cbn; try done; try lia; by apply E2.
  - assert (R = K) as -> by lia. rewrite (proj2 (Z.eqb_neq _ _)) by (apply cq_flag_idle; lia). done.
Qed.

Lemma rx_same_trans d1 d2 d3 m1 m2 m3 : rx_same d1 d2 m1 m2 -> rx_same d2 d3 m2 m3 -> rx_same d1 d3 m1 m3.
Proof.
  intros [E1 H1] [E2 H2]. split; [congruence|]. injection E1 as Ea Eb Ec Ed Ee Ef Eg Eh Ei Ej. rewrite Ec, Ed, Ej in H2. intros a Ha. rewrite H2 by done. by apply H1.
Qed.

(** [drain_tx] ends and has then seen every completion. *)
Lemma drain_tx_run fuel d w T K R fl :
  tx_ok d (w_mem w) T K R fl -> K - R < Z.of_nat fuel ->
  exists d', drain_tx fuel d w = Ret d' /\ tx_ok d' (w_mem w) T K K fl /\ bases d' = bases d /\ rx_same d d' (w_mem w) (w_mem w).
Proof.
  revert d R. induction fuel as [|fuel IH]; intros d R Hok Hf; pose proof Hok as [Hc _ _ _ _ _ _ _ _ _]; [lia|]. cbn [drain_tx].
  pose proof (drain_one_spec d w T K R fl Hok) as H1. destruct (R <? K) eqn:E; bool_to_prop.
  - destruct H1 as (d1 & -> & Hok1 & Hb1 & Hr1). destruct (IH d1 (R + 1) Hok1 ltac:(lia)) as (d' & E' & Hok' & Hb' & Hr'). exists d'.
    split; [done|]. split; [done|]. split; [congruence|by eapply rx_same_trans].
  - rewrite H1. assert (R = K) as -> by lia. exists d. done.
Qed.

Lemma free_slots d m T K fl : tx_ok d m T K K fl -> tx_free_slots d = 255 - (T - K).
Proof.
  intros [Hc _ Ht _ _ _ Hn _ _ _]. unfold tx_free_slots. rewrite Ht, Hn. unfold u16. rewrite <- Zminus_mod, (Z.mod_small (T - K)), Z.mod_small by lia. lia.
Qed.

Lemma len_ctrl len ph : 0 <= len < 65536 -> ph = 0 \/ ph = 1 ->
  Z.lor (Z.lor (Z.lor (Z.lor (Z.land (u32 len) 65535) (Z.shiftl ph 24)) (2 ^ 26)) (2 ^ 27)) (2 ^ 28) = len + ph * 2 ^ 24 + 7 * 2 ^ 26.
Proof.
  intros Hl Hp. rewrite u32_small by lia. change 65535 with (Z.ones 16). rewrite Z.land_ones, Z.mod_small by lia.
  rewrite <- !Z.lor_assoc, Z.lor_comm.
  assert (E : Z.lor (Z.shiftl ph 24) (Z.lor (2 ^ 26) (Z.lor (2 ^ 27) (2 ^ 28))) = Z.shiftl (ph * 2 ^ 8 + 7 * 2 ^ 10) 16) by (destruct Hp as [-> | ->]; reflexivity).
  rewrite E, lor_low by lia. lia.
Qed.

(** The memory is the same but for slot [s] of the ring and of the buffers. *)
Definition but_slot (d : EnaDevice) (s : Z) (m m' : mem) : Prop :=
  forall a, ~ (tx_sq d + s * 16 <= a < tx_sq d + s * 16 + 16) -> ~ (tx_bufs d + s * BUF_SIZE <= a < tx_bufs d + s * BUF_SIZE + BUF_SIZE) -> m' a = m a.

Lemma slots_apart n T : 0 < T - n <= 255 -> n mod 256 <> T mod 256.
Proof. intros H E. Z.div_mod_to_equations; lia. Qed.

(** The frames in flight do not see slot [T mod 256]. *)
Lemma tx_flight_kept d m m' T K R fl :
  laid_out d -> tx_ok d m T K R fl -> but_slot d (T mod 256) m m' -> tx_ok d m' T K R fl.
Proof.
  intros L [H1 H2 H3 H4 H5 H6 H7 Hf Hs Hfl] Hm. pose proof L as []. pose proof (Z.mod_pos_bound T 256 ltac:(lia)) as HT. constructor; try done.
  - intros k Hk. rewrite Hm by lia. by apply Hf.
  - intros i f Hi n. destruct (Hfl i f Hi) as [E1 E2]. fold n in E1, E2. pose proof (lookup_lt_Some _ _ _ Hi) as Hlt. unfold zlen in H2.
    rewrite Forall_forall in Hs. pose proof (Hs f (list_elem_of_lookup_2 _ _ _ Hi)) as Hlen. unfold zlen in Hlen.
    assert (Hne : n mod 256 <> T mod 256) by (apply slots_apart; lia). pose proof (Z.mod_pos_bound n 256 ltac:(lia)) as Hn. split.
    + rewrite <- E1. apply mem_read_ext. intros a Ha. apply Hm; nia.
    + rewrite <- E2 at 2. apply mem_read_ext. intros a Ha. apply Hm; nia.
Qed.

(** The entry as the code stores it. *)
Lemma tx_entry_stored d m T len :
  laid_out d -> 0 <= T -> 0 <= len <= BUF_SIZE ->
  let s := T mod 256 in
  let buf := tx_bufs d + s * BUF_SIZE in
  let desc := tx_sq d + s * 16 in
  let m' := store32 (store32 (store32 (store32 m desc (len + phase T * 2 ^ 24 + 7 * 2 ^ 26)) (desc + 4) (u32 (Z.shiftl (Z.land s 1023) 22))) (desc + 8) (u32 buf))
              (desc + 12) (Z.land (u32 (Z.shiftr buf 32)) 65535) in
  mem_read m' desc 16 = tx_entry d T len /\ forall a, ~ (desc <= a < desc + 16) -> m' a = m a.
Proof.
  intros L HT Hl s buf desc m'. pose proof L as []. pose proof (Z.mod_pos_bound T 256 ltac:(lia)) as Hs. fold s in Hs.
  set (ls := [(0, le_bytes 4 (len + phase T * 2 ^ 24 + 7 * 2 ^ 26)); (4, le_bytes 4 (s * 2 ^ 22)); (8, le_bytes 4 (u32 buf)); (12, le_bytes 4 (buf / 2 ^ 32))]).
  assert (Em : m' = puts m desc ls).
  { unfold m', ls, store32. cbn [puts]. rewrite Z.add_0_r. do 3 f_equal.
    - f_equal. change 1023 with (Z.ones 10). rewrite Z.land_ones, Z.mod_small, Z.shiftl_mul_pow2, u32_small by lia. done.
    - rewrite Z.shiftr_div_pow2 by lia. change 65535 with (Z.ones 16). rewrite Z.land_ones by lia. assert (0 <= buf / 2 ^ 32 < 2 ^ 16) by (split; [apply Z.div_pos|apply Z.div_lt_upper_bound]; lia).
      rewrite u32_small, Z.mod_small by lia. done. }
  rewrite Em. assert (Hc : contig 0 ls = true) by reflexivity. split.
  - pose proof (puts_read m desc 0 ls Hc) as E. rewrite Z.add_0_r in E. exact E.
  - intros a Ha. apply (puts_outside m desc 0 ls); [done|]. change (zlen (cat ls)) with 16. lia.
Qed.

Lemma consume_run fuel frame d w T K R fl :
  laid_out d -> tx_ok d (w_mem w) T K R fl -> zlen frame <= BUF_SIZE -> (256 <= fuel)%nat ->
  exists d' w', consume fuel (zlen frame) frame d w = Ret (T - K <? 255, d', w') /\ bases d' = bases d /\ rx_same d d' (w_mem w) (w_mem w') /\
    if T - K <? 255 then tx_ok d' (w_mem w') (T + 1) K K (fl ++ [frame]) /\ w_regs w' = w_regs w ++ [(u64 (bar0 d + tx_db d), u16 (T + 1))]
    else tx_ok d' (w_mem w') T K K fl /\ w_regs w' = w_regs w.
Proof.
  intros L Hok Hlen Hf. pose proof Hok as [Hc _ _ _ _ _ _ _ _ _]. unfold consume. destruct (drain_tx_run fuel d w T K R fl Hok ltac:(lia)) as (d1 & -> & Hok1 & Hb1 & Hr1). cbn [obind].
  pose proof (laid_out_bases _ _ Hb1 L) as L1. pose proof L1 as []. pose proof Hok1 as [_ Hl1 Ht1 Hp1 Hh1 Hq1 Hn1 Hf1 Hs1 Hfl1]. rewrite Ht1, counter_slot by lia.
  pose proof (Z.mod_pos_bound T 256 ltac:(lia)) as HT. rewrite (u64_small (tx_bufs d1 + _)) by lia. rewrite (free_slots d1 (w_mem w) T K fl) by done. pose proof (zlen_nonneg frame) as Hnn.
  rewrite Z.min_l by lia. replace (take (Z.to_nat (zlen frame)) frame) with frame by (rewrite take_ge; [done|unfold zlen; lia]).
  set (m1 := mem_write (w_mem w) (tx_bufs d1 + T mod 256 * BUF_SIZE) frame).
  assert (Hm1 : forall a, ~ (tx_bufs d1 + T mod 256 * BUF_SIZE <= a < tx_bufs d1 + T mod 256 * BUF_SIZE + BUF_SIZE) -> m1 a = w_mem w a) by (intros a Ha; apply mem_write_outside; lia).
  destruct (T - K <? 255) eqn:E; bool_to_prop.
  2: { rewrite (proj2 (Z.eqb_eq _ _)) by lia. eexists d1, _. split; [done|]. split; [done|]. split; [|split; [|done]]; cbn [w_mem set_mem].
       - eapply rx_same_trans; [exact Hr1|]. split; [done|]. intros a Ha. apply Hm1. lia.
       - eapply tx_flight_kept; [done|exact Hok1|]. intros a _ Ha. by apply Hm1. }
  rewrite (proj2 (Z.eqb_neq _ _)) by lia. rewrite (u64_small (tx_sq d1 + _)) by lia. rewrite len_ctrl by (lia || (rewrite Hp1; apply phase_bit)). rewrite Hp1.
  destruct (tx_entry_stored d1 m1 T (zlen frame) L1 ltac:(lia) ltac:(lia)) as [Een Eout]. set (m2 := store32 _ (tx_sq d1 + T mod 256 * 16 + 12) _) in *.
  eexists _, _. split; [done|]. rewrite counter_next. split; [done|]. cbn [w_mem w_regs set_mem write32 ring_tx_doorbell bar0 tx_db set_tx_sq tx_sq_tail].
  assert (Hbut : but_slot d1 (T mod 256) (w_mem w) m2) by (intros a Ha1 Ha2; rewrite Eout by done; by apply Hm1).
  split; [eapply rx_same_trans; [exact Hr1|]; split; [done|]; intros a Ha; apply Hbut; lia|].
  split; [|injection Hb1; intros; congruence].
  destruct (tx_flight_kept d1 (w_mem w) m2 T K K fl L1 Hok1 Hbut) as [_ _ _ _ _ _ _ Hf2 _ Hfl2]. constructor; cbn; try done; try lia.
  - rewrite zlen_app, Hl1. unfold zlen. cbn. lia.
  - rewrite counter_slot by lia. apply phase_flip.
  - apply Forall_app. split; [done|]. by apply Forall_singleton.
  - intros i f Hi. apply lookup_app_Some in Hi as [Hi|[Hge Hi]]; [by apply Hfl2|]. apply list_lookup_singleton_Some in Hi as [Hi <-].
    unfold zlen in Hl1. replace (K + Z.of_nat i) with T by lia. split; [exact Een|].
    rewrite (mem_read_ext m2 m1); [apply mem_read_write_same|]. intros a Ha. apply Eout. unfold zlen in Hlen. lia.
Qed.

(** The device completes the oldest frame in flight: an entry with the phase. *)
Lemma tx_done d m T K R f fl x e :
  laid_out d -> tx_ok d m T K R (f :: fl) -> length e = 8%nat -> e !! 3%nat = Some x -> Z.land (u8 x) 1 = phase K ->
  tx_ok d (mem_write m (tx_cq d + K mod 256 * 8) e) T (K + 1) R fl.
Proof.
  intros L [H1 H2 H3 H4 H5 H6 H7 Hf Hs Hfl] Hle Hx Hp. pose proof L as []. pose proof (Z.mod_pos_bound K 256 ltac:(lia)) as HK.
  assert (Hz : zlen e = 8) by (unfold zlen; lia). rewrite zlen_cons in H2. pose proof (zlen_nonneg fl). inversion Hs as [|? ? Hsf Hs']; subst.
  assert (Hout : forall a, ~ (tx_cq d + K mod 256 * 8 <= a < tx_cq d + K mod 256 * 8 + 8) -> mem_write m (tx_cq d + K mod 256 * 8) e a = m a) by (intros a Ha; apply mem_write_outside; lia).
  constructor; try done; try lia.
  - intros k Hk. rewrite cq_flag_step by lia. destruct (k =? K mod 256) eqn:E; bool_to_prop.
    + subst k. rewrite (mem_write_inside m _ e 3 x Hx). done.
    + rewrite Hout by lia. by apply Hf.
  - intros i g Hi n. destruct (Hfl (S i) g Hi) as [E1 E2]. replace (K + Z.of_nat (S i)) with n in E1, E2 by lia. pose proof (slot_bounds n 16 ltac:(lia)). pose proof (slot_bounds n 2048 ltac:(lia)).
    rewrite Forall_forall in Hs'. pose proof (Hs' g (list_elem_of_lookup_2 _ _ _ Hi)) as Hlen. unfold zlen in Hlen. split.
    + rewrite <- E1. apply mem_read_ext. intros a Ha. apply Hout. lia.
    + rewrite <- E2 at 2. apply mem_read_ext. intros a Ha. apply Hout. lia.
Qed.

(** ** Receiving *)

(** The entry the device reads for the [n]-th buffer posted. *)
Definition rx_entry (d : EnaDevice) (n id : Z) : bytes :=
  let buf := rx_bufs d + id * BUF_SIZE in
  le_bytes 2 BUF_SIZE ++ [0; 28 + phase n] ++ le_bytes 2 id ++ le_bytes 2 0 ++ le_bytes 4 (u32 buf) ++ le_bytes 2 (buf / 2 ^ 32) ++ le_bytes 2 0.

(** [P] buffers posted, [C] of them filled by the device, [R] packets received; [posted]
    are the buffers with the device, [ready] those it has filled, with their packets. *)
Record rx_ok (d : EnaDevice) (m : mem) (C R : Z) (posted : list Z) (ready : list (Z * bytes)) : Prop := {
  rx_counts : 0 <= R <= C /\ C <= R + 255;
  rx_plen : zlen posted = R + 255 - C;
  rx_rlen : zlen ready = C - R;
  rx_ids : NoDup (posted ++ ready.*1);
  rx_range : Forall (fun i => 0 <= i < 255) (posted ++ ready.*1);
  rx_tail : rx_sq_tail d = u16 (R + 255);
  rx_sqph : rx_sq_phase d = phase (R + 255);
  rx_head : rx_cq_head d = R mod 256;
  rx_cqph : rx_cq_phase d = phase R;
  rx_flags : forall k, 0 <= k < 256 -> Z.land (Z.shiftr (load32 m (rx_cq d + k * 16)) 24) 1 = cq_flag C k;
  rx_descs : forall i id, posted !! i = Some id -> mem_read m (rx_sq d + (C + Z.of_nat i) mod 256 * 16) 16 = rx_entry d (C + Z.of_nat i) id;
  rx_ready : forall i id f, ready !! i = Some (id, f) ->
    let e := rx_cq d + (R + Z.of_nat i) mod 256 * 16 in
    load16 m (e + 4) = zlen f /\ load16 m (e + 6) = id /\ zlen f <= BUF_SIZE /\ mem_read m (rx_bufs d + id * BUF_SIZE) (length f) = f
}.

Lemma load16_ext m m' p : (forall a, p <= a < p + 2 -> m' a = m a) -> load16 m' p = load16 m p.
Proof. intros H. unfold load16. f_equal. f_equal. apply mem_read_ext. intros a Ha. apply H. lia. Qed.
Lemma load32_ext m m' p : (forall a, p <= a < p + 4 -> m' a = m a) -> load32 m' p = load32 m p.
Proof. intros H. unfold load32. f_equal. f_equal. apply mem_read_ext. intros a Ha. apply H. lia. Qed.

Lemma rx_ids_range d m C R posted ready i id f : rx_ok d m C R posted ready -> ready !! i = Some (id, f) -> 0 <= id < 255.
Proof.
  intros Hok Hi. destruct Hok as [_ _ _ _ Hr _ _ _ _ _ _ _]. rewrite Forall_forall in Hr. apply Hr. apply elem_of_app. right. apply list_elem_of_fmap. exists (id, f). split; [done|]. by eapply list_elem_of_lookup_2.
Qed.

Lemma rx_ok_same d d' m m' C R posted ready : laid_out d -> rx_same d d' m m' -> rx_ok d m C R posted ready -> rx_ok d' m' C R posted ready.
Proof.
  intros L [E Hm] Hok. pose proof (fun i id f => rx_ids_range d m C R posted ready i id f Hok) as Hrange. destruct Hok as [H1 H2 H3 H4 H5 H6 H7 H8 H9 Hf Hd Hr].
  injection E as Ea Eb Ec Ed Ee Ef Eg Eh Ei Ej. constructor; rewrite ?Ea, ?Eb, ?Ec, ?Ed, ?Ee, ?Ef, ?Eg, ?Eh, ?Ei, ?Ej; try done.
  - intros k Hk. rewrite (load32_ext m m') by (intros; apply Hm; lia). by apply Hf.
  - intros i id Hi. etransitivity; [|unfold rx_entry; rewrite Ej; by apply Hd]. pose proof (slot_bounds (C + Z.of_nat i) 16 ltac:(lia)). apply mem_read_ext. intros a Ha. apply Hm. lia.
  - intros i id f Hi. destruct (Hr i id f Hi) as (E1 & E2 & E3 & E4). pose proof (Hrange i id f Hi) as Hid. pose proof (slot_bounds (R + Z.of_nat i) 16 ltac:(lia)).
    cbv zeta. rewrite !(load16_ext m m') by (intros; apply Hm; lia). split_and!; [done|done|done|]. etransitivity; [|exact E4]. apply mem_read_ext. intros a Ha. apply Hm. unfold zlen in E3. lia.
Qed.

(** The entry as the code stores it. *)
Lemma rx_entry_stored d m n id :
  laid_out d -> 0 <= n -> 0 <= id < 255 ->
  let buf := rx_bufs d + id * BUF_SIZE in
  let desc := rx_sq d + n mod 256 * 16 in
  let m' := store16 (store16 (store32 (store16 (store16 (store8 (store8 (store16 m desc BUF_SIZE) (desc + 2) 0) (desc + 3) (Z.lor (Z.lor (Z.lor 4 8) 16) (Z.land (phase n) 1)))
              (desc + 4) id) (desc + 6) 0) (desc + 8) (u32 buf)) (desc + 12) (u16 (Z.shiftr buf 32))) (desc + 14) 0 in
  mem_read m' desc 16 = rx_entry d n id /\ forall a, ~ (desc <= a < desc + 16) -> m' a = m a.
Proof.
  intros L Hn Hid buf desc m'. pose proof L as []. pose proof (Z.mod_pos_bound n 256 ltac:(lia)) as Hs.
  set (ls := [(0, le_bytes 2 BUF_SIZE); (2, [0]); (3, [28 + phase n]); (4, le_bytes 2 id); (6, le_bytes 2 0); (8, le_bytes 4 (u32 buf)); (12, le_bytes 2 (buf / 2 ^ 32)); (14, le_bytes 2 0)]).
  assert (Em : m' = puts m desc ls).
  { unfold m', ls, store32, store16, store8. cbn [puts]. rewrite Z.add_0_r.
    replace (u8 (Z.lor (Z.lor (Z.lor 4 8) 16) (Z.land (phase n) 1))) with (28 + phase n) by (destruct (phase_bit n) as [-> | ->]; reflexivity). change (u8 0) with 0.
    assert (0 <= buf / 2 ^ 32 < 2 ^ 16) by (split; [apply Z.div_pos|apply Z.div_lt_upper_bound]; lia). rewrite Z.shiftr_div_pow2, u16_small by lia. done. }
  rewrite Em. assert (Hc : contig 0 ls = true) by reflexivity. split.
  - pose proof (puts_read m desc 0 ls Hc) as E. rewrite Z.add_0_r in E. exact E.
  - intros a Ha. apply (puts_outside m desc 0 ls); [done|]. change (zlen (cat ls)) with 16. lia.
Qed.

(** Posting one more buffer. *)
Lemma post_run id d w n :
  laid_out d -> 0 <= n -> 0 <= id < 255 -> rx_sq_tail d = u16 n -> rx_sq_phase d = phase n ->
  exists m', post_rx_desc id d w = (set_rx_sq d (u16 (n + 1)) (phase (n + 1)), set_mem w m') /\
    mem_read m' (rx_sq d + n mod 256 * 16) 16 = rx_entry d n id /\
    forall a, ~ (rx_sq d + n mod 256 * 16 <= a < rx_sq d + n mod 256 * 16 + 16) -> m' a = w_mem w a.
Proof.
  intros L Hn Hid Ht Hp. pose proof L as []. pose proof (Z.mod_pos_bound n 256 ltac:(lia)) as Hs. unfold post_rx_desc. rewrite Ht, Hp, counter_next, (counter_slot n), (counter_slot (n + 1)) by lia. rewrite (u64_small (rx_bufs d + _)), (u64_small (rx_sq d + _)) by lia.
  rewrite phase_flip. eexists. split; [done|]. by apply rx_entry_stored.
Qed.

Lemma receive_run d w C R posted ready :
  laid_out d -> rx_ok d (w_mem w) C R posted ready ->
  match ready with
  | [] => receive d w = (None, d, w)
  | (id, f) :: ready' =>
      exists d' w', receive d w = (Some f, d', w') /\ rx_ok d' (w_mem w') C (R + 1) (posted ++ [id]) ready' /\ bases d' = bases d /\
        tx_same d d' (w_mem w) (w_mem w') /\ w_regs w' = w_regs w ++ [(u64 (bar0 d + rx_db d), u16 (R + 256))]
  end.
Proof.
  intros L Hok. pose proof (fun i id f => rx_ids_range d (w_mem w) C R posted ready i id f Hok) as Hrange. pose proof Hok as [Hc Hpl Hrl Hnd Hrg Htl Hsp Hhd Hcp Hf Hd Hr]. pose proof L as [].
  pose proof (Z.mod_pos_bound R 256 ltac:(lia)) as HR. unfold receive. rewrite Hhd, Hcp, u64_small by lia. rewrite Hf by done. destruct ready as [|[id f] ready'].
  { assert (R = C) as -> by (rewrite zlen_nil in Hrl; lia). rewrite (proj2 (Z.eqb_neq _ _)) by (apply cq_flag_idle; lia). done. }
  rewrite zlen_cons in Hrl. pose proof (zlen_nonneg ready'). rewrite cq_flag_ready, Z.eqb_refl by lia. cbn [negb].
  destruct (Hr 0%nat id f eq_refl) as (E1 & E2 & E3 & E4). rewrite Z.add_0_r in E1, E2. rewrite E1, E2. pose proof (Hrange 0%nat id f eq_refl) as Hid.
  rewrite (proj2 (Z.ltb_lt _ _)), (proj2 (Z.leb_le _ _)) by lia. cbn [andb]. rewrite (u64_small (rx_bufs d + _)) by lia. unfold zlen at 1. rewrite Nat2Z.id, E4.
  destruct (head_next R ltac:(lia)) as [Eh1 Eh2]. rewrite Eh1.
  set (d1 := if (R + 1) mod 256 =? 0 then _ else _).
  assert (Hd1 : d1 = set_rx_cq d ((R + 1) mod 256) (phase (R + 1))).
  { unfold d1. pose proof (phase_flip R) as Hpf. destruct ((R + 1) mod 256 =? 0) eqn:E0; bool_to_prop; [by rewrite E0, Hpf|by rewrite Eh2, Hpf]. }
  assert (L1 : laid_out d1) by (rewrite Hd1; by apply (laid_out_bases d)).
  destruct (post_run id d1 w (R + 255) L1 ltac:(lia) Hid) as (m' & -> & Een & Eout); [by rewrite Hd1|by rewrite Hd1|]. rewrite Hd1 in Een, Eout |- *. cbn [rx_sq set_rx_cq] in Een, Eout.
  eexists _, _. split; [done|]. cbn [w_mem w_regs set_mem write32 ring_rx_doorbell bar0 rx_db set_rx_cq set_rx_sq rx_sq_tail]. replace (R + 255 + 1) with (R + 256) by lia.
  pose proof (Z.mod_pos_bound (R + 255) 256 ltac:(lia)) as HP. split; [|split; [done|split; [|done]]]. 2: { split; [done|]. intros a Ha. apply Eout. lia. }
  constructor; cbn [rx_sq_tail rx_sq_phase rx_cq_head rx_cq_phase rx_sq rx_cq rx_bufs set_rx_sq set_rx_cq fmap list_fmap fst]; try done; try lia.
  - rewrite zlen_app. unfold zlen in *. cbn. lia.
  - rewrite <- app_assoc. exact Hnd.
  - rewrite <- app_assoc. exact Hrg.
  - f_equal. lia.
  - f_equal. lia.
  - intros k Hk. rewrite (load32_ext (w_mem w)) by (intros; apply Eout; lia). by apply Hf.
  - intros i j Hi. apply lookup_app_Some in Hi as [Hi|[Hge Hi]].
    + pose proof (lookup_lt_Some _ _ _ Hi) as Hlt. unfold zlen in Hpl. etransitivity; [|exact (Hd i j Hi)]. apply mem_read_ext. intros a Ha. apply Eout.
      assert (Hne : (C + Z.of_nat i) mod 256 <> (R + 255) mod 256) by (apply slots_apart; lia). pose proof (Z.mod_pos_bound (C + Z.of_nat i) 256 ltac:(lia)). nia.
    + apply list_lookup_singleton_Some in Hi as [Hi <-]. unfold zlen in Hpl. replace (C + Z.of_nat i) with (R + 255) by lia. exact Een.
  - intros i j g Hi. destruct (Hr (S i) j g Hi) as (F1 & F2 & F3 & F4). pose proof (Hrange (S i) j g Hi) as Hj. replace (R + Z.of_nat (S i)) with (R + 1 + Z.of_nat i) in F1, F2 by lia.
    pose proof (slot_bounds (R + 1 + Z.of_nat i) 16 ltac:(lia)). cbv zeta. rewrite !(load16_ext (w_mem w) m') by (intros; apply Eout; lia). split_and!; [done|done|done|]. etransitivity; [|exact F4].
    apply mem_read_ext. intros a Ha. apply Eout. unfold zlen in F3. lia.
Qed.

(** ** The device fills a buffer *)

(** A completion entry: its status word, the length, the buffer and what follows. *)
Definition rx_cdesc (st len id : Z) (rest : bytes) : bytes := le_bytes 4 st ++ le_bytes 2 len ++ le_bytes 2 id ++ rest.

Lemma mem_read_piece m p (a l c : bytes) n : mem_read m p n = a ++ l ++ c -> mem_read m (p + zlen a) (length l) = l.
Proof.
  intros E. assert (n = length a + (length l + length c))%nat as -> by (apply (f_equal length) in E; rewrite mem_read_length, !length_app in E; done).
  rewrite mem_read_app in E. apply app_inj_1 in E as [_ E]; [|apply mem_read_length]. rewrite mem_read_app in E. apply app_inj_1 in E as [E _]; [done|apply mem_read_length].
Qed.
Lemma mem_read_mid m p (a l c : bytes) : mem_read (mem_write m p (a ++ l ++ c)) (p + zlen a) (length l) = l.
Proof. eapply mem_read_piece, mem_read_write_same. Qed.

Lemma rx_cdesc_read m p st len id rest :
  0 <= st < 2 ^ 32 -> 0 <= len < 2 ^ 16 -> 0 <= id < 2 ^ 16 ->
  let m' := mem_write m p (rx_cdesc st len id rest) in load32 m' p = st /\ load16 m' (p + 4) = len /\ load16 m' (p + 6) = id.
Proof.
  intros Hs Hl Hi m'. unfold load32, load16. split_and!.
  - pose proof (mem_read_mid m p [] (le_bytes 4 st) (le_bytes 2 len ++ le_bytes 2 id ++ rest)) as E. rewrite zlen_nil, Z.add_0_r, le_bytes_length in E. unfold m', rx_cdesc. cbn [app] in E. rewrite E.
    rewrite le_val_bytes by lia. by apply u32_small.
  - pose proof (mem_read_mid m p (le_bytes 4 st) (le_bytes 2 len) (le_bytes 2 id ++ rest)) as E. change (zlen (le_bytes 4 st)) with 4 in E. rewrite le_bytes_length in E. unfold m', rx_cdesc. rewrite E.
    rewrite le_val_bytes by lia. by apply u16_small.
  - pose proof (mem_read_mid m p (le_bytes 4 st ++ le_bytes 2 len) (le_bytes 2 id) rest) as E. change (zlen (le_bytes 4 st ++ le_bytes 2 len)) with 6 in E. rewrite le_bytes_length, <- app_assoc in E. unfold m', rx_cdesc. rewrite E.
    rewrite le_val_bytes by lia. by apply u16_small.
Qed.

Lemma rx_arrive d m C R id posted ready f st rest :
  laid_out d -> rx_ok d m C R (id :: posted) ready -> zlen f <= BUF_SIZE -> 0 <= st < 2 ^ 32 -> Z.land (Z.shiftr st 24) 1 = phase C -> length rest = 8%nat ->
  rx_ok d (mem_write (mem_write m (rx_bufs d + id * BUF_SIZE) f) (rx_cq d + C mod 256 * 16) (rx_cdesc st (zlen f) id rest)) (C + 1) R posted (ready ++ [(id, f)]).
Proof.
  intros L Hok Hlen Hst Hph Hrest. pose proof (fun i id f => rx_ids_range d m C R _ ready i id f Hok) as Hrange. destruct Hok as [Hc Hpl Hrl Hnd Hrg Htl Hsp Hhd Hcp Hf Hd Hr]. pose proof L as [].
  rewrite zlen_cons in Hpl. pose proof (zlen_nonneg posted). pose proof (zlen_nonneg f). pose proof (Z.mod_pos_bound C 256 ltac:(lia)) as HC.
  assert (Hid : 0 <= id < 255) by (rewrite Forall_forall in Hrg; apply Hrg; left).
  set (e := rx_cdesc st (zlen f) id rest). assert (He : zlen e = 16) by (unfold zlen, e, rx_cdesc; rewrite !length_app, !le_bytes_length; lia).
  set (m1 := mem_write m _ f). set (m2 := mem_write m1 _ e).
  assert (Ho1 : forall a, ~ (rx_bufs d + id * BUF_SIZE <= a < rx_bufs d + id * BUF_SIZE + BUF_SIZE) -> m1 a = m a) by (intros a Ha; apply mem_write_outside; lia).
  assert (Ho2 : forall a, ~ (rx_cq d + C mod 256 * 16 <= a < rx_cq d + C mod 256 * 16 + 16) -> m2 a = m1 a) by (intros a Ha; apply mem_write_outside; lia).
  destruct (rx_cdesc_read m1 (rx_cq d + C mod 256 * 16) st (zlen f) id rest Hst ltac:(lia) ltac:(lia)) as (R1 & R2 & R3). fold e m2 in R1, R2, R3.
  assert (Eperm : posted ++ (ready ++ [(id, f)]).*1 ≡ₚ (id :: posted) ++ ready.*1) by (rewrite fmap_app; cbn; solve_Permutation).
  constructor; try done; try lia.
  - rewrite zlen_app. unfold zlen in *. cbn. lia.
  - by rewrite Eperm.
  - by rewrite Eperm.
  - intros k Hk. rewrite cq_flag_step by lia. destruct (k =? C mod 256) eqn:E; bool_to_prop; [subst k; by rewrite R1|].
    rewrite (load32_ext m m2) by (intros; rewrite Ho2 by lia; apply Ho1; lia). by apply Hf.
  - intros i j Hi. replace (C + 1 + Z.of_nat i) with (C + Z.of_nat (S i)) by lia. etransitivity; [|exact (Hd (S i) j Hi)]. pose proof (slot_bounds (C + Z.of_nat (S i)) 16 ltac:(lia)).
    apply mem_read_ext. intros a Ha. rewrite Ho2 by lia. apply Ho1. lia.
  - intros i j g Hi. cbv zeta. apply lookup_app_Some in Hi as [Hi|[Hge Hi]].
    + destruct (Hr i j g Hi) as (F1 & F2 & F3 & F4). pose proof (Hrange i j g Hi) as Hj. pose proof (lookup_lt_Some _ _ _ Hi) as Hlt. unfold zlen in Hrl.
      assert (Hne : (R + Z.of_nat i) mod 256 <> C mod 256) by (apply slots_apart; lia). pose proof (Z.mod_pos_bound (R + Z.of_nat i) 256 ltac:(lia)).
      assert (Hji : j <> id). { intros ->. apply NoDup_app in Hnd as (_ & Hx & _). apply (Hx id); [left|]. apply list_elem_of_fmap. exists (id, g). split; [done|]. by eapply list_elem_of_lookup_2. }
      rewrite !(load16_ext m m2) by (intros; rewrite Ho2 by nia; apply Ho1; lia). split_and!; [done|done|done|]. etransitivity; [|exact F4]. apply mem_read_ext. intros a Ha. unfold zlen in F3. rewrite Ho2 by lia. apply Ho1. nia.
    + apply list_lookup_singleton_Some in Hi as [Hi [= <- <-]]. unfold zlen in Hrl. replace (R + Z.of_nat i) with C by lia. split_and!; [done|done|done|].
      rewrite (mem_read_ext m2 m1); [apply mem_read_write_same|]. intros a Ha. apply Ho2. unfold zlen in Hlen. lia.
Qed.

(** ** What the device reads *)

Lemma tx_entry_read d m n len :
  laid_out d -> 0 <= len <= BUF_SIZE -> let p := tx_sq d + n mod 256 * 16 in mem_read m p 16 = tx_entry d n len ->
  Z.land (load32 m p) 65535 = len /\ Z.land (Z.shiftr (load32 m p) 24) 1 = phase n /\
  load32 m (p + 8) + 2 ^ 32 * load32 m (p + 12) = tx_bufs d + n mod 256 * BUF_SIZE.
Proof.
  intros L Hl p E. pose proof L as []. pose proof (Z.mod_pos_bound n 256 ltac:(lia)) as Hn. unfold tx_entry in E. cbv zeta in E. set (buf := tx_bufs d + n mod 256 * BUF_SIZE) in *.
  assert (Hb : 0 <= buf / 2 ^ 32 < 2 ^ 32) by (split; [apply Z.div_pos|apply Z.div_lt_upper_bound]; lia).
  assert (Hc : 0 <= len + phase n * 2 ^ 24 + 7 * 2 ^ 26 < 2 ^ 32) by (destruct (phase_bit n) as [-> | ->]; lia).
  assert (E0 : load32 m p = len + phase n * 2 ^ 24 + 7 * 2 ^ 26).
  { pose proof (mem_read_piece m p [] _ _ _ E) as E0. rewrite zlen_nil, Z.add_0_r, le_bytes_length in E0. unfold load32. rewrite E0, le_val_bytes by lia. by apply u32_small. }
  assert (E8 : load32 m (p + 8) = u32 buf).
  { pose proof (mem_read_piece m p (le_bytes 4 (len + phase n * 2 ^ 24 + 7 * 2 ^ 26) ++ le_bytes 4 (n mod 256 * 2 ^ 22)) (le_bytes 4 (u32 buf)) (le_bytes 4 (buf / 2 ^ 32)) 16) as E8.
    rewrite <- app_assoc in E8. specialize (E8 E). change (zlen _) with 8 in E8. rewrite le_bytes_length in E8. unfold load32. rewrite E8. pose proof (Z.mod_pos_bound buf (2 ^ 32) ltac:(lia)). unfold u32 at 2 3. rewrite le_val_bytes by lia. apply u32_small. lia. }
  assert (E12 : load32 m (p + 12) = buf / 2 ^ 32).
  { pose proof (mem_read_piece m p (le_bytes 4 (len + phase n * 2 ^ 24 + 7 * 2 ^ 26) ++ le_bytes 4 (n mod 256 * 2 ^ 22) ++ le_bytes 4 (u32 buf)) (le_bytes 4 (buf / 2 ^ 32)) [] 16) as E12.
    rewrite <- !app_assoc, app_nil_r in E12. specialize (E12 E). change (zlen _) with 12 in E12. rewrite le_bytes_length in E12. unfold load32. rewrite E12, le_val_bytes by lia. by apply u32_small. }
  rewrite E0, E8, E12. split_and!.
  - change 65535 with (Z.ones 16). rewrite Z.land_ones by lia. destruct (phase_bit n) as [-> | ->]; Z.div_mod_to_equations; lia.
  - rewrite Z.shiftr_div_pow2 by lia. change 1 with (Z.ones 1) at 1. rewrite Z.land_ones by lia. destruct (phase_bit n) as [-> | ->]; Z.div_mod_to_equations; lia.
  - unfold u32. pose proof (Z.div_mod buf (2 ^ 32)). lia.
Qed.

Lemma rx_entry_read d m n id :
  laid_out d -> 0 <= id < 255 -> let p := rx_sq d + n mod 256 * 16 in mem_read m p 16 = rx_entry d n id ->
  load16 m p = BUF_SIZE /\ load16 m (p + 4) = id /\ load32 m (p + 8) + 2 ^ 32 * load16 m (p + 12) = rx_bufs d + id * BUF_SIZE.
Proof.
  intros L Hid p E. pose proof L as []. unfold rx_entry in E. cbv zeta in E. set (buf := rx_bufs d + id * BUF_SIZE) in *. set (fl := [0; 28 + phase n]) in *.
  assert (Hb : 0 <= buf / 2 ^ 32 < 2 ^ 16) by (split; [apply Z.div_pos|apply Z.div_lt_upper_bound]; lia). pose proof (Z.mod_pos_bound buf (2 ^ 32) ltac:(lia)) as Hm.
  assert (E0 : load16 m p = BUF_SIZE).
  { pose proof (mem_read_piece m p [] _ _ _ E) as E0. rewrite zlen_nil, Z.add_0_r, le_bytes_length in E0. unfold load16. rewrite E0. reflexivity. }
  assert (E4 : load16 m (p + 4) = id).
  { pose proof (mem_read_piece m p (le_bytes 2 BUF_SIZE ++ fl) (le_bytes 2 id) (le_bytes 2 0 ++ le_bytes 4 (u32 buf) ++ le_bytes 2 (buf / 2 ^ 32) ++ le_bytes 2 0) 16) as E4.
    rewrite <- app_assoc in E4. specialize (E4 E). change (zlen _) with 4 in E4. rewrite le_bytes_length in E4. unfold load16. rewrite E4, le_val_bytes by lia. apply u16_small. lia. }
  assert (E8 : load32 m (p + 8) = u32 buf).
  { pose proof (mem_read_piece m p (le_bytes 2 BUF_SIZE ++ fl ++ le_bytes 2 id ++ le_bytes 2 0) (le_bytes 4 (u32 buf)) (le_bytes 2 (buf / 2 ^ 32) ++ le_bytes 2 0) 16) as E8.
    rewrite <- !app_assoc in E8. specialize (E8 E). change (zlen _) with 8 in E8. rewrite le_bytes_length in E8. unfold load32. rewrite E8. unfold u32 at 2 3. rewrite le_val_bytes by lia. apply u32_small. lia. }
  assert (E12 : load16 m (p + 12) = buf / 2 ^ 32).
  { pose proof (mem_read_piece m p (le_bytes 2 BUF_SIZE ++ fl ++ le_bytes 2 id ++ le_bytes 2 0 ++ le_bytes 4 (u32 buf)) (le_bytes 2 (buf / 2 ^ 32)) (le_bytes 2 0) 16) as E12.
    rewrite <- !app_assoc in E12. specialize (E12 E). change (zlen _) with 12 in E12. rewrite le_bytes_length in E12. unfold load16. rewrite E12, le_val_bytes by lia. by apply u16_small. }
  rewrite E0, E4, E8, E12. split_and!; [done|done|]. unfold u32. pose proof (Z.div_mod buf (2 ^ 32)). lia.
Qed.

(** ** The driver and the device together *)

(** The device: how many frames it has sent and how many packets it has delivered.  It
    reads the ring entries in memory, and takes an entry only up to the last doorbell,
    which is the driver's tail.  What went through is recorded. *)
Record system := mkSys {
  s_drv : EnaDevice;
  s_world : world;
  s_sent : Z;
  s_filled : Z;
  accepted : list bytes;
  wire : list bytes;
  arrived : list bytes;
  got : list bytes
}.

Inductive event := Send (frame : bytes) | DeviceSends | DeviceReceives (frame : bytes) | Receive.

Definition device_sends (s : system) : system :=
  let d := s_drv s in
  let m := w_mem (s_world s) in
  let K := s_sent s in
  if tx_sq_tail d =? u16 K then s
  else
    let p := tx_sq d + K mod 256 * 16 in
    let frame := mem_read m (load32 m (p + 8) + 2 ^ 32 * load32 m (p + 12)) (Z.to_nat (Z.land (load32 m p) 65535)) in
    let m' := mem_write m (tx_cq d + K mod 256 * 8) [0; 0; 0; phase K; 0; 0; 0; 0] in
    mkSys d (set_mem (s_world s) m') (K + 1) (s_filled s) (accepted s) (wire s ++ [frame]) (arrived s) (got s).

Definition device_receives (frame : bytes) (s : system) : system :=
  let d := s_drv s in
  let m := w_mem (s_world s) in
  let C := s_filled s in
  let p := rx_sq d + C mod 256 * 16 in
  if (rx_sq_tail d =? u16 C) || (load16 m p <? zlen frame) then s
  else
    let m' := mem_write m (load32 m (p + 8) + 2 ^ 32 * load16 m (p + 12)) frame in
    let m' := mem_write m' (rx_cq d + C mod 256 * 16) (rx_cdesc (phase C * 2 ^ 24) (zlen frame) (load16 m (p + 4)) (replicate 8 0)) in
    mkSys d (set_mem (s_world s) m') (s_sent s) (C + 1) (accepted s) (wire s) (arrived s ++ [frame]) (got s).

Definition step (e : event) (s : system) : outcome system :=
  match e with
  | Send frame =>
      do! (ok, d, w) <- consume 256 (zlen frame) frame (s_drv s) (s_world s);
      Ret (mkSys d w (s_sent s) (s_filled s) (if ok then accepted s ++ [frame] else accepted s) (wire s) (arrived s) (got s))
  | DeviceSends => Ret (device_sends s)
  | DeviceReceives frame => Ret (device_receives frame s)
  | Receive =>
      let '(p, d, w) := receive (s_drv s) (s_world s) in
      Ret (mkSys d w (s_sent s) (s_filled s) (accepted s) (wire s) (arrived s) (match p with Some f => got s ++ [f] | None => got s end))
  end.
Fixpoint run (es : list event) (s : system) : outcome system :=
  match es with [] => Ret s | e :: es' => do! s <- step e s; run es' s end.

(** What the driver and the device are to each other: a queue of at most 255 frames out
    and a queue of at most 255 packets in. *)
Record queues := mkQs { out_q : list bytes; in_q : list bytes; q_accepted : list bytes; q_wire : list bytes; q_arrived : list bytes; q_got : list bytes }.
Definition spec_step (e : event) (q : queues) : queues :=
  match e with
  | Send f =>
      if zlen (out_q q) <? 255 then mkQs (out_q q ++ [f]) (in_q q) (q_accepted q ++ [f]) (q_wire q) (q_arrived q) (q_got q) else q
  | DeviceSends =>
      match out_q q with f :: l => mkQs l (in_q q) (q_accepted q) (q_wire q ++ [f]) (q_arrived q) (q_got q) | [] => q end
  | DeviceReceives f =>
      if (zlen (in_q q) <? 255) && (zlen f <=? BUF_SIZE) then mkQs (out_q q) (in_q q ++ [f]) (q_accepted q) (q_wire q) (q_arrived q ++ [f]) (q_got q) else q
  | Receive =>
      match in_q q with f :: l => mkQs (out_q q) l (q_accepted q) (q_wire q) (q_arrived q) (q_got q ++ [f]) | [] => q end
  end.
Definition spec_run (es : list event) (q : queues) : queues := fold_left (fun q e => spec_step e q) es q.

(** The system implements the queues. *)
Record implements (s : system) (q : queues) : Prop := {
  im_laid : laid_out (s_drv s);
  im_tx : exists R, tx_ok (s_drv s) (w_mem (s_world s)) (s_sent s + zlen (out_q q)) (s_sent s) R (out_q q);
  im_rx : exists R posted ready, rx_ok (s_drv s) (w_mem (s_world s)) (s_filled s) R posted ready /\ in_q q = ready.*2;
  im_rest : (accepted s, wire s, arrived s, got s) = (q_accepted q, q_wire q, q_arrived q, q_got q)
}.
Definition event_ok (e : event) : Prop := match e with Send f => zlen f <= BUF_SIZE | _ => True end.

Lemma send_right f s q : zlen f <= BUF_SIZE -> implements s q -> exists s', step (Send f) s = Ret s' /\ implements s' (spec_step (Send f) q).
Proof.
  intros Hf [L (R & Htx) (R' & posted & ready & Hrx & Eq) Hr]. injection Hr as E1 E2 E3 E4. cbn [step].
  destruct (consume_run 256 f (s_drv s) (s_world s) _ _ _ _ L Htx Hf ltac:(lia)) as (d' & w' & -> & Hb & Hrs & Hres). cbn [obind spec_step].
  pose proof (laid_out_bases _ _ Hb L) as L'. pose proof (rx_ok_same _ _ _ _ _ _ _ _ L Hrs Hrx) as Hrx'.
  replace (s_sent s + zlen (out_q q) - s_sent s) with (zlen (out_q q)) in * by lia. eexists. split; [done|]. destruct (zlen (out_q q) <? 255); destruct Hres as [Htx' _].
  - constructor; cbn; [done| |by eexists _, _, _|congruence]. exists (s_sent s). rewrite zlen_app, Z.add_assoc. exact Htx'.
  - constructor; cbn; [done|by eexists|by eexists _, _, _|congruence].
Qed.

Lemma counter_eq a b : a <= b < a + 2 ^ 16 -> (u16 b =? u16 a) = (b =? a).
Proof.
  intros H. destruct (b =? a) eqn:E; bool_to_prop; [subst; apply Z.eqb_refl|]. apply Z.eqb_neq. unfold u16. intros E2. apply E. Z.div_mod_to_equations; lia.
Qed.

Lemma device_sends_right s q : implements s q -> implements (device_sends s) (spec_step DeviceSends q).
Proof.
  intros [L (R & Htx) (R' & posted & ready & Hrx & Eq) Hr]. pose proof Hr as [= E1' E2' E3' E4']. unfold device_sends. pose proof Htx as [Hc _ Ht _ _ _ _ _ Hs Hfl]. pose proof L as [].
  pose proof (zlen_nonneg (out_q q)). rewrite Ht, counter_eq by lia. cbn [spec_step]. destruct (out_q q) as [|f fl] eqn:Eo.
  { rewrite zlen_nil, Z.add_0_r, Z.eqb_refl. constructor; [done|rewrite Eo; by eexists|by eexists _, _, _|done]. }
  rewrite zlen_cons in *. pose proof (zlen_nonneg fl). rewrite (proj2 (Z.eqb_neq _ _)) by lia.
  destruct (Hfl 0%nat f eq_refl) as [E1 E2]. rewrite Z.add_0_r in E1, E2. inversion Hs as [|? ? Hf _]; subst. pose proof (zlen_nonneg f).
  destruct (tx_entry_read _ _ (s_sent s) (zlen f) L ltac:(lia) E1) as (-> & _ & ->). pose proof (Z.mod_pos_bound (s_sent s) 256 ltac:(lia)).
  constructor; cbn; [done| | |].
  - exists R. replace (s_sent s + 1 + zlen fl) with (s_sent s + (1 + zlen fl)) by lia. eapply tx_done; [done|exact Htx|done|done|]. destruct (phase_bit (s_sent s)) as [-> | ->]; reflexivity.
  - exists R', posted, ready. split; [|done]. eapply rx_ok_same; [done| |exact Hrx]. split; [done|]. intros a Ha. apply mem_write_outside. change (zlen _) with 8. lia.
  - unfold zlen. rewrite Nat2Z.id, E2. congruence.
Qed.

Lemma device_receives_right f s q : implements s q -> implements (device_receives f s) (spec_step (DeviceReceives f) q).
Proof.
  intros [L (R & Htx) (R' & posted & ready & Hrx & Eq) Hr]. pose proof Hr as [= E1' E2' E3' E4']. unfold device_receives. pose proof Hrx as [Hc Hpl Hrl _ Hrg Htl _ _ _ _ Hd _]. pose proof L as [].
  rewrite Htl, counter_eq by lia. cbn [spec_step]. rewrite Eq. replace (zlen ready.*2) with (zlen ready) by (unfold zlen; by rewrite length_fmap).
  assert (Hsame : implements s q) by (constructor; [done|by eexists|by eexists _, _, _|done]). destruct posted as [|id posted].
  { rewrite zlen_nil in Hpl. rewrite (proj2 (Z.eqb_eq _ _)), (proj2 (Z.ltb_ge _ 255)) by lia. exact Hsame. }
  rewrite zlen_cons in Hpl. pose proof (zlen_nonneg posted). rewrite (proj2 (Z.eqb_neq _ _)), (proj2 (Z.ltb_lt _ 255)) by lia. cbn [orb andb].
  pose proof (Hd 0%nat id eq_refl) as E. rewrite Z.add_0_r in E. assert (Hid : 0 <= id < 255) by (rewrite Forall_forall in Hrg; apply Hrg; left).
  destruct (rx_entry_read _ _ (s_filled s) id L Hid E) as (-> & -> & ->). pose proof (Z.mod_pos_bound (s_filled s) 256 ltac:(lia)). pose proof (zlen_nonneg f). rewrite Z.ltb_antisym.
  destruct (zlen f <=? BUF_SIZE) eqn:Ef; bool_to_prop; cbn [negb]; [|exact Hsame].
  constructor; cbn [s_drv s_world s_sent s_filled accepted wire arrived got w_mem set_mem out_q in_q q_accepted q_wire q_arrived q_got]; [done| | |congruence].
  - exists R. eapply tx_ok_same; [done| |exact Htx]. split; [done|]. intros a Ha. rewrite !mem_write_outside; [done|lia|].
    assert (E16 : zlen (rx_cdesc (phase (s_filled s) * 2 ^ 24) (zlen f) id (replicate 8 0)) = 16) by (unfold zlen, rx_cdesc; rewrite !length_app, !le_bytes_length; done). rewrite E16. lia.
  - exists R', posted, (ready ++ [(id, f)]). split; [|by rewrite fmap_app].
    apply rx_arrive; [done|exact Hrx|lia| | |done]; destruct (phase_bit (s_filled s)) as [-> | ->]; (reflexivity || lia).
Qed.

Lemma receive_right s q : implements s q -> exists s', step Receive s = Ret s' /\ implements s' (spec_step Receive q).
Proof.
  intros [L (R & Htx) (R' & posted & ready & Hrx & Eq) Hr]. pose proof Hr as [= E1' E2' E3' E4']. cbn [step spec_step]. rewrite Eq.
  pose proof (receive_run _ _ _ _ _ _ L Hrx) as H. destruct ready as [|[id f] ready'].
  - rewrite H. eexists. split; [done|]. constructor; [done|by eexists|by eexists _, _, []|done].
  - destruct H as (d' & w' & -> & Hrx' & Hb & Hts & _). eexists. split; [done|]. constructor; cbn; [by eapply laid_out_bases| |by eexists _, _, ready'|congruence].
    exists R. by eapply tx_ok_same.
Qed.

Lemma run_implements es s q : Forall event_ok es -> implements s q -> exists s', run es s = Ret s' /\ implements s' (spec_run es q).
Proof.
  intros He. revert s q. induction He as [|e es He _ IH]; intros s q Hi; [by exists s|]. cbn [run spec_run fold_left].
  assert (H : exists s', step e s = Ret s' /\ implements s' (spec_step e q)).
  { destruct e; [by apply send_right| | |by apply receive_right]; (eexists; split; [done|]); [by apply device_sends_right|by apply device_receives_right]. }
  destruct H as (s1 & -> & H1). cbn [obind]. by apply IH.
Qed.

(** ** The start *)

Lemma post_all_run l d w c :
  laid_out d -> 0 <= c -> c + zlen l <= 256 -> Forall (fun i => 0 <= i < 255) l -> rx_sq_tail d = u16 c -> rx_sq_phase d = phase c ->
  exists m', post_all l d w = (set_rx_sq d (u16 (c + zlen l)) (phase (c + zlen l)), set_mem w m') /\
    (forall i id, l !! i = Some id -> mem_read m' (rx_sq d + (c + Z.of_nat i) * 16) 16 = rx_entry d (c + Z.of_nat i) id) /\
    forall a, ~ (rx_sq d + c * 16 <= a < rx_sq d + (c + zlen l) * 16) -> m' a = w_mem w a.
Proof.
  intros L Hc Hl Hid. revert d w c L Hc Hl. induction Hid as [|id l Hid _ IH]; intros d w c L Hc Hl Ht Hp.
  { exists (w_mem w). rewrite zlen_nil, Z.add_0_r, <- Ht, <- Hp. split; [by destruct d, w|done]. }
  rewrite zlen_cons in *. pose proof (zlen_nonneg l). cbn [post_all]. destruct (post_run id d w c L Hc Hid Ht Hp) as (m1 & -> & E1 & O1). rewrite (Z.mod_small c) in E1, O1 by lia.
  destruct (IH (set_rx_sq d (u16 (c + 1)) (phase (c + 1))) (set_mem w m1) (c + 1)) as (m2 & -> & E2 & O2); [by apply (laid_out_bases d)|lia|lia|done|done|].
  exists m2. replace (c + 1 + zlen l) with (c + (1 + zlen l)) in * by lia. split; [done|]. split.
  - intros [|i] j Hj; cbn in Hj.
    + injection Hj as <-. rewrite Z.add_0_r. rewrite <- E1. apply mem_read_ext. intros a Ha. apply O2. cbn. lia.
    + replace (c + Z.of_nat (S i)) with (c + 1 + Z.of_nat i) by lia. apply (E2 i j Hj).
  - intros a Ha. rewrite O2 by (cbn; lia). apply O1. lia.
Qed.

(** A device whose rings are new: all zero, nothing posted. *)
Record fresh (d : EnaDevice) (m : mem) : Prop := {
  fr_laid : laid_out d;
  fr_fields : (rx_sq_tail d, rx_sq_phase d, rx_cq_head d, rx_cq_phase d) = (0, 1, 0, 1) /\ (tx_sq_tail d, tx_sq_phase d, tx_cq_head d, tx_cq_phase d, tx_next_to_comp d) = (0, 1, 0, 1, 0);
  fr_zero : forall a, rx_cq d <= a < rx_cq d + 4096 \/ tx_cq d <= a < tx_cq d + 2048 -> m a = 0
}.

Definition buffer_ids : list Z := Z.of_nat <$> seq 0 255.
Definition start (d : EnaDevice) (w : world) : system :=
  let '(d, w) := post_all buffer_ids d w in mkSys d (ring_rx_doorbell d w) 0 0 [] [] [] [].
Definition empty_queues : queues := mkQs [] [] [] [] [] [].

Lemma buffer_ids_ok : NoDup buffer_ids /\ Forall (fun i => 0 <= i < 255) buffer_ids /\ zlen buffer_ids = 255.
Proof.
  unfold buffer_ids. split_and!; [| |done].
  - apply NoDup_fmap_2; [intros ? ? ?; lia|apply NoDup_seq].
  - apply Forall_fmap, Forall_forall. intros i Hi%elem_of_seq. cbn. lia.
Qed.

Lemma start_implements d w : fresh d (w_mem w) -> implements (start d w) empty_queues.
Proof.
  intros [L [Ef1 Ef2] Hz]. injection Ef1 as F1 F2 F3 F4. injection Ef2 as F5 F6 F7 F8 F9. pose proof buffer_ids_ok as (Hnd & Hrg & Hlen). pose proof L as [].
  unfold start. destruct (post_all_run buffer_ids d w 0 L ltac:(lia) ltac:(lia) Hrg) as (m' & -> & E & O); [by rewrite F1|by rewrite F2|]. rewrite Hlen in *.
  constructor; cbn [s_drv s_world s_sent s_filled w_mem set_mem ring_rx_doorbell write32 out_q in_q empty_queues]; [by apply (laid_out_bases d)| | |done].
  - exists 0. constructor; cbn [tx_sq_tail tx_sq_phase tx_cq_head tx_cq_phase tx_next_to_comp tx_cq set_rx_sq]; rewrite ?F5, ?F6, ?F7, ?F8, ?F9; try done.
    intros k Hk. rewrite O by lia. rewrite Hz by lia. unfold cq_flag. by rewrite (proj2 (Z.leb_le 0 k)) by lia.
  - exists 0, buffer_ids, []. split; [|done]. constructor; cbn [rx_sq_tail rx_sq_phase rx_cq_head rx_cq_phase rx_cq rx_sq set_rx_sq fmap list_fmap]; rewrite ?app_nil_r, ?F3, ?F4; try done; try lia.
    + intros k Hk. unfold load32. assert (Em : mem_read m' (rx_cq d + k * 16) 4 = [0; 0; 0; 0]) by (cbn [mem_read]; rewrite !O by lia; by rewrite !Hz by lia).
      rewrite Em. unfold cq_flag. by rewrite (proj2 (Z.leb_le 0 k)) by lia.
    + intros i id Hi. pose proof (lookup_lt_Some _ _ _ Hi) as Hlt. unfold zlen in Hlen. rewrite Z.mod_small by lia. by apply E.
Qed.

(** C10: the ENA data path refines two queues.  From new rings, for any interleaving of
    frames sent by the network stack, receptions by it, and a device that sends and
    delivers in order: nothing panics and every loop ends; frames go on the wire in the
    order and as they were written, packets reach the stack in the order and as they
    arrived; a frame is refused exactly when 255 are in flight, and a packet exactly when
    255 wait or it exceeds a buffer. *)
Theorem ena_refines_queues d w es :
  fresh d (w_mem w) -> Forall event_ok es ->
  exists s, run es (start d w) = Ret s /\ let q := spec_run es empty_queues in
    accepted s = q_accepted q /\ wire s = q_wire q /\ arrived s = q_arrived q /\ got s = q_got q.
Proof.
  intros Hf He. destruct (run_implements es (start d w) empty_queues He (start_implements d w Hf)) as (s & E & [_ _ _ Hr]). exists s. split; [done|]. injection Hr as -> -> -> ->. done.
Qed.

Module Example_rings.
Definition dev : EnaDevice := mkEna 0 [] 4096 0 64 0 1 0 1 20480 16384 8192 68 0 1 0 1 544768 0.
Definition zeroed : world := mkW (fun _ => 0) [] [].
Definition traffic : list event := [Send [1; 2; 3]; DeviceReceives [4; 5]; Receive; DeviceSends; Send [6]; Receive; DeviceReceives (replicate 2049 0); DeviceSends].
End Example_rings.

Lemma ena_refines_queues_witness :
  exists s, run Example_rings.traffic (start Example_rings.dev Example_rings.zeroed) = Ret s /\
    accepted s = [[1; 2; 3]; [6]] /\ wire s = [[1; 2; 3]; [6]] /\ arrived s = [[4; 5]] /\ got s = [[4; 5]].
Proof.
  apply (ena_refines_queues Example_rings.dev Example_rings.zeroed Example_rings.traffic).
  - constructor; [constructor; cbn; lia|done|done].
  - unfold Example_rings.traffic. repeat (apply Forall_cons; split; [first [exact I | vm_compute; discriminate]|]). apply Forall_nil_2.
Defined.
