(* ===== verification/EnaInit.v ===== *)
(** * Bringing the ENA card up

    [ena::init] over the kernel's DMA allocator ([TynHal]): what it does for every answer
    of the card to its five commands, and that the rings it leaves are those
    [EnaProofs.v] starts from.  Then the commands as the card reads them, and what a
    command that timed out does to the next one. *)

From S2P Require Import Prelude Virtq Net.
From S2P Require Import Ena EnaProofs.

(** ** One command *)

(** What the polls of a command see when the queue's head is at [entry] with this phase:
    for [n] polls nothing and the time is not up, then an answer or the time-out. *)
Inductive seen (entry ph start : Z) (obs : nat -> mem * Z) (n : nat) : ena_error + bytes -> mem -> Prop :=
| seen_answer m now out :
    obs n = (m, now) -> mem_read m entry 64 = out -> Z.land (u8 (m (entry + 3))) 1 = ph ->
    seen entry ph start obs n (if u8 (default 0 (out !! 2%nat)) =? 0 then inr out else inl NonZeroStatus) m
| seen_timeout m now :
    obs n = (m, now) -> Z.land (u8 (m (entry + 3))) 1 <> ph -> ADMIN_CMD_TIMEOUT_NS < u64 (now - start) ->
    seen entry ph start obs n (inl CommandTimeout) m.

Definition quiet (entry ph start : Z) (obs : nat -> mem * Z) (n : nat) : Prop :=
  forall i, (i < n)%nat -> Z.land (u8 (fst (obs i) (entry + 3))) 1 <> ph /\ u64 (snd (obs i) - start) <= ADMIN_CMD_TIMEOUT_NS.

Definition answered {A} (r : ena_error + A) : bool := match r with inl CommandTimeout => false | _ => true end.

(** The queue after its head moved. *)
Definition advance_head (q : AdminQueue) : AdminQueue :=
  let head := u16 (cq_head q + 1) in
  let '(head, phase) := if head =? depth q then (0, Z.lxor (cq_phase q) 1) else (head, cq_phase q) in
  mkAQ (aq_bar0 q) (sq_base q) (cq_base q) (depth q) (sq_tail q) (sq_phase q) head phase (curr_cmd_id q).

Lemma poll_run n fuel start obs q w r m :
  quiet (cq_base q + cq_head q * 64) (cq_phase q) start obs n -> seen (cq_base q + cq_head q * 64) (cq_phase q) start obs n r m ->
  (n < fuel)%nat -> forall i, (i <= n)%nat -> exists f', (f' = fuel - i)%nat /\
  poll_cq f' i start obs q w = Ret (r, if answered r then advance_head q else q, set_mem w m).
Proof.
  intros Hq Hs Hf i Hi. exists (fuel - i)%nat. split; [done|]. remember (n - i)%nat as k eqn:Hk. revert i w Hi Hk.
  induction k as [|k IH]; intros i w Hi Hk; destruct (fuel - i)%nat as [|f'] eqn:Ef; try lia; cbn [poll_cq].
  - assert (i = n) as -> by lia. destruct Hs as [m now out Eo Er Ep|m now Eo Ep Et]; rewrite Eo.
    + rewrite Ep, Z.eqb_refl, Er. unfold advance_head. destruct (u16 (cq_head q + 1) =? depth q); by destruct (u8 _ =? 0).
    + rewrite (proj2 (Z.eqb_neq _ _) Ep), (proj2 (Z.ltb_lt _ _) Et). done.
  - destruct (Hq i ltac:(lia)) as [Hp Ht]. destruct (obs i) as [mi ni] eqn:Eo. cbn [fst snd] in Hp, Ht.
    rewrite (proj2 (Z.eqb_neq _ _) Hp), (proj2 (Z.ltb_ge _ _) Ht).
    replace f' with (fuel - S i)%nat by lia. rewrite (IH (S i) _ ltac:(lia) ltac:(lia)). done.
Qed.

(** The admin queue after [c] answered commands, from new. *)
Definition aq_at (bar0 base c : Z) : AdminQueue := mkAQ bar0 base (base + 4096) 32 c 1 c 1 c.

Definition map_ok {A B} (k : A -> B) (r : ena_error + A) : ena_error + B := match r with inl e => inl e | inr a => inr (k a) end.

Lemma command_run {A} cmd (k : bytes -> A) fuel n start obs bar0 base c w r m :
  0 <= c < 31 -> let entry := base + 4096 + c * 64 in
  quiet entry 1 start obs n -> seen entry 1 start obs n r m -> (n < fuel)%nat ->
  exists q, command cmd k fuel start obs (aq_at bar0 base c) w = Ret (map_ok k r, q, mkW m (w_dma w) (w_regs w ++ [(u64 (bar0 + 44), c + 1)])) /\
    (answered r = true -> q = aq_at bar0 base (c + 1)).
Proof.
  intros Hc entry Hq Hs Hn. unfold command, submit_and_poll, submit. cbn [aq_at sq_tail depth sq_base sq_phase curr_cmd_id aq_bar0 cq_base cq_head cq_phase].
  assert (Es : forall x, 0 <= x <= 31 -> u16 x = x /\ Z.land x (32 - 1) = x).
  { intros x Hx. rewrite (u16_small x) by lia. split; [done|]. change (32 - 1) with (Z.ones 5). rewrite Z.land_ones by lia. apply Z.mod_small. lia. }
  destruct (Es (c + 1) ltac:(lia)) as [E1 E2]. rewrite !E1, !E2, (proj2 (Z.eqb_neq (c + 1) 0)) by lia.
  match goal with |- context [poll_cq _ _ _ _ ?q ?w] => destruct (poll_run n fuel start obs q w r m Hq Hs Hn 0%nat ltac:(lia)) as (f' & -> & Hrun) end.
  rewrite Nat.sub_0_r in Hrun. rewrite Hrun. cbn [obind]. eexists. split; [reflexivity|].
  intros ->. unfold advance_head. cbn [cq_head depth cq_phase aq_bar0 sq_base cq_base sq_tail sq_phase curr_cmd_id].
  by rewrite E1, (proj2 (Z.eqb_neq (c + 1) 32)) by lia.
Qed.

(** ** The whole *)

Definition ok_bytes (r : ena_error + bytes) : option bytes := match r with inr b => Some b | inl _ => None end.

(** Where the kernel's allocator puts the next page. *)
Definition next_dma (dma : Z) (w : world) : Z := dma + dma_used (w_dma w).

Lemma dma_used_app l l' : dma_used (l ++ l') = dma_used l + dma_used l'.
Proof. induction l as [|[] l IH]; cbn [dma_used app]; rewrite ?IH; lia. Qed.

Lemma alloc_run dma heap bytes_ w :
  0 <= next_dma dma w < 2 ^ 64 ->
  exists w', dma_alloc_zeroed (H := TynHal dma heap) bytes_ w = (next_dma dma w, w') /\ next_dma dma w' = next_dma dma w + 4096 * pages bytes_ /\ w_regs w' = w_regs w.
Proof.
  intros Hb. unfold dma_alloc_zeroed. cbn [hal_dma_alloc TynHal]. unfold next_dma in *. rewrite u64_small by lia.
  eexists. split; [reflexivity|]. cbn [w_dma w_regs]. rewrite dma_used_app. cbn [dma_used]. unfold PAGE_SIZE. split; [lia|done].
Qed.

Ltac alloc_step w' Hn Hr :=
  match goal with |- context [dma_alloc_zeroed (H := TynHal ?dma ?heap) ?b ?w] =>
    destruct (alloc_run dma heap b w) as (w' & -> & Hn & Hr); [lia|];
    let p := eval vm_compute in (4096 * pages b) in change (4096 * pages b) with p in Hn end.

Section bring_up.
Context (dma : Z) (heap : list hal_event -> Z -> Z) (fuel : nat) (starts : nat -> Z) (obs : nat -> nat -> mem * Z).
Context (bar0_ : Z) (rs : nat -> ena_error + bytes) (ms : nat -> mem).

Definition all_answers : option (list bytes) := mapM ok_bytes (rs <$> seq 0 5).

(** The polls of the [c]-th command see [rs c], if the ones before succeeded. *)
Definition polls (base : Z) : Prop :=
  forall c, (c < 5)%nat -> (forall c', (c' < c)%nat -> exists b, rs c' = inr b) ->
  exists n, (n < fuel)%nat /\ let entry := base + 4096 + Z.of_nat c * 64 in
    quiet entry 1 (starts c) (obs c) n /\ seen entry 1 (starts c) (obs c) n (rs c) (ms c).

(** The device [ena_new] builds. *)
Definition new_device (base : Z) (mac : bytes) (rx_db tx_db : Z) : EnaDevice :=
  mkEna bar0_ mac (base + 16384) (base + 12288) rx_db 0 1 0 1 (base + 28672) (base + 24576) (base + 20480) tx_db 0 1 0 1 (base + 552960) 0.

Lemma polls_command {A} cmd (k : bytes -> A) base c w :
  polls base -> (c < 5)%nat -> (forall c', (c' < c)%nat -> exists b, rs c' = inr b) ->
  exists q, command cmd k fuel (starts c) (obs c) (aq_at bar0_ base (Z.of_nat c)) w =
    Ret (map_ok k (rs c), q, mkW (ms c) (w_dma w) (w_regs w ++ [(u64 (bar0_ + 44), Z.of_nat c + 1)])) /\
    ((exists b, rs c = inr b) -> q = aq_at bar0_ base (Z.of_nat (S c))).
Proof.
  intros Hp Hc Hb. destruct (Hp c Hc Hb) as (n & Hn & Hq & Hs).
  destruct (command_run cmd k fuel n (starts c) (obs c) bar0_ base (Z.of_nat c) w (rs c) (ms c) ltac:(lia) Hq Hs Hn) as (q & E & Ha).
  exists q. split; [exact E|]. intros [b Eb]. rewrite Nat2Z.inj_succ. apply Ha. by rewrite Eb.
Qed.

Definition succeeded (c : nat) : Prop := exists b, rs c = inr b.

Local Ltac command_step c R :=
    match goal with Hp : polls ?base |- context [command ?cmd ?k _ _ _ (aq_at _ _ ?p) ?w] =>
      let q := fresh "q" in let E := fresh "E" in let Hq := fresh "Hq" in let e := fresh "e" in let b := fresh "b" in
      destruct (polls_command cmd k base c w Hp ltac:(lia)) as (q & E & Hq);
      [ intros c' Hc'; repeat (destruct c' as [|c']; [by eexists|try lia])
      | let z := eval cbv in (Z.of_nat c) in change (Z.of_nat c) with z in E; rewrite E; cbn [obind map_ok];
        destruct (rs c) as [e|b] eqn:R; cbn [map_ok]; [eexists _, _; split; [reflexivity|by intros [? ?] [? ?] [? ?] [? ?]]|];
        let z := eval cbv in (Z.of_nat (S c)) in change (Z.of_nat (S c)) with z in Hq; rewrite Hq by (by eexists) ] end.

(** [EnaDevice::new] after the attributes: the four queues. *)
Lemma ena_new_run base mac_ w :
  polls base -> succeeded 0 -> next_dma dma w = base + 12288 -> 0 <= base -> base + 1077248 < 2 ^ 47 ->
  exists q w',
    ena_new (H := TynHal dma heap) fuel (fun c => starts (S c)) (fun c => obs (S c)) bar0_ mac_ (aq_at bar0_ base 1) w =
    match rs 1%nat, rs 2%nat, rs 3%nat, rs 4%nat with
    | inr _, inr b, inr _, inr e =>
        let s := start (new_device base mac_ (field 12 4 b) (field 12 4 e)) w' in Ret (inr (s_drv s), q, s_world s)
    | inl e, _, _, _ | inr _, inl e, _, _ | inr _, inr _, inl e, _ | inr _, inr _, inr _, inl e => Ret (inl e, q, w')
    end /\ (succeeded 1 -> succeeded 2 -> succeeded 3 -> succeeded 4 -> w_mem w' = ms 4%nat).
Proof.
  intros Hp [a Ea] Hn Hb1 Hb2. unfold ena_new.
  alloc_step w1 Hn1 Hr1. alloc_step w2 Hn2 Hr2. alloc_step w3 Hn3 Hr3. alloc_step w4 Hn4 Hr4. alloc_step w5 Hn5 Hr5. alloc_step w6 Hn6 Hr6.
  rewrite Hn5, Hn4, Hn3, Hn2, Hn1, Hn. unfold create_io_cq, create_io_sq, succeeded.
  command_step 1%nat R1. command_step 2%nat R2. command_step 3%nat R3. command_step 4%nat R4.
  match goal with |- context [post_all _ _ ?w0] => eexists _, w0 end. split; [|done]. unfold start, new_device, buffer_ids.
  replace (base + 12288 + 4096) with (base + 16384) by lia. replace (base + 16384 + 4096) with (base + 20480) by lia. replace (base + 20480 + 4096) with (base + 24576) by lia.
  replace (base + 24576 + 4096) with (base + 28672) by lia. replace (base + 28672 + 524288) with (base + 552960) by lia.
  destruct (post_all _ _ _) as [d w']. reflexivity.
Qed.

Lemma init_run dev_sts w :
  let base := next_dma dma w in
  polls base -> 0 <= base -> base + 1077248 < 2 ^ 47 -> Z.land dev_sts 1 = 1 ->
  exists w', match all_answers with
    | Some [a; _; b; _; e] =>
        let s := start (new_device base (take 6 (drop 32 a)) (field 12 4 b) (field 12 4 e)) w' in
        ena_init (H := TynHal dma heap) fuel starts obs bar0_ dev_sts w = Ret (Some (s_drv s), s_world s) /\ w_mem w' = ms 4%nat
    | _ => ena_init (H := TynHal dma heap) fuel starts obs bar0_ dev_sts w = Ret (None, w')
    end.
Proof.
  intros base Hp Hb1 Hb2 Hs. subst base. unfold ena_init, aq_init. rewrite Hs. change (1 =? 0) with false. cbv iota.
  alloc_step w1 Hn1 Hr1. alloc_step w2 Hn2 Hr2. alloc_step w3 Hn3 Hr3. set (base := next_dma dma w) in *. rewrite Hn1. cbv zeta.
  match goal with |- context [get_device_attributes _ _ _ ?q ?w0] => set (wa := w0); change q with (aq_at bar0_ base 0) end.
  assert (Ena : next_dma dma wa = base + 12288) by (change (next_dma dma wa) with (next_dma dma w3); lia).
  unfold get_device_attributes. match goal with |- context [command ?cmd ?k _ _ _ _ _] => destruct (polls_command cmd k base 0 wa Hp ltac:(lia)) as (q & E & Hq); [lia|] end.
  change (Z.of_nat 0) with 0 in E. rewrite E. cbn [obind]. unfold all_answers. cbn [fmap list_fmap seq mapM].
  destruct (rs 0%nat) as [e0|a] eqn:R0; cbn [map_ok ok_bytes mbind option_bind]; [by eexists|]. rewrite Hq by (by eexists). cbn [at_mac]. change (Z.of_nat 1) with 1.
  match goal with |- context [ena_new _ _ _ _ ?mac_ _ ?w0] => destruct (ena_new_run base mac_ w0 Hp) as (q' & w' & -> & Hm); [by eexists|exact Ena|done|done|] end.
  unfold succeeded in Hm. destruct (rs 1%nat), (rs 2%nat), (rs 3%nat), (rs 4%nat); cbn [mapM mbind mret option_bind option_ret ok_bytes obind]; try (eexists; reflexivity).
  exists w'. split; [reflexivity|]. apply Hm; by eexists.
Qed.
End bring_up.

(** C35: the card comes up exactly when it answers.  With the kernel's DMA allocator,
    whatever each of the five commands sees (an answer after some polls, an answer with
    an error, the time-out of a second): [ena::init] ends; after an error at any of them
    it gives up; else the device has the card's MAC address and doorbells as answered,
    its rings and buffers are disjoint, and the receive ring offers the card its 255
    buffers: the state from which the data path is a pair of queues. *)
Theorem ena_comes_up dma heap fuel starts obs bar0_ rs ms dev_sts w :
  let base := next_dma dma w in
  polls fuel starts obs rs ms base -> 0 <= base -> base + 1077248 < 2 ^ 47 -> Z.land dev_sts 1 = 1 ->
  (forall a, base + 12288 <= a < base + 16384 \/ base + 20480 <= a < base + 22528 -> ms 4%nat a = 0) ->
  match all_answers rs with
  | Some [a; _; b; _; e] =>
      exists d w', ena_init (H := TynHal dma heap) fuel starts obs bar0_ dev_sts w = Ret (Some d, w') /\
        e_mac d = take 6 (drop 32 a) /\ rx_db d = field 12 4 b /\ tx_db d = field 12 4 e /\
        last (w_regs w') = Some (u64 (bar0_ + rx_db d), 255) /\ implements (mkSys d w' 0 0 [] [] [] []) empty_queues
  | _ => exists w', ena_init (H := TynHal dma heap) fuel starts obs bar0_ dev_sts w = Ret (None, w')
  end.
Proof.
  intros base Hp Hb1 Hb2 Hs Hz. destruct (init_run dma heap fuel starts obs bar0_ rs ms dev_sts w Hp Hb1 Hb2 Hs) as (w' & H). fold base in H.
  destruct (all_answers rs) as [[|a [|? [|b [|? [|e [|]]]]]]|]; try by eexists.
  destruct H as [E Em]. set (d0 := new_device bar0_ base (take 6 (drop 32 a)) (field 12 4 b) (field 12 4 e)) in *.
  assert (Hf : fresh d0 (w_mem w')) by (rewrite Em; constructor; [constructor; cbn; lia|done|intros p Hp'; apply Hz; cbn in Hp'; lia]).
  pose proof (start_implements d0 w' Hf) as Hi. eexists _, _. split; [exact E|]. revert Hi. unfold start.
  pose proof buffer_ids_ok as (_ & Hrg & Hlen). destruct (post_all_run buffer_ids d0 w' 0 (fr_laid _ _ Hf) ltac:(lia) ltac:(lia) Hrg eq_refl eq_refl) as (m' & -> & _ & _). rewrite Hlen.
  intros Hi. split_and!; [done..| |exact Hi]. cbn [s_world ring_rx_doorbell write32 w_regs]. by rewrite last_snoc.
Qed.

Module Example_card.
Definition base : Z := 2097152.
Definition reply : bytes := [0; 0; 0; 1; 0; 0; 0; 0; 7; 0; 0; 0; 0; 16] ++ replicate 18 0 ++ [2; 0; 0; 0; 0; 9] ++ replicate 26 0.
Definition replies : mem := mem_write (fun _ => 0) (base + 4096) (reply ++ reply ++ reply ++ reply ++ reply).
End Example_card.

Lemma ena_comes_up_witness :
  exists d w', ena_init (H := TynHal Example_card.base (fun _ _ => 0)) 1 (fun _ => 0) (fun _ _ => (Example_card.replies, 0)) 0 1 (mkW (fun _ => 0) [] []) = Ret (Some d, w') /\
    e_mac d = [2; 0; 0; 0; 0; 9] /\ rx_db d = 4096 /\ tx_db d = 4096 /\ last (w_regs w') = Some (u64 (0 + rx_db d), 255) /\
    implements (mkSys d w' 0 0 [] [] [] []) empty_queues.
Proof.
  assert (E : all_answers (fun _ => inr Example_card.reply) = Some (replicate 5 Example_card.reply)) by (vm_compute; reflexivity).
  pose proof (ena_comes_up Example_card.base (fun _ _ => 0) 1 (fun _ => 0) (fun _ _ => (Example_card.replies, 0)) 0 (fun _ => inr Example_card.reply) (fun _ => Example_card.replies) 1 (mkW (fun _ => 0) [] [])) as H.
  rewrite E in H. apply H; clear.
  - intros c Hc _. exists 0%nat. split; [lia|]. split; [intros i Hi; lia|].
    apply (seen_answer _ _ _ _ 0 Example_card.replies 0 Example_card.reply); [done|..]; do 5 (destruct c as [|c]; [vm_compute; reflexivity|]); lia.
  - vm_compute. discriminate.
  - vm_compute. reflexivity.
  - reflexivity.
  - intros a Ha. unfold Example_card.replies. rewrite mem_write_outside; [done|]. change (next_dma Example_card.base _) with 2097152 in Ha. right.
    change Example_card.base with 2097152. change (zlen _) with 320. lia.
Defined.

(** ** The commands as the card reads them *)

(** The layout of the admin commands, from the comments of [admin.rs]. *)
Inductive card_command :=
| GetFeature (feature : Z)
| CreateCq (depth entry_words base : Z)
| CreateSq (direction placement contiguous cq_idx depth base : Z).
Definition decode (e : bytes) : option card_command :=
  let base := field 12 4 e + 2 ^ 32 * field 16 2 e in
  match field 2 1 e with
  | 8 => Some (GetFeature (field 17 1 e))
  | 3 => Some (CreateCq (field 6 2 e) (Z.land (field 5 1 e) 31) base)
  | 1 => Some (CreateSq (Z.shiftr (field 4 1 e) 5) (Z.land (field 6 1 e) 15) (Z.land (field 7 1 e) 1) (field 8 2 e) (field 10 2 e) base)
  | _ => None
  end.

Definition all_commands (d p s dir idx : Z) : list (bytes * card_command) :=
  [(get_feature_cmd, GetFeature 1); (create_cq_cmd d p s, CreateCq d (s / 4) p); (create_sq_cmd dir d p idx, CreateSq dir 1 1 idx d p)].

Lemma le_val_1 x : le_val [x] = x.
Proof. cbn. lia. Qed.
Lemma le_val_word d : 0 <= d < 2 ^ 16 -> le_val [d mod 256; d / 256 mod 256] = d.
Proof. intros Hd. exact (le_val_bytes 2 d Hd). Qed.
Lemma le_val_dword d : 0 <= d < 2 ^ 32 -> le_val [d mod 256; d / 256 mod 256; d / 256 / 256 mod 256; d / 256 / 256 / 256 mod 256] = d.
Proof. intros Hd. exact (le_val_bytes 4 d Hd). Qed.

Lemma phys_split p : 0 <= p < 2 ^ 48 -> u32 p + 2 ^ 32 * u16 (Z.shiftr p 32) = p.
Proof.
  intros Hp. rewrite Z.shiftr_div_pow2 by lia. rewrite u16_small by (split; [apply Z.div_pos|apply Z.div_lt_upper_bound]; lia).
  unfold u32. pose proof (Z.div_mod p (2 ^ 32)). lia.
Qed.

Ltac fixed_list := cbv [stamp get_feature_cmd create_cq_cmd create_sq_cmd put_bytes blank replicate take drop app length le_bytes Nat.add insert list_insert default lookup list_lookup from_option id field decode].

Lemma command_id i : 0 <= i < 2 ^ 12 -> le_val [Z.land i 255; Z.land (Z.shiftr i 8) 15] = i.
Proof.
  intros Hi. change 255 with (Z.ones 8). change 15 with (Z.ones 4). rewrite !Z.land_ones, Z.shiftr_div_pow2 by lia. cbn [le_val].
  Z.div_mod_to_equations. lia.
Qed.
Lemma phase_byte b : b = 0 \/ b = 1 -> le_val [Z.lor 0 (Z.land b 1)] = b.
Proof. by intros [-> | ->]. Qed.
Lemma low_bits n v : 0 <= n -> 0 <= v < 2 ^ n -> Z.land v (Z.ones n) = v.
Proof. intros Hn Hv. rewrite Z.land_ones by done. by apply Z.mod_small. Qed.

(** What the driver writes is what the card reads.  Every admin command, once
    stamped, is a whole entry that decodes (by the layout the driver's comments cite) to
    the command meant: opcode, queue depth, entry size, direction, completion queue and
    the 48-bit address; with the command id and the phase of the queue. *)
Theorem commands_decode q d p s dir idx :
  0 <= d < 2 ^ 16 -> 0 <= p < 2 ^ 48 -> 0 <= s < 128 -> 0 <= dir < 8 -> 0 <= idx < 2 ^ 16 ->
  0 <= curr_cmd_id q < 2 ^ 12 -> (sq_phase q = 0 \/ sq_phase q = 1) ->
  Forall (fun '(cmd, c) => length (stamp q cmd) = 64%nat /\ decode (stamp q cmd) = Some c /\
    field 0 2 (stamp q cmd) = curr_cmd_id q /\ field 3 1 (stamp q cmd) = sq_phase q) (all_commands d p s dir idx).
Proof.
  intros Hd Hp Hs Hdir Hidx Hid Hph. unfold all_commands. pose proof (phys_split p Hp) as Ep.
  assert (Hlo : 0 <= u32 p < 2 ^ 32) by (apply Z.mod_pos_bound; lia). assert (Hhi : 0 <= u16 (Z.shiftr p 32) < 2 ^ 16) by (apply Z.mod_pos_bound; lia).
  assert (H4 : 0 <= s / 4 < 2 ^ 5) by (split; [apply Z.div_pos|apply Z.div_lt_upper_bound]; lia).
  repeat (apply Forall_cons; split); [| | |apply Forall_nil_2]; fixed_list; split; try done; rewrite command_id, phase_byte by done; split; try done; rewrite !le_val_1.
  - rewrite !le_val_word, !le_val_dword by done. change 31 with (Z.ones 5). by rewrite (low_bits 5 (s / 4)), (low_bits 5 (s / 4)), Ep by lia.
  - rewrite !le_val_word, !le_val_dword by done. rewrite Ep. rewrite Z.shiftl_mul_pow2, Z.shiftr_div_pow2 by lia. unfold u8. rewrite Z.mod_small by lia. by rewrite Z.div_mul by lia.
Qed.

Lemma commands_decode_witness :
  Forall (fun '(cmd, c) => length (stamp (aq_at 0 4096 3) cmd) = 64%nat /\ decode (stamp (aq_at 0 4096 3) cmd) = Some c /\
    field 0 2 (stamp (aq_at 0 4096 3) cmd) = 3 /\ field 3 1 (stamp (aq_at 0 4096 3) cmd) = 1) (all_commands 256 1099511627776 16 2 7).
Proof. apply (commands_decode (aq_at 0 4096 3)); cbn; lia. Defined.
