(* ===== verification/Channel.v ===== *)
(** * What the queues promise to the device drivers

    The drivers of [src/virtio-drivers-patched/src/device/] use a virtqueue in two ways.
    A request and its answer: [add_notify_wait_pop] hands the device buffers to read and
    buffers to write, and waits ([Channel]).  A stock of receive buffers: [OwningQueue]
    keeps them all with the device, and hands out what arrives ([Inbox]).  The classes
    state these two contracts on the level of bytes; [ChannelVirtq.v] shows that the
    virtqueues of [Virtq.v] keep them. *)

From S2P Require Import Prelude Virtq.

(** The operator [?] on a call with a state: an error ends the caller with it. *)
Definition try {S A B} (m : outcome (Result A * S)) (k : A -> S -> outcome (Result B * S)) : outcome (Result B * S) :=
  do! (r, s) <- m;
  match r with Err e => Ret (Err e, s) | Ok a => k a s end.
Notation "'do?' ( x , s ) <- m ; k" := (try m (fun x s => k)) (at level 60, x pattern, s name, m at level 200, k at level 200, right associativity).

(** ** Requests *)

(** [rpc ins outs]: the bytes the device reads, and the buffers it writes with their
    contents before; the result is the used length and their contents after. *)
Class Channel := {
  chan : Type;
  rpc : list bytes -> list bytes -> chan -> outcome (Result (Z * list bytes) * chan)
}.

(** The device behind it: what it writes to each buffer, from the buffers it reads and
    the lengths of those it may write. *)
Class Device := {
  device : Type;
  serve : list bytes -> list Z -> device -> Z * list bytes * device
}.

(** The device wrote the start of a buffer. *)
Definition overlay (before written : bytes) : bytes := written ++ drop (length written) before.

Definition request_ok (SIZE : Z) (ins outs : list bytes) : Prop :=
  0 < zlen ins + zlen outs <= SIZE /\ Forall (fun b => 0 < zlen b < 2 ^ 32) (ins ++ outs).

(** [behind c]: the device as it is. *)
Class ChannelOk `{Channel} `{Device} (SIZE : Z) := {
  chan_ok : chan -> Prop;
  behind : chan -> device;
  rpc_ok : forall ins outs c, chan_ok c -> request_ok SIZE ins outs ->
    let '(n, written, d') := serve ins (zlen <$> outs) (behind c) in
    exists c', rpc ins outs c = Ret (Ok (n, zip_with overlay outs written), c') /\ chan_ok c' /\ behind c' = d'
}.

(** ** Receive buffers *)

(** [inbox_pop] takes out what arrived, with the token under which [inbox_return] gives
    the buffer back. *)
Class Inbox := {
  inbox : Type;
  inbox_pop : inbox -> outcome (Result (option (bytes * Z)) * inbox);
  inbox_return : Z -> inbox -> outcome (Result unit * inbox)
}.

(** The device delivers a packet, when it has a buffer for it. *)
Class Arrivals `{Inbox} := { inbox_arrive : bytes -> inbox -> option inbox }.

(** [holds i ps]: the packets [ps] wait; [lent i t ps]: besides, the buffer of token [t]
    is out. *)
Class InboxOk `{Arrivals} := {
  holds : inbox -> list bytes -> Prop;
  lent : inbox -> Z -> list bytes -> Prop;
  pop_empty : forall i, holds i [] -> inbox_pop i = Ret (Ok None, i);
  pop_first : forall i p ps, holds i (p :: ps) -> exists t i', inbox_pop i = Ret (Ok (Some (p, t)), i') /\ lent i' t ps;
  return_ok : forall i t ps, lent i t ps -> exists i', inbox_return t i = Ret (Ok tt, i') /\ holds i' ps;
  arrive_ok : forall i ps p, holds i ps -> match inbox_arrive p i with Some i' => holds i' (ps ++ [p]) | None => True end
}.

(** [OwningQueue::poll] with a handler that has a state of its own. *)
Definition inbox_poll `{Inbox} {S T} (handler : bytes -> S -> outcome (Result (option T) * S)) (s : S) (i : inbox) :
    outcome (Result (option T) * S * inbox) :=
  do! (r, i) <- inbox_pop i;
  match r with
  | Err e => Ret (Err e, s, i)
  | Ok None => Ret (Ok None, s, i)
  | Ok (Some (buffer, token)) =>
      do! (result, s) <- handler buffer s;
      do! (r, i) <- inbox_return token i;
      match r with
      | Err e => Ret (Err e, s, i)
      | Ok _ => Ret (result, s, i)
      end
  end.

Lemma inbox_poll_empty `{InboxOk} {S T} (handler : bytes -> S -> outcome (Result (option T) * S)) s i :
  holds i [] -> inbox_poll handler s i = Ret (Ok None, s, i).
Proof. intros Hi. unfold inbox_poll. by rewrite pop_empty. Qed.

Lemma inbox_poll_first `{InboxOk} {S T} (handler : bytes -> S -> outcome (Result (option T) * S)) s s' r i p ps :
  holds i (p :: ps) -> handler p s = Ret (r, s') -> exists i', inbox_poll handler s i = Ret (r, s', i') /\ holds i' ps.
Proof.
  intros Hi Hh. destruct (pop_first i p ps Hi) as (t & i1 & E1 & Hl). destruct (return_ok i1 t ps Hl) as (i2 & E2 & H2).
  exists i2. unfold inbox_poll. rewrite E1. cbn [obind]. rewrite Hh. cbn [obind]. by rewrite E2.
Qed.
