(* ===== verification/ChannelVirtq.v ===== *)
(** * The virtqueue keeps the contract of a channel

    [add_notify_wait_pop] of [Virtq.v], with the memory the buffers are in and a device
    that reads and writes them through the descriptors in shared memory, is a [Channel]
    that keeps its promise: the device gets exactly the bytes, the caller exactly the
    answer, and the queue is empty again. *)

From S2P Require Import Prelude Virtq VirtqInv VirtqRun VirtqThms Channel.

(** ** Buffers in memory *)

Fixpoint mem_puts (m : mem) (ps : list Z) (bs : list bytes) : mem :=
  match ps, bs with p :: ps', b :: bs' => mem_puts (mem_write m p b) ps' bs' | _, _ => m end.

(** Areas [p, p + n) that do not overlap. *)
Fixpoint apart (ps ns : list Z) : Prop :=
  match ps, ns with
  | p :: ps', n :: ns' => Forall2 (fun q k => p + n <= q \/ q + k <= p) ps' ns' /\ apart ps' ns'
  | [], [] => True
  | _, _ => False
  end.

Definition fits_in (b : bytes) (n : Z) : Prop := zlen b <= n.

Lemma mem_puts_outside m ps ns bs a :
  Forall2 fits_in bs ns -> Forall2 (fun q k => a < q \/ q + k <= a) ps ns -> mem_puts m ps bs a = m a.
Proof.
  intros Hf. revert m ps. induction Hf as [|b n bs ns Hb _ IH]; intros m ps Hp; inversion Hp as [|q k ps' ns' Hq Hp']; subst; [done|].
  cbn. rewrite IH by done. apply mem_write_outside. unfold fits_in in Hb. lia.
Qed.

Lemma mem_read_overlay m p b n : zlen b <= Z.of_nat n -> mem_read (mem_write m p b) p n = overlay (mem_read m p n) b.
Proof.
  intros Hb. unfold overlay. apply list_eq. intros i. destruct (decide (i < n)%nat) as [Hi|Hi].
  - rewrite mem_read_lookup by done. destruct (decide (i < length b)%nat) as [Hb'|Hb'].
    + rewrite lookup_app_l by done. destruct (b !! i) as [x|] eqn:E; [|by apply lookup_ge_None in E; lia]. f_equal. by apply mem_write_inside.
    + rewrite lookup_app_r, lookup_drop by lia. replace (length b + (i - length b))%nat with i by lia. rewrite mem_read_lookup by done. f_equal.
      apply mem_write_outside. unfold zlen. lia.
  - rewrite !lookup_ge_None_2; [done|..]; unfold zlen in Hb; rewrite ?length_app, ?length_drop, ?mem_read_length; lia.
Qed.

Lemma mem_puts_read m ps ns bs i p n b :
  Forall2 fits_in bs ns -> apart ps ns -> ps !! i = Some p -> ns !! i = Some n -> bs !! i = Some b ->
  mem_read (mem_puts m ps bs) p (Z.to_nat n) = overlay (mem_read m p (Z.to_nat n)) b.
Proof.
  intros Hf. revert m ps i. induction Hf as [|b0 n0 bs ns Hb Hf IH]; intros m [|p0 ps] i Ha Hp Hn Hbi; try done.
  destruct Ha as [Hd Ha]. destruct i as [|i]; cbn in *.
  - injection Hp as ->. injection Hn as ->. injection Hbi as ->. unfold fits_in in Hb. rewrite <- mem_read_overlay by lia. apply mem_read_ext. intros a Hra.
    eapply mem_puts_outside; [exact Hf|]. eapply Forall2_impl; [exact Hd|]. intros q k Hq. cbn in Hq. lia.
  - rewrite (IH _ _ i) by done. f_equal. apply mem_read_ext. intros a Hra. apply mem_write_outside. unfold fits_in in Hb.
    pose proof (Forall2_lookup_lr _ _ _ _ _ _ Hd Hp Hn). cbn in *. lia.
Qed.

Lemma apart_lookup ps ns i j p q n n' :
  apart ps ns -> i <> j -> ps !! i = Some p -> ps !! j = Some q -> ns !! i = Some n -> ns !! j = Some n' -> p + n <= q \/ q + n' <= p.
Proof.
  revert ns i j. induction ps as [|p0 ps IH]; intros [|n0 ns] i j Ha Hne Hp Hq Hn Hn'; try done. destruct Ha as [Hd Ha].
  destruct i as [|i], j as [|j]; [done|..]; cbn in Hp, Hq, Hn, Hn'.
  - injection Hp as ->. injection Hn as ->. exact (Forall2_lookup_lr _ _ _ _ _ _ Hd Hq Hn').
  - injection Hq as ->. injection Hn' as ->. pose proof (Forall2_lookup_lr _ _ _ _ _ _ Hd Hp Hn) as H. cbn in H. lia.
  - eapply (IH ns i j); try done. congruence.
Qed.

(** Buffers on the stack, one after the other. *)
Fixpoint stack (p : Z) (ns : list Z) : list Z := match ns with [] => [] | n :: ns' => p :: stack (p + Z.max n 0) ns' end.
Lemma stack_apart p ns : apart (stack p ns) ns.
Proof.
  revert p. induction ns as [|n ns IH]; intros p; [done|]. split; [|apply IH].
  assert (forall q, p + n <= q -> Forall2 (fun q k => p + n <= q \/ q + k <= p) (stack q ns) ns) as H; [|apply H; lia].
  clear IH. induction ns as [|m ns IH]; intros q Hq; cbn; [constructor|]. constructor; [by left|]. apply IH. lia.
Qed.

(** ** A queue with at most one request *)

Section single.
Context `{HHal : Hal} (k : Z) (Hk : 0 <= k < 16).
Notation SIZE := (2 ^ k).

(** No request is outstanding. *)
Definition quiet (q : VirtQueue) : Prop :=
  (exists free, qinv k q free []) /\ 0 <= last_used_idx q < 2 ^ 16 /\ us_idx (used q) = last_used_idx q /\ avail_idx q = last_used_idx q /\ av_idx (avail q) = avail_idx q.

(** The device adds the request of [token] to the used ring. *)
Definition answered_used (q : VirtQueue) (token n : Z) : UsedRing :=
  let u := used q in mkUsed (us_flags u) (u16 (us_idx u + 1)) (<[Z.to_nat (us_idx u mod SIZE) := (token, n)]> (us_ring u)) (avail_event u).
Definition set_used (q : VirtQueue) (u : UsedRing) : VirtQueue :=
  mkQueue (desc q) (avail q) u (queue_idx q) (num_used q) (free_head q) (desc_shadow q) (avail_idx q) (last_used_idx q) (event_idx q) (indirect q) (indirect_lists q) (hal_log q).

Lemma quiet_new tr idx ind ev log q set : new SIZE tr idx ind ev log = Ret (Ok (q, set)) -> quiet q.
Proof using Hk.
  intros Hn. destruct (new_fresh k Hk _ _ _ _ _ _ _ Hn) as ((Hq & Ha & Hl & Hv) & _ & _ & Hu). split; [by eexists|]. rewrite Ha, Hl, Hu, Hv. split_and!; done || lia.
Qed.

Lemma quiet_add q ins outs :
  quiet q -> Forall (fun b => 0 < buf_len b < 2 ^ 32) (ins ++ outs) -> 0 < zlen ins + zlen outs <= SIZE ->
  exists f q1 free, add SIZE ins outs q = Ret (Ok (f_token f), q1) /\ f_ins f = ins /\ f_outs f = outs /\
    qinv k q1 free [f] /\ add_result k q q1 f /\ visible k [f_token f] q1 [f].
Proof using Hk.
  intros ((free & Hq) & Hl & Hu & Ha & _) Hb Hn. assert (Hnu : num_used q = 0) by apply (qi_num _ _ _ _ Hq).
  destruct (add_ok k Hk q free [] ins outs Hq ltac:(lia)) as (f & free' & q1 & E & F1 & F2 & F3 & F4 & F5 & F6).
  - apply Forall_app in Hb as [Hb1 Hb2]. unfold input_output. apply Forall_app. split; apply Forall_fmap; (eapply Forall_impl; [done|]); intros x Hx; by split.
  - lia.
  - rewrite Hnu. unfold needed. pose proof (size_range k Hk). destruct (indirect _); lia.
  - lia.
  - exists f, q1, free'. split_and!; try done. repeat split.
    + intros f0 c0 ->%list_elem_of_singleton Hc0. rewrite (ar_desc _ _ _ _ F5), decide_True by done. done.
    + intros. assert (f0 = f) as -> by (by apply list_elem_of_singleton). pose proof (ar_answered _ _ _ _ F5) as Hans. rewrite Forall_forall in Hans. by apply Hans.
    + assert (f0 = f) as -> by (by apply list_elem_of_singleton). rewrite (ar_log _ _ _ _ F5). apply elem_of_app. right. apply list_elem_of_fmap_2. unfold f_shared. apply elem_of_app. by left.
    + intros j t Hj Ht. eapply (ring_after_add k Hk q q1 f free [] []); [done|lia|done| |done|done]. intros j' t' _ Hn'. done.
    + apply (ar_idx _ _ _ _ F5).
Qed.

Lemma token_u16 q free fs f : qinv k q free fs -> f ∈ fs -> u16 (f_token f) = f_token f.
Proof using Hk.
  intros Hq Hf. apply u16_small. pose proof (qi_cells _ _ _ _ Hq) as Hc. pose proof (size_range k Hk) as Hsz. pose proof (qi_flights _ _ _ _ Hq) as Hok. rewrite Forall_forall in Hok.
  destruct (flight_cells_cons q f (Hok f Hf)) as (c0 & cs & Ec).
  unfold f_token. rewrite Ec. assert (c0 ∈ seq 0 (Z.to_nat SIZE)) as He%elem_of_seq by (rewrite <- Hc; apply elem_of_app; right; eapply (busy_elem _ f); [done|rewrite Ec; by left]). lia.
Qed.

(** Once the device has answered, the request can be popped. *)
Lemma quiet_pop q q1 free f n :
  quiet q -> qinv k q1 free [f] -> add_result k q q1 f -> let q2 := set_used q1 (answered_used q1 (f_token f) n) in
  can_pop q2 = true /\ peek_used SIZE q2 = Ret (Some (f_token f)) /\
  exists q3, pop_used SIZE (f_token f) (f_ins f) (f_outs f) q2 = Ret (Ok n, q3) /\ quiet q3.
Proof using Hk.
  intros (_ & Hlu & Hu & Ha & _) Hq Har q2. pose proof (ar_same _ _ _ _ Har) as (_ & S2 & S3 & _). pose proof (ar_idx _ _ _ _ Har) as [Si Sv]. pose proof (size_range k Hk) as Hsz.
  assert (Hcp : can_pop q2 = true).
  { unfold can_pop. cbn. rewrite S3, S2, Hu. unfold u16. destruct (Z.eqb_spec (last_used_idx q) ((last_used_idx q + 1) mod 2 ^ 16)) as [E|]; [|done]. exfalso. Z.div_mod_to_equations. lia. }
  assert (Hq2 : qinv k q2 free [f]) by (eapply (qinv_private k q1); try done; cbn; [apply (qi_desc _ _ _ _ Hq)|apply (qi_ring _ _ _ _ Hq)|rewrite length_insert; apply (qi_used _ _ _ _ Hq)]).
  assert (Hslot : us_ring (used q2) !! Z.to_nat (Z.land (last_used_idx q2) (SIZE - 1)) = Some (f_token f, n)).
  { cbn. rewrite S3, S2, Hu, slot_mod by done. apply list_lookup_insert_eq. pose proof (qi_used _ _ _ _ Hq) as Hlen. rewrite S2 in Hlen. rewrite Hlen. pose proof (Z.mod_pos_bound (last_used_idx q) SIZE). lia. }
  pose proof (token_u16 _ _ _ f Hq ltac:(by left)) as Htok. split; [done|]. split.
  { unfold peek_used. rewrite Hcp. unfold get. rewrite Hslot. cbn [obind fst]. by rewrite Htok. }
  pose proof (vq_pop_ok k Hk q2 free [] f [] Hq2 ltac:(cbn; lia) (f_token f) n Hslot) as Hpop. cbv zeta in Hpop. rewrite Hcp, Htok, Z.eqb_refl in Hpop. cbn [negb] in Hpop.
  destruct Hpop as (q3 & Epop & Hpr & Hq3). exists q3. split; [done|]. pose proof (pr_same _ _ _ Hpr) as (_ & P2 & P3 & _). pose proof (pr_last _ _ _ Hpr) as P4. pose proof (pr_ring _ _ _ Hpr) as [_ P5].
  assert (0 <= u16 (last_used_idx q + 1) < 2 ^ 16) by (apply Z.mod_pos_bound; lia).
  split; [by eexists|]. rewrite P2, P3, P4, P5. cbn. rewrite S2, S3, Hu, Sv, Si, Ha. done.
Qed.
End single.

(** ** The channel *)

Section channel.
Context `{HHal : Hal} `{HDev : Device} (k : Z) (Hk : 0 <= k < 16).
Notation SIZE := (2 ^ k).

(** Where the callers' buffers are: any places that do not overlap. *)
Context (place : list Z -> list Z).

Record link := mkLink { lk_q : VirtQueue; lk_mem : mem; lk_dev : device }.

Definition bufs (ps : list Z) (bs : list bytes) : list Buffer := zip_with mkBuf ps (zlen <$> bs).

(** The device takes the newest request of the available ring, reads the buffers it
    may read, and writes the others; then it adds the request to the used ring. *)
Definition device_serves (q : VirtQueue) (m : mem) (d : device) : option (UsedRing * mem * device) :=
  token ← av_ring (avail q) !! Z.to_nat ((av_idx (avail q) - 1) mod SIZE);
  chain ← device_request SIZE q token;
  let rd := filter (fun x => x.2 = false) chain in
  let wr := filter (fun x => x.2 = true) chain in
  let '(n, written, d') := serve ((fun x => mem_read m x.1.1 (Z.to_nat x.1.2)) <$> rd) ((fun x => x.1.2) <$> wr) d in
  Some (answered_used k q token n, mem_puts m ((fun x => x.1.1) <$> wr) written, d').

Definition link_rpc (ins outs : list bytes) (l : link) : outcome (Result (Z * list bytes) * link) :=
  let ptrs := place (zlen <$> ins ++ outs) in
  let ip := take (length ins) ptrs in
  let op := drop (length ins) ptrs in
  let m := mem_puts (lk_mem l) ptrs (ins ++ outs) in
  do! (r, q1) <- add SIZE (bufs ip ins) (bufs op outs) (lk_q l);
  match r with
  | Err e => Ret (Err e, mkLink q1 m (lk_dev l))
  | Ok _ =>
      match device_serves q1 m (lk_dev l) with
      | None => OutOfFuel
      | Some (used', m', d') =>
          do! (r, _, q2) <- add_notify_wait_pop SIZE (bufs ip ins) (bufs op outs) [used'] (lk_q l);
          Ret (match r with Err e => Err e | Ok n => Ok (n, zip_with (fun p b => mem_read m' p (length b)) op outs) end, mkLink q2 m' d')
      end
  end.
#[local] Instance VirtqChannel : Channel := {| chan := link; rpc := link_rpc |}.

Definition link_ok (l : link) : Prop := quiet k (lk_q l).

Hypothesis identity : forall log b d, hal_share log b d = buf_ptr b.
Hypothesis place_apart : forall ns, apart (place ns) ns.
Hypothesis serve_fits : forall ins (outs : list bytes) d, let '(n, written, _) := serve ins (zlen <$> outs) d in Forall2 fits_in written (zlen <$> outs).

Lemma bufs_views (ps : list Z) (bs : list bytes) dir (l : list sbuf) :
  length ps = length bs -> l.*1 = ((fun b => (b, dir)) <$> bufs ps bs) -> Forall answered l ->
  view <$> l = zip_with (fun p b => (p, zlen b, bool_decide (dir = DeviceToDriver))) ps bs.
Proof using identity.
  revert bs l. induction ps as [|p ps IH]; intros [|b bs] [|x l] Hl El Ha; try done. apply Forall_cons in Ha as [[log Hx] Ha].
  destruct x as [[bf d] pa]. cbn in El, Hx. injection El as -> -> El. cbn. rewrite (IH bs l) by (done || by injection Hl). f_equal.
  unfold view. cbn. by rewrite Hx, identity.
Qed.

Lemma apart_length ps ns : apart ps ns -> length ps = length ns.
Proof. revert ns. induction ps as [|p ps IH]; intros [|n ns]; cbn; try done. intros [_ Ha]. by rewrite (IH ns). Qed.

Lemma apart_app ps ps' ns ns' : length ps = length ns -> apart (ps ++ ps') (ns ++ ns') -> apart ps ns /\ apart ps' ns'.
Proof.
  revert ns. induction ps as [|p ps IH]; intros [|n ns] Hl Ha; try done. cbn in *. injection Hl as Hl. destruct Ha as [Hd Ha]. destruct (IH _ Hl Ha) as [H1 H2].
  split; [|done]. split; [|done]. apply Forall2_app_inv in Hd as [Hd _]; done.
Qed.

Lemma overlay_full (a b : bytes) : length a = length b -> overlay a b = b.
Proof. intros E. unfold overlay. rewrite drop_ge by lia. apply app_nil_r. Qed.

(** The buffers as the device finds them. *)
Lemma puts_all m ps bs i p b :
  apart ps (zlen <$> bs) -> ps !! i = Some p -> bs !! i = Some b -> mem_read (mem_puts m ps bs) p (length b) = b.
Proof.
  intros Ha Hp Hb. pose proof (mem_puts_read m ps (zlen <$> bs) bs i p (zlen b) b) as E. assert (Z.to_nat (zlen b) = length b) as En by (unfold zlen; lia). rewrite En in E. rewrite E; [|..|done].
  - apply overlay_full. by rewrite mem_read_length.
  - apply Forall2_fmap_r. apply Forall_Forall2_diag, Forall_true. intros x. unfold fits_in. cbn. lia.
  - done.
  - done.
  - by rewrite list_lookup_fmap, Hb.
Qed.

Lemma link_add l ins outs :
  link_ok l -> request_ok SIZE ins outs -> let ptrs := place (zlen <$> ins ++ outs) in
  let ip := take (length ins) ptrs in let op := drop (length ins) ptrs in
  exists f q1 free, add SIZE (bufs ip ins) (bufs op outs) (lk_q l) = Ret (Ok (f_token f), q1) /\ f_ins f = bufs ip ins /\ f_outs f = bufs op outs /\
    qinv k q1 free [f] /\ add_result k (lk_q l) q1 f /\ visible k [f_token f] q1 [f] /\ length ip = length ins /\ length op = length outs /\
    apart ip (zlen <$> ins) /\ apart op (zlen <$> outs).
Proof using Hk place_apart.
  intros Hl [Hn Hb] ptrs ip op. pose proof (place_apart (zlen <$> ins ++ outs)) as Hap. fold ptrs in Hap.
  pose proof (apart_length _ _ Hap) as Hlen. rewrite length_fmap, length_app in Hlen.
  assert (Hip : length ip = length ins) by (unfold ip; rewrite length_take; lia). assert (Hop : length op = length outs) by (unfold op; rewrite length_drop; lia).
  assert (apart ip (zlen <$> ins) /\ apart op (zlen <$> outs)) as [Hai Hao].
  { apply apart_app; [by rewrite length_fmap|]. unfold ip, op. by rewrite take_drop, <- fmap_app. }
  assert (Hok : forall ps (bs : list bytes), Forall (fun b => 0 < zlen b < 2 ^ 32) bs -> Forall (fun b => 0 < buf_len b < 2 ^ 32) (bufs ps bs)).
  { intros ps bs. revert ps. induction bs as [|b bs IH]; intros [|p ps] Hbs; try done; try apply Forall_nil_2. apply Forall_cons in Hbs as [H1 H2]. apply Forall_cons. split; [done|]. by apply IH. }
  apply Forall_app in Hb as [Hbi Hbo]. destruct (quiet_add k Hk (lk_q l) (bufs ip ins) (bufs op outs) Hl) as (f & q1 & free & E & F1 & F2 & F3 & F4 & F5).
  - apply Forall_app. split; by apply Hok.
  - unfold zlen, bufs in *. rewrite !length_zip_with, !length_fmap. lia.
  - by exists f, q1, free.
Qed.

Lemma filter_views {A} (ps : list Z) (bs : list A) (g : A -> Z) (b b' : bool) :
  filter (fun x : Z * Z * bool => x.2 = b') (zip_with (fun p c => (p, g c, b)) ps bs) = if Bool.eqb b b' then zip_with (fun p c => (p, g c, b)) ps bs else [].
Proof.
  revert bs. induction ps as [|p ps IH]; intros [|c bs]; cbn [zip_with]; try (by destruct (Bool.eqb b b')).
  rewrite filter_cons, IH. cbn. destruct b, b'; done.
Qed.

Lemma fmap_views {A B} (ps : list Z) (bs : list A) (h : Z -> A -> Z * Z * bool) (g : Z * Z * bool -> B) :
  g <$> zip_with h ps bs = zip_with (fun p c => g (h p c)) ps bs.
Proof. revert bs. induction ps as [|p ps IH]; intros [|c bs]; cbn; try done. by rewrite IH. Qed.

Lemma zip_read m (ps : list Z) (bs : list bytes) :
  (forall i p b, ps !! i = Some p -> bs !! i = Some b -> mem_read m p (length b) = b) -> length ps = length bs ->
  zip_with (fun p c => mem_read m p (Z.to_nat (zlen c))) ps bs = bs.
Proof.
  revert bs. induction ps as [|p ps IH]; intros [|b bs] Hr Hl; try done. cbn. f_equal.
  - unfold zlen. rewrite Nat2Z.id. by apply (Hr 0%nat).
  - apply IH; [|by injection Hl]. intros i. apply (Hr (S i)).
Qed.

Lemma zip_fst {A} (ps : list Z) (bs : list A) : length ps = length bs -> zip_with (fun p _ => p) ps bs = ps.
Proof. revert bs. induction ps as [|p ps IH]; intros [|b bs] Hl; try done. cbn. by rewrite IH by (by injection Hl). Qed.
Lemma zip_snd {A} (ps : list Z) (bs : list A) (g : A -> Z) : length ps = length bs -> zip_with (fun _ c => g c) ps bs = g <$> bs.
Proof. revert bs. induction ps as [|p ps IH]; intros [|b bs] Hl; try done. cbn. by rewrite IH by (by injection Hl). Qed.

(** The device finds the bytes of the request, and its answer is a new used element. *)
Lemma serves_run l ins outs f q1 free :
  let ptrs := place (zlen <$> ins ++ outs) in let ip := take (length ins) ptrs in let op := drop (length ins) ptrs in
  let m := mem_puts (lk_mem l) ptrs (ins ++ outs) in
  qinv k q1 free [f] -> add_result k (lk_q l) q1 f -> visible k [f_token f] q1 [f] -> f_ins f = bufs ip ins -> f_outs f = bufs op outs ->
  length ip = length ins -> length op = length outs ->
  device_serves q1 m (lk_dev l) =
    let '(n, written, d') := serve ins (zlen <$> outs) (lk_dev l) in
    Some (answered_used k q1 (f_token f) n, mem_puts m op written, d').
Proof using Hk identity place_apart.
  intros ptrs ip op m Hq Hr Hv Hi Ho Hip Hop. unfold device_serves. pose proof Hv as (_ & _ & V3 & V4). pose proof (size_range k Hk).
  rewrite V4. specialize (V3 0%nat (f_token f) ltac:(lia) eq_refl). rewrite Z.sub_0_r in V3. rewrite V3. cbn [mbind option_bind].
  rewrite (request_read k Hk q1 free [f] f [f_token f]) by (done || by left). cbn [mbind option_bind].
  pose proof (qi_flights _ _ _ _ Hq) as Hf. apply Forall_cons in Hf as [(Fio & _) _]. pose proof (ar_answered _ _ _ _ Hr) as Hans.
  rewrite Hi, Ho in Fio. unfold input_output in Fio. apply fmap_app_inv in Fio as (l1 & l2 & E1 & E2 & Ebs). rewrite Ebs in Hans |- *. apply Forall_app in Hans as [A1 A2].
  rewrite fmap_app, (bufs_views ip ins DriverToDevice l1), (bufs_views op outs DeviceToDriver l2) by done.
  change (bool_decide (DriverToDevice = DeviceToDriver)) with false. change (bool_decide (DeviceToDriver = DeviceToDriver)) with true.
  rewrite !filter_app, !filter_views. cbn [Bool.eqb]. rewrite app_nil_r. cbn [app]. rewrite !fmap_views. cbn [fst snd].
  rewrite zip_snd, zip_fst by done. rewrite zip_read; [done| |done].
  intros i p b Hp Hb. unfold m. apply (puts_all _ _ _ i); [apply place_apart| |by apply lookup_app_l_Some].
  unfold ip in Hp. by apply lookup_take_Some in Hp as [? _].
Qed.

(** The caller reads the answer. *)
Lemma outs_after m0 ins outs written :
  let ptrs := place (zlen <$> ins ++ outs) in let op := drop (length ins) ptrs in
  length op = length outs -> apart op (zlen <$> outs) -> Forall2 fits_in written (zlen <$> outs) ->
  zip_with (fun p b => mem_read (mem_puts (mem_puts m0 ptrs (ins ++ outs)) op written) p (length b)) op outs = zip_with overlay outs written.
Proof using place_apart.
  intros ptrs op Hop Hao Hf. assert (Hwl : length written = length outs) by (apply Forall2_length in Hf; by rewrite length_fmap in Hf).
  apply list_eq. intros i. rewrite !lookup_zip_with. destruct (op !! i) as [p|] eqn:Ep.
  - destruct (outs !! i) as [b|] eqn:Eb; [|by apply lookup_lt_Some in Ep; apply lookup_ge_None in Eb; lia].
    destruct (written !! i) as [w|] eqn:Ew; [|by apply lookup_lt_Some in Ep; apply lookup_ge_None in Ew; lia]. cbn. f_equal.
    pose proof (mem_puts_read (mem_puts m0 ptrs (ins ++ outs)) op (zlen <$> outs) written i p (zlen b) w Hf Hao Ep) as Er.
    assert (Z.to_nat (zlen b) = length b) as Ez by (unfold zlen; lia). rewrite Ez in Er. rewrite Er; [|by rewrite list_lookup_fmap, Eb|done]. f_equal.
    apply (puts_all _ _ _ (length ins + i)%nat); [apply place_apart|unfold op in Ep; by rewrite lookup_drop in Ep|]. rewrite lookup_app_r by lia. by replace (length ins + i - length ins)%nat with i by lia.
  - apply lookup_ge_None in Ep. rewrite (lookup_ge_None_2 outs) by lia. done.
Qed.

Lemma link_rpc_ok ins outs l :
  link_ok l -> request_ok SIZE ins outs ->
  let '(n, written, d') := serve ins (zlen <$> outs) (lk_dev l) in
  exists l', link_rpc ins outs l = Ret (Ok (n, zip_with overlay outs written), l') /\ link_ok l' /\ lk_dev l' = d'.
Proof using Hk identity place_apart serve_fits.
  intros Hl Hr. destruct (link_add l ins outs Hl Hr) as (f & q1 & free & Ea & F1 & F2 & Hq & Har & Hv & Hip & Hop & Hai & Hao).
  pose proof (serves_run l ins outs f q1 free Hq Har Hv F1 F2 Hip Hop) as Es. pose proof (serve_fits ins outs (lk_dev l)) as Hfit. destruct (serve ins (zlen <$> outs) (lk_dev l)) as [[n written] d'].
  unfold link_rpc. rewrite Ea. cbn [obind]. cbv zeta in Es. rewrite Es. unfold add_notify_wait_pop. rewrite Ea. cbn [obind wait_pop].
  destruct (quiet_pop k Hk _ q1 free f n Hl Hq Har) as (Hcp & _ & q3 & Epop & Hq3). fold (set_used q1 (answered_used k q1 (f_token f) n)). rewrite Hcp. cbn [obind].
  rewrite F1, F2 in Epop. rewrite Epop. cbn [obind]. rewrite (outs_after (lk_mem l) ins outs written) by done. eexists. by split_and!.
Qed.

Lemma new_link_ok tr idx ind ev log q set m d : new SIZE tr idx ind ev log = Ret (Ok (q, set)) -> link_ok (mkLink q m d).
Proof using Hk. apply (quiet_new k Hk). Qed.

#[local] Instance VirtqChannelOk : ChannelOk SIZE := {| chan_ok := link_ok; behind := lk_dev; rpc_ok := link_rpc_ok |}.
End channel.
