(* ===== verification/InboxVirtq.v ===== *)
(** * The owning queue keeps the contract of an inbox

    [OwningQueue] of [Virtq.v] with the memory of its buffers, and a device that fills
    the buffers in the order in which they were offered, is an [Inbox] that keeps its
    promise: what arrives is popped in order and as it came, and every buffer goes back
    to the device. *)

From S2P Require Import Prelude Virtq VirtqInv VirtqRun VirtqThms VirtqOwn Channel ChannelVirtq.

Section inbox.
Context `{HHal : Hal} (k : Z) (Hk : 0 <= k < 16) (BUFFER_SIZE : Z) (Hbs : 0 < BUFFER_SIZE < 2 ^ 32).
Notation SIZE := (2 ^ k).
Notation N := (Z.to_nat (2 ^ k)).

Record mailbox := mkBox { bx_o : OwningQueue; bx_mem : mem }.
Definition bx_q (x : mailbox) : VirtQueue := queue (bx_o x).

Definition box_pop (x : mailbox) : outcome (Result (option (bytes * Z)) * mailbox) :=
  do! (r, o) <- pop SIZE BUFFER_SIZE (bx_o x);
  Ret (match r with
       | Err e => Err e
       | Ok None => Ok None
       | Ok (Some (b, token)) => Ok (Some (mem_read (bx_mem x) (buf_ptr b) (Z.to_nat (buf_len b)), token))
       end, mkBox o (bx_mem x)).
Definition box_return (token : Z) (x : mailbox) : outcome (Result unit * mailbox) :=
  do! (r, o) <- add_buffer_to_queue SIZE BUFFER_SIZE token (bx_o x);
  Ret (match r with Err e => Err e | Ok _ => Ok tt end, mkBox o (bx_mem x)).
#[local] Instance VirtqInbox : Inbox := {| inbox := mailbox; inbox_pop := box_pop; inbox_return := box_return |}.

(** The device: the next buffer of the available ring, if there is one and the packet
    fits it. *)
Definition box_arrive (p : bytes) (x : mailbox) : option mailbox :=
  let q := bx_q x in
  let u := us_idx (used q) in
  if (u =? av_idx (avail q)) || (BUFFER_SIZE <? zlen p) then None
  else
    token ← av_ring (avail q) !! Z.to_nat (u mod SIZE);
    chain ← device_request SIZE q token;
    match chain with
    | [(addr, len, true)] =>
        let used' := mkUsed (us_flags (used q)) (u16 (u + 1)) (<[Z.to_nat (u mod SIZE) := (token, zlen p)]> (us_ring (used q))) (avail_event (used q)) in
        Some (mkBox (with_used (bx_o x) used') (mem_write (bx_mem x) addr p))
    | _ => None
    end.
#[local] Instance VirtqArrivals : Arrivals := {| inbox_arrive := box_arrive |}.

Hypothesis identity : forall log b d, hal_share log b d = buf_ptr b.

(** ** The stock of buffers *)

(** [pend]: filled and not popped, with what is in them; [av]: with the device; [out]:
    popped.  [u] counts what the device has filled. *)
Record stock (x : mailbox) (out : list nat) (pend : list (nat * bytes)) (av : list nat) (u : Z) : Prop := {
  st_q : exists fs, qinv k (bx_q x) out fs /\ Forall (owns BUFFER_SIZE (buffers (bx_o x))) fs /\
    (forall f c, f ∈ fs -> c ∈ f_cells f -> desc (bx_q x) !! c = desc_shadow (bx_q x) !! c) /\ Forall (fun f => Forall answered (f_bs f)) fs;
  st_idx : us_idx (used (bx_q x)) = u16 u /\ last_used_idx (bx_q x) = u16 (u - zlen pend) /\
    avail_idx (bx_q x) = u16 (u + zlen av) /\ av_idx (avail (bx_q x)) = avail_idx (bx_q x);
  st_cells : (pend.*1 ++ av) ++ out ≡ₚ seq 0 N;
  st_used : forall j c p, pend !! j = Some (c, p) -> us_ring (used (bx_q x)) !! Z.to_nat ((u - zlen pend + Z.of_nat j) mod SIZE) = Some (Z.of_nat c, zlen p);
  st_avail : forall j c, av !! j = Some c -> av_ring (avail (bx_q x)) !! Z.to_nat ((u + Z.of_nat j) mod SIZE) = Some (Z.of_nat c);
  st_mem : forall c p, (c, p) ∈ pend -> zlen p <= BUFFER_SIZE /\ exists b, buffers (bx_o x) !! c = Some b /\ mem_read (bx_mem x) b (length p) = p;
  st_bufs : length (buffers (bx_o x)) = N /\ apart (buffers (bx_o x)) (replicate N BUFFER_SIZE)
}.

Definition box_holds (x : mailbox) (ps : list bytes) : Prop := exists pend av u, stock x [] pend av u /\ pend.*2 = ps.
Definition box_lent (x : mailbox) (t : Z) (ps : list bytes) : Prop := exists c pend av u, t = Z.of_nat c /\ stock x [c] pend av u /\ pend.*2 = ps.

(** The chain of a buffer that is not out. *)
Lemma owner (q : VirtQueue) out fs (bs : list Z) c :
  qinv k q out fs -> Forall (owns BUFFER_SIZE bs) fs -> (c < N)%nat -> c ∉ out ->
  exists l1 f l2 b, fs = l1 ++ f :: l2 /\ f_cells f = [c] /\ bs !! c = Some b /\ f_ins f = [] /\ f_outs f = [mkBuf b BUFFER_SIZE].
Proof using Hk.
  intros Hq Ho Hc Hn. rewrite Forall_forall in Ho. assert (c ∈ busy_cells fs) as Hin.
  { assert (c ∈ out ++ busy_cells fs) as He by (rewrite (qi_cells _ _ _ _ Hq); apply elem_of_seq; lia). apply elem_of_app in He as [He|He]; done. }
  unfold busy_cells in Hin. apply list_elem_of_In, in_concat in Hin as (cs & Hcs & Hin).
  apply list_elem_of_In, list_elem_of_fmap in Hcs as (f & -> & Hf). destruct (Ho f Hf) as (c' & b & Hc' & Hb & Hi & Hout). rewrite Hc' in Hin. destruct Hin as [->|[]].
  apply list_elem_of_split in Hf as (l1 & l2 & ->). by exists l1, f, l2, b.
Qed.

Lemma stock_count x out pend av u : stock x out pend av u -> zlen pend + zlen av + zlen out = SIZE.
Proof using Hk.
  intros Hs. pose proof (Permutation_length (st_cells _ _ _ _ _ Hs)) as Hl. rewrite !length_app, length_fmap, length_seq in Hl. pose proof (size_range k Hk). unfold zlen. lia.
Qed.

Lemma stock_cell x out pend av u c : stock x out pend av u -> c ∈ pend.*1 ++ av -> (c < N)%nat /\ c ∉ out.
Proof.
  intros Hs Hc. split.
  - assert (c ∈ seq 0 N) as He%elem_of_seq by (rewrite <- (st_cells _ _ _ _ _ Hs); apply elem_of_app; by left). lia.
  - assert (Hnd : NoDup ((pend.*1 ++ av) ++ out)) by (rewrite (st_cells _ _ _ _ _ Hs); apply NoDup_seq). apply NoDup_app in Hnd as (_ & Hd & _). by apply Hd.
Qed.

Lemma box_pop_empty x : box_holds x [] -> box_pop x = Ret (Ok None, x).
Proof.
  intros (pend & av & u & Hs & Hp). destruct pend; [|done]. unfold box_pop, pop, peek_used. pose proof (st_idx _ _ _ _ _ Hs) as (E1 & E2 & _). unfold can_pop, bx_q in *. rewrite E1, E2, zlen_nil, Z.sub_0_r, Z.eqb_refl. cbn. by destruct x.
Qed.

Lemma slot_u16 z : Z.land (u16 z) (SIZE - 1) = z mod SIZE.
Proof using Hk. rewrite slot_mod by done. by apply mod_u16. Qed.

Lemma u16_apart z n : 0 < n < 2 ^ 16 -> u16 (z - n) <> u16 z.
Proof. intros Hn E. unfold u16 in E. Z.div_mod_to_equations. lia. Qed.

(** Slots of different counts, not a whole ring apart. *)
Lemma slots_differ z i j : 0 <= i < SIZE -> 0 <= j < SIZE -> i <> j -> Z.to_nat ((z + i) mod SIZE) <> Z.to_nat ((z + j) mod SIZE).
Proof using Hk.
  intros Hi Hj Hne E. pose proof (size_range k Hk). pose proof (Z.mod_pos_bound (z + i) SIZE). pose proof (Z.mod_pos_bound (z + j) SIZE).
  assert ((z + i) mod SIZE = (z + j) mod SIZE) as E' by lia. clear E.
  assert ((i - j) mod SIZE = 0) as E by (replace (i - j) with ((z + i) - (z + j)) by lia; rewrite Zminus_mod, E', Z.sub_diag; apply Z.mod_0_l; lia).
  apply Z.mod_divide in E as [w Hw]; [|lia]. assert (w = 0) by nia. subst w. lia.
Qed.

Lemma box_pop_first x p ps : box_holds x (p :: ps) -> exists t x', box_pop x = Ret (Ok (Some (p, t)), x') /\ box_lent x' t ps.
Proof using Hk.
  intros (pend & av & u & Hs & Hp). destruct pend as [|[c p'] pend]; [done|]. cbn in Hp. injection Hp as -> <-. pose proof (stock_count _ _ _ _ _ Hs) as Hcnt.
  destruct (stock_cell _ _ _ _ _ c Hs ltac:(by left)) as [HcN Hco]. pose proof (size_range k Hk) as Hsz. rewrite zlen_cons, zlen_nil in Hcnt. pose proof (zlen_nonneg pend). pose proof (zlen_nonneg av).
  destruct Hs as [(fs & Hq & Ho & Hv & Ha) (I1 & I2 & I3 & I4) Hc Hu Hav Hm Hb]. destruct (owner _ _ _ _ c Hq Ho HcN Hco) as (l1 & f & l2 & b & -> & Hf & Hbc & Hfi & Hfo).
  destruct (Hm c p ltac:(by left)) as (Hpl & b' & Hb' & Hrd). rewrite Hbc in Hb'. injection Hb' as <-.
  assert (Hcan : can_pop (bx_q x) = true).
  { unfold can_pop. rewrite I1, I2. rewrite (proj2 (Z.eqb_neq _ _)); [done|]. apply u16_apart. rewrite zlen_cons. lia. }
  specialize (Hu 0%nat c p eq_refl) as Hslot. rewrite Z.add_0_r in Hslot. rewrite <- slot_u16, <- I2 in Hslot.
  unfold box_pop, pop, peek_used. fold (bx_q x). rewrite Hcan. unfold get at 1. rewrite Hslot. cbn [obind fst]. rewrite u16_small by lia.
  unfold get. rewrite Nat2Z.id, Hbc. cbn [obind].
  pose proof (vq_pop_ok k Hk (bx_q x) [] l1 f l2 Hq ltac:(rewrite I2; apply Z.mod_pos_bound; lia) (Z.of_nat c) (zlen p) Hslot) as Hpop. cbv zeta in Hpop.
  rewrite Hcan in Hpop. unfold f_token in Hpop. rewrite Hf, Hfi, Hfo, u16_small, Z.eqb_refl in Hpop by lia. cbn [negb] in Hpop. destruct Hpop as (q' & Erun & Hres & Hq').
  rewrite Erun. cbn [obind]. rewrite (proj2 (Z.leb_le _ _) Hpl). cbn [obind buf_ptr buf_len]. assert (Z.to_nat (zlen p) = length p) as -> by (unfold zlen; lia). rewrite Hrd.
  eexists _, _. split; [reflexivity|]. exists c, pend, av, u. split; [done|]. split; [|done].
  destruct (pr_same _ _ _ Hres) as (P1 & P2 & P3 & P4 & P5). destruct (pr_ring _ _ _ Hres) as [P6 P7].
  assert (Hdis : forall f', f' ∈ l1 ++ l2 -> c ∉ f_cells f').
  { destruct (flight_here k (bx_q x) [] l1 f l2 Hq) as (_ & _ & _ & Hnd). rewrite Hf in Hnd. apply NoDup_cons in Hnd as [Hnd _]. intros f' Hf' Hin. apply Hnd. by eapply busy_elem. }
  constructor; unfold bx_q; cbn [bx_o bx_mem queue buffers].
  - exists (l1 ++ l2). split_and!; [done|by apply Forall_app in Ho as [? [_ ?]%Forall_cons]; apply Forall_app| |by apply Forall_app in Ha as [? [_ ?]%Forall_cons]; apply Forall_app].
    intros f' c0 Hf' Hc0. assert (Hne : c0 ∉ f_cells f) by (rewrite Hf; intros ->%list_elem_of_singleton; by eapply Hdis).
    rewrite (pr_desc _ _ _ Hres), (pr_shadow _ _ _ Hres) by done. apply (Hv f'); [|done]. apply elem_of_app in Hf' as [?|?]; apply elem_of_app; [by left|by right; right].
  - rewrite P2, (pr_last _ _ _ Hres), P3, P7, I1, I2, I3, I4, zlen_cons. split_and!; try done. unfold u16. rewrite Zplus_mod_idemp_l. f_equal. lia.
  - rewrite <- Hc. cbn. rewrite app_nil_r. by rewrite Permutation_app_comm.
  - intros j c0 p0 Hj. rewrite P2. rewrite <- (Hu (S j) c0 p0 Hj). do 2 f_equal. f_equal. rewrite zlen_cons. lia.
  - intros j c0 Hj. rewrite P6. by apply Hav.
  - intros c0 p0 Hin. apply Hm. by right.
  - done.
Qed.

(** The buffer goes back: one descriptor, the free one. *)
Lemma add_back (q : VirtQueue) c fs b :
  qinv k q [c] fs -> 0 <= avail_idx q < 2 ^ 16 ->
  exists f q', add SIZE [] [mkBuf b BUFFER_SIZE] q = Ret (Ok (Z.of_nat c), q') /\ qinv k q' [] (f :: fs) /\ add_result k q q' f /\
    f_cells f = [c] /\ f_ins f = [] /\ f_outs f = [mkBuf b BUFFER_SIZE].
Proof using Hk Hbs.
  intros Hq Ha. pose proof (qinv_free k Hk _ _ _ Hq) as Hlen. rewrite zlen_cons, zlen_nil in Hlen. pose proof (size_range k Hk).
  assert (Hn : needed q (zlen (@nil Buffer) + zlen [mkBuf b BUFFER_SIZE]) = 1) by (unfold needed; by destruct (indirect q)).
  destruct (add_ok k Hk q [c] fs [] [mkBuf b BUFFER_SIZE] Hq Ha (out_ok BUFFER_SIZE Hbs b) ltac:(done)) as (f & free' & q' & Hrun & Hi & Ho & Hf & Hcl & Hres & Hinv).
  { rewrite Hn. lia. }
  { change (1 <= SIZE). lia. }
  rewrite Hn in Hcl. destruct (f_cells f) as [|c1 [|c2 cs]] eqn:Ec; [done| |rewrite !zlen_cons in Hcl; pose proof (zlen_nonneg cs); lia].
  cbn in Hf. injection Hf as <- <-. exists f, q'. unfold f_token in Hrun. rewrite Ec in Hrun. done.
Qed.

Lemma box_return_ok x t ps : box_lent x t ps -> exists x', box_return t x = Ret (Ok tt, x') /\ box_holds x' ps.
Proof using Hk Hbs.
  intros (c & pend & av & u & -> & Hs & Hp). pose proof (stock_count _ _ _ _ _ Hs) as Hcnt. rewrite zlen_cons, zlen_nil in Hcnt. pose proof (zlen_nonneg pend). pose proof (zlen_nonneg av).
  destruct Hs as [(fs & Hq & Ho & Hv & Ha) (I1 & I2 & I3 & I4) Hc Hu Hav Hm [Hb1 Hb2]]. pose proof (size_range k Hk) as Hsz.
  assert (HcN : (c < N)%nat) by (assert (c ∈ seq 0 N) as He%elem_of_seq by (rewrite <- Hc; apply elem_of_app; right; by left); lia).
  destruct (lookup_lt_is_Some_2 (buffers (bx_o x)) c ltac:(lia)) as [b Hbc].
  assert (Hai : 0 <= avail_idx (bx_q x) < 2 ^ 16) by (rewrite I3; apply Z.mod_pos_bound; lia).
  destruct (add_back (bx_q x) c fs b Hq Hai) as (f & q' & Erun & Hq' & Hres & Hf & Hfi & Hfo).
  unfold box_return, add_buffer_to_queue. rewrite Nat2Z.id, Hbc. fold (bx_q x). rewrite Erun. cbn [obind]. rewrite Z.eqb_refl. cbn [obind].
  eexists. split; [reflexivity|]. exists pend, (av ++ [c]), u. split; [|done].
  destruct (ar_same _ _ _ _ Hres) as (P1 & P2 & P3 & _). destruct (ar_idx _ _ _ _ Hres) as [P4 P5].
  constructor; unfold bx_q; cbn [bx_o bx_mem queue buffers].
  - exists (f :: fs). split_and!; [done|by constructor; [exists c, b|]| |by constructor; [apply (ar_answered _ _ _ _ Hres)|]].
    intros f' c0 Hf' Hc0. rewrite (ar_desc _ _ _ _ Hres). destruct (decide (c0 ∈ f_cells f)) as [Hin|Hin]; [done|]. rewrite (ar_shadow _ _ _ _ Hres) by done.
    apply elem_of_cons in Hf' as [->|Hf']; [done|by apply (Hv f')].
  - rewrite P2, P3, P5, P4, I1, I2, I3, zlen_app. split_and!; try done. unfold u16. rewrite Zplus_mod_idemp_l. f_equal. rewrite zlen_cons, zlen_nil. lia.
  - rewrite <- Hc, app_nil_r. by rewrite app_assoc.
  - intros j c0 p0 Hj. rewrite P2. by apply Hu.
  - intros j c0 Hj. rewrite (ar_ring _ _ _ _ Hres), I3, slot_u16. unfold f_token. rewrite Hf. apply lookup_snoc_Some in Hj as [[Hlt Hj]|[-> ->]].
    + rewrite list_lookup_insert_ne; [by apply Hav|]. apply slots_differ; unfold zlen in *; lia.
    + apply list_lookup_insert_eq. rewrite (qi_ring _ _ _ _ Hq). pose proof (Z.mod_pos_bound (u + zlen av) SIZE). lia.
  - intros c0 p0 Hin. by apply Hm.
  - done.
Qed.

(** The device finds the buffer. *)
Lemma request_of x out pend av u c :
  stock x out pend av u -> c ∈ pend.*1 ++ av -> exists b, buffers (bx_o x) !! c = Some b /\ device_request SIZE (bx_q x) (Z.of_nat c) = Some [(b, BUFFER_SIZE, true)].
Proof using Hk identity.
  intros Hs Hin. destruct (stock_cell _ _ _ _ _ c Hs Hin) as [HcN Hco]. destruct Hs as [(fs & Hq & Ho & Hv & Ha) _ _ _ _ _ _].
  destruct (owner _ _ _ _ c Hq Ho HcN Hco) as (l1 & f & l2 & b & -> & Hf & Hbc & Hfi & Hfo). exists b. split; [done|].
  assert (Hfin : f ∈ l1 ++ f :: l2) by (apply elem_of_app; right; by left). pose proof (request_chain k Hk _ _ _ f Hq Hfin Hv) as E. unfold f_token in E. rewrite Hf in E. rewrite E. f_equal.
  rewrite Forall_forall in Ha. specialize (Ha f Hfin). pose proof (qi_flights _ _ _ _ Hq) as Hok. rewrite Forall_forall in Hok. destruct (Hok f Hfin) as (Hio & _). rewrite Hfi, Hfo in Hio.
  destruct (f_bs f) as [|[[bf d] pa] [|]]; try done. cbn in Hio. injection Hio as -> ->. apply Forall_cons in Ha as [[log Hpa] _]. cbn in *. unfold view. cbn. by rewrite Hpa, identity.
Qed.

Lemma box_arrive_ok x ps p : box_holds x ps -> match box_arrive p x with Some x' => box_holds x' (ps ++ [p]) | None => True end.
Proof using Hk identity.
  intros (pend & av & u & Hs & Hp). unfold box_arrive. pose proof (stock_count _ _ _ _ _ Hs) as Hcnt. rewrite zlen_nil in Hcnt. pose proof (zlen_nonneg pend). pose proof (zlen_nonneg av). pose proof (size_range k Hk) as Hsz.
  pose proof Hs as [(fs & Hq & Ho & Hv & Ha) (I1 & I2 & I3 & I4) Hc Hu Hav Hm [Hb1 Hb2]].
  destruct (Z.eqb_spec (us_idx (used (bx_q x))) (av_idx (avail (bx_q x)))) as [|Hne]; [done|]. cbn [orb]. destruct (Z.ltb_spec BUFFER_SIZE (zlen p)) as [|Hpl]; [done|].
  destruct av as [|c av]; [rewrite I4, I3, I1, zlen_nil, Z.add_0_r in Hne; done|]. rewrite zlen_cons in Hcnt.
  pose proof (Hav 0%nat c eq_refl) as Htok. rewrite Z.add_0_r in Htok. rewrite I1, mod_u16 by done. rewrite Htok. cbn [mbind option_bind].
  destruct (request_of _ _ _ _ _ c Hs) as (b & Hbc & ->); [apply elem_of_app; right; by left|]. cbn [mbind option_bind].
  exists (pend ++ [(c, p)]), av, (u + 1). split; [|by rewrite fmap_app, Hp].
  constructor; unfold bx_q; cbn [bx_o bx_mem queue buffers with_used device_writes used us_idx us_ring last_used_idx avail_idx avail].
  - exists fs. split_and!; try done. eapply (qinv_private k (bx_q x)); try done; cbn; [apply (qi_desc _ _ _ _ Hq)|apply (qi_ring _ _ _ _ Hq)|rewrite length_insert; apply (qi_used _ _ _ _ Hq)].
  - unfold bx_q in I2, I3, I4. rewrite I4, I3, I2, zlen_app, !zlen_cons, zlen_nil. split_and!; try done; [unfold u16; by rewrite Zplus_mod_idemp_l|f_equal; lia..].
  - rewrite <- Hc, fmap_app. rewrite !app_nil_r, <- app_assoc. done.
  - intros j c0 p0 Hj. rewrite zlen_app, zlen_cons, zlen_nil. replace (u + 1 - (zlen pend + (1 + 0)) + Z.of_nat j) with (u - zlen pend + Z.of_nat j) by lia.
    apply lookup_snoc_Some in Hj as [[Hlt Hj]|[-> [= -> ->]]].
    + rewrite list_lookup_insert_ne; [by apply Hu|]. replace u with (u - zlen pend + zlen pend) at 1 by lia. apply slots_differ; unfold zlen in *; lia.
    + replace (u - zlen pend + Z.of_nat (length pend)) with u by (unfold zlen; lia). apply list_lookup_insert_eq. pose proof (qi_used _ _ _ _ Hq) as Hlu. unfold bx_q in Hlu. rewrite Hlu. pose proof (Z.mod_pos_bound u SIZE). lia.
  - intros j c0 Hj. rewrite <- (Hav (S j) c0 Hj). unfold bx_q. do 3 f_equal. lia.
  - intros c0 p0 Hin. apply elem_of_app in Hin as [Hin|Hin].
    + destruct (Hm c0 p0 Hin) as (Hl0 & b0 & Hb0 & Hr0). split; [done|]. exists b0. split; [done|]. rewrite <- Hr0 at 2. apply mem_read_ext. intros a Hra. apply mem_write_outside.
      assert (c0 <> c) as Hne0.
      { intros ->. assert (Hnd : NoDup ((pend.*1 ++ c :: av) ++ [])) by (rewrite Hc; apply NoDup_seq). rewrite app_nil_r in Hnd. apply NoDup_app in Hnd as (_ & Hd & _). apply (Hd c); [|by left]. by apply (list_elem_of_fmap_2 fst pend (c, p0)). }
      pose proof (apart_lookup _ _ c0 c b0 b BUFFER_SIZE BUFFER_SIZE Hb2 Hne0 Hb0 Hbc) as Hap. rewrite !lookup_replicate in Hap. apply lookup_lt_Some in Hb0, Hbc. unfold zlen in *. destruct Hap; lia || (split; [done|lia]).
    + apply list_elem_of_singleton in Hin as [= -> ->]. split; [done|]. exists b. split; [done|]. apply mem_read_write_same.
  - done.
Qed.

(** The device can deliver exactly while a buffer is with it. *)
Lemma box_arrive_room x ps p : box_holds x ps -> zlen p <= BUFFER_SIZE -> zlen ps <= SIZE /\ bool_decide (is_Some (box_arrive p x)) = (zlen ps <? SIZE).
Proof using Hk identity.
  intros (pend & av & u & Hs & <-) Hpl. unfold box_arrive. pose proof (stock_count _ _ _ _ _ Hs) as Hcnt. rewrite zlen_nil in Hcnt. pose proof (zlen_nonneg av). pose proof (size_range k Hk) as Hsz.
  assert (zlen pend.*2 = zlen pend) as -> by (unfold zlen; by rewrite length_fmap). split; [lia|]. pose proof (zlen_nonneg pend).
  pose proof Hs as [_ (I1 & I2 & I3 & I4) _ _ Hav _ _]. rewrite I4, I3, I1, (proj2 (Z.ltb_ge _ _)) by lia. rewrite orb_false_r.
  destruct av as [|c av]; [rewrite zlen_nil in *; rewrite Z.add_0_r, Z.eqb_refl, (proj2 (Z.ltb_ge _ _)) by lia; done|]. rewrite zlen_cons in *. pose proof (zlen_nonneg av).
  rewrite (proj2 (Z.eqb_neq _ _)); [|pose proof (u16_apart (u + (1 + zlen av)) (1 + zlen av) ltac:(lia)) as Hne; by replace (u + (1 + zlen av) - (1 + zlen av)) with u in Hne by lia].
  pose proof (Hav 0%nat c eq_refl) as Htok. rewrite Z.add_0_r in Htok. rewrite mod_u16 by done. rewrite Htok. cbn [mbind option_bind].
  destruct (request_of _ _ _ _ _ c Hs) as (b & Hbc & ->); [apply elem_of_app; right; by left|]. cbn [mbind option_bind]. rewrite (proj2 (Z.ltb_lt _ _)) by lia. by rewrite bool_decide_eq_true_2.
Qed.
(** ** New queues *)

(** After [i] buffers were added to a new queue. *)
Record filling (q : VirtQueue) (i : nat) (bs : list Z) (fs : list flight) : Prop := {
  fi_q : Forall (owns BUFFER_SIZE bs) fs /\ (forall f c, f ∈ fs -> c ∈ f_cells f -> desc q !! c = desc_shadow q !! c) /\ Forall (fun f => Forall answered (f_bs f)) fs;
  fi_idx : us_idx (used q) = 0 /\ last_used_idx q = 0 /\ avail_idx q = Z.of_nat i /\ av_idx (avail q) = avail_idx q;
  fi_avail : forall j, (j < i)%nat -> av_ring (avail q) !! j = Some (Z.of_nat j);
  fi_bufs : length bs = i
}.

Lemma filling_add q i n bs fs a :
  qinv k q (seq i (S n)) fs -> filling q i bs fs -> (i + S n = N)%nat ->
  exists f q', add SIZE [] [mkBuf a BUFFER_SIZE] q = Ret (Ok (Z.of_nat i), q') /\ qinv k q' (seq (S i) n) (f :: fs) /\ filling q' (S i) (bs ++ [a]) (f :: fs).
Proof using Hk Hbs.
  intros Hq [(Ho & Hv & Ha) (I1 & I2 & I3 & I4) Hav Hb] Hn. pose proof (qinv_free k Hk _ _ _ Hq) as Hlen. pose proof (size_range k Hk) as Hsz. unfold zlen in Hlen. rewrite length_seq in Hlen.
  assert (Hne : needed q (zlen (@nil Buffer) + zlen [mkBuf a BUFFER_SIZE]) = 1) by (unfold needed; by destruct (indirect q)).
  destruct (add_ok k Hk q (seq i (S n)) fs [] [mkBuf a BUFFER_SIZE] Hq ltac:(lia) (out_ok BUFFER_SIZE Hbs a) ltac:(done)) as (f & free' & q' & Hrun & Hi & Hfo & Hf & Hcl & Hres & Hinv).
  { rewrite Hne. lia. }
  { change (1 <= SIZE). lia. }
  rewrite Hne in Hcl. destruct (f_cells f) as [|c1 [|c2 cs]] eqn:Ec; [done| |rewrite !zlen_cons in Hcl; pose proof (zlen_nonneg cs); lia].
  cbn in Hf. injection Hf as <- <-. exists f, q'. unfold f_token in Hrun. rewrite Ec in Hrun. split; [done|]. split; [done|].
  destruct (ar_same _ _ _ _ Hres) as (P1 & P2 & P3 & _). destruct (ar_idx _ _ _ _ Hres) as [P4 P5]. constructor.
  - split_and!.
    + constructor; [exists i, a; split_and!; try done; rewrite <- Hb; by apply list_lookup_middle|]. eapply Forall_impl; [exact Ho|]. apply owns_more.
    + intros f' c0 Hf' Hc0. rewrite (ar_desc _ _ _ _ Hres). destruct (decide (c0 ∈ f_cells f)) as [Hin|Hin]; [done|]. rewrite (ar_shadow _ _ _ _ Hres) by done. apply elem_of_cons in Hf' as [->|Hf']; [done|by apply (Hv f')].
    + constructor; [apply (ar_answered _ _ _ _ Hres)|done].
  - rewrite P2, P3, P5, P4, I1, I2, I3. rewrite u16_small by lia. split_and!; try done; lia.
  - intros j Hj. rewrite (ar_ring _ _ _ _ Hres), I3, slot_mod by done. unfold f_token. rewrite Ec. rewrite Z.mod_small, Nat2Z.id by lia.
    destruct (decide (j = i)) as [->|Hji]; [apply list_lookup_insert_eq; rewrite (qi_ring _ _ _ _ Hq); lia|rewrite list_lookup_insert_ne by done; apply Hav; lia].
  - rewrite length_app. cbn. lia.
Qed.

(** All buffers are with the device. *)
Lemma filled q bs fs m : qinv k q [] fs -> filling q N bs fs -> apart bs (replicate N BUFFER_SIZE) -> box_holds (mkBox (mkOwning q bs) m) [].
Proof using Hk.
  intros Hq [(Ho & Hv & Ha) (I1 & I2 & I3 & I4) Hav Hb] Hap. exists [], (seq 0 N), 0. split; [|done]. pose proof (size_range k Hk) as Hsz.
  constructor; unfold bx_q; cbn [bx_o bx_mem queue buffers]; try done.
  - by exists fs.
  - rewrite I1, I2, I4, I3. split_and!; try done. unfold zlen. rewrite length_seq. rewrite u16_small by lia. lia.
  - cbn. by rewrite app_nil_r.
  - intros j c Hj. apply lookup_seq in Hj as [-> Hj]. rewrite Z.add_0_l, Z.mod_small, Nat2Z.id by lia. apply Hav. lia.
  - intros c p He. by apply elem_of_nil in He.
Qed.

Lemma fresh_filling tr idx ind ev log q set : new SIZE tr idx ind ev log = Ret (Ok (q, set)) -> qinv k q (seq 0 N) [] /\ filling q 0 [] [].
Proof using Hk.
  intros Hn. destruct (new_fresh k Hk _ _ _ _ _ _ _ Hn) as ((Hq & H1 & H2 & H3) & _ & _ & H4). split; [done|].
  constructor; try done; [split_and!; try done; intros f c Hf; by apply elem_of_nil in Hf|rewrite H1, H3; by split_and!|lia].
Qed.

Lemma owning_new_loop_holds n i q bs fs o m :
  qinv k q (seq i n) fs -> filling q i bs fs -> (i + n = N)%nat -> owning_new_loop SIZE BUFFER_SIZE n (Z.of_nat i) q bs = Ret (Ok o) ->
  apart (buffers o) (replicate N BUFFER_SIZE) -> box_holds (mkBox o m) [].
Proof using Hk Hbs.
  revert i q bs fs. induction n as [|n IH]; intros i q bs fs Hq Hf Hn Hrun Hap; cbn [owning_new_loop] in Hrun.
  - injection Hrun as <-. assert (i = N) as -> by lia. by apply (filled q bs fs).
  - destruct (filling_add q i n bs fs (hal_box (hal_log q) BUFFER_SIZE) Hq Hf Hn) as (f & q' & Ea & Hq' & Hf'). rewrite Ea in Hrun. cbn [obind] in Hrun. rewrite Z.eqb_refl in Hrun.
    replace (Z.of_nat i + 1) with (Z.of_nat (S i)) in Hrun by lia. eapply (IH (S i)); [exact Hq'|exact Hf'|lia|exact Hrun|done].
Qed.

Lemma owning_new_holds tr idx ind ev log q set o m :
  new SIZE tr idx ind ev log = Ret (Ok (q, set)) -> owning_new SIZE BUFFER_SIZE q = Ret (Ok o) -> apart (buffers o) (replicate N BUFFER_SIZE) -> box_holds (mkBox o m) [].
Proof using Hk Hbs.
  intros Hn Ho Ha. destruct (fresh_filling _ _ _ _ _ _ _ Hn) as [Hq Hf]. by eapply (owning_new_loop_holds N 0 q [] []).
Qed.

#[local] Instance VirtqInboxOk : InboxOk := {| holds := box_holds; lent := box_lent; pop_empty := box_pop_empty; pop_first := box_pop_first; return_ok := box_return_ok; arrive_ok := box_arrive_ok |}.
End inbox.
