(* ===== verification/Vsock.v ===== *)
(** * Virtio sockets ([src/virtio-drivers-patched/src/device/socket/])

    The packets and their header ([protocol.rs]), the driver that sends and receives
    them with the account of credit of each connection ([vsock.rs]), and the manager
    of connections with their receive buffers ([connectionmanager.rs]).  The transmit
    queue is a [Channel], the receive queue an [Inbox]. *)

From S2P Require Import Prelude Virtq Channel.

(** ** The protocol *)

Inductive SocketType := Stream | SeqPacket.
Definition socket_type_u16 (t : SocketType) : Z := match t with Stream => 1 | SeqPacket => 2 end.

Record VsockAddr := mkAddr { cid : Z; port : Z }.
#[export] Instance VsockAddr_eq_dec : EqDecision VsockAddr.
Proof. solve_decision. Defined.
#[export] Instance VsockAddr_countable : Countable VsockAddr.
Proof. refine (inj_countable (fun a => (cid a, port a)) (fun p => Some (mkAddr p.1 p.2)) _). by intros []. Defined.

Record VirtioVsockHdr := mkHdr {
  src_cid : Z; dst_cid : Z; src_port_ : Z; dst_port : Z; len : Z; socket_type : Z; op : Z; flags : Z; hdr_buf_alloc : Z; hdr_fwd_cnt : Z
}.

(** [size_of::<VirtioVsockHdr>()], and the packed little-endian fields. *)
Definition HDR : nat := 44.
Definition as_bytes (h : VirtioVsockHdr) : bytes :=
  le_bytes 8 (src_cid h) ++ le_bytes 8 (dst_cid h) ++ le_bytes 4 (src_port_ h) ++ le_bytes 4 (dst_port h) ++ le_bytes 4 (len h) ++
  le_bytes 2 (socket_type h) ++ le_bytes 2 (op h) ++ le_bytes 4 (flags h) ++ le_bytes 4 (hdr_buf_alloc h) ++ le_bytes 4 (hdr_fwd_cnt h).

Definition field_at (at_ n : nat) (l : bytes) : Z := le_val (take n (drop at_ l)).
Definition read_from_prefix (l : bytes) : option VirtioVsockHdr :=
  if (HDR <=? length l)%nat then
    Some (mkHdr (field_at 0 8 l) (field_at 8 8 l) (field_at 16 4 l) (field_at 20 4 l) (field_at 24 4 l)
      (field_at 28 2 l) (field_at 30 2 l) (field_at 32 4 l) (field_at 36 4 l) (field_at 40 4 l))
  else None.

Inductive VirtioVsockOp := Invalid | Request | Response | Rst | Shutdown_ | Rw | CreditUpdate_ | CreditRequest_.
#[export] Instance VirtioVsockOp_eq_dec : EqDecision VirtioVsockOp.
Proof. solve_decision. Defined.
Definition op_u16 (o : VirtioVsockOp) : Z :=
  match o with Invalid => 0 | Request => 1 | Response => 2 | Rst => 3 | Shutdown_ => 4 | Rw => 5 | CreditUpdate_ => 6 | CreditRequest_ => 7 end.
Definition op_try_from (v : Z) : Result VirtioVsockOp :=
  match v with
  | 0 => Ok Invalid
  | 1 => Ok Request
  | 2 => Ok Response
  | 3 => Ok Rst
  | 4 => Ok Shutdown_
  | 5 => Ok Rw
  | 6 => Ok CreditUpdate_
  | 7 => Ok CreditRequest_
  | _ => Err (SocketDeviceError (UnknownOperation v))
  end.

Definition source (h : VirtioVsockHdr) : VsockAddr := mkAddr (src_cid h) (src_port_ h).
Definition destination (h : VirtioVsockHdr) : VsockAddr := mkAddr (dst_cid h) (dst_port h).
Definition check_data_is_empty (h : VirtioVsockHdr) : Result unit :=
  if len h =? 0 then Ok tt else Err (SocketDeviceError UnexpectedDataInPacket).

(** [StreamShutdown]. *)
Definition SHUT_RECEIVE : Z := 1.
Definition SHUT_SEND : Z := 2.

(** ** Connections and events *)

Record ConnectionInfo := mkInfo {
  dst : VsockAddr;
  src_port : Z;
  peer_buf_alloc : Z;
  peer_fwd_cnt : Z;
  tx_cnt : Z;
  buf_alloc : Z;
  fwd_cnt : Z;
  has_pending_credit_request : bool
}.

Inductive DisconnectReason := Reset | Shutdown.
Inductive VsockEventType :=
| ConnectionRequest | Connected | Disconnected (reason : DisconnectReason) | Received (length : Z) | CreditRequest | CreditUpdate.
#[export] Instance DisconnectReason_eq_dec : EqDecision DisconnectReason.
Proof. solve_decision. Defined.
#[export] Instance VsockEventType_eq_dec : EqDecision VsockEventType.
Proof. solve_decision. Defined.
Record VsockEvent := mkEvent { ev_source : VsockAddr; ev_destination : VsockAddr; buffer_allocation : Z; forward_count : Z; event_type : VsockEventType }.

Definition info_new (destination : VsockAddr) (src_port : Z) : ConnectionInfo := mkInfo destination src_port 0 0 0 0 0 false.
Definition set_buf_alloc (i : ConnectionInfo) (n : Z) : ConnectionInfo :=
  mkInfo (dst i) (src_port i) (peer_buf_alloc i) (peer_fwd_cnt i) (tx_cnt i) n (fwd_cnt i) (has_pending_credit_request i).
Definition set_tx_cnt (i : ConnectionInfo) (n : Z) : ConnectionInfo :=
  mkInfo (dst i) (src_port i) (peer_buf_alloc i) (peer_fwd_cnt i) n (buf_alloc i) (fwd_cnt i) (has_pending_credit_request i).
Definition set_pending (i : ConnectionInfo) (b : bool) : ConnectionInfo :=
  mkInfo (dst i) (src_port i) (peer_buf_alloc i) (peer_fwd_cnt i) (tx_cnt i) (buf_alloc i) (fwd_cnt i) b.

Definition update_for_event (e : VsockEvent) (i : ConnectionInfo) : ConnectionInfo :=
  mkInfo (dst i) (src_port i) (buffer_allocation e) (forward_count e) (tx_cnt i) (buf_alloc i) (fwd_cnt i)
    (match event_type e with CreditUpdate => false | _ => has_pending_credit_request i end).
Definition done_forwarding (length : Z) (i : ConnectionInfo) : ConnectionInfo :=
  mkInfo (dst i) (src_port i) (peer_buf_alloc i) (peer_fwd_cnt i) (tx_cnt i) (buf_alloc i) (u32 (fwd_cnt i + u32 length)) (has_pending_credit_request i).
Definition peer_free (i : ConnectionInfo) : Z := u32 (peer_buf_alloc i - u32 (tx_cnt i - peer_fwd_cnt i)).

(** [new_header], with the fields the callers add. *)
Definition new_header (o : VirtioVsockOp) (len flags : Z) (i : ConnectionInfo) (src_cid : Z) : VirtioVsockHdr :=
  mkHdr src_cid (cid (dst i)) (src_port i) (port (dst i)) len (socket_type_u16 Stream) (op_u16 o) flags (buf_alloc i) (fwd_cnt i).

Definition matches_connection (e : VsockEvent) (i : ConnectionInfo) (guest_cid : Z) : bool :=
  bool_decide (ev_source e = dst i) && (cid (ev_destination e) =? guest_cid) && (port (ev_destination e) =? src_port i).

Definition from_header (h : VirtioVsockHdr) : Result VsockEvent :=
  match op_try_from (op h) with
  | Err e => Err e
  | Ok o =>
      let event t := Ok (mkEvent (source h) (destination h) (hdr_buf_alloc h) (hdr_fwd_cnt h) t) in
      let empty t := match check_data_is_empty h with Err e => Err e | Ok _ => event t end in
      match o with
      | Request => empty ConnectionRequest
      | Response => empty Connected
      | CreditUpdate_ => empty CreditUpdate
      | Rst => empty (Disconnected Reset)
      | Shutdown_ => empty (Disconnected Shutdown)
      | Rw => event (Received (len h))
      | CreditRequest_ => empty CreditRequest
      | Invalid => Err (SocketDeviceError InvalidOperation)
      end
  end.

Definition read_header_and_body (buffer : bytes) : Result (VirtioVsockHdr * bytes) :=
  match read_from_prefix buffer with
  | None => Err (SocketDeviceError BufferTooShort)
  | Some header =>
      let data_end := 44 + len header in
      if 2 ^ 64 <=? data_end then Err (SocketDeviceError InvalidNumber)
      else if zlen buffer <? data_end then Err (SocketDeviceError BufferTooShort)
      else Ok (header, take (Z.to_nat (len header)) (drop HDR buffer))
  end.

(** ** The driver *)

Section driver.
Context `{Channel} `{Inbox}.

Record VirtIOSocket := mkSocket { rx : inbox; tx : chan; guest_cid : Z }.
Definition set_tx (s : VirtIOSocket) (c : chan) : VirtIOSocket := mkSocket (rx s) c (guest_cid s).
Definition set_rx (s : VirtIOSocket) (i : inbox) : VirtIOSocket := mkSocket i (tx s) (guest_cid s).

Definition send_packet_to_tx_queue (header : VirtioVsockHdr) (buffer : bytes) (s : VirtIOSocket) : outcome (Result unit * VirtIOSocket) :=
  do! (r, c) <- rpc (match buffer with [] => [as_bytes header] | _ => [as_bytes header; buffer] end) [] (tx s);
  Ret (match r with Err e => Err e | Ok _ => Ok tt end, set_tx s c).

(** A packet of a header only. *)
Definition control (o : VirtioVsockOp) (flags : Z) (i : ConnectionInfo) (s : VirtIOSocket) : outcome (Result unit * VirtIOSocket) :=
  send_packet_to_tx_queue (new_header o 0 flags i (guest_cid s)) [] s.
Definition connect_ := control Request 0.
Definition accept_ := control Response 0.
Definition request_credit := control CreditRequest_ 0.
Definition credit_update := control CreditUpdate_ 0.
Definition shutdown_with_hints (hints : Z) := control Shutdown_ hints.
Definition shutdown_ := shutdown_with_hints (Z.lor SHUT_SEND SHUT_RECEIVE).
Definition force_close_ := control Rst 0.

Definition check_peer_buffer_is_sufficient (buffer_len : Z) (i : ConnectionInfo) (s : VirtIOSocket) :
    outcome (Result unit * ConnectionInfo * VirtIOSocket) :=
  if buffer_len <=? peer_free i then Ret (Ok tt, i, s)
  else
    let refused := Err (SocketDeviceError InsufficientBufferSpaceInPeer) in
    if has_pending_credit_request i then Ret (refused, i, s)
    else
      do! (r, s) <- request_credit i s;
      match r with
      | Err e => Ret (Err e, i, s)
      | Ok _ => Ret (refused, set_pending i true, s)
      end.

Definition send_ (buffer : bytes) (i : ConnectionInfo) (s : VirtIOSocket) : outcome (Result unit * ConnectionInfo * VirtIOSocket) :=
  do! (r, i, s) <- check_peer_buffer_is_sufficient (zlen buffer) i s;
  match r with
  | Err e => Ret (Err e, i, s)
  | Ok _ =>
      let n := u32 (zlen buffer) in
      let header := new_header Rw n 0 i (guest_cid s) in
      let i := set_tx_cnt i (u32 (tx_cnt i + n)) in
      do! (r, s) <- send_packet_to_tx_queue header buffer s;
      Ret (r, i, s)
  end.

(** [handler] has a state: what it captures. *)
Definition poll_ {S} (handler : VsockEvent -> bytes -> S -> outcome (Result (option VsockEvent) * S)) (st : S) (s : VirtIOSocket) :
    outcome (Result (option VsockEvent) * S * VirtIOSocket) :=
  do! (r, st, i) <- inbox_poll (fun buffer st =>
    match read_header_and_body buffer with
    | Err e => Ret (Err e, st)
    | Ok (header, body) =>
        match from_header header with
        | Err e => Ret (Err e, st)
        | Ok event => handler event body st
        end
    end) st (rx s);
  Ret (r, st, set_rx s i).
End driver.

(** ** The receive buffer of a connection *)

Record RingBuffer := mkRing { buffer : bytes; used_ : Z; start : Z }.
Definition ring_new (capacity : Z) : RingBuffer := mkRing (replicate (Z.to_nat capacity) 0) 0 0.
Definition ring_is_empty (r : RingBuffer) : bool := used_ r =? 0.
Definition ring_free (r : RingBuffer) : Z := u64 (zlen (buffer r) - used_ r).

(** [dst[at..at + src.len()].copy_from_slice(src)]. *)
Definition slice_copy (d : bytes) (at_ : Z) (src : bytes) : outcome bytes :=
  if at_ + zlen src <=? zlen d then Ret (take (Z.to_nat at_) d ++ src ++ drop (Z.to_nat at_ + length src) d) else Panic.
(** [src[from..from + n]]. *)
Definition slice (l : bytes) (from n : Z) : outcome bytes :=
  if from + n <=? zlen l then Ret (take (Z.to_nat n) (drop (Z.to_nat from) l)) else Panic.
(** [a % b]. *)
Definition rem (a b : Z) : outcome Z := if b =? 0 then Panic else Ret (a mod b).

Definition ring_add (bytes_ : bytes) (r : RingBuffer) : outcome (bool * RingBuffer) :=
  if ring_free r <? zlen bytes_ then Ret (false, r)
  else
    do! first_available <- rem (u64 (start r + used_ r)) (zlen (buffer r));
    let before := Z.min (zlen bytes_) (zlen (buffer r) - first_available) in
    do! b <- slice_copy (buffer r) first_available (take (Z.to_nat before) bytes_);
    do! b <- slice_copy b 0 (drop (Z.to_nat before) bytes_);
    Ret (true, mkRing b (u64 (used_ r + zlen bytes_)) (start r)).

(** [drain]: the bytes read, for an output buffer of [n] bytes. *)
Definition drain (n : Z) (r : RingBuffer) : outcome (bytes * RingBuffer) :=
  let bytes_read := Z.min (used_ r) n in
  let before := Z.min bytes_read (u64 (zlen (buffer r) - start r)) in
  let after := if before <=? bytes_read then bytes_read - before else 0 in
  do! b1 <- slice (buffer r) (start r) before;
  do! b2 <- slice (buffer r) 0 after;
  do! s <- rem (u64 (start r + bytes_read)) (zlen (buffer r));
  Ret (b1 ++ b2, mkRing (buffer r) (used_ r - bytes_read) s).

(** ** The connection manager *)

Record Connection := mkConn { info : ConnectionInfo; ring : RingBuffer; peer_requested_shutdown : bool }.
Definition set_info (c : Connection) (i : ConnectionInfo) : Connection := mkConn i (ring c) (peer_requested_shutdown c).
Definition conn_new (peer : VsockAddr) (local_port buffer_capacity : Z) : Connection :=
  mkConn (set_buf_alloc (info_new peer local_port) buffer_capacity) (ring_new buffer_capacity) false.

Definition is_conn (peer : VsockAddr) (local_port : Z) (c : Connection) : bool :=
  bool_decide (dst (info c) = peer) && (src_port (info c) =? local_port).

(** The index of the connection and the connection. *)
Definition find_conn (f : Connection -> bool) (l : list Connection) : option (nat * Connection) :=
  match position f l with Some i => match l !! i with Some c => Some (i, c) | None => None end | None => None end.
Definition get_connection (connections : list Connection) (peer : VsockAddr) (local_port : Z) : Result (nat * Connection) :=
  match find_conn (is_conn peer local_port) connections with Some r => Ok r | None => Err (SocketDeviceError NotConnected) end.
Definition get_connection_for_event (connections : list Connection) (e : VsockEvent) (local_cid : Z) : option (nat * Connection) :=
  find_conn (fun c => matches_connection e (info c) local_cid) connections.

Section manager.
Context `{Channel} `{Inbox}.

Record VsockConnectionManager := mkMgr {
  driver : VirtIOSocket;
  per_connection_buffer_capacity : Z;
  connections : list Connection;
  listening_ports : list Z
}.
Definition set_driver (g : VsockConnectionManager) (s : VirtIOSocket) : VsockConnectionManager :=
  mkMgr s (per_connection_buffer_capacity g) (connections g) (listening_ports g).
Definition set_connections (g : VsockConnectionManager) (l : list Connection) : VsockConnectionManager :=
  mkMgr (driver g) (per_connection_buffer_capacity g) l (listening_ports g).
Definition set_listening (g : VsockConnectionManager) (l : list Z) : VsockConnectionManager :=
  mkMgr (driver g) (per_connection_buffer_capacity g) (connections g) l.

Definition new_with_capacity (d : VirtIOSocket) (capacity : Z) : VsockConnectionManager := mkMgr d capacity [] [].
Definition mgr_new (d : VirtIOSocket) : VsockConnectionManager := new_with_capacity d 1024.

Definition listen (p : Z) (g : VsockConnectionManager) : VsockConnectionManager :=
  if bool_decide (p ∈ listening_ports g) then g else set_listening g (listening_ports g ++ [p]).
Definition unlisten (p : Z) (g : VsockConnectionManager) : VsockConnectionManager :=
  set_listening g (filter (fun x => x <> p) (listening_ports g)).

Definition connect (d : VsockAddr) (sp : Z) (g : VsockConnectionManager) : outcome (Result unit * VsockConnectionManager) :=
  if existsb (is_conn d sp) (connections g) then Ret (Err (SocketDeviceError ConnectionExists), g)
  else
    let c := conn_new d sp (per_connection_buffer_capacity g) in
    do! (r, s) <- connect_ (info c) (driver g);
    let g := set_driver g s in
    match r with
    | Err e => Ret (Err e, g)
    | Ok _ => Ret (Ok tt, set_connections g (connections g ++ [c]))
    end.

Definition send (d : VsockAddr) (sp : Z) (buffer : bytes) (g : VsockConnectionManager) : outcome (Result unit * VsockConnectionManager) :=
  match get_connection (connections g) d sp with
  | Err e => Ret (Err e, g)
  | Ok (i, c) =>
      do! (r, inf, s) <- send_ buffer (info c) (driver g);
      Ret (r, set_driver (set_connections g (<[i := set_info c inf]> (connections g))) s)
  end.

(** The closure of [poll], on the connections it captures. *)
Definition on_event (guest_cid capacity : Z) (event : VsockEvent) (body : bytes) (conns : list Connection) :
    outcome (Result (option VsockEvent) * list Connection) :=
  let found :=
    match get_connection_for_event conns event guest_cid with
    | Some (i, c) => Some (i, c, conns)
    | None =>
        match event_type event with
        | ConnectionRequest =>
            if negb (cid (ev_destination event) =? guest_cid) then None
            else
              let c := conn_new (ev_source event) (port (ev_destination event)) capacity in
              Some (length conns, c, conns ++ [c])
        | _ => None
        end
    end in
  match found with
  | None => Ret (Ok None, conns)
  | Some (i, c, conns) =>
      let c := set_info c (update_for_event event (info c)) in
      match event_type event with
      | Received length =>
          do! (added, r) <- ring_add body (ring c);
          let conns := <[i := mkConn (info c) r (peer_requested_shutdown c)]> conns in
          if added : bool then Ret (Ok (Some event), conns) else Ret (Err (SocketDeviceError (OutputBufferTooShort length)), conns)
      | _ => Ret (Ok (Some event), <[i := c]> conns)
      end
  end.

(** [poll] after the closure. *)
Definition after_event (event : VsockEvent) (g : VsockConnectionManager) : outcome (Result (option VsockEvent) * VsockConnectionManager) :=
  match get_connection_for_event (connections g) event (guest_cid (driver g)) with
  | None => Panic
  | Some (i, c) =>
      match event_type event with
      | ConnectionRequest =>
          if bool_decide (port (ev_destination event) ∈ listening_ports g) then
            do! (r, s) <- accept_ (info c) (driver g);
            let g := set_driver g s in
            match r with Err e => Ret (Err e, g) | Ok _ => Ret (Ok (Some event), g) end
          else
            do! (r, s) <- force_close_ (info c) (driver g);
            let g := set_driver g s in
            match r with Err e => Ret (Err e, g) | Ok _ => Ret (Ok None, set_connections g (swap_remove (connections g) i)) end
      | Disconnected reason =>
          if ring_is_empty (ring c) then
            do! (r, s) <- match reason with Shutdown => force_close_ (info c) (driver g) | Reset => Ret (Ok tt, driver g) end;
            let g := set_driver g s in
            match r with Err e => Ret (Err e, g) | Ok _ => Ret (Ok (Some event), set_connections g (swap_remove (connections g) i)) end
          else Ret (Ok (Some event), set_connections g (<[i := mkConn (info c) (ring c) true]> (connections g)))
      | CreditRequest =>
          do! (r, s) <- credit_update (info c) (driver g);
          let g := set_driver g s in
          match r with Err e => Ret (Err e, g) | Ok _ => Ret (Ok None, g) end
      | Connected | Received _ | CreditUpdate => Ret (Ok (Some event), g)
      end
  end.

Definition poll (g : VsockConnectionManager) : outcome (Result (option VsockEvent) * VsockConnectionManager) :=
  do! (r, conns, s) <- poll_ (on_event (guest_cid (driver g)) (per_connection_buffer_capacity g)) (connections g) (driver g);
  let g := set_driver (set_connections g conns) s in
  match r with
  | Err e => Ret (Err e, g)
  | Ok None => Ret (Ok None, g)
  | Ok (Some event) => after_event event g
  end.

(** [recv] into a buffer of [n] bytes. *)
Definition recv (peer : VsockAddr) (sp n : Z) (g : VsockConnectionManager) : outcome (Result bytes * VsockConnectionManager) :=
  match get_connection (connections g) peer sp with
  | Err e => Ret (Err e, g)
  | Ok (i, c) =>
      do! (b, r) <- drain n (ring c);
      let c := mkConn (done_forwarding (zlen b) (info c)) r (peer_requested_shutdown c) in
      let g := set_connections g (<[i := c]> (connections g)) in
      if peer_requested_shutdown c && ring_is_empty r then
        do! (res, s) <- force_close_ (info c) (driver g);
        let g := set_driver g s in
        match res with Err e => Ret (Err e, g) | Ok _ => Ret (Ok b, set_connections g (swap_remove (connections g) i)) end
      else Ret (Ok b, g)
  end.

Definition recv_buffer_available_bytes (peer : VsockAddr) (sp : Z) (g : VsockConnectionManager) : Result Z :=
  match get_connection (connections g) peer sp with Err e => Err e | Ok (_, c) => Ok (used_ (ring c)) end.

(** An operation of the driver on a connection that stays. *)
Definition on_conn (f : ConnectionInfo -> VirtIOSocket -> outcome (Result unit * VirtIOSocket)) (peer : VsockAddr) (sp : Z)
    (g : VsockConnectionManager) : outcome (Result unit * VsockConnectionManager) :=
  match get_connection (connections g) peer sp with
  | Err e => Ret (Err e, g)
  | Ok (_, c) => do! (r, s) <- f (info c) (driver g); Ret (r, set_driver g s)
  end.
Definition update_credit := on_conn credit_update.
Definition shutdown := on_conn shutdown_.
Definition force_close (d : VsockAddr) (sp : Z) (g : VsockConnectionManager) : outcome (Result unit * VsockConnectionManager) :=
  match get_connection (connections g) d sp with
  | Err e => Ret (Err e, g)
  | Ok (i, c) =>
      do! (r, s) <- force_close_ (info c) (driver g);
      let g := set_driver g s in
      match r with Err e => Ret (Err e, g) | Ok _ => Ret (Ok tt, set_connections g (swap_remove (connections g) i)) end
  end.

(** [wait_for_event]: [arrive] is what the device does to the receive queue between the
    polls. *)
Fixpoint wait_for_event (arrive : list (inbox -> inbox)) (g : VsockConnectionManager) : outcome (Result VsockEvent * VsockConnectionManager) :=
  match arrive with
  | [] => OutOfFuel
  | f :: arrive' =>
      do! (r, g) <- poll (set_driver g (set_rx (driver g) (f (rx (driver g)))));
      match r with
      | Err e => Ret (Err e, g)
      | Ok (Some event) => Ret (Ok event, g)
      | Ok None => wait_for_event arrive' g
      end
  end.
End manager.
