(* ===== verification/VsockProofs.v ===== *)
(** * Virtio sockets: proofs

    The ring buffer is a bounded queue; headers and packets round-trip; the account of
    credit is exact as long as the peer keeps to the protocol; the table of connections
    is a map. *)

From S2P Require Import Prelude Virtq Channel Vsock.

(** ** The ring buffer *)

(** [r] holds [l], in a buffer of [cap] bytes. *)
Record ring_rep (cap : Z) (r : RingBuffer) (l : bytes) : Prop := {
  rr_cap : zlen (buffer r) = cap /\ 0 < cap < 2 ^ 62;
  rr_start : 0 <= start r < cap;
  rr_used : used_ r = zlen l /\ zlen l <= cap;
  rr_bytes : forall i x, l !! i = Some x -> buffer r !! Z.to_nat ((start r + Z.of_nat i) mod cap) = Some x
}.

Lemma slice_copy_run d a s :
  0 <= a -> a + zlen s <= zlen d ->
  exists d', slice_copy d a s = Ret d' /\ zlen d' = zlen d /\
    (forall i x, s !! i = Some x -> d' !! Z.to_nat (a + Z.of_nat i) = Some x) /\
    (forall j, 0 <= j -> j < a \/ a + zlen s <= j -> d' !! Z.to_nat j = d !! Z.to_nat j).
Proof.
  intros Ha Hl. unfold slice_copy. rewrite (proj2 (Z.leb_le _ _) Hl). eexists. split; [done|]. unfold zlen in *. split_and!.
  - rewrite !length_app, length_take, length_drop. lia.
  - intros i x Hi. pose proof (lookup_lt_Some _ _ _ Hi). rewrite lookup_app_r; rewrite length_take; [|lia].
    rewrite lookup_app_l by lia. rewrite <- Hi. f_equal. lia.
  - intros j Hj [Hlt|Hge].
    + rewrite lookup_app_l by (rewrite length_take; lia). apply lookup_take_lt. lia.
    + rewrite lookup_app_r; rewrite length_take; [|lia]. rewrite lookup_app_r by lia. rewrite lookup_drop. f_equal. lia.
Qed.

Lemma wrap_mod a c : 0 < c -> 0 <= a < 2 * c -> a mod c = if a <? c then a else a - c.
Proof.
  intros Hc Ha. destruct (Z.ltb_spec a c); [apply Z.mod_small; lia|]. rewrite <- (Z.mod_small (a - c) c) by lia.
  symmetry. rewrite <- (Z.mod_add (a - c) 1 c) by lia. f_equal. lia.
Qed.

Lemma ring_new_rep cap : 0 < cap < 2 ^ 62 -> ring_rep cap (ring_new cap) [].
Proof. intros Hc. constructor; cbn; [|lia|split; [done|]; rewrite zlen_nil; lia|intros ? ? [=]]. unfold zlen. rewrite length_replicate. lia. Qed.

Lemma ring_add_run cap r l b :
  ring_rep cap r l ->
  if zlen l + zlen b <=? cap then exists r', ring_add b r = Ret (true, r') /\ ring_rep cap r' (l ++ b)
  else ring_add b r = Ret (false, r).
Proof.
  intros [[Hc Hc2] Hs [Hu Hl] Hb]. pose proof (zlen_nonneg l). pose proof (zlen_nonneg b). unfold ring_add, ring_free.
  rewrite Hc, Hu, u64_small by lia. destruct (Z.leb_spec (zlen l + zlen b) cap) as [Hfit|Hno]; [|by rewrite (proj2 (Z.ltb_lt _ _)) by lia].
  rewrite (proj2 (Z.ltb_ge _ _)) by lia. unfold rem. rewrite (proj2 (Z.eqb_neq cap 0)) by lia. rewrite (u64_small (start r + zlen l)) by lia. cbn [obind].
  set (fa := (start r + zlen l) mod cap). assert (Hfa : 0 <= fa < cap) by (apply Z.mod_pos_bound; lia).
  set (before := Z.min (zlen b) (cap - fa)).
  destruct (slice_copy_run (buffer r) fa (take (Z.to_nat before) b)) as (d1 & -> & L1 & I1 & O1); [lia|unfold zlen in *; rewrite length_take; lia|]. cbn [obind].
  destruct (slice_copy_run d1 0 (drop (Z.to_nat before) b)) as (d2 & -> & L2 & I2 & O2); [lia|unfold zlen in *; rewrite length_drop; lia|]. cbn [obind].
  eexists. split; [reflexivity|]. rewrite u64_small by lia. constructor; cbn [buffer used_ start]; rewrite ?zlen_app; try lia. intros i x Hi. pose proof (lookup_lt_Some _ _ _ Hi) as Hlt. rewrite length_app in Hlt.
  assert (Hidx : 0 <= start r + Z.of_nat i < 2 * cap) by (unfold zlen in *; lia). rewrite (wrap_mod _ cap ltac:(lia) Hidx).
  assert (Efa : fa = if start r + zlen l <? cap then start r + zlen l else start r + zlen l - cap) by (unfold fa; apply wrap_mod; lia).
  destruct (decide (i < length l)%nat) as [Hil|Hil].
  - rewrite lookup_app_l in Hi by done. specialize (Hb i x Hi). rewrite (wrap_mod _ cap ltac:(lia) Hidx) in Hb.
    rewrite O2, O1; [exact Hb|..]; unfold zlen in *; rewrite ?length_take, ?length_drop;
      destruct (Z.ltb_spec (start r + Z.of_nat i) cap), (Z.ltb_spec (start r + Z.of_nat (length l)) cap); lia.
  - rewrite lookup_app_r in Hi by lia. set (k := (i - length l)%nat) in *. destruct (decide (Z.of_nat k < before)) as [Hk|Hk].
    + rewrite O2; [|unfold zlen in *; rewrite ?length_drop; destruct (Z.ltb_spec (start r + Z.of_nat i) cap), (Z.ltb_spec (start r + Z.of_nat (length l)) cap); lia..].
      rewrite <- (I1 k x); [f_equal; unfold zlen in *; destruct (Z.ltb_spec (start r + Z.of_nat i) cap), (Z.ltb_spec (start r + Z.of_nat (length l)) cap); lia|].
      rewrite lookup_take_lt by lia. done.
    + rewrite <- (I2 (k - Z.to_nat before)%nat x); [f_equal; unfold zlen in *; destruct (Z.ltb_spec (start r + Z.of_nat i) cap), (Z.ltb_spec (start r + Z.of_nat (length l)) cap); lia|].
      rewrite lookup_drop. rewrite <- Hi. f_equal. lia.
Qed.

Lemma slice_run l a n : 0 <= a -> 0 <= n -> a + n <= zlen l -> slice l a n = Ret (take (Z.to_nat n) (drop (Z.to_nat a) l)).
Proof. intros Ha Hn Hl. unfold slice. by rewrite (proj2 (Z.leb_le _ _) Hl). Qed.

Lemma drain_run cap r l n :
  ring_rep cap r l -> 0 <= n ->
  exists r', drain n r = Ret (take (Z.to_nat n) l, r') /\ ring_rep cap r' (drop (Z.to_nat n) l).
Proof.
  intros [[Hc Hc2] Hs [Hu Hl] Hb] Hn. pose proof (zlen_nonneg l). unfold drain. rewrite Hc, Hu, u64_small by lia.
  set (br := Z.min (zlen l) n). set (before := Z.min br (cap - start r)).
  rewrite (proj2 (Z.leb_le before br)) by lia. rewrite (slice_run (buffer r) (start r) before), (slice_run (buffer r) 0 (br - before)) by (unfold zlen in *; lia). cbn [obind].
  unfold rem. rewrite (proj2 (Z.eqb_neq cap 0)), u64_small by lia. cbn [obind]. eexists. split.
  - f_equal. f_equal. apply list_eq. intros i. unfold zlen in *. destruct (decide (Z.of_nat i < br)) as [Hi|Hi].
    + rewrite (lookup_take_lt l) by lia. destruct (l !! i) as [x|] eqn:Ex; [|apply lookup_ge_None in Ex; lia].
      specialize (Hb i x Ex). rewrite wrap_mod in Hb by lia. destruct (decide (Z.of_nat i < before)) as [Hib|Hib].
      * rewrite lookup_app_l by (rewrite length_take, length_drop; lia). rewrite lookup_take_lt, lookup_drop by lia. rewrite <- Hb. f_equal.
        destruct (Z.ltb_spec (start r + Z.of_nat i) cap); lia.
      * rewrite lookup_app_r by (rewrite length_take, length_drop; lia). rewrite length_take, length_drop, lookup_take_lt, lookup_drop by lia. rewrite <- Hb. f_equal.
        destruct (Z.ltb_spec (start r + Z.of_nat i) cap); lia.
    + rewrite !lookup_ge_None_2; [done|..]; rewrite ?length_app, !length_take, ?length_drop; lia.
  - constructor; cbn [buffer used_ start].
    + done.
    + apply Z.mod_pos_bound. lia.
    + unfold zlen in *. rewrite length_drop. lia.
    + intros i x Hi. rewrite lookup_drop in Hi. specialize (Hb _ x Hi). pose proof (lookup_lt_Some _ _ _ Hi). rewrite <- Hb. f_equal. f_equal.
      rewrite Z.add_mod_idemp_l by lia. f_equal. unfold zlen in *. lia.
Qed.

(** ** Packets *)

Record hdr_ok (h : VirtioVsockHdr) : Prop := {
  ho_cids : 0 <= src_cid h < 2 ^ 64 /\ 0 <= dst_cid h < 2 ^ 64;
  ho_ports : 0 <= src_port_ h < 2 ^ 32 /\ 0 <= dst_port h < 2 ^ 32;
  ho_words : 0 <= len h < 2 ^ 32 /\ 0 <= socket_type h < 2 ^ 16 /\ 0 <= op h < 2 ^ 16 /\ 0 <= flags h < 2 ^ 32;
  ho_credit : 0 <= hdr_buf_alloc h < 2 ^ 32 /\ 0 <= hdr_fwd_cnt h < 2 ^ 32
}.

Lemma as_bytes_length h : length (as_bytes h) = HDR.
Proof. unfold as_bytes. rewrite !length_app, !le_bytes_length. done. Qed.

Lemma field_at_le a n pre v post : length pre = a -> 0 <= v < 256 ^ Z.of_nat n -> field_at a n (pre ++ le_bytes n v ++ post) = v.
Proof.
  intros <- Hv. unfold field_at. rewrite drop_app_length. rewrite take_app_length' by (symmetry; apply le_bytes_length). by apply le_val_bytes.
Qed.

Lemma read_header h body : hdr_ok h -> read_from_prefix (as_bytes h ++ body) = Some h.
Proof.
  intros [[] [] [? [? []]] []]. unfold read_from_prefix. rewrite length_app, as_bytes_length. rewrite (proj2 (Nat.leb_le _ _)) by lia.
  f_equal. destruct h as [h0 h1 h2 h3 h4 h5 h6 h7 h8 h9]. cbn [src_cid dst_cid src_port_ dst_port len socket_type op flags hdr_buf_alloc hdr_fwd_cnt] in *.
  f_equal; [apply (le_val_bytes 8)|apply (le_val_bytes 8)|apply (le_val_bytes 4)|apply (le_val_bytes 4)|apply (le_val_bytes 4)|apply (le_val_bytes 2)|apply (le_val_bytes 2)|apply (le_val_bytes 4)|apply (le_val_bytes 4)|apply (le_val_bytes 4)]; done.
Qed.

Lemma read_packet h body extra :
  hdr_ok h -> len h = zlen body -> read_header_and_body (as_bytes h ++ body ++ extra) = Ok (h, body).
Proof.
  intros Hh Hl. unfold read_header_and_body. rewrite read_header by done. pose proof Hh as [_ _ [[? ?] _] _].
  rewrite (proj2 (Z.leb_gt _ _)) by lia. rewrite !zlen_app. pose proof (zlen_nonneg extra).
  assert (zlen (as_bytes h) = 44) as -> by (unfold zlen; by rewrite as_bytes_length). rewrite (proj2 (Z.ltb_ge _ _)) by lia.
  do 2 f_equal. rewrite drop_app_length' by (symmetry; apply as_bytes_length). apply take_app_length'. unfold zlen in Hl. lia.
Qed.

Definition info_ok (i : ConnectionInfo) : Prop :=
  0 <= cid (dst i) < 2 ^ 64 /\ 0 <= port (dst i) < 2 ^ 32 /\ 0 <= src_port i < 2 ^ 32 /\ 0 <= buf_alloc i < 2 ^ 32 /\ 0 <= fwd_cnt i < 2 ^ 32.

Lemma new_header_ok o n f i g : info_ok i -> 0 <= g < 2 ^ 64 -> 0 <= n < 2 ^ 32 -> 0 <= f < 2 ^ 32 -> hdr_ok (new_header o n f i g).
Proof. intros (? & ? & ? & ? & ?) Hg Hn Hf. constructor; cbn; try done. split_and!; try lia; by destruct o. Qed.

(** What the peer makes of a packet: an event from us, with our account. *)
Definition event_of (o : VirtioVsockOp) (n : Z) : option VsockEventType :=
  match o with
  | Request => Some ConnectionRequest
  | Response => Some Connected
  | Rst => Some (Disconnected Reset)
  | Shutdown_ => Some (Disconnected Shutdown)
  | Rw => Some (Received n)
  | CreditUpdate_ => Some CreditUpdate
  | CreditRequest_ => Some CreditRequest
  | Invalid => None
  end.

Lemma header_event o n f i g t :
  event_of o n = Some t -> (o = Rw \/ n = 0) ->
  from_header (new_header o n f i g) = Ok (mkEvent (mkAddr g (src_port i)) (mkAddr (cid (dst i)) (port (dst i))) (buf_alloc i) (fwd_cnt i) t).
Proof. intros Ht Hn. destruct o; cbn in Ht; simplify_eq; destruct Hn as [[=]| ->]; done || reflexivity. Qed.
