(* ===== verification/VsockStream.v ===== *)
(** * Two ends of a virtio socket connection

    Two managers, one behind each end of a connection, and the packets on their way.
    The ends run the code of [Vsock.v]: one connects, the other listens; then both send,
    read, give credit and poll, in any order, while the devices deliver packets when
    they like, each direction in its order.  The run is shown to be two streams with
    flow control. *)

From S2P Require Import Prelude Virtq VirtqOwn Channel ChannelVirtq InboxVirtq Vsock VsockProofs.

(** The device of a transmit queue: the packets it was given. *)
#[export] Instance Wire : Device := {| device := list bytes; serve ins ns d := (0, (fun _ => []) <$> ns, d ++ [mjoin ins]) |}.

Section stream.
Context {SIZE : Z} {HC : Channel} {HO : ChannelOk SIZE} {HI : Inbox} {HA : Arrivals} {HIO : InboxOk}.
Context (HSIZE : 2 <= SIZE).

(** The ends are named by a [bool]: their addresses and capacities. *)
Context (addr : bool -> VsockAddr) (cap : bool -> Z).
Hypothesis addr_ok : forall b, 0 <= cid (addr b) < 2 ^ 64 /\ 0 <= port (addr b) < 2 ^ 32.
Hypothesis cap_ok : forall b, 0 < cap b < 2 ^ 32.

(** [taken b]: how many of the packets of end [b] reached the other's receive queue.
    [sent], [got]: what [send] accepted and [recv] returned; [errors]: of any call, but
    for want of credit or of the connection. *)
Record system := mkSys {
  mgr : bool -> VsockConnectionManager;
  taken : bool -> nat;
  sent : bool -> bytes;
  got : bool -> bytes;
  errors : list Error
}.

Inductive event := Send (b : bool) (data : bytes) | Recv (b : bool) (n : Z) | Credit (b : bool) | Poll (b : bool) | Arrive (b : bool).

Definition upd {A} (f : bool -> A) (b : bool) (x : A) : bool -> A := fun b' => if Bool.eqb b b' then x else f b'.
Definition error_of {A} (r : Result A) : list Error :=
  match r with
  | Ok _ | Err (SocketDeviceError InsufficientBufferSpaceInPeer) | Err (SocketDeviceError NotConnected) => []
  | Err e => [e]
  end.

Definition step (e : event) (s : system) : outcome system :=
  match e with
  | Send b data =>
      do! (r, g) <- send (addr (negb b)) (port (addr b)) data (mgr s b);
      Ret (mkSys (upd (mgr s) b g) (taken s) (match r with Ok _ => upd (sent s) b (sent s b ++ data) | Err _ => sent s end) (got s) (errors s ++ error_of r))
  | Recv b n =>
      do! (r, g) <- recv (addr (negb b)) (port (addr b)) n (mgr s b);
      Ret (mkSys (upd (mgr s) b g) (taken s) (sent s) (match r with Ok data => upd (got s) b (got s b ++ data) | Err _ => got s end) (errors s ++ error_of r))
  | Credit b =>
      do! (r, g) <- update_credit (addr (negb b)) (port (addr b)) (mgr s b);
      Ret (mkSys (upd (mgr s) b g) (taken s) (sent s) (got s) (errors s ++ error_of r))
  | Poll b =>
      do! (r, g) <- poll (mgr s b);
      Ret (mkSys (upd (mgr s) b g) (taken s) (sent s) (got s) (errors s ++ error_of r))
  | Arrive b =>
      (** the next packet of the other end *)
      let g := mgr s b in
      match behind (tx (driver (mgr s (negb b)))) !! taken s (negb b) with
      | None => Ret s
      | Some p =>
          match inbox_arrive p (rx (driver g)) with
          | None => Ret s
          | Some i => Ret (mkSys (upd (mgr s) b (set_driver g (set_rx (driver g) i))) (upd (taken s) (negb b) (S (taken s (negb b)))) (sent s) (got s) (errors s))
          end
      end
  end.
Fixpoint run (es : list event) (s : system) : outcome system :=
  match es with [] => Ret s | e :: es' => do! s <- step e s; run es' s end.

(** ** The invariant *)

(** A packet of end [b]: after it had read [f] bytes. *)
Definition packet (b : bool) (o : VirtioVsockOp) (body : bytes) (f : Z) : bytes :=
  as_bytes (mkHdr (cid (addr b)) (cid (addr (negb b))) (port (addr b)) (port (addr (negb b))) (zlen body) 1 (op_u16 o) 0 (cap b) (u32 f)) ++ body.

Record pkt := mkPkt { p_op : VirtioVsockOp; p_body : bytes; p_f : Z }.
Definition wire_of (b : bool) (p : pkt) : bytes := packet b (p_op p) (p_body p) (p_f p).
Definition pkt_ok (p : pkt) : Prop :=
  zlen (p_body p) < 2 ^ 32 /\ match p_op p with Rw => True | Response | CreditUpdate_ | CreditRequest_ => p_body p = [] | _ => False end.

(** The packets of an end on their way, oldest first: the counts grow from [lo] to [hi]. *)
Fixpoint counts (lo : Z) (ps : list pkt) (hi : Z) : Prop :=
  match ps with [] => lo <= hi | p :: ps' => lo <= p_f p /\ counts (p_f p) ps' hi end.
Definition bodies (ps : list pkt) : bytes := mjoin (p_body <$> ps).

(** The connection of an end, whose ring holds [R]: [snt] and [gt] are what it sent and
    what it read, [F] and [K] the count and the capacity of the other it last heard of. *)
Record conn_inv (b : bool) (g : VsockConnectionManager) (snt gt : bytes) (R : bytes) (F K : Z) (c : Connection) : Prop := {
  ci_conns : connections g = [c];
  ci_addr : dst (info c) = addr (negb b) /\ src_port (info c) = port (addr b);
  ci_own : buf_alloc (info c) = cap b /\ fwd_cnt (info c) = u32 (zlen gt) /\ tx_cnt (info c) = u32 (zlen snt);
  ci_peer : peer_buf_alloc (info c) = K /\ peer_fwd_cnt (info c) = u32 F;
  ci_ring : ring_rep (cap b) (ring c) R;
  ci_open : peer_requested_shutdown c = false;
  ci_credit : 0 <= F /\ (K = 0 \/ K = cap (negb b)) /\ F <= zlen snt <= F + K
}.

Record mgr_ok (b : bool) (g : VsockConnectionManager) : Prop := {
  mo_chan : chan_ok (tx (driver g));
  mo_cid : guest_cid (driver g) = cid (addr b);
  mo_cap : per_connection_buffer_capacity g = cap b
}.

(** Packets on their way from end [b]: in the receive queue of the other or before. *)
Definition way (b : bool) (i : inbox) (c : chan) (n : nat) (ps : list pkt) : Prop :=
  (n <= length (behind c))%nat /\ exists waiting, holds i waiting /\ waiting ++ drop n (behind c) = wire_of b <$> ps.

(** ** Calls of an end that has its connection *)

Lemma send_packet h buf (s : VirtIOSocket) :
  chan_ok (tx s) -> zlen buf < 2 ^ 32 ->
  exists c, send_packet_to_tx_queue h buf s = Ret (Ok tt, set_tx s c) /\ chan_ok c /\ behind c = behind (tx s) ++ [as_bytes h ++ buf].
Proof using HSIZE.
  intros Hc Hb. unfold send_packet_to_tx_queue. assert (Hl : zlen (as_bytes h) = 44) by (unfold zlen; by rewrite as_bytes_length).
  set (ins := match buf with [] => _ | _ => _ end).
  assert (Hr : request_ok SIZE ins []) by (destruct buf as [|x buf]; split; unfold zlen in *; cbn in *; [lia|repeat constructor; lia|lia|repeat constructor; cbn; lia]).
  pose proof (rpc_ok ins [] (tx s) Hc Hr) as (c & -> & Hc' & Hd). cbn [obind]. exists c. split; [done|]. split; [done|]. rewrite Hd. do 2 f_equal.
  destruct buf; cbn; by rewrite ?app_nil_r.
Qed.

(** The header an end makes is the one of its packets. *)
Lemma header_packet b g snt gt R F K c o body :
  conn_inv b g snt gt R F K c -> mgr_ok b g ->
  as_bytes (new_header o (zlen body) 0 (info c) (guest_cid (driver g))) ++ body = wire_of b (mkPkt o body (zlen gt)).
Proof.
  intros [_ [E1 E2] (E3 & E4 & _) _ _ _ _] [_ E5 _]. unfold new_header, wire_of, packet. cbn [p_op p_body p_f]. by rewrite E1, E2, E3, E4, E5.
Qed.

(** What a call of end [b] does besides: [new] are the packets it sends. *)
Record called (b : bool) (g g' : VsockConnectionManager) (count : Z) (new : list pkt) : Prop := {
  cl_ok : mgr_ok b g';
  cl_rx : rx (driver g') = rx (driver g);
  cl_tx : behind (tx (driver g')) = behind (tx (driver g)) ++ (wire_of b <$> new);
  cl_ports : listening_ports g' = listening_ports g;
  cl_new : Forall (fun p => pkt_ok p /\ p_f p = count) new
}.

Lemma called_none b g g' n :
  mgr_ok b g' -> driver g' = driver g -> listening_ports g' = listening_ports g -> called b g g' n [].
Proof. intros Hm Hd Hl. constructor; rewrite ?Hd; try done. by rewrite app_nil_r. Qed.

Lemma called_conns b g g' n new l : called b g g' n new -> called b g (set_connections g' l) n new.
Proof. intros [[] ? ? ? ?]. by constructor. Qed.

Lemma find_single f c : f c = true -> find_conn f [c] = Some (0%nat, c).
Proof. intros Hf. unfold find_conn. cbn. by rewrite Hf. Qed.

Lemma get_conn b g snt gt R F K c :
  conn_inv b g snt gt R F K c -> get_connection (connections g) (addr (negb b)) (port (addr b)) = Ok (0%nat, c).
Proof.
  intros [E [E1 E2] _ _ _ _ _]. unfold get_connection. rewrite E, find_single; [done|]. unfold is_conn.
  rewrite E1, E2, bool_decide_eq_true_2, Z.eqb_refl by done. done.
Qed.

(** The account of credit is exact, also when the counters wrap. *)
Lemma peer_free_exact b g snt gt R F K c :
  conn_inv b g snt gt R F K c -> peer_free (info c) = K - (zlen snt - F).
Proof using cap_ok.
  intros [_ _ (_ & _ & Et) [Eb Ef] _ _ (HF & HK & Hs)]. unfold peer_free. rewrite Et, Eb, Ef. pose proof (cap_ok (negb b)).
  assert (HK2 : 0 <= K < 2 ^ 32) by (destruct HK as [-> | ->]; lia).
  unfold u32. rewrite <- Zminus_mod. rewrite (Z.mod_small (zlen snt - F)) by lia. apply Z.mod_small. lia.
Qed.

(** A control packet of the connection. *)
Lemma control_run b g snt gt R F K c o :
  conn_inv b g snt gt R F K c -> mgr_ok b g -> pkt_ok (mkPkt o [] (zlen gt)) ->
  exists s', control o 0 (info c) (driver g) = Ret (Ok tt, s') /\ called b g (set_driver g s') (zlen gt) [mkPkt o [] (zlen gt)].
Proof using HSIZE.
  intros Hi Hm Hp. pose proof Hm as [M1 M2 M3]. unfold control.
  destruct (send_packet (new_header o 0 0 (info c) (guest_cid (driver g))) [] (driver g) M1 ltac:(done)) as (ch & -> & Hc & Hd).
  eexists. split; [done|]. pose proof (header_packet b g snt gt R F K c o [] Hi Hm) as Eh. rewrite zlen_nil in Eh. rewrite Eh in Hd.
  constructor; cbn; try done. apply Forall_singleton. split; [exact Hp|done].
Qed.

Lemma send_run b g snt gt R F K c data :
  conn_inv b g snt gt R F K c -> mgr_ok b g ->
  exists r g' new c', send (addr (negb b)) (port (addr b)) data g = Ret (r, g') /\ called b g g' (zlen gt) new /\
    if zlen data <=? K - (zlen snt - F) then r = Ok tt /\ bodies new = data /\ conn_inv b g' (snt ++ data) gt R F K c'
    else r = Err (SocketDeviceError InsufficientBufferSpaceInPeer) /\ bodies new = [] /\ conn_inv b g' snt gt R F K c'.
Proof using HSIZE cap_ok.
  intros Hi Hm. pose proof Hm as [M1 M2 M3]. unfold send. rewrite (get_conn _ _ _ _ _ _ _ _ Hi). unfold send_, check_peer_buffer_is_sufficient.
  rewrite (peer_free_exact _ _ _ _ _ _ _ _ Hi). pose proof (zlen_nonneg data) as Hd0. pose proof (cap_ok (negb b)) as Hcap.
  destruct (Z.leb_spec (zlen data) (K - (zlen snt - F))) as [Hfit|Hno].
  - cbn [obind]. pose proof Hi as [I1 I2 (I3 & I4 & I5) I6 I7 I8 (I9 & I10 & I11)]. assert (Hdl : zlen data < 2 ^ 32) by (destruct I10; lia).
    rewrite (u32_small (zlen data)) by lia.
    destruct (send_packet (new_header Rw (zlen data) 0 (info c) (guest_cid (driver g))) data (driver g) M1 Hdl) as (ch & -> & Hc & Hd). cbn [obind].
    rewrite (header_packet b g snt gt R F K c Rw data Hi Hm) in Hd. eexists _, _, [mkPkt Rw data (zlen gt)], _. split; [done|]. split.
    { constructor; cbn; try done. apply Forall_singleton. by split. }
    split; [done|]. split; [cbn; by rewrite app_nil_r|]. rewrite I1. constructor; cbn; try done.
    + split_and!; try done. rewrite I5, zlen_app. unfold u32. by rewrite Zplus_mod_idemp_l.
    + rewrite zlen_app. split_and!; try done; lia.
  - destruct (has_pending_credit_request (info c)) eqn:Ep.
    + cbn [obind]. eexists _, _, [], _. split; [done|]. split; [by apply called_none|]. split_and!; try done.
      destruct Hi as [I1 I2 I3 I4 I5 I6 I7]. rewrite I1. by constructor.
    + destruct (control_run b g snt gt R F K c CreditRequest_ Hi Hm ltac:(done)) as (s' & Es & Hcl). change request_credit with (control CreditRequest_ 0). rewrite Es. cbn [obind].
      eexists _, _, _, _. split; [done|]. split; [exact (called_conns _ _ _ _ _ _ Hcl)|]. split_and!; try done.
      destruct Hi as [I1 I2 I3 I4 I5 I6 I7]. rewrite I1. by constructor.
Qed.

Lemma recv_run b g snt gt R F K c n :
  conn_inv b g snt gt R F K c -> mgr_ok b g -> 0 <= n ->
  exists g' c', recv (addr (negb b)) (port (addr b)) n g = Ret (Ok (take (Z.to_nat n) R), g') /\
    called b g g' (zlen (gt ++ take (Z.to_nat n) R)) [] /\ conn_inv b g' snt (gt ++ take (Z.to_nat n) R) (drop (Z.to_nat n) R) F K c'.
Proof.
  intros Hi Hm Hn. unfold recv. rewrite (get_conn _ _ _ _ _ _ _ _ Hi). destruct Hi as [I1 I2 (I3 & I4 & I5) I6 I7 I8 I9].
  destruct (drain_run _ _ _ n I7 Hn) as (r' & -> & Hr). cbn [obind peer_requested_shutdown]. rewrite I8. cbn [andb].
  eexists _, _. split; [done|]. split; [destruct Hm; by apply called_none|]. rewrite I1. constructor; cbn; try done.
  split_and!; try done. cbn [info done_forwarding fwd_cnt]. rewrite I4, zlen_app. unfold u32. by rewrite <- Zplus_mod.
Qed.

Lemma credit_run b g snt gt R F K c :
  conn_inv b g snt gt R F K c -> mgr_ok b g ->
  exists g', update_credit (addr (negb b)) (port (addr b)) g = Ret (Ok tt, g') /\
    called b g g' (zlen gt) [mkPkt CreditUpdate_ [] (zlen gt)] /\ conn_inv b g' snt gt R F K c.
Proof using HSIZE.
  intros Hi Hm. unfold update_credit, on_conn. rewrite (get_conn _ _ _ _ _ _ _ _ Hi).
  destruct (control_run b g snt gt R F K c CreditUpdate_ Hi Hm ltac:(done)) as (s' & Es & Hcl). change credit_update with (control CreditUpdate_ 0). rewrite Es. cbn [obind].
  eexists. split; [done|]. split; [done|]. destruct Hi. by constructor.
Qed.

(** ** Polling *)

Definition with_rx (g : VsockConnectionManager) (i : inbox) : VsockConnectionManager := set_driver g (set_rx (driver g) i).

(** The event a packet of the other end [b] is. *)
Definition event_from (b : bool) (f : Z) (t : VsockEventType) : VsockEvent := mkEvent (addr b) (addr (negb b)) (cap b) (u32 f) t.

Lemma packet_header_ok b o (body : bytes) f :
  zlen body < 2 ^ 32 ->
  hdr_ok (mkHdr (cid (addr b)) (cid (addr (negb b))) (port (addr b)) (port (addr (negb b))) (zlen body) 1 (op_u16 o) 0 (cap b) (u32 f)).
Proof using addr_ok cap_ok.
  intros Hb. destruct (addr_ok b), (addr_ok (negb b)). pose proof (cap_ok b). pose proof (zlen_nonneg body).
  constructor; cbn; split_and!; try lia; try (by destruct o); apply Z.mod_pos_bound; lia.
Qed.

(** [poll] once the first waiting packet is read. *)
Lemma poll_first b g p ps t :
  mgr_ok b g -> holds (rx (driver g)) (wire_of (negb b) p :: ps) -> zlen (p_body p) < 2 ^ 32 ->
  event_of (p_op p) (zlen (p_body p)) = Some t -> (p_op p = Rw \/ p_body p = []) ->
  let e := event_from (negb b) (p_f p) t in
  forall r conns, on_event (cid (addr b)) (cap b) e (p_body p) (connections g) = Ret (r, conns) ->
  exists i, holds i ps /\ let g1 := set_connections (with_rx g i) conns in
    poll g = match r with Err x => Ret (Err x, g1) | Ok None => Ret (Ok None, g1) | Ok (Some ev) => after_event ev g1 end.
Proof using addr_ok cap_ok.
  intros [M1 M2 M3] Hh Hb Ht Ho e r conns Hev. unfold poll, poll_. rewrite M2, M3.
  match goal with |- context [inbox_poll ?h _ _] => destruct (inbox_poll_first h (connections g) conns r (rx (driver g)) (wire_of (negb b) p) ps Hh) as (i & Ei & Hi) end.
  { unfold wire_of, packet. pose proof (packet_header_ok (negb b) (p_op p) (p_body p) (p_f p) Hb) as Hok.
    match type of Hok with hdr_ok ?hdr => pose proof (read_packet hdr (p_body p) [] Hok eq_refl) as Erd; rewrite app_nil_r in Erd; rewrite Erd; assert (Ef : from_header hdr = Ok e) end.
    { unfold from_header, e, event_from. cbn [op]. rewrite (negb_involutive b). destruct (p_op p); cbn in Ht; simplify_eq; cbn; destruct Ho as [[=]|Ho]; rewrite ?Ho; cbn; by destruct (addr (negb b)), (addr b). }
    rewrite Ef. exact Hev. }
  exists i. split; [exact Hi|]. rewrite Ei. cbn [obind]. destruct r as [[]|]; reflexivity.
Qed.

Lemma matches b c f t : dst (info c) = addr (negb b) /\ src_port (info c) = port (addr b) ->
  matches_connection (event_from (negb b) f t) (info c) (cid (addr b)) = true.
Proof. intros [E1 E2]. unfold matches_connection, event_from. cbn. rewrite negb_involutive, E1, E2, bool_decide_eq_true_2, !Z.eqb_refl by done. done. Qed.

Lemma found_for_event b conns c f t :
  conns = [c] -> dst (info c) = addr (negb b) /\ src_port (info c) = port (addr b) ->
  get_connection_for_event conns (event_from (negb b) f t) (cid (addr b)) = Some (0%nat, c).
Proof. intros -> Ha. unfold get_connection_for_event. rewrite find_single; [done|]. by apply matches. Qed.

(** The account after an event. *)
Lemma conn_inv_update b g g' snt gt R F K c c' r f pend :
  conn_inv b g snt gt R F K c -> F <= f <= zlen snt -> 
  connections g' = [c'] -> ring_rep (cap b) (ring c') r -> peer_requested_shutdown c' = false ->
  info c' = mkInfo (dst (info c)) (src_port (info c)) (cap (negb b)) (u32 f) (tx_cnt (info c)) (buf_alloc (info c)) (fwd_cnt (info c)) pend ->
  conn_inv b g' snt gt r f (cap (negb b)) c'.
Proof using cap_ok.
  intros [I1 I2 I3 I4 I5 I6 (I7 & I8 & I9)] Hf Hc Hr Hs Ei. pose proof (cap_ok (negb b)). constructor; rewrite ?Ei; cbn; try done.
  split_and!; destruct I8; lia.
Qed.

Definition is_reply (o : VirtioVsockOp) : bool := match o with CreditRequest_ => true | _ => false end.

(** A packet for a connection. *)
Lemma poll_packet b g snt gt R F K c p ps :
  conn_inv b g snt gt R F K c -> mgr_ok b g -> holds (rx (driver g)) (wire_of (negb b) p :: ps) -> pkt_ok p ->
  F <= p_f p <= zlen snt -> zlen R + zlen (p_body p) <= cap b ->
  exists r g' i c', poll g = Ret (r, g') /\ error_of r = [] /\ holds i ps /\
    called b (with_rx g i) g' (zlen gt) (if is_reply (p_op p) then [mkPkt CreditUpdate_ [] (zlen gt)] else []) /\
    conn_inv b g' snt gt (R ++ p_body p) (p_f p) (cap (negb b)) c'.
Proof using HSIZE addr_ok cap_ok.
  intros Hi Hm Hh [Hb Hop] Hf Hfit. pose proof Hi as [I1 I2 I3 I4 I5 I6 I7].
  assert (exists t, event_of (p_op p) (zlen (p_body p)) = Some t /\ t <> ConnectionRequest /\ (forall x, t <> Disconnected x) /\ (t = CreditRequest <-> p_op p = CreditRequest_) /\
    (forall n, t = Received n <-> p_op p = Rw /\ n = zlen (p_body p)) /\ (p_op p = Rw \/ p_body p = [])) as (t & Ht & T1 & T2 & T3 & T4 & Ho).
  { destruct (p_op p); try done; eexists; (split; [reflexivity|]); repeat split; intros; try done; simplify_eq; try tauto; naive_solver. }
  set (e := event_from (negb b) (p_f p) t).
  assert (exists r' c1, on_event (cid (addr b)) (cap b) e (p_body p) (connections g) = Ret (Ok (Some e), [c1]) /\ ring_rep (cap b) r' (R ++ p_body p) /\ ring c1 = r' /\
    peer_requested_shutdown c1 = false /\ exists pend, info c1 = mkInfo (dst (info c)) (src_port (info c)) (cap (negb b)) (u32 (p_f p)) (tx_cnt (info c)) (buf_alloc (info c)) (fwd_cnt (info c)) pend)
    as (r' & c1 & Eev & Hr & Er & Hsd & pend & Ein).
  { unfold on_event. unfold e at 1. rewrite (found_for_event b _ c) by done. destruct (decide (p_op p = Rw)) as [Erw|Erw].
    - destruct (T4 (zlen (p_body p))) as [_ T4']. specialize (T4' (conj Erw eq_refl)). unfold e. cbn [event_type event_from]. rewrite T4'.
      pose proof (ring_add_run (cap b) (ring c) R (p_body p) I5) as Hadd. rewrite (proj2 (Z.leb_le _ _) Hfit) in Hadd. destruct Hadd as (r' & Eadd & Hr).
      cbn [ring set_info]. rewrite Eadd. cbn [obind]. rewrite I1. eexists r', _. split; [reflexivity|]. split_and!; try done. by eexists.
    - assert (p_body p = []) as Eb by (by destruct Ho). rewrite Eb, app_nil_r. exists (ring c), (set_info c (update_for_event e (info c))).
      rewrite I1. split; [|by split_and!; [..|eexists]]. cbn [event_type e event_from]. destruct t; try done. exfalso. apply Erw. by apply (T4 length). }
  destruct (poll_first b g p ps t Hm Hh Hb Ht Ho _ _ Eev) as (i & Hhi & Ep). fold e in Ep. rewrite Ep. clear Ep.
  set (g1 := set_connections (with_rx g i) [c1]). assert (Hi1 : conn_inv b g1 snt gt (R ++ p_body p) (p_f p) (cap (negb b)) c1) by (eapply conn_inv_update; [exact Hi|done|done|by rewrite Er|done|exact Ein]).
  assert (Hm1 : mgr_ok b g1) by (destruct Hm; by constructor). unfold after_event. unfold e at 1.
  assert (guest_cid (driver g1) = cid (addr b)) as -> by apply Hm1. rewrite (found_for_event b _ c1) by (apply Hi1 || done). cbn [event_type e event_from].
  assert (Hc0 : called b (with_rx g i) g1 (zlen gt) []) by (by apply called_none).
  destruct (decide (p_op p = CreditRequest_)) as [Ecr|Ecr].
  - rewrite (proj2 T3 Ecr), Ecr. cbn [is_reply]. destruct (control_run b g1 snt gt _ _ _ c1 CreditUpdate_ Hi1 Hm1 ltac:(done)) as (s' & Es & Hcl). change credit_update with (control CreditUpdate_ 0). rewrite Es. cbn [obind].
    eexists _, _, i, c1. split; [reflexivity|]. split_and!; [done|done| |destruct Hi1; by constructor]. destruct Hcl. by constructor.
  - assert (is_reply (p_op p) = false) as -> by (by destruct (p_op p)). exists (Ok (Some e)), g1, i, c1. split; [|by split_and!]. destruct t; try done; [by destruct (T2 reason)|]. destruct Ecr. by apply T3.
Qed.

(** The request of the other end, when we listen and have no connection yet. *)
Lemma poll_request b g ps :
  connections g = [] -> mgr_ok b g -> port (addr b) ∈ listening_ports g ->
  holds (rx (driver g)) (wire_of (negb b) (mkPkt Request [] 0) :: ps) ->
  exists r g' i c', poll g = Ret (r, g') /\ error_of r = [] /\ holds i ps /\
    called b (with_rx g i) g' 0 [mkPkt Response [] 0] /\ conn_inv b g' [] [] [] 0 (cap (negb b)) c'.
Proof using HSIZE addr_ok cap_ok.
  intros Hc Hm Hl Hh. set (e := event_from (negb b) 0 ConnectionRequest). pose proof (cap_ok b) as Hcap.
  set (c1 := set_info (conn_new (addr (negb b)) (port (addr b)) (cap b)) (update_for_event e (info (conn_new (addr (negb b)) (port (addr b)) (cap b))))).
  assert (Eev : on_event (cid (addr b)) (cap b) e [] (connections g) = Ret (Ok (Some e), [c1])).
  { unfold on_event. rewrite Hc. cbn. by rewrite negb_involutive, Z.eqb_refl. }
  destruct (poll_first b g (mkPkt Request [] 0) ps ConnectionRequest Hm Hh ltac:(done) eq_refl ltac:(by right) _ _ Eev) as (i & Hhi & Ep). rewrite Ep. clear Ep.
  set (g1 := set_connections (with_rx g i) [c1]).
  assert (Hi1 : conn_inv b g1 [] [] [] 0 (cap (negb b)) c1).
  { pose proof (cap_ok (negb b)). constructor; try done; [by apply ring_new_rep; lia|]. unfold zlen. cbn. split_and!; lia. }
  assert (Hm1 : mgr_ok b g1) by (destruct Hm; by constructor). unfold after_event. unfold e at 1.
  assert (guest_cid (driver g1) = cid (addr b)) as -> by apply Hm1. rewrite (found_for_event b _ c1) by done.
  cbn [event_type e event_from ev_destination]. rewrite negb_involutive, bool_decide_eq_true_2 by done.
  destruct (control_run b g1 [] [] [] 0 (cap (negb b)) c1 Response Hi1 Hm1 ltac:(done)) as (s' & Es & Hcl). change accept_ with (control Response 0). rewrite Es. cbn [obind].
  eexists _, _, i, c1. split; [reflexivity|]. split_and!; [done|done| |by destruct Hi1; constructor]. destruct Hcl. by constructor.
Qed.

(** ** The whole run *)

Lemma upd_eq {A} (f : bool -> A) b x : upd f b x b = x.
Proof. by destruct b. Qed.
Lemma upd_ne {A} (f : bool -> A) b x : upd f b x (negb b) = f (negb b).
Proof. by destruct b. Qed.
Lemma upd_ne' {A} (f : bool -> A) b x : upd f (negb b) x b = f b.
Proof. by destruct b. Qed.

Lemma counts_app lo ps hi hi' new :
  counts lo ps hi -> hi <= hi' -> Forall (fun p => pkt_ok p /\ p_f p = hi') new -> counts lo (ps ++ new) hi'.
Proof.
  revert lo. induction ps as [|p ps IH]; intros lo Hc Hh Hn; cbn in *; [|by destruct Hc; eauto].
  assert (lo <= hi') as Hlo by lia. clear Hc Hh. revert lo Hlo. induction Hn as [|p new [_ <-] _ IH]; intros lo Hlo; cbn; auto with lia.
Qed.

Lemma counts_bound lo p ps hi : counts lo (p :: ps) hi -> lo <= p_f p <= hi /\ counts (p_f p) ps hi.
Proof.
  intros [Hlo Hc]. split; [|done]. split; [done|]. clear Hlo. cbn in Hc. revert Hc. generalize (p_f p). induction ps as [|q ps IH]; intros x Hc; cbn in Hc; [done|]. destruct Hc as [H1 H2]. specialize (IH _ H2). lia.
Qed.

Lemma bodies_app l k : bodies (l ++ k) = bodies l ++ bodies k.
Proof. unfold bodies. by rewrite fmap_app, join_app. Qed.

(** Packets leave: the way grows. *)
Lemma way_send b i c c' n ps new :
  way b i c n ps -> behind c' = behind c ++ (wire_of b <$> new) -> way b i c' n (ps ++ new).
Proof.
  intros (Hn & w & Hw & E) Ec. split; [rewrite Ec, length_app; lia|]. exists w. split; [done|].
  rewrite Ec, drop_app_le, app_assoc, E, fmap_app by done. done.
Qed.

(** The device delivers the next one. *)
Lemma way_arrive b i i' c n p ps :
  way b i c n ps -> behind c !! n = Some p -> inbox_arrive p i = Some i' -> way b i' c (S n) ps.
Proof.
  intros (Hn & w & Hw & E) Hp Hi. split; [by apply lookup_lt_Some in Hp|]. exists (w ++ [p]). split.
  - pose proof (arrive_ok i w p Hw) as Ha. by rewrite Hi in Ha.
  - rewrite <- E, <- app_assoc. f_equal. cbn. symmetry. by apply drop_S.
Qed.

(** One direction. *)
Record flow (b : bool) (i : inbox) (c : chan) (n : nat) (snt gt gt' R : bytes) (F : Z) (ps : list pkt) : Prop := {
  fl_way : way b i c n ps;
  fl_ok : Forall pkt_ok ps;
  fl_counts : counts F ps (zlen gt);
  fl_bytes : snt = gt' ++ R ++ bodies ps
}.

Definition flow_of (s : system) (b : bool) : bytes -> Z -> list pkt -> Prop :=
  flow b (rx (driver (mgr s (negb b)))) (tx (driver (mgr s b))) (taken s b) (sent s b) (got s b) (got s (negb b)).

Definition both (s : system) : Prop :=
  exists (R : bool -> bytes) (F K : bool -> Z) (c : bool -> Connection) (ps : bool -> list pkt), forall b,
    conn_inv b (mgr s b) (sent s b) (got s b) (R b) (F b) (K b) (c b) /\ flow_of s b (R (negb b)) (F (negb b)) (ps b).

Record half (a : bool) (s : system) : Prop := {
  ha_conn : exists c, conn_inv a (mgr s a) [] [] [] 0 0 c;
  ha_none : connections (mgr s (negb a)) = [] /\ port (addr (negb a)) ∈ listening_ports (mgr s (negb a));
  ha_idle : forall b, sent s b = [] /\ got s b = [];
  ha_way : exists ps, way a (rx (driver (mgr s (negb a)))) (tx (driver (mgr s a))) (taken s a) (mkPkt Request [] 0 :: ps) /\
    Forall (fun p => pkt_ok p /\ p_f p = 0) ps /\ bodies ps = [];
  ha_back : way (negb a) (rx (driver (mgr s a))) (tx (driver (mgr s (negb a)))) (taken s (negb a)) []
}.

Definition inv (s : system) : Prop := errors s = [] /\ (forall b, mgr_ok b (mgr s b)) /\ (both s \/ exists a, half a s).

Lemma with_rx_same g : with_rx g (rx (driver g)) = g.
Proof. by destruct g as [[]]. Qed.

Lemma both_call s s' b i new R F K c ps R' F' K' c' ps' :
  (forall b, conn_inv b (mgr s b) (sent s b) (got s b) (R b) (F b) (K b) (c b) /\ flow_of s b (R (negb b)) (F (negb b)) (ps b)) ->
  mgr s' (negb b) = mgr s (negb b) -> sent s' (negb b) = sent s (negb b) -> got s' (negb b) = got s (negb b) -> taken s' = taken s ->
  called b (with_rx (mgr s b) i) (mgr s' b) (zlen (got s' b)) new ->
  conn_inv b (mgr s' b) (sent s' b) (got s' b) R' F' K' c' ->
  sent s' b = sent s b ++ bodies new -> zlen (got s b) <= zlen (got s' b) ->
  flow (negb b) i (tx (driver (mgr s (negb b)))) (taken s (negb b)) (sent s (negb b)) (got s (negb b)) (got s' b) R' F' ps' ->
  both s'.
Proof.
  intros Hs Em Es Eg Et [C1 C2 C3 C4 C5] Hc Hsent Hgot Hin. exists (upd R b R'), (upd F b F'), (upd K b K'), (upd c b c'), (upd (upd ps b (ps b ++ new)) (negb b) ps').
  assert (Hb : forall b0, b0 = b \/ b0 = negb b) by (intros [] ; destruct b; auto). destruct (Hs b) as [_ [W1 W2 W3 W4]]. destruct (Hs (negb b)) as [Hc2 _].
  intros b0. destruct (Hb b0) as [-> | ->].
  - rewrite upd_ne', !upd_eq, !upd_ne. split; [done|]. unfold flow_of. rewrite Em, Eg, Et. constructor.
    + by eapply way_send.
    + apply Forall_app. split; [done|]. eapply Forall_impl; [exact C5|]. by intros ? [].
    + by eapply counts_app.
    + by rewrite Hsent, W4, bodies_app, <- !app_assoc.
  - rewrite !negb_involutive, !upd_eq, !upd_ne, Em, Es, Eg. split; [done|]. unfold flow_of. rewrite negb_involutive, Em, Es, Eg, Et, C2. cbn [rx set_rx driver with_rx set_driver]. exact Hin.
Qed.

(** The packets for end [b] fit its ring. *)
Lemma fits s b R F K c ps :
  (forall b, conn_inv b (mgr s b) (sent s b) (got s b) (R b) (F b) (K b) (c b) /\ flow_of s b (R (negb b)) (F (negb b)) (ps b)) ->
  zlen (R b) + zlen (bodies (ps (negb b))) <= cap b /\ zlen (got s (negb b)) <= zlen (sent s b).
Proof using cap_ok.
  intros Hs. destruct (Hs b) as [_ [_ _ X3 X4]]. destruct (Hs (negb b)) as [[_ _ _ _ _ _ (C1 & C2 & C3)] [_ _ W3 W4]].
  rewrite negb_involutive in *. assert (zlen (sent s (negb b)) = zlen (got s b) + (zlen (R b) + zlen (bodies (ps (negb b))))) as Hl by (by rewrite W4, !zlen_app).
  assert (F (negb b) <= zlen (got s b)).
  { clear -X3. destruct (ps b) as [|p l]; [done|]. apply counts_bound in X3 as [? _]. lia. }
  pose proof (cap_ok b). split; [destruct C2 as [E|E]; lia|]. rewrite X4, !zlen_app. pose proof (zlen_nonneg (R (negb b))). pose proof (zlen_nonneg (bodies (ps b))). lia.
Qed.

Lemma bodies_cons p ps : bodies (p :: ps) = p_body p ++ bodies ps.
Proof. done. Qed.

Lemma poll_nothing b g : mgr_ok b g -> holds (rx (driver g)) [] -> poll g = Ret (Ok None, g).
Proof. intros Hm Hh. unfold poll, poll_. rewrite inbox_poll_empty by done. cbn [obind]. by destruct g as [[]]. Qed.

Lemma called_refl b g n : mgr_ok b g -> called b g g n [].
Proof. intros Hm. by apply called_none. Qed.

Definition event_ok (e : event) : Prop := match e with Recv _ n => 0 <= n | _ => True end.

(** Arrivals change the receive queue of an end only. *)
Lemma both_arrive s b p i :
  both s -> behind (tx (driver (mgr s (negb b)))) !! taken s (negb b) = Some p -> inbox_arrive p (rx (driver (mgr s b))) = Some i ->
  both (mkSys (upd (mgr s) b (with_rx (mgr s b) i)) (upd (taken s) (negb b) (S (taken s (negb b)))) (sent s) (got s) (errors s)).
Proof.
  intros (R & F & K & c & ps & Hs) Hp Ha. exists R, F, K, c, ps. intros b0. cbn [mgr taken sent got].
  assert (Hb : b0 = b \/ b0 = negb b) by (destruct b, b0; auto). unfold flow_of in *. destruct Hb as [-> | ->]; cbn [mgr taken sent got].
  - destruct (Hs b) as [Hc Hf]. rewrite upd_eq, upd_ne, upd_ne'. split; [|exact Hf]. destruct Hc. by constructor.
  - destruct (Hs (negb b)) as [Hc [W1 W2 W3 W4]]. rewrite upd_ne, !negb_involutive, !upd_eq. rewrite negb_involutive in *. split; [done|]. constructor; try done. by eapply way_arrive.
Qed.

Lemma step_both e s :
  errors s = [] -> (forall b, mgr_ok b (mgr s b)) -> both s -> event_ok e ->
  exists s', step e s = Ret s' /\ errors s' = [] /\ (forall b, mgr_ok b (mgr s' b)) /\ both s'.
Proof using HSIZE addr_ok cap_ok.
  intros He Hm Hs Hok. pose proof Hs as (R & F & K & c & ps & Hall).
  assert (Hmgr : forall b g, mgr_ok b g -> forall b0, mgr_ok b0 (upd (mgr s) b g b0)).
  { intros b g Hg b0. unfold upd. destruct (Bool.eqb b b0) eqn:E; [apply eqb_prop in E as <-; done|apply Hm]. }
  destruct e as [b data|b n|b|b|b]; cbn [step].
  - destruct (Hall b) as [Hc Hf]. destruct (Hall (negb b)) as [_ Hin]. unfold flow_of in Hin. rewrite negb_involutive in Hin.
    destruct (send_run b (mgr s b) (sent s b) (got s b) _ _ _ _ data Hc (Hm b)) as (r & g' & new & c' & -> & Hcl & Hr). cbn [obind]. eexists. split; [reflexivity|].
    assert (Hg : mgr_ok b g') by apply Hcl. cbn [errors mgr]. rewrite He.
    destruct (zlen data <=? _); destruct Hr as (-> & Hbd & Hc'); (split; [done|]); (split; [by apply Hmgr|]);
      (eapply (both_call s _ b (rx (driver (mgr s b))) new); [exact Hall|..]); cbn [mgr sent got taken]; rewrite ?upd_eq, ?upd_ne, ?with_rx_same; try done.
    + by rewrite Hbd.
    + by rewrite Hbd, app_nil_r.
  - destruct (Hall b) as [Hc Hf]. destruct (Hall (negb b)) as [_ Hin]. unfold flow_of in Hin. rewrite negb_involutive in Hin.
    destruct (recv_run b (mgr s b) (sent s b) (got s b) _ _ _ _ n Hc (Hm b) Hok) as (g' & c' & -> & Hcl & Hc'). cbn [obind]. eexists. split; [reflexivity|].
    cbn [errors mgr error_of]. rewrite He. split; [done|]. split; [apply Hmgr; apply Hcl|].
    eapply (both_call s _ b (rx (driver (mgr s b))) []); [exact Hall|..]; cbn [mgr sent got taken]; rewrite ?upd_eq, ?upd_ne, ?with_rx_same; try done.
    + by rewrite app_nil_r.
    + rewrite zlen_app. pose proof (zlen_nonneg (take (Z.to_nat n) (R b))). lia.
    + destruct Hin as [W1 W2 W3 W4]. constructor; try done. by rewrite W4, <- (take_drop (Z.to_nat n) (R b)) at 1; rewrite <- !app_assoc.
  - destruct (Hall b) as [Hc Hf]. destruct (Hall (negb b)) as [_ Hin]. unfold flow_of in Hin. rewrite negb_involutive in Hin.
    destruct (credit_run b (mgr s b) (sent s b) (got s b) _ _ _ _ Hc (Hm b)) as (g' & -> & Hcl & Hc'). cbn [obind]. eexists. split; [reflexivity|].
    cbn [errors mgr error_of]. rewrite He. split; [done|]. split; [apply Hmgr; apply Hcl|].
    eapply (both_call s _ b (rx (driver (mgr s b)))); [exact Hall|..]; cbn [mgr sent got taken]; rewrite ?upd_eq, ?upd_ne, ?with_rx_same; try done.
    by rewrite app_nil_r.
  - destruct (Hall b) as [Hc Hf]. destruct (Hall (negb b)) as [_ Hin]. unfold flow_of in Hin. rewrite negb_involutive in Hin. destruct Hin as [(Wn & w & Hw & Ew) W2 W3 W4].
    destruct w as [|x w].
    + rewrite (poll_nothing b) by done. cbn [obind]. eexists. split; [reflexivity|]. cbn [errors mgr error_of]. rewrite He. split; [done|]. split; [by apply Hmgr|].
      eapply (both_call s _ b (rx (driver (mgr s b))) []); [exact Hall|..]; cbn [mgr sent got taken]; rewrite ?upd_eq, ?upd_ne, ?with_rx_same; try done.
      * by apply called_refl.
      * by rewrite app_nil_r.
      * constructor; [|done..]. split; [done|]. by exists [].
    + destruct (fits s b R F K c ps Hall) as [Hfit Hle]. destruct (ps (negb b)) as [|p l] eqn:El; [done|]. cbn in Ew. injection Ew as -> Ew.
      apply Forall_cons in W2 as [Wp W2]. apply counts_bound in W3 as [Wf W3]. rewrite bodies_cons in W4, Hfit. rewrite zlen_app in Hfit. pose proof (zlen_nonneg (bodies l)).
      destruct (poll_packet b (mgr s b) (sent s b) (got s b) _ _ _ _ p w Hc (Hm b) Hw Wp ltac:(lia) ltac:(lia)) as (r & g' & i & c' & -> & Er & Hi & Hcl & Hc'). cbn [obind].
      eexists. split; [reflexivity|]. cbn [errors mgr]. rewrite He, Er. split; [done|]. split; [apply Hmgr; apply Hcl|].
      eapply (both_call s _ b i); [exact Hall|..]; cbn [mgr sent got taken]; rewrite ?upd_eq, ?upd_ne; try done.
      * by destruct (is_reply _); rewrite ?app_nil_r.
      * constructor; try done; [split; [done|by exists w]|]. by rewrite W4, <- !app_assoc.
  - destruct (_ !! _) as [p|] eqn:Ep; [|by eexists]. destruct (inbox_arrive _ _) as [i|] eqn:Ei; [|by eexists].
    eexists. split; [reflexivity|]. cbn [errors]. split; [done|]. split; [|by apply (both_arrive s b p i)]. cbn [mgr]. apply Hmgr. destruct (Hm b). by constructor.
Qed.

Lemma half_call s s' a new c' :
  half a s -> mgr s' (negb a) = mgr s (negb a) -> (forall b, sent s' b = [] /\ got s' b = []) -> taken s' = taken s ->
  called a (mgr s a) (mgr s' a) 0 new -> bodies new = [] -> conn_inv a (mgr s' a) [] [] [] 0 0 c' -> half a s'.
Proof.
  intros [H1 H2 H3 (ps & W & Wf & Wb) H5] Em Hi Et [C1 C2 C3 C4 C5] Hb Hc. constructor; rewrite ?Em, ?Et, ?C2; try done; [by exists c'|].
  exists (ps ++ new). split; [|split]; [by eapply (way_send a _ _ _ _ (mkPkt Request [] 0 :: ps))|by apply Forall_app|by rewrite bodies_app, Wb, Hb].
Qed.

Lemma not_connected b g : connections g = [] -> get_connection (connections g) (addr (negb b)) (port (addr b)) = Err (SocketDeviceError NotConnected).
Proof. by intros ->. Qed.

(** Nothing changes but by equals. *)
Lemma half_same s s' a :
  half a s -> (forall b, mgr s' b = mgr s b) -> taken s' = taken s -> sent s' = sent s -> got s' = got s -> half a s'.
Proof. intros [H1 H2 H3 H4 H5] Em Et Es Eg. constructor; rewrite ?Em, ?Et, ?Es, ?Eg; done. Qed.

Lemma half_arrive s a p i :
  half a s -> behind (tx (driver (mgr s a))) !! taken s a = Some p -> inbox_arrive p (rx (driver (mgr s (negb a)))) = Some i ->
  half a (mkSys (upd (mgr s) (negb a) (with_rx (mgr s (negb a)) i)) (upd (taken s) a (S (taken s a))) (sent s) (got s) (errors s)).
Proof.
  intros [H1 H2 H3 (ps & W & Wf) H5] Hp Hi. constructor; cbn [mgr taken sent got]; rewrite ?upd_eq, ?upd_ne, ?upd_ne'; try done.
  exists ps. split; [by eapply way_arrive|done].
Qed.

(** The listener polls: the request makes the connection. *)
Lemma half_becomes_both s a r g' i ps w c' :
  half a s -> mgr_ok a (mgr s a) -> way a (rx (driver (mgr s (negb a)))) (tx (driver (mgr s a))) (taken s a) (mkPkt Request [] 0 :: ps) ->
  Forall (fun p => pkt_ok p /\ p_f p = 0) ps -> bodies ps = [] ->
  w ++ drop (taken s a) (behind (tx (driver (mgr s a)))) = wire_of a <$> ps ->
  poll (mgr s (negb a)) = Ret (r, g') -> holds i w -> called (negb a) (with_rx (mgr s (negb a)) i) g' 0 [mkPkt Response [] 0] ->
  conn_inv (negb a) g' [] [] [] 0 (cap a) c' ->
  both (mkSys (upd (mgr s) (negb a) g') (taken s) (sent s) (got s) []).
Proof.
  intros [(c & Hc) H2 H3 _ H5] Hm [Wn _] Wf Wb Ew Ep Hi [C1 C2 C3 C4 C5] Hc'.
  exists (fun _ => []), (fun _ => 0), (upd (fun _ => 0) (negb a) (cap a)), (upd (fun _ => c) (negb a) c'), (upd (fun _ => ps) (negb a) [mkPkt Response [] 0]).
  intros b0. assert (Hb : b0 = a \/ b0 = negb a) by (destruct a, b0; auto). unfold flow_of. cbn [mgr taken sent got]. destruct (H3 a) as [Es Eg], (H3 (negb a)) as [Es' Eg'].
  destruct Hb as [-> | ->]; rewrite ?negb_involutive, ?upd_eq, ?upd_ne, ?upd_ne', ?Es, ?Eg, ?Es', ?Eg'.
  - split; [done|]. rewrite C2. constructor; try done; [split; [done|by exists w]|by eapply Forall_impl; [exact Wf|intros ? []]|].
    apply (counts_app 0 [] 0 0); [done|done|exact Wf].
  - split; [done|]. constructor; try done; [|by apply Forall_singleton]. by apply (way_send (negb a) _ _ _ _ [] [mkPkt Response [] 0] H5).
Qed.

Lemma step_half e s a :
  errors s = [] -> (forall b, mgr_ok b (mgr s b)) -> half a s -> event_ok e ->
  exists s', step e s = Ret s' /\ errors s' = [] /\ (forall b, mgr_ok b (mgr s' b)) /\ (both s' \/ half a s').
Proof using HSIZE addr_ok cap_ok.
  intros He Hm Hs Hok. pose proof Hs as [(c & Hc) [H2 Hl] H3 (ps & W & Wf & Wb) H5].
  assert (Hmgr : forall b g, mgr_ok b g -> forall b0, mgr_ok b0 (upd (mgr s) b g b0)).
  { intros b g Hg b0. unfold upd. destruct (Bool.eqb b b0) eqn:E; [apply eqb_prop in E as <-; done|apply Hm]. }
  assert (Hsame : forall b b0, upd (mgr s) b (mgr s b) b0 = mgr s b0) by (intros [] []; done).
  destruct (H3 a) as [Es Eg]. assert (Hend : forall b, b = a \/ b = negb a) by (intros []; destruct a; auto).
  destruct e as [b data|b n|b|b|b]; cbn [step]; destruct (Hend b) as [-> | ->].
  - destruct (send_run a (mgr s a) [] [] _ _ _ _ data Hc (Hm a)) as (r & g' & new & c' & -> & Hcl & Hr). cbn [obind]. eexists. split; [reflexivity|].
    assert (Hg : mgr_ok a g') by apply Hcl. cbn [errors mgr]. rewrite He. assert (Hd : zlen data <=? 0 - (zlen (@nil Z) - 0) = true -> data = []) by (intros Hd%Z.leb_le; destruct data; [done|rewrite zlen_cons in Hd; pose proof (zlen_nonneg data); unfold zlen in Hd; cbn in Hd; lia]).
    destruct (zlen data <=? _); destruct Hr as (-> & Hbd & Hc'); (split; [done|]); (split; [by apply Hmgr|]); right; eapply (half_call s _ a new); cbn [mgr sent got taken]; rewrite ?upd_eq, ?upd_ne; try done.
    + rewrite (Hd eq_refl), Es. intros b0. unfold upd. destruct (H3 b0). by destruct (Bool.eqb a b0).
    + by rewrite Hbd, (Hd eq_refl).
    + by rewrite (Hd eq_refl) in Hc'.
  - unfold send. rewrite (not_connected (negb a)) by done. cbn [obind]. eexists. split; [reflexivity|]. cbn [errors mgr error_of]. rewrite He. split; [done|]. split; [by apply Hmgr|]. right. eapply half_same; [exact Hs|apply Hsame|done..].
  - destruct (recv_run a (mgr s a) [] [] _ _ _ _ n Hc (Hm a) Hok) as (g' & c' & -> & Hcl & Hc'). cbn [obind]. eexists. split; [reflexivity|]. rewrite take_nil, drop_nil in *. cbn [errors mgr error_of]. rewrite He. split; [done|]. split; [apply Hmgr; apply Hcl|].
    right. eapply (half_call s _ a []); cbn [mgr sent got taken]; rewrite ?upd_eq, ?upd_ne; try done. rewrite Eg. intros b0. unfold upd. destruct (H3 b0). by destruct (Bool.eqb a b0).
  - unfold recv. rewrite (not_connected (negb a)) by done. cbn [obind]. eexists. split; [reflexivity|]. cbn [errors mgr error_of]. rewrite He. split; [done|]. split; [by apply Hmgr|]. right. eapply half_same; [exact Hs|apply Hsame|done..].
  - destruct (credit_run a (mgr s a) [] [] _ _ _ _ Hc (Hm a)) as (g' & -> & Hcl & Hc'). cbn [obind]. eexists. split; [reflexivity|]. cbn [errors mgr error_of]. rewrite He. split; [done|]. split; [apply Hmgr; apply Hcl|].
    right. eapply (half_call s _ a); cbn [mgr sent got taken]; rewrite ?upd_eq, ?upd_ne; try done.
  - unfold update_credit, on_conn. rewrite (not_connected (negb a)) by done. cbn [obind]. eexists. split; [reflexivity|]. cbn [errors mgr error_of]. rewrite He. split; [done|]. split; [by apply Hmgr|]. right. eapply half_same; [exact Hs|apply Hsame|done..].
  - destruct H5 as (_ & w & Hw & Ew). apply app_eq_nil in Ew as [-> _]. rewrite (poll_nothing a) by done. cbn [obind]. eexists. split; [reflexivity|]. cbn [errors mgr error_of]. rewrite He. split; [done|]. split; [by apply Hmgr|]. right. eapply half_same; [exact Hs|apply Hsame|done..].
  - pose proof W as (Wn & w & Hw & Ew). destruct w as [|x w].
    + rewrite (poll_nothing (negb a)) by done. cbn [obind]. eexists. split; [reflexivity|]. cbn [errors mgr error_of]. rewrite He. split; [done|]. split; [by apply Hmgr|]. right. eapply half_same; [exact Hs|apply Hsame|done..].
    + cbn in Ew. injection Ew as -> Ew. destruct (poll_request (negb a) (mgr s (negb a)) w) as (r & g' & i & c' & Ep & Er & Hi & Hcl & Hc'); [done|done|done|by rewrite negb_involutive|].
      rewrite Ep. cbn [obind]. eexists. split; [reflexivity|]. cbn [errors mgr]. rewrite He, Er. split; [done|]. split; [apply Hmgr; apply Hcl|]. left. rewrite negb_involutive in Hc'. by eapply half_becomes_both.
  - destruct H5 as (Hn & w & Hw & Ew). apply app_eq_nil in Ew as [_ Ew]. assert (behind (tx (driver (mgr s (negb a)))) !! taken s (negb a) = None) as ->.
    { apply lookup_ge_None. apply (f_equal length) in Ew. rewrite length_drop in Ew. cbn in Ew. lia. }
    eexists. split; [reflexivity|]. by auto.
  - rewrite negb_involutive. destruct (_ !! _) as [p|] eqn:Ep; [|eexists; by auto]. destruct (inbox_arrive _ _) as [i|] eqn:Ei; [|eexists; by auto].
    eexists. split; [reflexivity|]. cbn [errors]. split; [done|]. split; [|right; by apply (half_arrive s a p i)]. cbn [mgr]. apply Hmgr. destruct (Hm (negb a)). by constructor.
Qed.

Lemma stream_run_inv es s : inv s -> Forall event_ok es -> exists s', run es s = Ret s' /\ inv s'.
Proof using HSIZE addr_ok cap_ok.
  intros Hi Hes. revert s Hi. induction Hes as [|e es He _ IH]; intros s Hi; [by exists s|]. destruct Hi as (H1 & H2 & H3). cbn [run].
  assert (exists s', step e s = Ret s' /\ inv s') as (s' & -> & Hs').
  { destruct H3 as [H3|[a H3]]; [destruct (step_both e s H1 H2 H3 He) as (s' & E & X1 & X2 & X3)|destruct (step_half e s a H1 H2 H3 He) as (s' & E & X1 & X2 & X3)];
      exists s'; (split; [done|]); split_and!; try done; [by left|destruct X3; [by left|right; by exists a]]. }
  cbn [obind]. by apply IH.
Qed.

(** New managers, with nothing on the way; [taken] counts the packets of before. *)
Record ready (g : bool -> VsockConnectionManager) : Prop := {
  re_mgr : forall b, mgr_ok b (g b);
  re_none : forall b, connections (g b) = [];
  re_rx : forall b, holds (rx (driver (g b))) []
}.
Definition begin (g : bool -> VsockConnectionManager) : system :=
  mkSys g (fun b => length (behind (tx (driver (g b))))) (fun _ => []) (fun _ => []) [].
Definition after_connect (g : bool -> VsockConnectionManager) (a : bool) (g' : VsockConnectionManager) : system :=
  mkSys (upd g a g') (taken (begin g)) (fun _ => []) (fun _ => []) [].

Lemma connect_half g a :
  ready g -> port (addr (negb a)) ∈ listening_ports (g (negb a)) ->
  exists g', connect (addr (negb a)) (port (addr a)) (g a) = Ret (Ok tt, g') /\ inv (after_connect g a g').
Proof using HSIZE addr_ok cap_ok.
  intros [Hm Hn Hr] Hl. unfold connect. rewrite (Hn a). cbn [existsb]. pose proof (Hm a) as [M1 M2 M3]. rewrite M3.
  set (c := conn_new (addr (negb a)) (port (addr a)) (cap a)). pose proof (cap_ok a).
  assert (Hc : forall g1, connections g1 = [c] -> conn_inv a g1 [] [] [] 0 0 c).
  { intros g1 E. constructor; try done; [by apply ring_new_rep; lia|]. unfold zlen. cbn. split_and!; lia. }
  unfold connect_, control. destruct (send_packet (new_header Request 0 0 (info c) (guest_cid (driver (g a)))) [] (driver (g a)) M1 ltac:(done)) as (ch & -> & Hch & Hd). cbn [obind].
  eexists. split; [reflexivity|]. cbn [connections set_driver]. rewrite (Hn a). cbn [app].
  assert (Eh : as_bytes (new_header Request 0 0 (info c) (guest_cid (driver (g a)))) ++ [] = wire_of a (mkPkt Request [] 0)) by (unfold new_header, wire_of, packet; cbn; by rewrite M2).
  rewrite Eh in Hd. set (g1 := set_connections _ _). split; [done|]. split.
  - intros b. cbn [mgr after_connect]. unfold upd. destruct (Bool.eqb a b) eqn:E; [apply eqb_prop in E as <-; by constructor|apply Hm].
  - right. exists a. constructor; cbn [mgr taken sent got after_connect begin]; rewrite ?upd_eq, ?upd_ne; try done.
    + exists c. by apply Hc.
    + exists []. split; [|done]. split; [cbn; rewrite Hd, length_app; lia|]. exists []. split; [by apply Hr|]. cbn. rewrite Hd, drop_app_length. done.
    + split; [done|]. exists []. split; [by apply Hr|]. by rewrite drop_all.
Qed.

Lemma holds_fun i p ps : holds i [] -> holds i (p :: ps) -> False.
Proof. intros H1 H2. pose proof (pop_empty i H1) as E1. destruct (pop_first i p ps H2) as (t & i' & E2 & _). by rewrite E1 in E2. Qed.

Lemma arrived_all b i c n ps : way b i c n ps -> holds i [] -> n = length (behind c) -> ps = [].
Proof.
  intros (_ & w & Hw & E) Hi ->. rewrite drop_all, app_nil_r in E. destruct w as [|p w]; [by destruct ps|]. by destruct (holds_fun i p w).
Qed.

(** What is under way, and that it is read in the end. *)
Definition delivers (s : system) (b : bool) : Prop :=
  exists rest, sent s b = got s (negb b) ++ rest /\ zlen rest <= cap (negb b) /\
    (holds (rx (driver (mgr s (negb b)))) [] -> taken s b = length (behind (tx (driver (mgr s b)))) ->
     exists g, recv (addr b) (port (addr (negb b))) (cap (negb b)) (mgr s (negb b)) = Ret (Ok rest, g)).

Lemma inv_delivers s b : inv s -> delivers s b.
Proof using cap_ok.
  intros (_ & Hm & [(R & F & K & c & ps & Hall)|[a [(c & Hc) [Hn _] Hi (ps & W & _) Wb]]]).
  - destruct (Hall b) as [_ [W1 _ _ W4]]. destruct (fits s (negb b) R F K c ps Hall) as [Hfit _]. rewrite negb_involutive in Hfit. exists (R (negb b) ++ bodies (ps b)).
    rewrite zlen_app. split_and!; [done|done|]. intros Hh Ht. pose proof (arrived_all _ _ _ _ _ W1 Hh Ht) as Eps. rewrite Eps, app_nil_r.
    destruct (Hall (negb b)) as [Hc _]. pose proof (cap_ok (negb b)). destruct (recv_run (negb b) _ _ _ _ _ _ _ (cap (negb b)) Hc (Hm (negb b)) ltac:(lia)) as (g & c' & E & _ & _).
    rewrite negb_involutive in E. exists g. rewrite E. rewrite take_ge; [done|]. pose proof (zlen_nonneg (bodies (ps b))). unfold zlen in *. lia.
  - exists []. destruct (Hi b) as [-> _], (Hi (negb b)) as [_ ->]. split; [done|]. pose proof (cap_ok (negb b)) as Hcap. split; [unfold zlen; cbn; lia|]. intros Hh Ht.
    assert (b = negb a) as -> by (destruct (decide (b = a)) as [-> | Hne]; [by pose proof (arrived_all _ _ _ _ _ W Hh Ht)|by destruct a, b]).
    rewrite negb_involutive in *. destruct (recv_run a _ _ _ _ _ _ _ (cap a) Hc (Hm a) ltac:(lia)) as (g & c' & E & _). exists g. by rewrite E, take_nil.
Qed.
End stream.

(** C6: a virtio socket connection is two streams.  Two managers run the code of this
    crate; one connects, the other listens on the port.  However their sends, reads,
    credit updates and polls interleave with the arrival of the packets: no call panics
    or fails, but for want of credit or of the connection; each end reads what the other
    sent, in order, nothing lost or repeated; what is not yet read never exceeds the
    reader's buffer, also when the 32-bit counters wrap; and once the packets have
    arrived, one read returns all of it. *)
Theorem vsock_stream {SIZE : Z} {HC : Channel} {HO : ChannelOk SIZE} {HI : Inbox} {HA : Arrivals} {HIO : InboxOk} addr cap g a es :
  2 <= SIZE -> (forall b, 0 <= cid (addr b) < 2 ^ 64 /\ 0 <= port (addr b) < 2 ^ 32) -> (forall b, 0 < cap b < 2 ^ 32) ->
  ready addr cap g -> port (addr (negb a)) ∈ listening_ports (g (negb a)) -> Forall event_ok es ->
  exists g' s, connect (addr (negb a)) (port (addr a)) (g a) = Ret (Ok tt, g') /\ run addr es (after_connect g a g') = Ret s /\
    errors s = [] /\ forall b, delivers addr cap s b.
Proof.
  intros HS Ha Hc Hr Hl Hes. destruct (connect_half HS addr cap Ha Hc g a Hr Hl) as (g' & E & Hi).
  destruct (stream_run_inv HS addr cap Ha Hc es _ Hi Hes) as (s & Es & Hs). exists g', s. split_and!; try done; [apply Hs|]. intros b. by apply inv_delivers.
Qed.

Module Example_ends.
#[export] Existing Instance demo_hal.
Definition ends (b : bool) : VsockAddr := if b then mkAddr 2 1234 else mkAddr 66 4321.
Definition caps (b : bool) : Z := 1024.

Lemma identity log (b : Buffer) d : hal_share log b d = buf_ptr b.
Proof. done. Qed.
Lemma wire_fits ins (outs : list bytes) (d : device) : let '(n, written, _) := serve ins (zlen <$> outs) d in Forall2 fits_in written (zlen <$> outs).
Proof. cbn. induction outs as [|b outs IH]; cbn; constructor; [unfold fits_in, zlen; cbn; lia|done]. Qed.

#[export] Instance channel : Channel := VirtqChannel 2 (stack 65536).
#[export] Instance channel_ok : ChannelOk (2 ^ 2) := VirtqChannelOk 2 ltac:(lia) (stack 65536) identity (stack_apart 65536) wire_fits.
#[export] Instance box : Inbox := VirtqInbox 2 512.
#[export] Instance arrivals : Arrivals := VirtqArrivals 2 512.
#[export] Instance box_ok : InboxOk := VirtqInboxOk 2 ltac:(lia) 512 ltac:(lia) identity.

Definition rx_queue : OwningQueue := match owning_new 4 512 (demo_queue true) with Ret (Ok o) => o | _ => mkOwning (demo_queue true) [] end.
Definition manager (b : bool) : VsockConnectionManager :=
  let s := mkSocket (H0 := box) (mkBox rx_queue (fun _ => 0)) (mkLink (demo_queue true) (fun _ => 0) []) (cid (ends b)) in
  if b then listen 1234 (new_with_capacity s 1024) else new_with_capacity s 1024.

Lemma manager_ready : ready ends caps manager.
Proof.
  assert (En : new 4 demo_transport 0 true false [] = Ret (Ok (demo_queue true, demo_set true))) by (vm_compute; reflexivity).
  constructor; intros b.
  - destruct b; constructor; try done; exact (new_link_ok 2 ltac:(lia) _ _ _ _ _ _ _ _ _ En).
  - by destruct b.
  - assert (Eo : owning_new 4 512 (demo_queue true) = Ret (Ok rx_queue)) by (vm_compute; reflexivity).
    assert (Ha : apart (buffers rx_queue) (replicate (Z.to_nat (2 ^ 2)) 512)).
    { assert (buffers rx_queue = [33685504; 33751040; 33816576; 33882112]) as -> by (vm_compute; reflexivity). change (replicate _ _) with [512; 512; 512; 512].
      repeat (split; [repeat apply List.Forall2_cons; try apply List.Forall2_nil; lia|]). done. }
    destruct b; exact (owning_new_holds 2 ltac:(lia) 512 ltac:(lia) _ _ _ _ _ _ _ _ _ En Eo Ha).
Qed.
End Example_ends.
Import Example_ends.

Lemma vsock_stream_witness :
  exists g' s, connect (mkAddr 2 1234) 4321 (Example_ends.manager false) = Ret (Ok tt, g') /\
    run Example_ends.ends [Arrive true; Poll true; Arrive false; Poll false; Send false [1; 2; 3]; Arrive true; Poll true; Recv true 2] (after_connect Example_ends.manager false g') = Ret s /\
    errors s = [] /\ forall b, delivers Example_ends.ends Example_ends.caps s b.
Proof.
  apply (vsock_stream Example_ends.ends Example_ends.caps Example_ends.manager false).
  - done.
  - intros []; cbn; lia.
  - intros b. unfold Example_ends.caps. lia.
  - apply Example_ends.manager_ready.
  - by left.
  - repeat constructor. cbn. lia.
Defined.
