(* ===== verification/VsockSafe.v ===== *)
(** * The connection manager against any peer

    Whatever packets arrive, a manager whose receive buffers have room for at least one
    byte does not panic, and its table stays one of distinct connections with sound
    receive buffers.  A repeated request of a peer, which the code means to ignore, is
    answered: it closes the connection, or accepts it once more. *)

From S2P Require Import Prelude Virtq Channel Vsock VsockProofs VsockStream.

(** The table of connections, by peer and local port. *)
Definition key (c : Connection) : VsockAddr * Z := (dst (info c), src_port (info c)).
Definition table (l : list Connection) : gmap (VsockAddr * Z) Connection := list_to_map ((fun c => (key c, c)) <$> l).

(** Whom a received packet is about, when it is a packet at all. *)
Definition packet_key (p : bytes) : option (VsockAddr * Z) :=
  match read_from_prefix p with Some h => Some (source h, dst_port h) | None => None end.

(** ** The table *)

Definition table_ok (capacity : Z) (l : list Connection) : Prop :=
  NoDup (key <$> l) /\ Forall (fun c => exists b, ring_rep capacity (ring c) b) l.

Lemma find_conn_some f l i c : find_conn f l = Some (i, c) -> l !! i = Some c /\ f c = true.
Proof.
  unfold find_conn. destruct (position f l) as [j|] eqn:Ep; [|done]. apply position_Some in Ep as (x & Hx & Hf & _). rewrite Hx. by intros [= <- <-].
Qed.

Lemma find_conn_none f l : find_conn f l = None -> Forall (fun c => f c = false) l.
Proof.
  unfold find_conn. destruct (position f l) as [j|] eqn:Ep; [|intros _; by apply position_None in Ep]. apply position_Some in Ep as (x & Hx & _). by rewrite Hx.
Qed.

Lemma find_conn_exists f (l : list Connection) i c : l !! i = Some c -> f c = true -> exists j d, find_conn f l = Some (j, d).
Proof.
  intros Hi Hf. destruct (find_conn f l) as [[j d]|] eqn:E; [by eexists _, _|]. apply find_conn_none in E.
  pose proof (Forall_lookup_1 _ _ _ _ E Hi) as Hx. cbn in Hx. congruence.
Qed.

Lemma table_skip l1 l2 c k : k <> key c -> table (l1 ++ c :: l2) !! k = table (l1 ++ l2) !! k.
Proof.
  intros Hk. unfold table. induction l1 as [|x l1 IH]; cbn; [by rewrite lookup_insert_ne|].
  destruct (decide (key x = k)) as [<-|]; [by rewrite !lookup_insert_eq|]. by rewrite !lookup_insert_ne.
Qed.

(** A connection changes, its key stays. *)
Lemma table_insert cap (l : list Connection) i c c' :
  table_ok cap l -> l !! i = Some c -> key c' = key c -> (exists b, ring_rep cap (ring c') b) ->
  table_ok cap (<[i := c']> l) /\ forall k, k <> key c -> table (<[i := c']> l) !! k = table l !! k.
Proof.
  intros [Hn Hr] Hi Hk Hc. split.
  - split; [|by apply Forall_insert]. assert (key <$> <[i := c']> l = key <$> l) as ->; [|done].
    rewrite list_fmap_insert. apply list_insert_id. by rewrite list_lookup_fmap, Hi, Hk.
  - intros k Hkk. rewrite insert_take_drop by (by eapply lookup_lt_Some). rewrite table_skip by congruence.
    rewrite <- (take_drop_middle l i c Hi) at 3. by rewrite table_skip.
Qed.

(** A connection goes. *)
Lemma table_remove cap (l : list Connection) i c :
  table_ok cap l -> l !! i = Some c ->
  table_ok cap (swap_remove l i) /\ forall k, k <> key c -> table (swap_remove l i) !! k = table l !! k.
Proof.
  intros [Hn Hr] Hi. pose proof (swap_remove_perm l i c Hi) as Hp. split.
  - rewrite Hp in Hr, Hn. cbn in Hn. apply NoDup_cons in Hn as [_ ?]. by apply Forall_cons in Hr as [_ ?].
  - intros k Hk. unfold table at 2. rewrite (list_to_map_proper _ ((fun c => (key c, c)) <$> (c :: swap_remove l i))).
    + cbn. by rewrite lookup_insert_ne.
    + rewrite <- list_fmap_compose. exact Hn.
    + by rewrite Hp at 1.
Qed.

(** A connection comes. *)
Lemma table_push cap (l : list Connection) c :
  table_ok cap l -> Forall (fun d => key d <> key c) l -> (exists b, ring_rep cap (ring c) b) ->
  table_ok cap (l ++ [c]) /\ forall k, k <> key c -> table (l ++ [c]) !! k = table l !! k.
Proof.
  intros [Hn Hr] Hf Hc. split; [split|].
  - rewrite fmap_app. apply NoDup_app. split_and!; [done| |apply NoDup_singleton]. intros x (d & -> & Hd)%list_elem_of_fmap Hx%list_elem_of_singleton.
    by apply (proj1 (Forall_forall _ _) Hf d Hd).
  - apply Forall_app. split; [done|]. by apply Forall_singleton.
  - intros k Hk. rewrite table_skip by done. by rewrite app_nil_r.
Qed.

Lemma is_conn_key peer p c : is_conn peer p c = true <-> key c = (peer, p).
Proof. unfold is_conn, key. rewrite andb_true_iff, bool_decide_eq_true, Z.eqb_eq. split; [intros [-> ->]; done|by intros [= -> ->]]. Qed.

Lemma matches_key e c g : matches_connection e (info c) g = true <-> key c = (ev_source e, port (ev_destination e)) /\ cid (ev_destination e) = g.
Proof. unfold matches_connection, key. rewrite !andb_true_iff, bool_decide_eq_true, !Z.eqb_eq. split; [intros [[-> ->] ->]; done|by intros [[= -> ->] ->]]. Qed.

Section safe.
Context {SIZE : Z} {HC : Channel} {HO : ChannelOk SIZE} {HI : Inbox} {HA : Arrivals} {HIO : InboxOk}.
Context (HSIZE : 2 <= SIZE) (capacity : Z) (Hcap : 0 < capacity < 2 ^ 32).

Inductive call :=
| Listen (p : Z) | Unlisten (p : Z) | Connect (d : VsockAddr) (sp : Z) | Send (d : VsockAddr) (sp : Z) (data : bytes) | Poll
| Recv (d : VsockAddr) (sp n : Z) | Credit (d : VsockAddr) (sp : Z) | Shut (d : VsockAddr) (sp : Z) | Close (d : VsockAddr) (sp : Z) | Packet (p : bytes).

(** Slices are shorter than 2^32 bytes. *)
Definition call_ok (c : call) : Prop := match c with Send _ _ data => zlen data < 2 ^ 32 | Recv _ _ n => 0 <= n | _ => True end.

(** A call of the client, or a packet from anyone. *)
Definition exec (c : call) (g : VsockConnectionManager) : outcome VsockConnectionManager :=
  match c with
  | Listen p => Ret (listen p g)
  | Unlisten p => Ret (unlisten p g)
  | Connect d sp => do! (_, g) <- connect d sp g; Ret g
  | Send d sp data => do! (_, g) <- send d sp data g; Ret g
  | Poll => do! (_, g) <- poll g; Ret g
  | Recv d sp n => do! (_, g) <- recv d sp n g; Ret g
  | Credit d sp => do! (_, g) <- update_credit d sp g; Ret g
  | Shut d sp => do! (_, g) <- shutdown d sp g; Ret g
  | Close d sp => do! (_, g) <- force_close d sp g; Ret g
  | Packet p => Ret (match inbox_arrive p (rx (driver g)) with Some i => set_driver g (set_rx (driver g) i) | None => g end)
  end.
Fixpoint exec_all (cs : list call) (g : VsockConnectionManager) : outcome VsockConnectionManager :=
  match cs with [] => Ret g | c :: cs' => do! g <- exec c g; exec_all cs' g end.

(** [ps] are the packets that wait. *)
Record mgr_inv (ps : list bytes) (g : VsockConnectionManager) : Prop := {
  mi_chan : chan_ok (tx (driver g));
  mi_rx : holds (rx (driver g)) ps;
  mi_cap : per_connection_buffer_capacity g = capacity;
  mi_table : table_ok capacity (connections g)
}.

(** The one connection a call is about. *)
Definition about (c : call) (ps : list bytes) : option (VsockAddr * Z) :=
  match c with
  | Connect d sp | Send d sp _ | Recv d sp _ | Credit d sp | Shut d sp | Close d sp => Some (d, sp)
  | Poll => match ps with p :: _ => packet_key p | [] => None end
  | Listen _ | Unlisten _ | Packet _ => None
  end.
Definition keeps (t : option (VsockAddr * Z)) (l l' : list Connection) : Prop := forall k, t <> Some k -> table l' !! k = table l !! k.

Lemma keeps_refl t l : keeps t l l.
Proof. done. Qed.

(** A packet of any header. *)
Lemma control_any o f i (s : VirtIOSocket) :
  chan_ok (tx s) -> exists c, control o f i s = Ret (Ok tt, set_tx s c) /\ chan_ok c.
Proof using HSIZE. intros Hc. unfold control. destruct (send_packet HSIZE (new_header o 0 f i (guest_cid s)) [] s Hc ltac:(done)) as (c & E & ? & _). by exists c. Qed.

(** The invariant is about the queues and the table. *)
Lemma mgr_inv_tx ps g c l : mgr_inv ps g -> chan_ok c -> table_ok capacity l -> mgr_inv ps (set_connections (set_driver g (set_tx (driver g) c)) l).
Proof. intros [] ? ?. by constructor. Qed.
Lemma mgr_inv_tx' ps g c : mgr_inv ps g -> chan_ok c -> mgr_inv ps (set_driver g (set_tx (driver g) c)).
Proof. intros [] ?. by constructor. Qed.
Lemma mgr_inv_conns ps g l : mgr_inv ps g -> table_ok capacity l -> mgr_inv ps (set_connections g l).
Proof. intros [] ?. by constructor. Qed.

Lemma get_some l d sp i c : get_connection l d sp = Ok (i, c) -> l !! i = Some c /\ key c = (d, sp).
Proof. unfold get_connection. destruct (find_conn _ l) as [[j x]|] eqn:E; [|done]. intros [= <- <-]. apply find_conn_some in E as [? ?]. split; [done|]. by apply is_conn_key. Qed.

Lemma ring_of l i c : table_ok capacity l -> l !! i = Some c -> exists b, ring_rep capacity (ring c) b.
Proof. intros [_ Hr] Hi. exact (Forall_lookup_1 _ _ _ _ Hr Hi). Qed.

Lemma new_conn_ring d sp : exists b, ring_rep capacity (ring (conn_new d sp capacity)) b.
Proof using Hcap. exists []. apply ring_new_rep. lia. Qed.

Lemma connect_safe ps g d sp : mgr_inv ps g ->
  exists r g', connect d sp g = Ret (r, g') /\ mgr_inv ps g' /\ keeps (Some (d, sp)) (connections g) (connections g').
Proof using HSIZE Hcap.
  intros Hm. unfold connect. destruct (existsb _ _) eqn:Ex; [by eexists _, g|]. rewrite (mi_cap _ _ Hm).
  destruct (control_any Request 0 (info (conn_new d sp capacity)) (driver g) (mi_chan _ _ Hm)) as (c & E & Hc). change connect_ with (control Request 0). rewrite E. cbn [obind].
  destruct (table_push capacity (connections g) (conn_new d sp capacity) (mi_table _ _ Hm)) as [Ht Hk]; [|apply new_conn_ring|].
  { apply Forall_forall. intros x Hx Hkx. apply not_true_iff_false in Ex. apply Ex. apply existsb_exists. exists x. split; [by apply list_elem_of_In|]. by apply is_conn_key. }
  eexists _, _. split; [done|]. split; [by apply mgr_inv_tx|]. intros k Hkk. apply Hk. by intros ->.
Qed.

Lemma send_safe ps g d sp data : mgr_inv ps g -> zlen data < 2 ^ 32 ->
  exists r g', send d sp data g = Ret (r, g') /\ mgr_inv ps g' /\ keeps (Some (d, sp)) (connections g) (connections g').
Proof using HSIZE.
  intros Hm Hd. unfold send. destruct (get_connection _ d sp) as [[i c]|e] eqn:Eg; [|by eexists _, g]. apply get_some in Eg as [Hi Hk].
  assert (exists r inf s, send_ data (info c) (driver g) = Ret (r, inf, s) /\ dst inf = dst (info c) /\ src_port inf = src_port (info c) /\ exists ch, s = set_tx (driver g) ch /\ chan_ok ch)
    as (r & inf & s & E & E1 & E2 & ch & -> & Hch).
  { pose proof (mi_chan _ _ Hm) as Hch. unfold send_, check_peer_buffer_is_sufficient. destruct (_ <=? _).
    - cbn [obind]. destruct (send_packet HSIZE (new_header Rw (u32 (zlen data)) 0 (info c) (guest_cid (driver g))) data (driver g) Hch Hd) as (ch & -> & ? & _). cbn [obind]. eexists _, _, _. split; [done|]. split_and!; [done..|by eexists].
    - destruct (has_pending_credit_request _); [cbn [obind]; eexists _, _, _; split; [done|]; split_and!; [done..|exists (tx (driver g)); by destruct (driver g)]|].
      destruct (control_any CreditRequest_ 0 (info c) (driver g) Hch) as (ch & E & ?). change request_credit with (control CreditRequest_ 0). rewrite E. cbn [obind]. eexists _, _, _. split; [done|]. split_and!; [done..|by eexists]. }
  rewrite E. cbn [obind]. destruct (table_insert capacity (connections g) i c (set_info c inf) (mi_table _ _ Hm) Hi) as [Ht Hkk]; [unfold key; cbn; by rewrite E1, E2|exact (ring_of _ _ _ (mi_table _ _ Hm) Hi)|].
  eexists _, _. split; [done|]. split; [destruct Hm; by constructor|]. intros k Hne. apply Hkk. rewrite Hk. by intros ->.
Qed.

Lemma recv_safe ps g d sp n : mgr_inv ps g -> 0 <= n ->
  exists r g', recv d sp n g = Ret (r, g') /\ mgr_inv ps g' /\ keeps (Some (d, sp)) (connections g) (connections g').
Proof using HSIZE.
  intros Hm Hn. unfold recv. destruct (get_connection _ d sp) as [[i c]|e] eqn:Eg; [|by eexists _, g]. apply get_some in Eg as [Hi Hk].
  destruct (ring_of _ _ _ (mi_table _ _ Hm) Hi) as [b Hb]. destruct (drain_run _ _ _ n Hb Hn) as (r' & -> & Hr). cbn [obind].
  set (c' := mkConn _ r' _). destruct (table_insert capacity (connections g) i c c' (mi_table _ _ Hm) Hi) as [Ht Hkk]; [done|by eexists|].
  assert (Hs : keeps (Some (d, sp)) (connections g) (<[i := c']> (connections g))) by (intros k Hne; apply Hkk; rewrite Hk; by intros ->).
  destruct (_ && _); [|eexists _, _; split; [done|]; split; [by apply mgr_inv_conns|done]].
  destruct (control_any Rst 0 (info c') (driver g) (mi_chan _ _ Hm)) as (ch & E & Hch). change force_close_ with (control Rst 0). cbn [driver set_connections]. rewrite E. cbn [obind].
  assert (Hi' : (<[i := c']> (connections g)) !! i = Some c') by (apply list_lookup_insert_eq; by eapply lookup_lt_Some).
  destruct (table_remove capacity _ i c' Ht Hi') as [Ht2 Hk2].
  eexists _, _. split; [done|]. split; [destruct Hm; by constructor|]. intros k Hne. cbn. rewrite Hk2; [by apply Hs|]. change (key c') with (key c). rewrite Hk. by intros ->.
Qed.

Lemma on_conn_safe o f ps g d sp : mgr_inv ps g ->
  exists r g', on_conn (control o f) d sp g = Ret (r, g') /\ mgr_inv ps g' /\ keeps (Some (d, sp)) (connections g) (connections g').
Proof using HSIZE.
  intros Hm. unfold on_conn. destruct (get_connection _ d sp) as [[i c]|e] eqn:Eg; [|by eexists _, g].
  destruct (control_any o f (info c) (driver g) (mi_chan _ _ Hm)) as (ch & -> & Hch). cbn [obind]. eexists _, _. split; [done|]. split; [by apply mgr_inv_tx'|done].
Qed.

Lemma force_close_safe ps g d sp : mgr_inv ps g ->
  exists r g', force_close d sp g = Ret (r, g') /\ mgr_inv ps g' /\ keeps (Some (d, sp)) (connections g) (connections g').
Proof using HSIZE.
  intros Hm. unfold force_close. destruct (get_connection _ d sp) as [[i c]|e] eqn:Eg; [|by eexists _, g]. apply get_some in Eg as [Hi Hk].
  destruct (control_any Rst 0 (info c) (driver g) (mi_chan _ _ Hm)) as (ch & E & Hch). change force_close_ with (control Rst 0). rewrite E. cbn [obind].
  destruct (table_remove capacity _ i c (mi_table _ _ Hm) Hi) as [Ht2 Hk2].
  eexists _, _. split; [done|]. split; [by apply mgr_inv_tx|]. intros k Hne. apply Hk2. rewrite Hk. by intros ->.
Qed.

(** ** Polling *)

Definition event_key (e : VsockEvent) : VsockAddr * Z := (ev_source e, port (ev_destination e)).

Lemma event_some l e gc i c : get_connection_for_event l e gc = Some (i, c) -> l !! i = Some c /\ key c = event_key e /\ cid (ev_destination e) = gc.
Proof. intros (Hi & Hm)%find_conn_some. split; [done|]. by apply matches_key. Qed.

(** The connection an event changed is found again. *)
Lemma event_again (l : list Connection) e gc i c c' :
  l !! i = Some c -> key c' = event_key e -> cid (ev_destination e) = gc ->
  exists j d, get_connection_for_event (<[i := c']> l) e gc = Some (j, d).
Proof.
  intros Hi Hk Hc. apply (find_conn_exists _ _ i c'); [apply list_lookup_insert_eq; by eapply lookup_lt_Some|]. by apply matches_key.
Qed.

Definition event_result (l : list Connection) (e : VsockEvent) (gc : Z) (o : outcome (Result (option VsockEvent) * list Connection)) : Prop :=
  exists r l', o = Ret (r, l') /\ table_ok capacity l' /\ keeps (Some (event_key e)) l l' /\
    match r with Ok (Some e') => e' = e /\ exists i c, get_connection_for_event l' e gc = Some (i, c) | _ => True end.

(** An event for the connection [c], after which [poll] finds it. *)
Lemma on_found l e gc body i c :
  table_ok capacity l -> l !! i = Some c -> key c = event_key e -> cid (ev_destination e) = gc ->
  event_result l e gc
    (let c := set_info c (update_for_event e (info c)) in
     match event_type e with
     | Received length =>
         do! (added, r) <- ring_add body (ring c);
         let conns := <[i := mkConn (info c) r (peer_requested_shutdown c)]> l in
         if added : bool then Ret (Ok (Some e), conns) else Ret (Err (SocketDeviceError (OutputBufferTooShort length)), conns)
     | _ => Ret (Ok (Some e), <[i := c]> l)
     end).
Proof.
  intros Ht Hi Hk Hc. destruct (ring_of _ _ _ Ht Hi) as [b Hb].
  assert (Hput : forall c', key c' = key c -> (exists b, ring_rep capacity (ring c') b) -> event_result l e gc (Ret (Ok (Some e), <[i := c']> l))).
  { intros c' Hk' Hr'. destruct (table_insert capacity l i c c' Ht Hi Hk' Hr') as [Ht' Hkk]. eexists _, _. split; [done|]. split; [done|].
    split; [intros k Hne; apply Hkk; rewrite Hk; by intros ->|]. split; [done|]. eapply event_again; [done|by rewrite Hk'|done]. }
  cbn zeta. cbn [ring set_info]. destruct (event_type e) eqn:Et; try (by apply Hput; [|eexists]).
  pose proof (ring_add_run _ _ _ body Hb) as Ha. destruct (_ <=? _).
  - destruct Ha as (r' & -> & Hr'). cbn [obind]. by apply Hput; [|eexists].
  - rewrite Ha. cbn [obind]. destruct (Hput (mkConn (update_for_event e (info c)) (ring c) (peer_requested_shutdown c)) eq_refl (ex_intro _ b Hb)) as (? & ? & [= <- <-] & ? & ? & _).
    by eexists _, _.
Qed.

Lemma on_event_safe l e gc body : table_ok capacity l -> event_result l e gc (on_event gc capacity e body l).
Proof using Hcap.
  intros Ht. unfold on_event. destruct (get_connection_for_event l e gc) as [[i c]|] eqn:Eg.
  { apply event_some in Eg as (Hi & Hk & Hc). by apply on_found. }
  assert (Hn : event_result l e gc (Ret (Ok None, l))) by (by eexists _, _).
  destruct (event_type e) eqn:Et; try exact Hn. destruct (Z.eqb_spec (cid (ev_destination e)) gc) as [Hc|]; [|exact Hn]. cbn [negb].
  set (c := conn_new _ _ _). destruct (table_push capacity l c Ht) as [Ht' Hkk].
  { apply find_conn_none in Eg. eapply Forall_impl; [exact Eg|]. intros x Hx Hk. cbn in Hx. apply not_true_iff_false in Hx. apply Hx. apply matches_key. by rewrite Hk. }
  { apply new_conn_ring. }
  pose proof (on_found (l ++ [c]) e gc body (length l) c Ht' ltac:(by rewrite lookup_app_r, Nat.sub_diag by lia) ltac:(done) Hc) as Hf. rewrite Et in Hf.
  destruct Hf as (r & l' & E & ? & Hke & ?). exists r, l'. split; [exact E|]. split; [done|]. split; [|done]. intros k Hne. rewrite Hke by done. apply Hkk. by intros ->.
Qed.

Lemma after_event_safe ps g e : mgr_inv ps g -> (exists i c, get_connection_for_event (connections g) e (guest_cid (driver g)) = Some (i, c)) ->
  exists r g', after_event e g = Ret (r, g') /\ mgr_inv ps g' /\ keeps (Some (event_key e)) (connections g) (connections g').
Proof using HSIZE.
  intros Hm (i & c & Eg). unfold after_event. rewrite Eg. apply event_some in Eg as (Hi & Hk & _).
  destruct (table_remove capacity _ i c (mi_table _ _ Hm) Hi) as [Ht2 Hk2].
  assert (Hrm : keeps (Some (event_key e)) (connections g) (swap_remove (connections g) i)) by (intros k Hne; apply Hk2; rewrite Hk; by intros ->).
  assert (Hctl : forall o f, exists s', control o f (info c) (driver g) = Ret (Ok tt, s') /\ mgr_inv ps (set_driver g s')).
  { intros o f. destruct (control_any o f (info c) (driver g) (mi_chan _ _ Hm)) as (ch & -> & Hch). eexists. split; [done|]. by apply mgr_inv_tx'. }
  destruct (event_type e) eqn:Et; try by eexists _, g.
  - destruct (bool_decide _).
    + destruct (Hctl Response 0) as (s' & E & Hm'). change accept_ with (control Response 0). rewrite E. by eexists _, _.
    + destruct (Hctl Rst 0) as (s' & E & Hm'). change force_close_ with (control Rst 0). rewrite E. eexists _, _. split; [done|]. split; [by apply mgr_inv_conns|done].
  - destruct (ring_is_empty _).
    + destruct (Hctl Rst 0) as (s' & E & Hm'). change force_close_ with (control Rst 0). rewrite E.
      destruct reason; cbn [obind]; (eexists _, _; split; [done|]; split; [apply mgr_inv_conns; [|done]|done]); [by destruct Hm|done].
    + destruct (table_insert capacity _ i c (mkConn (info c) (ring c) true) (mi_table _ _ Hm) Hi eq_refl (ring_of _ _ _ (mi_table _ _ Hm) Hi)) as [Ht3 Hk3].
      eexists _, _. split; [done|]. split; [by apply mgr_inv_conns|]. intros k Hne. apply Hk3. rewrite Hk. by intros ->.
  - destruct (Hctl CreditUpdate_ 0) as (s' & E & Hm'). change credit_update with (control CreditUpdate_ 0). rewrite E. by eexists _, _.
Qed.

(** What a packet is read as is about its connection. *)
Lemma packet_event p h body e : read_header_and_body p = Ok (h, body) -> from_header h = Ok e -> packet_key p = Some (event_key e).
Proof.
  unfold read_header_and_body, packet_key. destruct (read_from_prefix p) as [h'|]; [|done]. repeat case_match; try done. intros [= -> _] Hf. f_equal. revert Hf.
  unfold from_header. repeat case_match; try done; by intros [= <-].
Qed.

Lemma poll_safe ps g : mgr_inv ps g ->
  exists r g', poll g = Ret (r, g') /\ mgr_inv (tail ps) g' /\ keeps (about Poll ps) (connections g) (connections g').
Proof using HSIZE Hcap.
  intros Hm. unfold poll, poll_. destruct ps as [|p ps].
  { rewrite inbox_poll_empty by apply Hm. eexists _, _. split; [reflexivity|]. split; [destruct Hm; by constructor|done]. }
  rewrite (mi_cap _ _ Hm). match goal with |- context [inbox_poll ?h _ _] => set (hd := h) end.
  assert (exists r l', hd p (connections g) = Ret (r, l') /\ table_ok capacity l' /\ keeps (packet_key p) (connections g) l' /\
    match r with Ok (Some e) => packet_key p = Some (event_key e) /\ exists i c, get_connection_for_event l' e (guest_cid (driver g)) = Some (i, c) | _ => True end)
    as (r & l' & Eh & Ht & Hk & Hr).
  { pose proof (mi_table _ _ Hm) as Ht. unfold hd. destruct (read_header_and_body p) as [[h body]|] eqn:Er; [|by eexists _, _]. destruct (from_header h) as [e|] eqn:Ef; [|by eexists _, _].
    pose proof (packet_event _ _ _ _ Er Ef) as Ek. destruct (on_event_safe (connections g) e (guest_cid (driver g)) body Ht) as (r & l' & -> & Ht' & Hk & Hr).
    eexists _, _. split; [done|]. rewrite Ek. split_and!; [done..|]. destruct r as [[e'|]|]; try done. destruct Hr as [-> Hr]. done. }
  destruct (inbox_poll_first hd (connections g) l' r (rx (driver g)) p ps (mi_rx _ _ Hm) Eh) as (i & -> & Hi). cbn [obind].
  set (g1 := set_driver (set_connections g l') (set_rx (driver g) i)). assert (Hm1 : mgr_inv ps g1) by (destruct Hm; by constructor).
  destruct r as [[e|]|x]; [|by eexists _, g1..]. destruct Hr as [Ek Hf]. destruct (after_event_safe ps g1 e Hm1 Hf) as (r & g' & E & Hm' & Hk').
  exists r, g'. split; [exact E|]. split; [done|]. cbn [about]. intros k Hne. rewrite Hk' by (by rewrite <- Ek). by apply Hk.
Qed.

(** ** Runs *)

(** The packets waiting after a call. *)
Definition waits (c : call) (ps ps' : list bytes) : Prop :=
  match c with Poll => ps' = tail ps | Packet p => ps' = ps \/ ps' = ps ++ [p] | _ => ps' = ps end.

Lemma exec_safe c ps g : mgr_inv ps g -> call_ok c ->
  exists g' ps', exec c g = Ret g' /\ mgr_inv ps' g' /\ waits c ps ps' /\ keeps (about c ps) (connections g) (connections g').
Proof using HSIZE Hcap.
  intros Hm Hc. destruct c as [p|p|d sp|d sp data| |d sp n|d sp|d sp|d sp|p]; cbn [exec call_ok about waits] in *.
  - exists (listen p g), ps. split; [done|]. unfold listen. case_match; [done|]. split; [destruct Hm; by constructor|done].
  - exists (unlisten p g), ps. split; [done|]. split; [destruct Hm; by constructor|done].
  - destruct (connect_safe ps g d sp Hm) as (r & g' & -> & ? & ?). by exists g', ps.
  - destruct (send_safe ps g d sp data Hm Hc) as (r & g' & -> & ? & ?). by exists g', ps.
  - destruct (poll_safe ps g Hm) as (r & g' & -> & ? & ?). by eexists g', _.
  - destruct (recv_safe ps g d sp n Hm Hc) as (r & g' & -> & ? & ?). by exists g', ps.
  - destruct (on_conn_safe CreditUpdate_ 0 ps g d sp Hm) as (r & g' & E & ? & ?). change update_credit with (on_conn (control CreditUpdate_ 0)). rewrite E. by exists g', ps.
  - destruct (on_conn_safe Shutdown_ 3 ps g d sp Hm) as (r & g' & E & ? & ?). change shutdown with (on_conn (control Shutdown_ 3)). rewrite E. by exists g', ps.
  - destruct (force_close_safe ps g d sp Hm) as (r & g' & -> & ? & ?). by exists g', ps.
  - pose proof (arrive_ok (rx (driver g)) ps p (mi_rx _ _ Hm)) as Ha. destruct (inbox_arrive p _) as [i|]; [|by eexists g, ps; split_and!; [..|left|]].
    eexists _, _. split; [done|]. split; [destruct Hm; by constructor|]. split; [by right|done].
Qed.

Lemma exec_all_safe cs : forall ps g, mgr_inv ps g -> Forall call_ok cs -> exists g' ps', exec_all cs g = Ret g' /\ mgr_inv ps' g'.
Proof using HSIZE Hcap.
  induction cs as [|c cs IH]; intros ps g Hm Hc; [by exists g, ps|]. apply Forall_cons in Hc as [Hc1 Hc]. cbn [exec_all].
  destruct (exec_safe c ps g Hm Hc1) as (g1 & ps1 & -> & Hm1 & _). exact (IH ps1 g1 Hm1 Hc).
Qed.

(** Calls and packets that are not about the connection [k]. *)
Definition elsewhere (k : VsockAddr * Z) (c : call) : Prop :=
  match c with Packet p => packet_key p <> Some k | _ => about c [] <> Some k end.

Lemma exec_all_keeps k cs : forall ps g g', mgr_inv ps g -> Forall call_ok cs -> Forall (fun p => packet_key p <> Some k) ps -> Forall (elsewhere k) cs ->
  exec_all cs g = Ret g' -> table (connections g') !! k = table (connections g) !! k.
Proof using HSIZE Hcap.
  induction cs as [|c cs IH]; intros ps g g' Hm Hc Hp He; [by intros [= ->]|]. apply Forall_cons in Hc as [Hc1 Hc]. apply Forall_cons in He as [He1 He]. cbn [exec_all].
  destruct (exec_safe c ps g Hm Hc1) as (g1 & ps1 & -> & Hm1 & Hw & Hk). cbn [obind]. intros Hr. rewrite <- (Hk k).
  - apply (IH ps1 g1 g' Hm1 Hc); [|done|done]. destruct c; cbn in Hw, He1; try by subst.
    + subst. destruct ps; [done|]. by apply Forall_cons in Hp as [_ ?].
    + destruct Hw as [-> | ->]; [done|]. apply Forall_app. split; [done|by apply Forall_singleton].
  - destruct c; try done. cbn. destruct ps; [done|]. by apply Forall_cons in Hp as [? _].
Qed.
End safe.

(** C23: peers cannot break the manager, nor reach into each other's connections.  Take
    a manager whose receive buffers are of 1 to 2^32 - 1 bytes (with a capacity of 0 an
    empty data packet panics), over a transmit queue of at least two
    entries.  After any calls (data sent in slices below 2^32 bytes) and any packets,
    well-formed or not, from anyone: no call panics; no two connections have the same
    peer and port, and every receive buffer is a sound ring of the configured capacity.
    From there on, calls and packets that are not about the connection [k] leave it
    exactly as it is. *)
Theorem vsock_isolated {SIZE : Z} {HC : Channel} {HO : ChannelOk SIZE} {HI : Inbox} {HA : Arrivals} {HIO : InboxOk} capacity s cs k :
  2 <= SIZE -> 0 < capacity < 2 ^ 32 -> chan_ok (tx s) -> holds (rx s) [] -> Forall call_ok cs ->
  exists g ps, exec_all cs (new_with_capacity s capacity) = Ret g /\ holds (rx (driver g)) ps /\
    NoDup (key <$> connections g) /\ Forall (fun c => exists l, ring_rep capacity (ring c) l) (connections g) /\
    forall cs', Forall call_ok cs' -> Forall (fun p => packet_key p <> Some k) ps -> Forall (elsewhere k) cs' ->
      exists g', exec_all cs' g = Ret g' /\ table (connections g') !! k = table (connections g) !! k.
Proof.
  intros HS Hcap Hc Hh Hcs. destruct (exec_all_safe HS capacity Hcap cs [] (new_with_capacity s capacity)) as (g & ps & E & Hm); [|done|].
  { constructor; try done. split; [apply NoDup_nil_2|by apply Forall_nil]. }
  pose proof Hm as [_ Hrx _ [Hn Hr]]. exists g, ps. split_and!; try done. intros cs' Hcs' Hps He.
  destruct (exec_all_safe HS capacity Hcap cs' ps g Hm Hcs') as (g' & _ & E' & _). exists g'. split; [done|]. by eapply exec_all_keeps.
Qed.

(** The connection of an event, among any others. *)
Lemma find_at f (l : list Connection) i c :
  NoDup (key <$> l) -> l !! i = Some c -> (forall x, f x = true <-> key x = key c) -> find_conn f l = Some (i, c).
Proof.
  intros Hn Hi Hf. destruct (find_conn_exists f l i c Hi) as (j & d & E); [by apply Hf|]. rewrite E. pose proof E as (Hj & Hd)%find_conn_some. apply Hf in Hd.
  assert (j = i) as ->; [|congruence]. eapply (NoDup_lookup (key <$> l)); [done| |]; rewrite list_lookup_fmap, ?Hi, ?Hj; cbn; by rewrite ?Hd.
Qed.

(** Removing the element just written leaves the others. *)
Lemma swap_remove_others {A} (l : list A) i c c' : l !! i = Some c -> c :: swap_remove (<[i := c']> l) i ≡ₚ l.
Proof.
  intros Hi. pose proof (lookup_lt_Some _ _ _ Hi) as Hlt. pose proof (swap_remove_perm (<[i := c']> l) i c' ltac:(by apply list_lookup_insert_eq)) as Hp.
  rewrite (insert_take_drop l i c' Hlt) in Hp at 1. rewrite <- Permutation_middle in Hp. apply Permutation_cons_inv in Hp. rewrite <- Hp.
  rewrite <- (take_drop_middle l i c Hi) at 3. apply Permutation_middle.
Qed.

(** C38: a repeated request is not ignored.  The comment in [poll] says that a request for
    a connection that exists is ignored, but it is tested on a value that is [None]
    there.  Take any table of distinct connections, and let the next packet be a request
    of the peer of its connection [c].  If the port is still listened to, the request is
    accepted once more: a response is sent, the event is reported, and what the peer says
    of its buffer is taken over in that connection only.  If the port is not listened to
    any longer, the connection is reset: a reset is sent, exactly that connection goes,
    with what was not read, and no event is reported. *)
Theorem repeated_request_closes {SIZE : Z} {HC : Channel} {HO : ChannelOk SIZE} {HI : Inbox} {HA : Arrivals} {HIO : InboxOk} g i c h ps :
  2 <= SIZE -> chan_ok (tx (driver g)) -> NoDup (key <$> connections g) -> connections g !! i = Some c -> hdr_ok h -> op h = op_u16 Request -> len h = 0 ->
  source h = dst (info c) -> destination h = mkAddr (guest_cid (driver g)) (src_port (info c)) -> holds (rx (driver g)) (as_bytes h :: ps) ->
  let e := mkEvent (source h) (destination h) (hdr_buf_alloc h) (hdr_fwd_cnt h) ConnectionRequest in
  let sent o g' := behind (tx (driver g')) = behind (tx (driver g)) ++ [as_bytes (new_header o 0 0 (info c) (guest_cid (driver g)))] in
  exists g',
    if bool_decide (src_port (info c) ∈ listening_ports g)
    then poll g = Ret (Ok (Some e), g') /\ connections g' = <[i := set_info c (update_for_event e (info c))]> (connections g) /\ sent Response g'
    else poll g = Ret (Ok None, g') /\ c :: connections g' ≡ₚ connections g /\ sent Rst g'.
Proof.
  intros HS Hc Hnd Hi Hh Ho Hn Hsrc Hdst Hrx e sent. unfold poll, poll_.
  assert (Ef : from_header h = Ok e) by (unfold from_header, check_data_is_empty; rewrite Ho, Hn; done).
  assert (Er : read_header_and_body (as_bytes h) = Ok (h, [])) by (rewrite <- (app_nil_r (as_bytes h)); by apply (read_packet h [] [] Hh)).
  set (c1 := set_info c (update_for_event e (info c))). set (l := connections g) in *.
  assert (Hm : forall x, matches_connection e (info x) (guest_cid (driver g)) = true <-> key x = key c).
  { intros x. rewrite matches_key. unfold e. cbn [ev_source ev_destination]. rewrite Hsrc, Hdst. unfold key at 2. cbn [cid port]. naive_solver. }
  assert (Hi1 : (<[i := c1]> l) !! i = Some c1) by (apply list_lookup_insert_eq; by eapply lookup_lt_Some).
  assert (Hnd1 : NoDup (key <$> <[i := c1]> l)).
  { assert (key <$> <[i := c1]> l = key <$> l) as ->; [|done]. rewrite list_fmap_insert. apply list_insert_id. by rewrite list_lookup_fmap, Hi. }
  match goal with |- context [inbox_poll ?hd _ _] => destruct (inbox_poll_first hd l (<[i := c1]> l) (Ok (Some e)) (rx (driver g)) (as_bytes h) ps Hrx) as (ib & -> & _) end.
  { cbn beta. rewrite Er, Ef. unfold on_event, get_connection_for_event. by rewrite (find_at _ l i c Hnd Hi Hm). }
  cbn [obind]. unfold after_event, get_connection_for_event. cbn [connections set_driver set_connections driver set_rx guest_cid]. rewrite (find_at _ _ i c1 Hnd1 Hi1 Hm).
  change (event_type e) with ConnectionRequest. cbn iota. assert (port (ev_destination e) = src_port (info c)) as -> by (unfold e; cbn [ev_destination]; by rewrite Hdst).
  cbn [listening_ports set_driver set_connections]. change force_close_ with (control Rst 0). change accept_ with (control Response 0). unfold control.
  destruct (bool_decide _).
  - destruct (send_packet HS (new_header Response 0 0 (info c1) (guest_cid (driver g))) [] (set_rx (driver g) ib) Hc ltac:(done)) as (ch & E & _ & Hb). cbn [guest_cid set_rx]. rewrite E.
    cbn [obind]. eexists. split; [done|]. split; [done|]. unfold sent. cbn [driver set_driver set_connections tx set_tx]. rewrite Hb, app_nil_r. done.
  - destruct (send_packet HS (new_header Rst 0 0 (info c1) (guest_cid (driver g))) [] (set_rx (driver g) ib) Hc ltac:(done)) as (ch & E & _ & Hb). cbn [guest_cid set_rx]. rewrite E.
    cbn [obind]. eexists. split; [done|]. split; [by apply swap_remove_others|]. unfold sent. cbn [driver set_driver set_connections tx set_tx]. rewrite Hb, app_nil_r. done.
Qed.

Import Example_ends.

Lemma vsock_isolated_witness :
  exists g ps, exec_all [Connect (mkAddr 2 1234) 4321; Packet [1; 2; 3]; Poll] (Example_ends.manager false) = Ret g /\ holds (rx (driver g)) ps /\
    NoDup (key <$> connections g) /\ Forall (fun c => exists l, ring_rep 1024 (ring c) l) (connections g) /\
    forall cs', Forall call_ok cs' -> Forall (fun p => packet_key p <> Some (mkAddr 2 1234, 4321)) ps -> Forall (elsewhere (mkAddr 2 1234, 4321)) cs' ->
      exists g', exec_all cs' g = Ret g' /\ table (connections g') !! (mkAddr 2 1234, 4321) = table (connections g) !! (mkAddr 2 1234, 4321).
Proof.
  apply (vsock_isolated 1024 (driver (Example_ends.manager false)) [Connect (mkAddr 2 1234) 4321; Packet [1; 2; 3]; Poll] (mkAddr 2 1234, 4321)).
  - done.
  - done.
  - apply (Example_ends.manager_ready).
  - apply (Example_ends.manager_ready).
  - repeat constructor.
Defined.

Module Example_request.
Definition request : VirtioVsockHdr := mkHdr 2 66 1234 4321 0 1 (op_u16 Request) 0 1024 0.
(** Connected, with the request of the peer waiting. *)
Definition asked : VsockConnectionManager :=
  let s := driver (manager false) in
  let i := match inbox_arrive (as_bytes request) (rx s) with Some i => i | None => rx s end in
  mkMgr (set_rx s i) 1024 [conn_new (mkAddr 2 99) 7 1024; conn_new (mkAddr 2 1234) 4321 1024; conn_new (mkAddr 2 1234) 8 1024] [80].

Lemma request_waits : holds (rx (driver asked)) [as_bytes request].
Proof.
  pose proof (re_rx _ _ _ manager_ready false) as Hh. pose proof (arrive_ok _ [] (as_bytes request) Hh) as Ha. unfold asked. cbn [driver rx set_rx].
  destruct (inbox_arrive (as_bytes request) _) as [i|] eqn:E; [exact Ha|]. exfalso.
  assert (match inbox_arrive (as_bytes request) (rx (driver (manager false))) with Some _ => true | None => false end = true) as Hs by (vm_compute; reflexivity).
  by rewrite E in Hs.
Qed.
End Example_request.
Import Example_request.

Lemma repeated_request_closes_witness :
  exists g', poll asked = Ret (Ok None, g') /\
    conn_new (mkAddr 2 1234) 4321 1024 :: connections g' ≡ₚ [conn_new (mkAddr 2 99) 7 1024; conn_new (mkAddr 2 1234) 4321 1024; conn_new (mkAddr 2 1234) 8 1024] /\
    behind (tx (driver g')) = behind (tx (driver asked)) ++ [as_bytes (new_header Rst 0 0 (info (conn_new (mkAddr 2 1234) 4321 1024)) 66)].
Proof.
  apply (repeated_request_closes asked 1 (conn_new (mkAddr 2 1234) 4321 1024) request []).
  - done.
  - exact (mo_chan _ _ _ _ (re_mgr _ _ _ manager_ready false)).
  - cbn. rewrite !NoDup_cons, !not_elem_of_cons. split_and!; try discriminate; try apply not_elem_of_nil. apply NoDup_nil_2.
  - done.
  - constructor; cbn; lia.
  - done.
  - done.
  - done.
  - done.
  - exact request_waits.
Defined.
