(* ===== verification/VsockUp.v ===== *)
(** * Virtio sockets: start and end of the driver ([src/virtio-drivers-patched/src/device/socket/vsock.rs])

    [VirtIOSocket::new] over a transport, and its [Drop]. *)

From S2P Require Import Prelude Virtq Transport Channel.

Notation VSOCK_RX_QUEUE_IDX := 0.
Notation VSOCK_TX_QUEUE_IDX := 1.
Notation VSOCK_EVENT_QUEUE_IDX := 2.
Notation VSOCK_QUEUE_SIZE := 8.
Notation VSOCK_FEATURES := 0x7f79000003.
Definition VSOCK_SUPPORTED : Z := Z.lor (Z.lor (2 ^ 29) (2 ^ 28)) (2 ^ 32).

(** The queues of the driver, and [guest_cid]. *)
Record VirtIOSocketQueues := mkSocketQueues { so_rx : OwningQueue; so_tx : VirtQueue; so_event : VirtQueue; so_cid : Z }.

Definition vsock_new `{Transport.Transport} `{Hal} (RX_BUFFER_SIZE : Z) (fuel : nat) (t : tr) : outcome (Result VirtIOSocketQueues * tr) :=
  if RX_BUFFER_SIZE <=? 44 then Panic
  else
    let '(features, t) := begin_init VSOCK_FEATURES VSOCK_SUPPORTED t in
    do? (guest_cid, t) <- read_consistent fuel (fun t =>
      do? (low, t) <- read_config_space 4 4 0 t;
      do? (high, t) <- read_config_space 4 4 4 t;
      Ret (Ok (Z.lor low (Z.shiftl high 32)), t)) t;
    let ind := contains features (2 ^ 28) in
    let ev := contains features (2 ^ 29) in
    do? (rx, t) <- make_queue VSOCK_QUEUE_SIZE VSOCK_RX_QUEUE_IDX ind ev [] t;
    do? (tx, t) <- make_queue VSOCK_QUEUE_SIZE VSOCK_TX_QUEUE_IDX ind ev (hal_log rx) t;
    do? (event, t) <- make_queue VSOCK_QUEUE_SIZE VSOCK_EVENT_QUEUE_IDX ind ev (hal_log tx) t;
    do? (rx, t) <- (do! o <- owning_new VSOCK_QUEUE_SIZE RX_BUFFER_SIZE rx; Ret (o, t));
    let t := finish_init t in
    do! t <- (if should_notify (queue rx) then notify VSOCK_RX_QUEUE_IDX t else Ret t);
    Ret (Ok (mkSocketQueues rx tx event guest_cid), t).

Definition vsock_drop `{Transport.Transport} (fuel : nat) (t : tr) : outcome tr :=
  do! t <- queue_unset fuel VSOCK_RX_QUEUE_IDX t;
  do! t <- queue_unset fuel VSOCK_TX_QUEUE_IDX t;
  queue_unset fuel VSOCK_EVENT_QUEUE_IDX t.
