(* ===== verification/Blk.v ===== *)
(** * The block device ([src/virtio-drivers-patched/src/device/blk.rs])

    Reading, writing and flushing over a request channel, the same without waiting over
    a virtqueue, and bringing the device up over a transport. *)

From S2P Require Import Prelude Virtq Transport Channel.

Notation BLK_QUEUE := 0.
Notation BLK_QUEUE_SIZE := 16.
Notation SECTOR_SIZE := 512.

(** The flags [BlkFeature] has. *)
Notation BLK_FEATURES := 0x7f7901fef7.
Notation BLK_RO := (2 ^ 5).
Notation BLK_FLUSH := (2 ^ 9).
Definition BLK_SUPPORTED : Z := Z.lor (Z.lor (Z.lor (Z.lor BLK_RO BLK_FLUSH) (2 ^ 28)) (2 ^ 29)) (2 ^ 32).

(** ** Requests and answers *)

Inductive ReqType := In | Out | Flush | GetId | GetLifetime | Discard | WriteZeroes | SecureErase.
Definition req_u32 (t : ReqType) : Z :=
  match t with In => 0 | Out => 1 | Flush => 4 | GetId => 8 | GetLifetime => 10 | Discard => 11 | WriteZeroes => 13 | SecureErase => 14 end.
Record BlkReq := mkReq { type_ : ReqType; reserved : Z; sector : Z }.
Definition req_default : BlkReq := mkReq In 0 0.
Definition req_bytes (r : BlkReq) : bytes := le_bytes 4 (req_u32 (type_ r)) ++ le_bytes 4 (reserved r) ++ le_bytes 8 (sector r).

(** [RespStatus], and the result it stands for. *)
Notation RESP_OK := 0.
Notation RESP_IO_ERR := 1.
Notation RESP_UNSUPPORTED := 2.
Notation RESP_NOT_READY := 3.
Definition status_result (status : Z) : Result unit :=
  match status with
  | RESP_OK => Ok tt
  | RESP_IO_ERR => Err IoError
  | RESP_UNSUPPORTED => Err Unsupported
  | RESP_NOT_READY => Err NotReady
  | _ => Err IoError
  end.
(** [BlkResp::default()], one byte. *)
Definition resp_default : bytes := [RESP_NOT_READY].
Definition resp_status (resp : bytes) : Z := hd 0 resp.

(** ** The driver, over its queue *)

Record VirtIOBlk (Q : Type) := mkBlk { queue : Q; capacity : Z; negotiated_features : Z }.
Arguments mkBlk {Q}. Arguments queue {Q}. Arguments capacity {Q}. Arguments negotiated_features {Q}.
Definition with_queue {Q Q'} (d : VirtIOBlk Q) (q : Q') : VirtIOBlk Q' := mkBlk q (capacity d) (negotiated_features d).

Definition readonly {Q} (d : VirtIOBlk Q) : bool := contains (negotiated_features d) BLK_RO.

(** [VirtIOBlk::new]; [capacity_low] and [capacity_high] start the configuration. *)
Definition blk_new `{Transport.Transport} `{Hal} (fuel : nat) (t : tr) : outcome (Result (VirtIOBlk VirtQueue) * tr) :=
  let '(features, t) := begin_init BLK_FEATURES BLK_SUPPORTED t in
  do? (capacity, t) <- read_consistent fuel (fun t =>
    do? (low, t) <- read_config_space 4 4 0 t;
    do? (high, t) <- read_config_space 4 4 4 t;
    Ret (Ok (Z.lor low (Z.shiftl high 32)), t)) t;
  do? (q, t) <- make_queue BLK_QUEUE_SIZE BLK_QUEUE (contains features (2 ^ 28)) (contains features (2 ^ 29)) [] t;
  Ret (Ok (mkBlk q capacity features), finish_init t).

(** [Drop]. *)
Definition blk_drop `{Transport.Transport} (fuel : nat) (t : tr) : outcome tr := queue_unset fuel BLK_QUEUE t.

Section blocking.
Context `{Channel}.

(** The result, what the data buffer holds after, and the driver. *)
Definition exchange (ins : list bytes) (data : list bytes) (d : VirtIOBlk chan) : outcome (Result unit * list bytes * VirtIOBlk chan) :=
  do! (r, q) <- rpc ins (data ++ [resp_default]) (queue d);
  let d := with_queue d q in
  match r with
  | Err e => Ret (Err e, data, d)
  | Ok (_, outs) => Ret (status_result (resp_status (List.last outs [])), removelast outs, d)
  end.

Definition request (req : BlkReq) (d : VirtIOBlk chan) : outcome (Result unit * VirtIOBlk chan) :=
  do! (r, _, d) <- exchange [req_bytes req] [] d; Ret (r, d).
Definition request_read (req : BlkReq) (data : bytes) (d : VirtIOBlk chan) : outcome (Result unit * bytes * VirtIOBlk chan) :=
  do! (r, outs, d) <- exchange [req_bytes req] [data] d; Ret (r, hd [] outs, d).
Definition request_write (req : BlkReq) (data : bytes) (d : VirtIOBlk chan) : outcome (Result unit * VirtIOBlk chan) :=
  do! (r, _, d) <- exchange [req_bytes req; data] [] d; Ret (r, d).

Definition flush (d : VirtIOBlk chan) : outcome (Result unit * VirtIOBlk chan) :=
  if contains (negotiated_features d) BLK_FLUSH then request (mkReq Flush 0 0) d else Ret (Ok tt, d).

(** [device_id]: the length, and the 20 bytes. *)
Definition device_id (id : bytes) (d : VirtIOBlk chan) : outcome (Result Z * bytes * VirtIOBlk chan) :=
  do! (r, id, d) <- request_read (mkReq GetId 0 0) id d;
  Ret (match r with
       | Err e => Err e
       | Ok _ => Ok (match position (fun x => x =? 0) id with Some i => Z.of_nat i | None => 20 end)
       end, id, d).

Definition assert_sectors {A} (n : Z) (k : outcome A) : outcome A :=
  if n =? 0 then Panic else if n mod SECTOR_SIZE =? 0 then k else Panic.

Definition read_blocks (block_id : Z) (buf : bytes) (d : VirtIOBlk chan) : outcome (Result unit * bytes * VirtIOBlk chan) :=
  assert_sectors (zlen buf) (request_read (mkReq In 0 block_id) buf d).
Definition write_blocks (block_id : Z) (buf : bytes) (d : VirtIOBlk chan) : outcome (Result unit * VirtIOBlk chan) :=
  assert_sectors (zlen buf) (request_write (mkReq Out 0 block_id) buf d).
End blocking.

(** ** Without waiting

    The request, the data and the answer stay where the caller has them in memory; the
    device has the data and the answer until the request is complete. *)

Section nonblocking.
Context `{Transport.Transport} `{Hal}.

(** [add] and the notification. *)
Definition submit (ins outs : list Buffer) (d : VirtIOBlk VirtQueue) (t : tr) : outcome (Result Z * VirtIOBlk VirtQueue * tr) :=
  do! (r, q) <- add BLK_QUEUE_SIZE ins outs (queue d);
  let d := with_queue d q in
  match r with
  | Err e => Ret (Err e, d, t)
  | Ok token => do! t <- (if should_notify q then notify BLK_QUEUE t else Ret t); Ret (Ok token, d, t)
  end.

Definition read_blocks_nb (block_id req : Z) (buf : Buffer) (resp : Z) (m : mem) (d : VirtIOBlk VirtQueue) (t : tr) :
    outcome (Result Z * mem * VirtIOBlk VirtQueue * tr) :=
  assert_sectors (buf_len buf)
    (let m := mem_write m req (req_bytes (mkReq In 0 block_id)) in
     do! (r, d, t) <- submit [mkBuf req 16] [buf; mkBuf resp 1] d t;
     Ret (r, m, d, t)).
Definition write_blocks_nb (block_id req : Z) (buf : Buffer) (resp : Z) (m : mem) (d : VirtIOBlk VirtQueue) (t : tr) :
    outcome (Result Z * mem * VirtIOBlk VirtQueue * tr) :=
  assert_sectors (buf_len buf)
    (let m := mem_write m req (req_bytes (mkReq Out 0 block_id)) in
     do! (r, d, t) <- submit [mkBuf req 16; buf] [mkBuf resp 1] d t;
     Ret (r, m, d, t)).

Definition complete_ (token : Z) (ins outs : list Buffer) (resp : Z) (m : mem) (d : VirtIOBlk VirtQueue) : outcome (Result unit * VirtIOBlk VirtQueue) :=
  do! (r, q) <- pop_used BLK_QUEUE_SIZE token ins outs (queue d);
  Ret (match r with Err e => Err e | Ok _ => status_result (m resp) end, with_queue d q).
Definition complete_read_blocks (token req : Z) (buf : Buffer) (resp : Z) (m : mem) (d : VirtIOBlk VirtQueue) : outcome (Result unit * VirtIOBlk VirtQueue) :=
  complete_ token [mkBuf req 16] [buf; mkBuf resp 1] resp m d.
Definition complete_write_blocks (token req : Z) (buf : Buffer) (resp : Z) (m : mem) (d : VirtIOBlk VirtQueue) : outcome (Result unit * VirtIOBlk VirtQueue) :=
  complete_ token [mkBuf req 16; buf] [mkBuf resp 1] resp m d.

Definition blk_peek_used (d : VirtIOBlk VirtQueue) : outcome (option Z) := peek_used BLK_QUEUE_SIZE (queue d).
End nonblocking.

Definition set_interrupts (enable : bool) (d : VirtIOBlk VirtQueue) : VirtIOBlk VirtQueue := with_queue d (set_dev_notify enable (queue d)).
