(* ===== verification/BlkProofs.v ===== *)
(** * The block device: proofs

    Over any channel to a device that serves block requests as virtio documents them, the
    driver is a disk: an array of bytes that reads return and writes change. *)

From S2P Require Import Prelude Virtq VirtqInv VirtqRun VirtqThms VirtqOwn Transport Channel ChannelVirtq Blk.

(** ** The device

    [contents] is the disk, byte by byte.  A request is served with a status in its last
    buffer; the device may fail any of them, and a failed write leaves the sectors it
    names unknown. *)

Definition image := Z -> Z.
Definition load (img : image) (sector : Z) (n : nat) : bytes := (fun i => img (SECTOR_SIZE * sector + Z.of_nat i)) <$> seq 0 n.
Definition same_outside (a b : image) (sector n : Z) : Prop := forall o, o < SECTOR_SIZE * sector \/ SECTOR_SIZE * sector + n <= o -> a o = b o.

Class BlockDevice `{Device} := {
  contents : device -> image;
  device_name : device -> bytes;
  serve_in : forall s n d, 0 <= s < 2 ^ 64 -> 0 < n -> n mod SECTOR_SIZE = 0 ->
    let '(_, outs, d') := serve [req_bytes (mkReq In 0 s)] [n; 1] d in
    contents d' = contents d /\ device_name d' = device_name d /\ exists data status, outs = [data; [status]] /\ zlen data <= n /\ (status = RESP_OK -> data = load (contents d) s (Z.to_nat n));
  serve_out : forall s data d, 0 <= s < 2 ^ 64 -> 0 < zlen data -> zlen data mod SECTOR_SIZE = 0 ->
    let '(_, outs, d') := serve [req_bytes (mkReq Out 0 s); data] [1] d in
    same_outside (contents d') (contents d) s (zlen data) /\ device_name d' = device_name d /\
    exists status, outs = [[status]] /\ (status = RESP_OK -> load (contents d') s (length data) = data);
  serve_flush : forall d, let '(_, outs, d') := serve [req_bytes (mkReq Flush 0 0)] [1] d in
    contents d' = contents d /\ device_name d' = device_name d /\ exists status, outs = [[status]];
  serve_id : forall d, let '(_, outs, d') := serve [req_bytes (mkReq GetId 0 0)] [20; 1] d in
    contents d' = contents d /\ device_name d' = device_name d /\ exists data status, outs = [data; [status]] /\ zlen data <= 20 /\ (status = RESP_OK -> data = device_name d)
}.

(** ** The specification: a disk *)

Inductive op := Read (sector : Z) (buf : bytes) | Write_ (sector : Z) (data : bytes) | Sync | Ident (id : bytes).
Inductive answer := ARead (r : Result unit) (buf : bytes) | AWrite (r : Result unit) | ASync (r : Result unit) | AIdent (r : Result Z) (id : bytes).

(** The errors a status can mean. *)
Definition device_error (e : Error) : Prop := e = IoError \/ e = Unsupported \/ e = NotReady.

(** The first zero ends the name. *)
Definition name_length (id : bytes) : Z := match position (fun x => x =? 0) id with Some i => Z.of_nat i | None => 20 end.

Inductive disk_step (name : bytes) : op -> answer -> image -> image -> Prop :=
| disk_read s buf img : disk_step name (Read s buf) (ARead (Ok tt) (load img s (length buf))) img img
| disk_read_fails s buf buf' e img : device_error e -> length buf' = length buf -> disk_step name (Read s buf) (ARead (Err e) buf') img img
| disk_write s data img img' : same_outside img' img s (zlen data) -> load img' s (length data) = data -> disk_step name (Write_ s data) (AWrite (Ok tt)) img img'
| disk_write_fails s data e img img' : device_error e -> same_outside img' img s (zlen data) -> disk_step name (Write_ s data) (AWrite (Err e)) img img'
| disk_sync img : disk_step name Sync (ASync (Ok tt)) img img
| disk_sync_fails e img : device_error e -> disk_step name Sync (ASync (Err e)) img img
| disk_ident id img : disk_step name (Ident id) (AIdent (Ok (name_length (overlay id name))) (overlay id name)) img img
| disk_ident_fails id id' e img : device_error e -> disk_step name (Ident id) (AIdent (Err e) id') img img.

Inductive disk_run (name : bytes) : list op -> list answer -> image -> image -> Prop :=
| disk_done img : disk_run name [] [] img img
| disk_more o os a as_ img img1 img2 : disk_step name o a img img1 -> disk_run name os as_ img1 img2 -> disk_run name (o :: os) (a :: as_) img img2.

(** What callers may ask: whole sectors, and the 20 bytes of the name. *)
Definition op_fits (o : op) : Prop :=
  match o with
  | Read s b | Write_ s b => 0 <= s < 2 ^ 64 /\ 0 < zlen b < 2 ^ 32 /\ zlen b mod SECTOR_SIZE = 0
  | Sync => True
  | Ident id => zlen id = 20
  end.

(** ** The driver *)

Section driver.
Context {SIZE : Z} {HC : Channel} {HD : Device} {HO : ChannelOk SIZE} {HB : BlockDevice} (HSIZE : 3 <= SIZE).

Definition exec (o : op) (d : VirtIOBlk chan) : outcome (answer * VirtIOBlk chan) :=
  match o with
  | Read s buf => do! (r, buf, d) <- read_blocks s buf d; Ret (ARead r buf, d)
  | Write_ s data => do! (r, d) <- write_blocks s data d; Ret (AWrite r, d)
  | Sync => do! (r, d) <- flush d; Ret (ASync r, d)
  | Ident id => do! (r, id, d) <- device_id id d; Ret (AIdent r id, d)
  end.
Fixpoint exec_all (os : list op) (d : VirtIOBlk chan) : outcome (list answer * VirtIOBlk chan) :=
  match os with
  | [] => Ret ([], d)
  | o :: os' => do! (a, d) <- exec o d; do! (as_, d) <- exec_all os' d; Ret (a :: as_, d)
  end.

Lemma status_error status : match status_result status with Ok _ => status = RESP_OK | Err e => status <> RESP_OK /\ device_error e end.
Proof. unfold device_error. destruct status as [|[[p|p|]|[p|p|]|]|p]; cbn; auto. Qed.

Lemma req_bytes_length r : zlen (req_bytes r) = 16.
Proof. unfold req_bytes, zlen. by rewrite !length_app, !le_bytes_length. Qed.

(** One request, with at most one buffer of data either way. *)
Lemma exchange_run req extra (data : list bytes) d :
  chan_ok (queue d) -> (length extra + length data <= 1)%nat -> Forall (fun b => 0 < zlen b < 2 ^ 32) (extra ++ data) ->
  let '(_, outs, dev) := serve (req_bytes req :: extra) (zlen <$> data ++ [resp_default]) (behind (queue d)) in
  length outs = S (length data) ->
  exists q, exchange (req_bytes req :: extra) data d =
    Ret (status_result (resp_status (List.last (zip_with overlay (data ++ [resp_default]) outs) [])), removelast (zip_with overlay (data ++ [resp_default]) outs), with_queue d q) /\
    chan_ok q /\ behind q = dev.
Proof using HSIZE.
  intros Hc Hl Hb. pose proof (rpc_ok (req_bytes req :: extra) (data ++ [resp_default]) (queue d) Hc) as Hr.
  destruct (serve _ _ _) as [[n outs] dev]. intros Ho. unfold exchange. destruct Hr as (q & -> & Hq & Hbd); [|by exists q].
  split.
  - unfold zlen. cbn. rewrite !length_app. cbn. lia.
  - apply Forall_app in Hb as [? ?]. constructor; [rewrite req_bytes_length; lia|]. apply Forall_app. split; [done|]. apply Forall_app. split; [done|]. by repeat constructor.
Qed.

Lemma overlay_all buf data : length data = length buf -> overlay buf data = data.
Proof. intros E. unfold overlay. rewrite drop_ge by lia. apply app_nil_r. Qed.
Lemma overlay_length buf data : zlen data <= zlen buf -> length (overlay buf data) = length buf.
Proof. unfold overlay, zlen. rewrite length_app, length_drop. lia. Qed.
Lemma load_length img s n : length (load img s n) = n.
Proof. unfold load. by rewrite length_fmap, length_seq. Qed.

(** One operation of the driver is one of the disk. *)
Lemma exec_disk o d : chan_ok (queue d) -> op_fits o ->
  exists a q, exec o d = Ret (a, with_queue d q) /\ chan_ok q /\ disk_step (device_name (behind (queue d))) o a (contents (behind (queue d))) (contents (behind q)) /\
    device_name (behind q) = device_name (behind (queue d)).
Proof using HB HSIZE.
  intros Hc Hf. destruct o as [s buf|s data| |id]; cbn [exec op_fits] in *.
  - unfold read_blocks, assert_sectors, request_read. destruct Hf as (Hsec & Hn & Hm). rewrite (proj2 (Z.eqb_neq _ _)), Hm by lia. cbn [Z.eqb].
    pose proof (exchange_run (mkReq In 0 s) [] [buf] d Hc ltac:(cbn; lia) ltac:(by apply Forall_singleton)) as Hr. pose proof (serve_in s (zlen buf) (behind (queue d)) Hsec ltac:(lia) Hm) as Hs.
    change (zlen <$> [buf] ++ [resp_default]) with [zlen buf; 1] in Hr. destruct (serve _ _ _) as [[n outs] dev]. destruct Hs as (Ec & En & got & status & -> & Hl & Hok). destruct (Hr eq_refl) as (q & -> & Hq & Hbd). cbn.
    pose proof (status_error status) as Hst. destruct (status_result status) as [[]|e]; (eexists _, q; split; [reflexivity|]; split; [done|]; rewrite Hbd, Ec; split; [|done]).
    + subst status. rewrite (Hok eq_refl). assert (Z.to_nat (zlen buf) = length buf) as -> by (unfold zlen; lia). rewrite overlay_all by apply load_length. constructor.
    + constructor; [by apply Hst|]. by apply overlay_length.
  - unfold write_blocks, assert_sectors, request_write. destruct Hf as (Hsec & Hn & Hm). rewrite (proj2 (Z.eqb_neq _ _)), Hm by lia. cbn [Z.eqb].
    pose proof (exchange_run (mkReq Out 0 s) [data] [] d Hc ltac:(cbn; lia) ltac:(by apply Forall_singleton)) as Hr. pose proof (serve_out s data (behind (queue d)) Hsec ltac:(lia) Hm) as Hs.
    change (zlen <$> [] ++ [resp_default]) with [1] in Hr. destruct (serve _ _ _) as [[n outs] dev]. destruct Hs as (Ec & En & status & -> & Hok). destruct (Hr eq_refl) as (q & -> & Hq & Hbd). cbn.
    pose proof (status_error status) as Hst. destruct (status_result status) as [[]|e]; (eexists _, q; split; [reflexivity|]; split; [done|]; rewrite Hbd; split; [|done]).
    + constructor; [done|by apply Hok].
    + constructor; [by apply Hst|done].
  - unfold flush, request. destruct (contains _ _); [|exists (ASync (Ok tt)), (queue d); split; [by destruct d|]; split; [done|]; split; [constructor|done]].
    pose proof (exchange_run (mkReq Flush 0 0) [] [] d Hc ltac:(cbn; lia) ltac:(by apply Forall_nil_2)) as Hr. pose proof (serve_flush (behind (queue d))) as Hs.
    change (zlen <$> [] ++ [resp_default]) with [1] in Hr. destruct (serve _ _ _) as [[n outs] dev]. destruct Hs as (Ec & En & status & ->). destruct (Hr eq_refl) as (q & -> & Hq & Hbd). cbn.
    pose proof (status_error status) as Hst. destruct (status_result status) as [[]|e]; (eexists _, q; split; [reflexivity|]; split; [done|]; rewrite Hbd, Ec; split; [|done]); [constructor|by constructor; apply Hst].
  - unfold device_id, request_read. pose proof (exchange_run (mkReq GetId 0 0) [] [id] d Hc ltac:(cbn; lia) ltac:(apply Forall_singleton; lia)) as Hr. pose proof (serve_id (behind (queue d))) as Hs.
    change (zlen <$> [id] ++ [resp_default]) with [zlen id; 1] in Hr. rewrite Hf in Hr. destruct (serve _ _ _) as [[n outs] dev]. destruct Hs as (Ec & En & got & status & -> & Hl & Hok). destruct (Hr eq_refl) as (q & -> & Hq & Hbd). cbn.
    pose proof (status_error status) as Hst. destruct (status_result status) as [[]|e]; (eexists _, q; split; [reflexivity|]; split; [done|]; rewrite Hbd, Ec; split; [|done]).
    + rewrite (Hok Hst). constructor.
    + constructor. by apply Hst.
Qed.

Lemma exec_all_disk os : forall d, chan_ok (queue d) -> Forall op_fits os ->
  exists as_ q, exec_all os d = Ret (as_, with_queue d q) /\ chan_ok q /\
    disk_run (device_name (behind (queue d))) os as_ (contents (behind (queue d))) (contents (behind q)).
Proof using HB HSIZE.
  induction os as [|o os IH]; intros d Hc Hf.
  { exists [], (queue d). split; [by destruct d|]. split; [done|constructor]. }
  apply Forall_cons in Hf as [Ho Hf]. cbn [exec_all]. destruct (exec_disk o d Hc Ho) as (a & q & -> & Hq & Hs & Hn). cbn [obind].
  destruct (IH (with_queue d q) Hq Hf) as (as_ & q' & -> & Hq' & Hr). cbn [obind]. exists (a :: as_), q'. split; [done|]. split; [done|].
  cbn [queue with_queue] in Hr. rewrite Hn in Hr. by econstructor.
Qed.
End driver.

(** C11: the block driver is a disk.  Over a channel to a device that serves block
    requests as documented, any reads, writes, flushes and queries of the name, of whole
    sectors, run without a panic; a read that succeeds returns the bytes of the disk at
    its sector, a write that succeeds puts its bytes there and changes nothing else, and
    a request the device fails is an error of the driver and is nowhere taken for a
    success. *)
Theorem blk_refines_disk {SIZE : Z} {HC : Channel} {HD : Device} {HO : ChannelOk SIZE} {HB : BlockDevice} d os :
  3 <= SIZE -> chan_ok (queue d) -> Forall op_fits os ->
  exists as_ q, exec_all os d = Ret (as_, with_queue d q) /\ chan_ok q /\
    disk_run (device_name (behind (queue d))) os as_ (contents (behind (queue d))) (contents (behind q)).
Proof. intros HS Hc Hf. by apply exec_all_disk. Qed.

(** ** A disk in memory *)

Module Example_disk.
#[export] Existing Instance demo_hal.
Record ram := mkRam { ram_image : image; ram_name : bytes }.
Definition field (a n : nat) (r : bytes) : Z := le_val (take n (drop a r)).
Definition store (img : image) (sector : Z) (data : bytes) : image := mem_write img (SECTOR_SIZE * sector) data.
(** The device writes no more than a buffer holds. *)
Definition clip (ns : list Z) (outs : list bytes) : list bytes := zip_with (fun n b => take (Z.to_nat n) b) ns outs.
#[export] Instance ram_device : Device := {|
  device := ram;
  serve ins ns d :=
    match ins, ns with
    | [r], [n; _] => if field 0 4 r =? 0 then (n + 1, clip ns [load (ram_image d) (field 8 8 r) (Z.to_nat n); [RESP_OK]], d) else (21, clip ns [ram_name d; [RESP_OK]], d)
    | [r], [_] => (1, clip ns [[RESP_OK]], d)
    | [r; data], [_] => (1, clip ns [[RESP_OK]], mkRam (store (ram_image d) (field 8 8 r) data) (ram_name d))
    | _, _ => (0, (fun _ => []) <$> ns, d)
    end
|}.

Lemma req_sector r : 0 <= sector r < 2 ^ 64 -> field 8 8 (req_bytes r) = sector r.
Proof. intros Hs. unfold field, req_bytes. rewrite app_assoc, drop_app_length' by (by rewrite !length_app, !le_bytes_length). rewrite take_ge by (rewrite le_bytes_length; lia). by apply (le_val_bytes 8). Qed.
Lemma req_type r : field 0 4 (req_bytes r) = req_u32 (type_ r).
Proof. unfold field, req_bytes. rewrite drop_0, take_app_length' by (by rewrite le_bytes_length). apply (le_val_bytes 4). by destruct (type_ r). Qed.

#[local] Arguments field : simpl never.
#[local] Arguments req_bytes : simpl never.
#[export] Instance ram_disk : BlockDevice.
Proof.
  refine {| contents := ram_image; device_name d := take 20 (ram_name d) |}.
  - intros s n d Hs Hn Hm. cbn. rewrite req_type, req_sector by done. cbn. split_and!; try done. eexists _, 0. split; [done|].
    rewrite take_ge by (by rewrite load_length). unfold zlen. rewrite load_length. split; [lia|done].
  - intros s data d Hs Hn Hm. cbn. rewrite req_sector by done. cbn. split_and!; [|done|].
    + intros o Ho. unfold store. apply mem_write_outside. lia.
    + exists 0. split; [done|]. intros _. unfold load, store. apply list_eq. intros i. rewrite list_lookup_fmap.
      destruct (decide (i < length data)%nat) as [Hi|Hi].
      * rewrite lookup_seq_lt by done. cbn. destruct (data !! i) as [x|] eqn:E; [|by apply lookup_ge_None in E; lia]. f_equal. by apply mem_write_inside.
      * rewrite (lookup_ge_None_2 data) by lia. rewrite lookup_ge_None_2; [done|]. rewrite length_seq. lia.
  - intros d. cbn. split_and!; [done..|by eexists].
  - intros d. cbn. rewrite req_type. cbn. split_and!; try done. eexists _, 0. split; [done|]. unfold zlen. rewrite length_take. split; [lia|done].
Defined.

Lemma clip_fits (ns : list Z) outs : length outs = length ns -> Forall (fun n => 0 <= n) ns -> Forall2 fits_in (clip ns outs) ns.
Proof.
  intros Hl Hn. revert outs Hl. induction Hn as [|n ns Hn _ IH]; intros [|b outs] Hl; try done; constructor; [|apply IH; by injection Hl].
  unfold fits_in, zlen. rewrite length_take. lia.
Qed.
Lemma ram_fits ins (outs : list bytes) (d : device) : let '(n, written, _) := serve ins (zlen <$> outs) d in Forall2 fits_in written (zlen <$> outs).
Proof.
  assert (Hn : forall ns, Forall (fun n => 0 <= n) ns -> Forall2 fits_in ((fun _ : Z => []) <$> ns) ns).
  { intros ns H. induction H; cbn; constructor; [done|]. done. }
  assert (Hp : Forall (fun n => 0 <= n) (zlen <$> outs)) by (apply Forall_fmap, Forall_true; intros b; apply zlen_nonneg).
  revert Hp. generalize (zlen <$> outs). intros ns Hp. destruct ins as [|r [|data [|]]], ns as [|n1 [|n2 [|]]]; cbn [serve ram_device]; repeat case_match; simplify_eq; solve [by apply Hn | by apply clip_fits].
Qed.

#[export] Instance channel : Channel := VirtqChannel 2 (stack 65536).
#[export] Instance channel_ok : ChannelOk (2 ^ 2) := VirtqChannelOk 2 ltac:(lia) (stack 65536) (fun _ _ _ => eq_refl) (stack_apart 65536) ram_fits.

(** A new queue to an empty disk. *)
Definition blk : VirtIOBlk chan := mkBlk (mkLink (demo_queue true) (fun _ => 0) (mkRam (fun _ => 0) [100; 105; 115; 107])) 8 BLK_FLUSH.
Lemma blk_ok : chan_ok (queue blk).
Proof.
  assert (En : new 4 demo_transport 0 true false [] = Ret (Ok (demo_queue true, demo_set true))) by (vm_compute; reflexivity).
  exact (new_link_ok 2 ltac:(lia) _ _ _ _ _ _ _ _ _ En).
Qed.
End Example_disk.
Import Example_disk.

Lemma blk_refines_disk_witness :
  let os := [Write_ 1 (replicate 512 7); Read 1 (replicate 512 0); Sync; Ident (replicate 20 0)] in
  exists as_ q, exec_all os Example_disk.blk = Ret (as_, with_queue Example_disk.blk q) /\ chan_ok q /\
    disk_run [100; 105; 115; 107] os as_ (fun _ => 0) (contents (behind q)).
Proof.
  refine (blk_refines_disk (SIZE := 2 ^ 2) Example_disk.blk [Write_ 1 (replicate 512 7); Read 1 (replicate 512 0); Sync; Ident (replicate 20 0)] _ _ _).
  - done.
  - apply Example_disk.blk_ok.
  - repeat constructor; done || lia.
Defined.
