(* ===== verification/Console.v ===== *)
(** * The console ([src/virtio-drivers-patched/src/device/console.rs], [console/embedded_io.rs])

    One receive buffer, offered to the device whenever it is used up, from which the
    driver hands out bytes; and a transmit queue that is a [Channel].  The receive queue
    with its buffer is a [Slot]. *)

From S2P Require Import Prelude Virtq Transport Channel.

(** ** A receive queue with one buffer *)

(** [slot_add] is [add] with the buffer, [slot_pop] is [pop_used] with it; [slot_buf] are
    its bytes. *)
Class Slot := {
  slot : Type;
  slot_add : slot -> outcome (Result Z * slot);
  slot_should_notify : slot -> bool;
  slot_peek : slot -> outcome (option Z);
  slot_pop : Z -> slot -> outcome (Result Z * slot);
  slot_buf : slot -> bytes
}.

Notation QUEUE_RECEIVEQ_PORT_0 := 0.
Notation QUEUE_TRANSMITQ_PORT_0 := 1.
Notation CONSOLE_QUEUE_SIZE := 2.
(** The flags [Features] of the console has. *)
Notation CONSOLE_FEATURES := 0x7f79000007.
Notation CON_SIZE := (2 ^ 0).
Notation CON_EMERG_WRITE := (2 ^ 2).
Definition CONSOLE_SUPPORTED : Z := Z.lor (Z.lor (Z.lor (Z.lor (2 ^ 29) (2 ^ 28)) CON_SIZE) CON_EMERG_WRITE) (2 ^ 32).

Record Size := mkSize { columns : Z; rows : Z }.

(** [kicks] are the queues the transport was told of. *)
Record VirtIOConsole (R T : Type) := mkConsole {
  con_features : Z;
  receiveq : R;
  transmitq : T;
  cursor : Z;
  pending_len : Z;
  receive_token : option Z;
  kicks : list Z
}.
Arguments mkConsole {R T}. Arguments con_features {R T}. Arguments receiveq {R T}. Arguments transmitq {R T}. Arguments cursor {R T}.
Arguments pending_len {R T}. Arguments receive_token {R T}. Arguments kicks {R T}.

Definition set_receiveq {R T} (c : VirtIOConsole R T) (r : R) : VirtIOConsole R T :=
  mkConsole (con_features c) r (transmitq c) (cursor c) (pending_len c) (receive_token c) (kicks c).
Definition set_transmitq {R T T'} (c : VirtIOConsole R T) (t : T') : VirtIOConsole R T' :=
  mkConsole (con_features c) (receiveq c) t (cursor c) (pending_len c) (receive_token c) (kicks c).
Definition set_cursor {R T} (c : VirtIOConsole R T) (n : Z) : VirtIOConsole R T :=
  mkConsole (con_features c) (receiveq c) (transmitq c) n (pending_len c) (receive_token c) (kicks c).

Section receive.
Context `{Slot} {T : Type}.
Notation Con := (VirtIOConsole slot T).

Definition poll_retrieve (c : Con) : outcome (Result unit * Con) :=
  match receive_token c with
  | None =>
      if cursor c =? pending_len c then
        do! (r, q) <- slot_add (receiveq c);
        match r with
        | Err e => Ret (Err e, set_receiveq c q)
        | Ok token =>
            Ret (Ok tt, mkConsole (con_features c) q (transmitq c) (cursor c) (pending_len c) (Some token)
                          (if slot_should_notify q then kicks c ++ [QUEUE_RECEIVEQ_PORT_0] else kicks c))
        end
      else Ret (Ok tt, c)
  | Some _ => Ret (Ok tt, c)
  end.

Definition finish_receive (c : Con) : outcome (Result bool * Con) :=
  match receive_token c with
  | None => Ret (Ok false, c)
  | Some token =>
      do! p <- slot_peek (receiveq c);
      if bool_decide (p = Some token) then
        do! (r, q) <- slot_pop token (receiveq c);
        match r with
        | Err e => Ret (Err e, set_receiveq c q)
        | Ok len => if len =? 0 then Panic else Ret (Ok true, mkConsole (con_features c) q (transmitq c) 0 len None (kicks c))
        end
      else Ret (Ok false, c)
  end.

(** [status] is what [transport.ack_interrupt()] returns. *)
Definition ack_interrupt (status : Z) (c : Con) : outcome (Result bool * Con) :=
  if contains status 1 then finish_receive c else Ret (Ok false, c).

Definition recv (pop : bool) (c : Con) : outcome (Result (option Z) * Con) :=
  do? (_, c) <- finish_receive c;
  if cursor c =? pending_len c then Ret (Ok None, c)
  else
    do! ch <- get (slot_buf (receiveq c)) (cursor c);
    if pop then
      do? (_, c) <- poll_retrieve (set_cursor c (u64 (cursor c + 1)));
      Ret (Ok (Some ch), c)
    else Ret (Ok (Some ch), c).

(** [wait_for_receive]: [sees] is what the device does to the queue before each look. *)
Fixpoint wait_loop (sees : list (slot -> slot)) (c : Con) : outcome (Result unit * Con) :=
  if cursor c =? pending_len c then
    match sees with
    | [] => OutOfFuel
    | f :: sees' =>
        do? (_, c) <- finish_receive (set_receiveq c (f (receiveq c)));
        wait_loop sees' c
    end
  else Ret (Ok tt, c).
Definition wait_for_receive (sees : list (slot -> slot)) (c : Con) : outcome (Result unit * Con) :=
  do? (_, c) <- poll_retrieve c; wait_loop sees c.

(** *** [embedded_io] *)

Definition read_ready (c : Con) : outcome (Result bool * Con) :=
  do? (_, c) <- finish_receive c; Ret (Ok (negb (cursor c =? pending_len c)), c).

(** [&buf[a..b]]. *)
Definition range (l : bytes) (a b : Z) : outcome bytes :=
  if (a <=? b) && (b <=? zlen l) then Ret (take (Z.to_nat (b - a)) (drop (Z.to_nat a) l)) else Panic.

(** [read] into a buffer of [n] bytes. *)
Definition read (sees : list (slot -> slot)) (n : Z) (c : Con) : outcome (Result bytes * Con) :=
  if n =? 0 then Ret (Ok [], c)
  else
    do? (_, c) <- wait_for_receive sees c;
    let read_length := Z.min n (u64 (pending_len c - cursor c)) in
    do! b <- range (slot_buf (receiveq c)) (cursor c) (u64 (cursor c + read_length));
    Ret (Ok b, set_cursor c (u64 (cursor c + read_length))).

Definition fill_buf (sees : list (slot -> slot)) (c : Con) : outcome (Result bytes * Con) :=
  do? (_, c) <- wait_for_receive sees c;
  do! b <- range (slot_buf (receiveq c)) (cursor c) (pending_len c);
  Ret (Ok b, c).

Definition consume (amt : Z) (c : Con) : outcome Con :=
  if u64 (cursor c + amt) <=? pending_len c then Ret (set_cursor c (u64 (cursor c + amt))) else Panic.
End receive.

Section transmit.
Context `{Channel} {R : Type}.
Notation Con := (VirtIOConsole R chan).

Definition send_bytes (buffer : bytes) (c : Con) : outcome (Result unit * Con) :=
  do! (r, q) <- rpc [buffer] [] (transmitq c);
  Ret (match r with Err e => Err e | Ok _ => Ok tt end, set_transmitq c q).
Definition send (chr : Z) (c : Con) : outcome (Result unit * Con) := send_bytes [chr] c.
(** [fmt::Write]: [false] is [fmt::Error]. *)
Definition write_str (s : bytes) (c : Con) : outcome (bool * Con) :=
  do! (r, c) <- send_bytes s c; Ret (match r with Ok _ => true | Err _ => false end, c).
(** [embedded_io::Write]. *)
Definition write (buf : bytes) (c : Con) : outcome (Result Z * Con) :=
  match buf with
  | [] => Ret (Ok 0, c)
  | _ => do? (_, c) <- send_bytes buf c; Ret (Ok (zlen buf), c)
  end.
End transmit.

(** ** The configuration *)

Section config.
Context `{Transport.Transport} {R T : Type}.

Definition size (fuel : nat) (c : VirtIOConsole R T) (t : tr) : outcome (Result (option Size) * tr) :=
  if contains (con_features c) CON_SIZE then
    read_consistent fuel (fun t =>
      do? (cols, t) <- read_config_space 2 2 0 t;
      do? (rows, t) <- read_config_space 2 2 2 t;
      Ret (Ok (Some (mkSize cols rows)), t)) t
  else Ret (Ok None, t).

Definition emergency_write (chr : Z) (c : VirtIOConsole R T) (t : tr) : outcome (Result unit * tr) :=
  if contains (con_features c) CON_EMERG_WRITE then write_config_space 4 4 8 chr t else Ret (Err Unsupported, t).
End config.

(** ** The virtqueue with its buffer *)

Section virtq.
Context `{Hal}.

Record port := mkPort { p_q : VirtQueue; p_buf : Z; p_mem : mem }.
#[local] Instance VirtqSlot : Slot := {|
  slot := port;
  slot_add s := do! (r, q) <- add CONSOLE_QUEUE_SIZE [] [mkBuf (p_buf s) PAGE_SIZE] (p_q s); Ret (r, mkPort q (p_buf s) (p_mem s));
  slot_should_notify s := should_notify (p_q s);
  slot_peek s := peek_used CONSOLE_QUEUE_SIZE (p_q s);
  slot_pop token s := do! (r, q) <- pop_used CONSOLE_QUEUE_SIZE token [] [mkBuf (p_buf s) PAGE_SIZE] (p_q s); Ret (r, mkPort q (p_buf s) (p_mem s));
  slot_buf s := mem_read (p_mem s) (p_buf s) (Z.to_nat PAGE_SIZE)
|}.

(** [VirtIOConsole::new]; the buffer is a zeroed box. *)
Definition console_new `{Transport.Transport} (m : mem) (t : tr) : outcome (Result (VirtIOConsole port VirtQueue) * tr) :=
  let '(features, t) := begin_init CONSOLE_FEATURES CONSOLE_SUPPORTED t in
  let ind := contains features (2 ^ 28) in
  let ev := contains features (2 ^ 29) in
  do? (rx, t) <- make_queue CONSOLE_QUEUE_SIZE QUEUE_RECEIVEQ_PORT_0 ind ev [] t;
  do? (tx, t) <- make_queue CONSOLE_QUEUE_SIZE QUEUE_TRANSMITQ_PORT_0 ind ev (hal_log rx) t;
  let buf := hal_box (hal_log tx) PAGE_SIZE in
  let t := finish_init t in
  do! (r, c) <- poll_retrieve (mkConsole features (mkPort rx buf (mem_write m buf (replicate (Z.to_nat PAGE_SIZE) 0))) tx 0 0 None []);
  match r with
  | Err e => Ret (Err e, t)
  | Ok _ => do! t <- (match kicks c with [] => Ret t | _ => notify QUEUE_RECEIVEQ_PORT_0 t end); Ret (Ok c, t)
  end.

Definition console_drop `{Transport.Transport} (fuel : nat) (t : tr) : outcome tr :=
  do! t <- queue_unset fuel QUEUE_RECEIVEQ_PORT_0 t; queue_unset fuel QUEUE_TRANSMITQ_PORT_0 t.
End virtq.
