(* ===== verification/ConsoleProofs.v ===== *)
(** * The console: proofs

    The receive side is a machine with one buffer: it is with the device, filled, or with
    the driver.  Every call does and answers what the machine says, in every combination,
    panics included; the machine hands out what the device delivers, in order.  The
    contract of the receive queue is the class [SlotOk], which the virtqueue keeps. *)

From S2P Require Import Prelude Virtq VirtqInv VirtqRun VirtqThms VirtqOwn Transport Channel ChannelVirtq Console.

(** ** What a slot promises *)

(** The device fills the buffer when it has it; [Idle]: the driver has the buffer;
    [Waiting]: the device has it; [Ready]: it is filled. *)
Class SlotOk `{Slot} := {
  slot_fill : bytes -> slot -> option slot;
  Idle : slot -> Prop;
  Waiting : slot -> Z -> Prop;
  Ready : slot -> Z -> bytes -> Prop;
  idle_add : forall s, Idle s -> exists t s', slot_add s = Ret (Ok t, s') /\ Waiting s' t;
  idle_full : forall s p, Idle s -> slot_fill p s = None;
  waiting_peek : forall s t, Waiting s t -> slot_peek s = Ret None;
  waiting_fill : forall s t p, Waiting s t -> zlen p <= PAGE_SIZE -> exists s', slot_fill p s = Some s' /\ Ready s' t p;
  ready_full : forall s t p p', Ready s t p -> slot_fill p' s = None;
  ready_peek : forall s t p, Ready s t p -> slot_peek s = Ret (Some t);
  ready_pop : forall s t p, Ready s t p -> exists s', slot_pop t s = Ret (Ok (zlen p), s') /\ Idle s' /\ take (length p) (slot_buf s') = p;
  ready_size : forall s t p, Ready s t p -> zlen p <= PAGE_SIZE
}.

(** ** The specification *)

(** [Deliver]: the device, when it has the buffer.  [ReadBytes n p] and [FillBuf p]: calls
    that block, while the device has [p] to deliver. *)
Inductive event := Deliver (p : bytes) | RecvByte (pop : bool) | Ack (status : Z) | IsReady | ReadBytes (n : Z) (p : bytes) | FillBuf (p : bytes) | Consume (amt : Z).
Inductive answer := ADelivered (taken : bool) | AByte (r : Result (option Z)) | AAck (r : Result bool) | AReady (r : Result bool) | ABytes (r : Result bytes) | AUnit.

Definition event_ok (e : event) : Prop :=
  match e with
  | Deliver p | FillBuf p => zlen p <= PAGE_SIZE
  | ReadBytes n p => 0 <= n < 2 ^ 63 /\ zlen p <= PAGE_SIZE
  | Consume amt => 0 <= amt < 2 ^ 63
  | _ => True
  end.

(** The buffer is with the device; it is filled, but not collected; it is with the driver,
    with [l] still to be handed out. *)
Inductive place := Lent | Filled (p : bytes) | Kept (l : bytes).
Definition held (s : place) : bytes := match s with Lent => [] | Filled p | Kept p => p end.
Definition is_filled (s : place) : bool := match s with Filled _ => true | _ => false end.

(** What was filled is collected; an answer of no bytes is a panic, here [None]. *)
Definition collect (s : place) : option place :=
  match s with Filled [] => None | Filled p => Some (Kept p) | _ => Some s end.
(** The buffer goes back when it is used up. *)
Definition give_back (s : place) : place := match s with Kept [] => Lent | _ => s end.
(** A wait for data, while the device has [p]: what comes, and what there is then. *)
Definition wait (p : bytes) (s : place) : option (bytes * bytes) :=
  match give_back s with
  | Lent => match p with [] => None | _ => Some (p, p) end
  | Filled [] => None
  | Filled l | Kept l => Some ([], l)
  end.

(** One step: the answer, the bytes that come in and go out, and the buffer after. *)
Record step := mkStep { ans : answer; came : bytes; went : bytes; next : place }.
Definition spec (e : event) (s : place) : option step :=
  match e with
  | Deliver p => Some (match s with Lent => mkStep (ADelivered true) p [] (Filled p) | _ => mkStep (ADelivered false) [] [] s end)
  | RecvByte pop =>
      s ← collect s;
      Some (match s with
            | Kept (x :: l) => if pop then mkStep (AByte (Ok (Some x))) [] [x] (give_back (Kept l)) else mkStep (AByte (Ok (Some x))) [] [] s
            | _ => mkStep (AByte (Ok None)) [] [] s
            end)
  | Ack status =>
      if contains status 1 then s1 ← collect s; Some (mkStep (AAck (Ok (is_filled s))) [] [] s1)
      else Some (mkStep (AAck (Ok false)) [] [] s)
  | IsReady => s ← collect s; Some (mkStep (AReady (Ok (negb (bool_decide (held s = []))))) [] [] s)
  | ReadBytes n p =>
      if n =? 0 then Some (mkStep (ABytes (Ok [])) [] [] s)
      else '(c, l) ← wait p s; Some (mkStep (ABytes (Ok (take (Z.to_nat n) l))) c (take (Z.to_nat n) l) (Kept (drop (Z.to_nat n) l)))
  | FillBuf p => '(c, l) ← wait p s; Some (mkStep (ABytes (Ok l)) c [] (Kept l))
  | Consume amt =>
      match s with
      | Kept l => if amt <=? zlen l then Some (mkStep AUnit [] (take (Z.to_nat amt) l) (Kept (drop (Z.to_nat amt) l))) else None
      | _ => if amt =? 0 then Some (mkStep AUnit [] [] s) else None
      end
  end.
(** A run: the answers, all that came, all that went, and the buffer at the end. *)
Fixpoint spec_all (es : list event) (s : place) : option (list answer * bytes * bytes * place) :=
  match es with
  | [] => Some ([], [], [], s)
  | e :: es' => x ← spec e s; '(as_, ins, outs, s') ← spec_all es' (next x); Some (ans x :: as_, came x ++ ins, went x ++ outs, s')
  end.

(** Nothing is lost, doubled or reordered. *)
Lemma spec_keeps e s x : spec e s = Some x -> held s ++ came x = went x ++ held (next x).
Proof.
  assert (Hw : forall p c l, wait p s = Some (c, l) -> held s ++ c = l).
  { intros p c l. unfold wait, give_back. destruct s as [|[|]|[|]]; cbn; try (destruct p; [done|]); try done; intros [= <- <-]; by rewrite ?app_nil_r. }
  destruct e as [p|pop|status| |n p|p|amt]; cbn [spec].
  - intros [= <-]. by destruct s; cbn; rewrite ?app_nil_r.
  - destruct s as [|[|y p]|[|y [|z l]]]; cbn; try done; intros [= <-]; destruct pop; cbn; rewrite ?app_nil_r; try done; by destruct p.
  - destruct (contains status 1); [|intros [= <-]; apply app_nil_r]. destruct s as [|[|]|]; cbn; try done; intros [= <-]; cbn; by rewrite ?app_nil_r.
  - destruct s as [|[|]|]; cbn; try done; intros [= <-]; cbn; by rewrite ?app_nil_r.
  - destruct (n =? 0); [intros [= <-]; apply app_nil_r|]. destruct (wait p s) as [[c l]|] eqn:E; [|done]. intros [= <-]. cbn. rewrite (Hw _ _ _ E). by rewrite take_drop.
  - destruct (wait p s) as [[c l]|] eqn:E; [|done]. intros [= <-]. cbn. by apply Hw in E.
  - destruct s as [|p|l].
    + destruct (amt =? 0); [|done]. by intros [= <-].
    + destruct (amt =? 0); [|done]. intros [= <-]. apply app_nil_r.
    + destruct (amt <=? zlen l); [|done]. intros [= <-]. cbn. by rewrite app_nil_r, take_drop.
Qed.
Lemma spec_all_keeps es : forall s as_ ins outs s', spec_all es s = Some (as_, ins, outs, s') -> held s ++ ins = outs ++ held s'.
Proof.
  induction es as [|e es IH]; intros s as_ ins outs s'; cbn [spec_all]; [intros [= <- <- <- <-]; apply app_nil_r|].
  destruct (spec e s) as [x|] eqn:E; [|done]. cbn [mbind option_bind]. destruct (spec_all es (next x)) as [[[[as1 i1] o1] s1]|] eqn:E1; [|done].
  cbn. intros [= <- <- <- <-]. rewrite app_assoc, (spec_keeps _ _ _ E), <- !app_assoc. f_equal. by eapply IH.
Qed.

Section console.
Context `{SlotOk} {T : Type}.
Notation Con := (VirtIOConsole slot T).

Definition fill (p : bytes) (s : slot) : slot := match slot_fill p s with Some s' => s' | None => s end.
Definition exec (e : event) (c : Con) : outcome (answer * Con) :=
  match e with
  | Deliver p => Ret (match slot_fill p (receiveq c) with Some s => (ADelivered true, set_receiveq c s) | None => (ADelivered false, c) end)
  | RecvByte pop => do! (r, c) <- recv pop c; Ret (AByte r, c)
  | Ack status => do! (r, c) <- ack_interrupt status c; Ret (AAck r, c)
  | IsReady => do! (r, c) <- read_ready c; Ret (AReady r, c)
  | ReadBytes n p => do! (r, c) <- read [fill p] n c; Ret (ABytes r, c)
  | FillBuf p => do! (r, c) <- fill_buf [fill p] c; Ret (ABytes r, c)
  | Consume amt => do! c <- consume amt c; Ret (AUnit, c)
  end.
Fixpoint exec_all (es : list event) (c : Con) : outcome (list answer * Con) :=
  match es with
  | [] => Ret ([], c)
  | e :: es' => do! (a, c) <- exec e c; do! (as_, c) <- exec_all es' c; Ret (a :: as_, c)
  end.

(** The driver and its queue are in the state [s]. *)
Inductive stands (c : Con) : place -> Prop :=
| st_lent t : receive_token c = Some t -> Waiting (receiveq c) t -> cursor c = pending_len c -> 0 <= cursor c <= PAGE_SIZE -> stands c Lent
| st_filled t p : receive_token c = Some t -> Ready (receiveq c) t p -> cursor c = pending_len c -> 0 <= cursor c <= PAGE_SIZE -> stands c (Filled p)
| st_kept l : receive_token c = None -> Idle (receiveq c) -> 0 <= cursor c <= pending_len c -> pending_len c <= PAGE_SIZE ->
    take (Z.to_nat (pending_len c - cursor c)) (drop (Z.to_nat (cursor c)) (slot_buf (receiveq c))) = l -> zlen l = pending_len c - cursor c -> stands c (Kept l).

(** Whether the driver sees that there is something. *)
Lemma stands_empty c s : stands c s -> (cursor c =? pending_len c) = match s with Kept (_ :: _) => false | _ => true end.
Proof.
  intros []; [by apply Z.eqb_eq..|]. destruct l; [apply Z.eqb_eq; rewrite zlen_nil in *; lia|]. apply Z.eqb_neq. rewrite zlen_cons in *. pose proof (zlen_nonneg l). lia.
Qed.

Lemma finish_run c s : stands c s ->
  match collect s with
  | None => finish_receive c = Panic
  | Some s' => exists c', finish_receive c = Ret (Ok (is_filled s), c') /\ stands c' s'
  end.
Proof.
  intros Hs. unfold finish_receive. pose proof Hs as Hs'. destruct Hs' as [t Et Hw Hc Hr|t p Et Hr Hc Hp|l Et Hi Hc Hp El Hl]; rewrite Et; cbn [collect].
  - rewrite (waiting_peek _ _ Hw). cbn [obind]. rewrite bool_decide_eq_false_2 by done. by exists c.
  - rewrite (ready_peek _ _ _ Hr). cbn [obind]. rewrite bool_decide_eq_true_2 by done. destruct (ready_pop _ _ _ Hr) as (s' & -> & Hid & Hb). cbn [obind].
    pose proof (ready_size _ _ _ Hr) as Hz. destruct p as [|x p]; [done|]. pose proof (zlen_nonneg p). rewrite (proj2 (Z.eqb_neq _ _)) by (rewrite zlen_cons; lia).
    eexists. split; [done|]. apply st_kept; cbn [receive_token receiveq cursor pending_len]; try done; try (rewrite ?zlen_cons in *; lia).
    rewrite Z.sub_0_r, drop_0. assert (Z.to_nat (zlen (x :: p)) = length (x :: p)) as -> by (unfold zlen; lia). done.
  - by exists c.
Qed.

Lemma retrieve_run c s : stands c s -> exists c', poll_retrieve c = Ret (Ok tt, c') /\ stands c' (give_back s).
Proof.
  intros Hs. unfold poll_retrieve. pose proof (stands_empty _ _ Hs) as He. pose proof Hs as Hs'. destruct Hs' as [t Et Hw Hc Hr|t p Et Hr Hc Hp|l Et Hi Hc Hp El Hl]; rewrite Et; [by exists c..|].
  rewrite He. destruct l as [|x l]; [|by exists c]. apply Z.eqb_eq in He.
  destruct (idle_add _ Hi) as (t & s' & -> & Hw). cbn [obind]. eexists. split; [done|]. apply (st_lent _ t); cbn [receive_token receiveq cursor pending_len]; done || lia.
Qed.

(** [n] bytes are taken. *)
Lemma take_some c l n : stands c (Kept l) -> 0 <= n <= zlen l -> stands (set_cursor c (cursor c + n)) (Kept (drop (Z.to_nat n) l)).
Proof.
  intros Hs Hn. inversion Hs as [| |? Et Hi Hc Hp El Hl]; subst. apply st_kept; cbn [receive_token receiveq cursor pending_len set_cursor]; try done; try lia.
  - rewrite skipn_firstn_comm, drop_drop. f_equal; [lia|]. f_equal. lia.
  - unfold zlen in *. rewrite length_drop. lia.
Qed.

(** The bytes from the cursor on are in the buffer. *)
Lemma range_run c l n : stands c (Kept l) -> l <> [] -> 0 <= n <= zlen l -> range (slot_buf (receiveq c)) (cursor c) (cursor c + n) = Ret (take (Z.to_nat n) l).
Proof.
  intros Hs Hne Hn. inversion Hs as [| |? Et Hi Hc Hp El Hl]. unfold range. assert (length l <> 0%nat) by (by destruct l).
  assert (Hlen : cursor c + zlen l <= zlen (slot_buf (receiveq c))) by (apply (f_equal length) in El; rewrite length_take, length_drop in El; unfold zlen in *; lia).
  rewrite (proj2 (Z.leb_le _ _)), (proj2 (Z.leb_le (cursor c + n) _)) by lia. cbn [andb]. rewrite <- El.
  rewrite take_take. do 2 f_equal. lia.
Qed.

Lemma wait_run p c s : stands c s -> zlen p <= PAGE_SIZE ->
  match wait p s with
  | None => wait_for_receive [fill p] c = Panic
  | Some (_, l) => exists c', wait_for_receive [fill p] c = Ret (Ok tt, c') /\ stands c' (Kept l) /\ l <> []
  end.
Proof.
  intros Hs Hp. unfold wait_for_receive, try, wait. destruct (retrieve_run c s Hs) as (c1 & -> & H1). cbn [obind wait_loop]. unfold try.
  pose proof (stands_empty _ _ H1) as He. rewrite He. set (s1 := give_back s) in *. assert (Hne : s1 <> Kept []) by (unfold s1; by destruct s as [| |[|]]). clearbody s1.
  assert (Hgot : forall c2 q, stands c2 (Filled q) -> match q with
    | [] => (do! (r, c) <- finish_receive c2; match r with Err e => Ret (Err e, c) | Ok _ => if cursor c =? pending_len c then OutOfFuel else Ret (Ok tt, c) end) = Panic
    | _ => exists c', (do! (r, c) <- finish_receive c2; match r with Err e => Ret (Err e, c) | Ok _ => if cursor c =? pending_len c then OutOfFuel else Ret (Ok tt, c) end) = Ret (Ok tt, c') /\ stands c' (Kept q) /\ q <> []
    end).
  { intros c2 q H2. pose proof (finish_run _ _ H2) as Hf. destruct q as [|x q]; cbn [collect] in Hf; [by rewrite Hf|]. destruct Hf as (c3 & -> & H3). cbn [obind]. rewrite (stands_empty _ _ H3). by exists c3. }
  destruct s1 as [|q|l].
  - inversion H1 as [t Et Hw Hc Hr| |]; subst. destruct (waiting_fill _ _ p Hw Hp) as (s' & Ef & Hr'). unfold fill. rewrite Ef.
    pose proof (Hgot (set_receiveq c1 s') p ltac:(by apply (st_filled _ t))) as Hg. by destruct p.
  - inversion H1 as [|t ? Et Hr Hc Hb|]; subst. unfold fill. rewrite (ready_full _ _ _ p Hr). pose proof (Hgot (set_receiveq c1 (receiveq c1)) q ltac:(by apply (st_filled _ t))) as Hg. by destruct q.
  - destruct l as [|x l]; [done|]. by exists c1.
Qed.

(** The calls against the specification of one step. *)
Definition agrees (e : event) (c : Con) (o : option step) : Prop :=
  match o with
  | None => exec e c = Panic
  | Some x => exists c', exec e c = Ret (ans x, c') /\ stands c' (next x)
  end.

Lemma recv_agrees pop c s : stands c s -> agrees (RecvByte pop) c (spec (RecvByte pop) s).
Proof.
  intros Hs. pose proof (finish_run c s Hs) as Hf. cbn [spec]. unfold agrees. cbn [exec]. unfold recv, try. destruct (collect s) as [s1|]; [|by rewrite Hf].
  destruct Hf as (c1 & -> & H1). cbn [obind mbind option_bind]. rewrite (stands_empty _ _ H1). destruct s1 as [|p|[|x l]]; try by exists c1.
  inversion H1 as [| |? Et Hi Hc Hp El Hl]; subst. pose proof (zlen_nonneg l) as Hz. rewrite zlen_cons in Hl. unfold PAGE_SIZE in Hp.
  assert (Hx : slot_buf (receiveq c1) !! Z.to_nat (cursor c1) = Some x).
  { assert ((x :: l) !! 0%nat = Some x) as Hh by done. rewrite <- El in Hh. rewrite lookup_take_lt, lookup_drop in Hh by lia. by rewrite Nat.add_0_r in Hh. }
  unfold get. rewrite Hx. cbn [obind]. destruct pop; [|by exists c1]. rewrite u64_small by lia.
  pose proof (take_some c1 (x :: l) 1 H1 ltac:(rewrite zlen_cons; lia)) as H2. change (drop (Z.to_nat 1) (x :: l)) with l in H2.
  destruct (retrieve_run _ _ H2) as (c3 & -> & H3). cbn [obind]. by exists c3.
Qed.

Lemma read_agrees n p c s : stands c s -> event_ok (ReadBytes n p) -> agrees (ReadBytes n p) c (spec (ReadBytes n p) s).
Proof.
  intros Hs [Hn Hp]. cbn [spec]. unfold agrees. cbn [exec]. unfold read, try. destruct (Z.eqb_spec n 0) as [->|Hn0]; [by exists c|].
  pose proof (wait_run p c s Hs Hp) as Hw. destruct (wait p s) as [[cm l]|]; [|by rewrite Hw]. destruct Hw as (c1 & -> & H1 & Hne). cbn [obind mbind option_bind ans next].
  pose proof H1 as H1'. inversion H1' as [| |? Et Hi Hc Hpl El Hl].  unfold PAGE_SIZE in Hpl. rewrite (u64_small (pending_len c1 - cursor c1)), <- Hl by lia.
  set (m := Z.min n (zlen l)). assert (Hm : 0 <= m <= zlen l) by (unfold m; pose proof (zlen_nonneg l); lia). rewrite (u64_small (cursor c1 + m)) by lia. rewrite (range_run c1 l m H1 Hne Hm). cbn [obind].
  assert (take (Z.to_nat n) l = take (Z.to_nat m) l /\ drop (Z.to_nat n) l = drop (Z.to_nat m) l) as [-> ->].
  { destruct (decide (n <= zlen l)); [by replace m with n by lia|]. rewrite !take_ge, !drop_ge; [done|..]; unfold zlen in *; lia. }
  eexists. split; [done|]. by apply take_some.
Qed.

Lemma fill_agrees p c s : stands c s -> event_ok (FillBuf p) -> agrees (FillBuf p) c (spec (FillBuf p) s).
Proof.
  intros Hs Hp. cbn [spec]. unfold agrees. cbn [exec]. unfold fill_buf, try.
  pose proof (wait_run p c s Hs Hp) as Hw. destruct (wait p s) as [[cm l]|]; [|by rewrite Hw]. destruct Hw as (c1 & -> & H1 & Hne). cbn [obind mbind option_bind ans next].
  pose proof (range_run c1 l (zlen l) H1 Hne ltac:(pose proof (zlen_nonneg l); lia)) as Er. inversion H1 as [| |? Et Hi Hc Hpl El Hl].
  replace (cursor c1 + zlen l) with (pending_len c1) in Er by lia. rewrite Er. cbn [obind]. exists c1. split; [|done]. unfold zlen. by rewrite Nat2Z.id, take_ge.
Qed.

Lemma consume_agrees amt c s : stands c s -> event_ok (Consume amt) -> agrees (Consume amt) c (spec (Consume amt) s).
Proof.
  intros Hs Ha. cbn in Ha. cbn [spec]. unfold agrees. cbn [exec]. unfold consume. assert (Hb : 0 <= cursor c <= pending_len c /\ pending_len c <= PAGE_SIZE) by (destruct Hs; lia). unfold PAGE_SIZE in Hb.
  rewrite u64_small by lia.
  assert (Hz : s = Lent \/ is_filled s = true -> match (if amt =? 0 then Some (mkStep AUnit [] [] s) else None) with
    | Some x => exists c', (do! c <- if cursor c + amt <=? pending_len c then Ret (set_cursor c (cursor c + amt)) else Panic; Ret (AUnit, c)) = Ret (ans x, c') /\ stands c' (next x)
    | None => (do! c <- if cursor c + amt <=? pending_len c then Ret (set_cursor c (cursor c + amt)) else Panic; Ret (AUnit, c)) = Panic
    end).
  { intros Hk. assert (cursor c = pending_len c) by (destruct Hs; [done..|by destruct Hk]). destruct (Z.eqb_spec amt 0) as [->|Hne].
    - rewrite Z.add_0_r, (proj2 (Z.leb_le _ _)) by lia. eexists. split; [done|]. by destruct c.
    - by rewrite (proj2 (Z.leb_gt _ _)) by lia. }
  destruct s as [|p|l]; [apply Hz; by left|apply Hz; by right|]. inversion Hs as [| |? Et Hi Hc Hpl El Hl]. 
  destruct (Z.leb_spec amt (zlen l)) as [Hle|Hgt]; [|by rewrite (proj2 (Z.leb_gt _ _)) by lia].
  rewrite (proj2 (Z.leb_le _ _)) by lia. eexists. split; [done|]. apply take_some; done || lia.
Qed.

Lemma exec_agrees e c s : stands c s -> event_ok e -> agrees e c (spec e s).
Proof.
  intros Hs He. destruct e as [p|pop|status| |n p|p|amt]; [|by apply recv_agrees| | |by apply read_agrees|by apply fill_agrees|by apply consume_agrees]; cbn [spec]; unfold agrees; cbn [exec event_ok] in *.
  - destruct Hs as [t Et Hw Hc Hr|t q Et Hr Hc Hp|l Et Hi Hc Hp El Hl].
    + destruct (waiting_fill _ _ p Hw He) as (s' & -> & Hr'). eexists. split; [done|]. by apply (st_filled _ t).
    + rewrite (ready_full _ _ _ p Hr). exists c. split; [done|]. by apply (st_filled _ t).
    + rewrite idle_full by done. exists c. split; [done|]. by apply st_kept.
  - unfold ack_interrupt. pose proof (finish_run c s Hs) as Hf. destruct (contains status 1); [|by exists c]. destruct (collect s) as [s1|]; [|by rewrite Hf].
    destruct Hf as (c1 & -> & H1). by exists c1.
  - unfold read_ready, try. pose proof (finish_run c s Hs) as Hf. destruct (collect s) as [s1|] eqn:Ec; [|by rewrite Hf]. destruct Hf as (c1 & -> & H1). cbn [obind mbind option_bind].
    rewrite (stands_empty _ _ H1). exists c1. split; [|done]. do 4 f_equal. destruct s as [|[|]|[|]]; by simplify_eq/=.
Qed.

Lemma exec_all_agrees es : forall c s, stands c s -> Forall event_ok es ->
  match spec_all es s with None => exec_all es c = Panic | Some (as_, _, _, _) => exists c', exec_all es c = Ret (as_, c') end.
Proof.
  induction es as [|e es IH]; intros c s Hs He; [by exists c|]. apply Forall_cons in He as [He1 He]. cbn [exec_all spec_all].
  pose proof (exec_agrees e c s Hs He1) as Ha. unfold agrees in Ha. destruct (spec e s) as [x|]; [|by rewrite Ha]. destruct Ha as (c1 & -> & H1). cbn [obind mbind option_bind].
  specialize (IH c1 (next x) H1 He). destruct (spec_all es (next x)) as [[[[as_ ins] outs] s']|]; [|by rewrite IH]. destruct IH as (c2 & ->). by exists c2.
Qed.
End console.

(** ** The virtqueue keeps the promise *)

Section port.
Context `{HHal : Hal}.
Hypothesis identity : forall log b d, hal_share log b d = buf_ptr b.
#[local] Existing Instance VirtqSlot.

(** The device takes the buffer of the available ring, if there is one. *)
Definition port_fill (p : bytes) (s : port) : option port :=
  let q := p_q s in
  let u := us_idx (used q) in
  if u =? av_idx (avail q) then None
  else
    token ← av_ring (avail q) !! Z.to_nat (u mod 2);
    chain ← device_request 2 q token;
    match chain with
    | [(addr, len, true)] => if len <? zlen p then None else Some (mkPort (set_used q (answered_used 1 q token (zlen p))) (p_buf s) (mem_write (p_mem s) addr p))
    | _ => None
    end.

Definition port_idle (s : port) : Prop := quiet 1 (p_q s).
Definition port_waiting (s : port) (t : Z) : Prop :=
  exists q f free, quiet 1 q /\ qinv 1 (p_q s) free [f] /\ add_result 1 q (p_q s) f /\ visible 1 [t] (p_q s) [f] /\
    f_token f = t /\ f_ins f = [] /\ f_outs f = [mkBuf (p_buf s) PAGE_SIZE].
Definition port_ready (s : port) (t : Z) (p : bytes) : Prop :=
  zlen p <= PAGE_SIZE /\ exists q m, port_waiting (mkPort q (p_buf s) m) t /\
    p_q s = set_used q (answered_used 1 q t (zlen p)) /\ p_mem s = mem_write m (p_buf s) p.

Lemma port_add s : port_idle s -> exists t s', slot_add s = Ret (Ok t, s') /\ port_waiting s' t.
Proof.
  intros Hq. cbn. destruct (quiet_add 1 ltac:(lia) (p_q s) [] [mkBuf (p_buf s) PAGE_SIZE] Hq) as (f & q1 & free & E & F1 & F2 & F3 & F4 & F5);
    [apply Forall_singleton; by vm_compute|by vm_compute|]. change (2 ^ 1) with 2 in E. rewrite E. cbn [obind]. eexists _, _. split; [done|]. by exists (p_q s), f, free.
Qed.

(** The device has not answered. *)
Lemma waiting_idx s t : port_waiting s t -> exists a, 0 <= a < 2 ^ 16 /\ us_idx (used (p_q s)) = a /\ last_used_idx (p_q s) = a /\ av_idx (avail (p_q s)) = u16 (a + 1).
Proof.
  intros (q & f & free & (_ & Hl & Hu & Ha & Hv) & _ & Har & (_ & _ & _ & V4) & _). pose proof (ar_same _ _ _ _ Har) as (_ & S2 & S3 & _). pose proof (ar_idx _ _ _ _ Har) as [Si Sv].
  exists (last_used_idx q). rewrite S2, S3, V4, Si, Ha. done.
Qed.

Lemma port_fills s t p : port_waiting s t -> zlen p <= PAGE_SIZE -> exists s', port_fill p s = Some s' /\ port_ready s' t p.
Proof using identity.
  intros Hw Hp. destruct (waiting_idx _ _ Hw) as (a & Ha & Hu & Hl & Hv). pose proof Hw as (q & f & free & Hq0 & Hq & Har & Hvis & Ht & Hi & Ho). unfold port_fill.
  assert (Hne : a <> u16 (a + 1)) by (unfold u16; Z.div_mod_to_equations; lia). rewrite Hu, Hv, (proj2 (Z.eqb_neq _ _) Hne).
  pose proof Hvis as (_ & _ & V3 & V4). specialize (V3 0%nat t ltac:(lia) eq_refl). rewrite <- V4, Hv, Z.sub_0_r in V3.
  assert ((u16 (a + 1) - 1) mod 2 ^ 1 = a mod 2) as Em by (change (2 ^ 1) with 2; unfold u16; Z.div_mod_to_equations; lia). rewrite Em in V3. rewrite V3. cbn [mbind option_bind].
  subst t. pose proof (request_read 1 ltac:(lia) _ _ _ f _ Hq ltac:(by left) Hvis) as Er. change (2 ^ 1) with 2 in Er. rewrite Er. cbn [mbind option_bind].
  pose proof (qi_flights _ _ _ _ Hq) as Hf. apply Forall_cons in Hf as [(Fio & _) _]. rewrite Hi, Ho in Fio. pose proof (ar_answered _ _ _ _ Har) as Hans.
  destruct (f_bs f) as [|[[b0 d0] pa] [|]]; try done. cbn in Fio. injection Fio as -> ->. apply Forall_singleton in Hans as [log Hx]. cbn in Hx. cbn. rewrite Hx, identity. cbn.
  rewrite (proj2 (Z.ltb_ge _ _)) by lia. eexists. split; [done|]. split; [done|]. exists (p_q s), (p_mem s). split; [by destruct s|]. done.
Qed.

Lemma port_pops s t p : port_ready s t p -> slot_peek s = Ret (Some t) /\ exists s', slot_pop t s = Ret (Ok (zlen p), s') /\ port_idle s' /\ take (length p) (slot_buf s') = p.
Proof.
  intros (Hp & q & m & (q0 & f & free & Hq0 & Hq & Har & Hvis & Ht & Hi & Ho) & Eq & Em). subst t. cbn [p_q p_buf] in *.
  destruct (quiet_pop 1 ltac:(lia) q0 q free f (zlen p) Hq0 Hq Har) as (_ & Epk & q3 & Epop & Hq3). rewrite <- Eq in Epk, Epop. rewrite Hi, Ho in Epop. cbn. change (2 ^ 1) with 2 in Epk, Epop.
  split; [exact Epk|]. rewrite Epop. cbn [obind]. eexists. split; [done|]. split; [done|]. cbn. rewrite Em. unfold PAGE_SIZE in Hp.
  rewrite mem_read_overlay by (unfold PAGE_SIZE; lia). unfold overlay. by rewrite take_app_length.
Qed.

#[local] Instance VirtqSlotOk : SlotOk.
Proof using HHal identity.
  refine {| slot_fill := port_fill; Idle := port_idle; Waiting := port_waiting; Ready := port_ready; idle_add := port_add; waiting_fill := port_fills |}.
  - intros s p (_ & _ & Hu & Ha & Hv). unfold port_fill. by rewrite Hu, Hv, Ha, Z.eqb_refl.
  - intros s t Hw. destruct (waiting_idx _ _ Hw) as (a & _ & Hu & Hl & _). cbn. unfold peek_used, can_pop. by rewrite Hu, Hl, Z.eqb_refl.
  - intros s t p p' (_ & q & m & Hw & Eq & _). destruct (waiting_idx _ _ Hw) as (a & _ & Hu & _ & Hv). cbn [p_q] in *. unfold port_fill. rewrite Eq. cbn. by rewrite Hu, Hv, Z.eqb_refl.
  - intros s t p Hr. by apply port_pops in Hr as [? _].
  - intros s t p Hr. by apply port_pops in Hr as [_ ?].
  - intros s t p (Hp & _). done.
Defined.
End port.

(** C25: the console hands out what the device delivers.  Take a receive queue that keeps
    its promise, as the virtqueue of the driver does, and a device that writes at most a
    page at a time and says how much.  Through any calls - single bytes, taken or only
    looked at, blocking reads, the [BufRead] calls, interrupts, tests for data - and any
    deliveries between them, the driver answers exactly as the one-buffer machine [spec]
    does.  So: a delivery is accepted exactly when the device has the buffer; [recv] gives
    the buffer back when it takes the last byte, while after [read] and [consume] it goes
    back only with the next blocking call; data is reported exactly when there is some;
    the bytes handed out, followed by those still held, are the bytes delivered, in
    order.  A call panics exactly when it collects a delivery of no bytes, or when
    [consume] is told of more bytes than there are (lengths below 2^63). *)
Theorem console_stream `{SlotOk} {T : Type} (c : VirtIOConsole slot T) es :
  receive_token c = None -> Idle (receiveq c) -> cursor c = 0 -> pending_len c = 0 -> Forall event_ok es ->
  exists c0, poll_retrieve c = Ret (Ok tt, c0) /\
    match spec_all es Lent with
    | None => exec_all es c0 = Panic
    | Some (as_, ins, outs, s) => (exists c', exec_all es c0 = Ret (as_, c')) /\ ins = outs ++ held s
    end.
Proof.
  intros Ht Hi Hc Hp He. assert (Hs : stands c (Kept [])) by (apply st_kept; rewrite ?Hc, ?Hp; try done; vm_compute; by intros).
  destruct (retrieve_run c _ Hs) as (c0 & E0 & Hl). exists c0. split; [done|]. pose proof (exec_all_agrees es c0 Lent Hl He) as Ha. pose proof (spec_all_keeps es Lent) as Hk.
  destruct (spec_all es Lent) as [[[[as_ ins] outs] s]|]; [|done]. split; [done|]. by eapply Hk.
Qed.

(** An empty buffer is refused by an assertion of the queue. *)
Lemma empty_buffer_panics `{Hal} k (Hk : 0 <= k < 16) p (outs : list Buffer) q : quiet k q -> zlen outs = 0 -> add (2 ^ k) [mkBuf p 0] outs q = Panic.
Proof.
  intros ((free & Hq) & _) Ho. destruct outs; [|rewrite zlen_cons in Ho; pose proof (zlen_nonneg outs); lia]. assert (Hn : num_used q = 0) by apply (qi_num _ _ _ _ Hq). pose proof (size_range k Hk).
  unfold add. rewrite decide_False by (by intros [? _]). rewrite Hn. change (zlen [mkBuf p 0] + zlen []) with 1. change (zlen []) with 0. rewrite (proj2 (Z.ltb_ge _ (0 + 1))), (proj2 (Z.ltb_ge _ 1)) by lia.
  change (1 <? 1) with false. rewrite !andb_false_r. cbn [orb]. unfold add_direct. cbn. done.
Qed.

(** Writing an empty string to the console panics.  [write_str], which is the
    [fmt::Write] of the console, passes any string on to the queue, whose assertion that no
    buffer is empty then fails; so [write!(console, ..., s)] with an empty [s] stops the
    program.  ([embedded_io::Write] tests for it.) *)
Theorem write_empty_panics `{Hal} `{Device} {R : Type} k place (c : VirtIOConsole R (@chan (VirtqChannel k place))) :
  0 <= k < 16 -> (forall ns, apart (place ns) ns) -> quiet k (lk_q (transmitq c)) ->
  write_str (H := VirtqChannel k place) [] c = Panic /\ write (H := VirtqChannel k place) [] c = Ret (Ok 0, c).
Proof.
  intros Hk Hp Hq. split; [|done]. unfold write_str, send_bytes. cbn [rpc VirtqChannel]. unfold link_rpc. cbn [app fmap list_fmap length]. change (zlen (@nil Z)) with 0.
  specialize (Hp [0]). destruct (place [0]) as [|p [|]]; [done| |by destruct Hp]. cbn. change (zlen (@nil Z)) with 0. rewrite empty_buffer_panics by done. done.
Qed.

Module Example_port.
#[export] Existing Instance demo_hal.
Definition made : outcome (Result (VirtQueue * QueueSet)) := new 2 demo_transport 0 false false [].
Definition q : VirtQueue := match made with Ret (Ok (q, _)) => q | _ => demo_queue false end.
Definition set : QueueSet := match made with Ret (Ok (_, s)) => s | _ => demo_set false end.
#[export] Instance a_slot : Slot := VirtqSlot.
#[export] Instance a_slot_ok : SlotOk := VirtqSlotOk (fun _ _ _ => eq_refl).
Definition console : VirtIOConsole slot unit := mkConsole 0 (mkPort q 65536 (fun _ => 0)) tt 0 0 None [].
Lemma port_is_idle : Idle (receiveq console).
Proof. assert (E : new 2 demo_transport 0 false false [] = Ret (Ok (q, set))) by (vm_compute; reflexivity). exact (quiet_new 1 ltac:(lia) _ _ _ _ _ _ _ E). Qed.

(** A device that takes what it is given. *)
#[export] Instance sink : Device := {| device := unit; serve _ ns d := (0, (fun _ => []) <$> ns, d) |}.
Definition sender : VirtIOConsole unit link := mkConsole 0 tt (mkLink q (fun _ => 0) tt) 0 0 None [].
End Example_port.
Import Example_port.

Lemma console_stream_witness :
  let es := [Deliver [104; 105]; RecvByte false; RecvByte true; IsReady; ReadBytes 5 [33]; Deliver [1]; FillBuf [33; 34; 35]; Consume 2; RecvByte true; Deliver [1]; Ack 1] in
  exists c0 c', poll_retrieve Example_port.console = Ret (Ok tt, c0) /\
    exec_all es c0 = Ret ([ADelivered true; AByte (Ok (Some 104)); AByte (Ok (Some 104)); AReady (Ok true); ABytes (Ok [105]); ADelivered false;
      ABytes (Ok [33; 34; 35]); AUnit; AByte (Ok (Some 35)); ADelivered true; AAck (Ok true)], c').
Proof.
  cbv zeta.
  destruct (console_stream Example_port.console [Deliver [104; 105]; RecvByte false; RecvByte true; IsReady; ReadBytes 5 [33]; Deliver [1]; FillBuf [33; 34; 35]; Consume 2; RecvByte true; Deliver [1]; Ack 1])
    as (c0 & E & Hr).
  - done.
  - apply Example_port.port_is_idle.
  - done.
  - done.
  - repeat constructor; by vm_compute.
  - destruct Hr as [[c' E'] _]. exists c0, c'. split; [exact E|exact E'].
Defined.

Lemma write_empty_panics_witness :
  write_str (H := VirtqChannel 1 (stack 65536)) [] Example_port.sender = Panic /\ write (H := VirtqChannel 1 (stack 65536)) [] Example_port.sender = Ret (Ok 0, Example_port.sender).
Proof.
  apply (write_empty_panics 1 (stack 65536) Example_port.sender).
  - lia.
  - apply stack_apart.
  - exact Example_port.port_is_idle.
Defined.
