(* ===== verification/Input.v ===== *)
(** * Input devices ([src/virtio-drivers-patched/src/device/input.rs])

    The stock of 32 event buffers, the events taken from it, and the queries of the
    device's configuration. *)

From S2P Require Import Prelude Virtq VirtqInv VirtqRun VirtqThms VirtqOwn Transport Channel ChannelVirtq InboxVirtq.

Notation QUEUE_EVENT := 0.
Notation QUEUE_STATUS := 1.
Notation INPUT_QUEUE_SIZE := 32.
Notation CONFIG_DATA_MAX_LENGTH := 128.
(** The flags [Feature] of [common.rs] has. *)
Notation COMMON_FEATURES := 0x7f79000000.
Definition INPUT_SUPPORTED : Z := Z.lor (Z.lor (2 ^ 29) (2 ^ 28)) (2 ^ 32).

Record InputEvent := mkInput { event_type : Z; code : Z; value : Z }.
(** [size_of::<InputEvent>()], and the event in its 8 bytes. *)
Notation EVENT_SIZE := 8.
Definition field (a n : nat) (l : bytes) : Z := le_val (take n (drop a l)).
Definition event_from (l : bytes) : InputEvent := mkInput (field 0 2 l) (field 2 2 l) (field 4 4 l).

(** [event_buf] is the address of the array of events. *)
Record VirtIOInput := mkInputDev { event_queue : VirtQueue; status_queue : VirtQueue; event_buf : Z }.
Definition event_at (base i : Z) : Buffer := mkBuf (base + EVENT_SIZE * i) EVENT_SIZE.
Definition set_events (d : VirtIOInput) (q : VirtQueue) : VirtIOInput := mkInputDev q (status_queue d) (event_buf d).

Section input.
Context `{Hal}.

(** The loop of [new]: buffer [i] gets token [i]. *)
Fixpoint stock_events (n : nat) (i base : Z) (q : VirtQueue) : outcome (Result VirtQueue) :=
  match n with
  | O => Ret (Ok q)
  | S n' =>
      do! (r, q) <- add INPUT_QUEUE_SIZE [] [event_at base i] q;
      match r with
      | Err e => Ret (Err e)
      | Ok token => if token =? i then stock_events n' (i + 1) base q else Panic
      end
  end.

Definition input_new `{Transport.Transport} (event_buf : Z) (t : tr) : outcome (Result VirtIOInput * tr) :=
  let '(features, t) := begin_init COMMON_FEATURES INPUT_SUPPORTED t in
  let ind := contains features (2 ^ 28) in
  let ev := contains features (2 ^ 29) in
  do? (events, t) <- make_queue INPUT_QUEUE_SIZE QUEUE_EVENT ind ev [] t;
  do? (status, t) <- make_queue INPUT_QUEUE_SIZE QUEUE_STATUS ind ev (hal_log events) t;
  do! r <- stock_events 32 0 event_buf events;
  match r with
  | Err e => Ret (Err e, t)
  | Ok events =>
      do! t <- (if should_notify events then notify QUEUE_EVENT t else Ret t);
      let t := finish_init t in
      Ret (Ok (mkInputDev events status event_buf), t)
  end.

(** The [bool] tells whether the transport is notified. *)
Definition pop_pending_event (m : mem) (d : VirtIOInput) : outcome (option InputEvent * bool * VirtIOInput) :=
  do! p <- peek_used INPUT_QUEUE_SIZE (event_queue d);
  match p with
  | None => Ret (None, false, d)
  | Some token =>
      if INPUT_QUEUE_SIZE <=? token then Panic
      else
        let buf := event_at (event_buf d) token in
        do! (r, q) <- pop_used INPUT_QUEUE_SIZE token [] [buf] (event_queue d);
        match r with
        | Err _ => Ret (None, false, set_events d q)
        | Ok _ =>
            let event_saved := event_from (mem_read m (buf_ptr buf) 8) in
            do! (r, q) <- add INPUT_QUEUE_SIZE [] [buf] q;
            match r with
            | Err _ => Ret (None, false, set_events d q)
            | Ok new_token => if new_token =? token then Ret (Some event_saved, should_notify q, set_events d q) else Panic
            end
        end
  end.
End input.

(** ** The configuration *)

Inductive InputConfigSelect := IdName | IdSerial | IdDevids | PropBits | EvBits | AbsInfo_.
Definition select_u8 (s : InputConfigSelect) : Z :=
  match s with IdName => 0x01 | IdSerial => 0x02 | IdDevids => 0x03 | PropBits => 0x10 | EvBits => 0x11 | AbsInfo_ => 0x12 end.
Record AbsInfo := mkAbs { min : Z; max : Z; fuzz : Z; flat : Z; res : Z }.
Record DevIDs := mkIds { bustype : Z; vendor : Z; product : Z; version : Z }.

(** Whether [String::from_utf8] takes the bytes. *)
Definition cont (b : Z) : bool := (0x80 <=? b) && (b <=? 0xbf).
Definition within (a b x : Z) : bool := (a <=? x) && (x <=? b).
Fixpoint from_utf8 (l : bytes) : bool :=
  match l with
  | [] => true
  | b :: l1 =>
      if b <? 0x80 then from_utf8 l1
      else
        match l1 with
        | [] => false
        | c :: l2 =>
            if within 0xc2 0xdf b then cont c && from_utf8 l2
            else
              match l2 with
              | [] => false
              | d :: l3 =>
                  if within 0xe0 0xef b then
                    (if b =? 0xe0 then within 0xa0 0xbf c else if b =? 0xed then within 0x80 0x9f c else cont c) && cont d && from_utf8 l3
                  else
                    match l3 with
                    | [] => false
                    | e :: l4 =>
                        within 0xf0 0xf4 b && (if b =? 0xf0 then within 0x90 0xbf c else if b =? 0xf4 then within 0x80 0x8f c else cont c) &&
                        cont d && cont e && from_utf8 l4
                    end
              end
        end
  end.

Section config.
Context `{Transport.Transport}.

(** The offsets in [Config]: select, subsel, size, data. *)
Definition select_config (select : InputConfigSelect) (subsel : Z) (t : tr) : outcome (Result Z * tr) :=
  do? (_, t) <- write_config_space 1 1 0 (select_u8 select) t;
  do? (_, t) <- write_config_space 1 1 1 subsel t;
  read_config_space 1 1 2 t.

(** Bytes [i .. i + n) of the data, into the start of [out]. *)
Fixpoint read_data (n : nat) (i : Z) (out : bytes) (t : tr) : outcome (Result bytes * tr) :=
  match n, out with
  | S n', _ :: out' =>
      do? (b, t) <- read_config_space 1 1 (8 + i) t;
      do? (out', t) <- read_data n' (i + 1) out' t;
      Ret (Ok (b :: out'), t)
  | _, _ => Ret (Ok out, t)
  end.

(** The size the device says, and [out] after. *)
Definition query_config_select (select : InputConfigSelect) (subsel : Z) (out : bytes) (t : tr) : outcome (Result (Z * bytes) * tr) :=
  do? (size, t) <- select_config select subsel t;
  do? (out, t) <- read_data (Z.to_nat (Z.min size (zlen out))) 0 out t;
  Ret (Ok (size, out), t).

Definition query_config_select_alloc (select : InputConfigSelect) (subsel : Z) (t : tr) : outcome (Result bytes * tr) :=
  do? (size, t) <- select_config select subsel t;
  if CONFIG_DATA_MAX_LENGTH <? size then Ret (Err IoError, t)
  else read_data (Z.to_nat size) 0 (replicate (Z.to_nat size) 0) t.

Definition query_config_string (select : InputConfigSelect) (subsel : Z) (t : tr) : outcome (Result bytes * tr) :=
  do? (b, t) <- query_config_select_alloc select subsel t;
  if from_utf8 b then Ret (Ok b, t) else Ret (Err IoError, t).
Definition name (t : tr) := query_config_string IdName 0 t.
Definition serial_number (t : tr) := query_config_string IdSerial 0 t.
Definition prop_bits (t : tr) := query_config_select_alloc PropBits 0 t.
Definition ev_bits (event_type : Z) (t : tr) := query_config_select_alloc EvBits event_type t.

Definition ids (t : tr) : outcome (Result DevIDs * tr) :=
  do? (r, t) <- query_config_select IdDevids 0 (replicate 8 0) t;
  let '(size, l) := r in
  if size =? 8 then Ret (Ok (mkIds (field 0 2 l) (field 2 2 l) (field 4 2 l) (field 6 2 l)), t) else Ret (Err IoError, t).
Definition abs_info (axis : Z) (t : tr) : outcome (Result AbsInfo * tr) :=
  do? (r, t) <- query_config_select AbsInfo_ axis (replicate 20 0) t;
  let '(size, l) := r in
  if size =? 20 then Ret (Ok (mkAbs (field 0 4 l) (field 4 4 l) (field 8 4 l) (field 12 4 l) (field 16 4 l)), t) else Ret (Err IoError, t).

Definition input_drop (fuel : nat) (t : tr) : outcome tr := do! t <- queue_unset fuel QUEUE_EVENT t; queue_unset fuel QUEUE_STATUS t.
End config.

(** ** Events in order *)

Section events.
Context `{HHal : Hal}.
Hypothesis identity : forall log b d, hal_share log b d = buf_ptr b.
Notation K := 5.

(** The event buffers are the boxes of an owning queue. *)
Definition bufs_of (base : Z) : list Z := (fun i => base + EVENT_SIZE * Z.of_nat i) <$> seq 0 32.
Definition as_box (m : mem) (d : VirtIOInput) : mailbox := mkBox (mkOwning (event_queue d) (bufs_of (event_buf d))) m.

Lemma bufs_of_lookup base i : (i < 32)%nat -> bufs_of base !! i = Some (base + EVENT_SIZE * Z.of_nat i).
Proof. intros Hi. unfold bufs_of. rewrite list_lookup_fmap, lookup_seq_lt by done. done. Qed.

(** What [pop] of an owning queue does, call by call. *)
Lemma box_pop_calls x p t x' : box_pop K EVENT_SIZE x = Ret (Ok (Some (p, t)), x') ->
  exists b n, peek_used (2 ^ K) (bx_q x) = Ret (Some t) /\ buffers (bx_o x) !! Z.to_nat t = Some b /\
    pop_used (2 ^ K) t [] [mkBuf b EVENT_SIZE] (bx_q x) = Ret (Ok n, bx_q x') /\ p = mem_read (bx_mem x) b (Z.to_nat n) /\
    x' = mkBox (mkOwning (bx_q x') (buffers (bx_o x))) (bx_mem x).
Proof.
  unfold box_pop, pop, get, bx_q. destruct (peek_used _ _) as [[t0|]| |]; cbn [obind]; [|done..]. destruct (buffers (bx_o x) !! Z.to_nat t0) as [b|] eqn:Eb; [|done]. cbn [obind].
  destruct (pop_used _ _ _ _ _) as [[[n|] q']| |] eqn:Ep; cbn [obind]; try done. destruct (n <=? EVENT_SIZE); cbn [obind]; [|done]. intros [= <- <- <-].
  exists b, n. cbn. split_and!; try done.
Qed.

Lemma box_return_calls x t x' : box_return K EVENT_SIZE t x = Ret (Ok tt, x') ->
  exists b, buffers (bx_o x) !! Z.to_nat t = Some b /\ add (2 ^ K) [] [mkBuf b EVENT_SIZE] (bx_q x) = Ret (Ok t, bx_q x') /\
    x' = mkBox (mkOwning (bx_q x') (buffers (bx_o x))) (bx_mem x).
Proof.
  unfold box_return, add_buffer_to_queue, bx_q. destruct (buffers (bx_o x) !! Z.to_nat t) as [b|] eqn:Eb; [|done]. cbn [obind].
  destruct (add _ _ _ _) as [[[n|] q']| |] eqn:Ep; cbn [obind]; try done. destruct (Z.eqb_spec n t) as [->|]; cbn [obind]; [|done]. intros [= <-]. by exists b.
Qed.

(** The events that wait. *)
Definition waiting (m : mem) (d : VirtIOInput) (ps : list bytes) : Prop := box_holds K EVENT_SIZE (as_box m d) ps /\ Forall (fun p => length p = 8%nat) ps.

Lemma pop_event m d ps : waiting m d ps ->
  exists k d', pop_pending_event m d = Ret (event_from <$> head ps, k, d') /\ waiting m d' (tail ps).
Proof using HHal.
  intros [Hh Hl]. unfold pop_pending_event. destruct ps as [|p ps].
  - pose proof (box_pop_empty K EVENT_SIZE (as_box m d) Hh) as E. unfold box_pop, pop in E. cbn [bx_o as_box queue] in E.
    change INPUT_QUEUE_SIZE with (2 ^ K). destruct (peek_used (2 ^ K) (event_queue d)) as [[t|]| |]; cbn [obind] in *; try done; [|by exists false, d].
    exfalso. destruct (get _ t) as [b| |]; cbn [obind] in E; try done. destruct (pop_used _ _ _ _ _) as [[[n|] q']| |]; cbn [obind] in E; try done. by destruct (n <=? EVENT_SIZE).
  - apply Forall_cons in Hl as [Hp Hl]. destruct (box_pop_first K ltac:(lia) EVENT_SIZE (as_box m d) p ps Hh) as (t & x1 & E1 & Hlent).
    destruct (box_return_ok K ltac:(lia) EVENT_SIZE ltac:(lia) x1 t ps Hlent) as (x2 & E2 & Hh2).
    destruct (box_pop_calls _ _ _ _ E1) as (b & n & C1 & C2 & C3 & C4 & C5). destruct (box_return_calls _ _ _ E2) as (b' & C6 & C7 & C8).
    assert (Ht : (Z.to_nat t < 32)%nat) by (apply lookup_lt_Some in C2; unfold as_box, bufs_of in C2; cbn [bx_o buffers] in C2; by rewrite length_fmap, length_seq in C2).
    assert (0 <= t) by (destruct Hlent as (c & ? & ? & ? & -> & _); lia).
    cbn [as_box bx_o buffers] in C2. rewrite bufs_of_lookup in C2 by done. injection C2 as <-. rewrite C5 in C6. cbn [bx_o buffers as_box] in C6. rewrite bufs_of_lookup in C6 by done. injection C6 as <-.
    rewrite Z2Nat.id in * by lia. change INPUT_QUEUE_SIZE with (2 ^ K). cbn [as_box bx_q bx_o queue] in C1, C3. rewrite C1. cbn [obind]. rewrite (proj2 (Z.leb_gt _ _)) by lia.
    unfold event_at. rewrite C3. cbn [obind buf_ptr]. rewrite C7. cbn [obind]. rewrite Z.eqb_refl. eexists _, _. split.
    + cbn [head fmap option_fmap option_map]. do 4 f_equal. f_equal. cbn [as_box bx_mem] in C4. rewrite C4. f_equal. rewrite C4, mem_read_length in Hp. lia.
    + split; [|exact Hl]. unfold set_events, as_box. cbn [event_queue event_buf]. rewrite C8, C5 in Hh2. exact Hh2.
Qed.

(** The stock of a new queue. *)
Lemma stock_run n : forall i q fs base, qinv K q (seq i n) fs -> filling EVENT_SIZE q i (take i (bufs_of base)) fs -> (i + n = 32)%nat ->
  exists q' fs', stock_events n (Z.of_nat i) base q = Ret (Ok q') /\ qinv K q' [] fs' /\ filling EVENT_SIZE q' 32 (bufs_of base) fs'.
Proof using HHal.
  induction n as [|n IH]; intros i q fs base Hq Hf Hn; cbn [stock_events].
  - assert (i = 32%nat) as -> by lia. exists q, fs. rewrite take_ge in Hf by (by unfold bufs_of; rewrite length_fmap, length_seq). done.
  - destruct (filling_add K ltac:(lia) EVENT_SIZE ltac:(lia) q i n (take i (bufs_of base)) fs (base + EVENT_SIZE * Z.of_nat i) Hq Hf ltac:(change (Z.to_nat (2 ^ K)) with 32%nat; lia)) as (f & q' & Ea & Hq' & Hf').
    change (2 ^ K) with INPUT_QUEUE_SIZE in Ea. unfold event_at. rewrite Ea. cbn [obind]. rewrite Z.eqb_refl. replace (Z.of_nat i + 1) with (Z.of_nat (S i)) by lia.
    apply (IH (S i) q' (f :: fs)); [done| |lia]. rewrite (take_S_r _ _ _ (bufs_of_lookup base i ltac:(lia))). done.
Qed.

Lemma bufs_apart base : apart (bufs_of base) (replicate 32 EVENT_SIZE).
Proof.
  unfold bufs_of. assert (Hg : forall n i, apart ((fun i => base + EVENT_SIZE * Z.of_nat i) <$> seq i n) (replicate n EVENT_SIZE)); [|apply Hg].
  induction n as [|n IH]; intros i; [done|]. cbn [seq fmap list_fmap replicate]. split; [|apply IH].
  apply Forall2_lookup. intros j. rewrite list_lookup_fmap. destruct (decide (j < n)%nat) as [Hj|Hj].
  - rewrite lookup_seq_lt, lookup_replicate_2 by done. constructor. lia.
  - rewrite !lookup_ge_None_2; [constructor|..]; rewrite ?length_seq, ?length_replicate; lia.
Qed.

(** ** Runs *)

(** The device has an event to report; the driver takes one. *)
Inductive ievent := Happens (p : bytes) | Take.
Inductive ianswer := Reported (ok : bool) | Got (e : option InputEvent).
Definition ievent_ok (e : ievent) : Prop := match e with Happens p => length p = 8%nat | Take => True end.

(** The memory and the driver. *)
Definition istep (e : ievent) (s : mem * VirtIOInput) : outcome (ianswer * (mem * VirtIOInput)) :=
  match e with
  | Happens p =>
      Ret (match box_arrive K EVENT_SIZE p (as_box s.1 s.2) with
           | Some x => (Reported true, (bx_mem x, set_events s.2 (bx_q x)))
           | None => (Reported false, s)
           end)
  | Take => do! (r, _, d) <- pop_pending_event s.1 s.2; Ret (Got r, (s.1, d))
  end.
Fixpoint irun (es : list ievent) (s : mem * VirtIOInput) : outcome (list ianswer * (mem * VirtIOInput)) :=
  match es with
  | [] => Ret ([], s)
  | e :: es' => do! (a, s) <- istep e s; do! (as_, s) <- irun es' s; Ret (a :: as_, s)
  end.

(** The specification: a queue of 32 events. *)
Definition ispec (e : ievent) (ps : list bytes) : ianswer * list bytes :=
  match e with
  | Happens p => if zlen ps <? INPUT_QUEUE_SIZE then (Reported true, ps ++ [p]) else (Reported false, ps)
  | Take => (Got (event_from <$> head ps), tail ps)
  end.
Fixpoint ispec_all (es : list ievent) (ps : list bytes) : list ianswer :=
  match es with [] => [] | e :: es' => let '(a, ps) := ispec e ps in a :: ispec_all es' ps end.

Lemma istep_spec e s ps : waiting s.1 s.2 ps -> ievent_ok e -> exists s', istep e s = Ret ((ispec e ps).1, s') /\ waiting s'.1 s'.2 (ispec e ps).2.
Proof using HHal identity.
  intros Hw He. destruct e as [p|]; cbn [istep ispec ievent_ok] in *.
  - destruct Hw as [Hh Hl]. destruct (box_arrive_room K ltac:(lia) EVENT_SIZE identity (as_box s.1 s.2) ps p Hh) as [_ Hroom]; [unfold zlen; lia|].
    pose proof (box_arrive_ok K ltac:(lia) EVENT_SIZE identity (as_box s.1 s.2) ps p Hh) as Ha. change (2 ^ K) with INPUT_QUEUE_SIZE in Hroom. rewrite <- Hroom.
    destruct (box_arrive _ _ _ _) as [x|] eqn:Ea; [rewrite bool_decide_eq_true_2 by done|by rewrite bool_decide_eq_false_2 by (by intros [? ?]); exists s]. eexists. split; [done|].
    split; [|by apply Forall_app; split; [|apply Forall_singleton]]. cbn [fst snd]. assert (x = as_box (bx_mem x) (set_events s.2 (bx_q x))) as <-; [|done].
    unfold box_arrive in Ea. repeat (case_match; try done). destruct (av_ring _ !! _); [|done]. cbn in Ea. destruct (device_request _ _ _) as [[|[[a l] []] []]|]; try done. cbn in Ea. by injection Ea as <-.
  - destruct (pop_event _ _ _ Hw) as (k & d' & -> & Hw'). by eexists.
Qed.

Lemma irun_spec es : forall s ps, waiting s.1 s.2 ps -> Forall ievent_ok es -> exists s', irun es s = Ret (ispec_all es ps, s').
Proof using HHal identity.
  induction es as [|e es IH]; intros s ps Hw He; [by exists s|]. apply Forall_cons in He as [He1 He]. cbn [irun ispec_all].
  destruct (istep_spec e s ps Hw He1) as (s1 & -> & Hw1). cbn [obind]. destruct (ispec e ps) as [a ps1]. cbn [fst snd] in *. destruct (IH s1 ps1 Hw1 He) as (s2 & ->). by exists s2.
Qed.
End events.

(** C36: input events arrive in order.  Take a device that conforms: it fills the buffers
    in the order they were made available, with events of 8 bytes, and names each by its
    own index (an index of 32 or more panics).  With the 32 buffers of the driver stocked
    in a new queue, the driver is a queue of 32 events: whatever such a device reports and
    whenever the driver asks, no call panics - the token of a buffer stays its index -;
    an event is accepted exactly while fewer than 32 wait, since each buffer goes back as
    its event is taken; and each question is answered by the oldest event that waits, or
    by nothing when none does. *)
Theorem input_in_order `{HHal : Hal} tr idx ind ev log q set status base m es :
  (forall log b d, hal_share log b d = buf_ptr b) -> new INPUT_QUEUE_SIZE tr idx ind ev log = Ret (Ok (q, set)) -> Forall ievent_ok es ->
  exists q' s, stock_events 32 0 base q = Ret (Ok q') /\ irun es (m, mkInputDev q' status base) = Ret (ispec_all es [], s).
Proof.
  intros Hid Hn He. destruct (fresh_filling 5 ltac:(lia) EVENT_SIZE _ _ _ _ _ _ _ Hn) as [Hq Hf].
  destruct (stock_run 32 0 q [] base Hq Hf eq_refl) as (q' & fs & E & Hq' & Hf').
  assert (Hw : waiting m (mkInputDev q' status base) []).
  { split; [|by apply Forall_nil]. apply (filled 5 ltac:(lia) EVENT_SIZE q' (bufs_of base) fs m Hq' Hf'). apply bufs_apart. }
  destruct (irun_spec Hid es (m, mkInputDev q' status base) [] Hw He) as (s & Es). by exists q', s.
Qed.

Module Example_input.
#[export] Existing Instance demo_hal.
Definition made : outcome (Result (VirtQueue * QueueSet)) := new INPUT_QUEUE_SIZE demo_transport 0 false false [].
Definition q : VirtQueue := match made with Ret (Ok (q, _)) => q | _ => demo_queue false end.
Definition set : QueueSet := match made with Ret (Ok (_, s)) => s | _ => demo_set false end.
End Example_input.
Import Example_input.

Lemma input_in_order_witness :
  let es := [Happens [1; 0; 30; 0; 1; 0; 0; 0]; Take; Take; Happens [1; 0; 30; 0; 0; 0; 0; 0]] in
  exists q' s, stock_events 32 0 65536 Example_input.q = Ret (Ok q') /\
    irun es (fun _ => 0, mkInputDev q' Example_input.q 65536) = Ret ([Reported true; Got (Some (mkInput 1 30 1)); Got None; Reported true], s).
Proof.
  apply (input_in_order demo_transport 0 false false [] Example_input.q Example_input.set Example_input.q 65536 (fun _ => 0)
    [Happens [1; 0; 30; 0; 1; 0; 0; 0]; Take; Take; Happens [1; 0; 30; 0; 0; 0; 0; 0]]).
  - done.
  - vm_compute. reflexivity.
  - repeat constructor.
Defined.
