(* ===== verification/P9.v ===== *)
(** * Random numbers and 9p ([src/virtio-drivers-patched/src/device/rng.rs],
      [virtio_9p.rs])

    Two drivers of one queue: requests for random bytes, and requests of the 9p file
    protocol, whose answers say their length themselves. *)

From S2P Require Import Prelude Virtq Transport TransportProofs Channel Input.

(** ** The random number generator *)

Notation RNG_QUEUE_IDX := 0.
Notation RNG_QUEUE_SIZE := 8.
Definition RNG_SUPPORTED : Z := Z.lor (Z.lor (2 ^ 28) (2 ^ 29)) (2 ^ 32).

Definition rng_new `{Transport.Transport} `{Hal} (t : tr) : outcome (Result VirtQueue * tr) :=
  let '(feat, t) := begin_init COMMON_FEATURES RNG_SUPPORTED t in
  do? (queue, t) <- make_queue RNG_QUEUE_SIZE RNG_QUEUE_IDX (contains feat (2 ^ 28)) (contains feat (2 ^ 29)) [] t;
  Ret (Ok queue, finish_init t).
Definition rng_drop `{Transport.Transport} (fuel : nat) (t : tr) : outcome tr := queue_unset fuel RNG_QUEUE_IDX t.

(** The number the device says, and [dst] after. *)
Definition request_entropy `{Channel} (dst : bytes) (q : chan) : outcome (Result Z * bytes * chan) :=
  do! (r, q) <- rpc [] [dst] q;
  Ret (match r with Err e => (Err e, dst, q) | Ok (num, outs) => (Ok num, hd [] outs, q) end).

(** ** 9p *)

Notation P9_QUEUE := 0.
Notation P9_QUEUE_SIZE := 16.
Notation P9_HEADER_SIZE := 7.
Definition P9_SUPPORTED : Z := Z.lor (Z.lor (2 ^ 28) (2 ^ 29)) (2 ^ 32).

Section tag.
Context `{Transport.Transport}.

Fixpoint read_tag_bytes (n : nat) (idx : Z) (t : tr) : outcome (Result bytes * tr) :=
  match n with
  | O => Ret (Ok [], t)
  | S n' =>
      do? (b, t) <- read_config_space 1 1 (2 + idx) t;
      do? (bytes, t) <- read_tag_bytes n' (idx + 1) t;
      Ret (Ok (b :: bytes), t)
  end.

Definition read_mount_tag (fuel : nat) (t : tr) : outcome (Result bytes * tr) :=
  read_consistent fuel (fun t =>
    do? (tag_len, t) <- read_config_space 2 2 0 t;
    if tag_len =? 0 then Ret (Err InvalidParam, t)
    else
      do? (bytes, t) <- read_tag_bytes (Z.to_nat tag_len) 0 t;
      Ret (if from_utf8 bytes then Ok bytes else Err IoError, t)) t.

(** The queue and the tag. *)
Definition p9_new `{Hal} (fuel : nat) (t : tr) : outcome (Result (VirtQueue * bytes) * tr) :=
  let '(features, t) := begin_init COMMON_FEATURES P9_SUPPORTED t in
  do? (queue, t) <- make_queue P9_QUEUE_SIZE P9_QUEUE (contains features (2 ^ 28)) (contains features (2 ^ 29)) [] t;
  do? (mount_tag, t) <- read_mount_tag fuel (finish_init t);
  Ret (Ok (queue, mount_tag), t).
End tag.

(** The used length, and [resp] after. *)
Definition request `{Channel} (req resp : bytes) (q : chan) : outcome (Result Z * bytes * chan) :=
  if (zlen req =? 0) || (zlen resp <? P9_HEADER_SIZE) then Ret (Err InvalidParam, resp, q)
  else
    do! (r, q) <- rpc [req] [resp] q;
    match r with
    | Err e => Ret (Err e, resp, q)
    | Ok (used_len, outs) =>
        let resp := hd [] outs in
        let size := field 0 4 resp in
        Ret (if size =? used_len then Ok used_len else Err IoError, resp, q)
    end.

(** A 9p answer that is accepted says its own length.  Over a channel that keeps its
    promise, a request that is not empty, with room for the header of an answer, is
    answered by exactly what the device wrote; it is accepted exactly when the first four
    bytes of the buffer are the length the device used, and otherwise an error. *)
Theorem p9_length_agrees {SIZE : Z} {HC : Channel} {HD : Device} {HO : ChannelOk SIZE} q req resp :
  2 <= SIZE -> chan_ok q -> 0 < zlen req < 2 ^ 32 -> P9_HEADER_SIZE <= zlen resp < 2 ^ 32 ->
  let '(n, written, dev) := serve [req] [zlen resp] (behind q) in
  exists q', chan_ok q' /\ behind q' = dev /\ let resp' := overlay resp (hd [] written) in
    (written <> [] -> request req resp q = Ret (if field 0 4 resp' =? n then Ok n else Err IoError, resp', q')).
Proof.
  intros HS Hq Hr Hp. pose proof (rpc_ok [req] [resp] q Hq) as Hc. change (zlen <$> [resp]) with [zlen resp] in Hc. destruct (serve _ _ _) as [[n written] dev].
  destruct Hc as (q' & E & Hq' & Hb); [split; [by change (0 < 2 <= SIZE); lia|]; repeat (apply Forall_cons; split; [lia|]); by apply Forall_nil|]. exists q'. split_and!; try done. intros Hw.
  unfold request. rewrite (proj2 (Z.eqb_neq _ _)), (proj2 (Z.ltb_ge _ _)) by lia. cbn [orb]. rewrite E. cbn [obind]. destruct written as [|w written]; [done|]. done.
Qed.
