(* ===== verification/Edid.v ===== *)
(** * EDID blobs ([src/virtio-drivers-patched/src/device/gpu/edid.rs])

    The preferred resolution and the standard timings in the description a display gives
    of itself. *)

From Stdlib Require Import Sorted.
From S2P Require Import Prelude Virtq Channel.

Notation NUM_STANDARD_TIMINGS := 8%nat.
Notation DTD1_OFFSET := 0x36.
Notation DTD_LEN := 18.
Notation STANDARD_TIMINGS_OFFSET := 38.
Notation STANDARD_TIMING_LEN := 2.

Inductive AspectRatio := Ratio16x10 | Ratio4x3 | Ratio5x4 | Ratio16x9.
Definition from_bits (bits : Z) : outcome AspectRatio :=
  match bits with 0 => Ret Ratio16x10 | 1 => Ret Ratio4x3 | 2 => Ret Ratio5x4 | 3 => Ret Ratio16x9 | _ => Panic end.
Definition v_pixels (a : AspectRatio) (h : Z) : Z :=
  match a with
  | Ratio16x10 => u32 (h * 10) / 16
  | Ratio4x3 => u32 (h * 3) / 4
  | Ratio5x4 => u32 (h * 4) / 5
  | Ratio16x9 => u32 (h * 9) / 16
  end.

(** [StandardTiming::parse] of two bytes: the horizontal and the vertical pixels. *)
Definition standard_parse (b0 b1 : Z) : outcome (option (Z * Z)) :=
  if (b0 =? 1) && (b1 =? 1) then Ret None
  else
    let h := u32 (u32 (b0 + 31) * 8) in
    do! aspect <- from_bits (Z.land (Z.shiftr b1 6) 3);
    Ret (Some (h, v_pixels aspect h)).

(** [bytes[i]] of a slice of at least 18. *)
Definition byte (l : bytes) (i : nat) : Z := nth i l 0.

(** [DetailedTiming::parse] of 18 bytes. *)
Definition detailed_parse (l : bytes) : option (Z * Z) :=
  let h_active := Z.lor (byte l 2) (Z.shiftl (Z.land (byte l 4) 0xf0) 4) in
  let v_active := Z.lor (byte l 5) (Z.shiftl (Z.land (byte l 7) 0xf0) 4) in
  if (h_active =? 0) || (v_active =? 0) then None else Some (h_active, v_active).

Record Edid := mkEdid { data : bytes; size : Z }.
Definition has_base_block (e : Edid) : bool := 128 <=? size e.

(** [&data[a..][..n]]. *)
Definition part (l : bytes) (a n : Z) : outcome bytes :=
  if a + n <=? zlen l then Ret (take (Z.to_nat n) (drop (Z.to_nat a) l)) else Panic.

Definition first_detailed_timing (e : Edid) : outcome (option (Z * Z)) :=
  if negb (has_base_block e) then Ret None
  else do! b <- part (data e) DTD1_OFFSET DTD_LEN; Ret (detailed_parse b).

Definition standard_timing (e : Edid) (index : Z) : outcome (option (Z * Z)) :=
  do! b <- part (data e) (STANDARD_TIMINGS_OFFSET + index * STANDARD_TIMING_LEN) STANDARD_TIMING_LEN;
  standard_parse (byte b 0) (byte b 1).

Definition preferred_resolution (e : Edid) : outcome (Result (Z * Z)) :=
  do! r <- first_detailed_timing e;
  Ret (match r with None => Err IoError | Some r => Ok r end).

(** The entries from [i] on, without the unused ones. *)
Fixpoint collect_timings (n : nat) (i : Z) (e : Edid) : outcome (list (Z * Z)) :=
  match n with
  | O => Ret []
  | S n' =>
      do! t <- standard_timing e i;
      do! l <- collect_timings n' (i + 1) e;
      Ret (match t with Some r => r :: l | None => l end)
  end.

(** [sort_by]: stable, by the number of pixels, largest first. *)
Definition pixels (r : Z * Z) : Z := u64 (r.1 * r.2).
Fixpoint sort_insert (r : Z * Z) (l : list (Z * Z)) : list (Z * Z) :=
  match l with
  | [] => [r]
  | x :: l' => if pixels x <=? pixels r then r :: l else x :: sort_insert r l'
  end.
Definition sort_by_pixels (l : list (Z * Z)) : list (Z * Z) := foldr sort_insert [] l.

Definition standard_timings (e : Edid) : outcome (list (Z * Z)) :=
  if negb (has_base_block e) then Ret []
  else do! l <- collect_timings NUM_STANDARD_TIMINGS 0 e; Ret (sort_by_pixels l).

(** ** What a display writes *)

(** The two bytes of a standard timing, for [h] pixels a line and an aspect. *)
Definition aspect_bits (a : AspectRatio) : Z := match a with Ratio16x10 => 0 | Ratio4x3 => 1 | Ratio5x4 => 2 | Ratio16x9 => 3 end.
Definition standard_bytes (h : Z) (a : AspectRatio) (refresh : Z) : bytes := [h / 8 - 31; aspect_bits a * 64 + refresh].
(** The height of a mode. *)
Definition height (a : AspectRatio) (h : Z) : Z := match a with Ratio16x10 => h * 10 / 16 | Ratio4x3 => h * 3 / 4 | Ratio5x4 => h * 4 / 5 | Ratio16x9 => h * 9 / 16 end.

(** A slot: a mode or nothing. *)
Definition slot_bytes (s : option (Z * AspectRatio * Z)) : bytes := match s with Some (h, a, r) => standard_bytes h a r | None => [1; 1] end.
Definition slot_ok (s : option (Z * AspectRatio * Z)) : Prop :=
  match s with Some (h, a, r) => h mod 8 = 0 /\ 248 <= h < 2296 /\ 0 <= r < 64 /\ standard_bytes h a r <> [1; 1] | None => True end.
Definition mode_of (s : option (Z * AspectRatio * Z)) : option (Z * Z) := match s with Some (h, a, r) => Some (h, height a h) | None => None end.

Lemma standard_roundtrip s : slot_ok s -> standard_parse (byte (slot_bytes s) 0) (byte (slot_bytes s) 1) = Ret (mode_of s).
Proof.
  destruct s as [[[h a] r]|]; [|done]. intros (Hm & Hh & Hr & Hne). unfold standard_parse, slot_bytes, standard_bytes, byte. cbn [nth].
  assert (E0 : (h / 8 - 31 + 31) * 8 = h) by (rewrite Z.sub_add; pose proof (Z.div_mod h 8); lia).
  destruct ((h / 8 - 31 =? 1) && (aspect_bits a * 64 + r =? 1)) eqn:E.
  { apply andb_true_iff in E as [E1 E2]. apply Z.eqb_eq in E1, E2. destruct Hne. unfold standard_bytes. by rewrite E1, E2. }
  assert (Ea : Z.land (Z.shiftr (aspect_bits a * 64 + r) 6) 3 = aspect_bits a).
  { rewrite Z.shiftr_div_pow2 by lia. change (2 ^ 6) with 64. rewrite Z.div_add_l, Z.div_small by lia. by destruct a. }
  rewrite Ea. assert (Hb : 0 <= h / 8 < 2 ^ 32) by (split; [apply Z.div_pos; lia|apply Z.div_lt_upper_bound; lia]).
  rewrite (u32_small (h / 8 - 31 + 31)), E0, u32_small by lia. cbn [mode_of]. destruct a; cbn [from_bits aspect_bits obind v_pixels height]; by rewrite u32_small by lia.
Qed.

(** The nibbles of a detailed timing. *)
Definition detailed_bytes (w h : Z) (rest : Z -> Z) : bytes :=
  [rest 0; rest 1; w mod 256; rest 3; w / 256 * 16 + rest 4; h mod 256; rest 6; h / 256 * 16 + rest 7] ++ (rest <$> seqZ 8 10).

Lemma nibble x lo : 0 <= x < 16 -> 0 <= lo < 16 -> Z.shiftl (Z.land (x * 16 + lo) 0xf0) 4 = x * 256.
Proof.
  intros Hx Hlo. assert (Hc : forallb (fun x => forallb (fun lo => Z.shiftl (Z.land (x * 16 + lo) 0xf0) 4 =? x * 256) (seqZ 0 16)) (seqZ 0 16) = true) by (vm_compute; reflexivity).
  rewrite forallb_forall in Hc. specialize (Hc x). rewrite forallb_forall in Hc. apply Z.eqb_eq. apply Hc; apply list_elem_of_In, elem_of_seqZ; lia.
Qed.

Lemma low_high x : 0 <= x < 4096 -> Z.lor (x mod 256) (x / 256 * 256) = x.
Proof.
  intros Hx. rewrite Z.lor_comm. change 256 with (2 ^ 8) at 2. rewrite <- Z.shiftl_mul_pow2 by lia. pose proof (Z.mod_pos_bound x 256). rewrite lor_low by lia. pose proof (Z.div_mod x 256). lia.
Qed.

Lemma detailed_roundtrip w h rest : 0 < w < 4096 -> 0 < h < 4096 -> 0 <= rest 4 < 16 -> 0 <= rest 7 < 16 -> detailed_parse (detailed_bytes w h rest) = Some (w, h).
Proof.
  intros Hw Hh H4 H7. unfold detailed_parse, byte, detailed_bytes. cbn [app nth].
  assert (0 <= w / 256 < 16 /\ 0 <= h / 256 < 16) as [Hw2 Hh2] by (split; (split; [apply Z.div_pos; lia|apply Z.div_lt_upper_bound; lia])).
  rewrite !nibble, !low_high by lia. rewrite !(proj2 (Z.eqb_neq _ _)) by lia. done.
Qed.

(** ** Sorting *)

Definition larger (a b : Z * Z) : Prop := pixels b <= pixels a.
Lemma sort_insert_perm r l : sort_insert r l ≡ₚ r :: l.
Proof. induction l as [|x l IH]; cbn; [done|]. destruct (_ <=? _); [done|]. rewrite IH. by rewrite Permutation_swap. Qed.
Lemma sort_insert_sorted r l : StronglySorted larger l -> StronglySorted larger (sort_insert r l).
Proof.
  induction 1 as [|x l Hs IH Hx]; cbn; [by repeat constructor|]. destruct (Z.leb_spec (pixels x) (pixels r)) as [Hle|Hgt].
  - constructor; [by constructor|]. constructor; [done|]. eapply Forall_impl; [exact Hx|]. intros y Hy. unfold larger in *. lia.
  - constructor; [done|]. rewrite sort_insert_perm. constructor; [unfold larger; lia|done].
Qed.
(** Modes of as many pixels keep their order. *)
Lemma sort_insert_stable p r l : filter (fun x => pixels x = p) (sort_insert r l) = filter (fun x => pixels x = p) (r :: l).
Proof.
  induction l as [|x l IH]; [done|]. cbn [sort_insert]. destruct (Z.leb_spec (pixels x) (pixels r)) as [|Hgt]; [done|]. rewrite !filter_cons, IH, filter_cons.
  repeat case_decide; try done. lia.
Qed.
Lemma sort_spec l : sort_by_pixels l ≡ₚ l /\ StronglySorted larger (sort_by_pixels l) /\ forall p, filter (fun x => pixels x = p) (sort_by_pixels l) = filter (fun x => pixels x = p) l.
Proof.
  induction l as [|r l (IH1 & IH2 & IH3)]; cbn [sort_by_pixels foldr]; [by repeat constructor|]. fold (sort_by_pixels l). split_and!.
  - by rewrite sort_insert_perm, IH1.
  - by apply sort_insert_sorted.
  - intros p. rewrite sort_insert_stable, !filter_cons, IH3. done.
Qed.

(** ** Blobs *)

Definition blob (head : bytes) (slots : list (option (Z * AspectRatio * Z))) (w h : Z) (rest : Z -> Z) (tail : bytes) : bytes :=
  head ++ mjoin (slot_bytes <$> slots) ++ detailed_bytes w h rest ++ tail.

Lemma slot_bytes_length s : length (slot_bytes s) = 2%nat.
Proof. by destruct s as [[[? ?] ?]|]. Qed.
Lemma slots_length slots : length (mjoin (slot_bytes <$> slots)) = (2 * length slots)%nat.
Proof.
  induction slots as [|s slots IH]; [done|]. change (mjoin (slot_bytes <$> s :: slots)) with (slot_bytes s ++ mjoin (slot_bytes <$> slots)). rewrite length_app, slot_bytes_length, IH. cbn [length]. lia.
Qed.

Lemma part_here l1 l2 l3 : part (l1 ++ l2 ++ l3) (zlen l1) (zlen l2) = Ret l2.
Proof.
  unfold part. rewrite !zlen_app. pose proof (zlen_nonneg l3). rewrite (proj2 (Z.leb_le _ _)) by lia. unfold zlen. rewrite !Nat2Z.id, drop_app_length, take_app_length. done.
Qed.

Lemma collect_slots pre slots post n : Forall slot_ok slots -> forall i, zlen pre = STANDARD_TIMINGS_OFFSET + i * STANDARD_TIMING_LEN ->
  collect_timings (length slots) i (mkEdid (pre ++ mjoin (slot_bytes <$> slots) ++ post) n) = Ret (omap mode_of slots).
Proof.
  revert pre. induction slots as [|s slots IH]; intros pre Hs i Hp; [done|]. apply Forall_cons in Hs as [Hs1 Hs]. cbn [length collect_timings].
  change (mjoin (slot_bytes <$> s :: slots)) with (slot_bytes s ++ mjoin (slot_bytes <$> slots)).
  unfold standard_timing. cbn [data]. rewrite <- Hp. pose proof (part_here pre (slot_bytes s) (mjoin (slot_bytes <$> slots) ++ post)) as E. unfold zlen in E at 2. rewrite slot_bytes_length in E. change (Z.of_nat 2) with 2 in E.
  rewrite <- (app_assoc (slot_bytes s)). rewrite E. cbn [obind]. rewrite standard_roundtrip by done. cbn [obind].
  specialize (IH (pre ++ slot_bytes s) Hs (i + 1)). rewrite <- app_assoc in IH. rewrite IH.
  - cbn [obind omap list_omap]. by destruct (mode_of s).
  - rewrite zlen_app, Hp. unfold zlen. rewrite slot_bytes_length. lia.
Qed.

(** C37: EDID descriptions round-trip.  For any blob a display writes with a preferred
    mode of up to 4095 by 4095 pixels and eight slots of standard modes, used or not, the
    parser runs to its end and returns that preferred mode, and exactly the modes in the
    used slots, the ones with more pixels first, those with as many in their order. *)
Theorem edid_roundtrip head slots w h rest tail n :
  length head = 38%nat -> length slots = 8%nat -> Forall slot_ok slots -> 0 < w < 4096 -> 0 < h < 4096 -> 0 <= rest 4 < 16 -> 0 <= rest 7 < 16 -> 128 <= n ->
  let e := mkEdid (blob head slots w h rest tail) n in
  preferred_resolution e = Ret (Ok (w, h)) /\
  exists l, standard_timings e = Ret l /\ l ≡ₚ omap mode_of slots /\ StronglySorted larger l /\
    forall p, filter (fun x => pixels x = p) l = filter (fun x => pixels x = p) (omap mode_of slots).
Proof.
  intros Hh Hl Hs Hw Hhh H4 H7 Hsz e. unfold preferred_resolution, standard_timings, first_detailed_timing, has_base_block. cbn [size e]. rewrite (proj2 (Z.leb_le _ _) Hsz). cbn [negb]. split.
  - change (data e) with (blob head slots w h rest tail). unfold blob. rewrite app_assoc. pose proof (part_here (head ++ mjoin (slot_bytes <$> slots)) (detailed_bytes w h rest) tail) as E.
    unfold zlen in E. rewrite length_app, slots_length, Hh, Hl in E. change (Z.of_nat (length (detailed_bytes w h rest))) with DTD_LEN in E. change (Z.of_nat (38 + 2 * 8)) with DTD1_OFFSET in E. rewrite E. cbn [obind]. by rewrite detailed_roundtrip.
  - pose proof (collect_slots head slots (detailed_bytes w h rest ++ tail) n Hs 0 ltac:(unfold zlen; by rewrite Hh)) as E. rewrite Hl in E. unfold e, blob. rewrite E. cbn [obind].
    eexists. split; [done|]. apply sort_spec.
Qed.

(** A display of 1920 by 1080 with the standard modes of a monitor. *)
Definition monitor_slots : list (option (Z * AspectRatio * Z)) :=
  [Some (2048, Ratio16x9, 0); Some (1920, Ratio16x9, 0); Some (1920, Ratio16x10, 0); Some (1600, Ratio4x3, 0); None; Some (1440, Ratio16x10, 0); Some (1280, Ratio5x4, 0); Some (1280, Ratio4x3, 0)].

Lemma edid_roundtrip_witness :
  let e := mkEdid (blob (replicate 38 0) monitor_slots 1920 1080 (fun _ => 0) (replicate 952 0)) 256 in
  preferred_resolution e = Ret (Ok (1920, 1080)) /\
  exists l, standard_timings e = Ret l /\ l ≡ₚ omap mode_of monitor_slots /\ StronglySorted larger l /\
    forall p, filter (fun x => pixels x = p) l = filter (fun x => pixels x = p) (omap mode_of monitor_slots).
Proof.
  apply edid_roundtrip.
  - done.
  - done.
  - repeat constructor; done || lia || (intros [=]).
  - lia.
  - lia.
  - lia.
  - lia.
  - lia.
Defined.
