(* ===== verification/Gpu.v ===== *)
(** * The graphics adapter ([src/virtio-drivers-patched/src/device/gpu/mod.rs])

    The commands in their layout, and the driver that sends them over its control queue
    and its cursor queue: the frame buffer and its memory, flushing, the pointer. *)

From S2P Require Import Prelude Virtq Transport Channel Edid.

Notation GPU_QUEUE_SIZE := 2.
Notation GPU_QUEUE_TRANSMIT := 0.
Notation GPU_QUEUE_CURSOR := 1.
(** The flags [Features] of the graphics adapter has. *)
Notation GPU_FEATURES := 0x7f79000003.
Notation GPU_EDID := (2 ^ 1).
Definition GPU_SUPPORTED : Z := Z.lor (Z.lor (Z.lor (2 ^ 29) (2 ^ 28)) (2 ^ 32)) GPU_EDID.

Notation SCANOUT_ID := 0.
Notation RESOURCE_ID_FB := 0xbabe.
Notation RESOURCE_ID_CURSOR := 0xdade.

Notation OK_NODATA := 0x1100.
Notation OK_DISPLAY_INFO := 0x1101.
Notation OK_EDID := 0x1104.

Record Rect := mkRect { rx_ : Z; ry_ : Z; width : Z; height : Z }.
#[export] Instance Rect_eq_dec : EqDecision Rect.
Proof. solve_decision. Defined.
Definition rect_default : Rect := mkRect 0 0 0 0.
Definition CURSOR_RECT : Rect := mkRect 0 0 64 64.

(** ** Commands *)

Inductive GpuCmd :=
| GetDisplayInfo
| GetEdid (scanout : Z)
| ResourceCreate2D (resource_id w h : Z)
| ResourceUnref (resource_id : Z)
| SetScanout (rect : Rect) (scanout_id resource_id : Z)
| ResourceFlush (rect : Rect) (resource_id : Z)
| TransferToHost2D (rect : Rect) (offset resource_id : Z)
| ResourceAttachBacking (resource_id addr length : Z)
| ResourceDetachBacking (resource_id : Z)
| UpdateCursor (is_move : bool) (scanout_id x y resource_id hot_x hot_y : Z).

(** [CtrlHeader::with_type]. *)
Definition header (hdr_type : Z) : bytes := le_bytes 4 hdr_type ++ le_bytes 4 0 ++ le_bytes 8 0 ++ le_bytes 4 0 ++ le_bytes 4 0.
Definition rect_bytes (r : Rect) : bytes := le_bytes 4 (rx_ r) ++ le_bytes 4 (ry_ r) ++ le_bytes 4 (width r) ++ le_bytes 4 (height r).
Definition cmd_bytes (c : GpuCmd) : bytes :=
  match c with
  | GetDisplayInfo => header 0x100
  | GetEdid scanout => header 0x10a ++ le_bytes 4 scanout ++ le_bytes 4 0
  | ResourceCreate2D id w h => header 0x101 ++ le_bytes 4 id ++ le_bytes 4 1 ++ le_bytes 4 w ++ le_bytes 4 h
  | ResourceUnref id => header 0x102 ++ le_bytes 4 id ++ le_bytes 4 0
  | SetScanout rect scanout id => header 0x103 ++ rect_bytes rect ++ le_bytes 4 scanout ++ le_bytes 4 id
  | ResourceFlush rect id => header 0x104 ++ rect_bytes rect ++ le_bytes 4 id ++ le_bytes 4 0
  | TransferToHost2D rect offset id => header 0x105 ++ rect_bytes rect ++ le_bytes 8 offset ++ le_bytes 4 id ++ le_bytes 4 0
  | ResourceAttachBacking id addr length => header 0x106 ++ le_bytes 4 id ++ le_bytes 4 1 ++ le_bytes 8 addr ++ le_bytes 4 length ++ le_bytes 4 0
  | ResourceDetachBacking id => header 0x107 ++ le_bytes 4 id ++ le_bytes 4 0
  | UpdateCursor is_move scanout x y id hot_x hot_y =>
      header (if is_move then 0x301 else 0x300) ++ le_bytes 4 scanout ++ le_bytes 4 x ++ le_bytes 4 y ++ le_bytes 4 0 ++
      le_bytes 4 id ++ le_bytes 4 hot_x ++ le_bytes 4 hot_y ++ le_bytes 4 0
  end.

Definition le_field (a n : nat) (l : bytes) : Z := le_val (take n (drop a l)).
(** [hdr_type] of an answer; [rect.width] and [rect.height] of [RespDisplayInfo]; [RespEdid]. *)
Definition hdr_type (l : bytes) : Z := le_field 0 4 l.
Definition display_size (l : bytes) : Z * Z := (le_field 32 4 l, le_field 36 4 l).
Definition resp_edid (l : bytes) : Edid := mkEdid (take 1024 (drop 32 l)) (le_field 24 4 l).
Definition check_type (l : bytes) (expected : Z) : Result unit := if hdr_type l =? expected then Ok tt else Err IoError.

(** ** The driver *)

(** [gpu_log] are the calls of [Dma], [gpu_mem] the memory. *)
Record VirtIOGpu (Q : Type) := mkGpu {
  rect : option Rect;
  frame_buffer_dma : option Dma;
  cursor_buffer_dma : option Dma;
  control_queue : Q;
  cursor_queue : Q;
  queue_buf_send : bytes;
  queue_buf_recv : bytes;
  has_edid : bool;
  gpu_log : list hal_event;
  gpu_mem : mem
}.
Arguments mkGpu {Q}. Arguments rect {Q}. Arguments frame_buffer_dma {Q}. Arguments cursor_buffer_dma {Q}. Arguments control_queue {Q}. Arguments cursor_queue {Q}.
Arguments queue_buf_send {Q}. Arguments queue_buf_recv {Q}. Arguments has_edid {Q}. Arguments gpu_log {Q}. Arguments gpu_mem {Q}.

Definition set_rect {Q} (d : VirtIOGpu Q) x : VirtIOGpu Q :=
  mkGpu x (frame_buffer_dma d) (cursor_buffer_dma d) (control_queue d) (cursor_queue d) (queue_buf_send d) (queue_buf_recv d) (has_edid d) (gpu_log d) (gpu_mem d).
Definition set_frame {Q} (d : VirtIOGpu Q) x : VirtIOGpu Q :=
  mkGpu (rect d) x (cursor_buffer_dma d) (control_queue d) (cursor_queue d) (queue_buf_send d) (queue_buf_recv d) (has_edid d) (gpu_log d) (gpu_mem d).
Definition set_cursor_dma {Q} (d : VirtIOGpu Q) x : VirtIOGpu Q :=
  mkGpu (rect d) (frame_buffer_dma d) x (control_queue d) (cursor_queue d) (queue_buf_send d) (queue_buf_recv d) (has_edid d) (gpu_log d) (gpu_mem d).
Definition set_control {Q} (d : VirtIOGpu Q) q send recv : VirtIOGpu Q :=
  mkGpu (rect d) (frame_buffer_dma d) (cursor_buffer_dma d) q (cursor_queue d) send recv (has_edid d) (gpu_log d) (gpu_mem d).
Definition set_cursor_queue {Q} (d : VirtIOGpu Q) q send : VirtIOGpu Q :=
  mkGpu (rect d) (frame_buffer_dma d) (cursor_buffer_dma d) (control_queue d) q send (queue_buf_recv d) (has_edid d) (gpu_log d) (gpu_mem d).
Definition set_gpu_log {Q} (d : VirtIOGpu Q) l : VirtIOGpu Q :=
  mkGpu (rect d) (frame_buffer_dma d) (cursor_buffer_dma d) (control_queue d) (cursor_queue d) (queue_buf_send d) (queue_buf_recv d) (has_edid d) l (gpu_mem d).
Definition set_mem {Q} (d : VirtIOGpu Q) m : VirtIOGpu Q :=
  mkGpu (rect d) (frame_buffer_dma d) (cursor_buffer_dma d) (control_queue d) (cursor_queue d) (queue_buf_send d) (queue_buf_recv d) (has_edid d) (gpu_log d) m.

(** [events_read] and [num_scanouts] are read and logged. *)
Definition gpu_new `{Transport.Transport} `{Hal} (m : mem) (t : tr) : outcome (Result (VirtIOGpu VirtQueue) * tr) :=
  let '(features, t) := begin_init GPU_FEATURES GPU_SUPPORTED t in
  do? (_, t) <- read_config_space 4 4 0 t;
  do? (_, t) <- read_config_space 4 4 8 t;
  let ind := contains features (2 ^ 28) in
  let ev := contains features (2 ^ 29) in
  do? (control, t) <- make_queue GPU_QUEUE_SIZE GPU_QUEUE_TRANSMIT ind ev [] t;
  do? (cursor, t) <- make_queue GPU_QUEUE_SIZE GPU_QUEUE_CURSOR ind ev (hal_log control) t;
  let page := replicate (Z.to_nat PAGE_SIZE) 0 in
  Ret (Ok (mkGpu None None None control cursor page page (contains features GPU_EDID) (hal_log cursor) m), finish_init t).
Definition gpu_drop `{Transport.Transport} (fuel : nat) (t : tr) : outcome tr :=
  do! t <- queue_unset fuel GPU_QUEUE_TRANSMIT t; queue_unset fuel GPU_QUEUE_CURSOR t.

Section gpu.
Context `{Channel} `{Hal}.
Notation Gpu := (VirtIOGpu chan).

(** [write_to_prefix] into the send buffer. *)
Definition put_prefix (c : bytes) (buf : bytes) : bytes := c ++ drop (length c) buf.

(** [request]: the whole buffers go to the device; the answer is read from the start. *)
Definition request (c : GpuCmd) (d : Gpu) : outcome (Result bytes * Gpu) :=
  let send := put_prefix (cmd_bytes c) (queue_buf_send d) in
  do! (r, q) <- rpc [send] [queue_buf_recv d] (control_queue d);
  Ret (match r with
       | Err e => (Err e, set_control d q send (queue_buf_recv d))
       | Ok (_, outs) => (Ok (hd [] outs), set_control d q send (hd [] outs))
       end).
Definition cursor_request (c : GpuCmd) (d : Gpu) : outcome (Result unit * Gpu) :=
  let send := put_prefix (cmd_bytes c) (queue_buf_send d) in
  do! (r, q) <- rpc [send] [] (cursor_queue d);
  Ret (match r with Err e => Err e | Ok _ => Ok tt end, set_cursor_queue d q send).

(** A command answered without data. *)
Definition command (c : GpuCmd) (d : Gpu) : outcome (Result unit * Gpu) :=
  do? (rsp, d) <- request c d; Ret (check_type rsp OK_NODATA, d).

Definition get_display_info (d : Gpu) : outcome (Result (Z * Z) * Gpu) :=
  do? (info, d) <- request GetDisplayInfo d;
  Ret (match check_type info OK_DISPLAY_INFO with Err e => Err e | Ok _ => Ok (display_size info) end, d).
Definition resource_create_2d (id w h : Z) := command (ResourceCreate2D id w h).
Definition set_scanout (r : Rect) (scanout id : Z) := command (SetScanout r scanout id).
Definition resource_flush (r : Rect) (id : Z) := command (ResourceFlush r id).
Definition transfer_to_host_2d (r : Rect) (offset id : Z) := command (TransferToHost2D r offset id).
Definition resource_attach_backing (id paddr length : Z) := command (ResourceAttachBacking id paddr length).
Definition resource_detach_backing (id : Z) := command (ResourceDetachBacking id).
Definition resource_unref (id : Z) := command (ResourceUnref id).
Definition update_cursor (id scanout x y hot_x hot_y : Z) (is_move : bool) := cursor_request (UpdateCursor is_move scanout x y id hot_x hot_y).

Definition resolution (d : Gpu) : outcome (Result (Z * Z) * Gpu) := get_display_info d.

Definition get_edid (scanout : Z) (d : Gpu) : outcome (Result Edid * Gpu) :=
  if negb (has_edid d) then Ret (Err Unsupported, d)
  else
    do? (rsp, d) <- request (GetEdid scanout) d;
    Ret (match check_type rsp OK_EDID with Err e => Err e | Ok _ => Ok (resp_edid rsp) end, d).
Definition edid_preferred_resolution (d : Gpu) : outcome (Result (Z * Z) * Gpu) :=
  do? (e, d) <- get_edid SCANOUT_ID d;
  do! r <- preferred_resolution e; Ret (r, d).
Definition edid_supported_resolutions (d : Gpu) : outcome (Result (list (Z * Z)) * Gpu) :=
  do? (e, d) <- get_edid SCANOUT_ID d;
  do! l <- standard_timings e; Ret (Ok l, d).

(** A value of type [Dma] goes out of scope. *)
Definition drop_dma (dma : option Dma) (d : Gpu) : outcome Gpu :=
  match dma with
  | None => Ret d
  | Some dma => do! l <- Dma_drop dma (gpu_log d); Ret (set_gpu_log d l)
  end.
(** A call that fails while the local [dma] is live. *)
Definition guarded (dma : Dma) (m : outcome (Result unit * Gpu)) : outcome (Result unit * Gpu) :=
  do! (r, d) <- m;
  match r with
  | Ok _ => Ret (Ok tt, d)
  | Err e => do! d <- drop_dma (Some dma) d; Ret (Err e, d)
  end.

(** [change_resolution]: the existing frame buffer is torn down, the new one is put up. *)
Definition take_down (d : Gpu) : outcome (Result unit * Gpu) :=
  match frame_buffer_dma d with
  | None => Ret (Ok tt, d)
  | Some old =>
      do? (_, d) <- set_scanout rect_default SCANOUT_ID 0 d;
      do? (_, d) <- resource_detach_backing RESOURCE_ID_FB d;
      do? (_, d) <- resource_unref RESOURCE_ID_FB d;
      do! d <- drop_dma (Some old) d;
      Ret (Ok tt, set_frame d None)
  end.
Definition put_up (w h : Z) (d : Gpu) : outcome (Result Buffer * Gpu) :=
  let size := u32 (u32 (w * h) * 4) in
  let '(dma, log) := Dma_new (pages size) DriverToDevice (gpu_log d) in
  let d := set_gpu_log d log in
  match dma with
  | Err e => Ret (Err e, d)
  | Ok dma =>
      do? (_, d) <- guarded dma (resource_attach_backing RESOURCE_ID_FB (dma_paddr dma) size d);
      do? (_, d) <- guarded dma (set_scanout (mkRect 0 0 w h) SCANOUT_ID RESOURCE_ID_FB d);
      Ret (Ok (mkBuf (dma_base dma) (dma_pages dma * PAGE_SIZE)), set_frame d (Some dma))
  end.
(** The slice of the new frame buffer. *)
Definition change_resolution (w h : Z) (d : Gpu) : outcome (Result Buffer * Gpu) :=
  do? (_, d) <- take_down d;
  let d := set_rect d (Some (mkRect 0 0 w h)) in
  do? (_, d) <- resource_create_2d RESOURCE_ID_FB w h d;
  put_up w h d.

Definition setup_framebuffer (d : Gpu) : outcome (Result Buffer * Gpu) :=
  do? (info, d) <- get_display_info d;
  let '(w, h) := info in change_resolution w h d.

Definition flush (d : Gpu) : outcome (Result unit * Gpu) :=
  match rect d with
  | None => Ret (Err NotReady, d)
  | Some r =>
      do? (_, d) <- transfer_to_host_2d r 0 RESOURCE_ID_FB d;
      resource_flush r RESOURCE_ID_FB d
  end.

Definition setup_cursor (cursor_image : bytes) (x y hot_x hot_y : Z) (d : Gpu) : outcome (Result unit * Gpu) :=
  let size := width CURSOR_RECT * height CURSOR_RECT * 4 in
  if negb (zlen cursor_image =? size) then Ret (Err InvalidParam, d)
  else
    let '(dma, log) := Dma_new (pages size) DriverToDevice (gpu_log d) in
    let d := set_gpu_log d log in
    match dma with
    | Err e => Ret (Err e, d)
    | Ok dma =>
        if negb (zlen cursor_image =? dma_pages dma * PAGE_SIZE) then Panic
        else
          let d := set_mem d (mem_write (gpu_mem d) (dma_base dma) cursor_image) in
          do? (_, d) <- guarded dma (resource_create_2d RESOURCE_ID_CURSOR (width CURSOR_RECT) (height CURSOR_RECT) d);
          do? (_, d) <- guarded dma (resource_attach_backing RESOURCE_ID_CURSOR (dma_paddr dma) size d);
          do? (_, d) <- guarded dma (transfer_to_host_2d CURSOR_RECT 0 RESOURCE_ID_CURSOR d);
          do? (_, d) <- guarded dma (update_cursor RESOURCE_ID_CURSOR SCANOUT_ID x y hot_x hot_y false d);
          do! d <- drop_dma (cursor_buffer_dma d) d;
          Ret (Ok tt, set_cursor_dma d (Some dma))
    end.

Definition move_cursor (x y : Z) (d : Gpu) : outcome (Result unit * Gpu) := update_cursor RESOURCE_ID_CURSOR SCANOUT_ID x y 0 0 true d.
End gpu.
