(* ===== verification/GpuProofs.v ===== *)
(** * The graphics adapter: proofs

    Against a device that keeps resources and scanouts as virtio documents them: the
    frame buffer the driver hands out is the memory behind the resource on the screen,
    through any changes of resolution; and what happens when a step of a change fails. *)

From S2P Require Import Prelude Virtq VirtqInv VirtqRun VirtqThms VirtqOwn Transport Channel ChannelVirtq Edid Gpu.

(** ** The device *)

(** A resource: its size and the memory behind it.  [outputs] are the scanouts there are. *)
Record resource := mkRes { r_size : Z * Z; r_backing : option (Z * Z) }.
Record screen := mkScreen { resources : gmap Z resource; shown : gmap Z (Rect * Z); outputs : list Z }.
Definition set_resources (s : screen) r : screen := mkScreen r (shown s) (outputs s).
Definition set_shown (s : screen) x : screen := mkScreen (resources s) x (outputs s).

Definition inside (r : Rect) (size : Z * Z) : bool := (rx_ r + width r <=? size.1) && (ry_ r + height r <=? size.2).

(** Which commands the device accepts, and what they do. *)
Definition valid (c : GpuCmd) (s : screen) : bool :=
  match c with
  | ResourceCreate2D id w h => negb (id =? 0) && (0 <? w) && (0 <? h) && bool_decide (resources s !! id = None)
  | ResourceUnref id | ResourceFlush _ id => bool_decide (is_Some (resources s !! id))
  | SetScanout r sc id =>
      bool_decide (sc ∈ outputs s) && ((id =? 0) || match resources s !! id with Some x => inside r (r_size x) | None => false end)
  | TransferToHost2D r _ id => match resources s !! id with Some x => inside r (r_size x) && bool_decide (is_Some (r_backing x)) | None => false end
  | ResourceAttachBacking id _ _ => match resources s !! id with Some x => bool_decide (r_backing x = None) | None => false end
  | ResourceDetachBacking id => match resources s !! id with Some x => bool_decide (is_Some (r_backing x)) | None => false end
  | GetDisplayInfo | GetEdid _ | UpdateCursor _ _ _ _ _ _ _ => false
  end.
Definition effect (c : GpuCmd) (s : screen) : screen :=
  match c with
  | ResourceCreate2D id w h => set_resources s (<[id := mkRes (w, h) None]> (resources s))
  | ResourceUnref id => set_resources s (delete id (resources s))
  | SetScanout r sc id => set_shown s (if id =? 0 then delete sc (shown s) else <[sc := (r, id)]> (shown s))
  | ResourceAttachBacking id addr len => set_resources s (alter (fun x => mkRes (r_size x) (Some (addr, len))) id (resources s))
  | ResourceDetachBacking id => set_resources s (alter (fun x => mkRes (r_size x) None) id (resources s))
  | _ => s
  end.
(** Commands that are answered without data, with arguments of their widths. *)
Definition u32_ok (x : Z) : Prop := 0 <= x < 2 ^ 32.
Definition rect_ok (r : Rect) : Prop := u32_ok (rx_ r) /\ u32_ok (ry_ r) /\ u32_ok (width r) /\ u32_ok (height r).
Definition plain (c : GpuCmd) : Prop :=
  match c with
  | ResourceCreate2D id w h => u32_ok id /\ u32_ok w /\ u32_ok h
  | ResourceUnref id | ResourceDetachBacking id => u32_ok id
  | SetScanout r sc id => rect_ok r /\ u32_ok sc /\ u32_ok id
  | ResourceFlush r id => rect_ok r /\ u32_ok id
  | TransferToHost2D r o id => rect_ok r /\ 0 <= o < 2 ^ 64 /\ u32_ok id
  | ResourceAttachBacking id addr len => u32_ok id /\ 0 <= addr < 2 ^ 64 /\ u32_ok len
  | GetDisplayInfo | GetEdid _ | UpdateCursor _ _ _ _ _ _ _ => False
  end.

Class GpuDevice `{Device} := {
  screen_of : device -> screen;
  serve_command : forall c rest d, plain c -> (length (cmd_bytes c) + length rest = 4096)%nat ->
    let '(_, outs, d') := serve [cmd_bytes c ++ rest] [PAGE_SIZE] d in
    exists a, outs = [a] /\ (4 <= length a <= 4096)%nat /\
      if valid c (screen_of d) then hdr_type a = OK_NODATA /\ screen_of d' = effect c (screen_of d)
      else hdr_type a <> OK_NODATA /\ screen_of d' = screen_of d
}.

(** Memory for frame buffers: there is always some, and it can be given back. *)
Class DmaEnough `{Hal} := {
  enough : forall log n dir, let '(p, _) := hal_dma_alloc log n dir in 0 < p < 2 ^ 64;
  gives_back : forall log p v n, hal_dma_dealloc log p v n = 0
}.

Section driver.
Context {SIZE : Z} {HC : Channel} {HD : Device} {HO : ChannelOk SIZE} {HG : GpuDevice} `{HHal : Hal} (HSIZE : 2 <= SIZE).
Notation Gpu := (VirtIOGpu chan).
Notation scr d := (screen_of (behind (control_queue d))).

Record ready (d : Gpu) : Prop := {
  rd_chan : chan_ok (control_queue d);
  rd_send : length (queue_buf_send d) = 4096%nat;
  rd_recv : length (queue_buf_recv d) = 4096%nat
}.

(** What a command leaves of the driver. *)
Record sent (d d' : Gpu) : Prop := {
  se_ready : ready d';
  se_rect : rect d' = rect d;
  se_frame : frame_buffer_dma d' = frame_buffer_dma d;
  se_cursor : cursor_buffer_dma d' = cursor_buffer_dma d;
  se_log : gpu_log d' = gpu_log d
}.

Lemma sent_refl d : ready d -> sent d d.
Proof. by constructor. Qed.
Lemma sent_trans a b c : sent a b -> sent b c -> sent a c.
Proof. intros [] []. constructor; congruence || done. Qed.

Lemma cmd_length c : plain c -> (24 <= length (cmd_bytes c) <= 72)%nat.
Proof. destruct c; intros Hp; try done; cbn [cmd_bytes]; unfold header, rect_bytes; rewrite !length_app, !le_bytes_length; lia. Qed.

(** A command succeeds exactly when the device accepts it. *)
Lemma gpu_command_run c d : ready d -> plain c ->
  exists d', command c d = Ret (if valid c (scr d) then Ok tt else Err IoError, d') /\ sent d d' /\ scr d' = if valid c (scr d) then effect c (scr d) else scr d.
Proof using HG HO HSIZE.
  intros [Hc Hs Hr] Hp. unfold command, request, try. pose proof (cmd_length c Hp) as Hl. set (send := put_prefix (cmd_bytes c) (queue_buf_send d)).
  assert (Hsl : length send = 4096%nat) by (unfold send, put_prefix; rewrite length_app, length_drop; lia).
  pose proof (rpc_ok [send] [queue_buf_recv d] (control_queue d) Hc) as Hrpc. change (zlen <$> [queue_buf_recv d]) with [zlen (queue_buf_recv d)] in Hrpc.
  unfold zlen in Hrpc at 1. rewrite Hr in Hrpc. change (Z.of_nat 4096) with PAGE_SIZE in Hrpc.
  pose proof (serve_command c (drop (length (cmd_bytes c)) (queue_buf_send d)) (behind (control_queue d)) Hp ltac:(rewrite length_drop; lia)) as Hd. fold (put_prefix (cmd_bytes c) (queue_buf_send d)) in Hd. fold send in Hd.
  destruct (serve _ _ _) as [[n outs] dev]. destruct Hd as (a & -> & Ha & Hv). destruct Hrpc as (q & E & Hq & Hb).
  { split; [by change (0 < 2 <= SIZE); lia|]. apply Forall_cons. split; [unfold zlen; lia|]. apply Forall_cons. split; [unfold zlen; lia|by apply Forall_nil]. }
  rewrite E. cbn [obind hd zip_with]. set (recv := overlay (queue_buf_recv d) a).
  assert (Hrl : length recv = 4096%nat) by (unfold recv, overlay; rewrite length_app, length_drop; lia).
  assert (Hh : hdr_type recv = hdr_type a) by (unfold hdr_type, le_field, recv, overlay; rewrite !drop_0, take_app_le by lia; done).
  exists (set_control d q send recv). split; [|split; [constructor; try done; by constructor|]].
  - do 2 f_equal. unfold check_type. rewrite Hh. destruct (valid c _); destruct Hv as [Hv _]; [by rewrite Hv, Z.eqb_refl|by rewrite (proj2 (Z.eqb_neq _ _) Hv)].
  - cbn. rewrite Hb. destruct (valid c _); apply Hv.
Qed.

(** A command the device accepts, or refuses. *)
Lemma command_accepted c d : ready d -> plain c -> valid c (scr d) = true -> exists d', command c d = Ret (Ok tt, d') /\ sent d d' /\ scr d' = effect c (scr d).
Proof using HG HO HSIZE. intros Hr Hp Hv. destruct (gpu_command_run c d Hr Hp) as (d' & E & Hs & Hx). rewrite Hv in *. by exists d'. Qed.
Lemma command_refused c d : ready d -> plain c -> valid c (scr d) = false -> exists d', command c d = Ret (Err IoError, d') /\ sent d d' /\ scr d' = scr d.
Proof using HG HO HSIZE. intros Hr Hp Hv. destruct (gpu_command_run c d Hr Hp) as (d' & E & Hs & Hx). rewrite Hv in *. by exists d'. Qed.

Lemma effect_outputs c s : outputs (effect c s) = outputs s.
Proof. by destruct c; cbn. Qed.

(** ** Changing the resolution *)

(** The frame buffer is the memory behind the resource on the screen. *)
Definition backs (s : screen) (r : option Rect) (dma : Dma) : Prop :=
  exists w h, r = Some (mkRect 0 0 w h) /\ u32_ok w /\ u32_ok h /\
    resources s !! RESOURCE_ID_FB = Some (mkRes (w, h) (Some (dma_paddr dma, w * h * 4))) /\
    shown s !! SCANOUT_ID = Some (mkRect 0 0 w h, RESOURCE_ID_FB) /\ w * h * 4 <= dma_pages dma * PAGE_SIZE.
Record in_sync (d : Gpu) : Prop := {
  is_ready : ready d;
  is_frame : match frame_buffer_dma d with
             | None => resources (scr d) !! RESOURCE_ID_FB = None /\ forall r, rect d = Some r -> rect_ok r
             | Some dma => backs (scr d) (rect d) dma
             end
}.

Definition freed (f : option Dma) : list hal_event :=
  match f with None => [] | Some f => [DmaDealloc (dma_paddr f) (dma_base f) (dma_pages f)] end.

(** The frame buffer is taken down. *)
Lemma teardown_run d :
  in_sync d -> (frame_buffer_dma d <> None -> SCANOUT_ID ∈ outputs (scr d)) -> (forall p v n, hal_dma_dealloc (gpu_log d) p v n = 0) ->
  exists d', take_down d = Ret (Ok tt, d') /\ ready d' /\ frame_buffer_dma d' = None /\ resources (scr d') !! RESOURCE_ID_FB = None /\
    outputs (scr d') = outputs (scr d) /\ gpu_log d' = gpu_log d ++ freed (frame_buffer_dma d).
Proof using HG HO HSIZE.
  intros [Hr Hf] Ho Hd. unfold take_down. destruct (frame_buffer_dma d) as [dma|] eqn:Ef; [|exists d; cbn; rewrite app_nil_r; by destruct Hf].
  specialize (Ho ltac:(done)). destruct Hf as (w & h & _ & Hw & Hh & Hres & Hshown & Hlen).
  destruct (command_accepted (SetScanout rect_default SCANOUT_ID 0) d Hr) as (d1 & E1 & S1 & X1); [by cbn|by cbn; rewrite bool_decide_true|].
  destruct (command_accepted (ResourceDetachBacking RESOURCE_ID_FB) d1 (se_ready _ _ S1)) as (d2 & E2 & S2 & X2); [by cbn|by rewrite X1; cbn [valid effect set_shown resources]; rewrite Hres|].
  destruct (command_accepted (ResourceUnref RESOURCE_ID_FB) d2 (se_ready _ _ S2)) as (d3 & E3 & S3 & X3).
  { by cbn. }
  { rewrite X2, X1. cbn [valid effect set_shown set_resources resources]. rewrite lookup_alter_eq, Hres. by apply bool_decide_true. }
  exists (set_frame (set_gpu_log d3 (gpu_log d3 ++ freed (Some dma))) None). unfold set_scanout, resource_detach_backing, resource_unref. rewrite E1. cbn [try obind]. rewrite E2. cbn [try obind]. rewrite E3. cbn [try obind].
  assert (El : gpu_log d3 = gpu_log d) by (rewrite (se_log _ _ S3), (se_log _ _ S2); apply S1).
  unfold drop_dma, Dma_drop. rewrite El, Hd. cbn. split_and!; try done; [by destruct (se_ready _ _ S3); constructor|rewrite X3; cbn; by apply lookup_delete_eq|by rewrite X3, effect_outputs, X2, effect_outputs, X1, effect_outputs].
Qed.

(** The new resource has its size, and no memory yet. *)
Record created (w h : Z) (d d' : Gpu) : Prop := {
  cr_ready : ready d';
  cr_frame : frame_buffer_dma d' = None;
  cr_rect : rect d' = Some (mkRect 0 0 w h);
  cr_res : resources (scr d') !! RESOURCE_ID_FB = Some (mkRes (w, h) None);
  cr_out : outputs (scr d') = outputs (scr d);
  cr_log : gpu_log d' = gpu_log d ++ freed (frame_buffer_dma d)
}.
Lemma create_run w h d :
  in_sync d -> (frame_buffer_dma d <> None -> SCANOUT_ID ∈ outputs (scr d)) -> (forall p v n, hal_dma_dealloc (gpu_log d) p v n = 0) ->
  0 < w < 2 ^ 32 -> 0 < h < 2 ^ 32 -> exists d', change_resolution w h d = put_up w h d' /\ created w h d d'.
Proof using HG HO HSIZE.
  intros Hs Ho Hd Hw Hh. destruct (teardown_run d Hs Ho Hd) as (d1 & E1 & R1 & F1 & N1 & O1 & L1).
  destruct (command_accepted (ResourceCreate2D RESOURCE_ID_FB w h) (set_rect d1 (Some (mkRect 0 0 w h)))) as (d2 & E2 & S2 & X2).
  { by destruct R1; constructor. }
  { by cbn; unfold u32_ok; split_and!; lia. }
  { cbn [valid]. change (scr (set_rect d1 _)) with (scr d1). rewrite N1, bool_decide_true by done. cbn. lia. }
  exists d2. split; [unfold change_resolution, resource_create_2d; rewrite E1; cbn [try obind]; by rewrite E2|].
  destruct S2. constructor; try done; [by rewrite se_frame0|rewrite X2; cbn; by rewrite lookup_insert_eq|by rewrite X2, effect_outputs|by rewrite se_log0].
Qed.

Lemma guarded_ok dma (m : outcome (Result unit * Gpu)) d : m = Ret (Ok tt, d) -> guarded dma m = Ret (Ok tt, d).
Proof. by intros ->. Qed.

(** The size in bytes, when it fits its 32 bits. *)
Lemma frame_size w h : 0 < w -> 0 < h -> w * h * 4 < 2 ^ 32 -> u32 (u32 (w * h) * 4) = w * h * 4.
Proof. intros Hw Hh Hs. rewrite (u32_small (w * h)) by lia. apply u32_small. lia. Qed.
Lemma pages_cover n : 0 <= n -> n <= pages n * PAGE_SIZE.
Proof. intros Hn. unfold pages. pose proof (Z.div_mod (n + PAGE_SIZE - 1) PAGE_SIZE ltac:(done)). pose proof (Z.mod_pos_bound (n + PAGE_SIZE - 1) PAGE_SIZE ltac:(done)). lia. Qed.

(** Memory is attached to it. *)
Lemma attach_run w h d p v : ready d -> resources (scr d) !! RESOURCE_ID_FB = Some (mkRes (w, h) None) -> 0 < p < 2 ^ 64 -> 0 <= w * h * 4 < 2 ^ 32 ->
  exists d', resource_attach_backing RESOURCE_ID_FB (dma_paddr (mkDma p v (pages (w * h * 4)))) (w * h * 4) d = Ret (Ok tt, d') /\ sent d d' /\
    resources (scr d') !! RESOURCE_ID_FB = Some (mkRes (w, h) (Some (p, w * h * 4))) /\ outputs (scr d') = outputs (scr d).
Proof using HG HO HSIZE.
  intros Hr Hres Hp Hs. destruct (command_accepted (ResourceAttachBacking RESOURCE_ID_FB p (w * h * 4)) d Hr) as (d' & E & S & X).
  { cbn. unfold u32_ok. split_and!; lia. }
  { cbn [valid]. rewrite Hres. by apply bool_decide_true. }
  exists d'. split_and!; [done..| |by rewrite X, effect_outputs]. rewrite X. cbn. by rewrite lookup_alter_eq, Hres.
Qed.

(** Up to the scanout: the resource has its size and its memory. *)
Record backed (w h p v : Z) (d d' : Gpu) : Prop := {
  bk_ready : ready d';
  bk_rect : rect d' = Some (mkRect 0 0 w h);
  bk_res : resources (scr d') !! RESOURCE_ID_FB = Some (mkRes (w, h) (Some (p, w * h * 4)));
  bk_out : outputs (scr d') = outputs (scr d);
  bk_log : gpu_log d' = gpu_log d ++ freed (frame_buffer_dma d) ++ [DmaAlloc (pages (w * h * 4)) DriverToDevice p v]
}.
Lemma backed_run (HM : DmaEnough) w h d :
  in_sync d -> (frame_buffer_dma d <> None -> SCANOUT_ID ∈ outputs (scr d)) -> 0 < w -> 0 < h -> w * h * 4 < 2 ^ 32 ->
  exists p v d', backed w h p v d d' /\
    change_resolution w h d =
      let dma := mkDma p v (pages (w * h * 4)) in
      do? (_, d) <- guarded dma (set_scanout (mkRect 0 0 w h) SCANOUT_ID RESOURCE_ID_FB d');
      Ret (Ok (mkBuf (dma_base dma) (dma_pages dma * PAGE_SIZE)), set_frame d (Some dma)).
Proof using HG HO HSIZE.
  intros Hs Ho Hw Hh Hsz. destruct (create_run w h d Hs Ho (gives_back (gpu_log d))) as (d1 & E1 & [R1 F1 T1 N1 O1 L1]); [nia..|].
  pose proof (enough (gpu_log d1) (pages (w * h * 4)) DriverToDevice) as Hp. rewrite E1. unfold put_up, Dma_new. rewrite frame_size by done.
  destruct (hal_dma_alloc _ _ _) as [p v]. rewrite (proj2 (Z.eqb_neq p 0)) by lia. set (d2 := set_gpu_log d1 _).
  destruct (attach_run w h d2 p v) as (d3 & E3 & [] & N3 & O3); [by destruct R1; constructor|done|done|nia|]. rewrite (guarded_ok _ _ d3 E3).
  exists p, v, d3. split; [|done]. constructor; try done; [by rewrite se_rect0|by rewrite O3|]. rewrite se_log0. cbn. by rewrite L1, <- app_assoc.
Qed.

Lemma change_run (HM : DmaEnough) w h d : in_sync d -> SCANOUT_ID ∈ outputs (scr d) -> 0 < w -> 0 < h -> w * h * 4 < 2 ^ 32 ->
  exists dma d', change_resolution w h d = Ret (Ok (mkBuf (dma_base dma) (dma_pages dma * PAGE_SIZE)), d') /\ in_sync d' /\
    outputs (scr d') = outputs (scr d) /\ frame_buffer_dma d' = Some dma /\ rect d' = Some (mkRect 0 0 w h) /\
    gpu_log d' = gpu_log d ++ freed (frame_buffer_dma d) ++ [DmaAlloc (dma_pages dma) DriverToDevice (dma_paddr dma) (dma_base dma)].
Proof using HG HO HSIZE.
  intros Hs Ho Hw Hh Hsz. destruct (backed_run HM w h d Hs (fun _ => Ho) Hw Hh Hsz) as (p & v & d3 & [R3 T3 N3 O3 L3] & E3). rewrite E3.
  destruct (command_accepted (SetScanout (mkRect 0 0 w h) SCANOUT_ID RESOURCE_ID_FB) d3 R3) as (d4 & E4 & S4 & X4).
  { cbn. unfold rect_ok, u32_ok. cbn. split_and!; nia. }
  { cbn [valid]. rewrite N3, O3, bool_decide_true by done. unfold inside. cbn. by rewrite !Z.leb_refl. }
  cbv zeta. rewrite (guarded_ok _ (set_scanout _ _ _ d3) d4 E4). cbn [try obind]. exists (mkDma p v (pages (w * h * 4))), (set_frame d4 (Some (mkDma p v (pages (w * h * 4))))).
  assert (T4 : rect d4 = Some (mkRect 0 0 w h)) by by rewrite (se_rect _ _ S4).
  split_and!; try done; [constructor; [by destruct (se_ready _ _ S4); constructor|]|cbn; by rewrite X4, effect_outputs|cbn; by rewrite (se_log _ _ S4)].
  exists w, h. cbn. rewrite X4. cbn. rewrite N3, lookup_insert_eq. pose proof (pages_cover (w * h * 4) ltac:(nia)). unfold u32_ok. split_and!; done || nia.
Qed.

Lemma flush_backed d w h b : ready d -> rect d = Some (mkRect 0 0 w h) -> u32_ok w -> u32_ok h -> resources (scr d) !! RESOURCE_ID_FB = Some (mkRes (w, h) (Some b)) ->
  exists d', flush d = Ret (Ok tt, d') /\ sent d d' /\ scr d' = scr d.
Proof using HG HO HSIZE.
  intros Hr Er Hw Hh Hres. unfold flush. rewrite Er.
  destruct (command_accepted (TransferToHost2D (mkRect 0 0 w h) 0 RESOURCE_ID_FB) d Hr) as (d1 & E1 & S1 & X1).
  { by cbn. }
  { cbn [valid]. rewrite Hres. unfold inside. cbn. by rewrite !Z.leb_refl. }
  destruct (command_accepted (ResourceFlush (mkRect 0 0 w h) RESOURCE_ID_FB) d1 (se_ready _ _ S1)) as (d2 & E2 & S2 & X2).
  { by cbn. }
  { rewrite X1. cbn [valid effect]. rewrite Hres. by apply bool_decide_true. }
  exists d2. unfold transfer_to_host_2d, resource_flush. rewrite E1. cbn [try obind]. rewrite E2.
  split_and!; [done|by apply sent_trans with d1|by rewrite X2, X1].
Qed.
(** The answer of [flush]. *)
Definition flush_answer (d : Gpu) : Result unit :=
  match rect d, frame_buffer_dma d with None, _ => Err NotReady | Some _, None => Err IoError | Some _, Some _ => Ok tt end.
Lemma flush_run d : in_sync d ->
  exists d', flush d = Ret (flush_answer d, d') /\ in_sync d' /\
    scr d' = scr d /\ frame_buffer_dma d' = frame_buffer_dma d /\ rect d' = rect d /\ gpu_log d' = gpu_log d.
Proof using HG HO HSIZE.
  intros [Hr Hf]. unfold flush_answer. destruct (frame_buffer_dma d) as [dma|] eqn:Ef.
  2: { destruct Hf as [Hx Hn]. unfold flush. destruct (rect d) as [r|] eqn:Er; [|exists d; split_and!; try done; constructor; [done|by rewrite Ef, Er]].
       destruct (command_refused (TransferToHost2D r 0 RESOURCE_ID_FB) d Hr) as (d' & E & [] & X); [by cbn; split_and!; [apply Hn|..]|by cbn [valid]; rewrite Hx|].
       exists d'. unfold transfer_to_host_2d. rewrite E. split_and!; try done; try congruence. constructor; [done|]. rewrite se_frame0, Ef, X, se_rect0, Er. done. }
  destruct Hf as (w & h & Er & Hw & Hh & Hres & Hf). destruct (flush_backed d w h _ Hr Er Hw Hh Hres) as (d' & E & [] & X).
  exists d'. rewrite Er. split_and!; try done; try congruence. constructor; [done|]. rewrite se_frame0, Ef, X, se_rect0. by exists w, h.
Qed.

(** ** Runs *)

Inductive call := Change (w h : Z) | Refresh.
Definition call_ok (o : call) : Prop := match o with Change w h => u32_ok w /\ u32_ok h /\ w * h * 4 < 2 ^ 32 | Refresh => True end.
Definition perform (o : call) (d : Gpu) : outcome (Result (option Buffer) * Gpu) :=
  match o with
  | Change w h => do? (b, d) <- change_resolution w h d; Ret (Ok (Some b), d)
  | Refresh => do? (_, d) <- flush d; Ret (Ok None, d)
  end.
(** What one call returns and leaves.  The old frame buffer is given back before a new
    one, as large as the screen, is allocated; an empty picture is refused, and there is
    no frame buffer then; a refresh changes nothing. *)
Definition performed (o : call) (d : Gpu) (a : Result (option Buffer)) (d' : Gpu) : Prop :=
  match o with
  | Change w h =>
      rect d' = Some (mkRect 0 0 w h) /\
      if (w =? 0) || (h =? 0)
      then a = Err IoError /\ frame_buffer_dma d' = None /\ gpu_log d' = gpu_log d ++ freed (frame_buffer_dma d)
      else exists dma, a = Ok (Some (mkBuf (dma_base dma) (dma_pages dma * PAGE_SIZE))) /\ frame_buffer_dma d' = Some dma /\
        gpu_log d' = gpu_log d ++ freed (frame_buffer_dma d) ++ [DmaAlloc (dma_pages dma) DriverToDevice (dma_paddr dma) (dma_base dma)]
  | Refresh => a = match flush_answer d with Err e => Err e | Ok _ => Ok None end /\
      frame_buffer_dma d' = frame_buffer_dma d /\ rect d' = rect d /\ gpu_log d' = gpu_log d
  end.
(** The calls, one after another: each returns, and is as [performed] says. *)
Fixpoint session (os : list call) (d d' : Gpu) : Prop :=
  match os with
  | [] => d' = d
  | o :: os => exists a d1, perform o d = Ret (a, d1) /\ performed o d a d1 /\ in_sync d1 /\ session os d1 d'
  end.

(** An empty picture. *)
Lemma change_empty (HM : DmaEnough) w h d : in_sync d -> SCANOUT_ID ∈ outputs (scr d) -> u32_ok w -> u32_ok h -> w = 0 \/ h = 0 ->
  exists d', change_resolution w h d = Ret (Err IoError, d') /\ in_sync d' /\ outputs (scr d') = outputs (scr d) /\
    rect d' = Some (mkRect 0 0 w h) /\ frame_buffer_dma d' = None /\ gpu_log d' = gpu_log d ++ freed (frame_buffer_dma d).
Proof using HG HO HSIZE.
  intros Hs Ho Hw Hh H0. destruct (teardown_run d Hs (fun _ => Ho) (gives_back (gpu_log d))) as (d1 & E1 & R1 & F1 & N1 & O1 & L1).
  destruct (command_refused (ResourceCreate2D RESOURCE_ID_FB w h) (set_rect d1 (Some (mkRect 0 0 w h)))) as (d2 & E2 & [] & X2).
  { by destruct R1; constructor. }
  { done. }
  { cbn [valid]. destruct H0 as [-> | ->]; cbn; by rewrite ?andb_false_r. }
  exists d2. unfold change_resolution, resource_create_2d. rewrite E1. cbn [try obind]. rewrite E2. cbn [try obind].
  assert (F2 : frame_buffer_dma d2 = None) by by rewrite se_frame0. split_and!; try done; [|by rewrite X2|by rewrite se_log0].
  constructor; [done|]. rewrite F2, X2. split; [done|]. rewrite se_rect0. cbn. intros r [= <-]. unfold rect_ok, u32_ok. cbn. unfold u32_ok in *. split_and!; lia.
Qed.

Lemma perform_run (HM : DmaEnough) o d : in_sync d -> SCANOUT_ID ∈ outputs (scr d) -> call_ok o ->
  exists a d', perform o d = Ret (a, d') /\ performed o d a d' /\ in_sync d' /\ outputs (scr d') = outputs (scr d).
Proof using HG HO HSIZE.
  intros Hs Ho Hok. destruct o as [w h|]; cbn [perform performed].
  - destruct Hok as (Hw & Hh & Hsz). destruct ((w =? 0) || (h =? 0)) eqn:E0.
    + destruct (change_empty HM w h d Hs Ho Hw Hh ltac:(lia)) as (d' & E & ? & ? & ? & ? & ?). rewrite E. by eexists _, d'.
    + unfold u32_ok in *. destruct (change_run HM w h d Hs Ho ltac:(lia) ltac:(lia) Hsz) as (dma & d' & E & Hs' & Ho' & Hf & Hr & Hl).
      rewrite E. cbn [try obind]. eexists _, d'. split; [done|]. split; [split; [done|by exists dma]|done].
  - destruct (flush_run d Hs) as (d' & E & Hs' & Hx & Hf & Hr & Hl). rewrite E. eexists _, d'. split_and!; [|done..|by rewrite Hx].
    by destruct (flush_answer d).
Qed.

(** C24: the frame buffer is the picture on the screen.  Take a device that has scanout 0,
    and memory for every frame buffer.  After any calls of [change_resolution] and
    [flush], in which each width and height is a u32 and the bytes of each picture, four
    for a pixel, are less than 2^32 (a larger picture gets a buffer of the wrong size):
    every call returns, and a change to a size with pixels succeeds.  After it the
    resource on the screen has the size asked for and is backed by exactly the memory
    whose slice the caller got, which holds the whole picture.  A change to a width or a
    height of 0 is refused by the device and leaves no frame buffer.  In both cases the
    memory of the frame buffer before is given back, once, before any new one is
    allocated.  [flush] succeeds exactly when there is a frame buffer. *)
Theorem framebuffer_shown (HM : DmaEnough) os d :
  in_sync d -> SCANOUT_ID ∈ outputs (scr d) -> Forall call_ok os -> exists d', session os d d' /\ in_sync d'.
Proof using HG HO HSIZE.
  intros Hs Ho Hos. revert d Hs Ho. induction Hos as [|o os Hok _ IH]; intros d Hs Ho; [by exists d|].
  destruct (perform_run HM o d Hs Ho Hok) as (a & d1 & E & Hp & H1 & O1). destruct (IH d1 H1 ltac:(by rewrite O1)) as (d2 & Hrun & H2).
  exists d2. split; [by exists a, d1|done].
Qed.

(** ** Failures *)

(** The resource exists, but the driver has no frame buffer. *)
Definition lost (d : Gpu) : Prop := ready d /\ frame_buffer_dma d = None /\ is_Some (resources (scr d) !! RESOURCE_ID_FB).

Lemma lost_change w h d : lost d -> u32_ok w -> u32_ok h -> exists d', change_resolution w h d = Ret (Err IoError, d') /\ lost d'.
Proof using HG HO HSIZE.
  intros (Hr & Hf & Hres) Hw Hh. unfold change_resolution, take_down. rewrite Hf. cbn [try obind].
  destruct (command_refused (ResourceCreate2D RESOURCE_ID_FB w h) (set_rect d (Some (mkRect 0 0 w h)))) as (d' & E & S & X).
  { by destruct Hr; constructor. }
  { done. }
  { cbn [valid]. change (scr (set_rect d _)) with (scr d). rewrite (bool_decide_false (_ = None)) by (destruct Hres as [? ->]; done). by rewrite !andb_false_r. }
  exists d'. unfold resource_create_2d. rewrite E. split; [done|]. destruct S. split_and!; [done|by rewrite se_frame0|by rewrite X].
Qed.

(** When there is no memory for a new frame buffer, [change_resolution] returns
    [DmaError] with the resource created on the device and no frame buffer in the driver;
    every later call then asks for the same resource again and fails with [IoError],
    whatever the resolution and however much memory there is by then. *)
Theorem framebuffer_lost w h d :
  in_sync d -> SCANOUT_ID ∈ outputs (scr d) -> 0 < w < 2 ^ 32 -> 0 < h < 2 ^ 32 ->
  (forall p v n, hal_dma_dealloc (gpu_log d) p v n = 0) ->
  (hal_dma_alloc (gpu_log d ++ freed (frame_buffer_dma d)) (pages (u32 (u32 (w * h) * 4))) DriverToDevice).1 = 0 ->
  exists d', change_resolution w h d = Ret (Err DmaError, d') /\ lost d' /\
    forall d1 w1 h1, lost d1 -> u32_ok w1 -> u32_ok h1 -> exists d2, change_resolution w1 h1 d1 = Ret (Err IoError, d2) /\ lost d2.
Proof using HG HO HSIZE.
  intros Hs Ho Hw Hh Hd Hm. destruct (create_run w h d Hs ltac:(done) Hd Hw Hh) as (d1 & E1 & [R1 F1 T1 N1 O1 L1]). rewrite E1.
  unfold put_up, Dma_new. rewrite <- L1 in Hm. destruct (hal_dma_alloc _ _ _) as [p v]. cbn in Hm. subst p.
  eexists. split; [done|]. split; [|intros; by apply lost_change]. split_and!; [by destruct R1; constructor|done|]. cbn. by rewrite N1.
Qed.

(** C39: When the device has no such scanout, [change_resolution] fails and the memory it
    allocated is given back, but the device keeps it as the backing of the resource: a
    [flush] afterwards succeeds, and has the device read memory that is no longer the
    driver's. *)
Theorem refused_scanout_frees_backing (HM : DmaEnough) w h d :
  in_sync d -> frame_buffer_dma d = None -> ~ SCANOUT_ID ∈ outputs (scr d) -> 0 < w -> 0 < h -> w * h * 4 < 2 ^ 32 ->
  exists p v n d', change_resolution w h d = Ret (Err IoError, d') /\
    gpu_log d' = gpu_log d ++ [DmaAlloc n DriverToDevice p v; DmaDealloc p v n] /\
    resources (scr d') !! RESOURCE_ID_FB = Some (mkRes (w, h) (Some (p, w * h * 4))) /\
    exists d'', flush d' = Ret (Ok tt, d'').
Proof using HG HO HSIZE.
  intros Hs Hf Ho Hw Hh Hsz. destruct (backed_run HM w h d Hs ltac:(by rewrite Hf) Hw Hh Hsz) as (p & v & d3 & [R3 T3 N3 O3 L3] & E3). rewrite E3.
  destruct (command_refused (SetScanout (mkRect 0 0 w h) SCANOUT_ID RESOURCE_ID_FB) d3 R3) as (d4 & E4 & [R4 T4 _ _ L4] & X4).
  { cbn. unfold rect_ok, u32_ok. cbn. split_and!; nia. }
  { cbn [valid]. by rewrite O3, bool_decide_false by done. }
  exists p, v, (pages (w * h * 4)), (set_gpu_log d4 (gpu_log d4 ++ [DmaDealloc p v (pages (w * h * 4))])).
  unfold guarded, set_scanout, drop_dma, Dma_drop. rewrite E4. cbn [try obind]. rewrite gives_back. cbn [Z.eqb obind dma_paddr dma_base dma_pages].
  split; [done|]. split; [cbn; by rewrite L4, L3, Hf, <- app_assoc|]. split; [cbn; by rewrite X4|].
  edestruct (flush_backed (set_gpu_log d4 (gpu_log d4 ++ [DmaDealloc p v (pages (w * h * 4))])) w h) as (d5 & E5 & _); [..|by exists d5].
  - by destruct R4; constructor.
  - cbn. by rewrite T4.
  - unfold u32_ok. nia.
  - unfold u32_ok. nia.
  - cbn. by rewrite X4.
Qed.
End driver.

(** ** A device *)

Module Example_screen.
(** Memory from 1 MiB on; on a small machine, no more than 64 pages at a time. *)
Definition memory (small : bool) : Hal := {|
  hal_dma_alloc log n _ := let p := if small && (64 <? n) then 0 else 1048576 + 65536 * (zlen log mod 256) in (p, p);
  hal_dma_dealloc _ _ _ _ := 0;
  hal_share _ buf _ := buf_ptr buf;
  hal_box log _ := 33554432 + 65536 * zlen log
|}.
#[export] Instance plenty : @DmaEnough (memory false).
Proof. split; [|done]. intros log n dir. cbn. pose proof (Z.mod_pos_bound (zlen log) 256 ltac:(done)). lia. Qed.

(** The device reads the fields of a command one after the other. *)
Definition eat (n : nat) (l : bytes) : Z * bytes := (le_val (take n l), drop n l).
Lemma eat_le n x (r : bytes) : 0 <= x < 256 ^ Z.of_nat n -> eat n (le_bytes n x ++ r) = (x, r).
Proof. intros Hx. unfold eat. rewrite take_app_length', drop_app_length' by (by rewrite le_bytes_length). by rewrite le_val_bytes. Qed.
Definition eat_header (l : bytes) : Z * bytes :=
  let '(ty, l) := eat 4 l in let '(_, l) := eat 4 l in let '(_, l) := eat 8 l in let '(_, l) := eat 4 l in let '(_, l) := eat 4 l in (ty, l).
Definition eat_rect (l : bytes) : Rect * bytes :=
  let '(x, l) := eat 4 l in let '(y, l) := eat 4 l in let '(w, l) := eat 4 l in let '(h, l) := eat 4 l in (mkRect x y w h, l).
Definition parse (l : bytes) : GpuCmd :=
  let '(ty, l) := eat_header l in
  if ty =? 0x101 then let '(id, l) := eat 4 l in let '(_, l) := eat 4 l in let '(w, l) := eat 4 l in let '(h, _) := eat 4 l in ResourceCreate2D id w h
  else if ty =? 0x102 then ResourceUnref (eat 4 l).1
  else if ty =? 0x103 then let '(r, l) := eat_rect l in let '(sc, l) := eat 4 l in SetScanout r sc (eat 4 l).1
  else if ty =? 0x104 then let '(r, l) := eat_rect l in ResourceFlush r (eat 4 l).1
  else if ty =? 0x105 then let '(r, l) := eat_rect l in let '(o, l) := eat 8 l in TransferToHost2D r o (eat 4 l).1
  else if ty =? 0x106 then let '(id, l) := eat 4 l in let '(_, l) := eat 4 l in let '(a, l) := eat 8 l in ResourceAttachBacking id a (eat 4 l).1
  else if ty =? 0x107 then ResourceDetachBacking (eat 4 l).1
  else GetDisplayInfo.
Lemma parse_cmd c (rest : bytes) : plain c -> parse (cmd_bytes c ++ rest) = c.
Proof.
  destruct c; intros Hp; try done; cbn [plain] in Hp; unfold rect_ok, u32_ok in Hp; unfold parse, eat_header, eat_rect; cbn [cmd_bytes]; unfold header, rect_bytes; rewrite <- !app_assoc;
    repeat (rewrite eat_le by (cbn; lia)); cbn [Z.eqb Pos.eqb]; repeat (rewrite eat_le by (cbn; lia)); try done; by destruct rect.
Qed.

#[export] Instance display : Device := {|
  device := screen;
  serve ins ns s :=
    match ins, ns with
    | [l], [n] => if valid (parse l) s then (24, [take (Z.to_nat n) (header OK_NODATA)], effect (parse l) s) else (24, [take (Z.to_nat n) (header 0x1200)], s)
    | _, _ => (0, (fun _ => []) <$> ns, s)
    end
|}.
#[export] Instance display_gpu : GpuDevice.
Proof.
  refine {| screen_of (s : @device display) := s |}. intros c rest d Hp _. cbn [serve display]. rewrite parse_cmd by done.
  destruct (valid c d); (eexists; split; [done|]; split; [vm_compute; lia|by split; vm_compute]).
Defined.
Lemma display_fits ins (outs : list bytes) (d : device) : let '(n, written, _) := serve ins (zlen <$> outs) d in Forall2 fits_in written (zlen <$> outs).
Proof.
  assert (Hn : forall (bs : list bytes), Forall2 fits_in ((fun _ : Z => []) <$> (zlen <$> bs)) (zlen <$> bs)) by (induction bs; constructor; [apply zlen_nonneg|done]).
  assert (Ht : forall (b l : bytes), fits_in (take (Z.to_nat (zlen b)) l) (zlen b)) by (intros b l; unfold fits_in, zlen; rewrite length_take; lia).
  destruct ins as [|l [|]]; [apply Hn| |apply Hn]. destruct outs as [|b [|]]; [apply (Hn [])| |apply (Hn (_ :: _ :: _))].
  cbn [serve display fmap list_fmap]. destruct (valid (parse l) d); repeat constructor; apply Ht.
Qed.

(** The driver with new queues, on a screen with or without the first scanout. *)
Definition channel (small : bool) : Channel := VirtqChannel (HHal := memory small) 1 (stack 65536).
Definition channel_ok (small : bool) : ChannelOk (H := channel small) (2 ^ 1) := VirtqChannelOk (HHal := memory small) 1 ltac:(lia) (stack 65536) (fun _ _ _ => eq_refl) (stack_apart 65536) display_fits.
Definition queue (small : bool) : VirtQueue :=
  match new (H := memory small) 2 (mkTransport false 256 false) 0 true false [] with
  | Ret (Ok (q, _)) => q
  | _ => mkQueue [] (mkAvail 0 0 [] 0) (mkUsed 0 0 [] 0) 0 0 0 [] 0 0 false true [] []
  end.
Definition gpu (small : bool) (outputs : list Z) : VirtIOGpu (@chan (channel small)) :=
  let link := mkLink (queue small) (fun _ => 0) (mkScreen ∅ ∅ outputs) in
  mkGpu None None None link link (replicate 4096 0) (replicate 4096 0) false (hal_log (queue small)) (fun _ => 0).
Lemma gpu_in_sync small outputs : in_sync (HO := channel_ok small) (gpu small outputs).
Proof.
  assert (exists set, new (H := memory small) 2 (mkTransport false 256 false) 0 true false [] = Ret (Ok (queue small, set))) as [set En] by (destruct small; eexists; vm_compute; reflexivity).
  split; [split; [|done..]|by cbn]. exact (new_link_ok (HHal := memory small) 1 ltac:(lia) _ _ _ _ _ _ _ _ _ En).
Qed.
End Example_screen.

Import Example_screen.

Lemma framebuffer_shown_witness :
  exists d', session (HO := channel_ok false) (HHal := memory false) [Refresh; Change 640 480; Refresh; Change 0 480; Refresh; Change 1024 768] (gpu false [0]) d' /\
    in_sync (HO := channel_ok false) d'.
Proof.
  refine (framebuffer_shown (HO := channel_ok false) (HHal := memory false) _ plenty _ _ (gpu_in_sync false [0]) _ _).
  - lia.
  - cbn. set_solver.
  - repeat (apply Forall_cons; split; [cbn; unfold u32_ok; lia|]). by apply Forall_nil.
Defined.

Lemma framebuffer_lost_witness :
  exists d', change_resolution (H := channel true) (H0 := memory true) 1024 768 (gpu true [0]) = Ret (Err DmaError, d') /\ lost (HO := channel_ok true) d' /\
    forall d1 w1 h1, lost (HO := channel_ok true) d1 -> u32_ok w1 -> u32_ok h1 ->
      exists d2, change_resolution (H := channel true) (H0 := memory true) w1 h1 d1 = Ret (Err IoError, d2) /\ lost (HO := channel_ok true) d2.
Proof.
  refine (framebuffer_lost (HO := channel_ok true) (HHal := memory true) _ 1024 768 _ (gpu_in_sync true [0]) _ _ _ _ _); try lia; [cbn; set_solver|done|by vm_compute].
Defined.

Lemma refused_scanout_frees_backing_witness :
  exists p v n d', change_resolution (H := channel false) (H0 := memory false) 640 480 (gpu false []) = Ret (Err IoError, d') /\
    gpu_log d' = gpu_log (gpu false []) ++ [DmaAlloc n DriverToDevice p v; DmaDealloc p v n] /\
    resources (screen_of (behind (ChannelOk := channel_ok false) (control_queue d'))) !! RESOURCE_ID_FB = Some (mkRes (640, 480) (Some (p, 640 * 480 * 4))) /\
    exists d'', flush (H := channel false) d' = Ret (Ok tt, d'').
Proof.
  refine (refused_scanout_frees_backing (HO := channel_ok false) (HHal := memory false) _ plenty 640 480 _ (gpu_in_sync false []) _ _ _ _ _); try lia; [done|cbn; set_solver].
Defined.
