(* ===== verification/Sound.v ===== *)
(** * The sound card ([src/virtio-drivers-patched/src/device/sound.rs])

    Requests over the control queue (what jacks, streams and channel maps there are,
    parameters and states of streams), notifications from the event queue, and frames
    over the transmit queue: [pcm_xfer], which keeps several requests with the device,
    and the calls that do not wait. *)

From S2P Require Import Prelude Virtq Transport Channel.

Notation SOUND_QUEUE_SIZE := 32.
Notation CONTROL_QUEUE_IDX := 0.
Notation EVENT_QUEUE_IDX := 1.
Notation TX_QUEUE_IDX := 2.
Notation RX_QUEUE_IDX := 3.
Notation SOUND_FEATURES := 0x7f79000000.
Definition SOUND_SUPPORTED : Z := Z.lor (Z.lor (2 ^ 28) (2 ^ 29)) (2 ^ 32).

(** ** Codes and layouts *)

Inductive CommandCode :=
| RJackInfo | RJackRemap
| RPcmInfo | RPcmSetParams | RPcmPrepare | RPcmRelease | RPcmStart | RPcmStop
| RChmapInfo
| EvtJackConnected | EvtJackDisconnected
| EvtPcmPeriodElapsed | EvtPcmXrun
| SOk | SBadMsg | SNotSupp | SIoErr.
Definition code_u32 (c : CommandCode) : Z :=
  match c with
  | RJackInfo => 1 | RJackRemap => 2
  | RPcmInfo => 0x100 | RPcmSetParams => 0x101 | RPcmPrepare => 0x102 | RPcmRelease => 0x103 | RPcmStart => 0x104 | RPcmStop => 0x105
  | RChmapInfo => 0x200
  | EvtJackConnected => 0x1000 | EvtJackDisconnected => 0x1001
  | EvtPcmPeriodElapsed => 0x1100 | EvtPcmXrun => 0x1101
  | SOk => 0x8000 | SBadMsg => 0x8001 | SNotSupp => 0x8002 | SIoErr => 0x8003
  end.

Inductive PcmFormat :=
| ImaAdpcm | MuLaw | ALaw | S8 | U8 | S16 | U16 | S18_3 | U18_3 | S20_3 | U20_3 | S24_3 | U24_3 | S20 | U20 | S24 | U24 | S32 | U32
| FLOAT | FLOAT64 | DsdU8 | DsdU16 | DsdU32 | Iec958Subframe.
Definition format_u8 (f : PcmFormat) : Z :=
  match f with
  | ImaAdpcm => 0 | MuLaw => 1 | ALaw => 2 | S8 => 3 | U8 => 4 | S16 => 5 | U16 => 6 | S18_3 => 7 | U18_3 => 8 | S20_3 => 9 | U20_3 => 10 | S24_3 => 11 | U24_3 => 12
  | S20 => 13 | U20 => 14 | S24 => 15 | U24 => 16 | S32 => 17 | U32 => 18 | FLOAT => 19 | FLOAT64 => 20 | DsdU8 => 21 | DsdU16 => 22 | DsdU32 => 23 | Iec958Subframe => 24
  end.
(** [From<PcmFormat> for PcmFormats]. *)
Definition format_flag (f : PcmFormat) : Z :=
  match f with
  | ImaAdpcm => 2 ^ 0 | MuLaw => 2 ^ 1 | ALaw => 2 ^ 2 | S8 => 2 ^ 3 | U8 => 2 ^ 4 | S16 => 2 ^ 5 | U16 => 2 ^ 6 | S18_3 => 2 ^ 7 | U18_3 => 2 ^ 8 | S20_3 => 2 ^ 9 | U20_3 => 2 ^ 10
  | S24_3 => 2 ^ 11 | U24_3 => 2 ^ 12 | S20 => 2 ^ 13 | U20 => 2 ^ 14 | S24 => 2 ^ 15 | U24 => 2 ^ 16 | S32 => 2 ^ 17 | U32 => 2 ^ 18 | FLOAT => 2 ^ 19 | FLOAT64 => 2 ^ 20
  | DsdU8 => 2 ^ 21 | DsdU16 => 2 ^ 22 | DsdU32 => 2 ^ 23 | Iec958Subframe => 2 ^ 24
  end.
Inductive PcmRate :=
| Rate5512 | Rate8000 | Rate11025 | Rate16000 | Rate22050 | Rate32000 | Rate44100 | Rate48000 | Rate64000 | Rate88200 | Rate96000 | Rate176400 | Rate192000 | Rate384000.
Definition rate_u8 (r : PcmRate) : Z :=
  match r with
  | Rate5512 => 0 | Rate8000 => 1 | Rate11025 => 2 | Rate16000 => 3 | Rate22050 => 4 | Rate32000 => 5 | Rate44100 => 6 | Rate48000 => 7 | Rate64000 => 8
  | Rate88200 => 9 | Rate96000 => 10 | Rate176400 => 11 | Rate192000 => 12 | Rate384000 => 13
  end.
(** [From<PcmRate> for PcmRates]. *)
Definition rate_flag (r : PcmRate) : Z :=
  match r with
  | Rate5512 => 2 ^ 0 | Rate8000 => 2 ^ 1 | Rate11025 => 2 ^ 2 | Rate16000 => 2 ^ 3 | Rate22050 => 2 ^ 4 | Rate32000 => 2 ^ 5 | Rate44100 => 2 ^ 6 | Rate48000 => 2 ^ 7 | Rate64000 => 2 ^ 8
  | Rate88200 => 2 ^ 9 | Rate96000 => 2 ^ 10 | Rate176400 => 2 ^ 11 | Rate192000 => 2 ^ 12 | Rate384000 => 2 ^ 13
  end.

(** [VirtIOSndQueryInfo], [VirtIOSndJackRemap], [VirtIOSndPcmHdr], [VirtIOSndPcmSetParams]. *)
Definition query_bytes (c : CommandCode) (start_id count size : Z) : bytes :=
  le_bytes 4 (code_u32 c) ++ le_bytes 4 start_id ++ le_bytes 4 count ++ le_bytes 4 size.
Definition remap_bytes (jack_id association sequence : Z) : bytes :=
  le_bytes 4 (code_u32 RJackRemap) ++ le_bytes 4 jack_id ++ le_bytes 4 association ++ le_bytes 4 sequence.
Definition pcm_hdr_bytes (c : CommandCode) (stream_id : Z) : bytes := le_bytes 4 (code_u32 c) ++ le_bytes 4 stream_id.

Record PcmParameters := mkParams { setup : bool; buffer_bytes : Z; period_bytes : Z; pp_features : Z; pp_channels : Z; pp_format : PcmFormat; pp_rate : PcmRate }.
Definition params_default : PcmParameters := mkParams false 0 0 0 0 ImaAdpcm Rate5512.
Definition set_params_bytes (stream_id : Z) (p : PcmParameters) : bytes :=
  pcm_hdr_bytes RPcmSetParams stream_id ++ le_bytes 4 (buffer_bytes p) ++ le_bytes 4 (period_bytes p) ++ le_bytes 4 (pp_features p) ++
  [pp_channels p; format_u8 (pp_format p); rate_u8 (pp_rate p); 0].

Definition part (a n : nat) (l : bytes) : Z := le_val (take n (drop a l)).
Definition byte (i : nat) (l : bytes) : Z := default 0 (l !! i).
Record VirtIOSndJackInfo := mkJack { j_nid : Z; j_features : Z; hda_reg_defconf : Z; hda_reg_caps : Z; connected : Z }.
Definition jack_from (l : bytes) : VirtIOSndJackInfo := mkJack (part 0 4 l) (part 4 4 l) (part 8 4 l) (part 12 4 l) (byte 16 l).
Record VirtIOSndPcmInfo := mkPcm { p_nid : Z; p_features : Z; formats : Z; rates : Z; p_direction : Z; channels_min : Z; channels_max : Z }.
Definition pcm_from (l : bytes) : VirtIOSndPcmInfo := mkPcm (part 0 4 l) (part 4 4 l) (part 8 8 l) (part 16 8 l) (byte 24 l) (byte 25 l) (byte 26 l).
Record VirtIOSndChmapInfo := mkChmap { c_nid : Z; c_direction : Z; c_channels : Z; positions : bytes }.
Definition chmap_from (l : bytes) : VirtIOSndChmapInfo := mkChmap (part 0 4 l) (byte 4 l) (byte 5 l) (take 18 (drop 6 l)).
Notation JACK_INFO_SIZE := 24.
Notation PCM_INFO_SIZE := 32.
Notation CHMAP_INFO_SIZE := 24.
Notation JACK_REMAP := (2 ^ 0).
Notation VIRTIO_SND_D_OUTPUT := 0.
Notation VIRTIO_SND_D_INPUT := 1.

(** Where a channel is heard; [PNone] is [ChannelPosition::None]. *)
Inductive ChannelPosition :=
| PNone | Na | Mono | Fl | Fr | Rl | Rr | Fc | Lfe | Sl | Sr | Rc | Flc | Frc | Rlc | Rrc | Flw | Frw | Flh | Fch | Frh
| Tc | Tfl | Tfr | Tfc | Trl | Trr | Trc | Tflc | Tfrc | Tsl | Tsr | Llfe | Rlfe | Bc | Blc | Brc.
Definition channel_positions : list ChannelPosition :=
  [PNone; Na; Mono; Fl; Fr; Rl; Rr; Fc; Lfe; Sl; Sr; Rc; Flc; Frc; Rlc; Rrc; Flw; Frw; Flh; Fch; Frh;
   Tc; Tfl; Tfr; Tfc; Trl; Trr; Trc; Tflc; Tfrc; Tsl; Tsr; Llfe; Rlfe; Bc; Blc; Brc].
(** [ChannelPosition::n]. *)
Definition channel_position (value : Z) : option ChannelPosition := channel_positions !! Z.to_nat value.
(** [Display] of a channel map, up to the text: the direction, and each position by its
    name or its number. *)
Fixpoint shown_positions (n : nat) (i : nat) (positions : bytes) : outcome (list (ChannelPosition + Z)) :=
  match n with
  | O => Ret []
  | S n' =>
      match positions !! i with
      | None => Panic
      | Some p => do! rest <- shown_positions n' (S i) positions; Ret (match channel_position p with Some c => inl c | None => inr p end :: rest)
      end
  end.
Definition chmap_shown (c : VirtIOSndChmapInfo) : outcome (bool * Z * list (ChannelPosition + Z)) :=
  do! l <- shown_positions (Z.to_nat (c_channels c)) 0 (positions c); Ret (c_direction c =? 1, c_channels c, l).

Inductive NotificationType := JackConnected | JackDisconnected | PcmPeriodElapsed | PcmXrun.
(** [NotificationType::n]. *)
Definition notification_type (value : Z) : option NotificationType :=
  if value =? 0x1100 then Some PcmPeriodElapsed
  else if value =? 0x1101 then Some PcmXrun
  else if value =? 0x1000 then Some JackConnected
  else if value =? 0x1001 then Some JackDisconnected
  else None.
Record Notification := mkNote { n_type : NotificationType; n_data : Z }.

Inductive PCMState := SetParams | Prepare | Release | Start | Stop.

(** ** The driver

    [token_buf] and [token_rsp] hold the boxes of the requests that do not wait, by
    their addresses. *)
Record VirtIOSound (C I : Type) := mkSound {
  control_queue : C;
  event_queue : I;
  tx_queue : VirtQueue;
  rx_queue : VirtQueue;
  jacks : Z;
  streams : Z;
  chmaps : Z;
  pcm_infos : option (list VirtIOSndPcmInfo);
  jack_infos : option (list VirtIOSndJackInfo);
  chmap_infos : option (list VirtIOSndChmapInfo);
  pcm_parameters : list PcmParameters;
  queue_buf_recv : bytes;
  is_set_up : bool;
  token_rsp : gmap Z Z;
  pcm_states : list PCMState;
  token_buf : gmap Z Buffer
}.
Arguments mkSound {C I}. Arguments control_queue {C I}. Arguments event_queue {C I}. Arguments tx_queue {C I}. Arguments rx_queue {C I}. Arguments jacks {C I}.
Arguments streams {C I}. Arguments chmaps {C I}. Arguments pcm_infos {C I}. Arguments jack_infos {C I}. Arguments chmap_infos {C I}. Arguments pcm_parameters {C I}.
Arguments queue_buf_recv {C I}. Arguments is_set_up {C I}. Arguments token_rsp {C I}. Arguments pcm_states {C I}. Arguments token_buf {C I}.

Section setters.
Context {C I : Type} (d : VirtIOSound C I).
Definition set_control q recv : VirtIOSound C I :=
  mkSound q (event_queue d) (tx_queue d) (rx_queue d) (jacks d) (streams d) (chmaps d) (pcm_infos d) (jack_infos d) (chmap_infos d) (pcm_parameters d) recv (is_set_up d) (token_rsp d) (pcm_states d) (token_buf d).
Definition set_events i : VirtIOSound C I :=
  mkSound (control_queue d) i (tx_queue d) (rx_queue d) (jacks d) (streams d) (chmaps d) (pcm_infos d) (jack_infos d) (chmap_infos d) (pcm_parameters d) (queue_buf_recv d) (is_set_up d) (token_rsp d) (pcm_states d) (token_buf d).
Definition set_infos pcm jack chmap : VirtIOSound C I :=
  mkSound (control_queue d) (event_queue d) (tx_queue d) (rx_queue d) (jacks d) (streams d) (chmaps d) pcm jack chmap (pcm_parameters d) (queue_buf_recv d) (is_set_up d) (token_rsp d) (pcm_states d) (token_buf d).
Definition set_ready states : VirtIOSound C I :=
  mkSound (control_queue d) (event_queue d) (tx_queue d) (rx_queue d) (jacks d) (streams d) (chmaps d) (pcm_infos d) (jack_infos d) (chmap_infos d) (pcm_parameters d) (queue_buf_recv d) true (token_rsp d) states (token_buf d).
Definition set_parameters ps : VirtIOSound C I :=
  mkSound (control_queue d) (event_queue d) (tx_queue d) (rx_queue d) (jacks d) (streams d) (chmaps d) (pcm_infos d) (jack_infos d) (chmap_infos d) ps (queue_buf_recv d) (is_set_up d) (token_rsp d) (pcm_states d) (token_buf d).
Definition set_tx q rsp buf : VirtIOSound C I :=
  mkSound (control_queue d) (event_queue d) q (rx_queue d) (jacks d) (streams d) (chmaps d) (pcm_infos d) (jack_infos d) (chmap_infos d) (pcm_parameters d) (queue_buf_recv d) (is_set_up d) rsp (pcm_states d) buf.
End setters.

(** [VirtIOSound::new]. *)
Definition sound_new `{Transport.Transport} `{Hal} (t : tr) : outcome (Result (VirtIOSound VirtQueue OwningQueue) * tr) :=
  let '(features, t) := begin_init SOUND_FEATURES SOUND_SUPPORTED t in
  let ind := contains features (2 ^ 28) in
  let ev := contains features (2 ^ 29) in
  do? (control, t) <- make_queue SOUND_QUEUE_SIZE CONTROL_QUEUE_IDX ind ev [] t;
  do? (event, t) <- make_queue SOUND_QUEUE_SIZE EVENT_QUEUE_IDX ind ev (hal_log control) t;
  do? (event, t) <- (do! o <- owning_new SOUND_QUEUE_SIZE 8 event; Ret (o, t));
  do? (tx, t) <- make_queue SOUND_QUEUE_SIZE TX_QUEUE_IDX ind ev (hal_log (queue event)) t;
  do? (rx, t) <- make_queue SOUND_QUEUE_SIZE RX_QUEUE_IDX ind ev (hal_log tx) t;
  do? (jacks, t) <- read_config_space 4 4 0 t;
  do? (streams, t) <- read_config_space 4 4 4 t;
  do? (chmaps, t) <- read_config_space 4 4 8 t;
  let t := finish_init t in
  do! t <- (if should_notify (queue event) then notify EVENT_QUEUE_IDX t else Ret t);
  Ret (Ok (mkSound control event tx rx jacks streams chmaps None None None
             (replicate (Z.to_nat streams) params_default) (replicate (Z.to_nat PAGE_SIZE) 0) false ∅ [] ∅), t).

(** ** Requests *)

Section control.
Context `{Channel} {I : Type}.
Notation Snd := (VirtIOSound chan I).

(** The [command_code] of the answer's header. *)
Definition request (req : bytes) (d : Snd) : outcome (Result Z * Snd) :=
  do! (r, q) <- rpc [req] [queue_buf_recv d] (control_queue d);
  Ret (match r with
       | Err e => (Err e, set_control d q (queue_buf_recv d))
       | Ok (_, outs) => (Ok (part 0 4 (hd [] outs)), set_control d q (hd [] outs))
       end).

(** The items of an answer, after its header; a slice out of range panics. *)
Fixpoint read_items {A} (parse : bytes -> A) (size : nat) (n i : nat) (recv : bytes) : outcome (list A) :=
  match n with
  | O => Ret []
  | S n' =>
      if zlen recv <? Z.of_nat (4 + (i + 1) * size) then Panic
      else do! rest <- read_items parse size n' (S i) recv; Ret (parse (take size (drop (4 + i * size) recv)) :: rest)
  end.
(** The common shape of [jack_info], [pcm_info] and [chmap_info]. *)
Definition query {A} (c : CommandCode) (parse : bytes -> A) (size limit start_id count : Z) (d : Snd) : outcome (Result (list A) * Snd) :=
  if limit <? u32 (start_id + count) then Ret (Err IoError, d)
  else
    do? (code, d) <- request (query_bytes c start_id count size) d;
    if negb (code =? code_u32 SOk) then Ret (Err IoError, d)
    else do! l <- read_items parse (Z.to_nat size) (Z.to_nat count) 0 (queue_buf_recv d); Ret (Ok l, d).
Definition jack_info (start_id count : Z) (d : Snd) := query RJackInfo jack_from JACK_INFO_SIZE (jacks d) start_id count d.
Definition pcm_info (start_id count : Z) (d : Snd) := query RPcmInfo pcm_from PCM_INFO_SIZE (streams d) start_id count d.
Definition chmap_info (start_id count : Z) (d : Snd) := query RChmapInfo chmap_from CHMAP_INFO_SIZE (chmaps d) start_id count d.

Definition or_empty {A} (r : Result (list A)) : option (list A) := Some (match r with Ok l => l | Err _ => [] end).
Definition set_up (d : Snd) : outcome (Result unit * Snd) :=
  do! (jack, d) <- jack_info 0 (jacks d) d;
  let d := set_infos d (pcm_infos d) (or_empty jack) (chmap_infos d) in
  do? (pcm, d) <- pcm_info 0 (streams d) d;
  let d := set_infos d (Some pcm) (jack_infos d) (chmap_infos d) in
  do! (chmap, d) <- chmap_info 0 (chmaps d) d;
  let d := set_infos d (pcm_infos d) (jack_infos d) (or_empty chmap) in
  Ret (Ok tt, set_ready d (pcm_states d ++ replicate (Z.to_nat (streams d)) SetParams)).
(** The first lines of every call. *)
Definition ensure_set_up (d : Snd) : outcome (Result unit * Snd) := if is_set_up d then Ret (Ok tt, d) else set_up d.

Definition jack_remap (jack_id association sequence : Z) (d : Snd) : outcome (Result unit * Snd) :=
  do? (_, d) <- ensure_set_up d;
  if jacks d =? 0 then Ret (Err InvalidParam, d)
  else if jacks d <=? jack_id then Ret (Err InvalidParam, d)
  else
    match jack_infos d ≫= (.!! Z.to_nat jack_id) with
    | None => Panic
    | Some info =>
        if negb (contains (j_features info) JACK_REMAP) then Ret (Err Unsupported, d)
        else
          do? (code, d) <- request (remap_bytes jack_id association sequence) d;
          Ret (if code =? code_u32 SOk then Ok tt else Err Unsupported, d)
    end.

Definition pcm_set_params (stream_id buffer_bytes period_bytes features channels : Z) (format : PcmFormat) (rate : PcmRate) (d : Snd) :
    outcome (Result unit * Snd) :=
  do? (_, d) <- ensure_set_up d;
  if (period_bytes =? 0) || (buffer_bytes <? period_bytes) || negb (buffer_bytes mod period_bytes =? 0) then Ret (Err InvalidParam, d)
  else
    let p := mkParams true buffer_bytes period_bytes features channels format rate in
    do? (code, d) <- request (set_params_bytes stream_id p) d;
    if code =? code_u32 SOk then do! ps <- put (pcm_parameters d) stream_id p; Ret (Ok tt, set_parameters d ps)
    else Ret (Err IoError, d).

(** The common shape of [pcm_prepare], [pcm_release], [pcm_start] and [pcm_stop]. *)
Definition pcm_command (c : CommandCode) (stream_id : Z) (d : Snd) : outcome (Result unit * Snd) :=
  do? (_, d) <- ensure_set_up d;
  do? (code, d) <- request (pcm_hdr_bytes c stream_id) d;
  Ret (if code =? code_u32 SOk then Ok tt else Err IoError, d).
Definition pcm_prepare := pcm_command RPcmPrepare.
Definition pcm_release := pcm_command RPcmRelease.
Definition pcm_start := pcm_command RPcmStart.
Definition pcm_stop := pcm_command RPcmStop.

(** [pcm_infos.as_ref().unwrap()]. *)
Definition with_infos {A} (k : list VirtIOSndPcmInfo -> Result A) (d : Snd) : outcome (Result A * Snd) :=
  do? (_, d) <- ensure_set_up d;
  match pcm_infos d with None => Panic | Some l => Ret (k l, d) end.
Definition streams_of (direction : Z) (l : list VirtIOSndPcmInfo) : list Z :=
  (fun x => Z.of_nat x.1) <$> filter (fun x => p_direction x.2 = direction) (imap pair l).
Definition output_streams (d : Snd) : outcome (Result (list Z) * Snd) := with_infos (fun l => Ok (streams_of VIRTIO_SND_D_OUTPUT l)) d.
Definition input_streams (d : Snd) : outcome (Result (list Z) * Snd) := with_infos (fun l => Ok (streams_of VIRTIO_SND_D_INPUT l)) d.
Definition stream_info {A} (f : VirtIOSndPcmInfo -> A) (stream_id : Z) (d : Snd) : outcome (Result A * Snd) :=
  with_infos (fun l => match l !! Z.to_nat stream_id with Some x => Ok (f x) | None => Err InvalidParam end) d.
Definition rates_supported := stream_info rates.
Definition formats_supported := stream_info formats.
Definition channel_range_supported := stream_info (fun x => (channels_min x, channels_max x)).
Definition features_supported := stream_info p_features.
End control.

(** ** Notifications *)

Definition read_event (buffer : bytes) (_ : unit) : outcome (Result (option Notification) * unit) :=
  Ret (if decide (length buffer = 8%nat) then
         match notification_type (part 0 4 buffer) with
         | None => Err IoError
         | Some n => Ok (Some (mkNote n (part 4 4 buffer)))
         end
       else Ok None, tt).
Definition latest_notification `{Inbox} {C} (d : VirtIOSound C inbox) : outcome (Result (option Notification) * VirtIOSound C inbox) :=
  do! (r, _, i) <- inbox_poll read_event tt (event_queue d);
  Ret (r, set_events d i).

(** ** Frames *)

(** [slice::chunks]. *)
Definition chunks (n : Z) (b : Buffer) : list Buffer :=
  (fun i => mkBuf (buf_ptr b + n * i) (Z.min n (buf_len b - n * i))) <$> seqZ 0 ((buf_len b + n - 1) / n).

(** The locals of [pcm_xfer], the arrays with an element for each entry of the queue, and
    the notifications of the transport. *)
Record xfer := mkXfer {
  x_q : VirtQueue;
  remaining_buffers : list Buffer;
  x_buffers : list (option Buffer);
  tokens : list Z;
  head : Z;
  tail : Z;
  x_kicks : list Z
}.
Definition advance (i : Z) : Z := if SOUND_QUEUE_SIZE <=? i + 1 then 0 else i + 1.

Section transmit.
Context `{Hal}.

(** Where the locals are: the bytes of the stream's number, and [statuses]. *)
Context (stream_id_bytes statuses : Z).
Definition status_at (i : Z) : Buffer := mkBuf (statuses + 8 * i) 8.

(** The first half of an iteration: a request is added, if there is room and there are
    frames; [false] leaves the loop. *)
Definition xfer_add (x : xfer) : outcome (Result bool * xfer) :=
  if 3 <=? available_desc SOUND_QUEUE_SIZE (x_q x) then
    match remaining_buffers x with
    | buffer :: rest =>
        do! (r, q) <- add SOUND_QUEUE_SIZE [mkBuf stream_id_bytes 4; buffer] [status_at (head x)] (x_q x);
        match r with
        | Err e => Ret (Err e, mkXfer q rest (x_buffers x) (tokens x) (head x) (tail x) (x_kicks x))
        | Ok token =>
            do! tokens <- put (tokens x) (head x) token;
            do! buffers <- put (x_buffers x) (head x) (Some buffer);
            Ret (Ok true, mkXfer q rest buffers tokens (advance (head x)) (tail x) (if should_notify q then x_kicks x ++ [TX_QUEUE_IDX] else x_kicks x))
        end
    | [] => Ret (Ok (negb (head x =? tail x)), x)
    end
  else Ret (Ok true, x).

(** The second half: a finished request is taken, and its status read. *)
Definition xfer_pop (m : mem) (x : xfer) : outcome (Result unit * xfer) :=
  if can_pop (x_q x) then
    do! token <- get (tokens x) (tail x);
    do! buffer <- get (x_buffers x) (tail x);
    match buffer with
    | None => Panic
    | Some buffer =>
        do! (r, q) <- pop_used SOUND_QUEUE_SIZE token [mkBuf stream_id_bytes 4; buffer] [status_at (tail x)] (x_q x);
        let x' t := mkXfer q (remaining_buffers x) (x_buffers x) (tokens x) (head x) t (x_kicks x) in
        match r with
        | Err e => Ret (Err e, x' (tail x))
        | Ok _ =>
            if le_val (mem_read m (statuses + 8 * tail x) 4) =? code_u32 SOk then Ret (Ok tt, x' (advance (tail x)))
            else Ret (Err IoError, x' (tail x))
        end
    end
  else Ret (Ok tt, x).

(** [looks]: what the device has done to the used ring and to memory by the time of
    each look at the ring. *)
Fixpoint xfer_loop {D} (looks : list (VirtQueue -> mem -> D -> UsedRing * mem * D)) (x : xfer) (m : mem) (dev : D) : outcome (Result unit * xfer * mem * D) :=
  do! (r, x) <- xfer_add x;
  match r with
  | Err e => Ret (Err e, x, m, dev)
  | Ok false => Ret (Ok tt, x, m, dev)
  | Ok true =>
      match looks with
      | [] => OutOfFuel
      | look :: looks =>
          let '(u, m, dev) := look (x_q x) m dev in
          do! (r, x) <- xfer_pop m (mkXfer (device_writes (desc (x_q x)) (avail (x_q x)) u (x_q x)) (remaining_buffers x) (x_buffers x) (tokens x) (head x) (tail x) (x_kicks x));
          match r with
          | Err e => Ret (Err e, x, m, dev)
          | Ok _ => xfer_loop looks x m dev
          end
      end
  end.
End transmit.

Section sending.
Context `{Channel} `{Hal} {I : Type}.
Notation Snd := (VirtIOSound chan I).

(** [frames] are in memory; the locals are at [stream_id_bytes] and [statuses].  The
    result has the notifications of the transport. *)
Definition pcm_xfer {D} (looks : list (VirtQueue -> mem -> D -> UsedRing * mem * D)) (stream_id_bytes statuses stream_id : Z) (frames : Buffer) (m : mem) (dev : D) (d : Snd) :
    outcome (Result unit * Snd * list Z * mem * D) :=
  do! (r, d) <- ensure_set_up d;
  match r with
  | Err e => Ret (Err e, d, [], m, dev)
  | Ok _ =>
      do! p <- get (pcm_parameters d) stream_id;
      if negb (setup p) then Ret (Err IoError, d, [], m, dev)
      else if period_bytes p =? 0 then Panic
      else
        let m := mem_write m stream_id_bytes (le_bytes 4 stream_id) in
        let m := mem_write m statuses (replicate 256 0) in
        let x := mkXfer (tx_queue d) (chunks (period_bytes p) frames) (replicate 32 None) (replicate 32 0) 0 0 [] in
        do! (r, x, m, dev) <- xfer_loop stream_id_bytes statuses looks x m dev;
        Ret (r, set_tx d (x_q x) (token_rsp d) (token_buf d), x_kicks x, m, dev)
  end.

(** The boxes of the request are at [buf] and [rsp]; the [bool] tells whether the
    transport is notified. *)
Definition pcm_xfer_nb (buf rsp stream_id : Z) (frames : bytes) (m : mem) (d : Snd) : outcome (Result Z * bool * mem * Snd) :=
  do! (r, d) <- ensure_set_up d;
  match r with
  | Err e => Ret (Err e, false, m, d)
  | Ok _ =>
      do! p <- get (pcm_parameters d) stream_id;
      if negb (setup p) then Ret (Err IoError, false, m, d)
      else if negb (period_bytes p =? zlen frames) then Panic
      else
        let m := mem_write m buf (le_bytes 4 stream_id ++ frames) in
        let m := mem_write m rsp (replicate 8 0) in
        let b := mkBuf buf (4 + period_bytes p) in
        do! (r, q) <- add SOUND_QUEUE_SIZE [b] [mkBuf rsp 8] (tx_queue d);
        match r with
        | Err e => Ret (Err e, false, m, set_tx d q (token_rsp d) (token_buf d))
        | Ok token => Ret (Ok token, should_notify q, m, set_tx d q (<[token := rsp]> (token_rsp d)) (<[token := b]> (token_buf d)))
        end
  end.

Definition pcm_xfer_ok (token : Z) (d : Snd) : outcome (Result unit * Snd) :=
  match token_buf d !! token, token_rsp d !! token with
  | Some b, Some rsp =>
      do! (r, q) <- pop_used SOUND_QUEUE_SIZE token [b] [mkBuf rsp 8] (tx_queue d);
      Ret (match r with
           | Err e => (Err e, set_tx d q (token_rsp d) (token_buf d))
           | Ok _ => (Ok tt, set_tx d q (delete token (token_rsp d)) (delete token (token_buf d)))
           end)
  | _, _ => Panic
  end.
End sending.

(** [enable_interrupts]. *)
Definition enable_interrupts {C} (enable : bool) (d : VirtIOSound C OwningQueue) : VirtIOSound C OwningQueue :=
  set_events d (mkOwning (set_dev_notify enable (queue (event_queue d))) (buffers (event_queue d))).
