(* ===== verification/SoundProofs.v ===== *)
(** * The sound card: proofs

    [pcm_xfer] keeps several requests with the device; against a device that plays
    them in order, all frames are played in order, and the call returns. *)

From S2P Require Import Prelude Virtq VirtqInv VirtqRun VirtqThms VirtqOwn Transport Channel ChannelVirtq InboxVirtq Sound.

Section playing.
Context `{HHal : Hal}.
Hypothesis identity : forall log b d, hal_share log b d = buf_ptr b.
Notation K := 5.
#[local] Lemma K_ok : 0 <= K < 16.
Proof. lia. Qed.

(** ** The device *)

(** The next request it takes from the available ring, and what it has played: the
    stream's number and the frames of each request. *)
Record card := mkCard { c_next : Z; played : list (bytes * bytes) }.
Definition OK_STATUS : bytes := le_bytes 4 (code_u32 SOk) ++ le_bytes 4 0.
Definition play_one (q : VirtQueue) (s : UsedRing * mem * card) : UsedRing * mem * card :=
  let '(u, m, c) := s in
  if c_next c =? av_idx (avail q) then s
  else
    match (token ← av_ring (avail q) !! Z.to_nat (c_next c mod 32); chain ← device_request 32 q token; Some (token, chain)) with
    | Some (token, [(a, 4, false); (b, n, false); (st, 8, true)]) =>
        (mkUsed (us_flags u) (u16 (us_idx u + 1)) (<[Z.to_nat (us_idx u mod 32) := (token, 8)]> (us_ring u)) (avail_event u),
         mem_write m st OK_STATUS, mkCard (u16 (c_next c + 1)) (played c ++ [(mem_read m a 4, mem_read m b (Z.to_nat n))]))
    | _ => s
    end.
(** By the next look it has played up to [j] more. *)
Definition plays (j : nat) (q : VirtQueue) (m : mem) (c : card) : UsedRing * mem * card := Nat.iter j (play_one q) (used q, m, c).

(** ** The invariant of the loop *)

Context (sid st : Z) (m0 : mem).
Definition content (b : Buffer) : bytes * bytes := (mem_read m0 sid 4, mem_read m0 (buf_ptr b) (Z.to_nat (buf_len b))).
(** The caller's buffers are apart from the statuses. *)
Definition clear_of (b : Buffer) : Prop := 0 < buf_len b < 2 ^ 32 /\ (buf_ptr b + buf_len b <= st \/ st + 256 <= buf_ptr b).
Hypothesis sid_clear : sid + 4 <= st \/ st + 256 <= sid.

Notation fl os := (reverse (os.*1)).
(** [os]: the requests with the device, the oldest first; [nd] of them are played. *)
Record xinv (chunks : list Buffer) (x : xfer) (u : UsedRing) (m : mem) (c : card) (os : list (flight * Buffer)) (nd : nat) (P : list Buffer) : Prop := {
  xi_q : exists free, qinv K (x_q x) free (fl os);
  xi_vis : visible K (f_token <$> fl os) (x_q x) (fl os);
  xi_last : 0 <= last_used_idx (x_q x) < 2 ^ 16;
  xi_avail : avail_idx (x_q x) = u16 (last_used_idx (x_q x) + zlen os);
  xi_used : us_idx u = u16 (last_used_idx (x_q x) + Z.of_nat nd) /\ length (us_ring u) = 32%nat;
  xi_next : c_next c = u16 (last_used_idx (x_q x) + Z.of_nat nd);
  xi_nd : (nd <= length os)%nat;
  xi_arr : length (tokens x) = 32%nat /\ length (x_buffers x) = 32%nat /\ 0 <= tail x < 32 /\ head x = (tail x + zlen os) mod 32;
  xi_slot : forall i f b, os !! i = Some (f, b) -> let j := (tail x + Z.of_nat i) mod 32 in
    tokens x !! Z.to_nat j = Some (f_token f) /\ x_buffers x !! Z.to_nat j = Some (Some b) /\ f_ins f = [mkBuf sid 4; b] /\ f_outs f = [status_at st j];
  xi_done : forall i f b, (i < nd)%nat -> os !! i = Some (f, b) ->
    us_ring u !! Z.to_nat ((last_used_idx (x_q x) + Z.of_nat i) mod 32) = Some (f_token f, 8) /\
    mem_read m (st + 8 * ((tail x + Z.of_nat i) mod 32)) 8 = OK_STATUS;
  xi_mem : forall a, a < st \/ st + 256 <= a -> m a = m0 a;
  xi_played : played c = content <$> P ++ take nd os.*2;
  xi_chunks : chunks = P ++ os.*2 ++ remaining_buffers x /\ Forall clear_of chunks
}.

(** Each request has a descriptor, and there are 32. *)
Lemma busy_count (fs : list flight) q : Forall (flight_ok q) fs -> zlen fs <= zlen (busy_cells fs).
Proof.
  induction 1 as [|f fs Hf _ IH]; [done|]. destruct (flight_cells_cons q f Hf) as (c & cs & Ec). unfold busy_cells in *. cbn [fmap list_fmap concat].
  rewrite Ec. rewrite zlen_cons. cbn [app]. rewrite zlen_cons, zlen_app. pose proof (zlen_nonneg cs). lia.
Qed.
Lemma os_count chunks x u m c os nd P : xinv chunks x u m c os nd P -> zlen os <= num_used (x_q x) <= 32.
Proof.
  intros Hx. destruct (xi_q _ _ _ _ _ _ _ _ Hx) as [free Hq]. rewrite (qi_num _ _ _ _ Hq). pose proof (busy_count _ _ (qi_flights _ _ _ _ Hq)) as H1.
  pose proof (qinv_free K K_ok _ _ _ Hq) as H2. rewrite (qi_num _ _ _ _ Hq) in H2. pose proof (zlen_nonneg free). unfold zlen in H1 at 1. rewrite length_reverse, length_fmap in H1. fold (zlen os) in H1. change (2 ^ K) with 32 in H2. lia.
Qed.
Lemma advance_mod i : 0 <= i < 32 -> advance i = (i + 1) mod 32.
Proof. intros Hi. unfold advance. destruct (Z.leb_spec 32 (i + 1)); Z.div_mod_to_equations; lia. Qed.

Lemma fl_snoc (os : list (flight * Buffer)) f b : fl (os ++ [(f, b)]) = f :: fl os.
Proof. rewrite fmap_app. cbn [fmap list_fmap fst]. by rewrite reverse_snoc. Qed.
Lemma fl_cons (os : list (flight * Buffer)) f b : fl ((f, b) :: os) = fl os ++ [f].
Proof. cbn [fmap list_fmap fst]. by rewrite reverse_cons. Qed.
Lemma put_in {A} (l : list A) i x : 0 <= i < zlen l -> put l i x = Ret (<[Z.to_nat i := x]> l).
Proof. intros Hi. rewrite <- (Z2Nat.id i) at 1 by lia. apply put_ok. unfold zlen in Hi. lia. Qed.
Lemma get_in {A} (l : list A) i x : 0 <= i -> l !! Z.to_nat i = Some x -> get l i = Ret x.
Proof. intros Hi Hx. rewrite <- (Z2Nat.id i) by lia. by apply get_ok. Qed.

(** ** A request is added *)

Lemma room_add q n : 3 <= available_desc 32 q -> num_used q <= 32 -> 0 <= num_used q -> n = 3 -> num_used q + needed q n <= 32.
Proof. intros Hr Hn H0 ->. unfold available_desc in Hr. unfold needed. destruct (indirect q); [destruct (Z.eqb_spec (num_used q) 32); lia|]. rewrite u64_small in Hr by lia. lia. Qed.

Lemma xfer_add_more chunks x u m c os nd P b R :
  xinv chunks x u m c os nd P -> used (x_q x) = u -> remaining_buffers x = b :: R -> 3 <= available_desc 32 (x_q x) ->
  exists f x', xfer_add sid st x = Ret (Ok true, x') /\ used (x_q x') = u /\ xinv chunks x' u m c (os ++ [(f, b)]) nd P.
Proof using Type.
  intros Hx Hu HR Hroom. pose proof (os_count _ _ _ _ _ _ _ _ Hx) as Hcnt. pose proof (zlen_nonneg os) as Hos.
  destruct Hx as [[free Hq] Hv Hl Ha [Hus Hul] Hn Hnd (A1 & A2 & A3 & A4) Hs Hd Hm Hp [Hc Hcl]].
  assert (Hb : clear_of b). { rewrite Hc, HR, !Forall_app, Forall_cons in Hcl. by destruct Hcl as (_ & _ & ? & _). }
  assert (Hav : 0 <= avail_idx (x_q x) < 2 ^ 16) by (rewrite Ha; apply Z.mod_pos_bound; lia).
  destruct (add_ok K K_ok (x_q x) free (fl os) [mkBuf sid 4; b] [status_at st (head x)] Hq Hav) as (f & free' & q' & E & F1 & F2 & F3 & F4 & F5 & F6).
  { repeat constructor; cbn; try done; apply Hb. }
  { done. }
  { change (2 ^ K) with 32. apply room_add; try done; lia. }
  { done. }
  change (2 ^ K) with 32 in E. set (h := head x) in *.
  assert (Hh : 0 <= h < 32) by (rewrite A4; apply Z.mod_pos_bound; lia).
  exists f, (mkXfer q' R (<[Z.to_nat h := Some b]> (x_buffers x)) (<[Z.to_nat h := f_token f]> (tokens x)) (advance h) (tail x) (if should_notify q' then x_kicks x ++ [TX_QUEUE_IDX] else x_kicks x)).
  split.
  { unfold xfer_add. rewrite (proj2 (Z.leb_le _ _) Hroom), HR. fold h. rewrite E. cbn [obind].
    rewrite put_in by (unfold zlen; lia). cbn [obind]. by rewrite put_in by (unfold zlen; lia). }
  destruct (ar_same _ _ _ _ F5) as (_ & S2 & S3 & _ & _). destruct (ar_idx _ _ _ _ F5) as [I1 I2].
  assert (Hzl : zlen (os ++ [(f, b)]) = zlen os + 1) by (by rewrite zlen_app).
  assert (Hlt : zlen os < 32) by (pose proof (room_add (x_q x) 3 Hroom); unfold needed in *; destruct (indirect (x_q x)); lia).
  split; [cbn; by rewrite S2|]. constructor; cbn [x_q tokens x_buffers tail head remaining_buffers]; rewrite ?S3; try done.
  - rewrite fl_snoc. by exists free'.
  - rewrite fl_snoc. apply (visible_moved K K_ok (VAdd [mkBuf sid 4; b] [status_at st h]) (RAdd (Ok (f_token f))) (x_q x) free (fl os) q' free' (f :: fl os)); try done. by apply moved_add.
  - rewrite I1, Ha, Hzl. unfold u16. rewrite Zplus_mod_idemp_l. f_equal. lia.
  - rewrite length_app. lia.
  - rewrite !length_insert, advance_mod by done. split_and!; try done; try lia. rewrite A4, Hzl, Zplus_mod_idemp_l. f_equal. lia.
  - intros i f0 b0 Hi. apply lookup_snoc_Some in Hi as [[Hi Hi']|[-> [= <- <-]]].
    + destruct (Hs i f0 b0 Hi') as (T1 & T2 & T3). assert (Z.to_nat h <> Z.to_nat ((tail x + Z.of_nat i) mod 32)).
      { rewrite A4. unfold zlen in *. apply (slots_differ K K_ok); change (2 ^ K) with 32; lia. }
      by rewrite !list_lookup_insert_ne.
    + fold (zlen os). rewrite <- A4. fold h. rewrite !list_lookup_insert_eq by lia. done.
  - intros i f0 b0 Hi Hi'. apply (Hd i f0 b0 Hi). rewrite lookup_app_l in Hi' by lia. done.
  - rewrite Hp. do 2 f_equal. rewrite fmap_app. by rewrite take_app_le by (rewrite length_fmap; lia).
  - split; [|done]. rewrite Hc, HR, fmap_app. cbn. by rewrite <- !app_assoc.
Qed.

(** ** The device plays *)

Lemma request_view q f b j : flight_ok q f -> Forall answered (f_bs f) -> f_ins f = [mkBuf sid 4; b] -> f_outs f = [status_at st j] ->
  view <$> f_bs f = [(sid, 4, false); (buf_ptr b, buf_len b, false); (st + 8 * j, 8, true)].
Proof using identity.
  intros (Hio & _) Hans Hi Ho. rewrite Hi, Ho in Hio. destruct (f_bs f) as [|[[b1 d1] p1] [|[[b2 d2] p2] [|[[b3 d3] p3] [|]]]]; try done.
  cbn in Hio. injection Hio as -> -> -> -> -> ->. rewrite !Forall_cons in Hans. destruct Hans as ([l1 E1] & [l2 E2] & [l3 E3] & _). cbn in E1, E2, E3. rewrite identity in E1, E2, E3. subst p1 p2 p3. done.
Qed.

Lemma play_nothing chunks x u m c os P : xinv chunks x u m c os (length os) P -> play_one (x_q x) (u, m, c) = (u, m, c).
Proof using Type. intros Hx. unfold play_one. destruct (xi_vis _ _ _ _ _ _ _ _ Hx) as (_ & _ & _ & Hv). rewrite Hv, (xi_next _ _ _ _ _ _ _ _ Hx), (xi_avail _ _ _ _ _ _ _ _ Hx). unfold zlen. by rewrite Z.eqb_refl. Qed.

Lemma content_now m b : (forall a, a < st \/ st + 256 <= a -> m a = m0 a) -> clear_of b -> content b = (mem_read m sid 4, mem_read m (buf_ptr b) (Z.to_nat (buf_len b))).
Proof using sid_clear. intros Hm [Hb1 Hb2]. unfold content. f_equal; apply mem_read_ext; intros a Ha; symmetry; apply Hm; lia. Qed.

Lemma play_next chunks x u m c os nd P :
  xinv chunks x u m c os nd P -> (nd < length os)%nat ->
  exists u' m' c', play_one (x_q x) (u, m, c) = (u', m', c') /\ xinv chunks x u' m' c' os (S nd) P.
Proof using identity sid_clear.
  intros Hx Hlt. pose proof (os_count _ _ _ _ _ _ _ _ Hx) as Hcnt. destruct Hx as [[free Hq] Hv Hl Ha [Hus Hul] Hn Hnd (A1 & A2 & A3 & A4) Hs Hd Hm Hp [Hc Hcl]].
  destruct (os !! nd) as [[f b]|] eqn:Eo; [|by apply lookup_ge_None in Eo; lia]. destruct (Hs nd f b Eo) as (T1 & T2 & T3 & T4). set (j := (tail x + Z.of_nat nd) mod 32) in *.
  assert (Hf : fl os !! (length os - 1 - nd)%nat = Some f).
  { rewrite reverse_lookup by (rewrite length_fmap; lia). rewrite length_fmap, list_lookup_fmap. replace (length os - S (length os - 1 - nd))%nat with nd by lia. by rewrite Eo. }
  pose proof (list_elem_of_lookup_2 _ _ _ Hf) as Hin. pose proof Hv as (V1 & V2 & V3 & V4). unfold zlen in *.
  assert (Ering : av_ring (avail (x_q x)) !! Z.to_nat (c_next c mod 32) = Some (f_token f)).
  { rewrite <- (V3 (length os - 1 - nd)%nat (f_token f)); [|change (Z.to_nat (2 ^ K)) with 32%nat; lia|by rewrite list_lookup_fmap, Hf].
    do 2 f_equal. rewrite Hn, Ha. change (2 ^ K) with 32. unfold u16. Z.div_mod_to_equations. lia. }
  assert (Hreq : device_request 32 (x_q x) (f_token f) = Some [(sid, 4, false); (buf_ptr b, buf_len b, false); (st + 8 * j, 8, true)]).
  { change 32 with (2 ^ K). rewrite (request_chain K K_ok _ _ _ _ Hq Hin V1). f_equal. pose proof (qi_flights _ _ _ _ Hq) as Hok. rewrite Forall_forall in Hok.
    apply (request_view (x_q x)); try done; [by apply Hok|]. apply Forall_forall. intros y Hy. by apply (V2 f). }
  assert (Hne : c_next c <> av_idx (avail (x_q x))).
  { rewrite V4, Hn, Ha. unfold u16. intros E. Z.div_mod_to_equations. lia. }
  unfold play_one. rewrite (proj2 (Z.eqb_neq _ _) Hne), Ering. cbn [mbind option_bind]. rewrite Hreq. cbn [mbind option_bind].
  eexists _, _, _. split; [reflexivity|].
  assert (Hother : forall i, (i < nd)%nat -> (tail x + Z.of_nat i) mod 32 <> j).
  { intros i Hi E. apply (slots_differ K K_ok (tail x) (Z.of_nat i) (Z.of_nat nd)); change (2 ^ K) with 32; lia. }
  assert (Hj : 0 <= j < 32) by (apply Z.mod_pos_bound; lia).
  constructor; try done; cbn [us_idx us_ring c_next played]; try (by exists free).
  - rewrite length_insert, Hus. split; [|done]. unfold u16. rewrite Zplus_mod_idemp_l. f_equal. lia.
  - rewrite Hn. unfold u16. rewrite Zplus_mod_idemp_l. f_equal. lia.
  - intros i f0 b0 Hi Hi'. rewrite Hus. assert (u16 (last_used_idx (x_q x) + Z.of_nat nd) mod 32 = (last_used_idx (x_q x) + Z.of_nat nd) mod 32) as -> by apply (mod_u16 K K_ok).
    destruct (decide (i = nd)) as [->|Hin'].
    + rewrite Eo in Hi'. injection Hi' as <- <-. fold j. split; [apply list_lookup_insert_eq; rewrite Hul; pose proof (Z.mod_pos_bound (last_used_idx (x_q x) + Z.of_nat nd) 32); lia|]. apply (mem_read_write_same m (st + 8 * j) OK_STATUS).
    + destruct (Hd i f0 b0 ltac:(lia) Hi') as [D1 D2]. split.
      * rewrite list_lookup_insert_ne; [done|]. intros E. apply (slots_differ K K_ok (last_used_idx (x_q x)) (Z.of_nat nd) (Z.of_nat i)); change (2 ^ K) with 32; lia || done.
      * rewrite mem_read_write_disjoint; [done|]. pose proof (Hother i ltac:(lia)). pose proof (Z.mod_pos_bound (tail x + Z.of_nat i) 32). change (zlen OK_STATUS) with 8. lia.
  - intros a Ha'. rewrite mem_write_outside by (change (zlen OK_STATUS) with 8; lia). by apply Hm.
  - assert (Hb : clear_of b). { rewrite Forall_forall in Hcl. apply Hcl. rewrite Hc. apply elem_of_app. right. apply elem_of_app. left. apply list_elem_of_lookup. exists nd. by rewrite list_lookup_fmap, Eo. }
    rewrite <- (content_now m b Hm Hb), Hp, (take_S_r _ _ b) by (by rewrite list_lookup_fmap, Eo). by rewrite app_assoc, (fmap_app _ (P ++ _)).
Qed.

(** The used ring the driver looks at is the device's. *)
Lemma xinv_look chunks x u m c os nd P :
  xinv chunks x u m c os nd P -> let q := x_q x in
  xinv chunks (mkXfer (device_writes (desc q) (avail q) u q) (remaining_buffers x) (x_buffers x) (tokens x) (head x) (tail x) (x_kicks x)) u m c os nd P.
Proof using Type.
  intros Hx q. destruct Hx as [[free Hq] Hv Hl Ha [Hus Hul] Hn Hnd HA Hs Hd Hm Hp Hc]. constructor; cbn [x_q remaining_buffers x_buffers tokens head tail]; try done.
  exists free. eapply (qinv_private K q); try done; cbn; apply Hq.
Qed.

Lemma plays_ok j chunks x m c os nd P :
  xinv chunks x (used (x_q x)) m c os nd P ->
  exists u m' c' nd', plays j (x_q x) m c = (u, m', c') /\ xinv chunks x u m' c' os nd' P /\ (nd <= nd')%nat /\ ((0 < j)%nat -> (0 < length os)%nat -> (0 < nd')%nat).
Proof using identity sid_clear.
  intros Hx. unfold plays. induction j as [|j (u & m' & c' & nd' & E & Hx' & Hle & Hpos)]; [eexists _, _, _, nd; split_and!; done || lia|].
  rewrite Nat.iter_succ, E. pose proof (xi_nd _ _ _ _ _ _ _ _ Hx') as Hnd. destruct (decide (nd' = length os)) as [->|Hne].
  - rewrite (play_nothing _ _ _ _ _ _ _ Hx'). eexists _, _, _, _. split_and!; [reflexivity|done|lia|lia].
  - destruct (play_next _ _ _ _ _ _ _ _ Hx' ltac:(lia)) as (u' & m1 & c1 & E1 & Hx1). rewrite E1. eexists _, _, _, _. split_and!; [reflexivity|done|lia|lia].
Qed.

(** ** A played request is taken *)

Lemma xfer_pop_none chunks x m c os P : xinv chunks x (used (x_q x)) m c os 0 P -> xfer_pop sid st m x = Ret (Ok tt, x).
Proof using Type.
  intros Hx. unfold xfer_pop, can_pop. destruct (xi_used _ _ _ _ _ _ _ _ Hx) as [-> _]. pose proof (xi_last _ _ _ _ _ _ _ _ Hx). rewrite Z.add_0_r, u16_small, Z.eqb_refl by lia. done.
Qed.

Lemma xfer_pop_next chunks x m c f b os nd P :
  xinv chunks x (used (x_q x)) m c ((f, b) :: os) (S nd) P ->
  exists x', xfer_pop sid st m x = Ret (Ok tt, x') /\ remaining_buffers x' = remaining_buffers x /\ xinv chunks x' (used (x_q x')) m c os nd (P ++ [b]).
Proof using Type.
  intros Hx. pose proof (os_count _ _ _ _ _ _ _ _ Hx) as Hcnt. rewrite zlen_cons in Hcnt. pose proof (zlen_nonneg os).
  destruct Hx as [[free Hq] Hv Hl Ha [Hus Hul] Hn Hnd (A1 & A2 & A3 & A4) Hs Hd Hm Hp [Hc Hcl]].
  destruct (Hs 0%nat f b eq_refl) as (T1 & T2 & T3 & T4). destruct (Hd 0%nat f b ltac:(lia) eq_refl) as [D1 D2]. rewrite !Z.add_0_r in *. rewrite (Z.mod_small (tail x)) in * by lia.
  assert (Hcan : can_pop (x_q x) = true).
  { unfold can_pop. rewrite Hus. rewrite (proj2 (Z.eqb_neq _ _)); [done|]. cbn in Hnd. unfold zlen in Hcnt. unfold u16. intros E. Z.div_mod_to_equations. lia. }
  rewrite fl_cons in Hq, Hv. change 32 with (2 ^ K) in D1. rewrite <- (slot_mod K K_ok) in D1.
  pose proof (vq_pop_ok K K_ok (x_q x) free (fl os) f [] Hq Hl (f_token f) 8 D1) as Hpop. cbv zeta in Hpop. rewrite Hcan, (token_u16 K K_ok _ _ _ f Hq) in Hpop by (apply elem_of_app; right; by left).
  rewrite Z.eqb_refl in Hpop. cbn [negb] in Hpop. destruct Hpop as (q' & E & Hres & Hq'). rewrite app_nil_r in Hq'. change (2 ^ K) with 32 in E. rewrite T3, T4 in E.
  exists (mkXfer q' (remaining_buffers x) (x_buffers x) (tokens x) (head x) (advance (tail x)) (x_kicks x)). split.
  { unfold xfer_pop. rewrite Hcan, (get_in _ _ _ (proj1 A3) T1). cbn [obind]. rewrite (get_in _ _ _ (proj1 A3) T2). cbn [obind]. rewrite E. cbn [obind].
    assert (Hst : mem_read m (st + 8 * tail x) 4 = le_bytes 4 (code_u32 SOk)).
    { rewrite <- (mem_read_take m _ 8 4) by lia. by rewrite D2. }
    rewrite Hst, le_val_bytes by (cbn; lia). by rewrite Z.eqb_refl. }
  split; [done|]. destruct (pr_same _ _ _ Hres) as (P1 & P2 & P3 & P4 & P5). destruct (pr_ring _ _ _ Hres) as [P6 P7]. pose proof (pr_last _ _ _ Hres) as P8.
  assert (Hv' : visible K (f_token <$> fl os) q' (fl os)).
  { destruct (visible_moved K K_ok (VPop (f_token f)) (RPop (Ok 8)) (x_q x) free (fl os ++ [f]) q' (f_cells f ++ free) (fl os) (f_token <$> fl os ++ [f])) as (W1 & W2 & W3 & W4); try done.
    - rewrite Ha. apply Z.mod_pos_bound. lia.
    - rewrite <- (app_nil_r (fl os)) at 2. apply moved_pop; rewrite ?app_nil_r; done.
    - split_and!; try done. intros j t Hj Ht. apply W3; [done|]. cbn [announced]. rewrite fmap_app. by apply lookup_app_l_Some. }
  constructor; cbn [x_q tokens x_buffers tail head remaining_buffers]; rewrite ?P2, ?P3, ?P8; try done.
  - by eexists.
  - apply Z.mod_pos_bound. lia.
  - rewrite Ha, zlen_cons. unfold u16. rewrite Zplus_mod_idemp_l. f_equal. lia.
  - split; [|done]. rewrite Hus. unfold u16. rewrite Zplus_mod_idemp_l. f_equal. lia.
  - rewrite Hn. unfold u16. rewrite Zplus_mod_idemp_l. f_equal. lia.
  - cbn in Hnd. lia.
  - rewrite advance_mod, A4, zlen_cons by done. split_and!; try done; try (apply Z.mod_pos_bound; lia). rewrite Zplus_mod_idemp_l. f_equal. lia.
  - intros i f0 b0 Hi. specialize (Hs (S i) f0 b0 Hi). rewrite advance_mod, Zplus_mod_idemp_l by done. by replace (tail x + 1 + Z.of_nat i) with (tail x + Z.of_nat (S i)) by lia.
  - intros i f0 b0 Hi Hi'. specialize (Hd (S i) f0 b0 ltac:(lia) Hi'). rewrite advance_mod, Zplus_mod_idemp_l by done.
    assert ((u16 (last_used_idx (x_q x) + 1) + Z.of_nat i) mod 32 = (last_used_idx (x_q x) + Z.of_nat (S i)) mod 32) as -> by (unfold u16; Z.div_mod_to_equations; lia).
    by replace (tail x + 1 + Z.of_nat i) with (tail x + Z.of_nat (S i)) by lia.
  - rewrite Hp. cbn. by rewrite <- app_assoc.
  - split; [|done]. rewrite Hc. cbn. by rewrite <- app_assoc.
Qed.

(** ** The loop *)

Lemma add_phase chunks x m c os nd P :
  xinv chunks x (used (x_q x)) m c os nd P ->
  exists r x' os', xfer_add sid st x = Ret (Ok r, x') /\ xinv chunks x' (used (x_q x')) m c os' nd P /\
    (length os' + length (remaining_buffers x') = length os + length (remaining_buffers x))%nat /\
    if r then os' <> [] else os' = [] /\ remaining_buffers x' = [].
Proof using Type.
  intros Hx. pose proof (os_count _ _ _ _ _ _ _ _ Hx) as Hcnt. pose proof (zlen_nonneg os) as H0. destruct (xi_arr _ _ _ _ _ _ _ _ Hx) as (_ & _ & A3 & A4).
  destruct (Z.leb_spec 3 (available_desc 32 (x_q x))) as [Hroom|Hroom].
  - destruct (remaining_buffers x) as [|b R] eqn:ER.
    + unfold xfer_add. rewrite (proj2 (Z.leb_le _ _) Hroom), ER. exists (negb (head x =? tail x)), x, os. rewrite ER. split_and!; [done..|].
      assert (zlen os < 32) by (unfold available_desc in Hroom; destruct (indirect (x_q x)); [destruct (Z.eqb_spec (num_used (x_q x)) 32); lia|rewrite u64_small in Hroom by lia; lia]).
      rewrite A4. destruct (Z.eqb_spec ((tail x + zlen os) mod 32) (tail x)) as [E|E]; cbn; [split; [|done]|intros ->; apply E; change (zlen (@nil (flight * Buffer))) with 0; rewrite Z.add_0_r; apply Z.mod_small; lia].
      destruct os; [done|]. exfalso. rewrite zlen_cons in *. pose proof (zlen_nonneg os). Z.div_mod_to_equations. lia.
    + destruct (xfer_add_more _ _ _ _ _ _ _ _ b R Hx eq_refl ER Hroom) as (f & x' & E & Hu & Hx'). exists true, x', (os ++ [(f, b)]). rewrite Hu. split_and!; [done..| |by destruct os].
      pose proof (xi_chunks _ _ _ _ _ _ _ _ Hx) as [C1 _]. pose proof (xi_chunks _ _ _ _ _ _ _ _ Hx') as [C2 _]. rewrite C1 in C2. apply (f_equal length) in C2. rewrite !length_app, !length_fmap, !length_app, ER in C2. rewrite length_app. cbn in *. lia.
  - unfold xfer_add. rewrite (proj2 (Z.leb_gt _ _) Hroom). exists true, x, os. split_and!; [done..|]. intros ->. destruct (xi_q _ _ _ _ _ _ _ _ Hx) as [free Hq].
    pose proof (qi_num _ _ _ _ Hq) as Hn. change (num_used (x_q x) = 0) in Hn. unfold available_desc in Hroom. rewrite Hn in Hroom. by destruct (indirect (x_q x)).
Qed.

(** Looks by which the device has played something. *)
Definition productive (js : list nat) : nat := length (filter (fun j => j <> 0%nat) js).

Lemma productive_cons j js : productive (j :: js) = (productive js + if decide (j = 0%nat) then 0 else 1)%nat.
Proof. unfold productive. rewrite filter_cons. repeat case_decide; cbn; lia. Qed.

Lemma loop_ok chunks js x m c os nd P :
  xinv chunks x (used (x_q x)) m c os nd P -> (length os + length (remaining_buffers x) <= productive js)%nat ->
  exists x' m' c', xfer_loop sid st (plays <$> js) x m c = Ret (Ok tt, x', m', c') /\ xinv chunks x' (used (x_q x')) m' c' [] 0 chunks.
Proof using identity sid_clear.
  revert x m c os nd P. induction js as [|j js IH]; intros x m c os nd P Hx Hlen; destruct (add_phase _ _ _ _ _ _ _ Hx) as (r & x1 & os1 & E1 & Hx1 & Hl1 & Hr).
  - destruct r; [|destruct Hr as [-> HR]].
    + exfalso. destruct os1; [done|]. cbn in *. lia.
    + exists x1, m, c. cbn. rewrite E1. split; [done|]. pose proof (xi_nd _ _ _ _ _ _ _ _ Hx1) as Hnd. cbn in Hnd. assert (nd = 0%nat) as -> by lia.
      pose proof (xi_chunks _ _ _ _ _ _ _ _ Hx1) as [Hc _]. rewrite HR in Hc. cbn in Hc. rewrite app_nil_r in Hc. by rewrite Hc at 2.
  - cbn [fmap list_fmap xfer_loop]. rewrite E1. cbn [obind]. destruct r; [|destruct Hr as [-> HR]].
    + destruct (plays_ok j _ _ _ _ _ _ _ Hx1) as (u & m1 & c1 & nd1 & Ep & Hx2 & Hle & Hpos). rewrite Ep. apply xinv_look in Hx2. cbv zeta in Hx2.
      set (x2 := mkXfer _ _ _ _ _ _ _) in *. change u with (used (x_q x2)) in Hx2. destruct nd1 as [|nd1].
      * assert (j = 0%nat) as -> by (destruct os1; cbn in *; lia || done). rewrite (xfer_pop_none _ _ _ _ _ _ Hx2). cbn [obind]. apply (IH _ _ _ _ _ _ Hx2). rewrite productive_cons, decide_True in Hlen by done. change (remaining_buffers x2) with (remaining_buffers x1). lia.
      * destruct os1 as [|[f b] os1]; [done|]. destruct (xfer_pop_next _ _ _ _ _ _ _ _ _ Hx2) as (x3 & E3 & HR3 & Hx3). rewrite E3. cbn [obind]. apply (IH _ _ _ _ _ _ Hx3). rewrite HR3. rewrite productive_cons in Hlen. change (remaining_buffers x2) with (remaining_buffers x1). cbn in *. case_decide; lia.
    + exists x1, m, c. split; [done|]. pose proof (xi_nd _ _ _ _ _ _ _ _ Hx1) as Hnd. cbn in Hnd. assert (nd = 0%nat) as -> by lia.
      pose proof (xi_chunks _ _ _ _ _ _ _ _ Hx1) as [Hc _]. rewrite HR in Hc. cbn in Hc. rewrite app_nil_r in Hc. by rewrite Hc at 2.
Qed.
End playing.

(** ** [pcm_xfer] *)

Lemma chunks_cover n b m (count : nat) : 0 < n -> n * (Z.of_nat count - 1) <= buf_len b -> 0 <= buf_len b ->
  concat ((fun c => mem_read m (buf_ptr c) (Z.to_nat (buf_len c))) <$> ((fun i => mkBuf (buf_ptr b + n * i) (Z.min n (buf_len b - n * i))) <$> seqZ 0 (Z.of_nat count))) =
  mem_read m (buf_ptr b) (Z.to_nat (Z.min (n * Z.of_nat count) (buf_len b))).
Proof.
  intros Hn Hc Hb. induction count as [|count IH]; [rewrite Z.mul_0_r, Z.min_l by lia; done|].
  rewrite seqZ_S, !fmap_app, concat_app, IH by lia. cbn [fmap list_fmap concat buf_ptr buf_len]. rewrite Z.add_0_l, app_nil_r, Z.min_l by lia.
  replace (Z.to_nat (Z.min (n * Z.of_nat (S count)) (buf_len b))) with (Z.to_nat (n * Z.of_nat count) + Z.to_nat (Z.min n (buf_len b - n * Z.of_nat count)))%nat by lia.
  rewrite mem_read_app. do 2 f_equal. lia.
Qed.

Lemma chunks_bytes n b m : 0 < n -> 0 <= buf_len b ->
  concat ((fun c => mem_read m (buf_ptr c) (Z.to_nat (buf_len c))) <$> chunks n b) = mem_read m (buf_ptr b) (Z.to_nat (buf_len b)).
Proof.
  intros Hn Hb. unfold chunks. pose proof (Z.div_mod (buf_len b + n - 1) n ltac:(lia)). pose proof (Z.mod_pos_bound (buf_len b + n - 1) n Hn).
  assert (0 <= (buf_len b + n - 1) / n) by (apply Z.div_pos; lia). rewrite <- (Z2Nat.id ((buf_len b + n - 1) / n)) by lia. rewrite chunks_cover by nia. do 2 f_equal. nia.
Qed.

Lemma chunk_bounds n b c : 0 < n -> 0 <= buf_len b -> c ∈ chunks n b -> 0 < buf_len c <= n /\ buf_ptr b <= buf_ptr c /\ buf_ptr c + buf_len c <= buf_ptr b + buf_len b.
Proof.
  intros Hn Hb (i & -> & Hi)%list_elem_of_fmap. apply elem_of_seqZ in Hi. cbn. pose proof (Z.div_mod (buf_len b + n - 1) n ltac:(lia)). pose proof (Z.mod_pos_bound (buf_len b + n - 1) n Hn). nia.
Qed.

Section transfer.
Context `{HC : Channel} `{HHal : Hal} {I : Type} (identity : forall log b dir, hal_share log b dir = buf_ptr b).

(** C22: On a sound card that plays what it finds in the available ring, in order and
    without failing, [pcm_xfer] returns, as soon as the device has made progress at as
    many looks as there are periods (whatever it did at the others); it has then played
    every frame exactly once and in order, in requests of the stream of at most a period
    each, and no request is left with the device. *)
Theorem pcm_xfer_plays (d : VirtIOSound chan I) p stream_id frames m js sid st :
  quiet 5 (tx_queue d) -> is_set_up d = true -> get (pcm_parameters d) stream_id = Ret p -> setup p = true -> 0 < period_bytes p < 2 ^ 32 ->
  0 <= stream_id < 2 ^ 32 -> 0 <= buf_len frames ->
  apart [sid; st; buf_ptr frames] [4; 256; buf_len frames] -> (length (chunks (period_bytes p) frames) <= productive js)%nat ->
  exists d' ks m' c', pcm_xfer (plays <$> js) sid st stream_id frames m (mkCard (avail_idx (tx_queue d)) []) d = Ret (Ok tt, d', ks, m', c') /\ quiet 5 (tx_queue d') /\
    concat (played c').*2 = mem_read m (buf_ptr frames) (Z.to_nat (buf_len frames)) /\
    Forall (fun x => x.1 = le_bytes 4 stream_id /\ 0 < zlen x.2 <= period_bytes p) (played c').
Proof using identity.
  intros ((free & Hq) & Hl & Hu & Ha & Hv) Hset Hp Hs Hper Hsid Hfr Hap Hjs. unfold pcm_xfer, ensure_set_up. rewrite Hset. cbn [obind]. rewrite Hp. cbn [obind]. rewrite Hs. cbn [negb]. rewrite (proj2 (Z.eqb_neq (period_bytes p) 0)) by lia.
  set (m0 := mem_write (mem_write m sid (le_bytes 4 stream_id)) st (replicate 256 0)). set (n := period_bytes p) in *.
  pose proof (apart_lookup _ _ 0 1 sid st _ _ Hap ltac:(done) eq_refl eq_refl eq_refl eq_refl) as D1. pose proof (apart_lookup _ _ 0 2 sid (buf_ptr frames) _ _ Hap ltac:(done) eq_refl eq_refl eq_refl eq_refl) as D2.
  pose proof (apart_lookup _ _ 1 2 st (buf_ptr frames) _ _ Hap ltac:(done) eq_refl eq_refl eq_refl eq_refl) as D3. cbn in D1, D2, D3.
  destruct (loop_ok identity sid st m0 ltac:(lia) (chunks n frames) js (mkXfer (tx_queue d) (chunks n frames) (replicate 32 None) (replicate 32 0) 0 0 []) m0 (mkCard (avail_idx (tx_queue d)) []) [] 0 []) as (x & m' & c' & E & Hx).
  - constructor; cbn [x_q tokens x_buffers tail head remaining_buffers c_next played]; try done; try (by exists free); try lia.
    + split_and!; try done; intros ? ? Hin; by apply elem_of_nil in Hin.
    + rewrite Ha. change (zlen (@nil (flight * Buffer))) with 0. rewrite Z.add_0_r, u16_small by lia. done.
    + rewrite Hu, Z.add_0_r, u16_small by lia. split; [done|]. apply (qi_used _ _ _ _ Hq).
    + rewrite Ha, Z.add_0_r, u16_small by lia. done.
    + split; [done|]. apply Forall_forall. intros c Hc. pose proof (chunk_bounds n frames c ltac:(lia) Hfr Hc). split; lia.
  - cbn. lia.
  - rewrite E. cbn [obind]. eexists _, _, _, _. split; [done|]. destruct Hx as [[free' Hq'] (_ & _ & _ & Hv') Hl' Ha' [Hu' _] _ _ _ _ _ _ Hpl _].
    change (zlen (@nil (flight * Buffer))) with 0 in Ha'. rewrite Z.add_0_r, u16_small in Ha', Hu' by lia. split; [cbn; split_and!; try done; try lia; by exists free'|].
    cbn [take fmap list_fmap] in Hpl. rewrite app_nil_r in Hpl. rewrite Hpl. split.
    + rewrite <- list_fmap_compose. change (snd ∘ content sid m0) with (fun c => mem_read m0 (buf_ptr c) (Z.to_nat (buf_len c))). rewrite chunks_bytes by lia.
      unfold m0. rewrite !mem_read_write_disjoint; [done|..]; change (zlen (replicate 256 0)) with 256; unfold zlen; rewrite ?le_bytes_length; lia.
    + apply Forall_fmap, Forall_forall. intros c Hc. destruct (chunk_bounds n frames c ltac:(lia) Hfr Hc) as [Hb _]. unfold compose, content. cbn [fst snd]. split.
      * unfold m0. rewrite mem_read_write_disjoint by (change (zlen (replicate 256 0)) with 256; lia). apply mem_read_le.
      * unfold zlen. rewrite mem_read_length. lia.
Qed.
End transfer.

(** Two periods and a rest, on a device that stalls now and then. *)
Module Example_tune.
#[export] Existing Instance demo_hal.
#[export] Instance no_channel : Channel := {| chan := unit; rpc _ _ s := Ret (Err IoError, s) |}.
Definition made : outcome (Result (VirtQueue * QueueSet)) := new SOUND_QUEUE_SIZE demo_transport 2 false false [].
Definition tx : VirtQueue := match made with Ret (Ok (q, _)) => q | _ => demo_queue false end.
Definition parameters : PcmParameters := mkParams true 12 6 0 2 S16 Rate44100.
Definition sound : VirtIOSound chan unit := mkSound tt tt tx tx 0 1 0 (Some []) (Some []) (Some []) [parameters] [] true ∅ [SetParams] ∅.
Lemma tx_quiet : quiet 5 (tx_queue sound).
Proof.
  assert (exists set, new (2 ^ 5) demo_transport 2 false false [] = Ret (Ok (tx, set))) as [set E] by (eexists; vm_compute; reflexivity).
  exact (quiet_new 5 ltac:(lia) _ _ _ _ _ _ _ E).
Qed.
End Example_tune.
Import Example_tune.

Lemma pcm_xfer_plays_witness :
  exists d' ks m' c', pcm_xfer (plays <$> [0; 1; 0; 5; 2]%nat) 100 200 0 (mkBuf 1000 14) (fun a => a mod 256) (mkCard (avail_idx Example_tune.tx) []) Example_tune.sound = Ret (Ok tt, d', ks, m', c') /\
    quiet 5 (tx_queue d') /\ concat (played c').*2 = mem_read (fun a => a mod 256) 1000 14 /\
    Forall (fun x => x.1 = le_bytes 4 0 /\ 0 < zlen x.2 <= 6) (played c').
Proof.
  refine (pcm_xfer_plays (fun _ _ _ => eq_refl) Example_tune.sound Example_tune.parameters 0 (mkBuf 1000 14) (fun a => a mod 256) [0; 1; 0; 5; 2]%nat 100 200 Example_tune.tx_quiet eq_refl eq_refl eq_refl _ _ _ _ _); try (cbn; lia).
  - cbn. split_and!; try done; repeat (apply Forall2_cons; split; [lia|]); by apply Forall2_nil.
  - vm_compute. lia.
Defined.
