(* ===== verification/SoundCtl.v ===== *)
(** * The sound card's catalogue: proofs

    What the driver reports of jacks, streams and channel maps is what the device has. *)

From S2P Require Import Prelude Virtq VirtqInv VirtqRun VirtqThms VirtqOwn Transport Channel ChannelVirtq Sound.

(** A device with its items, in their layout; a query for all items of a kind is
    answered with all of them. *)
Class SoundDevice `{Device} := {
  items : CommandCode -> device -> list bytes;
  serve_query : forall c size d, (c, size) ∈ [(RJackInfo, 24); (RPcmInfo, 32); (RChmapInfo, 24)] ->
    4 + size * zlen (items c d) <= PAGE_SIZE ->
    let '(_, outs, d') := serve [query_bytes c 0 (zlen (items c d)) size] [PAGE_SIZE] d in
    outs = [le_bytes 4 (code_u32 SOk) ++ concat (items c d)] /\ items RJackInfo d' = items RJackInfo d /\ items RPcmInfo d' = items RPcmInfo d /\ items RChmapInfo d' = items RChmapInfo d;
  items_size : forall c size d, (c, size) ∈ [(RJackInfo, 24); (RPcmInfo, 32); (RChmapInfo, 24)] -> Forall (fun b => zlen b = size) (items c d)
}.

Section catalogue.
Context {SIZE : Z} {HC : Channel} {HD : Device} {HO : ChannelOk SIZE} {HS : SoundDevice} {I : Type} (HSIZE : 2 <= SIZE).
Notation Snd := (VirtIOSound chan I).
Notation dev d := (behind (control_queue d)).

Lemma concat_item (l : list bytes) (size i : nat) b (rest : bytes) :
  Forall (fun b => length b = size) l -> l !! i = Some b -> take size (drop (i * size) (concat l ++ rest)) = b.
Proof.
  intros Hl. revert i. induction Hl as [|x l Hx _ IH]; intros i Hi; [done|]. cbn [concat]. rewrite <- app_assoc. destruct i as [|i]; cbn in Hi.
  - injection Hi as ->. rewrite drop_0, <- Hx. apply take_app_length.
  - rewrite <- (IH i Hi). cbn [Nat.mul]. rewrite <- Hx at 2. by rewrite drop_app_add.
Qed.
Lemma concat_size (l : list bytes) (size : nat) : Forall (fun b => length b = size) l -> length (concat l) = (length l * size)%nat.
Proof. induction 1 as [|x l Hx _ IH]; [done|]. cbn. rewrite length_app. lia. Qed.

Lemma read_items_all {A} (parse : bytes -> A) (size : nat) (l : list bytes) (hdr rest : bytes) n i :
  Forall (fun b => length b = size) l -> length hdr = 4%nat -> (i + n = length l)%nat ->
  read_items parse size n i (hdr ++ concat l ++ rest) = Ret (parse <$> drop i l).
Proof.
  intros Hl Hh. revert i. induction n as [|n IH]; intros i Hn; [by rewrite drop_ge by lia|]. destruct (l !! i) as [b|] eqn:E; [|by apply lookup_ge_None in E; lia].
  cbn [read_items]. pose proof (concat_size l size Hl) as Hc. rewrite (proj2 (Z.ltb_ge _ _)) by (unfold zlen; rewrite !length_app, Hh, Hc; nia).
  rewrite IH by lia. cbn [obind]. rewrite (drop_S _ _ _ E), fmap_cons. do 3 f_equal. rewrite <- Hh, drop_app_add. by apply concat_item.
Qed.

Record steady (d : Snd) : Prop := { sd_chan : chan_ok (control_queue d); sd_recv : length (queue_buf_recv d) = 4096%nat }.
(** What a query leaves. *)
Record asked (d d' : Snd) : Prop := {
  ak_steady : steady d';
  ak_items : items RJackInfo (dev d') = items RJackInfo (dev d) /\ items RPcmInfo (dev d') = items RPcmInfo (dev d) /\ items RChmapInfo (dev d') = items RChmapInfo (dev d);
  ak_rest : exists q recv, d' = set_control d q recv
}.

Lemma query_all {A} c size (parse : bytes -> A) d :
  steady d -> (c, size) ∈ [(RJackInfo, 24); (RPcmInfo, 32); (RChmapInfo, 24)] -> 4 + size * zlen (items c (dev d)) <= PAGE_SIZE ->
  exists d', query c parse size (zlen (items c (dev d))) 0 (zlen (items c (dev d))) d = Ret (Ok (parse <$> items c (dev d)), d') /\ asked d d'.
Proof using HS HO HSIZE.
  intros [Hc Hr] Hk Hfit. pose proof (items_size c size (dev d) Hk) as Hsz. pose proof (serve_query c size (dev d) Hk Hfit) as Hd. unfold query, request, try.
  assert (Hs : 24 <= size) by (rewrite !elem_of_cons, elem_of_nil in Hk; destruct Hk as [[= -> ->]|[[= -> ->]|[[= -> ->]|[]]]]; lia). set (l := items c (dev d)) in *. pose proof (zlen_nonneg l) as Hl0.
  change PAGE_SIZE with 4096 in Hfit. rewrite u32_small by nia. rewrite Z.add_0_l, Z.ltb_irrefl.
  pose proof (rpc_ok [query_bytes c 0 (zlen l) size] [queue_buf_recv d] (control_queue d) Hc) as Hrpc. change (zlen <$> [queue_buf_recv d]) with [zlen (queue_buf_recv d)] in Hrpc.
  unfold zlen in Hrpc at 3. rewrite Hr in Hrpc. change (Z.of_nat 4096) with PAGE_SIZE in Hrpc. destruct (serve _ _ _) as [[n outs] dv]. destruct Hd as (-> & Hi). destruct Hrpc as (q & E & Hq & Hb).
  { split; [by change (0 < 2 <= SIZE); lia|]. repeat constructor; unfold zlen; rewrite ?Hr; cbn; lia. }
  rewrite E. cbn [obind zip_with hd]. set (ans := le_bytes 4 (code_u32 SOk) ++ concat l) in *.
  assert (Hsz' : Forall (fun b => length b = Z.to_nat size) l) by (eapply Forall_impl; [exact Hsz|]; intros b Hbz; unfold zlen in Hbz; lia).
  assert (Hal : (length ans <= 4096)%nat) by (unfold ans; rewrite length_app, le_bytes_length, (concat_size _ _ Hsz'); unfold zlen in *; nia).
  assert (Hcode : part 0 4 (overlay (queue_buf_recv d) ans) = code_u32 SOk).
  { unfold part, overlay, ans. rewrite drop_0, <- !app_assoc, take_app_length' by (by rewrite le_bytes_length). apply le_val_bytes. cbn. lia. }
  rewrite Hcode. rewrite Z.eqb_refl. cbn [negb set_control queue_buf_recv]. unfold overlay, ans at 1. rewrite <- app_assoc.
  rewrite (read_items_all parse _ l) by first [done | by rewrite le_bytes_length | unfold zlen; lia]. cbn [obind]. eexists. split; [by rewrite drop_0|].
  constructor; [constructor; [done|]|cbn; by rewrite Hb|by eexists _, _].
  change (length (overlay (queue_buf_recv d) ans) = 4096%nat). unfold overlay. rewrite length_app, length_drop. lia.
Qed.

(** The driver before its first call, as [new] leaves it, for this device. *)
Record untouched (d : Snd) : Prop := {
  ut_steady : steady d;
  ut_new : is_set_up d = false /\ pcm_states d = [];
  ut_counts : jacks d = zlen (items RJackInfo (dev d)) /\ streams d = zlen (items RPcmInfo (dev d)) /\ chmaps d = zlen (items RChmapInfo (dev d));
  ut_fit : 4 + 24 * jacks d <= PAGE_SIZE /\ 4 + 32 * streams d <= PAGE_SIZE /\ 4 + 24 * chmaps d <= PAGE_SIZE
}.

Lemma set_up_run d : untouched d ->
  exists d', set_up d = Ret (Ok tt, d') /\ steady d' /\ is_set_up d' = true /\
    jack_infos d' = Some (jack_from <$> items RJackInfo (dev d)) /\ pcm_infos d' = Some (pcm_from <$> items RPcmInfo (dev d)) /\
    chmap_infos d' = Some (chmap_from <$> items RChmapInfo (dev d)) /\ pcm_states d' = replicate (length (items RPcmInfo (dev d))) SetParams.
Proof using HS HO HSIZE.
  intros [Hst [Hn Hps] (J & S & C) (F1 & F2 & F3)]. unfold set_up, jack_info, pcm_info, chmap_info. rewrite J in *. rewrite S in F2. rewrite C in F3.
  destruct (query_all RJackInfo 24 jack_from d Hst ltac:(by left) F1) as (d1 & E1 & [S1 (I1 & I2 & I3) (q1 & r1 & ->)]). rewrite E1. cbn [obind].
  set (d1 := set_infos _ _ _ _). assert (H1 : steady d1) by (by destruct S1; constructor). change (streams d1) with (streams d). rewrite S.
  change (behind (control_queue (set_control d q1 r1))) with (dev d1) in *. rewrite <- I2 in F2 |- *.
  destruct (query_all RPcmInfo 32 pcm_from d1 H1 ltac:(by right; left) F2) as (d2 & E2 & [S2 (K1 & K2 & K3) (q2 & r2 & ->)]). rewrite E2. cbn [try obind].
  set (d2 := set_infos _ _ _ _). assert (H2 : steady d2) by (by destruct S2; constructor). change (chmaps d2) with (chmaps d). rewrite C.
  change (behind (control_queue (set_control d1 q2 r2))) with (dev d2) in *. rewrite <- I3, <- K3 in F3 |- *.
  destruct (query_all RChmapInfo 24 chmap_from d2 H2 ltac:(by right; right; left) F3) as (d3 & E3 & [S3 _ (q3 & r3 & ->)]). rewrite E3. cbn [obind].
  eexists. split; [done|]. split_and!; try done; [by destruct S3; constructor|]. 
  change (pcm_states d ++ replicate (Z.to_nat (streams d)) SetParams = replicate (length (items RPcmInfo (dev d1))) SetParams). rewrite Hps, S, I2. unfold zlen. by rewrite Nat2Z.id.
Qed.

(** Whatever jacks, streams and channel maps the device has (as many as an answer of a
    page holds), the first call of the driver asks for all of them, and [output_streams],
    [input_streams] and the questions about a stream then answer from exactly the device's
    items: the streams of that direction in order, and for a stream that is not there
    [InvalidParam]. *)
Theorem streams_reported d :
  untouched d -> let infos := pcm_from <$> items RPcmInfo (dev d) in
  exists d', output_streams d = Ret (Ok (streams_of VIRTIO_SND_D_OUTPUT infos), d') /\
    input_streams d' = Ret (Ok (streams_of VIRTIO_SND_D_INPUT infos), d') /\
    forall id, 0 <= id ->
      match infos !! Z.to_nat id with
      | Some i => rates_supported id d' = Ret (Ok (rates i), d') /\ formats_supported id d' = Ret (Ok (formats i), d') /\
          channel_range_supported id d' = Ret (Ok (channels_min i, channels_max i), d') /\ features_supported id d' = Ret (Ok (p_features i), d')
      | None => rates_supported id d' = Ret (Err InvalidParam, d') /\ formats_supported id d' = Ret (Err InvalidParam, d') /\
          channel_range_supported id d' = Ret (Err InvalidParam, d') /\ features_supported id d' = Ret (Err InvalidParam, d')
      end.
Proof using HS HO HSIZE.
  intros Hd infos. destruct (set_up_run d Hd) as (d' & E & _ & Hs & _ & Hp & _). exists d'.
  unfold output_streams, input_streams, rates_supported, formats_supported, channel_range_supported, features_supported, stream_info, with_infos, ensure_set_up.
  rewrite (proj1 (ut_new _ Hd)), E. cbn [try obind]. rewrite Hs. cbn [try obind]. rewrite Hp. split_and!; [done..|]. intros id _. fold infos. by destruct (infos !! Z.to_nat id).
Qed.
End catalogue.

(** A card with one jack and two streams. *)
Module Example_card.
#[export] Existing Instance demo_hal.
Definition jack : bytes := replicate 24 1.
Definition stream (dir : Z) : bytes := replicate 24 3 ++ [dir; 1; 2] ++ replicate 5 0.
Definition has (c : CommandCode) : list bytes := match c with RJackInfo => [jack] | RPcmInfo => [stream 1; stream 0] | _ => [] end.
#[export] Instance sound_card : Device := {|
  device := unit;
  serve ins ns s :=
    match ins, ns with
    | [l], [n] => (0, [take (Z.to_nat n) (le_bytes 4 (code_u32 SOk) ++ concat (has (if part 0 4 l =? 1 then RJackInfo else if part 0 4 l =? 0x100 then RPcmInfo else RChmapInfo)))], s)
    | _, _ => (0, (fun _ => []) <$> ns, s)
    end
|}.
#[export] Instance sound_items : SoundDevice.
Proof.
  refine {| items c _ := has c |}; intros c size d Hk; rewrite !elem_of_cons, elem_of_nil in Hk; destruct Hk as [[= -> ->]|[[= -> ->]|[[= -> ->]|[]]]]; repeat constructor; vm_compute; done.
Defined.
Lemma card_fits ins (outs : list bytes) (d : device) : let '(n, written, _) := serve ins (zlen <$> outs) d in Forall2 fits_in written (zlen <$> outs).
Proof.
  assert (Hn : forall (bs : list bytes), Forall2 fits_in ((fun _ : Z => []) <$> (zlen <$> bs)) (zlen <$> bs)) by (induction bs; constructor; [apply zlen_nonneg|done]).
  destruct ins as [|l [|]]; [apply Hn| |apply Hn]. destruct outs as [|b [|]]; [apply (Hn [])| |apply (Hn (_ :: _ :: _))].
  cbn [serve sound_card fmap list_fmap]. constructor; [|constructor]. unfold fits_in, zlen. rewrite length_take. lia.
Qed.
#[export] Instance channel : Channel := VirtqChannel 2 (stack 65536).
#[export] Instance channel_ok : ChannelOk (2 ^ 2) := VirtqChannelOk 2 ltac:(lia) (stack 65536) (fun _ _ _ => eq_refl) (stack_apart 65536) card_fits.
Definition sound : VirtIOSound chan unit :=
  mkSound (mkLink (demo_queue true) (fun _ => 0) tt) tt (demo_queue true) (demo_queue true) 1 2 0 None None None (replicate 2 params_default) (replicate 4096 0) false ∅ [] ∅.
Lemma sound_untouched : untouched sound.
Proof.
  assert (En : new 4 demo_transport 0 true false [] = Ret (Ok (demo_queue true, demo_set true))) by (vm_compute; reflexivity).
  split; try done. split; [|done]. exact (new_link_ok 2 ltac:(lia) _ _ _ _ _ _ _ _ _ En).
Qed.
End Example_card.
Import Example_card.

Lemma streams_reported_witness :
  let infos := pcm_from <$> items RPcmInfo (behind (control_queue sound)) in
  exists d', output_streams sound = Ret (Ok (streams_of VIRTIO_SND_D_OUTPUT infos), d') /\
    input_streams d' = Ret (Ok (streams_of VIRTIO_SND_D_INPUT infos), d') /\
    forall id, 0 <= id ->
      match infos !! Z.to_nat id with
      | Some i => rates_supported id d' = Ret (Ok (rates i), d') /\ formats_supported id d' = Ret (Ok (formats i), d') /\
          channel_range_supported id d' = Ret (Ok (channels_min i, channels_max i), d') /\ features_supported id d' = Ret (Ok (p_features i), d')
      | None => rates_supported id d' = Ret (Err InvalidParam, d') /\ formats_supported id d' = Ret (Err InvalidParam, d') /\
          channel_range_supported id d' = Ret (Err InvalidParam, d') /\ features_supported id d' = Ret (Err InvalidParam, d')
      end.
Proof. refine (streams_reported (SIZE := 2 ^ 2) _ sound sound_untouched). done. Defined.
