(* ===== verification/DevicesUp.v ===== *)
(** * Bringing up the other devices

    [new] of the drivers for disks, consoles, entropy, shared directories, input,
    sockets, graphics and sound, over any transport that keeps its promises: it runs to
    its end, each queue of the driver it returns is on in the device, where the driver
    has put it, and what it has read of the configuration is what the device has. *)

From S2P Require Import Prelude Virtq VirtqInv VirtqRun VirtqThms VirtqOwn Net Transport TransportProofs Channel ChannelVirtq InboxVirtq.
From S2P Require Import VsockUp Blk Console Input P9 Gpu Sound.

(** ** On the way *)

Section way.
Context `{TransportOk} `{DmaOk}.

(** [q] was made by [VirtQueue::new] as queue [idx] of the device of [t], with the
    features [n], and the device of [t'] has it on, at its places. *)
Definition laid_out (t : tr) (n : Z) (t' : tr) (idx SIZE : Z) (q : VirtQueue) : Prop :=
  exists set log, Virtq.new SIZE (mkTransport false (max_of (view t) idx) (requires_legacy_layout t)) idx (contains n (2 ^ 28)) (contains n (2 ^ 29)) log = Ret (Ok (q, set)) /\
    on_at (view t') idx set.

(** From a reset device [v] (by [begin_init]), with the queues [made] on. *)
Record on_way (t : tr) (n : Z) (made : list (Z * Z * VirtQueue)) (t' : tr) : Prop := {
  ow_good : good t';
  ow_paged : paged t';
  ow_legacy : requires_legacy_layout t' = requires_legacy_layout t;
  ow_config : config_len t' = config_len t;
  ow_bell : forall q, has_bell t q -> has_bell t' q;
  ow_device : offered (view t') = offered (view t) /\ accepts (view t') = accepts (view t) /\ accepted (view t') = n /\
    v_config (view t') = v_config (view t) /\ v_generation (view t') = v_generation (view t);
  ow_made : forall i SIZE q, (i, SIZE, q) ∈ made -> laid_out t n t' i SIZE q;
  ow_off : forall i, i ∉ made.*1.*1 -> is_on (view t') i = false /\ max_of (view t') i = max_of (view t) i
}.
Definition status_is (t t' : tr) (n yes no : Z) : Prop := v_status (view t') = if accepts (view t) n then yes else no.

Lemma begin_way known supported t :
  good t -> 0 <= supported < 2 ^ 64 -> Z.land known supported = supported ->
  let n := Z.land (offered (view t)) supported in
  exists t', begin_init known supported t = (n, t') /\ on_way t n [] t'.
Proof.
  intros Hg Hs Hk n. destruct (begin_init_run known supported t Hg Hs Hk) as (t' & E & G & P & L & C & B & V). exists t'. split; [done|].
  constructor; try done; rewrite ?V; try done; [by intros ? ? ? ?%elem_of_nil|]. intros i _. unfold is_on, max_of. cbn. rewrite lookup_fmap. by destruct (queues (view t) !! i).
Qed.

(** A step that leaves the device as it is. *)
Lemma way_steps t n made t1 t2 : on_way t n made t1 -> steps t1 t2 (view t1) -> on_way t n made t2.
Proof. intros [] [V G P L B C]. constructor; rewrite ?V; try done; try congruence; auto. intros i S0 q Hin. unfold laid_out. rewrite V. by apply ow_made0. Qed.

Lemma way_config t n made t1 size align offset :
  on_way t n made t1 -> 0 < align <= 4 -> 0 <= offset < 2 ^ 32 -> 0 < size < 2 ^ 32 -> offset mod align = 0 -> offset + size <= config_len t ->
  exists t2, read_config_space size align offset t1 = Ret (Ok (v_config (view t) size offset), t2) /\ on_way t n made t2 /\ v_status (view t2) = v_status (view t1) /\ steps t1 t2 (view t1).
Proof.
  intros Hw Ha Ho Hs Hm Hl. destruct (ok_config size align offset t1) as (t2 & E & S); try done; [apply Hw|by rewrite (ow_config _ _ _ _ Hw)|].
  exists t2. rewrite E. destruct (ow_device _ _ _ _ Hw) as (_ & _ & _ & -> & _). split_and!; [done|by eapply way_steps|by rewrite (st_view _ _ _ S)|done].
Qed.

Lemma way_queue t n made t1 SIZE idx log :
  on_way t n made t1 -> size_ok SIZE -> 0 <= idx < 2 ^ 16 -> idx ∉ made.*1.*1 -> SIZE <= max_of (view t) idx ->
  exists r t2, make_queue SIZE idx (contains n (2 ^ 28)) (contains n (2 ^ 29)) log t1 = Ret (r, t2) /\
    match r with
    | Err e => e = DmaError /\ no_memory
    | Ok q => on_way t n ((idx, SIZE, q) :: made) t2
    end.
Proof.
  intros Hw Hs Hi Hn Hm. pose proof (ow_off _ _ _ _ Hw idx Hn) as [Hoff Hmax].
  destruct (make_queue_run SIZE idx (contains n (2 ^ 28)) (contains n (2 ^ 29)) log t1) as (r & t2 & E & Hr); try done; [apply Hw|apply Hw|by rewrite Hmax|].
  exists r, t2. split; [done|]. destruct r as [q|e]; [|by destruct Hr as (? & ? & _)]. destruct Hr as [[_ G P L B C] (set & En & V)]. rewrite Hmax in En. pose proof (ow_legacy _ _ _ _ Hw) as HL. rewrite HL in En.
  pose proof (new_run SIZE (max_of (view t) idx) (requires_legacy_layout t) idx (contains n (2 ^ 28)) (contains n (2 ^ 29)) log Hs Hm) as (r1 & E1 & Hr1). rewrite En in E1. injection E1 as <-. destruct Hr1 as (_ & Es & _).
  assert (exists x, queues (view t1) !! idx = Some x) as [x Hx].
  { rewrite <- Hmax in Hm. unfold max_of in Hm. destruct (queues (view t1) !! idx) as [x|]; [by eexists|]. destruct (power_of_two SIZE Hs) as (k & Hk & ->). pose proof (Z.pow_pos_nonneg 2 k). lia. }
  destruct Hw as [G1 P1 L1 C1 B1 D1 M1 O1]. constructor; try done; try congruence; auto.
  - by rewrite V.
  - intros i S0 q0 Hin. apply elem_of_cons in Hin as [[= -> -> ->]|Hin].
    + exists set, log. split; [done|]. exists x. rewrite V. cbn. by rewrite lookup_alter_eq, Hx, Es.
    + destruct (M1 i S0 q0 Hin) as (set0 & log0 & E0 & x0 & W0). exists set0, log0. split; [done|]. exists x0. rewrite V. cbn. rewrite lookup_alter_ne; [done|]. intros ->. apply Hn. apply list_elem_of_fmap. exists (i, S0). split; [done|]. apply list_elem_of_fmap. by exists (i, S0, q0).
  - intros i Hni. cbn in Hni. apply not_elem_of_cons in Hni as [Hne Hni]. unfold is_on, max_of. rewrite V. cbn. rewrite lookup_alter_ne by done. by apply O1.
Qed.

Lemma way_finish t n made t1 : on_way t n made t1 -> on_way t n made (finish_init t1) /\ status_is t (finish_init t1) n 15 7.
Proof.
  intros Hw. unfold finish_init. change (Z.lor _ DRIVER_OK) with 15. destruct (ok_set_status 15 t1 (ow_good _ _ _ _ Hw) ltac:(lia) eq_refl) as [V G P L B C].
  assert (Hq : queues (view (set_status 15 t1)) = queues (view t1)) by by rewrite V. destruct (ow_device _ _ _ _ Hw) as (D1 & D2 & D3 & D4 & D5). split.
  - destruct Hw as [G1 P1 L1 C1 B1 _ M1 O1]. constructor; try done; try congruence; auto.
    + by rewrite V.
    + intros i S0 q0 Hin. destruct (M1 i S0 q0 Hin) as (set0 & log0 & E0 & W0). exists set0, log0. split; [done|]. unfold on_at. by rewrite Hq.
    + intros i Hi. unfold is_on, max_of. rewrite Hq. by apply O1.
  - unfold status_is in *. rewrite V. unfold dev_set_status, status_after. cbn. rewrite D2, D3. by destruct (accepts (view t) n).
Qed.

Lemma way_notify t n made t1 (b : bool) idx : on_way t n made t1 -> 0 <= idx < 2 ^ 16 -> has_bell t idx ->
  exists t2, (if b then notify idx t1 else Ret t1) = Ret t2 /\ on_way t n made t2 /\ v_status (view t2) = v_status (view t1).
Proof.
  intros Hw Hi Hb. destruct b; [|by exists t1]. destruct (ok_notify idx t1 (ow_good _ _ _ _ Hw) Hi) as (t2 & E & [V G P L B C]); [by apply (ow_bell _ _ _ _ Hw)|].
  exists t2. split; [done|]. destruct Hw as [G1 P1 L1 C1 B1 D1 M1 O1]. split; [|by rewrite V]. constructor; rewrite ?V; try done; try congruence; auto.
  intros i S0 q Hin. destruct (M1 i S0 q Hin) as (set0 & log0 & E0 & W0). exists set0, log0. split; [done|]. unfold on_at. by rewrite V.
Qed.

(** A 64-bit value of the configuration, in two halves. *)
Definition two_halves (t : tr) : outcome (Result Z * tr) :=
  do? (low, t) <- read_config_space 4 4 0 t;
  do? (high, t) <- read_config_space 4 4 4 t;
  Ret (Ok (Z.lor low (Z.shiftl high 32)), t).
Lemma way_u64 t n made t1 fuel : on_way t n made t1 -> 8 <= config_len t ->
  exists t2, read_consistent (S fuel) two_halves t1 = Ret (Ok (Z.lor (v_config (view t) 4 0) (Z.shiftl (v_config (view t) 4 4) 32)), t2) /\ on_way t n made t2.
Proof.
  intros Hw Hc. destruct (read_consistent_run fuel two_halves t1 (Ok (Z.lor (v_config (view t) 4 0) (Z.shiftl (v_config (view t) 4 4) 32))) t1 (ow_good _ _ _ _ Hw)) as (t2 & E & S); [|done|].
  2: { exists t2. split; [done|]. by eapply way_steps. }
  intros t0 S0. pose proof (way_steps _ _ _ _ _ Hw S0) as W0. unfold two_halves. destruct (way_config t n made t0 4 4 0 W0) as (t2 & E2 & W2 & _ & S2); [lia..|done|lia|]. rewrite E2. cbn [try obind].
  destruct (way_config t n made t2 4 4 4 W2) as (t3 & E3 & W3 & _ & S3); [lia..|done|lia|]. rewrite E3. cbn [try obind]. eexists. split; [reflexivity|].
  rewrite (st_view _ _ _ S0) in S2. rewrite (st_view _ _ _ S2) in S3. by do 2 (eapply steps_trans; [done|]).
Qed.

(** What is shown of each driver.  [new] ends; an error is one of [errors], and
    [DmaError] only if there is no memory.  Otherwise the device was given the features
    both sides have; its status says whether it has accepted them; the driver is as [P]
    says, where [P] is about the features and about what it means that a queue is on in
    the device; no queue but [qs] is on. *)
Definition came_up {D} (t : tr) (supported : Z) (errors : list Error) (qs : list Z) (P : Z -> (Z -> Z -> VirtQueue -> Prop) -> D -> Prop)
    (run : outcome (Result D * tr)) : Prop :=
  exists r t', run = Ret (r, t') /\
    match r with
    | Err e => e ∈ errors /\ (e = DmaError -> no_memory)
    | Ok d => let n := Z.land (offered (view t)) supported in
        accepted (view t') = n /\ v_status (view t') = (if accepts (view t) n then 15 else 7) /\ P n (laid_out t n t') d /\
        (forall i, i ∉ qs -> is_on (view t') i = false)
    end.

Lemma up_done {D} t supported errors qs P made t' (d : D) :
  on_way t (Z.land (offered (view t)) supported) made t' -> status_is t t' (Z.land (offered (view t)) supported) 15 7 -> made.*1.*1 ≡ₚ qs ->
  P (Z.land (offered (view t)) supported) (laid_out t (Z.land (offered (view t)) supported) t') d -> came_up t supported errors qs P (Ret (Ok d, t')).
Proof.
  intros Hw Hs Hp Hd. exists (Ok d), t'. split; [done|]. destruct (ow_device _ _ _ _ Hw) as (_ & _ & Ha & _). split_and!; [done|done|done|].
  intros i Hi. rewrite <- Hp in Hi. by apply (ow_off _ _ _ _ Hw).
Qed.
Lemma up_no_memory {D} t supported errors qs P t' e : e = DmaError /\ no_memory -> DmaError ∈ errors -> came_up t supported errors qs P (Ret (@Err D e, t')).
Proof. intros [-> Hn] He. by exists (Err DmaError), t'. Qed.
Lemma up_error {D} t supported errors qs P t' e : e ∈ errors -> e <> DmaError -> came_up t supported errors qs P (Ret (@Err D e, t')).
Proof. intros He Hne. by exists (Err e), t'. Qed.
End way.

(** ** The drivers *)

Section drivers.
Context `{TransportOk} `{DmaOk}.

(** The device has the queues, with places to notify them. *)
Definition has_queues (t : tr) (qs : list (Z * Z)) : Prop :=
  good t /\ forall i SIZE, (i, SIZE) ∈ qs -> SIZE <= max_of (view t) i /\ has_bell t i.

(** A new queue can be stocked with buffers. *)
Lemma owning_made k BS trn idx ind ev log q set : 0 <= k < 16 -> 0 < BS < 2 ^ 32 ->
  Virtq.new (2 ^ k) trn idx ind ev log = Ret (Ok (q, set)) -> exists o, owning_new (2 ^ k) BS q = Ret (Ok o).
Proof.
  intros Hk Hb Hn. destruct (new_fresh k Hk _ _ _ _ _ _ _ Hn) as ((Hq & Ha & Hl & _) & _).
  destruct (owning_loop_ok k Hk BS Hb (Z.to_nat (2 ^ k)) 0 q [] [] Hq) as (q' & bufs & fs & E & _); [unfold idx_ok; lia|done|by apply Forall_nil|by eexists].
Qed.
Lemma stock_made trn idx ind ev log q set base : Virtq.new 32 trn idx ind ev log = Ret (Ok (q, set)) -> exists q', stock_events 32 0 base q = Ret (Ok q').
Proof.
  intros Hn. change 32 with (2 ^ 5) in Hn. destruct (fresh_filling 5 ltac:(lia) 8 _ _ _ _ _ _ _ Hn) as [Hq Hf].
  destruct (stock_run 32 0 q [] base Hq Hf eq_refl) as (q' & _ & E & _). by exists q'.
Qed.

(** The tag of a shared directory, and the 64-bit number at the start of the
    configuration. *)
Definition tag_of (v : vdevice) (idx : Z) (k : nat) : bytes := (fun i => v_config v 1 (2 + idx + Z.of_nat i)) <$> seq 0 k.
Definition mount_tag (v : vdevice) : bytes := tag_of v 0 (Z.to_nat (v_config v 2 0)).
Definition first_u64 (v : vdevice) : Z := Z.lor (v_config v 4 0) (Z.shiftl (v_config v 4 4) 32).

(** What [new] returns, by the kind of the driver. *)
Inductive handle :=
| HBlk (d : VirtIOBlk VirtQueue) | HConsole (d : VirtIOConsole port VirtQueue) | HRng (d : VirtQueue) | HP9 (d : VirtQueue * bytes)
| HInput (d : VirtIOInput) | HVsock (d : VirtIOSocketQueues) | HGpu (d : VirtIOGpu VirtQueue) | HSound (d : VirtIOSound VirtQueue OwningQueue).

(** The driver is ready: with the features [n], each of its queues is on at the device
    under the number the virtio specification gives it, stocked where it receives, and
    its numbers are those of the device [v]. *)
Definition ready (v : vdevice) (rx_size buf : Z) (n : Z) (on : Z -> Z -> VirtQueue -> Prop) (h : handle) : Prop :=
  match h with
  | HBlk d => on 0 16 (Blk.queue d) /\ capacity d = first_u64 v /\ Blk.negotiated_features d = n
  | HConsole d => (exists q token, on 0 2 q /\ add 2 [] [mkBuf (p_buf (receiveq d)) PAGE_SIZE] q = Ret (Ok token, p_q (receiveq d)) /\ receive_token d = Some token) /\
      on 1 2 (transmitq d) /\ con_features d = n /\ Console.cursor d = 0 /\ pending_len d = 0
  | HRng q => on 0 8 q
  | HP9 (q, tag) => on 0 16 q /\ tag = mount_tag v
  | HInput d => (exists q, on 0 32 q /\ stock_events 32 0 buf q = Ret (Ok (Input.event_queue d))) /\ on 1 32 (status_queue d) /\ event_buf d = buf
  | HVsock d => (exists q, on 0 8 q /\ owning_new 8 rx_size q = Ret (Ok (so_rx d))) /\ on 1 8 (so_tx d) /\ on 2 8 (so_event d) /\ so_cid d = first_u64 v
  | HGpu d => on 0 2 (Gpu.control_queue d) /\ on 1 2 (cursor_queue d) /\ has_edid d = contains n GPU_EDID
  | HSound d => on 0 32 (Sound.control_queue d) /\ (exists q, on 1 32 q /\ owning_new 32 8 q = Ret (Ok (Sound.event_queue d))) /\ on 2 32 (tx_queue d) /\ on 3 32 (rx_queue d) /\
      jacks d = v_config v 4 0 /\ streams d = v_config v 4 4 /\ chmaps d = v_config v 4 8
  end.

Ltac absent := cbn; rewrite ?not_elem_of_cons; split_and?; lia || by apply not_elem_of_nil.
(** The next queue is made, or there is no memory. *)
Ltac next_queue W Hq :=
  match goal with |- context [make_queue ?S ?i _ _ ?l ?t1] =>
    let E := fresh "E" in let Hr := fresh "Hr" in
    destruct (way_queue _ _ _ t1 S i l W) as ([?q|?e] & ?t & E & Hr); [by split|lia|absent|apply Hq; set_solver|..]; rewrite E; cbn [try obind];
    [clear W; rename Hr into W|by apply up_no_memory; [|left]]
  end.
Ltac start Hg n W :=
  match goal with |- context [begin_init ?known ?supported ?t] =>
    let E := fresh "E" in
    destruct (begin_way known supported t Hg) as (?t & E & W); [by vm_compute..|]; rewrite E; set (n := Z.land _ _) in *
  end.
Ltac finish W :=
  match goal with |- context [finish_init ?t1] => let W' := fresh in destruct (way_finish _ _ _ t1 W) as [W' ?S]; clear W; rename W' into W end.
(** A queue that was made. *)
Ltac made W := apply (ow_made _ _ _ _ W); rewrite !elem_of_cons; by eauto 6.
(** The call of [VirtQueue::new] that made queue [i]. *)
Ltac new_of W i SIZE q En := assert (laid_out _ _ _ i SIZE q) as (?set & ?log & En & _) by made W.

Lemma blk_up fuel t rx buf : has_queues t [(0, 16)] -> 8 <= config_len t ->
  came_up t BLK_SUPPORTED [DmaError] [0] (fun n on d => ready (view t) rx buf n on (HBlk d)) (blk_new (S fuel) t).
Proof.
  intros [Hg Hq] Hc. unfold blk_new. start Hg n W.
  destruct (way_u64 t n [] _ fuel W Hc) as (t2 & E2 & W2). fold two_halves. rewrite E2. cbn [try obind]. next_queue W2 Hq. finish W2. eapply up_done; [done..|].
  split_and!; [made W2|done..].
Qed.
Lemma rng_up t rx buf : has_queues t [(0, 8)] -> came_up t RNG_SUPPORTED [DmaError] [0] (fun n on d => ready (view t) rx buf n on (HRng d)) (rng_new t).
Proof. intros [Hg Hq]. unfold rng_new. start Hg n W. next_queue W Hq. finish W. eapply up_done; [done..|]. cbn. made W. Qed.
Lemma console_up m t rx buf : has_queues t [(0, 2); (1, 2)] ->
  came_up t CONSOLE_SUPPORTED [DmaError] [0; 1] (fun n on d => ready (view t) rx buf n on (HConsole d)) (console_new m t).
Proof.
  intros [Hg Hq]. unfold console_new. start Hg n W. next_queue W Hq. next_queue W Hq. finish W.
  new_of W 0 2 q En. destruct (quiet_add 1 ltac:(lia) q [] [mkBuf (hal_box (hal_log q0) PAGE_SIZE) PAGE_SIZE]) as (f & q' & free & Ea & _).
  { by eapply (quiet_new 1). }
  { repeat constructor. }
  { done. }
  change (2 ^ 1) with 2 in Ea. unfold poll_retrieve. cbn -[Z.pow finish_init mem_write]. rewrite Ea. cbn -[Z.pow finish_init mem_write].
  match goal with |- context [should_notify ?x] => destruct (should_notify x) end; cbn -[Z.pow finish_init mem_write].
  - destruct (way_notify t n _ _ true 0 W) as (u3 & F3 & W3 & S3); [lia|apply (Hq 0 2); by left|]. rewrite F3. cbn [obind].
    eapply up_done; [done|unfold status_is in *; by rewrite S3|by apply Permutation_swap|]. split_and!; [|made W3|done..]. exists q, (f_token f). split_and!; [made W3|done..].
  - eapply up_done; [done..|by apply Permutation_swap|]. split_and!; [|made W|done..]. exists q, (f_token f). split_and!; [made W|done..].
Qed.
Lemma input_up base t rx : has_queues t [(0, 32); (1, 32)] ->
  came_up t INPUT_SUPPORTED [DmaError] [0; 1] (fun n on d => ready (view t) rx base n on (HInput d)) (input_new base t).
Proof.
  intros [Hg Hq]. unfold input_new. start Hg n W. next_queue W Hq. next_queue W Hq. new_of W 0 32 q En. destruct (stock_made _ _ _ _ _ _ _ base En) as (q' & Es). rewrite Es. cbn [obind].
  destruct (way_notify t n _ _ (should_notify q') 0 W) as (u3 & F3 & W3 & S3); [lia|apply (Hq 0 32); by left|]. rewrite F3. cbn [obind]. finish W3. eapply up_done; [done..|by apply Permutation_swap|].
  split_and!; [|made W3|done]. exists q. split; [made W3|done].
Qed.
(** The next number of the configuration. *)
Ltac next_config W :=
  match goal with |- context [read_config_space ?size ?align ?offset ?t1] =>
    let E := fresh "E" in let W' := fresh in
    destruct (way_config _ _ _ t1 size align offset W) as (?t & E & W' & _ & _); [lia..|done|lia|]; rewrite E; cbn [try obind]; clear W; rename W' into W
  end.
Lemma gpu_up m t rx buf : has_queues t [(0, 2); (1, 2)] -> 12 <= config_len t ->
  came_up t GPU_SUPPORTED [DmaError] [0; 1] (fun n on d => ready (view t) rx buf n on (HGpu d)) (gpu_new m t).
Proof.
  intros [Hg Hq] Hc. unfold gpu_new. start Hg n W. next_config W. next_config W. next_queue W Hq. next_queue W Hq. finish W. eapply up_done; [done..|by apply Permutation_swap|].
  split_and!; [made W|made W|done].
Qed.
Lemma vsock_up BS fuel t buf : 44 < BS < 2 ^ 32 -> has_queues t [(0, 8); (1, 8); (2, 8)] -> 8 <= config_len t ->
  came_up t VSOCK_SUPPORTED [DmaError] [0; 1; 2] (fun n on d => ready (view t) BS buf n on (HVsock d)) (vsock_new BS (S fuel) t).
Proof.
  intros Hb [Hg Hq] Hc. unfold vsock_new. rewrite (proj2 (Z.leb_gt _ _)) by lia. start Hg n W. destruct (way_u64 t n [] _ fuel W Hc) as (t2 & E2 & W2). fold two_halves. rewrite E2. cbn [try obind].
  next_queue W2 Hq. next_queue W2 Hq. next_queue W2 Hq. new_of W2 0 8 q En. change 8 with (2 ^ 3) in En. destruct (owning_made 3 BS _ _ _ _ _ _ _ ltac:(lia) ltac:(lia) En) as [o Eo]. change (2 ^ 3) with 8 in Eo.
  rewrite Eo. cbn [try obind]. finish W2. destruct (way_notify t n _ _ (should_notify (Virtq.queue o)) 0 W2) as (u3 & F3 & W3 & S3); [lia|apply (Hq 0 8); by left|]. rewrite F3. cbn [obind].
  eapply up_done; [done|unfold status_is in *; by rewrite S3|apply (reverse_Permutation [0; 1; 2])|]. split_and!; [|made W3|made W3|done]. exists q. split; [made W3|done].
Qed.
Lemma sound_up t rx buf : has_queues t [(0, 32); (1, 32); (2, 32); (3, 32)] -> 12 <= config_len t ->
  came_up t SOUND_SUPPORTED [DmaError] [0; 1; 2; 3] (fun n on d => ready (view t) rx buf n on (HSound d)) (sound_new t).
Proof.
  intros [Hg Hq] Hc. unfold sound_new. start Hg n W. next_queue W Hq. next_queue W Hq. new_of W 1 32 q0 En. change 32 with (2 ^ 5) in En. destruct (owning_made 5 8 _ _ _ _ _ _ _ ltac:(lia) ltac:(lia) En) as [o Eo]. change (2 ^ 5) with 32 in Eo.
  rewrite Eo. cbn [try obind]. next_queue W Hq. next_queue W Hq. next_config W. next_config W. next_config W. finish W.
  destruct (way_notify t n _ _ (should_notify (Virtq.queue o)) 1 W) as (u3 & F3 & W3 & S3); [lia|apply (Hq 1 32); by right; left|]. rewrite F3. cbn [obind].
  eapply up_done; [done|unfold status_is in *; by rewrite S3|apply (reverse_Permutation [0; 1; 2; 3])|]. split_and!; [made W3| |made W3|made W3|done..]. exists q0. split; [made W3|done].
Qed.

(** The tag of a shared directory is read once the device is in operation. *)
Lemma tag_bytes_run t n made k idx t1 : on_way t n made t1 -> 0 <= idx -> 2 + idx + Z.of_nat k <= config_len t -> config_len t < 2 ^ 32 ->
  exists t2, read_tag_bytes k idx t1 = Ret (Ok (tag_of (view t) idx k), t2) /\ steps t1 t2 (view t1).
Proof.
  revert idx t1. induction k as [|k IH]; intros idx t1 W Hi Hl Hc; cbn [read_tag_bytes].
  - exists t1. split; [done|]. by constructor; try done; apply W.
  - destruct (way_config t n made t1 1 1 (2 + idx) W) as (t2 & E & W2 & _ & S2); [lia..|apply Z.mod_1_r|lia|]. rewrite E. cbn [try obind].
    destruct (IH (idx + 1) t2 W2 ltac:(lia) ltac:(lia) Hc) as (t3 & E3 & S3). rewrite E3. cbn [try obind]. eexists. split; [|rewrite (st_view _ _ _ S2) in S3; by eapply steps_trans].
    do 3 f_equal. unfold tag_of. cbn [seq fmap list_fmap]. rewrite <- fmap_S_seq, <- list_fmap_compose. f_equal; [f_equal; lia|]. apply list_fmap_ext. intros i x _. cbn. f_equal. lia.
Qed.
(** The errors of the shared directory: no tag, or one that is not text. *)
Definition p9_errors (v : vdevice) : list Error :=
  DmaError :: if v_config v 2 0 =? 0 then [InvalidParam] else if from_utf8 (mount_tag v) then [] else [IoError].
Lemma p9_up fuel t rx buf : has_queues t [(0, 16)] -> 2 + Z.max 0 (v_config (view t) 2 0) <= config_len t < 2 ^ 32 ->
  came_up t P9_SUPPORTED (p9_errors (view t)) [0] (fun n on d => ready (view t) rx buf n on (HP9 d)) (p9_new (S fuel) t).
Proof.
  intros [Hg Hq] Hc. unfold p9_new. start Hg n W. next_queue W Hq. finish W. set (u := finish_init t1) in *. unfold read_mount_tag. set (f := fun t : tr => _). unfold p9_errors, mount_tag. set (len := v_config (view t) 2 0) in *.
  set (tag := tag_of (view t) 0 (Z.to_nat len)).
  destruct (read_consistent_run fuel f u (if len =? 0 then Err InvalidParam else if from_utf8 tag then Ok tag else Err IoError) u (ow_good _ _ _ _ W)) as (t2 & E2 & S2); [|done|].
  - intros t0' S0. pose proof (way_steps _ _ _ _ _ W S0) as W0. unfold f. destruct (way_config _ _ _ t0' 2 2 0 W0) as (t2 & E2 & W2 & _ & S2); [lia..|done|lia|]. rewrite E2. cbn [try obind]. fold len.
    rewrite (st_view _ _ _ S0) in S2. pose proof (steps_trans _ _ _ _ _ S0 S2) as S02. destruct (len =? 0); [by exists t2|]. destruct (tag_bytes_run _ _ _ (Z.to_nat len) 0 t2 W2) as (t3 & E3 & S3); [lia..|]. rewrite E3. cbn [try obind]. eexists. split; [done|]. rewrite (st_view _ _ _ S2) in S3. by eapply steps_trans.
  - rewrite E2. cbn [try obind]. destruct (len =? 0); [apply up_error; set_solver|]. destruct (from_utf8 tag); [|apply up_error; set_solver].
    pose proof (way_steps _ _ _ _ _ W S2) as W2. eapply up_done; [done|unfold status_is in *; by rewrite (st_view _ _ _ S2)|done|]. split; [made W2|done].
Qed.

(** ** All of them *)

Inductive driver := DBlk | DConsole | DRng | DP9 | DInput | DVsock | DGpu | DSound.
Definition queues_of (x : driver) : list (Z * Z) :=
  match x with
  | DBlk | DP9 => [(0, 16)]
  | DRng => [(0, 8)]
  | DConsole | DGpu => [(0, 2); (1, 2)]
  | DInput => [(0, 32); (1, 32)]
  | DVsock => [(0, 8); (1, 8); (2, 8)]
  | DSound => [(0, 32); (1, 32); (2, 32); (3, 32)]
  end.
Definition supported_of (x : driver) : Z :=
  match x with
  | DBlk => BLK_SUPPORTED | DConsole => CONSOLE_SUPPORTED | DRng => RNG_SUPPORTED | DP9 => P9_SUPPORTED | DInput => INPUT_SUPPORTED
  | DVsock => VSOCK_SUPPORTED | DGpu => GPU_SUPPORTED | DSound => SOUND_SUPPORTED
  end.
(** The configuration the driver reads. *)
Definition config_of (x : driver) (v : vdevice) : Z :=
  match x with DBlk | DVsock => 8 | DGpu | DSound => 12 | DP9 => 2 + Z.max 0 (v_config v 2 0) | DConsole | DRng | DInput => 0 end.
Definition errors_of (x : driver) (v : vdevice) : list Error := match x with DP9 => p9_errors v | _ => [DmaError] end.
(** The kind of driver that was asked for. *)
Definition kind (h : handle) : driver :=
  match h with HBlk _ => DBlk | HConsole _ => DConsole | HRng _ => DRng | HP9 _ => DP9 | HInput _ => DInput | HVsock _ => DVsock | HGpu _ => DGpu | HSound _ => DSound end.

(** [new] of each driver; [buf] and [m] are the driver's boxes. *)
Definition as_handle {D} (C : D -> handle) (run : outcome (Result D * tr)) : outcome (Result handle * tr) := do? (d, t) <- run; Ret (Ok (C d), t).
Definition new_driver (x : driver) (fuel : nat) (rx_size buf : Z) (m : mem) (t : tr) : outcome (Result handle * tr) :=
  match x with
  | DBlk => as_handle HBlk (blk_new fuel t) | DConsole => as_handle HConsole (console_new m t) | DRng => as_handle HRng (rng_new t)
  | DP9 => as_handle HP9 (p9_new fuel t) | DInput => as_handle HInput (input_new buf t) | DVsock => as_handle HVsock (vsock_new rx_size fuel t)
  | DGpu => as_handle HGpu (gpu_new m t) | DSound => as_handle HSound (sound_new t)
  end.

Lemma handle_up {D} (C : D -> handle) x t supported errors qs rx buf (run : outcome (Result D * tr)) :
  (forall d, kind (C d) = x) -> came_up t supported errors qs (fun n on d => ready (view t) rx buf n on (C d)) run ->
  came_up t supported errors qs (fun n on h => kind h = x /\ ready (view t) rx buf n on h) (as_handle C run).
Proof. intros Hk (r & t' & -> & Hr). destruct r; eexists _, _; (split; [reflexivity|]); [|done]. destruct Hr as (? & ? & ? & ?). by split_and!. Qed.

(** C18: Bringing up a disk, a console, an entropy device, a shared directory, an input
    device, a virtio socket, a graphics adapter or a sound card.  Take any transport that
    keeps its promises and memory for the device in whole pages; let the device have the
    driver's queues, each at least of the driver's size and with a place to be notified
    at, and at least the configuration the driver reads; let the receive buffers of a
    virtio socket be of more than 44 bytes and less than 2^32.  Then [new] runs to its
    end without a panic; its only error is [DmaError], and only if a request for memory
    is refused (for the shared directory also [InvalidParam] when the device has no tag
    and [IoError] when the tag is not text).  Otherwise the device was given the features
    both sides have, and the driver returned is ready: every queue in it is on in the
    device under the number the specification has for it, with the size and at the places
    [VirtQueue::new] has laid out; the queues for reception hold their buffers; capacity,
    address, tag and counts are the device's.  No other queue is on.  The status is 15,
    in operation, if the device accepts the features; if it refuses them it is 7 and
    [new] succeeds all the same: it does not look. *)
Theorem devices_come_up x fuel rx_size buf m t :
  has_queues t (queues_of x) -> config_of x (view t) <= config_len t < 2 ^ 32 -> 44 < rx_size < 2 ^ 32 ->
  came_up t (supported_of x) (errors_of x (view t)) (queues_of x).*1 (fun n on h => kind h = x /\ ready (view t) rx_size buf n on h)
    (new_driver x (S fuel) rx_size buf m t).
Proof.
  intros Hq Hc Hr. destruct x; (apply handle_up; [done|]); cbn in Hq, Hc;
    [apply blk_up|apply console_up|apply rng_up|apply p9_up|apply input_up|apply vsock_up|apply gpu_up|apply sound_up]; done || lia.
Qed.
End drivers.

Import CardRegs.
(** A sound card behind the PCI transport. *)
Module Example_up.
Definition sound_device : vdevice := mkV (2 ^ 32 + 2 ^ 29) (fun _ => true) 7 15 {[0 := idle_queue; 1 := idle_queue; 2 := idle_queue; 3 := idle_queue]} 0 [] (fun _ offset => offset / 4) 0.
Definition start : @tr pci_transport := (transport, mkP sound_device 0 0 0).
Lemma lookup_queue i q : queues sound_device !! i = Some q -> q = idle_queue.
Proof. cbn. rewrite !lookup_insert_Some, lookup_singleton_Some. naive_solver. Qed.
Lemma start_has_queues : @has_queues _ pci_view start (queues_of DSound).
Proof.
  split; [split; [done|]|].
  - constructor; [vm_compute; split; [discriminate|reflexivity]|reflexivity|]. intros i q Hi. apply lookup_queue in Hi as ->. by vm_compute.
  - intros i SIZE Hin. cbn in Hin. rewrite !elem_of_cons, elem_of_nil in Hin.
    destruct Hin as [[= -> ->]|[[= -> ->]|[[= -> ->]|[[= -> ->]|[]]]]]; (split; [vm_compute; discriminate|exists 1; vm_compute; repeat split; discriminate || done]).
Qed.
End Example_up.

Lemma devices_come_up_witness :
  @came_up _ pci_view _ _ Example_up.start SOUND_SUPPORTED [DmaError] [0; 1; 2; 3]
    (fun n on h => kind h = DSound /\ ready Example_up.sound_device 64 0 n on h)
    (@new_driver pci_transport _ DSound 1 64 0 (fun _ => 0) Example_up.start).
Proof.
  refine (@devices_come_up _ _ pci_ok _ CardRegs.pages_hal_ok DSound 0 64 0 (fun _ => 0) Example_up.start Example_up.start_has_queues _ _); [by vm_compute|lia].
Defined.
